(* ===== verification/_CoqProject ===== *)
-Q . S2P
Prelude.v
Counting.v
Idr.v
DrmMm.v
DrmMmSpec.v
DrmMmThms.v
DrmMmScan.v
DrmMmProps.v
DpSideband.v
DpCrc.v
DpSidebandSpec.v
DpMst.v
DpMstSpec.v
DpMstInv.v
DpReply.v
DpProps.v
DrmRect.v
DrmRectProps.v
DrmModes.v
DrmCmdline.v
DrmCmdlineProps.v
DrmModesProps.v
DrmHashtab.v
DrmHashtabProps.v
DrmVma.v
DrmVmaProps.v
DpPayload.v
DpPayloadProps.v
Atom.v
AtomSpec.v
AtomProps.v
AtomRun.v
NvMm.v
NvMmSpec.v
NvMmProps.v
DpHelper.v
DpHelperProps.v
TtmLock.v
TtmLockProps.v
DrmEdid.v
DrmEdidProps.v
DrmEdidCea.v
DrmEdidCeaProps.v
DrmEdidTables.v
DrmEdidModes.v
DrmEdidHdmi.v
DrmEdidModesProps.v
DrmDisplayId.v
DrmDisplayIdProps.v
DrmGem.v
DrmPrime.v
DrmGemInv.v
DrmGemMoves.v
DrmGemHandles.v
DrmGemShare.v
DrmGemCreate.v
DrmGemWp.v
DrmGemCalls.v
DrmGemSys.v
DrmGemProps.v
I915Reg.v
I915Cmd.v
I915CmdProps.v
DrmIrq.v
DrmIrqSpec.v
DrmIrqInv.v
DrmIrqOps.v
DrmIrqSys.v
DrmIrqCount.v
DrmIrqProps.v
DrmFormats.v
DrmFormatsProps.v
DrmPlane.v
DrmPlaneProps.v
DrmFb.v
DrmFbInv.v
DrmFbOps.v
DrmFbCalls.v
DrmFbSys.v
DrmFbProps.v
