(* ===== verification/Prelude.v ===== *)
(** * A verification library for the Linux DRM subsystem (drm-subtree)

    The repository is the [drivers/gpu/drm] tree of the Linux kernel: a core of
    helper libraries (files [src/drm_*.c]) and the drivers of graphics hardware
    that use them.  The library models core components whose correctness the
    drivers rely on, at the widths of their C integers, and proves what each
    promises to its callers.

    ** The parts and where they are modelled

    - The range allocator, [src/drm_mm.c].  [DrmMm] has the state of
      [struct drm_mm] (node structures in a heap of identifiers, the ring of
      nodes in address order, the stack of holes, the scan state) and one
      definition per function, the LRU scan and the dump included.  [DrmMmSpec]
      states the invariant [wf] and proves insertion; [DrmMmThms] reservation,
      removal and initialisation; [DrmMmScan] the scan; [DrmMmProps] the
      abstract allocator (a finite map from nodes to ranges), the refinement
      for arbitrary sequences of operations and the theorems on the scan.
    - The mmap offset manager, [src/drm_vma_manager.c].  [DrmVma] is written
      against a type class of the allocator ([range_alloc]) and one of the
      kernel's red-black trees ([rbtree]).  [DrmVmaProps] states the laws of the
      two interfaces, proves the refinement, the lookup and the counting of open
      files from them, and discharges the laws of the allocator with the
      theorems on drm_mm.c.
    - The open hash table, [src/drm_hashtab.c]: [DrmHashtab] and
      [DrmHashtabProps] (refinement of a finite map, the search for a free key).
    - DisplayPort multi-stream transport, [src/drm_dp_mst_topology.c].
      [DpSideband] has the CRCs, the header codec, the request encoder, the
      reassembly of messages and the reply parsers; [DpCrc] proves the CRCs to be
      polynomial division over GF(2) and to detect bursts; [DpSidebandSpec] the
      header round trip and the reassembly.  [DpMst] has the transmit queues, the
      slots of branch devices, chunking, reception and reply matching on shared
      message objects; [DpMstSpec] and [DpMstInv] sending and the invariant of
      the slots; [DpReply] the parsers against the message formats; [DpProps] the
      theorems.  [DpPayload] has the payload table (channel identifiers, time
      slots, the two parts of the update); [DpPayloadProps] its bookkeeping and
      the slot layout.
    - Rectangles, [src/drm_rect.c]: [DrmRect] and [DrmRectProps] (a rectangle as
      its set of pixels: intersection, scaled clipping, scale factors, rotation
      and its inverse).
    - Display modes, [src/drm_modes.c]: [DrmModes] has the CVT and GTF generators,
      CRTC timings, comparison and mode lists, [DrmCmdline] the parser of the
      [video=] option; [DrmModesProps] and [DrmCmdlineProps] the theorems.
    - The ATOM byte-code interpreter, [src/radeon/atom.c]: [Atom] has operands,
      instructions, nested tables and indirect IO programs over a state of the
      card's memories; [AtomSpec] the type invariant and its rules, [AtomProps] and
      [AtomRun] the theorems (arithmetic, dispatch, termination).
    - nouveau's region allocator, [src/nouveau/core/core/mm.c]: [NvMm], [NvMmSpec]
      and [NvMmProps] (refinement of a map of allocated ranges).
    - The DisplayPort AUX channel, [src/drm_dp_helper.c]: [DpHelper] has native and
      I2C-over-AUX transactions with their retries and link training;
      [DpHelperProps] the refinement of an I2C bus and the composition with the
      sideband messages of [DpMst].
    - The TTM lock, [src/ttm/ttm_lock.c]: [TtmLock] has the critical sections and
      threads as a step relation; [TtmLockProps] exclusion and progress.
    - EDIDs, [src/drm_edid.c]: [DrmEdid] fetches and validates blocks
      ([DrmEdidProps]: what is returned, and reading over [DpHelper]); [DrmEdidCea]
      has extensions, audio and the queries ([DrmEdidCeaProps]); [DrmEdidTables] the
      tables of modes, [DrmEdidModes] and [DrmEdidHdmi] all sources of modes on
      [DrmModes] ([DrmEdidModesProps]); [DrmDisplayId] the DisplayID extension, the
      tile groups of [src/drm_crtc.c] and infoframes ([DrmDisplayIdProps]).
    - Buffer objects and their sharing, [src/drm_gem.c], [src/drm_prime.c] and
      [src/drm_gem_cma_helper.c]: [DrmGem] has objects, handles, names, mappings and
      the dumb-buffer ioctl of [src/drm_crtc.c], [DrmPrime] export and import of
      dma-bufs.  [DrmGemInv] states the invariant (who holds which reference, as
      tokens of threads), [DrmGemMoves], [DrmGemHandles], [DrmGemShare] and
      [DrmGemCreate] prove what each critical section does to it, [DrmGemWp] and
      [DrmGemCalls] the programs in a weakest-precondition style; [DrmGemSys] has
      the threads and their interleavings on top of [DrmVma], [DrmGemProps] the
      theorems.
    - The command parser of i915, [src/i915/i915_cmd_parser.c]: [I915Reg] has the
      constants of [src/i915/i915_reg.h] that it uses, [I915Cmd] the tables, the hash
      table of a ring, the checks and the walk through a batch; [I915CmdProps] the
      grammar of accepted batches and the theorems.
    - Vertical blanking and its events, [src/drm_irq.c] with the reading of events in
      [src/drm_fops.c] and the page flip's event in [src/drm_crtc.c]: [DrmIrq] has the
      counters, references, mode setting, the wait ioctl and the queue of events over a
      device and the state of its hardware; [DrmIrqSpec] the effect of each routine on
      its CRTC, [DrmIrqInv] and [DrmIrqOps] the invariant and how references and events
      move, [DrmIrqSys] the calls that may be made at any time, [DrmIrqCount] the counter
      on a display that counts its frames, [DrmIrqProps] the theorems.
    - Framebuffers and planes, [src/drm_crtc.c], [src/drm_plane_helper.c],
      [src/drm_fb_cma_helper.c] and the restoring of the console's mode in
      [src/drm_fb_helper.c]: [DrmFormats] has the pixel formats and the checks of a
      request for a framebuffer, with those of the CMA helper on the size of its buffer
      ([DrmFormatsProps]: an accepted framebuffer lies in its buffers); [DrmPlane] the
      helpers of a primary plane on [DrmRect] ([DrmPlaneProps]); [DrmFb] framebuffers
      as counted objects, their identifiers, and the ioctls that create, remove, show
      and query them, as parts with their mutexes.  [DrmFbInv] states who holds which
      reference, [DrmFbOps] and [DrmFbCalls] prove it of each routine and ioctl,
      [DrmFbSys] has the threads and their interleavings, [DrmFbProps] the theorems.
    - Shared by several parts: [Counting], sums over finite maps, and [Idr], the
      interface of the kernel's map of identifiers.

    ** Conventions

    A C integer is a [Z] with its conversion written where the source converts
    ([u8], [u16], [u32], [ul], [s32]); [unsigned long] has 64 bits.  A routine
    that can hit a [BUG_ON] returns an [outcome]; one that can also follow a bad
    pointer, leave an array or not end returns a [run].  Structures that are
    shared live in finite maps from identifiers, so aliasing is that of the
    code; intrusive lists are the lists of their entries.  What the repository
    does not contain (the kernel's headers with their constants and inline
    functions, the AUX hardware, the red-black trees, [simple_strtol]) is a type class of
    parameters, with its documented behaviour as a second class of laws and a
    sample instance that satisfies them.  Most operations hold their locks from
    start to end, so they are modelled as atomic steps and interleavings are
    sequences of operations.  The TTM lock, GEM and the framebuffer ioctls release
    their locks in between: there an operation is a program of critical sections and
    mutexes, or of parts, and threads interleave them.  What the code runs later is a step
    of its own: the release of a dma-buf after its last put, and that of a framebuffer
    after its last reference is dropped.  A cursor call takes its reference to the new
    framebuffer in a part after the one that creates it, and the handler of an MST reply
    is three sections, as it drops [qlock] in between.  GEM's [struct_mutex] and spin locks are sections, so that
    freedom from deadlock is that of [object_name_lock] and the [prime.lock]s.
    Reference counts of framebuffers are not bounded by the width of a [kref].

    ** What the theorems show

    - Refinement: after any sequence of operations from initialisation, the
      allocators, the offset manager and the hash table behave as finite maps,
      and no [BUG_ON] fires for callers that keep their obligations; the AUX
      transfers act on an I2C bus, and an EDID read over them is the monitor's.
    - Exclusion and progress over the steps of the threads at the TTM lock, for callers
      that lock one at a time and wait interruptibly.
    - For GEM and PRIME, over all interleavings of system calls: no use of freed
      memory outside drm_gem_open_ioctl, exact counts and no leaks, termination and
      no deadlock.  The calls are assumed to have memory where an error path of the
      code is wrong ([call_ok]), and the runs on which these paths fail are theorems
      of their own.
    - For framebuffers, over all interleavings of the parts of the ioctls, of mode
      setting and of closing files: exact reference counts, so that no framebuffer is
      used after its release; removing one leaves no plane that shows it, if the driver
      can switch planes off.  Steps on which the code fails are excluded ([event_ok]: no
      identifier left, a cursor's framebuffer removed before it is referenced, a plane
      with the last reference when the console is restored) and are theorems too.
    - For vertical blanking, over all sequences of calls, interrupts and timers: exact
      reference counts and event space, no event overdue or lost, and on a display that
      counts its frames a counter that follows them and calls that return.  [allowed]
      says which calls may be made; in it the handler stays installed and the driver
      can enable the interrupt in drm_vblank_on, without which a reference is lost.
    - Safety on any input: whatever a monitor sends, the EDID queries and the CEA
      and detailed modes return without leaving the EDID.
    - Invariants over reachable states: disjoint ranges, live messages in
      transmit slots, unique channel identifiers, a contiguous slot layout, exact
      reference counts of tile groups (as long as new groups can be allocated).  The
      slots are consistent as long as no upstream request is answered and no message is
      freed while its reply is handled; what happens otherwise is shown too.
    - Equivalence: CRCs are polynomial division, and the command parser accepts
      exactly the batches of a grammar, from which follows which registers an
      accepted batch can load.
    - Round trips: header encoding, chunking and reassembly of a message, reply
      formats, the mode option, detailed timings, CEA data blocks,
      the scan of the allocator, export and import of a handle.
    - Bounds and functional behaviour: the pixels of an accepted framebuffer lie in
      its buffers, what the update of a primary plane accepts, scale factors, mode timings in order, best
      fit, lookups.
    - Errors: inputs on which the code does not do what it means to, each with a
      concrete run.

    ** Fuel and bounds

    Loops over a list recurse on it.  Some loops need a count: [please_loop]
    gets 2^bits steps and is proved to end within them; the retry loops of the
    AUX and DDC code get the number of retries of the source;
    [drm_dp_get_one_sb_msg] reads as many blocks as its message needs; the walk
    over CEA data blocks gets 128 steps, enough for a block of 128 bytes, which
    the safety theorems on EDIDs prove; an ATOM instruction other than a call ends
    within a number of steps bounded by the image ([atom_instruction_ends]), and
    runs of whole tables are stated for every fuel; the command parser gets one
    step more than the batch has words, which [parse_reads_bounded] proves enough;
    the reads of a display's counter until it stands still get [fuel] rounds, of which
    two are enough for every call on a slow display ([vblank_calls_end]).  A run that is not over is
    [Loops], and the theorems exclude it, but for the invariants of vertical blanking,
    which hold on every hardware and after every call that returns.

    ** Not modelled

    The drivers below the core (register programming), the glue to the kernel
    (devices, files, ioctls, sysfs, debugging output) and, so far, the pages behind
    GEM objects, the TTM memory manager, the atomic mode setting core with the atomic plane
    helpers, the helpers that set a CRTC's mode, MST topology discovery and reference
    counts.

    This file holds the shared vocabulary: integers, outcomes, error numbers,
    kernel lists, tactics and generic lemmas. *)

From stdpp Require Export base numbers list list_numbers gmap.
From Stdlib Require Export ZArith Lia Permutation Sorted.

Open Scope Z_scope.

(** ** Machine integers *)

Definition wrap (w x : Z) : Z := x mod 2 ^ w.

(** C's [u8], [u16], [u32] and (on the LP64 targets modelled) [unsigned long]
    and [u64]: a conversion to an unsigned type reduces modulo its range. *)
Definition u8 (x : Z) : Z := wrap 8 x.
Definition u16 (x : Z) : Z := wrap 16 x.
Definition u32 (x : Z) : Z := wrap 32 x.
Definition ul (x : Z) : Z := wrap 64 x.

(** C's [int]: two's complement conversion to 32 bits. *)
Definition s32 (x : Z) : Z := (x + 2 ^ 31) mod 2 ^ 32 - 2 ^ 31.

Definition is_u8 (x : Z) : Prop := 0 <= x < 2 ^ 8.
Definition is_u16 (x : Z) : Prop := 0 <= x < 2 ^ 16.
Definition is_u32 (x : Z) : Prop := 0 <= x < 2 ^ 32.
Definition is_ul (x : Z) : Prop := 0 <= x < 2 ^ 64.
Definition is_s32 (x : Z) : Prop := - 2 ^ 31 <= x < 2 ^ 31.

(** C's truth value of an integer, and the integer of a comparison. *)
Definition truth (x : Z) : bool := negb (x =? 0).
Definition b2z (b : bool) : Z := if b then 1 else 0.

(** ** Outcomes

    A routine either returns or hits one of the kernel's [BUG_ON]s. *)
Inductive outcome (A : Type) : Type :=
| Ok (a : A)
| Bug.
Arguments Ok {A} a.
Arguments Bug {A}.

#[export] Instance outcome_ret : MRet outcome := fun _ a => Ok a.
#[export] Instance outcome_bind : MBind outcome := fun _ _ k c =>
  match c with Ok a => k a | Bug => Bug end.

Definition BUG_ON (b : bool) : outcome unit := if b then Bug else Ok tt.

(** Routines with a loop that need not end: [Loops] is a run that is not over
    within the steps it was given. *)
Inductive run (A : Type) : Type :=
| Done (a : A)
| Oops
| Loops.
Arguments Done {A} a.
Arguments Oops {A}.
Arguments Loops {A}.

#[export] Instance run_ret : MRet run := fun _ a => Done a.
#[export] Instance run_bind : MBind run := fun _ _ k c =>
  match c with Done a => k a | Oops => Oops | Loops => Loops end.

Definition run_of {A} (c : outcome A) : run A :=
  match c with Ok a => Done a | Bug => Oops end.

(** A pointer that is followed: [None] is a dangling or null one. *)
Definition deref {A} (p : option A) : run A :=
  match p with Some a => Done a | None => Oops end.

(** ** Error numbers (include/uapi/asm-generic/errno-base.h values of the C
    library's errno) *)
Definition EPERM : Z := 1.
Definition ENOENT : Z := 2.
Definition EIO : Z := 5.
Definition EBADF : Z := 9.
Definition EAGAIN : Z := 11.
Definition ENOMEM : Z := 12.
Definition EACCES : Z := 13.
Definition EBUSY : Z := 16.
Definition ENODEV : Z := 19.
Definition EINVAL : Z := 22.
Definition ENOSPC : Z := 28.
Definition ERANGE : Z := 34.

(** ** The kernel's linked lists

    An intrusive [list_head] ring is modelled by the list of its entries.  The
    operations are those of the kernel's list library that the sources call:
    [list_add] links an entry right after another, [list_add_tail] right
    before it, [list_del] unlinks an entry, [list_replace] puts one entry in
    the place of another. *)
Section kernel_lists.
Context {A : Type} `{!EqDecision A}.

Fixpoint list_add_after (p x : A) (l : list A) : list A :=
  match l with
  | [] => []
  | a :: l' => if decide (a = p) then a :: x :: l' else a :: list_add_after p x l'
  end.

Fixpoint list_add_before (p x : A) (l : list A) : list A :=
  match l with
  | [] => []
  | a :: l' => if decide (a = p) then x :: a :: l' else a :: list_add_before p x l'
  end.

Definition list_del (x : A) (l : list A) : list A := filter (fun y => y <> x) l.

Definition list_replace (old new : A) (l : list A) : list A :=
  (fun y => if decide (y = old) then new else y) <$> l.

(** The entry after [x] ([d] after the last one). *)
Fixpoint list_succ (d x : A) (l : list A) : A :=
  match l with
  | [] => d
  | a :: l' => if decide (a = x) then default d (head l') else list_succ d x l'
  end.

End kernel_lists.

(** ** Tactics *)

(** Turns boolean tests in hypotheses and goal into propositions and calls
    [lia]. *)
Ltac b2p :=
  repeat match goal with
  | H : andb _ _ = true |- _ => apply andb_prop in H as [? ?]
  | H : orb _ _ = false |- _ => apply orb_false_elim in H as [? ?]
  | H : negb _ = true |- _ => apply negb_true_iff in H
  | H : negb _ = false |- _ => apply negb_false_iff in H
  | H : (_ <? _) = true |- _ => apply Z.ltb_lt in H
  | H : (_ <? _) = false |- _ => apply Z.ltb_ge in H
  | H : (_ <=? _) = true |- _ => apply Z.leb_le in H
  | H : (_ <=? _) = false |- _ => apply Z.leb_gt in H
  | H : (_ =? _) = true |- _ => apply Z.eqb_eq in H
  | H : (_ =? _) = false |- _ => apply Z.eqb_neq in H
  end.

(** Case analysis on the scrutinee of the innermost [match] or [if]. *)
Ltac case_if :=
  match goal with
  | |- context [if ?b then _ else _] => destruct b eqn:?
  | H : context [if ?b then _ else _] |- _ => destruct b eqn:?
  end.

(** Runs the next bind of a routine whose first part is known. *)
Ltac mred :=
  unfold mbind, mret, outcome_bind, outcome_ret, run_bind, run_ret, deref, run_of in *;
  cbn beta match in *.

Create HintDb drm.

(** ** Lemmas on machine integers *)

Lemma wrap_bounds w x : 0 <= w -> 0 <= wrap w x < 2 ^ w.
Proof. intros. apply Z.mod_pos_bound. lia. Qed.

Lemma wrap_small w x : 0 <= x < 2 ^ w -> wrap w x = x.
Proof. apply Z.mod_small. Qed.

Lemma ul_bounds x : is_ul (ul x).
Proof. apply wrap_bounds. lia. Qed.

Lemma ul_small x : is_ul x -> ul x = x.
Proof. apply wrap_small. Qed.

Lemma ul_idemp x : ul (ul x) = ul x.
Proof. apply ul_small, ul_bounds. Qed.

Lemma u8_bounds x : is_u8 (u8 x).
Proof. apply wrap_bounds. lia. Qed.

Lemma u8_small x : is_u8 x -> u8 x = x.
Proof. apply wrap_small. Qed.

Lemma u32_bounds x : is_u32 (u32 x).
Proof. apply wrap_bounds. lia. Qed.

Lemma u32_small x : is_u32 x -> u32 x = x.
Proof. apply wrap_small. Qed.

Lemma s32_bounds x : is_s32 (s32 x).
Proof. unfold s32, is_s32. pose proof (Z.mod_pos_bound (x + 2 ^ 31) (2 ^ 32)). lia. Qed.

Lemma s32_small x : is_s32 x -> s32 x = x.
Proof. unfold s32, is_s32. intros. rewrite Z.mod_small; lia. Qed.

#[export] Hint Resolve ul_bounds u8_bounds u32_bounds s32_bounds : drm.

(** ** Lemmas on the kernel's lists *)
Section kernel_list_lemmas.
Context {A : Type} `{!EqDecision A}.
Implicit Types (l : list A) (x y p : A).

Lemma list_del_notin x l : x ∉ l -> list_del x l = l.
Proof.
  unfold list_del. induction l as [|a l IH]; intros Hx; [done|].
  rewrite filter_cons_True by set_solver. f_equal. set_solver.
Qed.

Lemma list_del_elem x y l : y ∈ list_del x l <-> y ∈ l /\ y <> x.
Proof. unfold list_del. rewrite list_elem_of_filter. tauto. Qed.

Lemma list_del_app x l1 l2 : list_del x (l1 ++ l2) = list_del x l1 ++ list_del x l2.
Proof. apply filter_app. Qed.

Lemma list_del_mid x l1 l2 :
  NoDup (l1 ++ x :: l2) -> list_del x (l1 ++ x :: l2) = l1 ++ l2.
Proof.
  intros (H1 & H2 & H3)%NoDup_app. apply NoDup_cons in H3 as [H3 _].
  rewrite list_del_app, list_del_notin by set_solver. f_equal.
  unfold list_del. rewrite filter_cons_False by (intros C; by apply C).
  by apply list_del_notin.
Qed.

Lemma list_add_after_mid p x l1 l2 :
  p ∉ l1 -> list_add_after p x (l1 ++ p :: l2) = l1 ++ p :: x :: l2.
Proof.
  induction l1 as [|a l1 IH]; simpl; intros Hp.
  - by rewrite decide_True.
  - rewrite decide_False by set_solver. f_equal. apply IH. set_solver.
Qed.

Lemma list_add_before_mid p x l1 l2 :
  p ∉ l1 -> list_add_before p x (l1 ++ p :: l2) = l1 ++ x :: p :: l2.
Proof.
  induction l1 as [|a l1 IH]; simpl; intros Hp.
  - by rewrite decide_True.
  - rewrite decide_False by set_solver. f_equal. apply IH. set_solver.
Qed.

Lemma list_succ_mid d x l1 l2 :
  x ∉ l1 -> list_succ d x (l1 ++ x :: l2) = default d (head l2).
Proof.
  induction l1 as [|a l1 IH]; simpl; intros Hx.
  - by rewrite decide_True.
  - rewrite decide_False by set_solver. apply IH. set_solver.
Qed.

Lemma list_del_perm x l : NoDup l -> x ∈ l -> l ≡ₚ x :: list_del x l.
Proof.
  intros Hnd (l1 & l2 & ->)%list_elem_of_split.
  rewrite list_del_mid by done. by rewrite Permutation_middle.
Qed.

Lemma NoDup_list_del x l : NoDup l -> NoDup (list_del x l).
Proof. apply NoDup_filter. Qed.

End kernel_list_lemmas.

#[export] Instance list_del_proper {A} `{!EqDecision A} (x : A) :
  Proper ((≡ₚ) ==> (≡ₚ)) (list_del x).
Proof. intros l1 l2 Hl. unfold list_del. by rewrite Hl. Qed.

Lemma list_filter_iff_local {A} (P Q : A -> Prop)
    `{!forall x, Decision (P x), !forall x, Decision (Q x)} (l : list A) :
  (forall x, x ∈ l -> P x <-> Q x) -> filter P l = filter Q l.
Proof.
  induction l as [|a l IH]; intros HPQ; [done|].
  rewrite !filter_cons, IH by set_solver.
  assert (P a <-> Q a) by set_solver. repeat case_decide; tauto.
Qed.

(** ** Alignment

    The least multiple of [a] that is not below [s], and the greatest one that
    is not above it; an alignment of 0 stands for no constraint. *)
Definition align_up (s a : Z) : Z := if a =? 0 then s else s + (- s) mod a.
Definition align_down (s a : Z) : Z := if a =? 0 then s else s - s mod a.
Definition aligned (s a : Z) : Prop := a = 0 \/ (a | s).

Lemma align_up_nz s a :
  0 < a -> align_up s a = if s mod a =? 0 then s else s + (a - s mod a).
Proof.
  intros Ha. unfold align_up. rewrite (proj2 (Z.eqb_neq a 0)) by lia.
  destruct (Z.eqb_spec (s mod a) 0) as [E|E].
  - rewrite Z_mod_zero_opp_full by done. lia.
  - rewrite Z_mod_nz_opp_full by done. lia.
Qed.

Lemma align_up_bounds s a : 0 <= a -> s <= align_up s a <= s + Z.max 0 (a - 1).
Proof.
  intros Ha. unfold align_up. destruct (Z.eqb_spec a 0); [lia|].
  pose proof (Z.mod_pos_bound (- s) a). lia.
Qed.

Lemma align_up_aligned s a : aligned (align_up s a) a.
Proof.
  unfold aligned, align_up. destruct (Z.eqb_spec a 0); [by left|right].
  apply Z.mod_divide; [done|]. rewrite Zplus_mod_idemp_r. by rewrite Z.add_opp_diag_r, Z.mod_0_l.
Qed.

Lemma align_down_aligned s a : aligned (align_down s a) a.
Proof.
  unfold aligned, align_down. destruct (Z.eqb_spec a 0); [by left|right].
  apply Z.mod_divide; [done|]. rewrite Zminus_mod_idemp_r. by rewrite Z.sub_diag, Z.mod_0_l.
Qed.

Lemma align_down_le s a : 0 <= a -> align_down s a <= s.
Proof.
  intros. unfold align_down. destruct (Z.eqb_spec a 0); [lia|].
  pose proof (Z.mod_pos_bound s a). lia.
Qed.

(** Rounding is optimal. *)
Lemma align_up_least s a x : 0 <= a -> aligned x a -> s <= x -> align_up s a <= x.
Proof.
  unfold aligned, align_up. intros Ha [->|[k ->]] Hx; [done|].
  destruct (Z.eqb_spec a 0); [lia|].
  replace ((- s) mod a) with ((k * a - s) mod a).
  - pose proof (Z.mod_le (k * a - s) a). lia.
  - rewrite <- (Zminus_mod_idemp_l (k * a)), Z_mod_mult. done.
Qed.

Lemma align_down_greatest s a x : 0 <= a -> aligned x a -> x <= s -> x <= align_down s a.
Proof.
  unfold aligned, align_down. intros Ha [->|[k ->]] Hx; [done|].
  destruct (Z.eqb_spec a 0); [lia|].
  replace (s mod a) with ((s - k * a) mod a).
  - pose proof (Z.mod_le (s - k * a) a). lia.
  - by rewrite Zminus_mod, Z_mod_mult, Z.sub_0_r, Z.mod_mod by lia.
Qed.

Lemma fst_fmap_pair {A B} (f : A -> B) (l : list A) : ((fun x => (x, f x)) <$> l).*1 = l.
Proof. induction l as [|a l IH]; simpl; [done|by f_equal]. Qed.

(** ** Sorted lists *)
Lemma StronglySorted_filter {A} (R : A -> A -> Prop) (P : A -> Prop)
    `{!forall x, Decision (P x)} (l : list A) :
  StronglySorted R l -> StronglySorted R (filter P l).
Proof.
  induction 1 as [|a l Hl IH Hf]; [constructor|]. rewrite filter_cons. case_decide; [|done].
  constructor; [done|]. apply Forall_forall. intros x [_ Hx]%list_elem_of_filter.
  by apply (proj1 (Forall_forall _ _) Hf).
Qed.

Lemma StronglySorted_mid {A} (R : A -> A -> Prop) (l1 l2 : list A) (x : A) :
  StronglySorted R (l1 ++ x :: l2) -> Forall (fun y => R y x) l1 /\ Forall (R x) l2.
Proof.
  induction l1 as [|a l1 IH]; simpl.
  - intros Hs. apply StronglySorted_inv in Hs as [_ Hs]. by split.
  - intros Hs. apply StronglySorted_inv in Hs as [Hs Hf]. destruct (IH Hs) as [H1 H2].
    split; [|done]. constructor; [|done]. apply (proj1 (Forall_forall _ _) Hf). set_solver.
Qed.

Lemma StronglySorted_mono {A} (R R' : A -> A -> Prop) (l : list A) :
  (forall x y, x ∈ l -> y ∈ l -> R x y -> R' x y) -> StronglySorted R l -> StronglySorted R' l.
Proof.
  intros HR Hs. induction Hs as [|a l Hs IH Hf]; constructor.
  - apply IH. intros x y ??. apply HR; set_solver.
  - rewrite Forall_forall in Hf |- *. intros x Hx. apply HR; [set_solver..|]. by apply Hf.
Qed.

Lemma s32_range x : is_s32 (s32 x).
Proof. unfold is_s32, s32. pose proof (Z.mod_pos_bound (x + 2 ^ 31) (2 ^ 32)). lia. Qed.

(** ** Runs *)

(** Sequencing of runs that end in states with a property. *)
Lemma outcome_bind_ok {A B} (c : outcome A) (k : A -> outcome B) r :
  c ≫= k = Ok r -> exists a, c = Ok a /\ k a = Ok r.
Proof. destruct c as [a|]; [|done]. intros E. by exists a. Qed.

Lemma run_bind_spec {A B} (c : run A) (k : A -> run B) (P : A -> Prop) (Q : B -> Prop) :
  (exists a, c = Done a /\ P a) ->
  (forall a, P a -> exists b, k a = Done b /\ Q b) ->
  exists b, (x ← c; k x) = Done b /\ Q b.
Proof. intros (a & -> & HP) Hk. by apply Hk. Qed.

(** ** Lemmas on bits *)

Lemma b2z_range b : 0 <= b2z b <= 1.
Proof. destruct b; simpl; lia. Qed.

Lemma testbit_high x n m :
  0 <= x < 2 ^ n -> n <= m -> Z.testbit x m = false.
Proof.
  intros [H0 H1] Hm. destruct (decide (x = 0)) as [-> |].
  { apply Z.bits_0. }
  destruct (Z_lt_le_dec m 0) as [Hneg|]; [by apply Z.testbit_neg_r|].
  apply Z.bits_above_log2; [lia|].
  apply Z.log2_lt_pow2; [lia|]. eapply Z.lt_le_trans; [exact H1|].
  apply Z.pow_le_mono_r; lia.
Qed.

Lemma bits_bound x n :
  0 <= n -> 0 <= x -> (forall m, n <= m -> Z.testbit x m = false) -> x < 2 ^ n.
Proof.
  intros Hn Hx Hb. destruct (Z_lt_le_dec x (2 ^ n)) as [|Hge]; [done|exfalso].
  assert (0 < 2 ^ n) by (apply Z.pow_pos_nonneg; lia).
  pose proof (Z.bit_log2 x ltac:(lia)) as Hl.
  rewrite Hb in Hl; [done|]. apply Z.log2_le_pow2; lia.
Qed.

Lemma testbit_top x n : 0 <= n -> 2 ^ n <= x < 2 ^ (n + 1) -> Z.testbit x n = true.
Proof.
  intros Hn Hx. assert (0 < 2 ^ n) by (apply Z.pow_pos_nonneg; lia).
  pose proof (Z.log2_unique x n Hn ltac:(by rewrite <- Z.add_1_r)) as <-.
  apply Z.bit_log2. lia.
Qed.

Lemma shiftr_land_pow2 x i :
  0 <= i -> Z.shiftr (Z.land x (2 ^ i)) i = b2z (Z.testbit x i).
Proof.
  intros Hi. change b2z with Z.b2z. apply Z.bits_inj'. intros n Hn.
  rewrite Z.shiftr_spec, Z.land_spec, Z.pow2_bits_eqb by lia.
  destruct (decide (n = 0)) as [-> |].
  - rewrite Z.b2z_bit0, Z.add_0_l, Z.eqb_refl. apply andb_true_r.
  - destruct (Z.eqb_spec i (n + i)); [lia|]. rewrite andb_false_r.
    by rewrite (testbit_high (Z.b2z _) 1 n) by (destruct (Z.testbit x i); simpl; lia).
Qed.

Lemma land_pow2_eqb_0 x i : 0 <= i -> (Z.land x (2 ^ i) =? 0) = negb (Z.testbit x i).
Proof.
  intros Hi. destruct (Z.testbit x i) eqn:E; simpl.
  - apply Z.eqb_neq. intros H0. apply (f_equal (fun y => Z.testbit y i)) in H0.
    rewrite Z.land_spec, Z.pow2_bits_true, E, Z.bits_0 in H0 by lia. done.
  - apply Z.eqb_eq, Z.bits_inj'. intros n Hn.
    rewrite Z.land_spec, Z.pow2_bits_eqb, Z.bits_0 by lia.
    destruct (Z.eqb_spec i n) as [<- |]; [by rewrite E|apply andb_false_r].
Qed.

Lemma land_pow2_eqb x i : 0 <= i -> (Z.land x (2 ^ i) =? 2 ^ i) = Z.testbit x i.
Proof.
  intros Hi. assert (0 < 2 ^ i) by (apply Z.pow_pos_nonneg; lia).
  destruct (Z.testbit x i) eqn:E.
  - apply Z.eqb_eq, Z.bits_inj'. intros n Hn.
    rewrite Z.land_spec, Z.pow2_bits_eqb by lia.
    destruct (Z.eqb_spec i n) as [<- |]; [by rewrite E|apply andb_false_r].
  - apply Z.eqb_neq. pose proof (land_pow2_eqb_0 x i Hi) as H0.
    rewrite E in H0. simpl in H0. b2p. lia.
Qed.

Lemma lor_double x b : Z.lor (2 * x) (b2z b) = 2 * x + b2z b.
Proof.
  change b2z with Z.b2z. apply Z.bits_inj'. intros n Hn. rewrite Z.lor_spec.
  destruct (decide (n = 0)) as [-> |].
  - by rewrite Z.testbit_even_0, Z.b2z_bit0, Z.testbit_0_r.
  - rewrite (testbit_high (Z.b2z b) 1 n), orb_false_r by (destruct b; simpl; lia).
    replace n with (Z.succ (n - 1)) by lia.
    by rewrite Z.testbit_succ_r, Z.testbit_even_succ by lia.
Qed.

Lemma testbit_wrap w x n :
  0 <= w -> Z.testbit (wrap w x) n = if n <? w then Z.testbit x n else false.
Proof.
  intros Hw. unfold wrap. destruct (Z_lt_le_dec n 0).
  { rewrite !Z.testbit_neg_r by lia. by case_if. }
  destruct (n <? w) eqn:E; b2p.
  - by rewrite Z.mod_pow2_bits_low by lia.
  - by rewrite Z.mod_pow2_bits_high by lia.
Qed.

(** Disjoint bit fields: [or] is addition. *)
Lemma lor_bounds n x y : 0 <= n -> 0 <= x < 2 ^ n -> 0 <= y < 2 ^ n -> 0 <= Z.lor x y < 2 ^ n.
Proof.
  intros Hn Hx Hy. assert (0 <= Z.lor x y) by (apply Z.lor_nonneg; lia).
  split; [done|]. apply bits_bound; [done..|]. intros m Hm.
  by rewrite Z.lor_spec, (testbit_high x n m), (testbit_high y n m).
Qed.

Lemma lor_shift a n b :
  0 <= n -> 0 <= b < 2 ^ n -> Z.lor (Z.shiftl a n) b = a * 2 ^ n + b.
Proof.
  intros Hn Hb. rewrite <- Z.shiftl_mul_pow2 by lia.
  symmetry. rewrite <- Z.lxor_lor; [apply Z.add_nocarry_lxor|].
  all: apply Z.bits_inj'; intros m Hm; rewrite Z.land_spec, Z.bits_0.
  all: destruct (Z_lt_le_dec m n).
  1, 3: by rewrite Z.shiftl_spec_low by lia.
  all: by rewrite (testbit_high b n m Hb), andb_false_r by lia.
Qed.

(** Masks of the low bits. *)
Lemma land_mask x n m : 0 <= n -> m = Z.ones n -> Z.land x m = x mod 2 ^ n.
Proof. intros ? ->. by apply Z.land_ones. Qed.

Lemma land_mask_id x n m : 0 <= n -> m = Z.ones n -> 0 <= x < 2 ^ n -> Z.land x m = x.
Proof. intros ? -> ?. rewrite Z.land_ones by done. by apply Z.mod_small. Qed.

(** A flag read back as the code does it. *)
Lemma truth_bit x n : 0 <= n -> truth (Z.land (Z.shiftr x n) 1) = Z.testbit x n.
Proof.
  intros Hn. unfold truth. rewrite (land_pow2_eqb_0 _ 0), negb_involutive by lia.
  by rewrite Z.shiftr_spec, Z.add_0_l by lia.
Qed.

Lemma testbit_div x n : 0 <= n -> Z.testbit x n = (x / 2 ^ n mod 2 =? 1).
Proof.
  intros Hn. rewrite <- Z.shiftr_div_pow2 by lia.
  replace (Z.testbit x n) with (Z.testbit (Z.shiftr x n) 0)
    by (rewrite Z.shiftr_spec by lia; f_equal; lia).
  by rewrite Z.bit0_odd, Zodd_mod.
Qed.
