(* ===== verification/Counting.v ===== *)
(** * Sums over finite maps and lists

    The sum of a weight over the entries of a map or a list, and the number of
    entries that satisfy a test: how reference counts are compared with the
    holders. *)

From S2P Require Import Prelude.

Section msum.
Context {K A : Type} `{Countable K}.
Implicit Types (m : gmap K A) (f : A -> Z).

Definition msum f m : Z := map_fold (fun _ a s => f a + s) 0 m.

(** The weight of an optional entry. *)
Definition osum f (o : option A) : Z := match o with Some a => f a | None => 0 end.

Lemma msum_empty f : msum f ∅ = 0.
Proof. done. Qed.

Lemma msum_fresh f m k a : m !! k = None -> msum f (<[k := a]> m) = f a + msum f m.
Proof. intros Hk. unfold msum. rewrite (map_fold_insert_L (fun _ a s => f a + s)); [done| |done]. intros. lia. Qed.

Lemma msum_delete f m k : msum f (delete k m) = msum f m - osum f (m !! k).
Proof.
  destruct (m !! k) as [a|] eqn:E; cbn [osum]; [|by rewrite delete_id by done; lia].
  rewrite <- (insert_delete_id m k a E) at 2. rewrite msum_fresh by apply lookup_delete_eq. lia.
Qed.

Lemma msum_insert f m k a : msum f (<[k := a]> m) = msum f m - osum f (m !! k) + f a.
Proof. rewrite <- insert_delete_eq, msum_fresh by apply lookup_delete_eq. rewrite msum_delete. lia. Qed.

Lemma msum_nonneg f m : (forall a, 0 <= f a) -> 0 <= msum f m.
Proof.
  intros Hf. induction m as [|k a m Hk IH] using map_ind; [done|]. rewrite msum_fresh by done. specialize (Hf a). lia.
Qed.

Lemma msum_ge f m k a : (forall a, 0 <= f a) -> m !! k = Some a -> f a <= msum f m.
Proof.
  intros Hf E. pose proof (msum_delete f m k) as Hd. rewrite E in Hd. cbn in Hd.
  pose proof (msum_nonneg f (delete k m) Hf). lia.
Qed.

Lemma msum_ext f g m : (forall k a, m !! k = Some a -> f a = g a) -> msum f m = msum g m.
Proof.
  induction m as [|k a m Hk IH] using map_ind; [done|]. intros Hfg. rewrite !msum_fresh by done.
  rewrite (Hfg k a) by apply lookup_insert_eq. rewrite IH; [done|]. intros j b Hj. apply (Hfg j).
  rewrite lookup_insert_ne; [done|]. intros ->. congruence.
Qed.

Lemma msum_0 f m : (forall k a, m !! k = Some a -> f a = 0) -> msum f m = 0.
Proof.
  intros Hf. rewrite (msum_ext f (fun _ => 0)) by done. clear. induction m as [|k a m Hk IH] using map_ind; [done|].
  by rewrite msum_fresh.
Qed.

Lemma msum_le f g m : (forall a, f a <= g a) -> msum f m <= msum g m.
Proof.
  intros Hfg. induction m as [|k a m Hk IH] using map_ind; [done|]. rewrite !msum_fresh by done. specialize (Hfg a). lia.
Qed.

Lemma msum_pos f m : 0 < msum f m -> exists k a, m !! k = Some a /\ 0 < f a.
Proof.
  induction m as [|k a m Hk IH] using map_ind; [done|]. rewrite msum_fresh by done. intros Hs.
  destruct (decide (0 < f a)) as [Ha|Ha]; [exists k, a; by rewrite lookup_insert_eq|].
  destruct IH as (j & b & Hj & Hb); [lia|]. exists j, b. split; [|done].
  rewrite lookup_insert_ne; [done|]. intros ->. congruence.
Qed.

(** ** Counting *)
Definition count (P : A -> bool) m : Z := msum (fun a => b2z (P a)) m.
Definition weight (P : A -> bool) (o : option A) : Z := match o with Some a => b2z (P a) | None => 0 end.

Section count.
Context (P : A -> bool).

Lemma b2z_nonneg b : 0 <= b2z b.
Proof. destruct b; cbn; lia. Qed.

Lemma count_nonneg m : 0 <= count P m.
Proof. apply msum_nonneg. intros. apply b2z_nonneg. Qed.

Lemma count_delete m k : count P (delete k m) = count P m - weight P (m !! k).
Proof. apply msum_delete. Qed.

Lemma count_insert m k a : count P (<[k := a]> m) = count P m - weight P (m !! k) + b2z (P a).
Proof. apply msum_insert. Qed.

Lemma count_ge m k a : m !! k = Some a -> b2z (P a) <= count P m.
Proof. intros E. apply (msum_ge (fun a => b2z (P a)) m k a); [|done]. intros. apply b2z_nonneg. Qed.

Lemma count_ge2 m k1 k2 a1 a2 :
  k1 <> k2 -> m !! k1 = Some a1 -> m !! k2 = Some a2 -> b2z (P a1) + b2z (P a2) <= count P m.
Proof.
  intros Hne E1 E2. pose proof (count_delete m k1) as Hd. rewrite E1 in Hd. cbn in Hd.
  pose proof (msum_ge (fun a => b2z (P a)) (delete k1 m) k2 a2) as H2. rewrite lookup_delete_ne in H2 by done.
  specialize (H2 (fun _ => b2z_nonneg _) E2). unfold count in *. lia.
Qed.

Lemma count_ex m : 0 < count P m -> exists k a, m !! k = Some a /\ P a = true.
Proof. intros (k & a & E & HP)%msum_pos. exists k, a. split; [done|]. by destruct (P a). Qed.

Lemma count_0 m : (forall k a, m !! k = Some a -> P a = false) -> count P m = 0.
Proof. intros HP. apply msum_0. intros k a E. by rewrite (HP k a E). Qed.

Lemma count_le_all m : count P m <= count (fun _ => true) m.
Proof. apply msum_le. intros a. by destruct (P a). Qed.

End count.
End msum.

(** ** Sums over lists *)
Section lsum.
Context {A : Type}.
Implicit Types (w : A -> Z) (l : list A).

Fixpoint lsum w l : Z := match l with [] => 0 | a :: l => w a + lsum w l end.

Lemma lsum_app w l1 l2 : lsum w (l1 ++ l2) = lsum w l1 + lsum w l2.
Proof. induction l1 as [|a l IH]; cbn; lia. Qed.

Lemma lsum_perm w l1 l2 : l1 ≡ₚ l2 -> lsum w l1 = lsum w l2.
Proof. induction 1; cbn; lia. Qed.

Lemma lsum_nonneg w l : (forall a, 0 <= w a) -> 0 <= lsum w l.
Proof. intros Hw. induction l as [|a l IH]; cbn; [lia|]. specialize (Hw a). lia. Qed.

Lemma lsum_ge w l a : (forall a, 0 <= w a) -> a ∈ l -> w a <= lsum w l.
Proof.
  intros Hw. induction 1 as [a l|a b l _ IH]; cbn.
  - pose proof (lsum_nonneg w l Hw). lia.
  - specialize (Hw b). lia.
Qed.

Lemma lsum_zero w l : (forall a, a ∈ l -> w a = 0) -> lsum w l = 0.
Proof.
  induction l as [|a l IH]; [done|]. intros Hw. cbn. rewrite (Hw a), IH; [done| |apply elem_of_cons; by left].
  intros b Hb. apply Hw, elem_of_cons. by right.
Qed.

Lemma lsum_pos w l : 0 < lsum w l -> exists a, a ∈ l /\ 0 < w a.
Proof.
  induction l as [|a l IH]; cbn; [lia|]. intros Hs. destruct (decide (0 < w a)) as [Ha|Ha].
  - exists a. split; [apply elem_of_cons; by left|done].
  - destruct IH as (b & Hb & Hw); [lia|]. exists b. split; [apply elem_of_cons; by right|done].
Qed.

End lsum.

(** How often [o] is in [l]. *)
Definition occ (o : Z) (l : list Z) : Z := lsum (fun o' => b2z (o =? o')) l.

Lemma occ_nonneg o l : 0 <= occ o l.
Proof. apply lsum_nonneg. intros. apply b2z_nonneg. Qed.

Lemma occ_pos o l : 0 < occ o l <-> o ∈ l.
Proof.
  split.
  - intros (a & Ha & Hw)%lsum_pos. destruct (Z.eqb_spec o a) as [->|]; cbn in Hw; [done|lia].
  - intros Ho. pose proof (lsum_ge (fun o' => b2z (o =? o')) l o (fun _ => b2z_nonneg _) Ho) as Hge.
    cbn in Hge. rewrite Z.eqb_refl in Hge. cbn in Hge. unfold occ. lia.
Qed.

Lemma occ_cons o a l : occ o (a :: l) = b2z (o =? a) + occ o l.
Proof. done. Qed.

Lemma b2z_eqb_refl o : b2z (o =? o) = 1.
Proof. by rewrite Z.eqb_refl. Qed.

Lemma b2z_eqb_ne o o' : o <> o' -> b2z (o =? o') = 0.
Proof. intros Hne. by destruct (Z.eqb_spec o o'). Qed.
