(* ===== verification/Idr.v ===== *)
(** * The kernel's identifier maps (lib/idr.c)

    [struct idr] maps identifiers to pointers.  Its implementation is not part of
    the repository: the operations that the sources call are a type class, their
    documented behaviour a second one, and a finite map is a sample that satisfies
    it.  A pointer is the number of an object in the heap of its owner. *)

From S2P Require Import Prelude.

Class idr_ops := {
  idr : Type;
  idr_init : idr;
  idr_find : idr -> Z -> option Z;
  (** [idr_alloc(idr, ptr, start, 0, ...)], with whether memory is available: the
      identifier or a negative error. *)
  idr_alloc : bool -> Z -> Z -> idr -> Z * idr;
  idr_remove : Z -> idr -> idr;
  (** The entries in the order in which [idr_for_each] visits them. *)
  idr_entries : idr -> list (Z * Z);
}.

Class idr_laws `{idr_ops} : Prop := {
  find_init k : idr_find idr_init k = None;
  alloc_fails mem p start m r m' : idr_alloc mem p start m = (r, m') -> r < 0 -> m' = m;
  alloc_fresh mem p start m r m' : idr_alloc mem p start m = (r, m') -> 0 <= r ->
    start <= r < 2 ^ 31 /\ idr_find m r = None;
  alloc_find mem p start m r m' k : idr_alloc mem p start m = (r, m') -> 0 <= r ->
    idr_find m' k = if k =? r then Some p else idr_find m k;
  find_remove j m k : idr_find (idr_remove j m) k = if k =? j then None else idr_find m k;
  entries_find m k p : (k, p) ∈ idr_entries m <-> idr_find m k = Some p;
  entries_nodup m : NoDup (idr_entries m).*1;
}.

Section entries.
Context `{idr_laws}.

Lemma entries_nodup_pairs m : NoDup (idr_entries m).
Proof. apply (NoDup_fmap_1 fst), entries_nodup. Qed.

Lemma entries_alloc mem p start m r m' : idr_alloc mem p start m = (r, m') -> 0 <= r ->
  idr_entries m' ≡ₚ (r, p) :: idr_entries m.
Proof.
  intros Ha Hr. destruct (alloc_fresh _ _ _ _ _ _ Ha Hr) as [_ Hf]. apply list.NoDup_Permutation.
  - apply entries_nodup_pairs.
  - apply NoDup_cons. split; [|apply entries_nodup_pairs]. rewrite entries_find. congruence.
  - intros [k q]. rewrite elem_of_cons, !entries_find, (alloc_find _ _ _ _ _ _ k Ha Hr).
    destruct (Z.eqb_spec k r) as [->|Hk]; naive_solver congruence.
Qed.

Lemma entries_remove k m p : idr_find m k = Some p -> idr_entries m ≡ₚ (k, p) :: idr_entries (idr_remove k m).
Proof.
  intros Hk. apply list.NoDup_Permutation.
  - apply entries_nodup_pairs.
  - apply NoDup_cons. split; [|apply entries_nodup_pairs]. rewrite entries_find, find_remove, Z.eqb_refl. done.
  - intros [j q]. rewrite elem_of_cons, !entries_find, find_remove.
    destruct (Z.eqb_spec j k) as [->|Hj]; naive_solver congruence.
Qed.

Lemma entries_init : idr_entries idr_init = [].
Proof.
  destruct (idr_entries idr_init) as [|[k p] l] eqn:E; [done|]. exfalso.
  assert ((k, p) ∈ idr_entries idr_init) as Hin by (rewrite E; apply elem_of_cons; by left).
  apply entries_find in Hin. by rewrite find_init in Hin.
Qed.

End entries.

(** ** A sample *)
Module SampleIdr.

Definition next_id (start : Z) (m : gmap Z Z) : Z := foldr (fun e k => Z.max (e.1 + 1) k) start (map_to_list m).

#[export] Instance ops : idr_ops := {|
  idr := gmap Z Z;
  idr_init := ∅;
  idr_find m k := m !! k;
  idr_alloc mem p start m :=
    let k := next_id start m in
    if mem && (0 <=? start) && (k <? 2 ^ 31) then (k, <[k := p]> m) else (- ENOSPC, m);
  idr_remove k m := delete k m;
  idr_entries m := map_to_list m |}.

Lemma next_id_ge start m : start <= next_id start m.
Proof. unfold next_id. induction (map_to_list m) as [|e l IH]; cbn; lia. Qed.

Lemma next_id_above start m k p : m !! k = Some p -> k < next_id start m.
Proof.
  intros Hk%elem_of_map_to_list. unfold next_id. induction (map_to_list m) as [|e l IH]; [by apply not_elem_of_nil in Hk|].
  apply elem_of_cons in Hk as [<-|He]; cbn; [lia|]. specialize (IH He). lia.
Qed.

#[export] Instance laws : idr_laws.
Proof.
  split; cbn -[andb next_id Z.leb Z.ltb Z.pow].
  - intros k. apply lookup_empty.
  - intros mem p start m r m' Ha Hr. case_if; injection Ha as <- <-; [|done]. b2p. pose proof (next_id_ge start m). lia.
  - intros mem p start m r m' Ha Hr. pose proof (next_id_ge start m).
    case_if; injection Ha as <- <-; [|unfold ENOSPC in Hr; lia]. b2p. split; [lia|].
    destruct (m !! next_id start m) as [q|] eqn:E; [|done]. pose proof (next_id_above start m _ _ E). lia.
  - intros mem p start m r m' k Ha Hr. destruct (mem && _ && _); injection Ha as <- <-; [|unfold ENOSPC in Hr; lia].
    destruct (Z.eqb_spec k (next_id start m)) as [->|Hk]; [apply lookup_insert_eq|by apply lookup_insert_ne].
  - intros j m k. destruct (Z.eqb_spec k j) as [->|Hk]; [apply lookup_delete_eq|by apply lookup_delete_ne].
  - intros m k p. apply elem_of_map_to_list.
  - intros m. apply NoDup_fst_map_to_list.
Qed.

End SampleIdr.
