(* ===== verification/DrmMm.v ===== *)
(** * The range allocator: drm_mm.c

    State and operations of [struct drm_mm].  Node structures live in a heap
    indexed by node identifiers (the addresses of the [struct drm_mm_node]s the
    drivers embed); the allocator's own [head_node] has the identifier [HEAD].
    The circular [node_list] is the list [ring], which starts with [HEAD]; the
    [hole_stack] is a list with its top first.  While a node is on the scan
    list it is off the ring, and its raw [node_list] links are the two fields
    [nl_prev] and [nl_next].  [unsigned long] has 64 bits. *)

From S2P Require Import Prelude.

Definition node_id := nat.
Definition HEAD : node_id := 0%nat.

(** [struct drm_mm_node]. *)
Record drm_mm_node := mk_node {
  nstart : Z;
  nsize : Z;
  ncolor : Z;
  hole_follows : bool;
  scanned_block : bool;
  scanned_prev_free : bool;
  scanned_next_free : bool;
  scanned_preceeds_hole : bool;
  allocated : bool;
  nl_prev : node_id;
  nl_next : option node_id
}.

(** A node cleared to 0. *)
#[export] Instance drm_mm_node_inhabited : Inhabited drm_mm_node :=
  populate (mk_node 0 0 0 false false false false false false HEAD None).

Definition heap_t := gmap node_id drm_mm_node.

(** [struct drm_mm].  [color_adjust] is the driver's callback: given the node
    structures, the ring and the hole's node, it maps a colour and the
    bounds of a hole to adjusted bounds. *)
Record drm_mm := mk_mm {
  heap : gmap node_id drm_mm_node;
  ring : list node_id;
  hole_stack : list node_id;
  color_adjust : option (gmap node_id drm_mm_node -> list node_id -> node_id ->
                         Z -> Z * Z -> Z * Z);
  scanned_blocks : Z;
  scan_color : Z;
  scan_alignment : Z;
  scan_size : Z;
  scan_hit_start : Z;
  scan_hit_end : Z;
  scan_start : Z;
  scan_end : Z;
  scan_check_range : bool;
  prev_scanned_node : option node_id
}.

Definition nd (mm : drm_mm) (n : node_id) : drm_mm_node := mm.(heap) !!! n.

(** ** Field updates *)

Definition set_hole_follows (b : bool) (d : drm_mm_node) : drm_mm_node :=
  mk_node (nstart d) (nsize d) (ncolor d) b (scanned_block d)
    (scanned_prev_free d) (scanned_next_free d) (scanned_preceeds_hole d)
    (allocated d) (nl_prev d) (nl_next d).

Definition set_allocated (b : bool) (d : drm_mm_node) : drm_mm_node :=
  mk_node (nstart d) (nsize d) (ncolor d) (hole_follows d) (scanned_block d)
    (scanned_prev_free d) (scanned_next_free d) (scanned_preceeds_hole d)
    b (nl_prev d) (nl_next d).

Definition set_scanned_block (b : bool) (d : drm_mm_node) : drm_mm_node :=
  mk_node (nstart d) (nsize d) (ncolor d) (hole_follows d) b
    (scanned_prev_free d) (scanned_next_free d) (scanned_preceeds_hole d)
    (allocated d) (nl_prev d) (nl_next d).

Definition set_preceeds_hole (b : bool) (d : drm_mm_node) : drm_mm_node :=
  mk_node (nstart d) (nsize d) (ncolor d) (hole_follows d) (scanned_block d)
    (scanned_prev_free d) (scanned_next_free d) b
    (allocated d) (nl_prev d) (nl_next d).

Definition set_links (p : node_id) (n : option node_id) (d : drm_mm_node) :
  drm_mm_node :=
  mk_node (nstart d) (nsize d) (ncolor d) (hole_follows d) (scanned_block d)
    (scanned_prev_free d) (scanned_next_free d) (scanned_preceeds_hole d)
    (allocated d) p n.

(** Sets [start], [size], [color] and [allocated] as the insertion does. *)
Definition set_placement (start size color : Z) (d : drm_mm_node) : drm_mm_node :=
  mk_node start size color (hole_follows d) (scanned_block d)
    (scanned_prev_free d) (scanned_next_free d) (scanned_preceeds_hole d)
    true (nl_prev d) (nl_next d).

Definition set_heap (h : gmap node_id drm_mm_node) (mm : drm_mm) : drm_mm :=
  mk_mm h (ring mm) (hole_stack mm) (color_adjust mm) (scanned_blocks mm)
    (scan_color mm) (scan_alignment mm) (scan_size mm) (scan_hit_start mm)
    (scan_hit_end mm) (scan_start mm) (scan_end mm) (scan_check_range mm)
    (prev_scanned_node mm).

Definition set_ring (r : list node_id) (mm : drm_mm) : drm_mm :=
  mk_mm (heap mm) r (hole_stack mm) (color_adjust mm) (scanned_blocks mm)
    (scan_color mm) (scan_alignment mm) (scan_size mm) (scan_hit_start mm)
    (scan_hit_end mm) (scan_start mm) (scan_end mm) (scan_check_range mm)
    (prev_scanned_node mm).

Definition set_hole_stack (s : list node_id) (mm : drm_mm) : drm_mm :=
  mk_mm (heap mm) (ring mm) s (color_adjust mm) (scanned_blocks mm)
    (scan_color mm) (scan_alignment mm) (scan_size mm) (scan_hit_start mm)
    (scan_hit_end mm) (scan_start mm) (scan_end mm) (scan_check_range mm)
    (prev_scanned_node mm).

Definition set_scan_hit (s e : Z) (mm : drm_mm) : drm_mm :=
  mk_mm (heap mm) (ring mm) (hole_stack mm) (color_adjust mm) (scanned_blocks mm)
    (scan_color mm) (scan_alignment mm) (scan_size mm) s e
    (scan_start mm) (scan_end mm) (scan_check_range mm) (prev_scanned_node mm).

Definition set_scanned_blocks (k : Z) (mm : drm_mm) : drm_mm :=
  mk_mm (heap mm) (ring mm) (hole_stack mm) (color_adjust mm) k
    (scan_color mm) (scan_alignment mm) (scan_size mm) (scan_hit_start mm)
    (scan_hit_end mm) (scan_start mm) (scan_end mm) (scan_check_range mm)
    (prev_scanned_node mm).

Definition set_prev_scanned (p : option node_id) (mm : drm_mm) : drm_mm :=
  mk_mm (heap mm) (ring mm) (hole_stack mm) (color_adjust mm) (scanned_blocks mm)
    (scan_color mm) (scan_alignment mm) (scan_size mm) (scan_hit_start mm)
    (scan_hit_end mm) (scan_start mm) (scan_end mm) (scan_check_range mm) p.

(** [mm] with the structure of node [n] rewritten by [f]. *)
Definition upd (n : node_id) (f : drm_mm_node -> drm_mm_node) (mm : drm_mm) : drm_mm :=
  set_heap (<[n := f (nd mm n)]> (heap mm)) mm.

(** ** What drm_mm.c uses of include/drm/drm_mm.h

    The header is not part of the repository: its search and allocation flags
    and its inline functions are parameters. *)
Class drm_mm_h := {
  DRM_MM_SEARCH_BEST : Z;
  DRM_MM_SEARCH_BELOW : Z;
  DRM_MM_CREATE_TOP : Z;
  (** the address where the hole after a node starts, and where it ends *)
  __drm_mm_hole_node_start : drm_mm -> node_id -> Z;
  __drm_mm_hole_node_end : drm_mm -> node_id -> Z;
  (** the same, with the header's assertion on [hole_follows] *)
  drm_mm_hole_node_start : drm_mm -> node_id -> outcome Z;
  drm_mm_hole_node_end : drm_mm -> node_id -> Z;
  (** the holes the iteration macro visits, in order, with their bounds; the
      second argument is the macro's [backwards] *)
  __drm_mm_for_each_hole : drm_mm -> bool -> list (node_id * Z * Z)
}.

Definition next_of (mm : drm_mm) (n : node_id) : node_id :=
  list_succ HEAD n (ring mm).

(** Following [node_list.prev]: the successor on the reversed ring. *)
Definition prev_of (mm : drm_mm) (n : node_id) : node_id :=
  list_succ HEAD n (HEAD :: reverse (tail (ring mm))).

Section drm_mm.
Context {H : drm_mm_h}.

Definition color_adjusted (mm : drm_mm) (n : node_id) (color : Z) (r : Z * Z) : Z * Z :=
  match color_adjust mm with
  | Some f => f (heap mm) (ring mm) n color r
  | None => r
  end.

(** ** drm_mm_insert_helper *)
Definition drm_mm_insert_helper (mm : drm_mm) (hole_node node : node_id)
    (size alignment color flags : Z) : outcome drm_mm :=
  hole_start ← drm_mm_hole_node_start mm hole_node;
  let hole_end := drm_mm_hole_node_end mm hole_node in
  let adj_start := hole_start in
  let adj_end := hole_end in
  _ ← BUG_ON (allocated (nd mm node));
  let '(adj_start, adj_end) :=
    color_adjusted mm hole_node color (adj_start, adj_end) in
  let adj_start :=
    if truth (Z.land flags DRM_MM_CREATE_TOP) then ul (adj_end - size) else adj_start in
  let adj_start :=
    if truth alignment then
      let tmp := u32 (adj_start mod alignment) in
      if truth tmp then
        if truth (Z.land flags DRM_MM_CREATE_TOP) then ul (adj_start - tmp)
        else ul (adj_start + u32 (alignment - tmp))
      else adj_start
    else adj_start in
  _ ← BUG_ON (adj_start <? hole_start);
  _ ← BUG_ON (hole_end <? adj_end);
  let mm :=
    if adj_start =? hole_start then
      set_hole_stack (list_del hole_node (hole_stack mm))
        (upd hole_node (set_hole_follows false) mm)
    else mm in
  let mm := upd node (set_placement adj_start size color) mm in
  let mm := set_ring (list_add_after hole_node node (ring mm)) mm in
  _ ← BUG_ON (adj_end <? ul (nstart (nd mm node) + nsize (nd mm node)));
  let mm := upd node (set_hole_follows false) mm in
  Ok (if __drm_mm_hole_node_start mm node <? hole_end then
        upd node (set_hole_follows true)
          (set_hole_stack (node :: hole_stack mm) mm)
      else mm).

(** ** drm_mm_reserve_node *)

(** The body of the loop for the hole that holds the node. *)
Definition reserve_in_hole (mm : drm_mm) (hole node : node_id)
    (hole_start hole_end_ end_ : Z) : drm_mm :=
  let mm := upd node (set_allocated true) mm in
  let mm := set_ring (list_add_after hole node (ring mm)) mm in
  let mm :=
    if nstart (nd mm node) =? hole_start then
      set_hole_stack (list_del hole (hole_stack mm))
        (upd hole (set_hole_follows false) mm)
    else mm in
  let mm := upd node (set_hole_follows false) mm in
  if negb (end_ =? hole_end_) then
    upd node (set_hole_follows true) (set_hole_stack (node :: hole_stack mm) mm)
  else mm.

Fixpoint reserve_loop (mm : drm_mm) (node : node_id) (end_ : Z)
    (holes : list (node_id * Z * Z)) : Z * drm_mm :=
  match holes with
  | [] => (- ENOSPC, mm)
  | (hole, hole_start, hole_end_) :: holes' =>
      if (nstart (nd mm node) <? hole_start) || (hole_end_ <? end_)
      then reserve_loop mm node end_ holes'
      else (0, reserve_in_hole mm hole node hole_start hole_end_ end_)
  end.

Definition drm_mm_reserve_node (mm : drm_mm) (node : node_id) : Z * drm_mm :=
  let end_ := ul (nstart (nd mm node) + nsize (nd mm node)) in
  reserve_loop mm node end_ (__drm_mm_for_each_hole mm false).

(** ** Searching *)

Definition check_free_hole (start end_ size alignment : Z) : bool :=
  if ul (end_ - start) <? size then false
  else
    let start :=
      if truth alignment then
        let tmp := u32 (start mod alignment) in
        if truth tmp then ul (start + u32 (alignment - tmp)) else start
      else start in
    ul (start + size) <=? end_.

(** The loop of the two search functions after the (possible) restriction of
    the hole to a range by [clamp]. *)
Fixpoint search_loop (mm : drm_mm) (size alignment color flags : Z)
    (clamp : Z * Z -> Z * Z) (holes : list (node_id * Z * Z))
    (best : option node_id) (best_size : Z) : option node_id :=
  match holes with
  | [] => best
  | (entry, adj_start, adj_end) :: holes' =>
      let hole_size := ul (adj_end - adj_start) in
      let '(adj_start, adj_end) := clamp (adj_start, adj_end) in
      let '(adj_start, adj_end) :=
        color_adjusted mm entry color (adj_start, adj_end) in
      if match color_adjust mm with
         | Some _ => adj_end <=? adj_start
         | None => false
         end
      then search_loop mm size alignment color flags clamp holes' best best_size
      else if negb (check_free_hole adj_start adj_end size alignment)
      then search_loop mm size alignment color flags clamp holes' best best_size
      else if negb (truth (Z.land flags DRM_MM_SEARCH_BEST)) then Some entry
      else if hole_size <? best_size
      then search_loop mm size alignment color flags clamp holes' (Some entry) hole_size
      else search_loop mm size alignment color flags clamp holes' best best_size
  end.

Definition ULONG_MAX : Z := ul (-1).

Definition drm_mm_search_free_generic (mm : drm_mm)
    (size alignment color flags : Z) : outcome (option node_id) :=
  _ ← BUG_ON (truth (scanned_blocks mm));
  Ok (search_loop mm size alignment color flags (fun r => r)
        (__drm_mm_for_each_hole mm (truth (Z.land flags DRM_MM_SEARCH_BELOW)))
        None ULONG_MAX).

(** [if (adj_start < start) adj_start = start; if (adj_end > end) adj_end = end;] *)
Definition clamp_range (start end_ : Z) (r : Z * Z) : Z * Z :=
  (if fst r <? start then start else fst r, if end_ <? snd r then end_ else snd r).

Definition drm_mm_search_free_in_range_generic (mm : drm_mm)
    (size alignment color start end_ flags : Z) : outcome (option node_id) :=
  _ ← BUG_ON (truth (scanned_blocks mm));
  Ok (search_loop mm size alignment color flags (clamp_range start end_)
        (__drm_mm_for_each_hole mm (truth (Z.land flags DRM_MM_SEARCH_BELOW)))
        None ULONG_MAX).

Definition drm_mm_insert_node_generic (mm : drm_mm) (node : node_id)
    (size alignment color sflags aflags : Z) : outcome (Z * drm_mm) :=
  hole_node ← drm_mm_search_free_generic mm size alignment color sflags;
  match hole_node with
  | None => Ok (- ENOSPC, mm)
  | Some hole_node =>
      mm' ← drm_mm_insert_helper mm hole_node node size alignment color aflags;
      Ok (0, mm')
  end.

(** ** drm_mm_insert_helper_range *)
Definition drm_mm_insert_helper_range (mm : drm_mm) (hole_node node : node_id)
    (size alignment color start end_ flags : Z) : outcome drm_mm :=
  hole_start ← drm_mm_hole_node_start mm hole_node;
  let hole_end := drm_mm_hole_node_end mm hole_node in
  _ ← BUG_ON (negb (hole_follows (nd mm hole_node)) || allocated (nd mm node));
  let '(adj_start, adj_end) := clamp_range start end_ (hole_start, hole_end) in
  let adj_start :=
    if truth (Z.land flags DRM_MM_CREATE_TOP) then ul (adj_end - size) else adj_start in
  let '(adj_start, adj_end) :=
    color_adjusted mm hole_node color (adj_start, adj_end) in
  let adj_start :=
    if truth alignment then
      let tmp := u32 (adj_start mod alignment) in
      if truth tmp then
        if truth (Z.land flags DRM_MM_CREATE_TOP) then ul (adj_start - tmp)
        else ul (adj_start + u32 (alignment - tmp))
      else adj_start
    else adj_start in
  let mm :=
    if adj_start =? hole_start then
      set_hole_stack (list_del hole_node (hole_stack mm))
        (upd hole_node (set_hole_follows false) mm)
    else mm in
  let mm := upd node (set_placement adj_start size color) mm in
  let mm := set_ring (list_add_after hole_node node (ring mm)) mm in
  _ ← BUG_ON (nstart (nd mm node) <? start);
  _ ← BUG_ON (nstart (nd mm node) <? adj_start);
  _ ← BUG_ON (adj_end <? ul (nstart (nd mm node) + nsize (nd mm node)));
  _ ← BUG_ON (end_ <? ul (nstart (nd mm node) + nsize (nd mm node)));
  let mm := upd node (set_hole_follows false) mm in
  Ok (if __drm_mm_hole_node_start mm node <? hole_end then
        upd node (set_hole_follows true)
          (set_hole_stack (node :: hole_stack mm) mm)
      else mm).

Definition drm_mm_insert_node_in_range_generic (mm : drm_mm) (node : node_id)
    (size alignment color start end_ sflags aflags : Z) : outcome (Z * drm_mm) :=
  hole_node ← drm_mm_search_free_in_range_generic mm size alignment color start end_ sflags;
  match hole_node with
  | None => Ok (- ENOSPC, mm)
  | Some hole_node =>
      mm' ← drm_mm_insert_helper_range mm hole_node node size alignment color
              start end_ aflags;
      Ok (0, mm')
  end.

(** ** drm_mm_remove_node

    [WARN_ON] reports and returns without touching the allocator. *)
Definition drm_mm_remove_node (mm : drm_mm) (node : node_id) : outcome drm_mm :=
  if negb (allocated (nd mm node)) then Ok mm
  else
    _ ← BUG_ON (scanned_block (nd mm node) || scanned_prev_free (nd mm node)
                || scanned_next_free (nd mm node));
    let prev_node := prev_of mm node in
    mm ← (if hole_follows (nd mm node) then
            _ ← BUG_ON (__drm_mm_hole_node_start mm node =? __drm_mm_hole_node_end mm node);
            Ok (set_hole_stack (list_del node (hole_stack mm)) mm)
          else
            _ ← BUG_ON (negb (__drm_mm_hole_node_start mm node =?
                              __drm_mm_hole_node_end mm node));
            Ok mm);
    let mm :=
      if negb (hole_follows (nd mm prev_node)) then
        let mm := upd prev_node (set_hole_follows true) mm in
        set_hole_stack (prev_node :: hole_stack mm) mm
      else set_hole_stack (prev_node :: list_del prev_node (hole_stack mm)) mm in
    let mm := set_ring (list_del node (ring mm)) mm in
    Ok (upd node (set_allocated false) mm).

(** ** drm_mm_replace_node *)
Definition drm_mm_replace_node (mm : drm_mm) (old new : node_id) : drm_mm :=
  let mm := set_ring (list_replace old new (ring mm)) mm in
  let mm := set_hole_stack (list_replace old new (hole_stack mm)) mm in
  let o := nd mm old in
  let mm := upd new (fun d =>
    mk_node (nstart o) (nsize o) (ncolor o) (hole_follows o) (scanned_block d)
      (scanned_prev_free d) (scanned_next_free d) (scanned_preceeds_hole d)
      (allocated d) (nl_prev d) (nl_next d)) mm in
  let mm := upd old (set_allocated false) mm in
  upd new (set_allocated true) mm.

(** ** The LRU scan *)

Definition drm_mm_init_scan (mm : drm_mm) (size alignment color : Z) : drm_mm :=
  mk_mm (heap mm) (ring mm) (hole_stack mm) (color_adjust mm) 0
    color alignment size 0 0 (scan_start mm) (scan_end mm) false None.

Definition drm_mm_init_scan_with_range (mm : drm_mm)
    (size alignment color start end_ : Z) : drm_mm :=
  mk_mm (heap mm) (ring mm) (hole_stack mm) (color_adjust mm) 0
    color alignment size 0 0 start end_ true None.

Definition drm_mm_scan_add_block (mm : drm_mm) (node : node_id) :
  outcome (bool * drm_mm) :=
  let mm := set_scanned_blocks (u32 (scanned_blocks mm + 1)) mm in
  _ ← BUG_ON (scanned_block (nd mm node));
  let mm := upd node (set_scanned_block true) mm in
  let prev_node := prev_of mm node in
  let mm := upd node (set_preceeds_hole (hole_follows (nd mm prev_node))) mm in
  let mm := upd prev_node (set_hole_follows true) mm in
  let mm := set_ring (list_del node (ring mm)) mm in
  let mm := upd node (set_links prev_node (prev_scanned_node mm)) mm in
  let mm := set_prev_scanned (Some node) mm in
  hole_start ← drm_mm_hole_node_start mm prev_node;
  let hole_end := drm_mm_hole_node_end mm prev_node in
  let '(adj_start, adj_end) :=
    if scan_check_range mm
    then clamp_range (scan_start mm) (scan_end mm) (hole_start, hole_end)
    else (hole_start, hole_end) in
  let '(adj_start, adj_end) :=
    color_adjusted mm prev_node (scan_color mm) (adj_start, adj_end) in
  if check_free_hole adj_start adj_end (scan_size mm) (scan_alignment mm)
  then Ok (true, set_scan_hit hole_start hole_end mm)
  else Ok (false, mm).

Definition drm_mm_scan_remove_block (mm : drm_mm) (node : node_id) :
  outcome (bool * drm_mm) :=
  let mm := set_scanned_blocks (u32 (scanned_blocks mm - 1)) mm in
  _ ← BUG_ON (negb (scanned_block (nd mm node)));
  let mm := upd node (set_scanned_block false) mm in
  let prev_node := nl_prev (nd mm node) in
  let mm := upd prev_node (set_hole_follows (scanned_preceeds_hole (nd mm node))) mm in
  let mm := set_ring (list_add_after prev_node node (ring mm)) mm in
  Ok ((scan_hit_start mm <? drm_mm_hole_node_end mm node) &&
      (nstart (nd mm node) <? scan_hit_end mm), mm).

(** ** Whole-allocator operations *)

Definition drm_mm_clean (mm : drm_mm) : bool :=
  bool_decide (next_of mm (next_of mm HEAD) = HEAD).

(** [mm] is cleared to 0 before; [h] holds the node structures of the
    drivers. *)
Definition drm_mm_init (h : gmap node_id drm_mm_node) (start size : Z) : drm_mm :=
  let head_start := ul (start + size) in
  let head := mk_node head_start (ul (start - head_start)) 0 true false false false
                false false HEAD None in
  mk_mm (<[HEAD := head]> h) [HEAD] [HEAD] None 0 0 0 0 0 0 0 0 false None.

(** Whether [WARN] reports an allocator that is not clean. *)
Definition drm_mm_takedown (mm : drm_mm) : bool := negb (bool_decide (tail (ring mm) = [])).

(** The lines the two dump functions write. *)
Inductive mm_line :=
| FreeLine (hole_start hole_end hole_size : Z)
| UsedLine (start end_ size : Z)
| TotalLine (total used free : Z).

Definition drm_mm_debug_hole (mm : drm_mm) (entry : node_id) : outcome (list mm_line * Z) :=
  if hole_follows (nd mm entry) then
    hole_start ← drm_mm_hole_node_start mm entry;
    let hole_end := drm_mm_hole_node_end mm entry in
    let hole_size := ul (hole_end - hole_start) in
    Ok ([FreeLine hole_start hole_end hole_size], hole_size)
  else Ok ([], 0).

Fixpoint debug_loop (mm : drm_mm) (entries : list node_id) (total_used total_free : Z) :
  outcome (list mm_line * Z * Z) :=
  match entries with
  | [] => Ok ([], total_used, total_free)
  | entry :: entries' =>
      let d := nd mm entry in
      let total_used := ul (total_used + nsize d) in
      '(hl, hs) ← drm_mm_debug_hole mm entry;
      let total_free := ul (total_free + hs) in
      '(ls, tu, tf) ← debug_loop mm entries' total_used total_free;
      Ok (UsedLine (nstart d) (ul (nstart d + nsize d)) (nsize d) :: hl ++ ls, tu, tf)
  end.

Definition drm_mm_debug_table (mm : drm_mm) : outcome (list mm_line) :=
  '(hl, hs) ← drm_mm_debug_hole mm HEAD;
  '(ls, total_used, total_free) ← debug_loop mm (tail (ring mm)) 0 (ul (0 + hs));
  let total := ul (total_free + total_used) in
  Ok (hl ++ ls ++ [TotalLine total total_used total_free]).

End drm_mm.
