(* ===== verification/DrmMmSpec.v ===== *)
(** * Correctness of the range allocator

    The invariant of [DrmMm.drm_mm] (the ring tiles the managed range), the
    laws of the header's inline functions, and the theorems on every
    operation: placement, disjointness, completeness of the search, freeing,
    the LRU scan, the dump functions. *)

From S2P Require Import Prelude DrmMm.

(** ** The header's documented behaviour *)
Class drm_mm_h_ok (H : drm_mm_h) : Prop := {
  hole_node_start_law mm n :
    __drm_mm_hole_node_start mm n = ul (nstart (nd mm n) + nsize (nd mm n));
  hole_node_end_law mm n :
    n ∈ ring mm -> __drm_mm_hole_node_end mm n = nstart (nd mm (next_of mm n));
  hole_node_start_checked mm n :
    hole_follows (nd mm n) = true ->
    drm_mm_hole_node_start mm n = Ok (__drm_mm_hole_node_start mm n);
  hole_node_end_checked mm n :
    drm_mm_hole_node_end mm n = __drm_mm_hole_node_end mm n;
  for_each_hole_law mm b :
    __drm_mm_for_each_hole mm b =
      (fun n => (n, __drm_mm_hole_node_start mm n, __drm_mm_hole_node_end mm n)) <$>
        (if b then reverse (hole_stack mm) else hole_stack mm)
}.

(** An instance, for evaluation. *)
Definition drm_mm_h_sample : drm_mm_h := {|
  DRM_MM_SEARCH_BEST := 1;
  DRM_MM_SEARCH_BELOW := 2;
  DRM_MM_CREATE_TOP := 1;
  __drm_mm_hole_node_start mm n := ul (nstart (nd mm n) + nsize (nd mm n));
  __drm_mm_hole_node_end mm n := nstart (nd mm (next_of mm n));
  drm_mm_hole_node_start mm n :=
    if hole_follows (nd mm n) then Ok (ul (nstart (nd mm n) + nsize (nd mm n))) else Bug;
  drm_mm_hole_node_end mm n := nstart (nd mm (next_of mm n));
  __drm_mm_for_each_hole mm b :=
    (fun n => (n, ul (nstart (nd mm n) + nsize (nd mm n)), nstart (nd mm (next_of mm n)))) <$>
      (if b then reverse (hole_stack mm) else hole_stack mm)
|}.

Lemma drm_mm_h_sample_ok : drm_mm_h_ok drm_mm_h_sample.
Proof. split; try done. intros mm n E. simpl. by rewrite E. Qed.

(** ** The invariant *)

Definition node_end (d : drm_mm_node) : Z := ul (nstart d + nsize d).

(** Where the node after a hole starts: [stop] after the last node. *)
Definition first_start (h : gmap node_id drm_mm_node) (l : list node_id) (stop : Z) : Z :=
  match l with [] => stop | b :: _ => nstart (h !!! b) end.

(** Each entry ends before the next one starts, and [hole_follows] says
    exactly whether there is room between the two. *)
Fixpoint tiled (h : gmap node_id drm_mm_node) (l : list node_id) (stop : Z) : Prop :=
  match l with
  | [] => True
  | a :: l' =>
      node_end (h !!! a) <= first_start h l' stop /\
      hole_follows (h !!! a) = (node_end (h !!! a) <? first_start h l' stop) /\
      tiled h l' stop
  end.

(** A node structure that is allocated and not on the scan list. *)
Definition node_ok (d : drm_mm_node) : Prop :=
  0 <= nstart d /\ 0 < nsize d /\ nstart d + nsize d < 2 ^ 64 /\
  allocated d = true /\ scanned_block d = false /\
  scanned_prev_free d = false /\ scanned_next_free d = false.

(** The invariant outside a scan, for an allocator that manages the addresses
    from [base] up to [top].  Rounding an address of the range up to a 32-bit
    alignment does not overflow [unsigned long]. *)
Record wf (base top : Z) (mm : drm_mm) : Prop := {
  wf_base : 0 <= base < top;
  wf_top : top + 2 ^ 32 <= 2 ^ 64;
  wf_ring : head (ring mm) = Some HEAD;
  wf_nodup : NoDup (ring mm);
  wf_head_start : nstart (nd mm HEAD) = top;
  wf_head_end : node_end (nd mm HEAD) = base;
  wf_nodes : Forall (fun n => node_ok (nd mm n)) (tail (ring mm));
  wf_tiled : tiled (heap mm) (ring mm) top;
  wf_stack : hole_stack mm ≡ₚ filter (fun n => hole_follows (nd mm n) = true) (ring mm);
  wf_noscan : scanned_blocks mm = 0
}.

(** ** Structural lemmas *)

Lemma tiled_app h l1 l2 stop :
  tiled h (l1 ++ l2) stop <-> tiled h l1 (first_start h l2 stop) /\ tiled h l2 stop.
Proof.
  induction l1 as [|a l1 IH]; simpl; [tauto|].
  rewrite IH. destruct l1; simpl; tauto.
Qed.

(** What [tiled] reads of a node. *)
Definition same_shape (d d' : drm_mm_node) : Prop :=
  nstart d = nstart d' /\ nsize d = nsize d' /\ hole_follows d = hole_follows d'.

Lemma first_start_frame h h' l stop :
  (forall a, a ∈ l -> same_shape (h !!! a) (h' !!! a)) ->
  first_start h l stop = first_start h' l stop.
Proof. destruct l; simpl; [done|]. intros Hs. apply Hs. set_solver. Qed.

Lemma tiled_frame h h' l stop :
  (forall a, a ∈ l -> same_shape (h !!! a) (h' !!! a)) ->
  tiled h l stop -> tiled h' l stop.
Proof.
  induction l as [|a l IH]; simpl; [done|]. intros Hs (H1 & H2 & H3).
  rewrite (first_start_frame h h') in H1, H2 by set_solver.
  destruct (Hs a) as (E1 & E2 & E3); [set_solver|].
  unfold node_end in *. rewrite <- E1, <- E2, <- E3.
  repeat split; [lia | done | apply IH; set_solver].
Qed.

Lemma node_ok_end d : node_ok d -> node_end d = nstart d + nsize d /\ nstart d < node_end d.
Proof.
  intros (? & ? & ? & _). unfold node_end. rewrite ul_small by (unfold is_ul; lia). lia.
Qed.

(** In a tiling every entry ends before a later one starts, and all of them
    start before the end of the range. *)
Lemma tiled_before h a l stop n :
  tiled h (a :: l) stop -> Forall (fun n => node_ok (h !!! n)) l -> n ∈ l ->
  node_end (h !!! a) <= nstart (h !!! n).
Proof.
  revert a. induction l as [|b l IH]; intros a (H1 & _ & Ht) Hok Hn; [set_solver|].
  apply Forall_cons in Hok as [Hb Hok]. apply elem_of_cons in Hn as [->|Hn]; [done|].
  specialize (IH b Ht Hok Hn). apply node_ok_end in Hb. simpl in H1. lia.
Qed.

Lemma tiled_stop h l stop :
  tiled h l stop -> Forall (fun n => node_ok (h !!! n)) l -> first_start h l stop <= stop.
Proof.
  induction l as [|b l IH]; simpl; [lia|]. intros (H1 & _ & Ht) [Hb Hok]%Forall_cons.
  specialize (IH Ht Hok). apply node_ok_end in Hb. lia.
Qed.

(** Following [node_list.prev] on a ring. *)
Lemma prev_of_ring mm A p n B :
  head (ring mm) = Some HEAD -> NoDup (ring mm) ->
  ring mm = A ++ p :: n :: B -> prev_of mm n = p.
Proof.
  intros Hr Hnd E. unfold prev_of. rewrite E in Hr, Hnd |- *.
  assert (EA : HEAD :: reverse (tail (A ++ p :: n :: B)) =
               (HEAD :: reverse B) ++ n :: (if A is [] then [] else p :: reverse (tail A))).
  { destruct A; simpl tail; rewrite ?reverse_app, !reverse_cons, <- ?app_assoc; done. }
  rewrite EA, list_succ_mid; destruct A as [|a A]; simplify_eq/=; [done..| |];
    rewrite ?NoDup_cons, ?NoDup_app, ?NoDup_cons in Hnd; set_solver.
Qed.

Section structure.
Context {base top : Z} {mm : drm_mm} (Hwf : wf base top mm).

Lemma wf_ring_cons : ring mm = HEAD :: tail (ring mm).
Proof. pose proof (wf_ring _ _ _ Hwf). destruct (ring mm); simpl in *; by simplify_eq. Qed.

Lemma wf_head_notin : HEAD ∉ tail (ring mm).
Proof. pose proof (wf_nodup _ _ _ Hwf) as Hn. rewrite wf_ring_cons in Hn. by apply NoDup_cons in Hn as []. Qed.

Lemma wf_split n : n ∈ ring mm -> exists A B, ring mm = A ++ n :: B /\ (n ∉ A) /\ (n ∉ B).
Proof.
  intros (A & B & E)%list_elem_of_split. exists A, B. split; [done|].
  pose proof (wf_nodup _ _ _ Hwf) as Hn. rewrite E in Hn.
  apply NoDup_app in Hn as (H1 & H2 & H3). apply NoDup_cons in H3 as [H3 _]. set_solver.
Qed.

(** The end of the hole after an entry is where the next entry starts. *)
Lemma next_start A n B :
  ring mm = A ++ n :: B -> n ∉ A ->
  nstart (nd mm (next_of mm n)) = first_start (heap mm) B top.
Proof.
  intros E Hn. unfold next_of. rewrite E, list_succ_mid by done.
  destruct B; simpl; [|done]. apply (wf_head_start _ _ _ Hwf).
Qed.

Lemma prev_of_split A p n B :
  ring mm = A ++ p :: n :: B -> prev_of mm n = p.
Proof. intros E. by eapply prev_of_ring; [apply Hwf|apply Hwf|]. Qed.

(** A node of the ring other than the head has a predecessor on it. *)
Lemma node_pred n :
  n ∈ tail (ring mm) -> exists A p B, ring mm = A ++ p :: n :: B.
Proof.
  intros (A & B & E)%list_elem_of_split. rewrite wf_ring_cons, E.
  destruct (exists_last (l := HEAD :: A)) as (A' & p & EA); [done|].
  exists A', p, B. rewrite app_comm_cons, EA, <- app_assoc. done.
Qed.

End structure.

(** ** Carving a node out of a hole

    The three insertions put a node into a hole in the same way: [d] is the
    node's structure afterwards, [at_start] tells whether the node starts where
    the hole starts and [rest] whether a hole remains behind it. *)
Definition carved (mm : drm_mm) (hole node : node_id) (d : drm_mm_node)
    (at_start rest : bool) : drm_mm :=
  set_hole_stack
    ((if rest then [node] else []) ++
     (if at_start then list_del hole (hole_stack mm) else hole_stack mm))
    (set_ring (list_add_after hole node (ring mm))
      (set_heap
        (<[node := d]>
          (if at_start then <[hole := set_hole_follows false (nd mm hole)]> (heap mm)
           else heap mm)) mm)).

Section carve.
Context {base top : Z} {mm : drm_mm} (Hwf : wf base top mm).
Context (A B : list node_id) (hole node : node_id) (d : drm_mm_node).
Context (Hring : ring mm = A ++ hole :: B) (Hnode : node ∉ ring mm).
Context (Hhf : hole_follows (nd mm hole) = true).
Context (Hd : node_ok d).
Context (Hs : node_end (nd mm hole) <= nstart d).
Context (He : nstart d + nsize d <= first_start (heap mm) B top).
Context (Hdf : hole_follows d = (nstart d + nsize d <? first_start (heap mm) B top)).

Let at_start := nstart d =? node_end (nd mm hole).
Let mm' := carved mm hole node d at_start (hole_follows d).

Local Lemma carve_notin : hole ∉ A /\ hole ∉ B /\ hole <> node /\ node ∉ A /\ node ∉ B.
Proof.
  pose proof (wf_nodup _ _ _ Hwf) as Hn. rewrite Hring in Hn, Hnode.
  rewrite NoDup_app, NoDup_cons in Hn. set_solver.
Qed.

Local Lemma carve_ring : ring mm' = A ++ hole :: node :: B.
Proof.
  subst mm'. simpl. rewrite Hring. apply list_add_after_mid, carve_notin.
Qed.

Local Lemma carve_node : nd mm' node = d.
Proof. unfold nd. subst mm'. simpl. by rewrite lookup_total_insert_eq. Qed.

Local Lemma carve_hole :
  nd mm' hole = set_hole_follows (negb at_start) (nd mm hole).
Proof.
  destruct carve_notin as (_ & _ & Hne & _ & _). unfold nd. subst mm'. simpl.
  rewrite lookup_total_insert_ne by done. destruct at_start; simpl.
  - by rewrite lookup_total_insert_eq.
  - unfold nd in Hhf. revert Hhf. clear. destruct (heap mm !!! hole). simpl. by intros ->.
Qed.

Local Lemma carve_other n : n <> node -> n <> hole -> nd mm' n = nd mm n.
Proof.
  intros H1 H2. unfold nd. subst mm'. simpl. rewrite lookup_total_insert_ne by done.
  destruct at_start; [by rewrite lookup_total_insert_ne|done].
Qed.

Local Lemma node_end_d : node_end d = nstart d + nsize d.
Proof. destruct Hd as (? & ? & ? & _). apply ul_small. unfold is_ul. lia. Qed.

Local Lemma carve_first_start : first_start (heap mm') B top = first_start (heap mm) B top.
Proof.
  destruct carve_notin as (? & ? & ? & ? & ?).
  apply first_start_frame. intros a Ha. fold (nd mm' a) (nd mm a).
  rewrite carve_other; [done|set_solver..].
Qed.

Local Lemma carve_tiled : tiled (heap mm') (ring mm') top.
Proof.
  destruct carve_notin as (? & ? & ? & ? & ?).
  pose proof (wf_tiled _ _ _ Hwf) as Ht. rewrite Hring in Ht.
  apply tiled_app in Ht as [HtA (Ht1 & Ht2 & HtB)].
  rewrite carve_ring. apply tiled_app. cbn [tiled first_start] in *.
  change (heap mm' !!! hole) with (nd mm' hole).
  change (heap mm' !!! node) with (nd mm' node).
  rewrite carve_hole, carve_node, carve_first_start, node_end_d.
  change (node_end (set_hole_follows (negb at_start) (nd mm hole)))
    with (node_end (nd mm hole)).
  cbn [hole_follows nstart set_hole_follows].
  split_and!; try lia; try done.
  - revert HtA. apply tiled_frame. intros a Ha. fold (nd mm' a) (nd mm a).
    rewrite carve_other; [done|set_solver..].
  - unfold at_start. destruct (Z.eqb_spec (nstart d) (node_end (nd mm hole))); lia.
  - revert HtB. apply tiled_frame. intros a Ha. fold (nd mm' a) (nd mm a).
    rewrite carve_other; [done|set_solver..].
Qed.

Local Lemma carve_stack :
  hole_stack mm' ≡ₚ filter (fun n => hole_follows (nd mm' n) = true) (ring mm').
Proof.
  destruct carve_notin as (? & ? & ? & ? & ?).
  assert (HA : forall l : list node_id, hole ∉ l -> node ∉ l ->
    filter (fun n => hole_follows (nd mm' n) = true) l =
    filter (fun n => hole_follows (nd mm n) = true) l).
  { intros l ??. apply list_filter_iff_local. intros n Hn.
    rewrite carve_other; [done|set_solver..]. }
  rewrite carve_ring, filter_app, !filter_cons, !HA by done.
  rewrite carve_hole, carve_node. simpl.
  pose proof (wf_stack _ _ _ Hwf) as Hst. rewrite Hring, filter_app, filter_cons in Hst.
  rewrite decide_True in Hst by done.
  set (FA := filter _ A) in *. set (FB := filter _ B) in *.
  assert (HN : list_del hole (FA ++ hole :: FB) = FA ++ FB).
  { apply list_del_mid. subst FA FB. pose proof (wf_nodup _ _ _ Hwf) as Hn.
    rewrite Hring in Hn. apply (NoDup_filter (fun n => hole_follows (nd mm n) = true)) in Hn.
    rewrite filter_app, filter_cons, decide_True in Hn by done. done. }
  subst mm'. simpl. destruct at_start, (hole_follows d); simpl; rewrite ?Hst, ?HN;
    repeat case_decide; simplify_eq/=; try done; solve_Permutation.
Qed.

Lemma carved_wf : wf base top mm'.
Proof.
  destruct carve_notin as (? & ? & ? & ? & ?).
  pose proof (wf_ring_cons Hwf) as Hc.
  assert (HH : node <> HEAD) by (rewrite Hc in Hnode; set_solver).
  assert (Ehead : same_shape (nd mm HEAD) (nd mm' HEAD) \/ hole = HEAD).
  { destruct (decide (hole = HEAD)); [by right|left]. by rewrite carve_other. }
  assert (Estart : forall n, n <> node -> nstart (nd mm' n) = nstart (nd mm n) /\
                                  node_end (nd mm' n) = node_end (nd mm n)).
  { intros n Hn. destruct (decide (n = hole)) as [->|].
    - by rewrite carve_hole.
    - by rewrite carve_other. }
  split; try apply Hwf.
  - rewrite carve_ring. pose proof (wf_ring _ _ _ Hwf) as Hr. rewrite Hring in Hr.
    by destruct A.
  - rewrite carve_ring. pose proof (wf_nodup _ _ _ Hwf) as Hn. rewrite Hring in Hn.
    rewrite NoDup_app, !NoDup_cons in *. set_solver.
  - rewrite (proj1 (Estart _ (not_eq_sym HH))). apply Hwf.
  - rewrite (proj2 (Estart _ (not_eq_sym HH))). apply Hwf.
  - apply Forall_forall. intros n Hn.
    destruct (decide (n = node)) as [->|Hne]; [by rewrite carve_node|].
    assert (Hin : n ∈ tail (ring mm)).
    { rewrite carve_ring in Hn. rewrite Hring. destruct A; set_solver. }
    pose proof (proj1 (Forall_forall _ _) (wf_nodes _ _ _ Hwf) _ Hin) as Hok.
    destruct (decide (n = hole)) as [->|]; [by rewrite carve_hole|by rewrite carve_other].
  - apply carve_tiled.
  - apply carve_stack.
Qed.
End carve.

(** ** Alignment and the fit test *)

(** The code that rounds [start] up, without overflow. *)
Lemma bump_up start alignment :
  is_ul start -> is_u32 alignment -> start + 2 ^ 32 <= 2 ^ 64 ->
  (if truth alignment then
     let tmp := u32 (start mod alignment) in
     if truth tmp then ul (start + u32 (alignment - tmp)) else start
   else start) = align_up start alignment.
Proof.
  unfold is_ul, is_u32, truth. intros Hs Ha Ho.
  destruct (Z.eqb_spec alignment 0) as [->|Hne]; simpl; [done|].
  pose proof (Z.mod_pos_bound start alignment).
  rewrite (u32_small (start mod alignment)) by (unfold is_u32; lia).
  rewrite align_up_nz by lia.
  destruct (Z.eqb_spec (start mod alignment) 0); simpl; [done|].
  rewrite u32_small by (unfold is_u32; lia). apply ul_small. unfold is_ul. lia.
Qed.

(** The code that rounds [start] down. *)
Lemma bump_down start alignment :
  is_ul start -> is_u32 alignment ->
  (if truth alignment then
     let tmp := u32 (start mod alignment) in
     if truth tmp then ul (start - tmp) else start
   else start) = align_down start alignment.
Proof.
  unfold is_ul, is_u32, truth, align_down. intros Hs Ha.
  destruct (Z.eqb_spec alignment 0) as [->|Hne]; simpl; [done|].
  pose proof (Z.mod_pos_bound start alignment). pose proof (Z.mod_le start alignment).
  rewrite (u32_small (start mod alignment)) by (unfold is_u32; lia).
  destruct (Z.eqb_spec (start mod alignment) 0); simpl; [lia|].
  apply ul_small. unfold is_ul. lia.
Qed.

Lemma check_free_hole_fits start end_ size alignment :
  is_ul start -> 0 <= end_ -> end_ + 2 ^ 32 <= 2 ^ 64 -> 0 <= size -> is_u32 alignment ->
  start <= end_ \/ start + size + 2 ^ 32 <= 2 ^ 64 ->
  check_free_hole start end_ size alignment = (align_up start alignment + size <=? end_).
Proof.
  intros Hs He Ho Hz Ha Hno. unfold check_free_hole.
  pose proof (align_up_bounds start alignment) as Hb. unfold is_ul, is_u32 in *.
  destruct (Z.ltb_spec (ul (end_ - start)) size) as [Hlt|Hge].
  - symmetry. apply Z.leb_gt. destruct (Z.le_gt_cases start end_).
    + rewrite ul_small in Hlt by (unfold is_ul; lia). lia.
    + lia.
  - assert (Hsz : start + size + 2 ^ 32 <= 2 ^ 64).
    { destruct Hno; [|done]. rewrite ul_small in Hge by (unfold is_ul; lia). lia. }
    rewrite bump_up by (unfold is_ul, is_u32; lia). f_equal.
    apply ul_small. unfold is_ul. lia.
Qed.

(** ** Rewriting state updates *)

Lemma nd_upd_eq mm n f : nd (upd n f mm) n = f (nd mm n).
Proof. unfold upd, nd. simpl. by rewrite lookup_total_insert_eq. Qed.

Lemma nd_upd_ne mm n m f : n <> m -> nd (upd n f mm) m = nd mm m.
Proof. intros. unfold upd, nd. simpl. by rewrite lookup_total_insert_ne. Qed.

Lemma upd_upd mm n f g : upd n f (upd n g mm) = upd n (fun d => f (g d)) mm.
Proof.
  unfold upd at 1. rewrite nd_upd_eq. unfold upd, set_heap. simpl.
  by rewrite insert_insert_eq.
Qed.

Lemma upd_comm mm n m f g : n <> m -> upd n f (upd m g mm) = upd m g (upd n f mm).
Proof.
  intros Hne. unfold upd at 1 3. rewrite !nd_upd_ne by done. unfold upd, set_heap. simpl.
  by rewrite insert_insert_ne.
Qed.

Lemma upd_ext mm n f g : f (nd mm n) = g (nd mm n) -> upd n f mm = upd n g mm.
Proof. unfold upd. by intros ->. Qed.

(** Normal form of a state: the stack, then the ring, then the nodes. *)
Lemma upd_set_ring mm n f r : upd n f (set_ring r mm) = set_ring r (upd n f mm).
Proof. done. Qed.
Lemma upd_set_hole_stack mm n f s : upd n f (set_hole_stack s mm) = set_hole_stack s (upd n f mm).
Proof. done. Qed.
Lemma set_ring_set_hole_stack mm r s :
  set_ring r (set_hole_stack s mm) = set_hole_stack s (set_ring r mm).
Proof. done. Qed.
Lemma set_hole_stack_twice mm s s' : set_hole_stack s (set_hole_stack s' mm) = set_hole_stack s mm.
Proof. done. Qed.
Lemma hole_stack_set mm s : hole_stack (set_hole_stack s mm) = s.
Proof. done. Qed.
Lemma hole_stack_set_ring mm r : hole_stack (set_ring r mm) = hole_stack mm.
Proof. done. Qed.
Lemma hole_stack_upd mm n f : hole_stack (upd n f mm) = hole_stack mm.
Proof. done. Qed.
Lemma ring_set mm r : ring (set_ring r mm) = r.
Proof. done. Qed.
Lemma ring_set_hole_stack mm s : ring (set_hole_stack s mm) = ring mm.
Proof. done. Qed.
Lemma ring_upd mm n f : ring (upd n f mm) = ring mm.
Proof. done. Qed.
Lemma nd_set_ring mm r n : nd (set_ring r mm) n = nd mm n.
Proof. done. Qed.
Lemma nd_set_hole_stack mm s n : nd (set_hole_stack s mm) n = nd mm n.
Proof. done. Qed.

#[export] Hint Rewrite nd_upd_eq upd_upd upd_set_ring upd_set_hole_stack
  set_ring_set_hole_stack set_hole_stack_twice hole_stack_set hole_stack_set_ring
  hole_stack_upd ring_set ring_set_hole_stack ring_upd nd_set_ring nd_set_hole_stack : mm.

(** The insertions all end in a [carved] state. *)
Lemma carved_intro mm hole node d at_start rest :
  hole <> node ->
  carved mm hole node d at_start rest =
  let mm1 := if at_start
             then set_hole_stack (list_del hole (hole_stack mm))
                    (upd hole (set_hole_follows false) mm)
             else mm in
  let mm2 := upd node (fun _ => d) (set_ring (list_add_after hole node (ring mm)) mm1) in
  if rest then set_hole_stack (node :: hole_stack mm2) mm2 else mm2.
Proof. by destruct at_start, rest. Qed.

(** A node structure a driver may insert: off the ring and cleared. *)
Record fresh (mm : drm_mm) (node : node_id) : Prop := {
  fresh_off : node ∉ ring mm;
  fresh_alloc : allocated (nd mm node) = false;
  fresh_block : scanned_block (nd mm node) = false;
  fresh_prev : scanned_prev_free (nd mm node) = false;
  fresh_next : scanned_next_free (nd mm node) = false
}.

(** Bounds of the hole after an entry. *)
Definition hole_bounds (mm : drm_mm) (n : node_id) : Z * Z :=
  (node_end (nd mm n), nstart (nd mm (next_of mm n))).

(** A well-behaved [color_adjust] only shrinks a hole. *)
Definition color_shrinks (mm : drm_mm) : Prop :=
  forall n color s e,
    s <= fst (color_adjusted mm n color (s, e)) /\
    snd (color_adjusted mm n color (s, e)) <= e.

Lemma color_shrinks_none mm : color_adjust mm = None -> color_shrinks mm.
Proof. intros E n color s e. unfold color_adjusted. rewrite E. simpl. lia. Qed.

(** An interval of the managed range that no allocated node meets. *)
Definition free_range (base top : Z) (mm : drm_mm) (s size : Z) : Prop :=
  base <= s /\ s + size <= top /\
  forall n, n ∈ tail (ring mm) ->
    s + size <= nstart (nd mm n) \/ nstart (nd mm n) + nsize (nd mm n) <= s.

Definition placed (mm : drm_mm) (node : node_id) (s size color : Z) (rest : bool) :
  drm_mm_node :=
  set_hole_follows rest (set_placement s size color (nd mm node)).

Section insert.
Context {H : drm_mm_h} {Hok : drm_mm_h_ok H}.
Context {base top : Z} {mm : drm_mm} (Hwf : wf base top mm).

Lemma hole_bounds_ok hole :
  hole ∈ ring mm -> hole_follows (nd mm hole) = true ->
  base <= fst (hole_bounds mm hole) < snd (hole_bounds mm hole) /\
  snd (hole_bounds mm hole) <= top.
Proof.
  intros Hin Hhf. destruct (wf_split Hwf _ Hin) as (A & B & E & HA & HB).
  unfold hole_bounds. simpl. rewrite (next_start Hwf A hole B) by done.
  pose proof (wf_tiled _ _ _ Hwf) as Ht. rewrite E in Ht.
  apply tiled_app in Ht as [HtA (H1 & H2 & HtB)]. fold (nd mm hole) in *.
  rewrite Hhf in H2. symmetry in H2. apply Z.ltb_lt in H2.
  pose proof (wf_nodes _ _ _ Hwf) as Hns. pose proof (wf_tiled _ _ _ Hwf) as Ht.
  assert (Hlo : base <= node_end (nd mm hole)).
  { destruct (decide (hole = HEAD)) as [->|Hne]; [by rewrite (wf_head_end _ _ _ Hwf)|].
    assert (Hin' : hole ∈ tail (ring mm)) by (rewrite (wf_ring_cons Hwf) in Hin; set_solver).
    rewrite (wf_ring_cons Hwf) in Ht.
    pose proof (tiled_before _ _ _ _ _ Ht Hns Hin') as Hlt. fold (nd mm HEAD) (nd mm hole) in Hlt.
    rewrite (wf_head_end _ _ _ Hwf) in Hlt.
    pose proof (proj1 (Forall_forall _ _) Hns _ Hin') as Hh. apply node_ok_end in Hh. lia. }
  assert (Hhi : first_start (heap mm) B top <= top).
  { apply tiled_stop; [done|]. rewrite E in Hns. destruct A; simpl in Hns; [done|].
    apply Forall_app in Hns as [_ Hns]. by apply Forall_cons in Hns as []. }
  lia.
Qed.

(** Where a node goes inside the usable part [as_, ae) of a hole. *)
Definition placement (top_down : bool) (as_ ae size alignment : Z) : Z :=
  if top_down then align_down (ae - size) alignment else align_up as_ alignment.

Lemma placement_fits td as_ ae size alignment :
  is_u32 alignment -> 0 <= size -> align_up as_ alignment + size <= ae ->
  as_ <= placement td as_ ae size alignment /\
  placement td as_ ae size alignment + size <= ae /\
  aligned (placement td as_ ae size alignment) alignment.
Proof.
  unfold is_u32. intros Ha Hz Hfit. pose proof (align_up_bounds as_ alignment).
  destruct td; simpl.
  - pose proof (align_down_le (ae - size) alignment).
    pose proof (align_down_greatest (ae - size) alignment (align_up as_ alignment)) as Hg.
    pose proof (align_up_aligned as_ alignment). split_and!; [|lia|apply align_down_aligned].
    enough (align_up as_ alignment <= align_down (ae - size) alignment) by lia.
    apply Hg; [lia|done|lia].
  - split_and!; [lia|lia|apply align_up_aligned].
Qed.

(** The code that computes the placement. *)
Lemma placement_code (td : bool) as_ ae size alignment :
  is_ul as_ -> is_ul ae -> is_u32 alignment -> 0 <= size ->
  ae + 2 ^ 32 <= 2 ^ 64 -> align_up as_ alignment + size <= ae ->
  (let adj_start := if td then ul (ae - size) else as_ in
   if truth alignment then
     let tmp := u32 (adj_start mod alignment) in
     if truth tmp then
       if td then ul (adj_start - tmp) else ul (adj_start + u32 (alignment - tmp))
     else adj_start
   else adj_start) = placement td as_ ae size alignment.
Proof.
  intros Hs He Ha Hz Ho Hfit. pose proof (align_up_bounds as_ alignment) as Hb.
  unfold is_ul, is_u32 in *. destruct td; simpl.
  - rewrite bump_down by (first [apply ul_bounds|done]).
    by rewrite ul_small by (unfold is_ul; lia).
  - rewrite bump_up by (unfold is_ul, is_u32; lia). done.
Qed.

Lemma insert_helper_carved hole node size alignment color flags hs he as_ ae :
  let s := placement (truth (Z.land flags DRM_MM_CREATE_TOP)) as_ ae size alignment in
  hole ∈ ring mm -> hole_follows (nd mm hole) = true -> fresh mm node ->
  hole_bounds mm hole = (hs, he) ->
  0 < size -> is_u32 alignment ->
  color_adjusted mm hole color (hs, he) = (as_, ae) -> hs <= as_ -> ae <= he ->
  align_up as_ alignment + size <= ae ->
  drm_mm_insert_helper mm hole node size alignment color flags =
    Ok (carved mm hole node (placed mm node s size color (s + size <? he))
          (s =? hs) (s + size <? he)).
Proof.
  intros s Hin Hhf Hfr Ehb Hsz Hal Hca H1 H2 Hfit.
  pose proof (hole_bounds_ok hole Hin Hhf) as Hb. rewrite Ehb in Hb. simpl in Hb.
  pose proof (wf_base _ _ _ Hwf) as Hbase. pose proof (wf_top _ _ _ Hwf) as Htop.
  pose proof (align_up_bounds as_ alignment) as Hau. unfold is_u32 in Hal.
  destruct (placement_fits (truth (Z.land flags DRM_MM_CREATE_TOP)) as_ ae size alignment)
    as (Hp1 & Hp2 & _); [done|lia|done|]. fold s in Hp1, Hp2.
  assert (Hne : hole <> node) by (intros ->; by apply (fresh_off _ _ Hfr)).
  unfold drm_mm_insert_helper. rewrite hole_node_start_checked by done.
  rewrite hole_node_end_checked, hole_node_start_law, hole_node_end_law by done.
  cbn [mbind outcome_bind]. change (ul (nstart (nd mm hole) + nsize (nd mm hole)))
    with (fst (hole_bounds mm hole)).
  change (nstart (nd mm (next_of mm hole))) with (snd (hole_bounds mm hole)).
  rewrite Ehb. cbn [fst snd].
  rewrite (fresh_alloc _ _ Hfr), Hca. cbn [BUG_ON mbind outcome_bind].
  pose proof (placement_code (truth (Z.land flags DRM_MM_CREATE_TOP)) as_ ae size alignment) as Hc.
  cbv zeta in Hc |- *. rewrite Hc by (unfold is_ul, is_u32; lia). fold s. clear Hc.
  rewrite (proj2 (Z.ltb_ge s _)) by lia. rewrite (proj2 (Z.ltb_ge _ ae)) by lia.
  cbn [BUG_ON mbind outcome_bind].
  set (m1 := if _ =? _ then _ else mm).
  assert (Hm1 : nd m1 node = nd mm node).
  { subst m1. case_if; [|done]. by apply nd_upd_ne. }
  set (m2 := set_ring _ (upd node _ m1)).
  assert (Hm2 : nd m2 node = set_placement s size color (nd m1 node)) by apply nd_upd_eq.
  rewrite Hm2. cbn [set_placement nstart nsize].
  rewrite (ul_small (s + size)) by (unfold is_ul; lia).
  rewrite (proj2 (Z.ltb_ge ae _)) by lia. cbn [BUG_ON mbind outcome_bind].
  rewrite hole_node_start_law, nd_upd_eq, Hm2. cbn [set_placement set_hole_follows nstart nsize].
  rewrite (ul_small (s + size)) by (unfold is_ul; lia).
  rewrite carved_intro by done. cbv zeta. fold m1. f_equal.
  unfold placed. rewrite <- Hm1.
  subst m2. destruct (s + size <? _); unfold upd, set_heap, set_ring, set_hole_stack, nd; simpl;
    rewrite ?insert_insert_eq, ?lookup_total_insert_eq; try done.
  all: subst m1; case_if; done.
Qed.

Lemma stack_hole n :
  n ∈ hole_stack mm <-> n ∈ ring mm /\ hole_follows (nd mm n) = true.
Proof. rewrite (wf_stack _ _ _ Hwf), list_elem_of_filter. tauto. Qed.

Lemma node_ok_of n : n ∈ tail (ring mm) -> node_ok (nd mm n).
Proof. intros Hn. exact (proj1 (Forall_forall _ _) (wf_nodes _ _ _ Hwf) _ Hn). Qed.

Lemma ring_elem n : n ∈ ring mm <-> n = HEAD \/ n ∈ tail (ring mm).
Proof. rewrite (wf_ring_cons Hwf) at 1. set_solver. Qed.

(** Whatever lies inside a hole is free ... *)
Lemma hole_is_free hole s size :
  hole ∈ ring mm -> hole_follows (nd mm hole) = true ->
  fst (hole_bounds mm hole) <= s -> s + size <= snd (hole_bounds mm hole) ->
  free_range base top mm s size.
Proof.
  intros Hin Hhf Hs He. pose proof (hole_bounds_ok hole Hin Hhf) as Hb.
  split_and!; [lia|lia|]. intros n Hn. pose proof (node_ok_of n Hn) as Hok'.
  pose proof (node_ok_end _ Hok') as [En Hlt].
  destruct (wf_split Hwf _ Hin) as (A & B & E & HA & HB).
  unfold hole_bounds in Hs, He. simpl in Hs, He. rewrite (next_start Hwf A hole B) in He by done.
  pose proof (wf_tiled _ _ _ Hwf) as Ht. rewrite E in Ht. apply tiled_app in Ht as [HtA HtB].
  pose proof (wf_nodes _ _ _ Hwf) as Hns.
  assert (Hcase : n = hole \/ n ∈ B \/ n ∈ tail A).
  { rewrite E in Hn. destruct A as [|a A]; simpl in *; set_solver. }
  destruct Hcase as [->|[HnB|HnA]].
  - right. lia.
  - left. assert (HokB : Forall (fun n => node_ok (nd mm n)) B).
    { rewrite E in Hns. destruct A; simpl in Hns; [done|].
      apply Forall_app in Hns as [_ Hns]. by apply Forall_cons in Hns as []. }
    destruct HtB as (_ & _ & HtB). destruct B as [|b B]; [set_solver|]. simpl in He.
    apply elem_of_cons in HnB as [->|HnB]; [done|].
    pose proof (tiled_before _ _ _ _ _ HtB (Forall_inv_tail HokB) HnB) as Hx.
    pose proof (node_ok_end _ (Forall_inv HokB)). fold (nd mm b) (nd mm n) in *. lia.
  - right. apply list_elem_of_split in HnA as (A1 & A2 & EA).
    assert (Ht2 : tiled (heap mm) (n :: A2 ++ hole :: B) top).
    { pose proof (wf_tiled _ _ _ Hwf) as Ht. rewrite E in Ht.
      destruct A as [|a A]; simpl in EA; [by destruct A1|].
      change ((a :: A) ++ hole :: B) with (a :: (A ++ hole :: B)) in Ht.
      rewrite EA, <- app_assoc in Ht.
      destruct Ht as (_ & _ & Ht). by apply tiled_app in Ht as []. }
    assert (Hok2 : Forall (fun n => node_ok (nd mm n)) (A2 ++ hole :: B)).
    { rewrite E in Hns. destruct A as [|a A]; simpl in *; [by destruct A1|].
      rewrite EA, <- app_assoc, Forall_app in Hns. destruct Hns as [_ Hns].
      by apply Forall_cons in Hns as []. }
    pose proof (tiled_before _ _ _ _ hole Ht2 Hok2 ltac:(set_solver)) as Hx.
    assert (Hhok : node_ok (nd mm hole)).
    { apply (proj1 (Forall_forall _ _) Hok2). set_solver. }
    apply node_ok_end in Hhok. fold (nd mm n) (nd mm hole) in *. lia.
Qed.

(** ... and a free interval lies inside one hole. *)
Lemma free_in_tiling h a l stop s size :
  tiled h (a :: l) stop -> 0 < size -> node_end (h !!! a) <= s -> s + size <= stop ->
  (forall n, n ∈ l -> s + size <= nstart (h !!! n) \/ node_end (h !!! n) <= s) ->
  exists A b B, a :: l = A ++ b :: B /\ node_end (h !!! b) <= s /\
                s + size <= first_start h B stop.
Proof.
  revert a. induction l as [|b l IH]; intros a Ht Hsz Ha He Hd.
  - by exists [], a, [].
  - destruct (Hd b) as [Hb|Hb]; [set_solver| |].
    + by exists [], a, (b :: l).
    + destruct Ht as (_ & _ & Ht).
      destruct (IH b Ht Hsz Hb He) as (A & c & B & E & ? & ?); [set_solver|].
      exists (a :: A), c, B. simpl. by rewrite E.
Qed.

Lemma free_in_hole s size :
  0 < size -> free_range base top mm s size ->
  exists hole, hole ∈ ring mm /\ hole_follows (nd mm hole) = true /\
    fst (hole_bounds mm hole) <= s /\ s + size <= snd (hole_bounds mm hole).
Proof.
  intros Hsz (H1 & H2 & H3). pose proof (wf_tiled _ _ _ Hwf) as Ht.
  rewrite (wf_ring_cons Hwf) in Ht.
  destruct (free_in_tiling _ _ _ _ s size Ht) as (A & b & B & E & Hb & He); try done.
  - fold (nd mm HEAD). by rewrite (wf_head_end _ _ _ Hwf).
  - intros n Hn. fold (nd mm n). pose proof (node_ok_end _ (node_ok_of n Hn)) as [-> _]. auto.
  - rewrite <- (wf_ring_cons Hwf) in E. exists b.
    assert (Hbr : b ∈ ring mm) by (rewrite E; set_solver).
    destruct (wf_split Hwf _ Hbr) as (A' & B' & E' & HA' & HB').
    assert (HbA : b ∉ A).
    { pose proof (wf_nodup _ _ _ Hwf) as Hn. rewrite E, NoDup_app in Hn. set_solver. }
    unfold hole_bounds. simpl. rewrite (next_start Hwf A b B) by done.
    split_and!; try done. pose proof (wf_tiled _ _ _ Hwf) as Ht'. rewrite E in Ht'.
    apply tiled_app in Ht' as [_ (_ & Hf & _)]. fold (nd mm b) in Hf. rewrite Hf.
    apply Z.ltb_lt. unfold nd. lia.
Qed.
End insert.

(** ** The search loop *)
Section search.
Context {H : drm_mm_h}.
Context (mm : drm_mm) (size alignment color flags : Z) (clamp : Z * Z -> Z * Z).

(** The test one iteration makes on a hole. *)
Definition fits (x : node_id * Z * Z) : bool :=
  let '(entry, s, e) := x in
  let r := color_adjusted mm entry color (clamp (s, e)) in
  negb (match color_adjust mm with Some _ => snd r <=? fst r | None => false end) &&
  check_free_hole (fst r) (snd r) size alignment.

Definition hole_size_of (x : node_id * Z * Z) : Z := let '(_, s, e) := x in ul (e - s).

Let best_mode : bool := truth (Z.land flags DRM_MM_SEARCH_BEST).

(** The loop returns a hole that fits, the smallest one in best mode; it keeps
    its initial answer only when no hole fits (and improves on it). *)
Lemma search_loop_spec holes best best_size :
  let r := search_loop mm size alignment color flags clamp holes best best_size in
  (r = best /\
   forall x, x ∈ holes -> fits x = true -> best_mode = true /\ best_size <= hole_size_of x) \/
  (exists e s t, (e, s, t) ∈ holes /\ fits (e, s, t) = true /\ r = Some e /\
     (best_mode = true ->
      hole_size_of (e, s, t) < best_size /\
      forall x, x ∈ holes -> fits x = true -> hole_size_of (e, s, t) <= hole_size_of x)).
Proof.
  revert best best_size. induction holes as [|[[e s] t] holes IH]; intros best bs; simpl.
  { left. split; [done|set_solver]. }
  destruct (clamp (s, t)) as [s1 t1] eqn:Ec.
  destruct (color_adjusted mm e color (s1, t1)) as [s2 t2] eqn:Ea.
  assert (Ef : fits (e, s, t) =
    negb (match color_adjust mm with Some _ => t2 <=? s2 | None => false end) &&
    check_free_hole s2 t2 size alignment) by (simpl; by rewrite Ec, Ea).
  destruct (match color_adjust mm with Some _ => t2 <=? s2 | None => false end) eqn:E1;
    [|destruct (check_free_hole s2 t2 size alignment) eqn:E2];
    cbn [negb andb] in Ef |- *.
  1, 3: destruct (IH best bs) as [(Hr & Hx)|(e' & s' & t' & Hin & Hf & Hr & Hx)];
    [left; split; [done|intros x [->|Hin]%elem_of_cons Hfx; [congruence|by apply Hx]]
    |right; exists e', s', t'; split_and!; [set_solver|done|done|];
     intros Hb; destruct (Hx Hb) as [? Hm]; split; [done|];
     intros x [->|Hin']%elem_of_cons Hfx; [congruence|by apply Hm]].
  fold best_mode. destruct best_mode eqn:Eb; cbn [negb].
  2: { right. exists e, s, t. split_and!; [set_solver|done|done|done]. }
  destruct (Z.ltb_spec (ul (t - s)) bs) as [Hlt|Hge].
  - destruct (IH (Some e) (ul (t - s))) as [(Hr & Hx)|(e' & s' & t' & Hin & Hf & Hr & Hx)]; right.
    + exists e, s, t. split_and!; [set_solver|done|done|]. intros _. split; [done|].
      intros x [->|Hin]%elem_of_cons Hfx; [done|]. by apply Hx.
    + exists e', s', t'. destruct (Hx eq_refl) as [Hl Hm].
      split_and!; [set_solver|done|done|]. intros _. split; [simpl in *; lia|].
      intros x [->|Hin']%elem_of_cons Hfx; [simpl in *; lia|by apply Hm].
  - destruct (IH best bs) as [(Hr & Hx)|(e' & s' & t' & Hin & Hf & Hr & Hx)].
    + left. split; [done|]. intros x [->|Hin]%elem_of_cons Hfx; [by split|by apply Hx].
    + right. exists e', s', t'. destruct (Hx eq_refl) as [Hl Hm].
      split_and!; [set_solver|done|done|]. intros _. split; [done|].
      intros x [->|Hin']%elem_of_cons Hfx; [simpl in *; lia|by apply Hm].
Qed.
End search.

(** ** The abstract allocator

    What the drivers see: a finite map from the nodes to the ranges (start and
    size) they hold. *)
Definition abs (mm : drm_mm) : gmap node_id (Z * Z) :=
  list_to_map ((fun n => (n, (nstart (nd mm n), nsize (nd mm n)))) <$> tail (ring mm)).

Definition a_free (base top : Z) (m : gmap node_id (Z * Z)) (s size : Z) : Prop :=
  base <= s /\ s + size <= top /\
  forall n s' size', m !! n = Some (s', size') -> s + size <= s' \/ s' + size' <= s.

Lemma abs_lookup base top mm n :
  wf base top mm ->
  abs mm !! n = if decide (n ∈ tail (ring mm))
                then Some (nstart (nd mm n), nsize (nd mm n)) else None.
Proof.
  intros Hwf. unfold abs.
  assert (Hnd : NoDup (((fun n => (n, (nstart (nd mm n), nsize (nd mm n)))) <$> tail (ring mm)).*1)).
  { rewrite fst_fmap_pair.
    pose proof (wf_nodup _ _ _ Hwf) as Hn. destruct (ring mm); [done|].
    by apply NoDup_cons in Hn as []. }
  case_decide as Hin.
  - apply elem_of_list_to_map_1; [done|]. apply list_elem_of_fmap. eauto.
  - apply not_elem_of_list_to_map_1. by rewrite fst_fmap_pair.
Qed.

Lemma abs_free base top mm s size :
  wf base top mm -> a_free base top (abs mm) s size <-> free_range base top mm s size.
Proof.
  intros Hwf. unfold a_free, free_range. split; intros (H1 & H2 & H3); split_and!; try done.
  - intros n Hn. apply (H3 n). rewrite (abs_lookup _ _ _ _ Hwf). by rewrite decide_True.
  - intros n s' z' E. rewrite (abs_lookup _ _ _ _ Hwf) in E. case_decide; simplify_eq. by apply H3.
Qed.

(** The distinct nodes of the map hold disjoint ranges. *)
Definition a_disjoint (m : gmap node_id (Z * Z)) : Prop :=
  forall n1 n2 s1 z1 s2 z2, n1 <> n2 ->
    m !! n1 = Some (s1, z1) -> m !! n2 = Some (s2, z2) -> s1 + z1 <= s2 \/ s2 + z2 <= s1.

Lemma ring_order base top mm A n B m :
  wf base top mm -> ring mm = A ++ n :: B -> n <> HEAD -> m ∈ B ->
  nstart (nd mm n) + nsize (nd mm n) <= nstart (nd mm m).
Proof.
  intros Hwf E Hn Hm. pose proof (wf_tiled _ _ _ Hwf) as Ht. rewrite E in Ht.
  apply tiled_app in Ht as [_ Ht]. pose proof (wf_nodes _ _ _ Hwf) as Hns.
  rewrite E in Hns.
  assert (Hall : Forall (fun n => node_ok (nd mm n)) (n :: B)).
  { destruct A as [|a A]; simpl in Hns.
    - pose proof (wf_ring _ _ _ Hwf) as Hr. rewrite E in Hr. by simplify_eq/=.
    - by apply Forall_app in Hns as []. }
  apply Forall_cons in Hall as [Hn' HB]. apply node_ok_end in Hn' as [En _].
  rewrite <- En. by eapply tiled_before.
Qed.

Lemma wf_disjoint base top mm : wf base top mm -> a_disjoint (abs mm).
Proof.
  intros Hwf n1 n2 s1 z1 s2 z2 Hne E1 E2.
  rewrite (abs_lookup _ _ _ _ Hwf) in E1. rewrite (abs_lookup _ _ _ _ Hwf) in E2. do 2 case_decide; simplify_eq.
  pose proof (wf_head_notin Hwf) as HH.
  assert (H1 : n1 ∈ ring mm) by (rewrite (wf_ring_cons Hwf); set_solver).
  apply list_elem_of_split in H1 as (A & B & E).
  assert (Hc : n2 ∈ A \/ n2 ∈ B).
  { assert (n2 ∈ ring mm) as Hn2 by (rewrite (wf_ring_cons Hwf); set_solver).
    rewrite E in Hn2. set_solver. }
  destruct Hc as [Hc|Hc].
  - right. apply list_elem_of_split in Hc as (A1 & A2 & ->).
    rewrite <- app_assoc in E. simpl in E.
    eapply (ring_order _ _ _ A1 n2 (A2 ++ n1 :: B)); [done|done| |set_solver].
    intros ->. set_solver.
  - left. eapply (ring_order _ _ _ A n1 B); [done|done| |done]. intros ->. set_solver.
Qed.

(** Carving adds the node to the map. *)
Lemma carved_abs base top mm hole node d a r :
  wf base top mm -> wf base top (carved mm hole node d a r) ->
  hole ∈ ring mm -> node ∉ ring mm ->
  abs (carved mm hole node d a r) = <[node := (nstart d, nsize d)]> (abs mm).
Proof.
  intros Hwf Hwf' Hin Hn. set (mm' := carved mm hole node d a r) in *.
  destruct (wf_split Hwf _ Hin) as (A & B & E & HA & HB).
  assert (Er : ring mm' = A ++ hole :: node :: B).
  { subst mm'. simpl. rewrite E. by apply list_add_after_mid. }
  assert (Et : forall n, n ∈ tail (ring mm') <-> n = node \/ n ∈ tail (ring mm)).
  { intros n. rewrite Er, E. destruct A; simpl; set_solver. }
  apply map_eq. intros n. rewrite (abs_lookup _ _ _ _ Hwf').
  destruct (decide (n = node)) as [->|Hne].
  - rewrite lookup_insert_eq, decide_True by (apply Et; by left).
    unfold nd. simpl. by rewrite lookup_total_insert_eq.
  - rewrite lookup_insert_ne, (abs_lookup _ _ _ _ Hwf) by done.
    assert (Hx : n ∈ tail (ring mm') <-> n ∈ tail (ring mm)) by (rewrite Et; tauto).
    repeat case_decide; try tauto.
    assert (Hs : nstart (nd mm' n) = nstart (nd mm n) /\ nsize (nd mm' n) = nsize (nd mm n)).
    { unfold nd. simpl. rewrite lookup_total_insert_ne by done. destruct a; [|done].
      destruct (decide (n = hole)) as [->|].
      - by rewrite lookup_total_insert_eq.
      - by rewrite lookup_total_insert_ne. }
    by destruct Hs as [-> ->].
Qed.

(** ** Insertion *)
Section insertion.
Context {H : drm_mm_h} {Hok : drm_mm_h_ok H}.
Context {base top : Z} {mm : drm_mm} (Hwf : wf base top mm).

Lemma for_each_elem b e s t :
  (e, s, t) ∈ __drm_mm_for_each_hole mm b <->
  e ∈ ring mm /\ hole_follows (nd mm e) = true /\ hole_bounds mm e = (s, t).
Proof.
  rewrite for_each_hole_law, list_elem_of_fmap, (and_assoc (e ∈ ring mm)), <- (stack_hole Hwf).
  assert (Hin : forall n, (n ∈ if b then reverse (hole_stack mm) else hole_stack mm) <->
                     n ∈ hole_stack mm) by (intros n; destruct b; set_solver).
  split.
  - intros (n & E & Hn). simplify_eq. apply Hin in Hn. split; [done|].
    apply (stack_hole Hwf) in Hn as [Hn _].
    unfold hole_bounds, node_end. by rewrite hole_node_start_law, hole_node_end_law.
  - intros [Hn E]. exists e. rewrite Hin. split; [|done].
    apply (stack_hole Hwf) in Hn as [Hn _].
    unfold hole_bounds, node_end in E. rewrite hole_node_start_law, hole_node_end_law by done.
    by simplify_eq.
Qed.

(** The fit test on a hole, in terms of its usable part. *)
Lemma fits_usable size alignment color e hs he :
  e ∈ ring mm -> hole_follows (nd mm e) = true -> hole_bounds mm e = (hs, he) ->
  color_shrinks mm -> 0 < size -> is_u32 alignment ->
  let r := color_adjusted mm e color (hs, he) in
  fits mm size alignment color (fun r => r) (e, hs, he) = true ->
  align_up (fst r) alignment + size <= snd r.
Proof.
  intros Hin Hhf Eb Hc Hz Ha r Hf.
  pose proof (hole_bounds_ok Hwf e Hin Hhf) as Hb. rewrite Eb in Hb. simpl in Hb.
  pose proof (wf_base _ _ _ Hwf). pose proof (wf_top _ _ _ Hwf).
  destruct (Hc e color hs he) as [Hc1 Hc2]. fold r in Hc1, Hc2.
  unfold fits in Hf. fold r in Hf. apply andb_prop in Hf as [Hf1 Hf2].
  assert (Hle : fst r <= snd r).
  { unfold color_adjusted in r. destruct (color_adjust mm); subst r; simpl in *; b2p; lia. }
  rewrite check_free_hole_fits in Hf2 by (unfold is_ul, is_u32 in *; lia). by apply Z.leb_le.
Qed.

(** Without colouring the test is exact. *)
Lemma fits_exact size alignment color e hs he :
  e ∈ ring mm -> hole_follows (nd mm e) = true -> hole_bounds mm e = (hs, he) ->
  color_adjust mm = None -> 0 < size -> is_u32 alignment ->
  fits mm size alignment color (fun r => r) (e, hs, he) = (align_up hs alignment + size <=? he).
Proof.
  intros Hin Hhf Eb Hc Hz Ha.
  pose proof (hole_bounds_ok Hwf e Hin Hhf) as Hb. rewrite Eb in Hb. simpl in Hb.
  pose proof (wf_base _ _ _ Hwf). pose proof (wf_top _ _ _ Hwf).
  unfold fits, color_adjusted. rewrite Hc. simpl.
  apply check_free_hole_fits; unfold is_ul, is_u32 in *; lia.
Qed.

(** What a successful insertion does: it adds [node] at an aligned free place
    and keeps the invariant. *)
Definition inserted (mm' : drm_mm) (node : node_id) (s size alignment color : Z) : Prop :=
  wf base top mm' /\ aligned s alignment /\ free_range base top mm s size /\
  abs mm' = <[node := (s, size)]> (abs mm) /\
  ncolor (nd mm' node) = color /\ color_adjust mm' = color_adjust mm.

Lemma carved_inserted hole node s size alignment color :
  hole ∈ ring mm -> hole_follows (nd mm hole) = true -> fresh mm node ->
  0 < size -> aligned s alignment ->
  fst (hole_bounds mm hole) <= s -> s + size <= snd (hole_bounds mm hole) ->
  let rest := s + size <? snd (hole_bounds mm hole) in
  inserted (carved mm hole node (placed mm node s size color rest)
              (s =? fst (hole_bounds mm hole)) rest) node s size alignment color.
Proof.
  intros Hin Hhf Hfr Hz Hal Hs He rest.
  pose proof (hole_bounds_ok Hwf hole Hin Hhf) as Hb.
  pose proof (wf_base _ _ _ Hwf). pose proof (wf_top _ _ _ Hwf).
  destruct (wf_split Hwf _ Hin) as (A & B & E & HA & HB).
  pose proof (next_start Hwf A hole B E HA) as En.
  set (mm' := carved _ _ _ _ _ _).
  assert (Hwf' : wf base top mm').
  { apply (carved_wf Hwf A B); try done; try apply Hfr.
    - unfold node_ok, placed. simpl. destruct Hfr as [_ _ -> -> ->]. lia.
    - rewrite <- En. done.
    - simpl. rewrite <- En. done. }
  split_and!; try done.
  - by apply (hole_is_free Hwf hole).
  - subst mm'. by rewrite (carved_abs base top) by (done || apply Hfr).
  - subst mm'. unfold nd. simpl. by rewrite lookup_total_insert_eq.
Qed.

Lemma insert_generic_core node size alignment color sflags aflags :
  fresh mm node -> 0 < size -> is_u32 alignment -> color_shrinks mm ->
  (drm_mm_insert_node_generic mm node size alignment color sflags aflags = Ok (- ENOSPC, mm) /\
   forall e hs he, e ∈ ring mm -> hole_follows (nd mm e) = true -> hole_bounds mm e = (hs, he) ->
     fits mm size alignment color (fun r => r) (e, hs, he) = false) \/
  (exists mm' s,
     drm_mm_insert_node_generic mm node size alignment color sflags aflags = Ok (0, mm') /\
     inserted mm' node s size alignment color).
Proof.
  intros Hfr Hz Ha Hc. unfold drm_mm_insert_node_generic, drm_mm_search_free_generic.
  rewrite (wf_noscan _ _ _ Hwf). cbn [truth Z.eqb negb BUG_ON mbind outcome_bind].
  set (holes := __drm_mm_for_each_hole mm _).
  pose proof (search_loop_spec mm size alignment color sflags (fun r => r) holes None ULONG_MAX) as Hs.
  cbv zeta in Hs. destruct Hs as [(-> & Hnone)|(e & s & t & Hin & Hf & -> & _)].
  - left. split; [done|]. intros e hs he H1 H2 H3.
    destruct (fits _ _ _ _ _ _) eqn:Ef; [exfalso|done].
    destruct (Hnone (e, hs, he)) as [_ Hx]; [by apply for_each_elem|done|].
    pose proof (hole_bounds_ok Hwf e H1 H2) as Hb. rewrite H3 in Hb. simpl in Hb, Hx.
    pose proof (wf_base _ _ _ Hwf). pose proof (wf_top _ _ _ Hwf).
    rewrite ul_small in Hx by (unfold is_ul; lia). change ULONG_MAX with (2 ^ 64 - 1) in Hx. lia.
  - right. apply for_each_elem in Hin as (H1 & H2 & H3).
    pose proof (fits_usable size alignment color e s t H1 H2 H3 Hc Hz Ha Hf) as Hu.
    destruct (Hc e color s t) as [Hc1 Hc2].
    destruct (color_adjusted mm e color (s, t)) as [as_ ae] eqn:Ec. simpl in Hu, Hc1, Hc2.
    destruct (placement_fits (truth (Z.land aflags DRM_MM_CREATE_TOP)) as_ ae size alignment)
      as (Hp1 & Hp2 & Hp3); [done|lia|done|].
    rewrite (insert_helper_carved Hwf e node size alignment color aflags s t as_ ae) by done.
    eexists _, _. split; [reflexivity|].
    pose proof (carved_inserted e node (placement (truth (Z.land aflags DRM_MM_CREATE_TOP))
      as_ ae size alignment) size alignment color H1 H2 Hfr Hz Hp3) as Hci.
    rewrite H3 in Hci. simpl in Hci. apply Hci; lia.
Qed.

(** ** Insertion into a sub-range *)

Lemma insert_helper_range_carved hole node size alignment color start end_ flags hs he :
  let as_ := fst (clamp_range start end_ (hs, he)) in
  let ae := snd (clamp_range start end_ (hs, he)) in
  let s := placement (truth (Z.land flags DRM_MM_CREATE_TOP)) as_ ae size alignment in
  hole ∈ ring mm -> hole_follows (nd mm hole) = true -> fresh mm node ->
  hole_bounds mm hole = (hs, he) ->
  0 < size -> is_u32 alignment -> color_adjust mm = None ->
  align_up as_ alignment + size <= ae ->
  drm_mm_insert_helper_range mm hole node size alignment color start end_ flags =
    Ok (carved mm hole node (placed mm node s size color (s + size <? he))
          (s =? hs) (s + size <? he)).
Proof.
  intros as_ ae s Hin Hhf Hfr Ehb Hsz Hal Hca Hfit.
  pose proof (hole_bounds_ok Hwf hole Hin Hhf) as Hb. rewrite Ehb in Hb. simpl in Hb.
  pose proof (wf_base _ _ _ Hwf) as Hbase. pose proof (wf_top _ _ _ Hwf) as Htop.
  pose proof (align_up_bounds as_ alignment) as Hau. unfold is_u32 in Hal.
  assert (Has : hs <= as_ /\ start <= as_) by (subst as_; simpl; case_if; b2p; lia).
  assert (Hae : ae <= he /\ ae <= end_) by (subst ae; simpl; case_if; b2p; lia).
  destruct (placement_fits (truth (Z.land flags DRM_MM_CREATE_TOP)) as_ ae size alignment)
    as (Hp1 & Hp2 & _); [done|lia|done|]. fold s in Hp1, Hp2.
  assert (Hne : hole <> node) by (intros ->; by apply (fresh_off _ _ Hfr)).
  unfold drm_mm_insert_helper_range. rewrite hole_node_start_checked by done.
  rewrite hole_node_end_checked, hole_node_start_law, hole_node_end_law by done.
  cbn [mbind outcome_bind]. change (ul (nstart (nd mm hole) + nsize (nd mm hole)))
    with (fst (hole_bounds mm hole)).
  change (nstart (nd mm (next_of mm hole))) with (snd (hole_bounds mm hole)).
  rewrite Ehb. cbn [fst snd]. unfold color_adjusted. rewrite Hca.
  rewrite (fresh_alloc _ _ Hfr), Hhf. cbn [negb orb BUG_ON mbind outcome_bind].
  rewrite (surjective_pairing (clamp_range start end_ (hs, he))). fold as_ ae.
  pose proof (placement_code (truth (Z.land flags DRM_MM_CREATE_TOP)) as_ ae size alignment) as Hc.
  cbv zeta in Hc |- *. rewrite Hc by (unfold is_ul, is_u32; lia). fold s. clear Hc.
  set (m1 := if _ =? _ then _ else mm).
  assert (Hm1 : nd m1 node = nd mm node).
  { subst m1. case_if; [|done]. by apply nd_upd_ne. }
  set (m2 := set_ring _ (upd node _ m1)).
  assert (Hm2 : nd m2 node = set_placement s size color (nd m1 node)) by apply nd_upd_eq.
  rewrite Hm2. cbn [set_placement nstart nsize].
  rewrite (ul_small (s + size)) by (unfold is_ul; lia).
  rewrite (proj2 (Z.ltb_ge s start)), (proj2 (Z.ltb_ge s s)) by lia.
  rewrite (proj2 (Z.ltb_ge ae _)), (proj2 (Z.ltb_ge end_ _)) by lia.
  cbn [BUG_ON mbind outcome_bind].
  rewrite hole_node_start_law, nd_upd_eq, Hm2. cbn [set_placement set_hole_follows nstart nsize].
  rewrite (ul_small (s + size)) by (unfold is_ul; lia).
  rewrite carved_intro by done. cbv zeta. fold m1. f_equal.
  unfold placed. rewrite <- Hm1.
  subst m2. destruct (s + size <? _); unfold upd, set_heap, set_ring, set_hole_stack, nd; simpl;
    rewrite ?insert_insert_eq, ?lookup_total_insert_eq; try done.
  all: subst m1; case_if; done.
Qed.

(** The fit test on a hole cut to a range is exact. *)
Lemma fits_range_exact size alignment color start end_ e hs he :
  e ∈ ring mm -> hole_follows (nd mm e) = true -> hole_bounds mm e = (hs, he) ->
  color_adjust mm = None -> 0 < size -> is_u32 alignment -> 0 <= start -> 0 <= end_ ->
  Z.max top start + size + 2 ^ 32 <= 2 ^ 64 ->
  fits mm size alignment color (clamp_range start end_) (e, hs, he) =
  (align_up (Z.max hs start) alignment + size <=? Z.min he end_).
Proof.
  intros Hin Hhf Eb Hc Hz Ha Hst Hend Hno.
  pose proof (hole_bounds_ok Hwf e Hin Hhf) as Hb. rewrite Eb in Hb. simpl in Hb.
  pose proof (wf_base _ _ _ Hwf). pose proof (wf_top _ _ _ Hwf).
  unfold fits, color_adjusted. rewrite Hc. simpl.
  replace (if hs <? start then start else hs) with (Z.max hs start) by (case_if; b2p; lia).
  replace (if end_ <? he then end_ else he) with (Z.min he end_) by (case_if; b2p; lia).
  apply check_free_hole_fits; unfold is_ul, is_u32 in *; lia.
Qed.

Lemma insert_range_core node size alignment color start end_ sflags aflags :
  fresh mm node -> 0 < size -> is_u32 alignment -> color_adjust mm = None ->
  0 <= start -> 0 <= end_ -> Z.max top start + size + 2 ^ 32 <= 2 ^ 64 ->
  (drm_mm_insert_node_in_range_generic mm node size alignment color start end_ sflags aflags
     = Ok (- ENOSPC, mm) /\
   forall e hs he, e ∈ ring mm -> hole_follows (nd mm e) = true -> hole_bounds mm e = (hs, he) ->
     Z.min he end_ < align_up (Z.max hs start) alignment + size) \/
  (exists mm' s,
     drm_mm_insert_node_in_range_generic mm node size alignment color start end_ sflags aflags
       = Ok (0, mm') /\
     start <= s /\ s + size <= end_ /\ inserted mm' node s size alignment color).
Proof.
  intros Hfr Hz Ha Hc Hst Hend Hno.
  unfold drm_mm_insert_node_in_range_generic, drm_mm_search_free_in_range_generic.
  rewrite (wf_noscan _ _ _ Hwf). cbn [truth Z.eqb negb BUG_ON mbind outcome_bind].
  set (holes := __drm_mm_for_each_hole mm _).
  pose proof (search_loop_spec mm size alignment color sflags (clamp_range start end_)
                holes None ULONG_MAX) as Hs.
  cbv zeta in Hs. destruct Hs as [(-> & Hnone)|(e & s & t & Hin & Hf & -> & _)].
  - left. split; [done|]. intros e hs he H1 H2 H3. apply Z.leb_gt.
    rewrite <- (fits_range_exact size alignment color start end_ e hs he) by done.
    destruct (fits _ _ _ _ _ _) eqn:Ef; [exfalso|done].
    destruct (Hnone (e, hs, he)) as [_ Hx]; [by apply for_each_elem|done|].
    pose proof (hole_bounds_ok Hwf e H1 H2) as Hb. rewrite H3 in Hb. simpl in Hb, Hx.
    pose proof (wf_base _ _ _ Hwf). pose proof (wf_top _ _ _ Hwf).
    rewrite ul_small in Hx by (unfold is_ul; lia). change ULONG_MAX with (2 ^ 64 - 1) in Hx. lia.
  - right. apply for_each_elem in Hin as (H1 & H2 & H3).
    rewrite (fits_range_exact size alignment color start end_ e s t) in Hf by done.
    apply Z.leb_le in Hf.
    set (as_ := fst (clamp_range start end_ (s, t))).
    set (ae := snd (clamp_range start end_ (s, t))).
    assert (Eas : as_ = Z.max s start) by (subst as_; simpl; case_if; b2p; lia).
    assert (Eae : ae = Z.min t end_) by (subst ae; simpl; case_if; b2p; lia).
    rewrite <- Eas, <- Eae in Hf.
    destruct (placement_fits (truth (Z.land aflags DRM_MM_CREATE_TOP)) as_ ae size alignment)
      as (Hp1 & Hp2 & Hp3); [done|lia|done|].
    rewrite (insert_helper_range_carved e node size alignment color start end_ aflags s t) by done.
    eexists _, (placement (truth (Z.land aflags DRM_MM_CREATE_TOP)) as_ ae size alignment).
    split; [reflexivity|].
    split; [lia|]. split; [lia|].
    pose proof (carved_inserted e node (placement (truth (Z.land aflags DRM_MM_CREATE_TOP))
      as_ ae size alignment) size alignment color H1 H2 Hfr Hz Hp3) as Hci.
    rewrite H3 in Hci. simpl in Hci. apply Hci; lia.
Qed.

End insertion.
