(* ===== verification/DrmMmThms.v ===== *)
(** * The theorems on the range allocator

    Reservation, removal, initialisation, the LRU scan and the dump functions,
    and the properties of [DrmMm]'s operations. *)

From S2P Require Import Prelude DrmMm DrmMmSpec.

Lemma reserve_in_hole_carved mm hole node hs he e :
  hole <> node ->
  let s := nstart (nd mm node) in
  reserve_in_hole mm hole node hs he e =
  carved mm hole node (set_hole_follows (negb (e =? he)) (set_allocated true (nd mm node)))
    (s =? hs) (negb (e =? he)).
Proof.
  intros Hne s. unfold reserve_in_hole. rewrite carved_intro by done. cbv zeta.
  autorewrite with mm. change (nstart (set_allocated true (nd mm node))) with s.
  destruct (s =? hs), (negb (e =? he)); autorewrite with mm;
    rewrite ?(upd_comm _ hole node) by done; autorewrite with mm;
    repeat (apply (f_equal (set_hole_stack _)) || apply (f_equal (set_ring _)));
    apply upd_ext; rewrite ?nd_upd_ne by done; done.
Qed.

Section ops.
Context {H : drm_mm_h} {Hok : drm_mm_h_ok H}.
Context {base top : Z} {mm : drm_mm} (Hwf : wf base top mm).

(** ** Reservation *)

Lemma placed_own node rest :
  placed mm node (nstart (nd mm node)) (nsize (nd mm node)) (ncolor (nd mm node)) rest =
  set_hole_follows rest (set_allocated true (nd mm node)).
Proof. done. Qed.

Lemma reserve_loop_spec node e holes :
  let s := nstart (nd mm node) in
  (reserve_loop mm node e holes = (- ENOSPC, mm) /\
   forall h hs he, (h, hs, he) ∈ holes -> s < hs \/ he < e) \/
  (exists h hs he, (h, hs, he) ∈ holes /\ hs <= s /\ e <= he /\
     reserve_loop mm node e holes = (0, reserve_in_hole mm h node hs he e)).
Proof.
  intros s. induction holes as [|[[h hs] he] holes IH]; simpl.
  { left. split; [done|set_solver]. }
  fold s. destruct ((s <? hs) || (he <? e)) eqn:Et.
  - destruct IH as [(-> & Hx)|(h' & hs' & he' & Hin & ? & ? & ->)].
    + left. split; [done|]. intros h0 hs0 he0 [?|?]%elem_of_cons; [|by eapply Hx].
      simplify_eq. apply orb_prop in Et as [?|?]; b2p; lia.
    + right. exists h', hs', he'. split_and!; [set_solver|done..].
  - right. b2p. exists h, hs, he. split_and!; [set_solver|lia|lia|done].
Qed.

Lemma reserve_core node :
  let s := nstart (nd mm node) in
  let size := nsize (nd mm node) in
  fresh mm node -> 0 <= s -> 0 < size -> s + size < 2 ^ 64 ->
  (drm_mm_reserve_node mm node = (- ENOSPC, mm) /\ ~ free_range base top mm s size) \/
  (exists mm', drm_mm_reserve_node mm node = (0, mm') /\ free_range base top mm s size /\
     inserted (base := base) (top := top) (mm := mm) mm' node s size 0 (ncolor (nd mm node))).
Proof.
  intros s size Hfr Hs Hz Ho. unfold drm_mm_reserve_node. fold s size.
  rewrite ul_small by (unfold is_ul; lia).
  destruct (reserve_loop_spec node (s + size) (__drm_mm_for_each_hole mm false))
    as [(-> & Hx)|(h & hs & he & Hin & H1 & H2 & ->)].
  - left. split; [done|]. intros (h & Hh & Hhf & Hb1 & Hb2)%(free_in_hole Hwf); [|done].
    destruct (hole_bounds mm h) as [hs he] eqn:Eb. simpl in Hb1, Hb2.
    destruct (Hx h hs he) as [?|?]; [by apply (for_each_elem Hwf)| |]; unfold s in *; lia.
  - apply (for_each_elem Hwf) in Hin as (Hh & Hhf & Eb).
    right. eexists. split; [reflexivity|].
    split; [apply (hole_is_free Hwf h); rewrite ?Eb; done|].
    rewrite reserve_in_hole_carved by (intros ->; by apply (fresh_off _ _ Hfr)).
    replace (negb (s + size =? he)) with (s + size <? he)
      by (destruct (Z.eqb_spec (s + size) he), (Z.ltb_spec (s + size) he); simpl; lia).
    rewrite <- placed_own.
    pose proof (carved_inserted Hwf h node s size 0 (ncolor (nd mm node)) Hh Hhf Hfr Hz) as Hc.
    rewrite Eb in Hc. simpl in Hc. apply Hc; [by left|done|done].
Qed.

(** ** Removal *)

Lemma set_hole_follows_same d : set_hole_follows (hole_follows d) d = d.
Proof. by destruct d. Qed.

(** The effect of removing [n], whose predecessor on the ring is [p]. *)
Record removed (mm mm' : drm_mm) (p n : node_id) : Prop := {
  removed_ring : ring mm' = list_del n (ring mm);
  removed_stack : hole_stack mm' = p :: list_del p (list_del n (hole_stack mm));
  removed_pred : nd mm' p = set_hole_follows true (nd mm p);
  removed_node : nd mm' n = set_allocated false (nd mm n);
  removed_other m : m <> p -> m <> n -> nd mm' m = nd mm m;
  removed_scan : scanned_blocks mm' = scanned_blocks mm;
  removed_color : color_adjust mm' = color_adjust mm
}.

Lemma remove_node_removed A p n B :
  ring mm = A ++ p :: n :: B ->
  exists mm', drm_mm_remove_node mm n = Ok mm' /\ removed mm mm' p n.
Proof.
  intros E. pose proof (wf_nodup _ _ _ Hwf) as Hnd. rewrite E in Hnd.
  assert (Hp : p <> n) by (rewrite NoDup_app, !NoDup_cons in Hnd; set_solver).
  assert (Hn : n ∈ tail (ring mm)) by (rewrite E; destruct A; set_solver).
  assert (Hnr : n ∈ ring mm) by (rewrite E; set_solver).
  destruct (node_ok_of Hwf n Hn) as (_ & _ & _ & Hall & Hs1 & Hs2 & Hs3).
  unfold drm_mm_remove_node. rewrite Hall, Hs1, Hs2, Hs3. cbn [negb orb BUG_ON mbind outcome_bind].
  rewrite (prev_of_split Hwf A p n B) by done.
  rewrite hole_node_start_law, hole_node_end_law by done.
  assert (Hhf : hole_follows (nd mm n) =
    negb (ul (nstart (nd mm n) + nsize (nd mm n)) =? nstart (nd mm (next_of mm n)))).
  { assert (E' : ring mm = (A ++ [p]) ++ n :: B) by (rewrite E, <- app_assoc; done).
    rewrite (next_start Hwf (A ++ [p]) n B) by
      (done || (rewrite NoDup_app, !NoDup_cons in Hnd; set_solver)).
    pose proof (wf_tiled _ _ _ Hwf) as Ht. rewrite E' in Ht.
    apply tiled_app in Ht as [_ (Ht1 & Ht2 & _)]. fold (nd mm n) in *. rewrite Ht2.
    fold (node_end (nd mm n)). destruct (Z.eqb_spec (node_end (nd mm n)) (first_start (heap mm) B top)),
      (Z.ltb_spec (node_end (nd mm n)) (first_start (heap mm) B top)); simpl; lia. }
  set (t := _ =? nstart _) in *.
  set (m1 := if hole_follows (nd mm n) then set_hole_stack (list_del n (hole_stack mm)) mm else mm).
  assert (Em1 : (if hole_follows (nd mm n) then
      BUG_ON t ≫= (fun _ => Ok (set_hole_stack (list_del n (hole_stack mm)) mm))
    else BUG_ON (negb t) ≫= (fun _ => Ok mm)) = Ok m1).
  { subst m1. rewrite Hhf. by destruct t. }
  rewrite Em1. cbn [mbind outcome_bind].
  assert (Hst : list_del n (hole_stack mm) = hole_stack m1).
  { subst m1. destruct (hole_follows (nd mm n)) eqn:Eh; [done|].
    apply list_del_notin. intros Hin%(stack_hole Hwf). destruct Hin. congruence. }
  assert (Hm1 : ring m1 = ring mm /\ (forall x, nd m1 x = nd mm x) /\
    scanned_blocks m1 = scanned_blocks mm /\ color_adjust m1 = color_adjust mm)
    by (subst m1; by destruct (hole_follows (nd mm n))).
  clearbody m1. destruct Hm1 as (Hm1 & Hm2 & Hm3 & Hm4). rewrite Hm2.
  eexists. split; [reflexivity|].
  set (m2 := if negb _ then _ else _).
  assert (Hx : ring m2 = ring m1 /\ hole_stack m2 = p :: list_del p (hole_stack m1) /\
    nd m2 p = set_hole_follows true (nd m1 p) /\ (forall x, x <> p -> nd m2 x = nd m1 x) /\
    scanned_blocks m2 = scanned_blocks m1 /\ color_adjust m2 = color_adjust m1).
  { subst m2. destruct (hole_follows (nd mm p)) eqn:Ep; simpl.
    - split_and!; try done. rewrite <- Ep, <- Hm2. by rewrite set_hole_follows_same.
    - autorewrite with mm. split_and!; try done.
      + rewrite list_del_notin; [done|]. rewrite <- Hst, list_del_elem.
        intros [[_ C]%(stack_hole Hwf) _]. congruence.
      + intros x Hx. autorewrite with mm. rewrite nd_upd_ne by done. done. }
  clearbody m2. destruct Hx as (Hx1 & Hx2 & Hx3 & Hx4 & Hx5 & Hx6).
  split; autorewrite with mm.
  - simpl. congruence.
  - simpl. congruence.
  - rewrite nd_upd_ne by done. autorewrite with mm. by rewrite Hx3, Hm2.
  - by rewrite Hx4, Hm2.
  - intros m Hmp Hmn. autorewrite with mm. rewrite nd_upd_ne by done. autorewrite with mm. by rewrite Hx4, Hm2.
  - simpl. congruence.
  - simpl. congruence.
Qed.

Lemma removed_wf mm' A p n B :
  ring mm = A ++ p :: n :: B -> removed mm mm' p n -> wf base top mm'.
Proof.
  intros E R. pose proof (wf_nodup _ _ _ Hwf) as Hnd. rewrite E in Hnd.
  assert (Hnot : p <> n /\ (p ∉ A) /\ (p ∉ B) /\ (n ∉ A) /\ (n ∉ B))
    by (rewrite NoDup_app, !NoDup_cons in Hnd; set_solver).
  destruct Hnot as (Hp & HpA & HpB & HnA & HnB).
  assert (Er : ring mm' = A ++ p :: B).
  { rewrite (removed_ring _ _ _ _ R), E.
    assert (E' : A ++ p :: n :: B = (A ++ [p]) ++ n :: B) by (rewrite <- app_assoc; done).
    rewrite E' in Hnd |- *. rewrite list_del_mid, <- app_assoc by done. done. }
  assert (Hn : n ∈ tail (ring mm)) by (rewrite E; destruct A; set_solver).
  assert (HnH : n <> HEAD) by (intros ->; by apply (wf_head_notin Hwf)).
  assert (Hsh : forall x, x <> n -> x <> p -> same_shape (nd mm x) (nd mm' x)).
  { intros x ??. by rewrite (removed_other _ _ _ _ R). }
  assert (Hst : forall x, x <> n -> nstart (nd mm' x) = nstart (nd mm x) /\
                                  node_end (nd mm' x) = node_end (nd mm x)).
  { intros x Hx. destruct (decide (x = p)) as [->|].
    - by rewrite (removed_pred _ _ _ _ R).
    - by rewrite (removed_other _ _ _ _ R). }
  split; try apply Hwf.
  - rewrite Er. pose proof (wf_ring _ _ _ Hwf) as Hr. rewrite E in Hr. by destruct A.
  - rewrite Er. rewrite NoDup_app, !NoDup_cons in *. set_solver.
  - rewrite (proj1 (Hst _ (not_eq_sym HnH))). apply Hwf.
  - rewrite (proj2 (Hst _ (not_eq_sym HnH))). apply Hwf.
  - apply Forall_forall. intros x Hx.
    assert (Hxr : x ∈ tail (ring mm) /\ x <> n)
      by (rewrite Er in Hx; rewrite E; destruct A; simpl in *; set_solver).
    destruct Hxr as [Hxr Hxn]. pose proof (node_ok_of Hwf x Hxr) as Hxo.
    destruct (decide (x = p)) as [->|].
    + by rewrite (removed_pred _ _ _ _ R).
    + by rewrite (removed_other _ _ _ _ R).
  - rewrite Er. pose proof (wf_tiled _ _ _ Hwf) as Ht. rewrite E in Ht.
    apply tiled_app in Ht as [HtA (H1 & _ & (H2 & _ & HtB))]. simpl in H1, HtA.
    pose proof (node_ok_end _ (node_ok_of Hwf n Hn)) as [_ Hlt]. fold (nd mm n) in *.
    assert (EB : first_start (heap mm') B top = first_start (heap mm) B top).
    { symmetry. apply first_start_frame. intros a Ha. apply Hsh; set_solver. }
    apply tiled_app. cbn [tiled first_start]. rewrite EB. fold (nd mm' p) (nd mm p) in *.
    destruct (Hst p Hp) as [-> ->]. rewrite (removed_pred _ _ _ _ R). simpl. split_and!.
    + eapply tiled_frame; [|done]. intros a Ha. apply Hsh; set_solver.
    + lia.
    + symmetry. apply Z.ltb_lt. lia.
    + eapply tiled_frame; [|done]. intros a Ha. apply Hsh; set_solver.
  - rewrite Er, (removed_stack _ _ _ _ R).
    assert (HA : forall l : list node_id, p ∉ l -> n ∉ l ->
      filter (fun n => hole_follows (nd mm' n) = true) l =
      filter (fun n => hole_follows (nd mm n) = true) l).
    { intros l ??. apply list_filter_iff_local. intros x Hx.
      rewrite (removed_other _ _ _ _ R); [done|set_solver..]. }
    rewrite filter_app, filter_cons, !HA by done.
    rewrite (removed_pred _ _ _ _ R). cbn [hole_follows set_hole_follows].
    rewrite decide_True by done.
    pose proof (wf_stack _ _ _ Hwf) as Hs. rewrite Hs, E, filter_app, !filter_cons.
    rewrite <- (Permutation_middle _ _ p). apply perm_skip.
    rewrite !list_del_app. rewrite (list_del_notin n (filter _ A)), (list_del_notin p (filter _ A))
      by (rewrite list_elem_of_filter; tauto).
    apply Permutation_app_head.
    repeat case_decide; rewrite ?(list_del_mid n []), ?(list_del_mid p []);
      unfold list_del; rewrite ?filter_cons; repeat case_decide; try done;
      fold (list_del n (filter (fun n => hole_follows (nd mm n) = true) B));
      rewrite ?(list_del_notin n) by (rewrite list_elem_of_filter; tauto);
      rewrite ?filter_cons; repeat case_decide; try done.
    all: try (exfalso; tauto).
    all: fold (list_del p (filter (fun n => hole_follows (nd mm n) = true) B));
      by rewrite (list_del_notin p) by (rewrite list_elem_of_filter; tauto).
  - rewrite (removed_scan _ _ _ _ R). apply Hwf.
Qed.

Lemma removed_abs mm' A p n B :
  ring mm = A ++ p :: n :: B -> removed mm mm' p n ->
  abs mm' = delete n (abs mm).
Proof.
  intros E R. pose proof (removed_wf mm' A p n B E R) as Hwf'.
  assert (Hn : n ∈ tail (ring mm)) by (rewrite E; destruct A; set_solver).
  assert (HnH : n <> HEAD) by (intros ->; by apply (wf_head_notin Hwf)).
  apply map_eq. intros x. rewrite (abs_lookup _ _ _ _ Hwf').
  assert (Ht : x ∈ tail (ring mm') <-> x ∈ tail (ring mm) /\ x <> n).
  { pose proof (ring_elem Hwf x) as H1. pose proof (ring_elem Hwf' x) as H2.
    pose proof (wf_head_notin Hwf) as H3. pose proof (wf_head_notin Hwf') as H4.
    rewrite (removed_ring _ _ _ _ R), list_del_elem, <- (removed_ring _ _ _ _ R) in H2.
    destruct (decide (x = HEAD)) as [->|]; tauto. }
  destruct (decide (x = n)) as [->|Hx].
  - rewrite lookup_delete_eq, decide_False; tauto.
  - rewrite lookup_delete_ne, (abs_lookup _ _ _ _ Hwf) by done.
    repeat case_decide; try tauto. destruct (decide (x = p)) as [->|].
    + by rewrite (removed_pred _ _ _ _ R).
    + by rewrite (removed_other _ _ _ _ R).
Qed.

Lemma remove_core n :
  n ∈ dom (abs mm) ->
  exists mm', drm_mm_remove_node mm n = Ok mm' /\ wf base top mm' /\
    abs mm' = delete n (abs mm) /\ fresh mm' n /\ color_adjust mm' = color_adjust mm /\
    forall x, x <> n -> fresh mm x -> fresh mm' x.
Proof.
  intros [r Hn]%elem_of_dom. rewrite (abs_lookup _ _ _ _ Hwf) in Hn.
  case_decide as Hin; [|done].
  destruct (node_pred Hwf n Hin) as (A & p & B & E).
  destruct (remove_node_removed A p n B E) as (mm' & Hr & R).
  exists mm'. pose proof (removed_wf mm' A p n B E R) as Hwf'.
  split_and!; [done|done|by eapply removed_abs| |apply R|].
  - destruct (node_ok_of Hwf n Hin) as (_ & _ & _ & _ & Hs1 & Hs2 & Hs3).
    split; rewrite ?(removed_node _ _ _ _ R); simpl; try done.
    rewrite (removed_ring _ _ _ _ R), list_del_elem. tauto.
  - intros x Hx Hf. assert (Hxp : x <> p).
    { intros ->. apply (fresh_off _ _ Hf). rewrite E. set_solver. }
    split; rewrite ?(removed_other _ _ _ _ R) by done; try apply Hf.
    rewrite (removed_ring _ _ _ _ R), list_del_elem. destruct Hf. tauto.
Qed.
End ops.

(** ** Initialisation *)
Lemma init_wf h start size :
  0 <= start -> 0 < size -> start + size + 2 ^ 32 <= 2 ^ 64 ->
  wf start (start + size) (drm_mm_init h start size) /\ abs (drm_mm_init h start size) = ∅.
Proof.
  intros Hs Hz Ho.
  assert (E : nd (drm_mm_init h start size) HEAD =
    mk_node (ul (start + size)) (ul (start - ul (start + size))) 0 true false false false
                false false HEAD None).
  { unfold nd, drm_mm_init. simpl. by rewrite lookup_total_insert_eq. }
  assert (E1 : ul (start + size) = start + size) by (apply ul_small; unfold is_ul; lia).
  assert (E2 : node_end (nd (drm_mm_init h start size) HEAD) = start).
  { rewrite E. unfold node_end. cbn [nstart nsize]. rewrite E1.
    unfold ul, wrap. rewrite Zplus_mod_idemp_r. rewrite Z.mod_small; lia. }
  split; [|done]. split; try done; try lia.
  - apply NoDup_singleton.
  - rewrite E. simpl. lia.
  - cbn [ring drm_mm_init tiled first_start]. fold (nd (drm_mm_init h start size) HEAD).
    rewrite E2, E. simpl. split_and!; [lia| |done]. symmetry. apply Z.ltb_lt. lia.
  - cbn [ring drm_mm_init hole_stack]. rewrite filter_cons, E. by rewrite decide_True.
Qed.
