(* ===== verification/DrmMmScan.v ===== *)
(** * The LRU scan of the range allocator

    Adding nodes to the scan list and taking them off again in reverse order
    restores the allocator, and after a hit the nodes the second pass selects
    are enough to make room for the wanted allocation. *)

From S2P Require Import Prelude DrmMm DrmMmSpec DrmMmThms.

(** What survives a scan of a node structure: everything but the links and the
    saved flag, which matter only while the node is on the scan list. *)
Record node_eq (d d' : drm_mm_node) : Prop := {
  ne_start : nstart d = nstart d';
  ne_size : nsize d = nsize d';
  ne_color : ncolor d = ncolor d';
  ne_follows : hole_follows d = hole_follows d';
  ne_block : scanned_block d = scanned_block d';
  ne_prev_free : scanned_prev_free d = scanned_prev_free d';
  ne_next_free : scanned_next_free d = scanned_next_free d';
  ne_alloc : allocated d = allocated d';
  ne_saved : scanned_block d = true ->
    scanned_preceeds_hole d = scanned_preceeds_hole d' /\ nl_prev d = nl_prev d'
}.

Record scan_eq (mm mm' : drm_mm) : Prop := {
  se_ring : ring mm = ring mm';
  se_stack : hole_stack mm = hole_stack mm';
  se_color : color_adjust mm = color_adjust mm';
  se_blocks : scanned_blocks mm = scanned_blocks mm';
  se_nd x : node_eq (nd mm x) (nd mm' x)
}.

#[export] Instance node_eq_equiv : Equivalence node_eq.
Proof.
  split.
  - by split.
  - intros d d' []. split; try done. intros. destruct ne_saved0; [congruence|done].
  - intros d d' d'' [] []. split; try congruence. intros.
    destruct ne_saved0; [done|]. destruct ne_saved1; [congruence|]. split; congruence.
Qed.

#[export] Instance scan_eq_equiv : Equivalence scan_eq.
Proof.
  split.
  - intros mm. by split.
  - intros m m' []. by split.
  - intros m m' m'' [] []. split; try congruence. intros x. etransitivity; eauto.
Qed.

#[export] Instance upd_proper n :
  Proper ((node_eq ==> node_eq) ==> scan_eq ==> scan_eq) (upd n).
Proof.
  intros f g Hfg m m' Hm. split; try apply Hm. intros x.
  destruct (decide (n = x)) as [->|Hx].
  - rewrite !nd_upd_eq. apply Hfg, Hm.
  - rewrite !nd_upd_ne by done. apply Hm.
Qed.

#[export] Instance set_ring_proper r : Proper (scan_eq ==> scan_eq) (set_ring r).
Proof. intros m m' []. by split. Qed.

#[export] Instance set_scanned_blocks_proper k : Proper (scan_eq ==> scan_eq) (set_scanned_blocks k).
Proof. intros m m' []. by split. Qed.

#[export] Instance set_hole_follows_proper b : Proper (node_eq ==> node_eq) (set_hole_follows b).
Proof. intros d d' []. by split. Qed.

#[export] Instance set_scanned_block_proper : Proper (node_eq ==> node_eq) (set_scanned_block false).
Proof. intros d d' []. by split. Qed.

Lemma set_scanned_proper_at b m m' n :
  scan_eq m m' -> scanned_block (nd m n) = true ->
  scan_eq (upd n (set_scanned_block b) m) (upd n (set_scanned_block b) m').
Proof.
  intros Hm Hb. split; try apply Hm. intros x. destruct (decide (n = x)) as [->|Hx].
  - rewrite !nd_upd_eq. destruct (se_nd _ _ Hm x) as [? ? ? ? ? ? ? ? Hs]. split; try done.
    intros _. by apply Hs.
  - rewrite !nd_upd_ne by done. apply Hm.
Qed.

Section scan.
Context {H : drm_mm_h} {Hok : drm_mm_h_ok H}.

(** Taking a node off the scan list reads nothing a scan loses. *)
Lemma scan_remove_eq m m' n :
  scan_eq m m' -> scanned_block (nd m n) = true ->
  exists b b' m1 m1', drm_mm_scan_remove_block m n = Ok (b, m1) /\
    drm_mm_scan_remove_block m' n = Ok (b', m1') /\ scan_eq m1 m1' /\
    scan_hit_start m1 = scan_hit_start m /\ scan_hit_end m1 = scan_hit_end m.
Proof.
  intros Hm Hb. pose proof (se_nd _ _ Hm n) as Hn.
  assert (Hb' : scanned_block (nd m' n) = true) by (rewrite <- (ne_block _ _ Hn); done).
  unfold drm_mm_scan_remove_block.
  assert (Ea : forall k mm, nd (set_scanned_blocks k mm) n = nd mm n) by done.
  rewrite !Ea, Hb, Hb'. cbn [negb BUG_ON mbind outcome_bind].
  rewrite !nd_upd_eq, !Ea. cbn [set_scanned_block nl_prev scanned_preceeds_hole].
  destruct (ne_saved _ _ Hn Hb) as [<- <-].
  eexists _, _, _, _. split; [reflexivity|]. split; [reflexivity|]. split; [|done].
  autorewrite with mm. assert (Er : forall k mm, ring (set_scanned_blocks k mm) = ring mm) by done.
  rewrite !Er, <- (se_ring _ _ Hm), <- (se_blocks _ _ Hm).
  apply set_ring_proper, upd_proper; [apply set_hole_follows_proper|].
  apply set_scanned_proper_at; [by apply set_scanned_blocks_proper|done].
Qed.

(** The effect of adding [n], whose predecessor on the ring is [p]. *)
Record scan_added (mm mm1 : drm_mm) (p n : node_id) : Prop := {
  sa_ring : ring mm1 = list_del n (ring mm);
  sa_stack : hole_stack mm1 = hole_stack mm;
  sa_color : color_adjust mm1 = color_adjust mm;
  sa_blocks : scanned_blocks mm1 = u32 (scanned_blocks mm + 1);
  sa_pred : nd mm1 p = set_hole_follows true (nd mm p);
  sa_node : exists nx, nd mm1 n =
    set_links p nx (set_preceeds_hole (hole_follows (nd mm p)) (set_scanned_block true (nd mm n)));
  sa_other x : x <> p -> x <> n -> nd mm1 x = nd mm x;
  sa_size : scan_size mm1 = scan_size mm;
  sa_alignment : scan_alignment mm1 = scan_alignment mm;
  sa_range : scan_check_range mm1 = scan_check_range mm
}.

(** What the answer of an addition says, without colouring and range: the hole
    that opens where [n] was is big enough, and is recorded as the hit. *)
Definition scan_answer (mm mm1 : drm_mm) (p : node_id) (b : bool) : Prop :=
  let hs := node_end (nd mm p) in
  let he := nstart (nd mm1 (next_of mm1 p)) in
  (b = true -> scan_hit_start mm1 = hs /\ scan_hit_end mm1 = he) /\
  (b = false -> scan_hit_start mm1 = scan_hit_start mm /\ scan_hit_end mm1 = scan_hit_end mm) /\
  (color_adjust mm = None -> scan_check_range mm = false ->
   b = check_free_hole hs he (scan_size mm) (scan_alignment mm)).

Lemma scan_add_added mm A p n B :
  head (ring mm) = Some HEAD -> NoDup (ring mm) ->
  ring mm = A ++ p :: n :: B -> scanned_block (nd mm n) = false ->
  exists b mm1, drm_mm_scan_add_block mm n = Ok (b, mm1) /\ scan_added mm mm1 p n /\
    scan_answer mm mm1 p b.
Proof.
  intros Hh Hnd E Hb. unfold drm_mm_scan_add_block.
  assert (Hpn : p <> n) by (rewrite E, NoDup_app, !NoDup_cons in Hnd; set_solver).
  set (m0 := set_scanned_blocks _ mm).
  assert (E0 : forall x, nd m0 x = nd mm x) by done.
  rewrite E0, Hb. cbn [BUG_ON mbind outcome_bind].
  set (m1 := upd n (set_scanned_block true) m0).
  assert (Hprev : prev_of m1 n = p) by (apply (prev_of_ring m1 A p n B); done).
  rewrite Hprev.
  set (m2 := upd n (set_preceeds_hole _) m1).
  set (m3 := upd p (set_hole_follows true) m2).
  set (m4 := set_ring _ m3).
  set (m5 := upd n (set_links p _) m4).
  set (m6 := set_prev_scanned _ m5).
  assert (Hp6 : nd m6 p = set_hole_follows true (nd mm p)).
  { change (nd m6 p) with (nd m5 p). unfold m5. rewrite nd_upd_ne by done.
    change (nd m4 p) with (nd m3 p). unfold m3. rewrite nd_upd_eq.
    unfold m2, m1. rewrite !nd_upd_ne by done. done. }
  assert (Hn6 : exists nx, nd m6 n =
    set_links p nx (set_preceeds_hole (hole_follows (nd mm p)) (set_scanned_block true (nd mm n)))).
  { change (nd m6 n) with (nd m5 n). unfold m5. rewrite nd_upd_eq.
    change (nd m4 n) with (nd m3 n). unfold m3. rewrite nd_upd_ne by done.
    unfold m2. rewrite nd_upd_eq. unfold m1. rewrite nd_upd_ne, nd_upd_eq by done. eauto. }
  assert (Ho6 : forall x, x <> p -> x <> n -> nd m6 x = nd mm x).
  { intros x Hxp Hxn. change (nd m6 x) with (nd m5 x). unfold m5. rewrite nd_upd_ne by done.
    change (nd m4 x) with (nd m3 x). unfold m3, m2, m1. by rewrite !nd_upd_ne. }
  assert (Hpr : p ∈ ring m6).
  { change (p ∈ list_del n (ring mm)). rewrite E, list_del_elem. set_solver. }
  rewrite hole_node_start_checked, hole_node_end_checked, hole_node_start_law, hole_node_end_law
    by (rewrite ?Hp6; done).
  cbn [mbind outcome_bind]. rewrite Hp6. cbn [set_hole_follows nstart nsize].
  set (hs := ul _). set (he := nstart (nd m6 (next_of m6 p))).
  destruct (if scan_check_range m6 then _ else _) as [s1 e1] eqn:E1.
  destruct (color_adjusted m6 p (scan_color m6) (s1, e1)) as [s2 e2] eqn:E2.
  assert (Hadd : scan_added mm m6 p n) by (by split).
  assert (Hck : color_adjust mm = None -> scan_check_range mm = false -> s2 = hs /\ e2 = he).
  { intros Hc Hr. change (scan_check_range m6) with (scan_check_range mm) in E1.
    rewrite Hr in E1. unfold color_adjusted in E2.
    change (color_adjust m6) with (color_adjust mm) in E2. rewrite Hc in E2. by simplify_eq. }
  change (scan_size m6) with (scan_size mm). change (scan_alignment m6) with (scan_alignment mm).
  assert (Hh6 : scan_hit_start m6 = scan_hit_start mm /\ scan_hit_end m6 = scan_hit_end mm) by done.
  clearbody m6. destruct (check_free_hole s2 e2 _ _) eqn:Ec.
  - exists true, (set_scan_hit hs he m6). split; [done|]. split; [by destruct Hadd; split|].
    split; [done|]. split; [done|]. intros Hc Hr. destruct (Hck Hc Hr) as [-> ->]. exact (eq_sym Ec).
  - exists false, m6. split; [done|]. split; [done|]. split; [done|]. split; [done|].
    intros Hc Hr. destruct (Hck Hc Hr) as [-> ->]. exact (eq_sym Ec).
Qed.

(** Adding a node and taking it off again changes nothing that matters. *)
Lemma scan_add_remove mm A p n B :
  head (ring mm) = Some HEAD -> NoDup (ring mm) -> is_u32 (scanned_blocks mm) ->
  ring mm = A ++ p :: n :: B -> scanned_block (nd mm n) = false ->
  forall mm1, scan_added mm mm1 p n ->
  exists b m2, drm_mm_scan_remove_block mm1 n = Ok (b, m2) /\ scan_eq mm m2.
Proof.
  intros Hh Hnd Hu E Hb mm1 Ha. rewrite E in Hnd.
  assert (Hx : p <> n /\ (p ∉ A) /\ (n ∉ A ++ [p])) by
    (rewrite NoDup_app, !NoDup_cons in Hnd; set_solver).
  destruct Hx as (Hpn & HpA & HnA). destruct (sa_node _ _ _ _ Ha) as [nx En].
  unfold drm_mm_scan_remove_block. set (m0 := set_scanned_blocks _ mm1).
  assert (E0 : forall x, nd m0 x = nd mm1 x) by done.
  rewrite E0, En. cbn [set_links set_preceeds_hole set_scanned_block scanned_block negb BUG_ON
    mbind outcome_bind].
  rewrite nd_upd_eq, E0, En.
  cbn [set_links set_preceeds_hole set_scanned_block nl_prev scanned_preceeds_hole].
  eexists _, _. split; [reflexivity|]. autorewrite with mm. split.
  - cbn [ring set_ring upd set_heap]. change (ring m0) with (ring mm1).
    rewrite (sa_ring _ _ _ _ Ha), E.
    assert (E' : A ++ p :: n :: B = (A ++ [p]) ++ n :: B) by (rewrite <- app_assoc; done).
    rewrite E' at 2. rewrite E' in Hnd. rewrite list_del_mid, <- app_assoc by done. simpl.
    by rewrite list_add_after_mid.
  - cbn [hole_stack set_ring upd set_heap]. change (hole_stack m0) with (hole_stack mm1).
    by rewrite (sa_stack _ _ _ _ Ha).
  - change (color_adjust mm = color_adjust mm1). by rewrite (sa_color _ _ _ _ Ha).
  - change (scanned_blocks mm = u32 (scanned_blocks mm1 - 1)). rewrite (sa_blocks _ _ _ _ Ha).
    unfold u32, wrap. rewrite Zminus_mod_idemp_l, Z.add_simpl_r, Z.mod_small; done.
  - intros x. rewrite nd_set_ring. destruct (decide (x = p)) as [->|Hxp].
    + rewrite nd_upd_eq, nd_upd_ne, E0, (sa_pred _ _ _ _ Ha) by done.
      split; try done.
    + rewrite nd_upd_ne by done. destruct (decide (x = n)) as [->|Hxn].
      * rewrite nd_upd_eq, E0, En. split; try done. intros. simpl in *. congruence.
      * rewrite nd_upd_ne, E0, (sa_other _ _ _ _ Ha) by done. done.
Qed.

(** ** The two passes of a driver *)

(** Adds the nodes in order; the answer is that of the last one. *)
Fixpoint scan_add_all (mm : drm_mm) (l : list node_id) (b : bool) : outcome (bool * drm_mm) :=
  match l with
  | [] => Ok (b, mm)
  | n :: l' => '(b', mm1) ← drm_mm_scan_add_block mm n; scan_add_all mm1 l' b'
  end.

(** Takes the nodes off in order and collects those to evict. *)
Fixpoint scan_remove_all (mm : drm_mm) (l : list node_id) : outcome (list node_id * drm_mm) :=
  match l with
  | [] => Ok ([], mm)
  | n :: l' =>
      '(b, mm1) ← drm_mm_scan_remove_block mm n;
      '(ev, mm2) ← scan_remove_all mm1 l';
      Ok (if b : bool then n :: ev else ev, mm2)
  end.

(** What a scan keeps: the ring is ordered by address. *)
Definition before (mm : drm_mm) (x y : node_id) : Prop :=
  nstart (nd mm x) + nsize (nd mm x) <= nstart (nd mm y).

Definition sane (mm : drm_mm) (x : node_id) : Prop :=
  0 <= nstart (nd mm x) /\ 0 < nsize (nd mm x) /\
  nstart (nd mm x) + nsize (nd mm x) < 2 ^ 64 /\ before mm x HEAD /\
  node_end (nd mm HEAD) <= nstart (nd mm x).

Record scannable (mm : drm_mm) (l : list node_id) : Prop := {
  sc_head : head (ring mm) = Some HEAD;
  sc_nodup : NoDup (ring mm);
  sc_u32 : is_u32 (scanned_blocks mm);
  sc_range : 0 <= node_end (nd mm HEAD) < nstart (nd mm HEAD) /\
             nstart (nd mm HEAD) + 2 ^ 32 <= 2 ^ 64;
  sc_sorted : StronglySorted (before mm) (tail (ring mm));
  sc_sane : Forall (sane mm) (tail (ring mm));
  sc_list : Forall (fun x => x ∈ tail (ring mm) /\ scanned_block (nd mm x) = false) l;
  sc_distinct : NoDup l
}.

Lemma sc_cons mm l : scannable mm l -> ring mm = HEAD :: tail (ring mm).
Proof. intros Hs. pose proof (sc_head _ _ Hs). destruct (ring mm); simpl in *; by simplify_eq. Qed.

Lemma sc_head_notin mm l : scannable mm l -> HEAD ∉ tail (ring mm).
Proof.
  intros Hs. pose proof (sc_nodup _ _ Hs) as Hn. rewrite (sc_cons _ _ Hs) in Hn.
  by apply NoDup_cons in Hn as [].
Qed.

(** A node of the ring has a predecessor. *)
Lemma sc_pred mm l n :
  scannable mm l -> n ∈ tail (ring mm) -> exists A p B, ring mm = A ++ p :: n :: B.
Proof.
  intros Hs (A & B & E)%list_elem_of_split. rewrite (sc_cons _ _ Hs), E.
  destruct (exists_last (l := HEAD :: A)) as (A' & p & EA); [done|].
  exists A', p, B. rewrite app_comm_cons, EA, <- app_assoc. done.
Qed.

Lemma sa_shape mm mm1 p n x :
  scan_added mm mm1 p n ->
  nstart (nd mm1 x) = nstart (nd mm x) /\ nsize (nd mm1 x) = nsize (nd mm x).
Proof.
  intros Ha. destruct (decide (x = n)) as [->|]; [by destruct (sa_node _ _ _ _ Ha) as [? ->]|].
  destruct (decide (x = p)) as [->|]; [by rewrite (sa_pred _ _ _ _ Ha)|].
  by rewrite (sa_other _ _ _ _ Ha).
Qed.

Lemma scan_ring_tail mm mm1 p n l :
  scannable mm l -> n ∈ tail (ring mm) -> scan_added mm mm1 p n ->
  tail (ring mm1) = list_del n (tail (ring mm)).
Proof.
  intros Hs Hn Ha. rewrite (sa_ring _ _ _ _ Ha), (sc_cons _ _ Hs). unfold list_del.
  rewrite filter_cons_True; [done|]. intros <-. by apply (sc_head_notin _ _ Hs).
Qed.

Lemma scannable_added mm mm1 p n l :
  scannable mm (n :: l) -> scan_added mm mm1 p n -> scannable mm1 l.
Proof.
  intros Hs Ha. destruct (proj1 (Forall_cons _ _ _) (sc_list _ _ Hs)) as [[Hn Hb] Hl].
  pose proof (proj1 (NoDup_cons _ _) (sc_distinct _ _ Hs)) as [Hnl Hdl].
  pose proof (scan_ring_tail _ _ _ _ _ Hs Hn Ha) as Et.
  assert (HnH : n <> HEAD) by (intros ->; by apply (sc_head_notin _ _ Hs)).
  assert (Hsh : forall x, nstart (nd mm1 x) = nstart (nd mm x) /\ nsize (nd mm1 x) = nsize (nd mm x))
    by (intros; by eapply sa_shape).
  split.
  - rewrite (sa_ring _ _ _ _ Ha), (sc_cons _ _ Hs). unfold list_del.
    by rewrite filter_cons_True.
  - rewrite (sa_ring _ _ _ _ Ha). apply NoDup_list_del, Hs.
  - rewrite (sa_blocks _ _ _ _ Ha). apply u32_bounds.
  - unfold node_end. destruct (Hsh HEAD) as [-> ->]. apply Hs.
  - rewrite Et. eapply StronglySorted_mono; [|apply StronglySorted_filter, Hs].
    intros x y _ _. unfold before. destruct (Hsh x) as [-> ->]. by destruct (Hsh y) as [-> _].
  - rewrite Et. apply Forall_forall. intros x [Hx _]%list_del_elem.
    pose proof (proj1 (Forall_forall _ _) (sc_sane _ _ Hs) x Hx) as Hsx. unfold sane, before, node_end in *.
    destruct (Hsh x) as [-> ->]. destruct (Hsh HEAD) as [-> ->]. done.
  - rewrite Forall_forall in Hl |- *. intros x Hx. destruct (Hl x Hx) as [Hxt Hxb].
    assert (Hxn : x <> n) by set_solver. rewrite Et, list_del_elem. split; [done|].
    destruct (decide (x = p)) as [->|]; [by rewrite (sa_pred _ _ _ _ Ha)|].
    by rewrite (sa_other _ _ _ _ Ha).
  - done.
Qed.

Lemma sc_next mm l n :
  scannable mm l -> n ∈ tail (ring mm) ->
  nstart (nd mm n) + nsize (nd mm n) <= nstart (nd mm (next_of mm n)).
Proof.
  intros Hs (A & B & E)%list_elem_of_split. unfold next_of.
  pose proof (sc_nodup _ _ Hs) as Hnd. rewrite (sc_cons _ _ Hs), E, app_comm_cons in Hnd |- *.
  rewrite list_succ_mid by (rewrite NoDup_app in Hnd; set_solver).
  destruct B as [|b B]; simpl.
  - pose proof (sc_sane _ _ Hs) as Hx. rewrite E, Forall_app, Forall_cons in Hx. apply Hx.
  - pose proof (sc_sorted _ _ Hs) as Hx. rewrite E in Hx.
    apply StronglySorted_mid in Hx as [_ Hx]. by apply Forall_cons in Hx as [].
Qed.

Lemma scan_remove_answer m n b m1 :
  drm_mm_scan_remove_block m n = Ok (b, m1) ->
  b = (scan_hit_start m1 <? drm_mm_hole_node_end m1 n) && (nstart (nd m1 n) <? scan_hit_end m1) /\
  scan_hit_start m1 = scan_hit_start m /\ scan_hit_end m1 = scan_hit_end m.
Proof.
  unfold drm_mm_scan_remove_block, BUG_ON.
  destruct (negb _); cbn [mbind outcome_bind]; [done|]. intros E. by simplify_eq.
Qed.

Lemma scan_remove_all_snoc m l n :
  scan_remove_all m (l ++ [n]) =
  '(ev, m1) ← scan_remove_all m l;
  '(b, m2) ← drm_mm_scan_remove_block m1 n;
  Ok (if b : bool then ev ++ [n] else ev, m2).
Proof.
  revert m. induction l as [|a l IH]; intros m; simpl.
  - destruct (drm_mm_scan_remove_block m n) as [[[] ?]|]; done.
  - destruct (drm_mm_scan_remove_block m a) as [[ba ma]|]; simpl; [|done].
    rewrite IH. destruct (scan_remove_all ma l) as [[ev m1]|]; simpl; [|done].
    destruct (drm_mm_scan_remove_block m1 n) as [[[] ?]|]; simpl; [destruct ba; done..|done].
Qed.

(** The two passes restore the allocator, and the second one selects every
    scanned node that meets the hit. *)
Lemma scan_passes mm l b0 :
  scannable mm l ->
  exists b mm1 ev mm2,
    scan_add_all mm l b0 = Ok (b, mm1) /\
    scan_remove_all mm1 (reverse l) = Ok (ev, mm2) /\ scan_eq mm mm2 /\
    scan_hit_start mm2 = scan_hit_start mm1 /\ scan_hit_end mm2 = scan_hit_end mm1 /\
    NoDup ev /\ (forall x, x ∈ ev -> x ∈ l) /\
    (forall x, x ∈ l -> nstart (nd mm x) < scan_hit_end mm1 ->
       scan_hit_start mm1 < nstart (nd mm x) + nsize (nd mm x) -> x ∈ ev).
Proof.
  revert mm b0. induction l as [|n l IH]; intros mm b0 Hs; cbn [scan_add_all].
  { exists b0, mm, [], mm. split_and!; try done; [constructor|set_solver..]. }
  destruct (proj1 (Forall_cons _ _ _) (sc_list _ _ Hs)) as [[Hn Hb] Hl].
  pose proof (proj1 (NoDup_cons _ _) (sc_distinct _ _ Hs)) as [Hnl _].
  destruct (sc_pred _ _ n Hs Hn) as (A & p & B & E).
  destruct (scan_add_added mm A p n B) as (b1 & mm1 & Eadd & Ha & _); try apply Hs; try done.
  rewrite Eadd. cbn [mbind outcome_bind].
  destruct (IH mm1 b1) as (b & mm2 & ev & mm3 & E1 & E2 & Heq & Hh1 & Hh2 & Hnd & Hsub & Hev);
    [by eapply scannable_added|].
  destruct (scan_add_remove mm A p n B) with (mm1 := mm1) as (br & m2 & Erem & Hback);
    try apply Hs; try done.
  assert (Hbn : scanned_block (nd mm1 n) = true)
    by (destruct (sa_node _ _ _ _ Ha) as [? ->]; done).
  destruct (scan_remove_eq mm1 mm3 n Heq Hbn) as (c & c' & m & m' & Ec & Ec' & Hmm & _ & _).
  rewrite Ec in Erem. simplify_eq. assert (Hfin : scan_eq mm m') by (by etransitivity).
  destruct (scan_remove_answer _ _ _ _ Ec') as (Hc & Hc1 & Hc2).
  exists b, mm2, (if c' then ev ++ [n] else ev), m'.
  rewrite reverse_cons, scan_remove_all_snoc, E2. cbn [mbind outcome_bind]. rewrite Ec'.
  split_and!; try done; try congruence.
  - destruct c'; [|done]. apply NoDup_app. split_and!; [done|set_solver|apply NoDup_singleton].
  - intros x Hx. destruct c'; set_solver.
  - intros x [->|Hx]%elem_of_cons Hx1 Hx2.
    + enough (c' = true) as -> by set_solver. rewrite Hc.
      rewrite hole_node_end_checked, hole_node_end_law
        by (rewrite <- (se_ring _ _ Hfin), E; set_solver).
      pose proof (sc_next _ _ n Hs Hn) as Hnx.
      assert (En : next_of m' n = next_of mm n) by (unfold next_of; by rewrite (se_ring _ _ Hfin)).
      rewrite En, <- (ne_start _ _ (se_nd _ _ Hfin _)), <- (ne_start _ _ (se_nd _ _ Hfin _)).
      rewrite Hc1, Hc2, Hh1, Hh2. apply andb_true_intro. split; apply Z.ltb_lt; lia.
    + destruct (sa_shape _ _ _ _ x Ha) as [Es Ez].
      enough (x ∈ ev) by (destruct c'; set_solver). apply Hev; [done|by rewrite Es|by rewrite Es, Ez].
Qed.

(** Between an entry and the next one lies no node. *)
Lemma gap_free mm l p :
  scannable mm l -> p ∈ ring mm ->
  let hs := node_end (nd mm p) in
  let he := nstart (nd mm (next_of mm p)) in
  node_end (nd mm HEAD) <= hs <= he /\ he <= nstart (nd mm HEAD) /\
  forall y, y ∈ tail (ring mm) ->
    nstart (nd mm y) + nsize (nd mm y) <= hs \/ he <= nstart (nd mm y).
Proof.
  intros Hs Hp hs he. pose proof (sc_range _ _ Hs) as Hr.
  pose proof (sc_sane _ _ Hs) as Hsane. pose proof (sc_sorted _ _ Hs) as Hsort.
  pose proof (sc_nodup _ _ Hs) as Hnd. pose proof (sc_cons _ _ Hs) as Ec.
  assert (Hgap : exists A B, ring mm = A ++ p :: B /\ (p ∉ A)).
  { apply list_elem_of_split in Hp as (A & B & E). exists A, B. split; [done|].
    rewrite E, NoDup_app in Hnd. set_solver. }
  destruct Hgap as (A & B & E & HpA).
  assert (Ehe : he = first_start (heap mm) B (nstart (nd mm HEAD))).
  { subst he. unfold next_of. rewrite E, list_succ_mid by done. by destruct B. }
  assert (HB : forall y, y ∈ B -> he <= nstart (nd mm y)).
  { intros y Hy. rewrite Ehe. destruct B as [|b B]; [set_solver|]. simpl.
    assert (Hsb : exists A', tail (ring mm) = A' ++ b :: B).
    { rewrite E. destruct A as [|a A]; simpl; [by exists []|].
      exists (A ++ [p]). by rewrite <- app_assoc. }
    destruct Hsb as [A' Eb]. rewrite Eb in Hsort, Hsane.
    apply StronglySorted_mid in Hsort as [_ Hsb]. rewrite Forall_app, Forall_cons in Hsane.
    destruct Hsane as (_ & (_ & Hz & _) & _).
    apply elem_of_cons in Hy as [->|Hy]; [done|].
    pose proof (proj1 (Forall_forall _ _) Hsb y Hy) as Hbef. unfold before in Hbef.
    fold (nd mm b). lia. }
  assert (Hhe : he <= nstart (nd mm HEAD)).
  { rewrite Ehe. destruct B as [|b B]; simpl; [lia|].
    assert (Hb : b ∈ tail (ring mm)) by (rewrite E; destruct A; set_solver).
    pose proof (proj1 (Forall_forall _ _) Hsane b Hb) as (? & ? & ? & Hx & _).
    unfold before in Hx. fold (nd mm b). lia. }
  destruct (decide (p = HEAD)) as [->|HpH].
  - assert (A = []) as ->.
    { destruct A as [|a A]; [done|]. rewrite E in Ec. simplify_eq/=. set_solver. }
    split_and!; try done.
    + rewrite Ehe. destruct B as [|b B]; simpl; [lia|].
      assert (Hb : b ∈ tail (ring mm)) by (rewrite E; set_solver).
      pose proof (proj1 (Forall_forall _ _) Hsane b Hb) as (? & ? & ? & _ & Hx). done.
    + intros y Hy. right. apply HB. rewrite E in Hy. done.
  - assert (Hpt : p ∈ tail (ring mm)) by (rewrite Ec in Hp; set_solver).
    pose proof (proj1 (Forall_forall _ _) Hsane p Hpt) as (H1 & H2 & H3 & _ & H4).
    assert (Ehs : hs = nstart (nd mm p) + nsize (nd mm p))
      by (apply ul_small; unfold is_ul; lia).
    pose proof (sc_next _ _ p Hs Hpt) as Hnx. fold he in Hnx.
    split_and!; [lia|lia|done|]. intros y Hy.
    assert (Hcase : y ∈ B \/ y = p \/ y ∈ tail A).
    { rewrite E in Hy. destruct A as [|a A]; simpl in *; set_solver. }
    destruct Hcase as [Hy'|[->|Hy']]; [right; by apply HB|left; lia|left].
    assert (Et : tail (ring mm) = tail A ++ p :: B) by (rewrite E; destruct A; [set_solver|done]).
    rewrite Et in Hsort. apply StronglySorted_mid in Hsort as [Hsort _].
    pose proof (proj1 (Forall_forall _ _) Hsort y Hy') as Hbef. unfold before in Hbef. lia.
Qed.

(** A hit leaves no unscanned node inside it. *)
Lemma scan_hit_free mm l b0 mm1 :
  scannable mm l -> l <> [] -> color_adjust mm = None -> scan_check_range mm = false ->
  scan_add_all mm l b0 = Ok (true, mm1) ->
  let hs := scan_hit_start mm1 in
  let he := scan_hit_end mm1 in
  node_end (nd mm HEAD) <= hs <= he /\ he <= nstart (nd mm HEAD) /\
  check_free_hole hs he (scan_size mm) (scan_alignment mm) = true /\
  forall y, y ∈ tail (ring mm) -> y ∉ l ->
    nstart (nd mm y) + nsize (nd mm y) <= hs \/ he <= nstart (nd mm y).
Proof.
  revert mm b0. induction l as [|n l IH]; intros mm b0 Hs Hl Hc Hr Hadd; [done|].
  destruct (proj1 (Forall_cons _ _ _) (sc_list _ _ Hs)) as [[Hn Hb] _].
  destruct (sc_pred _ _ n Hs Hn) as (A & p & B & E).
  destruct (scan_add_added mm A p n B) as (b1 & m1 & Eadd & Ha & Hans); try apply Hs; try done.
  cbn [scan_add_all] in Hadd. rewrite Eadd in Hadd. cbn [mbind outcome_bind] in Hadd.
  pose proof (scannable_added _ _ _ _ _ Hs Ha) as Hs1.
  pose proof (scan_ring_tail _ _ _ _ _ Hs Hn Ha) as Et.
  assert (Hsh : forall x, nstart (nd m1 x) = nstart (nd mm x) /\ nsize (nd m1 x) = nsize (nd mm x))
    by (intros; by eapply sa_shape).
  assert (Hhe : node_end (nd m1 HEAD) = node_end (nd mm HEAD) /\
                nstart (nd m1 HEAD) = nstart (nd mm HEAD)).
  { unfold node_end. by destruct (Hsh HEAD) as [-> ->]. }
  destruct Hhe as [Hhe1 Hhe2]. destruct l as [|n' l].
  - simpl in Hadd. simplify_eq. destruct Hans as (Hhit & _ & Hck).
    destruct (Hhit eq_refl) as [-> ->]. specialize (Hck Hc Hr).
    assert (Hp : p ∈ ring mm1).
    { rewrite (sa_ring _ _ _ _ Ha), E, list_del_elem.
      pose proof (sc_nodup _ _ Hs) as Hnd. rewrite E, NoDup_app, !NoDup_cons in Hnd. set_solver. }
    destruct (gap_free mm1 [] p Hs1 Hp) as (H1 & H2 & H3).
    assert (En : node_end (nd mm p) = node_end (nd mm1 p))
      by (unfold node_end; by destruct (Hsh p) as [-> ->]).
    rewrite En in *. rewrite <- Hhe1, <- Hhe2. split_and!; try lia; [by symmetry|].
    intros y Hy Hyn. destruct (Hsh y) as [<- <-]. apply H3. rewrite Et, list_del_elem. set_solver.
  - destruct (IH m1 b1) as (H1 & H2 & H3 & H4); try done.
    + by rewrite (sa_color _ _ _ _ Ha).
    + by rewrite (sa_range _ _ _ _ Ha).
    + rewrite <- Hhe1, <- Hhe2, <- (sa_size _ _ _ _ Ha), <- (sa_alignment _ _ _ _ Ha).
      split_and!; try lia; [done|]. intros y Hy Hyl. destruct (Hsh y) as [<- <-].
      apply H4; [rewrite Et, list_del_elem; set_solver|set_solver].
Qed.
End scan.
