(* ===== verification/DrmMmProps.v ===== *)
(** * Properties of the range allocator

    The abstract allocator the drivers rely on, the refinement of drm_mm.c to
    it, and the theorems on single operations. *)

From S2P Require Import Prelude DrmMm DrmMmSpec DrmMmThms DrmMmScan.

(** ** Operation sequences *)

(** [start], [size] and [color] as a caller of [drm_mm_reserve_node] sets them. *)
Definition set_request (start size color : Z) (d : drm_mm_node) : drm_mm_node :=
  mk_node start size color (hole_follows d) (scanned_block d)
    (scanned_prev_free d) (scanned_next_free d) (scanned_preceeds_hole d)
    (allocated d) (nl_prev d) (nl_next d).

Inductive mm_op :=
| OpInsert (node : node_id) (size alignment color sflags aflags : Z)
| OpInsertRange (node : node_id) (size alignment color start end_ sflags aflags : Z)
| OpReserve (node : node_id) (start size color : Z)
| OpRemove (node : node_id).

(** The abstract allocator: a request is answered with a place that is free
    and aligned (and in the requested range), or refused when there is none. *)
Inductive astep (base top : Z) (m : gmap node_id (Z * Z)) :
  mm_op -> Z -> gmap node_id (Z * Z) -> Prop :=
| astep_insert n size al c sf af s :
    aligned s al -> a_free base top m s size ->
    astep base top m (OpInsert n size al c sf af) 0 (<[n := (s, size)]> m)
| astep_insert_full n size al c sf af :
    (forall s, aligned s al -> ~ a_free base top m s size) ->
    astep base top m (OpInsert n size al c sf af) (- ENOSPC) m
| astep_range n size al c lo hi sf af s :
    aligned s al -> lo <= s -> s + size <= hi -> a_free base top m s size ->
    astep base top m (OpInsertRange n size al c lo hi sf af) 0 (<[n := (s, size)]> m)
| astep_range_full n size al c lo hi sf af :
    (forall s, aligned s al -> lo <= s -> s + size <= hi -> ~ a_free base top m s size) ->
    astep base top m (OpInsertRange n size al c lo hi sf af) (- ENOSPC) m
| astep_reserve n s size c :
    a_free base top m s size ->
    astep base top m (OpReserve n s size c) 0 (<[n := (s, size)]> m)
| astep_reserve_full n s size c :
    ~ a_free base top m s size -> astep base top m (OpReserve n s size c) (- ENOSPC) m
| astep_remove n : astep base top m (OpRemove n) 0 (delete n m).

Section props.
Context {H : drm_mm_h} {Hok : drm_mm_h_ok H}.

Definition run (mm : drm_mm) (op : mm_op) : outcome (Z * drm_mm) :=
  match op with
  | OpInsert n size al c sf af => drm_mm_insert_node_generic mm n size al c sf af
  | OpInsertRange n size al c lo hi sf af =>
      drm_mm_insert_node_in_range_generic mm n size al c lo hi sf af
  | OpReserve n s size c => Ok (drm_mm_reserve_node (upd n (set_request s size c) mm) n)
  | OpRemove n => mm' ← drm_mm_remove_node mm n; Ok (0, mm')
  end.

(** What a caller owes: a fresh node to insert, an allocated one to remove,
    sizes and bounds that fit [unsigned long]. *)
Definition op_ok (top : Z) (mm : drm_mm) (op : mm_op) : Prop :=
  match op with
  | OpInsert n size al _ _ _ => fresh mm n /\ 0 < size /\ is_u32 al
  | OpInsertRange n size al _ lo hi _ _ =>
      fresh mm n /\ 0 < size /\ is_u32 al /\ 0 <= lo /\ 0 <= hi /\
      Z.max top lo + size + 2 ^ 32 <= 2 ^ 64
  | OpReserve n s size _ => fresh mm n /\ 0 <= s /\ 0 < size /\ s + size < 2 ^ 64
  | OpRemove n => n ∈ dom (abs mm)
  end.

(** An aligned free place is found in the hole that contains it. *)
Lemma no_fit_no_place base top mm size al c :
  wf base top mm -> color_adjust mm = None -> 0 < size -> is_u32 al ->
  (forall e hs he, e ∈ ring mm -> hole_follows (nd mm e) = true -> hole_bounds mm e = (hs, he) ->
     fits mm size al c (fun r => r) (e, hs, he) = false) ->
  forall s, aligned s al -> ~ free_range base top mm s size.
Proof.
  intros Hwf Hc Hz Ha Hno s Hs Hfree.
  destruct (free_in_hole Hwf s size Hz Hfree) as (e & He & Hhf & H1 & H2).
  destruct (hole_bounds mm e) as [hs he] eqn:Eb. simpl in H1, H2.
  specialize (Hno e hs he He Hhf Eb).
  rewrite (fits_exact Hwf) in Hno by done. apply Z.leb_gt in Hno.
  unfold is_u32 in Ha.
  assert (align_up hs al <= s) by (apply align_up_least; [lia|done|lia]). lia.
Qed.

Lemma no_fit_no_place_range base top mm size al lo hi :
  wf base top mm -> 0 < size -> is_u32 al ->
  (forall e hs he, e ∈ ring mm -> hole_follows (nd mm e) = true -> hole_bounds mm e = (hs, he) ->
     Z.min he hi < align_up (Z.max hs lo) al + size) ->
  forall s, aligned s al -> lo <= s -> s + size <= hi -> ~ free_range base top mm s size.
Proof.
  intros Hwf Hz Ha Hno s Hs Hlo Hhi Hfree.
  destruct (free_in_hole Hwf s size Hz Hfree) as (e & He & Hhf & H1 & H2).
  destruct (hole_bounds mm e) as [hs he] eqn:Eb. simpl in H1, H2.
  specialize (Hno e hs he He Hhf Eb).
  unfold is_u32 in Ha.
  assert (align_up (Z.max hs lo) al <= s) by (apply align_up_least; [lia|done|lia]). lia.
Qed.

(** Rewriting the structure of a node off the ring leaves the rest alone. *)
Lemma off_ring_wf base top mm n f :
  wf base top mm -> n ∉ ring mm ->
  wf base top (upd n f mm) /\
  abs (upd n f mm) = abs mm.
Proof.
  intros Hwf Hn. set (mm' := upd n f mm).
  assert (Ho : forall x, x ∈ ring mm -> nd mm' x = nd mm x)
    by (intros x Hx; apply nd_upd_ne; intros ->; done).
  assert (HH : HEAD ∈ ring mm) by (rewrite (wf_ring_cons Hwf); set_solver).
  assert (Htl : forall x, x ∈ tail (ring mm) -> x ∈ ring mm)
    by (intros x Hx; rewrite (wf_ring_cons Hwf); set_solver).
  assert (Hwf' : wf base top mm').
  { split; try apply Hwf.
    - rewrite Ho by done. apply Hwf.
    - rewrite Ho by done. apply Hwf.
    - apply Forall_forall. intros x Hx. rewrite Ho by auto. by apply (node_ok_of Hwf).
    - eapply tiled_frame; [|apply Hwf]. intros a Ha. fold (nd mm a) (nd mm' a). by rewrite Ho.
    - change (hole_stack mm') with (hole_stack mm). rewrite (wf_stack _ _ _ Hwf).
      erewrite list_filter_iff_local; [done|]. intros x Hx. simpl. by rewrite Ho. }
  split; [done|]. apply map_eq. intros x.
  rewrite (abs_lookup _ _ _ _ Hwf), (abs_lookup _ _ _ _ Hwf').
  change (ring mm') with (ring mm). case_decide; [|done]. by rewrite Ho by auto.
Qed.

Lemma request_wf base top mm n s size c :
  wf base top mm -> n ∉ ring mm ->
  wf base top (upd n (set_request s size c) mm) /\
  abs (upd n (set_request s size c) mm) = abs mm.
Proof. apply off_ring_wf. Qed.

Lemma run_refines base top mm op :
  wf base top mm -> color_adjust mm = None -> op_ok top mm op ->
  exists ret mm', run mm op = Ok (ret, mm') /\ wf base top mm' /\ color_adjust mm' = None /\
    astep base top (abs mm) op ret (abs mm').
Proof.
  intros Hwf Hc Hop. destruct op as [n z al c sf af|n z al c lo hi sf af|n s z c|n]; simpl in Hop.
  - destruct Hop as (Hf & Hz & Ha).
    destruct (insert_generic_core Hwf n z al c sf af) as [(E & Hno)|(mm' & s & E & Hi)];
      try done; [by apply color_shrinks_none| |].
    + exists (- ENOSPC), mm. split_and!; try done. constructor. intros s Hs.
      rewrite (abs_free _ _ _ _ _ Hwf). by eapply no_fit_no_place.
    + destruct Hi as (Hwf' & Hal & Hfree & Habs & _ & Hc').
      exists 0, mm'. split_and!; try done; [congruence|]. rewrite Habs.
      constructor; [done|]. by apply (abs_free _ _ _ _ _ Hwf).
  - destruct Hop as (Hf & Hz & Ha & Hlo & Hhi & Hno).
    destruct (insert_range_core Hwf n z al c lo hi sf af)
      as [(E & Hfull)|(mm' & s & E & H1 & H2 & Hi)]; try done.
    + exists (- ENOSPC), mm. split_and!; try done. constructor. intros s Hs ??.
      rewrite (abs_free _ _ _ _ _ Hwf). by eapply no_fit_no_place_range.
    + destruct Hi as (Hwf' & Hal & Hfree & Habs & _ & Hc').
      exists 0, mm'. split_and!; try done; [congruence|]. rewrite Habs.
      constructor; [done..|]. by apply (abs_free _ _ _ _ _ Hwf).
  - destruct Hop as (Hf & Hs & Hz & Ho). simpl.
    destruct (request_wf base top mm n s z c Hwf (fresh_off _ _ Hf)) as [Hwf1 Habs1].
    set (mm1 := upd n (set_request s z c) mm) in *.
    assert (Hn1 : nd mm1 n = set_request s z c (nd mm n)) by apply nd_upd_eq.
    assert (Hf1 : fresh mm1 n) by (split; rewrite ?Hn1; apply Hf).
    pose proof (reserve_core Hwf1 n Hf1) as Hr. rewrite Hn1 in Hr. simpl in Hr.
    destruct (Hr Hs Hz Ho) as [(E & Hno)|(mm' & E & Hfree & Hi)].
    + exists (- ENOSPC), mm1. rewrite E. split_and!; try done. rewrite Habs1. constructor.
      by rewrite <- Habs1, (abs_free _ _ _ _ _ Hwf1).
    + destruct Hi as (Hwf' & _ & _ & Habs & _ & Hc').
      exists 0, mm'. rewrite E. split_and!; try done; [by rewrite Hc'|]. rewrite Habs, Habs1.
      constructor. by rewrite <- Habs1, (abs_free _ _ _ _ _ Hwf1).
  - destruct (remove_core Hwf n Hop) as (mm' & E & Hwf' & Habs & _ & Hc' & _).
    exists 0, mm'. simpl. rewrite E. split_and!; try done; [congruence|]. rewrite Habs. constructor.
Qed.

(** ** The dump functions *)

Lemma debug_hole_size base top mm a A B :
  wf base top mm -> ring mm = A ++ a :: B ->
  exists hl, drm_mm_debug_hole mm a =
    Ok (hl, first_start (heap mm) B top - node_end (nd mm a)).
Proof.
  intros Hwf E. assert (Hin : a ∈ ring mm) by (rewrite E; set_solver).
  assert (HaA : a ∉ A).
  { pose proof (wf_nodup _ _ _ Hwf) as Hn. rewrite E, NoDup_app in Hn. set_solver. }
  pose proof (wf_tiled _ _ _ Hwf) as Ht. rewrite E in Ht.
  apply tiled_app in Ht as [_ (H1 & H2 & _)]. fold (nd mm a) in *.
  unfold drm_mm_debug_hole. destruct (hole_follows (nd mm a)) eqn:Ef.
  - pose proof (hole_bounds_ok Hwf a Hin Ef) as Hb. unfold hole_bounds in Hb. simpl in Hb.
    rewrite (next_start Hwf A a B) in Hb by done.
    rewrite hole_node_start_checked, hole_node_end_checked, hole_node_start_law,
      hole_node_end_law, (next_start Hwf A a B) by done.
    pose proof (wf_base _ _ _ Hwf). pose proof (wf_top _ _ _ Hwf).
    eexists. cbn [mbind outcome_bind]. fold (node_end (nd mm a)).
    rewrite (ul_small (_ - _)) by (unfold is_ul; lia). reflexivity.
  - exists []. symmetry in H2. apply Z.ltb_ge in H2.
    replace (first_start (heap mm) B top - node_end (nd mm a)) with 0 by lia. done.
Qed.

Definition sum_sizes (mm : drm_mm) (l : list node_id) : Z :=
  foldr (fun n k => nsize (nd mm n) + k) 0 l.

Lemma debug_loop_totals base top mm A l u f :
  wf base top mm -> ring mm = A ++ l -> A <> [] ->
  0 <= u -> 0 <= f -> u + f + (top - first_start (heap mm) l top) < 2 ^ 64 ->
  exists ls, debug_loop mm l u f =
    Ok (ls, u + sum_sizes mm l, f + (top - first_start (heap mm) l top) - sum_sizes mm l).
Proof.
  intros Hwf. revert A u f. induction l as [|a l IH]; intros A u f E HA Hu Hf Hb; simpl.
  { exists []. do 2 f_equal; [f_equal|]; lia. }
  assert (Hat : a ∈ tail (ring mm)) by (rewrite E; destruct A; [done|set_solver]).
  pose proof (node_ok_end _ (node_ok_of Hwf a Hat)) as [Ee Hlt].
  destruct (node_ok_of Hwf a Hat) as (H1 & H2 & H3 & _).
  destruct (debug_hole_size base top mm a A l Hwf E) as [hl Eh].
  pose proof (wf_tiled _ _ _ Hwf) as Ht. rewrite E in Ht.
  apply tiled_app in Ht as [_ (Ht1 & _ & Ht)]. fold (nd mm a) in *. simpl in Hb. fold (nd mm a) in Hb.
  assert (Hok' : Forall (fun n => node_ok (nd mm n)) l).
  { pose proof (wf_nodes _ _ _ Hwf) as Hx. rewrite E in Hx. destruct A; [done|]. simpl in Hx.
    apply Forall_app in Hx as [_ Hx]. by apply Forall_cons in Hx as []. }
  pose proof (tiled_stop _ _ _ Ht Hok') as Hst. rewrite Eh. cbn [mbind outcome_bind].
  rewrite (ul_small (u + _)), (ul_small (f + _)) by (unfold is_ul; lia).
  destruct (IH (A ++ [a]) (u + nsize (nd mm a))
    (f + (first_start (heap mm) l top - node_end (nd mm a)))) as [ls Els].
  - by rewrite <- app_assoc.
  - by destruct A.
  - lia.
  - lia.
  - lia.
  - rewrite Els. cbn [mbind outcome_bind]. eexists. do 2 f_equal; [f_equal|]; lia.
Qed.

(** On a well-formed allocator [drm_mm_debug_table] runs to its end and its
    last line reports the whole managed range as the total, the sizes of the
    allocated nodes as used and the rest as free. *)
Theorem drm_mm_debug_table_totals base top mm :
  wf base top mm ->
  exists lines, drm_mm_debug_table mm =
    Ok (lines ++ [TotalLine (top - base) (sum_sizes mm (tail (ring mm)))
                    (top - base - sum_sizes mm (tail (ring mm)))]).
Proof.
  intros Hwf. unfold drm_mm_debug_table.
  pose proof (wf_base _ _ _ Hwf). pose proof (wf_top _ _ _ Hwf).
  destruct (debug_hole_size base top mm HEAD [] (tail (ring mm)) Hwf (wf_ring_cons Hwf)) as [hl ->].
  cbn [mbind outcome_bind]. rewrite (wf_head_end _ _ _ Hwf).
  pose proof (wf_tiled _ _ _ Hwf) as Ht. rewrite (wf_ring_cons Hwf) in Ht.
  destruct Ht as (Ht1 & _ & Ht). fold (nd mm HEAD) in Ht1. rewrite (wf_head_end _ _ _ Hwf) in Ht1.
  pose proof (tiled_stop _ _ _ Ht (wf_nodes _ _ _ Hwf)) as Hst.
  rewrite ul_small by (unfold is_ul; lia).
  destruct (debug_loop_totals base top mm [HEAD] (tail (ring mm)) 0
    (0 + (first_start (heap mm) (tail (ring mm)) top - base))) as [ls ->];
    [done|apply (wf_ring_cons Hwf)|done|lia|lia|lia|].
  cbn [mbind outcome_bind]. exists (hl ++ ls). rewrite <- app_assoc. do 4 f_equal.
  rewrite ul_small by (unfold is_ul; lia). f_equal; lia.
Qed.

(** ** Reachable allocators *)

Inductive reachable (h : gmap node_id drm_mm_node) (start size : Z) : drm_mm -> Prop :=
| reach_init : reachable h start size (drm_mm_init h start size)
| reach_step mm op ret mm' :
    reachable h start size mm -> op_ok (start + size) mm op ->
    run mm op = Ok (ret, mm') -> reachable h start size mm'.

Lemma reachable_wf h start size mm :
  0 <= start -> 0 < size -> start + size + 2 ^ 32 <= 2 ^ 64 ->
  reachable h start size mm -> wf start (start + size) mm /\ color_adjust mm = None.
Proof.
  intros Hs Hz Ho. induction 1 as [|mm op ret mm' _ IH Hop Hrun].
  - split; [by apply init_wf|done].
  - destruct IH as [Hwf Hc]. destruct (run_refines _ _ _ _ Hwf Hc Hop) as (r & m & E & ? & ? & _).
    rewrite Hrun in E. by simplify_eq.
Qed.

(** C3: refinement.  Starting from [drm_mm_init], after any sequence of
    insertions (anywhere or in a range, bottom-up or top-down, first or best
    fit), reservations and removals that respect the callers' obligations, the
    next such operation never hits a [BUG_ON]; it changes the map from nodes to
    the ranges they hold exactly as the abstract allocator does: a request gets
    an aligned free place of its size or -ENOSPC, and -ENOSPC only when there
    is no such place. *)
Theorem drm_mm_refines h start size mm op :
  0 <= start -> 0 < size -> start + size + 2 ^ 32 <= 2 ^ 64 ->
  reachable h start size mm -> op_ok (start + size) mm op ->
  exists ret mm', run mm op = Ok (ret, mm') /\ reachable h start size mm' /\
    astep start (start + size) (abs mm) op ret (abs mm').
Proof.
  intros Hs Hz Ho Hr Hop. destruct (reachable_wf _ _ _ _ Hs Hz Ho Hr) as [Hwf Hc].
  destruct (run_refines _ _ _ _ Hwf Hc Hop) as (ret & mm' & E & _ & _ & Ha).
  exists ret, mm'. split_and!; [done|by eapply reach_step|done].
Qed.

(** Safety.  In a reachable allocator the ranges of distinct nodes are
    disjoint and lie in the managed range. *)
Theorem drm_mm_reachable_disjoint h start size mm :
  0 <= start -> 0 < size -> start + size + 2 ^ 32 <= 2 ^ 64 ->
  reachable h start size mm ->
  a_disjoint (abs mm) /\
  forall n s z, abs mm !! n = Some (s, z) -> start <= s /\ 0 < z /\ s + z <= start + size.
Proof.
  intros Hs Hz Ho Hr. destruct (reachable_wf _ _ _ _ Hs Hz Ho Hr) as [Hwf _].
  split; [by eapply wf_disjoint|]. intros n s z E. rewrite (abs_lookup _ _ _ _ Hwf) in E.
  case_decide as Hin; simplify_eq. pose proof (node_ok_of Hwf n Hin) as Hn.
  pose proof (node_ok_end _ Hn) as [Ee _]. destruct Hn as (? & ? & ? & _).
  pose proof (wf_tiled _ _ _ Hwf) as Ht. pose proof (wf_nodes _ _ _ Hwf) as Hns.
  rewrite (wf_ring_cons Hwf) in Ht. pose proof (tiled_before _ _ _ _ _ Ht Hns Hin) as Hb.
  fold (nd mm HEAD) (nd mm n) in Hb. rewrite (wf_head_end _ _ _ Hwf) in Hb.
  apply list_elem_of_split in Hin as (A & B & E).
  destruct Ht as (_ & _ & Ht). rewrite E in Ht, Hns. apply tiled_app in Ht as [_ (Ht1 & _ & Ht)].
  apply Forall_app in Hns as [_ [_ Hns]%Forall_cons].
  pose proof (tiled_stop _ _ _ Ht Hns). fold (nd mm n) in Ht1. lia.
Qed.

(** With a driver's [color_adjust] that only shrinks holes, an insertion
    never hits a [BUG_ON]; it either reports -ENOSPC and changes nothing, or
    puts the node with its size and colour at an aligned place that no other
    node meets, and keeps the invariant. *)
Theorem drm_mm_insert_colored base top mm node size alignment color sflags aflags :
  wf base top mm -> color_shrinks mm -> fresh mm node -> 0 < size -> is_u32 alignment ->
  drm_mm_insert_node_generic mm node size alignment color sflags aflags = Ok (- ENOSPC, mm) \/
  exists mm' s,
    drm_mm_insert_node_generic mm node size alignment color sflags aflags = Ok (0, mm') /\
    wf base top mm' /\ aligned s alignment /\ free_range base top mm s size /\
    abs mm' = <[node := (s, size)]> (abs mm) /\ ncolor (nd mm' node) = color.
Proof.
  intros Hwf Hc Hf Hz Ha.
  destruct (insert_generic_core Hwf node size alignment color sflags aflags)
    as [(E & _)|(mm' & s & E & Hi)]; try done; [by left|right].
  destruct Hi as (? & ? & ? & ? & ? & _). by exists mm', s.
Qed.

(** Best fit.  With [DRM_MM_SEARCH_BEST] and no colouring the search
    returns a hole that can take the request, none when there is none, and
    every other hole that can take it is at least as big. *)
Theorem drm_mm_search_best_fit base top mm size alignment color flags :
  wf base top mm -> color_adjust mm = None -> 0 < size -> is_u32 alignment ->
  truth (Z.land flags DRM_MM_SEARCH_BEST) = true ->
  let takes e := e ∈ hole_stack mm /\
    align_up (fst (hole_bounds mm e)) alignment + size <= snd (hole_bounds mm e) in
  let width e := snd (hole_bounds mm e) - fst (hole_bounds mm e) in
  exists r, drm_mm_search_free_generic mm size alignment color flags = Ok r /\
    match r with
    | Some e => takes e /\ forall e', takes e' -> width e <= width e'
    | None => forall e', ~ takes e'
    end.
Proof.
  intros Hwf Hc Hz Ha Hbest takes width. unfold drm_mm_search_free_generic.
  rewrite (wf_noscan _ _ _ Hwf). cbn [truth Z.eqb negb BUG_ON mbind outcome_bind].
  set (b := truth (Z.land flags DRM_MM_SEARCH_BELOW)).
  assert (Htk : forall e, takes e -> exists hs he, hole_bounds mm e = (hs, he) /\
    (e, hs, he) ∈ __drm_mm_for_each_hole mm b /\
    fits mm size alignment color (fun r => r) (e, hs, he) = true /\
    hole_size_of (e, hs, he) = width e /\ width e < ULONG_MAX).
  { intros e [Hin Hfit]. apply (stack_hole Hwf) in Hin as [Hin Hhf].
    pose proof (hole_bounds_ok Hwf e Hin Hhf) as Hb.
    pose proof (wf_base _ _ _ Hwf). pose proof (wf_top _ _ _ Hwf).
    unfold width. destruct (hole_bounds mm e) as [hs he] eqn:Eb. exists hs, he. simpl in *.
    split_and!; [done|by apply (for_each_elem Hwf)| | |change ULONG_MAX with (2 ^ 64 - 1); lia].
    - pose proof (fits_exact Hwf size alignment color e hs he Hin Hhf Eb Hc Hz Ha) as Hx.
      unfold fits in Hx. simpl in Hx. rewrite Hx. by apply Z.leb_le.
    - apply ul_small. unfold is_ul. lia. }
  eexists. split; [reflexivity|].
  pose proof (search_loop_spec mm size alignment color flags (fun r => r)
    (__drm_mm_for_each_hole mm b) None ULONG_MAX) as Hs. cbv zeta in Hs.
  destruct Hs as [(-> & Hnone)|(e & s & t & Hin & Hf & -> & Hmin)].
  - intros e He. destruct (Htk e He) as (hs & he & _ & Hin & Hf & Hsz & Hlt).
    destruct (Hnone _ Hin Hf) as [_ Hle]. lia.
  - destruct (Hmin Hbest) as [_ Hm]. pose proof Hin as Hin0.
    apply (for_each_elem Hwf) in Hin as (H1 & H2 & H3).
    assert (He : takes e).
    { split; [by apply (stack_hole Hwf)|].
      rewrite (fits_exact Hwf size alignment color e s t) in Hf by done.
      rewrite H3. by apply Z.leb_le. }
    split; [done|]. intros e' He'.
    destruct (Htk e He) as (hs & he & Eb & _ & _ & Hsz & _). rewrite H3 in Eb. simplify_eq.
    destruct (Htk e' He') as (hs' & he' & _ & Hin' & Hf' & Hsz' & _).
    rewrite <- Hsz, <- Hsz'. by apply Hm.
Qed.

(** ** The LRU scan *)

Lemma wf_sorted base top mm :
  wf base top mm -> StronglySorted (before mm) (tail (ring mm)).
Proof.
  intros Hwf. pose proof (wf_tiled _ _ _ Hwf) as Ht. rewrite (wf_ring_cons Hwf) in Ht.
  destruct Ht as (_ & _ & Ht). pose proof (wf_nodes _ _ _ Hwf) as Hns.
  induction (tail (ring mm)) as [|a l IH]; constructor.
  - destruct Ht as (_ & _ & Ht). apply IH; [done|]. by apply Forall_cons in Hns as [].
  - apply Forall_forall. intros x Hx. apply Forall_cons in Hns as [Ha Hns].
    pose proof (tiled_before _ _ _ _ _ Ht Hns Hx) as Hb.
    destruct (node_ok_end _ Ha) as [Ee _]. unfold before, nd in *. lia.
Qed.

Lemma wf_scannable base top mm l size al c :
  wf base top mm -> NoDup l -> (forall x, x ∈ l -> x ∈ dom (abs mm)) ->
  scannable (drm_mm_init_scan mm size al c) l.
Proof.
  intros Hwf Hnd Hl. set (m := drm_mm_init_scan mm size al c).
  assert (En : forall x, nd m x = nd mm x) by done.
  pose proof (wf_base _ _ _ Hwf). pose proof (wf_top _ _ _ Hwf).
  split.
  - apply Hwf.
  - apply Hwf.
  - unfold is_u32. simpl. lia.
  - rewrite !En, (wf_head_end _ _ _ Hwf), (wf_head_start _ _ _ Hwf). lia.
  - exact (wf_sorted base top mm Hwf).
  - apply Forall_forall. intros x Hx. change (x ∈ tail (ring mm)) in Hx.
    pose proof (node_ok_of Hwf x Hx) as Hn. pose proof (node_ok_end _ Hn) as [Ee _].
    destruct Hn as (? & ? & ? & _). pose proof (wf_tiled _ _ _ Hwf) as Ht.
    rewrite (wf_ring_cons Hwf) in Ht. pose proof (wf_nodes _ _ _ Hwf) as Hns.
    pose proof (tiled_before _ _ _ _ _ Ht Hns Hx) as Hb.
    destruct Ht as (_ & _ & Ht). apply list_elem_of_split in Hx as (A & B & E).
    rewrite E in Ht, Hns. apply tiled_app in Ht as [_ (Ht1 & _ & Ht)].
    apply Forall_app in Hns as [_ [_ Hns]%Forall_cons].
    pose proof (tiled_stop _ _ _ Ht Hns). unfold sane, before. rewrite !En.
    rewrite (wf_head_start _ _ _ Hwf). unfold nd in *. split_and!; lia.
  - apply Forall_forall. intros x Hx. specialize (Hl x Hx). apply elem_of_dom in Hl as [r Hr].
    rewrite (abs_lookup _ _ _ _ Hwf) in Hr. case_decide as Hin; [|done]. split; [done|].
    apply (node_ok_of Hwf x Hin).
  - done.
Qed.

Lemma scan_eq_wf base top mm mm' :
  scan_eq mm mm' -> wf base top mm -> wf base top mm' /\ abs mm' = abs mm.
Proof.
  intros Hq Hwf. pose proof (se_ring _ _ Hq) as Er.
  assert (Hsh : forall x, nstart (nd mm' x) = nstart (nd mm x) /\ nsize (nd mm' x) = nsize (nd mm x)).
  { intros x. by destruct (se_nd _ _ Hq x). }
  split.
  - split; rewrite <- ?Er; try apply Hwf.
    + destruct (Hsh HEAD) as [-> _]. apply Hwf.
    + unfold node_end. destruct (Hsh HEAD) as [-> ->]. apply Hwf.
    + apply Forall_forall. intros x Hx. pose proof (node_ok_of Hwf x Hx) as Hn. unfold node_ok in *.
      destruct (se_nd _ _ Hq x) as [<- <- _ _ <- <- <- <- _]. done.
    + eapply tiled_frame; [|apply Hwf]. intros a _. by destruct (se_nd _ _ Hq a).
    + rewrite <- (se_stack _ _ Hq), (wf_stack _ _ _ Hwf).
      erewrite list_filter_iff_local; [done|]. intros x _. simpl. by destruct (se_nd _ _ Hq x) as [_ _ _ <- _ _ _ _ _].
    + rewrite <- (se_blocks _ _ Hq). apply Hwf.
  - unfold abs. rewrite <- Er. f_equal. apply list_fmap_ext. intros _ x _.
    by destruct (Hsh x) as [-> ->].
Qed.

Lemma init_scan_wf base top mm size al c :
  wf base top mm -> wf base top (drm_mm_init_scan mm size al c) /\
  abs (drm_mm_init_scan mm size al c) = abs mm.
Proof. intros Hwf. split; [|done]. by destruct Hwf; split. Qed.

(** Removes the nodes one after the other. *)
Fixpoint evict_all (mm : drm_mm) (l : list node_id) : outcome drm_mm :=
  match l with
  | [] => Ok mm
  | n :: l' => mm' ← drm_mm_remove_node mm n; evict_all mm' l'
  end.

Lemma evict_all_ok base top mm l :
  wf base top mm -> NoDup l -> (forall x, x ∈ l -> x ∈ dom (abs mm)) ->
  exists mm', evict_all mm l = Ok mm' /\ wf base top mm' /\ color_adjust mm' = color_adjust mm /\
    (forall x, abs mm' !! x = if decide (x ∈ l) then None else abs mm !! x) /\
    forall x, x ∉ l -> fresh mm x -> fresh mm' x.
Proof.
  revert mm. induction l as [|n l IH]; intros mm Hwf Hnd Hl; simpl.
  { exists mm. split_and!; try done. }
  apply NoDup_cons in Hnd as [Hn Hnd].
  destruct (remove_core Hwf n) as (m1 & E & Hwf1 & Ha & Hf & Hc & Hfr); [apply Hl; set_solver|].
  rewrite E. cbn [mbind outcome_bind].
  destruct (IH m1 Hwf1 Hnd) as (m2 & E2 & Hwf2 & Hc2 & Ha2 & Hfr2).
  { intros x Hx. rewrite Ha, dom_delete_L. set_solver. }
  exists m2. split_and!; try done; [congruence| |].
  - intros x. rewrite Ha2, Ha. destruct (decide (x = n)) as [->|].
    + rewrite lookup_delete_eq. repeat case_decide; set_solver.
    + rewrite lookup_delete_ne by done. repeat case_decide; set_solver.
  - intros x Hx Hfx. apply Hfr2; [set_solver|]. apply Hfr; [set_solver|done].
Qed.

(** The scan is transparent.  Adding any distinct allocated nodes to the
    scan list and then taking them off in reverse order never hits a [BUG_ON]
    and restores the allocator: same ring, same hole stack, same flags and
    ranges of every node, no node left marked. *)
Theorem drm_mm_scan_restores base top mm l size alignment color :
  wf base top mm -> NoDup l -> (forall x, x ∈ l -> x ∈ dom (abs mm)) ->
  let mm0 := drm_mm_init_scan mm size alignment color in
  exists hit mm1 ev mm2,
    scan_add_all mm0 l false = Ok (hit, mm1) /\
    scan_remove_all mm1 (reverse l) = Ok (ev, mm2) /\
    scan_eq mm0 mm2 /\ wf base top mm2 /\ abs mm2 = abs mm.
Proof.
  intros Hwf Hnd Hl mm0. destruct (init_scan_wf base top mm size alignment color Hwf) as [Hw0 Ha0].
  destruct (scan_passes mm0 l false) as (b & mm1 & ev & mm2 & E1 & E2 & Hq & _);
    [by eapply wf_scannable|].
  destruct (scan_eq_wf base top mm0 mm2 Hq Hw0) as [Hw2 Ha2].
  exists b, mm1, ev, mm2. by split_and!.
Qed.

(** A scan that reports a hit makes room.  When the last addition answers
    true, the nodes that the second pass selects can be removed, and then an
    insertion of the scanned size and alignment succeeds. *)
Theorem drm_mm_scan_makes_room base top mm l size alignment color mm1 node sflags aflags :
  wf base top mm -> color_adjust mm = None -> NoDup l -> l <> [] ->
  (forall x, x ∈ l -> x ∈ dom (abs mm)) -> 0 < size -> is_u32 alignment ->
  fresh mm node ->
  scan_add_all (drm_mm_init_scan mm size alignment color) l false = Ok (true, mm1) ->
  exists ev mm2 mm3 mm4,
    scan_remove_all mm1 (reverse l) = Ok (ev, mm2) /\ evict_all mm2 ev = Ok mm3 /\
    drm_mm_insert_node_generic mm3 node size alignment color sflags aflags = Ok (0, mm4).
Proof.
  intros Hwf Hc Hnd Hne Hl Hz Ha Hf Hadd. set (mm0 := drm_mm_init_scan mm size alignment color) in *.
  destruct (init_scan_wf base top mm size alignment color Hwf) as [Hw0 Ha0]. fold mm0 in Hw0, Ha0.
  assert (Hs : scannable mm0 l) by (by eapply wf_scannable).
  destruct (scan_passes mm0 l false Hs)
    as (b & mm1' & ev & mm2 & E1 & E2 & Hq & _ & _ & Hnde & Hsub & Hsel).
  rewrite Hadd in E1. simplify_eq.
  destruct (scan_hit_free mm0 l false mm1' Hs Hne Hc eq_refl Hadd) as (Hb1 & Hb2 & Hck & Hfree).
  destruct (scan_eq_wf base top mm0 mm2 Hq Hw0) as [Hw2 Ha2].
  destruct (evict_all_ok base top mm2 ev Hw2 Hnde) as (mm3 & E3 & Hw3 & Hc3 & Ha3 & Hf3).
  { intros x Hx. rewrite Ha2, Ha0. auto. }
  exists ev, mm2, mm3.
  rewrite (wf_head_end _ _ _ Hw0) in Hb1. rewrite (wf_head_start _ _ _ Hw0) in Hb2.
  pose proof (wf_base _ _ _ Hwf). pose proof (wf_top _ _ _ Hwf).
  change (scan_size mm0) with size in Hck. change (scan_alignment mm0) with alignment in Hck.
  rewrite check_free_hole_fits in Hck by (unfold is_ul, is_u32 in *; lia). apply Z.leb_le in Hck.
  pose proof (align_up_bounds (scan_hit_start mm1') alignment) as Hau.
  set (s := align_up (scan_hit_start mm1') alignment) in *.
  assert (Hfr : free_range base top mm3 s size).
  { apply (abs_free _ _ _ _ _ Hw3). unfold is_u32 in Ha. split_and!; [lia|lia|].
    intros n s' z' En. rewrite Ha3 in En. case_decide as Hev; [done|]. rewrite Ha2 in En.
    rewrite (abs_lookup _ _ _ _ Hw0) in En. case_decide as Hin; simplify_eq.
    destruct (decide (n ∈ l)) as [Hnl|Hnl].
    - destruct (Z.lt_ge_cases (nstart (nd mm0 n)) (scan_hit_end mm1')); [|lia].
      destruct (Z.lt_ge_cases (scan_hit_start mm1') (nstart (nd mm0 n) + nsize (nd mm0 n))); [|lia].
      exfalso. by apply Hev, Hsel.
    - destruct (Hfree n Hin Hnl); lia. }
  assert (Hfn : fresh mm3 node).
  { assert (node ∉ ev) as Hnev.
    { intros Hx%Hsub%Hl. apply (fresh_off _ _ Hf). apply elem_of_dom in Hx as [r Hr].
      rewrite (abs_lookup _ _ _ _ Hwf) in Hr. case_decide; [|done].
      rewrite (wf_ring_cons Hwf). set_solver. }
    apply Hf3; [done|]. destruct (se_nd _ _ Hq node).
    destruct Hf as [F1 F2 F3 F4 F5]. change (nd mm0 node) with (nd mm node) in *.
    split; [rewrite <- (se_ring _ _ Hq); done|congruence..]. }
  assert (Hcol : color_adjust mm3 = None) by (rewrite Hc3, <- (se_color _ _ Hq); done).
  destruct (insert_generic_core Hw3 node size alignment color sflags aflags)
    as [(E & Hno)|(mm4 & s4 & E & _)]; try done; [by apply color_shrinks_none| |by exists mm4].
  exfalso. eapply (no_fit_no_place base top mm3 size alignment color); try done.
  apply align_up_aligned.
Qed.

(** ** drm_mm_clean *)

(** [drm_mm_clean] answers true exactly when at most one node is allocated;
    its comment promises true only for an allocator that is completely free. *)
Theorem drm_mm_clean_at_most_one base top mm :
  wf base top mm ->
  drm_mm_clean mm = bool_decide (length (tail (ring mm)) <= 1)%nat.
Proof.
  intros Hwf. unfold drm_mm_clean, next_of. apply bool_decide_ext.
  pose proof (wf_nodup _ _ _ Hwf) as Hnd. pose proof (wf_head_notin Hwf) as Hh.
  rewrite (wf_ring_cons Hwf). cbn [tail].
  assert (Hfirst : forall l, list_succ HEAD HEAD (HEAD :: l) = default HEAD (head l)) by done.
  assert (Hsecond : forall a l, a <> HEAD -> list_succ HEAD a (HEAD :: a :: l) = default HEAD (head l)).
  { intros a l Ha. apply (list_succ_mid HEAD a [HEAD]). by intros ?%list_elem_of_singleton. }
  rewrite Hfirst. destruct (tail (ring mm)) as [|a l]; cbn [default from_option head].
  - split; [simpl; lia|done].
  - rewrite Hsecond by (intros ->; apply Hh; left).
    destruct l as [|b l]; simpl; (split; [|lia]); [done|].
    intros ->. exfalso. apply Hh. right. left.
Qed.
End props.

(** ** Concrete instances *)

Definition mm_sample : drm_mm := drm_mm_init ∅ 0 4096.

Lemma mm_sample_wf : wf 0 4096 mm_sample.
Proof. apply (init_wf ∅ 0 4096); lia. Qed.

Lemma mm_sample_fresh : fresh mm_sample 1%nat.
Proof. split; try done. change (1%nat ∉ [HEAD]). by intros ?%list_elem_of_singleton. Qed.

(** [mm_sample] with node 1 allocated at its start. *)
Definition mm_sample1 : drm_mm :=
  carved mm_sample HEAD 1%nat (placed mm_sample 1%nat 0 64 0 true) true true.

Lemma mm_sample1_run (H := drm_mm_h_sample) :
  run mm_sample (OpInsert 1%nat 64 16 0 0 0) = Ok (0, mm_sample1).
Proof. vm_compute. reflexivity. Qed.

Lemma mm_sample1_reachable (H := drm_mm_h_sample) : reachable ∅ 0 4096 mm_sample1.
Proof.
  eapply reach_step; [apply reach_init| |exact mm_sample1_run].
  simpl. split_and!; [apply mm_sample_fresh|lia|unfold is_u32; lia].
Qed.

Lemma mm_sample1_wf : wf 0 4096 mm_sample1.
Proof.
  pose proof drm_mm_h_sample_ok.
  apply (reachable_wf (H := drm_mm_h_sample) ∅ 0 4096); [lia..|exact mm_sample1_reachable].
Qed.

Lemma drm_mm_refines_witness (H := drm_mm_h_sample) :
  exists ret mm', run mm_sample (OpInsert 1%nat 64 16 0 0 0) = Ok (ret, mm') /\
    reachable ∅ 0 4096 mm' /\
    astep 0 4096 (abs mm_sample) (OpInsert 1%nat 64 16 0 0 0) ret (abs mm').
Proof.
  apply (drm_mm_refines (Hok := drm_mm_h_sample_ok) ∅ 0 4096 mm_sample); try lia.
  - apply reach_init.
  - simpl. split_and!; [apply mm_sample_fresh|lia|unfold is_u32; lia].
Defined.

Lemma drm_mm_reachable_disjoint_witness (H := drm_mm_h_sample) :
  a_disjoint (abs mm_sample1) /\
  forall n s z, abs mm_sample1 !! n = Some (s, z) -> 0 <= s /\ 0 < z /\ s + z <= 0 + 4096.
Proof.
  apply (drm_mm_reachable_disjoint (Hok := drm_mm_h_sample_ok) ∅ 0 4096); try lia.
  exact mm_sample1_reachable.
Defined.

Lemma drm_mm_insert_colored_witness (H := drm_mm_h_sample) :
  drm_mm_insert_node_generic mm_sample 1%nat 64 16 0 0 0 = Ok (- ENOSPC, mm_sample) \/
  exists mm' s,
    drm_mm_insert_node_generic mm_sample 1%nat 64 16 0 0 0 = Ok (0, mm') /\
    wf 0 4096 mm' /\ aligned s 16 /\ free_range 0 4096 mm_sample s 64 /\
    abs mm' = <[1%nat := (s, 64)]> (abs mm_sample) /\ ncolor (nd mm' 1%nat) = 0.
Proof.
  apply (drm_mm_insert_colored (Hok := drm_mm_h_sample_ok)).
  - exact mm_sample_wf.
  - by apply color_shrinks_none.
  - exact mm_sample_fresh.
  - lia.
  - unfold is_u32; lia.
Defined.

Lemma drm_mm_search_best_fit_witness (H := drm_mm_h_sample) :
  exists r, drm_mm_search_free_generic mm_sample1 128 16 0 1 = Ok r /\
    match r with
    | Some e => (e ∈ hole_stack mm_sample1 /\
        align_up (fst (hole_bounds mm_sample1 e)) 16 + 128 <= snd (hole_bounds mm_sample1 e)) /\
        forall e', (e' ∈ hole_stack mm_sample1 /\
          align_up (fst (hole_bounds mm_sample1 e')) 16 + 128 <= snd (hole_bounds mm_sample1 e')) ->
        snd (hole_bounds mm_sample1 e) - fst (hole_bounds mm_sample1 e) <=
        snd (hole_bounds mm_sample1 e') - fst (hole_bounds mm_sample1 e')
    | None => forall e', ~ (e' ∈ hole_stack mm_sample1 /\
        align_up (fst (hole_bounds mm_sample1 e')) 16 + 128 <= snd (hole_bounds mm_sample1 e'))
    end.
Proof.
  apply (drm_mm_search_best_fit (Hok := drm_mm_h_sample_ok) 0 4096 mm_sample1 128 16 0 1).
  - exact mm_sample1_wf.
  - reflexivity.
  - lia.
  - unfold is_u32; lia.
  - reflexivity.
Defined.

Lemma mm_sample1_fresh : fresh mm_sample1 2%nat.
Proof.
  split; try done. change (2%nat ∉ [HEAD; 1%nat]).
  by intros [?|?%list_elem_of_singleton]%elem_of_cons.
Qed.

Lemma sample1_dom x : x ∈ [1%nat] -> x ∈ dom (abs mm_sample1).
Proof. intros ->%list_elem_of_singleton. apply elem_of_dom. vm_compute. eauto. Qed.

Lemma drm_mm_scan_restores_witness (H := drm_mm_h_sample) :
  let mm0 := drm_mm_init_scan mm_sample1 4000 0 0 in
  exists hit mm1 ev mm2,
    scan_add_all mm0 [1%nat] false = Ok (hit, mm1) /\
    scan_remove_all mm1 (reverse [1%nat]) = Ok (ev, mm2) /\
    scan_eq mm0 mm2 /\ wf 0 4096 mm2 /\ abs mm2 = abs mm_sample1.
Proof.
  apply (drm_mm_scan_restores (Hok := drm_mm_h_sample_ok) 0 4096 mm_sample1 [1%nat]).
  - exact mm_sample1_wf.
  - apply NoDup_singleton.
  - exact sample1_dom.
Defined.

Definition mm_scanned : drm_mm :=
  match scan_add_all (H := drm_mm_h_sample) (drm_mm_init_scan mm_sample1 4090 0 0) [1%nat] false with
  | Ok (_, mm1) => mm1
  | Bug => mm_sample1
  end.

Lemma drm_mm_scan_makes_room_witness (H := drm_mm_h_sample) :
  scan_add_all (drm_mm_init_scan mm_sample1 4090 0 0) [1%nat] false = Ok (true, mm_scanned) /\
  exists ev mm2 mm3 mm4,
    scan_remove_all mm_scanned (reverse [1%nat]) = Ok (ev, mm2) /\ evict_all mm2 ev = Ok mm3 /\
    drm_mm_insert_node_generic mm3 2%nat 4090 0 0 0 0 = Ok (0, mm4).
Proof.
  split; [vm_compute; reflexivity|].
  apply (drm_mm_scan_makes_room (Hok := drm_mm_h_sample_ok) 0 4096 mm_sample1 [1%nat]).
  - exact mm_sample1_wf.
  - reflexivity.
  - apply NoDup_singleton.
  - done.
  - exact sample1_dom.
  - lia.
  - unfold is_u32; lia.
  - exact mm_sample1_fresh.
  - vm_compute; reflexivity.
Defined.

Lemma drm_mm_debug_table_totals_witness (H := drm_mm_h_sample) :
  exists lines, drm_mm_debug_table mm_sample1 =
    Ok (lines ++ [TotalLine (4096 - 0) (sum_sizes mm_sample1 (tail (ring mm_sample1)))
                    (4096 - 0 - sum_sizes mm_sample1 (tail (ring mm_sample1)))]).
Proof.
  apply (drm_mm_debug_table_totals (Hok := drm_mm_h_sample_ok) 0 4096). exact mm_sample1_wf.
Defined.

(** One node is allocated, and yet the allocator counts as clean. *)
Lemma drm_mm_clean_at_most_one_witness :
  drm_mm_clean mm_sample1 = bool_decide (length (tail (ring mm_sample1)) <= 1)%nat /\
  drm_mm_clean mm_sample1 = true /\ 1%nat ∈ dom (abs mm_sample1).
Proof.
  split; [|split].
  - apply (drm_mm_clean_at_most_one 0 4096). exact mm_sample1_wf.
  - vm_compute. reflexivity.
  - apply sample1_dom. set_solver.
Defined.

(** ** Colouring and top-down insertion into a range *)

Definition mm_colored : drm_mm :=
  mk_mm (heap mm_sample) (ring mm_sample) (hole_stack mm_sample)
    (Some (fun _ _ _ _ r => (fst r, snd r - 10))) 0 0 0 0 0 0 0 0 false None.

Definition ret_code (o : outcome (Z * drm_mm)) : option Z :=
  match o with Ok (ret, _) => Some ret | Bug => None end.

(** [drm_mm_insert_helper_range] applies [color_adjust] after it has
    computed the start of a top-down placement, so a callback that shrinks the
    end of a hole makes it hit its [BUG_ON]; the search finds the hole, and the
    same request without a range succeeds. *)
Theorem insert_range_top_color_bug (H := drm_mm_h_sample) :
  wf 0 4096 mm_colored /\ color_shrinks mm_colored /\ fresh mm_colored 1%nat /\
  drm_mm_search_free_in_range_generic mm_colored 64 0 0 0 4096 0 = Ok (Some HEAD) /\
  drm_mm_insert_node_in_range_generic mm_colored 1%nat 64 0 0 0 4096 0 DRM_MM_CREATE_TOP = Bug /\
  ret_code (drm_mm_insert_node_generic mm_colored 1%nat 64 0 0 0 DRM_MM_CREATE_TOP) = Some 0.
Proof.
  split_and!.
  - destruct mm_sample_wf. by split.
  - intros n c s e. simpl. lia.
  - destruct mm_sample_fresh. by split.
  - vm_compute. reflexivity.
  - vm_compute. reflexivity.
  - vm_compute. reflexivity.
Qed.
