(* ===== verification/DpSideband.v ===== *)
(** * DisplayPort MST sideband messages (drm_dp_mst_topology.c)

    The byte-level half of the DisplayPort multi-stream topology manager: the
    two CRCs, the message header, the request encoder, the chunk reassembly
    and the reply and request parsers.

    A byte buffer is a [list Z].  An encoder that fills a buffer from its
    start with [buf[idx++] = ...] is the list of the bytes it stores, in
    order; [len] is its length.  The buffers that the receiver keeps between
    calls ([chunk] and [msg] of [struct drm_dp_sideband_msg_rx]) are lists of
    a fixed capacity, and a copy past their end is [Bug].  The constants and
    the array sizes of include/drm/drm_dp_helper.h and
    include/drm/drm_dp_mst_helper.h, which are not in the repository, are
    fields of the class [dp_h]. *)

From S2P Require Import Prelude.

(** ** Constants of the headers *)
Class dp_h := {
  DP_LINK_ADDRESS : Z;
  DP_CONNECTION_STATUS_NOTIFY : Z;
  DP_ENUM_PATH_RESOURCES : Z;
  DP_ALLOCATE_PAYLOAD : Z;
  DP_QUERY_PAYLOAD : Z;
  DP_RESOURCE_STATUS_NOTIFY : Z;
  DP_REMOTE_DPCD_READ : Z;
  DP_REMOTE_DPCD_WRITE : Z;
  DP_REMOTE_I2C_READ : Z;
  DP_REMOTE_I2C_WRITE : Z;
  (** capacity of [chunk] and [msg] in [struct drm_dp_sideband_msg_rx] *)
  rx_chunk_size : Z;
  rx_msg_size : Z;
}.

(** The request identifiers in a list, for the law that they are distinct
    seven-bit numbers. *)
Definition dp_request_ids `{dp_h} : list Z :=
  [DP_LINK_ADDRESS; DP_CONNECTION_STATUS_NOTIFY; DP_ENUM_PATH_RESOURCES;
   DP_ALLOCATE_PAYLOAD; DP_QUERY_PAYLOAD; DP_RESOURCE_STATUS_NOTIFY;
   DP_REMOTE_DPCD_READ; DP_REMOTE_DPCD_WRITE; DP_REMOTE_I2C_READ;
   DP_REMOTE_I2C_WRITE].

Class dp_h_ok `{dp_h} : Prop := {
  dp_ids_distinct : NoDup dp_request_ids;
  dp_ids_range : Forall (fun x => 0 <= x < 128) dp_request_ids;
  dp_chunk_size : 48 <= rx_chunk_size;
  dp_msg_size : 256 <= rx_msg_size;
}.

(** ** Byte buffers *)

(** [buf[i]] *)
Definition rd (buf : list Z) (i : Z) : Z := default 0 (buf !! Z.to_nat i).

(** [memcpy(dst, &buf[i], n)], as the bytes copied *)
Definition copy (buf : list Z) (i n : Z) : list Z :=
  (fun k => rd buf (i + k)) <$> seqZ 0 n.

(** [memcpy(&buf[off], bytes, length bytes)] on an array; the size of the
    copy is [n], which C converts to [size_t]: a negative one is huge. *)
Definition blit (buf : list Z) (off : Z) (bytes : list Z) : outcome (list Z) :=
  if (0 <=? off) && (off + Z.of_nat (length bytes) <=? Z.of_nat (length buf))
  then Ok (take (Z.to_nat off) buf ++ bytes ++
           drop (Z.to_nat off + length bytes) buf)
  else Bug.

(** ** The two CRCs *)

(** The first loop of [drm_dp_msg_header_crc4]; [n] is [number_of_bits]. *)
Fixpoint crc4_data_loop (n : nat) (data : list Z)
    (bitmask bitshift array_index remainder : Z) : Z :=
  match n with
  | O => remainder
  | S n =>
    let remainder := u8 (Z.shiftl remainder 1) in
    let remainder := Z.lor remainder
      (Z.shiftr (Z.land (rd data array_index) bitmask) bitshift) in
    let bitmask := Z.shiftr bitmask 1 in
    let bitshift := u8 (bitshift - 1) in
    let wrapped := bitmask =? 0 in
    let bitmask := if wrapped then 0x80 else bitmask in
    let bitshift := if wrapped then 7 else bitshift in
    let array_index := if wrapped then u8 (array_index + 1) else array_index in
    let remainder :=
      if Z.land remainder 0x10 =? 0x10 then Z.lxor remainder 0x13
      else remainder in
    crc4_data_loop n data bitmask bitshift array_index remainder
  end.

(** Its second loop, which shifts in four zero bits. *)
Fixpoint crc4_flush_loop (n : nat) (remainder : Z) : Z :=
  match n with
  | O => remainder
  | S n =>
    let remainder := u8 (Z.shiftl remainder 1) in
    let remainder :=
      if negb (Z.land remainder 0x10 =? 0) then Z.lxor remainder 0x13
      else remainder in
    crc4_flush_loop n remainder
  end.

Definition drm_dp_msg_header_crc4 (data : list Z) (num_nibbles : Z) : Z :=
  let number_of_bits := Z.to_nat (num_nibbles * 4) in
  let remainder := crc4_data_loop number_of_bits data 0x80 7 0 0 in
  crc4_flush_loop 4 remainder.

(** The loops of [drm_dp_msg_data_crc4]: an eight-bit CRC whose remainder is
    kept in a [u16]. *)
Fixpoint crc8_data_loop (n : nat) (data : list Z)
    (bitmask bitshift array_index remainder : Z) : Z :=
  match n with
  | O => remainder
  | S n =>
    let remainder := u16 (Z.shiftl remainder 1) in
    let remainder := Z.lor remainder
      (Z.shiftr (Z.land (rd data array_index) bitmask) bitshift) in
    let bitmask := Z.shiftr bitmask 1 in
    let bitshift := u8 (bitshift - 1) in
    let wrapped := bitmask =? 0 in
    let bitmask := if wrapped then 0x80 else bitmask in
    let bitshift := if wrapped then 7 else bitshift in
    let array_index := if wrapped then u8 (array_index + 1) else array_index in
    let remainder :=
      if Z.land remainder 0x100 =? 0x100 then Z.lxor remainder 0xd5
      else remainder in
    crc8_data_loop n data bitmask bitshift array_index remainder
  end.

Fixpoint crc8_flush_loop (n : nat) (remainder : Z) : Z :=
  match n with
  | O => remainder
  | S n =>
    let remainder := u16 (Z.shiftl remainder 1) in
    let remainder :=
      if negb (Z.land remainder 0x100 =? 0) then Z.lxor remainder 0xd5
      else remainder in
    crc8_flush_loop n remainder
  end.

Definition drm_dp_msg_data_crc4 (data : list Z) (number_of_bytes : Z) : Z :=
  let number_of_bits := Z.to_nat (number_of_bytes * 8) in
  let remainder := crc8_data_loop number_of_bits data 0x80 7 0 0 in
  Z.land (crc8_flush_loop 8 remainder) 0xff.

(** ** The message header *)

(** [struct drm_dp_sideband_msg_hdr]; [rad] holds the [lct / 2] bytes of the
    relative address that are in use. *)
Record drm_dp_sideband_msg_hdr := {
  hdr_lct : Z;
  hdr_lcr : Z;
  hdr_rad : list Z;
  hdr_broadcast : bool;
  hdr_path_msg : bool;
  hdr_msg_len : Z;
  hdr_somt : bool;
  hdr_eomt : bool;
  hdr_seqno : bool;
}.

(** [memset(&hdr, 0, sizeof(hdr))] *)
Definition zero_hdr : drm_dp_sideband_msg_hdr :=
  {| hdr_lct := 0; hdr_lcr := 0; hdr_rad := []; hdr_broadcast := false;
     hdr_path_msg := false; hdr_msg_len := 0; hdr_somt := false;
     hdr_eomt := false; hdr_seqno := false |}.

Definition drm_dp_calc_sb_hdr_size (hdr : drm_dp_sideband_msg_hdr) : Z :=
  u8 (3 + hdr_lct hdr / 2).

(** The bytes stored before the CRC is added. *)
Definition hdr_bytes (hdr : drm_dp_sideband_msg_hdr) : list Z :=
  [u8 (Z.lor (Z.shiftl (Z.land (hdr_lct hdr) 0xf) 4) (Z.land (hdr_lcr hdr) 0xf))] ++
  copy (hdr_rad hdr) 0 (hdr_lct hdr / 2) ++
  [u8 (Z.lor (Z.lor (Z.shiftl (b2z (hdr_broadcast hdr)) 7)
                    (Z.shiftl (b2z (hdr_path_msg hdr)) 6))
             (Z.land (hdr_msg_len hdr) 0x3f));
   u8 (Z.lor (Z.lor (Z.shiftl (b2z (hdr_somt hdr)) 7)
                    (Z.shiftl (b2z (hdr_eomt hdr)) 6))
             (Z.shiftl (b2z (hdr_seqno hdr)) 4))].

(** Returns the buffer; [*len] is its length. *)
Definition drm_dp_encode_sideband_msg_hdr (hdr : drm_dp_sideband_msg_hdr)
    : list Z :=
  let buf := hdr_bytes hdr in
  let idx := Z.of_nat (length buf) in
  let crc4 := drm_dp_msg_header_crc4 buf (idx * 2 - 1) in
  <[Z.to_nat (idx - 1) := Z.lor (rd buf (idx - 1)) (Z.land crc4 0xf)]> buf.

(** [None] is the return value [false]; otherwise the header and [*hdrlen]. *)
Definition drm_dp_decode_sideband_msg_hdr (buf : list Z) (buflen : Z)
    : option (drm_dp_sideband_msg_hdr * Z) :=
  if rd buf 0 =? 0 then None else
  let len := 3 + Z.shiftr (Z.land (rd buf 0) 0xf0) 4 / 2 in
  if buflen <? len then None else
  let crc4 := drm_dp_msg_header_crc4 buf (len * 2 - 1) in
  if negb (Z.land crc4 0xf =? Z.land (rd buf (len - 1)) 0xf) then None else
  let lct := Z.shiftr (Z.land (rd buf 0) 0xf0) 4 in
  let idx := 1 + lct / 2 in
  Some
    ({| hdr_lct := lct;
        hdr_lcr := Z.land (rd buf 0) 0xf;
        hdr_rad := copy buf 1 (lct / 2);
        hdr_broadcast := truth (Z.land (Z.shiftr (rd buf idx) 7) 1);
        hdr_path_msg := truth (Z.land (Z.shiftr (rd buf idx) 6) 1);
        hdr_msg_len := Z.land (rd buf idx) 0x3f;
        hdr_somt := truth (Z.land (Z.shiftr (rd buf (idx + 1)) 7) 1);
        hdr_eomt := truth (Z.land (Z.shiftr (rd buf (idx + 1)) 6) 1);
        hdr_seqno := truth (Z.land (Z.shiftr (rd buf (idx + 1)) 4) 1) |},
     idx + 2).

(** ** Requests

    [struct drm_dp_sideband_msg_req_body] is a tag and a union.  The code
    only reads the member that belongs to the tag, so the union is a record
    with one field per member. *)
Record dp_allocate_payload := {
  ap_port_number : Z;
  ap_number_sdp_streams : Z;
  ap_vcpi : Z;
  ap_pbn : Z;
  ap_sdp_stream_sink : list Z;
}.
Record dp_query_payload := { qp_port_number : Z; qp_vcpi : Z }.
Record dp_dpcd_read := {
  dr_port_number : Z; dr_dpcd_address : Z; dr_num_bytes : Z }.
Record dp_dpcd_write := {
  dw_port_number : Z; dw_dpcd_address : Z; dw_num_bytes : Z;
  dw_bytes : list Z }.
Record dp_i2c_transaction := {
  it_i2c_dev_id : Z; it_num_bytes : Z; it_bytes : list Z;
  it_no_stop_bit : Z; it_i2c_transaction_delay : Z }.
Record dp_i2c_read := {
  ir_num_transactions : Z; ir_port_number : Z;
  ir_transactions : list dp_i2c_transaction;
  ir_read_i2c_device_id : Z; ir_num_bytes_read : Z }.
Record dp_i2c_write := {
  iw_port_number : Z; iw_write_i2c_device_id : Z; iw_num_bytes : Z;
  iw_bytes : list Z }.
Record drm_dp_connection_status_notify := {
  cs_guid : list Z; cs_port_number : Z; cs_legacy_device_plug_status : bool;
  cs_displayport_device_plug_status : bool;
  cs_message_capability_status : bool; cs_input_port : bool;
  cs_peer_device_type : Z }.
Record drm_dp_resource_status_notify := {
  rs_port_number : Z; rs_guid : list Z; rs_available_pbn : Z }.

Record dp_req_union := {
  u_port_num : Z;
  u_allocate_payload : dp_allocate_payload;
  u_query_payload : dp_query_payload;
  u_dpcd_read : dp_dpcd_read;
  u_dpcd_write : dp_dpcd_write;
  u_i2c_read : dp_i2c_read;
  u_i2c_write : dp_i2c_write;
  u_conn_stat : drm_dp_connection_status_notify;
  u_resource_stat : drm_dp_resource_status_notify;
}.

Record drm_dp_sideband_msg_req_body := {
  req_type : Z;
  req_u : dp_req_union;
}.

(** The union filled with zero bytes ([memset]). *)
Definition zero16 : list Z := replicate 16 0.

Definition zero_req_union : dp_req_union :=
  {| u_port_num := 0;
     u_allocate_payload := {| ap_port_number := 0; ap_number_sdp_streams := 0;
       ap_vcpi := 0; ap_pbn := 0; ap_sdp_stream_sink := replicate 16 0 |};
     u_query_payload := {| qp_port_number := 0; qp_vcpi := 0 |};
     u_dpcd_read := {| dr_port_number := 0; dr_dpcd_address := 0; dr_num_bytes := 0 |};
     u_dpcd_write := {| dw_port_number := 0; dw_dpcd_address := 0;
       dw_num_bytes := 0; dw_bytes := [] |};
     u_i2c_read := {| ir_num_transactions := 0; ir_port_number := 0;
       ir_transactions := []; ir_read_i2c_device_id := 0; ir_num_bytes_read := 0 |};
     u_i2c_write := {| iw_port_number := 0; iw_write_i2c_device_id := 0;
       iw_num_bytes := 0; iw_bytes := [] |};
     u_conn_stat := {| cs_guid := zero16; cs_port_number := 0;
       cs_legacy_device_plug_status := false;
       cs_displayport_device_plug_status := false;
       cs_message_capability_status := false; cs_input_port := false;
       cs_peer_device_type := 0 |};
     u_resource_stat := {| rs_port_number := 0; rs_guid := zero16;
       rs_available_pbn := 0 |} |}.

(** The first bytes of a remote DPCD request: port and 20-bit address. *)
Definition encode_dpcd_address (port address : Z) : list Z :=
  [u8 (Z.lor (Z.shiftl (Z.land port 0xf) 4)
             (Z.land (Z.shiftr (Z.land address 0xf0000) 16) 0xf));
   u8 (Z.shiftr (Z.land address 0xff00) 8);
   u8 (Z.land address 0xff)].

(** The loop over the SDP streams: two sinks a byte, and a last half byte. *)
Fixpoint encode_sdp_streams (n : nat) (i : Z) (sink : list Z) : list Z :=
  match n with
  | O => []
  | S n =>
    u8 (Z.lor (Z.shiftl (Z.land (rd sink (i * 2)) 0xf) 4)
              (Z.land (rd sink (i * 2 + 1)) 0xf))
    :: encode_sdp_streams n (i + 1) sink
  end.

Definition encode_allocate_payload (p : dp_allocate_payload) : list Z :=
  [u8 (Z.lor (Z.shiftl (Z.land (ap_port_number p) 0xf) 4)
             (Z.land (ap_number_sdp_streams p) 0xf));
   u8 (Z.land (ap_vcpi p) 0x7f);
   u8 (Z.shiftr (ap_pbn p) 8);
   u8 (Z.land (ap_pbn p) 0xff)] ++
  encode_sdp_streams (Z.to_nat (ap_number_sdp_streams p / 2)) 0
    (ap_sdp_stream_sink p) ++
  (if truth (Z.land (ap_number_sdp_streams p) 1)
   then [u8 (Z.shiftl (Z.land (rd (ap_sdp_stream_sink p)
                                  (ap_number_sdp_streams p - 1)) 0xf) 4)]
   else []).

Definition encode_i2c_transaction (t : dp_i2c_transaction) : list Z :=
  [u8 (Z.land (it_i2c_dev_id t) 0x7f); u8 (it_num_bytes t)] ++
  copy (it_bytes t) 0 (it_num_bytes t) ++
  [u8 (Z.lor (Z.shiftl (Z.land (it_no_stop_bit t) 0x1) 5)
             (Z.land (it_i2c_transaction_delay t) 0xf))].

Definition encode_i2c_read (r : dp_i2c_read) : list Z :=
  [u8 (Z.lor (Z.shiftl (Z.land (ir_port_number r) 0xf) 4)
             (Z.land (ir_num_transactions r) 0x3))] ++
  concat (encode_i2c_transaction <$>
          take (Z.to_nat (Z.land (ir_num_transactions r) 0x3)) (ir_transactions r)) ++
  [u8 (Z.land (ir_read_i2c_device_id r) 0x7f); u8 (ir_num_bytes_read r)].

(** The bytes of [raw->msg]; [raw->cur_len] is their number. *)
Definition drm_dp_encode_sideband_req `{dp_h}
    (req : drm_dp_sideband_msg_req_body) : list Z :=
  let u := req_u req in
  [u8 (Z.land (req_type req) 0x7f)] ++
  if req_type req =? DP_ENUM_PATH_RESOURCES then
    [u8 (Z.shiftl (Z.land (u_port_num u) 0xf) 4)]
  else if req_type req =? DP_ALLOCATE_PAYLOAD then
    encode_allocate_payload (u_allocate_payload u)
  else if req_type req =? DP_QUERY_PAYLOAD then
    [u8 (Z.shiftl (Z.land (qp_port_number (u_query_payload u)) 0xf) 4);
     u8 (Z.land (qp_vcpi (u_query_payload u)) 0x7f)]
  else if req_type req =? DP_REMOTE_DPCD_READ then
    encode_dpcd_address (dr_port_number (u_dpcd_read u))
      (dr_dpcd_address (u_dpcd_read u)) ++
    [u8 (dr_num_bytes (u_dpcd_read u))]
  else if req_type req =? DP_REMOTE_DPCD_WRITE then
    encode_dpcd_address (dw_port_number (u_dpcd_write u))
      (dw_dpcd_address (u_dpcd_write u)) ++
    [u8 (dw_num_bytes (u_dpcd_write u))] ++
    copy (dw_bytes (u_dpcd_write u)) 0 (dw_num_bytes (u_dpcd_write u))
  else if req_type req =? DP_REMOTE_I2C_READ then
    encode_i2c_read (u_i2c_read u)
  else if req_type req =? DP_REMOTE_I2C_WRITE then
    [u8 (Z.shiftl (Z.land (iw_port_number (u_i2c_write u)) 0xf) 4);
     u8 (Z.land (iw_write_i2c_device_id (u_i2c_write u)) 0x7f);
     u8 (iw_num_bytes (u_i2c_write u))] ++
    copy (iw_bytes (u_i2c_write u)) 0 (iw_num_bytes (u_i2c_write u))
  else [].

(** [msg[len] = crc] on a buffer that holds [len] message bytes. *)
Definition drm_dp_crc_sideband_chunk_req (msg : list Z) (len : Z) : list Z :=
  take (Z.to_nat len) msg ++ [drm_dp_msg_data_crc4 msg len].

Definition drm_dp_encode_sideband_reply (reply_type req_type : Z) : list Z :=
  [u8 (Z.lor (Z.shiftl (Z.land reply_type 0x1) 7) (Z.land req_type 0x7f))].

(** The request builders: the encoded message and whether [msg->path_msg] is
    set. *)
Definition build_dpcd_write `{dp_h} (port_num offset num_bytes : Z)
    (bytes : list Z) : list Z * bool :=
  (drm_dp_encode_sideband_req
     {| req_type := DP_REMOTE_DPCD_WRITE;
        req_u := {| u_port_num := u_port_num zero_req_union;
          u_allocate_payload := u_allocate_payload zero_req_union;
          u_query_payload := u_query_payload zero_req_union;
          u_dpcd_read := u_dpcd_read zero_req_union;
          u_dpcd_write := {| dw_port_number := port_num;
            dw_dpcd_address := offset; dw_num_bytes := num_bytes;
            dw_bytes := bytes |};
          u_i2c_read := u_i2c_read zero_req_union;
          u_i2c_write := u_i2c_write zero_req_union;
          u_conn_stat := u_conn_stat zero_req_union;
          u_resource_stat := u_resource_stat zero_req_union |} |}, false).

Definition build_link_address `{dp_h} : list Z * bool :=
  (drm_dp_encode_sideband_req
     {| req_type := DP_LINK_ADDRESS; req_u := zero_req_union |}, false).

Definition build_enum_path_resources `{dp_h} (port_num : Z) : list Z * bool :=
  (drm_dp_encode_sideband_req
     {| req_type := DP_ENUM_PATH_RESOURCES;
        req_u := {| u_port_num := u8 port_num;
          u_allocate_payload := u_allocate_payload zero_req_union;
          u_query_payload := u_query_payload zero_req_union;
          u_dpcd_read := u_dpcd_read zero_req_union;
          u_dpcd_write := u_dpcd_write zero_req_union;
          u_i2c_read := u_i2c_read zero_req_union;
          u_i2c_write := u_i2c_write zero_req_union;
          u_conn_stat := u_conn_stat zero_req_union;
          u_resource_stat := u_resource_stat zero_req_union |} |}, true).

Definition build_allocate_payload `{dp_h} (port_num vcpi pbn : Z)
    : list Z * bool :=
  (drm_dp_encode_sideband_req
     {| req_type := DP_ALLOCATE_PAYLOAD;
        req_u := {| u_port_num := u_port_num zero_req_union;
          u_allocate_payload := {| ap_port_number := u8 port_num;
            ap_number_sdp_streams := 0; ap_vcpi := vcpi; ap_pbn := pbn;
            ap_sdp_stream_sink := replicate 16 0 |};
          u_query_payload := u_query_payload zero_req_union;
          u_dpcd_read := u_dpcd_read zero_req_union;
          u_dpcd_write := u_dpcd_write zero_req_union;
          u_i2c_read := u_i2c_read zero_req_union;
          u_i2c_write := u_i2c_write zero_req_union;
          u_conn_stat := u_conn_stat zero_req_union;
          u_resource_stat := u_resource_stat zero_req_union |} |}, true).

(** ** Reassembly *)

(** [struct drm_dp_sideband_msg_rx] *)
Record drm_dp_sideband_msg_rx := {
  rx_chunk : list Z;
  rx_msg : list Z;
  rx_curchunk_len : Z;
  rx_curchunk_idx : Z;
  rx_curchunk_hdrlen : Z;
  rx_curlen : Z;
  rx_have_somt : bool;
  rx_have_eomt : bool;
  rx_initial_hdr : drm_dp_sideband_msg_hdr;
}.

(** [memset(rx, 0, sizeof(struct drm_dp_sideband_msg_rx))] *)
Definition zero_rx `{dp_h} : drm_dp_sideband_msg_rx :=
  {| rx_chunk := replicate (Z.to_nat rx_chunk_size) 0;
     rx_msg := replicate (Z.to_nat rx_msg_size) 0;
     rx_curchunk_len := 0; rx_curchunk_idx := 0; rx_curchunk_hdrlen := 0;
     rx_curlen := 0; rx_have_somt := false; rx_have_eomt := false;
     rx_initial_hdr := zero_hdr |}.

(** The header branch of [drm_dp_sideband_msg_build]; [inl] is the early
    return with [false]. *)
Definition msg_build_hdr (msg : drm_dp_sideband_msg_rx) (replybuf : list Z)
    (replybuflen : Z) : outcome (drm_dp_sideband_msg_rx + drm_dp_sideband_msg_rx) :=
  match drm_dp_decode_sideband_msg_hdr replybuf replybuflen with
  | None => Ok (inl msg)
  | Some (recv_hdr, hdrlen) =>
    let curchunk_len := hdr_msg_len recv_hdr in
    if hdr_somt recv_hdr && rx_have_somt msg then
      Ok (inl {| rx_chunk := rx_chunk msg; rx_msg := rx_msg msg;
             rx_curchunk_len := curchunk_len;
             rx_curchunk_idx := rx_curchunk_idx msg;
             rx_curchunk_hdrlen := hdrlen;
             rx_curlen := rx_curlen msg;
             rx_have_somt := rx_have_somt msg;
             rx_have_eomt := rx_have_eomt msg;
             rx_initial_hdr := rx_initial_hdr msg |})
    else
      let idx := Z.min curchunk_len (u8 (replybuflen - hdrlen)) in
      chunk ← blit (rx_chunk msg) 0 (copy replybuf hdrlen idx);
      Ok (inr {| rx_chunk := chunk; rx_msg := rx_msg msg;
             rx_curchunk_len := curchunk_len;
             rx_curchunk_idx := idx;
             rx_curchunk_hdrlen := hdrlen;
             rx_curlen := rx_curlen msg;
             rx_have_somt := rx_have_somt msg || hdr_somt recv_hdr;
             rx_have_eomt := rx_have_eomt msg || hdr_eomt recv_hdr;
             rx_initial_hdr := if hdr_somt recv_hdr then recv_hdr
                               else rx_initial_hdr msg |})
  end.

(** Its other branch: the next bytes of a chunk. *)
Definition msg_build_more (msg : drm_dp_sideband_msg_rx) (replybuf : list Z)
    (replybuflen : Z) : outcome drm_dp_sideband_msg_rx :=
  chunk ← blit (rx_chunk msg) (rx_curchunk_idx msg) (copy replybuf 0 replybuflen);
  Ok {| rx_chunk := chunk; rx_msg := rx_msg msg;
        rx_curchunk_len := rx_curchunk_len msg;
        rx_curchunk_idx := u8 (rx_curchunk_idx msg + replybuflen);
        rx_curchunk_hdrlen := rx_curchunk_hdrlen msg;
        rx_curlen := rx_curlen msg;
        rx_have_somt := rx_have_somt msg;
        rx_have_eomt := rx_have_eomt msg;
        rx_initial_hdr := rx_initial_hdr msg |}.

(** The tail: a complete chunk is appended to the message, without its CRC
    byte.  The CRC is computed by the code and not compared with anything.  A
    [curchunk_len] of 0 makes the size of the copy [(size_t)-1]. *)
Definition msg_build_complete (msg : drm_dp_sideband_msg_rx)
    : outcome drm_dp_sideband_msg_rx :=
  if rx_curchunk_len msg <=? rx_curchunk_idx msg then
    let size := rx_curchunk_len msg - 1 in
    if size <? 0 then Bug else
    m ← blit (rx_msg msg) (rx_curlen msg) (copy (rx_chunk msg) 0 size);
    Ok {| rx_chunk := rx_chunk msg; rx_msg := m;
          rx_curchunk_len := rx_curchunk_len msg;
          rx_curchunk_idx := rx_curchunk_idx msg;
          rx_curchunk_hdrlen := rx_curchunk_hdrlen msg;
          rx_curlen := u8 (rx_curlen msg + size);
          rx_have_somt := rx_have_somt msg;
          rx_have_eomt := rx_have_eomt msg;
          rx_initial_hdr := rx_initial_hdr msg |}
  else Ok msg.

Definition drm_dp_sideband_msg_build (msg : drm_dp_sideband_msg_rx)
    (replybuf : list Z) (replybuflen : Z) (hdr : bool)
    : outcome (bool * drm_dp_sideband_msg_rx) :=
  if hdr then
    r ← msg_build_hdr msg replybuf replybuflen;
    match r with
    | inl msg => Ok (false, msg)
    | inr msg => msg ← msg_build_complete msg; Ok (true, msg)
    end
  else
    msg ← msg_build_more msg replybuf replybuflen;
    msg ← msg_build_complete msg;
    Ok (true, msg).

(** ** Replies

    [struct drm_dp_sideband_msg_reply_body], again with one field for each
    union member.  A parser returns its [bool] and the body as it leaves it:
    the caller uses the body also after a failure. *)
Record drm_dp_link_addr_reply_port := {
  lp_input_port : bool;
  lp_peer_device_type : Z;
  lp_port_number : Z;
  lp_mcs : bool;
  lp_ddps : bool;
  lp_legacy_device_plug_status : bool;
  lp_dpcd_revision : Z;
  lp_peer_guid : list Z;
  lp_num_sdp_streams : Z;
  lp_num_sdp_stream_sinks : Z;
}.
Record drm_dp_link_address_ack_reply := {
  la_guid : list Z; la_nports : Z;
  (** the entries of [ports] written so far; the others are zero *)
  la_ports : list drm_dp_link_addr_reply_port }.
Record drm_dp_nak_reply := {
  nak_guid : list Z; nak_reason : Z; nak_nak_data : Z }.
Record drm_dp_data_ack_reply := {
  da_port_number : Z; da_num_bytes : Z; da_bytes : list Z }.
Record drm_dp_path_resources_reply := {
  pr_port_number : Z; pr_full_payload_bw_number : Z;
  pr_avail_payload_bw_number : Z }.
Record drm_dp_payload_ack_reply := {
  pa_port_number : Z; pa_vcpi : Z; pa_allocated_pbn : Z }.

Record drm_dp_sideband_msg_reply_body := {
  rep_reply_type : Z;
  rep_req_type : Z;
  rep_nak : drm_dp_nak_reply;
  rep_link_addr : drm_dp_link_address_ack_reply;
  rep_remote_dpcd_read_ack : drm_dp_data_ack_reply;
  rep_remote_dpcd_write_ack : Z; (** its [port_number] *)
  rep_remote_i2c_read_ack : drm_dp_data_ack_reply;
  rep_path_resources : drm_dp_path_resources_reply;
  rep_allocate_payload : drm_dp_payload_ack_reply;
  rep_query_payload : drm_dp_payload_ack_reply;
}.

Definition zero_reply : drm_dp_sideband_msg_reply_body :=
  {| rep_reply_type := 0; rep_req_type := 0;
     rep_nak := {| nak_guid := zero16; nak_reason := 0; nak_nak_data := 0 |};
     rep_link_addr := {| la_guid := zero16; la_nports := 0; la_ports := [] |};
     rep_remote_dpcd_read_ack :=
       {| da_port_number := 0; da_num_bytes := 0; da_bytes := [] |};
     rep_remote_dpcd_write_ack := 0;
     rep_remote_i2c_read_ack :=
       {| da_port_number := 0; da_num_bytes := 0; da_bytes := [] |};
     rep_path_resources := {| pr_port_number := 0;
       pr_full_payload_bw_number := 0; pr_avail_payload_bw_number := 0 |};
     rep_allocate_payload :=
       {| pa_port_number := 0; pa_vcpi := 0; pa_allocated_pbn := 0 |};
     rep_query_payload :=
       {| pa_port_number := 0; pa_vcpi := 0; pa_allocated_pbn := 0 |} |}.

(** A 16-bit big-endian field. *)
Definition rd_be16 (msg : list Z) (idx : Z) : Z :=
  u16 (Z.lor (Z.shiftl (rd msg idx) 8) (rd msg (idx + 1))).

(** One round of the port loop of [drm_dp_sideband_parse_link_address]: the
    entry it writes and the new [idx], or [None] for [goto fail_len]. *)
Definition parse_link_port (msg : list Z) (curlen idx : Z)
    : drm_dp_link_addr_reply_port * option Z :=
  let input_port := truth (Z.land (rd msg idx) 0x80) in
  let p0 := {| lp_input_port := input_port;
       lp_peer_device_type := Z.land (Z.shiftr (rd msg idx) 4) 0x7;
       lp_port_number := Z.land (rd msg idx) 0xf;
       lp_mcs := false; lp_ddps := false; lp_legacy_device_plug_status := false;
       lp_dpcd_revision := 0; lp_peer_guid := zero16;
       lp_num_sdp_streams := 0; lp_num_sdp_stream_sinks := 0 |} in
  let idx := idx + 1 in
  if curlen <? idx then (p0, None) else
  let p1 := {| lp_input_port := input_port;
       lp_peer_device_type := lp_peer_device_type p0;
       lp_port_number := lp_port_number p0;
       lp_mcs := truth (Z.land (Z.shiftr (rd msg idx) 7) 1);
       lp_ddps := truth (Z.land (Z.shiftr (rd msg idx) 6) 1);
       lp_legacy_device_plug_status :=
         if input_port then false else truth (Z.land (Z.shiftr (rd msg idx) 5) 1);
       lp_dpcd_revision := 0; lp_peer_guid := zero16;
       lp_num_sdp_streams := 0; lp_num_sdp_stream_sinks := 0 |} in
  let idx := idx + 1 in
  if curlen <? idx then (p1, None) else
  if input_port then (p1, Some idx) else
  let p2 rev guid streams sinks :=
    {| lp_input_port := input_port;
       lp_peer_device_type := lp_peer_device_type p0;
       lp_port_number := lp_port_number p0;
       lp_mcs := lp_mcs p1; lp_ddps := lp_ddps p1;
       lp_legacy_device_plug_status := lp_legacy_device_plug_status p1;
       lp_dpcd_revision := rev; lp_peer_guid := guid;
       lp_num_sdp_streams := streams; lp_num_sdp_stream_sinks := sinks |} in
  let rev := rd msg idx in
  let idx := idx + 1 in
  if curlen <? idx then (p2 rev zero16 0 0, None) else
  let guid := copy msg idx 16 in
  let idx := idx + 16 in
  if curlen <? idx then (p2 rev guid 0 0, None) else
  let p := p2 rev guid (Z.land (Z.shiftr (rd msg idx) 4) 0xf)
              (Z.land (rd msg idx) 0xf) in
  let idx := idx + 1 in
  if curlen <? idx then (p, None) else (p, Some idx).

Fixpoint parse_link_ports (n : nat) (msg : list Z) (curlen idx : Z)
    : bool * list drm_dp_link_addr_reply_port :=
  match n with
  | O => (true, [])
  | S n =>
    match parse_link_port msg curlen idx with
    | (p, None) => (false, [p])
    | (p, Some idx) =>
      let '(ok, ps) := parse_link_ports n msg curlen idx in (ok, p :: ps)
    end
  end.

Definition drm_dp_sideband_parse_link_address (raw : drm_dp_sideband_msg_rx)
    : bool * drm_dp_link_address_ack_reply :=
  let msg := rx_msg raw in
  let guid := copy msg 1 16 in
  let nports := Z.land (rd msg 17) 0xf in
  let idx := 18 in
  if rx_curlen raw <? idx then
    (false, {| la_guid := guid; la_nports := nports; la_ports := [] |})
  else
    let '(ok, ports) := parse_link_ports (Z.to_nat nports) msg (rx_curlen raw) idx in
    (ok, {| la_guid := guid; la_nports := nports; la_ports := ports |}).

(** [idx] is not advanced past the byte count. *)
Definition drm_dp_sideband_parse_remote_dpcd_read (raw : drm_dp_sideband_msg_rx)
    : bool * drm_dp_data_ack_reply :=
  let msg := rx_msg raw in
  let port_number := Z.land (rd msg 1) 0xf in
  if rx_curlen raw <? 2 then
    (false, {| da_port_number := port_number; da_num_bytes := 0; da_bytes := [] |})
  else
    let num_bytes := rd msg 2 in
    if rx_curlen raw <? 2 then
      (false, {| da_port_number := port_number; da_num_bytes := num_bytes;
                 da_bytes := [] |})
    else
      (true, {| da_port_number := port_number; da_num_bytes := num_bytes;
                da_bytes := copy msg 2 num_bytes |}).

Definition drm_dp_sideband_parse_remote_dpcd_write (raw : drm_dp_sideband_msg_rx)
    : bool * Z :=
  let port_number := Z.land (rd (rx_msg raw) 1) 0xf in
  if rx_curlen raw <? 2 then (false, port_number) else (true, port_number).

Definition drm_dp_sideband_parse_remote_i2c_read_ack
    (raw : drm_dp_sideband_msg_rx) : bool * drm_dp_data_ack_reply :=
  let msg := rx_msg raw in
  let port_number := Z.land (rd msg 1) 0xf in
  if rx_curlen raw <? 2 then
    (false, {| da_port_number := port_number; da_num_bytes := 0; da_bytes := [] |})
  else
    let num_bytes := rd msg 2 in
    (true, {| da_port_number := port_number; da_num_bytes := num_bytes;
              da_bytes := copy msg 3 num_bytes |}).

Definition drm_dp_sideband_parse_enum_path_resources_ack
    (raw : drm_dp_sideband_msg_rx) : bool * drm_dp_path_resources_reply :=
  let msg := rx_msg raw in
  let mk full avail :=
    {| pr_port_number := Z.land (Z.shiftr (rd msg 1) 4) 0xf;
       pr_full_payload_bw_number := full; pr_avail_payload_bw_number := avail |} in
  if rx_curlen raw <? 2 then (false, mk 0 0) else
  let full := rd_be16 msg 2 in
  if rx_curlen raw <? 4 then (false, mk full 0) else
  let avail := rd_be16 msg 4 in
  if rx_curlen raw <? 6 then (false, mk full avail) else (true, mk full avail).

Definition drm_dp_sideband_parse_allocate_payload_ack
    (raw : drm_dp_sideband_msg_rx) : bool * drm_dp_payload_ack_reply :=
  let msg := rx_msg raw in
  let mk vcpi pbn :=
    {| pa_port_number := Z.land (Z.shiftr (rd msg 1) 4) 0xf;
       pa_vcpi := vcpi; pa_allocated_pbn := pbn |} in
  if rx_curlen raw <? 2 then (false, mk 0 0) else
  let vcpi := rd msg 2 in
  if rx_curlen raw <? 3 then (false, mk vcpi 0) else
  let pbn := rd_be16 msg 3 in
  if rx_curlen raw <? 5 then (false, mk vcpi pbn) else (true, mk vcpi pbn).

Definition drm_dp_sideband_parse_query_payload_ack
    (raw : drm_dp_sideband_msg_rx) : bool * drm_dp_payload_ack_reply :=
  let msg := rx_msg raw in
  let mk pbn :=
    {| pa_port_number := Z.land (Z.shiftr (rd msg 1) 4) 0xf;
       pa_vcpi := 0; pa_allocated_pbn := pbn |} in
  if rx_curlen raw <? 2 then (false, mk 0) else
  let pbn := rd_be16 msg 2 in
  if rx_curlen raw <? 4 then (false, mk pbn) else (true, mk pbn).

(** The body with the given members; the others keep the zeros of [memset]. *)
Definition mk_reply (reply_type req_type : Z)
    (nak : drm_dp_nak_reply) (la : drm_dp_link_address_ack_reply)
    (dr : drm_dp_data_ack_reply) (dw : Z) (ir : drm_dp_data_ack_reply)
    (pr : drm_dp_path_resources_reply) (ap qp : drm_dp_payload_ack_reply)
    : drm_dp_sideband_msg_reply_body :=
  {| rep_reply_type := reply_type; rep_req_type := req_type; rep_nak := nak;
     rep_link_addr := la; rep_remote_dpcd_read_ack := dr;
     rep_remote_dpcd_write_ack := dw; rep_remote_i2c_read_ack := ir;
     rep_path_resources := pr; rep_allocate_payload := ap;
     rep_query_payload := qp |}.

Definition drm_dp_sideband_parse_reply `{dp_h} (raw : drm_dp_sideband_msg_rx)
    : bool * drm_dp_sideband_msg_reply_body :=
  let z := zero_reply in
  let msg := rx_msg raw in
  let reply_type := Z.shiftr (Z.land (rd msg 0) 0x80) 7 in
  let req_type := Z.land (rd msg 0) 0x7f in
  let nak := rep_nak z in let la := rep_link_addr z in
  let dr := rep_remote_dpcd_read_ack z in
  let dw := rep_remote_dpcd_write_ack z in
  let ir := rep_remote_i2c_read_ack z in
  let pr := rep_path_resources z in
  let ap := rep_allocate_payload z in let qp := rep_query_payload z in
  if truth reply_type then
    (false, mk_reply reply_type req_type
       {| nak_guid := copy msg 1 16; nak_reason := rd msg 17;
          nak_nak_data := rd msg 18 |} la dr dw ir pr ap qp)
  else if req_type =? DP_LINK_ADDRESS then
    let '(ok, la) := drm_dp_sideband_parse_link_address raw in
    (ok, mk_reply reply_type req_type nak la dr dw ir pr ap qp)
  else if req_type =? DP_QUERY_PAYLOAD then
    let '(ok, qp) := drm_dp_sideband_parse_query_payload_ack raw in
    (ok, mk_reply reply_type req_type nak la dr dw ir pr ap qp)
  else if req_type =? DP_REMOTE_DPCD_READ then
    let '(ok, dr) := drm_dp_sideband_parse_remote_dpcd_read raw in
    (ok, mk_reply reply_type req_type nak la dr dw ir pr ap qp)
  else if req_type =? DP_REMOTE_DPCD_WRITE then
    let '(ok, dw) := drm_dp_sideband_parse_remote_dpcd_write raw in
    (ok, mk_reply reply_type req_type nak la dr dw ir pr ap qp)
  else if req_type =? DP_REMOTE_I2C_READ then
    let '(ok, ir) := drm_dp_sideband_parse_remote_i2c_read_ack raw in
    (ok, mk_reply reply_type req_type nak la dr dw ir pr ap qp)
  else if req_type =? DP_ENUM_PATH_RESOURCES then
    let '(ok, pr) := drm_dp_sideband_parse_enum_path_resources_ack raw in
    (ok, mk_reply reply_type req_type nak la dr dw ir pr ap qp)
  else if req_type =? DP_ALLOCATE_PAYLOAD then
    let '(ok, ap) := drm_dp_sideband_parse_allocate_payload_ack raw in
    (ok, mk_reply reply_type req_type nak la dr dw ir pr ap qp)
  else (false, mk_reply reply_type req_type nak la dr dw ir pr ap qp).

(** ** Upstream requests *)
Definition drm_dp_sideband_parse_connection_status_notify
    (raw : drm_dp_sideband_msg_rx) : bool * drm_dp_connection_status_notify :=
  let msg := rx_msg raw in
  let port := Z.shiftr (Z.land (rd msg 1) 0xf0) 4 in
  let zero guid :=
    {| cs_guid := guid; cs_port_number := port;
       cs_legacy_device_plug_status := false;
       cs_displayport_device_plug_status := false;
       cs_message_capability_status := false; cs_input_port := false;
       cs_peer_device_type := 0 |} in
  if rx_curlen raw <? 2 then (false, zero zero16) else
  let guid := copy msg 2 16 in
  if rx_curlen raw <? 18 then (false, zero guid) else
  let b := rd msg 18 in
  (true,
   {| cs_guid := guid; cs_port_number := port;
      cs_legacy_device_plug_status := truth (Z.land (Z.shiftr b 6) 1);
      cs_displayport_device_plug_status := truth (Z.land (Z.shiftr b 5) 1);
      cs_message_capability_status := truth (Z.land (Z.shiftr b 4) 1);
      cs_input_port := truth (Z.land (Z.shiftr b 3) 1);
      cs_peer_device_type := Z.land b 0x7 |}).

Definition drm_dp_sideband_parse_resource_status_notify
    (raw : drm_dp_sideband_msg_rx) : bool * drm_dp_resource_status_notify :=
  let msg := rx_msg raw in
  let mk guid pbn :=
    {| rs_port_number := Z.shiftr (Z.land (rd msg 1) 0xf0) 4;
       rs_guid := guid; rs_available_pbn := pbn |} in
  if rx_curlen raw <? 2 then (false, mk zero16 0) else
  let guid := copy msg 2 16 in
  if rx_curlen raw <? 18 then (false, mk guid 0) else
  (true, mk guid (rd_be16 msg 18)).

Definition drm_dp_sideband_parse_req `{dp_h} (raw : drm_dp_sideband_msg_rx)
    : bool * drm_dp_sideband_msg_req_body :=
  let z := zero_req_union in
  let ty := Z.land (rd (rx_msg raw) 0) 0x7f in
  let body cs rs :=
    {| req_type := ty;
       req_u := {| u_port_num := u_port_num z;
          u_allocate_payload := u_allocate_payload z;
          u_query_payload := u_query_payload z;
          u_dpcd_read := u_dpcd_read z; u_dpcd_write := u_dpcd_write z;
          u_i2c_read := u_i2c_read z; u_i2c_write := u_i2c_write z;
          u_conn_stat := cs; u_resource_stat := rs |} |} in
  if ty =? DP_CONNECTION_STATUS_NOTIFY then
    let '(ok, cs) := drm_dp_sideband_parse_connection_status_notify raw in
    (ok, body cs (u_resource_stat z))
  else if ty =? DP_RESOURCE_STATUS_NOTIFY then
    let '(ok, rs) := drm_dp_sideband_parse_resource_status_notify raw in
    (ok, body (u_conn_stat z) rs)
  else (false, body (u_conn_stat z) (u_resource_stat z)).
