(* ===== verification/DpCrc.v ===== *)
(** * The CRCs of the sideband messages

    The bit loops of [drm_dp_msg_header_crc4] and [drm_dp_msg_data_crc4]
    compute a polynomial remainder over GF(2); what follows from it: the CRC
    is linear, and a burst of damaged bits no longer than the CRC is always
    noticed. *)

From S2P Require Import Prelude DpSideband.

(** ** Reference: division by a polynomial of degree [w] *)
Section division.
Context (w : Z) (poly : Z) (Hw : 0 < w) (Hpoly : 2 ^ w <= poly < 2 ^ (w + 1)).
Context (Hodd : Z.testbit poly 0 = true).

(** Shift one message bit into the remainder. *)
Definition div_step (r : Z) (b : bool) : Z :=
  let r := 2 * r + b2z b in
  if Z.testbit r w then Z.lxor r poly else r.

Definition div_bits (bits : list bool) (r : Z) : Z := fold_left div_step bits r.

(** The CRC of a list of bits: the remainder after [w] more zero bits. *)
Definition crc_spec (bits : list bool) : Z :=
  div_bits (replicate (Z.to_nat w) false) (div_bits bits 0).

Lemma double_xor r s b c :
  2 * Z.lxor r s + b2z (xorb b c) = Z.lxor (2 * r + b2z b) (2 * s + b2z c).
Proof.
  change b2z with Z.b2z. apply Z.bits_inj'. intros n Hn. rewrite Z.lxor_spec.
  destruct (decide (n = 0)) as [-> |].
  - by rewrite !Z.testbit_0_r.
  - replace n with (Z.succ (n - 1)) by lia.
    rewrite !Z.testbit_succ_r by lia. apply Z.lxor_spec.
Qed.

Lemma div_step_xor r s b c :
  div_step (Z.lxor r s) (xorb b c) = Z.lxor (div_step r b) (div_step s c).
Proof.
  unfold div_step. rewrite double_xor, Z.lxor_spec.
  destruct (Z.testbit _ w), (Z.testbit _ w); simpl;
    apply Z.bits_inj'; intros n Hn; rewrite ?Z.lxor_spec;
    repeat destruct (Z.testbit _ n); done.
Qed.

Lemma div_bits_xor bs cs r s :
  length bs = length cs ->
  div_bits (zip_with xorb bs cs) (Z.lxor r s) =
  Z.lxor (div_bits bs r) (div_bits cs s).
Proof.
  unfold div_bits. revert cs r s.
  induction bs as [|b bs IH]; intros [|c cs] r s ?; simplify_eq/=; [done|].
  rewrite div_step_xor. by apply IH.
Qed.

Lemma div_step_bound r b : 0 <= r < 2 ^ w -> 0 <= div_step r b < 2 ^ w.
Proof.
  intros Hr. unfold div_step.
  assert (0 <= 2 * r + b2z b < 2 ^ (w + 1)) as Hb.
  { rewrite Z.pow_add_r by lia. destruct b; simpl; lia. }
  set (x := 2 * r + b2z b) in *. clearbody x.
  destruct (Z.testbit x w) eqn:Ht.
  - split; [apply Z.lxor_nonneg; lia|]. apply bits_bound; [lia|apply Z.lxor_nonneg; lia|].
    intros m Hm. rewrite Z.lxor_spec. destruct (decide (m = w)) as [-> |].
    + rewrite Ht. rewrite (testbit_top poly w) by lia. done.
    + by rewrite (testbit_high x (w + 1)), (testbit_high poly (w + 1)) by lia.
  - split; [lia|]. apply bits_bound; [lia..|]. intros m Hm.
    destruct (decide (m = w)) as [-> |]; [done|].
    by rewrite (testbit_high x (w + 1)) by lia.
Qed.

Lemma div_bits_bound bs r : 0 <= r < 2 ^ w -> 0 <= div_bits bs r < 2 ^ w.
Proof.
  unfold div_bits. revert r. induction bs as [|b bs IH]; intros r Hr; simpl; [done|].
  by apply IH, div_step_bound.
Qed.

Lemma div_step_nonzero r : r <> 0 -> div_step r false <> 0.
Proof.
  unfold div_step. simpl. intros Hr H. destruct (Z.testbit _ w); [|lia].
  apply Z.lxor_eq in H. rewrite <- H in Hodd.
  replace (2 * r + 0) with (2 * r) in Hodd by lia.
  by rewrite Z.testbit_even_0 in Hodd.
Qed.

(** Zero bits after the error do not hide it ... *)
Lemma div_zeros_nonzero n r : r <> 0 -> div_bits (replicate n false) r <> 0.
Proof.
  unfold div_bits. revert r. induction n as [|n IH]; intros r Hr; simpl; [done|].
  by apply IH, div_step_nonzero.
Qed.

Lemma div_zeros n : div_bits (replicate n false) 0 = 0.
Proof.
  unfold div_bits. induction n as [|n IH]; simpl; [done|].
  unfold div_step at 2. simpl. rewrite Z.bits_0. exact IH.
Qed.

(** ... and a burst no longer than [w] leaves a non-zero remainder. *)
Lemma div_burst_nonzero bs r k :
  0 <= k -> 0 <= r < 2 ^ k -> k + Z.of_nat (length bs) <= w ->
  r <> 0 \/ true ∈ bs -> div_bits bs r <> 0.
Proof.
  unfold div_bits. revert r k.
  induction bs as [|b bs IH]; intros r k Hk Hr Hl Hnz; simpl in *.
  { destruct Hnz as [|Hnz]; [done|]. by apply not_elem_of_nil in Hnz. }
  assert (0 <= 2 * r + b2z b < 2 ^ (k + 1)) as Hb.
  { rewrite Z.pow_add_r by lia. destruct b; simpl; lia. }
  assert (div_step r b = 2 * r + b2z b) as ->.
  { unfold div_step. by rewrite (testbit_high _ (k + 1)) by lia. }
  apply (IH _ (k + 1)); [lia..|].
  destruct b; [left; simpl; lia|].
  destruct Hnz as [|[|]%elem_of_cons]; simpl; [left; lia|done|by right].
Qed.

Lemma crc_spec_xor bs cs :
  length bs = length cs ->
  crc_spec (zip_with xorb bs cs) = Z.lxor (crc_spec bs) (crc_spec cs).
Proof.
  intros Hl. unfold crc_spec. rewrite <- div_bits_xor by done.
  f_equal; [|by rewrite <- div_bits_xor, Z.lxor_nilpotent].
  clear. induction (Z.to_nat w); simpl; [done|]. by f_equal.
Qed.

Lemma zip_xor_self (l : list bool) : zip_with xorb l l = replicate (length l) false.
Proof. induction l as [|[] l IH]; simpl; by f_equal. Qed.

(** Two bit strings that differ, and only inside a window of [w] bits, have
    different CRCs. *)
Lemma crc_spec_burst pre bs cs suf :
  length bs = length cs -> Z.of_nat (length bs) <= w -> bs <> cs ->
  crc_spec (pre ++ bs ++ suf) <> crc_spec (pre ++ cs ++ suf).
Proof.
  intros Hl Hw' Hne Heq.
  assert (crc_spec (zip_with xorb (pre ++ bs ++ suf) (pre ++ cs ++ suf)) = 0) as H0.
  { rewrite crc_spec_xor, Heq, Z.lxor_nilpotent; [done|]. rewrite !length_app; lia. }
  rewrite !zip_with_app, !zip_xor_self in H0 by done.
  unfold crc_spec, div_bits in H0. rewrite !fold_left_app in H0.
  rewrite (div_zeros (length pre) : fold_left _ _ _ = _) in H0.
  revert H0. apply div_zeros_nonzero, div_zeros_nonzero.
  apply (div_burst_nonzero _ 0 0); [lia..| |right].
  { rewrite length_zip_with. lia. }
  clear -Hl Hne. revert cs Hl Hne.
  induction bs as [|b bs IH]; intros [|c cs] ??; simplify_eq/=.
  destruct (decide (b = c)) as [<- |].
  - apply elem_of_cons. right. apply IH; [done|]. congruence.
  - apply elem_of_cons. left. by destruct b, c.
Qed.

End division.

(** ** The bits of a byte buffer, most significant bit of each byte first *)
Definition bit_at (data : list Z) (j : Z) : bool :=
  Z.testbit (rd data (j / 8)) (7 - j mod 8).

Fixpoint bits_from (data : list Z) (j : Z) (n : nat) : list bool :=
  match n with
  | O => []
  | S n => bit_at data j :: bits_from data (j + 1) n
  end.

Definition header_crc_spec (data : list Z) (nibbles : Z) : Z :=
  crc_spec 4 0x13 (bits_from data 0 (Z.to_nat (nibbles * 4))).

Definition data_crc_spec (data : list Z) (bytes : Z) : Z :=
  crc_spec 8 0x1d5 (bits_from data 0 (Z.to_nat (bytes * 8))).

Lemma bit_at_eq data ai k :
  0 <= k < 8 -> bit_at data (8 * ai + k) = Z.testbit (rd data ai) (7 - k).
Proof.
  intros Hk. unfold bit_at.
  replace ((8 * ai + k) / 8) with ai by (apply (Z.div_unique_pos _ _ _ k); lia).
  by replace ((8 * ai + k) mod 8) with k by (apply (Z.mod_unique_pos _ _ ai); lia).
Qed.

(** The eight positions of the mask inside a byte. *)
Lemma bit_position k : 0 <= k < 8 ->
  k = 0 \/ k = 1 \/ k = 2 \/ k = 3 \/ k = 4 \/ k = 5 \/ k = 6 \/ k = 7.
Proof. lia. Qed.

(** The remainder after a message bit was shifted in. *)
Lemma shift_in_u8 r d k :
  0 <= r < 16 -> 0 <= k < 8 ->
  Z.lor (u8 (Z.shiftl r 1)) (Z.shiftr (Z.land d (2 ^ (7 - k))) (7 - k)) =
  2 * r + b2z (Z.testbit d (7 - k)).
Proof.
  intros Hr Hk. rewrite shiftr_land_pow2 by lia.
  rewrite Z.shiftl_mul_pow2, Z.mul_comm, u8_small by (unfold is_u8; lia).
  apply lor_double.
Qed.

Lemma crc4_step_spec r b :
  0 <= r < 16 ->
  (if Z.land (2 * r + b2z b) 0x10 =? 0x10 then Z.lxor (2 * r + b2z b) 0x13
   else 2 * r + b2z b) = div_step 4 0x13 r b.
Proof. intros Hr. unfold div_step. by rewrite (land_pow2_eqb _ 4). Qed.

Lemma crc4_data_loop_spec n data k ai r :
  0 <= k < 8 -> 0 <= ai -> 8 * ai + k + Z.of_nat n <= 2048 -> 0 <= r < 16 ->
  crc4_data_loop n data (2 ^ (7 - k)) (7 - k) ai r =
  div_bits 4 0x13 (bits_from data (8 * ai + k) n) r.
Proof.
  revert k ai r. induction n as [|n IH]; intros k ai r Hk Hai Hn Hr; [done|].
  cbn [crc4_data_loop bits_from]. unfold div_bits. cbn [fold_left].
  rewrite shift_in_u8, crc4_step_spec, bit_at_eq by lia.
  pose proof (div_step_bound 4 0x13 ltac:(lia) ltac:(lia) r
    (Z.testbit (rd data ai) (7 - k)) Hr) as Hr'.
  destruct (decide (k = 7)) as [-> |].
  - change (Z.shiftr (2 ^ (7 - 7)) 1 =? 0) with true. cbn match.
    destruct n as [|n]; [done|].
    rewrite u8_small by (unfold is_u8; lia).
    replace (8 * ai + 7 + 1) with (8 * (ai + 1) + 0) by lia. apply (IH 0); lia.
  - assert (Z.shiftr (2 ^ (7 - k)) 1 = 2 ^ (7 - (k + 1))) as ->
      by (destruct (bit_position k Hk) as [->|[->|[->|[->|[->|[->|[->| ->]]]]]]]; done).
    assert (2 ^ (7 - (k + 1)) =? 0 = false) as ->
      by (apply Z.eqb_neq, Z.pow_nonzero; lia).
    replace (u8 (7 - k - 1)) with (7 - (k + 1)) by (rewrite u8_small; unfold is_u8; lia).
    replace (8 * ai + k + 1) with (8 * ai + (k + 1)) by lia. apply IH; lia.
Qed.

Lemma crc4_flush_loop_spec n r :
  0 <= r < 16 -> crc4_flush_loop n r = div_bits 4 0x13 (replicate n false) r.
Proof.
  revert r. induction n as [|n IH]; intros r Hr; [done|].
  cbn [crc4_flush_loop replicate]. unfold div_bits. cbn [fold_left].
  rewrite Z.shiftl_mul_pow2, Z.mul_comm, u8_small by (unfold is_u8; lia).
  pose proof (div_step_bound 4 0x13 ltac:(lia) ltac:(lia) r false Hr) as Hr'.
  rewrite (land_pow2_eqb_0 _ 4), negb_involutive by lia.
  replace (2 ^ 1 * r) with (2 * r + b2z false) by (simpl; lia).
  apply (IH _ Hr').
Qed.

Lemma header_crc4_spec data nibbles :
  0 <= nibbles <= 512 ->
  drm_dp_msg_header_crc4 data nibbles = header_crc_spec data nibbles.
Proof.
  intros Hn. unfold drm_dp_msg_header_crc4, header_crc_spec, crc_spec.
  rewrite (crc4_data_loop_spec _ data 0 0 0) by lia.
  apply crc4_flush_loop_spec, div_bits_bound; lia.
Qed.

(** The eight-bit CRC is kept in a [u16] whose high byte is never cleared:
    only its low byte means anything. *)
Definition low8 (r r' : Z) : Prop :=
  forall n, 0 <= n < 8 -> Z.testbit r n = Z.testbit r' n.

(** The code's step on a 16-bit remainder follows the division step. *)
Lemma crc8_step_spec x r r' b :
  0 <= r' < 256 -> low8 r r' ->
  (forall n, 0 <= n < 9 -> Z.testbit x n = Z.testbit (2 * r + b2z b) n) ->
  low8 (if Z.testbit x 8 then Z.lxor x 0xd5 else x) (div_step 8 0x1d5 r' b).
Proof.
  intros Hr' Hl Hx. assert (forall n, 0 <= n < 9 ->
    Z.testbit x n = Z.testbit (2 * r' + b2z b) n) as Hx'.
  { intros n Hn. rewrite Hx by lia. change b2z with Z.b2z.
    destruct (decide (n = 0)) as [-> |]; [by rewrite !Z.testbit_0_r|].
    replace n with (Z.succ (n - 1)) by lia. rewrite !Z.testbit_succ_r by lia.
    apply Hl. lia. }
  unfold div_step. rewrite (Hx' 8) by lia. intros n Hn.
  destruct (Z.testbit (2 * r' + b2z b) 8).
  - rewrite !Z.lxor_spec, Hx' by lia. f_equal.
    change 0x1d5 with (Z.lor 0x100 0xd5). rewrite Z.lor_spec.
    by rewrite (Z.pow2_bits_false 8) by lia.
  - apply Hx'. lia.
Qed.

(** What [remainder <<= 1; remainder |= ...] leaves in the low nine bits. *)
Lemma shift_in_u16 r d k n :
  0 <= k < 8 -> 0 <= n < 9 ->
  Z.testbit (Z.lor (u16 (Z.shiftl r 1)) (Z.shiftr (Z.land d (2 ^ (7 - k))) (7 - k))) n =
  Z.testbit (2 * r + b2z (Z.testbit d (7 - k))) n.
Proof.
  intros Hk Hn. rewrite shiftr_land_pow2, <- lor_double by lia.
  rewrite !Z.lor_spec. f_equal. unfold u16. rewrite testbit_wrap by lia.
  rewrite Z.shiftl_mul_pow2, Z.mul_comm by lia. by destruct (Z.ltb_spec n 16); [|lia].
Qed.

Lemma crc8_data_loop_spec n data k ai r r' :
  0 <= k < 8 -> 0 <= ai -> 8 * ai + k + Z.of_nat n <= 2048 ->
  0 <= r' < 256 -> low8 r r' ->
  low8 (crc8_data_loop n data (2 ^ (7 - k)) (7 - k) ai r)
       (div_bits 8 0x1d5 (bits_from data (8 * ai + k) n) r').
Proof.
  revert k ai r r'. induction n as [|n IH]; intros k ai r r' Hk Hai Hn Hr' Hl; [done|].
  cbn [crc8_data_loop bits_from]. unfold div_bits. cbn [fold_left].
  rewrite bit_at_eq, (land_pow2_eqb _ 8) by lia.
  pose proof (crc8_step_spec _ r r' _ Hr' Hl
    (fun n Hn => shift_in_u16 r (rd data ai) k n Hk Hn)) as Hl'.
  pose proof (div_step_bound 8 0x1d5 ltac:(lia) ltac:(lia) r'
    (Z.testbit (rd data ai) (7 - k)) Hr') as Hb.
  destruct (decide (k = 7)) as [-> |].
  - change (Z.shiftr (2 ^ (7 - 7)) 1 =? 0) with true. cbn match.
    destruct n as [|n]; [exact Hl'|].
    rewrite u8_small by (unfold is_u8; lia).
    replace (8 * ai + 7 + 1) with (8 * (ai + 1) + 0) by lia.
    apply (IH 0); [lia..|exact Hl'].
  - assert (Z.shiftr (2 ^ (7 - k)) 1 = 2 ^ (7 - (k + 1))) as ->
      by (destruct (bit_position k Hk) as [->|[->|[->|[->|[->|[->|[->| ->]]]]]]]; done).
    assert (2 ^ (7 - (k + 1)) =? 0 = false) as ->
      by (apply Z.eqb_neq, Z.pow_nonzero; lia).
    replace (u8 (7 - k - 1)) with (7 - (k + 1)) by (rewrite u8_small; unfold is_u8; lia).
    replace (8 * ai + k + 1) with (8 * ai + (k + 1)) by lia.
    apply IH; [lia..|exact Hl'].
Qed.

Lemma crc8_flush_loop_spec n r r' :
  0 <= r' < 256 -> low8 r r' ->
  low8 (crc8_flush_loop n r) (div_bits 8 0x1d5 (replicate n false) r').
Proof.
  revert r r'. induction n as [|n IH]; intros r r' Hr' Hl; [done|].
  cbn [crc8_flush_loop replicate]. unfold div_bits. cbn [fold_left].
  rewrite (land_pow2_eqb_0 _ 8), negb_involutive by lia.
  apply IH; [by apply div_step_bound|].
  apply (crc8_step_spec _ r); [done..|]. intros m Hm.
  pose proof (shift_in_u16 r 0 7 m ltac:(lia) Hm) as H. rewrite Z.land_0_l in H.
  by rewrite Z.shiftr_0_l, Z.lor_0_r, Z.bits_0 in H.
Qed.

Lemma data_crc4_spec data bytes :
  0 <= bytes <= 256 ->
  drm_dp_msg_data_crc4 data bytes = data_crc_spec data bytes.
Proof.
  intros Hn. unfold drm_dp_msg_data_crc4, data_crc_spec, crc_spec.
  pose proof (div_bits_bound 8 0x1d5 ltac:(lia) ltac:(lia)
    (bits_from data 0 (Z.to_nat (bytes * 8))) 0 ltac:(lia)) as Hb.
  pose proof (crc8_data_loop_spec (Z.to_nat (bytes * 8)) data 0 0 0 0
    ltac:(lia) ltac:(lia) ltac:(lia) ltac:(lia) ltac:(done)) as Hl.
  pose proof (crc8_flush_loop_spec 8 _ _ Hb Hl) as Hf.
  pose proof (div_bits_bound 8 0x1d5 ltac:(lia) ltac:(lia) (replicate 8 false) _ Hb) as Hb'.
  apply Z.bits_inj'. intros m Hm. rewrite Z.land_spec.
  change 0xff with (Z.ones 8). rewrite Z.testbit_ones_nonneg by lia.
  destruct (Z.ltb_spec m 8).
  - rewrite andb_true_r. apply Hf. lia.
  - rewrite andb_false_r. symmetry. apply (testbit_high _ 8); [exact Hb'|lia].
Qed.
