(* ===== verification/DpSidebandSpec.v ===== *)
(** * Sideband messages: buffers, header round trip, reassembly

    Lemmas on the byte buffers, the exact bytes of the header, and the core
    arguments that the header decoder inverts the encoder and that the
    receiver's buffer holds the concatenation of the chunks. *)

From S2P Require Import Prelude DpSideband DpCrc.

#[local] Ltac Zify.zify_post_hook ::= Z.to_euclidean_division_equations.

(** ** Buffers *)

Lemma rd_cons x l i : 0 < i -> rd (x :: l) i = rd l (i - 1).
Proof.
  intros Hi. unfold rd. by replace (Z.to_nat i) with (S (Z.to_nat (i - 1))) by lia.
Qed.

Lemma rd_0 x l : rd (x :: l) 0 = x.
Proof. done. Qed.

Lemma rd_app_l l k i : 0 <= i < Z.of_nat (length l) -> rd (l ++ k) i = rd l i.
Proof. intros Hi. unfold rd. by rewrite lookup_app_l by lia. Qed.

Lemma rd_app_r l k i :
  Z.of_nat (length l) <= i -> rd (l ++ k) i = rd k (i - Z.of_nat (length l)).
Proof.
  intros Hi. unfold rd. rewrite lookup_app_r by lia. do 2 f_equal. lia.
Qed.

Lemma rd_take l n i : i < Z.of_nat n -> 0 <= i -> rd (take n l) i = rd l i.
Proof. intros. unfold rd. by rewrite lookup_take_lt by lia. Qed.

Lemma length_copy l i n : length (copy l i n) = Z.to_nat n.
Proof. unfold copy. by rewrite length_fmap, length_seqZ. Qed.

(** [memcpy] takes a slice. *)
Lemma copy_slice l i n :
  0 <= i -> 0 <= n -> i + n <= Z.of_nat (length l) ->
  copy l i n = take (Z.to_nat n) (drop (Z.to_nat i) l).
Proof.
  intros Hi Hn Hl. apply list_eq. intros k. unfold copy.
  destruct (decide (Z.of_nat k < n)).
  - rewrite list_lookup_fmap, lookup_seqZ_lt by lia. simpl.
    rewrite lookup_take_lt, lookup_drop by lia. unfold rd.
    replace (Z.to_nat (i + (0 + Z.of_nat k))) with (Z.to_nat i + k)%nat by lia.
    destruct (lookup_lt_is_Some_2 l (Z.to_nat i + k)) as [x ->]; [lia|done].
  - rewrite !lookup_ge_None_2; [done| |].
    + rewrite length_take. lia.
    + rewrite length_fmap, length_seqZ. lia.
Qed.

Lemma copy_all l : copy l 0 (Z.of_nat (length l)) = l.
Proof. rewrite copy_slice by lia. by rewrite Nat2Z.id, take_ge. Qed.

Lemma copy_app l k m i n :
  i = Z.of_nat (length l) -> n = Z.of_nat (length k) ->
  copy (l ++ k ++ m) i n = k.
Proof.
  intros -> ->. rewrite copy_slice by (rewrite ?length_app; lia).
  by rewrite !Nat2Z.id, drop_app_length, take_app_length.
Qed.

Lemma copy_prefix l k n : n = Z.of_nat (length l) -> copy (l ++ k) 0 n = l.
Proof. intros ->. by apply (copy_app [] l k). Qed.

(** A copy into the free part of an array. *)
Lemma blit_ok buf off bytes :
  0 <= off -> off + Z.of_nat (length bytes) <= Z.of_nat (length buf) ->
  blit buf off bytes =
  Ok (take (Z.to_nat off) buf ++ bytes ++ drop (Z.to_nat off + length bytes) buf).
Proof. intros. unfold blit. case_if; [done|]. destruct (Z.leb_spec 0 off); simpl in *; b2p; lia. Qed.

Lemma blit_append pre rest bytes off :
  off = Z.of_nat (length pre) -> (length bytes <= length rest)%nat ->
  blit (pre ++ rest) off bytes =
  Ok ((pre ++ bytes) ++ drop (length bytes) rest).
Proof.
  intros -> H. rewrite blit_ok by (rewrite ?length_app; lia).
  rewrite Nat2Z.id, take_app_length, drop_app_ge by lia.
  by replace (length pre + length bytes - length pre)%nat with (length bytes) by lia;
    rewrite <- app_assoc.
Qed.

(** ** The header *)

Record wf_hdr (h : drm_dp_sideband_msg_hdr) : Prop := {
  wf_lct : 1 <= hdr_lct h <= 15;
  wf_lcr : 0 <= hdr_lcr h <= 15;
  wf_rad : Z.of_nat (length (hdr_rad h)) = hdr_lct h / 2;
  wf_rad_u8 : Forall is_u8 (hdr_rad h);
  wf_msg_len : 0 <= hdr_msg_len h < 64;
}.

Lemma flags_byte b p m :
  0 <= m < 64 ->
  u8 (Z.lor (Z.lor (Z.shiftl (b2z b) 7) (Z.shiftl (b2z p) 6)) (Z.land m 0x3f)) =
  b2z b * 128 + b2z p * 64 + m.
Proof.
  intros Hm. rewrite (land_mask_id m 6) by done.
  replace (Z.lor (Z.shiftl (b2z b) 7) (Z.shiftl (b2z p) 6))
    with (Z.shiftl (2 * b2z b + b2z p) 6) by (by destruct b, p).
  rewrite lor_shift by lia.
  rewrite u8_small; destruct b, p; simpl; unfold is_u8; lia.
Qed.

Lemma somt_byte s e q :
  u8 (Z.lor (Z.lor (Z.shiftl (b2z s) 7) (Z.shiftl (b2z e) 6)) (Z.shiftl (b2z q) 4)) =
  b2z s * 128 + b2z e * 64 + b2z q * 16.
Proof. by destruct s, e, q. Qed.

Lemma nibbles_byte a b :
  0 <= a < 16 -> 0 <= b < 16 ->
  u8 (Z.lor (Z.shiftl (Z.land a 0xf) 4) (Z.land b 0xf)) = a * 16 + b.
Proof.
  intros Ha Hb. rewrite !(land_mask_id _ 4) by done.
  rewrite lor_shift by lia. rewrite u8_small; unfold is_u8; lia.
Qed.

(** The header as the four groups of bytes it consists of; [crc] is the
    nibble in its last byte. *)
Definition hdr_layout (h : drm_dp_sideband_msg_hdr) (crc : Z) : list Z :=
  [hdr_lct h * 16 + hdr_lcr h] ++ hdr_rad h ++
  [b2z (hdr_broadcast h) * 128 + b2z (hdr_path_msg h) * 64 + hdr_msg_len h;
   b2z (hdr_somt h) * 128 + b2z (hdr_eomt h) * 64 + b2z (hdr_seqno h) * 16 + crc].

Definition hdr_size (h : drm_dp_sideband_msg_hdr) : Z := 3 + hdr_lct h / 2.

Lemma length_hdr_layout h c :
  wf_hdr h -> Z.of_nat (length (hdr_layout h c)) = hdr_size h.
Proof.
  intros [????]. unfold hdr_layout, hdr_size. rewrite !length_app. simpl. lia.
Qed.

Lemma hdr_bytes_layout h : wf_hdr h -> hdr_bytes h = hdr_layout h 0.
Proof.
  intros [????]. unfold hdr_bytes, hdr_layout.
  rewrite nibbles_byte, flags_byte, somt_byte by lia.
  rewrite <- wf_rad0, copy_all. by rewrite Z.add_0_r.
Qed.

Lemma rd_layout_last h c k :
  wf_hdr h ->
  rd (hdr_layout h c ++ k) (hdr_size h - 1) =
  b2z (hdr_somt h) * 128 + b2z (hdr_eomt h) * 64 + b2z (hdr_seqno h) * 16 + c.
Proof.
  intros Hw. pose proof (length_hdr_layout h c Hw) as Hlen.
  destruct Hw as [????]. unfold hdr_size in *.
  rewrite rd_app_l by lia. unfold hdr_layout.
  rewrite rd_app_r by (simpl; lia). rewrite rd_app_r by (simpl; lia).
  cbn [length]. by replace (3 + hdr_lct h / 2 - 1 - Z.of_nat 1 - Z.of_nat (length (hdr_rad h)))
    with 1 by lia.
Qed.

(** Adding the CRC nibble does not change the bits it is computed from. *)
Lemma bits_from_ext d d' j n :
  (forall i, j <= i < j + Z.of_nat n -> bit_at d i = bit_at d' i) ->
  bits_from d j n = bits_from d' j n.
Proof.
  revert j. induction n as [|n IH]; intros j H; [done|]. cbn [bits_from].
  f_equal; [apply H; lia|]. apply IH. intros. apply H. lia.
Qed.

Lemma testbit_nibble a c n :
  0 <= c < 16 -> 4 <= n -> Z.testbit (a * 16 + c) n = Z.testbit a (n - 4).
Proof.
  intros Hc Hn. change 16 with (2 ^ 4). rewrite <- (lor_shift a 4 c) by lia.
  by rewrite Z.lor_spec, Z.shiftl_spec, (testbit_high c 4), orb_false_r by lia.
Qed.

Definition hdr_front (h : drm_dp_sideband_msg_hdr) : list Z :=
  [hdr_lct h * 16 + hdr_lcr h] ++ hdr_rad h ++
  [b2z (hdr_broadcast h) * 128 + b2z (hdr_path_msg h) * 64 + hdr_msg_len h].

Definition hdr_last (h : drm_dp_sideband_msg_hdr) : Z :=
  b2z (hdr_somt h) * 8 + b2z (hdr_eomt h) * 4 + b2z (hdr_seqno h).

Lemma hdr_layout_split h c :
  hdr_layout h c = hdr_front h ++ [hdr_last h * 16 + c].
Proof.
  unfold hdr_layout, hdr_front, hdr_last. rewrite <- !app_assoc. simpl.
  do 5 f_equal. lia.
Qed.

Lemma length_hdr_front h :
  wf_hdr h -> Z.of_nat (length (hdr_front h)) = hdr_size h - 1.
Proof.
  intros Hw. pose proof (length_hdr_layout h 0 Hw) as H.
  rewrite hdr_layout_split, length_app in H. cbn [length] in H. lia.
Qed.

Lemma hdr_size_bound h : wf_hdr h -> 3 <= hdr_size h <= 10.
Proof. intros [????]. unfold hdr_size. lia. Qed.

(** The bits the header CRC covers. *)
Lemma bit_at_layout h c k i :
  wf_hdr h -> 0 <= c < 16 -> 0 <= i < (hdr_size h * 2 - 1) * 4 ->
  bit_at (hdr_layout h c ++ k) i = bit_at (hdr_layout h 0) i.
Proof.
  intros Hw Hc Hi. pose proof (length_hdr_front h Hw) as Hf.
  pose proof (hdr_size_bound h Hw) as Hs.
  rewrite !hdr_layout_split, <- app_assoc. unfold bit_at.
  assert (0 <= i / 8 <= hdr_size h - 1) by lia.
  destruct (decide (i / 8 = hdr_size h - 1)) as [He|].
  - rewrite !(rd_app_r (hdr_front h)) by lia. rewrite Hf, He.
    replace (hdr_size h - 1 - (hdr_size h - 1)) with 0 by lia. cbn [app]. rewrite !rd_0.
    rewrite !testbit_nibble by lia. done.
  - by rewrite !(rd_app_l (hdr_front h)) by lia.
Qed.

Lemma header_crc_spec_bound d n : 0 <= header_crc_spec d n < 16.
Proof. unfold header_crc_spec, crc_spec. apply (div_bits_bound 4); [lia..|]. apply (div_bits_bound 4); lia. Qed.

Lemma data_crc_spec_bound d n : 0 <= data_crc_spec d n < 256.
Proof. unfold data_crc_spec, crc_spec. apply (div_bits_bound 8); [lia..|]. apply (div_bits_bound 8); lia. Qed.

Definition hdr_crc (h : drm_dp_sideband_msg_hdr) : Z :=
  header_crc_spec (hdr_layout h 0) (hdr_size h * 2 - 1).

Lemma header_crc_layout h c k :
  wf_hdr h -> 0 <= c < 16 ->
  drm_dp_msg_header_crc4 (hdr_layout h c ++ k) (hdr_size h * 2 - 1) = hdr_crc h.
Proof.
  intros Hw Hc. pose proof (hdr_size_bound h Hw).
  rewrite header_crc4_spec by lia. unfold hdr_crc, header_crc_spec. f_equal.
  apply bits_from_ext. intros i Hi. apply bit_at_layout; [done..|lia].
Qed.

(** The exact bytes of an encoded header. *)
Lemma encode_hdr_layout h :
  wf_hdr h -> drm_dp_encode_sideband_msg_hdr h = hdr_layout h (hdr_crc h).
Proof.
  intros Hw. unfold drm_dp_encode_sideband_msg_hdr.
  rewrite hdr_bytes_layout, length_hdr_layout by done.
  pose proof (header_crc_layout h 0 [] Hw ltac:(lia)) as Hcrc.
  rewrite app_nil_r in Hcrc. rewrite Hcrc.
  pose proof (rd_layout_last h 0 [] Hw) as Hlast. rewrite app_nil_r in Hlast.
  rewrite Hlast. pose proof (header_crc_spec_bound (hdr_layout h 0) (hdr_size h * 2 - 1)) as Hb.
  fold (hdr_crc h) in Hb. rewrite (land_mask_id _ 4) by done.
  rewrite !hdr_layout_split.
  rewrite insert_app_r_alt by (pose proof (length_hdr_front h Hw); lia).
  replace (Z.to_nat (hdr_size h - 1) - length (hdr_front h))%nat with 0%nat
    by (pose proof (length_hdr_front h Hw); lia).
  simpl. do 2 f_equal. rewrite <- (lor_shift (hdr_last h) 4 (hdr_crc h) ltac:(lia) Hb : _ = hdr_last h * 16 + _).
  f_equal.
  rewrite Z.shiftl_mul_pow2 by lia. unfold hdr_last. f_equal. lia.
Qed.

(** Reads a flag from a sum of bit fields. *)
Ltac flag b := rewrite testbit_div by lia;
  repeat match goal with |- context [b2z ?x] =>
    lazymatch goal with
    | H : 0 <= b2z x <= 1 |- _ => fail
    | _ => pose proof (b2z_range x)
    end end;
  destruct b; [apply Z.eqb_eq|apply Z.eqb_neq]; cbn [b2z] in *; lia.

(** What the decoder reads from the bytes of a header. *)
Lemma decode_layout h k buflen :
  wf_hdr h -> hdr_size h <= buflen ->
  drm_dp_decode_sideband_msg_hdr (hdr_layout h (hdr_crc h) ++ k) buflen =
  Some (h, hdr_size h).
Proof.
  intros Hw Hl. pose proof (header_crc_spec_bound (hdr_layout h 0) (hdr_size h * 2 - 1)) as Hb.
  fold (hdr_crc h) in Hb. pose proof (hdr_size_bound h Hw) as Hs.
  pose proof (header_crc_layout h (hdr_crc h) k Hw Hb) as Hcrc.
  pose proof (rd_layout_last h (hdr_crc h) k Hw) as Hlast.
  unfold drm_dp_decode_sideband_msg_hdr.
  assert (rd (hdr_layout h (hdr_crc h) ++ k) 0 = hdr_lct h * 16 + hdr_lcr h) as -> by done.
  assert (Z.shiftr (Z.land (hdr_lct h * 16 + hdr_lcr h) 0xf0) 4 = hdr_lct h) as ->.
  { destruct Hw as [????]. rewrite Z.shiftr_land, Z.shiftr_div_pow2 by lia.
    change (Z.shiftr 0xf0 4) with 15. rewrite (land_mask _ 4) by done. lia. }
  destruct (Z.eqb_spec (hdr_lct h * 16 + hdr_lcr h) 0); [destruct Hw; lia|].
  fold (hdr_size h). destruct (Z.ltb_spec buflen (hdr_size h)); [lia|].
  rewrite Hcrc, Hlast.
  rewrite (land_mask _ 4 15), (land_mask _ 4 15) by done.
  destruct (Z.eqb_spec (hdr_crc h mod 2 ^ 4)
    ((b2z (hdr_somt h) * 128 + b2z (hdr_eomt h) * 64 + b2z (hdr_seqno h) * 16 + hdr_crc h) mod 2 ^ 4))
    as [_|Hne].
  2: { destruct Hne. lia. }
  cbn [negb]. replace (1 + hdr_lct h / 2 + 1) with (hdr_size h - 1) by (unfold hdr_size; lia).
  rewrite Hlast, !truth_bit by lia.
  assert (rd (hdr_layout h (hdr_crc h) ++ k) (1 + hdr_lct h / 2) =
    b2z (hdr_broadcast h) * 128 + b2z (hdr_path_msg h) * 64 + hdr_msg_len h) as ->.
  { destruct Hw as [?? Hr ??]. unfold hdr_layout. rewrite <- !app_assoc.
    rewrite rd_app_r by (simpl; lia). rewrite rd_app_r by (simpl; lia).
    by replace (1 + hdr_lct h / 2 - Z.of_nat _ - Z.of_nat (length (hdr_rad h))) with 0
      by (simpl; lia). }
  replace (copy (hdr_layout h (hdr_crc h) ++ k) 1 (hdr_lct h / 2)) with (hdr_rad h).
  2: { destruct Hw. unfold hdr_layout. rewrite <- !app_assoc. symmetry.
       by apply copy_app. }
  destruct Hw as [? Hlcr ?? Hm]. destruct h as [lct lcr rad bc pm ml so eo sq];
    cbn [hdr_lct hdr_lcr hdr_rad hdr_broadcast hdr_path_msg hdr_msg_len hdr_somt
         hdr_eomt hdr_seqno] in *.
  f_equal. f_equal; [|unfold hdr_size; simpl; lia]. f_equal.
  - rewrite ?(land_mask _ 4 15) by done. lia.
  - flag bc.
  - flag pm.
  - rewrite (land_mask _ 6) by done. lia.
  - flag so.
  - flag eo.
  - flag sq.
Qed.
