(* ===== verification/DpMst.v ===== *)
(** * The MST topology manager: message queues and reception

    [struct drm_dp_mst_topology_mgr] and the objects it points to.  Transmit
    messages, branch devices and ports are shared objects: they live in finite
    maps from an identifier (the pointer) to the object, so that a slot of a
    branch and a queue of the manager can refer to the same message, and a
    freed message is one whose identifier is no longer in the map.

    The AUX channel below ([drm_dp_dpcd_write], [drm_dp_dpcd_read]) is a
    parameter: a function on an abstract device state. *)

From S2P Require Import Prelude DpSideband.

(** Constants of include/drm/drm_dp_mst_helper.h and drm_dp_helper.h. *)
Class mst_h := {
  DRM_DP_SIDEBAND_TX_QUEUED : Z;
  DRM_DP_SIDEBAND_TX_START_SEND : Z;
  DRM_DP_SIDEBAND_TX_SENT : Z;
  DRM_DP_SIDEBAND_TX_RX : Z;
  DRM_DP_SIDEBAND_TX_TIMEOUT : Z;
  DP_SIDEBAND_MSG_UP_REP_BASE : Z;
  DP_SIDEBAND_MSG_DOWN_REQ_BASE : Z;
  DP_SIDEBAND_MSG_UP_REQ_BASE : Z;
  DP_SIDEBAND_MSG_DOWN_REP_BASE : Z;
}.

Definition tx_states `{mst_h} : list Z :=
  [DRM_DP_SIDEBAND_TX_QUEUED; DRM_DP_SIDEBAND_TX_START_SEND;
   DRM_DP_SIDEBAND_TX_SENT; DRM_DP_SIDEBAND_TX_RX; DRM_DP_SIDEBAND_TX_TIMEOUT].

(** The states are distinct, and [kzalloc] leaves a message queued: no
    function of the file sets that state. *)
Class mst_h_ok `{mst_h} : Prop := {
  tx_states_distinct : NoDup tx_states;
  tx_queued_zero : DRM_DP_SIDEBAND_TX_QUEUED = 0;
}.

(** [struct drm_dp_sideband_msg_tx] *)
Record drm_dp_sideband_msg_tx := {
  tx_dst : nat;
  tx_seqno : Z;
  tx_state : Z;
  tx_path_msg : bool;
  tx_msg : list Z;
  tx_cur_len : Z;
  tx_cur_offset : Z;
  tx_reply : drm_dp_sideband_msg_reply_body;
}.

(** [struct drm_dp_mst_branch], the part that messages use *)
Record drm_dp_mst_branch := {
  br_lct : Z;
  br_rad : list Z;
  br_slot0 : option nat;
  br_slot1 : option nat;
  br_last_seqno : Z;
  br_ports : list nat;
}.

(** [struct drm_dp_mst_port], the part that the lookup of a branch uses *)
Record drm_dp_mst_port := {
  port_port_num : Z;
  port_mstb : option nat;
}.

Definition br_tx_slot (b : drm_dp_mst_branch) (i : Z) : option nat :=
  if i =? 0 then br_slot0 b else br_slot1 b.

(** [mstb->tx_slots[i] = v]: the array has two entries. *)
Definition br_set_slot (i : Z) (v : option nat) (b : drm_dp_mst_branch)
    : run drm_dp_mst_branch :=
  let mk s0 s1 :=
    {| br_lct := br_lct b; br_rad := br_rad b; br_slot0 := s0; br_slot1 := s1;
       br_last_seqno := br_last_seqno b; br_ports := br_ports b |} in
  if i =? 0 then Done (mk v (br_slot1 b))
  else if i =? 1 then Done (mk (br_slot0 b) v)
  else Oops.

Definition br_set_last (n : Z) (b : drm_dp_mst_branch) : drm_dp_mst_branch :=
  {| br_lct := br_lct b; br_rad := br_rad b; br_slot0 := br_slot0 b;
     br_slot1 := br_slot1 b; br_last_seqno := n; br_ports := br_ports b |}.

Definition tx_set (seqno state cur_offset : Z) (t : drm_dp_sideband_msg_tx)
    : drm_dp_sideband_msg_tx :=
  {| tx_dst := tx_dst t; tx_seqno := seqno; tx_state := state;
     tx_path_msg := tx_path_msg t; tx_msg := tx_msg t;
     tx_cur_len := tx_cur_len t; tx_cur_offset := cur_offset;
     tx_reply := tx_reply t |}.

Definition tx_set_state (state : Z) (t : drm_dp_sideband_msg_tx) :=
  tx_set (tx_seqno t) state (tx_cur_offset t) t.

(** A message as [kzalloc] and a builder leave it. *)
Definition new_tx (dst : nat) (seqno : Z) (enc : list Z * bool)
    : drm_dp_sideband_msg_tx :=
  {| tx_dst := dst; tx_seqno := seqno; tx_state := 0; tx_path_msg := snd enc;
     tx_msg := fst enc; tx_cur_len := Z.of_nat (length (fst enc));
     tx_cur_offset := 0; tx_reply := zero_reply |}.

(** The manager's sideband state; [mgr_dev] is the state of the device behind
    the AUX channel. *)
Record mst_mgr (D : Type) := {
  mgr_txs : gmap nat drm_dp_sideband_msg_tx;
  mgr_mstbs : gmap nat drm_dp_mst_branch;
  mgr_ports : gmap nat drm_dp_mst_port;
  mgr_mst_primary : option nat;
  mgr_tx_msg_downq : list nat;
  mgr_tx_msg_upq : list nat;
  mgr_tx_down_in_progress : bool;
  mgr_tx_up_in_progress : bool;
  mgr_max_dpcd_transaction_bytes : Z;
  mgr_down_rep_recv : drm_dp_sideband_msg_rx;
  mgr_up_req_recv : drm_dp_sideband_msg_rx;
  mgr_dev : D;
}.
Arguments mgr_txs {D}. Arguments mgr_mstbs {D}. Arguments mgr_ports {D}.
Arguments mgr_mst_primary {D}. Arguments mgr_tx_msg_downq {D}.
Arguments mgr_tx_msg_upq {D}. Arguments mgr_tx_down_in_progress {D}.
Arguments mgr_tx_up_in_progress {D}.
Arguments mgr_max_dpcd_transaction_bytes {D}. Arguments mgr_dev {D}.
Arguments mgr_down_rep_recv {D}. Arguments mgr_up_req_recv {D}.

Section queues.
Context {D : Type} `{dp_h} `{mst_h}.
Context (drm_dp_dpcd_write : Z -> list Z -> D -> Z * D).

Definition with_objs (txs : gmap nat drm_dp_sideband_msg_tx)
    (mstbs : gmap nat drm_dp_mst_branch) (m : mst_mgr D) : mst_mgr D :=
  {| mgr_txs := txs; mgr_mstbs := mstbs;
     mgr_ports := mgr_ports m; mgr_mst_primary := mgr_mst_primary m;
     mgr_tx_msg_downq := mgr_tx_msg_downq m; mgr_tx_msg_upq := mgr_tx_msg_upq m;
     mgr_tx_down_in_progress := mgr_tx_down_in_progress m;
     mgr_tx_up_in_progress := mgr_tx_up_in_progress m;
     mgr_max_dpcd_transaction_bytes := mgr_max_dpcd_transaction_bytes m;
     mgr_down_rep_recv := mgr_down_rep_recv m; mgr_up_req_recv := mgr_up_req_recv m;
     mgr_dev := mgr_dev m |}.

Definition with_tx (id : nat) (t : drm_dp_sideband_msg_tx) (m : mst_mgr D) :=
  with_objs (<[id := t]> (mgr_txs m)) (mgr_mstbs m) m.

Definition with_mstb (id : nat) (b : drm_dp_mst_branch) (m : mst_mgr D) :=
  with_objs (mgr_txs m) (<[id := b]> (mgr_mstbs m)) m.

Definition with_queues (downq upq : list nat) (down_busy up_busy : bool)
    (m : mst_mgr D) : mst_mgr D :=
  {| mgr_txs := mgr_txs m; mgr_mstbs := mgr_mstbs m;
     mgr_ports := mgr_ports m; mgr_mst_primary := mgr_mst_primary m;
     mgr_tx_msg_downq := downq; mgr_tx_msg_upq := upq;
     mgr_tx_down_in_progress := down_busy; mgr_tx_up_in_progress := up_busy;
     mgr_max_dpcd_transaction_bytes := mgr_max_dpcd_transaction_bytes m;
     mgr_down_rep_recv := mgr_down_rep_recv m; mgr_up_req_recv := mgr_up_req_recv m;
     mgr_dev := mgr_dev m |}.

Definition with_dev (d : D) (m : mst_mgr D) : mst_mgr D :=
  {| mgr_txs := mgr_txs m; mgr_mstbs := mgr_mstbs m;
     mgr_ports := mgr_ports m; mgr_mst_primary := mgr_mst_primary m;
     mgr_tx_msg_downq := mgr_tx_msg_downq m; mgr_tx_msg_upq := mgr_tx_msg_upq m;
     mgr_tx_down_in_progress := mgr_tx_down_in_progress m;
     mgr_tx_up_in_progress := mgr_tx_up_in_progress m;
     mgr_max_dpcd_transaction_bytes := mgr_max_dpcd_transaction_bytes m;
     mgr_down_rep_recv := mgr_down_rep_recv m; mgr_up_req_recv := mgr_up_req_recv m;
     mgr_dev := d |}.

(** The [do ... while] of [drm_dp_send_sideband_msg] and its [goto retry]. *)
Fixpoint send_loop (fuel : nat) (max regbase : Z) (msg : list Z)
    (len total offset retries : Z) (d : D) : run (Z * D) :=
  match fuel with
  | O => Loops
  | S fuel =>
    let tosend := Z.min max (Z.min 16 total) in
    let '(ret, d) := drm_dp_dpcd_write (regbase + offset) (copy msg offset tosend) d in
    if negb (ret =? tosend) then
      if (ret =? - EIO) && (retries <? 5)
      then send_loop fuel max regbase msg len len 0 (retries + 1) d
      else Done (- EIO, d)
    else
      let offset := offset + tosend in
      let total := total - tosend in
      if 0 <? total then send_loop fuel max regbase msg len total offset retries d
      else Done (0, d)
  end.

Definition drm_dp_send_sideband_msg (max : Z) (up : bool) (msg : list Z)
    (len : Z) (d : D) : run (Z * D) :=
  let regbase := if up then DP_SIDEBAND_MSG_UP_REP_BASE
                 else DP_SIDEBAND_MSG_DOWN_REQ_BASE in
  send_loop (Z.to_nat (6 * (len + 1))) max regbase msg len len 0 0 d.

(** Returns the code, the header's part that depends on the destination, and
    the objects with the slot taken. *)
Definition set_hdr_from_dst_qlock (id : nat) (m : mst_mgr D)
    : run (Z * drm_dp_sideband_msg_hdr * mst_mgr D) :=
  txmsg ← deref (mgr_txs m !! id);
  mstb ← deref (mgr_mstbs m !! tx_dst txmsg);
  let fill (txmsg : drm_dp_sideband_msg_tx) :=
    {| hdr_lct := br_lct mstb; hdr_lcr := u8 (br_lct mstb - 1);
       hdr_rad := if 1 <? br_lct mstb then take (Z.to_nat (br_lct mstb / 2)) (br_rad mstb)
                  else [];
       hdr_broadcast := false; hdr_path_msg := tx_path_msg txmsg;
       hdr_msg_len := 0; hdr_somt := false; hdr_eomt := false;
       hdr_seqno := truth (tx_seqno txmsg) |} in
  if tx_seqno txmsg =? -1 then
    match br_slot0 mstb, br_slot1 mstb with
    | Some _, Some _ => Done (- EAGAIN, zero_hdr, m)
    | s0, s1 =>
      let '(seqno, mstb') :=
        match s0, s1 with
        | None, None =>
          (br_last_seqno mstb, br_set_last (Z.lxor (br_last_seqno mstb) 1) mstb)
        | None, _ => (0, mstb)
        | _, _ => (1, mstb)
        end in
      let txmsg' := tx_set seqno (tx_state txmsg) (tx_cur_offset txmsg) txmsg in
      let m := with_tx id txmsg' m in
      mstb' ← br_set_slot seqno (Some id) mstb';
      Done (0, fill txmsg', with_mstb (tx_dst txmsg) mstb' m)
    end
  else Done (0, fill txmsg, m).

Definition with_len (hdr : drm_dp_sideband_msg_hdr) (somt eomt : bool) (msg_len : Z) :=
  {| hdr_lct := hdr_lct hdr; hdr_lcr := hdr_lcr hdr; hdr_rad := hdr_rad hdr;
     hdr_broadcast := hdr_broadcast hdr; hdr_path_msg := hdr_path_msg hdr;
     hdr_msg_len := msg_len; hdr_somt := somt; hdr_eomt := eomt;
     hdr_seqno := hdr_seqno hdr |}.

(** The chunk of a message that starts at [cur_offset], and [tosend]. *)
Definition make_chunk (hdr : drm_dp_sideband_msg_hdr) (txmsg : drm_dp_sideband_msg_tx)
    : list Z * Z :=
  let len := tx_cur_len txmsg - tx_cur_offset txmsg in
  let space := 48 - 1 - drm_dp_calc_sb_hdr_size hdr in
  let tosend := Z.min len space in
  let hdr := with_len hdr (len =? tx_cur_len txmsg) (len <=? space) (u8 (tosend + 1)) in
  let chunk := drm_dp_encode_sideband_msg_hdr hdr in
  (chunk ++ drm_dp_crc_sideband_chunk_req
              (copy (tx_msg txmsg) (tx_cur_offset txmsg) tosend) tosend, tosend).

Definition process_single_tx_qlock (id : nat) (up : bool) (m : mst_mgr D)
    : run (Z * mst_mgr D) :=
  txmsg ← deref (mgr_txs m !! id);
  let m := if tx_state txmsg =? DRM_DP_SIDEBAND_TX_QUEUED
           then with_tx id (tx_set (-1) DRM_DP_SIDEBAND_TX_START_SEND
                              (tx_cur_offset txmsg) txmsg) m
           else m in
  r ← set_hdr_from_dst_qlock id m;
  let '(ret, hdr, m) := r in
  if ret <? 0 then Done (ret, m) else
  txmsg ← deref (mgr_txs m !! id);
  let '(chunk, tosend) := make_chunk hdr txmsg in
  s ← drm_dp_send_sideband_msg (mgr_max_dpcd_transaction_bytes m) up chunk
        (Z.of_nat (length chunk)) (mgr_dev m);
  let '(ret, d) := s in
  let m := with_dev d m in
  if negb (ret =? 0) then Done (ret, m) else
  let cur_offset := tx_cur_offset txmsg + tosend in
  if cur_offset =? tx_cur_len txmsg then
    Done (1, with_tx id (tx_set (tx_seqno txmsg) DRM_DP_SIDEBAND_TX_SENT
                           cur_offset txmsg) m)
  else Done (0, with_tx id (tx_set (tx_seqno txmsg) (tx_state txmsg)
                              cur_offset txmsg) m).

(** Must be called holding [qlock]. *)
Definition process_single_down_tx_qlock (m : mst_mgr D) : run (mst_mgr D) :=
  let set_down q busy (m : mst_mgr D) :=
    with_queues q (mgr_tx_msg_upq m) busy (mgr_tx_up_in_progress m) m in
  match mgr_tx_msg_downq m with
  | [] => Done (set_down [] false m)
  | id :: _ =>
    let m := set_down (mgr_tx_msg_downq m) true m in
    r ← process_single_tx_qlock id false m;
    let '(ret, m) := r in
    m ←
      (if ret =? 1 then
         Done (set_down (list_del id (mgr_tx_msg_downq m)) true m)
       else if truth ret then
         let m := set_down (list_del id (mgr_tx_msg_downq m)) true m in
         txmsg ← deref (mgr_txs m !! id);
         m ←
           (if negb (tx_seqno txmsg =? -1) then
              mstb ← deref (mgr_mstbs m !! tx_dst txmsg);
              mstb ← br_set_slot (tx_seqno txmsg) None mstb;
              Done (with_mstb (tx_dst txmsg) mstb m)
            else Done m);
         Done (with_tx id (tx_set_state DRM_DP_SIDEBAND_TX_TIMEOUT txmsg) m)
       else Done m);
    match mgr_tx_msg_downq m with
    | [] => Done (set_down [] false m)
    | _ => Done m
    end
  end.

(** Called holding [qlock]; a message that was sent is freed. *)
Definition process_single_up_tx_qlock (m : mst_mgr D) : run (mst_mgr D) :=
  let set_up q busy (m : mst_mgr D) :=
    with_queues (mgr_tx_msg_downq m) q (mgr_tx_down_in_progress m) busy m in
  match mgr_tx_msg_upq m with
  | [] => Done (set_up [] false m)
  | id :: _ =>
    r ← process_single_tx_qlock id true m;
    let '(ret, m) := r in
    if ret =? 1 then
      let m := set_up (list_del id (mgr_tx_msg_upq m)) true m in
      Done (with_objs (delete id (mgr_txs m)) (mgr_mstbs m) m)
    else Done (set_up (mgr_tx_msg_upq m) true m)
  end.

Definition drm_dp_queue_down_tx (id : nat) (m : mst_mgr D) : run (mst_mgr D) :=
  let m := with_queues (mgr_tx_msg_downq m ++ [id]) (mgr_tx_msg_upq m)
             (mgr_tx_down_in_progress m) (mgr_tx_up_in_progress m) m in
  if mgr_tx_down_in_progress m then Done m else process_single_down_tx_qlock m.

(** The worker that [drm_dp_mst_kick_tx] schedules. *)
Definition drm_dp_tx_work (m : mst_mgr D) : run (mst_mgr D) :=
  if mgr_tx_down_in_progress m then process_single_down_tx_qlock m else Done m.

Definition drm_dp_encode_up_ack_reply (req_type : Z) : list Z :=
  drm_dp_encode_sideband_reply 1 req_type.

(** [id] is the address that [kzalloc] returns. *)
Definition drm_dp_send_up_ack_reply (id mstb : nat) (req_type seqno : Z)
    (m : mst_mgr D) : run (mst_mgr D) :=
  let m := with_tx id (new_tx mstb seqno (drm_dp_encode_up_ack_reply req_type, false)) m in
  let m := with_queues (mgr_tx_msg_downq m) (mgr_tx_msg_upq m ++ [id])
             (mgr_tx_down_in_progress m) (mgr_tx_up_in_progress m) m in
  if mgr_tx_up_in_progress m then Done m else process_single_up_tx_qlock m.

(** *** Waiting for a reply *)
Definition check_txmsg_state (txmsg : drm_dp_sideband_msg_tx) : bool :=
  (tx_state txmsg =? DRM_DP_SIDEBAND_TX_RX) ||
  (tx_state txmsg =? DRM_DP_SIDEBAND_TX_TIMEOUT).

(** [ret] is what [wait_event_timeout] returned: positive when the condition
    held, 0 when the time was over. *)
Definition drm_dp_mst_wait_tx_reply (ret : Z) (mstb_id id : nat) (m : mst_mgr D)
    : run (Z * mst_mgr D) :=
  txmsg ← deref (mgr_txs m !! id);
  if 0 <? ret then
    if tx_state txmsg =? DRM_DP_SIDEBAND_TX_TIMEOUT then Done (- EIO, m)
    else Done (ret, m)
  else
    let m :=
      if (tx_state txmsg =? DRM_DP_SIDEBAND_TX_QUEUED) ||
         (tx_state txmsg =? DRM_DP_SIDEBAND_TX_START_SEND)
      then with_queues (list_del id (mgr_tx_msg_downq m))
             (list_del id (mgr_tx_msg_upq m)) (mgr_tx_down_in_progress m)
             (mgr_tx_up_in_progress m) m
      else m in
    if (tx_state txmsg =? DRM_DP_SIDEBAND_TX_START_SEND) ||
       (tx_state txmsg =? DRM_DP_SIDEBAND_TX_SENT) then
      mstb ← deref (mgr_mstbs m !! mstb_id);
      mstb ← br_set_slot (tx_seqno txmsg) None mstb;
      Done (- EIO, with_mstb mstb_id mstb m)
    else Done (- EIO, m).

(** *** Reception *)
Context (drm_dp_dpcd_read : Z -> Z -> list Z -> D -> Z * list Z).

(** The [while] loop of [drm_dp_get_one_sb_msg]: [replyblock] keeps its old
    contents when a read fails. *)
Fixpoint get_more_loop (fuel : nat) (max basereg curreply replylen : Z)
    (replyblock : list Z) (d : D) (msg : drm_dp_sideband_msg_rx)
    : run drm_dp_sideband_msg_rx :=
  if 0 <? replylen then
    match fuel with
    | O => Loops
    | S fuel =>
      let len := Z.min replylen (Z.min max 16) in
      let '(_, replyblock) := drm_dp_dpcd_read (basereg + curreply) len replyblock d in
      r ← run_of (drm_dp_sideband_msg_build msg replyblock len false);
      let '(_, msg) := r in
      get_more_loop fuel max basereg (curreply + len) (replylen - len) replyblock d msg
    end
  else Done msg.

Definition drm_dp_get_one_sb_msg (max : Z) (up : bool) (replyblock : list Z)
    (d : D) (msg : drm_dp_sideband_msg_rx) : run drm_dp_sideband_msg_rx :=
  let basereg := if up then DP_SIDEBAND_MSG_UP_REQ_BASE
                 else DP_SIDEBAND_MSG_DOWN_REP_BASE in
  let len := Z.min max 16 in
  let '(ret, replyblock) := drm_dp_dpcd_read basereg len replyblock d in
  if negb (ret =? len) then Done msg else
  r ← run_of (drm_dp_sideband_msg_build msg replyblock len true);
  let '(ok, msg) := r in
  if negb ok then Done msg else
  let replylen := rx_curchunk_len msg + rx_curchunk_hdrlen msg - len in
  get_more_loop (Z.to_nat replylen) max basereg len replylen replyblock d msg.

(** The first port of a branch with the given number. *)
Definition find_port (m : mst_mgr D) (mstb : drm_dp_mst_branch) (port_num : Z)
    : option drm_dp_mst_port :=
  head (filter (fun p => port_port_num p = port_num)
          (omap (fun id => mgr_ports m !! id) (br_ports mstb))).

(** The descent of [drm_dp_get_mst_branch_device]; [inl] is [NULL]. *)
Fixpoint branch_descend (n : nat) (i : Z) (rad : list Z) (m : mst_mgr D)
    (mstb : nat) : run (option nat) :=
  match n with
  | O => Done (Some mstb)
  | S n =>
    let shift := if i mod 2 =? 0 then 4 else 0 in
    let port_num := Z.shiftr (rd rad (i / 2)) shift in
    b ← deref (mgr_mstbs m !! mstb);
    match find_port m b port_num with
    | Some port =>
      match port_mstb port with
      | None => Done None
      | Some mstb => branch_descend n (i + 1) rad m mstb
      end
    | None => branch_descend n (i + 1) rad m mstb
    end
  end.

Definition drm_dp_get_mst_branch_device (lct : Z) (rad : list Z) (m : mst_mgr D)
    : run (option nat) :=
  mstb ← deref (mgr_mst_primary m);
  branch_descend (Z.to_nat (lct - 1)) 0 rad m mstb.

Definition with_rx (down up : drm_dp_sideband_msg_rx) (m : mst_mgr D) : mst_mgr D :=
  {| mgr_txs := mgr_txs m; mgr_mstbs := mgr_mstbs m; mgr_ports := mgr_ports m;
     mgr_mst_primary := mgr_mst_primary m;
     mgr_tx_msg_downq := mgr_tx_msg_downq m; mgr_tx_msg_upq := mgr_tx_msg_upq m;
     mgr_tx_down_in_progress := mgr_tx_down_in_progress m;
     mgr_tx_up_in_progress := mgr_tx_up_in_progress m;
     mgr_max_dpcd_transaction_bytes := mgr_max_dpcd_transaction_bytes m;
     mgr_down_rep_recv := down; mgr_up_req_recv := up; mgr_dev := mgr_dev m |}.

Definition tx_set_reply (rep : drm_dp_sideband_msg_reply_body) (state : Z)
    (t : drm_dp_sideband_msg_tx) : drm_dp_sideband_msg_tx :=
  {| tx_dst := tx_dst t; tx_seqno := tx_seqno t; tx_state := state;
     tx_path_msg := tx_path_msg t; tx_msg := tx_msg t;
     tx_cur_len := tx_cur_len t; tx_cur_offset := tx_cur_offset t;
     tx_reply := rep |}.

(** [drm_dp_mst_handle_down_rep] up to the first section under [qlock]: the branch, the
    slot and the message in it, [None] when there is nothing more to do. *)
Definition down_rep_find (replyblock : list Z) (m : mst_mgr D)
    : run (option (nat * Z * nat) * mst_mgr D) :=
  msg ← drm_dp_get_one_sb_msg (mgr_max_dpcd_transaction_bytes m) false replyblock
          (mgr_dev m) (mgr_down_rep_recv m);
  let m := with_rx msg (mgr_up_req_recv m) m in
  if rx_have_eomt msg then
    mstb ← drm_dp_get_mst_branch_device (hdr_lct (rx_initial_hdr msg))
             (hdr_rad (rx_initial_hdr msg)) m;
    match mstb with
    | None => Done (None, with_rx zero_rx (mgr_up_req_recv m) m)
    | Some mid =>
      let slot := b2z (hdr_seqno (rx_initial_hdr msg)) in
      b ← deref (mgr_mstbs m !! mid);
      match br_tx_slot b slot with
      | None => Done (None, with_rx zero_rx (mgr_up_req_recv m) m)
      | Some id => Done (Some (mid, slot, id), m)
      end
    end
  else Done (None, m).

(** Without the lock the reply is parsed into the message. *)
Definition down_rep_parse (id : nat) (m : mst_mgr D) : run (mst_mgr D) :=
  txmsg ← deref (mgr_txs m !! id);
  let '(_, reply) := drm_dp_sideband_parse_reply (mgr_down_rep_recv m) in
  Done (with_rx zero_rx (mgr_up_req_recv m)
          (with_tx id (tx_set_reply reply (tx_state txmsg) txmsg) m)).

(** The second section under [qlock]. *)
Definition down_rep_finish (mid : nat) (slot : Z) (id : nat) (m : mst_mgr D) : run (mst_mgr D) :=
  txmsg ← deref (mgr_txs m !! id);
  let m := with_tx id (tx_set_state DRM_DP_SIDEBAND_TX_RX txmsg) m in
  b ← deref (mgr_mstbs m !! mid);
  b ← br_set_slot slot None b;
  Done (with_mstb mid b m).

Definition drm_dp_mst_handle_down_rep (replyblock : list Z) (m : mst_mgr D)
    : run (mst_mgr D) :=
  '(found, m) ← down_rep_find replyblock m;
  match found with
  | None => Done m
  | Some (mid, slot, id) =>
    m ← down_rep_parse id m;
    down_rep_finish mid slot id m
  end.

(** The [kfree] of a message by the function that queued it and waited for it. *)
Definition free_tx (id : nat) (m : mst_mgr D) : mst_mgr D :=
  with_objs (delete id (mgr_txs m)) (mgr_mstbs m) m.

(** The part of [drm_dp_destroy_mst_branch_device] that drops the messages in
    the slots of a branch. *)
Definition drop_slot (slot : Z) (mid : nat) (m : mst_mgr D) : run (mst_mgr D) :=
  b ← deref (mgr_mstbs m !! mid);
  match br_tx_slot b slot with
  | None => Done m
  | Some id =>
    t ← deref (mgr_txs m !! id);
    b ← br_set_slot slot None b;
    Done (with_mstb mid b
            (with_tx id (tx_set_state DRM_DP_SIDEBAND_TX_TIMEOUT t) m))
  end.

Definition drop_tx_slots (mid : nat) (m : mst_mgr D) : run (mst_mgr D) :=
  m ← drop_slot 0 mid m;
  drop_slot 1 mid m.

End queues.
