(* ===== verification/DpMstSpec.v ===== *)
(** * Sending and receiving sideband messages: core lemmas

    The write loop ends and leaves the chunk in the device's mailbox; a chunk
    that is in the mailbox is appended to the receiver's message; the queue
    operations keep the slots of the branch devices consistent. *)

From S2P Require Import Prelude DpSideband DpCrc DpSidebandSpec DpMst.

#[local] Ltac Zify.zify_post_hook ::= Z.to_euclidean_division_equations.

(** ** The write loop *)
Section sending.
Context {D : Type} (dpcd_write : Z -> list Z -> D -> Z * D).

Lemma send_loop_total fuel max regbase msg len total offset retries d :
  1 <= max -> 0 <= total <= len -> 0 <= retries <= 5 ->
  (5 - retries) * (len + 1) + total + 1 <= Z.of_nat fuel ->
  exists ret d', send_loop dpcd_write fuel max regbase msg len total offset retries d
    = Done (ret, d') /\ (ret = 0 \/ ret = - EIO).
Proof.
  revert total offset retries d.
  induction fuel as [|fuel IH]; intros total offset retries d Hmax Ht Hr Hf; [nia|].
  cbn [send_loop]. destruct (dpcd_write _ _ _) as [ret d'].
  case_if; [case_if|case_if]; b2p.
  - apply IH; nia.
  - eauto.
  - apply IH; [lia..|]. nia.
  - eauto.
Qed.

(** A write that reports all its bytes stored them. *)
Context (mem : D -> Z -> Z).
Definition write_stores : Prop := forall a bs d d',
  dpcd_write a bs d = (Z.of_nat (length bs), d') ->
  forall x, mem d' x = if (a <=? x) && (x <? a + Z.of_nat (length bs))
                       then rd bs (x - a) else mem d x.

Lemma rd_copy l i n k : 0 <= k < n -> rd (copy l i n) k = rd l (i + k).
Proof.
  intros Hk. unfold copy. unfold rd at 1. rewrite list_lookup_fmap.
  rewrite lookup_seqZ_lt by lia. simpl. f_equal. lia.
Qed.

Lemma send_loop_stores fuel max regbase msg len total offset retries d d' :
  write_stores -> 0 <= total -> 0 <= offset -> offset + total = len -> 1 <= max ->
  (forall i, 0 <= i < offset -> mem d (regbase + i) = rd msg i) ->
  send_loop dpcd_write fuel max regbase msg len total offset retries d = Done (0, d') ->
  forall i, 0 <= i < len -> mem d' (regbase + i) = rd msg i.
Proof.
  intros Hst. revert total offset retries d.
  induction fuel as [|fuel IH]; intros total offset retries d Ht Ho Hl Hmax Hmem; [done|].
  cbn [send_loop]. set (tosend := Z.min max (Z.min 16 total)) in *.
  destruct (dpcd_write _ _ _) as [ret d1] eqn:Hw.
  case_if; [case_if|]; b2p; [apply IH; lia|done|]. subst ret.
  assert (0 <= tosend) as Hs by (unfold tosend; lia).
  assert (forall i, 0 <= i < offset + tosend -> mem d1 (regbase + i) = rd msg i) as Hmem1.
  { intros i Hi. replace tosend with (Z.of_nat (length (copy msg offset tosend))) in Hw at 2
      by (rewrite length_copy; lia).
    rewrite (Hst _ _ _ _ Hw), length_copy, Z2Nat.id by lia.
    destruct (Z.leb_spec (regbase + offset) (regbase + i)); simpl; [|apply Hmem; lia].
    destruct (Z.ltb_spec (regbase + i) (regbase + offset + tosend)); [|lia].
    rewrite rd_copy by lia. f_equal. lia. }
  clear Hw Hmem. case_if; b2p.
  - apply IH; [lia..|done].
  - intros [= <-] i Hi. apply Hmem1. lia.
Qed.

End sending.

(** ** Receiving one chunk *)

(** The bytes of a chunk: header, data, CRC of the data. *)
Definition chunk_bytes (h : drm_dp_sideband_msg_hdr) (data : list Z) : list Z :=
  drm_dp_encode_sideband_msg_hdr h ++
  drm_dp_crc_sideband_chunk_req data (Z.of_nat (length data)).

(** The receiver holds the message bytes [M]. *)
Record rx_holds `{dp_h} (rx : drm_dp_sideband_msg_rx) (M : list Z) : Prop := {
  rxh_chunk : Z.of_nat (length (rx_chunk rx)) = rx_chunk_size;
  rxh_msg : exists rest, rx_msg rx = M ++ rest /\
            Z.of_nat (length (M ++ rest)) = rx_msg_size;
  rxh_curlen : rx_curlen rx = Z.of_nat (length M);
}.

Lemma zero_rx_holds `{dp_h_ok} : rx_holds zero_rx [].
Proof.
  pose proof dp_chunk_size. pose proof dp_msg_size.
  split; simpl; [rewrite length_replicate; lia| |done].
  eexists. split; [done|]. simpl. rewrite length_replicate. lia.
Qed.

Definition same_flags (rx rx' : drm_dp_sideband_msg_rx) : Prop :=
  rx_have_somt rx' = rx_have_somt rx /\ rx_have_eomt rx' = rx_have_eomt rx /\
  rx_initial_hdr rx' = rx_initial_hdr rx.

Lemma same_flags_trans r1 r2 r3 :
  same_flags r1 r2 -> same_flags r2 r3 -> same_flags r1 r3.
Proof. unfold same_flags. intuition congruence. Qed.

(** [n] bytes of the payload [P] (data and CRC) of the current chunk are in
    the chunk buffer. *)
Record rx_partial `{dp_h} (rx : drm_dp_sideband_msg_rx) (M P : list Z) (n : Z) : Prop := {
  rxp_holds : rx_holds rx M;
  rxp_chunk : exists rest, rx_chunk rx = take (Z.to_nat n) P ++ rest;
  rxp_len : rx_curchunk_len rx = Z.of_nat (length P);
  rxp_idx : rx_curchunk_idx rx = n;
}.

Section receiving.
Context `{dp_h_ok}.

(** A complete chunk is moved to the message. *)
Lemma msg_build_complete_full rx M data c :
  rx_partial rx M (data ++ [c]) (Z.of_nat (length (data ++ [c]))) ->
  Z.of_nat (length M + length data) <= 255 ->
  exists rx', msg_build_complete rx = Ok rx' /\ rx_holds rx' (M ++ data) /\
    same_flags rx rx'.
Proof.
  intros [[Hc (rest & Hm & Hml) Hcl] [crest Hch] Hlen Hidx] Hfit.
  pose proof dp_msg_size as Hms.
  unfold msg_build_complete. rewrite Hlen, Hidx, Z.leb_refl.
  rewrite length_app, Nat2Z.inj_add in *. cbn [length] in *.
  destruct (Z.ltb_spec (Z.of_nat (length data) + Z.of_nat 1 - 1) 0); [lia|].
  replace (Z.of_nat (length data) + Z.of_nat 1 - 1) with (Z.of_nat (length data)) by lia.
  assert (copy (rx_chunk rx) 0 (Z.of_nat (length data)) = data) as ->.
  { rewrite Hch, take_ge by (rewrite length_app; simpl; lia).
    by rewrite <- app_assoc, copy_prefix. }
  rewrite Hm, Hcl, blit_append by lia. mred.
  eexists. split; [done|]. split; [|done].
  split; cbn; [done| |].
  - eexists. split; [done|]. rewrite !length_app, length_drop. lia.
  - rewrite length_app, u8_small; unfold is_u8; lia.
Qed.

Lemma msg_build_complete_lens rx rx' :
  msg_build_complete rx = Ok rx' ->
  rx_curchunk_len rx' = rx_curchunk_len rx /\
  rx_curchunk_hdrlen rx' = rx_curchunk_hdrlen rx.
Proof.
  unfold msg_build_complete. repeat case_if; intros; simplify_eq; [|done].
  destruct (blit _ _ _); mred; by simplify_eq.
Qed.

Lemma msg_build_complete_partial rx M P n :
  rx_partial rx M P n -> n < Z.of_nat (length P) ->
  msg_build_complete rx = Ok rx.
Proof.
  intros [_ _ Hl Hi] Hn. unfold msg_build_complete. rewrite Hl, Hi.
  destruct (Z.leb_spec (Z.of_nat (length P)) n); [lia|done].
Qed.

(** What the two together do after [n] bytes have arrived. *)
Definition rx_progress (rx : drm_dp_sideband_msg_rx) (M data : list Z) (c n : Z) : Prop :=
  if n <? Z.of_nat (length (data ++ [c])) then rx_partial rx M (data ++ [c]) n
  else rx_holds rx (M ++ data).

Lemma msg_build_complete_progress rx M data c n :
  rx_partial rx M (data ++ [c]) n -> n <= Z.of_nat (length (data ++ [c])) ->
  Z.of_nat (length M + length data) <= 255 ->
  exists rx', msg_build_complete rx = Ok rx' /\ rx_progress rx' M data c n /\
    same_flags rx rx'.
Proof.
  intros Hp Hn Hfit. unfold rx_progress.
  destruct (Z.ltb_spec n (Z.of_nat (length (data ++ [c])))).
  - exists rx. split; [by eapply msg_build_complete_partial|done].
  - apply (msg_build_complete_full rx M data c); [|done].
    by replace (Z.of_nat (length (data ++ [c]))) with n by lia.
Qed.

(** The next bytes of a chunk. *)
Lemma msg_build_more_partial rx M P n block len :
  rx_partial rx M P n -> 0 <= n -> 0 <= len -> n + len <= Z.of_nat (length P) ->
  Z.of_nat (length P) <= 48 ->
  copy block 0 len = copy P n len ->
  exists rx', msg_build_more rx block len = Ok rx' /\
    rx_partial rx' M P (n + len) /\ same_flags rx rx'.
Proof.
  intros [[Hc Hm Hcl] [crest Hch] Hl Hi] Hn Hlen Hfit H48 Hblock.
  pose proof dp_chunk_size as Hcs.
  unfold msg_build_more. rewrite Hi, Hch, Hblock.
  rewrite blit_append.
  2: { rewrite length_take. lia. }
  2: { rewrite length_copy. rewrite Hch, length_app, length_take in Hc. lia. }
  mred. eexists. split; [done|]. split; [|done].
  split; cbn; [split; cbn; [|done|done]| |done|].
  - rewrite Hch in Hc. rewrite !length_app, length_drop, length_copy, length_take in *. lia.
  - eexists. f_equal. rewrite copy_slice by lia.
    rewrite Z2Nat.inj_add by lia. by rewrite <- take_take_drop.
  - rewrite u8_small; unfold is_u8; lia.
Qed.

(** The flags after a chunk with header [h]. *)
Definition flags_after (h : drm_dp_sideband_msg_hdr)
    (rx rx' : drm_dp_sideband_msg_rx) : Prop :=
  rx_have_somt rx' = rx_have_somt rx || hdr_somt h /\
  rx_have_eomt rx' = rx_have_eomt rx || hdr_eomt h /\
  rx_initial_hdr rx' = if hdr_somt h then h else rx_initial_hdr rx.

(** The first block of a chunk. *)
Lemma msg_build_hdr_partial rx M h P block len k :
  rx_holds rx M -> wf_hdr h -> hdr_msg_len h = Z.of_nat (length P) ->
  hdr_somt h && rx_have_somt rx = false ->
  hdr_size h <= len <= 16 -> Z.of_nat (length P) <= 48 ->
  let n := Z.min (Z.of_nat (length P)) (len - hdr_size h) in
  block = hdr_layout h (hdr_crc h) ++ take (Z.to_nat n) P ++ k ->
  exists rx', msg_build_hdr rx block len = Ok (inr rx') /\
    rx_partial rx' M P n /\ flags_after h rx rx' /\ rx_curchunk_hdrlen rx' = hdr_size h.
Proof.
  intros [Hc Hm Hcl] Hw Hml Hsomt Hlen H48 n ->. pose proof dp_chunk_size as Hcs.
  pose proof (hdr_size_bound h Hw).
  unfold msg_build_hdr. rewrite decode_layout by (done || lia). rewrite Hsomt, Hml.
  rewrite (u8_small (len - hdr_size h)) by (unfold is_u8; lia). fold n.
  rewrite copy_app; [|by rewrite length_hdr_layout|rewrite length_take; lia].
  rewrite (blit_append [] (rx_chunk rx)); [|done|rewrite length_take; lia].
  mred. eexists. split; [done|]. split; [|done].
  split; cbn; [split; cbn; [|done|done]| |done|done].
  - rewrite length_app, length_drop, length_take. lia.
  - eexists. done.
Qed.

(** The chunk as the groups of bytes it consists of. *)
Lemma chunk_bytes_layout h data :
  wf_hdr h -> chunk_bytes h data =
  hdr_layout h (hdr_crc h) ++ data ++ [drm_dp_msg_data_crc4 data (Z.of_nat (length data))].
Proof.
  intros Hw. unfold chunk_bytes, drm_dp_crc_sideband_chunk_req.
  by rewrite encode_hdr_layout, Nat2Z.id, take_ge.
Qed.

(** *** Reading a chunk from the mailbox *)
Context {D : Type} (dpcd_read : Z -> Z -> list Z -> D -> Z * list Z) (d : D).

(** Reads at [base] return the bytes of the mailbox [B]. *)
Definition reads_mailbox (base : Z) (B : list Z) : Prop :=
  forall off len block, 0 <= off -> 0 <= len -> off + len <= Z.of_nat (length B) ->
    dpcd_read (base + off) len block d =
    (len, copy B off len ++ drop (Z.to_nat len) block).

Lemma get_more_loop_chunk fuel max base B hlen M data c rx n block :
  reads_mailbox base B -> 1 <= max ->
  0 <= hlen -> hlen + Z.of_nat (length (data ++ [c])) <= Z.of_nat (length B) ->
  copy B hlen (Z.of_nat (length (data ++ [c]))) = data ++ [c] ->
  Z.of_nat (length (data ++ [c])) <= 48 ->
  Z.of_nat (length M + length data) <= 255 ->
  0 <= n <= Z.of_nat (length (data ++ [c])) ->
  rx_progress rx M data c n ->
  Z.of_nat (length (data ++ [c])) - n <= Z.of_nat fuel ->
  exists rx', get_more_loop dpcd_read fuel max base (hlen + n)
      (Z.of_nat (length (data ++ [c])) - n) block d rx = Done rx' /\
    rx_holds rx' (M ++ data) /\ same_flags rx rx'.
Proof.
  intros Hread Hmax Hhl HB HBc H48 Hfit.
  set (L := Z.of_nat (length (data ++ [c]))) in *.
  revert rx n block. induction fuel as [|fuel IH]; intros rx n block Hn Hp Hf;
    cbn [get_more_loop]; unfold rx_progress in Hp; fold L in Hp.
  { destruct (Z.ltb_spec 0 (L - n)); [lia|]. destruct (Z.ltb_spec n L); [lia|].
    by exists rx. }
  destruct (Z.ltb_spec 0 (L - n)).
  2: { destruct (Z.ltb_spec n L); [lia|]. by exists rx. }
  destruct (Z.ltb_spec n L); [|lia].
  set (len := Z.min (L - n) (Z.min max 16)).
  rewrite Hread by (unfold len; lia).
  unfold drm_dp_sideband_msg_build.
  destruct (msg_build_more_partial rx M (data ++ [c]) n
    (copy B (hlen + n) len ++ drop (Z.to_nat len) block) len Hp)
    as (rx1 & -> & Hp1 & Hs1); [lia|unfold len; lia|unfold len; lia|lia| |].
  { rewrite copy_prefix by (rewrite length_copy; unfold len; lia).
    rewrite <- HBc. rewrite !copy_slice; fold L; rewrite ?length_copy; try (unfold len; lia).
    rewrite skipn_firstn_comm, drop_drop, take_take. f_equal; [|f_equal]; unfold len; lia. }
  mred. destruct (msg_build_complete_progress rx1 M data c (n + len) Hp1)
    as (rx2 & -> & Hp2 & Hs2); [fold L; unfold len; lia|done|]. mred.
  replace (hlen + n + len) with (hlen + (n + len)) by lia.
  replace (L - n - len) with (L - (n + len)) by lia.
  destruct (IH rx2 (n + len) (copy B (hlen + n) len ++ drop (Z.to_nat len) block))
    as (rx3 & ? & ? & ?); [unfold len; lia|done|unfold len; lia|].
  exists rx3. split; [done|]. split; [done|]. by do 2 (eapply same_flags_trans; [eassumption|]).
Qed.

Lemma get_one_sb_msg_chunk {Hmh : mst_h} (max : Z) (up : bool) rx M h data rest block :
  rx_holds rx M -> wf_hdr h ->
  hdr_msg_len h = Z.of_nat (length data) + 1 ->
  hdr_size h + Z.of_nat (length data) + 1 <= 48 ->
  hdr_somt h && rx_have_somt rx = false ->
  Z.of_nat (length M + length data) <= 255 ->
  hdr_size h <= max ->
  16 <= Z.of_nat (length (chunk_bytes h data ++ rest)) ->
  reads_mailbox (if up then DP_SIDEBAND_MSG_UP_REQ_BASE else DP_SIDEBAND_MSG_DOWN_REP_BASE)
    (chunk_bytes h data ++ rest) ->
  exists rx', drm_dp_get_one_sb_msg dpcd_read max up block d rx = Done rx' /\
    rx_holds rx' (M ++ data) /\ flags_after h rx rx'.
Proof.
  intros Hrx Hw Hml H48 Hsomt Hfit Hmax HB Hread.
  pose proof (hdr_size_bound h Hw) as Hs. unfold drm_dp_get_one_sb_msg.
  rewrite chunk_bytes_layout in * by done.
  set (c := drm_dp_msg_data_crc4 data (Z.of_nat (length data))) in *. clearbody c.
  set (base := if up then DP_SIDEBAND_MSG_UP_REQ_BASE else DP_SIDEBAND_MSG_DOWN_REP_BASE) in *.
  clearbody base. set (B := (hdr_layout h (hdr_crc h) ++ data ++ [c]) ++ rest) in *.
  set (len := Z.min max 16).
  assert (HP : Z.of_nat (length (data ++ [c])) = Z.of_nat (length data) + 1)
    by (rewrite length_app; simpl; lia).
  pose proof (length_hdr_layout h (hdr_crc h) Hw) as Hll.
  set (n := Z.min (Z.of_nat (length (data ++ [c]))) (len - hdr_size h)).
  pose proof (Hread 0 len block ltac:(lia) ltac:(unfold len; lia) ltac:(unfold len; lia)) as Hr0.
  rewrite Z.add_0_r in Hr0. rewrite Hr0, Z.eqb_refl. cbn [negb].
  unfold drm_dp_sideband_msg_build.
  destruct (msg_build_hdr_partial rx M h (data ++ [c])
     (copy B 0 len ++ drop (Z.to_nat len) block) len
     (drop (Z.to_nat (hdr_size h + n)) (take (Z.to_nat len) B) ++ drop (Z.to_nat len) block))
    as (rx1 & -> & Hp1 & Hf1 & Hh1); [done..|lia|done|unfold len; lia|lia| |].
  { fold n. rewrite copy_slice, drop_0 by (unfold len; lia).
    rewrite !app_assoc. f_equal.
    rewrite <- (take_drop (Z.to_nat (hdr_size h + n)) (take (Z.to_nat len) B)) at 1.
    f_equal. rewrite take_take.
    replace (Z.to_nat (hdr_size h + n) `min` Z.to_nat len)%nat
      with (length (hdr_layout h (hdr_crc h)) + Z.to_nat n)%nat by (unfold n, len; lia).
    unfold B. rewrite <- app_assoc, take_app_add. f_equal.
    apply take_app_le. unfold n. lia. }
  fold n in Hp1. mred.
  destruct (msg_build_complete_progress rx1 M data c n Hp1)
    as (rx2 & Hrx2 & Hp2 & Hs2); [unfold n; lia|done|]. rewrite Hrx2. mred. cbn [negb].
  apply msg_build_complete_lens in Hrx2 as [Hl2 Hhl2].
  rewrite Hl2, Hhl2, Hh1, (rxp_len _ _ _ _ Hp1).
  assert (flags_after h rx rx2) as Hf2.
  { destruct Hf1 as (?&?&?), Hs2 as (?&?&?). repeat split; congruence. }
  assert (copy B (hdr_size h) (Z.of_nat (length (data ++ [c]))) = data ++ [c]) as HBc.
  { unfold B. rewrite <- app_assoc. by apply copy_app. }
  assert (hdr_size h + Z.of_nat (length (data ++ [c])) <= Z.of_nat (length B)) as HBl.
  { unfold B. rewrite !length_app in *. lia. }
  destruct (Z_le_dec (hdr_size h + Z.of_nat (length (data ++ [c]))) len).
  - (* the first block holds the whole chunk *)
    exists rx2. unfold rx_progress in Hp2.
    destruct (Z.ltb_spec n (Z.of_nat (length (data ++ [c])))); [unfold n in *; lia|].
    set (r := Z.of_nat (length (data ++ [c])) + hdr_size h - len).
    assert (0 <? r = false) as Hr by (apply Z.ltb_ge; unfold r; lia).
    destruct (Z.to_nat r); cbn [get_more_loop]; rewrite Hr; done.
  - replace (Z.of_nat (length (data ++ [c])) + hdr_size h - len)
      with (Z.of_nat (length (data ++ [c])) - n) by (unfold n; lia).
    replace (get_more_loop dpcd_read _ max base len) with
      (get_more_loop dpcd_read (Z.to_nat (Z.of_nat (length (data ++ [c])) - n)) max base (hdr_size h + n))
      by (f_equal; unfold n; lia).
    destruct (get_more_loop_chunk (Z.to_nat (Z.of_nat (length (data ++ [c])) - n)) max base B
      (hdr_size h) M data c rx2 n (copy B 0 len ++ drop (Z.to_nat len) block))
      as (rx3 & -> & Hh3 & Hs3); try done; try (unfold n; lia); try lia.
    exists rx3. split; [done|]. split; [done|].
    destruct Hf2 as (?&?&?), Hs3 as (?&?&?). repeat split; congruence.
Qed.

End receiving.

(** ** From the sender's chunks to the receiver's message *)

(** An AUX channel whose reads at [base] return the bytes of a mailbox. *)
Definition mailbox_read (base : Z) (B : list Z) (a len : Z) (block : list Z)
    (_ : unit) : Z * list Z :=
  (len, copy B (a - base) len ++ drop (Z.to_nat len) block).

Lemma mailbox_reads base B : reads_mailbox (mailbox_read base B) tt base B.
Proof.
  intros off len block _ _ _. unfold mailbox_read.
  by replace (base + off - base) with off by lia.
Qed.

Section transfer.
Context `{dp_h_ok} {Hmh : mst_h}.

(** The link: the sender's next chunk is put into the 48-byte mailbox, the
    receiver reads it, and so on until [cur_offset] reaches [cur_len]. *)
Fixpoint transfer (fuel : nat) (max : Z) (hdr : drm_dp_sideband_msg_hdr)
    (t : drm_dp_sideband_msg_tx) (rx : drm_dp_sideband_msg_rx)
    : run drm_dp_sideband_msg_rx :=
  match fuel with
  | O => Loops
  | S fuel =>
    let '(chunk, tosend) := make_chunk hdr t in
    let B := chunk ++ replicate (48 - length chunk) 0 in
    rx ← drm_dp_get_one_sb_msg (mailbox_read DP_SIDEBAND_MSG_DOWN_REP_BASE B)
           max false (replicate 32 0) tt rx;
    let off := tx_cur_offset t + tosend in
    if off =? tx_cur_len t then Done rx
    else transfer fuel max hdr (tx_set (tx_seqno t) (tx_state t) off t) rx
  end.

(** The header of a message to a branch, as [set_hdr_from_dst_qlock] fills it. *)
Definition wf_dst_hdr (h : drm_dp_sideband_msg_hdr) : Prop :=
  wf_hdr h /\ hdr_msg_len h = 0.

Lemma make_chunk_bytes h t :
  wf_hdr h -> tx_cur_len t = Z.of_nat (length (tx_msg t)) ->
  0 <= tx_cur_offset t < tx_cur_len t ->
  let len := tx_cur_len t - tx_cur_offset t in
  let tosend := Z.min len (47 - hdr_size h) in
  let data := copy (tx_msg t) (tx_cur_offset t) tosend in
  let h' := with_len h (len =? tx_cur_len t) (len <=? 47 - hdr_size h) (tosend + 1) in
  make_chunk h t = (chunk_bytes h' data, tosend) /\ wf_hdr h' /\
  hdr_size h' = hdr_size h /\ Z.of_nat (length data) = tosend /\ 1 <= tosend.
Proof.
  intros Hw Hl Ho len tosend data h'. pose proof (hdr_size_bound h Hw) as Hs.
  assert (drm_dp_calc_sb_hdr_size h = hdr_size h) as Hcalc
    by (apply u8_small; unfold is_u8; lia).
  assert (Z.of_nat (length data) = tosend) as Hd
    by (unfold data; rewrite length_copy; unfold tosend, len; lia).
  unfold make_chunk. rewrite Hcalc. cbn [Z.sub]. fold len.
  replace (48 - 1 - hdr_size h) with (47 - hdr_size h) by lia. fold tosend.
  rewrite (u8_small (tosend + 1)) by (unfold is_u8, tosend, len; lia).
  split; [|split; [|split; [done|split; [done|unfold tosend, len; lia]]]].
  - unfold chunk_bytes. by rewrite Hd.
  - destruct Hw. split; cbn; try done. unfold tosend, len. lia.
Qed.

Lemma length_chunk_bytes h data :
  wf_hdr h -> Z.of_nat (length (chunk_bytes h data)) =
  hdr_size h + Z.of_nat (length data) + 1.
Proof.
  intros Hw. rewrite chunk_bytes_layout, !length_app by done.
  rewrite !Nat2Z.inj_add, length_hdr_layout by done. simpl. lia.
Qed.

Lemma transfer_spec fuel max h t rx :
  wf_hdr h -> 10 <= max ->
  tx_cur_len t = Z.of_nat (length (tx_msg t)) -> tx_cur_len t <= 255 ->
  0 <= tx_cur_offset t < tx_cur_len t ->
  rx_holds rx (take (Z.to_nat (tx_cur_offset t)) (tx_msg t)) ->
  rx_have_somt rx = (0 <? tx_cur_offset t) -> rx_have_eomt rx = false ->
  tx_cur_len t - tx_cur_offset t <= Z.of_nat fuel ->
  exists rx', transfer fuel max h t rx = Done rx' /\ rx_holds rx' (tx_msg t) /\
    rx_have_somt rx' = true /\ rx_have_eomt rx' = true /\
    (tx_cur_offset t = 0 \/ hdr_seqno (rx_initial_hdr rx) = hdr_seqno h ->
     hdr_seqno (rx_initial_hdr rx') = hdr_seqno h).
Proof.
  intros Hw Hmax. revert t rx.
  induction fuel as [|fuel IH]; intros t rx Hl H255 Ho Hrx Hsomt Heomt Hf; [lia|].
  cbn [transfer].
  destruct (make_chunk_bytes h t Hw Hl Ho) as (-> & Hw' & Hsz & Hd & Hpos).
  set (len := tx_cur_len t - tx_cur_offset t) in *.
  set (tosend := Z.min len (47 - hdr_size h)) in *.
  set (data := copy (tx_msg t) (tx_cur_offset t) tosend) in *.
  set (h' := with_len h (len =? tx_cur_len t) (len <=? 47 - hdr_size h) (tosend + 1)) in *.
  pose proof (hdr_size_bound h Hw) as Hs.
  pose proof (length_chunk_bytes h' data Hw') as Hcl.
  destruct (get_one_sb_msg_chunk
    (mailbox_read DP_SIDEBAND_MSG_DOWN_REP_BASE
      (chunk_bytes h' data ++ replicate (48 - length (chunk_bytes h' data)) 0)) tt max false
    rx (take (Z.to_nat (tx_cur_offset t)) (tx_msg t)) h' data
    (replicate (48 - length (chunk_bytes h' data)) 0) (replicate 32 0))
    as (rx1 & -> & Hrx1 & Hso1 & Heo1 & Hin1); try done.
  { cbn. lia. }
  { unfold tosend in *. lia. }
  { cbn. rewrite Hsomt. destruct (Z.ltb_spec 0 (tx_cur_offset t)); [|apply andb_false_r].
    destruct (Z.eqb_spec len (tx_cur_len t)); [unfold len in *; lia|done]. }
  { rewrite length_take. unfold tosend, len in *. lia. }
  { lia. }
  { rewrite length_app, length_replicate. unfold tosend in *. lia. }
  { apply mailbox_reads. }
  mred.
  assert (take (Z.to_nat (tx_cur_offset t)) (tx_msg t) ++ data =
          take (Z.to_nat (tx_cur_offset t + tosend)) (tx_msg t)) as Happ.
  { unfold data. rewrite copy_slice by (unfold tosend, len; lia).
    rewrite Z2Nat.inj_add by lia. by rewrite take_take_drop. }
  rewrite Happ in Hrx1.
  destruct (Z.eqb_spec (tx_cur_offset t + tosend) (tx_cur_len t)) as [He|Hne].
  - exists rx1. split; [done|]. rewrite take_ge in Hrx1 by lia. split; [done|].
    rewrite Hso1, Heo1, Hin1, Hsomt, Heomt. cbn.
    assert (len <=? 47 - hdr_size h = true) as -> by (apply Z.leb_le; unfold tosend, len in *; lia).
    destruct (Z.ltb_spec 0 (tx_cur_offset t)).
    + destruct (Z.eqb_spec len (tx_cur_len t)); [unfold len in *; lia|].
      split; [done|]. split; [done|]. intros [|]; [lia|done].
    + destruct (Z.eqb_spec len (tx_cur_len t)); [done|unfold len in *; lia].
  - destruct (IH (tx_set (tx_seqno t) (tx_state t) (tx_cur_offset t + tosend) t) rx1)
      as (rx2 & -> & Hrx2 & Hso2 & Heo2 & Hin2);
      cbn [tx_set tx_cur_len tx_cur_offset tx_msg] in *; try done;
      try (unfold tosend, len in *; lia).
    + rewrite Hso1, Hsomt. cbn. destruct (Z.ltb_spec 0 (tx_cur_offset t + tosend)); [|lia].
      destruct (Z.ltb_spec 0 (tx_cur_offset t)); [done|].
      destruct (Z.eqb_spec len (tx_cur_len t)); [done|unfold len in *; lia].
    + rewrite Heo1, Heomt. cbn. apply Z.leb_gt. unfold tosend, len in *. lia.
    + exists rx2. split; [done|]. split; [done|]. split; [done|]. split; [done|].
      intros Hor. apply Hin2. right.
      rewrite Hin1. cbn. destruct (Z.eqb_spec len (tx_cur_len t)); [done|].
      destruct Hor; [unfold len in *; lia|done].
Qed.

End transfer.

(** Sending a chunk, for the theorems on both sides of the AUX interface. *)
Lemma send_sideband_msg_spec {D : Type} {Hmh : mst_h}
    (dpcd_write : Z -> list Z -> D -> Z * D) (mem : D -> Z -> Z) max up msg d :
  1 <= max -> write_stores dpcd_write mem ->
  exists ret d',
    drm_dp_send_sideband_msg dpcd_write max up msg (Z.of_nat (length msg)) d = Done (ret, d') /\
    (ret = 0 \/ ret = - EIO) /\
    (ret = 0 -> forall i, 0 <= i < Z.of_nat (length msg) ->
       mem d' ((if up then DP_SIDEBAND_MSG_UP_REP_BASE
                else DP_SIDEBAND_MSG_DOWN_REQ_BASE) + i) = rd msg i).
Proof.
  intros Hmax Hst. unfold drm_dp_send_sideband_msg.
  set (base := if up then _ else _).
  destruct (send_loop_total dpcd_write (Z.to_nat (6 * (Z.of_nat (length msg) + 1))) max base msg
    (Z.of_nat (length msg)) (Z.of_nat (length msg)) 0 0 d) as (ret & d' & He & Hr); [lia..|].
  exists ret, d'. split; [done|]. split; [done|]. intros ->.
  eapply send_loop_stores; [exact Hst| | | | | |exact He]; lia.
Qed.
