(* ===== verification/DpMstInv.v ===== *)
(** * The invariant of the sideband queues

    Every message in a slot of a branch device is alive, is addressed to that
    branch and carries the number of the slot; the operations that queue,
    send, time out and answer downstream messages keep it so. *)

From S2P Require Import Prelude DpSideband DpMst DpMstSpec.

Section invariant.
Context {D : Type} {Hdp : dp_h} {Hmh : mst_h} {Hok : mst_h_ok}.
Implicit Types (m : mst_mgr D) (t : drm_dp_sideband_msg_tx).

Definition seq_ok (s : Z) : Prop := s = -1 \/ s = 0 \/ s = 1.

Definition sending (t : drm_dp_sideband_msg_tx) : Prop :=
  tx_state t = DRM_DP_SIDEBAND_TX_START_SEND \/ tx_state t = DRM_DP_SIDEBAND_TX_SENT.

(** The invariant; [ok] selects the messages whose sequence number must be
    assigned while they are being sent (all of them between operations). *)
Record mst_inv_for (ok : nat -> Prop) (m : mst_mgr D) : Prop := {
  inv_slots : forall mid b i id, mgr_mstbs m !! mid = Some b -> i = 0 \/ i = 1 ->
    br_tx_slot b i = Some id ->
    exists t, mgr_txs m !! id = Some t /\ tx_dst t = mid /\ tx_seqno t = i /\
      tx_state t <> DRM_DP_SIDEBAND_TX_QUEUED;
  inv_dst : forall id t, mgr_txs m !! id = Some t -> is_Some (mgr_mstbs m !! tx_dst t);
  inv_seq : forall id t, mgr_txs m !! id = Some t -> seq_ok (tx_seqno t);
  inv_sending : forall id t, ok id -> mgr_txs m !! id = Some t -> sending t ->
    tx_seqno t <> -1;
  inv_queue : forall id, id ∈ mgr_tx_msg_downq m -> is_Some (mgr_txs m !! id);
  inv_last : forall mid b, mgr_mstbs m !! mid = Some b ->
    br_last_seqno b = 0 \/ br_last_seqno b = 1;
}.

Definition mst_inv : mst_mgr D -> Prop := mst_inv_for (fun _ => True).
Definition mst_inv_but (id : nat) : mst_mgr D -> Prop := mst_inv_for (fun i => i <> id).

Lemma tx_states_ne :
  DRM_DP_SIDEBAND_TX_START_SEND <> DRM_DP_SIDEBAND_TX_QUEUED /\
  DRM_DP_SIDEBAND_TX_SENT <> DRM_DP_SIDEBAND_TX_QUEUED /\
  DRM_DP_SIDEBAND_TX_RX <> DRM_DP_SIDEBAND_TX_QUEUED /\
  DRM_DP_SIDEBAND_TX_TIMEOUT <> DRM_DP_SIDEBAND_TX_QUEUED /\
  DRM_DP_SIDEBAND_TX_TIMEOUT <> DRM_DP_SIDEBAND_TX_START_SEND /\
  DRM_DP_SIDEBAND_TX_TIMEOUT <> DRM_DP_SIDEBAND_TX_SENT /\
  DRM_DP_SIDEBAND_TX_RX <> DRM_DP_SIDEBAND_TX_START_SEND /\
  DRM_DP_SIDEBAND_TX_RX <> DRM_DP_SIDEBAND_TX_SENT.
Proof.
  pose proof tx_states_distinct as Hnd. unfold tx_states in Hnd.
  repeat (apply NoDup_cons in Hnd as [? Hnd]). set_solver.
Qed.

Lemma inv_weaken (P Q : nat -> Prop) m :
  (forall i, Q i -> P i) -> mst_inv_for P m -> mst_inv_for Q m.
Proof. intros HPQ [????? ?]. split; eauto. Qed.

Lemma inv_inv_but id m : mst_inv m -> mst_inv_but id m.
Proof. by apply inv_weaken. Qed.

Lemma inv_but_inv id t m :
  mst_inv_but id m -> mgr_txs m !! id = Some t -> (sending t -> tx_seqno t <> -1) ->
  mst_inv m.
Proof.
  intros [????? ?] Ht Hs. split; eauto. intros i t' _ Hi.
  destruct (decide (i = id)) as [->|]; [|eauto]. by simplify_eq.
Qed.

(** Replacing a message. *)
Lemma with_tx_inv id t t' m :
  mst_inv_but id m -> mgr_txs m !! id = Some t -> tx_dst t' = tx_dst t ->
  seq_ok (tx_seqno t') ->
  (forall b i, mgr_mstbs m !! tx_dst t = Some b -> i = 0 \/ i = 1 ->
     br_tx_slot b i = Some id ->
     tx_seqno t' = i /\ tx_state t' <> DRM_DP_SIDEBAND_TX_QUEUED) ->
  mst_inv_but id (with_tx id t' m).
Proof.
  intros [I1 I2 I3 I4 I5 I6] Ht Hd Hs Hslot. split; cbn in *.
  - intros mid b i id' Hb Hi Hsl. destruct (decide (id' = id)) as [->|].
    + rewrite lookup_insert_eq. destruct (I1 _ _ _ _ Hb Hi Hsl) as (t1 & ? & <- & _).
      simplify_eq. destruct (Hslot _ _ Hb Hi Hsl). eauto 6.
    + rewrite lookup_insert_ne by done. eauto.
  - intros i ti [[-> <-]|[? ?]]%lookup_insert_Some; [rewrite Hd|]; eauto.
  - intros i ti [[-> <-]|[? ?]]%lookup_insert_Some; eauto.
  - intros i ti Hi [[-> <-]|[? ?]]%lookup_insert_Some; [done|eauto].
  - intros i Hi. destruct (decide (i = id)) as [->|];
      [rewrite lookup_insert_eq|rewrite lookup_insert_ne]; eauto.
  - done.
Qed.

(** Replacing a branch. *)
Lemma with_mstb_inv P mid b b' m :
  mst_inv_for P m -> mgr_mstbs m !! mid = Some b ->
  br_last_seqno b' = 0 \/ br_last_seqno b' = 1 ->
  (forall i id, i = 0 \/ i = 1 -> br_tx_slot b' i = Some id ->
     br_tx_slot b i = Some id \/
     exists t, mgr_txs m !! id = Some t /\ tx_dst t = mid /\ tx_seqno t = i /\
       tx_state t <> DRM_DP_SIDEBAND_TX_QUEUED) ->
  mst_inv_for P (with_mstb mid b' m).
Proof.
  intros [I1 I2 I3 I4 I5 I6] Hb Hl Hslot. split; cbn in *; try done.
  - intros mid' b1 i id [[-> <-]|[? ?]]%lookup_insert_Some Hi Hsl; [|eauto].
    destruct (Hslot i id Hi Hsl) as [Ho|]; eauto.
  - intros id t Ht. destruct (decide (tx_dst t = mid)) as [->|];
      [rewrite lookup_insert_eq|rewrite lookup_insert_ne by done]; eauto.
  - intros mid' b1 [[-> <-]|[? ?]]%lookup_insert_Some; eauto.
Qed.

Lemma br_set_slot_spec s v b :
  s = 0 \/ s = 1 ->
  exists b', br_set_slot s v b = Done b' /\ br_tx_slot b' s = v /\
    br_tx_slot b' (1 - s) = br_tx_slot b (1 - s) /\ br_last_seqno b' = br_last_seqno b.
Proof. intros [-> | ->]; eexists; (split; [done|]); repeat split. Qed.

(** Emptying a slot. *)
Lemma clear_slot_inv P mid b s m :
  mst_inv_for P m -> mgr_mstbs m !! mid = Some b -> s = 0 \/ s = 1 ->
  exists b', br_set_slot s None b = Done b' /\ mst_inv_for P (with_mstb mid b' m).
Proof.
  intros Hinv Hb Hs. destruct (br_set_slot_spec s None b Hs) as (b' & He & Hs1 & Hs2 & Hl).
  exists b'. split; [done|]. eapply with_mstb_inv; [done..| |].
  - rewrite Hl. by eapply inv_last.
  - intros i id Hi Hsl. left. destruct (decide (i = s)) as [->|]; [congruence|].
    replace i with (1 - s) in * by lia. congruence.
Qed.

Lemma set_dev_inv P d m : mst_inv_for P m -> mst_inv_for P (with_dev d m).
Proof. by intros [????? ?]. Qed.

Lemma set_queues_inv P dq uq db ub m :
  mst_inv_for P m -> (forall id, id ∈ dq -> is_Some (mgr_txs m !! id)) ->
  mst_inv_for P (with_queues dq uq db ub m).
Proof. by intros [????? ?]. Qed.

Lemma set_rx_inv P a b m : mst_inv_for P m -> mst_inv_for P (with_rx a b m).
Proof. by intros [????? ?]. Qed.

Lemma list_del_queue id m (P : nat -> Prop) :
  mst_inv_for P m -> forall i, i ∈ list_del id (mgr_tx_msg_downq m) -> is_Some (mgr_txs m !! i).
Proof. intros Hinv i [_ Hi]%list_elem_of_filter. by eapply inv_queue. Qed.

(** *** Assigning a slot *)
Lemma set_hdr_inv id t m :
  mst_inv_but id m -> mgr_txs m !! id = Some t ->
  tx_state t <> DRM_DP_SIDEBAND_TX_QUEUED ->
  exists ret h m', set_hdr_from_dst_qlock id m = Done (ret, h, m') /\
    mst_inv_but id m' /\ mgr_tx_msg_downq m' = mgr_tx_msg_downq m /\
    mgr_max_dpcd_transaction_bytes m' = mgr_max_dpcd_transaction_bytes m /\
    exists t', mgr_txs m' !! id = Some t' /\ tx_state t' = tx_state t /\
      tx_dst t' = tx_dst t /\ tx_cur_len t' = tx_cur_len t /\
      (ret = - EAGAIN \/ ret = 0 /\ tx_seqno t' <> -1).
Proof.
  intros Hinv Ht Hq. unfold set_hdr_from_dst_qlock. rewrite Ht. mred.
  destruct (inv_dst _ _ Hinv _ _ Ht) as [b Hb]. rewrite Hb.
  destruct (Z.eqb_spec (tx_seqno t) (-1)) as [He|Hne].
  2: { do 3 eexists. split; [done|]. repeat (split; [done|]). exists t. eauto 10. }
  assert (forall s b1, s = 0 \/ s = 1 -> br_tx_slot b s = None ->
    (forall i, br_tx_slot b1 i = br_tx_slot b i) ->
    br_last_seqno b1 = 0 \/ br_last_seqno b1 = 1 ->
    let t' := tx_set s (tx_state t) (tx_cur_offset t) t in
    exists b2, br_set_slot s (Some id) b1 = Done b2 /\
      mst_inv_but id (with_mstb (tx_dst t) b2 (with_tx id t' m))) as Htake.
  { intros s b1 Hs Hfree Hb1 Hl1 t'.
    destruct (br_set_slot_spec s (Some id) b1 Hs) as (b2 & He2 & Hs1 & Hs2 & Hl2).
    exists b2. split; [done|].
    assert (mst_inv_but id (with_tx id t' m)) as Hinv1.
    { eapply with_tx_inv; [done..| |]; [unfold seq_ok; cbn; lia|].
      intros b' i Hb' Hi Hsl. exfalso.
      destruct (inv_slots _ _ Hinv _ _ _ _ Hb' Hi Hsl) as (t1 & ? & _ & ? & _).
      simplify_eq. lia. }
    eapply with_mstb_inv; [exact Hinv1|exact Hb|by rewrite Hl2|].
    intros i id' Hi Hsl. destruct (decide (i = s)) as [->|].
    - right. rewrite Hs1 in Hsl. simplify_eq. exists t'. cbn. rewrite lookup_insert_eq. done.
    - left. replace i with (1 - s) in * by lia. rewrite Hs2, Hb1 in Hsl. done. }
  pose proof (inv_last _ _ Hinv _ _ Hb) as Hl.
  destruct (br_slot0 b) as [i0|] eqn:E0, (br_slot1 b) as [i1|] eqn:E1.
  - do 3 eexists. split; [done|]. repeat (split; [done|]). exists t. eauto 10.
  - destruct (Htake 1 b) as (b2 & -> & Hi2); [by right|done..|].
    do 3 eexists. split; [done|]. split; [done|]. repeat (split; [done|]).
    eexists. cbn. rewrite lookup_insert_eq. repeat (split; [done|]). right. split; [done|cbn; lia].
  - destruct (Htake 0 b) as (b2 & -> & Hi2); [by left|done..|].
    do 3 eexists. split; [done|]. split; [done|]. repeat (split; [done|]).
    eexists. cbn. rewrite lookup_insert_eq. repeat (split; [done|]). right. split; [done|cbn; lia].
  - destruct (Htake (br_last_seqno b) (br_set_last (Z.lxor (br_last_seqno b) 1) b))
      as (b2 & -> & Hi2); [done|by destruct Hl as [-> | ->]|done|
       by destruct Hl as [-> | ->]; cbn; [right|left]|].
    do 3 eexists. split; [done|]. split; [done|]. repeat (split; [done|]).
    eexists. cbn. rewrite lookup_insert_eq. repeat (split; [done|]). right. split; [done|cbn; lia].
Qed.

(** *** One chunk *)
Context (dpcd_write : Z -> list Z -> D -> Z * D).

Lemma process_single_tx_inv id t up m :
  mst_inv m -> mgr_txs m !! id = Some t -> 1 <= mgr_max_dpcd_transaction_bytes m ->
  exists ret m', process_single_tx_qlock dpcd_write id up m = Done (ret, m') /\
    mst_inv_but id m' /\ mgr_tx_msg_downq m' = mgr_tx_msg_downq m /\
    mgr_max_dpcd_transaction_bytes m' = mgr_max_dpcd_transaction_bytes m /\
    exists t', mgr_txs m' !! id = Some t' /\ tx_dst t' = tx_dst t /\
      (ret = - EAGAIN \/ ret = - EIO \/ (ret = 0 \/ ret = 1) /\ tx_seqno t' <> -1).
Proof.
  intros Hinv Ht Hmax. unfold process_single_tx_qlock. rewrite Ht. mred.
  destruct tx_states_ne as (Hs1 & Hs2 & _).
  assert (mst_inv_but id m) as Hb by (by apply inv_inv_but).
  set (m1 := if _ =? _ then _ else m).
  assert (exists t1, mst_inv_but id m1 /\ mgr_txs m1 !! id = Some t1 /\ tx_dst t1 = tx_dst t /\
    tx_state t1 <> DRM_DP_SIDEBAND_TX_QUEUED /\ mgr_tx_msg_downq m1 = mgr_tx_msg_downq m /\
    mgr_max_dpcd_transaction_bytes m1 = mgr_max_dpcd_transaction_bytes m)
    as (t1 & Hb1 & Ht1 & Hd1 & Hq1 & Hdq1 & Hmx1).
  { unfold m1. destruct (Z.eqb_spec (tx_state t) DRM_DP_SIDEBAND_TX_QUEUED) as [He|].
    - eexists. split; [|cbn; rewrite lookup_insert_eq; done].
      eapply with_tx_inv; [done..|by left|].
      intros b i Hbr Hi Hsl.
      destruct (inv_slots _ _ Hinv _ _ _ _ Hbr Hi Hsl) as (t2 & ? & _ & _ & Hne).
      by simplify_eq.
    - exists t. done. }
  clearbody m1.
  destruct (set_hdr_inv id t1 m1 Hb1 Ht1 Hq1)
    as (ret & h & m2 & -> & Hb2 & Hdq2 & Hmx2 & t2 & Ht2 & Hst2 & Hd2 & _ & Hret).
  destruct Hret as [-> | [-> Hseq]].
  { cbn. do 2 eexists. split; [done|]. split; [done|].
    split; [congruence|]. split; [congruence|]. exists t2. split; [done|].
    split; [congruence|]. by left. }
  cbn [Z.ltb]. change (0 <? 0) with false. cbn match. rewrite Ht2.
  destruct (make_chunk h t2) as [chunk tosend].
  unfold drm_dp_send_sideband_msg.
  destruct (send_loop_total dpcd_write
    (Z.to_nat (6 * (Z.of_nat (length chunk) + 1))) (mgr_max_dpcd_transaction_bytes m2)
    (if up then DP_SIDEBAND_MSG_UP_REP_BASE else DP_SIDEBAND_MSG_DOWN_REQ_BASE) chunk
    (Z.of_nat (length chunk)) (Z.of_nat (length chunk)) 0 0 (mgr_dev m2))
    as (ret & d & -> & Hret); [lia..|].
  assert (forall s off, s <> DRM_DP_SIDEBAND_TX_QUEUED ->
    mst_inv_but id (with_tx id (tx_set (tx_seqno t2) s off t2) (with_dev d m2))) as Hset.
  { intros s off Hs. eapply with_tx_inv; [by apply set_dev_inv|done|done|cbn; by eapply inv_seq|].
    intros b i Hbr Hi Hsl. cbn in Hbr.
    destruct (inv_slots _ _ Hb2 _ _ _ _ Hbr Hi Hsl) as (t3 & ? & _ & ? & _).
    simplify_eq. done. }
  destruct Hret as [-> | ->].
  2: { do 2 eexists. split; [done|]. split; [by apply set_dev_inv|].
       split; [cbn; congruence|]. split; [cbn; congruence|]. exists t2.
       split; [done|]. split; [congruence|]. right. by left. }
  cbn [Z.eqb negb]. case_if; do 2 eexists; (split; [done|]).
  - split; [by apply Hset|]. split; [cbn; congruence|]. split; [cbn; congruence|].
    eexists. cbn. rewrite lookup_insert_eq. split; [done|]. split; [cbn; congruence|].
    right. right. cbn. eauto.
  - split; [apply Hset; congruence|]. split; [cbn; congruence|]. split; [cbn; congruence|].
    eexists. cbn. rewrite lookup_insert_eq. split; [done|]. split; [cbn; congruence|].
    right. right. cbn. eauto.
Qed.

(** *** The queue operations *)
Definition good (m : mst_mgr D) : Prop :=
  mst_inv m /\ 1 <= mgr_max_dpcd_transaction_bytes m.

Lemma empty_queue_good m :
  good m -> good (match mgr_tx_msg_downq m with
                  | [] => with_queues [] (mgr_tx_msg_upq m) false (mgr_tx_up_in_progress m) m
                  | _ => m end).
Proof.
  intros [Hi Hm]. destruct (mgr_tx_msg_downq m); [|done].
  split; [|done]. apply set_queues_inv; [done|]. set_solver.
Qed.

(** The state of a message may change to anything but queued. *)
Lemma mark_inv id t st m :
  mst_inv_but id m -> mgr_txs m !! id = Some t -> st <> DRM_DP_SIDEBAND_TX_QUEUED ->
  mst_inv_but id (with_tx id (tx_set_state st t) m).
Proof.
  intros Hb Ht Hst. eapply with_tx_inv; [done..|cbn; by eapply inv_seq|].
  intros b i Hbr Hi Hsl.
  destruct (inv_slots _ _ Hb _ _ _ _ Hbr Hi Hsl) as (t3 & ? & _ & ? & _). by simplify_eq.
Qed.

(** The branch of [process_single_down_tx_qlock] for a chunk that was not sent:
    the message leaves the queue and its slot. *)
Lemma send_failed_good id t ret m :
  mst_inv_but id m -> 1 <= mgr_max_dpcd_transaction_bytes m ->
  mgr_txs m !! id = Some t -> ret < 0 ->
  exists m', (if ret =? 1 then
       Done (with_queues (list_del id (mgr_tx_msg_downq m)) (mgr_tx_msg_upq m) true
               (mgr_tx_up_in_progress m) m)
     else if truth ret then
       let m := with_queues (list_del id (mgr_tx_msg_downq m)) (mgr_tx_msg_upq m) true
                  (mgr_tx_up_in_progress m) m in
       txmsg ← deref (mgr_txs m !! id);
       m ← (if negb (tx_seqno txmsg =? -1) then
              mstb ← deref (mgr_mstbs m !! tx_dst txmsg);
              mstb ← br_set_slot (tx_seqno txmsg) None mstb;
              Done (with_mstb (tx_dst txmsg) mstb m)
            else Done m);
       Done (with_tx id (tx_set_state DRM_DP_SIDEBAND_TX_TIMEOUT txmsg) m)
     else Done m) = Done m' /\ good m'.
Proof.
  intros Hb Hmax Ht Hret.
  destruct (Z.eqb_spec ret 1); [lia|].
  assert (truth ret = true) as -> by (unfold truth; destruct (Z.eqb_spec ret 0); [lia|done]).
  set (m1 := with_queues _ _ true _ m).
  assert (mst_inv_but id m1) as Hb1.
  { apply set_queues_inv; [done|]. by eapply list_del_queue. }
  cbv zeta. eapply run_bind_spec with (P := eq t); [exists t; by rewrite (Ht : mgr_txs m1 !! id = _)|]. intros ? <-.
  destruct tx_states_ne as (_ & _ & _ & Hne1 & Hne2 & Hne3 & _).
  eapply run_bind_spec with (P := fun m2 => mst_inv_but id m2 /\ mgr_txs m2 !! id = Some t /\
    1 <= mgr_max_dpcd_transaction_bytes m2).
  2: { intros m2 (Hb2 & Ht2 & Hm2). eexists. split; [done|]. split; [|done].
       eapply (inv_but_inv id); [by eapply mark_inv|cbn; by rewrite lookup_insert_eq|].
       unfold sending. cbn. intros [|]; congruence. }
  destruct (Z.eqb_spec (tx_seqno t) (-1)); cbn [negb]; [by exists m1|].
  destruct (inv_dst _ _ Hb1 _ _ Ht) as [b Hbr]. rewrite Hbr.
  destruct (clear_slot_inv _ _ b (tx_seqno t) m1 Hb1 Hbr) as (b' & Hset & Hb').
  { destruct (inv_seq _ _ Hb1 _ _ Ht) as [|[|]]; [done|by left|by right]. }
  mred. rewrite Hset. eexists. split; [done|]. split; [done|]. done.
Qed.

Lemma process_single_down_good m :
  good m -> exists m', process_single_down_tx_qlock dpcd_write m = Done m' /\ good m'.
Proof.
  intros [Hinv Hmax]. unfold process_single_down_tx_qlock.
  destruct (mgr_tx_msg_downq m) as [|id q] eqn:Hq.
  { eexists. split; [done|]. split; [|done]. apply set_queues_inv; [done|]. set_solver. }
  destruct (inv_queue _ _ Hinv id) as [t Ht]; [rewrite Hq; set_solver|].
  set (m1 := with_queues (id :: q) _ true _ m).
  assert (mst_inv m1) as Hinv1.
  { apply set_queues_inv; [done|]. rewrite <- Hq. by eapply inv_queue. }
  eapply run_bind_spec with (P := fun r => let '(ret, m2) := r in
    mst_inv_but id m2 /\ 1 <= mgr_max_dpcd_transaction_bytes m2 /\
    exists t', mgr_txs m2 !! id = Some t' /\
      (ret = - EAGAIN \/ ret = - EIO \/ (ret = 0 \/ ret = 1) /\ tx_seqno t' <> -1)).
  { destruct (process_single_tx_inv id t false m1 Hinv1 Ht Hmax)
      as (ret & m2 & -> & Hb2 & Hdq2 & Hmx2 & t2 & Ht2 & Hd2 & Hret).
    eexists. split; [done|]. split; [done|]. split; [rewrite Hmx2; done|]. eauto. }
  intros [ret m2] (Hb2 & Hmx2 & t2 & Ht2 & Hret).
  eapply run_bind_spec with (P := good).
  2: { intros m3 Hg3. pose proof (empty_queue_good m3 Hg3) as Hg.
       destruct (mgr_tx_msg_downq m3); eauto. }
  destruct Hret as [Hr | [Hr | [Hr Hseq]]].
  3: { assert (mst_inv m2) as Hi2 by (eapply inv_but_inv; [done..|]; done).
       destruct Hr as [-> | ->]; cbn; eexists; (split; [done|]); [done|].
       split; [|done]. apply set_queues_inv; [done|]. by eapply list_del_queue. }
  1, 2: apply (send_failed_good id t2); [done..|by rewrite Hr].
Qed.

Lemma new_tx_inv id dst enc m :
  mst_inv m -> mgr_txs m !! id = None -> is_Some (mgr_mstbs m !! dst) ->
  mst_inv (with_tx id (new_tx dst 0 enc) m).
Proof.
  intros [I1 I2 I3 I4 I5 I6] Hn Hdst. split; cbn in *; try done.
  - intros mid b i id' Hb Hi Hsl. destruct (I1 _ _ _ _ Hb Hi Hsl) as (t & Ht & ?).
    exists t. rewrite lookup_insert_ne by congruence. done.
  - intros i t [[-> <-]|[? ?]]%lookup_insert_Some; eauto.
  - intros i t [[-> <-]|[? ?]]%lookup_insert_Some; [right; by left|eauto].
  - intros i t _ [[-> <-]|[? ?]]%lookup_insert_Some; [cbn; lia|eauto].
  - intros i Hi. apply lookup_insert_is_Some'. eauto.
Qed.

Lemma queue_down_good id dst enc m :
  good m -> mgr_txs m !! id = None -> is_Some (mgr_mstbs m !! dst) ->
  exists m', drm_dp_queue_down_tx dpcd_write id (with_tx id (new_tx dst 0 enc) m) = Done m' /\
    good m'.
Proof.
  intros [Hi Hm] Hn Hdst. unfold drm_dp_queue_down_tx.
  set (m1 := with_queues _ _ _ _ _).
  assert (good m1) as Hg1.
  { split; [|done]. apply set_queues_inv; [by apply new_tx_inv|].
    intros i [Hin| ->%list_elem_of_singleton]%elem_of_app; cbn.
    - apply lookup_insert_is_Some'. right. by eapply inv_queue.
    - rewrite lookup_insert_eq. done. }
  clearbody m1. destruct (mgr_tx_down_in_progress m1); [by eauto|].
  by apply process_single_down_good.
Qed.

Lemma tx_work_good m :
  good m -> exists m', drm_dp_tx_work dpcd_write m = Done m' /\ good m'.
Proof.
  intros Hg. unfold drm_dp_tx_work. destruct (mgr_tx_down_in_progress m); [|by eauto].
  by apply process_single_down_good.
Qed.

Lemma wait_tx_reply_good ret id t m :
  good m -> mgr_txs m !! id = Some t ->
  exists r m', drm_dp_mst_wait_tx_reply ret (tx_dst t) id m = Done (r, m') /\ good m'.
Proof.
  intros Hg Ht. pose proof Hg as [Hi Hm].
  unfold drm_dp_mst_wait_tx_reply. rewrite Ht. mred.
  destruct (0 <? ret); [case_if; by eauto|].
  set (m1 := if _ || _ then _ else m).
  assert (good m1 /\ mgr_txs m1 = mgr_txs m /\ mgr_mstbs m1 = mgr_mstbs m)
    as (Hg1 & Htx & Hbr).
  { unfold m1. case_if; [|done]. split; [|done]. split; [|done].
    apply set_queues_inv; [done|]. by eapply list_del_queue. }
  pose proof Hg1 as [Hi1 Hm1]. clearbody m1. case_if; [|by eauto].
  destruct (inv_dst _ _ Hi _ _ Ht) as [b Hb]. rewrite Hbr, Hb.
  assert (tx_seqno t = 0 \/ tx_seqno t = 1) as Hs.
  { destruct (inv_seq _ _ Hi _ _ Ht) as [Hs|]; [|done]. exfalso. revert Hs.
    eapply (inv_sending _ _ Hi); [done..|]. unfold sending.
    match goal with H : _ || _ = true |- _ => apply orb_prop in H as [H|H]; b2p; auto end. }
  destruct (clear_slot_inv _ (tx_dst t) b (tx_seqno t) m1 Hi1) as (b' & -> & Hb');
    [by rewrite Hbr|done|]. do 2 eexists. split; [done|]. by split.
Qed.

Lemma drop_slot_inv slot mid m :
  slot = 0 \/ slot = 1 -> mst_inv m -> is_Some (mgr_mstbs m !! mid) ->
  exists m', drop_slot slot mid m = Done m' /\ mst_inv m' /\
    is_Some (mgr_mstbs m' !! mid) /\
    mgr_max_dpcd_transaction_bytes m' = mgr_max_dpcd_transaction_bytes m.
Proof.
  intros Hs Hi [b Hb]. unfold drop_slot. rewrite Hb. mred.
  destruct (br_tx_slot b slot) as [id|] eqn:Hsl; [|by eauto 10].
  destruct (inv_slots _ _ Hi _ _ _ _ Hb Hs Hsl) as (t & Ht & Hd & Hsq & Hst).
  rewrite Ht. destruct tx_states_ne as (_ & _ & _ & Hne1 & Hne2 & Hne3 & _).
  assert (mst_inv (with_tx id (tx_set_state DRM_DP_SIDEBAND_TX_TIMEOUT t) m)) as Hi1.
  { eapply (inv_but_inv id); [eapply mark_inv; [|done..]|cbn; by rewrite lookup_insert_eq|].
    - by apply inv_inv_but.
    - unfold sending. cbn. intros [|]; congruence. }
  destruct (clear_slot_inv _ mid b slot _ Hi1 Hb Hs) as (b' & -> & Hb').
  eexists. split; [done|]. split; [exact Hb'|]. cbn. by rewrite lookup_insert_eq.
Qed.

Lemma drop_tx_slots_good mid m :
  good m -> is_Some (mgr_mstbs m !! mid) ->
  exists m', drop_tx_slots mid m = Done m' /\ good m'.
Proof.
  intros [Hi Hm] Hb. unfold drop_tx_slots.
  destruct (drop_slot_inv 0 mid m) as (m1 & -> & Hi1 & Hb1 & Hm1); [by left|done..|].
  mred. destruct (drop_slot_inv 1 mid m1) as (m2 & -> & Hi2 & Hb2 & Hm2); [by right|done..|].
  eexists. split; [done|]. split; [done|]. lia.
Qed.

(** *** A reply, in the sections of its handler *)
Lemma down_rep_find_good dpcd_read block m p m' :
  good m -> down_rep_find dpcd_read block m = Done (p, m') ->
  good m' /\ mgr_txs m' = mgr_txs m /\ mgr_mstbs m' = mgr_mstbs m /\
  forall mid slot id, p = Some (mid, slot, id) ->
    (slot = 0 \/ slot = 1) /\ is_Some (mgr_txs m !! id) /\ is_Some (mgr_mstbs m !! mid).
Proof.
  intros [Hi Hm]. unfold down_rep_find.
  assert (forall a b, good (with_rx a b m)) as Hrx by (intros a b; split; [by apply set_rx_inv|done]).
  destruct (drm_dp_get_one_sb_msg _ _ _ _ _ _) as [msg| |]; mred; [|done..].
  destruct (rx_have_eomt msg); [|intros [= <- <-]; split_and!; [apply Hrx|done..]].
  destruct (drm_dp_get_mst_branch_device _ _ _) as [[mid|]| |]; [|intros [= <- <-]; split_and!; [apply Hrx|done..]|done..].
  cbn [with_rx mgr_mstbs]. destruct (mgr_mstbs m !! mid) as [b|] eqn:Hb; [|done].
  set (slot := b2z _).
  assert (slot = 0 \/ slot = 1) as Hs by (unfold slot; destruct (hdr_seqno _); [by right|by left]).
  destruct (br_tx_slot b slot) as [id|] eqn:Hsl; [|intros [= <- <-]; split_and!; [apply Hrx|done..]].
  intros [= <- <-]. split_and!; [apply Hrx|done..|]. intros ? ? ? [= <- <- <-]. split_and!; [done| |by rewrite Hb].
  destruct (inv_slots _ _ Hi _ _ _ _ Hb Hs Hsl) as (t & -> & _). done.
Qed.

Lemma down_rep_parse_good id m :
  good m -> is_Some (mgr_txs m !! id) -> exists m', down_rep_parse id m = Done m' /\ good m'.
Proof.
  intros [Hi Hm] [t Ht]. unfold down_rep_parse. rewrite Ht. mred.
  destruct (drm_dp_sideband_parse_reply _) as [ok reply]. eexists. split; [done|]. split; [|done]. apply set_rx_inv.
  eapply (inv_but_inv id); [|cbn; by rewrite lookup_insert_eq|intros Hs; by apply (inv_sending _ _ Hi id t)].
  eapply with_tx_inv; [by apply inv_inv_but|exact Ht|done|exact (inv_seq _ _ Hi id t Ht)|].
  intros b i Hb Hi' Hsl. destruct (inv_slots _ _ Hi _ _ _ _ Hb Hi' Hsl) as (t3 & ? & _ & ? & ?). by simplify_eq.
Qed.

Lemma down_rep_finish_good mid slot id m :
  good m -> slot = 0 \/ slot = 1 -> is_Some (mgr_txs m !! id) -> is_Some (mgr_mstbs m !! mid) ->
  exists m', down_rep_finish mid slot id m = Done m' /\ good m'.
Proof.
  intros [Hi Hm] Hs [t Ht] [b Hb]. unfold down_rep_finish. rewrite Ht. mred.
  destruct tx_states_ne as (_ & _ & Hn1 & _ & _ & _ & Hn2 & Hn3).
  set (m1 := with_tx id (tx_set_state DRM_DP_SIDEBAND_TX_RX t) m).
  assert (mst_inv m1) as Hi1.
  { eapply (inv_but_inv id); [by apply mark_inv; [apply inv_inv_but|..]|cbn; by rewrite lookup_insert_eq|].
    unfold sending. cbn. intros [|]; congruence. }
  change (mgr_mstbs m1 !! mid) with (mgr_mstbs m !! mid). rewrite Hb.
  destruct (clear_slot_inv _ mid b slot m1 Hi1 Hb Hs) as (b' & -> & Hb'). eexists. split; [done|]. by split.
Qed.

(** A message that no slot and no queue mentions may go. *)
Lemma free_tx_good id m :
  good m -> id ∉ mgr_tx_msg_downq m ->
  (forall mid b i, mgr_mstbs m !! mid = Some b -> i = 0 \/ i = 1 -> br_tx_slot b i <> Some id) -> good (free_tx id m).
Proof.
  intros [[I1 I2 I3 I4 I5 I6] Hm] Hq Hsl. split; [|done]. split; cbn; try done.
  - intros mid b i id' Hb Hi Hs. destruct (I1 _ _ _ _ Hb Hi Hs) as (t & Ht & ?). exists t.
    rewrite lookup_delete_ne; [done|]. intros ->. by apply (Hsl mid b i).
  - intros i t [_ Ht]%lookup_delete_Some. eauto.
  - intros i t [_ Ht]%lookup_delete_Some. eauto.
  - intros i t _ [_ Ht]%lookup_delete_Some. eauto.
  - intros i Hi. rewrite lookup_delete_ne; [eauto|]. by intros ->.
Qed.

(** *** Objects stay *)

(** No operation but [kfree] makes a message or a branch go away. *)
Definition grows (m m' : mst_mgr D) : Prop :=
  (forall i, is_Some (mgr_txs m !! i) -> is_Some (mgr_txs m' !! i)) /\
  (forall i, is_Some (mgr_mstbs m !! i) -> is_Some (mgr_mstbs m' !! i)).

Lemma grows_refl m : grows m m.
Proof. done. Qed.

Lemma grows_trans m1 m2 m3 : grows m1 m2 -> grows m2 m3 -> grows m1 m3.
Proof. intros [A B] [C E]. split; auto. Qed.

Lemma grows_tx m m' id t : grows m m' -> grows m (with_tx id t m').
Proof. intros [A B]. split; [|done]. cbn. intros i Hi. apply lookup_insert_is_Some'. auto. Qed.

Lemma grows_mstb m m' id b : grows m m' -> grows m (with_mstb id b m').
Proof. intros [A B]. split; [done|]. cbn. intros i Hi. apply lookup_insert_is_Some'. auto. Qed.

Lemma grows_queues m m' q u x y : grows m m' -> grows m (with_queues q u x y m').
Proof. done. Qed.

Lemma grows_dev m m' d : grows m m' -> grows m (with_dev d m').
Proof. done. Qed.

Lemma grows_rx m m' x y : grows m m' -> grows m (with_rx x y m').
Proof. done. Qed.

(** Takes a run apart and rebuilds what its result is made of. *)
Ltac grow :=
  repeat (mred; match goal with
  | H : context [match ?x with _ => _ end] |- _ => let E := fresh "E" in destruct x eqn:E; try discriminate H
  end); simplify_eq;
  repeat first [apply grows_tx|apply grows_mstb|apply grows_queues|apply grows_dev|apply grows_rx]; try apply grows_refl; auto.

Lemma set_hdr_grows id m ret h m' : set_hdr_from_dst_qlock id m = Done (ret, h, m') -> grows m m'.
Proof. unfold set_hdr_from_dst_qlock. intros He. grow. Qed.

Lemma single_tx_grows id up m ret m' : process_single_tx_qlock dpcd_write id up m = Done (ret, m') -> grows m m'.
Proof.
  unfold process_single_tx_qlock. destruct (mgr_txs m !! id) as [t|]; [|done]. mred. set (m1 := if _ =? _ then _ else m).
  assert (grows m m1) as H1 by (unfold m1; case_if; [by apply grows_tx|done]). clearbody m1.
  destruct (set_hdr_from_dst_qlock id m1) as [[[r h] m2]| |] eqn:E2; [|done..]. apply set_hdr_grows in E2.
  assert (grows m m2) as H2 by (by eapply grows_trans). case_if; [by intros [= <- <-]|].
  destruct (mgr_txs m2 !! id) as [t2|]; [|done]. destruct (make_chunk h _) as [chunk tosend].
  destruct (drm_dp_send_sideband_msg _ _ _ _ _ _) as [[r2 d]| |]; [|done..]. intros He. grow.
Qed.

Lemma single_down_grows m m' : process_single_down_tx_qlock dpcd_write m = Done m' -> grows m m'.
Proof.
  unfold process_single_down_tx_qlock. destruct (mgr_tx_msg_downq m) as [|id q]; [by intros [= <-]|].
  set (m1 := with_queues _ _ true _ m). destruct (process_single_tx_qlock dpcd_write id false m1) as [[r m2]| |] eqn:E2; [|done..].
  apply single_tx_grows in E2. assert (grows m m2) as H2 by exact E2. mred. intros He. grow.
Qed.

Lemma queue_down_grows id dst enc m m' :
  drm_dp_queue_down_tx dpcd_write id (with_tx id (new_tx dst 0 enc) m) = Done m' -> grows m m'.
Proof.
  unfold drm_dp_queue_down_tx. set (m1 := with_queues _ _ _ _ _).
  assert (grows m m1) as H1 by (by apply grows_queues, grows_tx). clearbody m1.
  destruct (mgr_tx_down_in_progress m1); [by intros [= <-]|]. intros He%single_down_grows. by eapply grows_trans.
Qed.

Lemma tx_work_grows m m' : drm_dp_tx_work dpcd_write m = Done m' -> grows m m'.
Proof. unfold drm_dp_tx_work. case_if; [apply single_down_grows|by intros [= <-]]. Qed.

Lemma wait_grows ret mid id m r m' : drm_dp_mst_wait_tx_reply ret mid id m = Done (r, m') -> grows m m'.
Proof. unfold drm_dp_mst_wait_tx_reply. intros He. grow. Qed.

Lemma drop_slots_grows mid m m' : drop_tx_slots mid m = Done m' -> grows m m'.
Proof.
  assert (forall slot m1 m2, drop_slot slot mid m1 = Done m2 -> grows m1 m2) as Hd by (unfold drop_slot; intros slot m1 m2 He; grow).
  unfold drop_tx_slots. destruct (drop_slot 0 mid m) as [m1| |] eqn:E1; [|done..]. mred. intros E2.
  apply Hd in E1, E2. by eapply grows_trans.
Qed.

Lemma parse_grows id m m' : down_rep_parse id m = Done m' -> grows m m'.
Proof. unfold down_rep_parse. intros He. grow. Qed.

(** ** Reachable managers *)

(** A reply whose handler has read the slot, or has parsed it too. *)
Inductive pending := Found (mid : nat) (slot : Z) (id : nat) | Parsed (mid : nat) (slot : Z) (id : nat).

Definition about (p : pending) : nat * Z * nat := match p with Found mid slot id | Parsed mid slot id => (mid, slot, id) end.

(** A manager with the reply that is being handled.  No upstream request is answered;
    and a message is freed, by the function that waited for it, only when it is in no
    slot and not queued and its reply is not being handled, which the code does not make
    sure of ([dp_reply_window_uses_freed]). *)
Inductive mst_step : mst_mgr D * option pending -> mst_mgr D * option pending -> Prop :=
| step_queue id dst enc m m' p :
    mgr_txs m !! id = None -> is_Some (mgr_mstbs m !! dst) ->
    drm_dp_queue_down_tx dpcd_write id (with_tx id (new_tx dst 0 enc) m) = Done m' ->
    mst_step (m, p) (m', p)
| step_work m m' p : drm_dp_tx_work dpcd_write m = Done m' -> mst_step (m, p) (m', p)
| step_wait ret r id t m m' p :
    mgr_txs m !! id = Some t ->
    drm_dp_mst_wait_tx_reply ret (tx_dst t) id m = Done (r, m') -> mst_step (m, p) (m', p)
| step_find dpcd_read block m m' r :
    down_rep_find dpcd_read block m = Done (r, m') ->
    mst_step (m, None) (m', (fun '(mid, slot, id) => Found mid slot id) <$> r)
| step_parse mid slot id m m' :
    down_rep_parse id m = Done m' -> mst_step (m, Some (Found mid slot id)) (m', Some (Parsed mid slot id))
| step_finish mid slot id m m' :
    down_rep_finish mid slot id m = Done m' -> mst_step (m, Some (Parsed mid slot id)) (m', None)
| step_free id m p :
    id ∉ mgr_tx_msg_downq m ->
    (forall mid b i, mgr_mstbs m !! mid = Some b -> i = 0 \/ i = 1 -> br_tx_slot b i <> Some id) ->
    (forall q, p = Some q -> (about q).2 <> id) -> mst_step (m, p) (free_tx id m, p)
| step_drop mid m m' p :
    is_Some (mgr_mstbs m !! mid) -> drop_tx_slots mid m = Done m' -> mst_step (m, p) (m', p)
| step_device d m p : mst_step (m, p) (with_dev d m, p).

Inductive mst_reachable : mst_mgr D * option pending -> Prop :=
| reach_start m :
    mgr_txs m = ∅ -> mgr_tx_msg_downq m = [] ->
    (forall mid b, mgr_mstbs m !! mid = Some b ->
       br_slot0 b = None /\ br_slot1 b = None /\ br_last_seqno b = 0) ->
    1 <= mgr_max_dpcd_transaction_bytes m -> mst_reachable (m, None)
| reach_step s s' : mst_reachable s -> mst_step s s' -> mst_reachable s'.

(** What a pending reply points to is there. *)
Definition pending_ok (m : mst_mgr D) (p : option pending) : Prop :=
  forall q, p = Some q -> let '(mid, slot, id) := about q in
    (slot = 0 \/ slot = 1) /\ is_Some (mgr_txs m !! id) /\ is_Some (mgr_mstbs m !! mid).

Lemma pending_grows m m' p : grows m m' -> pending_ok m p -> pending_ok m' p.
Proof.
  intros [A B] Hp q Hq. specialize (Hp q Hq). destruct (about q) as [[mid slot] id]. destruct Hp as (? & ? & ?). auto.
Qed.

Lemma start_good m :
  mgr_txs m = ∅ -> mgr_tx_msg_downq m = [] ->
  (forall mid b, mgr_mstbs m !! mid = Some b -> br_slot0 b = None /\ br_slot1 b = None /\ br_last_seqno b = 0) ->
  1 <= mgr_max_dpcd_transaction_bytes m -> good m.
Proof.
  intros Htx Hq Hbr Hmax. split; [|done]. split.
  - intros mid b i id Hb Hi. destruct (Hbr _ _ Hb) as (E0 & E1 & _). unfold br_tx_slot. rewrite E0, E1. by case_if.
  - intros id t. by rewrite Htx, lookup_empty.
  - intros id t. by rewrite Htx, lookup_empty.
  - intros id t _. by rewrite Htx, lookup_empty.
  - rewrite Hq. set_solver.
  - intros mid b Hb. left. by destruct (Hbr _ _ Hb) as (_ & _ & ?).
Qed.

Lemma reachable_good s : mst_reachable s -> good s.1 /\ pending_ok s.1 s.2.
Proof.
  induction 1 as [m Htx Hq Hbr Hmax|s s' _ [IH IHp] Hstep]; [split; [by apply start_good|done]|].
  destruct Hstep as [id dst enc m m' p Hn Hd He|m m' p He|ret r id t m m' p Ht He|
    rd block m m' r He|mid slot id m m' He|mid slot id m m' He|id m p Hq Hs Hp|mid m m' p Hb He|d m p]; cbn [fst snd] in *.
  - destruct (queue_down_good id dst enc m IH Hn Hd) as (m1 & He' & Hg). split; [congruence|].
    eapply pending_grows; [by eapply queue_down_grows|done].
  - destruct (tx_work_good m IH) as (m1 & He' & Hg). split; [congruence|]. eapply pending_grows; [by eapply tx_work_grows|done].
  - destruct (wait_tx_reply_good ret id t m IH Ht) as (r1 & m1 & He' & Hg). split; [congruence|].
    eapply pending_grows; [by eapply wait_grows|done].
  - destruct (down_rep_find_good rd block m r m' IH He) as (Hg & Et & Eb & Hr). split; [done|].
    intros q. destruct r as [[[mid slot] id]|]; [|done]. intros [= <-]. cbn. rewrite Et, Eb. by apply Hr.
  - destruct (IHp _ eq_refl) as (Hs & Ht & Hb). destruct (down_rep_parse_good id m IH Ht) as (m1 & He' & Hg). split; [congruence|].
    apply (pending_grows m); [by eapply parse_grows|]. intros q [= <-]. done.
  - destruct (IHp _ eq_refl) as (Hs & Ht & Hb). destruct (down_rep_finish_good mid slot id m IH Hs Ht Hb) as (m1 & He' & Hg).
    split; [congruence|done].
  - split; [by apply free_tx_good|]. intros q Hq'. specialize (IHp q Hq'). specialize (Hp q Hq').
    destruct (about q) as [[mid slot] id'] eqn:Eq. destruct IHp as (? & ? & ?). cbn. by rewrite lookup_delete_ne.
  - destruct (drop_tx_slots_good mid m IH Hb) as (m1 & He' & Hg). split; [congruence|].
    eapply pending_grows; [by eapply drop_slots_grows|done].
  - destruct IH as [Hi Hm]. split; [by split; [apply set_dev_inv|]|done].
Qed.

End invariant.
