(* ===== verification/DpReply.v ===== *)
(** * The reply parsers against the message formats

    [ack] is the content of a reply and [ack_bytes] the bytes of it as the
    DisplayPort standard lays them out; the parsers recover the content. *)

From S2P Require Import Prelude DpSideband DpCrc DpSidebandSpec DpMst DpMstSpec.

#[local] Ltac Zify.zify_post_hook ::= Z.to_euclidean_division_equations.

(** ** Contents of replies *)
Inductive ack :=
| AckLink (guid : list Z) (ports : list drm_dp_link_addr_reply_port)
| AckPath (port full avail : Z)
| AckAllocate (port vcpi pbn : Z)
| AckQuery (port pbn : Z)
| AckI2cRead (port : Z) (bytes : list Z)
| AckDpcdWrite (port : Z)
| Nak (req : Z) (guid : list Z) (reason data : Z).

Definition be16_bytes (x : Z) : list Z := [x / 256; x mod 256].

Definition link_port_bytes (p : drm_dp_link_addr_reply_port) : list Z :=
  [b2z (lp_input_port p) * 128 + lp_peer_device_type p * 16 + lp_port_number p;
   b2z (lp_mcs p) * 128 + b2z (lp_ddps p) * 64 +
     b2z (lp_legacy_device_plug_status p) * 32] ++
  (if lp_input_port p then []
   else [lp_dpcd_revision p] ++ lp_peer_guid p ++
        [lp_num_sdp_streams p * 16 + lp_num_sdp_stream_sinks p]).

Definition ack_bytes `{dp_h} (a : ack) : list Z :=
  match a with
  | AckLink guid ports =>
    [DP_LINK_ADDRESS] ++ guid ++ [Z.of_nat (length ports)] ++
    concat (link_port_bytes <$> ports)
  | AckPath port full avail =>
    [DP_ENUM_PATH_RESOURCES; port * 16] ++ be16_bytes full ++ be16_bytes avail
  | AckAllocate port vcpi pbn =>
    [DP_ALLOCATE_PAYLOAD; port * 16; vcpi] ++ be16_bytes pbn
  | AckQuery port pbn => [DP_QUERY_PAYLOAD; port * 16] ++ be16_bytes pbn
  | AckI2cRead port bytes =>
    [DP_REMOTE_I2C_READ; port; Z.of_nat (length bytes)] ++ bytes
  | AckDpcdWrite port => [DP_REMOTE_DPCD_WRITE; port]
  | Nak req guid reason data => [128 + req] ++ guid ++ [reason; data]
  end.

(** The body a parser leaves for it. *)
Definition ack_body `{dp_h} (a : ack) : drm_dp_sideband_msg_reply_body :=
  let z := zero_reply in
  let mk ty nak la ir dw pr ap qp :=
    mk_reply 0 ty nak la (rep_remote_dpcd_read_ack z) dw ir pr ap qp in
  let nak := rep_nak z in let la := rep_link_addr z in
  let ir := rep_remote_i2c_read_ack z in let pr := rep_path_resources z in
  let ap := rep_allocate_payload z in let qp := rep_query_payload z in
  match a with
  | AckLink guid ports =>
    mk DP_LINK_ADDRESS nak {| la_guid := guid; la_nports := Z.of_nat (length ports);
      la_ports := ports |} ir 0 pr ap qp
  | AckPath port full avail =>
    mk DP_ENUM_PATH_RESOURCES nak la ir 0 {| pr_port_number := port;
      pr_full_payload_bw_number := full; pr_avail_payload_bw_number := avail |} ap qp
  | AckAllocate port vcpi pbn =>
    mk DP_ALLOCATE_PAYLOAD nak la ir 0 pr {| pa_port_number := port; pa_vcpi := vcpi;
      pa_allocated_pbn := pbn |} qp
  | AckQuery port pbn =>
    mk DP_QUERY_PAYLOAD nak la ir 0 pr ap {| pa_port_number := port; pa_vcpi := 0;
      pa_allocated_pbn := pbn |}
  | AckI2cRead port bytes =>
    mk DP_REMOTE_I2C_READ nak la {| da_port_number := port;
      da_num_bytes := Z.of_nat (length bytes); da_bytes := bytes |} 0 pr ap qp
  | AckDpcdWrite port => mk DP_REMOTE_DPCD_WRITE nak la ir port pr ap qp
  | Nak req guid reason data =>
    mk_reply 1 req {| nak_guid := guid; nak_reason := reason; nak_nak_data := data |}
      la (rep_remote_dpcd_read_ack z) 0 ir pr ap qp
  end.

(** Fields within their widths; an input port has no peer data. *)
Definition wf_link_port (p : drm_dp_link_addr_reply_port) : Prop :=
  0 <= lp_peer_device_type p < 8 /\ 0 <= lp_port_number p < 16 /\
  length (lp_peer_guid p) = 16%nat /\
  0 <= lp_num_sdp_streams p < 16 /\ 0 <= lp_num_sdp_stream_sinks p < 16 /\
  (lp_input_port p = true ->
   lp_legacy_device_plug_status p = false /\ lp_dpcd_revision p = 0 /\
   lp_peer_guid p = zero16 /\ lp_num_sdp_streams p = 0 /\ lp_num_sdp_stream_sinks p = 0).

Definition wf_ack (a : ack) : Prop :=
  match a with
  | AckLink guid ports =>
    length guid = 16%nat /\ (length ports < 16)%nat /\ Forall wf_link_port ports
  | AckPath port full avail => 0 <= port < 16 /\ is_u16 full /\ is_u16 avail
  | AckAllocate port vcpi pbn => 0 <= port < 16 /\ is_u16 pbn
  | AckQuery port pbn => 0 <= port < 16 /\ is_u16 pbn
  | AckI2cRead port bytes => 0 <= port < 16
  | AckDpcdWrite port => 0 <= port < 16
  | Nak req guid reason data => 0 <= req < 128 /\ length guid = 16%nat
  end.

Definition is_nak (a : ack) : bool := match a with Nak _ _ _ _ => true | _ => false end.

(** ** Reading inside a message *)
Lemma rd_skip l k i : 0 <= i -> rd (l ++ k) (Z.of_nat (length l) + i) = rd k i.
Proof. intros. rewrite rd_app_r by lia. f_equal. lia. Qed.

Lemma copy_skip l k i n :
  0 <= i -> copy (l ++ k) (Z.of_nat (length l) + i) n = copy k i n.
Proof.
  intros Hi. unfold copy. apply list_fmap_ext. intros j x Hx.
  apply lookup_seqZ in Hx as [-> ?]. rewrite <- Z.add_assoc.
  apply rd_skip. lia.
Qed.

Lemma be16_read a b : is_u16 (a * 256 + b) -> 0 <= b < 256 ->
  u16 (Z.lor (Z.shiftl a 8) b) = a * 256 + b.
Proof. intros Ha Hb. rewrite lor_shift by lia. by apply wrap_small. Qed.

Lemma rd_be16_bytes msg i x :
  is_u16 x -> rd msg i = x / 256 -> rd msg (i + 1) = x mod 256 -> rd_be16 msg i = x.
Proof.
  unfold is_u16. intros Hx H1 H2. unfold rd_be16. rewrite H1, H2, be16_read;
    unfold is_u16; lia.
Qed.

Lemma byte_nibbles a b : 0 <= a < 16 -> 0 <= b < 16 ->
  Z.land (Z.shiftr (a * 16 + b) 4) 0xf = a /\ Z.land (a * 16 + b) 0xf = b.
Proof.
  intros. rewrite !(land_mask _ 4) by done. rewrite Z.shiftr_div_pow2 by lia. lia.
Qed.

Lemma length_link_port_bytes p :
  wf_link_port p ->
  Z.of_nat (length (link_port_bytes p)) = if lp_input_port p then 2 else 20.
Proof.
  intros (_ & _ & Hg & _). unfold link_port_bytes.
  destruct (lp_input_port p); cbn; rewrite ?length_app, ?Hg; done.
Qed.

(** One port of a link address reply. *)
Lemma parse_link_port_ok pre p suf curlen :
  wf_link_port p ->
  Z.of_nat (length pre) + Z.of_nat (length (link_port_bytes p)) <= curlen ->
  parse_link_port (pre ++ link_port_bytes p ++ suf) curlen (Z.of_nat (length pre)) =
  (p, Some (Z.of_nat (length pre) + Z.of_nat (length (link_port_bytes p)))).
Proof.
  intros Hw Hlen. rewrite length_link_port_bytes in * by done.
  destruct Hw as (Hpdt & Hpn & Hg & Hst & Hsk & Hin).
  set (L := Z.of_nat (length pre)) in *. unfold parse_link_port.
  assert (rd (pre ++ link_port_bytes p ++ suf) L =
    b2z (lp_input_port p) * 128 + lp_peer_device_type p * 16 + lp_port_number p) as ->.
  { replace L with (L + 0) by lia. unfold L. by rewrite rd_skip by lia. }
  assert (rd (pre ++ link_port_bytes p ++ suf) (L + 1) =
    b2z (lp_mcs p) * 128 + b2z (lp_ddps p) * 64 +
    b2z (lp_legacy_device_plug_status p) * 32) as ->.
  { unfold L. by rewrite rd_skip by lia. }
  assert (truth (Z.land (b2z (lp_input_port p) * 128 + lp_peer_device_type p * 16 +
    lp_port_number p) 0x80) = lp_input_port p) as ->.
  { unfold truth. rewrite (land_pow2_eqb_0 _ 7), negb_involutive by lia.
    flag (lp_input_port p). }
  assert (Z.land (Z.shiftr (b2z (lp_input_port p) * 128 + lp_peer_device_type p * 16 +
    lp_port_number p) 4) 0x7 = lp_peer_device_type p) as ->.
  { rewrite (land_mask _ 3), Z.shiftr_div_pow2 by done.
    destruct (lp_input_port p); cbn [b2z]; lia. }
  assert (Z.land (b2z (lp_input_port p) * 128 + lp_peer_device_type p * 16 +
    lp_port_number p) 0xf = lp_port_number p) as ->.
  { rewrite (land_mask _ 4) by done. destruct (lp_input_port p); cbn [b2z]; lia. }
  rewrite !truth_bit by lia.
  set (x := b2z (lp_mcs p) * 128 + _ + _).
  assert (Z.testbit x 7 = lp_mcs p) as -> by (unfold x; flag (lp_mcs p)).
  assert (Z.testbit x 6 = lp_ddps p) as -> by (unfold x; flag (lp_ddps p)).
  assert (Z.testbit x 5 = lp_legacy_device_plug_status p) as ->
    by (unfold x; flag (lp_legacy_device_plug_status p)).
  destruct p as [inp pdt pn mcs ddps ldps rev guid st sk]; cbn in *.
  destruct inp.
  - destruct (Hin eq_refl) as (-> & -> & -> & -> & ->).
    destruct (Z.ltb_spec curlen (L + 1)); [lia|].
    destruct (Z.ltb_spec curlen (L + 1 + 1)); [lia|]. do 2 f_equal. lia.
  - set (msg := pre ++ _).
    assert (rd msg (L + 1 + 1) = rev) as ->.
    { rewrite <- Z.add_assoc. unfold L, msg. by rewrite rd_skip by lia. }
    assert (copy msg (L + 1 + 1 + 1) 16 = guid) as ->.
    { rewrite <- !Z.add_assoc. unfold L, msg. rewrite copy_skip by lia.
      rewrite !app_comm_cons, <- app_assoc. apply (copy_app [_; _; rev]); [done|lia]. }
    assert (rd msg (L + 1 + 1 + 1 + 16) = st * 16 + sk) as ->.
    { rewrite <- !Z.add_assoc. unfold L, msg. rewrite rd_skip by lia.
      rewrite !app_comm_cons, <- app_assoc.
      rewrite (rd_app_r (_ :: _ :: rev :: guid)) by (simpl; lia).
      replace (_ - _) with 0; [done|]. cbn [length]. lia. }
    destruct (byte_nibbles st sk Hst Hsk) as [-> ->].
    repeat match goal with |- context [curlen <? ?x] =>
      destruct (Z.ltb_spec curlen x); [lia|] end.
    do 2 f_equal. lia.
Qed.

Lemma parse_link_ports_ok ports pre suf curlen :
  Forall wf_link_port ports ->
  Z.of_nat (length pre) + Z.of_nat (length (concat (link_port_bytes <$> ports))) <= curlen ->
  parse_link_ports (length ports) (pre ++ concat (link_port_bytes <$> ports) ++ suf) curlen
    (Z.of_nat (length pre)) = (true, ports).
Proof.
  intros Hw. revert pre. induction Hw as [|p ports Hp Hw IH]; intros pre Hl; [done|].
  cbn [parse_link_ports length fmap list_fmap concat].
  cbn [fmap list_fmap concat] in Hl. rewrite length_app in Hl.
  rewrite <- app_assoc, parse_link_port_ok by (done || lia).
  replace (Z.of_nat (length pre) + Z.of_nat (length (link_port_bytes p)))
    with (Z.of_nat (length (pre ++ link_port_bytes p))) by (rewrite length_app; lia).
  rewrite app_assoc, IH; [done|]. rewrite length_app. lia.
Qed.

Lemma parse_link_address_ok `{dp_h} raw guid ports :
  wf_ack (AckLink guid ports) -> rx_holds raw (ack_bytes (AckLink guid ports)) ->
  drm_dp_sideband_parse_link_address raw =
  (true, {| la_guid := guid; la_nports := Z.of_nat (length ports); la_ports := ports |}).
Proof.
  intros (Hg & Hn & Hw) [_ (rest & Hm & _) Hl]. cbn [ack_bytes] in *.
  unfold drm_dp_sideband_parse_link_address. rewrite Hl, Hm.
  rewrite !length_app in *. cbn [length] in *. rewrite <- !app_assoc.
  rewrite (copy_app [_] guid) by (done || lia).
  assert (rd ([DP_LINK_ADDRESS] ++ guid ++ [Z.of_nat (length ports)] ++
    concat (link_port_bytes <$> ports) ++ rest) 17 = Z.of_nat (length ports)) as ->.
  { rewrite rd_app_r by (simpl; lia). rewrite rd_app_r by (simpl; lia).
    by rewrite Hg. }
  rewrite (land_mask_id _ 4) by (done || lia). rewrite Nat2Z.id.
  destruct (Z.ltb_spec (Z.of_nat (1 + (length guid + (1 + length (concat (link_port_bytes <$> ports)))))) 18);
    [lia|].
  pose proof (parse_link_ports_ok ports
    ([DP_LINK_ADDRESS] ++ guid ++ [Z.of_nat (length ports)]) rest
    (Z.of_nat (1 + (length guid + (1 + length (concat (link_port_bytes <$> ports)))))) Hw) as Hp.
  rewrite <- !app_assoc, !length_app in Hp. cbn [length] in Hp. rewrite Hg in *.
  change 18 with (Z.of_nat (1 + (16 + 1))). rewrite Hp by lia. done.
Qed.

(** ** The dispatcher *)
Section replies.
Context `{dp_h_ok}.

(** The identifiers are distinct: the tests of the [switch]. *)
Lemma dp_ids_pairwise (i j : nat) x y :
  dp_request_ids !! i = Some x -> dp_request_ids !! j = Some y -> i <> j ->
  (x =? y) = false.
Proof.
  intros Hi Hj Hne. apply Z.eqb_neq. intros ->.
  apply Hne. by eapply NoDup_lookup; [apply dp_ids_distinct|..].
Qed.

Lemma dp_id_byte (i : nat) x :
  dp_request_ids !! i = Some x ->
  Z.shiftr (Z.land x 0x80) 7 = 0 /\ Z.land x 0x7f = x.
Proof.
  intros Hi. pose proof dp_ids_range as Hr. rewrite Forall_lookup in Hr.
  specialize (Hr _ _ Hi). cbn in Hr. split; [|by apply (land_mask_id _ 7)].
  change 0x80 with (2 ^ 7). rewrite shiftr_land_pow2 by lia. by rewrite (testbit_high x 7 7).
Qed.

Lemma rx_first raw x l : rx_holds raw (x :: l) -> rd (rx_msg raw) 0 = x.
Proof. intros [_ (rest & -> & _) _]. done. Qed.

(** The test of the [switch] between the [i]th and the [j]th identifier. *)
Ltac dp_ne i j :=
  rewrite (dp_ids_pairwise i j _ _ eq_refl eq_refl ltac:(done)).

Lemma port_nibble port : 0 <= port < 16 -> Z.land (Z.shiftr (port * 16) 4) 0xf = port.
Proof. intros. replace (port * 16) with (port * 16 + 0) by lia. by apply byte_nibbles. Qed.

Lemma parse_enum_path_resources_ok raw port full avail :
  wf_ack (AckPath port full avail) -> rx_holds raw (ack_bytes (AckPath port full avail)) ->
  drm_dp_sideband_parse_enum_path_resources_ack raw =
  (true, {| pr_port_number := port; pr_full_payload_bw_number := full;
            pr_avail_payload_bw_number := avail |}).
Proof.
  intros (Hp & Hf & Ha) [_ (rest & Hm & _) Hl].
  unfold drm_dp_sideband_parse_enum_path_resources_ack. rewrite Hl. cbn [length ack_bytes app be16_bytes].
  rewrite (rd_be16_bytes _ 2 full), (rd_be16_bytes _ 4 avail) by (done || by rewrite Hm).
  rewrite Hm. cbn -[Z.land Z.shiftr]. change (rd _ 1) with (port * 16).
  by rewrite port_nibble.
Qed.

Lemma parse_allocate_payload_ok raw port vcpi pbn :
  wf_ack (AckAllocate port vcpi pbn) -> rx_holds raw (ack_bytes (AckAllocate port vcpi pbn)) ->
  drm_dp_sideband_parse_allocate_payload_ack raw =
  (true, {| pa_port_number := port; pa_vcpi := vcpi; pa_allocated_pbn := pbn |}).
Proof.
  intros (Hp & Hf) [_ (rest & Hm & _) Hl].
  unfold drm_dp_sideband_parse_allocate_payload_ack. rewrite Hl. cbn [length ack_bytes app be16_bytes].
  rewrite (rd_be16_bytes _ 3 pbn) by (done || by rewrite Hm).
  rewrite Hm. cbn -[Z.land Z.shiftr]. change (rd _ 1) with (port * 16).
  by rewrite port_nibble.
Qed.

Lemma parse_query_payload_ok raw port pbn :
  wf_ack (AckQuery port pbn) -> rx_holds raw (ack_bytes (AckQuery port pbn)) ->
  drm_dp_sideband_parse_query_payload_ack raw =
  (true, {| pa_port_number := port; pa_vcpi := 0; pa_allocated_pbn := pbn |}).
Proof.
  intros (Hp & Hf) [_ (rest & Hm & _) Hl].
  unfold drm_dp_sideband_parse_query_payload_ack. rewrite Hl. cbn [length ack_bytes app be16_bytes].
  rewrite (rd_be16_bytes _ 2 pbn) by (done || by rewrite Hm).
  rewrite Hm. cbn -[Z.land Z.shiftr]. change (rd _ 1) with (port * 16).
  by rewrite port_nibble.
Qed.

Lemma parse_remote_i2c_read_ok raw port bytes :
  wf_ack (AckI2cRead port bytes) -> rx_holds raw (ack_bytes (AckI2cRead port bytes)) ->
  drm_dp_sideband_parse_remote_i2c_read_ack raw =
  (true, {| da_port_number := port; da_num_bytes := Z.of_nat (length bytes);
            da_bytes := bytes |}).
Proof.
  intros Hp [_ (rest & Hm & _) Hl]. unfold drm_dp_sideband_parse_remote_i2c_read_ack.
  rewrite Hl, Hm. cbn [ack_bytes] in *. rewrite length_app. cbn [length].
  destruct (Z.ltb_spec (Z.of_nat (3 + length bytes)) 2); [lia|].
  rewrite <- app_assoc. change (rd _ 1) with port. change (rd _ 2) with (Z.of_nat (length bytes)).
  rewrite copy_app by done. cbn in Hp. by rewrite (land_mask_id _ 4).
Qed.

Lemma parse_remote_dpcd_write_ok raw port :
  wf_ack (AckDpcdWrite port) -> rx_holds raw (ack_bytes (AckDpcdWrite port)) ->
  drm_dp_sideband_parse_remote_dpcd_write raw = (true, port).
Proof.
  intros Hp [_ (rest & Hm & _) Hl]. unfold drm_dp_sideband_parse_remote_dpcd_write.
  rewrite Hl, Hm. cbn -[Z.land]. change (rd _ 1) with port.
  cbn in Hp. by rewrite (land_mask_id _ 4).
Qed.

(** What the parser makes of a well-formed reply. *)
Lemma parse_reply_ok raw a :
  wf_ack a -> rx_holds raw (ack_bytes a) ->
  drm_dp_sideband_parse_reply raw = (negb (is_nak a), ack_body a).
Proof.
  intros Hw Hrx. unfold drm_dp_sideband_parse_reply. cbv zeta.
  destruct a as [guid ports|port full avail|port vcpi pbn|port pbn|port bytes|port|req guid reason data].
  - rewrite (rx_first _ _ _ Hrx). destruct (dp_id_byte 0 _ eq_refl) as [-> ->].
    rewrite Z.eqb_refl. by rewrite (parse_link_address_ok raw guid ports Hw Hrx).
  - rewrite (rx_first _ _ _ Hrx). destruct (dp_id_byte 2 _ eq_refl) as [-> ->].
    dp_ne 2%nat 0%nat. dp_ne 2%nat 4%nat. dp_ne 2%nat 6%nat. dp_ne 2%nat 7%nat. dp_ne 2%nat 8%nat. rewrite Z.eqb_refl.
    by rewrite (parse_enum_path_resources_ok raw port full avail Hw Hrx).
  - rewrite (rx_first _ _ _ Hrx). destruct (dp_id_byte 3 _ eq_refl) as [-> ->].
    dp_ne 3%nat 0%nat. dp_ne 3%nat 4%nat. dp_ne 3%nat 6%nat. dp_ne 3%nat 7%nat. dp_ne 3%nat 8%nat. dp_ne 3%nat 2%nat. rewrite Z.eqb_refl.
    by rewrite (parse_allocate_payload_ok raw port vcpi pbn Hw Hrx).
  - rewrite (rx_first _ _ _ Hrx). destruct (dp_id_byte 4 _ eq_refl) as [-> ->].
    dp_ne 4%nat 0%nat. rewrite Z.eqb_refl.
    by rewrite (parse_query_payload_ok raw port pbn Hw Hrx).
  - rewrite (rx_first _ _ _ Hrx). destruct (dp_id_byte 8 _ eq_refl) as [-> ->].
    dp_ne 8%nat 0%nat. dp_ne 8%nat 4%nat. dp_ne 8%nat 6%nat. dp_ne 8%nat 7%nat. rewrite Z.eqb_refl.
    by rewrite (parse_remote_i2c_read_ok raw port bytes Hw Hrx).
  - rewrite (rx_first _ _ _ Hrx). destruct (dp_id_byte 7 _ eq_refl) as [-> ->].
    dp_ne 7%nat 0%nat. dp_ne 7%nat 4%nat. dp_ne 7%nat 6%nat. rewrite Z.eqb_refl.
    by rewrite (parse_remote_dpcd_write_ok raw port Hw Hrx).
  - rewrite (rx_first _ _ _ Hrx). destruct Hw as [Hr Hg].
    destruct Hrx as [_ (rest & Hm & _) _]. cbn [ack_bytes] in Hm.
    assert (Z.shiftr (Z.land (128 + req) 0x80) 7 = 1) as ->.
    { change 0x80 with (2 ^ 7). rewrite shiftr_land_pow2 by lia.
      by rewrite (testbit_top _ 7) by lia. }
    rewrite (land_mask _ 7) by done. rewrite Hm, <- !app_assoc.
    rewrite (copy_app [_] guid) by (done || lia).
    assert (rd ([128 + req] ++ guid ++ [reason; data] ++ rest) 17 = reason) as ->.
    { rewrite rd_app_r by (simpl; lia). rewrite rd_app_r by (simpl; lia). by rewrite Hg. }
    assert (rd ([128 + req] ++ guid ++ [reason; data] ++ rest) 18 = data) as ->.
    { rewrite rd_app_r by (simpl; lia). rewrite rd_app_r by (simpl; lia). by rewrite Hg. }
    replace ((128 + req) mod 2 ^ 7) with req by lia. done.
Qed.

(** The reply to a remote DPCD read: the copy starts at the byte count. *)
Lemma parse_remote_dpcd_read_off raw port bytes :
  0 <= port < 16 -> Z.of_nat (length bytes) < 128 ->
  rx_holds raw ([DP_REMOTE_DPCD_READ; port; Z.of_nat (length bytes)] ++ bytes) ->
  drm_dp_sideband_parse_remote_dpcd_read raw =
  (true, {| da_port_number := port; da_num_bytes := Z.of_nat (length bytes);
            da_bytes := take (length bytes) (Z.of_nat (length bytes) :: bytes) |}).
Proof.
  intros Hp Hb [_ (rest & Hm & _) Hl]. unfold drm_dp_sideband_parse_remote_dpcd_read.
  rewrite Hl, Hm. rewrite length_app. cbn [length].
  destruct (Z.ltb_spec (Z.of_nat (3 + length bytes)) 2); [lia|].
  rewrite <- app_assoc. change (rd _ 1) with port. change (rd _ 2) with (Z.of_nat (length bytes)).
  rewrite (land_mask_id _ 4), copy_slice by (done || (rewrite ?length_app; simpl; lia)).
  do 2 f_equal. rewrite Nat2Z.id. cbn [app drop Z.to_nat Pos.to_nat Pos.iter_op Nat.add].
  apply (take_app_le (_ :: bytes)). simpl. lia.
Qed.

End replies.
