(* ===== verification/DpProps.v ===== *)
(** * DisplayPort MST sideband messages: the properties

    The theorems about [drm_dp_mst_topology.c]'s message layer, with a
    concrete instance of the constants for their witnesses. *)

From S2P Require Import Prelude DpSideband DpCrc DpSidebandSpec DpMst DpMstSpec DpMstInv DpReply.

(** ** An instance of the constants (the values of the DisplayPort standard) *)
Module Sample.

#[export] Instance dp : dp_h :=
  {| DP_LINK_ADDRESS := 0x01; DP_CONNECTION_STATUS_NOTIFY := 0x02;
     DP_ENUM_PATH_RESOURCES := 0x10; DP_ALLOCATE_PAYLOAD := 0x11;
     DP_QUERY_PAYLOAD := 0x12; DP_RESOURCE_STATUS_NOTIFY := 0x13;
     DP_REMOTE_DPCD_READ := 0x20; DP_REMOTE_DPCD_WRITE := 0x21;
     DP_REMOTE_I2C_READ := 0x22; DP_REMOTE_I2C_WRITE := 0x23;
     rx_chunk_size := 48; rx_msg_size := 256 |}.

#[export] Instance dp_ok : dp_h_ok.
Proof.
  split.
  - apply (bool_decide_unpack _). vm_compute. exact I.
  - unfold dp_request_ids, dp. repeat constructor; cbn; lia.
  - cbn. lia.
  - cbn. lia.
Defined.

#[export] Instance mst : mst_h :=
  {| DRM_DP_SIDEBAND_TX_QUEUED := 0; DRM_DP_SIDEBAND_TX_START_SEND := 1;
     DRM_DP_SIDEBAND_TX_SENT := 2; DRM_DP_SIDEBAND_TX_RX := 3;
     DRM_DP_SIDEBAND_TX_TIMEOUT := 4;
     DP_SIDEBAND_MSG_UP_REP_BASE := 0x1200; DP_SIDEBAND_MSG_DOWN_REQ_BASE := 0x1000;
     DP_SIDEBAND_MSG_UP_REQ_BASE := 0x1600; DP_SIDEBAND_MSG_DOWN_REP_BASE := 0x1400 |}.

#[export] Instance mst_ok : mst_h_ok.
Proof.
  split; [|done]. apply (bool_decide_unpack _). vm_compute. exact I.
Defined.

(** A header to a branch three hops away. *)
Definition hdr : drm_dp_sideband_msg_hdr :=
  {| hdr_lct := 3; hdr_lcr := 2; hdr_rad := [0x12]; hdr_broadcast := false;
     hdr_path_msg := true; hdr_msg_len := 5; hdr_somt := true; hdr_eomt := false;
     hdr_seqno := true |}.

Lemma hdr_wf : wf_hdr hdr.
Proof. split; cbn; try lia; [done|]. repeat constructor; cbn; unfold is_u8; lia. Defined.

End Sample.
Import Sample.

(** ** The CRCs *)

(** The bit loops of [drm_dp_msg_header_crc4] and [drm_dp_msg_data_crc4]
    compute the remainder of the message, followed by four (eight) zero bits,
    divided over GF(2) by x^4+x+1 (x^8+x^7+x^6+x^4+x^2+1); the second keeps
    its remainder in 16 bits without clearing the high byte. *)
Theorem dp_crc_is_division data nibbles bytes :
  0 <= nibbles <= 512 -> 0 <= bytes <= 255 ->
  drm_dp_msg_header_crc4 data nibbles = header_crc_spec data nibbles /\
  drm_dp_msg_data_crc4 data bytes = data_crc_spec data bytes.
Proof.
  intros. rewrite header_crc4_spec, data_crc4_spec by lia. by split.
Qed.

Lemma dp_crc_is_division_witness :
  drm_dp_msg_header_crc4 [0x10; 0x02; 0xc0] 5 = 11 /\
  drm_dp_msg_data_crc4 [0x01] 1 = 0xd5.
Proof.
  destruct (dp_crc_is_division [0x10; 0x02; 0xc0] 5 1 ltac:(lia) ltac:(lia)) as [-> _].
  destruct (dp_crc_is_division [0x01] 0 1 ltac:(lia) ltac:(lia)) as [_ ->].
  split; vm_compute; reflexivity.
Defined.

(** The bits of a buffer in three pieces. *)
Lemma bits_from_app data j a b :
  bits_from data j (a + b) = bits_from data j a ++ bits_from data (j + Z.of_nat a) b.
Proof.
  revert j. induction a as [|a IH]; intros j; cbn [bits_from Nat.add app].
  - f_equal. lia.
  - f_equal. rewrite IH. do 2 f_equal. lia.
Qed.

Lemma length_bits_from data j n : length (bits_from data j n) = n.
Proof. revert j. induction n as [|n IH]; intros j; cbn; [done|by rewrite IH]. Qed.

Lemma bits_from_ne d d' j n i :
  j <= i < j + Z.of_nat n -> bit_at d i <> bit_at d' i ->
  bits_from d j n <> bits_from d' j n.
Proof.
  revert j. induction n as [|n IH]; intros j Hi Hne Heq; [lia|].
  cbn [bits_from] in Heq. simplify_eq. destruct (decide (i = j)) as [-> |]; [done|].
  eapply (IH (j + 1)); [lia|done|done].
Qed.

(** Bit strings of two buffers that agree outside a window. *)
Lemma burst_crc_ne w poly data data' n j :
  0 < w -> 2 ^ w <= poly < 2 ^ (w + 1) -> Z.testbit poly 0 = true ->
  0 <= j -> j + w <= Z.of_nat n ->
  (forall i, 0 <= i < Z.of_nat n -> ~ (j <= i < j + w) -> bit_at data i = bit_at data' i) ->
  (exists i, j <= i < j + w /\ bit_at data i <> bit_at data' i) ->
  crc_spec w poly (bits_from data 0 n) <> crc_spec w poly (bits_from data' 0 n).
Proof.
  intros Hw Hp Ho Hj Hn Heq (i & Hi & Hne).
  set (a := Z.to_nat j). set (b := Z.to_nat w). set (c := (n - a - b)%nat).
  replace n with (a + (b + c))%nat by lia. rewrite !bits_from_app.
  rewrite (bits_from_ext data data' 0 a) by (intros; apply Heq; lia).
  rewrite (bits_from_ext data data' (0 + Z.of_nat a + Z.of_nat b) c)
    by (intros; apply Heq; lia).
  apply crc_spec_burst; try done.
  - by rewrite !length_bits_from.
  - rewrite length_bits_from. lia.
  - apply (bits_from_ne _ _ _ _ i); [lia|done].
Qed.

(** Error detection: two buffers that agree except inside a window of
    eight (for the header: four) bits have different CRCs, so a burst of
    damaged bits no longer than the CRC never goes unnoticed by it. *)
Theorem dp_crc_detects_bursts data data' bytes nibbles j k :
  0 <= bytes <= 255 -> 0 <= nibbles <= 512 ->
  0 <= j -> j + 8 <= bytes * 8 -> 0 <= k -> k + 4 <= nibbles * 4 ->
  ((forall i, 0 <= i < bytes * 8 -> ~ (j <= i < j + 8) -> bit_at data i = bit_at data' i) ->
   (exists i, j <= i < j + 8 /\ bit_at data i <> bit_at data' i) ->
   drm_dp_msg_data_crc4 data bytes <> drm_dp_msg_data_crc4 data' bytes) /\
  ((forall i, 0 <= i < nibbles * 4 -> ~ (k <= i < k + 4) -> bit_at data i = bit_at data' i) ->
   (exists i, k <= i < k + 4 /\ bit_at data i <> bit_at data' i) ->
   drm_dp_msg_header_crc4 data nibbles <> drm_dp_msg_header_crc4 data' nibbles).
Proof.
  intros Hb Hn Hj Hjb Hk Hkn. split; intros Heq Hne.
  - rewrite !data_crc4_spec by lia.
    apply (burst_crc_ne 8 0x1d5 _ _ _ j); try lia; [done| |done].
    intros i Hi. apply Heq. lia.
  - rewrite !header_crc4_spec by lia.
    apply (burst_crc_ne 4 0x13 _ _ _ k); try lia; [done| |done].
    intros i Hi. apply Heq. lia.
Qed.

Lemma dp_crc_detects_bursts_witness :
  drm_dp_msg_data_crc4 [1; 2; 3] 3 <> drm_dp_msg_data_crc4 [1; 2; 0] 3.
Proof.
  apply (dp_crc_detects_bursts [1; 2; 3] [1; 2; 0] 3 2 16 0); try lia.
  - intros i Hi Hn. assert (i / 8 = 0 \/ i / 8 = 1) as [E|E].
    { destruct (Z_lt_le_dec i 8); [left|right]; symmetry;
        [apply (Z.div_unique_pos _ _ _ i)|apply (Z.div_unique_pos _ _ _ (i - 8))]; lia. }
    all: unfold bit_at; by rewrite E.
  - exists 22. split; [lia|]. vm_compute. discriminate.
Defined.

(** ** Messages *)

(** A header that [drm_dp_encode_sideband_msg_hdr] wrote, followed by
    anything, is read back by [drm_dp_decode_sideband_msg_hdr] unchanged, with
    the number of bytes it takes, as soon as the buffer is that long. *)
Theorem dp_hdr_roundtrip h rest buflen :
  wf_hdr h -> Z.of_nat (length (drm_dp_encode_sideband_msg_hdr h)) <= buflen ->
  drm_dp_decode_sideband_msg_hdr (drm_dp_encode_sideband_msg_hdr h ++ rest) buflen =
  Some (h, Z.of_nat (length (drm_dp_encode_sideband_msg_hdr h))).
Proof.
  intros Hw. rewrite encode_hdr_layout, length_hdr_layout by done. by apply decode_layout.
Qed.

Lemma dp_hdr_roundtrip_witness :
  drm_dp_decode_sideband_msg_hdr (drm_dp_encode_sideband_msg_hdr hdr ++ [7]) 16 = Some (hdr, 4).
Proof.
  apply (dp_hdr_roundtrip hdr [7] 16); [apply hdr_wf|]. vm_compute. discriminate.
Defined.

(** C19: end to end, a message of 1 to 255 bytes that
    [process_single_tx_qlock]'s chunking splits and whose chunks
    [drm_dp_get_one_sb_msg] reads block by block from the 48-byte mailbox is
    reassembled exactly: the receiver holds the message, has seen its start
    and its end, and knows its sequence number; no copy leaves a buffer. *)
Theorem dp_message_transfer `{dp_h_ok} {Hmh : mst_h} max h t :
  wf_hdr h -> 10 <= max -> tx_cur_offset t = 0 ->
  tx_cur_len t = Z.of_nat (length (tx_msg t)) -> 1 <= tx_cur_len t <= 255 ->
  exists rx, transfer (length (tx_msg t)) max h t zero_rx = Done rx /\
    rx_holds rx (tx_msg t) /\ rx_have_somt rx = true /\ rx_have_eomt rx = true /\
    hdr_seqno (rx_initial_hdr rx) = hdr_seqno h.
Proof.
  intros Hw Hmax Ho Hl Hlen.
  destruct (transfer_spec (length (tx_msg t)) max h t zero_rx)
    as (rx & ? & ? & ? & ? & Hs); try done; try lia.
  { rewrite Ho. apply zero_rx_holds. }
  { by rewrite Ho. }
  exists rx. repeat (split; [done|]). apply Hs. by left.
Qed.

Lemma dp_message_transfer_witness :
  exists rx, transfer 100 16 hdr (new_tx 0 0 (replicate 100 7, true)) zero_rx = Done rx /\
    rx_holds rx (replicate 100 7) /\ rx_have_somt rx = true /\ rx_have_eomt rx = true /\
    hdr_seqno (rx_initial_hdr rx) = true.
Proof.
  apply (dp_message_transfer 16 hdr (new_tx 0 0 (replicate 100 7, true)));
    [apply hdr_wf|lia|done|done|vm_compute; split; discriminate].
Defined.

(** [drm_dp_send_sideband_msg] always ends (at most five restarts) with 0
    or -EIO, whatever the device answers, and after 0 the device's registers
    from the base on hold exactly the bytes of the chunk, although earlier
    attempts may have been broken off at any point. *)
Theorem dp_send_sideband_msg_ok {D : Type} {Hmh : mst_h}
    (dpcd_write : Z -> list Z -> D -> Z * D) (mem : D -> Z -> Z) max up msg d :
  1 <= max -> write_stores dpcd_write mem ->
  exists ret d',
    drm_dp_send_sideband_msg dpcd_write max up msg (Z.of_nat (length msg)) d = Done (ret, d') /\
    (ret = 0 \/ ret = - EIO) /\
    (ret = 0 -> forall i, 0 <= i < Z.of_nat (length msg) ->
       mem d' ((if up then DP_SIDEBAND_MSG_UP_REP_BASE
                else DP_SIDEBAND_MSG_DOWN_REQ_BASE) + i) = rd msg i).
Proof. by apply send_sideband_msg_spec. Qed.

(** A device with plain memory behind the AUX channel. *)
Definition mem_write (a : Z) (bs : list Z) (d : Z -> Z) : Z * (Z -> Z) :=
  (Z.of_nat (length bs),
   fun x => if (a <=? x) && (x <? a + Z.of_nat (length bs)) then rd bs (x - a) else d x).

Lemma dp_send_sideband_msg_ok_witness :
  exists ret d',
    drm_dp_send_sideband_msg mem_write 16 false (replicate 40 9)
      (Z.of_nat (length (replicate 40 9))) (fun _ => 0) = Done (ret, d') /\
    (ret = 0 \/ ret = - EIO) /\
    (ret = 0 -> forall i, 0 <= i < Z.of_nat (length (replicate 40 9)) ->
       d' (DP_SIDEBAND_MSG_DOWN_REQ_BASE + i) = rd (replicate 40 9) i).
Proof.
  apply (dp_send_sideband_msg_ok mem_write (fun d => d) 16 false (replicate 40 9) (fun _ => 0)); [lia|].
  intros a bs d d' He x. unfold mem_write in He. by simplify_eq.
Defined.

(** C33: in every manager reachable by queueing messages, running the transmit
    worker, waiting (with or without timeout), dropping branches, freeing messages
    and the separate sections of [drm_dp_mst_handle_down_rep] (finding the message
    of a reply under [qlock], parsing into it without the lock, taking it out of its
    slot under [qlock]), with any of the others in between: a message in a slot of a
    branch is alive, addressed to that branch and carries the slot's number (so the
    two slots hold different messages); the next queueing of a new message for a
    branch of the manager, worker run or wait neither follows a dangling pointer nor
    loops; and neither does the next section of the reply that is being handled.
    Two things the code does are excluded from these managers: no
    upstream request is answered ([dp_up_reply_leaves_slot] shows what that leaves in
    a slot), and a message is freed only when it is in no slot and not queued and its
    reply is not being handled ([dp_reply_window_uses_freed] shows what happens
    otherwise). *)
Theorem dp_slots_consistent {D : Type} `{Hdp : dp_h, Hmh : mst_h, Hok : !mst_h_ok}
    (dpcd_write : Z -> list Z -> D -> Z * D) m p :
  mst_reachable dpcd_write (m, p) ->
  (forall mid b i id, mgr_mstbs m !! mid = Some b -> i = 0 \/ i = 1 ->
     br_tx_slot b i = Some id ->
     exists t, mgr_txs m !! id = Some t /\ tx_dst t = mid /\ tx_seqno t = i) /\
  (exists m', drm_dp_tx_work dpcd_write m = Done m') /\
  (forall id dst enc, mgr_txs m !! id = None -> is_Some (mgr_mstbs m !! dst) ->
     exists m', drm_dp_queue_down_tx dpcd_write id (with_tx id (new_tx dst 0 enc) m) = Done m') /\
  (forall ret id t, mgr_txs m !! id = Some t ->
     exists r m', drm_dp_mst_wait_tx_reply ret (tx_dst t) id m = Done (r, m')) /\
  (forall mid slot id, p = Some (Found mid slot id) -> exists m', down_rep_parse id m = Done m') /\
  (forall mid slot id, p = Some (Parsed mid slot id) -> exists m', down_rep_finish mid slot id m = Done m').
Proof.
  intros [Hg Hp]%reachable_good. cbn [fst snd] in *. split_and!.
  - intros mid b i id Hb Hi Hsl. destruct Hg as [Hinv _].
    destruct (inv_slots _ _ Hinv _ _ _ _ Hb Hi Hsl) as (t & ? & ? & ? & _). eauto.
  - destruct (tx_work_good dpcd_write m Hg) as (m' & ? & _). eauto.
  - intros id dst enc Hn Hd.
    destruct (queue_down_good dpcd_write id dst enc m Hg Hn Hd) as (m' & ? & _). eauto.
  - intros ret id t Ht.
    destruct (wait_tx_reply_good ret id t m Hg Ht) as (r & m' & ? & _). eauto.
  - intros mid slot id Ep. destruct (Hp _ Ep) as (_ & Ht & _).
    destruct (down_rep_parse_good id m Hg Ht) as (m' & ? & _). eauto.
  - intros mid slot id Ep. destruct (Hp _ Ep) as (Hs & Ht & Hb).
    destruct (down_rep_finish_good mid slot id m Hg Hs Ht Hb) as (m' & ? & _). eauto.
Qed.

(** A manager with one branch device, before and after a link address request
    was queued; the device takes every write. *)
Definition unit_write (a : Z) (bs : list Z) (d : unit) : Z * unit :=
  (Z.of_nat (length bs), tt).

Definition mgr0 : mst_mgr unit :=
  {| mgr_txs := ∅;
     mgr_mstbs := {[ 0%nat := {| br_lct := 1; br_rad := []; br_slot0 := None;
       br_slot1 := None; br_last_seqno := 0; br_ports := [] |} ]};
     mgr_ports := ∅; mgr_mst_primary := Some 0%nat;
     mgr_tx_msg_downq := []; mgr_tx_msg_upq := [];
     mgr_tx_down_in_progress := false; mgr_tx_up_in_progress := false;
     mgr_max_dpcd_transaction_bytes := 16;
     mgr_down_rep_recv := zero_rx; mgr_up_req_recv := zero_rx; mgr_dev := tt |}.

Definition mgr1 : mst_mgr unit :=
  match drm_dp_queue_down_tx unit_write 5 (with_tx 5 (new_tx 0 0 build_link_address) mgr0) with
  | Done m => m | _ => mgr0 end.

(** A device that answers message 5: a one byte reply, with the header of the branch
    and the number of slot 0. *)
Definition reply_block : list Z :=
  drm_dp_encode_sideband_msg_hdr
    {| hdr_lct := 1; hdr_lcr := 0; hdr_rad := []; hdr_broadcast := false;
       hdr_path_msg := false; hdr_msg_len := 2; hdr_somt := true; hdr_eomt := true;
       hdr_seqno := false |} ++ [0x01; drm_dp_msg_data_crc4 [0x01] 1] ++ replicate 11 0.

Definition unit_read (a len : Z) (block : list Z) (d : unit) : Z * list Z := (len, reply_block).

Definition mgr2 : mst_mgr unit :=
  match down_rep_find unit_read [] mgr1 with Done (_, m) => m | _ => mgr1 end.

Lemma mgr0_reachable : mst_reachable unit_write (mgr0, None).
Proof.
  apply reach_start; try done.
  intros mid b Hb. cbn [mgr0 mgr_mstbs] in Hb.
  apply lookup_singleton_Some in Hb as [<- <-]. done.
Qed.

Lemma mgr1_reachable : mst_reachable unit_write (mgr1, None).
Proof.
  apply (reach_step _ (mgr0, None)); [apply mgr0_reachable|].
  eapply (step_queue _ 5 0 build_link_address);
    [vm_compute; reflexivity|eexists; vm_compute; reflexivity|vm_compute; reflexivity].
Qed.

Lemma mgr2_reachable : mst_reachable unit_write (mgr2, Some (Found 0 0 5)).
Proof.
  apply (reach_step _ (mgr1, None)); [apply mgr1_reachable|].
  apply (step_find _ unit_read [] mgr1 mgr2 (Some (0%nat, 0, 5%nat))).
  vm_compute. reflexivity.
Qed.

Lemma dp_slots_consistent_witness :
  (exists t, mgr_txs mgr2 !! 5%nat = Some t /\ tx_dst t = 0%nat /\ tx_seqno t = 0) /\
  (exists m', drm_dp_tx_work unit_write mgr2 = Done m') /\
  exists m', down_rep_parse 5 mgr2 = Done m'.
Proof.
  destruct (dp_slots_consistent unit_write mgr2 _ mgr2_reachable) as (Hs & Hw & _ & _ & Hr & _).
  split; [|split; [exact Hw|by eapply Hr]].
  apply (Hs 0%nat {| br_lct := 1; br_rad := []; br_slot0 := Some 5%nat;
       br_slot1 := None; br_last_seqno := 1; br_ports := [] |}); [|by left|done].
  vm_compute. reflexivity.
Defined.

(** [drm_dp_sideband_parse_reply] recovers the contents of every
    well-formed link address, path resources, payload, I2C read, DPCD write
    and negative reply that the receiver holds, and reports failure exactly
    for the negative one. *)
Theorem dp_reply_roundtrip `{dp_h_ok} raw a :
  wf_ack a -> rx_holds raw (ack_bytes a) ->
  drm_dp_sideband_parse_reply raw = (negb (is_nak a), ack_body a).
Proof. apply parse_reply_ok. Qed.

(** A receiver that holds the given bytes. *)
Definition rx_with (M : list Z) : drm_dp_sideband_msg_rx :=
  {| rx_chunk := replicate 48 0; rx_msg := M ++ replicate (256 - length M) 0;
     rx_curchunk_len := 0; rx_curchunk_idx := 0; rx_curchunk_hdrlen := 0;
     rx_curlen := Z.of_nat (length M); rx_have_somt := true; rx_have_eomt := true;
     rx_initial_hdr := zero_hdr |}.

Lemma rx_with_holds M : (length M <= 256)%nat -> rx_holds (rx_with M) M.
Proof.
  intros Hl. split; [done| |done]. eexists. split; [done|].
  rewrite length_app, length_replicate. cbn. lia.
Qed.

(** An output port with a sink, and an input port. *)
Definition port_out : drm_dp_link_addr_reply_port :=
  {| lp_input_port := false; lp_peer_device_type := 3; lp_port_number := 8;
     lp_mcs := false; lp_ddps := true; lp_legacy_device_plug_status := true;
     lp_dpcd_revision := 0x12; lp_peer_guid := replicate 16 5;
     lp_num_sdp_streams := 1; lp_num_sdp_stream_sinks := 2 |}.
Definition port_in : drm_dp_link_addr_reply_port :=
  {| lp_input_port := true; lp_peer_device_type := 1; lp_port_number := 0;
     lp_mcs := true; lp_ddps := true; lp_legacy_device_plug_status := false;
     lp_dpcd_revision := 0; lp_peer_guid := zero16;
     lp_num_sdp_streams := 0; lp_num_sdp_stream_sinks := 0 |}.

Lemma dp_reply_roundtrip_witness :
  drm_dp_sideband_parse_reply (rx_with (ack_bytes (AckLink (replicate 16 9) [port_in; port_out]))) =
  (true, ack_body (AckLink (replicate 16 9) [port_in; port_out])).
Proof.
  apply (dp_reply_roundtrip _ (AckLink (replicate 16 9) [port_in; port_out])).
  - split; [done|]. split; [cbn; lia|].
    repeat constructor; cbn; try lia; try done.
  - apply rx_with_holds. apply Nat.leb_le. vm_compute. reflexivity.
Defined.

(** ** Behaviour that departs from the message formats *)

(** The reply to a remote DPCD read is parsed off by one: the data that
    [drm_dp_sideband_parse_remote_dpcd_read] returns starts with the byte
    count and lacks the last byte. *)
Theorem dp_dpcd_read_reply_shifted `{dp_h_ok} raw port b bytes :
  0 <= port < 16 -> Z.of_nat (length (bytes ++ [b])) < 128 ->
  rx_holds raw ([DP_REMOTE_DPCD_READ; port; Z.of_nat (length (bytes ++ [b]))] ++ bytes ++ [b]) ->
  da_bytes (snd (drm_dp_sideband_parse_remote_dpcd_read raw)) =
  Z.of_nat (length (bytes ++ [b])) :: bytes.
Proof.
  intros Hp Hl Hrx. rewrite (parse_remote_dpcd_read_off raw port (bytes ++ [b])) by done.
  cbn. rewrite length_app. cbn. rewrite Nat.add_comm. cbn. f_equal.
  apply take_app_length.
Qed.

Lemma dp_dpcd_read_reply_shifted_witness :
  da_bytes (snd (drm_dp_sideband_parse_remote_dpcd_read (rx_with [0x20; 1; 3; 10; 11; 12]))) =
  [3; 10; 11].
Proof.
  apply (dp_dpcd_read_reply_shifted (rx_with [0x20; 1; 3; 10; 11; 12]) 1 12 [10; 11]);
    [lia|cbn; lia|]. apply (rx_with_holds [0x20; 1; 3; 10; 11; 12]). cbn. lia.
Defined.

(** A chunk whose header gives the length 0 makes
    [drm_dp_sideband_msg_build] copy [(size_t)-1] bytes: the receiver writes
    outside its message buffer for every such header it accepts. *)
Theorem dp_zero_length_chunk `{dp_h_ok} rx M h rest len :
  rx_holds rx M -> wf_hdr h -> hdr_msg_len h = 0 ->
  hdr_somt h && rx_have_somt rx = false -> hdr_size h <= len <= 16 ->
  drm_dp_sideband_msg_build rx (drm_dp_encode_sideband_msg_hdr h ++ rest) len true = Bug.
Proof.
  intros Hrx Hw Hml Hso Hlen. unfold drm_dp_sideband_msg_build.
  rewrite encode_hdr_layout by done.
  destruct (msg_build_hdr_partial rx M h [] (hdr_layout h (hdr_crc h) ++ rest) len rest)
    as (rx1 & -> & Hp & _); try done; [by rewrite take_nil|].
  mred. unfold msg_build_complete. rewrite (rxp_len _ _ _ _ Hp), (rxp_idx _ _ _ _ Hp).
  change (Z.of_nat (length [])) with 0.
  by destruct (Z.leb_spec 0 (Z.min 0 (len - hdr_size h))); [|lia].
Qed.

Lemma dp_zero_length_chunk_witness :
  drm_dp_sideband_msg_build zero_rx
    (drm_dp_encode_sideband_msg_hdr (with_len hdr true true 0) ++ replicate 12 0) 16 true = Bug.
Proof.
  apply (dp_zero_length_chunk zero_rx [] (with_len hdr true true 0)); try done.
  - apply zero_rx_holds.
  - split; cbn; try lia; [done|]. repeat constructor; cbn; unfold is_u8; lia.
Defined.

(** [drm_dp_get_mst_branch_device] does not mask the low nibble of an
    address byte, so a relative address with two hops ends at the first one:
    the branch behind port [p1] is returned for every [p2]. *)
Theorem dp_branch_lookup_stops {D : Type} (m : mst_mgr D) pid pb port b1 bb p1 p2 :
  mgr_mst_primary m = Some pid -> mgr_mstbs m !! pid = Some pb ->
  find_port m pb p1 = Some port -> port_mstb port = Some b1 ->
  mgr_mstbs m !! b1 = Some bb -> 1 <= p1 < 16 -> 0 <= p2 < 16 ->
  (forall id p, id ∈ br_ports bb -> mgr_ports m !! id = Some p -> port_port_num p < 16) ->
  drm_dp_get_mst_branch_device 3 [p1 * 16 + p2] m = Done (Some b1).
Proof.
  intros Hpr Hpb Hf Hpm Hbb Hp1 Hp2 Hports.
  unfold drm_dp_get_mst_branch_device. rewrite Hpr. mred.
  change (Z.to_nat (3 - 1)) with 2%nat. cbn [branch_descend].
  change (rd [p1 * 16 + p2] (0 / 2)) with (p1 * 16 + p2).
  change (rd [p1 * 16 + p2] ((0 + 1) / 2)) with (p1 * 16 + p2).
  change (if 0 mod 2 =? 0 then 4 else 0) with 4.
  change (if (0 + 1) mod 2 =? 0 then 4 else 0) with 0. rewrite Hpb. mred.
  assert (Z.shiftr (p1 * 16 + p2) 4 = p1) as ->.
  { rewrite Z.shiftr_div_pow2 by lia. symmetry. apply (Z.div_unique_pos _ _ _ p2); lia. }
  rewrite Hf, Hpm, Hbb, Z.shiftr_0_r.
  assert (find_port m bb (p1 * 16 + p2) = None) as ->; [|done].
  unfold find_port. destruct (head _) as [p|] eqn:Hh; [|done]. exfalso.
  apply head_Some_elem_of in Hh. apply list_elem_of_filter in Hh as [Hn Hh].
  apply list_elem_of_omap in Hh as (id & Hid & Hl).
  specialize (Hports id p Hid Hl). lia.
Qed.

(** The primary branch 0, behind its port 1 branch 1, behind that one's port 2
    branch 2. *)
Definition mgr_tree : mst_mgr unit :=
  {| mgr_txs := ∅;
     mgr_mstbs := list_to_map
       [(0%nat, {| br_lct := 1; br_rad := []; br_slot0 := None; br_slot1 := None;
           br_last_seqno := 0; br_ports := [10%nat] |});
        (1%nat, {| br_lct := 2; br_rad := [0x10]; br_slot0 := None; br_slot1 := None;
           br_last_seqno := 0; br_ports := [11%nat] |});
        (2%nat, {| br_lct := 3; br_rad := [0x12]; br_slot0 := None; br_slot1 := None;
           br_last_seqno := 0; br_ports := [] |})];
     mgr_ports := list_to_map
       [(10%nat, {| port_port_num := 1; port_mstb := Some 1%nat |});
        (11%nat, {| port_port_num := 2; port_mstb := Some 2%nat |})];
     mgr_mst_primary := Some 0%nat;
     mgr_tx_msg_downq := []; mgr_tx_msg_upq := [];
     mgr_tx_down_in_progress := false; mgr_tx_up_in_progress := false;
     mgr_max_dpcd_transaction_bytes := 16;
     mgr_down_rep_recv := zero_rx; mgr_up_req_recv := zero_rx; mgr_dev := tt |}.

Lemma dp_branch_lookup_stops_witness :
  drm_dp_get_mst_branch_device 3 [1 * 16 + 2] mgr_tree = Done (Some 1%nat).
Proof.
  eapply (dp_branch_lookup_stops mgr_tree 0%nat); try (vm_compute; reflexivity); try lia.
  intros id p Hid Hp. cbn [br_ports] in Hid. apply list_elem_of_singleton in Hid as ->.
  vm_compute in Hp. injection Hp as <-. vm_compute. reflexivity.
Defined.

(** With a device that takes every write a chunk is sent. *)
Lemma send_loop_success {D : Type} (dpcd_write : Z -> list Z -> D -> Z * D)
    fuel max base msg len total offset retries d :
  (forall a bs d, exists d', dpcd_write a bs d = (Z.of_nat (length bs), d')) ->
  1 <= max -> 0 <= total -> total + 1 <= Z.of_nat fuel ->
  exists d', send_loop dpcd_write fuel max base msg len total offset retries d = Done (0, d').
Proof.
  intros Hw Hmax. revert total offset d.
  induction fuel as [|fuel IH]; intros total offset d Ht Hf; [lia|].
  cbn [send_loop]. set (tosend := Z.min max (Z.min 16 total)).
  destruct (Hw (base + offset) (copy msg offset tosend) d) as [d' ->].
  rewrite length_copy, Z2Nat.id, Z.eqb_refl by (unfold tosend; lia). cbn [negb].
  destruct (Z.ltb_spec 0 (total - tosend)); [|eauto].
  apply IH; unfold tosend in *; lia.
Qed.

(** An acknowledgement of an upstream request, allocated in the queued
    state, is given a transmit slot of the branch although a sequence number
    was set for it, and is freed when it is sent: the slot then points to
    freed memory. *)
Theorem dp_up_reply_leaves_slot {D : Type} `{Hdp : dp_h, Hmh : mst_h, Hok : !mst_h_ok}
    (dpcd_write : Z -> list Z -> D -> Z * D) m id mid b req_type seqno :
  (forall a bs d, exists d', dpcd_write a bs d = (Z.of_nat (length bs), d')) ->
  1 <= mgr_max_dpcd_transaction_bytes m ->
  mgr_tx_msg_upq m = [] -> mgr_tx_up_in_progress m = false ->
  mgr_mstbs m !! mid = Some b -> br_slot0 b = None -> br_slot1 b = None ->
  br_last_seqno b = 0 \/ br_last_seqno b = 1 -> 1 <= br_lct b <= 15 ->
  exists m' b', drm_dp_send_up_ack_reply dpcd_write id mid req_type seqno m = Done m' /\
    mgr_mstbs m' !! mid = Some b' /\
    br_tx_slot b' (br_last_seqno b) = Some id /\ mgr_txs m' !! id = None.
Proof.
  intros Hw Hmax Hq Hup Hb H0 H1 Hl Hlct. unfold drm_dp_send_up_ack_reply.
  cbn [with_queues with_tx with_objs mgr_tx_up_in_progress mgr_tx_msg_upq].
  rewrite Hup, Hq. cbn [app]. unfold process_single_up_tx_qlock.
  cbn [with_queues mgr_tx_msg_upq]. unfold process_single_tx_qlock.
  cbn [with_queues with_tx with_objs mgr_txs]. rewrite lookup_insert_eq. mred.
  cbn [new_tx tx_state]. rewrite tx_queued_zero, Z.eqb_refl.
  unfold set_hdr_from_dst_qlock. cbn [with_queues with_tx with_objs mgr_txs mgr_mstbs].
  rewrite lookup_insert_eq. mred. cbn [tx_set new_tx tx_dst tx_seqno]. rewrite Hb.
  rewrite Z.eqb_refl, H0, H1.
  destruct (br_set_slot_spec (br_last_seqno b) (Some id)
    (br_set_last (Z.lxor (br_last_seqno b) 1) b) Hl) as (b' & -> & Hs & _).
  change (0 <? 0) with false. cbn match.
  cbn [with_mstb with_tx with_objs mgr_txs]. rewrite lookup_insert_eq.
  set (hdr := {| hdr_lct := br_lct b |}). set (t := tx_set _ _ _ _).
  assert (exists chunk, make_chunk hdr t = (chunk, 1)) as [chunk ->].
  { unfold make_chunk. eexists. f_equal.
    unfold drm_dp_calc_sb_hdr_size. cbn.
    pose proof (Z.div_lt_upper_bound (br_lct b) 2 8 ltac:(lia) ltac:(lia)).
    pose proof (Z.div_pos (br_lct b) 2 ltac:(lia) ltac:(lia)).
    rewrite u8_small; [lia|]. unfold is_u8. lia. }
  unfold drm_dp_send_sideband_msg.
  match goal with |- context [send_loop dpcd_write ?f ?mx ?ba ?ms ?ln ?tot ?off ?re ?d] =>
    destruct (send_loop_success dpcd_write f mx ba ms ln tot off re d) as [d' ->];
      [done|done|lia|lia|] end.
  cbn. do 2 eexists. split; [done|]. cbn. split; [by rewrite lookup_insert_eq|].
  split; [done|]. by rewrite lookup_delete_eq.
Qed.

Lemma dp_up_reply_leaves_slot_witness :
  exists m' b', drm_dp_send_up_ack_reply unit_write 7 0 2 1 mgr0 = Done m' /\
    mgr_mstbs m' !! 0%nat = Some b' /\ br_tx_slot b' 0 = Some 7%nat /\
    mgr_txs m' !! 7%nat = None.
Proof.
  eapply (dp_up_reply_leaves_slot unit_write mgr0 7 0 {| br_lct := 1; br_rad := [];
    br_slot0 := None; br_slot1 := None; br_last_seqno := 0; br_ports := [] |});
    try (vm_compute; reflexivity); try (cbn; lia).
  intros a bs d. by exists tt.
Defined.

(** Between the two sections under [qlock] the handler of a reply holds a message that
    nothing keeps alive: when the wait for a message that was sent runs out of time there,
    the message leaves its slot, so that the function that waited frees it (it is in no
    slot and not queued), and the handler then writes the reply into freed memory. *)
Theorem dp_reply_window_uses_freed {D : Type} `{Hdp : dp_h, Hmh : mst_h, Hok : !mst_h_ok}
    (dpcd_write : Z -> list Z -> D -> Z * D) m mid slot id t :
  mst_reachable dpcd_write (m, Some (Found mid slot id)) ->
  mgr_txs m !! id = Some t -> tx_state t = DRM_DP_SIDEBAND_TX_SENT -> id ∉ mgr_tx_msg_downq m ->
  exists m', drm_dp_mst_wait_tx_reply 0 (tx_dst t) id m = Done (- EIO, m') /\
    id ∉ mgr_tx_msg_downq m' /\
    (forall mid' b i, mgr_mstbs m' !! mid' = Some b -> i = 0 \/ i = 1 -> br_tx_slot b i <> Some id) /\
    down_rep_parse id (free_tx id m') = Oops.
Proof.
  intros [[Hi Hmax] _]%reachable_good Ht Hst Hq. cbn [fst snd] in *.
  assert (tx_seqno t = 0 \/ tx_seqno t = 1) as Hs.
  { destruct (inv_seq _ _ Hi id t Ht) as [He|]; [|done].
    exfalso. apply (inv_sending _ _ Hi id t I Ht); [by right|done]. }
  destruct (inv_dst _ _ Hi id t Ht) as [b Hb].
  destruct (br_set_slot_spec (tx_seqno t) None b Hs) as (b' & Hset & Hs1 & Hs2 & _).
  assert (Hn : DRM_DP_SIDEBAND_TX_SENT <> DRM_DP_SIDEBAND_TX_QUEUED) by apply tx_states_ne.
  unfold drm_dp_mst_wait_tx_reply. rewrite Ht. mred. rewrite Hst, Z.eqb_refl, orb_true_r.
  rewrite (proj2 (Z.eqb_neq _ _) Hn). change (0 <? 0) with false. cbn [orb].
  set (m1 := if _ =? _ then _ else m).
  assert (mgr_txs m1 = mgr_txs m /\ mgr_mstbs m1 = mgr_mstbs m /\ id ∉ mgr_tx_msg_downq m1) as (Et & Eb & Eq).
  { unfold m1. case_if; [|done]. split_and!; [done..|]. cbn. intros [_ ?]%list_elem_of_filter. done. }
  rewrite Eb, Hb, Hset. eexists. split; [done|]. split_and!; [done| |].
  - cbn. intros mid' b1 i. rewrite Eb. intros [[<- <-]|[Hne Hb1]]%lookup_insert_Some Hi' Hsl.
    + destruct (decide (i = tx_seqno t)) as [->|]; [congruence|].
      replace i with (1 - tx_seqno t) in * by lia. rewrite Hs2 in Hsl.
      destruct (inv_slots _ _ Hi _ _ _ _ Hb Hi' Hsl) as (t1 & ? & _ & ? & _). simplify_eq; lia.
    + destruct (inv_slots _ _ Hi _ _ _ _ Hb1 Hi' Hsl) as (t1 & ? & ? & _). by simplify_eq.
  - unfold down_rep_parse. cbn. by rewrite lookup_delete_eq.
Qed.

Definition tx5 : drm_dp_sideband_msg_tx :=
  match mgr_txs mgr2 !! 5%nat with Some t => t | None => new_tx 0 0 build_link_address end.

Lemma dp_reply_window_uses_freed_witness :
  exists m', drm_dp_mst_wait_tx_reply 0 (tx_dst tx5) 5 mgr2 = Done (- EIO, m') /\
    5%nat ∉ mgr_tx_msg_downq m' /\
    (forall mid' b i, mgr_mstbs m' !! mid' = Some b -> i = 0 \/ i = 1 -> br_tx_slot b i <> Some 5%nat) /\
    down_rep_parse 5 (free_tx 5 m') = Oops.
Proof.
  apply (dp_reply_window_uses_freed unit_write mgr2 0%nat 0 5%nat tx5 mgr2_reachable);
    [vm_compute; reflexivity|vm_compute; reflexivity|].
  apply (bool_decide_unpack _). vm_compute. exact I.
Defined.
