(* ===== verification/DrmRect.v ===== *)
(** * Rectangles (drm_rect.c)

    Intersection, scaled clipping, scaling factors and rotation of plane
    rectangles.  Coordinates are C [int]s: every sum and difference is reduced
    to 32 bits (the kernel is built with wrapping signed arithmetic), and the
    clipping computes in 64 bits and saturates, as the code does.  The inline
    functions and the rotation bits of include/drm are parameters with their
    documented behaviour as laws. *)

From S2P Require Import Prelude.

Record drm_rect := mk_rect { x1 : Z; y1 : Z; x2 : Z; y2 : Z }.

(** ** The header *)
Class drm_rect_h := {
  drm_rect_width : drm_rect -> Z;
  drm_rect_height : drm_rect -> Z;
  drm_rect_visible : drm_rect -> bool;
  drm_rect_adjust_size : drm_rect -> Z -> Z -> drm_rect;
  DRM_ROTATE_0 : Z; DRM_ROTATE_90 : Z; DRM_ROTATE_180 : Z; DRM_ROTATE_270 : Z;
  DRM_REFLECT_X : Z; DRM_REFLECT_Y : Z;
}.

(** Coordinates for which no width or height overflows. *)
Definition rect_fits (r : drm_rect) : Prop :=
  - 2 ^ 29 <= x1 r < 2 ^ 29 /\ - 2 ^ 29 <= y1 r < 2 ^ 29 /\
  - 2 ^ 29 <= x2 r < 2 ^ 29 /\ - 2 ^ 29 <= y2 r < 2 ^ 29.

Class drm_rect_h_ok `{drm_rect_h} : Prop := {
  rect_width_ok r : drm_rect_width r = s32 (x2 r - x1 r);
  rect_height_ok r : drm_rect_height r = s32 (y2 r - y1 r);
  rect_visible_ok r :
    drm_rect_visible r = (0 <? drm_rect_width r) && (0 <? drm_rect_height r);
  (** the size changes by the given amounts, the centre stays *)
  rect_adjust_width r dw dh :
    rect_fits r -> - 2 ^ 30 <= dw < 2 ^ 30 -> - 2 ^ 30 <= dh < 2 ^ 30 ->
    drm_rect_width (drm_rect_adjust_size r dw dh) = drm_rect_width r + dw /\
    drm_rect_height (drm_rect_adjust_size r dw dh) = drm_rect_height r + dh /\
    let r' := drm_rect_adjust_size r dw dh in
    0 <= (x1 r' + x2 r') - (x1 r + x2 r) <= 1 /\
    0 <= (y1 r' + y2 r') - (y1 r + y2 r) <= 1;
  rotate_bits : NoDup [DRM_ROTATE_0; DRM_ROTATE_90; DRM_ROTATE_180; DRM_ROTATE_270];
  rotate_range : Forall (fun n => 0 <= n < 4)
    [DRM_ROTATE_0; DRM_ROTATE_90; DRM_ROTATE_180; DRM_ROTATE_270];
  reflect_range : Forall (fun n => 4 <= n < 32) [DRM_REFLECT_X; DRM_REFLECT_Y];
  reflect_bits : DRM_REFLECT_X <> DRM_REFLECT_Y;
}.

Definition BIT (n : Z) : Z := Z.shiftl 1 n.
Definition INT_MIN : Z := - 2 ^ 31.
Definition INT_MAX : Z := 2 ^ 31 - 1.

(** [clamp_t(int64_t, x, lo, hi)] *)
Definition clamp (x lo hi : Z) : Z := Z.min (Z.max x lo) hi.

Section rect.
Context `{drm_rect_h}.

(** ** Operations *)

Definition drm_rect_intersect (r1 r2 : drm_rect) : bool * drm_rect :=
  let r1 := {| x1 := Z.max (x1 r1) (x1 r2); y1 := Z.max (y1 r1) (y1 r2);
               x2 := Z.min (x2 r1) (x2 r2); y2 := Z.min (y2 r1) (y2 r2) |} in
  (drm_rect_visible r1, r1).

(** Returns the result, [src] and [dst].  The products of two [int]s fit 64
    bits. *)
Definition drm_rect_clip_scaled (src dst clip : drm_rect) (hscale vscale : Z)
    : bool * drm_rect * drm_rect :=
  let diff := s32 (x1 clip - x1 dst) in
  let src := if 0 <? diff then
      {| x1 := clamp (x1 src + diff * hscale) INT_MIN INT_MAX; y1 := y1 src;
         x2 := x2 src; y2 := y2 src |} else src in
  let diff := s32 (y1 clip - y1 dst) in
  let src := if 0 <? diff then
      {| x1 := x1 src; y1 := clamp (y1 src + diff * vscale) INT_MIN INT_MAX;
         x2 := x2 src; y2 := y2 src |} else src in
  let diff := s32 (x2 dst - x2 clip) in
  let src := if 0 <? diff then
      {| x1 := x1 src; y1 := y1 src;
         x2 := clamp (x2 src - diff * hscale) INT_MIN INT_MAX; y2 := y2 src |} else src in
  let diff := s32 (y2 dst - y2 clip) in
  let src := if 0 <? diff then
      {| x1 := x1 src; y1 := y1 src; x2 := x2 src;
         y2 := clamp (y2 src - diff * vscale) INT_MIN INT_MAX |} else src in
  let '(visible, dst) := drm_rect_intersect dst clip in
  (visible, src, dst).

Definition drm_calc_scale (src dst : Z) : Z :=
  if (src <? 0) || (dst <? 0) then - EINVAL
  else if dst =? 0 then 0
  else Z.quot src dst.

Definition drm_rect_calc_hscale (src dst : drm_rect) (min_hscale max_hscale : Z) : Z :=
  let src_w := drm_rect_width src in
  let dst_w := drm_rect_width dst in
  let hscale := drm_calc_scale src_w dst_w in
  if (hscale <? 0) || (dst_w =? 0) then hscale
  else if (hscale <? min_hscale) || (max_hscale <? hscale) then - ERANGE
  else hscale.

Definition drm_rect_calc_vscale (src dst : drm_rect) (min_vscale max_vscale : Z) : Z :=
  let src_h := drm_rect_height src in
  let dst_h := drm_rect_height dst in
  let vscale := drm_calc_scale src_h dst_h in
  if (vscale <? 0) || (dst_h =? 0) then vscale
  else if (vscale <? min_vscale) || (max_vscale <? vscale) then - ERANGE
  else vscale.

(** Returns the factor, [src] and [dst]. *)
Definition drm_rect_calc_hscale_relaxed (src dst : drm_rect)
    (min_hscale max_hscale : Z) : Z * drm_rect * drm_rect :=
  let src_w := drm_rect_width src in
  let dst_w := drm_rect_width dst in
  let hscale := drm_calc_scale src_w dst_w in
  if (hscale <? 0) || (dst_w =? 0) then (hscale, src, dst)
  else if hscale <? min_hscale then
    let max_dst_w := Z.quot src_w min_hscale in
    (min_hscale, src, drm_rect_adjust_size dst (s32 (max_dst_w - dst_w)) 0)
  else if max_hscale <? hscale then
    let max_src_w := s32 (dst_w * max_hscale) in
    (max_hscale, drm_rect_adjust_size src (s32 (max_src_w - src_w)) 0, dst)
  else (hscale, src, dst).

Definition drm_rect_calc_vscale_relaxed (src dst : drm_rect)
    (min_vscale max_vscale : Z) : Z * drm_rect * drm_rect :=
  let src_h := drm_rect_height src in
  let dst_h := drm_rect_height dst in
  let vscale := drm_calc_scale src_h dst_h in
  if (vscale <? 0) || (dst_h =? 0) then (vscale, src, dst)
  else if vscale <? min_vscale then
    let max_dst_h := Z.quot src_h min_vscale in
    (min_vscale, src, drm_rect_adjust_size dst 0 (s32 (max_dst_h - dst_h)))
  else if max_vscale <? vscale then
    let max_src_h := s32 (dst_h * max_vscale) in
    (max_vscale, drm_rect_adjust_size src 0 (s32 (max_src_h - src_h)), dst)
  else (vscale, src, dst).

(** The reflection step that [drm_rect_rotate] starts and
    [drm_rect_rotate_inv] ends with. *)
Definition rect_reflect (r : drm_rect) (width height rotation : Z) : drm_rect :=
  if truth (Z.land rotation (Z.lor (BIT DRM_REFLECT_X) (BIT DRM_REFLECT_Y))) then
    let tmp := r in
    let r := if truth (Z.land rotation (BIT DRM_REFLECT_X)) then
        {| x1 := s32 (width - x2 tmp); y1 := y1 r;
           x2 := s32 (width - x1 tmp); y2 := y2 r |} else r in
    if truth (Z.land rotation (BIT DRM_REFLECT_Y)) then
      {| x1 := x1 r; y1 := s32 (height - y2 tmp);
         x2 := x2 r; y2 := s32 (height - y1 tmp) |} else r
  else r.

Definition drm_rect_rotate (r : drm_rect) (width height rotation : Z) : drm_rect :=
  let r := rect_reflect r width height rotation in
  let sel := Z.land rotation 0xf in
  let tmp := r in
  if sel =? BIT DRM_ROTATE_0 then r
  else if sel =? BIT DRM_ROTATE_90 then
    {| x1 := y1 tmp; x2 := y2 tmp;
       y1 := s32 (width - x2 tmp); y2 := s32 (width - x1 tmp) |}
  else if sel =? BIT DRM_ROTATE_180 then
    {| x1 := s32 (width - x2 tmp); x2 := s32 (width - x1 tmp);
       y1 := s32 (height - y2 tmp); y2 := s32 (height - y1 tmp) |}
  else if sel =? BIT DRM_ROTATE_270 then
    {| x1 := s32 (height - y2 tmp); x2 := s32 (height - y1 tmp);
       y1 := x1 tmp; y2 := x2 tmp |}
  else r.

Definition drm_rect_rotate_inv (r : drm_rect) (width height rotation : Z) : drm_rect :=
  let sel := Z.land rotation 0xf in
  let tmp := r in
  let r :=
    if sel =? BIT DRM_ROTATE_0 then r
    else if sel =? BIT DRM_ROTATE_90 then
      {| x1 := s32 (width - y2 tmp); x2 := s32 (width - y1 tmp);
         y1 := x1 tmp; y2 := x2 tmp |}
    else if sel =? BIT DRM_ROTATE_180 then
      {| x1 := s32 (width - x2 tmp); x2 := s32 (width - x1 tmp);
         y1 := s32 (height - y2 tmp); y2 := s32 (height - y1 tmp) |}
    else if sel =? BIT DRM_ROTATE_270 then
      {| x1 := y1 tmp; x2 := y2 tmp;
         y1 := s32 (height - x2 tmp); y2 := s32 (height - x1 tmp) |}
    else r in
  rect_reflect r width height rotation.

(** The numbers [drm_rect_debug_print] prints: integer and fractional parts in
    the 16.16 case. *)
Definition drm_rect_debug_print (r : drm_rect) (fixed_point : bool) : list Z :=
  let w := drm_rect_width r in
  let h := drm_rect_height r in
  let frac x := Z.shiftr (Z.land x 0xffff * 15625) 10 in
  if fixed_point then
    [Z.shiftr w 16; frac w; Z.shiftr h 16; frac h;
     Z.shiftr (x1 r) 16; frac (x1 r); Z.shiftr (y1 r) 16; frac (y1 r)]
  else [w; h; x1 r; y1 r].

End rect.

(** ** Lemmas *)

(** Reflecting a coordinate twice restores it, also when it wraps. *)
Lemma s32_reflect w x : is_s32 x -> s32 (w - s32 (w - x)) = x.
Proof.
  intros Hx. unfold is_s32 in Hx. unfold s32.
  replace (w - ((w - x + 2 ^ 31) mod 2 ^ 32 - 2 ^ 31) + 2 ^ 31)
    with (w + 2 ^ 31 - (w - x + 2 ^ 31) mod 2 ^ 32 + 2 ^ 31) by lia.
  pose proof (Z.div_mod (w - x + 2 ^ 31) (2 ^ 32) ltac:(lia)) as Hd.
  set (q := (w - x + 2 ^ 31) / 2 ^ 32) in *. set (m := (w - x + 2 ^ 31) mod 2 ^ 32) in *.
  replace (w + 2 ^ 31 - m + 2 ^ 31) with (x + 2 ^ 31 + q * 2 ^ 32) by lia.
  rewrite Z.mod_add, Z.mod_small by lia. lia.
Qed.

Definition rect_s32 (r : drm_rect) : Prop :=
  is_s32 (x1 r) /\ is_s32 (y1 r) /\ is_s32 (x2 r) /\ is_s32 (y2 r).

Section lemmas.
Context `{drm_rect_h_ok}.

Lemma rect_reflect_s32 r w h rot : rect_s32 r -> rect_s32 (rect_reflect r w h rot).
Proof.
  intros (?&?&?&?). unfold rect_reflect, rect_s32.
  repeat case_if; cbn; auto using s32_range.
Qed.

Lemma rect_reflect_involutive r w h rot :
  rect_s32 r -> rect_reflect (rect_reflect r w h rot) w h rot = r.
Proof.
  intros (?&?&?&?). unfold rect_reflect. destruct r as [a b c d]; cbn in *.
  repeat case_if; cbn; rewrite ?s32_reflect by done; done.
Qed.

Lemma rect_width_fits r : rect_fits r -> drm_rect_width r = x2 r - x1 r.
Proof. intros (?&?&?&?). rewrite rect_width_ok. apply s32_small. unfold is_s32. lia. Qed.

Lemma rect_height_fits r : rect_fits r -> drm_rect_height r = y2 r - y1 r.
Proof. intros (?&?&?&?). rewrite rect_height_ok. apply s32_small. unfold is_s32. lia. Qed.

(** The four rotations are distinct cases of the [switch]. *)
Lemma BIT_inj a b : 0 <= a -> 0 <= b -> BIT a = BIT b -> a = b.
Proof.
  unfold BIT. rewrite !Z.shiftl_1_l. intros. by apply (Z.pow_inj_r 2); [lia..|].
Qed.

End lemmas.
