(* ===== verification/DrmRectProps.v ===== *)
(** * Rectangles: the properties

    The operations of drm_rect.c against the sets of pixels the rectangles
    cover. *)

From S2P Require Import Prelude DrmRect.

(** A sample of the header's definitions, for the witnesses. *)
Module Sample.

Definition adjust (r : drm_rect) (dw dh : Z) : drm_rect :=
  {| x1 := s32 (x1 r - Z.shiftr dw 1); y1 := s32 (y1 r - Z.shiftr dh 1);
     x2 := s32 (x2 r + Z.shiftr (dw + 1) 1); y2 := s32 (y2 r + Z.shiftr (dh + 1) 1) |}.

#[export] Instance rect_h : drm_rect_h :=
  {| drm_rect_width r := s32 (x2 r - x1 r);
     drm_rect_height r := s32 (y2 r - y1 r);
     drm_rect_visible r := (0 <? s32 (x2 r - x1 r)) && (0 <? s32 (y2 r - y1 r));
     drm_rect_adjust_size := adjust;
     DRM_ROTATE_0 := 0; DRM_ROTATE_90 := 1; DRM_ROTATE_180 := 2; DRM_ROTATE_270 := 3;
     DRM_REFLECT_X := 4; DRM_REFLECT_Y := 5 |}.

Lemma halves d : Z.shiftr (d + 1) 1 + Z.shiftr d 1 = d /\
  0 <= Z.shiftr (d + 1) 1 - Z.shiftr d 1 <= 1.
Proof.
  rewrite !Z.shiftr_div_pow2 by lia. change (2 ^ 1) with 2.
  pose proof (Z.div_mod d 2 ltac:(lia)). pose proof (Z.mod_pos_bound d 2 ltac:(lia)).
  pose proof (Z.div_mod (d + 1) 2 ltac:(lia)).
  pose proof (Z.mod_pos_bound (d + 1) 2 ltac:(lia)). lia.
Qed.

#[export] Instance rect_h_ok : drm_rect_h_ok.
Proof.
  split; try done.
  - intros r dw dh (?&?&?&?) Hw Hh.
    destruct (halves dw) as [Ew Bw], (halves dh) as [Eh Bh].
    assert (forall d, - 2 ^ 30 <= d < 2 ^ 30 -> - 2 ^ 30 <= Z.shiftr d 1 < 2 ^ 30) as Hb.
    { intros d Hd. destruct (halves d). lia. }
    pose proof (Hb dw Hw). pose proof (Hb dh Hh).
    cbn. rewrite !(s32_small (_ - Z.shiftr _ 1)), !(s32_small (_ + Z.shiftr _ 1))
      by (unfold is_s32; lia).
    rewrite !s32_small by (unfold is_s32; lia). lia.
  - apply (bool_decide_unpack _). vm_compute. exact I.
  - cbn. rewrite !Forall_cons, Forall_nil. lia.
  - cbn. rewrite !Forall_cons, Forall_nil. lia.
Qed.

End Sample.

Definition in_rect (r : drm_rect) (x y : Z) : Prop :=
  x1 r <= x < x2 r /\ y1 r <= y < y2 r.

Section props.
Context `{drm_rect_h_ok}.

(** ** Intersection and clipping *)

Lemma intersect_fits r1 r2 :
  rect_fits r1 -> rect_fits r2 -> rect_fits (snd (drm_rect_intersect r1 r2)).
Proof. unfold rect_fits. cbn. lia. Qed.

Lemma visible_pixels r :
  rect_fits r -> drm_rect_visible r = true <-> exists x y, in_rect r x y.
Proof.
  intros Hf. rewrite rect_visible_ok, rect_width_fits, rect_height_fits by done.
  rewrite andb_true_iff, !Z.ltb_lt. unfold in_rect. split.
  - intros. exists (x1 r), (y1 r). lia.
  - intros (x & y & ?). lia.
Qed.

(** [drm_rect_intersect] leaves exactly the pixels of both rectangles and
    returns whether there is one. *)
Theorem rect_intersect_pixels r1 r2 :
  rect_fits r1 -> rect_fits r2 ->
  let '(visible, r) := drm_rect_intersect r1 r2 in
  (forall x y, in_rect r x y <-> in_rect r1 x y /\ in_rect r2 x y) /\
  (visible = true <-> exists x y, in_rect r1 x y /\ in_rect r2 x y).
Proof.
  intros H1 H2. pose proof (intersect_fits r1 r2 H1 H2) as Hf.
  destruct (drm_rect_intersect r1 r2) as [visible r] eqn:E.
  unfold drm_rect_intersect in E. injection E as Ev Er. cbn in Hf.
  assert (forall x y, in_rect r x y <-> in_rect r1 x y /\ in_rect r2 x y) as Hp.
  { intros x y. subst r. unfold in_rect. cbn. lia. }
  split; [done|]. rewrite <- Ev, Er. rewrite visible_pixels by done.
  split; intros (x & y & Hxy); exists x, y; by apply Hp.
Qed.

(** One side of the source window after clipping. *)
Lemma clamp_id x : INT_MIN <= x <= INT_MAX -> clamp x INT_MIN INT_MAX = x.
Proof. unfold clamp. lia. Qed.

(** The source coordinates that belong to the clipped destination. *)
Definition maps_to (src dst : drm_rect) (hscale vscale : Z) (src' dst' : drm_rect) : Prop :=
  x1 src' = x1 src + (x1 dst' - x1 dst) * hscale /\
  y1 src' = y1 src + (y1 dst' - y1 dst) * vscale /\
  x2 src' = x2 src - (x2 dst - x2 dst') * hscale /\
  y2 src' = y2 src - (y2 dst - y2 dst') * vscale.

(** [drm_rect_clip_scaled] clips the destination to its pixels inside
    [clip] and cuts from each side of the source exactly what was cut from the
    destination times the scale, as long as the results fit an [int]; a source
    that was [hscale] by [vscale] times the destination stays so. *)
Theorem rect_clip_scaled_exact src dst clip hscale vscale :
  rect_fits dst -> rect_fits clip -> 0 <= hscale -> 0 <= vscale ->
  (forall d, 0 <= d < 2 ^ 30 ->
     d <= x1 clip - x1 dst \/ d <= x2 dst - x2 clip ->
     INT_MIN <= x1 src + d * hscale <= INT_MAX /\ INT_MIN <= x2 src - d * hscale <= INT_MAX) ->
  (forall d, 0 <= d < 2 ^ 30 ->
     d <= y1 clip - y1 dst \/ d <= y2 dst - y2 clip ->
     INT_MIN <= y1 src + d * vscale <= INT_MAX /\ INT_MIN <= y2 src - d * vscale <= INT_MAX) ->
  let '(visible, src', dst') := drm_rect_clip_scaled src dst clip hscale vscale in
  maps_to src dst hscale vscale src' dst' /\
  (forall x y, in_rect dst' x y <-> in_rect dst x y /\ in_rect clip x y) /\
  (x2 src - x1 src = (x2 dst - x1 dst) * hscale ->
   y2 src - y1 src = (y2 dst - y1 dst) * vscale ->
   x2 src' - x1 src' = (x2 dst' - x1 dst') * hscale /\
   y2 src' - y1 src' = (y2 dst' - y1 dst') * vscale).
Proof.
  intros (Fd1 & Fd2 & Fd3 & Fd4) (Fc1 & Fc2 & Fc3 & Fc4) Hh Hv Rx Ry.
  unfold drm_rect_clip_scaled, drm_rect_intersect. cbn [fst snd].
  rewrite !(s32_small (_ - _)) by (unfold is_s32; lia).
  pose proof (Rx (x1 clip - x1 dst)) as Rx1. pose proof (Rx (x2 dst - x2 clip)) as Rx2.
  pose proof (Ry (y1 clip - y1 dst)) as Ry1. pose proof (Ry (y2 dst - y2 clip)) as Ry2.
  match goal with |- context [maps_to _ _ _ _ ?s ?d] => assert (maps_to src dst hscale vscale s d) as Hm end.
  { unfold maps_to.
    destruct (Z.ltb_spec 0 (x1 clip - x1 dst)), (Z.ltb_spec 0 (y1 clip - y1 dst)),
      (Z.ltb_spec 0 (x2 dst - x2 clip)), (Z.ltb_spec 0 (y2 dst - y2 clip));
      cbn [x1 x2 y1 y2]; rewrite ?clamp_id by lia;
      repeat split;
      first [rewrite Z.max_l by lia|rewrite Z.max_r by lia|rewrite Z.min_l by lia
            |rewrite Z.min_r by lia]; ring. }
  split; [exact Hm|]. split; [intros x y; unfold in_rect; cbn; lia|].
  destruct Hm as (-> & -> & -> & ->). intros Ex Ey. split; nia.
Qed.

(** ** Scaling factors *)

Lemma calc_scale_spec s d :
  0 <= s -> 0 < d -> drm_calc_scale s d = s / d /\ 0 <= s / d.
Proof.
  intros Hs Hd. unfold drm_calc_scale.
  destruct (Z.ltb_spec s 0), (Z.ltb_spec d 0), (Z.eqb_spec d 0); simpl; try lia.
  rewrite Z.quot_div_nonneg by lia. split; [done|]. apply Z.div_pos; lia.
Qed.

(** [drm_rect_calc_hscale] and [drm_rect_calc_vscale] return the integer
    quotient of the sizes when it is within the limits, -ERANGE when it is
    not, -EINVAL for a negative size and 0 for an empty destination. *)
Theorem rect_calc_scale_cases src dst min max :
  0 <= min <= max ->
  (drm_rect_calc_hscale src dst min max =
   if (drm_rect_width src <? 0) || (drm_rect_width dst <? 0) then - EINVAL
   else if drm_rect_width dst =? 0 then 0
   else let s := drm_rect_width src / drm_rect_width dst in
        if (min <=? s) && (s <=? max) then s else - ERANGE) /\
  (drm_rect_calc_vscale src dst min max =
   if (drm_rect_height src <? 0) || (drm_rect_height dst <? 0) then - EINVAL
   else if drm_rect_height dst =? 0 then 0
   else let s := drm_rect_height src / drm_rect_height dst in
        if (min <=? s) && (s <=? max) then s else - ERANGE).
Proof.
  intros Hm. unfold drm_rect_calc_hscale, drm_rect_calc_vscale.
  assert (forall s d,
    (let scale := drm_calc_scale s d in
     if (scale <? 0) || (d =? 0) then scale
     else if (scale <? min) || (max <? scale) then - ERANGE else scale) =
    if (s <? 0) || (d <? 0) then - EINVAL else if d =? 0 then 0
    else let q := s / d in if (min <=? q) && (q <=? max) then q else - ERANGE) as Hg.
  { intros s d. cbv zeta. destruct (Z.ltb_spec s 0), (Z.ltb_spec d 0); simpl orb; cbn match.
    1-3: assert (drm_calc_scale s d = - EINVAL) as -> by
      (unfold drm_calc_scale; destruct (Z.ltb_spec s 0), (Z.ltb_spec d 0); done || lia); done.
    destruct (Z.eqb_spec d 0) as [-> |].
    { unfold drm_calc_scale. destruct (Z.ltb_spec s 0); [lia|]. done. }
    destruct (calc_scale_spec s d) as [-> Hp]; [lia..|].
    destruct (Z.ltb_spec (s / d) 0); [lia|]. cbn [orb].
    destruct (Z.ltb_spec (s / d) min), (Z.ltb_spec max (s / d)),
      (Z.leb_spec min (s / d)), (Z.leb_spec (s / d) max); done || lia. }
  split; apply Hg.
Qed.

(** The relaxed variant always ends within the limits: for a non-negative
    source and a positive destination the returned factor is between the
    limits, only one window is resized, in one direction and about its centre,
    and the new sizes [s] and [d] satisfy [d * factor <= s < (d + 1) * factor]
    (with equality on the left when the source was shrunk). *)
Theorem rect_hscale_relaxed_within src dst min max :
  rect_fits src -> rect_fits dst -> 0 < min <= max ->
  0 <= drm_rect_width src -> 0 < drm_rect_width dst ->
  drm_rect_width dst * max < 2 ^ 30 ->
  let '(h, src', dst') := drm_rect_calc_hscale_relaxed src dst min max in
  min <= h <= max /\
  drm_rect_width src' <= drm_rect_width src /\ drm_rect_width dst' <= drm_rect_width dst /\
  drm_rect_height src' = drm_rect_height src /\ drm_rect_height dst' = drm_rect_height dst /\
  drm_rect_width dst' * h <= drm_rect_width src' /\
  (h < max -> drm_rect_width src' < (drm_rect_width dst' + 1) * h \/ src' = src /\ dst' = dst).
Proof.
  intros Fs Fd Hm Hs Hd Hov. unfold drm_rect_calc_hscale_relaxed.
  destruct (calc_scale_spec _ _ Hs Hd) as [-> Hq].
  pose proof (rect_width_fits src Fs) as Ws. pose proof (rect_width_fits dst Fd) as Wd.
  assert (drm_rect_width src < 2 ^ 30) as Ls by (destruct Fs as (?&?&?&?); lia).
  assert (drm_rect_width dst < 2 ^ 30) as Ld by (destruct Fd as (?&?&?&?); lia).
  set (s := drm_rect_width src) in *. set (d := drm_rect_width dst) in *.
  pose proof (Z.div_mod s d ltac:(lia)). pose proof (Z.mod_pos_bound s d ltac:(lia)).
  destruct (Z.ltb_spec (s / d) 0), (Z.eqb_spec d 0); try lia. cbn [orb].
  destruct (Z.ltb_spec (s / d) min).
  - rewrite Z.quot_div_nonneg by lia.
    pose proof (Z.div_mod s min ltac:(lia)). pose proof (Z.mod_pos_bound s min ltac:(lia)).
    assert (0 <= s / min <= s) by nia.
    assert (s / min <= d) by nia.
    rewrite (s32_small (s / min - d)) by (unfold is_s32; lia).
    destruct (rect_adjust_width dst (s / min - d) 0 Fd) as (-> & -> & _); [lia..|].
    fold d. do 6 (split; [lia || nia|]). intros _. left. nia.
  - destruct (Z.ltb_spec max (s / d)).
    + assert (d * max <= s) by nia.
      rewrite (s32_small (d * max)) by (unfold is_s32; nia).
      rewrite (s32_small (d * max - s)) by (unfold is_s32; nia).
      destruct (rect_adjust_width src (d * max - s) 0 Fs) as (-> & -> & _); [nia|lia|].
      fold s. fold d. do 6 (split; [lia|]). lia.
    + fold s. fold d. do 6 (split; [lia || nia|]). auto.
Qed.

(** ** Rotation *)

(** [drm_rect_rotate_inv] undoes [drm_rect_rotate] for every rectangle,
    every size of the coordinate space and every rotation value, reflections
    included and whatever overflows. *)
Theorem rect_rotate_inverse r width height rotation :
  rect_s32 r ->
  drm_rect_rotate_inv (drm_rect_rotate r width height rotation) width height rotation = r.
Proof.
  intros Hr. pose proof (rect_reflect_s32 r width height rotation Hr) as Hr1.
  rewrite <- (rect_reflect_involutive r width height rotation Hr) at 2.
  unfold drm_rect_rotate_inv, drm_rect_rotate. f_equal.
  destruct (rect_reflect r width height rotation) as [a b c d].
  destruct Hr1 as (?&?&?&?); cbn in *.
  repeat case_if; cbn; rewrite ?s32_reflect by done; done.
Qed.

(** Where a pixel of a [width] by [height] space goes under a rotation by a
    number of quarter turns (counter-clockwise), after reflections. *)
Definition pixel_rotate (quarter : Z) (rx ry : bool) (width height x y : Z) : Z * Z :=
  let x := if rx then width - 1 - x else x in
  let y := if ry then height - 1 - y else y in
  if quarter =? 1 then (y, width - 1 - x)
  else if quarter =? 2 then (width - 1 - x, height - 1 - y)
  else if quarter =? 3 then (height - 1 - y, x)
  else (x, y).

(** The rotation argument for it. *)
Definition rotation_arg (quarter : Z) (rx ry : bool) : Z :=
  Z.lor (BIT (if quarter =? 1 then DRM_ROTATE_90 else if quarter =? 2 then DRM_ROTATE_180
              else if quarter =? 3 then DRM_ROTATE_270 else DRM_ROTATE_0))
    (Z.lor (if rx then BIT DRM_REFLECT_X else 0) (if ry then BIT DRM_REFLECT_Y else 0)).

Lemma BIT_pow n : BIT n = 2 ^ n.
Proof. apply Z.shiftl_1_l. Qed.

Lemma truth_BIT x n : 0 <= n -> truth (Z.land x (BIT n)) = Z.testbit x n.
Proof. intros. unfold truth. by rewrite BIT_pow, land_pow2_eqb_0, negb_involutive. Qed.

Lemma testbit_BIT a n : 0 <= a -> Z.testbit (BIT a) n = (a =? n).
Proof. intros. rewrite BIT_pow. by apply Z.pow2_bits_eqb. Qed.

Lemma testbit_flag_BIT (b : bool) a n :
  0 <= a -> Z.testbit (if b then BIT a else 0) n = b && (a =? n).
Proof. intros. destruct b; [by apply testbit_BIT|apply Z.bits_0]. Qed.

Lemma header_ranges :
  (0 <= DRM_ROTATE_0 < 4 /\ 0 <= DRM_ROTATE_90 < 4 /\ 0 <= DRM_ROTATE_180 < 4 /\
   0 <= DRM_ROTATE_270 < 4) /\ 4 <= DRM_REFLECT_X < 32 /\ 4 <= DRM_REFLECT_Y < 32.
Proof.
  pose proof rotate_range as Hr. pose proof reflect_range as Hf.
  repeat (apply Forall_cons in Hr as [? Hr]). repeat (apply Forall_cons in Hf as [? Hf]).
  auto.
Qed.

Lemma rotation_arg_fields q rx ry :
  let a := if q =? 1 then DRM_ROTATE_90 else if q =? 2 then DRM_ROTATE_180
           else if q =? 3 then DRM_ROTATE_270 else DRM_ROTATE_0 in
  Z.land (rotation_arg q rx ry) 0xf = BIT a /\
  Z.testbit (rotation_arg q rx ry) DRM_REFLECT_X = rx /\
  Z.testbit (rotation_arg q rx ry) DRM_REFLECT_Y = ry.
Proof.
  intros a. pose proof header_ranges as [Hr Hf]. pose proof reflect_bits as Hne.
  assert (0 <= a < 4) as Ha by (unfold a; repeat case_if; lia).
  unfold rotation_arg. fold a. split; [|split].
  - apply Z.bits_inj'. intros n Hn. rewrite Z.land_spec, !Z.lor_spec.
    rewrite !testbit_flag_BIT, testbit_BIT by lia.
    change 0xf with (Z.ones 4). rewrite Z.testbit_ones_nonneg by lia.
    destruct (Z.ltb_spec n 4).
    + destruct (Z.eqb_spec DRM_REFLECT_X n), (Z.eqb_spec DRM_REFLECT_Y n); try lia.
    + rewrite andb_false_r. symmetry. apply Z.eqb_neq. lia.
  - rewrite !Z.lor_spec, !testbit_flag_BIT, testbit_BIT, Z.eqb_refl by lia.
    destruct (Z.eqb_spec a DRM_REFLECT_X); [lia|].
    destruct (Z.eqb_spec DRM_REFLECT_Y DRM_REFLECT_X); [congruence|].
    by rewrite andb_true_r, andb_false_r, orb_false_r.
  - rewrite !Z.lor_spec, !testbit_flag_BIT, testbit_BIT, Z.eqb_refl by lia.
    destruct (Z.eqb_spec a DRM_REFLECT_Y); [lia|].
    destruct (Z.eqb_spec DRM_REFLECT_X DRM_REFLECT_Y); [congruence|].
    by rewrite andb_true_r, andb_false_r.
Qed.

Lemma reflect_either x a b :
  0 <= a -> 0 <= b ->
  truth (Z.land x (Z.lor (BIT a) (BIT b))) = Z.testbit x a || Z.testbit x b.
Proof.
  intros. rewrite Z.land_lor_distr_r. rewrite <- !truth_BIT by done. unfold truth.
  destruct (Z.eqb_spec (Z.land x (BIT a)) 0) as [-> |Ha]; simpl.
  - by rewrite Z.lor_0_l.
  - apply negb_true_iff, Z.eqb_neq. by intros [? _]%Z.lor_eq_0_iff.
Qed.

(** What the reflection step does for the argument of a rotation. *)
Lemma rect_reflect_fits r w h q rx ry :
  rect_fits r -> - 2 ^ 29 <= w < 2 ^ 29 -> - 2 ^ 29 <= h < 2 ^ 29 ->
  rect_reflect r w h (rotation_arg q rx ry) =
  {| x1 := if rx then w - x2 r else x1 r; y1 := if ry then h - y2 r else y1 r;
     x2 := if rx then w - x1 r else x2 r; y2 := if ry then h - y1 r else y2 r |}.
Proof.
  intros (?&?&?&?) Hw Hh. pose proof header_ranges as [_ Hf].
  destruct (rotation_arg_fields q rx ry) as (_ & Ex & Ey).
  unfold rect_reflect. rewrite reflect_either, !truth_BIT, Ex, Ey by lia.
  destruct r as [a b c d]; cbn in *.
  destruct rx, ry; cbn; rewrite ?s32_small by (unfold is_s32; lia); done.
Qed.

Lemma rotate_sel_eqb a b :
  a ∈ [DRM_ROTATE_0; DRM_ROTATE_90; DRM_ROTATE_180; DRM_ROTATE_270] ->
  b ∈ [DRM_ROTATE_0; DRM_ROTATE_90; DRM_ROTATE_180; DRM_ROTATE_270] ->
  (BIT a =? BIT b) = (a =? b).
Proof.
  intros Ha Hb. pose proof rotate_range as Hr. rewrite Forall_forall in Hr.
  pose proof (Hr a Ha). pose proof (Hr b Hb). cbn in *.
  destruct (Z.eqb_spec a b) as [-> |Hne]; [apply Z.eqb_refl|].
  apply Z.eqb_neq. intros He. apply Hne. by apply BIT_inj; [lia..|].
Qed.

(** [drm_rect_rotate] moves pixels: a pixel is in a rectangle exactly when
    the pixel it goes to, under the reflections and then the quarter turns, is
    in the rotated rectangle. *)
Theorem rect_rotate_pixels q rx ry r w h x y :
  0 <= q < 4 -> rect_fits r -> - 2 ^ 29 <= w < 2 ^ 29 -> - 2 ^ 29 <= h < 2 ^ 29 ->
  let '(x', y') := pixel_rotate q rx ry w h x y in
  in_rect (drm_rect_rotate r w h (rotation_arg q rx ry)) x' y' <-> in_rect r x y.
Proof.
  intros Hq Hf Hw Hh. unfold drm_rect_rotate.
  rewrite rect_reflect_fits by done.
  destruct (rotation_arg_fields q rx ry) as (-> & _ & _).
  pose proof rotate_bits as Hnd. rewrite !NoDup_cons, !not_elem_of_cons in Hnd.
  destruct Hnd as ((?&?&?&_) & (?&?&_) & (?&_) & _).
  destruct Hf as (?&?&?&?).
  assert (q = 0 \/ q = 1 \/ q = 2 \/ q = 3) as [-> |[-> |[-> | ->]]] by lia;
    cbn [Z.eqb Pos.eqb pixel_rotate]; rewrite !rotate_sel_eqb by set_solver;
    repeat match goal with |- context [?a =? ?a] => rewrite (Z.eqb_refl a) end;
    repeat match goal with |- context [?a =? ?b] =>
      destruct (Z.eqb_spec a b); [congruence|] end;
    unfold pixel_rotate, in_rect; cbn;
    destruct rx, ry; rewrite ?s32_small by (unfold is_s32; lia); lia.
Qed.

End props.

Import Sample.

(** ** Witnesses *)
Definition r_a : drm_rect := {| x1 := 0; y1 := 0; x2 := 100; y2 := 50 |}.
Definition r_b : drm_rect := {| x1 := 60; y1 := -10; x2 := 200; y2 := 20 |}.
Definition r_src : drm_rect := {| x1 := 0; y1 := 0; x2 := 200; y2 := 150 |}.

Lemma r_fits : rect_fits r_a /\ rect_fits r_b.
Proof. unfold rect_fits. cbn. lia. Qed.

Lemma rect_intersect_pixels_witness :
  drm_rect_intersect r_a r_b = (true, {| x1 := 60; y1 := 0; x2 := 100; y2 := 20 |}) /\
  exists x y, in_rect r_a x y /\ in_rect r_b x y.
Proof.
  destruct (rect_intersect_pixels r_a r_b (proj1 r_fits) (proj2 r_fits)) as [_ Hv].
  split; [reflexivity|]. apply Hv. reflexivity.
Defined.

Lemma rect_clip_scaled_exact_witness :
  let '(_, src', dst') := drm_rect_clip_scaled r_src r_a r_b 2 3 in
  x2 src' - x1 src' = (x2 dst' - x1 dst') * 2 /\
  y2 src' - y1 src' = (y2 dst' - y1 dst') * 3.
Proof.
  apply (rect_clip_scaled_exact r_src r_a r_b 2 3); try apply r_fits; try lia; try reflexivity.
  all: intros d Hd; cbn; unfold INT_MIN, INT_MAX; lia.
Defined.

Lemma rect_calc_scale_cases_witness :
  drm_rect_calc_hscale r_src r_a 1 4 = 2 /\ drm_rect_calc_vscale r_src r_a 1 2 = - ERANGE.
Proof.
  destruct (rect_calc_scale_cases r_src r_a 1 4 ltac:(lia)) as [-> _].
  destruct (rect_calc_scale_cases r_src r_a 1 2 ltac:(lia)) as [_ ->].
  split; reflexivity.
Defined.

Lemma rect_hscale_relaxed_within_witness :
  let '(h, src', dst') := drm_rect_calc_hscale_relaxed r_src r_a 3 4 in
  3 <= h <= 4 /\ drm_rect_width dst' * h <= drm_rect_width src'.
Proof.
  pose proof (rect_hscale_relaxed_within r_src r_a 3 4) as Hr.
  destruct (drm_rect_calc_hscale_relaxed r_src r_a 3 4) as [[h s] d].
  destruct Hr as (? & _ & _ & _ & _ & ? & _);
    [unfold rect_fits; cbn; lia|apply r_fits|lia|vm_compute; discriminate|reflexivity|reflexivity|].
  split; assumption.
Defined.

Lemma rect_rotate_inverse_witness :
  drm_rect_rotate_inv (drm_rect_rotate r_b 640 480 0x12) 640 480 0x12 = r_b.
Proof.
  apply (rect_rotate_inverse r_b 640 480 0x12). unfold rect_s32, is_s32. cbn. lia.
Defined.

Lemma rect_rotate_pixels_witness :
  in_rect (drm_rect_rotate r_a 640 480 (rotation_arg 1 true false)) 7 3 <-> in_rect r_a 3 7.
Proof.
  apply (rect_rotate_pixels 1 true false r_a 640 480 3 7); try lia. apply r_fits.
Defined.
