(* ===== verification/DrmModes.v ===== *)
(** * Display modes (drm_modes.c)

    Mode lines and the algorithms on them: the CVT and GTF timing generators,
    refresh and sync rates, the timings a CRTC is programmed with, comparison,
    sorting and merging of mode lists, and the parser of the kernel command
    line's mode option.

    An [int] expression is reduced with [s32] and an [unsigned int] one with
    [u32] wherever the result could leave the type; a division by zero is
    [Bug].  Constants of the headers are fields of the class [drm_modes_h]. *)

From S2P Require Import Prelude.
Open Scope Z_scope.

Class drm_modes_h := {
  DRM_MODE_FLAG_PHSYNC : Z; DRM_MODE_FLAG_NHSYNC : Z;
  DRM_MODE_FLAG_PVSYNC : Z; DRM_MODE_FLAG_NVSYNC : Z;
  DRM_MODE_FLAG_INTERLACE : Z; DRM_MODE_FLAG_DBLSCAN : Z; DRM_MODE_FLAG_DBLCLK : Z;
  DRM_MODE_FLAG_3D_MASK : Z; DRM_MODE_FLAG_3D_FRAME_PACKING : Z;
  DRM_MODE_TYPE_BUILTIN : Z; DRM_MODE_TYPE_CRTC_C : Z;
  DRM_MODE_TYPE_PREFERRED : Z; DRM_MODE_TYPE_USERDEF : Z;
  CRTC_INTERLACE_HALVE_V : Z; CRTC_STEREO_DOUBLE : Z;
  MODE_OK : Z; MODE_VIRTUAL_X : Z; MODE_VIRTUAL_Y : Z;
  DISPLAY_FLAGS_HSYNC_LOW : Z; DISPLAY_FLAGS_HSYNC_HIGH : Z;
  DISPLAY_FLAGS_VSYNC_LOW : Z; DISPLAY_FLAGS_VSYNC_HIGH : Z;
  DISPLAY_FLAGS_INTERLACED : Z; DISPLAY_FLAGS_DOUBLESCAN : Z;
  DISPLAY_FLAGS_DOUBLECLK : Z;
  KHZ2PICOS : Z -> Z;
  DRM_MODE_CONNECTOR_DVII : Z; DRM_MODE_CONNECTOR_HDMIB : Z;
}.

(** ** Data *)

(** The hardware timings of [struct drm_display_mode]. *)
Record timings := mk_timings {
  clock : Z; hdisplay : Z; hsync_start : Z; hsync_end : Z; htotal : Z; hskew : Z;
  vdisplay : Z; vsync_start : Z; vsync_end : Z; vtotal : Z; vscan : Z;
}.

(** Its [crtc_*] members. *)
Record crtc_timings := mk_crtc {
  crtc_clock : Z;
  crtc_hdisplay : Z; crtc_hblank_start : Z; crtc_hblank_end : Z;
  crtc_hsync_start : Z; crtc_hsync_end : Z; crtc_htotal : Z; crtc_hskew : Z;
  crtc_vdisplay : Z; crtc_vblank_start : Z; crtc_vblank_end : Z;
  crtc_vsync_start : Z; crtc_vsync_end : Z; crtc_vtotal : Z;
}.

(** [name] holds the arguments of the format [%dx%d%s]. *)
Record drm_display_mode := mk_mode {
  base_id : Z;
  name : option (Z * Z * bool);
  status : Z;
  type : Z;
  t : timings;
  flags : Z;
  crtc : crtc_timings;
  vrefresh : Z;
  hsync : Z;
}.

Definition zero_crtc : crtc_timings := mk_crtc 0 0 0 0 0 0 0 0 0 0 0 0 0 0.

Definition set_status (v : Z) (m : drm_display_mode) :=
  mk_mode (base_id m) (name m) v (type m) (t m) (flags m) (crtc m) (vrefresh m) (hsync m).
Definition set_type (v : Z) (m : drm_display_mode) :=
  mk_mode (base_id m) (name m) (status m) v (t m) (flags m) (crtc m) (vrefresh m) (hsync m).
Definition set_flags (v : Z) (m : drm_display_mode) :=
  mk_mode (base_id m) (name m) (status m) (type m) (t m) v (crtc m) (vrefresh m) (hsync m).
Definition set_crtc (v : crtc_timings) (m : drm_display_mode) :=
  mk_mode (base_id m) (name m) (status m) (type m) (t m) (flags m) v (vrefresh m) (hsync m).
Definition set_t (v : timings) (m : drm_display_mode) :=
  mk_mode (base_id m) (name m) (status m) (type m) v (flags m) (crtc m) (vrefresh m) (hsync m).

(** [kzalloc] and [drm_mode_object_get]: a cleared mode with a new object id;
    an allocation failure is [None] in the callers. *)
Definition drm_mode_create (alloc : option Z) : option drm_display_mode :=
  match alloc with
  | None => None
  | Some id => Some (mk_mode id None 0 0 (mk_timings 0 0 0 0 0 0 0 0 0 0 0) 0 zero_crtc 0 0)
  end.

(** Divisions: C truncates, and traps on a zero divisor. *)
Definition udiv (a b : Z) : outcome Z := if b =? 0 then Bug else Ok (a / b).
Definition sdiv (a b : Z) : outcome Z := if b =? 0 then Bug else Ok (s32 (Z.quot a b)).

Section modes.
Context `{drm_modes_h}.

Definition drm_mode_set_name (m : drm_display_mode) : drm_display_mode :=
  let interlaced := truth (Z.land (flags m) DRM_MODE_FLAG_INTERLACE) in
  mk_mode (base_id m) (Some (hdisplay (t m), vdisplay (t m), interlaced)) (status m)
    (type m) (t m) (flags m) (crtc m) (vrefresh m) (hsync m).

(** ** Coordinated video timings *)

(** The width of the vertical sync encodes the aspect ratio. *)
Definition cvt_vsync (hdisplay vdisplay : Z) : Z :=
  if (Z.rem vdisplay 3 =? 0) && (Z.quot (s32 (vdisplay * 4)) 3 =? hdisplay) then 4
  else if (Z.rem vdisplay 9 =? 0) && (Z.quot (s32 (vdisplay * 16)) 9 =? hdisplay) then 5
  else if (Z.rem vdisplay 10 =? 0) && (Z.quot (s32 (vdisplay * 16)) 10 =? hdisplay) then 6
  else if (Z.rem vdisplay 4 =? 0) && (Z.quot (s32 (vdisplay * 5)) 4 =? hdisplay) then 7
  else if (Z.rem vdisplay 9 =? 0) && (Z.quot (s32 (vdisplay * 15)) 9 =? hdisplay) then 7
  else 10.

(** The constants of the CVT formula, by their names in the source. *)
Definition HV_FACTOR : Z := 1000.
Definition CVT_MARGIN_PERCENTAGE : Z := 18.
Definition CVT_H_GRANULARITY : Z := 8.
Definition CVT_MIN_V_PORCH : Z := 3.
Definition CVT_MIN_V_BPORCH : Z := 6.
Definition CVT_CLOCK_STEP : Z := 250.
Definition CVT_MIN_VSYNC_BP : Z := 550.
Definition CVT_HSYNC_PERCENTAGE : Z := 8.
Definition CVT_M_PRIME : Z := 600 * 128 / 256.
Definition CVT_C_PRIME : Z := (40 - 20) * 128 / 256 + 20.
Definition CVT_RB_MIN_VBLANK : Z := 460.
Definition CVT_RB_H_SYNC : Z := 32.
Definition CVT_RB_H_BLANK : Z := 160.
Definition CVT_RB_VFPORCH : Z := 3.

(** Normal blanking, steps 12 and 13: the blanking time in pixels, a multiple
    of two character cells.  [mode_h] is the mode's [hdisplay]. *)
Definition cvt_hblank (mode_h hperiod : Z) : outcome Z :=
  let hblank_percentage :=
    u32 (CVT_C_PRIME * HV_FACTOR - u32 (CVT_M_PRIME * hperiod) / 1000) in
  let hblank_percentage :=
    if hblank_percentage <? 20 * HV_FACTOR then 20 * HV_FACTOR else hblank_percentage in
  hblank ← udiv (u32 (mode_h * hblank_percentage))
                (u32 (100 * HV_FACTOR - hblank_percentage));
  let hblank := s32 hblank in
  Ok (hblank - Z.rem hblank (2 * CVT_H_GRANULARITY)).

(** Step 14: [htotal], [hsync_start] and [hsync_end]. *)
Definition cvt_hsync (mode_h hblank : Z) : Z * Z * Z :=
  let htotal := s32 (mode_h + hblank) in
  let hsync_end := s32 (mode_h + Z.quot hblank 2) in
  let hsync_start := s32 (hsync_end - Z.quot (s32 (htotal * CVT_HSYNC_PERCENTAGE)) 100) in
  let hsync_start :=
    s32 (hsync_start + (CVT_H_GRANULARITY - Z.rem hsync_start CVT_H_GRANULARITY)) in
  (htotal, hsync_start, hsync_end).

(** The branch with normal blanking: [hperiod] and the timings without the
    clock.  [mode_v] is the mode's [vdisplay]. *)
Definition cvt_normal (mode_h mode_v vdisplay_rnd vmargin vsync interlace vfieldrate : Z)
    : outcome (Z * timings) :=
  let tmp1 := s32 (HV_FACTOR * 1000000 - CVT_MIN_VSYNC_BP * HV_FACTOR * vfieldrate) in
  let tmp2 := s32 ((vdisplay_rnd + 2 * vmargin + CVT_MIN_V_PORCH) * 2 + interlace) in
  hperiod ← udiv (u32 (s32 (tmp1 * 2))) (u32 (tmp2 * vfieldrate));
  q ← udiv (CVT_MIN_VSYNC_BP * HV_FACTOR) hperiod;
  let tmp1 := s32 (q + 1) in
  let vsyncandback_porch :=
    if tmp1 <? vsync + CVT_MIN_V_PORCH then vsync + CVT_MIN_V_PORCH else tmp1 in
  let vtotal := s32 (vdisplay_rnd + 2 * vmargin + vsyncandback_porch + CVT_MIN_V_PORCH) in
  hblank ← cvt_hblank mode_h hperiod;
  let '(htotal, hsync_start, hsync_end) := cvt_hsync mode_h hblank in
  let vsync_start := s32 (mode_v + CVT_MIN_V_PORCH) in
  let vsync_end := s32 (vsync_start + vsync) in
  Ok (hperiod, mk_timings 0 mode_h hsync_start hsync_end htotal 0
                 mode_v vsync_start vsync_end vtotal 0).

(** The branch with reduced blanking. *)
Definition cvt_reduced (mode_h mode_v vdisplay_rnd vmargin vsync vfieldrate : Z)
    : outcome (Z * timings) :=
  let tmp1 := s32 (HV_FACTOR * 1000000 - CVT_RB_MIN_VBLANK * HV_FACTOR * vfieldrate) in
  let tmp2 := s32 (vdisplay_rnd + 2 * vmargin) in
  hperiod ← udiv (u32 tmp1) (u32 (tmp2 * vfieldrate));
  q ← udiv (CVT_RB_MIN_VBLANK * HV_FACTOR) hperiod;
  let vbilines := s32 (q + 1) in
  let min := CVT_RB_VFPORCH + vsync + CVT_MIN_V_BPORCH in
  let vbilines := if vbilines <? min then min else vbilines in
  let vtotal := s32 (vdisplay_rnd + 2 * vmargin + vbilines) in
  let htotal := s32 (mode_h + CVT_RB_H_BLANK) in
  let hsync_end := s32 (mode_h + CVT_RB_H_BLANK / 2) in
  let hsync_start := s32 (hsync_end - CVT_RB_H_SYNC) in
  let vsync_start := s32 (mode_v + CVT_RB_VFPORCH) in
  let vsync_end := s32 (vsync_start + vsync) in
  Ok (hperiod, mk_timings 0 mode_h hsync_start hsync_end htotal 0
                 mode_v vsync_start vsync_end vtotal 0).

Definition set_clock (c : Z) (x : timings) : timings :=
  mk_timings c (hdisplay x) (hsync_start x) (hsync_end x) (htotal x) (hskew x)
    (vdisplay x) (vsync_start x) (vsync_end x) (vtotal x) (vscan x).
Definition set_vtotal (v : Z) (x : timings) : timings :=
  mk_timings (clock x) (hdisplay x) (hsync_start x) (hsync_end x) (htotal x) (hskew x)
    (vdisplay x) (vsync_start x) (vsync_end x) v (vscan x).

Definition drm_cvt_mode (alloc : option Z) (hdisplay vdisplay vrefresh : Z)
    (reduced interlaced margins : bool) : outcome (option drm_display_mode) :=
  match drm_mode_create alloc with
  | None => Ok None
  | Some drm_mode =>
    let vrefresh := if vrefresh =? 0 then 60 else vrefresh in
    let vfieldrate := u32 (if interlaced then s32 (vrefresh * 2) else vrefresh) in
    let hdisplay_rnd := hdisplay - Z.rem hdisplay CVT_H_GRANULARITY in
    let hmargin :=
      if margins then
        let m := Z.quot (s32 (hdisplay_rnd * CVT_MARGIN_PERCENTAGE)) 1000 in
        m - Z.rem m CVT_H_GRANULARITY
      else 0 in
    let mode_h := s32 (hdisplay_rnd + 2 * hmargin) in
    let vdisplay_rnd := if interlaced then Z.quot vdisplay 2 else vdisplay in
    let vmargin :=
      if margins then Z.quot (s32 (vdisplay_rnd * CVT_MARGIN_PERCENTAGE)) 1000 else 0 in
    let mode_v := s32 (vdisplay + 2 * vmargin) in
    let interlace := if interlaced then 1 else 0 in
    let vsync := cvt_vsync hdisplay vdisplay in
    r ← (if reduced
         then cvt_reduced mode_h mode_v vdisplay_rnd vmargin vsync vfieldrate
         else cvt_normal mode_h mode_v vdisplay_rnd vmargin vsync interlace vfieldrate);
    let '(hperiod, x) := r in
    clock ← udiv (u32 (htotal x * HV_FACTOR * 1000)) hperiod;
    let clock := s32 clock in
    let clock := clock - Z.rem clock CVT_CLOCK_STEP in
    let x := set_clock clock x in
    let x := if interlaced then set_vtotal (s32 (vtotal x * 2)) x else x in
    let drm_mode := set_t x drm_mode in
    let drm_mode :=
      if interlaced then set_flags (Z.lor (flags drm_mode) DRM_MODE_FLAG_INTERLACE) drm_mode
      else drm_mode in
    let drm_mode := drm_mode_set_name drm_mode in
    let sync := if reduced then Z.lor DRM_MODE_FLAG_PHSYNC DRM_MODE_FLAG_NVSYNC
                else Z.lor DRM_MODE_FLAG_PVSYNC DRM_MODE_FLAG_NHSYNC in
    Ok (Some (set_flags (Z.lor (flags drm_mode) sync) drm_mode))
  end.

(** ** Generalised timing formula *)
Definition drm_gtf_mode_complex (alloc : option Z) (hdisplay vdisplay vrefresh : Z)
    (interlaced : bool) (margins GTF_M GTF_2C GTF_K GTF_2J : Z)
    : outcome (option drm_display_mode) :=
  match drm_mode_create alloc with
  | None => Ok None
  | Some drm_mode =>
    let hdisplay_rnd := u32 (Z.quot (s32 (hdisplay + 4)) 8) in
    let hdisplay_rnd := u32 (hdisplay_rnd * 8) in
    let vdisplay_rnd := u32 (if interlaced then Z.quot vdisplay 2 else vdisplay) in
    let vfieldrate_rqd := u32 (if interlaced then vrefresh * 2 else vrefresh) in
    let top_margin :=
      if truth margins then s32 (u32 (vdisplay_rnd * 18 + 500) / 1000) else 0 in
    let bottom_margin := top_margin in
    let interlace := if interlaced then 1 else 0 in
    let tmp1 := u32 (1000000 - 550 * vfieldrate_rqd) / 500 in
    let tmp2 := u32 ((vdisplay_rnd + 2 * top_margin + 1) * 2 + interlace) in
    hfreq_est ← udiv (u32 (tmp2 * 1000 * vfieldrate_rqd)) tmp1;
    let vsync_plus_bp := s32 (u32 (550 * hfreq_est) / 1000) in
    let vsync_plus_bp := Z.quot (s32 (vsync_plus_bp + 500)) 1000 in
    let vtotal_lines :=
      u32 (vdisplay_rnd + top_margin + bottom_margin + vsync_plus_bp + 1) in
    _ ← udiv hfreq_est vtotal_lines;
    _ ← udiv 1000000 (u32 (vfieldrate_rqd * vtotal_lines));
    let left_margin :=
      if truth margins then s32 (u32 (hdisplay_rnd * 18 + 500) / 1000) else 0 in
    let right_margin := left_margin in
    let total_active_pixels := u32 (hdisplay_rnd + left_margin + right_margin) in
    let c_prime := Z.quot (Z.quot (s32 ((GTF_2C - GTF_2J) * GTF_K)) 256 + GTF_2J) 2 in
    let m_prime := Z.quot (s32 (GTF_K * GTF_M)) 256 in
    duty ← udiv (u32 (m_prime * 1000000)) hfreq_est;
    let ideal_duty_cycle := u32 (c_prime * 1000 - duty) in
    hblank ← udiv (u32 (total_active_pixels * ideal_duty_cycle))
                  (u32 (100000 - ideal_duty_cycle));
    let hblank := u32 (hblank + 8) / 16 in
    let hblank := u32 (hblank * 2 * 8) in
    let total_pixels := u32 (total_active_pixels + hblank) in
    let pixel_freq := u32 (total_pixels * hfreq_est) / 1000 in
    let hsync := s32 (u32 (8 * total_pixels) / 100) in
    let hsync := Z.quot (s32 (hsync + 4)) 8 in
    let hsync := s32 (hsync * 8) in
    let hfront_porch := s32 (hblank / 2 - hsync) in
    let vodd_front_porch_lines := 1 in
    let hsync_start := s32 (hdisplay_rnd + hfront_porch) in
    let vsync_start := s32 (vdisplay_rnd + vodd_front_porch_lines) in
    let x := mk_timings (s32 pixel_freq) (s32 hdisplay_rnd) hsync_start
               (s32 (hsync_start + hsync)) (s32 total_pixels) 0
               (s32 vdisplay_rnd) vsync_start (s32 (vsync_start + 3)) (s32 vtotal_lines) 0 in
    let x := if interlaced then set_vtotal (s32 (vtotal x * 2)) x else x in
    let drm_mode := set_t x drm_mode in
    let drm_mode :=
      if interlaced then set_flags (Z.lor (flags drm_mode) DRM_MODE_FLAG_INTERLACE) drm_mode
      else drm_mode in
    let drm_mode := drm_mode_set_name drm_mode in
    Ok (Some (set_flags
      (if (GTF_M =? 600) && (GTF_2C =? 80) && (GTF_K =? 128) && (GTF_2J =? 40)
       then Z.lor DRM_MODE_FLAG_NHSYNC DRM_MODE_FLAG_PVSYNC
       else Z.lor DRM_MODE_FLAG_PHSYNC DRM_MODE_FLAG_NVSYNC) drm_mode))
  end.

Definition drm_gtf_mode (alloc : option Z) (hdisplay vdisplay vrefresh : Z)
    (interlaced : bool) (margins : Z) : outcome (option drm_display_mode) :=
  drm_gtf_mode_complex alloc hdisplay vdisplay vrefresh interlaced margins
    600 (40 * 2) 128 (20 * 2).

(** ** Conversion from a [struct videomode] *)
Record videomode := {
  vm_pixelclock : Z;
  vm_hactive : Z; vm_hfront_porch : Z; vm_hback_porch : Z; vm_hsync_len : Z;
  vm_vactive : Z; vm_vfront_porch : Z; vm_vback_porch : Z; vm_vsync_len : Z;
  vm_flags : Z;
}.

Definition drm_display_mode_from_videomode (vm : videomode) (dmode : drm_display_mode)
    : drm_display_mode :=
  let has f := truth (Z.land (vm_flags vm) f) in
  let hdisplay := s32 (vm_hactive vm) in
  let hsync_start := s32 (hdisplay + vm_hfront_porch vm) in
  let hsync_end := s32 (hsync_start + vm_hsync_len vm) in
  let htotal := s32 (hsync_end + vm_hback_porch vm) in
  let vdisplay := s32 (vm_vactive vm) in
  let vsync_start := s32 (vdisplay + vm_vfront_porch vm) in
  let vsync_end := s32 (vsync_start + vm_vsync_len vm) in
  let vtotal := s32 (vsync_end + vm_vback_porch vm) in
  let clock := s32 (vm_pixelclock vm / 1000) in
  let flags := 0 in
  let flags := if has DISPLAY_FLAGS_HSYNC_HIGH then Z.lor flags DRM_MODE_FLAG_PHSYNC
               else if has DISPLAY_FLAGS_HSYNC_LOW then Z.lor flags DRM_MODE_FLAG_NHSYNC
               else flags in
  let flags := if has DISPLAY_FLAGS_VSYNC_HIGH then Z.lor flags DRM_MODE_FLAG_PVSYNC
               else if has DISPLAY_FLAGS_VSYNC_LOW then Z.lor flags DRM_MODE_FLAG_NVSYNC
               else flags in
  let flags := if has DISPLAY_FLAGS_INTERLACED then Z.lor flags DRM_MODE_FLAG_INTERLACE
               else flags in
  let flags := if has DISPLAY_FLAGS_DOUBLESCAN then Z.lor flags DRM_MODE_FLAG_DBLSCAN
               else flags in
  let flags := if has DISPLAY_FLAGS_DOUBLECLK then Z.lor flags DRM_MODE_FLAG_DBLCLK
               else flags in
  drm_mode_set_name
    (set_flags flags
      (set_t (mk_timings clock hdisplay hsync_start hsync_end htotal (hskew (t dmode))
                vdisplay vsync_start vsync_end vtotal (vscan (t dmode))) dmode)).

(** ** Rates *)
Definition drm_mode_hsync (mode : drm_display_mode) : outcome Z :=
  if truth (hsync mode) then Ok (hsync mode)
  else if htotal (t mode) <? 0 then Ok 0
  else
    calc_val ← sdiv (s32 (clock (t mode) * 1000)) (htotal (t mode));
    let calc_val := u32 (u32 calc_val + 500) in
    Ok (s32 (calc_val / 1000)).

Definition drm_mode_vrefresh (mode : drm_display_mode) : Z :=
  let x := t mode in
  if 0 <? vrefresh mode then vrefresh mode
  else if (0 <? htotal x) && (0 <? vtotal x) then
    let calc_val := u32 (clock x * 1000) / htotal x in
    let refresh := s32 (u32 (calc_val + Z.quot (vtotal x) 2) / vtotal x) in
    let refresh := if truth (Z.land (flags mode) DRM_MODE_FLAG_INTERLACE)
                   then s32 (refresh * 2) else refresh in
    let refresh := if truth (Z.land (flags mode) DRM_MODE_FLAG_DBLSCAN)
                   then Z.quot refresh 2 else refresh in
    if 1 <? vscan x then Z.quot refresh (vscan x) else refresh
  else 0.

(** ** The timings of the CRTC *)

(** The four vertical values that the adjustments scale together. *)
Definition map_v (f : Z -> Z) (c : crtc_timings) : crtc_timings :=
  mk_crtc (crtc_clock c) (crtc_hdisplay c) (crtc_hblank_start c) (crtc_hblank_end c)
    (crtc_hsync_start c) (crtc_hsync_end c) (crtc_htotal c) (crtc_hskew c)
    (f (crtc_vdisplay c)) (crtc_vblank_start c) (crtc_vblank_end c)
    (f (crtc_vsync_start c)) (f (crtc_vsync_end c)) (f (crtc_vtotal c)).

Definition crtc_from_mode (x : timings) (c : crtc_timings) : crtc_timings :=
  mk_crtc (clock x) (hdisplay x) (crtc_hblank_start c) (crtc_hblank_end c)
    (hsync_start x) (hsync_end x) (htotal x) (hskew x)
    (vdisplay x) (crtc_vblank_start c) (crtc_vblank_end c)
    (vsync_start x) (vsync_end x) (vtotal x).

Definition crtc_interlace (flags adjust_flags : Z) (c : crtc_timings) : crtc_timings :=
  if truth (Z.land flags DRM_MODE_FLAG_INTERLACE) then
    if truth (Z.land adjust_flags CRTC_INTERLACE_HALVE_V)
    then map_v (fun v => Z.quot v 2) c else c
  else c.

Definition crtc_dblscan (flags : Z) (c : crtc_timings) : crtc_timings :=
  if truth (Z.land flags DRM_MODE_FLAG_DBLSCAN) then map_v (fun v => s32 (v * 2)) c else c.

Definition crtc_vscan (vscan : Z) (c : crtc_timings) : crtc_timings :=
  if 1 <? vscan then map_v (fun v => s32 (v * vscan)) c else c.

Definition set_crtc_clock (clk : Z) (c : crtc_timings) : crtc_timings :=
  mk_crtc clk (crtc_hdisplay c) (crtc_hblank_start c) (crtc_hblank_end c)
    (crtc_hsync_start c) (crtc_hsync_end c) (crtc_htotal c) (crtc_hskew c)
    (crtc_vdisplay c) (crtc_vblank_start c) (crtc_vblank_end c)
    (crtc_vsync_start c) (crtc_vsync_end c) (crtc_vtotal c).

Definition crtc_stereo (flags adjust_flags : Z) (c : crtc_timings) : crtc_timings :=
  if truth (Z.land adjust_flags CRTC_STEREO_DOUBLE) then
    if Z.land flags DRM_MODE_FLAG_3D_MASK =? DRM_MODE_FLAG_3D_FRAME_PACKING
    then map_v (fun v => s32 (v + crtc_vtotal c)) (set_crtc_clock (s32 (crtc_clock c * 2)) c)
    else c
  else c.

Definition crtc_blank (c : crtc_timings) : crtc_timings :=
  mk_crtc (crtc_clock c) (crtc_hdisplay c)
    (Z.min (crtc_hsync_start c) (crtc_hdisplay c))
    (Z.max (crtc_hsync_end c) (crtc_htotal c))
    (crtc_hsync_start c) (crtc_hsync_end c) (crtc_htotal c) (crtc_hskew c)
    (crtc_vdisplay c)
    (Z.min (crtc_vsync_start c) (crtc_vdisplay c))
    (Z.max (crtc_vsync_end c) (crtc_vtotal c))
    (crtc_vsync_start c) (crtc_vsync_end c) (crtc_vtotal c).

Definition drm_mode_set_crtcinfo (p : drm_display_mode) (adjust_flags : Z)
    : drm_display_mode :=
  if Z.land (type p) DRM_MODE_TYPE_CRTC_C =? DRM_MODE_TYPE_BUILTIN then p else
  let c := crtc_from_mode (t p) (crtc p) in
  let c := crtc_interlace (flags p) adjust_flags c in
  let c := crtc_dblscan (flags p) c in
  let c := crtc_vscan (vscan (t p)) c in
  let c := crtc_stereo (flags p) adjust_flags c in
  set_crtc (crtc_blank c) p.

(** Copies a mode, keeping the object id of the destination. *)
Definition drm_mode_copy (dst src : drm_display_mode) : drm_display_mode :=
  mk_mode (base_id dst) (name src) (status src) (type src) (t src) (flags src)
    (crtc src) (vrefresh src) (hsync src).

Definition drm_mode_duplicate (alloc : option Z) (mode : drm_display_mode)
    : option drm_display_mode :=
  match drm_mode_create alloc with
  | None => None
  | Some nmode => Some (drm_mode_copy nmode mode)
  end.

(** ** Comparison and lists *)
Definition drm_mode_equal_no_clocks_no_stereo (mode1 mode2 : drm_display_mode) : bool :=
  let a := t mode1 in let b := t mode2 in
  (hdisplay a =? hdisplay b) && (hsync_start a =? hsync_start b) &&
  (hsync_end a =? hsync_end b) && (htotal a =? htotal b) && (hskew a =? hskew b) &&
  (vdisplay a =? vdisplay b) && (vsync_start a =? vsync_start b) &&
  (vsync_end a =? vsync_end b) && (vtotal a =? vtotal b) && (vscan a =? vscan b) &&
  (Z.land (flags mode1) (Z.lnot DRM_MODE_FLAG_3D_MASK) =?
   Z.land (flags mode2) (Z.lnot DRM_MODE_FLAG_3D_MASK)).

Definition drm_mode_equal (mode1 mode2 : drm_display_mode) : bool :=
  let c1 := clock (t mode1) in let c2 := clock (t mode2) in
  if (if truth c1 && truth c2 then negb (KHZ2PICOS c1 =? KHZ2PICOS c2) else negb (c1 =? c2))
  then false
  else if negb (Z.land (flags mode1) DRM_MODE_FLAG_3D_MASK =?
                Z.land (flags mode2) DRM_MODE_FLAG_3D_MASK) then false
  else drm_mode_equal_no_clocks_no_stereo mode1 mode2.

Definition drm_mode_validate_size (mode_list : list drm_display_mode) (maxX maxY : Z)
    : list drm_display_mode :=
  (fun mode =>
     let mode := if (0 <? maxX) && (maxX <? hdisplay (t mode))
                 then set_status MODE_VIRTUAL_X mode else mode in
     if (0 <? maxY) && (maxY <? vdisplay (t mode))
     then set_status MODE_VIRTUAL_Y mode else mode) <$> mode_list.

Definition drm_mode_prune_invalid (mode_list : list drm_display_mode)
    : list drm_display_mode :=
  filter (fun mode => status mode = MODE_OK) mode_list.

Definition drm_mode_compare (a b : drm_display_mode) : Z :=
  let pref m := b2z (truth (Z.land (type m) DRM_MODE_TYPE_PREFERRED)) in
  let area m := s32 (hdisplay (t m) * vdisplay (t m)) in
  let diff := pref b - pref a in
  if truth diff then diff else
  let diff := s32 (area b - area a) in
  if truth diff then diff else
  let diff := s32 (vrefresh b - vrefresh a) in
  if truth diff then diff else
  s32 (clock (t b) - clock (t a)).

(** The kernel's [list_sort] is a parameter. *)
Definition drm_mode_sort
    (list_sort : (drm_display_mode -> drm_display_mode -> Z) ->
                 list drm_display_mode -> list drm_display_mode)
    (mode_list : list drm_display_mode) : list drm_display_mode :=
  list_sort drm_mode_compare mode_list.

(** The inner loop of [drm_mode_connector_list_update]: the list with the
    first equal mode updated, or [None] when there is none. *)
Fixpoint merge_mode (merge_type_bits : bool) (pmode : drm_display_mode)
    (modes : list drm_display_mode) : option (list drm_display_mode) :=
  match modes with
  | [] => None
  | mode :: rest =>
    if drm_mode_equal pmode mode then
      let mode := set_status (status pmode) mode in
      let mode := set_type (if merge_type_bits then Z.lor (type mode) (type pmode)
                            else type pmode) mode in
      Some (mode :: rest)
    else
      match merge_mode merge_type_bits pmode rest with
      | None => None
      | Some rest => Some (mode :: rest)
      end
  end.

(** Returns [connector->modes]; [probed_modes] is empty afterwards. *)
Fixpoint drm_mode_connector_list_update (modes probed_modes : list drm_display_mode)
    (merge_type_bits : bool) : list drm_display_mode :=
  match probed_modes with
  | [] => modes
  | pmode :: probed =>
    let modes := match merge_mode merge_type_bits pmode modes with
                 | Some modes => modes
                 | None => modes ++ [pmode]
                 end in
    drm_mode_connector_list_update modes probed merge_type_bits
  end.

End modes.
