(* ===== verification/DrmCmdline.v ===== *)
(** * The mode option of the kernel command line (drm_modes.c)

    [drm_mode_parse_command_line_for_connector] scans the option from its
    last character to its first; [drm_mode_create_from_cmdline_mode] turns the
    result into a mode.  A string is the list of its characters. *)

From S2P Require Import Prelude DrmModes.
From Stdlib Require Import Ascii.
Open Scope Z_scope.

Inductive drm_connector_force :=
| DRM_FORCE_UNSPECIFIED
| DRM_FORCE_OFF
| DRM_FORCE_ON
| DRM_FORCE_ON_DIGITAL.

#[export] Instance force_eq_dec : EqDecision drm_connector_force.
Proof. solve_decision. Defined.

(** [struct drm_cmdline_mode] *)
Record drm_cmdline_mode := mk_cmdline {
  specified : bool; refresh_specified : bool; bpp_specified : bool;
  xres : Z; yres : Z; bpp : Z; refresh : Z;
  rb : bool; interlace : bool; cvt : bool; margins : bool;
  force : drm_connector_force;
}.

(** ** The kernel's string library *)

(** [simple_strtol] with base 10: the value and the rest of the string ([*endp]). *)
Class kernel_string := { simple_strtol : list ascii -> Z * list ascii }.

Definition digit (c : ascii) : option Z :=
  let n := Z.of_nat (nat_of_ascii c) in
  if (48 <=? n) && (n <=? 57) then Some (n - 48) else None.

(** The number that digits stand for, after [acc]. *)
Fixpoint decimal (acc : Z) (s : list ascii) : Z :=
  match s with [] => acc | c :: s => decimal (acc * 10 + default 0 (digit c)) s end.

(** A string that does not go on with a digit. *)
Definition no_digit (s : list ascii) : Prop :=
  match s with [] => True | c :: _ => digit c = None end.

(** It reads digits up to the first other character, as long as their number fits a
    [long]. *)
Class kernel_string_ok `{kernel_string} : Prop := {
  strtol_reads ds rest : Forall (fun c => is_Some (digit c)) ds -> ds <> [] -> decimal 0 ds < 2 ^ 63 -> no_digit rest ->
    simple_strtol (ds ++ rest) = (decimal 0 ds, rest);
}.

(** ** The scan *)

(** The local variables of the loop. *)
Record scan_state := mk_scan {
  s_bpp_specified : bool; s_refresh_specified : bool; s_yres_specified : bool;
  s_cvt : bool; s_rb : bool; s_interlace : bool; s_margins : bool; s_was_digit : bool;
  s_yres : Z; s_bpp : Z; s_refresh : Z;
  s_force : drm_connector_force;
}.

Definition scan_init : scan_state :=
  mk_scan false false false false false false false false 0 32 0 DRM_FORCE_UNSPECIFIED.

Definition forced (f : drm_connector_force) : bool :=
  bool_decide (f <> DRM_FORCE_UNSPECIFIED).

Section cmdline.
Context `{drm_modes_h, kernel_string}.

(** One round of the loop for the character [c] followed by [suffix];
    [None] is [goto done]. *)
Definition scan_char (connector_type : Z) (c : ascii) (suffix : list ascii)
    (s : scan_state) : option scan_state :=
  match c with
  | "@"%char =>
    if negb (s_refresh_specified s) && negb (s_bpp_specified s) &&
       negb (s_yres_specified s) && negb (s_cvt s) && negb (s_rb s) && s_was_digit s
    then Some (mk_scan (s_bpp_specified s) true (s_yres_specified s) (s_cvt s) (s_rb s)
                 (s_interlace s) (s_margins s) false (s_yres s) (s_bpp s)
                 (u32 (fst (simple_strtol suffix))) (s_force s))
    else None
  | "-"%char =>
    if negb (s_bpp_specified s) && negb (s_yres_specified s) && negb (s_cvt s) &&
       negb (s_rb s) && s_was_digit s
    then Some (mk_scan true (s_refresh_specified s) (s_yres_specified s) (s_cvt s) (s_rb s)
                 (s_interlace s) (s_margins s) false (s_yres s)
                 (u32 (fst (simple_strtol suffix))) (s_refresh s) (s_force s))
    else None
  | "x"%char =>
    if negb (s_yres_specified s) && s_was_digit s
    then Some (mk_scan (s_bpp_specified s) (s_refresh_specified s) true (s_cvt s) (s_rb s)
                 (s_interlace s) (s_margins s) false (u32 (fst (simple_strtol suffix)))
                 (s_bpp s) (s_refresh s) (s_force s))
    else None
  | "0"%char | "1"%char | "2"%char | "3"%char | "4"%char
  | "5"%char | "6"%char | "7"%char | "8"%char | "9"%char =>
    Some (mk_scan (s_bpp_specified s) (s_refresh_specified s) (s_yres_specified s) (s_cvt s)
            (s_rb s) (s_interlace s) (s_margins s) true (s_yres s) (s_bpp s) (s_refresh s)
            (s_force s))
  | "M"%char =>
    if s_yres_specified s || s_cvt s || s_was_digit s then None
    else Some (mk_scan (s_bpp_specified s) (s_refresh_specified s) (s_yres_specified s) true
                 (s_rb s) (s_interlace s) (s_margins s) (s_was_digit s) (s_yres s) (s_bpp s)
                 (s_refresh s) (s_force s))
  | "R"%char =>
    if s_yres_specified s || s_cvt s || s_rb s || s_was_digit s then None
    else Some (mk_scan (s_bpp_specified s) (s_refresh_specified s) (s_yres_specified s)
                 (s_cvt s) true (s_interlace s) (s_margins s) (s_was_digit s) (s_yres s)
                 (s_bpp s) (s_refresh s) (s_force s))
  | "m"%char =>
    if s_cvt s || s_yres_specified s || s_was_digit s then None
    else Some (mk_scan (s_bpp_specified s) (s_refresh_specified s) (s_yres_specified s)
                 (s_cvt s) (s_rb s) (s_interlace s) true (s_was_digit s) (s_yres s)
                 (s_bpp s) (s_refresh s) (s_force s))
  | "i"%char =>
    if s_cvt s || s_yres_specified s || s_was_digit s then None
    else Some (mk_scan (s_bpp_specified s) (s_refresh_specified s) (s_yres_specified s)
                 (s_cvt s) (s_rb s) true (s_margins s) (s_was_digit s) (s_yres s)
                 (s_bpp s) (s_refresh s) (s_force s))
  | "e"%char | "D"%char | "d"%char =>
    if s_yres_specified s || s_bpp_specified s || s_refresh_specified s ||
       s_was_digit s || forced (s_force s) then None
    else
      let f := if (c =? "e")%char then DRM_FORCE_ON
               else if (c =? "D")%char then
                 if negb (connector_type =? DRM_MODE_CONNECTOR_DVII) &&
                    negb (connector_type =? DRM_MODE_CONNECTOR_HDMIB)
                 then DRM_FORCE_ON else DRM_FORCE_ON_DIGITAL
               else DRM_FORCE_OFF in
      Some (mk_scan (s_bpp_specified s) (s_refresh_specified s) (s_yres_specified s)
              (s_cvt s) (s_rb s) (s_interlace s) (s_margins s) (s_was_digit s) (s_yres s)
              (s_bpp s) (s_refresh s) f)
  | _ => None
  end.

(** The loop, over the reversed string; [suffix] is what was scanned.  The
    first component is [i] after the loop. *)
Fixpoint scan_loop (connector_type : Z) (rprefix suffix : list ascii) (s : scan_state)
    : Z * scan_state :=
  match rprefix with
  | [] => (-1, s)
  | c :: rprefix =>
    match scan_char connector_type c suffix s with
    | None => (Z.of_nat (length rprefix), s)
    | Some s => scan_loop connector_type rprefix (c :: suffix) s
    end
  end.

(** The code after the label [done]. *)
Definition parse_done (i : Z) (res_specified : bool) (xr : Z) (s : scan_state)
    (mode : drm_cmdline_mode) : bool * drm_cmdline_mode :=
  if 0 <=? i then
    (false, mk_cmdline false (refresh_specified mode) (bpp_specified mode) (xres mode)
       (yres mode) (bpp mode) (refresh mode) (rb mode) (interlace mode) (cvt mode)
       (margins mode) (force mode))
  else
    (true, mk_cmdline
       (res_specified || specified mode)
       (s_refresh_specified s || refresh_specified mode)
       (s_bpp_specified s || bpp_specified mode)
       (if res_specified then xr else xres mode)
       (if res_specified then s_yres s else yres mode)
       (if s_bpp_specified s then s_bpp s else bpp mode)
       (if s_refresh_specified s then s_refresh s else refresh mode)
       (s_rb s) (s_interlace s) (s_cvt s) (s_margins s) (s_force s)).

(** [fb_mode_option] is the default of the frame buffer layer, if any. *)
Definition drm_mode_parse_command_line_for_connector
    (fb_mode_option mode_option : option (list ascii)) (connector_type : Z)
    (mode : drm_cmdline_mode) : bool * drm_cmdline_mode :=
  let mode_option := match mode_option with None => fb_mode_option | o => o end in
  match mode_option with
  | None =>
    (false, mk_cmdline false (refresh_specified mode) (bpp_specified mode) (xres mode)
       (yres mode) (bpp mode) (refresh mode) (rb mode) (interlace mode) (cvt mode)
       (margins mode) (force mode))
  | Some name =>
    let '(i, s) := scan_loop connector_type (reverse name) [] scan_init in
    if (i <? 0) && s_yres_specified s then
      let '(xr, ch) := simple_strtol name in
      match ch with
      | "x"%char :: _ => parse_done i true (u32 xr) s mode
      | _ => parse_done (Z.of_nat (length name) - Z.of_nat (length ch)) false 0 s mode
      end
    else if (i <? 0) && negb (s_yres_specified s) && s_was_digit s then
      parse_done 0 false 0 s mode
    else parse_done i false 0 s mode
  end.

Definition drm_mode_create_from_cmdline_mode (alloc : option Z) (cmd : drm_cmdline_mode)
    : outcome (option drm_display_mode) :=
  let vr := if refresh_specified cmd then s32 (refresh cmd) else 60 in
  mode ← (if cvt cmd
          then drm_cvt_mode alloc (s32 (xres cmd)) (s32 (yres cmd)) vr (rb cmd)
                 (interlace cmd) (margins cmd)
          else drm_gtf_mode alloc (s32 (xres cmd)) (s32 (yres cmd)) vr
                 (interlace cmd) (b2z (margins cmd)));
  Ok (match mode with
      | None => None
      | Some mode =>
        let mode := set_type (Z.lor (type mode) DRM_MODE_TYPE_USERDEF) mode in
        Some (drm_mode_set_crtcinfo mode CRTC_INTERLACE_HALVE_V)
      end).

End cmdline.
