(* ===== verification/DrmCmdlineProps.v ===== *)
(** * The mode option: parsing inverts the documented format *)

From S2P Require Import Prelude DrmModes DrmCmdline.
From Stdlib Require Import Ascii.
Open Scope Z_scope.

(** ** Decimal numbers *)
Definition chr (d : Z) : ascii := ascii_of_nat (Z.to_nat (48 + d)).

Fixpoint dec_fuel (fuel : nat) (n : Z) : list ascii :=
  match fuel with
  | O => [chr n]
  | S fuel => if n <? 10 then [chr n] else dec_fuel fuel (n / 10) ++ [chr (n mod 10)]
  end.

(** The decimal digits of a 32-bit number. *)
Definition dec (n : Z) : list ascii := dec_fuel 9 n.

Lemma digit_cases d : 0 <= d < 10 ->
  d = 0 \/ d = 1 \/ d = 2 \/ d = 3 \/ d = 4 \/ d = 5 \/ d = 6 \/ d = 7 \/ d = 8 \/ d = 9.
Proof. lia. Qed.

Ltac ten_digits H :=
  apply digit_cases in H as [-> |[-> |[-> |[-> |[-> |[-> |[-> |[-> |[-> | ->]]]]]]]]].

Lemma digit_chr d : 0 <= d < 10 -> digit (chr d) = Some d.
Proof. intros Hd. by ten_digits Hd. Qed.

Definition is_digit (c : ascii) : Prop := exists d, 0 <= d < 10 /\ c = chr d.

Lemma dec_fuel_digits fuel n :
  0 <= n < 10 ^ (Z.of_nat fuel + 1) -> Forall is_digit (dec_fuel fuel n) /\ dec_fuel fuel n <> [].
Proof.
  revert n. induction fuel as [|fuel IH]; intros n Hn; cbn [dec_fuel].
  - split; [|done]. apply Forall_singleton. exists n. split; [simpl in Hn; lia|done].
  - destruct (Z.ltb_spec n 10).
    + split; [|done]. apply Forall_singleton. exists n. split; [lia|done].
    + destruct (IH (n / 10)) as [Hf _].
      { rewrite Nat2Z.inj_succ, Z.pow_add_r in Hn by lia.
        split; [apply Z.div_pos; lia|]. apply Z.div_lt_upper_bound; [lia|].
        rewrite Z.add_1_r. rewrite <- Z.pow_succ_r by lia.
        rewrite <- Z.pow_add_r in Hn by lia. replace (Z.succ (Z.succ (Z.of_nat fuel)))
          with (Z.succ (Z.of_nat fuel) + 1) by lia. lia. }
      split; [|by destruct (dec_fuel fuel (n / 10))].
      apply Forall_app. split; [done|]. apply Forall_singleton.
      exists (n mod 10). split; [|done]. apply Z.mod_pos_bound. lia.
Qed.

Lemma decimal_app acc a b : decimal acc (a ++ b) = decimal (decimal acc a) b.
Proof. revert acc. induction a as [|c a IH]; intros acc; cbn; [done|apply IH]. Qed.

Lemma decimal_dec fuel n : 0 <= n < 10 ^ (Z.of_nat fuel + 1) -> decimal 0 (dec_fuel fuel n) = n.
Proof.
  revert n. induction fuel as [|fuel IH]; intros n Hn; cbn [dec_fuel].
  - cbn [decimal]. rewrite digit_chr by (simpl in Hn; lia). done.
  - destruct (Z.ltb_spec n 10); [cbn [decimal]; by rewrite digit_chr by lia|].
    pose proof (Z.div_mod n 10 ltac:(lia)). pose proof (Z.mod_pos_bound n 10 ltac:(lia)).
    rewrite decimal_app, IH; [cbn [decimal]; rewrite digit_chr by lia; cbn [from_option id]; lia|].
    replace (Z.of_nat (S fuel) + 1) with (Z.succ (Z.of_nat fuel + 1)) in Hn by lia. rewrite Z.pow_succ_r in Hn by lia.
    split; [apply Z.div_pos; lia|apply Z.div_lt_upper_bound; lia].
Qed.

Lemma strtol_dec `{kernel_string_ok} n rest :
  is_u32 n -> no_digit rest -> simple_strtol (dec n ++ rest) = (n, rest).
Proof.
  intros Hn Hr. unfold is_u32 in Hn. destruct (dec_fuel_digits 9 n) as [Hd Hne]; [simpl; lia|].
  pose proof (decimal_dec 9 n ltac:(simpl; lia)) as Hv. unfold dec. rewrite strtol_reads; [by rewrite Hv| |done|rewrite Hv; lia|done].
  eapply Forall_impl; [exact Hd|]. intros c (d & Hdd & ->). rewrite digit_chr by done. by eexists.
Qed.

#[local] Arguments simple_strtol : simpl never.
#[local] Arguments dec : simpl never.
#[local] Arguments u32 : simpl never.

(** ** The scan as a fold from the right *)
Section scan.
Context `{drm_modes_h, kernel_string_ok} (ct : Z).

Fixpoint scan_str (str suffix : list ascii) (s : scan_state) : option scan_state :=
  match str with
  | [] => Some s
  | c :: str => s ← scan_str str suffix s; scan_char ct c (str ++ suffix) s
  end.

Lemma scan_str_app a b suffix s :
  scan_str (a ++ b) suffix s = s' ← scan_str b suffix s; scan_str a (b ++ suffix) s'.
Proof.
  induction a as [|c a IH]; cbn; [by destruct (scan_str b suffix s)|].
  rewrite IH. destruct (scan_str b suffix s); cbn; [|done].
  by rewrite app_assoc.
Qed.

Lemma scan_loop_str r str suffix s s' :
  scan_str str suffix s = Some s' ->
  scan_loop ct (reverse str ++ r) suffix s = scan_loop ct r (str ++ suffix) s'.
Proof.
  revert r suffix s s'. induction str as [|c str IH]; intros r suffix s s' Hs; cbn in Hs.
  { by simplify_eq. }
  destruct (scan_str str suffix s) as [s1|] eqn:E; cbn in Hs; [|done].
  rewrite reverse_cons, <- app_assoc, (IH _ _ _ _ E). cbn [app scan_loop]. by rewrite Hs.
Qed.

Definition seen_digit (s : scan_state) : scan_state :=
  mk_scan (s_bpp_specified s) (s_refresh_specified s) (s_yres_specified s) (s_cvt s)
    (s_rb s) (s_interlace s) (s_margins s) true (s_yres s) (s_bpp s) (s_refresh s) (s_force s).

Lemma scan_char_digit c suffix s : is_digit c -> scan_char ct c suffix s = Some (seen_digit s).
Proof. intros (d & Hd & ->). by ten_digits Hd. Qed.

Lemma scan_digits ds suffix s :
  Forall is_digit ds -> ds <> [] -> scan_str ds suffix s = Some (seen_digit s).
Proof.
  induction 1 as [|c ds Hc Hds IH]; [done|]. intros _. cbn.
  destruct ds as [|c' ds]; [by apply scan_char_digit|].
  rewrite IH by done. cbn [mbind option_bind]. by rewrite scan_char_digit.
Qed.

Lemma scan_dec n suffix s : is_u32 n -> scan_str (dec n) suffix s = Some (seen_digit s).
Proof.
  intros Hn. unfold is_u32 in Hn. destruct (dec_fuel_digits 9 n) as [Hd Hne]; [simpl; lia|].
  by apply scan_digits.
Qed.

(** ** The documented format *)

(** The letter that forces the connector on, digital or off. *)
Inductive force_opt := FNone | FOn | FDigital | FOff.

Definition force_str (f : force_opt) : list ascii :=
  match f with FNone => [] | FOn => ["e"%char] | FDigital => ["D"%char] | FOff => ["d"%char] end.

Definition force_val (f : force_opt) : drm_connector_force :=
  match f with
  | FNone => DRM_FORCE_UNSPECIFIED
  | FOn => DRM_FORCE_ON
  | FDigital => if negb (ct =? DRM_MODE_CONNECTOR_DVII) && negb (ct =? DRM_MODE_CONNECTOR_HDMIB)
                then DRM_FORCE_ON else DRM_FORCE_ON_DIGITAL
  | FOff => DRM_FORCE_OFF
  end.

Definition opt_char (b : bool) (c : ascii) : list ascii := if b then [c] else [].
Definition opt_num (c : ascii) (n : option Z) : list ascii :=
  match n with Some n => c :: dec n | None => [] end.

(** [<xres>x<yres>[M][R][-<bpp>][@<refresh>][i][m][eDd]] *)
Record mode_option := {
  o_x : Z; o_y : Z; o_cvt : bool; o_rb : bool; o_bpp : option Z; o_refresh : option Z;
  o_interlace : bool; o_margins : bool; o_force : force_opt;
}.

Definition tail_str (o : mode_option) : list ascii :=
  opt_char (o_interlace o) "i" ++ opt_char (o_margins o) "m" ++ force_str (o_force o).

Definition bpp_str (o : mode_option) : list ascii :=
  opt_num "-" (o_bpp o) ++ opt_num "@" (o_refresh o) ++ tail_str o.

Definition yres_str (o : mode_option) : list ascii :=
  opt_char (o_cvt o) "M" ++ opt_char (o_rb o) "R" ++ bpp_str o.

Definition option_str (o : mode_option) : list ascii :=
  dec (o_x o) ++ ["x"%char] ++ dec (o_y o) ++ yres_str o.

Definition wf_option (o : mode_option) : Prop :=
  is_u32 (o_x o) /\ is_u32 (o_y o) /\
  (forall n, o_bpp o = Some n -> is_u32 n) /\ (forall n, o_refresh o = Some n -> is_u32 n).

Lemma no_digit_tail o : no_digit (tail_str o).
Proof. unfold tail_str. by destruct (o_interlace o), (o_margins o), (o_force o). Qed.

Lemma no_digit_refresh o : no_digit (opt_num "@" (o_refresh o) ++ tail_str o).
Proof. destruct (o_refresh o); [done|]. apply no_digit_tail. Qed.

Lemma no_digit_yres o : no_digit (yres_str o).
Proof.
  unfold yres_str, bpp_str. destruct (o_cvt o), (o_rb o), (o_bpp o); try done.
  apply no_digit_refresh.
Qed.

(** The state after the optional letters at the end ... *)
Lemma scan_tail o :
  scan_str (tail_str o) [] scan_init =
  Some (mk_scan false false false false false (o_interlace o) (o_margins o) false 0 32 0
          (force_val (o_force o))).
Proof. unfold tail_str. by destruct (o_interlace o), (o_margins o), (o_force o). Qed.

(** ... after [@<refresh>] ... *)
Lemma scan_refresh o i m f :
  (forall n, o_refresh o = Some n -> is_u32 n) ->
  scan_str (opt_num "@" (o_refresh o)) (tail_str o)
    (mk_scan false false false false false i m false 0 32 0 f) =
  Some (mk_scan false (bool_decide (is_Some (o_refresh o))) false false false i m false 0 32
          (default 0 (o_refresh o)) f).
Proof.
  intros Hw. destruct (o_refresh o) as [n|]; [|done]. specialize (Hw n eq_refl).
  cbn [opt_num scan_str]. rewrite scan_dec by done. cbn.
  rewrite strtol_dec by (done || apply no_digit_tail). cbn. by rewrite u32_small.
Qed.

(** ... after [-<bpp>] ... *)
Lemma scan_bpp o r rv i m f :
  (forall n, o_bpp o = Some n -> is_u32 n) ->
  scan_str (opt_num "-" (o_bpp o)) (opt_num "@" (o_refresh o) ++ tail_str o)
    (mk_scan false r false false false i m false 0 32 rv f) =
  Some (mk_scan (bool_decide (is_Some (o_bpp o))) r false false false i m false 0
          (default 32 (o_bpp o)) rv f).
Proof.
  intros Hw. destruct (o_bpp o) as [n|]; [|done]. specialize (Hw n eq_refl).
  cbn [opt_num scan_str]. rewrite scan_dec by done. cbn.
  rewrite strtol_dec by (done || apply no_digit_refresh). cbn. by rewrite u32_small.
Qed.

(** ... and at the end. *)
Definition final_state (o : mode_option) : scan_state :=
  mk_scan (bool_decide (is_Some (o_bpp o))) (bool_decide (is_Some (o_refresh o))) true
    (o_cvt o) (o_rb o) (o_interlace o) (o_margins o) true (o_y o) (default 32 (o_bpp o))
    (default 0 (o_refresh o)) (force_val (o_force o)).

Lemma scan_yres o :
  wf_option o -> scan_str (yres_str o) [] scan_init =
  Some (mk_scan (bool_decide (is_Some (o_bpp o))) (bool_decide (is_Some (o_refresh o))) false
    (o_cvt o) (o_rb o) (o_interlace o) (o_margins o) false 0 (default 32 (o_bpp o))
    (default 0 (o_refresh o)) (force_val (o_force o))).
Proof.
  intros (Hx & Hy & Hb & Hr). unfold yres_str, bpp_str.
  rewrite !scan_str_app, scan_tail. cbn [mbind option_bind].
  rewrite ?app_nil_r, scan_refresh by done. cbn [mbind option_bind].
  rewrite scan_bpp by done. cbn [mbind option_bind]. by destruct (o_rb o), (o_cvt o).
Qed.

Lemma scan_option o :
  wf_option o -> scan_str (option_str o) [] scan_init = Some (final_state o).
Proof.
  intros Hw. pose proof Hw as (Hx & Hy & _). unfold option_str.
  rewrite !scan_str_app, scan_yres by done. cbn [mbind option_bind].
  rewrite scan_dec by done. cbn. rewrite app_nil_r, strtol_dec by (done || apply no_digit_yres).
  rewrite scan_dec by done. cbn. by rewrite u32_small.
Qed.

(** C35: when [simple_strtol] reads decimal numbers (its documented behaviour,
    [kernel_string_ok]), every option in the documented format
    [<xres>x<yres>[M][R][-<bpp>][@<refresh>][i][m][eDd]] with 32-bit numbers
    is accepted, and the parsed mode has exactly its sizes, depth, refresh
    rate, flags and force state; what the option leaves out keeps its value. *)
Theorem cmdline_roundtrip o fb mode :
  wf_option o ->
  drm_mode_parse_command_line_for_connector fb (Some (option_str o)) ct mode =
  (true, mk_cmdline true
     (bool_decide (is_Some (o_refresh o)) || refresh_specified mode)
     (bool_decide (is_Some (o_bpp o)) || bpp_specified mode)
     (o_x o) (o_y o) (default (bpp mode) (o_bpp o)) (default (refresh mode) (o_refresh o))
     (o_rb o) (o_interlace o) (o_cvt o) (o_margins o) (force_val (o_force o))).
Proof.
  intros Hw. pose proof (scan_option o Hw) as Hs. destruct Hw as (Hx & Hy & _).
  unfold drm_mode_parse_command_line_for_connector.
  rewrite <- (app_nil_r (reverse (option_str o))).
  rewrite (scan_loop_str [] _ [] _ _ Hs). cbn [scan_loop].
  change ((-1 <? 0) && s_yres_specified (final_state o)) with true. cbn match.
  unfold option_str at 1. rewrite strtol_dec by done. cbn [app].
  unfold parse_done. cbn [Z.leb Z.compare]. rewrite u32_small by done.
  cbn. f_equal. f_equal; by destruct (o_bpp o), (o_refresh o).
Qed.

End scan.

(** ** Witness *)
Module Sample.

#[export] Instance modes_h : drm_modes_h :=
  {| DRM_MODE_FLAG_PHSYNC := 1; DRM_MODE_FLAG_NHSYNC := 2;
     DRM_MODE_FLAG_PVSYNC := 4; DRM_MODE_FLAG_NVSYNC := 8;
     DRM_MODE_FLAG_INTERLACE := 16; DRM_MODE_FLAG_DBLSCAN := 32; DRM_MODE_FLAG_DBLCLK := 4096;
     DRM_MODE_FLAG_3D_MASK := 0x7c000; DRM_MODE_FLAG_3D_FRAME_PACKING := 0x4000;
     DRM_MODE_TYPE_BUILTIN := 1; DRM_MODE_TYPE_CRTC_C := 5;
     DRM_MODE_TYPE_PREFERRED := 8; DRM_MODE_TYPE_USERDEF := 32;
     CRTC_INTERLACE_HALVE_V := 1; CRTC_STEREO_DOUBLE := 2;
     MODE_OK := 0; MODE_VIRTUAL_X := 14; MODE_VIRTUAL_Y := 15;
     DISPLAY_FLAGS_HSYNC_LOW := 1; DISPLAY_FLAGS_HSYNC_HIGH := 2;
     DISPLAY_FLAGS_VSYNC_LOW := 4; DISPLAY_FLAGS_VSYNC_HIGH := 8;
     DISPLAY_FLAGS_INTERLACED := 256; DISPLAY_FLAGS_DOUBLESCAN := 512;
     DISPLAY_FLAGS_DOUBLECLK := 1024;
     KHZ2PICOS c := 1000000000 / c;
     DRM_MODE_CONNECTOR_DVII := 2; DRM_MODE_CONNECTOR_HDMIB := 12 |}.

(** The kernel's function: digits into an [unsigned long long], after a minus sign. *)
Fixpoint strtoull (s : list ascii) (acc : Z) : Z * list ascii :=
  match s with
  | [] => (acc, [])
  | c :: s' => match digit c with Some d => strtoull s' (ul (acc * 10 + d)) | None => (acc, s) end
  end.

#[export] Instance kernel : kernel_string := {|
  simple_strtol s := match s with
    | "-"%char :: s' => let '(v, rest) := strtoull s' 0 in (- v, rest)
    | _ => strtoull s 0
    end |}.

Lemma digit_nonneg c d : digit c = Some d -> 0 <= d.
Proof. unfold digit. destruct (_ && _) eqn:E; [|done]. intros [= <-]. b2p. lia. Qed.

Lemma decimal_ge ds acc : 0 <= acc -> Forall (fun c => is_Some (digit c)) ds -> acc <= decimal acc ds.
Proof.
  intros Ha Hd. revert acc Ha. induction Hd as [|c ds [d E] _ IH]; intros acc Ha; cbn; [lia|]. rewrite E. cbn.
  pose proof (digit_nonneg c d E). specialize (IH (acc * 10 + d) ltac:(lia)). lia.
Qed.

Lemma strtoull_reads ds rest acc : Forall (fun c => is_Some (digit c)) ds -> 0 <= acc -> decimal acc ds < 2 ^ 63 -> no_digit rest ->
  strtoull (ds ++ rest) acc = (decimal acc ds, rest).
Proof.
  intros Hd. revert acc. induction Hd as [|c ds [d E] Hds IH]; intros acc Ha Hv Hr; cbn.
  - destruct rest as [|c rest]; cbn; [done|]. by rewrite Hr.
  - rewrite E. cbn in Hv |- *. rewrite E in Hv. cbn in Hv. pose proof (digit_nonneg c d E).
    pose proof (decimal_ge ds (acc * 10 + d) ltac:(lia) Hds). rewrite ul_small by (unfold is_ul; lia). apply IH; [lia|done|done].
Qed.

#[export] Instance kernel_ok : kernel_string_ok.
Proof.
  split. intros ds rest Hd Hne Hv Hr. pose proof (strtoull_reads ds rest 0 Hd ltac:(lia) Hv Hr) as E. unfold simple_strtol, kernel.
  destruct ds as [|c ds]; [done|]. apply Forall_cons in Hd as [[d Ed] _]. rewrite <- E. cbn [app].
  destruct (decide (c = "-"%char)) as [->|Hc]; [by vm_compute in Ed|]. by destruct c as [[] [] [] [] [] [] [] []].
Qed.

End Sample.
Import Sample.

(** ["1280x1024MR-24@75me"] *)
Definition opt_sample : mode_option :=
  {| o_x := 1280; o_y := 1024; o_cvt := true; o_rb := true; o_bpp := Some 24;
     o_refresh := Some 75; o_interlace := false; o_margins := true; o_force := FOn |}.

Lemma cmdline_roundtrip_witness :
  drm_mode_parse_command_line_for_connector None (Some (option_str opt_sample)) 11
    (mk_cmdline false false false 0 0 0 0 false false false false DRM_FORCE_UNSPECIFIED) =
  (true, mk_cmdline true true true 1280 1024 24 75 true false true true DRM_FORCE_ON).
Proof.
  apply (cmdline_roundtrip 11 opt_sample None). unfold wf_option, is_u32. cbn.
  split; [lia|]. split; [lia|]. split; intros n [= <-]; lia.
Defined.
