(* ===== verification/DrmModesProps.v ===== *)
(** * Display modes: the properties *)

From S2P Require Import Prelude DrmModes DrmCmdline DrmCmdlineProps.

#[local] Ltac Zify.zify_post_hook ::= Z.to_euclidean_division_equations.

(** A mode line in order: visible, sync start, sync end, total. *)
Definition ordered (x : timings) : Prop :=
  0 < hdisplay x <= hsync_start x /\ hsync_start x < hsync_end x <= htotal x /\
  0 < vdisplay x <= vsync_start x /\ vsync_start x < vsync_end x <= vtotal x.

(** ** The CVT generator *)

Lemma udiv_ok a b : 0 < b -> udiv a b = Ok (a / b).
Proof. intros Hb. unfold udiv. destruct (Z.eqb_spec b 0); [lia|done]. Qed.

Lemma cvt_vsync_range h v : 4 <= cvt_vsync h v <= 10.
Proof. unfold cvt_vsync. repeat case_if; lia. Qed.

(** The horizontal period (in units of 1/1000 microsecond) and its bounds. *)
Lemma cvt_hperiod_bounds k lines base r :
  1 <= r <= 500 -> 1 <= lines -> lines * r <= 2 ^ 24 -> 10000 * k <= lines * r ->
  0 < k <= 2 -> 460 <= base <= 550 ->
  let n := 1000000000 - base * 1000 * r in
  1 <= n * k / (lines * r) <= 100000.
Proof.
  intros Hr Hl Hub Hlb Hk Hb n.
  assert (725000000 <= n <= 1000000000) by (unfold n; nia).
  split.
  - apply Z.div_le_lower_bound; [nia|]. nia.
  - apply Z.div_le_upper_bound; [nia|]. nia.
Qed.

(** Normal blanking: a fifth to three tenths of the line, rounded to cells. *)
Lemma cvt_hblank_bounds H hp :
  1 <= H <= 16384 -> 1 <= hp <= 100000 ->
  exists hb, cvt_hblank H hp = Ok hb /\ H / 4 - 15 <= hb <= H /\ 0 <= hb.
Proof.
  intros HH Hp. unfold cvt_hblank.
  change CVT_M_PRIME with 300. change (CVT_C_PRIME * HV_FACTOR) with 30000.
  change (20 * HV_FACTOR) with 20000. change (100 * HV_FACTOR) with 100000.
  rewrite (u32_small (300 * hp)) by (unfold is_u32; lia).
  rewrite (u32_small (30000 - 300 * hp / 1000)) by (unfold is_u32; lia).
  set (pct := if _ <? 20000 then 20000 else _).
  assert (20000 <= pct <= 30000) as Hpct.
  { unfold pct. destruct (Z.ltb_spec (30000 - 300 * hp / 1000) 20000); lia. }
  clearbody pct.
  rewrite (u32_small (H * pct)), (u32_small (100000 - pct)) by (unfold is_u32; nia).
  rewrite udiv_ok by lia. mred.
  assert (H / 4 <= H * pct / (100000 - pct) <= H) as Hhb.
  { split; [apply Z.div_le_lower_bound; [lia|]|apply Z.div_le_upper_bound; [lia|nia]].
    assert (4 * (H / 4) <= H) by lia. nia. }
  set (hb := H * pct / (100000 - pct)) in *. clearbody hb.
  rewrite (s32_small hb) by (unfold is_s32; lia).
  change (2 * CVT_H_GRANULARITY) with 16. rewrite Z.rem_mod_nonneg by lia.
  eexists. split; [done|]. lia.
Qed.

Lemma cvt_hsync_order H hb :
  256 <= H <= 16384 -> H / 4 - 15 <= hb <= H ->
  exists s e, cvt_hsync H hb = (H + hb, s, e) /\ H <= s < e /\ e <= H + hb.
Proof.
  intros HH Hb. unfold cvt_hsync.
  change CVT_H_GRANULARITY with 8. change CVT_HSYNC_PERCENTAGE with 8.
  rewrite (s32_small (H + hb)) by (unfold is_s32; lia).
  rewrite (Z.quot_div_nonneg hb) by lia.
  rewrite (s32_small (H + hb / 2)) by (unfold is_s32; lia).
  rewrite (s32_small ((H + hb) * 8)) by (unfold is_s32; lia).
  rewrite (Z.quot_div_nonneg ((H + hb) * 8)) by lia.
  rewrite (s32_small (H + hb / 2 - (H + hb) * 8 / 100)) by (unfold is_s32; lia).
  set (s0 := H + hb / 2 - (H + hb) * 8 / 100).
  assert (H <= s0 + 1 /\ s0 + 8 < H + hb / 2) as Hs0 by (unfold s0; lia).
  assert (0 <= s0) by lia. clearbody s0.
  rewrite (Z.rem_mod_nonneg s0) by lia.
  rewrite (s32_small (s0 + (8 - s0 mod 8))) by (unfold is_s32; lia).
  do 2 eexists. split; [done|]. lia.
Qed.

(** The number of lines a blanking time takes. *)
Lemma blank_lines_bounds n hp :
  0 <= n <= 550000 -> 1 <= hp -> 0 <= n / hp <= 550000.
Proof.
  intros. split; [apply Z.div_pos; lia|apply Z.div_le_upper_bound; nia].
Qed.

Lemma cvt_normal_ordered H V vsync r :
  256 <= H <= 16384 -> 1 <= V <= 16384 -> 4 <= vsync <= 10 ->
  1 <= r <= 500 -> 10000 <= V * r ->
  exists hp x, cvt_normal H V V 0 vsync 0 r = Ok (hp, x) /\
    1 <= hp <= 100000 /\ ordered x /\ hdisplay x = H /\ vdisplay x = V.
Proof.
  intros HH HV Hs Hr HVr. unfold cvt_normal.
  change (CVT_MIN_VSYNC_BP * HV_FACTOR) with 550000. change (HV_FACTOR * 1000000) with 1000000000.
  change CVT_MIN_V_PORCH with 3.
  rewrite (s32_small (1000000000 - 550000 * r)) by (unfold is_s32; lia).
  rewrite (s32_small ((V + 2 * 0 + 3) * 2 + 0)) by (unfold is_s32; lia).
  rewrite (s32_small ((1000000000 - 550000 * r) * 2)) by (unfold is_s32; lia).
  rewrite (u32_small ((1000000000 - 550000 * r) * 2)) by (unfold is_u32; lia).
  rewrite (u32_small (((V + 2 * 0 + 3) * 2 + 0) * r)) by (unfold is_u32; nia).
  pose proof (cvt_hperiod_bounds 2 ((V + 2 * 0 + 3) * 2 + 0) 550 r ltac:(lia) ltac:(lia) ltac:(nia)
    ltac:(nia) ltac:(lia) ltac:(lia)) as Hp. cbv zeta in Hp. change (550 * 1000) with 550000 in Hp.
  rewrite udiv_ok by nia. mred.
  set (hp := (1000000000 - 550000 * r) * 2 / (((V + 2 * 0 + 3) * 2 + 0) * r)) in *. clearbody hp.
  rewrite udiv_ok by lia.
  pose proof (blank_lines_bounds 550000 hp ltac:(lia) ltac:(lia)) as Hq.
  set (q := 550000 / hp) in *. clearbody q.
  destruct (cvt_hblank_bounds H hp) as (hb & -> & Hhb & _); [lia..|].
  destruct (cvt_hsync_order H hb) as (s & e & -> & Hse); [lia..|].
  rewrite (s32_small (q + 1)) by (unfold is_s32; lia).
  rewrite (s32_small (V + 3)) by (unfold is_s32; lia).
  rewrite (s32_small (V + 3 + vsync)) by (unfold is_s32; lia).
  set (vs := if q + 1 <? vsync + 3 then vsync + 3 else q + 1).
  assert (vsync + 3 <= vs <= 550014) as Hvs.
  { unfold vs. destruct (Z.ltb_spec (q + 1) (vsync + 3)); lia. }
  clearbody vs. rewrite (s32_small (V + 2 * 0 + vs + 3)) by (unfold is_s32; lia).
  do 2 eexists. split; [done|]. unfold ordered. cbn. lia.
Qed.

(** Reduced blanking. *)
Lemma cvt_reduced_ordered H V vsync r :
  256 <= H <= 16384 -> 1 <= V <= 16384 -> 4 <= vsync <= 10 ->
  1 <= r <= 500 -> 10000 <= V * r ->
  exists hp x, cvt_reduced H V V 0 vsync r = Ok (hp, x) /\
    1 <= hp <= 100000 /\ ordered x /\ hdisplay x = H /\ vdisplay x = V.
Proof.
  intros HH HV Hs Hr HVr. unfold cvt_reduced.
  change (CVT_RB_MIN_VBLANK * HV_FACTOR) with 460000. change (HV_FACTOR * 1000000) with 1000000000.
  change CVT_RB_VFPORCH with 3. change CVT_MIN_V_BPORCH with 6. change CVT_RB_H_BLANK with 160.
  change CVT_RB_H_SYNC with 32. change (160 / 2) with 80.
  rewrite (s32_small (1000000000 - 460000 * r)) by (unfold is_s32; lia).
  rewrite (s32_small (V + 2 * 0)) by (unfold is_s32; lia).
  rewrite (u32_small (1000000000 - 460000 * r)) by (unfold is_u32; lia).
  rewrite (u32_small ((V + 2 * 0) * r)) by (unfold is_u32; nia).
  pose proof (cvt_hperiod_bounds 1 (V + 2 * 0) 460 r ltac:(lia) ltac:(lia) ltac:(nia)
    ltac:(nia) ltac:(lia) ltac:(lia)) as Hp. cbv zeta in Hp.
  change (460 * 1000) with 460000 in Hp. rewrite Z.mul_1_r in Hp.
  rewrite udiv_ok by nia. mred.
  set (hp := (1000000000 - 460000 * r) / ((V + 2 * 0) * r)) in *. clearbody hp.
  rewrite udiv_ok by lia.
  pose proof (blank_lines_bounds 460000 hp ltac:(lia) ltac:(lia)) as Hq.
  set (q := 460000 / hp) in *. clearbody q.
  rewrite (s32_small (q + 1)) by (unfold is_s32; lia).
  set (vb := if q + 1 <? 3 + vsync + 6 then 3 + vsync + 6 else q + 1).
  assert (vsync + 9 <= vb <= 550014) as Hvb.
  { unfold vb. destruct (Z.ltb_spec (q + 1) (3 + vsync + 6)); lia. }
  clearbody vb.
  rewrite (s32_small (H + 80)), (s32_small (H + 80 - 32)), (s32_small (H + 160)),
    (s32_small (V + 3)), (s32_small (V + 3 + vsync)), (s32_small (V + 2 * 0 + vb))
    by (unfold is_s32; lia).
  do 2 eexists. split; [done|]. unfold ordered. cbn. lia.
Qed.

Section props.
Context `{drm_modes_h}.

(** For sizes of 256 to 16384 pixels and up to 16384 lines and refresh
    rates up to 500 Hz with at least 10000 lines a second, [drm_cvt_mode]
    divides by no zero and returns a mode line in order, with the requested
    lines, the requested width rounded down to character cells, and a pixel
    clock that is a multiple of the clock step; with normal and with reduced
    blanking. *)
Theorem cvt_mode_ordered id h v r reduced :
  256 <= h <= 16384 -> 1 <= v <= 16384 -> 1 <= r <= 500 -> 10000 <= v * r ->
  exists m, drm_cvt_mode (Some id) h v r reduced false false = Ok (Some m) /\
    ordered (t m) /\ hdisplay (t m) = h - h mod 8 /\ vdisplay (t m) = v /\
    Z.rem (clock (t m)) 250 = 0.
Proof.
  intros Hh Hv Hr Hvr. unfold drm_cvt_mode. cbn [drm_mode_create].
  destruct (Z.eqb_spec r 0); [lia|].
  rewrite (u32_small r) by (unfold is_u32; lia).
  change CVT_H_GRANULARITY with 8. rewrite (Z.rem_mod_nonneg h) by lia.
  rewrite (s32_small (h - h mod 8 + 2 * 0)) by (unfold is_s32; lia).
  rewrite (s32_small (v + 2 * 0)) by (unfold is_s32; lia).
  replace (h - h mod 8 + 2 * 0) with (h - h mod 8) by lia.
  replace (v + 2 * 0) with v by lia.
  pose proof (cvt_vsync_range h v) as Hs.
  assert (exists hp x, (if reduced then cvt_reduced (h - h mod 8) v v 0 (cvt_vsync h v) r
    else cvt_normal (h - h mod 8) v v 0 (cvt_vsync h v) 0 r) = Ok (hp, x) /\
    1 <= hp <= 100000 /\ ordered x /\ hdisplay x = h - h mod 8 /\ vdisplay x = v)
    as (hp & x & -> & Hp & Ho & Hx & Hy).
  { destruct reduced; [apply cvt_reduced_ordered|apply cvt_normal_ordered]; lia. }
  mred. rewrite udiv_ok by lia.
  set (c := s32 (u32 (htotal x * HV_FACTOR * 1000) / hp)). clearbody c.
  eexists. split; [done|]. destruct x as [? ? ? ? ? ? ? ? ? ? ?].
  unfold ordered in *. cbn in *. split; [done|]. split; [done|]. split; [done|].
  change CVT_CLOCK_STEP with 250. lia.
Qed.

(** An interlaced mode of [drm_gtf_mode] is named as interlaced but does
    not carry the interlace flag: the polarity flags are assigned over it. *)
Theorem gtf_interlace_flag_lost id h v r margins m :
  DRM_MODE_FLAG_INTERLACE <> 0 ->
  drm_gtf_mode (Some id) h v r true margins = Ok (Some m) ->
  flags m = Z.lor DRM_MODE_FLAG_NHSYNC DRM_MODE_FLAG_PVSYNC /\
  exists x y, name m = Some (x, y, true).
Proof.
  intros Hi. unfold drm_gtf_mode, drm_gtf_mode_complex. cbn [drm_mode_create].
  unfold mbind, outcome_bind.
  repeat match goal with |- context [match udiv ?a ?b with _ => _ end] =>
    destruct (udiv a b); [|done] end.
  intros [= <-]. cbn. split; [done|]. do 2 eexists. do 2 f_equal.
  unfold truth. rewrite Z.land_diag. by destruct (Z.eqb_spec DRM_MODE_FLAG_INTERLACE 0).
Qed.

(** ** CRTC timings *)

(** The four values of one direction, in order and bounded. *)
Definition ordered4 (b a1 a2 a3 a4 : Z) : Prop := 0 <= a1 <= a2 /\ a2 <= a3 <= a4 /\ a4 <= b.

Definition v_ordered (b : Z) (c : crtc_timings) : Prop :=
  ordered4 b (crtc_vdisplay c) (crtc_vsync_start c) (crtc_vsync_end c) (crtc_vtotal c).

Lemma map_v_ordered f b b' c :
  (forall x y, 0 <= x <= y -> y <= b -> 0 <= f x <= f y /\ f y <= b') ->
  v_ordered b c -> v_ordered b' (map_v f c).
Proof.
  unfold v_ordered, ordered4. intros Hf (H1 & H2 & H3). cbn.
  pose proof (Hf (crtc_vdisplay c) (crtc_vsync_start c)).
  pose proof (Hf (crtc_vsync_start c) (crtc_vsync_end c)).
  pose proof (Hf (crtc_vsync_end c) (crtc_vtotal c)). lia.
Qed.

Lemma v_ordered_weaken b b' c : b <= b' -> v_ordered b c -> v_ordered b' c.
Proof. unfold v_ordered, ordered4. lia. Qed.

(** The horizontal timings of [c] are those of the mode line [x]. *)
Definition h_from (x : timings) (c : crtc_timings) : Prop :=
  crtc_hdisplay c = hdisplay x /\ crtc_hsync_start c = hsync_start x /\
  crtc_hsync_end c = hsync_end x /\ crtc_htotal c = htotal x.

Lemma crtc_interlace_ordered fl adj x c :
  h_from x c -> v_ordered (2 ^ 20) c ->
  h_from x (crtc_interlace fl adj c) /\ v_ordered (2 ^ 20) (crtc_interlace fl adj c).
Proof.
  intros Hh H0. unfold crtc_interlace. do 2 (case_if; [|done]). split; [done|].
  eapply map_v_ordered; [|exact H0].
  intros u v ??. rewrite !Z.quot_div_nonneg by lia. lia.
Qed.

Lemma crtc_dblscan_ordered fl x c :
  h_from x c -> v_ordered (2 ^ 20) c ->
  h_from x (crtc_dblscan fl c) /\ v_ordered (2 ^ 21) (crtc_dblscan fl c).
Proof.
  intros Hh H0. unfold crtc_dblscan.
  case_if; [|split; [done|]; eapply v_ordered_weaken; [|exact H0]; lia].
  split; [done|]. eapply map_v_ordered; [|exact H0].
  intros u v ??. rewrite !s32_small by (unfold is_s32; lia). lia.
Qed.

Lemma crtc_vscan_ordered n x c :
  n <= 64 -> h_from x c -> v_ordered (2 ^ 21) c ->
  h_from x (crtc_vscan n c) /\ v_ordered (2 ^ 27) (crtc_vscan n c).
Proof.
  intros Hn Hh H0. unfold crtc_vscan.
  destruct (Z.ltb_spec 1 n); [|split; [done|]; eapply v_ordered_weaken; [|exact H0]; lia].
  split; [done|]. eapply map_v_ordered; [|exact H0].
  intros u v ??. rewrite !s32_small by (unfold is_s32; nia). nia.
Qed.

Lemma crtc_stereo_ordered fl adj x c :
  h_from x c -> v_ordered (2 ^ 27) c ->
  h_from x (crtc_stereo fl adj c) /\ v_ordered (2 ^ 28) (crtc_stereo fl adj c).
Proof.
  intros Hh H0. unfold crtc_stereo.
  do 2 (case_if; [|split; [done|]; eapply v_ordered_weaken; [|exact H0]; lia]).
  split; [done|]. eapply (map_v_ordered _ (2 ^ 27)); [|exact H0].
  unfold v_ordered, ordered4 in H0. intros u v ??.
  rewrite !s32_small by (unfold is_s32; lia). lia.
Qed.

(** For a mode line in order (below 2^20 lines, at most 64 scans per line)
    [drm_mode_set_crtcinfo] computes CRTC timings in order, whatever
    combination of interlace halving, double scan, multi scan and stereo
    doubling applies, and the blanking intervals run from the end of the
    visible part to the total. *)
Theorem crtcinfo_ordered p adjust_flags :
  ordered (t p) -> vtotal (t p) <= 2 ^ 20 -> vscan (t p) <= 64 ->
  Z.land (type p) DRM_MODE_TYPE_CRTC_C <> DRM_MODE_TYPE_BUILTIN ->
  let p' := drm_mode_set_crtcinfo p adjust_flags in
  let c := crtc p' in
  t p' = t p /\
  ordered4 (crtc_htotal c) (crtc_hdisplay c) (crtc_hsync_start c) (crtc_hsync_end c) (crtc_htotal c) /\
  ordered4 (crtc_vtotal c) (crtc_vdisplay c) (crtc_vsync_start c) (crtc_vsync_end c) (crtc_vtotal c) /\
  crtc_hblank_start c = crtc_hdisplay c /\ crtc_hblank_end c = crtc_htotal c /\
  crtc_vblank_start c = crtc_vdisplay c /\ crtc_vblank_end c = crtc_vtotal c.
Proof.
  intros Ho Hvt Hvs Hb. unfold drm_mode_set_crtcinfo.
  destruct (Z.eqb_spec (Z.land (type p) DRM_MODE_TYPE_CRTC_C) DRM_MODE_TYPE_BUILTIN); [done|].
  assert (h_from (t p) (crtc_from_mode (t p) (crtc p)) /\
          v_ordered (2 ^ 20) (crtc_from_mode (t p) (crtc p))) as [Hh Hv].
  { split; [done|]. unfold ordered in Ho. unfold v_ordered, ordered4. cbn. lia. }
  destruct (crtc_interlace_ordered (flags p) adjust_flags _ _ Hh Hv) as [Hh1 Hv1].
  destruct (crtc_dblscan_ordered (flags p) _ _ Hh1 Hv1) as [Hh2 Hv2].
  destruct (crtc_vscan_ordered _ _ _ Hvs Hh2 Hv2) as [Hh3 Hv3].
  destruct (crtc_stereo_ordered (flags p) adjust_flags _ _ Hh3 Hv3) as [Hh4 Hv4].
  set (c4 := crtc_stereo _ _ _) in *. clearbody c4. clear - Ho Hh4 Hv4.
  unfold h_from in Hh4. destruct Hh4 as (E1 & E2 & E3 & E4).
  unfold ordered in Ho. unfold v_ordered, ordered4 in *. cbn. rewrite E1, E2, E3, E4.
  split; [done|lia].
Qed.

(** ** Merging probed modes *)

(** What [drm_mode_equal] compares. *)
Definition mode_key (m : drm_display_mode) :=
  let x := t m in
  (if clock x =? 0 then None else Some (KHZ2PICOS (clock x)),
   Z.land (flags m) DRM_MODE_FLAG_3D_MASK,
   (hdisplay x, hsync_start x, hsync_end x, htotal x, hskew x),
   (vdisplay x, vsync_start x, vsync_end x, vtotal x, vscan x),
   Z.land (flags m) (Z.lnot DRM_MODE_FLAG_3D_MASK)).

Lemma mode_equal_key a b : drm_mode_equal a b = true <-> mode_key a = mode_key b.
Proof.
  unfold drm_mode_equal, drm_mode_equal_no_clocks_no_stereo, mode_key, truth.
  destruct (Z.eqb_spec (clock (t a)) 0) as [Ea|Ea], (Z.eqb_spec (clock (t b)) 0) as [Eb|Eb];
    cbn [negb andb].
  1: rewrite Ea, Eb; cbn [Z.eqb negb].
  2, 3: destruct (Z.eqb_spec (clock (t a)) (clock (t b))); [congruence|]; cbn [negb]; split; [done|congruence].
  2: destruct (Z.eqb_spec (KHZ2PICOS (clock (t a))) (KHZ2PICOS (clock (t b)))); cbn [negb];
       [|split; [done|congruence]].
  all: destruct (Z.eqb_spec (Z.land (flags a) DRM_MODE_FLAG_3D_MASK)
         (Z.land (flags b) DRM_MODE_FLAG_3D_MASK)); cbn [negb]; [|split; [done|congruence]].
  all: rewrite !andb_true_iff, !Z.eqb_eq; split; [intros; destruct_and!; congruence|].
  all: intros He; simplify_eq; intuition.
Qed.

Lemma merge_mode_key mtb pmode modes :
  match merge_mode mtb pmode modes with
  | Some modes' => mode_key <$> modes' = mode_key <$> modes /\
                   mode_key pmode ∈ mode_key <$> modes
  | None => mode_key pmode ∉ mode_key <$> modes
  end.
Proof.
  induction modes as [|m modes IH]; cbn; [apply not_elem_of_nil|].
  destruct (drm_mode_equal pmode m) eqn:E.
  - apply mode_equal_key in E. rewrite E. split; [done|]. apply elem_of_cons. by left.
  - destruct (merge_mode mtb pmode modes).
    + destruct IH as [IH1 IH2]. cbn. rewrite IH1. split; [done|]. apply elem_of_cons. by right.
    + apply not_elem_of_cons. split; [|done]. intros He. apply mode_equal_key in He. congruence.
Qed.

(** Merging the probed modes into a connector's list that has no two equal
    modes leaves no two equal modes, and the list has (up to equality) exactly
    the old modes, in their order, and the probed ones. *)
Theorem list_update_no_duplicates modes probed mtb :
  NoDup (mode_key <$> modes) ->
  let modes' := drm_mode_connector_list_update modes probed mtb in
  NoDup (mode_key <$> modes') /\
  (forall k, k ∈ mode_key <$> modes' <-> k ∈ mode_key <$> modes \/ k ∈ mode_key <$> probed) /\
  (mode_key <$> modes) `prefix_of` (mode_key <$> modes').
Proof.
  revert modes. induction probed as [|p probed IH]; intros modes Hnd; cbn.
  { split; [done|]. split; [|done]. intros k. rewrite elem_of_nil. tauto. }
  pose proof (merge_mode_key mtb p modes) as Hm.
  destruct (merge_mode mtb p modes) as [modes1|].
  - destruct Hm as [Hk Hin]. destruct (IH modes1) as (H1 & H2 & H3); [by rewrite Hk|].
    rewrite Hk in *. split; [done|]. split; [|done]. intros k. rewrite H2, elem_of_cons.
    split; [tauto|]. intros [?|[->|?]]; auto.
  - destruct (IH (modes ++ [p])) as (H1 & H2 & H3).
    { rewrite fmap_app. cbn. apply NoDup_app. split; [done|]. split; [|apply NoDup_singleton].
      intros k Hk ->%list_elem_of_singleton. done. }
    rewrite fmap_app in H2, H3. cbn in *. split; [done|]. split.
    + intros k. rewrite H2, elem_of_app, list_elem_of_singleton, elem_of_cons. tauto.
    + etrans; [|exact H3]. by apply prefix_app_r.
Qed.

(** ** Rates *)

(** The refresh rate that [drm_mode_vrefresh] computes for a progressive
    mode is the nearest integer to clock / (htotal * vtotal), up to the half
    line that the halving of an odd [vtotal] loses. *)
Theorem vrefresh_nearest m :
  vrefresh m <= 0 -> 0 < htotal (t m) -> 0 < vtotal (t m) <= 2 ^ 16 ->
  0 <= clock (t m) * 1000 < 2 ^ 31 ->
  Z.land (flags m) DRM_MODE_FLAG_INTERLACE = 0 -> Z.land (flags m) DRM_MODE_FLAG_DBLSCAN = 0 ->
  vscan (t m) <= 1 ->
  let r := drm_mode_vrefresh m in
  let n := htotal (t m) * vtotal (t m) in
  (2 * r - 1) * n <= 2 * (clock (t m) * 1000) < (2 * r + 1) * n + htotal (t m).
Proof.
  intros Hvr Hh Hv Hc Hi Hd Hs. unfold drm_mode_vrefresh.
  destruct (Z.ltb_spec 0 (vrefresh m)); [lia|].
  destruct (Z.ltb_spec 0 (htotal (t m))); [|lia]. destruct (Z.ltb_spec 0 (vtotal (t m))); [|lia].
  rewrite Hi, Hd. cbn [andb truth Z.eqb negb].
  destruct (Z.ltb_spec 1 (vscan (t m))); [lia|].
  set (ht := htotal (t m)) in *. set (vt := vtotal (t m)) in *. set (a := clock (t m) * 1000) in *.
  rewrite (u32_small a) by (unfold is_u32; lia). rewrite Z.quot_div_nonneg by lia.
  pose proof (Z.div_mod a ht ltac:(lia)). pose proof (Z.mod_pos_bound a ht ltac:(lia)).
  assert (0 <= a / ht <= a) as Hq by nia. set (q := a / ht) in *. clearbody q.
  rewrite (u32_small (q + vt / 2)) by (unfold is_u32; lia).
  pose proof (Z.div_mod (q + vt / 2) vt ltac:(lia)).
  pose proof (Z.mod_pos_bound (q + vt / 2) vt ltac:(lia)).
  assert (0 <= (q + vt / 2) / vt < 2 ^ 31) as Hr.
  { split; [apply Z.div_pos; lia|]. apply Z.div_lt_upper_bound; [lia|].
    assert (vt = 1 \/ 2 <= vt) as [Hv1|Hv2] by lia; [subst vt; rewrite Hv1 in *|]; lia. }
  set (r := (q + vt / 2) / vt) in *. clearbody r.
  rewrite (s32_small r) by (unfold is_s32; lia).
  assert (2 * (vt / 2) <= vt <= 2 * (vt / 2) + 1) by lia. nia.
Qed.

End props.

Import Sample.

(** The mode a generator returns. *)
Definition the_mode (o : outcome (option drm_display_mode)) : drm_display_mode :=
  match o with
  | Ok (Some m) => m
  | _ => mk_mode 0 None 0 0 (mk_timings 0 0 0 0 0 0 0 0 0 0 0) 0 zero_crtc 0 0
  end.

(** A 3840x2160 mode at 60 Hz gets a wrong pixel clock: the product of
    [htotal] and 1000000 does not fit 32 bits, and by its own clock the mode
    refreshes at 11 Hz.  A 160x120 mode gets 39424 pixels a line: its blanking
    percentage is negative and wraps. *)
Theorem cvt_mode_overflow :
  (exists m, drm_cvt_mode (Some 1) 3840 2160 60 false false false = Ok (Some m) /\
     htotal (t m) = 5312 /\ clock (t m) = 136250 /\ drm_mode_vrefresh m = 11) /\
  (exists m, drm_cvt_mode (Some 1) 160 120 60 false false false = Ok (Some m) /\
     hdisplay (t m) = 160 /\ htotal (t m) = 39424).
Proof.
  split.
  - exists (the_mode (drm_cvt_mode (Some 1) 3840 2160 60 false false false)).
    split; [vm_compute; reflexivity|]. split; [vm_compute; reflexivity|].
    split; vm_compute; reflexivity.
  - exists (the_mode (drm_cvt_mode (Some 1) 160 120 60 false false false)).
    split; [vm_compute; reflexivity|]. split; vm_compute; reflexivity.
Qed.

(** ** Witnesses *)
Lemma cvt_mode_ordered_witness :
  exists m, drm_cvt_mode (Some 7) 1366 768 60 true false false = Ok (Some m) /\
    ordered (t m) /\ hdisplay (t m) = 1366 - 1366 mod 8 /\ vdisplay (t m) = 768 /\
    Z.rem (clock (t m)) 250 = 0.
Proof. apply (cvt_mode_ordered 7 1366 768 60 true); lia. Defined.

(** The interlaced mode of the GTF generator. *)
Definition gtf_1024i : drm_display_mode := the_mode (drm_gtf_mode (Some 1) 1024 768 60 true 0).

Lemma gtf_interlace_flag_lost_witness :
  flags gtf_1024i = Z.lor DRM_MODE_FLAG_NHSYNC DRM_MODE_FLAG_PVSYNC /\ exists x y, name gtf_1024i = Some (x, y, true).
Proof.
  apply (gtf_interlace_flag_lost 1 1024 768 60 0 gtf_1024i); [cbn; lia|vm_compute; reflexivity].
Defined.

(** 1080i. *)
Definition mode_1080i : drm_display_mode :=
  mk_mode 1 None 0 0 (mk_timings 74250 1920 2008 2052 2200 0 1080 1084 1094 1125 0) 16 zero_crtc 0 0.

Lemma crtcinfo_ordered_witness :
  let c := crtc (drm_mode_set_crtcinfo mode_1080i 1) in
  ordered4 562 540 542 547 562 /\ crtc_vblank_start c = 540 /\ crtc_vblank_end c = 562.
Proof.
  pose proof (crtcinfo_ordered mode_1080i 1) as Hc. cbv zeta in Hc.
  destruct Hc as (_ & _ & Ho & _ & _ & Hs & He);
    [unfold ordered; cbn; lia|cbn; lia|cbn; lia|vm_compute; discriminate|].
  split; [exact Ho|]. split; [exact Hs|exact He].
Defined.

Definition mode_720p : drm_display_mode :=
  mk_mode 2 None 0 0 (mk_timings 74250 1280 1390 1430 1650 0 720 725 730 750 0) 5 zero_crtc 0 0.

Lemma list_update_no_duplicates_witness :
  drm_mode_connector_list_update [mode_1080i] [mode_720p; mode_1080i] true = [mode_1080i; mode_720p] /\
  NoDup (mode_key <$> [mode_1080i; mode_720p]).
Proof.
  destruct (list_update_no_duplicates [mode_1080i] [mode_720p; mode_1080i] true) as (Hn & _ & _).
  { apply NoDup_singleton. }
  split; [vm_compute; reflexivity|exact Hn].
Defined.

Lemma vrefresh_nearest_witness : drm_mode_vrefresh mode_720p = 60 /\
  (2 * drm_mode_vrefresh mode_720p - 1) * (1650 * 750) <= 2 * (74250 * 1000).
Proof.
  split; [reflexivity|]. apply (vrefresh_nearest mode_720p); cbn; try lia; reflexivity.
Defined.
