(* ===== verification/DrmHashtab.v ===== *)
(** * The open hash table: drm_hashtab.c

    [struct drm_open_hash] is an array of hash chains, each sorted by key.  The
    items are structures of the drivers; [keys] is the store of their [key]
    fields and a chain is the list of its items.  [hash_long] and the page
    size come from kernel headers outside the repository: they are parameters.
    [1 << order] is an [int], so orders go up to 30. *)

From S2P Require Import Prelude.

Definition item_id := nat.
Notation keys_t := (gmap item_id Z).

(** Which allocator a table comes from: it must go back to the same one. *)
Inductive mem_kind := Kmem | Vmem.
#[export] Instance mem_kind_eq_dec : EqDecision mem_kind.
Proof. solve_decision. Defined.

Record drm_open_hash := mk_ht {
  order : Z;
  table : option (mem_kind * list (list item_id))
}.

Class hashtab_h := {
  hash_long : Z -> Z -> Z;
  (** [PAGE_SIZE / sizeof(struct hlist_head)] *)
  heads_per_page : Z
}.

Section hashtab.
Context {H : hashtab_h}.

(** [kcalloc] and [vzalloc] either give a zeroed array or fail. *)
Definition drm_ht_create (kcalloc_ok vzalloc_ok : bool) (ord : Z) : Z * drm_open_hash :=
  let size := u32 (Z.shiftl 1 ord) in
  let zeroed := replicate (Z.to_nat size) [] in
  let tab :=
    if size <=? heads_per_page
    then (if kcalloc_ok then Some (Kmem, zeroed) else None)
    else (if vzalloc_ok then Some (Vmem, zeroed) else None) in
  match tab with
  | None => (- ENOMEM, mk_ht ord None)
  | Some _ => (0, mk_ht ord tab)
  end.

(** [&ht->table[hashed_key]]: an access outside the array is not defined. *)
Definition chain_of (ht : drm_open_hash) (hashed_key : Z) : outcome (list item_id) :=
  match table ht with
  | None => Bug
  | Some (_, t) => match t !! Z.to_nat hashed_key with Some c => Ok c | None => Bug end
  end.

Definition set_chain (ht : drm_open_hash) (hashed_key : Z) (c : list item_id) : drm_open_hash :=
  match table ht with
  | None => ht
  | Some (k, t) => mk_ht (order ht) (Some (k, <[Z.to_nat hashed_key := c]> t))
  end.

(** The lines that [drm_ht_verbose_list] prints: the key and its hash, then
    the position and key of each item. *)
Definition drm_ht_verbose_list (keys : keys_t) (ht : drm_open_hash) (key : Z)
    : outcome (Z * Z * list (nat * Z)) :=
  let hashed_key := hash_long key (order ht) in
  h_list ← chain_of ht hashed_key;
  Ok (key, hashed_key, imap (fun count entry => (count, keys !!! entry)) h_list).

Fixpoint find_in_chain (keys : keys_t) (key : Z) (h_list : list item_id) : option item_id :=
  match h_list with
  | [] => None
  | entry :: h_list' =>
      if keys !!! entry =? key then Some entry
      else if key <? keys !!! entry then None
      else find_in_chain keys key h_list'
  end.

Definition drm_ht_find_key (keys : keys_t) (ht : drm_open_hash) (key : Z)
    : outcome (option item_id) :=
  let hashed_key := hash_long key (order ht) in
  h_list ← chain_of ht hashed_key;
  Ok (find_in_chain keys key h_list).

(** The variant for readers without the lock runs the same loop. *)
Definition drm_ht_find_key_rcu (keys : keys_t) (ht : drm_open_hash) (key : Z)
    : outcome (option item_id) :=
  let hashed_key := hash_long key (order ht) in
  h_list ← chain_of ht hashed_key;
  Ok (find_in_chain keys key h_list).

(** The loop of the insertion: [None] when the key is there, otherwise the
    item to insert behind, if any. *)
Fixpoint insert_walk (keys : keys_t) (key : Z) (parent : option item_id)
    (h_list : list item_id) : option (option item_id) :=
  match h_list with
  | [] => Some parent
  | entry :: h_list' =>
      if keys !!! entry =? key then None
      else if key <? keys !!! entry then Some parent
      else insert_walk keys key (Some entry) h_list'
  end.

Definition drm_ht_insert_item (keys : keys_t) (ht : drm_open_hash) (item : item_id)
    : outcome (Z * drm_open_hash) :=
  let key := keys !!! item in
  let hashed_key := hash_long key (order ht) in
  h_list ← chain_of ht hashed_key;
  match insert_walk keys key None h_list with
  | None => Ok (- EINVAL, ht)
  | Some (Some parent) => Ok (0, set_chain ht hashed_key (list_add_after parent item h_list))
  | Some None => Ok (0, set_chain ht hashed_key (item :: h_list))
  end.

(** The [do ... while] loop of [drm_ht_just_insert_please]. *)
Fixpoint please_loop (fuel : nat) (keys : keys_t) (ht : drm_open_hash) (item : item_id)
    (mask shift add first unshifted_key : Z) : run (Z * keys_t * drm_open_hash) :=
  match fuel with
  | O => Loops
  | S fuel =>
      let keys := <[item := ul (Z.shiftl unshifted_key shift + add)]> keys in
      '(ret, ht) ← run_of (drm_ht_insert_item keys ht item);
      if truth ret then
        let unshifted_key := Z.land (ul (unshifted_key + 1)) mask in
        if negb (unshifted_key =? first)
        then please_loop fuel keys ht item mask shift add first unshifted_key
        else Done (- EINVAL, keys, ht)
      else Done (0, keys, ht)
  end.

Definition drm_ht_just_insert_please (fuel : nat) (keys : keys_t) (ht : drm_open_hash)
    (item : item_id) (seed bits shift add : Z) : run (Z * keys_t * drm_open_hash) :=
  let mask := ul (s32 (Z.shiftl 1 bits) - 1) in
  let unshifted_key := hash_long seed bits in
  please_loop fuel keys ht item mask shift add unshifted_key unshifted_key.

Definition drm_ht_find_item (keys : keys_t) (ht : drm_open_hash) (key : Z)
    : outcome (Z * option item_id) :=
  l ← drm_ht_find_key_rcu keys ht key;
  match l with
  | None => Ok (- EINVAL, None)
  | Some item => Ok (0, Some item)
  end.

(** [hlist_del_init_rcu]: unlinks an item from the chain it is on, if any. *)
Definition hlist_del_init (ht : drm_open_hash) (item : item_id) : drm_open_hash :=
  match table ht with
  | None => ht
  | Some (k, t) => mk_ht (order ht) (Some (k, list_del item <$> t))
  end.

Definition drm_ht_remove_key (keys : keys_t) (ht : drm_open_hash) (key : Z)
    : outcome (Z * drm_open_hash) :=
  l ← drm_ht_find_key keys ht key;
  match l with
  | Some item => Ok (0, hlist_del_init ht item)
  | None => Ok (- EINVAL, ht)
  end.

Definition drm_ht_remove_item (ht : drm_open_hash) (item : item_id) : Z * drm_open_hash :=
  (0, hlist_del_init ht item).

(** Returns also the allocator that the table is given back to. *)
Definition drm_ht_remove (ht : drm_open_hash) : option mem_kind * drm_open_hash :=
  match table ht with
  | None => (None, ht)
  | Some _ =>
      (Some (if truth (Z.shiftr heads_per_page (order ht)) then Kmem else Vmem),
       mk_ht (order ht) None)
  end.
End hashtab.
