(* ===== verification/DrmHashtabProps.v ===== *)
(** * The hash table refines a finite map

    Invariant of the chains, the abstract map from keys to items, and the
    refinement of every operation of drm_hashtab.c. *)

From stdpp Require Import sorting.
From S2P Require Import Prelude DrmHashtab.

(** What the kernel documents: [hash_long] gives a hash of [bits] bits. *)
Class hashtab_h_ok (H : hashtab_h) : Prop := {
  hash_long_range k bits : 0 < bits <= 30 -> 0 <= hash_long k bits < 2 ^ bits;
  heads_per_page_pos : 0 <= heads_per_page
}.

(** A sample of the headers, for the witnesses. *)
Definition hashtab_h_sample : hashtab_h :=
  {| hash_long k bits := k mod 2 ^ bits; heads_per_page := 512 |}.

Lemma hashtab_h_sample_ok : hashtab_h_ok hashtab_h_sample.
Proof. split; cbn; [intros; apply Z.mod_pos_bound; lia|lia]. Qed.

(** ** One chain *)

Definition key_lt (keys : keys_t) (a b : item_id) : Prop := keys !!! a < keys !!! b.

Definition chain_sorted (keys : keys_t) (c : list item_id) : Prop := StronglySorted (key_lt keys) c.

Lemma chain_sorted_app keys a b :
  chain_sorted keys (a ++ b) <->
  chain_sorted keys a /\ chain_sorted keys b /\
  forall x y, x ∈ a -> y ∈ b -> keys !!! x < keys !!! y.
Proof. unfold chain_sorted. rewrite StronglySorted_app. unfold key_lt. tauto. Qed.

Lemma chain_sorted_keys keys c : chain_sorted keys c -> NoDup ((fun i => keys !!! i) <$> c).
Proof.
  induction c as [|a c IH]; cbn; [constructor|]. intros [Hs Hf]%StronglySorted_inv.
  constructor; [|by apply IH]. intros (b & Hb & Hin)%list_elem_of_fmap.
  rewrite Forall_forall in Hf. specialize (Hf b Hin). unfold key_lt in Hf. lia.
Qed.

Lemma chain_sorted_ext keys keys' c :
  (forall i, i ∈ c -> keys' !!! i = keys !!! i) -> chain_sorted keys c -> chain_sorted keys' c.
Proof.
  unfold chain_sorted. induction c as [|a c IH]; intros He Hs; [constructor|].
  apply StronglySorted_inv in Hs as [Hs Hf]. constructor; [apply IH; [set_solver|done]|].
  rewrite Forall_forall in Hf |- *. intros b Hb. unfold key_lt.
  rewrite !He by set_solver. by apply Hf.
Qed.

Lemma chain_sorted_del keys i c : chain_sorted keys c -> chain_sorted keys (list_del i c).
Proof. apply StronglySorted_filter. Qed.

Lemma find_in_chain_some keys k c i :
  find_in_chain keys k c = Some i -> i ∈ c /\ keys !!! i = k.
Proof.
  induction c as [|e c IH]; cbn; [done|]. destruct (Z.eqb_spec (keys !!! e) k) as [E|E].
  - intros [= ->]. split; [set_solver|done].
  - destruct (k <? keys !!! e); [done|]. intros [? ?]%IH. split; [set_solver|done].
Qed.

Lemma find_in_chain_none keys k c :
  chain_sorted keys c -> find_in_chain keys k c = None -> forall i, i ∈ c -> keys !!! i <> k.
Proof.
  induction c as [|e c IH]; cbn; intros Hs Hn i Hi; [by apply elem_of_nil in Hi|].
  apply StronglySorted_inv in Hs as [Hs Hf].
  destruct (Z.eqb_spec (keys !!! e) k) as [E|E]; [done|].
  apply elem_of_cons in Hi as [->|Hi]; [done|].
  destruct (Z.ltb_spec k (keys !!! e)); [|by eapply IH].
  rewrite Forall_forall in Hf. specialize (Hf i Hi). unfold key_lt in Hf. lia.
Qed.

(** The walk of an insertion finds the key or the place between the smaller
    and the larger keys. *)
Lemma insert_walk_spec keys k pre rest :
  chain_sorted keys (pre ++ rest) -> (forall i, i ∈ pre -> keys !!! i < k) ->
  match insert_walk keys k (last pre) rest with
  | None => exists i, i ∈ rest /\ keys !!! i = k
  | Some p => exists a b, pre ++ rest = a ++ b /\ p = last a /\
      (forall i, i ∈ a -> keys !!! i < k) /\ (forall i, i ∈ b -> k < keys !!! i)
  end.
Proof.
  revert pre. induction rest as [|e rest IH]; intros pre Hs Hp; cbn.
  { exists pre, []. split; [done|]. split; [done|]. split; [done|]. set_solver. }
  destruct (Z.eqb_spec (keys !!! e) k) as [E|E]; [exists e; set_solver|].
  destruct (Z.ltb_spec k (keys !!! e)).
  - exists pre, (e :: rest). split; [done|]. split; [done|]. split; [done|].
    apply chain_sorted_app in Hs as (_ & [_ Hf]%StronglySorted_inv & _).
    rewrite Forall_forall in Hf. intros i [->|Hi]%elem_of_cons; [done|].
    specialize (Hf i Hi). unfold key_lt in Hf. lia.
  - specialize (IH (pre ++ [e])). rewrite last_snoc in IH. rewrite <- app_assoc in IH.
    cbn in IH. specialize (IH Hs). destruct insert_walk.
    + apply IH. intros i [Hi| ->%list_elem_of_singleton]%elem_of_app; [by apply Hp|lia].
    + destruct IH as (i & Hi & Hk); [|exists i; set_solver].
      intros i [Hi| ->%list_elem_of_singleton]%elem_of_app; [by apply Hp|lia].
Qed.

Lemma insert_between keys item a b :
  chain_sorted keys (a ++ b) ->
  match last a with Some p => list_add_after p item (a ++ b) | None => item :: a ++ b end =
  a ++ item :: b.
Proof.
  intros Hs. destruct a as [|p a _] using rev_ind; [done|].
  rewrite last_snoc, <- app_assoc. cbn. rewrite list_add_after_mid, <- app_assoc; [done|].
  apply chain_sorted_app in Hs as ((_ & _ & Hs)%chain_sorted_app & _).
  intros Hp. specialize (Hs p p Hp). rewrite list_elem_of_singleton in Hs. lia.
Qed.

(** ** The table *)

Definition items (ht : drm_open_hash) : list item_id :=
  match table ht with Some (_, t) => concat t | None => [] end.

(** The abstract map. *)
Definition habs (keys : keys_t) (ht : drm_open_hash) : gmap Z item_id :=
  list_to_map ((fun i => (keys !!! i, i)) <$> items ht).

Section refinement.
Context {H : hashtab_h} {Hok : hashtab_h_ok H}.

Definition chains_ok (keys : keys_t) (ord : Z) (off : nat) (t : list (list item_id)) : Prop :=
  forall h c, t !! h = Some c ->
    chain_sorted keys c /\ forall i, i ∈ c -> hash_long (keys !!! i) ord = Z.of_nat (off + h).

Record ht_wf (keys : keys_t) (ord : Z) (ht : drm_open_hash) : Prop := {
  ht_order : order ht = ord /\ 0 < ord <= 30;
  ht_table : exists k t, table ht = Some (k, t) /\ length t = Z.to_nat (2 ^ ord) /\
    chains_ok keys ord 0 t /\
    (k = if 2 ^ ord <=? heads_per_page then Kmem else Vmem)
}.

Lemma chains_keys keys ord off t :
  chains_ok keys ord off t -> NoDup ((fun i => keys !!! i) <$> concat t).
Proof.
  revert off. induction t as [|c t IH]; intros off Hc; cbn; [constructor|].
  rewrite fmap_app. apply NoDup_app. destruct (Hc 0%nat c eq_refl) as [Hs Hh].
  split; [by apply chain_sorted_keys|].
  assert (Hc' : chains_ok keys ord (S off) t).
  { intros h c' E. destruct (Hc (S h) c' E) as [? Hi]. split; [done|]. intros i Hin.
    rewrite Hi by done. f_equal. lia. }
  split; [|by eapply IH]. intros k (i & -> & Hi)%list_elem_of_fmap (j & Ej & Hj)%list_elem_of_fmap.
  apply list_elem_of_In, in_concat in Hj as (c' & Hc'' & Hj).
  apply list_elem_of_In, list_elem_of_lookup in Hc'' as [h Eh].
  destruct (Hc' h c' Eh) as [_ Hh']. specialize (Hh i Hi).
  specialize (Hh' j ltac:(by apply list_elem_of_In)). rewrite <- Ej in Hh'. lia.
Qed.

Lemma items_elem k t i : i ∈ items (mk_ht k t) <->
  exists a c h, t = Some (a, c) /\ exists l, c !! h = Some l /\ i ∈ l.
Proof.
  unfold items; cbn. destruct t as [[a c]|].
  - rewrite list_elem_of_In, in_concat. split.
    + intros (l & Hl & Hi). apply list_elem_of_In, list_elem_of_lookup in Hl as [h Eh].
      exists a, c, h. split; [done|]. exists l. split; [done|by apply list_elem_of_In].
    + intros (a' & c' & h & [= <- <-] & l & Eh & Hi). exists l.
      split; apply list_elem_of_In; [by eapply list_elem_of_lookup_2|done].
  - split; [intros Hi; by apply elem_of_nil in Hi|]. intros (? & ? & ? & ? & ?). done.
Qed.

Lemma habs_lookup keys ord ht k i :
  ht_wf keys ord ht -> habs keys ht !! k = Some i <-> i ∈ items ht /\ keys !!! i = k.
Proof.
  intros [_ (a & t & Et & _ & Hc & _)]. unfold habs, items. rewrite Et.
  apply chains_keys in Hc. rewrite <- elem_of_list_to_map.
  - rewrite list_elem_of_fmap. split; [intros (j & [= -> ->] & Hj); done|].
    intros [Hi <-]. by exists i.
  - rewrite <- list_fmap_compose. done.
Qed.

Lemma habs_none keys ord ht k :
  ht_wf keys ord ht -> habs keys ht !! k = None <-> forall i, i ∈ items ht -> keys !!! i <> k.
Proof.
  intros Hwf. rewrite eq_None_not_Some. split.
  - intros Hn i Hi Hk. apply Hn. exists i. by apply (habs_lookup _ _ _ _ _ Hwf).
  - intros Hn [i [Hi Hk]%(habs_lookup _ _ _ _ _ Hwf)]. by apply (Hn i).
Qed.

(** Two tables with the same items, up to [P] and one new binding. *)
Lemma habs_eq keys ord ht m :
  ht_wf keys ord ht ->
  (forall k i, m !! k = Some i <-> i ∈ items ht /\ keys !!! i = k) -> habs keys ht = m.
Proof.
  intros Hwf Hm. apply map_eq. intros k. apply option_eq. intros i.
  by rewrite (habs_lookup _ _ _ _ _ Hwf), Hm.
Qed.

Lemma chain_at keys ord ht k :
  ht_wf keys ord ht ->
  exists c, chain_of ht (hash_long k (order ht)) = Ok c /\ chain_sorted keys c /\
    (forall i, i ∈ c -> hash_long (keys !!! i) ord = hash_long k ord) /\
    (forall i, i ∈ c <-> i ∈ items ht /\ hash_long (keys !!! i) ord = hash_long k ord).
Proof.
  intros [[Ho Hr] (a & t & Et & Hl & Hc & _)]. destruct ht as [o tb]. cbn in Ho, Et. subst o tb.
  unfold chain_of. cbn [order table]. pose proof (hash_long_range k ord Hr) as Hh.
  destruct (lookup_lt_is_Some_2 t (Z.to_nat (hash_long k ord))) as [c Ec]; [lia|].
  exists c. rewrite Ec. destruct (Hc _ _ Ec) as [Hs Hi].
  assert (Hi' : forall i, i ∈ c -> hash_long (keys !!! i) ord = hash_long k ord).
  { intros i Hin. rewrite Hi by done. lia. }
  split; [done|]. split; [done|]. split; [done|]. intros i. rewrite items_elem. split.
  - intros Hin. split; [|by apply Hi']. exists a, t, (Z.to_nat (hash_long k ord)).
    split; [done|]. by exists c.
  - intros [(a' & t' & h & [= <- <-] & l & El & Hin) Hk]. destruct (Hc _ _ El) as [_ Hj].
    specialize (Hj i Hin). replace (Z.to_nat (hash_long k ord)) with h in Ec by lia. congruence.
Qed.

Lemma find_key_spec keys ord ht k :
  ht_wf keys ord ht ->
  drm_ht_find_key keys ht k = Ok (habs keys ht !! k).
Proof.
  intros Hwf. unfold drm_ht_find_key.
  destruct (chain_at keys ord ht k Hwf) as (c & -> & Hs & _ & Hc). cbn. f_equal. symmetry.
  destruct (find_in_chain keys k c) as [i|] eqn:E.
  - apply find_in_chain_some in E as [Hi Hk]. apply (habs_lookup _ _ _ _ _ Hwf).
    split; [|done]. by apply Hc.
  - apply (habs_none _ _ _ _ Hwf). intros i Hi Hk.
    eapply find_in_chain_none; [done|done| |done]. apply Hc. split; [done|]. by rewrite Hk.
Qed.

(** Replacing the chain of [k]'s hash. *)
Lemma set_chain_wf keys ord ht k c :
  ht_wf keys ord ht -> chain_sorted keys c ->
  (forall i, i ∈ c -> hash_long (keys !!! i) ord = hash_long k ord) ->
  let ht' := set_chain ht (hash_long k (order ht)) c in
  ht_wf keys ord ht' /\
  forall i, i ∈ items ht' <->
    i ∈ c \/ (i ∈ items ht /\ hash_long (keys !!! i) ord <> hash_long k ord).
Proof.
  intros [[Ho Hr] (a & t & Et & Hl & Hc & Hk)] Hs Hi. destruct ht as [o tb]. cbn in Ho, Et.
  subst o tb. unfold set_chain. cbn [order table]. pose proof (hash_long_range k ord Hr) as Hh.
  set (h := Z.to_nat (hash_long k ord)). assert (Hlt : (h < length t)%nat) by lia. split.
  - split; [done|]. exists a, (<[h := c]> t). cbn. rewrite length_insert.
    split; [done|]. split; [done|]. split; [|done]. intros h' c' E.
    apply list_lookup_insert_Some in E as [(<- & -> & _)|[_ E]].
    + split; [done|]. intros i Hin. rewrite Hi by done. lia.
    + by apply Hc.
  - intros i. rewrite !items_elem. split.
    + intros (a' & t' & h' & [= <- <-] & l & El & Hin).
      apply list_lookup_insert_Some in El as [(<- & -> & _)|[Hne El]]; [by left|].
      right. split; [exists a, t, h'; split; [done|]; by exists l|].
      destruct (Hc _ _ El) as [_ Hj]. rewrite Hj by done. lia.
    + intros [Hin|[(a' & t' & h' & [= <- <-] & l & El & Hin) Hne]].
      * exists a, (<[h := c]> t), h. split; [done|]. exists c.
        by rewrite list_lookup_insert_eq.
      * exists a, (<[h := c]> t), h'. split; [done|]. exists l. split; [|done].
        rewrite list_lookup_insert_ne; [done|]. intros <-.
        destruct (Hc _ _ El) as [_ Hj]. specialize (Hj i Hin). lia.
Qed.

Lemma insert_item_spec keys ord ht item :
  ht_wf keys ord ht -> item ∉ items ht ->
  match habs keys ht !! (keys !!! item) with
  | Some _ => drm_ht_insert_item keys ht item = Ok (- EINVAL, ht)
  | None => exists ht', drm_ht_insert_item keys ht item = Ok (0, ht') /\ ht_wf keys ord ht' /\
      (forall i, i ∈ items ht' <-> i = item \/ i ∈ items ht)
  end.
Proof.
  intros Hwf Hni. unfold drm_ht_insert_item. set (k := keys !!! item).
  destruct (chain_at keys ord ht k Hwf) as (c & -> & Hs & Hh & Hc). cbn [mbind outcome_bind].
  pose proof (insert_walk_spec keys k [] c Hs) as Hw. cbn [last app] in Hw.
  destruct (insert_walk keys k None c) as [p|].
  - destruct Hw as (a & b & -> & -> & Ha & Hb); [set_solver|].
    destruct (habs keys ht !! k) as [i|] eqn:E.
    { apply (habs_lookup _ _ _ _ _ Hwf) in E as [Hi Hk].
      assert (Hin : i ∈ a ++ b) by (apply Hc; split; [done|by rewrite Hk]).
      apply elem_of_app in Hin as [Hin|Hin]; [specialize (Ha i Hin)|specialize (Hb i Hin)]; lia. }
    assert (Hs' : chain_sorted keys (a ++ item :: b)).
    { apply chain_sorted_app in Hs as (H1 & H2 & H3). apply chain_sorted_app.
      split; [done|]. split.
      - constructor; [done|]. apply Forall_forall. intros i Hi. by apply Hb.
      - intros x y Hx [->|Hy]%elem_of_cons; [by apply Ha|by apply H3]. }
    destruct (set_chain_wf keys ord ht k (a ++ item :: b) Hwf Hs') as [Hwf' Hit].
    { intros i. rewrite elem_of_app, elem_of_cons. intros [Hi|[->|Hi]]; [|done|];
        apply Hh; set_solver. }
    exists (set_chain ht (hash_long k (order ht)) (a ++ item :: b)). split.
    { pose proof (insert_between keys item a b Hs) as Hb'.
      destruct (last a); by rewrite Hb'. }
    split; [done|]. intros i. rewrite Hit, elem_of_app, elem_of_cons.
    specialize (Hc i). rewrite elem_of_app in Hc.
    destruct (decide (hash_long (keys !!! i) ord = hash_long k ord)); [tauto|].
    split; [tauto|]. intros [->|Hi]; [done|tauto].
  - destruct Hw as (i & Hi & Hk); [set_solver|].
    assert (E : habs keys ht !! k = Some i).
    { apply (habs_lookup _ _ _ _ _ Hwf). split; [by apply Hc|done]. }
    by rewrite E.
Qed.

Lemma del_init_spec keys ord ht item :
  ht_wf keys ord ht ->
  ht_wf keys ord (hlist_del_init ht item) /\
  forall i, i ∈ items (hlist_del_init ht item) <-> i ∈ items ht /\ i <> item.
Proof.
  intros [[Ho Hr] (a & t & Et & Hl & Hc & Hk)]. destruct ht as [o tb]. cbn in Ho, Et. subst o tb.
  unfold hlist_del_init. cbn [order table]. split.
  - split; [done|]. exists a, (list_del item <$> t). cbn. rewrite length_fmap.
    split; [done|]. split; [done|]. split; [|done]. intros h c E.
    rewrite list_lookup_fmap in E. destruct (t !! h) as [c0|] eqn:E0; [|done].
    injection E as <-. destruct (Hc _ _ E0) as [Hs Hi]. split; [by apply chain_sorted_del|].
    intros i [Hin _]%list_del_elem. by apply Hi.
  - intros i. rewrite !items_elem. split.
    + intros (a' & t' & h & [= <- <-] & l & El & Hin). rewrite list_lookup_fmap in El.
      destruct (t !! h) as [c0|] eqn:E0; [|done]. injection El as <-.
      apply list_del_elem in Hin as [Hin Hne]. split; [|done].
      exists a, t, h. split; [done|]. by exists c0.
    + intros [(a' & t' & h & [= <- <-] & l & El & Hin) Hne].
      exists a, (list_del item <$> t), h. split; [done|]. exists (list_del item l).
      rewrite list_lookup_fmap, El. split; [done|]. by apply list_del_elem.
Qed.

(** The keys of items outside the table do not matter. *)
Lemma wf_keys_ext keys keys' ord ht :
  (forall i, i ∈ items ht -> keys' !!! i = keys !!! i) ->
  ht_wf keys ord ht -> ht_wf keys' ord ht /\ habs keys' ht = habs keys ht.
Proof.
  intros He Hwf. assert (Hwf' : ht_wf keys' ord ht).
  { destruct Hwf as [Ho (a & t & Et & Hl & Hc & Hk)]. split; [done|]. exists a, t.
    split; [done|]. split; [done|]. split; [|done]. intros h c E. destruct (Hc h c E) as [Hs Hi].
    assert (Hin : forall i, i ∈ c -> keys' !!! i = keys !!! i).
    { intros i Hi'. apply He. unfold items. rewrite Et. apply list_elem_of_In, in_concat.
      exists c. split; apply list_elem_of_In; [by eapply list_elem_of_lookup_2|done]. }
    split; [by eapply chain_sorted_ext|]. intros i Hi'. rewrite Hin by done. by apply Hi. }
  split; [done|]. apply (habs_eq _ ord); [done|]. intros k i.
  rewrite (habs_lookup _ _ _ _ _ Hwf). split; intros [Hi Hk]; (split; [done|]).
  - by rewrite He.
  - by rewrite He in Hk.
Qed.

(** Insertion with the key set first, as the callers do. *)
Lemma insert_key_spec keys ord ht item k :
  ht_wf keys ord ht -> item ∉ items ht ->
  let keys' := <[item := k]> keys in
  match habs keys ht !! k with
  | Some _ => drm_ht_insert_item keys' ht item = Ok (- EINVAL, ht) /\ ht_wf keys' ord ht /\
      habs keys' ht = habs keys ht
  | None => exists ht', drm_ht_insert_item keys' ht item = Ok (0, ht') /\
      ht_wf keys' ord ht' /\ habs keys' ht' = <[k := item]> (habs keys ht)
  end.
Proof.
  intros Hwf Hni keys'.
  assert (Hex : forall i, i ∈ items ht -> keys' !!! i = keys !!! i).
  { intros i Hi. unfold keys'. rewrite lookup_total_insert_ne; [done|]. by intros ->. }
  destruct (wf_keys_ext keys keys' ord ht Hex Hwf) as [Hwf' Ha].
  pose proof (insert_item_spec keys' ord ht item Hwf' Hni) as Hi.
  assert (Ek : keys' !!! item = k) by apply lookup_total_insert_eq. rewrite Ek, Ha in Hi.
  destruct (habs keys ht !! k) as [j|] eqn:E; [done|].
  destruct Hi as (ht' & Ei & Hwf2 & Hit). exists ht'. split; [done|]. split; [done|].
  apply (habs_eq _ ord); [done|]. intros k' i. rewrite Hit, lookup_insert_Some, <- Ha.
  rewrite (habs_lookup _ _ _ _ _ Hwf'). split.
  - intros [[<- <-]|(Hne & Hin & Hk)]; [tauto|tauto].
  - intros [[->|Hin] Hk]; [left; split; congruence|]. right. split; [|done]. intros <-.
    rewrite <- Ha in E. by apply (proj1 (habs_none _ _ _ _ Hwf') E i).
Qed.

(** ** The search for a free key *)

(** The key tried for the [bits]-bit number [u]. *)
Definition please_key (shift add u : Z) : Z := ul (Z.shiftl u shift + add).

Definition please_result (keys : keys_t) (ord : Z) (ht : drm_open_hash) (item : item_id)
    (bits shift add : Z) (r : run (Z * keys_t * drm_open_hash)) : Prop :=
  exists ret keys' ht', r = Done (ret, keys', ht') /\ ht_wf keys' ord ht' /\
    ((ret = 0 /\ exists u, 0 <= u < 2 ^ bits /\ habs keys ht !! please_key shift add u = None /\
        habs keys' ht' = <[please_key shift add u := item]> (habs keys ht)) \/
     (ret = - EINVAL /\ ht' = ht /\ habs keys' ht' = habs keys ht /\
        forall u, 0 <= u < 2 ^ bits -> is_Some (habs keys ht !! please_key shift add u))).

Lemma next_unshifted bits u :
  0 < bits <= 30 -> 0 <= u < 2 ^ bits ->
  Z.land (ul (u + 1)) (ul (s32 (Z.shiftl 1 bits) - 1)) = (u + 1) mod 2 ^ bits.
Proof.
  intros Hb Hu. assert (2 ^ bits <= 2 ^ 30) by (apply Z.pow_le_mono_r; lia).
  rewrite Z.shiftl_1_l. rewrite (s32_small (2 ^ bits)) by (unfold is_s32; lia).
  rewrite !ul_small by (unfold is_ul; lia). apply land_mask; [lia|]. rewrite Z.ones_equiv. lia.
Qed.

Lemma please_loop_spec fuel keys ord ht item bits shift add first n :
  0 < bits <= 30 -> 0 <= first < 2 ^ bits -> 0 <= n < 2 ^ bits ->
  2 ^ bits - n <= Z.of_nat fuel ->
  ht_wf keys ord ht -> item ∉ items ht ->
  (forall j, 0 <= j < n -> is_Some (habs keys ht !! please_key shift add ((first + j) mod 2 ^ bits))) ->
  please_result keys ord ht item bits shift add
    (please_loop fuel keys ht item (ul (s32 (Z.shiftl 1 bits) - 1)) shift add first
       ((first + n) mod 2 ^ bits)).
Proof.
  intros Hb Hf. revert keys n. induction fuel as [|fuel IH]; intros keys n Hn Hfu Hwf Hni Hall; [lia|].
  cbn [please_loop]. set (u := (first + n) mod 2 ^ bits).
  assert (Hu : 0 <= u < 2 ^ bits) by (apply Z.mod_pos_bound; lia).
  pose proof (insert_key_spec keys ord ht item (please_key shift add u) Hwf Hni) as Hi.
  cbv zeta in Hi. fold (please_key shift add u).
  destruct (habs keys ht !! please_key shift add u) as [j|] eqn:E.
  - destruct Hi as (-> & Hwf' & Ha). cbn [run_of mbind run_bind].
    change (truth (- EINVAL)) with true. cbn iota. rewrite next_unshifted by done.
    assert (Hall' : forall j, 0 <= j < n + 1 ->
      is_Some (habs keys ht !! please_key shift add ((first + j) mod 2 ^ bits))).
    { intros i Hi. destruct (decide (i = n)) as [->|]; [fold u; by rewrite E|]. apply Hall. lia. }
    unfold u. rewrite Zplus_mod_idemp_l, <- Z.add_assoc.
    destruct (Z.eqb_spec ((first + (n + 1)) mod 2 ^ bits) first) as [Ee|Ee]; cbn [negb].
    + exists (- EINVAL), (<[item := please_key shift add u]> keys), ht. split; [done|].
      split; [done|]. right. split; [done|]. split; [done|]. split; [done|]. intros v Hv.
      assert (n + 1 = 2 ^ bits).
      { destruct (Z.lt_ge_cases (first + (n + 1)) (2 ^ bits));
          [rewrite Z.mod_small in Ee by lia; lia|].
        assert ((first + (n + 1)) mod 2 ^ bits = first + (n + 1) - 2 ^ bits) as Em.
        { symmetry. apply (Z.mod_unique _ _ 1); lia. }
        lia. }
      specialize (Hall' ((v - first) mod 2 ^ bits)). rewrite Zplus_mod_idemp_r in Hall'.
      replace (first + (v - first)) with v in Hall' by lia. rewrite (Z.mod_small v) in Hall' by lia.
      apply Hall'. pose proof (Z.mod_pos_bound (v - first) (2 ^ bits)). lia.
    + assert (n + 1 <> 2 ^ bits).
      { intros En. apply Ee. rewrite En, Z.add_mod, Z_mod_same_full, Z.add_0_r, Z.mod_mod by lia.
        apply Z.mod_small; lia. }
      destruct (IH (<[item := please_key shift add u]> keys) (n + 1))
        as (ret & keys2 & ht2 & Er & Hwf2 & Hr); [lia|lia|done|done|by rewrite Ha|].
      exists ret, keys2, ht2. rewrite Ha in Hr. done.
  - destruct Hi as (ht' & -> & Hwf' & Ha). cbn.
    eexists 0, _, ht'. split; [done|]. split; [done|]. left. split; [done|]. by exists u.
Qed.

(** ** Refinement *)

Inductive ht_op :=
| HInsert (item : item_id) (key : Z)
| HPlease (item : item_id) (seed bits shift add : Z)
| HRemoveKey (key : Z)
| HRemoveItem (item : item_id).

Definition ht_run (keys : keys_t) (ht : drm_open_hash) (op : ht_op)
    : run (Z * keys_t * drm_open_hash) :=
  match op with
  | HInsert item key =>
      let keys := <[item := key]> keys in
      '(ret, ht) ← run_of (drm_ht_insert_item keys ht item); Done (ret, keys, ht)
  | HPlease item seed bits shift add =>
      drm_ht_just_insert_please (Z.to_nat (2 ^ bits)) keys ht item seed bits shift add
  | HRemoveKey key =>
      '(ret, ht) ← run_of (drm_ht_remove_key keys ht key); Done (ret, keys, ht)
  | HRemoveItem item =>
      let '(ret, ht) := drm_ht_remove_item ht item in Done (ret, keys, ht)
  end.

(** An item that is inserted is not in the table yet. *)
Definition ht_op_ok (ht : drm_open_hash) (op : ht_op) : Prop :=
  match op with
  | HInsert item _ => item ∉ items ht
  | HPlease item _ bits _ _ => item ∉ items ht /\ 0 < bits <= 30
  | _ => True
  end.

(** The abstract map of keys to items. *)
Inductive ht_astep (m : gmap Z item_id) : ht_op -> Z -> gmap Z item_id -> Prop :=
| ht_insert_new item k :
    m !! k = None -> ht_astep m (HInsert item k) 0 (<[k := item]> m)
| ht_insert_taken item k :
    is_Some (m !! k) -> ht_astep m (HInsert item k) (- EINVAL) m
| ht_please_found item seed bits shift add u :
    0 <= u < 2 ^ bits -> m !! please_key shift add u = None ->
    ht_astep m (HPlease item seed bits shift add) 0 (<[please_key shift add u := item]> m)
| ht_please_full item seed bits shift add :
    (forall u, 0 <= u < 2 ^ bits -> is_Some (m !! please_key shift add u)) ->
    ht_astep m (HPlease item seed bits shift add) (- EINVAL) m
| ht_remove_key k :
    is_Some (m !! k) -> ht_astep m (HRemoveKey k) 0 (delete k m)
| ht_remove_nokey k :
    m !! k = None -> ht_astep m (HRemoveKey k) (- EINVAL) m
| ht_remove_item item m' :
    (forall k i, m' !! k = Some i <-> m !! k = Some i /\ i <> item) ->
    ht_astep m (HRemoveItem item) 0 m'.

Inductive ht_reachable (ord : Z) : keys_t -> drm_open_hash -> Prop :=
| ht_reach_create keys kok vok ht :
    drm_ht_create kok vok ord = (0, ht) -> ht_reachable ord keys ht
| ht_reach_step keys ht op ret keys' ht' :
    ht_reachable ord keys ht -> ht_op_ok ht op ->
    ht_run keys ht op = Done (ret, keys', ht') -> ht_reachable ord keys' ht'.

Lemma ht_run_refines keys ord ht op :
  ht_wf keys ord ht -> ht_op_ok ht op ->
  exists ret keys' ht', ht_run keys ht op = Done (ret, keys', ht') /\
    ht_wf keys' ord ht' /\ ht_astep (habs keys ht) op ret (habs keys' ht').
Proof.
  intros Hwf Hop. destruct op as [item k|item seed bits shift add|k|item]; cbn in Hop; cbn [ht_run].
  - pose proof (insert_key_spec keys ord ht item k Hwf Hop) as Hi. cbv zeta in Hi.
    destruct (habs keys ht !! k) eqn:E.
    + destruct Hi as (-> & Hwf' & Ha). cbn. eexists _, _, _. split; [done|]. split; [done|].
      rewrite Ha. constructor. by rewrite E.
    + destruct Hi as (ht' & -> & Hwf' & Ha). cbn. eexists _, _, _. split; [done|]. split; [done|].
      rewrite Ha. by constructor.
  - destruct Hop as [Hni Hb]. unfold drm_ht_just_insert_please.
    pose proof (hash_long_range seed bits Hb) as Hh.
    assert (Hz : hash_long seed bits = (hash_long seed bits + 0) mod 2 ^ bits)
      by (rewrite Z.add_0_r, Z.mod_small; lia).
    destruct (please_loop_spec (Z.to_nat (2 ^ bits)) keys ord ht item bits shift add
      (hash_long seed bits) 0) as (ret & keys' & ht' & Er & Hwf' & Hr); [done..|lia|lia|done|done|lia|].
    rewrite <- Hz in Er. exists ret, keys', ht'. split; [done|]. split; [done|].
    destruct Hr as [(-> & u & Hu & Hn & ->)|(-> & -> & -> & Hall)]; by constructor.
  - unfold drm_ht_remove_key. rewrite (find_key_spec _ _ _ _ Hwf).
    destruct (habs keys ht !! k) as [i|] eqn:E; cbn.
    + destruct (del_init_spec keys ord ht i Hwf) as [Hwf' Hit].
      eexists _, _, _. split; [done|]. split; [done|].
      assert (Ha : habs keys (hlist_del_init ht i) = delete k (habs keys ht)).
      { apply (habs_eq _ ord); [done|]. intros k' j.
        rewrite Hit, lookup_delete_Some, (habs_lookup _ _ _ _ _ Hwf).
        pose proof E as E'. apply (habs_lookup _ _ _ _ _ Hwf) in E' as [Hi Hk]. split.
        - intros (Hne & Hj & Hkj). split; [|done]. split; [done|]. congruence.
        - intros [[Hj Hne] Hkj]. split; [|done]. intros <-. apply Hne.
          assert (habs keys ht !! k = Some j) by (by apply (habs_lookup _ _ _ _ _ Hwf)). congruence. }
      rewrite Ha. constructor. by rewrite E.
    + eexists _, _, _. split; [done|]. split; [done|]. by constructor.
  - destruct (del_init_spec keys ord ht item Hwf) as [Hwf' Hit]. cbn.
    eexists _, _, _. split; [done|]. split; [done|]. constructor. intros k i.
    rewrite (habs_lookup _ _ _ _ _ Hwf), (habs_lookup _ _ _ _ _ Hwf'), Hit. tauto.
Qed.

Lemma create_wf keys kok vok ord ht :
  0 < ord <= 30 -> drm_ht_create kok vok ord = (0, ht) ->
  ht_wf keys ord ht /\ habs keys ht = ∅.
Proof.
  intros Ho. unfold drm_ht_create. assert (2 ^ ord <= 2 ^ 30) by (apply Z.pow_le_mono_r; lia).
  assert (0 < 2 ^ ord) by (apply Z.pow_pos_nonneg; lia).
  rewrite Z.shiftl_1_l, (u32_small (2 ^ ord)) by (unfold is_u32; lia).
  set (z := replicate _ []). intros Hc.
  assert (exists k, ht = mk_ht ord (Some (k, z)) /\ k = if 2 ^ ord <=? heads_per_page then Kmem else Vmem)
    as (k & -> & Hk).
  { destruct (2 ^ ord <=? heads_per_page), kok, vok; simplify_eq; by eexists. }
  assert (Hz : forall i, i ∉ items (mk_ht ord (Some (k, z)))).
  { intros i (a & c & h & [= <- <-] & l & El & Hi)%items_elem.
    apply lookup_replicate in El as [-> _]. by apply elem_of_nil in Hi. }
  assert (Hwf : ht_wf keys ord (mk_ht ord (Some (k, z)))).
  { split; [done|]. exists k, z. split; [done|]. split; [apply length_replicate|]. split; [|done].
    intros h c Eh. apply lookup_replicate in Eh as [-> _]. split; [constructor|]. set_solver. }
  split; [done|]. apply (habs_eq _ ord); [done|]. intros k' i. rewrite lookup_empty.
  split; [done|]. intros [Hi _]. by apply Hz in Hi.
Qed.

Lemma ht_reachable_wf ord keys ht : 0 < ord <= 30 -> ht_reachable ord keys ht -> ht_wf keys ord ht.
Proof.
  intros Ho. induction 1 as [keys kok vok ht Hc|keys ht op ret keys' ht' _ IH Hop Hr].
  - by eapply create_wf.
  - destruct (ht_run_refines keys ord ht op IH Hop) as (r & k & h & E & Hwf & _). congruence.
Qed.

(** C31: refinement.  From [drm_ht_create], after any sequence of insertions
    (with a given key or with any free key), removals by key and by item, the
    table is a finite map from keys to items: a lookup returns the item bound
    to the key or -EINVAL, every operation returns without leaving the table
    and changes the map as specified; in particular the search for a free key
    ends, and fails only when all the keys it may use are taken; and the table
    is given back to the allocator it came from. *)
Theorem hashtab_refines ord keys ht op key :
  0 < ord <= 30 -> ht_reachable ord keys ht -> ht_op_ok ht op ->
  (exists ret keys' ht', ht_run keys ht op = Done (ret, keys', ht') /\
     ht_reachable ord keys' ht' /\ ht_astep (habs keys ht) op ret (habs keys' ht')) /\
  drm_ht_find_item keys ht key =
    Ok (match habs keys ht !! key with Some i => (0, Some i) | None => (- EINVAL, None) end) /\
  exists k t, table ht = Some (k, t) /\ drm_ht_remove ht = (Some k, mk_ht ord None).
Proof.
  intros Ho Hre Hop. pose proof (ht_reachable_wf _ _ _ Ho Hre) as Hwf.
  destruct (ht_run_refines keys ord ht op Hwf Hop) as (ret & keys' & ht' & E & _ & Ha).
  split; [exists ret, keys', ht'; split; [done|]; split; [by eapply ht_reach_step|done]|]. split.
  - unfold drm_ht_find_item. change (drm_ht_find_key_rcu keys ht key) with (drm_ht_find_key keys ht key).
    rewrite (find_key_spec _ _ _ _ Hwf). by destruct (habs keys ht !! key).
  - destruct Hwf as [[Hor Hr] (k & t & Et & _ & _ & ->)]. eexists _, t. split; [exact Et|].
    unfold drm_ht_remove. rewrite Et, Hor. do 2 f_equal. unfold truth.
    rewrite Z.shiftr_div_pow2 by lia. assert (0 < 2 ^ ord) by (apply Z.pow_pos_nonneg; lia).
    pose proof heads_per_page_pos.
    destruct (Z.leb_spec (2 ^ ord) heads_per_page) as [Hle|Hlt].
    + assert (1 <= heads_per_page / 2 ^ ord) by (apply Z.div_le_lower_bound; lia).
      destruct (Z.eqb_spec (heads_per_page / 2 ^ ord) 0); [lia|done].
    + by rewrite Z.div_small.
Qed.
End refinement.

(** Two inserted items whose keys collide in a table of two chains. *)
Definition ht_sample : drm_open_hash := mk_ht 1 (Some (Kmem, [[1%nat; 2%nat]; []])).
Definition keys_sample : keys_t := {[1%nat := 4; 2%nat := 6]}.

Lemma hashtab_refines_witness :
  (exists ret keys' ht',
     ht_run (H := hashtab_h_sample) keys_sample ht_sample (HPlease 3%nat 4 2 1 0) = Done (ret, keys', ht') /\
     ht_astep (habs keys_sample ht_sample) (HPlease 3%nat 4 2 1 0) ret (habs keys' ht')) /\
  drm_ht_find_item (H := hashtab_h_sample) keys_sample ht_sample 6 = Ok (0, Some 2%nat).
Proof.
  assert (Hr : ht_reachable (H := hashtab_h_sample) 1 keys_sample ht_sample).
  { eapply (ht_reach_step (H := hashtab_h_sample) 1 {[1%nat := 4]}
      (mk_ht 1 (Some (Kmem, [[1%nat]; []]))) (HInsert 2%nat 6)); [|cbn; set_solver|vm_compute; reflexivity].
    eapply (ht_reach_step (H := hashtab_h_sample) 1 ∅ (mk_ht 1 (Some (Kmem, [[]; []])))
      (HInsert 1%nat 4)); [|cbn; set_solver|vm_compute; reflexivity].
    eapply (ht_reach_create (H := hashtab_h_sample) 1 _ true true). reflexivity. }
  destruct (hashtab_refines (H := hashtab_h_sample) (Hok := hashtab_h_sample_ok) 1 keys_sample
    ht_sample (HPlease 3%nat 4 2 1 0) 6) as ((ret & keys' & ht' & E & _ & Ha) & Hf & _);
    [lia|exact Hr|split; [cbn; set_solver|lia]|].
  split; [exists ret, keys', ht'; split; [exact E|exact Ha]|]. rewrite Hf. reflexivity.
Defined.
