(* ===== verification/DrmVma.v ===== *)
(** * The mmap offset manager: drm_vma_manager.c

    The manager hands out page offsets from a range allocator and finds a node
    by an address through a red-black tree ordered by start; each node has a
    second tree with the open files that may map it.  The manager is written
    against an interface of the allocator, [range_alloc], which drm_mm.c
    implements; the kernel's red-black tree library, which is not in the
    repository, rebalances trees without changing the order of their entries
    and is the parameter [rbtree].  Locks are not modelled: each operation
    holds the lock for all of its steps. *)

From S2P Require Import Prelude DrmMm.

(** ** Red-black trees, without their colours *)

Inductive tree (A : Type) :=
| Leaf
| Node (l : tree A) (x : A) (r : tree A).
Arguments Leaf {A}.
Arguments Node {A} l x r.

Fixpoint elements {A} (t : tree A) : list A :=
  match t with Leaf => [] | Node l x r => elements l ++ x :: elements r end.

Class rbtree := {
  (** rebalance after the entry was linked in as a leaf *)
  rb_insert_color : forall {A}, tree A -> A -> tree A;
  rb_erase : forall {A} `{EqDecision A}, tree A -> A -> tree A
}.

(** ** What the manager uses of the allocator *)
Class range_alloc (S : Type) := {
  ra_init : Z -> Z -> S;
  ra_takedown : S -> bool;
  ra_node_allocated : S -> node_id -> bool;
  (** [drm_mm_insert_node] with [DRM_MM_SEARCH_DEFAULT]: size, alignment *)
  ra_insert_node : S -> node_id -> Z -> Z -> outcome (Z * S);
  ra_remove_node : S -> node_id -> outcome S;
  (** [memset] of the node structure to 0 *)
  ra_clear_node : S -> node_id -> S;
  ra_start : S -> node_id -> Z;
  ra_size : S -> node_id -> Z
}.

Section manager.
Context {S : Type} {RA : range_alloc S} {RB : rbtree}.

(** [struct drm_vma_offset_manager]. *)
Record drm_vma_offset_manager := mk_mgr {
  vm_addr_space_mm : S;
  vm_addr_space_rb : tree node_id
}.

Definition drm_vma_offset_manager_init (page_offset size : Z) : drm_vma_offset_manager :=
  mk_mgr (ra_init page_offset size) Leaf.

(** Returns whether the allocator warns that it is not clean. *)
Definition drm_vma_offset_manager_destroy (mgr : drm_vma_offset_manager) : bool :=
  ra_takedown (vm_addr_space_mm mgr).

(** The loop of the lookup. *)
Fixpoint lookup_walk (mm : S) (start : Z) (iter : tree node_id) (best : option node_id)
    : option node_id :=
  match iter with
  | Leaf => best
  | Node rb_left node rb_right =>
      let offset := ra_start mm node in
      if offset <=? start then
        if start =? offset then Some node
        else lookup_walk mm start rb_right (Some node)
      else lookup_walk mm start rb_left best
  end.

Definition drm_vma_offset_lookup_locked (mgr : drm_vma_offset_manager) (start pages : Z)
    : option node_id :=
  let mm := vm_addr_space_mm mgr in
  match lookup_walk mm start (vm_addr_space_rb mgr) None with
  | None => None
  | Some best =>
      let offset := ul (ra_start mm best + ra_size mm best) in
      if offset <? ul (start + pages) then None else Some best
  end.

Definition drm_vma_offset_lookup (mgr : drm_vma_offset_manager) (start pages : Z)
    : option node_id :=
  drm_vma_offset_lookup_locked mgr start pages.

(** The walk to the place of the new leaf; two nodes with one start are a
    [BUG()]. *)
Fixpoint add_rb_walk (mm : S) (node : node_id) (iter : tree node_id) : outcome (tree node_id) :=
  match iter with
  | Leaf => Ok (Node Leaf node Leaf)
  | Node rb_left iter_node rb_right =>
      if ra_start mm node <? ra_start mm iter_node then
        l ← add_rb_walk mm node rb_left; Ok (Node l iter_node rb_right)
      else if ra_start mm iter_node <? ra_start mm node then
        r ← add_rb_walk mm node rb_right; Ok (Node rb_left iter_node r)
      else Bug
  end.

Definition _drm_vma_offset_add_rb (mgr : drm_vma_offset_manager) (node : node_id)
    : outcome drm_vma_offset_manager :=
  t ← add_rb_walk (vm_addr_space_mm mgr) node (vm_addr_space_rb mgr);
  Ok (mk_mgr (vm_addr_space_mm mgr) (rb_insert_color t node)).

Definition drm_vma_offset_add (mgr : drm_vma_offset_manager) (node : node_id) (pages : Z)
    : outcome (Z * drm_vma_offset_manager) :=
  if ra_node_allocated (vm_addr_space_mm mgr) node then Ok (0, mgr)
  else
    '(ret, mm) ← ra_insert_node (vm_addr_space_mm mgr) node pages 0;
    let mgr := mk_mgr mm (vm_addr_space_rb mgr) in
    if truth ret then Ok (ret, mgr)
    else
      mgr ← _drm_vma_offset_add_rb mgr node;
      Ok (ret, mgr).

Definition drm_vma_offset_remove (mgr : drm_vma_offset_manager) (node : node_id)
    : outcome drm_vma_offset_manager :=
  if ra_node_allocated (vm_addr_space_mm mgr) node then
    let rb := rb_erase (vm_addr_space_rb mgr) node in
    mm ← ra_remove_node (vm_addr_space_mm mgr) node;
    Ok (mk_mgr (ra_clear_node mm node) rb)
  else Ok mgr.
End manager.
Arguments drm_vma_offset_manager S : clear implicits.

(** ** The open files of a node

    An entry of the tree [vm_files] is a pair of [vm_filp] and [vm_count]. *)
Section files.
Context {RB : rbtree}.

(** The loop of [drm_vma_node_allow]: either the entry's count is incremented
    ([true]), or a new entry is linked where the walk ended ([false]). *)
Fixpoint allow_walk (filp : Z) (iter : tree (Z * Z)) : bool * tree (Z * Z) :=
  match iter with
  | Leaf => (false, Node Leaf (filp, 1) Leaf)
  | Node rb_left (vm_filp, vm_count) rb_right =>
      if filp =? vm_filp then (true, Node rb_left (vm_filp, ul (vm_count + 1)) rb_right)
      else if vm_filp <? filp then
        let '(found, r) := allow_walk filp rb_right in
        (found, Node rb_left (vm_filp, vm_count) r)
      else
        let '(found, l) := allow_walk filp rb_left in
        (found, Node l (vm_filp, vm_count) rb_right)
  end.

Definition drm_vma_node_allow (kmalloc_ok : bool) (vm_files : tree (Z * Z)) (filp : Z)
    : Z * tree (Z * Z) :=
  let '(found, t) := allow_walk filp vm_files in
  if found then (0, t)
  else if negb kmalloc_ok then (- ENOMEM, vm_files)
  else (0, rb_insert_color t (filp, 1)).

(** The loop of [drm_vma_node_revoke]: the tree with the count decremented,
    and the entry to erase when it dropped to zero. *)
Fixpoint revoke_walk (filp : Z) (iter : tree (Z * Z)) : option (Z * Z) * tree (Z * Z) :=
  match iter with
  | Leaf => (None, Leaf)
  | Node rb_left (vm_filp, vm_count) rb_right =>
      if filp =? vm_filp then
        let vm_count := ul (vm_count - 1) in
        (if negb (truth vm_count) then Some (vm_filp, vm_count) else None,
         Node rb_left (vm_filp, vm_count) rb_right)
      else if vm_filp <? filp then
        let '(e, r) := revoke_walk filp rb_right in (e, Node rb_left (vm_filp, vm_count) r)
      else
        let '(e, l) := revoke_walk filp rb_left in (e, Node l (vm_filp, vm_count) rb_right)
  end.

Definition drm_vma_node_revoke (vm_files : tree (Z * Z)) (filp : Z) : tree (Z * Z) :=
  let '(e, t) := revoke_walk filp vm_files in
  match e with Some entry => rb_erase t entry | None => t end.

Fixpoint drm_vma_node_is_allowed (iter : tree (Z * Z)) (filp : Z) : bool :=
  match iter with
  | Leaf => false
  | Node rb_left (vm_filp, _) rb_right =>
      if filp =? vm_filp then true
      else if vm_filp <? filp then drm_vma_node_is_allowed rb_right filp
      else drm_vma_node_is_allowed rb_left filp
  end.
End files.
