(* ===== verification/DrmVmaProps.v ===== *)
(** * The mmap offset manager: interface, refinement, lookup

    The laws the manager needs of a range allocator ([range_alloc_ok]) and of
    the red-black tree library ([rbtree_ok]), the theorems on the manager that
    follow from them, and the instance for drm_mm.c that discharges them. *)

From stdpp Require Import sorting.
From S2P Require Import Prelude DrmMm DrmMmSpec DrmMmThms DrmMmScan DrmMmProps DrmVma.

(** ** Interfaces *)

(** Rebalancing keeps the entries in order; erasing drops one. *)
Class rbtree_ok (RB : rbtree) : Prop := {
  rb_insert_elements {A} (t : tree A) x : elements (rb_insert_color t x) = elements t;
  rb_erase_elements {A} `{EqDecision A} (t : tree A) (x : A) :
    elements (rb_erase t x) = list_del x (elements t)
}.

(** A sample that does not rebalance, for the witnesses. *)
Definition rbtree_sample : rbtree := {|
  rb_insert_color A t x := t;
  rb_erase A _ t x := foldr (fun y r => Node Leaf y r) Leaf (list_del x (elements t))
|}.

Lemma rbtree_sample_ok : rbtree_ok rbtree_sample.
Proof.
  split; [done|]. intros A ? t x. cbn. induction (list_del x (elements t)) as [|y l IH]; [done|].
  cbn. by rewrite IH.
Qed.

(** The promises of an allocator to its client: the nodes it serves ([node_ok]
    ones) hold disjoint non-empty ranges between [base] and [top]; a request is
    refused only when no free range is large enough. *)
Class range_alloc_ok (S : Type) (RA : range_alloc S) := {
  ra_inv : Z -> Z -> S -> Prop;
  ra_map : S -> gmap node_id (Z * Z);
  ra_init_law start size :
    0 <= start -> 0 < size -> start + size + 2 ^ 32 <= 2 ^ 64 ->
    ra_inv start (start + size) (ra_init start size) /\ ra_map (ra_init start size) = ∅;
  ra_fields_law base top s n st z :
    ra_inv base top s -> ra_map s !! n = Some (st, z) ->
    ra_start s n = st /\ ra_size s n = z /\ 0 <= st /\ 0 < z /\ st + z < 2 ^ 64;
  ra_disjoint_law base top s : ra_inv base top s -> a_disjoint (ra_map s);
  ra_allocated_law base top s n :
    ra_inv base top s -> n <> HEAD ->
    ra_node_allocated s n = bool_decide (is_Some (ra_map s !! n));
  ra_insert_law base top s n pages :
    ra_inv base top s -> n <> HEAD -> ra_map s !! n = None -> 0 < pages ->
    (ra_insert_node s n pages 0 = Ok (- ENOSPC, s) /\
     forall st, ~ a_free base top (ra_map s) st pages) \/
    (exists s' st, ra_insert_node s n pages 0 = Ok (0, s') /\ ra_inv base top s' /\
       a_free base top (ra_map s) st pages /\ ra_map s' = <[n := (st, pages)]> (ra_map s));
  ra_remove_law base top s n :
    ra_inv base top s -> n <> HEAD -> is_Some (ra_map s !! n) ->
    exists s', ra_remove_node s n = Ok s' /\ ra_inv base top (ra_clear_node s' n) /\
      ra_map (ra_clear_node s' n) = delete n (ra_map s);
  ra_takedown_law base top s :
    ra_inv base top s -> ra_takedown s = negb (bool_decide (ra_map s = ∅))
}.

(** ** The manager, against the interfaces *)
Section manager.
Context {S : Type} {RA : range_alloc S} {RAok : range_alloc_ok S RA}.
Context {RB : rbtree} {RBok : rbtree_ok RB}.

Definition start_lt (f : node_id -> Z) (a b : node_id) : Prop := f a < f b.

Record mgr_ok (base top : Z) (mgr : drm_vma_offset_manager S) : Prop := {
  mgr_mm : ra_inv base top (vm_addr_space_mm mgr);
  mgr_sorted : StronglySorted (start_lt (ra_start (vm_addr_space_mm mgr)))
                 (elements (vm_addr_space_rb mgr));
  mgr_elem n : n ∈ elements (vm_addr_space_rb mgr) <-> is_Some (ra_map (vm_addr_space_mm mgr) !! n);
  mgr_head : ra_map (vm_addr_space_mm mgr) !! HEAD = None
}.

Lemma sorted_app (f : node_id -> Z) a x b :
  StronglySorted (start_lt f) (a ++ x :: b) <->
  StronglySorted (start_lt f) a /\ StronglySorted (start_lt f) b /\
  (forall y, y ∈ a -> f y < f x) /\ (forall y, y ∈ b -> f x < f y).
Proof.
  split.
  - intros Hs. apply StronglySorted_app in Hs as (H3 & H1 & H2).
    apply StronglySorted_inv in H2 as [H2 H4]. rewrite Forall_forall in H4.
    split; [done|]. split; [done|]. split; [|done]. intros y Hy. apply H3; set_solver.
  - intros (H1 & H2 & H3 & H4). apply StronglySorted_app.
    split; [|split; [done|]; constructor; [done|by apply Forall_forall]].
    intros y z Hy Hz. unfold start_lt. apply elem_of_cons in Hz as [->|Hz]; [by apply H3|].
    specialize (H3 y Hy). specialize (H4 z Hz). lia.
Qed.

(** The walk ends at the last entry that starts at or before [start]. *)
Lemma lookup_walk_spec mm start t best :
  StronglySorted (start_lt (ra_start mm)) (elements t) ->
  match lookup_walk mm start t best with
  | Some n => (n ∈ elements t /\ ra_start mm n <= start /\
               forall m, m ∈ elements t -> ra_start mm m <= start -> ra_start mm m <= ra_start mm n) \/
              (best = Some n /\ forall m, m ∈ elements t -> start < ra_start mm m)
  | None => best = None /\ forall m, m ∈ elements t -> start < ra_start mm m
  end.
Proof.
  revert best. induction t as [|l IHl x r IHr]; intros best Hs; cbn.
  { destruct best; [right|]; (split; [done|]; set_solver). }
  apply sorted_app in Hs as (Hl & Hr & Hlx & Hxr).
  destruct (Z.leb_spec (ra_start mm x) start).
  - destruct (Z.eqb_spec start (ra_start mm x)) as [He|He].
    + left. split; [set_solver|]. split; [lia|]. intros m _ Hm. lia.
    + specialize (IHr (Some x) Hr). destruct (lookup_walk mm start r (Some x)) as [n|].
      * left. destruct IHr as [(Hn & Hle & Hmax)|[[= ->] Hno]].
        -- split; [set_solver|]. split; [done|]. intros m Hm Hms.
           apply elem_of_app in Hm as [Hm|[->|Hm]%elem_of_cons]; [|specialize (Hxr n Hn); lia|by apply Hmax].
           specialize (Hlx m Hm). specialize (Hxr n Hn). lia.
        -- split; [set_solver|]. split; [done|]. intros m Hm Hms.
           apply elem_of_app in Hm as [Hm|[->|Hm]%elem_of_cons]; [|done|specialize (Hno m Hm); lia].
           specialize (Hlx m Hm). lia.
      * by destruct IHr.
  - assert (Hgt : forall m, m ∈ x :: elements r -> start < ra_start mm m).
    { intros m [->|Hm]%elem_of_cons; [done|]. specialize (Hxr m Hm). lia. }
    specialize (IHl best Hl). destruct (lookup_walk mm start l best) as [n|].
    + destruct IHl as [(Hn & Hle & Hmax)|[Hb Hno]].
      * left. split; [set_solver|]. split; [done|]. intros m Hm Hms.
        apply elem_of_app in Hm as [Hm|Hm]; [by apply Hmax|]. specialize (Hgt m Hm). lia.
      * right. split; [done|]. intros m [Hm|Hm]%elem_of_app; [by apply Hno|by apply Hgt].
    + destruct IHl as [Hb Hno]. split; [done|].
      intros m [Hm|Hm]%elem_of_app; [by apply Hno|by apply Hgt].
Qed.

Lemma add_rb_walk_spec mm node t :
  StronglySorted (start_lt (ra_start mm)) (elements t) ->
  (forall m, m ∈ elements t -> ra_start mm m <> ra_start mm node) ->
  exists t', add_rb_walk mm node t = Ok t' /\
    StronglySorted (start_lt (ra_start mm)) (elements t') /\
    (forall m, m ∈ elements t' <-> m = node \/ m ∈ elements t).
Proof.
  induction t as [|l IHl x r IHr]; intros Hs Hne; cbn.
  { eexists. split; [done|]. split; [repeat constructor|]. cbn. set_solver. }
  cbn in Hs, Hne. apply sorted_app in Hs as (Hl & Hr & Hlx & Hxr).
  destruct (Z.ltb_spec (ra_start mm node) (ra_start mm x)).
  - destruct IHl as (l' & -> & Hs' & He'); [done|set_solver|]. eexists. split; [done|]. cbn.
    split; [|set_solver]. apply sorted_app. split; [done|]. split; [done|]. split; [|done].
    intros y [->|Hy]%He'; [done|by apply Hlx].
  - destruct (Z.ltb_spec (ra_start mm x) (ra_start mm node)).
    + destruct IHr as (r' & -> & Hs' & He'); [done|set_solver|]. eexists. split; [done|]. cbn.
      split; [|set_solver]. apply sorted_app. split; [done|]. split; [done|]. split; [done|].
      intros y [->|Hy]%He'; [done|by apply Hxr].
    + exfalso. apply (Hne x); [set_solver|lia].
Qed.

Lemma sorted_ext (f g : node_id -> Z) l :
  (forall n, n ∈ l -> f n = g n) -> StronglySorted (start_lt f) l -> StronglySorted (start_lt g) l.
Proof.
  induction l as [|a l IH]; intros He Hs; [constructor|].
  apply StronglySorted_inv in Hs as [Hs Hf]. constructor; [apply IH; [set_solver|done]|].
  rewrite Forall_forall in Hf |- *. intros b Hb. specialize (Hf b Hb). unfold start_lt in *.
  rewrite <- !He by set_solver. done.
Qed.

(** *** Operation sequences *)

Inductive vma_op :=
| VAdd (node : node_id) (pages : Z)
| VRemove (node : node_id).

Definition vma_run (mgr : drm_vma_offset_manager S) (op : vma_op)
    : outcome (Z * drm_vma_offset_manager S) :=
  match op with
  | VAdd n pages => drm_vma_offset_add mgr n pages
  | VRemove n => mgr' ← drm_vma_offset_remove mgr n; Ok (0, mgr')
  end.

(** What callers must keep to: a node is not the head of the allocator's list, and has
    pages. *)
Definition vma_op_ok (op : vma_op) : Prop :=
  match op with
  | VAdd n pages => n <> HEAD /\ 0 < pages
  | VRemove n => n <> HEAD
  end.

(** The abstract manager: nodes with their page ranges. *)
Inductive vma_astep (base top : Z) (m : gmap node_id (Z * Z)) :
  vma_op -> Z -> gmap node_id (Z * Z) -> Prop :=
| vma_add_again n pages :
    is_Some (m !! n) -> vma_astep base top m (VAdd n pages) 0 m
| vma_add_new n pages st :
    m !! n = None -> a_free base top m st pages ->
    vma_astep base top m (VAdd n pages) 0 (<[n := (st, pages)]> m)
| vma_add_full n pages :
    m !! n = None -> (forall st, ~ a_free base top m st pages) ->
    vma_astep base top m (VAdd n pages) (- ENOSPC) m
| vma_remove n : vma_astep base top m (VRemove n) 0 (delete n m).

Definition vma_abs (mgr : drm_vma_offset_manager S) : gmap node_id (Z * Z) :=
  ra_map (vm_addr_space_mm mgr).

Inductive vma_reachable (base size : Z) : drm_vma_offset_manager S -> Prop :=
| vma_reach_init : vma_reachable base size (drm_vma_offset_manager_init base size)
| vma_reach_step mgr op ret mgr' :
    vma_reachable base size mgr -> vma_op_ok op -> vma_run mgr op = Ok (ret, mgr') ->
    vma_reachable base size mgr'.

Lemma vma_add_ok base top mgr n pages :
  mgr_ok base top mgr -> n <> HEAD -> 0 < pages -> vma_abs mgr !! n = None ->
  (drm_vma_offset_add mgr n pages = Ok (- ENOSPC, mgr) /\
   forall st, ~ a_free base top (vma_abs mgr) st pages) \/
  (exists mgr' st, drm_vma_offset_add mgr n pages = Ok (0, mgr') /\ mgr_ok base top mgr' /\
     a_free base top (vma_abs mgr) st pages /\ vma_abs mgr' = <[n := (st, pages)]> (vma_abs mgr)).
Proof.
  intros [Hi Hs He Hh] Hn Hp Hnone. unfold vma_abs in *. unfold drm_vma_offset_add.
  rewrite (ra_allocated_law _ _ _ _ Hi Hn), Hnone. rewrite bool_decide_false by (by intros []).
  destruct (ra_insert_law _ _ _ n pages Hi Hn Hnone Hp)
    as [(-> & Hno)|(s' & st & -> & Hi' & Hf & Hm)]; cbn; [left; by destruct mgr|right].
  set (s := vm_addr_space_mm mgr) in *. set (t := vm_addr_space_rb mgr) in *.
  assert (Hst : forall m, m ∈ elements t -> ra_start s m = ra_start s' m /\ m <> n).
  { intros m Hm'. apply He in Hm' as [[sm zm] Em].
    assert (m <> n) by (intros ->; congruence). split; [|done].
    destruct (ra_fields_law _ _ _ _ _ _ Hi Em) as [-> _]. symmetry.
    eapply ra_fields_law; [done|]. by rewrite Hm, lookup_insert_ne. }
  assert (En : ra_map s' !! n = Some (st, pages)) by (rewrite Hm; apply lookup_insert_eq).
  destruct (add_rb_walk_spec s' n t) as (t' & Et & Hs' & He').
  { eapply sorted_ext; [|exact Hs]. intros m Hm'. by apply Hst. }
  { intros m Hm' Heq. destruct (Hst m Hm') as [_ Hne]. apply He in Hm' as [[sm zm] Em].
    assert (Em' : ra_map s' !! m = Some (sm, zm)) by (by rewrite Hm, lookup_insert_ne).
    destruct (ra_fields_law _ _ _ _ _ _ Hi' Em') as (E1 & _ & _ & ? & _).
    destruct (ra_fields_law _ _ _ _ _ _ Hi' En) as (E2 & _ & _ & ? & _).
    pose proof (ra_disjoint_law _ _ _ Hi' m n sm zm st pages Hne Em' En). lia. }
  unfold _drm_vma_offset_add_rb. cbn. rewrite Et. cbn.
  eexists _, st. split; [done|]. split; [|split; [done|]; exact Hm].
  split; cbn; [done| | |].
  - by rewrite rb_insert_elements.
  - intros m. rewrite rb_insert_elements, He', Hm, He.
    destruct (decide (m = n)) as [->|Hne].
    + rewrite lookup_insert_eq. split; [by eexists|by left].
    + rewrite lookup_insert_ne by done. tauto.
  - rewrite Hm, lookup_insert_ne by done. done.
Qed.

Lemma vma_remove_ok base top mgr n :
  mgr_ok base top mgr -> n <> HEAD ->
  exists mgr', drm_vma_offset_remove mgr n = Ok mgr' /\ mgr_ok base top mgr' /\
    vma_abs mgr' = delete n (vma_abs mgr).
Proof.
  intros Hok Hn. pose proof Hok as [Hi Hs He Hh]. unfold vma_abs, drm_vma_offset_remove.
  rewrite (ra_allocated_law _ _ _ _ Hi Hn). case_bool_decide as Hsome.
  - destruct (ra_remove_law _ _ _ n Hi Hn Hsome) as (s' & -> & Hi' & Hm). cbn.
    eexists. split; [done|]. split; [|done]. split; cbn; [done| | |].
    + rewrite rb_erase_elements. apply (sorted_ext (ra_start (vm_addr_space_mm mgr))).
      * intros m [Hm' Hne]%list_del_elem. apply He in Hm' as [[sm zm] Em].
        destruct (ra_fields_law _ _ _ _ _ _ Hi Em) as [-> _]. symmetry.
        eapply ra_fields_law; [done|]. by rewrite Hm, lookup_delete_ne.
      * by apply StronglySorted_filter.
    + intros m. rewrite rb_erase_elements, list_del_elem, He, Hm.
      destruct (decide (m = n)) as [->|Hne].
      * rewrite lookup_delete_eq. split; [tauto|by intros []].
      * rewrite lookup_delete_ne by done. tauto.
    + rewrite Hm. apply lookup_delete_None. by right.
  - exists mgr. split; [done|]. split; [done|]. rewrite delete_id; [done|]. by apply eq_None_not_Some.
Qed.

Lemma vma_run_refines base top mgr op :
  mgr_ok base top mgr -> vma_op_ok op ->
  exists ret mgr', vma_run mgr op = Ok (ret, mgr') /\ mgr_ok base top mgr' /\
    vma_astep base top (vma_abs mgr) op ret (vma_abs mgr').
Proof.
  intros Hok Hop. destruct op as [n pages|n]; cbn in Hop |- *.
  - destruct Hop as [Hn Hp]. destruct (vma_abs mgr !! n) as [r|] eqn:E.
    + exists 0, mgr. split; [|split; [done|]; constructor; by rewrite E].
      unfold drm_vma_offset_add. unfold vma_abs in E.
      rewrite (ra_allocated_law _ _ _ _ (mgr_mm _ _ _ Hok) Hn), E. by rewrite bool_decide_true.
    + destruct (vma_add_ok _ _ _ n pages Hok Hn Hp E) as [[-> Hno]|(mgr' & st & -> & Hok' & Hf & Ha)].
      * exists (- ENOSPC), mgr. split; [done|]. split; [done|]. by constructor.
      * exists 0, mgr'. split; [done|]. split; [done|]. rewrite Ha. by constructor.
  - destruct (vma_remove_ok _ _ _ n Hok Hop) as (mgr' & -> & Hok' & Ha). cbn.
    exists 0, mgr'. split; [done|]. split; [done|]. rewrite Ha. constructor.
Qed.

Lemma vma_reachable_ok base size mgr :
  0 <= base -> 0 < size -> base + size + 2 ^ 32 <= 2 ^ 64 ->
  vma_reachable base size mgr -> mgr_ok base (base + size) mgr.
Proof.
  intros Hb Hz Ho. induction 1 as [|mgr op ret mgr' _ IH Hop Hr].
  - destruct (ra_init_law base size Hb Hz Ho) as [Hi Hm]. split; cbn; [done|constructor| |].
    + intros n. rewrite Hm, lookup_empty. split; [set_solver|by intros []].
    + by rewrite Hm, lookup_empty.
  - destruct (vma_run_refines _ _ _ op IH Hop) as (r & m & E & Hok & _). congruence.
Qed.

(** C32: refinement.  From [drm_vma_offset_manager_init], after any sequence of
    removals and of additions of nodes of at least one page (a node of none breaks the
    tree, [zero_pages_hit_bug]), the next one hits no [BUG]: an addition of a node
    that is there returns 0 and changes nothing, a new node gets a free page
    range of the requested size, or -ENOSPC when there is none; a removal drops
    the node's range.  Taking the manager down warns exactly when a node is
    left. *)
Theorem vma_manager_refines base size mgr op :
  0 <= base -> 0 < size -> base + size + 2 ^ 32 <= 2 ^ 64 ->
  vma_reachable base size mgr -> vma_op_ok op ->
  (exists ret mgr', vma_run mgr op = Ok (ret, mgr') /\ vma_reachable base size mgr' /\
     vma_astep base (base + size) (vma_abs mgr) op ret (vma_abs mgr')) /\
  drm_vma_offset_manager_destroy mgr = negb (bool_decide (vma_abs mgr = ∅)).
Proof.
  intros Hb Hz Ho Hr Hop. pose proof (vma_reachable_ok _ _ _ Hb Hz Ho Hr) as Hok.
  destruct (vma_run_refines _ _ _ op Hok Hop) as (ret & mgr' & E & _ & Ha). split.
  - exists ret, mgr'. split; [done|]. split; [by eapply vma_reach_step|done].
  - apply (ra_takedown_law _ _ _ (mgr_mm _ _ _ Hok)).
Qed.

(** In every reachable manager the lookup returns exactly the node whose
    page range contains all the requested pages, and [NULL] when there is
    none, for requests that do not wrap around the address space. *)
Theorem vma_lookup_exact base size mgr start pages n :
  0 <= base -> 0 < size -> base + size + 2 ^ 32 <= 2 ^ 64 ->
  vma_reachable base size mgr -> 0 <= start -> 0 < pages -> start + pages < 2 ^ 64 ->
  drm_vma_offset_lookup mgr start pages = Some n <->
  exists st z, vma_abs mgr !! n = Some (st, z) /\ st <= start /\ start + pages <= st + z.
Proof.
  intros Hb Hz Ho Hr Hst Hp Hw. destruct (vma_reachable_ok _ _ _ Hb Hz Ho Hr) as [Hi Hs He Hh].
  unfold drm_vma_offset_lookup, drm_vma_offset_lookup_locked, vma_abs.
  set (s := vm_addr_space_mm mgr) in *. set (t := vm_addr_space_rb mgr) in *.
  pose proof (lookup_walk_spec s start t None Hs) as Hl.
  rewrite (ul_small (start + pages)) by (unfold is_ul; lia).
  destruct (lookup_walk s start t None) as [b|].
  - destruct Hl as [(Hbt & Hbs & Hmax)|[? _]]; [|done].
    apply He in Hbt as [[sb zb] Eb].
    destruct (ra_fields_law _ _ _ _ _ _ Hi Eb) as (E1 & E2 & Hb1 & Hb2 & Hb3). rewrite E1, E2 in *.
    rewrite ul_small by (unfold is_ul; lia). split.
    + destruct (Z.ltb_spec (sb + zb) (start + pages)); [done|]. intros [= <-].
      exists sb, zb. split; [done|]. lia.
    + intros (sn & zn & En & H1 & H2).
      destruct (ra_fields_law _ _ _ _ _ _ Hi En) as (F1 & F2 & Hn1 & Hn2 & Hn3).
      destruct (decide (b = n)) as [->|Hne].
      * rewrite Eb in En. injection En as Es Ez. by destruct (Z.ltb_spec (sb + zb) (start + pages)); [lia|].
      * pose proof (ra_disjoint_law _ _ _ Hi b n _ _ _ _ Hne Eb En).
        assert (n ∈ elements t) as Hnt by (apply He; by eexists).
        specialize (Hmax n Hnt). lia.
  - destruct Hl as [_ Hno]. split; [done|]. intros (sn & zn & En & H1 & H2).
    destruct (ra_fields_law _ _ _ _ _ _ Hi En) as (F1 & _).
    assert (n ∈ elements t) as Hnt by (apply He; by eexists). specialize (Hno n Hnt). lia.
Qed.
End manager.

(** ** The instance for drm_mm.c *)

(** Two inline functions of drm_mm.h, with what the header documents: the
    simplified insertion and the test of a node. *)
Class drm_mm_inline := {
  DRM_MM_SEARCH_DEFAULT : Z;
  DRM_MM_CREATE_DEFAULT : Z;
  drm_mm_insert_node : drm_mm -> node_id -> Z -> Z -> Z -> outcome (Z * drm_mm);
  drm_mm_node_allocated : drm_mm -> node_id -> bool
}.

Class drm_mm_inline_ok {H : drm_mm_h} (I : drm_mm_inline) : Prop := {
  insert_node_law mm n size al fl :
    drm_mm_insert_node mm n size al fl =
    drm_mm_insert_node_generic mm n size al 0 fl DRM_MM_CREATE_DEFAULT;
  node_allocated_law mm n : drm_mm_node_allocated mm n = allocated (nd mm n)
}.

Section instance.
Context {H : drm_mm_h} {Hok : drm_mm_h_ok H} {I : drm_mm_inline} {Iok : drm_mm_inline_ok I}.

#[export] Instance drm_mm_range_alloc : range_alloc drm_mm := {|
  ra_init := drm_mm_init ∅;
  ra_takedown := drm_mm_takedown;
  ra_node_allocated := drm_mm_node_allocated;
  ra_insert_node mm n size al := drm_mm_insert_node mm n size al DRM_MM_SEARCH_DEFAULT;
  ra_remove_node := drm_mm_remove_node;
  ra_clear_node mm n := upd n (fun _ => inhabitant) mm;
  ra_start mm n := nstart (nd mm n);
  ra_size mm n := nsize (nd mm n)
|}.

(** The flags that make a node fresh. *)
Definition flags_of (d : drm_mm_node) : bool * bool * bool * bool :=
  (allocated d, scanned_block d, scanned_prev_free d, scanned_next_free d).

Lemma flags_upd mm n f x :
  (n = x -> flags_of (f (nd mm n)) = flags_of (nd mm n)) ->
  flags_of (nd (upd n f mm) x) = flags_of (nd mm x).
Proof.
  intros Hf. destruct (decide (n = x)) as [->|Hne]; [by rewrite nd_upd_eq, Hf|by rewrite nd_upd_ne].
Qed.

Lemma insert_helper_flags mm hole node size al color fl mm' x :
  drm_mm_insert_helper mm hole node size al color fl = Ok mm' -> x <> node ->
  flags_of (nd mm' x) = flags_of (nd mm x).
Proof.
  intros E Hx. unfold drm_mm_insert_helper in E.
  apply outcome_bind_ok in E as (hs & _ & E).
  apply outcome_bind_ok in E as (? & _ & E).
  destruct (color_adjusted _ _ _ _) as [as_ ae].
  set (adj := if truth al then _ else _) in E. clearbody adj.
  apply outcome_bind_ok in E as (? & _ & E).
  apply outcome_bind_ok in E as (? & _ & E).
  apply outcome_bind_ok in E as (? & _ & E).
  injection E as <-. case_if; case_if;
    repeat (rewrite ?nd_set_ring, ?nd_set_hole_stack; rewrite ?flags_upd; try done).
Qed.

Lemma insert_generic_flags mm node size al color sf af ret mm' x :
  drm_mm_insert_node_generic mm node size al color sf af = Ok (ret, mm') -> x <> node ->
  flags_of (nd mm' x) = flags_of (nd mm x).
Proof.
  unfold drm_mm_insert_node_generic. intros E Hx.
  destruct (drm_mm_search_free_generic _ _ _ _ _) as [[hole|]|]; cbn in E; [| |done].
  - destruct (drm_mm_insert_helper _ _ _ _ _ _ _) eqn:Eh; cbn in E; [|done].
    injection E as <- <-. by eapply insert_helper_flags.
  - by injection E as <- <-.
Qed.

(** Rewriting a node structure that is off the ring changes nothing else. *)
Lemma clear_wf base top mm n :
  wf base top mm -> n ∉ ring mm ->
  wf base top (upd n (fun _ => inhabitant) mm) /\ abs (upd n (fun _ => inhabitant) mm) = abs mm.
Proof. apply off_ring_wf. Qed.

(** Outside a scan: well formed, no colours, and every other node cleared. *)
Definition mm_inv (base top : Z) (mm : drm_mm) : Prop :=
  wf base top mm /\ color_adjust mm = None /\
  forall n, n <> HEAD -> abs mm !! n = None -> flags_of (nd mm n) = (false, false, false, false).

Lemma abs_none_ring base top mm n :
  wf base top mm -> n <> HEAD -> abs mm !! n = None <-> n ∉ ring mm.
Proof.
  intros Hwf Hn. rewrite (abs_lookup _ _ _ _ Hwf). pose proof (ring_elem Hwf n).
  case_decide; split; intros; try done; tauto.
Qed.

Lemma mm_inv_fresh base top mm n :
  mm_inv base top mm -> n <> HEAD -> abs mm !! n = None -> fresh mm n.
Proof.
  intros (Hwf & _ & Hf) Hn E. specialize (Hf n Hn E). unfold flags_of in Hf. simplify_eq.
  split; try done. by apply (abs_none_ring _ _ _ _ Hwf).
Qed.

Lemma mm_inv_allocated base top mm n :
  mm_inv base top mm -> n <> HEAD -> allocated (nd mm n) = bool_decide (is_Some (abs mm !! n)).
Proof.
  intros Hinv Hn. pose proof Hinv as (Hwf & _ & _). destruct (abs mm !! n) as [r|] eqn:E.
  - rewrite bool_decide_true by done. rewrite (abs_lookup _ _ _ _ Hwf) in E.
    case_decide as Hin; [|done]. by destruct (node_ok_of Hwf n Hin) as (_ & _ & _ & ? & _).
  - rewrite bool_decide_false by (by intros []).
    by destruct (mm_inv_fresh _ _ _ _ Hinv Hn E).
Qed.

Lemma mm_inv_insert base top mm n pages :
  mm_inv base top mm -> n <> HEAD -> abs mm !! n = None -> 0 < pages ->
  (drm_mm_insert_node mm n pages 0 DRM_MM_SEARCH_DEFAULT = Ok (- ENOSPC, mm) /\
   forall st, ~ a_free base top (abs mm) st pages) \/
  (exists mm' st, drm_mm_insert_node mm n pages 0 DRM_MM_SEARCH_DEFAULT = Ok (0, mm') /\
     mm_inv base top mm' /\ a_free base top (abs mm) st pages /\
     abs mm' = <[n := (st, pages)]> (abs mm)).
Proof.
  intros Hinv Hn E Hp. pose proof Hinv as (Hwf & Hc & Hf). rewrite insert_node_law.
  set (op := OpInsert n pages 0 0 DRM_MM_SEARCH_DEFAULT DRM_MM_CREATE_DEFAULT).
  destruct (run_refines base top mm op Hwf Hc) as (ret & mm' & Er & Hwf' & Hc' & Ha).
  { split; [by eapply mm_inv_fresh|]. unfold is_u32. lia. }
  cbn in Er. rewrite Er. inversion Ha as [????? ? st Hal Hfree|????? ? Hno| | | | |]; subst.
  - right. exists mm', st. split; [done|]. split; [|done]. split; [done|]. split; [done|].
    intros x Hx Ex. assert (x <> n).
    { intros ->. match goal with E : <[n := _]> _ = _ |- _ => rewrite <- E in Ex end.
      by rewrite lookup_insert_eq in Ex. }
    rewrite (insert_generic_flags _ _ _ _ _ _ _ _ _ x Er) by done. apply Hf; [done|].
    match goal with E : <[n := _]> _ = _ |- _ => rewrite <- E in Ex end.
    by rewrite lookup_insert_ne in Ex.
  - left. split.
    + destruct (insert_generic_core Hwf n pages 0 0 DRM_MM_SEARCH_DEFAULT DRM_MM_CREATE_DEFAULT)
        as [[E2 _]|(mm2 & s2 & E2 & _)]; try done;
        [by eapply mm_inv_fresh|by apply color_shrinks_none| |]; rewrite E2 in Er;
        done.
    + intros st. apply Hno. by left.
Qed.

Lemma mm_inv_remove base top mm n :
  mm_inv base top mm -> n <> HEAD -> is_Some (abs mm !! n) ->
  exists mm', drm_mm_remove_node mm n = Ok mm' /\
    mm_inv base top (upd n (fun _ => inhabitant) mm') /\
    abs (upd n (fun _ => inhabitant) mm') = delete n (abs mm).
Proof.
  intros Hinv Hn Hs. pose proof Hinv as (Hwf & Hc & Hf).
  destruct (remove_core Hwf n) as (mm' & Er & Hwf' & Ha & Hfr & Hc' & Hother);
    [by apply elem_of_dom|].
  exists mm'. split; [done|].
  destruct (clear_wf base top mm' n Hwf' (fresh_off _ _ Hfr)) as [Hwf2 Ha2].
  split; [|by rewrite Ha2]. split; [done|]. split; [cbn; congruence|].
  intros x Hx Ex. destruct (decide (x = n)) as [->|Hne]; [by rewrite nd_upd_eq|].
  rewrite nd_upd_ne by done. rewrite Ha2, Ha, lookup_delete_ne in Ex by done.
  destruct (Hother x Hne (mm_inv_fresh _ _ _ _ Hinv Hx Ex)) as [_ E1 E2 E3 E4].
  unfold flags_of. by rewrite E1, E2, E3, E4.
Qed.

#[export] Program Instance drm_mm_range_alloc_ok : range_alloc_ok drm_mm drm_mm_range_alloc := {|
  ra_inv := mm_inv;
  ra_map := abs
|}.
Next Obligation.
  intros start size Hs Hz Ho. destruct (init_wf ∅ start size Hs Hz Ho) as [Hwf Ha].
  split; [|done]. split; [done|]. split; [done|]. intros n Hn _. cbn.
  unfold nd. cbn. by rewrite lookup_total_insert_ne by done.
Qed.
Next Obligation.
  intros base top mm n st z (Hwf & _) E. rewrite (abs_lookup _ _ _ _ Hwf) in E.
  case_decide as Hin; [|done]. injection E as <- <-.
  destruct (node_ok_of Hwf n Hin) as (? & ? & ? & _). cbn. done.
Qed.
Next Obligation. intros base top mm (Hwf & _). by eapply wf_disjoint. Qed.
Next Obligation.
  intros base top mm n Hinv Hn. cbn. rewrite node_allocated_law. by eapply mm_inv_allocated.
Qed.
Next Obligation. intros base top mm n pages Hinv Hn E Hp. by apply mm_inv_insert. Qed.
Next Obligation. intros base top mm n Hinv Hn E. by apply mm_inv_remove. Qed.
Next Obligation.
  intros base top mm (Hwf & _). cbn. unfold drm_mm_takedown. f_equal. apply bool_decide_ext.
  split; intros E.
  - apply map_eq. intros n. rewrite (abs_lookup _ _ _ _ Hwf), E, lookup_empty.
    rewrite decide_False; [done|]. apply not_elem_of_nil.
  - destruct (tail (ring mm)) as [|n l] eqn:Et; [done|]. exfalso.
    assert (E1 : abs mm !! n = None) by (by rewrite E, lookup_empty).
    rewrite (abs_lookup _ _ _ _ Hwf), Et, decide_True in E1; [done|]. set_solver.
Qed.
End instance.

(** ** Open files *)

(** What the callers do to one node: allow a file (the allocation of a new
    entry may fail) and revoke one. *)
Inductive file_op :=
| FAllow (kmalloc_ok : bool) (filp : Z)
| FRevoke (filp : Z).

(** The specification: how often each file is allowed. *)
Definition file_step (m : gmap Z Z) (op : file_op) : gmap Z Z :=
  match op with
  | FAllow ok f =>
      match m !! f with
      | Some c => <[f := c + 1]> m
      | None => if ok then <[f := 1]> m else m
      end
  | FRevoke f =>
      match m !! f with
      | Some c => if c =? 1 then delete f m else <[f := c - 1]> m
      | None => m
      end
  end.

Section files.
Context {RB : rbtree} {RBok : rbtree_ok RB}.

Definition file_run (t : tree (Z * Z)) (op : file_op) : tree (Z * Z) :=
  match op with
  | FAllow ok f => snd (drm_vma_node_allow ok t f)
  | FRevoke f => drm_vma_node_revoke t f
  end.

Definition file_lt (a b : Z * Z) : Prop := a.1 < b.1.

(** The entries are sorted by file, with counts from 1 to [n]. *)
Record files_ok (n : Z) (t : tree (Z * Z)) (m : gmap Z Z) : Prop := {
  files_sorted : StronglySorted file_lt (elements t);
  files_map f c : (f, c) ∈ elements t <-> m !! f = Some c;
  files_count f c : m !! f = Some c -> 1 <= c <= n
}.

Lemma file_sorted_app a x b :
  StronglySorted file_lt (a ++ x :: b) <->
  StronglySorted file_lt a /\ StronglySorted file_lt b /\
  (forall y, y ∈ a -> y.1 < x.1) /\ (forall y, y ∈ b -> x.1 < y.1).
Proof.
  rewrite StronglySorted_app, StronglySorted_cons, Forall_forall. unfold file_lt. split.
  - intros (H1 & H2 & H3 & H4). split; [done|]. split; [done|]. split; [|done].
    intros y Hy. apply H1; set_solver.
  - intros (H1 & H2 & H3 & H4). split; [|done]. intros y z Hy [->|Hz]%elem_of_cons; [by apply H3|].
    specialize (H3 y Hy). specialize (H4 z Hz). lia.
Qed.

Lemma is_allowed_spec t f :
  StronglySorted file_lt (elements t) ->
  drm_vma_node_is_allowed t f = true <-> exists c, (f, c) ∈ elements t.
Proof.
  induction t as [|l IHl [g d] r IHr]; intros Hs; cbn.
  { split; [done|]. intros [c Hc]. by apply elem_of_nil in Hc. }
  cbn in Hs. apply file_sorted_app in Hs as (Hl & Hr & Hlx & Hxr). cbn in Hlx, Hxr.
  destruct (Z.eqb_spec f g) as [->|Hne]; [split; [|done]; exists d; set_solver|].
  destruct (Z.ltb_spec g f).
  - rewrite IHr by done. split; intros [c Hc]; exists c; [set_solver|].
    apply elem_of_app in Hc as [Hc|[Hc|Hc]%elem_of_cons]; [specialize (Hlx _ Hc); cbn in Hlx; lia|congruence|done].
  - rewrite IHl by done. split; intros [c Hc]; exists c; [set_solver|].
    apply elem_of_app in Hc as [Hc|[Hc|Hc]%elem_of_cons]; [done|congruence|specialize (Hxr _ Hc); cbn in Hxr; lia].
Qed.

(** Both walks change one entry: [(f, c)] becomes [(f, c')]; or a new entry is
    linked in its place in the order. *)
Definition changed (f : Z) (c' : option Z) (t t' : tree (Z * Z)) : Prop :=
  StronglySorted file_lt (elements t') /\
  forall g d, (g, d) ∈ elements t' <->
    if g =? f then Some d = c' else (g, d) ∈ elements t.

Lemma changed_l f c' l l' x r :
  StronglySorted file_lt (elements (Node l x r)) -> f < x.1 ->
  changed f c' l l' -> changed f c' (Node l x r) (Node l' x r).
Proof.
  cbn. intros (Hl & Hr & Hlx & Hxr)%file_sorted_app Hf [Hs He]. split; cbn.
  - apply file_sorted_app. split; [done|]. split; [done|]. split; [|done].
    intros [g d] Hg%He. destruct (Z.eqb_spec g f); [cbn; lia|by apply (Hlx (g, d))].
  - intros g d. rewrite !elem_of_app, !elem_of_cons, He. destruct (Z.eqb_spec g f) as [->|];
      [|rewrite elem_of_app, elem_of_cons; tauto].
    split; [|tauto]. intros [Hd|[<-|Hd]]; [done|cbn in Hf; lia|]. specialize (Hxr _ Hd). cbn in Hxr. lia.
Qed.

Lemma changed_r f c' l x r r' :
  StronglySorted file_lt (elements (Node l x r)) -> x.1 < f ->
  changed f c' r r' -> changed f c' (Node l x r) (Node l x r').
Proof.
  cbn. intros (Hl & Hr & Hlx & Hxr)%file_sorted_app Hf [Hs He]. split; cbn.
  - apply file_sorted_app. split; [done|]. split; [done|]. split; [done|].
    intros [g d] Hg%He. destruct (Z.eqb_spec g f); [cbn; lia|by apply (Hxr (g, d))].
  - intros g d. rewrite !elem_of_app, !elem_of_cons, He. destruct (Z.eqb_spec g f) as [->|];
      [|rewrite elem_of_app, elem_of_cons; tauto].
    split; [|tauto]. intros [Hd|[<-|Hd]]; [specialize (Hlx _ Hd); cbn in Hlx; lia|cbn in Hf; lia|done].
Qed.

Lemma changed_here f c c' l r :
  StronglySorted file_lt (elements (Node l (f, c) r)) ->
  changed f (Some c') (Node l (f, c) r) (Node l (f, c') r).
Proof.
  cbn. intros (Hl & Hr & Hlx & Hxr)%file_sorted_app. split; cbn.
  - apply file_sorted_app. done.
  - intros g d. rewrite !elem_of_app, !elem_of_cons. destruct (Z.eqb_spec g f) as [->|Hne].
    + split; [|intros [= ->]; by right; left]. intros [Hd|[[= ->]|Hd]]; [|done|].
      * specialize (Hlx _ Hd). cbn in Hlx. lia.
      * specialize (Hxr _ Hd). cbn in Hxr. lia.
    + rewrite elem_of_app, elem_of_cons.
      split; (intros [?|[?|?]]; [tauto|congruence|tauto]).
Qed.

Lemma allow_walk_spec f t :
  StronglySorted file_lt (elements t) ->
  let '(found, t') := allow_walk f t in
  if found then exists c, (f, c) ∈ elements t /\ changed f (Some (ul (c + 1))) t t'
  else (forall c, (f, c) ∉ elements t) /\ changed f (Some 1) t t'.
Proof.
  induction t as [|l IHl [g d] r IHr]; intros Hs; cbn [allow_walk].
  { split; [intros c; apply not_elem_of_nil|]. split; cbn; [repeat constructor|].
    intros g d. rewrite list_elem_of_singleton. destruct (Z.eqb_spec g f) as [->|]; [split; congruence|].
    rewrite elem_of_nil. split; [congruence|done]. }
  pose proof Hs as Hs'. cbn in Hs'. apply file_sorted_app in Hs' as (Hl & Hr & Hlx & Hxr). cbn in Hlx, Hxr.
  destruct (Z.eqb_spec f g) as [<-|Hne].
  { exists d. split; [cbn; set_solver|by apply changed_here]. }
  destruct (Z.ltb_spec g f).
  - specialize (IHr Hr). destruct (allow_walk f r) as [[] r'].
    + destruct IHr as (c & Hc & Hch). exists c. split; [cbn; set_solver|by apply changed_r].
    + destruct IHr as [Hno Hch]. split; [|by apply changed_r]. intros c. cbn.
      rewrite elem_of_app, elem_of_cons. intros [Hc|[Hc|Hc]]; [|congruence|by apply (Hno c)].
      specialize (Hlx _ Hc). cbn in Hlx. lia.
  - specialize (IHl Hl). destruct (allow_walk f l) as [[] l'].
    + destruct IHl as (c & Hc & Hch). exists c. split; [cbn; set_solver|apply changed_l; [done|cbn; lia|done]].
    + destruct IHl as [Hno Hch]. split; [|apply changed_l; [done|cbn; lia|done]]. intros c. cbn.
      rewrite elem_of_app, elem_of_cons. intros [Hc|[Hc|Hc]]; [by apply (Hno c)|congruence|].
      specialize (Hxr _ Hc). cbn in Hxr. lia.
Qed.

Lemma revoke_walk_spec f t :
  StronglySorted file_lt (elements t) ->
  let '(e, t') := revoke_walk f t in
  (exists c, (f, c) ∈ elements t /\ changed f (Some (ul (c - 1))) t t' /\
     e = if ul (c - 1) =? 0 then Some (f, 0) else None) \/
  ((forall c, (f, c) ∉ elements t) /\ t' = t /\ e = None).
Proof.
  induction t as [|l IHl [g d] r IHr]; intros Hs; cbn [revoke_walk].
  { right. split; [intros c; apply not_elem_of_nil|done]. }
  pose proof Hs as Hs'. cbn in Hs'. apply file_sorted_app in Hs' as (Hl & Hr & Hlx & Hxr). cbn in Hlx, Hxr.
  destruct (Z.eqb_spec f g) as [<-|Hne].
  { left. exists d. split; [cbn; set_solver|]. split; [by apply changed_here|].
    unfold truth. destruct (Z.eqb_spec (ul (d - 1)) 0) as [->|]; done. }
  destruct (Z.ltb_spec g f).
  - specialize (IHr Hr). destruct (revoke_walk f r) as [e r'].
    destruct IHr as [(c & Hc & Hch & He)|(Hno & -> & ->)].
    + left. exists c. split; [cbn; set_solver|]. split; [by apply changed_r|done].
    + right. split; [|done]. intros c. cbn. rewrite elem_of_app, elem_of_cons.
      intros [Hc|[Hc|Hc]]; [|congruence|by apply (Hno c)]. specialize (Hlx _ Hc). cbn in Hlx. lia.
  - specialize (IHl Hl). destruct (revoke_walk f l) as [e l'].
    destruct IHl as [(c & Hc & Hch & He)|(Hno & -> & ->)].
    + left. exists c. split; [cbn; set_solver|]. split; [apply changed_l; [done|cbn; lia|done]|done].
    + right. split; [|done]. intros c. cbn. rewrite elem_of_app, elem_of_cons.
      intros [Hc|[Hc|Hc]]; [by apply (Hno c)|congruence|]. specialize (Hxr _ Hc). cbn in Hxr. lia.
Qed.

Lemma changed_files n n' t m f c t' :
  files_ok n t m -> n <= n' -> 1 <= c <= n' -> changed f (Some c) t t' ->
  files_ok n' t' (<[f := c]> m).
Proof.
  intros [Hs Hm Hc] Hn Hcn [Hs' He]. split; [done| |].
  - intros g d. rewrite He. destruct (Z.eqb_spec g f) as [->|].
    + rewrite lookup_insert_eq. split; congruence.
    + rewrite lookup_insert_ne by done. apply Hm.
  - intros g d. rewrite lookup_insert_Some. intros [[<- <-]|[_ Hd]]; [done|].
    specialize (Hc g d Hd). lia.
Qed.

Lemma files_weaken n n' t m : n <= n' -> files_ok n t m -> files_ok n' t m.
Proof. intros Hn [Hs Hm Hc]. split; [done|done|]. intros f c Hf. specialize (Hc f c Hf). lia. Qed.

Lemma file_run_ok n t m op :
  files_ok n t m -> 0 <= n -> n + 1 < 2 ^ 64 -> files_ok (n + 1) (file_run t op) (file_step m op).
Proof.
  intros Hok Hn0 Hn. pose proof Hok as [Hs Hm Hc]. destruct op as [ok f|f]; cbn [file_run file_step].
  - pose proof (allow_walk_spec f t Hs) as Hw. unfold drm_vma_node_allow.
    destruct (allow_walk f t) as [[] t'].
    + destruct Hw as (c & Hin & Hch). apply Hm in Hin as Ef. rewrite Ef. specialize (Hc f c Ef).
      rewrite ul_small in Hch by (unfold is_ul; lia). cbn [snd].
      eapply changed_files; [done|lia|lia|done].
    + destruct Hw as [Hno Hch]. assert (m !! f = None) as ->.
      { destruct (m !! f) as [c|] eqn:E; [|done]. exfalso. apply (Hno c). by apply Hm. }
      destruct ok; cbn [negb snd]; [|eapply files_weaken; [|done]; lia].
      apply (changed_files n _ t); [done|lia|lia|]. destruct Hch as [Hs' He].
      split; rewrite rb_insert_elements; done.
  - pose proof (revoke_walk_spec f t Hs) as Hw. unfold drm_vma_node_revoke.
    destruct (revoke_walk f t) as [e t'].
    destruct Hw as [(c & Hin & Hch & ->)|(Hno & -> & ->)].
    + apply Hm in Hin as Ef. rewrite Ef. specialize (Hc f c Ef).
      rewrite ul_small in * by (unfold is_ul; lia).
      destruct (Z.eqb_spec (c - 1) 0) as [E0|], (Z.eqb_spec c 1); [|lia|lia|].
      * destruct Hch as [Hs' He]. rewrite E0 in He. split.
        -- rewrite rb_erase_elements. by apply StronglySorted_filter.
        -- intros g d. rewrite rb_erase_elements, list_del_elem, He, lookup_delete_Some.
           destruct (Z.eqb_spec g f) as [->|Hne].
           ++ split; [intros [[= ->] ?]; done|tauto].
           ++ rewrite Hm. split; [intros [? _]; split; [congruence|done]|]. intros [_ ?].
              split; [done|congruence].
        -- intros g d [_ Hd]%lookup_delete_Some. destruct Hok as [_ _ Hc']. specialize (Hc' g d Hd). lia.
      * eapply changed_files; [done|lia|lia|done].
    + assert (m !! f = None) as ->.
      { destruct (m !! f) as [c|] eqn:E; [|done]. exfalso. apply (Hno c). by apply Hm. }
      eapply files_weaken; [|done]. lia.
Qed.

Lemma files_run_ok n t m ops :
  files_ok n t m -> 0 <= n -> n + Z.of_nat (length ops) < 2 ^ 64 ->
  files_ok (n + Z.of_nat (length ops)) (foldl file_run t ops) (foldl file_step m ops).
Proof.
  revert n t m. induction ops as [|op ops IH]; intros n t m Hok H0 Hn; cbn [foldl length].
  { by rewrite Z.add_0_r. }
  cbn [length] in Hn. replace (n + Z.of_nat (S (length ops))) with (n + 1 + Z.of_nat (length ops)) by lia.
  apply IH; [|lia|lia]. apply file_run_ok; [done|lia|lia].
Qed.

(** Access counting.  After any sequence of (fewer than 2^64) calls of
    [drm_vma_node_allow] and [drm_vma_node_revoke] on a new node a file is
    allowed exactly when its count, one up per granted call and one down per
    revocation, is positive; a further call is refused with -ENOMEM only for a
    file that is not allowed and without memory for a new entry. *)
Theorem vma_access_counts ops f kmalloc_ok :
  Z.of_nat (length ops) < 2 ^ 64 ->
  let t := foldl file_run Leaf ops in
  let m := foldl file_step ∅ ops in
  drm_vma_node_is_allowed t f = bool_decide (is_Some (m !! f)) /\
  (forall c, m !! f = Some c -> 1 <= c <= Z.of_nat (length ops)) /\
  fst (drm_vma_node_allow kmalloc_ok t f) =
    if kmalloc_ok || drm_vma_node_is_allowed t f then 0 else - ENOMEM.
Proof.
  intros Hn t m. destruct (files_run_ok 0 Leaf ∅ ops) as [Hs Hm Hc]; [|lia|lia|].
  { split; [constructor| |]; intros f' c; rewrite lookup_empty; [|done]. cbn.
    rewrite elem_of_nil. split; done. }
  fold t in Hs, Hm. fold m in Hm, Hc. rewrite Z.add_0_l in Hc.
  assert (Ha : drm_vma_node_is_allowed t f = bool_decide (is_Some (m !! f))).
  { apply eq_bool_prop_intro. rewrite bool_decide_spec, Is_true_true, is_allowed_spec by done.
    unfold is_Some. split; intros [c Hx]; exists c; by apply Hm. }
  split; [done|]. split; [by apply Hc|]. rewrite Ha. unfold drm_vma_node_allow.
  pose proof (allow_walk_spec f t Hs) as Hw. destruct (allow_walk f t) as [[] t'].
  - destruct Hw as (c & Hin & _). apply Hm in Hin. rewrite bool_decide_true by (by eexists).
    by rewrite orb_true_r.
  - destruct Hw as [Hno _]. rewrite bool_decide_false; [by destruct kmalloc_ok|].
    intros [c Hx]. apply (Hno c). by apply Hm.
Qed.
End files.

(** ** Witnesses *)

Definition drm_mm_inline_sample : drm_mm_inline := {|
  DRM_MM_SEARCH_DEFAULT := 0;
  DRM_MM_CREATE_DEFAULT := 0;
  drm_mm_insert_node mm n size al fl :=
    drm_mm_insert_node_generic (H := drm_mm_h_sample) mm n size al 0 fl 0;
  drm_mm_node_allocated mm n := allocated (nd mm n)
|}.

Lemma drm_mm_inline_sample_ok : drm_mm_inline_ok (H := drm_mm_h_sample) drm_mm_inline_sample.
Proof. by split. Qed.

Definition ra_sample : range_alloc drm_mm :=
  drm_mm_range_alloc (H := drm_mm_h_sample) (I := drm_mm_inline_sample).
Definition ra_sample_ok : range_alloc_ok drm_mm ra_sample :=
  drm_mm_range_alloc_ok (H := drm_mm_h_sample) (Hok := drm_mm_h_sample_ok)
    (I := drm_mm_inline_sample) (Iok := drm_mm_inline_sample_ok).

(** The manager after an operation. *)
Definition after (m : drm_vma_offset_manager drm_mm) (op : vma_op) : drm_vma_offset_manager drm_mm :=
  match vma_run (RA := ra_sample) (RB := rbtree_sample) m op with Ok (_, m') => m' | Bug => m end.

(** A manager with two nodes, of 16 and 4 pages. *)
Definition mgr_empty := drm_vma_offset_manager_init (RA := ra_sample) 256 1024.
Definition mgr_one := after mgr_empty (VAdd 1%nat 16).
Definition mgr_sample := after mgr_one (VAdd 2%nat 4).

Lemma mgr_sample_reachable :
  vma_reachable (RA := ra_sample) (RB := rbtree_sample) 256 1024 mgr_sample.
Proof.
  apply (vma_reach_step _ _ mgr_one (VAdd 2%nat 4) 0);
    [|split; [done|lia]|vm_compute; reflexivity].
  apply (vma_reach_step _ _ mgr_empty (VAdd 1%nat 16) 0);
    [|split; [done|lia]|vm_compute; reflexivity].
  apply vma_reach_init.
Qed.

(** A node of no pages is accepted, and the next addition hits the [BUG] of
    [_drm_vma_offset_add_rb]: the two nodes start at the same page. *)
Lemma zero_pages_hit_bug :
  vma_run (RA := ra_sample) (RB := rbtree_sample) mgr_empty (VAdd 1%nat 0) = Ok (0, after mgr_empty (VAdd 1%nat 0)) /\
  vma_run (RA := ra_sample) (RB := rbtree_sample) (after mgr_empty (VAdd 1%nat 0)) (VAdd 2%nat 16) = Bug.
Proof. split; vm_compute; reflexivity. Qed.

Lemma vma_manager_refines_witness :
  exists ret mgr', vma_run (RA := ra_sample) (RB := rbtree_sample) mgr_sample (VAdd 3%nat 2000) = Ok (ret, mgr') /\
    vma_astep 256 1280 (vma_abs (RAok := ra_sample_ok) mgr_sample) (VAdd 3%nat 2000) ret
      (vma_abs (RAok := ra_sample_ok) mgr').
Proof.
  destruct (vma_manager_refines (RAok := ra_sample_ok) (RBok := rbtree_sample_ok) 256 1024 mgr_sample
    (VAdd 3%nat 2000)) as [(ret & mgr' & E & _ & Ha) _];
    [lia|lia|lia|exact mgr_sample_reachable|split; [done|lia]|].
  exists ret, mgr'. split; [exact E|exact Ha].
Defined.

Lemma vma_lookup_exact_witness :
  drm_vma_offset_lookup (RA := ra_sample) mgr_sample 260 8 = Some 1%nat.
Proof.
  apply (vma_lookup_exact (RAok := ra_sample_ok) (RBok := rbtree_sample_ok) 256 1024 mgr_sample 260 8 1%nat);
    [lia|lia|lia|exact mgr_sample_reachable|lia|lia|lia|].
  exists 256, 16. split; [vm_compute; reflexivity|lia].
Defined.

Lemma vma_access_counts_witness :
  drm_vma_node_is_allowed
    (foldl (file_run (RB := rbtree_sample)) Leaf [FAllow true 7; FAllow true 7; FRevoke 7; FAllow true 3; FRevoke 3]) 7 = true /\
  fst (drm_vma_node_allow (RB := rbtree_sample) false
    (foldl (file_run (RB := rbtree_sample)) Leaf [FAllow true 7; FAllow true 7; FRevoke 7; FAllow true 3; FRevoke 3]) 3) = - ENOMEM.
Proof.
  split.
  - destruct (vma_access_counts (RBok := rbtree_sample_ok)
      [FAllow true 7; FAllow true 7; FRevoke 7; FAllow true 3; FRevoke 3] 7 true) as [E _]; [cbn; lia|].
    exact E.
  - destruct (vma_access_counts (RBok := rbtree_sample_ok)
      [FAllow true 7; FAllow true 7; FRevoke 7; FAllow true 3; FRevoke 3] 3 false) as (_ & _ & E); [cbn; lia|].
    exact E.
Defined.
