(* ===== verification/DpPayload.v ===== *)
(** * The MST payload table: virtual channels and their time slots

    The payload part of [struct drm_dp_mst_topology_mgr] in
    drm_dp_mst_topology.c.  A [struct drm_dp_vcpi] lives inside a port and is
    shared: the array [proposed_vcpis] holds pointers to it, modelled as the
    identifiers of the ports.  The AUX channel and the exchange of one sideband
    message and its reply (queueing and waiting, modelled in [DpMst]) are the
    interface [mst_link].  The reference counts of ports are not modelled; a
    port that [drm_dp_get_validated_port_ref] no longer finds is one that is
    not in [ports]. *)

From S2P Require Import Prelude DpSideband.

Record drm_dp_vcpi := mk_vcpi { vcpi : Z; pbn : Z; aligned_pbn : Z; vnum_slots : Z }.

Record drm_dp_payload := mk_payload { payload_state : Z; start_slot : Z; num_slots : Z }.

Definition zero_payload : drm_dp_payload := mk_payload 0 0 0.

(** What the payload code uses of [struct drm_dp_mst_port]. *)
Record payload_port := mk_pport { pp_port_num : Z; pp_vcpi : drm_dp_vcpi }.

Record payload_mgr := mk_pmgr {
  max_payloads : Z;
  payload_mask : Z;
  vcpi_mask : Z;
  proposed_vcpis : list (option nat);
  payloads : list drm_dp_payload;
  pbn_div : Z;
  avail_slots : Z;
  ports : gmap nat payload_port
}.

Definition set_masks (pm vm : Z) (m : payload_mgr) : payload_mgr :=
  mk_pmgr (max_payloads m) pm vm (proposed_vcpis m) (payloads m) (pbn_div m) (avail_slots m) (ports m).
Definition set_proposed (l : list (option nat)) (m : payload_mgr) : payload_mgr :=
  mk_pmgr (max_payloads m) (payload_mask m) (vcpi_mask m) l (payloads m) (pbn_div m) (avail_slots m) (ports m).
Definition set_payloads (l : list drm_dp_payload) (m : payload_mgr) : payload_mgr :=
  mk_pmgr (max_payloads m) (payload_mask m) (vcpi_mask m) (proposed_vcpis m) l (pbn_div m) (avail_slots m) (ports m).
Definition set_ports (g : gmap nat payload_port) (m : payload_mgr) : payload_mgr :=
  mk_pmgr (max_payloads m) (payload_mask m) (vcpi_mask m) (proposed_vcpis m) (payloads m) (pbn_div m) (avail_slots m) g.

(** Array accesses: outside the array they are not defined. *)
Definition arr_get {A} (l : list A) (i : Z) : run A :=
  if i <? 0 then Oops else deref (l !! Z.to_nat i).
Definition arr_set {A} (l : list A) (i : Z) (x : A) : run (list A) :=
  if (i <? 0) || (Z.of_nat (length l) <=? i) then Oops else Done (<[Z.to_nat i := x]> l).

(** The kernel's bit operations on one [unsigned long]. *)
Definition find_first_zero_bit (mask size : Z) : Z :=
  default size (List.find (fun i => negb (Z.testbit mask i)) (seqZ 0 size)).

(** [vcpi] of the port that a pointer points into. *)
Definition vcpi_at (m : payload_mgr) (p : nat) : run drm_dp_vcpi :=
  pt ← deref (ports m !! p); Done (pp_vcpi pt).

Definition set_vcpi (p : nat) (v : drm_dp_vcpi) (m : payload_mgr) : run payload_mgr :=
  pt ← deref (ports m !! p);
  Done (set_ports (<[p := mk_pport (pp_port_num pt) v]> (ports m)) m).

(** ** Setting the table up *)

(** The payload part of [drm_dp_mst_topology_mgr_init], on a zeroed manager;
    the two arrays come from [kcalloc]. *)
Definition payload_init (kcalloc1 kcalloc2 : bool) (max : Z) (g : gmap nat payload_port)
    : Z * payload_mgr :=
  if negb kcalloc1 then (- ENOMEM, mk_pmgr max 0 0 [] [] 0 0 g)
  else
    let pls := replicate (Z.to_nat max) zero_payload in
    if negb kcalloc2 then (- ENOMEM, mk_pmgr max 0 0 [] pls 0 0 g)
    else (0, mk_pmgr max (Z.setbit 0 0) 0 (replicate (Z.to_nat max) None) pls 0 0 g).

(** Link rates of drm_dp_helper.h. *)
Class dp_link_bw := { DP_LINK_BW_1_62 : Z; DP_LINK_BW_2_7 : Z; DP_LINK_BW_5_4 : Z }.

Definition drm_dp_get_vc_payload_bw `{dp_link_bw} (link_bw link_count : Z) : option Z :=
  if link_bw =? DP_LINK_BW_1_62 then Some (3 * link_count)
  else if link_bw =? DP_LINK_BW_2_7 then Some (5 * link_count)
  else if link_bw =? DP_LINK_BW_5_4 then Some (10 * link_count)
  else None.

Definition DIV_ROUND_UP (n d : Z) : run Z :=
  if d =? 0 then Oops else Done (Z.quot (s32 (n + d - 1)) d).

(** The bandwidth part of [drm_dp_mst_topology_mgr_set_mst] when MST is turned
    on: slots of the link from its rate and lane count. *)
Definition payload_enable `{dp_link_bw} (link_bw lanes : Z) (m : payload_mgr)
    : run (Z * payload_mgr) :=
  match drm_dp_get_vc_payload_bw link_bw lanes with
  | None => Done (- EINVAL, m)
  | Some div =>
      slots ← DIV_ROUND_UP 2560 div;
      Done (0, mk_pmgr (max_payloads m) (payload_mask m) (vcpi_mask m) (proposed_vcpis m)
                 (payloads m) div slots (ports m))
  end.

(** The same function when MST is turned off: [proposed_vcpis] is kept. *)
Definition payload_disable (m : payload_mgr) : payload_mgr :=
  set_masks (Z.setbit 0 0) 0 (set_payloads (replicate (Z.to_nat (max_payloads m)) zero_payload) m).

(** ** Payload and channel identifiers *)

Definition drm_dp_mst_assign_payload_id (m : payload_mgr) (p : nat) : run (Z * payload_mgr) :=
  let ret := find_first_zero_bit (payload_mask m) (max_payloads m + 1) in
  if max_payloads m <? ret then Done (- EINVAL, m)
  else
    let vcpi_ret := find_first_zero_bit (vcpi_mask m) (max_payloads m + 1) in
    if max_payloads m <? vcpi_ret then Done (- EINVAL, m)
    else
      let m := set_masks (Z.setbit (payload_mask m) ret) (Z.setbit (vcpi_mask m) vcpi_ret) m in
      v ← vcpi_at m p;
      m ← set_vcpi p (mk_vcpi (vcpi_ret + 1) (pbn v) (aligned_pbn v) (vnum_slots v)) m;
      l ← arr_set (proposed_vcpis m) (ret - 1) (Some p);
      Done (ret, set_proposed l m).

Fixpoint put_loop (n : nat) (i vc : Z) (m : payload_mgr) : run payload_mgr :=
  match n with
  | O => Done m
  | S n =>
      pr ← arr_get (proposed_vcpis m) i;
      m ← match pr with
          | None => Done m
          | Some p =>
              v ← vcpi_at m p;
              if vcpi v =? vc then
                l ← arr_set (proposed_vcpis m) i None;
                Done (set_masks (Z.clearbit (payload_mask m) (i + 1)) (vcpi_mask m)
                        (set_proposed l m))
              else Done m
          end;
      put_loop n (i + 1) vc m
  end.

Definition drm_dp_mst_put_payload_id (m : payload_mgr) (vc : Z) : run payload_mgr :=
  if vc =? 0 then Done m
  else
    put_loop (Z.to_nat (max_payloads m)) 0 vc
      (set_masks (payload_mask m) (Z.clearbit (vcpi_mask m) (vc - 1)) m).

Definition drm_dp_find_vcpi_slots (m : payload_mgr) (pb : Z) : run Z :=
  num_slots ← DIV_ROUND_UP pb (pbn_div m);
  Done (if avail_slots m <? num_slots then - ENOSPC else num_slots).

Definition drm_dp_init_vcpi (m : payload_mgr) (p : nat) (pb : Z) : run (Z * payload_mgr) :=
  num_slots ← DIV_ROUND_UP pb (pbn_div m);
  if avail_slots m <? num_slots then Done (- ENOSPC, m)
  else
    v ← vcpi_at m p;
    m ← set_vcpi p (mk_vcpi (vcpi v) pb (s32 (num_slots * pbn_div m)) num_slots) m;
    '(ret, m) ← drm_dp_mst_assign_payload_id m p;
    if ret <? 0 then Done (ret, m) else Done (0, m).

(** Returns the answer and [*slots], if it was written. *)
Definition drm_dp_mst_allocate_vcpi (m : payload_mgr) (p : nat) (pb : Z)
    : run (bool * option Z * payload_mgr) :=
  match ports m !! p with
  | None => Done (false, None, m)
  | Some pt =>
      let v := pp_vcpi pt in
      if (0 <? vcpi v) && (pb =? pbn v) then Done (true, Some (vnum_slots v), m)
      else
        '(ret, m) ← drm_dp_init_vcpi m p pb;
        if truth ret then Done (false, None, m)
        else
          v ← vcpi_at m p;
          Done (true, Some (vnum_slots v), m)
  end.

Definition drm_dp_mst_reset_vcpi_slots (m : payload_mgr) (p : nat) : run payload_mgr :=
  match ports m !! p with
  | None => Done m
  | Some pt =>
      let v := pp_vcpi pt in
      set_vcpi p (mk_vcpi (vcpi v) (pbn v) (aligned_pbn v) 0) m
  end.

Definition drm_dp_mst_deallocate_vcpi (m : payload_mgr) (p : nat) : run payload_mgr :=
  match ports m !! p with
  | None => Done m
  | Some pt =>
      m ← drm_dp_mst_put_payload_id m (vcpi (pp_vcpi pt));
      set_vcpi p (mk_vcpi 0 0 0 0) m
  end.

(** ** The link below *)

(** [E] is the state of the link: the sink's registers, the message queues. *)
Class mst_link (E : Type) := {
  DP_PAYLOAD_TABLE_UPDATE_STATUS : Z;
  DP_PAYLOAD_ALLOCATE_SET : Z;
  DP_PAYLOAD_TABLE_UPDATED : Z;
  DP_PAYLOAD_ACT_HANDLED : Z;
  DP_PAYLOAD_LOCAL : Z;
  DP_PAYLOAD_REMOTE : Z;
  DP_PAYLOAD_DELETE_LOCAL : Z;
  drm_dp_dpcd_writeb : Z -> Z -> E -> Z * E;
  drm_dp_dpcd_write3 : Z -> list Z -> E -> Z * E;
  (** result and the byte read *)
  drm_dp_dpcd_readb : Z -> E -> Z * Z * E;
  (** is the branch device of the port still in the topology? *)
  link_mstb_valid : nat -> E -> bool;
  link_kzalloc : E -> bool * E;
  (** queue a message for the branch of a port and wait: the result of the
      wait and the reply type *)
  link_transact : nat -> list Z * bool -> E -> Z * Z * E
}.

Section payload.
Context {E : Type} {L : mst_link E} `{dp_h}.

(** The [retry] loop: at most [n] more reads. *)
Fixpoint status_loop (n : nat) (e : E) : Z * E :=
  let '(ret, status, e) := drm_dp_dpcd_readb DP_PAYLOAD_TABLE_UPDATE_STATUS e in
  if ret <? 0 then (ret, e)
  else if truth (Z.land status DP_PAYLOAD_TABLE_UPDATED) then (0, e)
  else match n with O => (- EINVAL, e) | S n => status_loop n e end.

Definition drm_dp_dpcd_write_payload (id : Z) (pl : drm_dp_payload) (e : E) : Z * E :=
  let '(_, e) := drm_dp_dpcd_writeb DP_PAYLOAD_TABLE_UPDATE_STATUS DP_PAYLOAD_TABLE_UPDATED e in
  let '(ret, e) := drm_dp_dpcd_write3 DP_PAYLOAD_ALLOCATE_SET
                     [u8 id; u8 (start_slot pl); u8 (num_slots pl)] e in
  if negb (ret =? 3) then (ret, e) else status_loop 19 e.

(** The [do ... while] loop: at most [n] more polls. *)
Fixpoint act_loop (n : nat) (e : E) : Z * E :=
  let '(ret, status, e) := drm_dp_dpcd_readb DP_PAYLOAD_TABLE_UPDATE_STATUS e in
  if ret <? 0 then (ret, e)
  else if truth (Z.land status DP_PAYLOAD_ACT_HANDLED) then (0, e)
  else match n with O => (- EINVAL, e) | S n => act_loop n e end.

Definition drm_dp_check_act_status (e : E) : Z * E := act_loop 29 e.

Definition drm_dp_payload_send_msg (m : payload_mgr) (port : nat) (id pb : Z) (e : E)
    : run (Z * E) :=
  pt ← deref (ports m !! port);
  if negb (link_mstb_valid port e) then Done (- EINVAL, e)
  else
    let '(ok, e) := link_kzalloc e in
    if negb ok then Done (- ENOMEM, e)
    else
      let '(ret, reply_type, e) :=
        link_transact port (build_allocate_payload (pp_port_num pt) id pb) e in
      Done (if 0 <? ret then (if reply_type =? 1 then - EINVAL else 0) else ret, e).

Definition drm_dp_create_payload_step1 (id : Z) (pl : drm_dp_payload) (e : E)
    : Z * drm_dp_payload * E :=
  let '(ret, e) := drm_dp_dpcd_write_payload id pl e in
  if ret <? 0 then (ret, mk_payload 0 (start_slot pl) (num_slots pl), e)
  else (0, mk_payload DP_PAYLOAD_LOCAL (start_slot pl) (num_slots pl), e).

Definition drm_dp_create_payload_step2 (m : payload_mgr) (port : nat) (id : Z)
    (pl : drm_dp_payload) (e : E) : run (Z * drm_dp_payload * E) :=
  v ← vcpi_at m port;
  '(ret, e) ← drm_dp_payload_send_msg m port id (pbn v) e;
  if ret <? 0 then Done (ret, pl, e)
  else Done (ret, mk_payload DP_PAYLOAD_REMOTE (start_slot pl) (num_slots pl), e).

Definition drm_dp_destroy_payload_step1 (m : payload_mgr) (port : option nat) (id : Z)
    (pl : drm_dp_payload) (e : E) : run (Z * drm_dp_payload * E) :=
  e ← match port with
      | Some port => '(_, e) ← drm_dp_payload_send_msg m port id 0 e; Done e
      | None => Done e
      end;
  let '(_, e) := drm_dp_dpcd_write_payload id pl e in
  Done (0, mk_payload DP_PAYLOAD_DELETE_LOCAL (start_slot pl) (num_slots pl), e).

Definition drm_dp_destroy_payload_step2 (id : Z) (pl : drm_dp_payload) : Z * drm_dp_payload :=
  (0, mk_payload 0 (start_slot pl) (num_slots pl)).

(** ** drm_dp_update_payload_part1 *)

(** The number of slots requested for entry [i]. *)
Definition requested (m : payload_mgr) (pr : option nat) : run Z :=
  match pr with
  | Some p => v ← vcpi_at m p; Done (vnum_slots v)
  | None => Done 0
  end.

(** The body of the first loop; [port->vcpi.vcpi] is evaluated without a test
    of [port]. *)
Definition part1_step (i cur_slots : Z) (m : payload_mgr) (e : E) : run (Z * payload_mgr * E) :=
  pr ← arr_get (proposed_vcpis m) i;
  req_num ← requested m pr;
  pl ← arr_get (payloads m) i;
  let pl := mk_payload (payload_state pl) cur_slots (num_slots pl) in
  '(pl, e) ←
    (if negb (num_slots pl =? req_num) then
       if truth req_num then
         p ← deref pr;
         v ← vcpi_at m p;
         let '(_, req, e) :=
           drm_dp_create_payload_step1 (vcpi v) (mk_payload 0 cur_slots req_num) e in
         Done (mk_payload (payload_state req) cur_slots req_num, e)
       else if truth (num_slots pl) then
         p ← deref pr;
         v ← vcpi_at m p;
         '(_, pl, e) ← drm_dp_destroy_payload_step1 m pr (vcpi v)
                         (mk_payload (payload_state pl) cur_slots 0) e;
         Done (mk_payload (payload_state pl) 0 (num_slots pl), e)
       else Done (pl, e)
     else Done (pl, e));
  l ← arr_set (payloads m) i pl;
  Done (s32 (cur_slots + req_num), set_payloads l m, e).

Fixpoint part1_loop (n : nat) (i cur_slots : Z) (m : payload_mgr) (e : E)
    : run (payload_mgr * E) :=
  match n with
  | O => Done (m, e)
  | S n =>
      '(cur_slots, m, e) ← part1_step i cur_slots m e;
      part1_loop n (i + 1) cur_slots m e
  end.

(** The inner loop of the removal: entries [j + 1 ...] move down by one. *)
Fixpoint shift_loop (n : nat) (j : Z) (m : payload_mgr) : run payload_mgr :=
  match n with
  | O => Done m
  | S n =>
      pl ← arr_get (payloads m) (j + 1);
      pls ← arr_set (payloads m) j pl;
      pr ← arr_get (proposed_vcpis m) (j + 1);
      prs ← arr_set (proposed_vcpis m) j pr;
      slots ← requested m pr;
      let mask := if truth slots then Z.setbit (payload_mask m) (j + 1)
                  else Z.clearbit (payload_mask m) (j + 1) in
      shift_loop n (j + 1) (set_masks mask (vcpi_mask m) (set_payloads pls (set_proposed prs m)))
  end.

Definition remove_payload (i : Z) (m : payload_mgr) : run payload_mgr :=
  let last := max_payloads m - 1 in
  m ← shift_loop (Z.to_nat (last - i)) i m;
  pls ← arr_set (payloads m) last zero_payload;
  prs ← arr_set (proposed_vcpis m) last None;
  Done (set_masks (Z.clearbit (payload_mask m) (max_payloads m)) (vcpi_mask m)
          (set_payloads pls (set_proposed prs m))).

(** The second loop: it goes on to [i + 1] after a removal. *)
Fixpoint remove_loop (n : nat) (i : Z) (m : payload_mgr) : run payload_mgr :=
  match n with
  | O => Done m
  | S n =>
      pl ← arr_get (payloads m) i;
      m ← (if payload_state pl =? DP_PAYLOAD_DELETE_LOCAL then remove_payload i m else Done m);
      remove_loop n (i + 1) m
  end.

Definition drm_dp_update_payload_part1 (m : payload_mgr) (e : E) : run (Z * payload_mgr * E) :=
  '(m, e) ← part1_loop (Z.to_nat (max_payloads m)) 0 1 m e;
  m ← remove_loop (Z.to_nat (max_payloads m)) 0 m;
  Done (0, m, e).

(** ** drm_dp_update_payload_part2 *)
Fixpoint part2_loop (n : nat) (i : Z) (m : payload_mgr) (e : E) : run (Z * payload_mgr * E) :=
  match n with
  | O => Done (0, m, e)
  | S n =>
      pr ← arr_get (proposed_vcpis m) i;
      match pr with
      | None => part2_loop n (i + 1) m e
      | Some port =>
          pl ← arr_get (payloads m) i;
          v ← vcpi_at m port;
          '(ret, pl, e) ←
            (if payload_state pl =? DP_PAYLOAD_LOCAL then
               drm_dp_create_payload_step2 m port (vcpi v) pl e
             else if payload_state pl =? DP_PAYLOAD_DELETE_LOCAL then
               let '(ret, pl) := drm_dp_destroy_payload_step2 (vcpi v) pl in Done (ret, pl, e)
             else Done (0, pl, e));
          l ← arr_set (payloads m) i pl;
          let m := set_payloads l m in
          if truth ret then Done (ret, m, e) else part2_loop n (i + 1) m e
      end
  end.

Definition drm_dp_update_payload_part2 (m : payload_mgr) (e : E) : run (Z * payload_mgr * E) :=
  part2_loop (Z.to_nat (max_payloads m)) 0 m e.
End payload.
