(* ===== verification/DpPayloadProps.v ===== *)
(** * The MST payload table: properties

    The slot layout that [drm_dp_update_payload_part1] computes, and the
    bookkeeping of payload and channel identifiers. *)

From S2P Require Import Prelude DpSideband DpProps DpPayload.

(** ** Arrays *)

Lemma arr_get_mid {A} (a : list A) x b :
  arr_get (a ++ x :: b) (Z.of_nat (length a)) = Done x.
Proof.
  unfold arr_get. destruct (Z.ltb_spec (Z.of_nat (length a)) 0); [lia|].
  rewrite Nat2Z.id, list_lookup_middle by done. done.
Qed.

Lemma arr_set_mid {A} (a : list A) x y b :
  arr_set (a ++ x :: b) (Z.of_nat (length a)) y = Done (a ++ y :: b).
Proof.
  unfold arr_set. rewrite length_app. cbn [length].
  destruct (Z.ltb_spec (Z.of_nat (length a)) 0); [lia|].
  destruct (Z.leb_spec (Z.of_nat (length a + S (length b))) (Z.of_nat (length a))); [lia|].
  cbn. by rewrite Nat2Z.id, insert_app_r_alt, Nat.sub_diag by lia.
Qed.

(** ** The slot layout *)

(** The slots that an entry of [proposed_vcpis] asks for. *)
Definition slots_of (g : gmap nat payload_port) (pr : option nat) : Z :=
  match pr with
  | Some p => match g !! p with Some pt => vnum_slots (pp_vcpi pt) | None => 0 end
  | None => 0
  end.

Definition pr_ok (g : gmap nat payload_port) (pr : option nat) : Prop :=
  match pr with
  | Some p => exists pt, g !! p = Some pt /\ 0 <= vnum_slots (pp_vcpi pt)
  | None => True
  end.

Lemma slots_of_nonneg g pr : pr_ok g pr -> 0 <= slots_of g pr.
Proof. destruct pr as [p|]; cbn; [|lia]. intros (pt & -> & ?). done. Qed.

Lemma requested_ok m pr : pr_ok (ports m) pr -> requested m pr = Done (slots_of (ports m) pr).
Proof. destruct pr as [p|]; cbn; [|done]. intros (pt & Ep & _). unfold vcpi_at. by rewrite Ep. Qed.

Definition zsum (l : list Z) : Z := foldr Z.add 0 l.

Lemma zsum_cons x l : zsum (x :: l) = x + zsum l.
Proof. done. Qed.

Lemma zsum_nonneg l : Forall (fun x => 0 <= x) l -> 0 <= zsum l.
Proof. induction 1; cbn; [lia|]. unfold zsum in *. lia. Qed.

Section layout.
Context {E : Type} {L : mst_link E} `{dp_h}.

(** The states of a payload are distinct from each other and from 0. *)
Class mst_link_ok : Prop := {
  delete_local_nz : DP_PAYLOAD_DELETE_LOCAL <> 0;
  delete_local_local : DP_PAYLOAD_DELETE_LOCAL <> DP_PAYLOAD_LOCAL
}.
Context {Lok : mst_link_ok}.

(** Entry by entry: the payload has the requested slots, starts after the
    slots of the ones before it, and is marked deleted only without slots. *)
Fixpoint laid (cur : Z) (pls : list drm_dp_payload) (reqs : list Z) : Prop :=
  match pls, reqs with
  | [], [] => True
  | pl :: pls, r :: reqs =>
      num_slots pl = r /\ (r <> 0 -> start_slot pl = cur) /\
      (payload_state pl = DP_PAYLOAD_DELETE_LOCAL -> r = 0) /\ laid (cur + r) pls reqs
  | _, _ => False
  end.

(** What the update needs of one entry: an active payload has its channel. *)
Definition entry_ok (g : gmap nat payload_port) (pl : drm_dp_payload) (pr : option nat) : Prop :=
  pr_ok g pr /\ (num_slots pl <> 0 -> pr <> None) /\
  (payload_state pl = DP_PAYLOAD_DELETE_LOCAL -> num_slots pl = 0).

Lemma send_msg_ok m p id pb e :
  is_Some (ports m !! p) -> exists r e', drm_dp_payload_send_msg m p id pb e = Done (r, e').
Proof.
  intros [pt Ep]. unfold drm_dp_payload_send_msg. rewrite Ep. cbn.
  destruct (link_mstb_valid p e); cbn; [|by eexists _, _].
  destruct (link_kzalloc e) as [[] e1]; cbn; [|by eexists _, _].
  destruct (link_transact p _ e1) as [[r t] e2]. by eexists _, _.
Qed.

Lemma create_step1_state id pl e :
  exists ret st e', drm_dp_create_payload_step1 id pl e =
    (ret, mk_payload st (start_slot pl) (num_slots pl), e') /\ st <> DP_PAYLOAD_DELETE_LOCAL.
Proof.
  unfold drm_dp_create_payload_step1. destruct (drm_dp_dpcd_write_payload id pl e) as [r e'].
  pose proof delete_local_nz. pose proof delete_local_local.
  destruct (r <? 0); by eexists _, _, _.
Qed.

Lemma part1_step_spec m prs1 pr prs2 pls1 pl pls2 cur e :
  proposed_vcpis m = prs1 ++ pr :: prs2 -> payloads m = pls1 ++ pl :: pls2 ->
  length pls1 = length prs1 -> entry_ok (ports m) pl pr ->
  exists pl' e', part1_step (Z.of_nat (length prs1)) cur m e =
      Done (s32 (cur + slots_of (ports m) pr), set_payloads (pls1 ++ pl' :: pls2) m, e') /\
    num_slots pl' = slots_of (ports m) pr /\
    (slots_of (ports m) pr <> 0 -> start_slot pl' = cur) /\
    (payload_state pl' = DP_PAYLOAD_DELETE_LOCAL -> slots_of (ports m) pr = 0).
Proof.
  intros Epr Epl Hlen (Hpr & Hact & Hdel). unfold part1_step.
  rewrite Epr, arr_get_mid. cbn [mbind run_bind]. rewrite requested_ok by done.
  cbn [mbind run_bind]. rewrite Epl, <- Hlen, arr_get_mid. cbn [mbind run_bind num_slots].
  set (r := slots_of (ports m) pr).
  destruct (Z.eqb_spec (num_slots pl) r) as [En|En]; cbn [negb].
  { cbn [mbind run_bind]. rewrite arr_set_mid. cbn [mbind run_bind].
    eexists _, _. split; [reflexivity|]. cbn. split; [done|]. split; [done|].
    intros Hd. rewrite <- En. by apply Hdel. }
  unfold truth. destruct (Z.eqb_spec r 0) as [Er|Er]; cbn [negb].
  - destruct (Z.eqb_spec (num_slots pl) 0) as [E0|E0]; [lia|]. cbn [negb].
    destruct pr as [p|]; [|by destruct (Hact E0)]. cbn [deref mbind run_bind].
    destruct Hpr as (pt & Ep & _). unfold vcpi_at. rewrite Ep. cbn [deref mbind run_bind].
    unfold drm_dp_destroy_payload_step1.
    destruct (send_msg_ok m p (vcpi (pp_vcpi pt)) 0 e) as (r' & e' & Es); [by eexists|].
    rewrite Es. cbn [mbind run_bind].
    destruct (drm_dp_dpcd_write_payload _ _ e') as [? e2]. cbn [mbind run_bind].
    rewrite arr_set_mid. cbn [mbind run_bind]. eexists _, _. split; [reflexivity|]. cbn.
    split; [symmetry; exact Er|]. split; [intros Hr; destruct (Hr Er)|intros _; exact Er].
  - destruct pr as [p|]; [|done]. cbn [deref mbind run_bind].
    destruct Hpr as (pt & Ep & _). unfold vcpi_at. rewrite Ep. cbn [deref mbind run_bind].
    destruct (create_step1_state (vcpi (pp_vcpi pt)) (mk_payload 0 cur r) e) as (ret & st & e' & -> & Hst).
    cbn [mbind run_bind]. rewrite arr_set_mid. cbn [mbind run_bind].
    eexists _, _. split; [reflexivity|]. cbn. done.
Qed.

Lemma part1_loop_spec n m prs1 prs2 pls1 pls2 cur e :
  proposed_vcpis m = prs1 ++ prs2 -> payloads m = pls1 ++ pls2 ->
  length pls1 = length prs1 -> length prs2 = n -> 0 <= cur ->
  cur + zsum (slots_of (ports m) <$> prs2) < 2 ^ 31 ->
  Forall2 (entry_ok (ports m)) pls2 prs2 ->
  exists pls2' e', part1_loop n (Z.of_nat (length prs1)) cur m e =
      Done (set_payloads (pls1 ++ pls2') m, e') /\
    laid cur pls2' (slots_of (ports m) <$> prs2).
Proof.
  revert m prs1 prs2 pls1 pls2 cur e. induction n as [|n IH]; intros m prs1 prs2 pls1 pls2 cur e
    Epr Epl Hlen Hn Hcur Hsum Hf.
  - destruct prs2; [|done]. apply Forall2_nil_inv_r in Hf as ->. exists [], e. cbn.
    split; [|done]. by rewrite <- Epl; destruct m.
  - destruct prs2 as [|pr prs2]; [done|]. injection Hn as Hn.
    apply Forall2_cons_inv_r in Hf as (pl & pls2' & He & Hf & ->).
    destruct (part1_step_spec m prs1 pr prs2 pls1 pl pls2' cur e Epr Epl Hlen He)
      as (pl' & e' & Es & Hnum & Hst & Hdel).
    cbn [part1_loop]. rewrite Es. cbn [mbind run_bind]. rewrite fmap_cons, zsum_cons in Hsum.
    assert (0 <= slots_of (ports m) pr) by (apply slots_of_nonneg, He).
    assert (0 <= zsum (slots_of (ports m) <$> prs2)).
    { apply zsum_nonneg, Forall_fmap. eapply Forall2_Forall_r; [exact Hf|].
      apply Forall_forall. intros a _ b Hb. apply slots_of_nonneg, Hb. }
    rewrite s32_small by (unfold is_s32; lia).
    destruct (IH (set_payloads (pls1 ++ pl' :: pls2') m) (prs1 ++ [pr]) prs2 (pls1 ++ [pl']) pls2'
      (cur + slots_of (ports m) pr) e') as (pls3 & e3 & El & Hl).
    { cbn. by rewrite Epr, <- app_assoc. } { cbn. by rewrite <- app_assoc. }
    { rewrite !length_app. cbn. lia. } { done. } { lia. } { change (ports (set_payloads _ m)) with (ports m). lia. } { done. }
    rewrite length_app in El. cbn [length] in El.
    replace (Z.of_nat (length prs1 + 1)) with (Z.of_nat (length prs1) + 1) in El by lia.
    rewrite El. exists (pl' :: pls3), e3. split.
    { unfold set_payloads. cbn. by rewrite <- app_assoc. }
    cbn. done.
Qed.

(** *** Removing the deleted entries *)

(** The state apart from the two arrays and the mask of payload ids. *)
Definition with_tables (pls : list drm_dp_payload) (prs : list (option nat)) (mask : Z)
    (m : payload_mgr) : payload_mgr :=
  set_masks mask (vcpi_mask m) (set_payloads pls (set_proposed prs m)).

Lemma arr_get_next {A} (a : list A) x y b :
  arr_get (a ++ x :: y :: b) (Z.of_nat (length a) + 1) = Done y.
Proof.
  replace (a ++ x :: y :: b) with ((a ++ [x]) ++ y :: b) by (by rewrite <- app_assoc).
  replace (Z.of_nat (length a) + 1) with (Z.of_nat (length (a ++ [x]))) by (rewrite length_app; cbn; lia).
  apply arr_get_mid.
Qed.

Lemma shift_loop_spec m pls1 pl pls2 prs1 pr prs2 mask :
  length pls1 = length prs1 -> length pls2 = length prs2 -> Forall (pr_ok (ports m)) (pr :: prs2) ->
  exists mask', shift_loop (length prs2) (Z.of_nat (length prs1))
      (with_tables (pls1 ++ pl :: pls2) (prs1 ++ pr :: prs2) mask m) =
    Done (with_tables (pls1 ++ pls2 ++ [List.last pls2 pl])
            (prs1 ++ prs2 ++ [List.last prs2 pr]) mask' m).
Proof.
  revert pls1 pl pls2 prs1 pr mask.
  induction prs2 as [|pr' prs2 IH]; intros pls1 pl pls2 prs1 pr mask H1 H2 Hok.
  - destruct pls2; [|done]. cbn. by eexists.
  - destruct pls2 as [|pl' pls2]; [done|]. cbn [shift_loop length].
    apply Forall_cons in Hok as [_ Hok]. pose proof Hok as [Hpr' _]%Forall_cons.
    cbn [with_tables set_masks set_payloads set_proposed payloads proposed_vcpis ports payload_mask vcpi_mask].
    rewrite <- H1, arr_get_next. cbn [mbind run_bind]. rewrite arr_set_mid. cbn [mbind run_bind].
    rewrite H1, arr_get_next. cbn [mbind run_bind]. rewrite arr_set_mid. cbn [mbind run_bind].
    rewrite requested_ok by done. cbn [mbind run_bind].
    match goal with |- context [shift_loop _ _ (set_masks ?k _ _)] =>
      destruct (IH (pls1 ++ [pl']) pl' pls2 (prs1 ++ [pr']) pr' k) as [mask' IH'] end.
    { rewrite !length_app. cbn. lia. } { by injection H2. } { done. }
    exists mask'. rewrite length_app in IH'. cbn [length] in IH'.
    replace (Z.of_nat (length prs1 + 1)) with (Z.of_nat (length prs1) + 1) in IH' by lia.
    rewrite <- !app_assoc in IH'. cbn [app] in IH'.
    assert (El : forall A (x y : A) l, List.last (x :: l) y = List.last l x).
    { intros A x y l. destruct l as [|z l]; [done|]. change (List.last (x :: z :: l) y) with (List.last (z :: l) y).
      revert z. induction l as [|w l IHl]; intros z; [done|].
      change (List.last (w :: l) y = List.last (w :: l) x). apply IHl. }
    rewrite !El. unfold with_tables in IH' |- *. exact IH'.
Qed.

Lemma remove_payload_spec m pls1 pl pls2 prs1 pr prs2 mask :
  length pls1 = length prs1 -> length pls2 = length prs2 -> Forall (pr_ok (ports m)) (pr :: prs2) ->
  max_payloads m = Z.of_nat (length (prs1 ++ pr :: prs2)) ->
  exists mask', remove_payload (Z.of_nat (length prs1))
      (with_tables (pls1 ++ pl :: pls2) (prs1 ++ pr :: prs2) mask m) =
    Done (with_tables (pls1 ++ pls2 ++ [zero_payload]) (prs1 ++ prs2 ++ [None]) mask' m).
Proof.
  intros H1 H2 Hok Hmax. rewrite length_app in Hmax. cbn [length] in Hmax. unfold remove_payload.
  change (max_payloads (with_tables _ _ _ m)) with (max_payloads m).
  destruct (shift_loop_spec m pls1 pl pls2 prs1 pr prs2 mask H1 H2 Hok) as [mask1 Es].
  replace (Z.to_nat (max_payloads m - 1 - Z.of_nat (length prs1))) with (length prs2) by lia.
  rewrite Es. cbn [mbind run_bind].
  cbn [with_tables set_masks set_payloads set_proposed payloads proposed_vcpis ports payload_mask vcpi_mask max_payloads].
  replace (max_payloads m - 1) with (Z.of_nat (length (pls1 ++ pls2))) by (rewrite length_app; lia).
  rewrite (app_assoc pls1 pls2), arr_set_mid. cbn [mbind run_bind].
  replace (length (pls1 ++ pls2)) with (length (prs1 ++ prs2)) by (rewrite !length_app; lia).
  rewrite (app_assoc prs1 prs2), arr_set_mid. cbn [mbind run_bind].
  rewrite <- !app_assoc. by eexists.
Qed.

Lemma laid_length cur pls reqs : laid cur pls reqs -> length pls = length reqs.
Proof.
  revert cur reqs. induction pls as [|pl pls IH]; intros cur [|r reqs]; cbn; try done.
  intros (_ & _ & _ & Hl). f_equal. by eapply IH.
Qed.

Lemma laid_remove cur pls1 pl pls2 rs1 rs2 :
  length pls1 = length rs1 ->
  laid cur (pls1 ++ pl :: pls2) (rs1 ++ 0 :: rs2) ->
  laid cur (pls1 ++ pls2 ++ [zero_payload]) (rs1 ++ rs2 ++ [0]).
Proof.
  revert cur rs1. induction pls1 as [|p pls1 IH]; intros cur [|r rs1] Hl; cbn; try done.
  - intros (_ & _ & _ & Hd). rewrite Z.add_0_r in Hd. revert cur rs2 Hd.
    induction pls2 as [|q pls2 IH2]; intros cur [|r2 rs2]; cbn; try done.
    intros (? & ? & ? & ?). split; [done|]. split; [done|]. split; [done|]. by apply IH2.
  - intros (? & ? & ? & ?). split; [done|]. split; [done|]. split; [done|]. apply IH; [|done]. by injection Hl.
Qed.

Lemma laid_deleted cur pls1 pl pls2 rs1 r rs2 :
  length pls1 = length rs1 -> laid cur (pls1 ++ pl :: pls2) (rs1 ++ r :: rs2) ->
  payload_state pl = DP_PAYLOAD_DELETE_LOCAL -> r = 0.
Proof.
  revert cur rs1. induction pls1 as [|p pls1 IH]; intros cur [|r1 rs1] Hl; cbn; try done.
  - intros (_ & _ & Hd & _). done.
  - intros (_ & _ & _ & Hl2). apply (IH (cur + r1) rs1); [by injection Hl|done].
Qed.

(** The channels that use slots. *)
Definition in_use (g : gmap nat payload_port) (prs : list (option nat)) : list (option nat) :=
  filter (fun pr => slots_of g pr <> 0) prs.

Lemma remove_loop_spec n i m pls prs mask :
  max_payloads m = Z.of_nat (length prs) -> length prs = (i + n)%nat ->
  Forall (pr_ok (ports m)) prs -> laid 1 pls (slots_of (ports m) <$> prs) ->
  exists pls' prs' mask', remove_loop n (Z.of_nat i) (with_tables pls prs mask m) =
      Done (with_tables pls' prs' mask' m) /\
    length prs' = length prs /\ laid 1 pls' (slots_of (ports m) <$> prs') /\
    in_use (ports m) prs' = in_use (ports m) prs /\ Forall (pr_ok (ports m)) prs'.
Proof.
  revert i pls prs mask. induction n as [|n IH]; intros i pls prs mask Hmax Hlen Hok Hl.
  { exists pls, prs, mask. done. }
  pose proof (laid_length _ _ _ Hl) as Hlen2. rewrite length_fmap in Hlen2.
  destruct (lookup_lt_is_Some_2 pls i) as [pl Epl]; [lia|].
  destruct (lookup_lt_is_Some_2 prs i) as [pr Epr]; [lia|].
  apply list_elem_of_split_length in Epl as (pls1 & pls2 & -> & Hi1).
  apply list_elem_of_split_length in Epr as (prs1 & prs2 & -> & Hi2).
  rewrite length_app in Hlen. rewrite length_app, length_app in Hlen2. cbn [length] in Hlen, Hlen2.
  cbn [remove_loop]. rewrite Hi1.
  change (payloads (with_tables ?a _ _ _)) with a. rewrite arr_get_mid. cbn [mbind run_bind].
  replace (Z.of_nat (length pls1) + 1) with (Z.of_nat (S i)) by lia.
  rewrite fmap_app, fmap_cons in Hl.
  assert (Hl1 : length pls1 = length (slots_of (ports m) <$> prs1)) by (rewrite length_fmap; lia).
  destruct (Z.eqb_spec (payload_state pl) DP_PAYLOAD_DELETE_LOCAL) as [Hd|Hd].
  - pose proof (laid_deleted _ _ _ _ _ _ _ Hl1 Hl Hd) as Hr0. rewrite Hr0 in Hl.
    apply laid_remove in Hl; [|done].
    destruct (remove_payload_spec m pls1 pl pls2 prs1 pr prs2 mask) as [mask1 Er];
      [lia|lia|by apply Forall_app in Hok as [_ ?]|done|].
    rewrite <- Hi2 in Er. rewrite <- Hi1. rewrite Er. cbn [mbind run_bind].
    destruct (IH (S i) (pls1 ++ pls2 ++ [zero_payload]) (prs1 ++ prs2 ++ [None]) mask1)
      as (pls' & prs' & mask' & Ee & H1 & H2 & H3 & H4).
    { rewrite Hmax, !length_app. cbn. lia. }
    { rewrite !length_app. cbn. lia. }
    { apply Forall_app in Hok as [? [_ ?]%Forall_cons]. rewrite !Forall_app. repeat constructor; done. }
    { by rewrite !fmap_app. }
    exists pls', prs', mask'. split; [done|]. split; [rewrite H1, !length_app; cbn; lia|].
    split; [done|]. split; [|done]. rewrite H3. unfold in_use.
    rewrite !filter_app, !filter_cons, filter_nil. rewrite (decide_False (P := slots_of (ports m) pr <> 0)) by lia.
    rewrite decide_False by (cbn; lia). by rewrite app_nil_r.
  - cbn [mbind run_bind]. apply IH; [done|rewrite length_app; cbn; lia|done|].
    by rewrite fmap_app, fmap_cons.
Qed.

Lemma laid_lookup cur pls reqs i pl :
  laid cur pls reqs -> pls !! i = Some pl ->
  exists r, reqs !! i = Some r /\ num_slots pl = r /\ (r <> 0 -> start_slot pl = cur + zsum (take i reqs)).
Proof.
  revert cur pls reqs. induction i as [|i IH]; intros cur [|p pls] [|r reqs]; cbn; try done.
  - intros (H1 & H2 & _) [= <-]. exists r. rewrite Z.add_0_r. done.
  - intros (_ & _ & _ & Hl) Hi. destruct (IH _ _ _ Hl Hi) as (r' & E1 & E2 & E3).
    exists r'. split; [done|]. split; [done|]. intros Hr. rewrite E3 by done. unfold zsum. lia.
Qed.

(** After [drm_dp_update_payload_part1] every entry of the payload table
    has the slots its channel asks for, and the entries with slots lie one
    after the other from slot 1 on: the start of each is 1 plus the slots of
    the entries before it.  The channels with slots keep their order, whatever
    is removed.  This holds for every behaviour of the link, provided each
    active payload still has its channel. *)
Theorem payload_layout m e :
  max_payloads m = Z.of_nat (length (proposed_vcpis m)) ->
  Forall2 (entry_ok (ports m)) (payloads m) (proposed_vcpis m) ->
  zsum (slots_of (ports m) <$> proposed_vcpis m) < 2 ^ 30 ->
  exists m' e', drm_dp_update_payload_part1 m e = Done (0, m', e') /\
    length (payloads m') = length (payloads m) /\
    length (proposed_vcpis m') = length (proposed_vcpis m) /\
    in_use (ports m) (proposed_vcpis m') = in_use (ports m) (proposed_vcpis m) /\
    forall i pl, payloads m' !! i = Some pl ->
      let slots := slots_of (ports m) <$> proposed_vcpis m' in
      slots !! i = Some (num_slots pl) /\
      (num_slots pl <> 0 -> start_slot pl = 1 + zsum (take i slots)).
Proof.
  intros Hmax Hf Hsum. pose proof (Forall2_length _ _ _ Hf) as Hlen.
  unfold drm_dp_update_payload_part1.
  destruct (part1_loop_spec (length (proposed_vcpis m)) m [] (proposed_vcpis m) [] (payloads m) 1 e)
    as (pls & e' & El & Hl); [done|done|done|done|lia|lia|done|].
  rewrite Hmax, Nat2Z.id. cbn [app length] in El. change (Z.of_nat 0) with 0 in El. rewrite El. cbn [mbind run_bind].
  destruct (remove_loop_spec (length (proposed_vcpis m)) 0 m pls (proposed_vcpis m) (payload_mask m))
    as (pls' & prs' & mask' & Er & Hn & Hl' & Hu & _); [done|lia| |done|].
  { eapply Forall2_Forall_r; [exact Hf|]. apply Forall_forall. intros a _ b Hb. apply Hb. }
  replace (with_tables pls (proposed_vcpis m) (payload_mask m) m) with (set_payloads pls m) in Er by (by destruct m).
  change (max_payloads (set_payloads pls m)) with (max_payloads m). rewrite Hmax, Nat2Z.id.
  change (Z.of_nat 0) with 0 in Er. rewrite Er. cbn [mbind run_bind].
  exists (with_tables pls' prs' mask' m), e'. split; [done|].
  change (payloads (with_tables ?a _ _ _)) with a. change (proposed_vcpis (with_tables _ ?b _ _)) with b.
  split; [rewrite (laid_length _ _ _ Hl'), length_fmap; lia|]. split; [done|]. split; [done|].
  intros i pl Hi. destruct (laid_lookup _ _ _ _ _ Hl' Hi) as (r & E1 & <- & E3). done.
Qed.
End layout.

(** ** Payload and channel identifiers *)

(** The ports that [proposed_vcpis] points into, and the id of a port. *)
Definition proposed (m : payload_mgr) : list nat := omap id (proposed_vcpis m).
Definition vid (m : payload_mgr) (p : nat) : Z :=
  match ports m !! p with Some pt => vcpi (pp_vcpi pt) | None => 0 end.

(** The bit masks and the array agree, and no two ports share an id. *)
Record ids_ok (m : payload_mgr) : Prop := {
  ids_max : 0 <= max_payloads m <= 62 /\ max_payloads m = Z.of_nat (length (proposed_vcpis m));
  ids_mask0 : Z.testbit (payload_mask m) 0 = true;
  ids_mask i pr : proposed_vcpis m !! i = Some pr ->
    Z.testbit (payload_mask m) (Z.of_nat i + 1) = bool_decide (is_Some pr);
  ids_nonneg p : 0 <= vid m p;
  ids_port p : p ∈ proposed m <-> 0 < vid m p;
  ids_nodup : NoDup (vid m <$> proposed m);
  ids_vmask b : 0 <= b -> Z.testbit (vcpi_mask m) b = true <-> b + 1 ∈ vid m <$> proposed m
}.

Lemma find_first_zero_bit_spec mask size :
  0 <= size ->
  let r := find_first_zero_bit mask size in
  (0 <= r < size /\ Z.testbit mask r = false) \/
  (r = size /\ forall i, 0 <= i < size -> Z.testbit mask i = true).
Proof.
  intros Hs. unfold find_first_zero_bit. destruct (List.find _ _) as [i|] eqn:Ef; cbn.
  - left. apply List.find_some in Ef as [Hi Hb]. apply list_elem_of_In, elem_of_seqZ in Hi.
    split; [lia|]. by destruct (Z.testbit mask i).
  - right. split; [done|]. intros i Hi. pose proof (List.find_none _ _ Ef i) as Hn.
    apply negb_false_iff, Hn, list_elem_of_In, elem_of_seqZ. lia.
Qed.

Lemma omap_insert_none (l : list (option nat)) i p :
  l !! i = Some None -> omap id (<[i := Some p]> l) ≡ₚ p :: omap id l.
Proof.
  revert i. induction l as [|o l IH]; intros [|i]; cbn; [done|done| |].
  - intros [= ->]. done.
  - intros Hi. destruct o as [q|]; cbn; [|by apply IH]. rewrite IH by done. by apply Permutation_swap.
Qed.

Lemma omap_id_length (l : list (option nat)) : (length (omap id l) <= length l)%nat.
Proof. induction l as [|[p|] l IH]; cbn; lia. Qed.

Lemma elem_of_omap_id (l : list (option nat)) p : p ∈ omap id l <-> exists i, l !! i = Some (Some p).
Proof.
  rewrite list_elem_of_omap. split.
  - intros (o & Ho & Hid). cbn in Hid. subst o. by apply list_elem_of_lookup in Ho.
  - intros [i Hi]. exists (Some p). split; [by eapply list_elem_of_lookup_2|done].
Qed.

Lemma setbit_spec a n i : 0 <= i -> 0 <= n -> Z.testbit (Z.setbit a n) i = (n =? i) || Z.testbit a i.
Proof. intros. rewrite Z.setbit_eqb by done. done. Qed.

(** The ids that are in use do not fill the id space: a free payload entry
    leaves a free channel id. *)
Lemma vcpi_available m :
  ids_ok m -> find_first_zero_bit (vcpi_mask m) (max_payloads m + 1) <= max_payloads m.
Proof.
  intros [[Hm Hl] _ _ _ _ Hnd Hv].
  destruct (find_first_zero_bit_spec (vcpi_mask m) (max_payloads m + 1)) as [[? _]|[-> Hall]]; [lia|lia|].
  exfalso. assert (Hsub : seqZ 1 (max_payloads m + 1) ⊆+ vid m <$> proposed m).
  { apply NoDup_submseteq; [apply NoDup_seqZ|]. intros b Hb%elem_of_seqZ.
    replace b with (b - 1 + 1) by lia. apply Hv; [lia|]. apply Hall. lia. }
  apply submseteq_length in Hsub. rewrite length_seqZ, length_fmap in Hsub.
  assert (length (proposed m) <= length (proposed_vcpis m))%nat by apply omap_id_length.
  lia.
Qed.

(** The state after [p] got payload entry [i] and channel id [vc]. *)
Definition assigned (m : payload_mgr) (p i : nat) (vc : Z) (pt : payload_port) : payload_mgr :=
  let v := pp_vcpi pt in
  mk_pmgr (max_payloads m) (Z.setbit (payload_mask m) (Z.of_nat i + 1))
    (Z.setbit (vcpi_mask m) (vc - 1)) (<[i := Some p]> (proposed_vcpis m)) (payloads m)
    (pbn_div m) (avail_slots m)
    (<[p := mk_pport (pp_port_num pt) (mk_vcpi vc (pbn v) (aligned_pbn v) (vnum_slots v))]> (ports m)).

Lemma vid_insert m p pt q :
  match <[p := pt]> (ports m) !! q with Some pt' => vcpi (pp_vcpi pt') | None => 0 end =
  if decide (q = p) then vcpi (pp_vcpi pt) else vid m q.
Proof.
  case_decide as Hq; [subst; by rewrite lookup_insert_eq|].
  rewrite lookup_insert_ne by done. done.
Qed.

Lemma assigned_ids_ok m p i vc pt :
  ids_ok m -> vid m p = 0 -> proposed_vcpis m !! i = Some None ->
  0 < vc -> (vc ∉ vid m <$> proposed m) -> ids_ok (assigned m p i vc pt).
Proof.
  intros [[Hm Hl] Hm0 Hmask Hnn Hp Hnd Hv] Hvp Hi Hvc Hfresh.
  assert (Hvid : forall q, vid (assigned m p i vc pt) q = if decide (q = p) then vc else vid m q).
  { intros q. apply (vid_insert m p). }
  assert (Hpn : p ∉ proposed m) by (rewrite Hp; lia).
  pose proof (omap_insert_none _ _ p Hi) as Hperm.
  assert (Hperm2 : vid (assigned m p i vc pt) <$> proposed (assigned m p i vc pt) ≡ₚ
                   vc :: (vid m <$> proposed m)).
  { unfold proposed at 1. cbn [proposed_vcpis assigned]. rewrite Hperm, fmap_cons.
    rewrite Hvid, decide_True by done. apply perm_skip.
    rewrite (list_fmap_ext _ (vid m) (omap id (proposed_vcpis m))); [done|].
    intros k q Hq. rewrite Hvid, decide_False; [done|].
    intros ->. apply Hpn. by eapply list_elem_of_lookup_2. }
  split.
  - cbn. by rewrite length_insert.
  - cbn [payload_mask assigned]. rewrite setbit_spec by lia. rewrite Hm0. apply orb_true_r.
  - intros j pr Hj. cbn [proposed_vcpis payload_mask assigned] in Hj |- *. rewrite setbit_spec by lia.
    apply list_lookup_insert_Some in Hj as [(<- & <- & _)|[Hne Hj]].
    + by rewrite Z.eqb_refl, bool_decide_true by (by eexists).
    + rewrite (Hmask _ _ Hj). destruct (Z.eqb_spec (Z.of_nat i + 1) (Z.of_nat j + 1)); [lia|done].
  - intros q. rewrite Hvid. case_decide; [lia|apply Hnn].
  - intros q. unfold proposed. cbn [proposed_vcpis assigned]. rewrite Hperm, elem_of_cons, Hvid.
    fold (proposed m). rewrite Hp. case_decide; [subst; lia|]. tauto.
  - rewrite Hperm2. by apply NoDup_cons.
  - intros b Hb. cbn [vcpi_mask assigned]. rewrite setbit_spec by lia. rewrite Hperm2, elem_of_cons.
    rewrite orb_true_iff, Hv by lia. destruct (Z.eqb_spec (vc - 1) b); [|];
      split; intros [?|?]; try done; try (by right); try (left; lia); exfalso; lia.
Qed.

Lemma assign_spec m p pt :
  ids_ok m -> ports m !! p = Some pt -> vid m p = 0 ->
  (Forall is_Some (proposed_vcpis m) /\ drm_dp_mst_assign_payload_id m p = Done (- EINVAL, m)) \/
  (exists i vc, proposed_vcpis m !! i = Some None /\ 0 < vc <= max_payloads m + 1 /\
     (vc ∉ vid m <$> proposed m) /\
     drm_dp_mst_assign_payload_id m p = Done (Z.of_nat i + 1, assigned m p i vc pt)).
Proof.
  intros Hok Hpt Hvp. pose proof (vcpi_available m Hok) as Hav. destruct Hok as [[Hm Hl] Hm0 Hmask _ _ _ Hv].
  unfold drm_dp_mst_assign_payload_id.
  pose proof (find_first_zero_bit_spec (payload_mask m) (max_payloads m + 1)) as Hf. cbv zeta in Hf.
  pose proof (find_first_zero_bit_spec (vcpi_mask m) (max_payloads m + 1)) as Hg. cbv zeta in Hg.
  set (r := find_first_zero_bit (payload_mask m) (max_payloads m + 1)) in *.
  set (b := find_first_zero_bit (vcpi_mask m) (max_payloads m + 1)) in *.
  destruct Hf as [[Hr Hz]|[-> Hall]]; [lia| |].
  - right. destruct (Z.ltb_spec (max_payloads m) r); [lia|].
    destruct (Z.ltb_spec (max_payloads m) b); [lia|].
    destruct Hg as [[Hb Hzb]|[? _]]; [lia| |lia].
    assert (r <> 0) by congruence.
    destruct (lookup_lt_is_Some_2 (proposed_vcpis m) (Z.to_nat (r - 1))) as [pr Epr]; [lia|].
    assert (pr = None) as ->.
    { pose proof (Hmask _ _ Epr) as Hb'. replace (Z.of_nat (Z.to_nat (r - 1)) + 1) with r in Hb' by lia.
      rewrite Hz in Hb'. destruct pr; [|done]. by rewrite bool_decide_true in Hb' by (by eexists). }
    exists (Z.to_nat (r - 1)), (b + 1). split; [done|]. split; [lia|]. split.
    { rewrite <- Hv by lia. congruence. }
    unfold vcpi_at, set_vcpi. cbn [ports set_masks]. rewrite Hpt. cbn [deref mbind run_bind ports set_masks].
    cbn [deref mbind run_bind proposed_vcpis set_ports set_masks].
    unfold arr_set. destruct (Z.ltb_spec (r - 1) 0); [lia|].
    destruct (Z.leb_spec (Z.of_nat (length (proposed_vcpis m))) (r - 1)); [lia|].
    cbn [orb mbind run_bind]. unfold assigned, set_proposed, set_ports, set_masks. cbn.
    replace (Z.of_nat (Z.to_nat (r - 1)) + 1) with r by lia.
    replace (b + 1 - 1) with b by lia. done.
  - left. destruct (Z.ltb_spec (max_payloads m) (max_payloads m + 1)); [|lia]. split; [|done].
    apply Forall_lookup. intros i pr Hi. pose proof (lookup_lt_Some _ _ _ Hi).
    pose proof (Hmask _ _ Hi) as Hb. rewrite Hall in Hb by lia.
    symmetry in Hb. by apply bool_decide_eq_true in Hb.
Qed.

(** *** Giving identifiers back *)

Definition mask_ok (mask : Z) (prs : list (option nat)) : Prop :=
  Z.testbit mask 0 = true /\
  forall i pr, prs !! i = Some pr -> Z.testbit mask (Z.of_nat i + 1) = bool_decide (is_Some pr).

(** The entry after the loop: cleared when its port has the id. *)
Definition put_entry (m : payload_mgr) (vc : Z) (pr : option nat) : option nat :=
  match pr with Some p => if vid m p =? vc then None else Some p | None => None end.

Lemma put_loop_spec m prs1 prs2 mask vc :
  (forall p, p ∈ omap id (prs1 ++ prs2) -> is_Some (ports m !! p)) ->
  mask_ok mask (prs1 ++ prs2) ->
  exists mask', put_loop (length prs2) (Z.of_nat (length prs1)) vc
      (set_masks mask (vcpi_mask m) (set_proposed (prs1 ++ prs2) m)) =
    Done (set_masks mask' (vcpi_mask m) (set_proposed (prs1 ++ (put_entry m vc <$> prs2)) m)) /\
    mask_ok mask' (prs1 ++ (put_entry m vc <$> prs2)).
Proof.
  revert prs1 mask. induction prs2 as [|pr prs2 IH]; intros prs1 mask Hports Hmask.
  { by exists mask. }
  cbn [put_loop length]. cbn [proposed_vcpis set_masks set_proposed]. rewrite arr_get_mid.
  cbn [mbind run_bind].
  assert (Hnext : forall mask1, mask_ok mask1 (prs1 ++ put_entry m vc pr :: prs2) ->
    exists mask', put_loop (length prs2) (Z.of_nat (length prs1) + 1) vc
        (set_masks mask1 (vcpi_mask m) (set_proposed (prs1 ++ put_entry m vc pr :: prs2) m)) =
      Done (set_masks mask' (vcpi_mask m) (set_proposed (prs1 ++ put_entry m vc pr :: (put_entry m vc <$> prs2)) m)) /\
      mask_ok mask' (prs1 ++ put_entry m vc pr :: (put_entry m vc <$> prs2))).
  { intros mask1 Hm1. destruct (IH (prs1 ++ [put_entry m vc pr]) mask1) as (mask' & El & Hm').
    - intros p. rewrite <- app_assoc. cbn [app]. intros Hp. apply Hports.
      rewrite elem_of_omap_id in Hp |- *. destruct Hp as [i Hi]. exists i.
      destruct (decide (i = length prs1)) as [->|Hne].
      + rewrite list_lookup_middle in Hi |- * by done. unfold put_entry in Hi.
        destruct pr as [q|]; [|done]. by destruct (vid m q =? vc).
      + destruct (decide (i < length prs1)%nat).
        * rewrite lookup_app_l in Hi |- * by done. done.
        * rewrite lookup_app_r in Hi |- * by lia.
          destruct (i - length prs1)%nat eqn:En; [lia|]. done.
    - by rewrite <- app_assoc.
    - exists mask'. rewrite <- !app_assoc in El. rewrite length_app in El. cbn [app length] in El.
      replace (Z.of_nat (length prs1 + 1)) with (Z.of_nat (length prs1) + 1) in El by lia.
      rewrite <- app_assoc in Hm'. done. }
  destruct pr as [p|]; [|cbn [mbind run_bind]; by apply Hnext].
  destruct (Hports p) as [pt Ept].
  { apply elem_of_omap_id. exists (length prs1). by apply list_lookup_middle. }
  unfold vcpi_at. cbn [ports set_masks set_proposed]. rewrite Ept. cbn [deref mbind run_bind].
  assert (Ev : vid m p = vcpi (pp_vcpi pt)) by (unfold vid; by rewrite Ept).
  cbn [fmap list_fmap] in Hnext |- *. cbn [put_entry] in Hnext |- *. rewrite Ev in Hnext |- *.
  destruct (Z.eqb_spec (vcpi (pp_vcpi pt)) vc) as [Evc|Evc].
  - rewrite arr_set_mid. cbn [mbind run_bind]. apply Hnext. destruct Hmask as [H0 Hmask]. split.
    + rewrite Z.clearbit_eqb. cbn [payload_mask set_masks]. rewrite H0. by destruct (Z.eqb_spec (Z.of_nat (length prs1) + 1) 0); [lia|].
    + intros j pr Hj. rewrite Z.clearbit_eqb. cbn [payload_mask set_masks].
      destruct (Z.eqb_spec (Z.of_nat (length prs1) + 1) (Z.of_nat j + 1)).
      * assert (j = length prs1) as -> by lia. rewrite list_lookup_middle in Hj by done.
        injection Hj as <-. rewrite andb_false_r. by rewrite bool_decide_false by (by intros []).
      * rewrite andb_true_r. apply Hmask. destruct (decide (j < length prs1)%nat).
        -- rewrite lookup_app_l in Hj |- * by done. done.
        -- rewrite lookup_app_r in Hj |- * by lia. destruct (j - length prs1)%nat eqn:En; [lia|]. done.
  - cbn [mbind run_bind]. by apply Hnext.
Qed.

Lemma omap_put m vc (prs : list (option nat)) :
  omap id (put_entry m vc <$> prs) = filter (fun p => vid m p <> vc) (omap id prs).
Proof.
  induction prs as [|[p|] prs IH]; [done| |exact IH].
  change (omap id (Some p :: prs)) with (p :: omap id prs). rewrite filter_cons, fmap_cons.
  cbn [put_entry]. destruct (Z.eqb_spec (vid m p) vc) as [Ev|Ev].
  - rewrite decide_False by tauto. exact IH.
  - rewrite decide_True by done. rewrite <- IH. done.
Qed.

Lemma filter_vid m vc (l : list nat) :
  filter (fun v => v <> vc) (vid m <$> l) = vid m <$> filter (fun q => vid m q <> vc) l.
Proof.
  induction l as [|q l IH]; [done|]. rewrite fmap_cons, !filter_cons, IH. by repeat case_decide.
Qed.

(** What deallocation does. *)
Definition freed (m m' : payload_mgr) (p : nat) : Prop :=
  ids_ok m' /\ (forall q, vid m' q = if decide (q = p) then 0 else vid m q) /\
  (forall q, q ∈ proposed m' <-> q ∈ proposed m /\ q <> p) /\
  pbn_div m' = pbn_div m /\ avail_slots m' = avail_slots m /\ max_payloads m' = max_payloads m /\
  dom (ports m') = dom (ports m).

Lemma ids_inj m p q : ids_ok m -> 0 < vid m p -> vid m q = vid m p -> p = q.
Proof.
  intros [_ _ _ _ Hp Hnd _] H0 He. pose proof H0 as Hin. apply Hp in Hin.
  assert (q ∈ proposed m) as Hq by (apply Hp; lia).
  apply list_elem_of_lookup in Hin as [i Ei]. apply list_elem_of_lookup in Hq as [j Ej].
  assert (i = j) as ->; [|congruence].
  eapply NoDup_lookup; [exact Hnd| |]; rewrite list_lookup_fmap; [rewrite Ei|rewrite Ej]; cbn; by f_equal.
Qed.

Lemma ids_ports m p : ids_ok m -> p ∈ proposed m -> is_Some (ports m !! p).
Proof.
  intros [_ _ _ _ Hp _ _] Hin. apply Hp in Hin. unfold vid in Hin.
  destruct (ports m !! p); [by eexists|lia].
Qed.

Lemma deallocate_spec m p :
  ids_ok m -> is_Some (ports m !! p) ->
  exists m', drm_dp_mst_deallocate_vcpi m p = Done m' /\ freed m m' p.
Proof.
  intros Hok [pt Ept]. pose proof Hok as [[Hm Hl] Hm0 Hmask Hnn Hp Hnd Hv].
  assert (Ev : vid m p = vcpi (pp_vcpi pt)) by (unfold vid; by rewrite Ept).
  unfold drm_dp_mst_deallocate_vcpi, drm_dp_mst_put_payload_id. rewrite Ept, <- Ev.
  set (zero := mk_pport (pp_port_num pt) (mk_vcpi 0 0 0 0)).
  destruct (Z.eqb_spec (vid m p) 0) as [E0|E0].
  - cbn [mbind run_bind]. unfold set_vcpi. rewrite Ept. cbn [deref mbind run_bind].
    eexists. split; [done|]. fold zero.
    set (m' := set_ports (<[p := zero]> (ports m)) m).
    assert (Hvid : forall q, vid m' q = if decide (q = p) then 0 else vid m q) by (intros q; apply (vid_insert m p)).
    assert (Hvid' : forall q, vid m' q = vid m q) by (intros q; rewrite Hvid; case_decide; subst; lia).
    assert (Hpn : p ∉ proposed m) by (rewrite Hp; lia).
    split; [|split; [done|]; split; [|split; [done|]; split; [done|]; split; [done|]]].
    + split; [done|done|done| | | |].
      * intros q. rewrite Hvid'. apply Hnn.
      * intros q. rewrite Hvid'. apply Hp.
      * rewrite (list_fmap_ext _ (vid m)); [done|]. done.
      * intros b Hb. rewrite (list_fmap_ext _ (vid m)); [by apply Hv|done].
    + intros q. change (proposed m') with (proposed m). split; [|tauto]. intros Hq. split; [done|].
      by intros ->.
    + cbn. rewrite dom_insert_L. apply elem_of_dom_2 in Ept. set_solver.
  - assert (Hvp : 0 < vid m p) by (specialize (Hnn p); lia).
    set (m1 := set_masks (payload_mask m) (Z.clearbit (vcpi_mask m) (vid m p - 1)) m).
    change (max_payloads m1) with (max_payloads m). 
    destruct (put_loop_spec m1 [] (proposed_vcpis m) (payload_mask m) (vid m p)) as (mask' & El & Hmok).
    { intros q Hq. by apply (ids_ports m q Hok). }
    { done. }
    cbn [app length] in El, Hmok. change (Z.of_nat 0) with 0 in El.
    replace (Z.to_nat (max_payloads m)) with (length (proposed_vcpis m)) by lia.
    replace (set_masks (payload_mask m) (vcpi_mask m1) (set_proposed (proposed_vcpis m) m1)) with m1 in El
      by (by destruct m).
    rewrite El. cbn [mbind run_bind]. unfold set_vcpi. cbn [ports set_masks set_proposed m1]. rewrite Ept.
    cbn [deref mbind run_bind]. eexists. split; [done|]. fold zero.
    set (m' := set_ports _ _).
    assert (Hvid : forall q, vid m' q = if decide (q = p) then 0 else vid m q) by (intros q; apply (vid_insert m p)).
    assert (Hprop : proposed m' = filter (fun q => vid m q <> vid m p) (proposed m)).
    { unfold proposed. cbn [proposed_vcpis m' set_ports set_masks set_proposed]. apply (omap_put m1). }
    assert (Hin : forall q, q ∈ proposed m' <-> q ∈ proposed m /\ q <> p).
    { intros q. rewrite Hprop, list_elem_of_filter. split; [intros [H1 H2]; split; [done|congruence]|].
      intros [H1 H2]. split; [|done]. intros He. apply H2. symmetry. by apply (ids_inj m). }
    assert (Hvids : vid m' <$> proposed m' = filter (fun v => v <> vid m p) (vid m <$> proposed m)).
    { rewrite filter_vid, Hprop. apply list_fmap_ext. intros k q Hq.
      apply list_elem_of_lookup_2, list_elem_of_filter in Hq as [Hq _]. rewrite Hvid, decide_False; [done|].
      by intros ->. }
    split; [|split; [done|]; split; [done|]; split; [done|]; split; [done|]; split; [done|]].
    + destruct Hmok as [Hm0' Hmask']. split.
      * cbn. rewrite length_fmap. done.
      * done.
      * intros i pr Hi. by apply Hmask'.
      * intros q. rewrite Hvid. case_decide; [lia|apply Hnn].
      * intros q. rewrite Hin, Hvid, Hp. case_decide; [subst; lia|]. tauto.
      * rewrite Hvids. by apply NoDup_filter.
      * intros b Hb. rewrite Hvids, list_elem_of_filter, <- Hv by done.
        cbn [vcpi_mask m' m1 set_ports set_masks set_proposed].
        rewrite Z.clearbit_eqb, andb_true_iff, negb_true_iff, Z.eqb_neq.
        split; intros [? ?]; (split; [done || lia|done || lia]).
    + cbn. rewrite dom_insert_L. apply elem_of_dom_2 in Ept. set_solver.
Qed.

(** *** Allocation *)

Lemma vcpi_at_ok m p pt : ports m !! p = Some pt -> vcpi_at m p = Done (pp_vcpi pt).
Proof. intros Ep. unfold vcpi_at. by rewrite Ep. Qed.

Lemma set_vcpi_ok m p pt v :
  ports m !! p = Some pt ->
  set_vcpi p v m = Done (set_ports (<[p := mk_pport (pp_port_num pt) v]> (ports m)) m).
Proof. intros Ep. unfold set_vcpi. by rewrite Ep. Qed.

Lemma div_round_up_ok n d :
  0 <= n -> 0 < d -> n + d < 2 ^ 31 -> DIV_ROUND_UP n d = Done ((n + d - 1) / d).
Proof.
  intros Hn Hd Hs. unfold DIV_ROUND_UP. destruct (Z.eqb_spec d 0); [lia|].
  rewrite s32_small by (unfold is_s32; lia). by rewrite Z.quot_div_nonneg by lia.
Qed.

(** Changing a port's structure but not its id keeps the bookkeeping. *)
Lemma ids_ok_same m p pt :
  ids_ok m -> vcpi (pp_vcpi pt) = vid m p ->
  ids_ok (set_ports (<[p := pt]> (ports m)) m) /\
  forall q, vid (set_ports (<[p := pt]> (ports m)) m) q = vid m q.
Proof.
  intros [Hm Hm0 Hmask Hnn Hp Hnd Hv] He. set (m' := set_ports _ m).
  assert (Hvid : forall q, vid m' q = vid m q).
  { intros q. unfold m', vid at 1. cbn [ports set_ports]. rewrite vid_insert. case_decide; [by subst|done]. }
  split; [|done]. split; [done|done|done| | | |].
  - intros q. rewrite Hvid. apply Hnn.
  - intros q. rewrite Hvid. apply Hp.
  - rewrite (list_fmap_ext _ (vid m)); [done|]. done.
  - intros b Hb. rewrite (list_fmap_ext _ (vid m)); [by apply Hv|done].
Qed.

(** What an allocation of [n] slots for port [p] promises. *)
Definition allocated_vcpi (m m' : payload_mgr) (p : nat) (n : Z) (ok : bool) : Prop :=
  ids_ok m' /\
  (ok = true <-> n <= avail_slots m /\ @None nat ∈ proposed_vcpis m) /\
  (if ok then 0 < vid m' p <= max_payloads m + 1 /\ slots_of (ports m') (Some p) = n
   else vid m' p = 0) /\
  (forall q, q <> p -> vid m' q = vid m q) /\
  pbn_div m' = pbn_div m /\ avail_slots m' = avail_slots m /\ max_payloads m' = max_payloads m /\
  dom (ports m') = dom (ports m).

Lemma allocate_spec m p pb :
  ids_ok m -> is_Some (ports m !! p) -> vid m p = 0 ->
  0 <= pb -> 0 < pbn_div m -> pb + pbn_div m < 2 ^ 31 ->
  let n := (pb + pbn_div m - 1) / pbn_div m in
  exists (ok : bool) m', drm_dp_mst_allocate_vcpi m p pb = Done (ok, if ok then Some n else None, m') /\
    allocated_vcpi m m' p n ok.
Proof.
  intros Hok [pt Ept] Hv0 Hpb Hd Hs n.
  assert (Ev : vcpi (pp_vcpi pt) = 0) by (unfold vid in Hv0; by rewrite Ept in Hv0).
  unfold drm_dp_mst_allocate_vcpi, drm_dp_init_vcpi. rewrite Ept, Ev.
  cbn [Z.ltb Z.compare andb]. rewrite div_round_up_ok by done. cbn [mbind run_bind]. fold n.
  destruct (Z.ltb_spec (avail_slots m) n) as [Hlt|Hge]; cbn [mbind run_bind].
  { exists false, m. split; [done|]. split; [done|]. split; [split; [done|]; intros [? _]; lia|].
    split; [done|]. done. }
  rewrite (vcpi_at_ok _ _ _ Ept). cbn [mbind run_bind].
  rewrite (set_vcpi_ok _ _ _ _ Ept). cbn [mbind run_bind]. rewrite Ev.
  set (pt1 := mk_pport (pp_port_num pt) (mk_vcpi 0 pb (s32 (n * pbn_div m)) n)).
  destruct (ids_ok_same m p pt1 Hok) as [Hok1 Hvid1]; [by rewrite Hv0|].
  set (m1 := set_ports (<[p := pt1]> (ports m)) m) in *.
  assert (Ept1 : ports m1 !! p = Some pt1) by apply lookup_insert_eq.
  assert (Hdom : dom (ports m1) = dom (ports m)).
  { cbn. rewrite dom_insert_L. apply elem_of_dom_2 in Ept. set_solver. }
  destruct (assign_spec m1 p pt1 Hok1 Ept1) as [[Hfull ->]|(i & vc & Hi & Hvc & Hfresh & ->)];
    [by rewrite Hvid1|..]; cbn [mbind run_bind].
  - exists false, m1. split; [done|]. split; [done|]. split.
    { split; [done|]. intros [_ Hin]. rewrite Forall_forall in Hfull. by destruct (Hfull _ Hin). }
    split; [by rewrite Hvid1|]. split; [done|]. done.
  - destruct (Z.ltb_spec (Z.of_nat i + 1) 0); [lia|]. cbn [mbind run_bind truth Z.eqb negb].
    erewrite vcpi_at_ok by (cbn [ports assigned]; apply lookup_insert_eq). cbn [mbind run_bind].
    exists true, (assigned m1 p i vc pt1). split; [done|].
    assert (Hvid2 : forall q, vid (assigned m1 p i vc pt1) q = if decide (q = p) then vc else vid m1 q)
      by (intros q; apply (vid_insert m1 p)).
    split; [by apply assigned_ids_ok; [|rewrite Hvid1| |lia|]|]. split.
    { split; [|done]. intros _. split; [done|]. by eapply list_elem_of_lookup_2. }
    split.
    { split; [rewrite Hvid2, decide_True by done; exact Hvc|].
      unfold slots_of. cbn [ports assigned]. rewrite lookup_insert_eq. done. }
    split; [intros q Hq; rewrite Hvid2, decide_False by done; apply Hvid1|].
    split; [done|]. split; [done|]. split; [done|]. cbn [ports assigned]. rewrite dom_insert_L, Hdom.
    apply elem_of_dom_2 in Ept. set_solver.
Qed.

(** *** Sequences of allocations *)

Inductive payload_reachable `{dp_link_bw} (max : Z) : payload_mgr -> Prop :=
| pr_init g link_bw lanes m0 m1 :
    0 <= max <= 62 -> (forall p pt, g !! p = Some pt -> vcpi (pp_vcpi pt) = 0) -> 0 < lanes <= 31 ->
    payload_init true true max g = (0, m0) -> payload_enable link_bw lanes m0 = Done (0, m1) ->
    payload_reachable max m1
| pr_alloc m p pb ok slots m' :
    payload_reachable max m -> is_Some (ports m !! p) -> vid m p = 0 -> 0 <= pb < 2 ^ 30 ->
    drm_dp_mst_allocate_vcpi m p pb = Done (ok, slots, m') -> payload_reachable max m'
| pr_free m p m' :
    payload_reachable max m -> is_Some (ports m !! p) ->
    drm_dp_mst_deallocate_vcpi m p = Done m' -> payload_reachable max m'.

Lemma init_ids_ok `{dp_link_bw} max g link_bw lanes m0 m1 :
  0 <= max <= 62 -> (forall p pt, g !! p = Some pt -> vcpi (pp_vcpi pt) = 0) -> 0 < lanes <= 31 ->
  payload_init true true max g = (0, m0) -> payload_enable link_bw lanes m0 = Done (0, m1) ->
  ids_ok m1 /\ 0 < pbn_div m1 < 2 ^ 30.
Proof.
  intros Hmax Hg Hl [= <-] He. unfold payload_enable in He.
  destruct (drm_dp_get_vc_payload_bw link_bw lanes) as [d|] eqn:Ed; [|done].
  assert (Hd : 0 < d < 2 ^ 30).
  { unfold drm_dp_get_vc_payload_bw in Ed. repeat case_if; simplify_eq; lia. }
  destruct (DIV_ROUND_UP 2560 d) as [sl| |]; [|done|done]. cbn in He. injection He as <-.
  split; [|done].
  assert (Hp : omap id (replicate (Z.to_nat max) (@None nat)) = []).
  { induction (Z.to_nat max) as [|k IH]; [done|]. exact IH. }
  match goal with |- ids_ok ?m => set (m1 := m) end.
  assert (Hp1 : proposed m1 = []) by exact Hp.
  assert (Hv0 : forall p, vid m1 p = 0).
  { intros p. unfold vid. cbn [ports m1]. destruct (g !! p) as [pt|] eqn:Ep; [by eapply Hg|done]. }
  split.
  - cbn [max_payloads proposed_vcpis m1]. rewrite length_replicate. lia.
  - done.
  - intros i pr [-> Hi]%lookup_replicate. rewrite bool_decide_false by (by intros []).
    cbn [payload_mask m1]. rewrite setbit_spec by lia. rewrite Z.testbit_0_l.
    destruct (Z.eqb_spec 0 (Z.of_nat i + 1)); [lia|done].
  - intros p. by rewrite Hv0.
  - intros p. rewrite Hp1, Hv0. split; [intros Hi; by apply elem_of_nil in Hi|lia].
  - rewrite Hp1. constructor.
  - intros b Hb. rewrite Hp1. cbn [vcpi_mask m1]. rewrite Z.testbit_0_l.
    split; [done|]. intros Hi. by apply elem_of_nil in Hi.
Qed.

Lemma payload_reachable_ok `{dp_link_bw} max m :
  payload_reachable max m -> ids_ok m /\ 0 < pbn_div m < 2 ^ 30.
Proof.
  induction 1 as [g lb ln m0 m1 H1 H2 H3 H4 H5|m p pb ok sl m' _ [IH Hd] Hp Hv Hpb Ha|m p m' _ [IH Hd] Hp Hf].
  - by eapply init_ids_ok.
  - destruct (allocate_spec m p pb IH Hp Hv) as (ok' & m2 & E2 & Hok & _ & _ & _ & Hdiv & _); [lia..|].
    rewrite E2 in Ha. injection Ha as _ _ <-. split; [done|]. by rewrite Hdiv.
  - destruct (deallocate_spec m p IH Hp) as (m2 & E2 & Hok & _ & _ & Hdiv & _).
    rewrite E2 in Hf. injection Hf as <-. split; [done|]. by rewrite Hdiv.
Qed.

(** C34: on a manager set up for at most 62 payloads and a link of 1 to 31 lanes, after
    any sequence of allocations (for its ports that have no channel, of less than 2^30)
    and deallocations of virtual channels no two ports have the same channel id; the next
    such allocation succeeds exactly when the request (rounded up to
    slots) fits the link and an entry of the payload table is free, whichever
    ids are in use, and gives the port an id of its own between 1 and
    [max_payloads] + 1; a deallocation frees the port's id and no other. *)
Theorem payload_ids_consistent `{dp_link_bw} max m p pb :
  payload_reachable max m -> is_Some (ports m !! p) -> 0 <= pb < 2 ^ 30 ->
  (forall q1 q2, q1 <> q2 -> 0 < vid m q1 -> vid m q1 <> vid m q2) /\
  (vid m p = 0 ->
     let n := (pb + pbn_div m - 1) / pbn_div m in
     exists (ok : bool) m',
       drm_dp_mst_allocate_vcpi m p pb = Done (ok, if ok then Some n else None, m') /\
       payload_reachable max m' /\
       (ok = true <-> n <= avail_slots m /\ @None nat ∈ proposed_vcpis m) /\
       (ok = true -> 0 < vid m' p <= max_payloads m + 1) /\
       forall q, q <> p -> vid m' q = vid m q) /\
  (exists m', drm_dp_mst_deallocate_vcpi m p = Done m' /\ payload_reachable max m' /\
     vid m' p = 0 /\ forall q, q <> p -> vid m' q = vid m q).
Proof.
  intros Hr Hp Hpb. destruct (payload_reachable_ok _ _ Hr) as [Hok Hd]. split.
  { intros q1 q2 Hne H0 He. apply Hne. by apply (ids_inj m). } split.
  - intros Hv n. destruct (allocate_spec m p pb Hok Hp Hv) as (ok & m' & E & Ha); [lia..|].
    exists ok, m'. split; [done|]. split; [by eapply pr_alloc|].
    destruct Ha as (_ & Hiff & Hid & Hoth & _). split; [done|]. split; [|done]. intros ->. apply Hid.
  - destruct (deallocate_spec m p Hok Hp) as (m' & E & _ & Hvid & _).
    exists m'. split; [done|]. split; [by eapply pr_free|].
    split; [by rewrite Hvid, decide_True|]. intros q Hq. by rewrite Hvid, decide_False.
Qed.

(** ** A sample link, errors and witnesses *)
Module PayloadSample.
Export DpProps.Sample.

#[export] Instance bw : dp_link_bw :=
  {| DP_LINK_BW_1_62 := 0x06; DP_LINK_BW_2_7 := 0x0a; DP_LINK_BW_5_4 := 0x14 |}.

(** A link that accepts everything; its state is the list of the three-byte
    table entries written to the sink, newest first. *)
#[export] Instance link : mst_link (list (list Z)) := {|
  DP_PAYLOAD_TABLE_UPDATE_STATUS := 0x2c0;
  DP_PAYLOAD_ALLOCATE_SET := 0x1c0;
  DP_PAYLOAD_TABLE_UPDATED := 1;
  DP_PAYLOAD_ACT_HANDLED := 2;
  DP_PAYLOAD_LOCAL := 1;
  DP_PAYLOAD_REMOTE := 2;
  DP_PAYLOAD_DELETE_LOCAL := 3;
  drm_dp_dpcd_writeb _ _ e := (1, e);
  drm_dp_dpcd_write3 _ bytes e := (3, bytes :: e);
  drm_dp_dpcd_readb _ e := (1, 3, e);
  link_mstb_valid _ _ := true;
  link_kzalloc e := (true, e);
  link_transact _ _ e := (1, 0, e)
|}.

#[export] Instance link_ok : mst_link_ok (L := link).
Proof. by split. Qed.

Definition port0 (n : Z) : payload_port := mk_pport n (mk_vcpi 0 0 0 0).

Definition get {A} (r : run A) (d : A) : A := match r with Done a => a | _ => d end.

(** Three payload entries, two ports, and a link of four lanes at 5.4 Gbit/s:
    40 PBN a slot and 64 slots. *)
Definition mgr0 : payload_mgr := snd (payload_init true true 3 {[8%nat := port0 8; 9%nat := port0 9]}).
Definition mgr1 : payload_mgr := snd (get (payload_enable 0x14 4 mgr0) (0, mgr0)).
Definition alloc (p : nat) (pb : Z) (m : payload_mgr) : payload_mgr :=
  snd (get (drm_dp_mst_allocate_vcpi m p pb) (false, None, m)).
Definition part1 (m : payload_mgr) : payload_mgr :=
  snd (fst (get (drm_dp_update_payload_part1 m []) (0, m, []))).
End PayloadSample.
Import PayloadSample.

(** Two ways the table goes wrong.  A channel that is deallocated before
    its payload is removed makes the next [drm_dp_update_payload_part1] read
    the id through a null port.  And the slots of a link are not counted: on a
    link of 64 slots two channels of 40 slots are both granted, and the second
    payload is placed at slot 41, beyond the end of the link. *)
Theorem payload_update_errors :
  (let m := alloc 8 800 mgr1 in
   exists m', drm_dp_mst_deallocate_vcpi (part1 m) 8 = Done m' /\
     drm_dp_update_payload_part1 m' [] = Oops) /\
  (let m := alloc 9 1600 (alloc 8 1600 mgr1) in
   avail_slots m = 64 /\ slots_of (ports m) (Some 8%nat) = 40 /\
   payloads (part1 m) !! 1%nat = Some (mk_payload DP_PAYLOAD_LOCAL 41 40)).
Proof.
  split.
  - exists (get (drm_dp_mst_deallocate_vcpi (part1 (alloc 8 800 mgr1)) 8) mgr0).
    split; vm_compute; reflexivity.
  - split; [vm_compute; reflexivity|]. split; vm_compute; reflexivity.
Qed.

Lemma payload_layout_witness :
  exists m' e', drm_dp_update_payload_part1 (alloc 9 600 (alloc 8 800 mgr1)) [] = Done (0, m', e') /\
    length (payloads m') = 3%nat.
Proof.
  destruct (payload_layout (alloc 9 600 (alloc 8 800 mgr1)) [])
    as (m' & e' & E & Hl & _); [vm_compute; reflexivity| |vm_compute; reflexivity|].
  { vm_compute. repeat constructor; vm_compute; try (intros; discriminate);
      try (eexists; split; [reflexivity|vm_compute; discriminate]); try (intros Hc; destruct (Hc eq_refl));
      done. }
  exists m', e'. split; [exact E|exact Hl].
Defined.

Lemma payload_ids_consistent_witness :
  exists ok m', drm_dp_mst_allocate_vcpi (alloc 8 800 mgr1) 9 600 = Done (ok, Some 15, m') /\
    0 < vid m' 9 <= 4.
Proof.
  assert (Hr1 : payload_reachable 3 mgr1).
  { apply (pr_init 3 {[8%nat := port0 8; 9%nat := port0 9]} 0x14 4 mgr0 mgr1);
      [lia| |lia|reflexivity|vm_compute; reflexivity].
    intros q pt Hq. apply lookup_insert_Some in Hq as [[_ <-]|[_ Hq]]; [reflexivity|].
    apply lookup_singleton_Some in Hq as [_ <-]. reflexivity. }
  assert (Hr : payload_reachable 3 (alloc 8 800 mgr1)).
  { eapply (pr_alloc 3 mgr1 8 800 true (Some 20));
      [exact Hr1|by eexists|reflexivity|lia|vm_compute; reflexivity]. }
  destruct (payload_ids_consistent 3 (alloc 8 800 mgr1) 9 600 Hr) as (_ & Ha & _);
    [by eexists|lia|].
  destruct (Ha ltac:(reflexivity)) as (ok & m' & E & _ & Hiff & Hid & _).
  assert (Hok : ok = true).
  { apply Hiff. split; [vm_compute; discriminate|]. vm_compute. right. left. }
  exists ok, m'. rewrite Hok in E. split; [rewrite Hok; exact E|exact (Hid Hok)].
Defined.
