(* ===== verification/Atom.v ===== *)
(** * The ATOM byte-code interpreter (radeon/atom.c, atom.h, atom-bits.h)

    The video BIOS of a Radeon card holds tables of byte code that program the
    hardware; the driver runs them.  The interpreter state is [struct
    atom_context] (shared by all tables), the arguments of the running table
    (an array that nested tables see at an offset) and [atom_exec_context], one
    per running table.  A routine is a function of the state that returns a
    [run]: [Oops] is an access outside the BIOS image, the argument array, the
    work space or the scratch memory.

    The card's register callbacks, the clock, the delays and the allocator are
    the operations of the class [Card] on a device state; so are the value of an
    uninitialised variable and the result of a 32-bit shift by 32 or more, which
    C leaves undefined.  Messages are not modelled. *)

From S2P Require Import Prelude.

(** ** Constants of atom.h, atom.c and radeon_family.h *)
Definition ATOM_COND_ABOVE := 0.
Definition ATOM_COND_ABOVEOREQUAL := 1.
Definition ATOM_COND_ALWAYS := 2.
Definition ATOM_COND_BELOW := 3.
Definition ATOM_COND_BELOWOREQUAL := 4.
Definition ATOM_COND_EQUAL := 5.
Definition ATOM_COND_NOTEQUAL := 6.

Definition ATOM_PORT_ATI := 0.
Definition ATOM_PORT_PCI := 1.
Definition ATOM_PORT_SYSIO := 2.

Definition ATOM_UNIT_MICROSEC := 0.
Definition ATOM_UNIT_MILLISEC := 1.

Definition ATOM_OP_CNT := 123.
Definition ATOM_OP_EOT := 91.
Definition ATOM_CASE_MAGIC := 99.
Definition ATOM_CASE_END := 23130.

Definition ATOM_ARG_REG := 0.
Definition ATOM_ARG_PS := 1.
Definition ATOM_ARG_WS := 2.
Definition ATOM_ARG_FB := 3.
Definition ATOM_ARG_ID := 4.
Definition ATOM_ARG_IMM := 5.
Definition ATOM_ARG_PLL := 6.
Definition ATOM_ARG_MC := 7.

Definition ATOM_SRC_DWORD := 0.
Definition ATOM_SRC_WORD16 := 3.
Definition ATOM_SRC_BYTE0 := 4.

Definition ATOM_IO_MM := 0.
Definition ATOM_IO_PCI := 1.
Definition ATOM_IO_SYSIO := 2.
Definition ATOM_IO_IIO := 128.

Definition CHIP_RV515 := 21.
Definition CHIP_R600 := 27.

(** The value variables are filled with before they are assigned. *)
Definition CDCDCDCD := 3452816845.

(** ** The tables of field masks *)
Definition atom_arg_mask : list Z :=
  [4294967295; 65535; 16776960; 4294901760; 255; 65280; 16711680; 4278190080].
Definition atom_arg_shift : list Z := [0; 0; 8; 16; 0; 8; 16; 24].

Definition atom_dst_to_src : list (list Z) :=
  [[0; 0; 0; 0]; [1; 2; 3; 0]; [1; 2; 3; 0]; [1; 2; 3; 0];
   [4; 5; 6; 7]; [4; 5; 6; 7]; [4; 5; 6; 7]; [4; 5; 6; 7]].
Definition atom_def_dst : list Z := [0; 0; 1; 2; 0; 1; 2; 3].

(** The entry of a constant table; the indices used are in range. *)
Definition tab (l : list Z) (i : Z) : Z := nth (Z.to_nat i) l 0.
Definition mask_of (align : Z) : Z := tab atom_arg_mask align.
Definition shift_of (align : Z) : Z := tab atom_arg_shift align.

(** [atom_dst_to_src[(attr >> 3) & 7][(attr >> 6) & 3]] *)
Definition dst_align (attr : Z) : Z :=
  tab (nth (Z.to_nat (Z.land (Z.shiftr attr 3) 7)) atom_dst_to_src [])
      (Z.land (Z.shiftr attr 6) 3).

(** ** State *)
Record atom_context := MkCtx {
  bios : list Z;
  cmd_table : Z; data_table : Z;
  iio : list Z;
  data_block : Z;
  fb_base : Z;
  divmul0 : Z; divmul1 : Z;
  io_attr : Z;
  reg_block : Z;
  shift : Z;
  cs_equal : bool; cs_above : bool;
  io_mode : Z;
  scratch : list Z;
  scratch_size_bytes : Z;
}.

(** [ps] is the offset of the table's arguments in the array of the outermost
    call; [ws] is [None] when the pointer is NULL; [last_jump_jiffies] is [None]
    while it is uninitialised. *)
Record atom_exec_context := MkEc {
  ps : Z;
  ws : option (list Z);
  ps_shift : Z;
  start : Z;
  last_jump : Z;
  last_jump_jiffies : option Z;
  abort : bool;
}.

Definition set_data_block (v : Z) (c : atom_context) : atom_context :=
  MkCtx (bios c) (cmd_table c) (data_table c) (iio c) v (fb_base c) (divmul0 c) (divmul1 c)
    (io_attr c) (reg_block c) (shift c) (cs_equal c) (cs_above c) (io_mode c) (scratch c)
    (scratch_size_bytes c).
Definition set_fb_base (v : Z) (c : atom_context) : atom_context :=
  MkCtx (bios c) (cmd_table c) (data_table c) (iio c) (data_block c) v (divmul0 c) (divmul1 c)
    (io_attr c) (reg_block c) (shift c) (cs_equal c) (cs_above c) (io_mode c) (scratch c)
    (scratch_size_bytes c).
Definition set_divmul0 (v : Z) (c : atom_context) : atom_context :=
  MkCtx (bios c) (cmd_table c) (data_table c) (iio c) (data_block c) (fb_base c) v (divmul1 c)
    (io_attr c) (reg_block c) (shift c) (cs_equal c) (cs_above c) (io_mode c) (scratch c)
    (scratch_size_bytes c).
Definition set_divmul1 (v : Z) (c : atom_context) : atom_context :=
  MkCtx (bios c) (cmd_table c) (data_table c) (iio c) (data_block c) (fb_base c) (divmul0 c) v
    (io_attr c) (reg_block c) (shift c) (cs_equal c) (cs_above c) (io_mode c) (scratch c)
    (scratch_size_bytes c).
Definition set_io_attr (v : Z) (c : atom_context) : atom_context :=
  MkCtx (bios c) (cmd_table c) (data_table c) (iio c) (data_block c) (fb_base c) (divmul0 c)
    (divmul1 c) v (reg_block c) (shift c) (cs_equal c) (cs_above c) (io_mode c) (scratch c)
    (scratch_size_bytes c).
Definition set_reg_block (v : Z) (c : atom_context) : atom_context :=
  MkCtx (bios c) (cmd_table c) (data_table c) (iio c) (data_block c) (fb_base c) (divmul0 c)
    (divmul1 c) (io_attr c) v (shift c) (cs_equal c) (cs_above c) (io_mode c) (scratch c)
    (scratch_size_bytes c).
Definition set_shift (v : Z) (c : atom_context) : atom_context :=
  MkCtx (bios c) (cmd_table c) (data_table c) (iio c) (data_block c) (fb_base c) (divmul0 c)
    (divmul1 c) (io_attr c) (reg_block c) v (cs_equal c) (cs_above c) (io_mode c) (scratch c)
    (scratch_size_bytes c).
Definition set_cs_equal (v : bool) (c : atom_context) : atom_context :=
  MkCtx (bios c) (cmd_table c) (data_table c) (iio c) (data_block c) (fb_base c) (divmul0 c)
    (divmul1 c) (io_attr c) (reg_block c) (shift c) v (cs_above c) (io_mode c) (scratch c)
    (scratch_size_bytes c).
Definition set_cs_above (v : bool) (c : atom_context) : atom_context :=
  MkCtx (bios c) (cmd_table c) (data_table c) (iio c) (data_block c) (fb_base c) (divmul0 c)
    (divmul1 c) (io_attr c) (reg_block c) (shift c) (cs_equal c) v (io_mode c) (scratch c)
    (scratch_size_bytes c).
Definition set_io_mode (v : Z) (c : atom_context) : atom_context :=
  MkCtx (bios c) (cmd_table c) (data_table c) (iio c) (data_block c) (fb_base c) (divmul0 c)
    (divmul1 c) (io_attr c) (reg_block c) (shift c) (cs_equal c) (cs_above c) v (scratch c)
    (scratch_size_bytes c).
Definition set_scratch (v : list Z) (c : atom_context) : atom_context :=
  MkCtx (bios c) (cmd_table c) (data_table c) (iio c) (data_block c) (fb_base c) (divmul0 c)
    (divmul1 c) (io_attr c) (reg_block c) (shift c) (cs_equal c) (cs_above c) (io_mode c) v
    (scratch_size_bytes c).
Definition set_scratch_size (v : Z) (c : atom_context) : atom_context :=
  MkCtx (bios c) (cmd_table c) (data_table c) (iio c) (data_block c) (fb_base c) (divmul0 c)
    (divmul1 c) (io_attr c) (reg_block c) (shift c) (cs_equal c) (cs_above c) (io_mode c)
    (scratch c) v.
Definition set_iio (v : list Z) (c : atom_context) : atom_context :=
  MkCtx (bios c) (cmd_table c) (data_table c) v (data_block c) (fb_base c) (divmul0 c)
    (divmul1 c) (io_attr c) (reg_block c) (shift c) (cs_equal c) (cs_above c) (io_mode c)
    (scratch c) (scratch_size_bytes c).
Definition set_tables (cmd data : Z) (c : atom_context) : atom_context :=
  MkCtx (bios c) cmd data (iio c) (data_block c) (fb_base c) (divmul0 c)
    (divmul1 c) (io_attr c) (reg_block c) (shift c) (cs_equal c) (cs_above c) (io_mode c)
    (scratch c) (scratch_size_bytes c).

Definition set_ws (v : option (list Z)) (e : atom_exec_context) : atom_exec_context :=
  MkEc (ps e) v (ps_shift e) (start e) (last_jump e) (last_jump_jiffies e) (abort e).
Definition set_last_jump (v : Z) (e : atom_exec_context) : atom_exec_context :=
  MkEc (ps e) (ws e) (ps_shift e) (start e) v (last_jump_jiffies e) (abort e).
Definition set_last_jump_jiffies (v : Z) (e : atom_exec_context) : atom_exec_context :=
  MkEc (ps e) (ws e) (ps_shift e) (start e) (last_jump e) (Some v) (abort e).
Definition set_abort (v : bool) (e : atom_exec_context) : atom_exec_context :=
  MkEc (ps e) (ws e) (ps_shift e) (start e) (last_jump e) (last_jump_jiffies e) v.

(** ** The environment *)
Class Card (D : Type) := {
  reg_read : D -> Z -> Z * D;
  reg_write : D -> Z -> Z -> D;
  ioreg_read : D -> Z -> Z * D;
  ioreg_write : D -> Z -> Z -> D;
  mc_read : D -> Z -> Z * D;
  mc_write : D -> Z -> Z -> D;
  pll_read : D -> Z -> Z * D;
  pll_write : D -> Z -> Z -> D;
  family : Z;
  udelay : D -> Z -> D;
  mdelay : D -> Z -> D;
  msleep : D -> Z -> D;
  drm_can_sleep : D -> bool;
  jiffies : D -> Z * D;
  time_after : Z -> Z -> bool;
  jiffies_to_msecs : Z -> Z;
  kzalloc_ok : D -> bool * D;
  uninit : Z;
  over_shl : Z -> Z -> Z;
  over_shr : Z -> Z -> Z;
}.

(** ** Memory accesses *)
Definition arr_get {A} (l : list A) (i : Z) : run A :=
  if i <? 0 then Oops else deref (l !! Z.to_nat i).
Definition arr_set {A} (l : list A) (i : Z) (v : A) : run (list A) :=
  if (i <? 0) || (Z.of_nat (length l) <=? i) then Oops else Done (<[Z.to_nat i := v]> l).

Definition get_u8 (b : list Z) (ptr : Z) : run Z := arr_get b ptr.
Definition get_u16 (b : list Z) (ptr : Z) : run Z :=
  lo ← get_u8 b ptr; hi ← get_u8 b (ptr + 1); Done (Z.lor lo (Z.shiftl hi 8)).
Definition get_u32 (b : list Z) (ptr : Z) : run Z :=
  lo ← get_u16 b ptr; hi ← get_u16 b (ptr + 2); Done (Z.lor lo (Z.shiftl hi 16)).

Section interpreter.
Context {D : Type} `{!Card D}.

Record state := St {
  dev : D;
  ctx : atom_context;
  params : list Z;
  ec : atom_exec_context;
  debug_depth : Z;
}.

(** ** The monad of the interpreter *)
Definition M (A : Type) : Type := state -> run (A * state).
#[global] Instance M_ret : MRet M := fun _ a s => Done (a, s).
#[global] Instance M_bind : MBind M := fun _ _ k c s =>
  match c s with Done (a, s') => k a s' | Oops => Oops | Loops => Loops end.

Definition lift {A} (r : run A) : M A := fun s => a ← r; Done (a, s).
Definition get_ctx : M atom_context := fun s => Done (ctx s, s).
Definition get_ec : M atom_exec_context := fun s => Done (ec s, s).
Definition get_params : M (list Z) := fun s => Done (params s, s).
Definition upd_ctx (f : atom_context -> atom_context) : M unit :=
  fun s => Done (tt, St (dev s) (f (ctx s)) (params s) (ec s) (debug_depth s)).
Definition upd_ec (f : atom_exec_context -> atom_exec_context) : M unit :=
  fun s => Done (tt, St (dev s) (ctx s) (params s) (f (ec s)) (debug_depth s)).
Definition put_params (p : list Z) : M unit :=
  fun s => Done (tt, St (dev s) (ctx s) p (ec s) (debug_depth s)).
Definition upd_depth (k : Z) : M unit :=
  fun s => Done (tt, St (dev s) (ctx s) (params s) (ec s) (debug_depth s + k)).
(** A call that returns a value, and one that does not. *)
Definition ask {A} (f : D -> A * D) : M A :=
  fun s => Done ((f (dev s)).1, St (f (dev s)).2 (ctx s) (params s) (ec s) (debug_depth s)).
Definition tell (f : D -> D) : M unit :=
  fun s => Done (tt, St (f (dev s)) (ctx s) (params s) (ec s) (debug_depth s)).

Definition U8 (ptr : Z) : M Z := c ← get_ctx; lift (get_u8 (bios c) ptr).
Definition U16 (ptr : Z) : M Z := c ← get_ctx; lift (get_u16 (bios c) ptr).
Definition U32 (ptr : Z) : M Z := c ← get_ctx; lift (get_u32 (bios c) ptr).

(** Shifts of 32-bit values. *)
Definition shl32 (x n : Z) : Z :=
  if (0 <=? n) && (n <? 32) then u32 (Z.shiftl x n) else u32 (over_shl x n).
Definition shr32 (x n : Z) : Z :=
  if (0 <=? n) && (n <? 32) then Z.shiftr x n else u32 (over_shr x n).
Definition not32 (x : Z) : Z := u32 (Z.lnot x).

(** ** Indirect IO programs *)

(** [0xFFFFFFFF >> (32 - len)] *)
Definition iio_mask (len : Z) : Z := shr32 4294967295 (32 - len).

(** The three MOVE instructions: the field of [len] bits at [from] of [src]
    goes to [to] in [temp]. *)
Definition iio_move (temp src len from to : Z) : Z :=
  Z.lor (Z.land temp (not32 (shl32 (iio_mask len) to)))
        (shl32 (Z.land (shr32 src from) (iio_mask len)) to).

Fixpoint iio_loop (fuel : nat) (index data base temp : Z) : M Z :=
  match fuel with
  | O => fun _ => Loops
  | S fuel =>
    op ← U8 base;
    match op with
    | 0 => iio_loop fuel index data (base + 1) temp
    | 2 =>
      reg ← U16 (base + 1);
      v ← ask (fun d => ioreg_read d reg);
      iio_loop fuel index data (base + 3) v
    | 3 =>
      reg ← U16 (base + 1);
      (if family =? CHIP_RV515 then _ ← ask (fun d => ioreg_read d reg); mret tt else mret tt);;
      tell (fun d => ioreg_write d reg temp);;
      iio_loop fuel index data (base + 3) temp
    | 4 =>
      len ← U8 (base + 1); pos ← U8 (base + 2);
      iio_loop fuel index data (base + 3) (Z.land temp (not32 (shl32 (iio_mask len) pos)))
    | 5 =>
      len ← U8 (base + 1); pos ← U8 (base + 2);
      iio_loop fuel index data (base + 3) (Z.lor temp (shl32 (iio_mask len) pos))
    | 6 =>
      len ← U8 (base + 1); from ← U8 (base + 2); to ← U8 (base + 3);
      iio_loop fuel index data (base + 4) (iio_move temp index len from to)
    | 8 =>
      len ← U8 (base + 1); from ← U8 (base + 2); to ← U8 (base + 3);
      iio_loop fuel index data (base + 4) (iio_move temp data len from to)
    | 7 =>
      len ← U8 (base + 1); from ← U8 (base + 2); to ← U8 (base + 3);
      c ← get_ctx;
      iio_loop fuel index data (base + 4) (iio_move temp (io_attr c) len from to)
    | 9 => mret temp
    | _ => mret 0
    end
  end.

(** Every instruction moves on in the image, so its length bounds the steps. *)
Definition bios_fuel (c : atom_context) : nat := S (length (bios c)).

Definition atom_iio_execute (base index data : Z) : M Z :=
  c ← get_ctx; iio_loop (bios_fuel c) index data base CDCDCDCD.

(** ** Operands *)

(** The read of a register through the current IO mode; [None] is the early
    return of the caller with 0. *)
Definition get_reg (idx : Z) : M (option Z) :=
  c ← get_ctx;
  match io_mode c with
  | 0 => v ← ask (fun d => reg_read d idx); mret (Some v)
  | 1 => mret None
  | 2 => mret None
  | m =>
    if Z.land m 128 =? 0 then mret None
    else
      prog ← lift (arr_get (iio c) (Z.land m 127));
      if prog =? 0 then mret None
      else v ← atom_iio_execute prog idx 0; mret (Some v)
  end.

Definition get_ps (idx : Z) : M Z :=
  e ← get_ec; p ← get_params; lift (arr_get p (ps e + idx)).

Definition get_ws (idx : Z) : M Z :=
  c ← get_ctx;
  match idx with
  | 64 => mret (divmul0 c)
  | 65 => mret (divmul1 c)
  | 66 => mret (data_block c)
  | 67 => mret (shift c)
  | 68 => mret (shl32 1 (shift c))
  | 69 => mret (not32 (shl32 1 (shift c)))
  | 70 => mret (fb_base c)
  | 71 => mret (io_attr c)
  | 72 => mret (reg_block c)
  | _ => e ← get_ec; w ← lift (deref (ws e)); lift (arr_get w idx)
  end.

Definition fb_beyond (c : atom_context) (idx : Z) : bool :=
  u32 (scratch_size_bytes c) <? u32 (fb_base c + idx * 4).

Definition get_fb (idx : Z) : M Z :=
  c ← get_ctx;
  if fb_beyond c idx then mret 0
  else lift (arr_get (scratch c) (u32 (fb_base c / 4 + idx))).

(** An immediate operand: value and new pointer. *)
Definition get_imm (align ptr : Z) : M (Z * Z) :=
  if align =? ATOM_SRC_DWORD then v ← U32 ptr; mret (v, ptr + 4)
  else if align <=? ATOM_SRC_WORD16 then v ← U16 ptr; mret (v, ptr + 2)
  else v ← U8 ptr; mret (v, ptr + 1).

(** What follows the [switch] on the argument: the saved value is stored and the
    field cut out. *)
Definition src_field (align val : Z) : Z :=
  Z.shiftr (Z.land val (mask_of align)) (shift_of align).

(** [atom_get_src_int]: the operand's value, what is stored in [*saved] if
    anything, and the new pointer. *)
Definition atom_get_src_int (attr ptr : Z) : M (Z * option Z * Z) :=
  let arg := Z.land attr 7 in
  let align := Z.land (Z.shiftr attr 3) 7 in
  let finish (val ptr' : Z) : M (Z * option Z * Z) :=
    mret (src_field align val, Some val, ptr') in
  match arg with
  | 0 =>
    idx ← U16 ptr;
    c ← get_ctx;
    r ← get_reg (u32 (idx + reg_block c));
    match r with
    | Some val => finish val (ptr + 2)
    | None => mret (0, None, ptr + 2)
    end
  | 1 => idx ← U8 ptr; val ← get_ps idx; finish val (ptr + 1)
  | 2 => idx ← U8 ptr; val ← get_ws idx; finish val (ptr + 1)
  | 4 =>
    idx ← U16 ptr; c ← get_ctx;
    val ← U32 (idx + data_block c); finish val (ptr + 2)
  | 3 => idx ← U8 ptr; val ← get_fb idx; finish val (ptr + 1)
  | 5 => '(val, ptr') ← get_imm align ptr; mret (val, None, ptr')
  | 6 => idx ← U8 ptr; val ← ask (fun d => pll_read d idx); finish val (ptr + 1)
  | 7 => idx ← U8 ptr; val ← ask (fun d => mc_read d idx); finish val (ptr + 1)
  | _ => finish CDCDCDCD ptr
  end.

Definition atom_skip_src_int (attr ptr : Z) : Z :=
  let align := Z.land (Z.shiftr attr 3) 7 in
  match Z.land attr 7 with
  | 0 | 4 => ptr + 2
  | 6 | 7 | 1 | 2 | 3 => ptr + 1
  | 5 =>
    if align =? ATOM_SRC_DWORD then ptr + 4
    else if align <=? ATOM_SRC_WORD16 then ptr + 2
    else ptr + 1
  | _ => ptr
  end.

Definition atom_get_src (attr ptr : Z) : M (Z * Z) :=
  '(val, _, ptr') ← atom_get_src_int attr ptr; mret (val, ptr').

Definition atom_get_src_direct (align ptr : Z) : M (Z * Z) :=
  match align with
  | 0 => v ← U32 ptr; mret (v, ptr + 4)
  | 1 | 2 | 3 => v ← U16 ptr; mret (v, ptr + 2)
  | 4 | 5 | 6 | 7 => v ← U8 ptr; mret (v, ptr + 1)
  | _ => mret (CDCDCDCD, ptr)
  end.

(** The operand byte of a destination: [arg | align << 3]. *)
Definition dst_attr (arg attr : Z) : Z := Z.lor arg (Z.shiftl (dst_align attr) 3).

(** The third component is what is stored in the caller's [saved]. *)
Definition atom_get_dst (arg attr ptr : Z) : M (Z * Z * Z) :=
  '(val, saved, ptr') ← atom_get_src_int (dst_attr arg attr) ptr;
  mret (val, default uninit saved, ptr').

Definition atom_skip_dst (arg attr ptr : Z) : Z :=
  atom_skip_src_int (dst_attr arg attr) ptr.

Definition put_reg (idx val : Z) : M unit :=
  c ← get_ctx;
  match io_mode c with
  | 0 =>
    if idx =? 0 then tell (fun d => reg_write d idx (u32 (Z.shiftl val 2)))
    else tell (fun d => reg_write d idx val)
  | 1 => mret tt
  | 2 => mret tt
  | m =>
    if Z.land m 128 =? 0 then mret tt
    else
      prog ← lift (arr_get (iio c) (Z.land m 255));
      if prog =? 0 then mret tt
      else _ ← atom_iio_execute prog idx val; mret tt
  end.

Definition put_ps (idx val : Z) : M unit :=
  e ← get_ec; p ← get_params;
  p' ← lift (arr_set p (ps e + idx) val); put_params p'.

Definition put_ws (idx val : Z) : M unit :=
  match idx with
  | 64 => upd_ctx (set_divmul0 val)
  | 65 => upd_ctx (set_divmul1 val)
  | 66 => upd_ctx (set_data_block (u16 val))
  | 67 => upd_ctx (set_shift (u8 val))
  | 68 => mret tt
  | 69 => mret tt
  | 70 => upd_ctx (set_fb_base val)
  | 71 => upd_ctx (set_io_attr (u16 val))
  | 72 => upd_ctx (set_reg_block (u16 val))
  | _ =>
    e ← get_ec; w ← lift (deref (ws e));
    w' ← lift (arr_set w idx val); upd_ec (set_ws (Some w'))
  end.

Definition put_fb (idx val : Z) : M unit :=
  c ← get_ctx;
  if fb_beyond c idx then mret tt
  else
    sc ← lift (arr_set (scratch c) (u32 (fb_base c / 4 + idx)) val);
    upd_ctx (set_scratch sc).

(** The word written: the field from [val], the other bits from [saved]. *)
Definition merge_field (align val saved : Z) : Z :=
  Z.lor (Z.land (u32 (Z.shiftl val (shift_of align))) (mask_of align))
        (Z.land saved (not32 (mask_of align))).

Definition atom_put_dst (arg attr ptr val saved : Z) : M unit :=
  let val := merge_field (dst_align attr) val saved in
  match arg with
  | 0 => idx ← U16 ptr; c ← get_ctx; put_reg (u32 (idx + reg_block c)) val
  | 1 => idx ← U8 ptr; put_ps idx val
  | 2 => idx ← U8 ptr; put_ws idx val
  | 3 => idx ← U8 ptr; put_fb idx val
  | 6 => idx ← U8 ptr; tell (fun d => pll_write d idx val)
  | 7 => idx ← U8 ptr; tell (fun d => mc_write d idx val)
  | _ => mret tt
  end.

(** ** Instructions

    An instruction gets its argument from the opcode table and the pointer
    after the opcode; it returns the new pointer. *)

(** The common body of the instructions [dst = dst <op> src]. *)
Definition dst_op_src (f : Z -> Z -> Z) (arg ptr : Z) : M Z :=
  attr ← U8 ptr;
  let dptr := ptr + 1 in
  '(dst, saved, ptr) ← atom_get_dst arg attr dptr;
  '(src, ptr) ← atom_get_src attr ptr;
  atom_put_dst arg attr dptr (f dst src) saved;;
  mret ptr.

Definition atom_op_add := dst_op_src (fun dst src => u32 (dst + src)).
Definition atom_op_and := dst_op_src Z.land.
Definition atom_op_or := dst_op_src Z.lor.
Definition atom_op_sub := dst_op_src (fun dst src => u32 (dst - src)).
Definition atom_op_xor := dst_op_src Z.lxor.

Definition atom_op_beep (arg ptr : Z) : M Z := mret ptr.

(** The nested execution is a parameter: the loop below ties the knot. *)
Definition atom_op_calltable (execute : Z -> Z -> M Z) (arg ptr : Z) : M Z :=
  idx ← U8 ptr;
  c ← get_ctx;
  entry ← U16 (cmd_table c + 4 + 2 * idx);
  e ← get_ec;
  r ← (if entry =? 0 then mret 0 else execute idx (ps e + ps_shift e));
  (if r =? 0 then mret tt else upd_ec (set_abort true));;
  mret (ptr + 1).

(** [attr &= 0x38; attr |= atom_def_dst[attr >> 3] << 6] *)
Definition def_attr (attr : Z) : Z :=
  let a := Z.land attr 56 in
  u8 (Z.lor a (Z.shiftl (tab atom_def_dst (Z.shiftr a 3)) 6)).

Definition atom_op_clear (arg ptr : Z) : M Z :=
  attr ← U8 ptr;
  let dptr := ptr + 1 in
  let attr := def_attr attr in
  '(_, saved, ptr) ← atom_get_dst arg attr dptr;
  atom_put_dst arg attr dptr 0 saved;;
  mret ptr.

Definition atom_op_compare (arg ptr : Z) : M Z :=
  attr ← U8 ptr;
  '(dst, _, ptr) ← atom_get_dst arg attr (ptr + 1);
  '(src, ptr) ← atom_get_src attr ptr;
  upd_ctx (set_cs_equal (dst =? src));;
  upd_ctx (set_cs_above (src <? dst));;
  mret ptr.

Definition atom_op_delay (arg ptr : Z) : M Z :=
  count ← U8 ptr;
  (if arg =? ATOM_UNIT_MICROSEC then tell (fun d => udelay d count)
   else tell (fun d => if negb (drm_can_sleep d) then mdelay d count else msleep d count));;
  mret (ptr + 1).

Definition atom_op_div (arg ptr : Z) : M Z :=
  attr ← U8 ptr;
  '(dst, _, ptr) ← atom_get_dst arg attr (ptr + 1);
  '(src, ptr) ← atom_get_src attr ptr;
  (if negb (src =? 0) then
     upd_ctx (set_divmul0 (dst / src));; upd_ctx (set_divmul1 (dst mod src))
   else
     upd_ctx (set_divmul0 0);; upd_ctx (set_divmul1 0));;
  mret ptr.

Definition atom_op_eot (arg ptr : Z) : M Z := mret ptr.

Definition jump_taken (arg : Z) (c : atom_context) : bool :=
  match arg with
  | 0 => cs_above c
  | 1 => cs_above c || cs_equal c
  | 2 => true
  | 3 => negb (cs_above c || cs_equal c)
  | 4 => negb (cs_above c)
  | 5 => cs_equal c
  | 6 => negb (cs_equal c)
  | _ => false
  end.

(** The bookkeeping of a taken jump to [target]: a repeated jump to the same
    place is given five seconds. *)
Definition note_jump (target : Z) : M unit :=
  e ← get_ec;
  if last_jump e =? u32 (start e + target) then
    cj ← ask jiffies;
    since ← lift (deref (last_jump_jiffies e));
    if time_after cj since then
      if 5000 <? jiffies_to_msecs (ul (cj - since)) then upd_ec (set_abort true) else mret tt
    else
      now ← ask jiffies; upd_ec (set_last_jump_jiffies now)
  else
    upd_ec (set_last_jump (u32 (start e + target)));;
    now ← ask jiffies; upd_ec (set_last_jump_jiffies now).

Definition atom_op_jump (arg ptr : Z) : M Z :=
  target ← U16 ptr;
  c ← get_ctx;
  if jump_taken arg c then
    note_jump target;;
    e ← get_ec; mret (start e + target)
  else mret (ptr + 2).

Definition atom_op_mask (arg ptr : Z) : M Z :=
  attr ← U8 ptr;
  let dptr := ptr + 1 in
  '(dst, saved, ptr) ← atom_get_dst arg attr dptr;
  '(mask, ptr) ← atom_get_src_direct (Z.land (Z.shiftr attr 3) 7) ptr;
  '(src, ptr) ← atom_get_src attr ptr;
  atom_put_dst arg attr dptr (Z.lor (Z.land dst mask) src) saved;;
  mret ptr.

Definition atom_op_move (arg ptr : Z) : M Z :=
  attr ← U8 ptr;
  let dptr := ptr + 1 in
  '(saved, ptr) ←
    (if negb (Z.land (Z.shiftr attr 3) 7 =? ATOM_SRC_DWORD) then
       '(_, saved, ptr) ← atom_get_dst arg attr dptr; mret (saved, ptr)
     else mret (CDCDCDCD, atom_skip_dst arg attr dptr));
  '(src, ptr) ← atom_get_src attr ptr;
  atom_put_dst arg attr dptr src saved;;
  mret ptr.

Definition atom_op_mul (arg ptr : Z) : M Z :=
  attr ← U8 ptr;
  '(dst, _, ptr) ← atom_get_dst arg attr (ptr + 1);
  '(src, ptr) ← atom_get_src attr ptr;
  upd_ctx (set_divmul0 (u32 (dst * src)));;
  mret ptr.

Definition atom_op_nop (arg ptr : Z) : M Z := mret ptr.

Definition atom_op_postcard (arg ptr : Z) : M Z := _ ← U8 ptr; mret (ptr + 1).

Definition atom_op_repeat (arg ptr : Z) : M Z := mret ptr.
Definition atom_op_restorereg (arg ptr : Z) : M Z := mret ptr.
Definition atom_op_savereg (arg ptr : Z) : M Z := mret ptr.

Definition atom_op_setdatablock (arg ptr : Z) : M Z :=
  idx ← U8 ptr;
  e ← get_ec; c ← get_ctx;
  (if idx =? 0 then upd_ctx (set_data_block 0)
   else if idx =? 255 then upd_ctx (set_data_block (start e))
   else v ← U16 (data_table c + 4 + 2 * idx); upd_ctx (set_data_block v));;
  mret (ptr + 1).

Definition atom_op_setfbbase (arg ptr : Z) : M Z :=
  attr ← U8 ptr;
  '(v, ptr) ← atom_get_src attr (ptr + 1);
  upd_ctx (set_fb_base v);;
  mret ptr.

Definition atom_op_setport (arg ptr : Z) : M Z :=
  match arg with
  | 0 =>
    port ← U16 ptr;
    upd_ctx (set_io_mode (if port =? 0 then ATOM_IO_MM else Z.lor ATOM_IO_IIO port));;
    mret (ptr + 2)
  | 1 => upd_ctx (set_io_mode ATOM_IO_PCI);; mret (ptr + 1)
  | 2 => upd_ctx (set_io_mode ATOM_IO_SYSIO);; mret (ptr + 1)
  | _ => mret ptr
  end.

Definition atom_op_setregblock (arg ptr : Z) : M Z :=
  v ← U16 ptr; upd_ctx (set_reg_block v);; mret (ptr + 2).

(** The common body of SHIFT_LEFT and SHIFT_RIGHT: the shift count is an
    immediate byte, the destination the default field. *)
Definition shift_imm (f : Z -> Z -> Z) (arg ptr : Z) : M Z :=
  attr ← U8 ptr;
  let dptr := ptr + 1 in
  let attr := def_attr attr in
  '(dst, saved, ptr) ← atom_get_dst arg attr dptr;
  '(sh, ptr) ← atom_get_src_direct ATOM_SRC_BYTE0 ptr;
  atom_put_dst arg attr dptr (f dst (u8 sh)) saved;;
  mret ptr.

Definition atom_op_shift_left := shift_imm shl32.
Definition atom_op_shift_right := shift_imm shr32.

(** The common body of SHL and SHR: the whole saved word is shifted, then the
    field cut out. *)
Definition shift_full (f : Z -> Z -> Z) (arg ptr : Z) : M Z :=
  attr ← U8 ptr;
  let dptr := ptr + 1 in
  '(_, saved, ptr) ← atom_get_dst arg attr dptr;
  '(sh, ptr) ← atom_get_src attr ptr;
  atom_put_dst arg attr dptr (src_field (dst_align attr) (f saved (u8 sh))) saved;;
  mret ptr.

Definition atom_op_shl := shift_full shl32.
Definition atom_op_shr := shift_full shr32.

Fixpoint switch_loop (fuel : nat) (attr src ptr : Z) : M Z :=
  match fuel with
  | O => fun _ => Loops
  | S fuel =>
    w ← U16 ptr;
    if w =? ATOM_CASE_END then mret (ptr + 2)
    else
      b ← U8 ptr;
      if b =? ATOM_CASE_MAGIC then
        '(val, ptr) ← atom_get_src (Z.lor (Z.land attr 56) ATOM_ARG_IMM) (ptr + 1);
        target ← U16 ptr;
        if val =? src then e ← get_ec; mret (start e + target)
        else switch_loop fuel attr src (ptr + 2)
      else mret ptr
  end.

Definition atom_op_switch (arg ptr : Z) : M Z :=
  attr ← U8 ptr;
  '(src, ptr) ← atom_get_src attr (ptr + 1);
  c ← get_ctx;
  switch_loop (bios_fuel c) attr src ptr.

Definition atom_op_test (arg ptr : Z) : M Z :=
  attr ← U8 ptr;
  '(dst, _, ptr) ← atom_get_dst arg attr (ptr + 1);
  '(src, ptr) ← atom_get_src attr ptr;
  upd_ctx (set_cs_equal (Z.land dst src =? 0));;
  mret ptr.

Definition atom_op_debug (arg ptr : Z) : M Z := mret ptr.

(** ** The opcode table *)
Inductive op_func :=
| F_NULL | F_move | F_and | F_or | F_shift_left | F_shift_right | F_mul | F_div | F_add | F_sub
| F_setport | F_setregblock | F_setfbbase | F_compare | F_switch | F_jump | F_test | F_delay
| F_calltable | F_repeat | F_clear | F_nop | F_eot | F_mask | F_postcard | F_beep | F_savereg
| F_restorereg | F_setdatablock | F_xor | F_shl | F_shr | F_debug.

(** Six consecutive entries, one for each kind of destination. *)
Definition on_args (f : op_func) : list (op_func * Z) :=
  [(f, ATOM_ARG_REG); (f, ATOM_ARG_PS); (f, ATOM_ARG_WS); (f, ATOM_ARG_FB); (f, ATOM_ARG_PLL);
   (f, ATOM_ARG_MC)].

Definition opcode_table : list (op_func * Z) :=
  [(F_NULL, 0)] ++ on_args F_move ++ on_args F_and ++ on_args F_or ++ on_args F_shift_left ++
  on_args F_shift_right ++ on_args F_mul ++ on_args F_div ++ on_args F_add ++ on_args F_sub ++
  [(F_setport, ATOM_PORT_ATI); (F_setport, ATOM_PORT_PCI); (F_setport, ATOM_PORT_SYSIO);
   (F_setregblock, 0); (F_setfbbase, 0)] ++
  on_args F_compare ++
  [(F_switch, 0); (F_jump, ATOM_COND_ALWAYS); (F_jump, ATOM_COND_EQUAL);
   (F_jump, ATOM_COND_BELOW); (F_jump, ATOM_COND_ABOVE); (F_jump, ATOM_COND_BELOWOREQUAL);
   (F_jump, ATOM_COND_ABOVEOREQUAL); (F_jump, ATOM_COND_NOTEQUAL)] ++
  on_args F_test ++
  [(F_delay, ATOM_UNIT_MILLISEC); (F_delay, ATOM_UNIT_MICROSEC); (F_calltable, 0);
   (F_repeat, 0)] ++
  on_args F_clear ++ [(F_nop, 0); (F_eot, 0)] ++ on_args F_mask ++
  [(F_postcard, 0); (F_beep, 0); (F_savereg, 0); (F_restorereg, 0); (F_setdatablock, 0)] ++
  on_args F_xor ++ on_args F_shl ++ on_args F_shr ++ [(F_debug, 0)].

Definition call (execute : Z -> Z -> M Z) (f : op_func) : Z -> Z -> M Z :=
  match f with
  | F_NULL => fun _ _ _ => Oops
  | F_move => atom_op_move | F_and => atom_op_and | F_or => atom_op_or
  | F_shift_left => atom_op_shift_left | F_shift_right => atom_op_shift_right
  | F_mul => atom_op_mul | F_div => atom_op_div | F_add => atom_op_add | F_sub => atom_op_sub
  | F_setport => atom_op_setport | F_setregblock => atom_op_setregblock
  | F_setfbbase => atom_op_setfbbase | F_compare => atom_op_compare
  | F_switch => atom_op_switch | F_jump => atom_op_jump | F_test => atom_op_test
  | F_delay => atom_op_delay | F_calltable => atom_op_calltable execute
  | F_repeat => atom_op_repeat | F_clear => atom_op_clear | F_nop => atom_op_nop
  | F_eot => atom_op_eot | F_mask => atom_op_mask | F_postcard => atom_op_postcard
  | F_beep => atom_op_beep | F_savereg => atom_op_savereg | F_restorereg => atom_op_restorereg
  | F_setdatablock => atom_op_setdatablock | F_xor => atom_op_xor | F_shl => atom_op_shl
  | F_shr => atom_op_shr | F_debug => atom_op_debug
  end.

(** ** Running a table *)

(** The loop of [atom_execute_table_locked] over instructions.  The result is
    the table's return value. *)
Fixpoint op_loop (execute : Z -> Z -> M Z) (fuel : nat) (ptr : Z) : M Z :=
  match fuel with
  | O => fun _ => Loops
  | S fuel =>
    op ← U8 ptr;
    e ← get_ec;
    if abort e then mret (- EINVAL)
    else if (op <? ATOM_OP_CNT) && (0 <? op) then
      match nth (Z.to_nat op) opcode_table (F_NULL, 0) with
      | (f, arg) =>
        ptr ← call execute f arg (ptr + 1);
        if op =? ATOM_OP_EOT then upd_depth (-1);; mret 0 else op_loop execute fuel ptr
      end
    else upd_depth (-1);; mret 0
  end.

(** The fresh execution context; it replaces the caller's while the table
    runs. *)
Definition enter_table (base psz wsz params_at : Z) : M atom_exec_context :=
  old ← get_ec;
  w ← (if wsz =? 0 then mret None
       else ok ← ask kzalloc_ok;
            mret (if ok : bool then Some (replicate (Z.to_nat wsz) 0) else None));
  upd_ec (fun _ => MkEc params_at w (psz / 4) base 0 None false);;
  upd_depth 1;;
  mret old.

(** [n] bounds the nesting of tables, [fuel] the instructions of each table. *)
Fixpoint atom_execute_table_locked (fuel n : nat) (index params_at : Z) : M Z :=
  match n with
  | O => fun _ => Loops
  | S n =>
    c ← get_ctx;
    base ← U16 (cmd_table c + 4 + 2 * index);
    if base =? 0 then mret (- EINVAL)
    else
      _ ← U16 base;
      wsz ← U8 (base + 4);
      pb ← U8 (base + 5);
      old ← enter_table base (Z.land pb 127) wsz params_at;
      ret ← op_loop (atom_execute_table_locked fuel n) fuel (base + 6);
      upd_ec (fun _ => old);;
      mret ret
  end.

Definition atom_execute_table_scratch_unlocked (fuel n : nat) (index params_at : Z) : M Z :=
  upd_ctx (set_data_block 0);;
  upd_ctx (set_reg_block 0);;
  upd_ctx (set_fb_base 0);;
  upd_ctx (set_io_mode ATOM_IO_MM);;
  upd_ctx (set_divmul0 0);;
  upd_ctx (set_divmul1 0);;
  atom_execute_table_locked fuel n index params_at.

Definition atom_execute_table (fuel n : nat) (index params_at : Z) : M Z :=
  atom_execute_table_scratch_unlocked fuel n index params_at.

(** The 16 words of arguments of [atom_asic_init] are the parameter array. *)
Definition atom_asic_init (fuel n : nat) : M Z :=
  c ← get_ctx;
  hwi ← U16 (data_table c + 12);
  put_params (replicate 16 0);;
  sclk ← U32 (hwi + 8);
  mclk ← U32 (hwi + 12);
  put_params (sclk :: mclk :: replicate 14 0);;
  if (sclk =? 0) || (mclk =? 0) then mret 1
  else
    init ← U16 (cmd_table c + 4 + 2 * 0);
    if init =? 0 then mret 1
    else
      ret ← atom_execute_table fuel n 0 0;
      if negb (ret =? 0) then mret ret
      else
        put_params (replicate 16 0);;
        (if family <? CHIP_R600 then
           fan ← U16 (cmd_table c + 4 + 2 * 57);
           if fan =? 0 then mret tt
           else _ ← atom_execute_table fuel n 57 0; mret tt
         else mret tt);;
        mret ret.

(** ** Reading the image *)
Definition atom_iio_len : list Z := [1; 2; 3; 3; 3; 3; 4; 4; 4; 3].

(** The inner loop of [atom_index_iio]: to the END instruction. *)
Fixpoint iio_skip (b : list Z) (fuel : nat) (base : Z) : run Z :=
  match fuel with
  | O => Loops
  | S fuel =>
    op ← get_u8 b base;
    if op =? 9 then Done base
    else len ← arr_get atom_iio_len op; iio_skip b fuel (base + len)
  end.

Fixpoint iio_index (b : list Z) (fuel : nat) (base : Z) (t : list Z) : run (list Z) :=
  match fuel with
  | O => Loops
  | S fuel =>
    op ← get_u8 b base;
    if op =? 1 then
      k ← get_u8 b (base + 1);
      t' ← arr_set t k (u16 (base + 2));
      base ← iio_skip b (S (length b)) (base + 2);
      iio_index b fuel (base + 3) t'
    else Done t
  end.

(** [iio] stays empty when the allocation fails. *)
Definition atom_index_iio (base : Z) : M unit :=
  ok ← ask kzalloc_ok;
  if negb ok then upd_ctx (set_iio [])
  else
    c ← get_ctx;
    t ← lift (iio_index (bios c) (bios_fuel c) base (replicate 256 0));
    upd_ctx (set_iio t).

(** [strncmp(CSTR(at), magic, strlen(magic)) == 0] for a magic string without
    zero bytes. *)
Fixpoint has_magic (b : list Z) (at_ : Z) (magic : list Z) : run bool :=
  match magic with
  | [] => Done true
  | m :: magic =>
    x ← get_u8 b at_;
    if x =? m then has_magic b (at_ + 1) magic else Done false
  end.

(** " 761295520" and "ATOM" *)
Definition ATOM_ATI_MAGIC : list Z := [32; 55; 54; 49; 50; 57; 53; 53; 50; 48].
Definition ATOM_ROM_MAGIC : list Z := [65; 84; 79; 77].

Fixpoint skip_newlines (b : list Z) (fuel : nat) (str : Z) : run Z :=
  match fuel with
  | O => Loops
  | S fuel =>
    x ← get_u8 b str;
    if (x =? 10) || (x =? 13) then skip_newlines b fuel (str + 1) else Done str
  end.

(** The printed name: at most 511 characters, up to the first outside
    ['.'..'z']. *)
Fixpoint read_name (b : list Z) (n : nat) (str : Z) : run (list Z) :=
  match n with
  | O => Done []
  | S n =>
    x ← get_u8 b str;
    if (x <? 46) || (122 <? x) then Done []
    else rest ← read_name b n (str + 1); Done (x :: rest)
  end.

Definition empty_context (b : list Z) : atom_context :=
  MkCtx b 0 0 [] 0 0 0 0 0 0 0 false false 0 [] 0.

(** [atom_parse] on the context it allocates: the name it prints, or [None] for
    a NULL result. *)
Definition atom_parse (b : list Z) : M (option (list Z)) :=
  ok ← ask kzalloc_ok;
  if negb ok then mret None
  else
    upd_ctx (fun _ => empty_context b);;
    magic ← U16 0;
    if negb (magic =? 43605) then mret None
    else
      ati ← lift (has_magic b 48 ATOM_ATI_MAGIC);
      if negb ati then mret None
      else
        base ← U16 72;
        rom ← lift (has_magic b (base + 4) ATOM_ROM_MAGIC);
        if negb rom then mret None
        else
          cmd ← U16 (base + 30);
          data ← U16 (base + 32);
          upd_ctx (set_tables cmd data);;
          iiop ← U16 (data + 50);
          atom_index_iio (iiop + 4);;
          c ← get_ctx;
          match iio c with
          | [] => mret None
          | _ =>
            msg ← U16 (base + 16);
            str ← lift (skip_newlines b (S (length b)) msg);
            name ← lift (read_name b 511 str);
            mret (Some name)
          end.

(** The result: size, frev, crev and data_start. *)
Definition atom_parse_data_header (index : Z) : M (option (Z * Z * Z * Z)) :=
  c ← get_ctx;
  idx ← U16 (data_table c + (index * 2 + 4));
  entry ← U16 (data_table c + 4 + 2 * index);
  if entry =? 0 then mret None
  else size ← U16 idx; frev ← U8 (idx + 2); crev ← U8 (idx + 3);
       mret (Some (size, frev, crev, idx)).

Definition atom_parse_cmd_header (index : Z) : M (option (Z * Z)) :=
  c ← get_ctx;
  idx ← U16 (cmd_table c + (index * 2 + 4));
  entry ← U16 (cmd_table c + 4 + 2 * index);
  if entry =? 0 then mret None
  else frev ← U8 (idx + 2); crev ← U8 (idx + 3); mret (Some (frev, crev)).

Definition VRAM_UsageByFirmware := 11.

(** The header is read without its size and revisions here. *)
Definition atom_allocate_fb_scratch : M Z :=
  c ← get_ctx;
  idx ← U16 (data_table c + (VRAM_UsageByFirmware * 2 + 4));
  entry ← U16 (data_table c + 4 + 2 * VRAM_UsageByFirmware);
  usage ← (if entry =? 0 then mret 0 else kb ← U16 (idx + 8); mret (kb * 1024));
  upd_ctx (set_scratch_size 0);;
  let usage := if usage =? 0 then 20 * 1024 else usage in
  ok ← ask kzalloc_ok;
  if negb ok then upd_ctx (set_scratch []);; mret (- ENOMEM)
  else
    upd_ctx (set_scratch (replicate (Z.to_nat (usage / 4)) 0));;
    upd_ctx (set_scratch_size usage);;
    mret 0.

End interpreter.
