(* ===== verification/AtomSpec.v ===== *)
(** * The ATOM interpreter: widths and frame

    The type invariant of the interpreter state ([wt]: every field within the
    width of its C type), the frame of an instruction ([frame]: the image, its
    tables and the sizes of all memories are fixed) and a small program logic
    ([ok]) in which every operation is shown to keep both. *)

From S2P Require Import Prelude Atom.

(** What the driver relies on in its environment: 32-bit values. *)
Class CardLaws (D : Type) `{!Card D} : Prop := {
  reg_read_u32 d i : is_u32 (reg_read d i).1;
  ioreg_read_u32 d i : is_u32 (ioreg_read d i).1;
  mc_read_u32 d i : is_u32 (mc_read d i).1;
  pll_read_u32 d i : is_u32 (pll_read d i).1;
  uninit_u32 : is_u32 uninit;
}.

Definition wt_ctx (c : atom_context) : Prop :=
  Forall is_u8 (bios c) /\ Forall is_u16 (iio c) /\ is_u16 (data_block c) /\
  is_u32 (fb_base c) /\ is_u32 (divmul0 c) /\ is_u32 (divmul1 c) /\ is_u16 (io_attr c) /\
  is_u16 (reg_block c) /\ is_u8 (shift c) /\ is_u16 (io_mode c) /\ Forall is_u32 (scratch c).

(** The clock of the last jump is set once there was one. *)
Definition wt_ec (e : atom_exec_context) : Prop :=
  is_u16 (start e) /\ is_u32 (last_jump e) /\
  match ws e with Some w => Forall is_u32 w | None => True end /\
  (last_jump_jiffies e = None -> last_jump e = 0).

Definition frame_ctx (c c' : atom_context) : Prop :=
  bios c' = bios c /\ cmd_table c' = cmd_table c /\ data_table c' = data_table c /\
  iio c' = iio c /\ scratch_size_bytes c' = scratch_size_bytes c /\
  length (scratch c') = length (scratch c).

Definition frame_ec (e e' : atom_exec_context) : Prop :=
  ps e' = ps e /\ ps_shift e' = ps_shift e /\ start e' = start e /\
  length <$> ws e' = length <$> ws e.

#[export] Instance frame_ctx_preorder : PreOrder frame_ctx.
Proof.
  split; unfold frame_ctx; [done|].
  intros c1 c2 c3 (?&?&?&?&?&?) (?&?&?&?&?&?). repeat split; congruence.
Qed.

#[export] Instance frame_ec_preorder : PreOrder frame_ec.
Proof.
  split; unfold frame_ec; [done|].
  intros c1 c2 c3 (?&?&?&?) (?&?&?&?). repeat split; congruence.
Qed.

(** ** Values *)
Lemma u16_bounds x : is_u16 (u16 x).
Proof. apply wrap_bounds. lia. Qed.

Lemma land_bounds n x y : 0 <= n -> 0 <= x < 2 ^ n -> 0 <= Z.land x y < 2 ^ n.
Proof.
  intros Hn Hx. assert (0 <= Z.land x y) by (apply Z.land_nonneg; lia).
  split; [done|]. apply bits_bound; [done..|]. intros m Hm.
  by rewrite Z.land_spec, (testbit_high x n m).
Qed.

Lemma lxor_bounds n x y : 0 <= n -> 0 <= x < 2 ^ n -> 0 <= y < 2 ^ n -> 0 <= Z.lxor x y < 2 ^ n.
Proof.
  intros Hn Hx Hy. assert (0 <= Z.lxor x y) by (apply Z.lxor_nonneg; lia).
  split; [done|]. apply bits_bound; [done..|]. intros m Hm.
  by rewrite Z.lxor_spec, (testbit_high x n m), (testbit_high y n m).
Qed.

Lemma shiftr_bounds n x k : 0 <= k -> 0 <= x < 2 ^ n -> 0 <= Z.shiftr x k < 2 ^ n.
Proof.
  intros Hk Hx. rewrite Z.shiftr_div_pow2 by done.
  assert (0 < 2 ^ k) by (apply Z.pow_pos_nonneg; lia).
  split; [apply Z.div_pos; lia|]. apply Z.le_lt_trans with x; [|lia].
  apply Z.div_le_upper_bound; nia.
Qed.

Lemma lor_u32 x y : is_u32 x -> is_u32 y -> is_u32 (Z.lor x y).
Proof. by apply lor_bounds. Qed.
Lemma land_u32 x y : is_u32 x -> is_u32 (Z.land x y).
Proof. by apply land_bounds. Qed.
Lemma lxor_u32 x y : is_u32 x -> is_u32 y -> is_u32 (Z.lxor x y).
Proof. by apply lxor_bounds. Qed.
Lemma u8_u32 x : is_u8 x -> is_u32 x.
Proof. unfold is_u8, is_u32. lia. Qed.
Lemma u16_u32 x : is_u16 x -> is_u32 x.
Proof. unfold is_u16, is_u32. lia. Qed.

#[export] Hint Resolve u16_bounds lor_u32 land_u32 lxor_u32 u8_u32 u16_u32 u8_bounds u32_bounds : drm.

Lemma shift_of_nonneg align : 0 <= shift_of align.
Proof.
  unfold shift_of, tab, atom_arg_shift. generalize (Z.to_nat align). intros n.
  do 9 (destruct n as [|n]; [simpl; lia|]). destruct n; simpl; lia.
Qed.

Lemma src_field_u32 align v : is_u32 v -> is_u32 (src_field align v).
Proof. intros. apply shiftr_bounds; [apply shift_of_nonneg|]. by apply land_u32. Qed.

Lemma merge_field_u32 align v saved : is_u32 saved -> is_u32 (merge_field align v saved).
Proof. intros. unfold merge_field. auto with drm. Qed.

#[export] Hint Resolve src_field_u32 merge_field_u32 : drm.

Section logic.
Context {D : Type} `{!Card D, !CardLaws D}.
Implicit Types (s : state (D := D)).

Definition wt s : Prop := wt_ctx (ctx s) /\ Forall is_u32 (params s) /\ wt_ec (ec s).

Definition frame_mem s s' : Prop :=
  frame_ctx (ctx s) (ctx s') /\ length (params s') = length (params s).

Definition frame s s' : Prop := frame_mem s s' /\ frame_ec (ec s) (ec s').

#[global] Instance frame_preorder : PreOrder frame.
Proof.
  split; [done|]. intros s1 s2 s3 [[??]?] [[??]?].
  split; [split|]; [by etrans|congruence|by etrans].
Qed.

Lemma M_bind_done {A B} (c : M A) (k : A -> M B) s b s' :
  (c ≫= k) s = Done (b, s') -> exists a s1, c s = Done (a, s1) /\ k a s1 = Done (b, s').
Proof.
  unfold mbind, M_bind. destruct (c s) as [[a s1]| |]; [|done..]. intros E. by exists a, s1.
Qed.

(** A routine that keeps widths and frame and returns a value with [Q]. *)
Definition ok {A} (c : M A) (Q : A -> Prop) : Prop :=
  forall s a s', wt s -> c s = Done (a, s') -> wt s' /\ frame s s' /\ Q a.

Lemma ok_ret {A} (a : A) (Q : A -> Prop) : Q a -> ok (mret a) Q.
Proof. intros HQ s b s' Hs [= <- <-]. done. Qed.

Lemma ok_bind {A B} (c : M A) (k : A -> M B) (P : A -> Prop) (Q : B -> Prop) :
  ok c P -> (forall a, P a -> ok (k a) Q) -> ok (c ≫= k) Q.
Proof.
  intros Hc Hk s b s' Hs (a & s1 & E & E')%M_bind_done.
  destruct (Hc s a s1 Hs E) as (Hs1 & Hf1 & HP).
  destruct (Hk a HP s1 b s' Hs1 E') as (Hs2 & Hf2 & HQ).
  split; [done|]. split; [by etrans|done].
Qed.

Lemma ok_mono {A} (c : M A) (P Q : A -> Prop) : ok c P -> (forall a, P a -> Q a) -> ok c Q.
Proof. intros Hc HPQ s a s' Hs E. destruct (Hc s a s' Hs E) as (?&?&?). auto. Qed.

Lemma ok_loops {A} (Q : A -> Prop) : ok (fun _ => Loops) Q.
Proof. done. Qed.

Lemma ok_oops {A} (Q : A -> Prop) : ok (fun _ => Oops) Q.
Proof. done. Qed.

Lemma ok_lift {A} (r : run A) (Q : A -> Prop) : (forall a, r = Done a -> Q a) -> ok (lift r) Q.
Proof.
  intros HQ s a s' Hs. unfold lift. mred. destruct r as [b| |]; intros E; [|done..].
  simplify_eq. split; [done|]. split; [done|]. by apply HQ.
Qed.

Lemma ok_get_ctx : ok get_ctx wt_ctx.
Proof. intros s a s' Hs [= <- <-]. split; [done|]. split; [done|apply Hs]. Qed.

Lemma ok_get_ec : ok get_ec wt_ec.
Proof. intros s a s' Hs [= <- <-]. split; [done|]. split; [done|apply Hs]. Qed.

Lemma ok_upd_ctx f :
  (forall c, wt_ctx c -> wt_ctx (f c) /\ frame_ctx c (f c)) -> ok (upd_ctx f) (fun _ => True).
Proof.
  intros Hf s a s' (Hc & Hp & He) [= <- <-]. destruct (Hf _ Hc) as [Hc' Hfr].
  split; [done|]. split; [|done]. by split.
Qed.

Lemma ok_upd_ec f :
  (forall e, wt_ec e -> wt_ec (f e) /\ frame_ec e (f e)) -> ok (upd_ec f) (fun _ => True).
Proof.
  intros Hf s a s' (Hc & Hp & He) [= <- <-]. destruct (Hf _ He) as [He' Hfr].
  split; [done|]. split; [|done]. by split.
Qed.

Lemma ok_ask {A} (f : D -> A * D) (Q : A -> Prop) : (forall d, Q (f d).1) -> ok (ask f) Q.
Proof. intros HQ s a s' Hs [= <- <-]. split; [done|]. split; [done|]. apply HQ. Qed.

Lemma ok_tell f : ok (tell f) (fun _ => True).
Proof. intros s a s' Hs [= <- <-]. done. Qed.

Lemma ok_upd_depth k : ok (upd_depth k) (fun _ => True).
Proof. intros s a s' Hs [= <- <-]. done. Qed.

(** ** Memory *)
Lemma arr_get_Forall {A} (P : A -> Prop) l i a : Forall P l -> arr_get l i = Done a -> P a.
Proof.
  unfold arr_get, deref. intros Hl. case_if; [done|].
  destruct (l !! Z.to_nat i) eqn:E; [|done]. intros [= <-]. by eapply Forall_lookup_1.
Qed.

Lemma arr_set_Forall {A} (P : A -> Prop) l i v l' :
  Forall P l -> P v -> arr_set l i v = Done l' -> Forall P l' /\ length l' = length l.
Proof.
  unfold arr_set. intros Hl Hv. case_if; [done|]. intros [= <-].
  split; [by apply Forall_insert|apply length_insert].
Qed.

Lemma get_u16_u16 b ptr v : Forall is_u8 b -> get_u16 b ptr = Done v -> is_u16 v.
Proof.
  unfold get_u16, get_u8. intros Hb. mred.
  destruct (arr_get b ptr) eqn:E1; [|done..]. destruct (arr_get b (ptr + 1)) eqn:E2; [|done..].
  intros [= <-]. apply (arr_get_Forall _ _ _ _ Hb) in E1, E2. unfold is_u8 in *.
  rewrite Z.lor_comm, (lor_shift _ 8) by lia. unfold is_u16. lia.
Qed.

Lemma get_u32_u32 b ptr v : Forall is_u8 b -> get_u32 b ptr = Done v -> is_u32 v.
Proof.
  unfold get_u32. intros Hb. mred.
  destruct (get_u16 b ptr) eqn:E1; [|done..]. destruct (get_u16 b (ptr + 2)) eqn:E2; [|done..].
  intros [= <-]. apply get_u16_u16 in E1, E2; [|done..]. unfold is_u16 in *.
  rewrite Z.lor_comm, (lor_shift _ 16) by lia. unfold is_u32. lia.
Qed.

Lemma ok_U8 ptr : ok (U8 ptr) is_u8.
Proof.
  eapply ok_bind; [apply ok_get_ctx|]. intros c [Hb _]. apply ok_lift. intros v.
  by apply arr_get_Forall.
Qed.

Lemma ok_U16 ptr : ok (U16 ptr) is_u16.
Proof.
  eapply ok_bind; [apply ok_get_ctx|]. intros c [Hb _]. apply ok_lift. intros v.
  by apply get_u16_u16.
Qed.

Lemma ok_U32 ptr : ok (U32 ptr) is_u32.
Proof.
  eapply ok_bind; [apply ok_get_ctx|]. intros c [Hb _]. apply ok_lift. intros v.
  by apply get_u32_u32.
Qed.


Lemma shl32_u32 x n : is_u32 (shl32 x n).
Proof. unfold shl32. case_if; auto with drm. Qed.

Lemma shr32_u32 x n : is_u32 x -> is_u32 (shr32 x n).
Proof. intros. unfold shr32. case_if; b2p; [|auto with drm]. apply shiftr_bounds; [lia|done]. Qed.

Lemma iio_mask_u32 len : is_u32 (iio_mask len).
Proof. by apply shr32_u32. Qed.

Lemma not32_u32 x : is_u32 (not32 x).
Proof. apply u32_bounds. Qed.

Hint Resolve shl32_u32 shr32_u32 iio_mask_u32 not32_u32 : drm.

Lemma iio_move_u32 temp src len from to : is_u32 temp -> is_u32 (iio_move temp src len from to).
Proof. intros. unfold iio_move. auto with drm. Qed.

Hint Resolve iio_move_u32 : drm.

(** ** Updates of the context *)
Ltac ctx_upd :=
  intros; apply ok_upd_ctx; intros c (?&?&?&?&?&?&?&?&?&?&?);
  split; [unfold wt_ctx; simpl; tauto|done].

Lemma ok_set_data_block v : is_u16 v -> ok (upd_ctx (set_data_block v)) (fun _ => True).
Proof. ctx_upd. Qed.
Lemma ok_set_fb_base v : is_u32 v -> ok (upd_ctx (set_fb_base v)) (fun _ => True).
Proof. ctx_upd. Qed.
Lemma ok_set_divmul0 v : is_u32 v -> ok (upd_ctx (set_divmul0 v)) (fun _ => True).
Proof. ctx_upd. Qed.
Lemma ok_set_divmul1 v : is_u32 v -> ok (upd_ctx (set_divmul1 v)) (fun _ => True).
Proof. ctx_upd. Qed.
Lemma ok_set_io_attr v : is_u16 v -> ok (upd_ctx (set_io_attr v)) (fun _ => True).
Proof. ctx_upd. Qed.
Lemma ok_set_reg_block v : is_u16 v -> ok (upd_ctx (set_reg_block v)) (fun _ => True).
Proof. ctx_upd. Qed.
Lemma ok_set_shift v : is_u8 v -> ok (upd_ctx (set_shift v)) (fun _ => True).
Proof. ctx_upd. Qed.
Lemma ok_set_cs_equal v : ok (upd_ctx (set_cs_equal v)) (fun _ => True).
Proof. ctx_upd. Qed.
Lemma ok_set_cs_above v : ok (upd_ctx (set_cs_above v)) (fun _ => True).
Proof. ctx_upd. Qed.
Lemma ok_set_io_mode v : is_u16 v -> ok (upd_ctx (set_io_mode v)) (fun _ => True).
Proof. ctx_upd. Qed.

Hint Resolve ok_U8 ok_U16 ok_U32 ok_get_ctx ok_get_ec ok_tell ok_upd_depth ok_loops ok_oops
  ok_set_data_block ok_set_fb_base ok_set_divmul0 ok_set_divmul1 ok_set_io_attr ok_set_reg_block
  ok_set_shift ok_set_cs_equal ok_set_cs_above ok_set_io_mode : ok.

(** One step of a routine: sequencing, branches and results. *)
Ltac ok_step :=
  match goal with
  | |- ok (mret _) _ => apply ok_ret
  | |- ok (_ ≫= _) _ => eapply ok_bind; [solve [eauto with ok drm]|cbn beta; intros ??]
  | |- ok (if ?b then _ else _) _ => destruct b eqn:?
  | |- ok (match ?x with _ => _ end) _ => destruct x
  | |- ok _ _ => solve [eauto with ok drm]
  end.
Ltac ok_auto := repeat ok_step; try done; eauto with drm.

(** ** Operands *)
Lemma ok_iio_loop fuel index data base temp :
  is_u32 temp -> ok (iio_loop fuel index data base temp) is_u32.
Proof.
  revert base temp. induction fuel as [|fuel IH]; intros base temp Ht; cbn [iio_loop]; [done|].
  eapply ok_bind; [apply ok_U8|]. intros op _.
  assert (Hask : forall reg, ok (ask (fun d => ioreg_read d reg)) is_u32)
    by (intros; apply ok_ask; intros; apply ioreg_read_u32).
  repeat match goal with |- ok (match ?x with _ => _ end) _ => destruct x end.
  all: try (apply ok_ret; done).
  all: try (by apply IH).
  all: repeat (eapply ok_bind; [solve [eauto with ok drm]|intros ??]).
  all: try (apply IH; solve [eauto 6 with drm]).
  eapply (ok_bind _ _ (fun _ => True)).
  { case_if; [|by apply ok_ret]. eapply ok_bind; [apply Hask|]. intros. by apply ok_ret. }
  intros _ _. eapply ok_bind; [apply ok_tell|]. intros _ _. by apply IH.
Qed.

Lemma ok_iio_execute base index data : ok (atom_iio_execute base index data) is_u32.
Proof. eapply ok_bind; [apply ok_get_ctx|]. intros. by apply ok_iio_loop. Qed.

Hint Resolve ok_iio_execute : ok.

Definition opt_u32 (o : option Z) : Prop := match o with Some v => is_u32 v | None => True end.

Lemma ok_get_reg idx : ok (get_reg idx) opt_u32.
Proof.
  unfold get_reg. eapply ok_bind; [apply ok_get_ctx|]. intros c Hc.
  assert (Hi : forall m, ok (if Z.land m 128 =? 0 then mret None
    else prog ← lift (arr_get (iio c) (Z.land m 127));
      if prog =? 0 then mret None else v ← atom_iio_execute prog idx 0; mret (Some v)) opt_u32).
  { intros m. case_if; [by apply ok_ret|].
    eapply (ok_bind _ _ (fun _ => True)); [by apply ok_lift|]. intros prog _.
    case_if; [by apply ok_ret|]. eapply ok_bind; [apply ok_iio_execute|]. intros. by apply ok_ret. }
  repeat first [apply Hi | by apply ok_ret | match goal with
    |- ok (match ?x with _ => _ end) _ => destruct x end].
  eapply (ok_bind _ _ is_u32); [apply ok_ask; intros; apply reg_read_u32|]. intros. by apply ok_ret.
Qed.

Lemma ok_get_ps idx : ok (get_ps idx) is_u32.
Proof.
  intros s a s' Hs. unfold get_ps, get_ec, get_params, lift. unfold mbind, M_bind, run_bind.
  destruct (arr_get _ _) eqn:E; intros [= <- <-]. split; [done|]. split; [done|].
  eapply arr_get_Forall; [|done]. apply Hs.
Qed.

Lemma ok_get_ws idx : ok (get_ws idx) is_u32.
Proof.
  unfold get_ws. eapply ok_bind; [apply ok_get_ctx|]. intros c (?&?&?&?&?&?&?&?&?&?&?).
  assert (Hd : ok (e ← get_ec; w ← lift (deref (ws e)); lift (arr_get w idx)) is_u32).
  { eapply ok_bind; [apply ok_get_ec|]. intros e (_&_&Hw&_).
    destruct (ws e) as [w|]; [|by eapply ok_bind; [apply (ok_lift _ (fun _ => False))|]].
    eapply (ok_bind _ _ (Forall is_u32)); [apply ok_lift; by intros ? [= <-]|].
    intros w' Hw'. apply ok_lift. intros ?. by apply arr_get_Forall. }
  repeat first [exact Hd | match goal with |- ok (match ?x with _ => _ end) _ => destruct x end].
  all: apply ok_ret; auto with drm.
Qed.

Lemma ok_get_fb idx : ok (get_fb idx) is_u32.
Proof.
  unfold get_fb. eapply ok_bind; [apply ok_get_ctx|]. intros c (?&?&?&?&?&?&?&?&?&?&?).
  case_if; [by apply ok_ret|]. apply ok_lift. intros ?. by apply arr_get_Forall.
Qed.

Lemma ok_get_imm align ptr : ok (get_imm align ptr) (fun r => is_u32 r.1).
Proof. unfold get_imm. ok_auto. Qed.

Hint Resolve ok_get_reg ok_get_ps ok_get_ws ok_get_fb ok_get_imm : ok.

Lemma ok_get_src_int attr ptr :
  ok (atom_get_src_int attr ptr) (fun r => is_u32 r.1.1 /\ opt_u32 r.1.2).
Proof.
  assert (Hp : forall i, ok (ask (fun d => pll_read d i)) is_u32)
    by (intros; apply ok_ask; intros; apply pll_read_u32).
  assert (Hm : forall i, ok (ask (fun d => mc_read d i)) is_u32)
    by (intros; apply ok_ask; intros; apply mc_read_u32).
  unfold atom_get_src_int. cbv zeta.
  repeat match goal with |- ok (match ?x with _ => _ end) _ => destruct x end.
  all: repeat (eapply ok_bind; [solve [eauto with ok drm]|cbn beta; intros ??]).
  all: repeat match goal with |- ok (match ?x with _ => _ end) _ => destruct x end.
  all: apply ok_ret; cbn; split; [|done]; first [done|by apply src_field_u32].
Qed.

Lemma ok_get_src attr ptr : ok (atom_get_src attr ptr) (fun r => is_u32 r.1).
Proof.
  eapply ok_bind; [apply ok_get_src_int|]. intros [[v sv] p] [? _]. by apply ok_ret.
Qed.

Lemma ok_get_dst arg attr ptr :
  ok (atom_get_dst arg attr ptr) (fun r => is_u32 r.1.1 /\ is_u32 r.1.2).
Proof.
  eapply ok_bind; [apply ok_get_src_int|]. intros [[v sv] p] [? ?]. apply ok_ret. cbn in *.
  split; [done|]. destruct sv; [done|apply uninit_u32].
Qed.

Lemma ok_get_src_direct align ptr : ok (atom_get_src_direct align ptr) (fun r => is_u32 r.1).
Proof. unfold atom_get_src_direct. ok_auto. Qed.

(** ** Destinations *)
Lemma ok_put_reg idx val : ok (put_reg idx val) (fun _ => True).
Proof.
  unfold put_reg. eapply ok_bind; [apply ok_get_ctx|]. intros c Hc.
  assert (Hi : forall m, ok (if Z.land m 128 =? 0 then mret tt
    else prog ← lift (arr_get (iio c) (Z.land m 255));
      if prog =? 0 then mret tt else _ ← atom_iio_execute prog idx val; mret tt) (fun _ => True)).
  { intros m. case_if; [by apply ok_ret|].
    eapply (ok_bind _ _ (fun _ => True)); [by apply ok_lift|]. intros prog _.
    case_if; [by apply ok_ret|]. eapply ok_bind; [apply ok_iio_execute|]. intros. by apply ok_ret. }
  repeat first [apply Hi | by apply ok_ret | match goal with
    |- ok (match ?x with _ => _ end) _ => destruct x end].
  all: apply ok_tell.
Qed.

Lemma ok_put_ps idx val : is_u32 val -> ok (put_ps idx val) (fun _ => True).
Proof.
  intros Hv s a s' (Hc & Hp & He). unfold put_ps, get_ec, get_params, put_params, lift.
  unfold mbind, M_bind, run_bind. destruct (arr_set _ _ _) eqn:E; intros [= <- <-].
  apply (arr_set_Forall is_u32) in E as [Hl Hn]; [|done..]. split; [done|]. split; [|done].
  split; [|done]. by split.
Qed.

Lemma ok_put_ws idx val : is_u32 val -> ok (put_ws idx val) (fun _ => True).
Proof.
  intros Hv. unfold put_ws.
  assert (Hd : ok (e ← get_ec; w ← lift (deref (ws e));
    w' ← lift (arr_set w idx val); upd_ec (set_ws (Some w'))) (fun _ => True)).
  { intros s a s' (Hc & Hp & Hs & Hj & Hw & Hl). unfold get_ec, upd_ec, lift.
    unfold mbind, M_bind, run_bind, deref. destruct (ws (ec s)) as [w|] eqn:Ew; [|done].
    destruct (arr_set _ _ _) eqn:E; intros [= <- <-].
    apply (arr_set_Forall is_u32) in E as [Hl' Hn]; [|done..]. split; [done|]. split; [|done].
    split; [done|]. unfold frame_ec. simpl. rewrite Ew. simpl. by rewrite Hn. }
  repeat first [exact Hd | match goal with |- ok (match ?x with _ => _ end) _ => destruct x end].
  all: try (by apply ok_ret); auto with ok drm.
Qed.

Lemma ok_put_fb idx val : is_u32 val -> ok (put_fb idx val) (fun _ => True).
Proof.
  intros Hv s a s' (Hc & Hp & He). unfold put_fb, get_ctx, upd_ctx, lift.
  unfold mbind, M_bind, run_bind. case_if; [by intros [= <- <-]|].
  destruct (arr_set _ _ _) eqn:E; intros [= <- <-]. destruct Hc as (?&?&?&?&?&?&?&?&?&?&?).
  apply (arr_set_Forall is_u32) in E as [Hl Hn]; [|done..].
  split; [split; [unfold wt_ctx; simpl; tauto|done]|]. split; [|done]. by repeat split.
Qed.

Hint Resolve ok_get_src ok_get_dst ok_get_src_direct ok_put_reg ok_put_ps ok_put_ws ok_put_fb : ok.

Lemma ok_put_dst arg attr ptr val saved :
  is_u32 saved -> ok (atom_put_dst arg attr ptr val saved) (fun _ => True).
Proof.
  intros Hs. unfold atom_put_dst. cbv zeta.
  assert (Hm := merge_field_u32 (dst_align attr) val saved Hs).
  repeat match goal with |- ok (match ?x with _ => _ end) _ => destruct x end.
  all: first [by apply ok_ret | eapply ok_bind; [apply ok_U8|] | eapply ok_bind; [apply ok_U16|]].
  all: intros ??; auto with ok.
  eapply ok_bind; [apply ok_get_ctx|]. auto with ok.
Qed.

Hint Resolve ok_put_dst : ok.

(** ** Instructions *)
Ltac op_auto :=
  repeat (first
    [ apply ok_ret; done
    | eapply ok_bind; [solve [eauto 7 with ok drm]|cbn beta; intros ??]
    | match goal with
      | p : (_ * _)%type |- _ => destruct p; cbn [fst snd] in *; destruct_and?
      | |- ok (if ?b then _ else _) _ => destruct b
      end ]); eauto 7 with ok drm.

Lemma ok_dst_op_src f arg ptr :
  (forall x y, is_u32 x -> is_u32 y -> is_u32 (f x y)) ->
  ok (dst_op_src f arg ptr) (fun _ => True).
Proof. intros Hf. unfold dst_op_src. cbv zeta. op_auto. Qed.

Lemma ok_shift_imm f arg ptr : ok (shift_imm f arg ptr) (fun _ => True).
Proof. unfold shift_imm. cbv zeta. op_auto. Qed.

Lemma ok_shift_full f arg ptr : ok (shift_full f arg ptr) (fun _ => True).
Proof. unfold shift_full. cbv zeta. op_auto. Qed.

Lemma ok_move arg ptr : ok (atom_op_move arg ptr) (fun _ => True).
Proof.
  unfold atom_op_move. cbv zeta. eapply ok_bind; [apply ok_U8|]. intros attr _.
  eapply (ok_bind _ _ (fun r => is_u32 r.1)); [case_if; op_auto|].
  intros [saved p] ?. op_auto.
Qed.

Lemma ok_div arg ptr : ok (atom_op_div arg ptr) (fun _ => True).
Proof.
  unfold atom_op_div. op_auto.
  eapply (ok_bind _ _ (fun _ => True)); [|intros; by apply ok_ret].
  match goal with |- ok (if negb (?x =? 0) then _ else _) _ => destruct (Z.eqb_spec x 0) end;
    cbn [negb].
  - eapply ok_bind; [by apply ok_set_divmul0|]. intros _ _. by apply ok_set_divmul1.
  - unfold is_u32 in *.
    eapply ok_bind; [apply ok_set_divmul0|intros _ _; apply ok_set_divmul1]; unfold is_u32.
    + split; [apply Z.div_pos; lia|]. apply Z.div_lt_upper_bound; nia.
    + match goal with |- _ <= ?a mod ?b < _ => pose proof (Z.mod_pos_bound a b) end. lia.
Qed.

Lemma ok_note_jump target : ok (note_jump target) (fun _ => True).
Proof.
  assert (Hjj : forall v, ok (upd_ec (set_last_jump_jiffies v)) (fun _ => True)).
  { intros v. apply ok_upd_ec. intros e (?&?&?&?). split; [unfold wt_ec; simpl; split_and!; done|done]. }
  assert (Hab : ok (upd_ec (set_abort true)) (fun _ => True)).
  { apply ok_upd_ec. intros e (?&?&?&?). split; [unfold wt_ec; simpl; split_and!; done|done]. }
  assert (Hask : ok (ask jiffies) (fun _ => True)) by (by apply ok_ask).
  unfold note_jump. eapply ok_bind; [apply ok_get_ec|]. intros e He. case_if.
  - eapply ok_bind; [exact Hask|]. intros cj _.
    eapply (ok_bind _ _ (fun _ => True)); [by apply ok_lift|]. intros since _.
    case_if; [case_if; [done|by apply ok_ret]|]. eapply ok_bind; [exact Hask|]. auto.
  - intros s a s' (Hc & Hp & (?&?&?&?)). unfold upd_ec, ask. unfold mbind, M_bind.
    intros [= <- <-]. split; [|done]. split; [done|]. split; [done|].
    unfold wt_ec; simpl; split_and!; try done; apply u32_bounds.
Qed.

Lemma ok_jump arg ptr : ok (atom_op_jump arg ptr) (fun _ => True).
Proof.
  unfold atom_op_jump. pose proof ok_note_jump. op_auto.
Qed.

Lemma ok_switch_loop fuel attr src ptr : ok (switch_loop fuel attr src ptr) (fun _ => True).
Proof.
  revert ptr. induction fuel as [|fuel IH]; intros ptr; cbn [switch_loop]; [done|]. op_auto.
Qed.

Lemma ok_switch arg ptr : ok (atom_op_switch arg ptr) (fun _ => True).
Proof. unfold atom_op_switch. pose proof ok_switch_loop. op_auto. Qed.

Lemma ok_calltable execute arg ptr :
  (forall i p, ok (execute i p) (fun _ => True)) ->
  ok (atom_op_calltable execute arg ptr) (fun _ => True).
Proof.
  intros He. unfold atom_op_calltable.
  assert (Hab : ok (upd_ec (set_abort true)) (fun _ => True)).
  { apply ok_upd_ec. intros e (?&?&?&?). split; [unfold wt_ec; simpl; split_and!; done|done]. }
  do 4 (eapply ok_bind; [solve [eauto with ok]|intros ??]).
  eapply (ok_bind _ _ (fun _ => True)); [case_if; [by apply ok_ret|apply He]|]. intros r _.
  eapply (ok_bind _ _ (fun _ => True)); [case_if; [by apply ok_ret|done]|]. intros. by apply ok_ret.
Qed.

Lemma ok_setdatablock arg ptr : ok (atom_op_setdatablock arg ptr) (fun _ => True).
Proof.
  unfold atom_op_setdatablock. do 3 (eapply ok_bind; [solve [eauto with ok]|intros ??]).
  eapply (ok_bind _ _ (fun _ => True)); [|intros; by apply ok_ret].
  case_if; [by apply ok_set_data_block|]. case_if.
  - apply ok_set_data_block. by destruct H0.
  - op_auto.
Qed.

Lemma ok_setport arg ptr : ok (atom_op_setport arg ptr) (fun _ => True).
Proof.
  unfold atom_op_setport.
  repeat match goal with |- ok (match ?x with _ => _ end) _ => destruct x end; try by apply ok_ret.
  all: eapply ok_bind; [solve [eauto with ok|by apply ok_set_io_mode]|intros ??];
    try by apply ok_ret.
  eapply ok_bind; [apply ok_set_io_mode|intros; by apply ok_ret].
  case_if; [done|]. by apply (lor_bounds 16).
Qed.

Lemma ok_delay arg ptr : ok (atom_op_delay arg ptr) (fun _ => True).
Proof.
  unfold atom_op_delay. eapply ok_bind; [apply ok_U8|]. intros count _.
  eapply (ok_bind _ _ (fun _ => True)); [case_if; apply ok_tell|]. intros. by apply ok_ret.
Qed.

Lemma ok_mul arg ptr : ok (atom_op_mul arg ptr) (fun _ => True).
Proof. unfold atom_op_mul. cbv zeta. op_auto. Qed.
Lemma ok_setregblock arg ptr : ok (atom_op_setregblock arg ptr) (fun _ => True).
Proof. unfold atom_op_setregblock. cbv zeta. op_auto. Qed.
Lemma ok_setfbbase arg ptr : ok (atom_op_setfbbase arg ptr) (fun _ => True).
Proof. unfold atom_op_setfbbase. cbv zeta. op_auto. Qed.
Lemma ok_compare arg ptr : ok (atom_op_compare arg ptr) (fun _ => True).
Proof. unfold atom_op_compare. cbv zeta. op_auto. Qed.
Lemma ok_test arg ptr : ok (atom_op_test arg ptr) (fun _ => True).
Proof. unfold atom_op_test. cbv zeta. op_auto. Qed.
Lemma ok_clear arg ptr : ok (atom_op_clear arg ptr) (fun _ => True).
Proof. unfold atom_op_clear. cbv zeta. op_auto. Qed.
Lemma ok_mask arg ptr : ok (atom_op_mask arg ptr) (fun _ => True).
Proof. unfold atom_op_mask. cbv zeta. op_auto. Qed.
Lemma ok_postcard arg ptr : ok (atom_op_postcard arg ptr) (fun _ => True).
Proof. unfold atom_op_postcard. cbv zeta. op_auto. Qed.

Lemma ok_call execute f arg ptr :
  (forall i p, ok (execute i p) (fun _ => True)) -> ok (call execute f arg ptr) (fun _ => True).
Proof.
  intros He. destruct f; cbn [call].
  - apply ok_oops.
  - apply ok_move.
  - apply ok_dst_op_src. auto with drm.
  - apply ok_dst_op_src. auto with drm.
  - apply ok_shift_imm.
  - apply ok_shift_imm.
  - apply ok_mul.
  - apply ok_div.
  - apply ok_dst_op_src. auto with drm.
  - apply ok_dst_op_src. auto with drm.
  - apply ok_setport.
  - apply ok_setregblock.
  - apply ok_setfbbase.
  - apply ok_compare.
  - apply ok_switch.
  - apply ok_jump.
  - apply ok_test.
  - apply ok_delay.
  - by apply ok_calltable.
  - by apply ok_ret.
  - apply ok_clear.
  - by apply ok_ret.
  - by apply ok_ret.
  - apply ok_mask.
  - apply ok_postcard.
  - by apply ok_ret.
  - by apply ok_ret.
  - by apply ok_ret.
  - apply ok_setdatablock.
  - apply ok_dst_op_src. auto with drm.
  - apply ok_shift_full.
  - apply ok_shift_full.
  - by apply ok_ret.
Qed.

Lemma ok_op_loop execute fuel ptr :
  (forall i p, ok (execute i p) (fun _ => True)) ->
  ok (op_loop execute fuel ptr) (fun r => r = 0 \/ r = - EINVAL).
Proof.
  intros He. revert ptr. induction fuel as [|fuel IH]; intros ptr; [done|]. cbn [op_loop].
  eapply ok_bind; [apply ok_U8|]. intros op _. eapply ok_bind; [apply ok_get_ec|]. intros e _.
  case_if; [apply ok_ret; by right|].
  assert (Hz : ok (upd_depth (-1);; mret 0) (fun r => r = 0 \/ r = - EINVAL)).
  { eapply ok_bind; [apply ok_upd_depth|]. intros. apply ok_ret. by left. }
  case_if; [|exact Hz]. destruct (nth _ _ _) as [f arg].
  eapply ok_bind; [by apply ok_call|]. intros p _. case_if; [exact Hz|apply IH].
Qed.

(** ** Running a table *)
Lemma ok_in_table (base psz wsz at_ : Z) (c : M Z) (Q : Z -> Prop) :
  is_u16 base -> ok c Q ->
  ok (old ← enter_table base psz wsz at_; ret ← c; upd_ec (fun _ => old);; mret ret) Q.
Proof.
  intros Hb Hc s a s' Hs.
  assert (Hw : ok (if wsz =? 0 then mret None
     else ok ← ask kzalloc_ok;
       mret (if ok : bool then Some (replicate (Z.to_nat wsz) 0) else None))
     (fun w => match w with Some w => Forall is_u32 w | None => True end)).
  { case_if; [by apply ok_ret|]. eapply (ok_bind _ _ (fun _ => True)); [by apply ok_ask|].
    intros b _. apply ok_ret. destruct b; [|done]. by apply Forall_replicate. }
  intros (old & s0 & (e & ? & [= <- <-] & (w & s1 & Ew & E)%M_bind_done)%M_bind_done
    & E')%M_bind_done.
  injection E as <- <-.
  destruct (Hw s w s1 Hs Ew) as ((Hc1 & Hp1 & He1) & [Hm1 Hf1] & HQ). clear Hw Ew.
  apply M_bind_done in E' as (r & s2 & E & [= <- <-]).
  apply Hc in E as ((Hc2 & Hp2 & He2) & [[Hm2 Hl2] _] & HQ2).
  - destruct Hs as (_ & _ & Hes). simpl in *. split; [done|]. split; [|done].
    destruct Hm1 as [Hm1 Hl1]. split; [|done]. split; [by etrans|simpl; congruence].
  - split; [done|]. split; [done|]. unfold wt_ec. simpl. by split_and!.
Qed.

Lemma ok_execute_table_locked fuel n index at_ :
  ok (atom_execute_table_locked fuel n index at_) (fun r => r = 0 \/ r = - EINVAL).
Proof.
  revert index at_. induction n as [|n IH]; intros index at_; cbn [atom_execute_table_locked]; [done|].
  eapply ok_bind; [apply ok_get_ctx|]. intros c _. eapply ok_bind; [apply ok_U16|].
  intros base Hb. case_if; [apply ok_ret; by right|].
  eapply ok_bind; [apply ok_U16|]. intros _ _. eapply ok_bind; [apply ok_U8|]. intros wsz _.
  eapply ok_bind; [apply ok_U8|]. intros pb _.
  apply ok_in_table; [done|]. apply ok_op_loop. intros. eapply ok_mono; [apply IH|done].
Qed.

Lemma ok_execute_table fuel n index at_ :
  ok (atom_execute_table fuel n index at_) (fun r => r = 0 \/ r = - EINVAL).
Proof.
  unfold atom_execute_table, atom_execute_table_scratch_unlocked.
  repeat (eapply ok_bind; [solve [eauto with ok|
    first [apply ok_set_data_block|apply ok_set_reg_block|apply ok_set_fb_base
      |apply ok_set_io_mode|apply ok_set_divmul0|apply ok_set_divmul1]; done]|intros _ _]).
  apply ok_execute_table_locked.
Qed.

End logic.
