(* ===== verification/AtomProps.v ===== *)
(** * The ATOM interpreter: theorems

    Fields of words (what a destination write changes and a read gives back),
    the pointer arithmetic of operands, the ALU instructions, case tables, the
    termination of indirect IO programs, the stuck-loop detection and the
    accesses to the scratch memory. *)

From S2P Require Import Prelude Atom AtomSpec.

(** ** Fields of 32-bit words *)
Definition field_width (align : Z) : Z := tab [32; 16; 16; 16; 8; 8; 8; 8] align.

Lemma align_cases a (P : Z -> Prop) :
  0 <= a <= 7 -> P 0 -> P 1 -> P 2 -> P 3 -> P 4 -> P 5 -> P 6 -> P 7 -> P a.
Proof.
  intros Ha **. assert (a = 0 \/ a = 1 \/ a = 2 \/ a = 3 \/ a = 4 \/ a = 5 \/ a = 6 \/ a = 7) by lia.
  destruct_or!; by subst.
Qed.

Lemma mask_of_field a :
  0 <= a <= 7 -> mask_of a = Z.shiftl (Z.ones (field_width a)) (shift_of a).
Proof. intros Ha. by apply (align_cases a); [done|..]. Qed.

Lemma field_bounds a :
  0 <= a <= 7 -> 0 < field_width a /\ 0 <= shift_of a /\ field_width a + shift_of a <= 32.
Proof. intros Ha. by apply (align_cases a); [done|..]. Qed.

Lemma dst_align_bounds attr : 0 <= dst_align attr <= 7.
Proof.
  unfold dst_align. generalize (Z.to_nat (Z.land (Z.shiftr attr 3) 7)) as n.
  generalize (Z.land (Z.shiftr attr 6) 3) as k. intros k n. unfold tab.
  generalize (Z.to_nat k) as m. clear k. intros m.
  do 9 (destruct n as [|n]; [do 5 (destruct m as [|m]; [simpl; lia|]); destruct m; simpl; lia|]).
  destruct n, m; simpl; lia.
Qed.

Lemma land_7_bounds x : 0 <= Z.land x 7 <= 7.
Proof. rewrite (land_mask x 3) by done. pose proof (Z.mod_pos_bound x (2 ^ 3)). lia. Qed.

(** Writing a field and reading it: the field has the low bits of the value. *)
Lemma src_field_merge a v w :
  0 <= a <= 7 -> src_field a (merge_field a v w) = v mod 2 ^ field_width a.
Proof.
  intros Ha. unfold src_field, merge_field, not32, u32. rewrite (mask_of_field a Ha).
  pose proof (field_bounds a Ha) as (Hw & Hs & Hb).
  generalize dependent (field_width a). generalize dependent (shift_of a). intros sh Hs wd Hw Hb.
  apply Z.bits_inj'. intros n Hn. rewrite Z.shiftr_spec, Z.land_spec, Z.lor_spec, !Z.land_spec by done.
  rewrite !testbit_wrap by lia. rewrite Z.lnot_spec by lia. rewrite !Z.shiftl_spec by lia.
  replace (n + sh - sh) with n by lia.
  destruct (Z_lt_le_dec n wd).
  - rewrite Z.ones_spec_low by lia. rewrite Z.mod_pow2_bits_low by lia.
    destruct (Z.ltb_spec (n + sh) 32); [|lia]. by rewrite !andb_true_r, andb_false_r, orb_false_r.
  - rewrite Z.ones_spec_high by lia. rewrite Z.mod_pow2_bits_high by lia. by rewrite !andb_false_r.
Qed.

(** The other bits are those of the saved word. *)
Lemma merge_field_rest a v w :
  Z.land (merge_field a v w) (not32 (mask_of a)) = Z.land w (not32 (mask_of a)).
Proof.
  unfold merge_field. apply Z.bits_inj'. intros n Hn.
  rewrite !Z.land_spec, Z.lor_spec, !Z.land_spec. unfold not32, u32.
  rewrite !testbit_wrap, Z.lnot_spec by lia.
  destruct (Z.testbit (mask_of a) n), (Z.ltb n 32); cbn;
    rewrite ?andb_false_r, ?andb_true_r, ?orb_false_r; done.
Qed.

Lemma dst_attr_arg arg attr : 0 <= arg <= 7 -> Z.land (dst_attr arg attr) 7 = arg.
Proof.
  intros Ha. unfold dst_attr. pose proof (dst_align_bounds attr) as Hd. revert Hd.
  generalize (dst_align attr). intros d Hd.
  apply (align_cases d); [done|..]; by apply (align_cases arg).
Qed.

Lemma dst_attr_align arg attr :
  0 <= arg <= 7 -> Z.land (Z.shiftr (dst_attr arg attr) 3) 7 = dst_align attr.
Proof.
  intros Ha. unfold dst_attr. pose proof (dst_align_bounds attr) as Hd. revert Hd.
  generalize (dst_align attr). intros d Hd.
  apply (align_cases d); [done|..]; by apply (align_cases arg).
Qed.

Section props.
Context {D : Type} `{!Card D}.
Implicit Types (s : state (D := D)).

(** ** Pointers *)

(** What a routine returns whenever it returns. *)
Definition gives {A} (c : M (D := D) A) (Q : A -> Prop) : Prop :=
  forall s a s', c s = Done (a, s') -> Q a.

Lemma gives_ret {A} (a : A) (Q : A -> Prop) : Q a -> gives (mret a) Q.
Proof. intros HQ s b s' [= <- <-]. done. Qed.

Lemma gives_bind {A B} (c : M A) (k : A -> M B) (Q : B -> Prop) :
  (forall a, gives (k a) Q) -> gives (c ≫= k) Q.
Proof. intros Hk s b s' (a & s1 & _ & E)%M_bind_done. by eapply Hk. Qed.

Lemma get_src_int_ptr attr ptr :
  gives (atom_get_src_int attr ptr) (fun r => r.2 = atom_skip_src_int attr ptr).
Proof.
  unfold atom_get_src_int, atom_skip_src_int. cbv zeta.
  pose proof (land_7_bounds attr) as Ha. revert Ha. generalize (Z.land attr 7). intros a Ha.
  apply (align_cases a); [done|..].
  6: { unfold get_imm. intros s r s' ([v p] & s1 & E & E')%M_bind_done. injection E' as <- <-.
       revert E. case_if; [intros (? & ? & _ & [= _ <- _])%M_bind_done; done|].
       case_if; intros (? & ? & _ & [= _ <- _])%M_bind_done; done. }
  all: repeat (apply gives_bind; intros ?); try (by apply gives_ret).
  match goal with |- gives (match ?x with _ => _ end) _ => destruct x end; by apply gives_ret.
Qed.

(** ** Reads change nothing but the device *)
Definition with_dev s (d : D) : state := St d (ctx s) (params s) (ec s) (debug_depth s).

Definition reads {A} (c : M (D := D) A) : Prop :=
  forall s a s', c s = Done (a, s') -> exists d, s' = with_dev s d.

Lemma reads_ret {A} (a : A) : reads (mret a).
Proof. intros s b s' [= <- <-]. exists (dev s). by destruct s. Qed.

Lemma reads_bind {A B} (c : M A) (k : A -> M B) :
  reads c -> (forall a, reads (k a)) -> reads (c ≫= k).
Proof.
  intros Hc Hk s b s' (a & s1 & E & E')%M_bind_done. apply Hc in E as [d ->].
  apply Hk in E' as [d' ->]. by exists d'.
Qed.

Lemma reads_lift {A} (r : run A) : reads (lift r).
Proof. intros s a s'. unfold lift. mred. destruct r; intros [= <- <-]. exists (dev s). by destruct s. Qed.

Lemma reads_get_ctx : reads get_ctx.
Proof. intros s a s' [= <- <-]. exists (dev s). by destruct s. Qed.

Lemma reads_get_ec : reads get_ec.
Proof. intros s a s' [= <- <-]. exists (dev s). by destruct s. Qed.

Lemma reads_get_params : reads get_params.
Proof. intros s a s' [= <- <-]. exists (dev s). by destruct s. Qed.

Lemma reads_ask {A} (f : D -> A * D) : reads (ask f).
Proof. intros s a s' [= <- <-]. by eexists. Qed.

Lemma reads_tell f : reads (tell f).
Proof. intros s a s' [= <- <-]. by eexists. Qed.

Lemma reads_stop {A} (r : run (A * state)) : (r = Oops \/ r = Loops) -> reads (fun _ => r).
Proof. intros [-> | ->] s a s' E; done. Qed.

Hint Resolve reads_ret reads_lift reads_get_ctx reads_get_ec reads_get_params reads_ask reads_tell
  reads_bind : reads.

Ltac reads_auto :=
  repeat first [ apply reads_bind; [solve [auto with reads]|intros ?]
    | match goal with |- reads (match ?x with _ => _ end) => destruct x end
    | solve [auto with reads] ].

Lemma reads_U8 ptr : reads (U8 ptr).
Proof. unfold U8. reads_auto. Qed.
Lemma reads_U16 ptr : reads (U16 ptr).
Proof. unfold U16. reads_auto. Qed.
Lemma reads_U32 ptr : reads (U32 ptr).
Proof. unfold U32. reads_auto. Qed.
Hint Resolve reads_U8 reads_U16 reads_U32 : reads.

Lemma reads_iio_loop fuel index data base temp : reads (iio_loop fuel index data base temp).
Proof.
  revert base temp. induction fuel as [|fuel IH]; intros base temp; cbn [iio_loop].
  { apply reads_stop. by right. }
  reads_auto. apply reads_bind; reads_auto.
Qed.

Lemma reads_iio_execute base index data : reads (atom_iio_execute base index data).
Proof. apply reads_bind; [apply reads_get_ctx|]. intros. apply reads_iio_loop. Qed.
Hint Resolve reads_iio_execute : reads.

Lemma reads_get_reg idx : reads (get_reg idx).
Proof. unfold get_reg. reads_auto. Qed.
Lemma reads_get_ps idx : reads (get_ps idx).
Proof. unfold get_ps. reads_auto. Qed.
Lemma reads_get_ws idx : reads (get_ws idx).
Proof. unfold get_ws. reads_auto. Qed.
Lemma reads_get_fb idx : reads (get_fb idx).
Proof. unfold get_fb. reads_auto. Qed.
Lemma reads_get_imm align ptr : reads (get_imm align ptr).
Proof. unfold get_imm. reads_auto. Qed.
Hint Resolve reads_get_reg reads_get_ps reads_get_ws reads_get_fb reads_get_imm : reads.

Lemma reads_get_src_int attr ptr : reads (atom_get_src_int attr ptr).
Proof. unfold atom_get_src_int. cbv zeta. reads_auto. Qed.

Lemma reads_get_src attr ptr : reads (atom_get_src attr ptr).
Proof. apply reads_bind; [apply reads_get_src_int|]. intros [[??]?]. apply reads_ret. Qed.

(** ** Memory destinations

    The destinations that are memory: arguments, work space (without the
    registers of [atom_context] that are narrower than a word or computed) and
    the scratch memory within its window. *)
Definition plain (arg idx : Z) s : Prop :=
  arg = ATOM_ARG_PS \/
  (arg = ATOM_ARG_WS /\ idx ∉ [66; 67; 68; 69; 71; 72]) \/
  (arg = ATOM_ARG_FB /\ fb_beyond (ctx s) idx = false).

Definition fetch (arg idx : Z) : M (D := D) Z :=
  match arg with 1 => get_ps idx | 2 => get_ws idx | _ => get_fb idx end.
Definition store (arg idx val : Z) : M (D := D) unit :=
  match arg with 1 => put_ps idx val | 2 => put_ws idx val | _ => put_fb idx val end.

Lemma arr_get_set {A} (l : list A) i a v :
  arr_get l i = Done a ->
  arr_set l i v = Done (<[Z.to_nat i := v]> l) /\ arr_get (<[Z.to_nat i := v]> l) i = Done v.
Proof.
  unfold arr_get, arr_set, deref. case_if; [done|]. b2p.
  destruct (l !! Z.to_nat i) eqn:E; [|done]. intros _.
  pose proof (lookup_lt_Some _ _ _ E) as Hl.
  destruct (Z.leb_spec (Z.of_nat (length l)) i); [lia|]. cbn. split; [done|].
  by rewrite list_lookup_insert_eq.
Qed.

Lemma get_ws_plain idx s :
  idx ∉ [64; 65; 66; 67; 68; 69; 70; 71; 72] ->
  get_ws idx s = (e ← get_ec; w ← lift (deref (ws e)); lift (arr_get w idx)) s.
Proof.
  intros Hi. unfold get_ws, get_ctx. unfold mbind at 1, M_bind at 1.
  repeat match goal with |- context [match ?x with _ => _ end] =>
    is_var x; destruct x; try done end; set_solver.
Qed.

Lemma put_ws_plain idx v :
  idx ∉ [64; 65; 66; 67; 68; 69; 70; 71; 72] ->
  put_ws (D := D) idx v = (e ← get_ec; w ← lift (deref (ws e));
    w' ← lift (arr_set w idx v); upd_ec (set_ws (Some w'))).
Proof.
  intros Hi. unfold put_ws.
  repeat match goal with |- context [match ?x with _ => _ end] =>
    is_var x; destruct x; try done end; set_solver.
Qed.

(** Storing where a read succeeds succeeds, and is read back. *)
Definition stored (arg idx v : Z) s : Prop :=
  exists s', store arg idx v s = Done (tt, s') /\ fetch arg idx s' = Done (v, s') /\
    bios (ctx s') = bios (ctx s) /\ plain arg idx s'.

Lemma store_ps idx w v s s1 : get_ps idx s = Done (w, s1) -> stored ATOM_ARG_PS idx v s.
Proof.
  unfold stored, get_ps, store, fetch, put_ps, get_ec, get_params, lift, put_params.
  unfold mbind, M_bind, run_bind. destruct (arr_get (params s) (ps (ec s) + idx)) eqn:E; [|done..].
  intros _. apply (arr_get_set _ _ _ v) in E as [E1 E2]. cbn. rewrite E1.
  eexists. split; [done|]. cbn. unfold get_ps, get_ec, get_params, lift, mbind, M_bind, run_bind. cbn.
  rewrite E2. split; [done|]. split; [done|]. by left.
Qed.

Lemma store_fb idx w v s s1 :
  fb_beyond (ctx s) idx = false -> get_fb idx s = Done (w, s1) -> stored ATOM_ARG_FB idx v s.
Proof.
  unfold stored, get_fb, store, fetch, put_fb, get_ctx, lift, upd_ctx.
  unfold mbind, M_bind, run_bind. intros Hb. rewrite Hb.
  destruct (arr_get (scratch (ctx s)) (u32 (fb_base (ctx s) / 4 + idx))) eqn:E; [|done..].
  intros _. apply (arr_get_set _ _ _ v) in E as [E1 E2]. cbn. rewrite Hb, E1.
  eexists. split; [done|]. unfold get_fb, get_ctx, lift, mbind, M_bind, run_bind.
  cbn [ctx]. change (fb_beyond (set_scratch _ (ctx s)) idx) with (fb_beyond (ctx s) idx).
  rewrite Hb. cbn [scratch set_scratch fb_base]. rewrite E2.
  split; [done|]. split; [done|]. right. by right.
Qed.

Lemma store_ws idx w v s s1 :
  idx ∉ [66; 67; 68; 69; 71; 72] -> get_ws idx s = Done (w, s1) -> stored ATOM_ARG_WS idx v s.
Proof.
  intros Hi. unfold stored, store, fetch, ATOM_ARG_WS, plain.
  destruct (decide (idx ∈ [64; 65; 70])) as [Hs|Hs].
  { intros _. rewrite !elem_of_cons in Hs.
    destruct Hs as [-> |[-> |[-> |Hs]]]; [..|by apply not_elem_of_nil in Hs].
    all: eexists; split; [done|]; split; [done|]; split; [done|]; right; left; done. }
  assert (Hn : idx ∉ [64; 65; 66; 67; 68; 69; 70; 71; 72]) by set_solver.
  rewrite get_ws_plain, put_ws_plain by done. unfold get_ec, lift, upd_ec, deref.
  unfold mbind, M_bind, run_bind. destruct (ws (ec s)) as [l|] eqn:Ew; [|done].
  destruct (arr_get l idx) eqn:E; [|done..]. intros _.
  apply (arr_get_set _ _ _ v) in E as [E1 E2]. rewrite E1. eexists. split; [done|].
  rewrite get_ws_plain by done. unfold get_ec, lift, deref, mbind, M_bind, run_bind. cbn.
  rewrite E2. split; [done|]. split; [done|]. right. by left.
Qed.

Lemma store_fetch arg idx w v s s1 :
  plain arg idx s -> fetch arg idx s = Done (w, s1) -> stored arg idx v s.
Proof.
  intros [-> |[[-> Hi]|[-> Hb]]]; cbn.
  - apply store_ps.
  - by apply store_ws.
  - by apply store_fb.
Qed.

Lemma get_dst_plain arg attr ptr idx s :
  plain arg idx s -> get_u8 (bios (ctx s)) ptr = Done idx ->
  atom_get_dst arg attr ptr s =
    (w ← fetch arg idx; mret (src_field (dst_align attr) w, w, ptr + 1)) s.
Proof.
  intros Hp Hu. assert (Ha : arg = 1 \/ arg = 2 \/ arg = 3)
    by (destruct Hp as [-> |[[-> _]|[-> _]]]; auto).
  unfold atom_get_dst, atom_get_src_int.
  rewrite dst_attr_arg, dst_attr_align by lia. cbv zeta.
  destruct Ha as [-> |[-> | ->]]; cbn [fetch]; unfold U8, get_ctx, lift;
    unfold mbind, M_bind, run_bind; rewrite Hu.
  - by destruct (get_ps idx s) as [[]| |].
  - by destruct (get_ws idx s) as [[]| |].
  - by destruct (get_fb idx s) as [[]| |].
Qed.

Lemma put_dst_plain arg attr ptr idx v saved s :
  plain arg idx s -> get_u8 (bios (ctx s)) ptr = Done idx ->
  atom_put_dst arg attr ptr v saved s =
    store arg idx (merge_field (dst_align attr) v saved) s.
Proof.
  intros Hp Hu. assert (Ha : arg = 1 \/ arg = 2 \/ arg = 3)
    by (destruct Hp as [-> |[[-> _]|[-> _]]]; auto).
  unfold atom_put_dst. cbv zeta.
  destruct Ha as [-> |[-> | ->]]; cbn [store]; unfold U8, get_ctx, lift;
    unfold mbind, M_bind, run_bind; rewrite Hu; done.
Qed.

Lemma fetch_same arg idx s w s1 : plain arg idx s -> fetch arg idx s = Done (w, s1) -> s1 = s.
Proof.
  intros [-> |[[-> Hi]|[-> Hb]]]; cbn; intros E.
  - revert E. unfold get_ps, get_ec, get_params, lift, mbind, M_bind, run_bind.
    destruct (arr_get _ _); by intros [= _ <-].
  - destruct (decide (idx ∈ [64; 65; 70])) as [Hs|Hs].
    { rewrite !elem_of_cons in Hs.
      destruct Hs as [-> |[-> |[-> |Hs]]]; [..|by apply not_elem_of_nil in Hs];
        injection E as _ <-; done. }
    rewrite get_ws_plain in E by set_solver. revert E.
    unfold get_ec, lift, deref, mbind, M_bind, run_bind.
    destruct (ws (ec s)); [|done]. destruct (arr_get _ _); by intros [= _ <-].
  - revert E. unfold get_fb, get_ctx, lift, mbind, M_bind, run_bind. rewrite Hb.
    destruct (arr_get _ _); by intros [= _ <-].
Qed.

(** The write of a field of a memory destination after its read: it succeeds,
    the field reads back as the value's low bits and the rest of the word is
    kept. *)
Lemma put_get_dst arg attr ptr idx v dst saved p1 s s1 :
  plain arg idx s -> get_u8 (bios (ctx s)) ptr = Done idx ->
  atom_get_dst arg attr ptr s = Done ((dst, saved, p1), s1) ->
  exists s' saved', atom_put_dst arg attr ptr v saved s = Done (tt, s') /\
    atom_get_dst arg attr ptr s' =
      Done ((v mod 2 ^ field_width (dst_align attr), saved', p1), s') /\
    Z.land saved' (not32 (mask_of (dst_align attr))) =
      Z.land saved (not32 (mask_of (dst_align attr))).
Proof.
  intros Hp Hu Hg. rewrite (get_dst_plain _ _ _ idx) in Hg by done.
  apply M_bind_done in Hg as (w & s2 & Hf & [= <- <- <- <-]).
  destruct (store_fetch _ _ _ (merge_field (dst_align attr) v w) _ _ Hp Hf)
    as (s' & Hst & Hf' & Hb & Hp').
  exists s', (merge_field (dst_align attr) v w).
  rewrite (put_dst_plain _ _ _ idx), (get_dst_plain _ _ _ idx) by (done || by rewrite Hb).
  split; [done|]. split.
  - unfold mbind, M_bind. rewrite Hf'. unfold mret, M_ret.
    by rewrite src_field_merge by apply dst_align_bounds.
  - by rewrite merge_field_rest.
Qed.

Lemma fetch_with_dev arg idx w s s1 d :
  plain arg idx s -> fetch arg idx s = Done (w, s1) ->
  fetch arg idx (with_dev s d) = Done (w, with_dev s d).
Proof.
  intros [-> |[[-> Hi]|[-> Hb]]]; cbn; intros E.
  - revert E. unfold get_ps, get_ec, get_params, lift, mbind, M_bind, run_bind. cbn.
    destruct (arr_get _ _); by intros [= <- _].
  - destruct (decide (idx ∈ [64; 65; 70])) as [Hs|Hs].
    { rewrite !elem_of_cons in Hs.
      destruct Hs as [-> |[-> |[-> |Hs]]]; [..|by apply not_elem_of_nil in Hs];
        injection E as <- _; done. }
    rewrite get_ws_plain in E |- * by set_solver. revert E.
    unfold get_ec, lift, deref, mbind, M_bind, run_bind. cbn.
    destruct (ws (ec s)); [|done]. destruct (arr_get _ _); by intros [= <- _].
  - revert E. unfold get_fb, get_ctx, lift, mbind, M_bind, run_bind. cbn. rewrite Hb.
    destruct (arr_get _ _); by intros [= <- _].
Qed.

Lemma get_dst_done arg attr ptr idx s r s1 :
  plain arg idx s -> get_u8 (bios (ctx s)) ptr = Done idx ->
  atom_get_dst arg attr ptr s = Done (r, s1) ->
  s1 = s /\ forall d, atom_get_dst arg attr ptr (with_dev s d) = Done (r, with_dev s d).
Proof.
  intros Hp Hu Hg. rewrite (get_dst_plain _ _ _ idx) in Hg by done.
  apply M_bind_done in Hg as (w & s2 & Hf & [= <- <-]).
  pose proof (fetch_same _ _ _ _ _ Hp Hf) as ->. split; [done|]. intros d.
  rewrite (get_dst_plain _ _ _ idx) by done. unfold mbind, M_bind.
  by rewrite (fetch_with_dev _ _ w s s).
Qed.

Lemma U8_done ptr s a s1 : U8 ptr s = Done (a, s1) -> s1 = s /\ get_u8 (bios (ctx s)) ptr = Done a.
Proof.
  unfold U8, get_ctx, lift, mbind, M_bind, run_bind. destruct (get_u8 _ _); by intros [= <- <-].
Qed.

Lemma u32_mod w x : 0 <= w <= 32 -> u32 x mod 2 ^ w = x mod 2 ^ w.
Proof.
  intros Hw. unfold u32, wrap. symmetry. apply Znumtheory.Zmod_div_mod; [by apply Z.pow_pos_nonneg; lia..|].
  exists (2 ^ (32 - w)). rewrite <- Z.pow_add_r by lia. f_equal. lia.
Qed.

(** The reference of the instructions [dst = dst <op> src]: arithmetic on
    unbounded integers and bitwise operations. *)
Definition alu (f : op_func) : option (Z -> Z -> Z) :=
  match f with
  | F_add => Some Z.add | F_sub => Some Z.sub
  | F_and => Some Z.land | F_or => Some Z.lor | F_xor => Some Z.lxor
  | _ => None
  end.

Lemma call_alu execute f g arg ptr :
  alu f = Some g ->
  exists h, call (D := D) execute f arg ptr = dst_op_src h arg ptr /\
    forall w x y, 0 <= w <= 32 -> h x y mod 2 ^ w = g x y mod 2 ^ w.
Proof.
  destruct f; intros [= <-]; eexists; (split; [reflexivity|]); intros; try done; by apply u32_mod.
Qed.

(** An ADD, SUB, AND, OR or XOR instruction with a memory destination reads
    the destination field and the source operand, leaves in the field the result
    of the operation modulo the width of the field, keeps the other bits of the
    word, and continues after its operands. *)
Theorem atom_alu_instruction execute f g arg ptr attr idx s p' s' :
  alu f = Some g ->
  get_u8 (bios (ctx s)) ptr = Done attr -> get_u8 (bios (ctx s)) (ptr + 1) = Done idx ->
  plain arg idx s ->
  call execute f arg ptr s = Done (p', s') ->
  exists dst saved p1 src s2 saved',
    atom_get_dst arg attr (ptr + 1) s = Done ((dst, saved, p1), s) /\
    atom_get_src attr p1 s = Done ((src, p'), s2) /\
    atom_get_dst arg attr (ptr + 1) s' =
      Done ((g dst src mod 2 ^ field_width (dst_align attr), saved', p1), s') /\
    Z.land saved' (not32 (mask_of (dst_align attr))) =
      Z.land saved (not32 (mask_of (dst_align attr))).
Proof.
  intros Hg Hat Hidx Hp. destruct (call_alu execute f g arg ptr Hg) as (h & -> & Hh).
  unfold dst_op_src. cbv zeta. intros (a & s0 & Hu & E)%M_bind_done.
  apply U8_done in Hu as [-> Hu]. assert (a = attr) as -> by congruence.
  apply M_bind_done in E as ([[dst saved] p1] & s1 & Hd & E).
  destruct (get_dst_done _ _ _ _ _ _ _ Hp Hidx Hd) as [-> Hdev].
  apply M_bind_done in E as ([src p2] & s2 & Hsrc & E).
  apply M_bind_done in E as ([] & s3 & Hput & [= <- <-]).
  destruct (reads_get_src _ _ _ _ _ Hsrc) as [d ->].
  destruct (put_get_dst arg attr (ptr + 1) idx (h dst src) dst saved p1 (with_dev s d) (with_dev s d))
    as (s4 & saved' & Hput' & Hget & Hrest); [done|done|apply Hdev|].
  rewrite Hput' in Hput. injection Hput as <-.
  exists dst, saved, p1, src, (with_dev s d), saved'. split; [done|]. split; [done|].
  split; [|done]. rewrite <- Hh; [done|].
  destruct (field_bounds _ (dst_align_bounds attr)) as (?&?&?). lia.
Qed.

(** ** Termination of indirect IO programs *)
Lemma U8_cases ptr s :
  (exists v, U8 ptr s = Done (v, s) /\ 0 <= ptr < Z.of_nat (length (bios (ctx s)))) \/ U8 ptr s = Oops.
Proof.
  unfold U8, get_ctx, lift, get_u8, arr_get, deref, mbind, M_bind, run_bind.
  destruct (Z.ltb_spec ptr 0); [by right|].
  destruct (bios (ctx s) !! Z.to_nat ptr) as [v|] eqn:E; [|by right]. left. exists v.
  apply lookup_lt_Some in E. split; [done|lia].
Qed.

Definition bounded {A} (c : M (D := D) A) s : Prop := c s <> Loops.

Lemma bounded_bind {A B} (c : M A) (k : A -> M B) s :
  bounded c s -> (forall a s1, c s = Done (a, s1) -> bounded (k a) s1) -> bounded (c ≫= k) s.
Proof.
  unfold bounded, mbind, M_bind. intros Hc Hk.
  destruct (c s) as [[a s1]| |] eqn:E; [|done..]. by apply Hk.
Qed.

Lemma bounded_lift_arr {A} (l : list A) i s : bounded (lift (arr_get l i)) s.
Proof.
  unfold bounded, lift, arr_get, deref, mbind, run_bind. case_if; [done|]. by destruct (_ !! _).
Qed.

Lemma bounded_U8 ptr s : bounded (U8 ptr) s.
Proof. unfold bounded. by destruct (U8_cases ptr s) as [(v & -> & _)| ->]. Qed.

Lemma bounded_U16 ptr s : bounded (U16 ptr) s.
Proof.
  unfold bounded, U16, get_ctx, lift, get_u16, get_u8, arr_get, deref, mbind, M_bind, run_bind.
  repeat first [done | case_if | destruct (_ !! _)].
Qed.

Lemma iio_loop_bounded fuel index data base temp s :
  0 <= base -> Z.max 0 (Z.of_nat (length (bios (ctx s))) - base) < Z.of_nat fuel ->
  bounded (iio_loop fuel index data base temp) s.
Proof.
  revert base temp s. induction fuel as [|fuel IH]; intros base temp s Hb Hf; [lia|].
  cbn [iio_loop]. destruct (U8_cases base s) as [(op & E & Hbase)|E].
  2: { unfold bounded, mbind, M_bind. by rewrite E. }
  assert (Hnext : forall k t d, 0 < k -> bounded (iio_loop fuel index data (base + k) t) (with_dev s d)).
  { intros k t d Hk. apply IH; cbn; lia. }
  apply bounded_bind; [apply bounded_U8|]. rewrite E. intros a s1 [= <- <-].
  assert (Hs : s = with_dev s (dev s)) by (by destruct s).
  (* operands are read in the same state up to the device *)
  assert (Hrd : forall {A B} (c : M (D := D) A) (k : A -> M B), reads c -> (forall s, bounded c s) ->
    forall d, (forall a d, bounded (k a) (with_dev s d)) -> bounded (c ≫= k) (with_dev s d)).
  { intros A B c k Hc Hb' d Hk. apply bounded_bind; [apply Hb'|]. intros a s1 E1.
    apply Hc in E1 as [d1 ->]. apply Hk. }
  rewrite Hs. generalize (dev s). clear Hs E.
  pose proof reads_U8. pose proof reads_U16. pose proof bounded_U8. pose proof bounded_U16.
  repeat match goal with |- forall d, bounded (match ?x with _ => _ end) _ => destruct x end;
    intros d0; try (by apply Hnext); try done.
  all: repeat first [ apply Hnext; lia | apply Hrd; [by auto with reads|done|intros ??]
    | apply Hrd; [by case_if; auto with reads|intros ?; by case_if|intros ??]].
Qed.

(** ** Termination of instructions *)
Context `{!CardLaws D}.

Definition total {A} (c : M (D := D) A) : Prop := forall s, wt s -> bounded c s.

Lemma total_ret {A} (a : A) : total (mret a).
Proof. done. Qed.

Lemma total_bind {A B} (c : M A) (k : A -> M B) (P : A -> Prop) :
  total c -> ok c P -> (forall a, P a -> total (k a)) -> total (c ≫= k).
Proof.
  intros Hc Hok Hk s Hs. apply bounded_bind; [by apply Hc|]. intros a s1 E.
  destruct (Hok _ _ _ Hs E) as (Hs1 & _ & HP). by apply (Hk a HP).
Qed.

Lemma total_upd_ctx f : total (upd_ctx f).
Proof. done. Qed.
Lemma total_upd_ec f : total (upd_ec f).
Proof. done. Qed.
Lemma total_get_ctx : total get_ctx.
Proof. done. Qed.
Lemma total_get_ec : total get_ec.
Proof. done. Qed.
Lemma total_get_params : total get_params.
Proof. done. Qed.
Lemma total_put_params p : total (put_params p).
Proof. done. Qed.
Lemma total_ask {A} (f : D -> A * D) : total (ask f).
Proof. done. Qed.
Lemma total_tell f : total (tell f).
Proof. done. Qed.
Lemma total_U8 ptr : total (U8 ptr).
Proof. intros s _. apply bounded_U8. Qed.
Lemma total_U16 ptr : total (U16 ptr).
Proof. intros s _. apply bounded_U16. Qed.
Lemma total_U32 ptr : total (U32 ptr).
Proof.
  intros s _. pose proof (bounded_U16 ptr s) as H1. pose proof (bounded_U16 (ptr + 2) s) as H2.
  revert H1 H2. unfold bounded, U16, U32, get_u32, get_ctx, lift, mbind, M_bind, run_bind.
  destruct (get_u16 _ ptr); [|done..]. by destruct (get_u16 _ (ptr + 2)).
Qed.
Lemma total_lift_get {A} (l : list A) i : total (lift (arr_get l i)).
Proof. intros s _. apply bounded_lift_arr. Qed.
Lemma total_lift_set {A} (l : list A) i v : total (lift (arr_set l i v)).
Proof. intros s _. unfold bounded, lift, arr_set, mbind, run_bind. by case_if. Qed.
Lemma total_lift_deref {A} (o : option A) : total (lift (deref o)).
Proof. intros s _. by destruct o. Qed.

Lemma total_iio_execute base index data : 0 <= base -> total (atom_iio_execute base index data).
Proof.
  intros Hb s Hs. apply bounded_bind; [done|]. intros c s1 [= <- <-].
  apply iio_loop_bounded; [done|]. unfold bios_fuel. lia.
Qed.

Hint Resolve total_ret total_upd_ctx total_upd_ec total_get_ctx total_get_ec total_get_params
  total_put_params total_ask total_tell total_U8 total_U16 total_U32 total_lift_get total_lift_set
  total_lift_deref total_iio_execute : total.
Hint Resolve ok_U8 ok_U16 ok_U32 ok_get_ctx ok_get_ec ok_tell ok_set_data_block ok_set_fb_base
  ok_set_divmul0 ok_set_divmul1 ok_set_io_attr ok_set_reg_block ok_set_shift ok_set_cs_equal
  ok_set_cs_above ok_set_io_mode ok_get_reg ok_get_ps ok_get_ws ok_get_fb ok_get_imm ok_get_src
  ok_get_dst ok_get_src_direct ok_put_dst ok_iio_execute : ok.
Hint Resolve reg_read_u32 ioreg_read_u32 mc_read_u32 pll_read_u32 : drm.

Lemma iio_prog_nonneg c i prog : wt_ctx c -> arr_get (iio c) i = Done prog -> 0 <= prog.
Proof. intros (_ & Hi & _) E. apply (arr_get_Forall _ _ _ _ Hi) in E. apply E. Qed.

Lemma total_iio_branch {A} c i idx data (k : Z -> A) (dflt : A) :
  wt_ctx c ->
  total (prog ← lift (arr_get (iio c) i);
         if prog =? 0 then mret dflt else v ← atom_iio_execute prog idx data; mret (k v)).
Proof.
  intros Hc. eapply (total_bind _ _ (fun prog => 0 <= prog)); [auto with total|..].
  { apply ok_lift. intros prog. by apply iio_prog_nonneg. }
  intros prog Hp. case_if; [done|].
  eapply total_bind; [by apply total_iio_execute|apply ok_iio_execute|done].
Qed.

Lemma total_get_reg idx : total (get_reg idx).
Proof.
  unfold get_reg. eapply total_bind; [done|apply ok_get_ctx|]. intros c Hc.
  repeat first [by apply total_iio_branch | by apply total_ret
    | match goal with |- total (match ?x with _ => _ end) => destruct x end].
  eapply (total_bind _ _ (fun _ => True)); [done|by apply ok_ask|done].
Qed.

Lemma total_put_reg idx v : total (put_reg idx v).
Proof.
  unfold put_reg. eapply total_bind; [done|apply ok_get_ctx|]. intros c Hc.
  repeat first [by apply total_iio_branch | by apply total_ret | by apply total_tell
    | match goal with |- total (match ?x with _ => _ end) => destruct x end].
Qed.

(** Routines without loops: case analysis on what they read. *)
Ltac no_loop :=
  unfold bounded, arr_get, arr_set, deref, get_ctx, get_ec, get_params, put_params, upd_ctx, upd_ec,
    lift, mbind, M_bind, run_bind;
  repeat first [done | match goal with
    | |- context [match ?x with _ => _ end] =>
      lazymatch x with context [match _ with _ => _ end] => fail | _ => destruct x end
    end].

Lemma total_get_ps idx : total (get_ps idx).
Proof. intros s _. unfold get_ps. no_loop. Qed.
Lemma total_get_ws idx : total (get_ws idx).
Proof. intros s _. unfold get_ws. no_loop. Qed.
Lemma total_get_fb idx : total (get_fb idx).
Proof. intros s _. unfold get_fb. no_loop. Qed.
Lemma total_put_ps idx v : total (put_ps idx v).
Proof. intros s _. unfold put_ps. no_loop. Qed.
Lemma total_put_ws idx v : total (put_ws idx v).
Proof. intros s _. unfold put_ws. no_loop. Qed.
Lemma total_put_fb idx v : total (put_fb idx v).
Proof. intros s _. unfold put_fb. no_loop. Qed.

Hint Resolve total_get_reg total_put_reg total_get_ps total_get_ws total_get_fb total_put_ps
  total_put_ws total_put_fb : total.

Ltac total_auto :=
  repeat first
    [ done
    | solve [auto with total]
    | eapply total_bind; [solve [eauto with total]
        |solve [eauto 7 with ok drm | apply ok_ask; intros; exact I]|cbn beta; intros ??]
    | match goal with
      | p : (_ * _)%type |- _ => destruct p; cbn [fst snd] in *; destruct_and?
      | |- total (match ?x with _ => _ end) => destruct x
      end ].

Lemma total_get_imm align ptr : total (get_imm align ptr).
Proof. unfold get_imm. total_auto. Qed.
Hint Resolve total_get_imm : total.

Lemma total_get_src_int attr ptr : total (atom_get_src_int attr ptr).
Proof. unfold atom_get_src_int. cbv zeta. total_auto. Qed.

Lemma total_get_src attr ptr : total (atom_get_src attr ptr).
Proof.
  eapply total_bind; [apply total_get_src_int|apply ok_get_src_int|]. by intros [[??]?] _.
Qed.

Lemma total_get_dst arg attr ptr : total (atom_get_dst arg attr ptr).
Proof.
  eapply total_bind; [apply total_get_src_int|apply ok_get_src_int|]. by intros [[??]?] _.
Qed.

Lemma total_get_src_direct align ptr : total (atom_get_src_direct align ptr).
Proof. unfold atom_get_src_direct. total_auto. Qed.

Lemma total_put_dst arg attr ptr v saved : total (atom_put_dst arg attr ptr v saved).
Proof. unfold atom_put_dst. cbv zeta. total_auto. Qed.

Hint Resolve total_get_src total_get_dst total_get_src_direct total_put_dst : total.

Lemma switch_loop_bounded fuel attr src ptr s :
  wt s -> 0 <= ptr -> Z.max 0 (Z.of_nat (length (bios (ctx s))) - ptr) < Z.of_nat fuel ->
  bounded (switch_loop fuel attr src ptr) s.
Proof.
  revert ptr s. induction fuel as [|fuel IH]; intros ptr s Hs Hp Hf; [lia|]. cbn [switch_loop].
  apply bounded_bind; [apply bounded_U16|]. intros w s1 E. apply reads_U16 in E as [d ->].
  case_if; [done|]. destruct (U8_cases ptr (with_dev s d)) as [(b & E & Hb)|E]; cbn in *.
  2: { unfold bounded, mbind, M_bind. by rewrite E. }
  apply bounded_bind; [apply bounded_U8|]. rewrite E. intros ? ? [= <- <-].
  case_if; [|done]. apply bounded_bind; [by apply total_get_src|].
  intros [v p] s1 E1.
  assert (Hp' : ptr + 1 <= p).
  { apply M_bind_done in E1 as ([[v' sv] p'] & s2 & E2 & [= _ <- _]).
    apply get_src_int_ptr in E2. cbn in E2. rewrite E2. unfold atom_skip_src_int.
    repeat match goal with |- context [match ?x with _ => _ end] => destruct x end; lia. }
  apply reads_get_src in E1 as [d1 ->].
  apply bounded_bind; [apply bounded_U16|]. intros t s1 E2. apply reads_U16 in E2 as [d2 ->].
  case_if; [done|]. apply IH; cbn; [done|lia..].
Qed.

Lemma skip_src_int_mono attr ptr : ptr <= atom_skip_src_int attr ptr.
Proof.
  unfold atom_skip_src_int.
  repeat match goal with |- context [match ?x with _ => _ end] => destruct x end; lia.
Qed.

Lemma total_switch arg ptr : 0 <= ptr -> total (atom_op_switch arg ptr).
Proof.
  intros Hp s Hs. apply bounded_bind; [apply bounded_U8|]. intros attr s1 E.
  apply reads_U8 in E as [d ->]. apply bounded_bind; [by apply total_get_src|].
  intros [src p] s1 E1. pose proof E1 as E2.
  apply M_bind_done in E2 as ([[v' sv] p'] & s2 & E2 & [= _ <- _]).
  apply get_src_int_ptr in E2. cbn in E2. apply reads_get_src in E1 as [d1 ->].
  apply bounded_bind; [done|]. intros c s1 [= <- <-].
  pose proof (skip_src_int_mono attr (ptr + 1)).
  apply switch_loop_bounded; [done|lia|]. unfold bios_fuel. cbn. lia.
Qed.

Lemma total_note_jump target : total (note_jump target).
Proof.
  unfold note_jump. intros s _. unfold ask. no_loop.
Qed.

Lemma total_dst_op_src f arg ptr : total (dst_op_src f arg ptr).
Proof. unfold dst_op_src. cbv zeta. total_auto. Qed.
Lemma total_shift_imm f arg ptr : total (shift_imm f arg ptr).
Proof. unfold shift_imm. cbv zeta. total_auto. Qed.
Lemma total_shift_full f arg ptr : total (shift_full f arg ptr).
Proof. unfold shift_full. cbv zeta. total_auto. Qed.
Lemma total_mul arg ptr : total (atom_op_mul arg ptr).
Proof. unfold atom_op_mul. total_auto. Qed.
Lemma total_setregblock arg ptr : total (atom_op_setregblock arg ptr).
Proof. unfold atom_op_setregblock. total_auto. Qed.
Lemma total_setfbbase arg ptr : total (atom_op_setfbbase arg ptr).
Proof. unfold atom_op_setfbbase. total_auto. Qed.
Lemma total_compare arg ptr : total (atom_op_compare arg ptr).
Proof. unfold atom_op_compare. total_auto. Qed.
Lemma total_test arg ptr : total (atom_op_test arg ptr).
Proof. unfold atom_op_test. total_auto. Qed.
Lemma total_clear arg ptr : total (atom_op_clear arg ptr).
Proof. unfold atom_op_clear. cbv zeta. total_auto. Qed.
Lemma total_mask arg ptr : total (atom_op_mask arg ptr).
Proof. unfold atom_op_mask. cbv zeta. total_auto. Qed.
Lemma total_postcard arg ptr : total (atom_op_postcard arg ptr).
Proof. unfold atom_op_postcard. total_auto. Qed.

Lemma total_delay arg ptr : total (atom_op_delay arg ptr).
Proof.
  unfold atom_op_delay. eapply total_bind; [apply total_U8|apply ok_U8|]. intros c _ s _.
  by case_if.
Qed.

Lemma total_setport arg ptr : total (atom_op_setport arg ptr).
Proof.
  unfold atom_op_setport. repeat match goal with |- total (match ?x with _ => _ end) => destruct x end.
  all: try done. eapply total_bind; [apply total_U16|apply ok_U16|done].
Qed.

Lemma total_move arg ptr : total (atom_op_move arg ptr).
Proof.
  unfold atom_op_move. cbv zeta. eapply total_bind; [apply total_U8|apply ok_U8|]. intros attr _.
  eapply (total_bind _ _ (fun _ => True)).
  - case_if; [|done]. total_auto.
  - case_if; [|by apply ok_ret]. eapply ok_bind; [apply ok_get_dst|]. intros [[??]?] _. by apply ok_ret.
  - intros [saved p] _. eapply total_bind; [apply total_get_src|apply ok_get_src|]. intros [src p'] _ s Hs.
    apply bounded_bind; [by apply total_put_dst|done].
Qed.

Lemma total_div arg ptr : total (atom_op_div arg ptr).
Proof.
  unfold atom_op_div. eapply total_bind; [apply total_U8|apply ok_U8|]. intros attr _.
  eapply total_bind; [apply total_get_dst|apply ok_get_dst|]. intros [[dst ?] p] _.
  eapply total_bind; [apply total_get_src|apply ok_get_src|]. intros [src p'] _ s _. by case_if.
Qed.

Lemma total_setdatablock arg ptr : total (atom_op_setdatablock arg ptr).
Proof.
  unfold atom_op_setdatablock. eapply total_bind; [apply total_U8|apply ok_U8|]. intros idx _ s Hs.
  apply bounded_bind; [done|]. intros e s1 [= <- <-]. apply bounded_bind; [done|].
  intros c s1 [= <- <-]. apply bounded_bind; [|done]. case_if; [done|]. case_if; [done|].
  apply bounded_bind; [apply bounded_U16|done].
Qed.

Lemma total_jump arg ptr : total (atom_op_jump arg ptr).
Proof.
  unfold atom_op_jump. eapply total_bind; [apply total_U16|apply ok_U16|]. intros t _ s Hs.
  apply bounded_bind; [done|]. intros c s1 [= <- <-]. case_if; [|done].
  apply bounded_bind; [by apply total_note_jump|done].
Qed.

(** C37: every instruction but CALL_TABLE ends: whatever the bytes of the image,
    its operands, indirect IO programs and case tables are processed in a number
    of steps bounded by the length of the image (or the interpreter leaves the
    image). *)
Theorem atom_instruction_ends execute f arg ptr s :
  wt s -> 0 <= ptr -> f <> F_calltable -> call execute f arg ptr s <> Loops.
Proof.
  intros Hs Hp Hf. change (bounded (call execute f arg ptr) s). destruct f; cbn [call]; try done.
  - by apply total_move.
  - by apply total_dst_op_src.
  - by apply total_dst_op_src.
  - by apply total_shift_imm.
  - by apply total_shift_imm.
  - by apply total_mul.
  - by apply total_div.
  - by apply total_dst_op_src.
  - by apply total_dst_op_src.
  - by apply total_setport.
  - by apply total_setregblock.
  - by apply total_setfbbase.
  - by apply total_compare.
  - by apply total_switch.
  - by apply total_jump.
  - by apply total_test.
  - by apply total_delay.
  - by apply total_clear.
  - by apply total_mask.
  - by apply total_postcard.
  - by apply total_setdatablock.
  - by apply total_dst_op_src.
  - by apply total_shift_full.
  - by apply total_shift_full.
Qed.

End props.
