(* ===== verification/AtomRun.v ===== *)
(** * The ATOM interpreter: running tables

    Widths and frame of a whole run, case tables, the detection of stuck loops,
    the scratch memory window and the index of indirect IO programs, with a
    sample card. *)

From S2P Require Import Prelude Atom AtomSpec AtomProps.

#[local] Ltac Zify.zify_post_hook ::= Z.to_euclidean_division_equations.

Section runs.
Context {D : Type} `{!Card D}.
Implicit Types (s : state (D := D)).

(** ** Case tables *)

(** The little-endian bytes of an immediate operand of alignment [align]. *)
Definition imm_bytes (align v : Z) : list Z :=
  if align =? ATOM_SRC_DWORD then
    [v mod 256; v / 256 mod 256; v / 65536 mod 256; v / 16777216 mod 256]
  else if align <=? ATOM_SRC_WORD16 then [v mod 256; v / 256 mod 256]
  else [v mod 256].

Definition imm_fits (align v : Z) : Prop :=
  0 <= v < 2 ^ (if align =? ATOM_SRC_DWORD then 32 else if align <=? ATOM_SRC_WORD16 then 16 else 8).

Definition case_bytes (align : Z) (c : Z * Z) : list Z :=
  [ATOM_CASE_MAGIC] ++ imm_bytes align c.1 ++ [c.2 mod 256; c.2 / 256 mod 256].

Definition cases_bytes (align : Z) (cs : list (Z * Z)) : list Z :=
  concat (case_bytes align <$> cs) ++ [90; 90].

Lemma cases_bytes_cons a c cs : cases_bytes a (c :: cs) = case_bytes a c ++ cases_bytes a cs.
Proof. unfold cases_bytes. cbn [fmap list_fmap concat]. by rewrite app_assoc. Qed.

(** The meaning of a case table: the target of the first case with the value. *)
Fixpoint find_case (src : Z) (cs : list (Z * Z)) : option Z :=
  match cs with
  | [] => None
  | (v, t) :: cs => if v =? src then Some t else find_case src cs
  end.

Lemma get_u8_app pre x rest p :
  p = Z.of_nat (length pre) -> get_u8 (pre ++ x :: rest) p = Done x.
Proof.
  intros ->. unfold get_u8, arr_get, deref. destruct (Z.ltb_spec (Z.of_nat (length pre)) 0); [lia|].
  by rewrite Nat2Z.id, list_lookup_middle.
Qed.

Lemma get_u8_app2 pre x y rest p :
  p = Z.of_nat (length pre) + 1 -> get_u8 (pre ++ x :: y :: rest) p = Done y.
Proof.
  intros ->. change (pre ++ x :: y :: rest) with (pre ++ [x] ++ y :: rest). rewrite app_assoc.
  apply get_u8_app. rewrite length_app. simpl. lia.
Qed.

Lemma le16 v : 0 <= v < 2 ^ 16 -> Z.lor (v mod 256) (Z.shiftl (v / 256 mod 256) 8) = v.
Proof.
  intros Hv. rewrite Z.lor_comm, (lor_shift _ 8) by lia.
  rewrite (Z.mod_small (v / 256)) by lia. lia.
Qed.

Lemma get_u16_app pre v rest p :
  p = Z.of_nat (length pre) -> 0 <= v < 2 ^ 16 ->
  get_u16 (pre ++ v mod 256 :: v / 256 mod 256 :: rest) p = Done v.
Proof.
  intros -> Hv. unfold get_u16.
  rewrite (get_u8_app _ _ _ (Z.of_nat (length pre))), get_u8_app2 by done. mred. f_equal. by apply le16.
Qed.

Lemma get_u32_app pre v rest p :
  p = Z.of_nat (length pre) -> 0 <= v < 2 ^ 32 ->
  get_u32 (pre ++ v mod 256 :: v / 256 mod 256 :: v / 65536 mod 256 :: v / 16777216 mod 256 :: rest) p
    = Done v.
Proof.
  intros -> Hv. unfold get_u32.
  replace (v mod 256) with ((v mod 65536) mod 256) by lia.
  replace (v / 256 mod 256) with ((v mod 65536) / 256 mod 256) by lia.
  rewrite (get_u16_app pre (v mod 65536) _ (Z.of_nat (length pre))) by lia.
  replace (v / 65536 mod 256) with ((v / 65536) mod 256) by lia.
  replace (v / 16777216 mod 256) with ((v / 65536) / 256 mod 256) by lia.
  change (pre ++ ?a :: ?b :: ?r) with (pre ++ [a; b] ++ r). rewrite app_assoc.
  rewrite (get_u16_app _ (v / 65536)); [|rewrite length_app; simpl; lia|lia]. mred. f_equal.
  rewrite Z.lor_comm, (lor_shift _ 16) by lia. lia.
Qed.

Definition attr_align (attr : Z) : Z := Z.land (Z.shiftr attr 3) 7.

Lemma land_56 attr : Z.land attr 56 = Z.shiftl (attr_align attr) 3.
Proof.
  unfold attr_align. change 56 with (Z.shiftl 7 3). apply Z.bits_inj'. intros n Hn.
  rewrite Z.land_spec, !Z.shiftl_spec by lia. destruct (Z_lt_le_dec n 3).
  - rewrite !(Z.testbit_neg_r _ (n - 3)) by lia. apply andb_false_r.
  - rewrite Z.land_spec, Z.shiftr_spec by lia. by replace (n - 3 + 3) with n by lia.
Qed.

Lemma imm_attr attr :
  Z.land (Z.lor (Z.land attr 56) ATOM_ARG_IMM) 7 = 5 /\
  Z.land (Z.shiftr (Z.lor (Z.land attr 56) ATOM_ARG_IMM) 3) 7 = attr_align attr.
Proof.
  rewrite land_56. pose proof (land_7_bounds (Z.shiftr attr 3)) as Ha. fold (attr_align attr) in Ha.
  revert Ha. generalize (attr_align attr). intros a Ha. by apply (align_cases a).
Qed.

Lemma get_imm_app pre align v rest s :
  0 <= align <= 7 -> imm_fits align v -> bios (ctx s) = pre ++ imm_bytes align v ++ rest ->
  get_imm align (Z.of_nat (length pre)) s =
    Done ((v, Z.of_nat (length (pre ++ imm_bytes align v))), s).
Proof.
  intros Ha Hf Hb. rewrite length_app, Nat2Z.inj_add.
  unfold get_imm, imm_bytes, imm_fits in *.
  unfold U32, U16, U8, get_ctx, lift, mbind, M_bind, run_bind.
  repeat case_if; rewrite Hb; cbn [app] in *.
  - by rewrite get_u32_app.
  - by rewrite get_u16_app.
  - rewrite get_u8_app by done. rewrite Z.mod_small by done. done.
Qed.

Lemma get_src_imm_app pre attr v rest s :
  imm_fits (attr_align attr) v -> bios (ctx s) = pre ++ imm_bytes (attr_align attr) v ++ rest ->
  atom_get_src (Z.lor (Z.land attr 56) ATOM_ARG_IMM) (Z.of_nat (length pre)) s =
    Done ((v, Z.of_nat (length (pre ++ imm_bytes (attr_align attr) v))), s).
Proof.
  intros Hf Hb. destruct (imm_attr attr) as [H5 Ha]. unfold atom_get_src, atom_get_src_int.
  rewrite H5, Ha. cbv zeta. unfold mbind, M_bind.
  rewrite (get_imm_app pre _ v rest) by (done || apply land_7_bounds). done.
Qed.

(** The first word of a case is not the end mark. *)
Lemma case_word pre a v rest s :
  bios (ctx s) = pre ++ [99] ++ imm_bytes a v ++ rest ->
  exists w, U16 (Z.of_nat (length pre)) s = Done (w, s) /\ w <> ATOM_CASE_END.
Proof.
  intros Hb. unfold U16, get_ctx, lift, get_u16, mbind, M_bind, run_bind. rewrite Hb. cbn [app].
  rewrite (get_u8_app pre 99 _ (Z.of_nat (length pre))) by done.
  destruct (imm_bytes a v) as [|x l] eqn:Ei.
  { unfold imm_bytes in Ei. repeat case_if; done. }
  cbn [app]. rewrite get_u8_app2 by done. eexists. split; [done|]. intros E.
  apply (f_equal (fun y => Z.testbit y 0)) in E.
  by rewrite Z.lor_spec, Z.shiftl_spec_low in E by lia.
Qed.

Lemma switch_step fuel attr src v t pre rest s :
  imm_fits (attr_align attr) v -> is_u16 t ->
  bios (ctx s) = pre ++ case_bytes (attr_align attr) (v, t) ++ rest ->
  switch_loop (S fuel) attr src (Z.of_nat (length pre)) s =
    if v =? src then Done (start (ec s) + t, s)
    else switch_loop fuel attr src (Z.of_nat (length (pre ++ case_bytes (attr_align attr) (v, t)))) s.
Proof.
  set (a := attr_align attr). intros Hv Ht Hb. cbn [switch_loop].
  assert (Hb0 : bios (ctx s) = pre ++ [99] ++ imm_bytes a v ++ (t mod 256 :: t / 256 mod 256 :: rest)).
  { rewrite Hb. unfold case_bytes. cbn. by rewrite <- app_assoc. }
  assert (Hb1 : bios (ctx s) = (pre ++ [99]) ++ imm_bytes a v ++ (t mod 256 :: t / 256 mod 256 :: rest))
    by (by rewrite <- app_assoc).
  assert (Hb2 : bios (ctx s) = ((pre ++ [99]) ++ imm_bytes a v) ++ (t mod 256 :: t / 256 mod 256 :: rest))
    by (by rewrite <- app_assoc).
  destruct (case_word _ _ _ _ _ Hb0) as (w & Hw & Hne). unfold mbind at 1, M_bind at 1. rewrite Hw.
  destruct (Z.eqb_spec w ATOM_CASE_END); [done|].
  assert (Hm : U8 (Z.of_nat (length pre)) s = Done (99, s)).
  { unfold U8, get_ctx, lift, mbind, M_bind, run_bind. rewrite Hb0. cbn [app]. by rewrite get_u8_app. }
  unfold mbind at 1, M_bind at 1. rewrite Hm. cbn [Z.eqb ATOM_CASE_MAGIC Pos.eqb].
  unfold mbind at 1, M_bind at 1.
  replace (Z.of_nat (length pre) + 1) with (Z.of_nat (length (pre ++ [99])))
    by (rewrite length_app; cbn; lia).
  rewrite (get_src_imm_app _ _ _ _ _ Hv Hb1).
  assert (Ht' : U16 (Z.of_nat (length ((pre ++ [99]) ++ imm_bytes a v))) s = Done (t, s)).
  { unfold U16, get_ctx, lift, mbind, M_bind, run_bind. by rewrite Hb2, get_u16_app. }
  unfold mbind at 1, M_bind at 1. fold a. rewrite Ht'. destruct (v =? src); [done|].
  do 2 f_equal. unfold case_bytes. rewrite !length_app. cbn. lia.
Qed.

Lemma switch_cases fuel attr src cs pre post s :
  (length cs < fuel)%nat ->
  Forall (fun c => imm_fits (attr_align attr) c.1 /\ is_u16 c.2) cs ->
  bios (ctx s) = pre ++ cases_bytes (attr_align attr) cs ++ post ->
  switch_loop fuel attr src (Z.of_nat (length pre)) s =
    Done (match find_case src cs with
          | Some t => start (ec s) + t
          | None => Z.of_nat (length (pre ++ cases_bytes (attr_align attr) cs))
          end, s).
Proof.
  revert pre fuel. induction cs as [|[v t] cs IH]; intros pre fuel Hf Hcs Hb;
    (destruct fuel as [|fuel]; [cbn in Hf; lia|]).
  { cbn [switch_loop]. unfold U16, get_ctx, lift. unfold mbind, M_bind, run_bind. rewrite Hb.
    change (cases_bytes _ [] ++ post) with (23130 mod 256 :: 23130 / 256 mod 256 :: post).
    rewrite get_u16_app by done. cbn. by rewrite length_app, Nat2Z.inj_add. }
  apply Forall_cons in Hcs as [[Hv Ht] Hcs]. cbn [fst snd] in *.
  assert (Hb' : bios (ctx s) = pre ++ case_bytes (attr_align attr) (v, t) ++
    (cases_bytes (attr_align attr) cs ++ post)).
  { rewrite Hb, cases_bytes_cons. by rewrite <- !app_assoc. }
  rewrite (switch_step _ _ _ _ _ _ _ _ Hv Ht Hb'). cbn [find_case].
  destruct (Z.eqb_spec v src); [done|].
  rewrite (IH _ fuel); [|cbn in Hf; lia|done|by rewrite Hb', !app_assoc].
  destruct (find_case src cs); [done|]. by rewrite cases_bytes_cons, app_assoc.
Qed.

Lemma length_cases_bytes a cs : (length cs < length (cases_bytes a cs))%nat.
Proof.
  unfold cases_bytes. rewrite length_app. cbn [length].
  induction cs as [|c cs IH]; cbn; [lia|]. rewrite length_app. lia.
Qed.

(** A SWITCH instruction whose operand byte and source operand are followed
    by the encoding of a case table continues at the target of the first case
    whose value is the source value, and after the table if there is none. *)
Theorem atom_switch_dispatch attr src cs pre post arg ptr s s1 :
  get_u8 (bios (ctx s)) ptr = Done attr ->
  atom_get_src attr (ptr + 1) s = Done ((src, Z.of_nat (length pre)), s1) ->
  Forall (fun c => imm_fits (attr_align attr) c.1 /\ is_u16 c.2) cs ->
  bios (ctx s) = pre ++ cases_bytes (attr_align attr) cs ++ post ->
  atom_op_switch arg ptr s =
    Done (match find_case src cs with
          | Some t => start (ec s) + t
          | None => Z.of_nat (length (pre ++ cases_bytes (attr_align attr) cs))
          end, s1).
Proof.
  intros Hu Hsrc Hcs Hb. unfold atom_op_switch.
  assert (Hu' : U8 ptr s = Done (attr, s)).
  { unfold U8, get_ctx, lift, mbind, M_bind, run_bind. by rewrite Hu. }
  unfold mbind at 1, M_bind at 1. rewrite Hu'. unfold mbind at 1, M_bind at 1. rewrite Hsrc.
  unfold mbind, M_bind, get_ctx. apply reads_get_src in Hsrc as [d ->].
  rewrite (switch_cases _ _ _ cs pre post); [done| |done|done].
  unfold bios_fuel. cbn. rewrite Hb, !length_app. pose proof (length_cases_bytes (attr_align attr) cs).
  lia.
Qed.

(** ** Stuck loops *)

(** An unconditional jump to offset [t] of the table at [ptr]. *)
Definition jump_at s (ptr t : Z) : Prop :=
  get_u8 (bios (ctx s)) ptr = Done 67 /\ get_u16 (bios (ctx s)) (ptr + 1) = Done t.

(** The state after the bookkeeping of a jump. *)
Definition jumped s (d : D) (e : atom_exec_context) : state :=
  St d (ctx s) (params s) e (debug_depth s).

Lemma op_loop_jump execute fuel ptr t s :
  jump_at s ptr t -> abort (ec s) = false ->
  op_loop execute (S fuel) ptr s =
    (note_jump t;; e ← get_ec; op_loop execute fuel (start e + t)) s.
Proof.
  intros [Hop Ht] Ha. cbn [op_loop].
  assert (HU : U8 ptr s = Done (67, s)).
  { unfold U8, get_ctx, lift, mbind, M_bind, run_bind. by rewrite Hop. }
  unfold mbind at 1, M_bind at 1. rewrite HU. unfold mbind at 1, M_bind at 1. unfold get_ec at 1.
  rewrite Ha. cbn [andb Z.ltb Z.compare Pos.compare Pos.compare_cont ATOM_OP_CNT].
  change (nth (Z.to_nat 67) opcode_table (F_NULL, 0)) with (F_jump, 2). cbn match.
  cbn [call]. unfold atom_op_jump.
  assert (HT : U16 (ptr + 1) s = Done (t, s)).
  { unfold U16, get_ctx, lift, mbind, M_bind, run_bind. by rewrite Ht. }
  unfold mbind, M_bind. rewrite HT. cbn.
  destruct (note_jump t s) as [[[] s1]| |]; done.
Qed.

Lemma op_loop_aborted execute fuel ptr t s :
  jump_at s ptr t -> abort (ec s) = true -> op_loop execute (S fuel) ptr s = Done (- EINVAL, s).
Proof.
  intros [Hop _] Ha. cbn [op_loop]. unfold U8, get_ctx, get_ec, lift, mbind, M_bind, run_bind.
  by rewrite Hop, Ha.
Qed.

(** A jump to a new place starts the clock. *)
Lemma note_jump_new t s :
  last_jump (ec s) <> u32 (start (ec s) + t) ->
  note_jump t s = Done (tt, jumped s (jiffies (dev s)).2
    (set_last_jump_jiffies (jiffies (dev s)).1 (set_last_jump (u32 (start (ec s) + t)) (ec s)))).
Proof.
  intros Hne. unfold note_jump, get_ec, upd_ec, ask, mbind, M_bind.
  destruct (Z.eqb_spec (last_jump (ec s)) (u32 (start (ec s) + t))); done.
Qed.

(** A jump to the same place checks it. *)
Lemma note_jump_again t since s :
  last_jump (ec s) = u32 (start (ec s) + t) -> last_jump_jiffies (ec s) = Some since ->
  time_after (jiffies (dev s)).1 since = true ->
  note_jump t s = Done (tt, jumped s (jiffies (dev s)).2
    (if 5000 <? jiffies_to_msecs (ul ((jiffies (dev s)).1 - since))
     then set_abort true (ec s) else ec s)).
Proof.
  intros He Hj Ht. unfold note_jump, get_ec, upd_ec, ask, lift, mbind, M_bind, run_bind.
  rewrite He, Z.eqb_refl, Hj. cbn. rewrite Ht. by case_if.
Qed.

(** The clock is never read before it is set. *)
Lemma note_jump_total t s :
  wt s -> 0 < start (ec s) -> is_u16 t -> exists s', note_jump t s = Done (tt, s').
Proof.
  intros (_ & _ & Hst & _ & _ & Hj) Hpos Ht.
  destruct (decide (last_jump (ec s) = u32 (start (ec s) + t))) as [E|E];
    [|by rewrite note_jump_new by done; eauto].
  destruct (last_jump_jiffies (ec s)) as [since|] eqn:Ej.
  - destruct (time_after (jiffies (dev s)).1 since) eqn:Ea.
    { rewrite (note_jump_again _ since) by done. eauto. }
    unfold note_jump, get_ec, upd_ec, ask, lift, mbind, M_bind, run_bind.
    rewrite E, Z.eqb_refl, Ej. cbn. rewrite Ea. eauto.
  - rewrite Hj in E by done. unfold is_u16 in *. rewrite u32_small in E by (unfold is_u32; lia). lia.
Qed.

(** The successive readings of the clock. *)
Fixpoint ticks (k : nat) (d : D) : D :=
  match k with O => d | S k => ticks k (jiffies d).2 end.
Definition clock (k : nat) (d : D) : Z := (jiffies (ticks k d)).1.

Lemma jump_at_jumped s d e ptr t : jump_at s ptr t -> jump_at (jumped s d e) ptr t.
Proof. done. Qed.

Lemma spinning_aborts execute ptr t since k s :
  jump_at s ptr t -> start (ec s) + t = ptr -> abort (ec s) = false ->
  last_jump (ec s) = u32 ptr -> last_jump_jiffies (ec s) = Some since ->
  (forall i, (i <= k)%nat -> time_after (clock i (dev s)) since = true) ->
  5000 < jiffies_to_msecs (ul (clock k (dev s) - since)) ->
  exists s', op_loop execute (S (S k)) ptr s = Done (- EINVAL, s').
Proof.
  revert s. induction k as [|k IH]; intros s Hj Hst Ha Hl Hjj Haft Hlong;
    rewrite (op_loop_jump _ _ _ t) by done; unfold mbind, M_bind;
    rewrite (note_jump_again t since) by (first [done|by rewrite Hst|apply (Haft 0%nat); lia]);
    unfold get_ec.
  - unfold clock in Hlong. cbn in Hlong. rewrite (proj2 (Z.ltb_lt _ _) Hlong). cbn [ec jumped start set_abort].
    rewrite Hst. eexists. by rewrite (op_loop_aborted _ _ _ t).
  - destruct (5000 <? _) eqn:E; cbn [ec jumped start set_abort]; rewrite Hst.
    + eexists. by rewrite (op_loop_aborted _ _ _ t).
    + apply IH; try done. intros i Hi. apply (Haft (S i)). lia.
Qed.

(** A table that jumps to itself is given up with -EINVAL once the clock shows
    that more than five seconds have passed since the first jump, at the [k]-th
    later jump at the latest, if the clock did not wrap in between. *)
Theorem atom_stuck_loop_aborts execute ptr t k s :
  jump_at s ptr t -> start (ec s) + t = ptr -> is_u32 ptr -> abort (ec s) = false ->
  last_jump (ec s) <> ptr ->
  (forall i, (1 <= i <= S k)%nat -> time_after (clock i (dev s)) (clock 0 (dev s)) = true) ->
  5000 < jiffies_to_msecs (ul (clock (S k) (dev s) - clock 0 (dev s))) ->
  exists s', op_loop execute (S (S (S k))) ptr s = Done (- EINVAL, s').
Proof.
  intros Hj Hst Hp Ha Hl Haft Hlong. rewrite (op_loop_jump _ _ _ t) by done.
  unfold mbind, M_bind. rewrite note_jump_new by (rewrite Hst, u32_small by done; done).
  unfold get_ec. cbn [ec jumped start set_last_jump_jiffies set_last_jump]. rewrite Hst.
  apply (spinning_aborts _ _ t (clock 0 (dev s))); try done.
  intros i Hi. apply (Haft (S i)). lia.
Qed.

(** The detection only sees jumps to the place of the last jump: a table with
    two jumps to each other is run for ever, whatever the clock says. *)
Theorem atom_alternating_jumps_run_on execute fuel p1 p2 t1 t2 s :
  jump_at s p1 t2 -> jump_at s p2 t1 -> start (ec s) + t1 = p1 -> start (ec s) + t2 = p2 ->
  is_u32 p1 -> is_u32 p2 -> p1 <> p2 -> abort (ec s) = false -> last_jump (ec s) <> p2 ->
  op_loop execute fuel p1 s = Loops.
Proof.
  revert p1 p2 t1 t2 s.
  induction fuel as [|fuel IH]; intros p1 p2 t1 t2 s H1 H2 E1 E2 B1 B2 Hne Ha Hl; [done|].
  rewrite (op_loop_jump _ _ _ t2) by done. unfold mbind, M_bind.
  rewrite note_jump_new by (rewrite E2, u32_small by done; done).
  unfold get_ec. cbn [ec jumped start set_last_jump_jiffies set_last_jump]. rewrite E2.
  apply (IH _ p1 t2 t1); try done. cbn. rewrite u32_small by done. done.
Qed.

(** ** The scratch memory *)

(** Accesses to the scratch memory, without wrap-around of the window: below
    the end they reach the word, beyond it they are refused; at the end itself
    the check passes and the access is one word outside the allocation. *)
Theorem atom_fb_access idx v s :
  scratch_size_bytes (ctx s) = 4 * Z.of_nat (length (scratch (ctx s))) ->
  is_u32 (scratch_size_bytes (ctx s)) -> 0 <= fb_base (ctx s) -> 0 <= idx ->
  fb_base (ctx s) + idx * 4 < 2 ^ 32 ->
  (fb_base (ctx s) + idx * 4 < scratch_size_bytes (ctx s) ->
     exists w s', get_fb idx s = Done (w, s) /\ put_fb idx v s = Done (tt, s') /\
       scratch (ctx s') !! Z.to_nat (fb_base (ctx s) / 4 + idx) = Some v) /\
  (fb_base (ctx s) + idx * 4 = scratch_size_bytes (ctx s) ->
     get_fb idx s = Oops /\ put_fb idx v s = Oops) /\
  (scratch_size_bytes (ctx s) < fb_base (ctx s) + idx * 4 ->
     get_fb idx s = Done (0, s) /\ put_fb idx v s = Done (tt, s)).
Proof.
  intros Hsz H32 Hfb Hidx Hsum.
  unfold get_fb, put_fb, fb_beyond, get_ctx, upd_ctx, lift, mbind, M_bind, run_bind.
  rewrite !u32_small by (unfold is_u32 in *; lia).
  set (i := fb_base (ctx s) / 4 + idx). assert (Hi : 0 <= i) by lia.
  split; [|split]; intros Hc.
  - destruct (Z.ltb_spec (scratch_size_bytes (ctx s)) (fb_base (ctx s) + idx * 4)); [lia|].
    assert (Hlt : (Z.to_nat i < length (scratch (ctx s)))%nat) by (unfold i; lia).
    destruct (lookup_lt_is_Some_2 _ _ Hlt) as [w Hw].
    assert (Hg : arr_get (scratch (ctx s)) i = Done w).
    { unfold arr_get, deref. destruct (Z.ltb_spec i 0); [lia|]. by rewrite Hw. }
    destruct (arr_get_set _ _ _ v Hg) as [Hset _]. rewrite Hg, Hset. exists w. eexists.
    split; [done|]. split; [done|]. cbn. by apply list_lookup_insert_eq.
  - destruct (Z.ltb_spec (scratch_size_bytes (ctx s)) (fb_base (ctx s) + idx * 4)); [lia|].
    assert (Hge : Z.of_nat (length (scratch (ctx s))) <= i) by (unfold i; lia).
    unfold arr_get, arr_set, deref. destruct (Z.ltb_spec i 0); [lia|].
    destruct (Z.leb_spec (Z.of_nat (length (scratch (ctx s)))) i); [|lia].
    rewrite lookup_ge_None_2 by lia. done.
  - by destruct (Z.ltb_spec (scratch_size_bytes (ctx s)) (fb_base (ctx s) + idx * 4)); [|lia].
Qed.

(** ** The index of indirect IO programs *)
Lemma get_u8_range b p v : get_u8 b p = Done v -> 0 <= p < Z.of_nat (length b).
Proof.
  unfold get_u8, arr_get, deref. destruct (Z.ltb_spec p 0); [done|].
  destruct (b !! Z.to_nat p) eqn:E; [|done]. intros _. apply lookup_lt_Some in E. lia.
Qed.

Lemma get_u8_not_loops b p : get_u8 b p <> Loops.
Proof. unfold get_u8, arr_get, deref. case_if; [done|]. by destruct (_ !! _). Qed.

Lemma iio_len_pos op len : arr_get atom_iio_len op = Done len -> 1 <= len.
Proof.
  apply (arr_get_Forall (fun l => 1 <= l)). unfold atom_iio_len. repeat constructor; lia.
Qed.

Lemma iio_skip_ends b fuel base :
  Z.max 0 (Z.of_nat (length b) - base) < Z.of_nat fuel ->
  iio_skip b fuel base <> Loops /\ forall p, iio_skip b fuel base = Done p -> base <= p.
Proof.
  revert base. induction fuel as [|fuel IH]; intros base Hf; [lia|]. cbn [iio_skip]. mred.
  destruct (get_u8 b base) as [op| |] eqn:E; [|done|by destruct (get_u8_not_loops b base)].
  apply get_u8_range in E. case_if; [split; [done|by intros p [= <-]]|].
  destruct (arr_get atom_iio_len op) as [len| |] eqn:El; [|done|].
  - apply iio_len_pos in El. destruct (IH (base + len)) as [H1 H2]; [lia|].
    split; [done|]. intros p Hp. apply H2 in Hp. lia.
  - by destruct (get_u8_not_loops atom_iio_len op).
Qed.

(** Entry [k] of the table is just behind a START instruction with number [k]. *)
Definition iio_entry (b : list Z) (k e : Z) : Prop :=
  exists p, e = u16 (p + 2) /\ get_u8 b p = Done 1 /\ get_u8 b (p + 1) = Done k.

Definition iio_sound (b t : list Z) : Prop :=
  length t = 256%nat /\ forall k e, t !! Z.to_nat k = Some e -> 0 <= k -> e <> 0 -> iio_entry b k e.

Lemma iio_sound_set b t k p t' :
  iio_sound b t -> get_u8 b p = Done 1 -> get_u8 b (p + 1) = Done k ->
  arr_set t k (u16 (p + 2)) = Done t' -> iio_sound b t'.
Proof.
  intros [Hl Ht] Hp Hk. unfold arr_set. case_if; [done|]. intros [= <-].
  apply orb_false_elim in Heqb0 as [H1 H2]. b2p.
  split; [by rewrite length_insert|]. intros k' e He Hk' Hne.
  destruct (decide (k' = k)) as [-> |Hkk].
  - rewrite list_lookup_insert_eq in He by lia. injection He as <-. by exists p.
  - rewrite list_lookup_insert_ne in He by lia. by apply Ht.
Qed.

(** Indexing the indirect IO programs of an image ends (or leaves the image or
    the table of instruction lengths), and a non-zero entry [k] of the index is
    the place behind a START instruction with number [k]. *)
Theorem atom_index_iio_sound b fuel base t :
  Forall is_u8 b -> (length b < fuel)%nat -> 0 <= base -> iio_sound b t ->
  iio_index b fuel base t <> Loops /\
  forall t', iio_index b fuel base t = Done t' -> iio_sound b t'.
Proof.
  intros Hb Hf Hbase Ht.
  assert (Hf' : Z.max 0 (Z.of_nat (length b) - base) < Z.of_nat fuel) by lia. clear Hf.
  revert base t Hbase Ht Hf'. induction fuel as [|fuel IH]; intros base t Hbase Ht Hf; [lia|].
  cbn [iio_index]. mred.
  destruct (get_u8 b base) as [op| |] eqn:E; [|done|by destruct (get_u8_not_loops b base)].
  destruct (Z.eqb_spec op 1) as [-> |]; [|by split; [done|intros t' [= <-]]].
  destruct (get_u8 b (base + 1)) as [k| |] eqn:Ek; [|done|by destruct (get_u8_not_loops b (base + 1))].
  destruct (arr_set t k (u16 (base + 2))) as [t1| |] eqn:Es; [|done|].
  2: { revert Es. unfold arr_set. by case_if. }
  pose proof (get_u8_range _ _ _ E) as Hr.
  destruct (iio_skip_ends b (S (length b)) (base + 2)) as [Hnl Hge]; [lia|].
  destruct (iio_skip b (S (length b)) (base + 2)) as [p| |] eqn:Ep; [|done|done].
  specialize (Hge p eq_refl). apply IH; [lia|by eapply iio_sound_set|lia].
Qed.

End runs.

(** ** A sample card and image *)

(** Registers read as 0; the clock has a tick of a millisecond and advances by a
    second whenever it is read. *)
#[local] Instance sample_card : Card Z := {|
  reg_read d _ := (0, d); reg_write d _ _ := d;
  ioreg_read d _ := (0, d); ioreg_write d _ _ := d;
  mc_read d _ := (0, d); mc_write d _ _ := d;
  pll_read d _ := (0, d); pll_write d _ _ := d;
  family := CHIP_R600;
  udelay d _ := d; mdelay d _ := d; msleep d _ := d; drm_can_sleep _ := true;
  jiffies d := (d, d + 1000); time_after a b := b <? a; jiffies_to_msecs j := j;
  kzalloc_ok d := (true, d); uninit := 0; over_shl _ _ := 0; over_shr _ _ := 0;
|}.

#[local] Instance sample_card_laws : CardLaws Z.
Proof. by split. Qed.

(** A command table at 0 with one table at 8: from 14 two jumps to each other, at
    20 a jump to itself, at 23 an ADD of 7 to word 2 of the work space, at 30 a
    SWITCH on 3; at 44 the indirect IO program 5. *)
Definition sample_image : list Z :=
  [0; 0; 0; 0; 8; 0; 0; 0; 0; 0; 0; 0; 4; 4;
   67; 9; 0;  67; 6; 0;  67; 12; 0;
   45; 5; 2; 7; 0; 0; 0;
   66; 37; 3; 99; 1; 32; 0; 99; 3; 48; 0; 90; 90;
   91;
   1; 5; 2; 0; 0; 9; 0; 0; 0].

Ltac bytes := repeat (apply Forall_cons; split; [done|]); apply Forall_nil; done.

Lemma sample_bytes : Forall is_u8 sample_image.
Proof. unfold sample_image. bytes. Qed.

Definition sample_ctx : atom_context :=
  MkCtx sample_image 0 0 (replicate 256 0) 0 16 0 0 0 0 0 false false 0 (replicate 4 0) 16.

Definition sample_state : state (D := Z) :=
  St 0 sample_ctx [1; 2; 3; 4] (MkEc 0 (Some [0; 0; 40; 0]) 1 8 0 None false) 0.

Lemma sample_wt : wt sample_state.
Proof.
  split; [|split].
  - unfold wt_ctx. cbn [sample_state sample_ctx ctx bios iio data_block fb_base divmul0 divmul1
      io_attr reg_block shift io_mode scratch].
    split_and!; try done; [exact sample_bytes|by apply Forall_replicate..].
  - bytes.
  - unfold wt_ec. cbn. split_and!; try done. bytes.
Qed.

Definition no_call (_ _ : Z) : M (D := Z) Z := mret 0.

Definition state_of {A} (r : run (A * state (D := Z))) : state :=
  match r with Done (_, s) => s | _ => sample_state end.

Definition after_add : state := state_of (call no_call F_add ATOM_ARG_WS 24 sample_state).

Lemma atom_alu_instruction_witness :
  exists dst saved p1 src s2 saved',
    atom_get_dst ATOM_ARG_WS 5 25 sample_state = Done ((dst, saved, p1), sample_state) /\
    atom_get_src 5 p1 sample_state = Done ((src, 30), s2) /\
    atom_get_dst ATOM_ARG_WS 5 25 after_add = Done (((dst + src) mod 2 ^ 32, saved', p1), after_add) /\
    Z.land saved' 0 = Z.land saved 0.
Proof.
  apply (atom_alu_instruction no_call F_add Z.add ATOM_ARG_WS 24 5 2 sample_state 30 after_add);
    [vm_compute; reflexivity..| |vm_compute; reflexivity].
  right. left. split; [reflexivity|set_solver].
Defined.

Lemma atom_instruction_ends_witness :
  wt sample_state /\ call no_call F_switch 0 31 sample_state <> Loops.
Proof.
  split; [exact sample_wt|]. apply atom_instruction_ends; [exact sample_wt|lia|discriminate].
Defined.

Lemma atom_switch_dispatch_witness :
  atom_op_switch 0 31 sample_state = Done (8 + 48, sample_state).
Proof.
  refine (eq_trans (atom_switch_dispatch 37 3 [(1, 32); (3, 48)] (take 33 sample_image)
    (drop 43 sample_image) 0 31 sample_state sample_state _ _ _ _) _);
    [vm_compute; reflexivity..| |vm_compute; reflexivity|vm_compute; reflexivity].
  bytes.
Defined.

Lemma atom_stuck_loop_aborts_witness :
  exists s', op_loop no_call 8 20 sample_state = Done (- EINVAL, s').
Proof.
  apply (atom_stuck_loop_aborts no_call 20 12 5 sample_state); try done.
  intros i Hi. unfold clock.
  do 7 (destruct i as [|i]; [try lia; reflexivity|]). lia.
Defined.

Lemma atom_alternating_jumps_run_on_witness :
  op_loop no_call 1000 14 sample_state = Loops.
Proof. by apply (atom_alternating_jumps_run_on no_call 1000 14 17 6 9 sample_state). Defined.

Lemma atom_fb_access_witness : get_fb 0 sample_state = Oops /\ put_fb 0 1 sample_state = Oops.
Proof. apply (atom_fb_access 0 1 sample_state); by vm_compute. Defined.

Lemma atom_index_iio_sound_witness :
  exists t, iio_index sample_image 60 44 (replicate 256 0) = Done t /\ t !! 5%nat = Some 46 /\
    iio_sound sample_image t.
Proof.
  eexists. split; [reflexivity|]. split; [reflexivity|].
  apply (atom_index_iio_sound sample_image 60 44 (replicate 256 0)); [exact sample_bytes|cbn; lia|lia| |reflexivity].
  split; [reflexivity|]. intros k e He _ Hne. by apply lookup_replicate in He as [-> _].
Defined.
