(* ===== verification/NvMm.v ===== *)
(** * nouveau's region allocator (nouveau/core/core/mm.c, core/include/core/mm.h)

    [struct nouveau_mm] keeps all regions in a list in address order and the free
    ones also in a second list.  A region structure lives exactly as long as it
    is in the first list, so the model keeps the structures in that list, each
    with the identifier its pointers have; the free list holds identifiers.  A
    pointer to a structure that is not in the list is dangling ([Oops]).  The
    success of each allocation of a structure is a script of the state. *)

From S2P Require Import Prelude.

Definition NVKM_MM_HEAP_ANY := 0.
Definition NVKM_MM_TYPE_NONE := 0.
Definition NVKM_MM_TYPE_HOLE := 255.

Record nv_node := NvNode {
  n_heap : Z;
  n_type : Z;
  n_offset : Z;
  n_length : Z;
}.

Notation nv_list := (list (Z * nv_node)).

Record nv_mm := NvMm {
  nodes : nv_list;
  free : list Z;
  block_size : Z;
  heap_nodes : Z;
  next_id : Z;
  allocs : list bool;
}.

Definition set_nodes (l : nv_list) (m : nv_mm) : nv_mm :=
  NvMm l (free m) (block_size m) (heap_nodes m) (next_id m) (allocs m).
Definition set_free (l : list Z) (m : nv_mm) : nv_mm :=
  NvMm (nodes m) l (block_size m) (heap_nodes m) (next_id m) (allocs m).
Definition set_heap_nodes (k : Z) (m : nv_mm) : nv_mm :=
  NvMm (nodes m) (free m) (block_size m) k (next_id m) (allocs m).

Definition set_type (t : Z) (n : nv_node) : nv_node := NvNode (n_heap n) t (n_offset n) (n_length n).
Definition set_range (o l : Z) (n : nv_node) : nv_node := NvNode (n_heap n) (n_type n) o l.

(** [kmalloc]/[kzalloc] of a node: an identifier never used before. *)
Definition new_node (m : nv_mm) : option Z * nv_mm :=
  match allocs m with
  | false :: rest => (None, NvMm (nodes m) (free m) (block_size m) (heap_nodes m) (next_id m) rest)
  | l => (Some (next_id m),
          NvMm (nodes m) (free m) (block_size m) (heap_nodes m) (next_id m + 1) (tail l))
  end.

(** ** The list of nodes *)
Fixpoint find_node (i : Z) (l : nv_list) : option nv_node :=
  match l with
  | [] => None
  | (j, n) :: l => if decide (j = i) then Some n else find_node i l
  end.

Definition upd_node (i : Z) (f : nv_node -> nv_node) (l : nv_list) : nv_list :=
  (fun p : Z * nv_node => if decide (p.1 = i) then (p.1, f p.2) else p) <$> l.

Definition del_node (i : Z) (l : nv_list) : nv_list := filter (fun p : Z * nv_node => p.1 <> i) l.

Fixpoint add_before (i : Z) (x : Z * nv_node) (l : nv_list) : nv_list :=
  match l with
  | [] => []
  | p :: l => if decide (p.1 = i) then x :: p :: l else p :: add_before i x l
  end.

Fixpoint add_after (i : Z) (x : Z * nv_node) (l : nv_list) : nv_list :=
  match l with
  | [] => []
  | p :: l => if decide (p.1 = i) then p :: x :: l else p :: add_after i x l
  end.

(** [node(root, prev)] and [node(root, next)] *)
Fixpoint node_next (i : Z) (l : nv_list) : option (Z * nv_node) :=
  match l with
  | [] => None
  | p :: l => if decide (p.1 = i) then head l else node_next i l
  end.

Fixpoint node_prev_from (before : option (Z * nv_node)) (i : Z) (l : nv_list) : option (Z * nv_node) :=
  match l with
  | [] => None
  | p :: l => if decide (p.1 = i) then before else node_prev_from (Some p) i l
  end.
Definition node_prev : Z -> nv_list -> option (Z * nv_node) := node_prev_from None.

(** ** Freeing *)

(** The place of a node in the free list: before the first one above it. *)
Fixpoint insert_free (l : nv_list) (off i : Z) (fl : list Z) : run (list Z) :=
  match fl with
  | [] => Done [i]
  | j :: fl =>
    n ← deref (find_node j l);
    if off <? n_offset n then Done (i :: j :: fl)
    else fl' ← insert_free l off i fl; Done (j :: fl')
  end.

(** [prev] takes the region over. *)
Definition merge_prev (m : nv_mm) (this : Z) (prev : option (Z * nv_node)) : run (nv_mm * Z) :=
  match prev with
  | Some (p, pn) =>
    if n_type pn =? NVKM_MM_TYPE_NONE then
      tn ← deref (find_node this (nodes m));
      let grow n := set_range (n_offset n) (u32 (n_length n + n_length tn)) n in
      Done (set_nodes (del_node this (upd_node p grow (nodes m))) m, p)
    else Done (m, this)
  | None => Done (m, this)
  end.

(** [next] takes the region over. *)
Definition merge_next (m : nv_mm) (this : Z) (next : option (Z * nv_node)) : run (nv_mm * option Z) :=
  match next with
  | Some (x, xn) =>
    if n_type xn =? NVKM_MM_TYPE_NONE then
      tn ← deref (find_node this (nodes m));
      let grow n := set_range (n_offset tn) (u32 (n_length n + n_length tn)) n in
      let m' := if n_type tn =? NVKM_MM_TYPE_NONE then set_free (list_del this (free m)) m else m in
      Done (set_nodes (del_node this (upd_node x grow (nodes m'))) m', None)
    else Done (m, Some this)
  | None => Done (m, Some this)
  end.

(** The part behind the merge with [prev]. *)
Definition free_rest (m : nv_mm) (this : Z) (next : option (Z * nv_node)) : run nv_mm :=
  '(m, this) ← merge_next m this next;
  match this with
  | None => Done m
  | Some this =>
    tn ← deref (find_node this (nodes m));
    if negb (n_type tn =? NVKM_MM_TYPE_NONE) then
      fl ← insert_free (nodes m) (n_offset tn) this (free m);
      Done (set_nodes (upd_node this (set_type NVKM_MM_TYPE_NONE) (nodes m)) (set_free fl m))
    else Done m
  end.

Definition nouveau_mm_free (m : nv_mm) (pthis : option Z) : run nv_mm :=
  match pthis with
  | None => Done m
  | Some this =>
    let prev := node_prev this (nodes m) in
    let next := node_next this (nodes m) in
    '(m, this) ← merge_prev m this prev;
    free_rest m this next
  end.

(** ** Splitting *)
Definition region_head (m : nv_mm) (a size : Z) : run (option Z * nv_mm) :=
  an ← deref (find_node a (nodes m));
  if n_length an =? size then Done (Some a, m)
  else
    match new_node m with
    | (None, m) => Done (None, m)
    | (Some b, m) =>
      let bn := NvNode (n_heap an) (n_type an) (n_offset an) size in
      let l := upd_node a (set_range (u32 (n_offset an + size)) (u32 (n_length an - size))) (nodes m) in
      let m := set_nodes (add_before a (b, bn) l) m in
      let m := if n_type bn =? NVKM_MM_TYPE_NONE
               then set_free (list_add_before a b (free m)) m else m in
      Done (Some b, m)
    end.

Definition region_tail (m : nv_mm) (a size : Z) : run (option Z * nv_mm) :=
  an ← deref (find_node a (nodes m));
  if n_length an =? size then Done (Some a, m)
  else
    match new_node m with
    | (None, m) => Done (None, m)
    | (Some b, m) =>
      let alen := u32 (n_length an - size) in
      let bn := NvNode (n_heap an) (n_type an) (u32 (n_offset an + alen)) size in
      let l := upd_node a (set_range (n_offset an) alen) (nodes m) in
      let m := set_nodes (add_after a (b, bn) l) m in
      let m := if n_type bn =? NVKM_MM_TYPE_NONE
               then set_free (list_add_after a b (free m)) m else m in
      Done (Some b, m)
    end.

(** ** Allocation *)
Definition roundup (x y : Z) : Z := u32 (u32 (x + u32 (y - 1)) / y * y).
Definition rounddown (x y : Z) : Z := u32 (x - x mod y).

Definition differs (type : Z) (o : option (Z * nv_node)) : bool :=
  match o with Some (_, n) => negb (n_type n =? type) | None => false end.

Definition not_mask (align : Z) : Z := u32 (Z.lnot (u32 (align - 1))).

(** The part of a free node that [nouveau_mm_head] may use. *)
Definition head_window (m : nv_mm) (type align this : Z) (tn : nv_node) : Z * Z :=
  let mask := u32 (align - 1) in
  let e := u32 (n_offset tn + n_length tn) in
  let s := n_offset tn in
  let s := if differs type (node_prev this (nodes m)) then roundup s (block_size m) else s in
  let e := if differs type (node_next this (nodes m)) then rounddown e (block_size m) else e in
  (Z.land (u32 (s + mask)) (not_mask align), Z.land e (not_mask align)).

(** The end of both allocators: the type is set and the node leaves the free
    list. *)
Definition take_node (m : nv_mm) (type this : Z) : nv_mm :=
  set_nodes (upd_node this (set_type type) (nodes m)) (set_free (list_del this (free m)) m).

(** The result: return value, [*pnode] if it is set, and state. *)
Definition head_take (m : nv_mm) (type size_max s e this : Z) (tn : nv_node)
    : run (Z * option Z * nv_mm) :=
  let splitoff := u32 (s - n_offset tn) in
  '(ok, m) ← (if splitoff =? 0 then Done (Some this, m) else region_head m this splitoff);
  match ok with
  | None => Done (- ENOMEM, None, m)
  | Some _ =>
    '(r, m) ← region_head m this (Z.min size_max (u32 (e - s)));
    match r with
    | None => Done (- ENOMEM, None, m)
    | Some this => Done (0, Some this, take_node m type this)
    end
  end.

Fixpoint head_loop (m : nv_mm) (heap type size_max size_min align : Z) (fl : list Z)
    : run (Z * option Z * nv_mm) :=
  match fl with
  | [] => Done (- ENOSPC, None, m)
  | this :: fl =>
    tn ← deref (find_node this (nodes m));
    if negb (heap =? NVKM_MM_HEAP_ANY) && negb (n_heap tn =? heap)
    then head_loop m heap type size_max size_min align fl
    else
      let '(s, e) := head_window m type align this tn in
      if (e <? s) || (u32 (e - s) <? size_min)
      then head_loop m heap type size_max size_min align fl
      else head_take m type size_max s e this tn
  end.

Definition bad_type (type : Z) : bool :=
  (type =? NVKM_MM_TYPE_NONE) || (type =? NVKM_MM_TYPE_HOLE).

Definition nouveau_mm_head (m : nv_mm) (heap type size_max size_min align : Z)
    : run (Z * option Z * nv_mm) :=
  _ ← run_of (BUG_ON (bad_type type));
  head_loop m heap type size_max size_min align (free m).

(** The part of a free node that [nouveau_mm_tail] may use, and what is left
    behind its end. *)
Definition tail_window (m : nv_mm) (type align this : Z) (tn : nv_node) : Z * Z * Z :=
  let mask := u32 (align - 1) in
  let e := u32 (n_offset tn + n_length tn) in
  let s := n_offset tn in
  let s := if differs type (node_prev this (nodes m)) then roundup s (block_size m) else s in
  let '(e, c) :=
    match node_next this (nodes m) with
    | Some (_, xn) =>
      if negb (n_type xn =? type) then
        let e' := rounddown e (block_size m) in (e', u32 (n_offset xn - e'))
      else (e, 0)
    | None => (e, 0)
    end in
  (Z.land (u32 (s + mask)) (not_mask align), e, c).

Definition tail_take (m : nv_mm) (type size_max align s e c this : Z) : run (Z * option Z * nv_mm) :=
  let a := Z.min (u32 (e - s)) size_max in
  let s := Z.land (u32 (e - a)) (not_mask align) in
  let c := u32 (c + u32 (u32 (e - s) - a)) in
  '(ok, m) ← (if c =? 0 then Done (Some this, m) else region_tail m this c);
  match ok with
  | None => Done (- ENOMEM, None, m)
  | Some _ =>
    '(r, m) ← region_tail m this a;
    match r with
    | None => Done (- ENOMEM, None, m)
    | Some this => Done (0, Some this, take_node m type this)
    end
  end.

Fixpoint tail_loop (m : nv_mm) (heap type size_max size_min align : Z) (fl : list Z)
    : run (Z * option Z * nv_mm) :=
  match fl with
  | [] => Done (- ENOSPC, None, m)
  | this :: fl =>
    tn ← deref (find_node this (nodes m));
    if negb (heap =? NVKM_MM_HEAP_ANY) && negb (n_heap tn =? heap)
    then tail_loop m heap type size_max size_min align fl
    else
      let '(s, e, c) := tail_window m type align this tn in
      if (e <? s) || (u32 (e - s) <? size_min)
      then tail_loop m heap type size_max size_min align fl
      else tail_take m type size_max align s e c this
  end.

Definition nouveau_mm_tail (m : nv_mm) (heap type size_max size_min align : Z)
    : run (Z * option Z * nv_mm) :=
  _ ← run_of (BUG_ON (bad_type type));
  tail_loop m heap type size_max size_min align (reverse (free m)).

(** ** Set up and take down *)
Definition nouveau_mm_initialised (m : nv_mm) : bool := negb (block_size m =? 0).

(** The first part: a hole up to the new heap, or the first use of the manager;
    [None] is a failed allocation. *)
Definition init_place (m : nv_mm) (offset block : Z) : run (option nv_mm * nv_mm) :=
  if nouveau_mm_initialised m then
    '(_, prev) ← deref (last (nodes m));
    let next := u32 (n_offset prev + n_length prev) in
    '(ok, m) ←
      (if negb (next =? offset) then
         _ ← run_of (BUG_ON (offset <? next));
         match new_node m with
         | (None, m) => Done (false, m)
         | (Some i, m) =>
           let hole := NvNode 0 NVKM_MM_TYPE_HOLE next (u32 (offset - next)) in
           Done (true, set_nodes (nodes m ++ [(i, hole)]) m)
         end
       else Done (true, m));
    if ok : bool then
      _ ← run_of (BUG_ON (negb (block =? block_size m)));
      Done (Some m, m)
    else Done (None, m)
  else
    let m := NvMm [] [] block 0 (next_id m) (allocs m) in
    Done (Some m, m).

Definition nouveau_mm_init (m : nv_mm) (offset length block : Z) : run (Z * nv_mm) :=
  '(p, m) ← init_place m offset block;
  match p with
  | None => Done (- ENOMEM, m)
  | Some m =>
    match new_node m with
    | (None, m) => Done (- ENOMEM, m)
    | (Some i, m) =>
      let off := if truth length then roundup offset (block_size m) else 0 in
      let len := if truth length
                 then u32 (rounddown (u32 (offset + length)) (block_size m) - off) else 0 in
      let k := s32 (heap_nodes m + 1) in
      let n := NvNode (u8 k) NVKM_MM_TYPE_NONE off len in
      Done (0, set_heap_nodes k (set_free (free m ++ [i]) (set_nodes (nodes m ++ [(i, n)]) m)))
    end
  end.

(** The count of the first loop of [nouveau_mm_fini] passes the heaps. *)
Fixpoint fini_count (l : nv_list) (heaps count : Z) : bool :=
  match l with
  | [] => true
  | (_, n) :: l =>
    if negb (n_type n =? NVKM_MM_TYPE_HOLE) then
      if heaps <? s32 (count + 1) then false else fini_count l heaps (s32 (count + 1))
    else fini_count l heaps count
  end.

Definition nouveau_mm_fini (m : nv_mm) : Z * nv_mm :=
  if negb (nouveau_mm_initialised m) then (0, m)
  else if negb (fini_count (nodes m) (heap_nodes m) 0) then (- EBUSY, m)
  else (0, set_heap_nodes 0 (set_nodes [] m)).
