(* ===== verification/NvMmSpec.v ===== *)
(** * nouveau's region allocator: invariant and splitting

    The regions tile each heap in address order, the free list is the list of the
    free regions, and identifiers are fresh.  Every step of the allocator replaces
    a segment of regions by one that covers the same range ([wf_replace]). *)

From S2P Require Import Prelude NvMm.

Implicit Types (l : nv_list) (n : nv_node) (m : nv_mm).

Definition n_end n : Z := n_offset n + n_length n.

(** Neighbours: in order, and without a gap except behind a hole. *)
Definition step_ok n n' : Prop :=
  n_end n <= n_offset n' /\ (n_type n <> NVKM_MM_TYPE_HOLE -> n_end n = n_offset n').

Definition joined (o o' : option (Z * nv_node)) : Prop :=
  match o, o' with Some p, Some p' => step_ok p.2 p'.2 | _, _ => True end.

Fixpoint chained l : Prop :=
  match l with
  | [] => True
  | p :: l => joined (Some p) (head l) /\ chained l
  end.

Definition is_free (p : Z * nv_node) : Prop := n_type p.2 = NVKM_MM_TYPE_NONE.
#[export] Instance is_free_dec p : Decision (is_free p).
Proof. unfold is_free. apply _. Defined.

Definition free_ids l : list Z := (filter is_free l).*1.

Definition node_ok n : Prop := 0 <= n_offset n /\ 0 < n_length n /\ n_end n < 2 ^ 32.

(** The end of the last region is a multiple of the block size, unless it is a
    hole. *)
Definition end_ok (b : Z) (o : option (Z * nv_node)) : Prop :=
  match o with
  | Some p => n_type p.2 = NVKM_MM_TYPE_HOLE \/ (b | n_end p.2)
  | None => True
  end.

Record wf m : Prop := {
  wf_nodup : NoDup (nodes m).*1;
  wf_fresh : Forall (fun p => p.1 < next_id m) (nodes m);
  wf_free : free m = free_ids (nodes m);
  wf_chain : chained (nodes m);
  wf_nodes : Forall (fun p => node_ok p.2) (nodes m);
  wf_block : 0 < block_size m < 2 ^ 32;
  wf_end : end_ok (block_size m) (last (nodes m));
}.

(** ** Lists of nodes *)
Lemma chained_app l1 l2 :
  chained (l1 ++ l2) <-> chained l1 /\ chained l2 /\ joined (last l1) (head l2).
Proof.
  induction l1 as [|p l1 IH]; [simpl; tauto|]. cbn [app chained]. rewrite IH.
  destruct l1 as [|q l1]; simpl; [destruct (head l2); tauto|].
  destruct l1; tauto.
Qed.

Lemma free_ids_app l1 l2 : free_ids (l1 ++ l2) = free_ids l1 ++ free_ids l2.
Proof. unfold free_ids. by rewrite filter_app, fmap_app. Qed.

Lemma free_ids_cons p l :
  free_ids (p :: l) = if decide (is_free p) then p.1 :: free_ids l else free_ids l.
Proof. unfold free_ids. rewrite filter_cons. by case_decide. Qed.

Lemma free_ids_elem i l : i ∈ free_ids l -> i ∈ l.*1.
Proof.
  unfold free_ids. rewrite !list_elem_of_fmap. intros (p & -> & Hp).
  apply list_elem_of_filter in Hp as [_ Hp]. by exists p.
Qed.

Section mid.
Context (i : Z) (n : nv_node) (l1 l2 : nv_list).
Context (H1 : i ∉ l1.*1) (H2 : i ∉ l2.*1).

Lemma find_node_mid : find_node i (l1 ++ (i, n) :: l2) = Some n.
Proof.
  clear H2. induction l1 as [|[j k] l IH]; cbn; [by rewrite decide_True|].
  cbn in H1. rewrite decide_False by set_solver. apply IH. set_solver.
Qed.

Lemma upd_notin f l : i ∉ l.*1 -> upd_node i f l = l.
Proof.
  induction l as [|[j k] l IH]; cbn; [done|]. intros Hi. rewrite decide_False by set_solver.
  f_equal. apply IH. set_solver.
Qed.

Lemma upd_node_mid f : upd_node i f (l1 ++ (i, n) :: l2) = l1 ++ (i, f n) :: l2.
Proof.
  unfold upd_node. rewrite fmap_app. fold (upd_node i f l1). rewrite upd_notin by done.
  cbn. rewrite decide_True by done. fold (upd_node i f l2). by rewrite upd_notin.
Qed.

Lemma del_notin l : i ∉ l.*1 -> del_node i l = l.
Proof.
  unfold del_node. induction l as [|[j k] l IH]; [done|]. intros Hi.
  rewrite filter_cons_True by (cbn in *; set_solver). f_equal. apply IH. set_solver.
Qed.

Lemma del_node_mid : del_node i (l1 ++ (i, n) :: l2) = l1 ++ l2.
Proof.
  unfold del_node. rewrite filter_app, filter_cons_False by (cbn; tauto).
  fold (del_node i l1) (del_node i l2). by rewrite !del_notin.
Qed.

Lemma add_before_mid x : add_before i x (l1 ++ (i, n) :: l2) = l1 ++ x :: (i, n) :: l2.
Proof.
  clear H2. induction l1 as [|[j k] l IH]; cbn; [by rewrite decide_True|].
  cbn in H1. rewrite decide_False by set_solver. f_equal. apply IH. set_solver.
Qed.

Lemma add_after_mid x : add_after i x (l1 ++ (i, n) :: l2) = l1 ++ (i, n) :: x :: l2.
Proof.
  clear H2. induction l1 as [|[j k] l IH]; cbn; [by rewrite decide_True|].
  cbn in H1. rewrite decide_False by set_solver. f_equal. apply IH. set_solver.
Qed.

Lemma node_next_mid : node_next i (l1 ++ (i, n) :: l2) = head l2.
Proof.
  clear H2. induction l1 as [|[j k] l IH]; cbn; [by rewrite decide_True|].
  cbn in H1. rewrite decide_False by set_solver. apply IH. set_solver.
Qed.

Lemma node_prev_mid : node_prev i (l1 ++ (i, n) :: l2) = last l1.
Proof.
  clear H2. unfold node_prev. assert (Hg : forall o, node_prev_from o i (l1 ++ (i, n) :: l2) =
    match last l1 with Some p => Some p | None => o end).
  { induction l1 as [|[j k] l IH]; intros o; cbn; [by rewrite decide_True|].
    cbn in H1. rewrite decide_False by set_solver. rewrite IH by set_solver.
    destruct l as [|q l]; [done|]. cbn. destruct (last (q :: l)) eqn:E; [done|].
    by apply last_None in E. }
  rewrite Hg. by destruct (last l1).
Qed.

End mid.

(** A node that is found splits the list. *)
Lemma find_node_split i n l :
  find_node i l = Some n -> exists l1 l2, l = l1 ++ (i, n) :: l2 /\ i ∉ l1.*1.
Proof.
  induction l as [|[j k] l IH]; cbn; [done|]. case_decide; intros E.
  - simplify_eq. exists [], l. split; [done|set_solver].
  - destruct (IH E) as (l1 & l2 & -> & Hi). exists ((j, k) :: l1), l2. split; [done|].
    cbn. set_solver.
Qed.

Lemma find_node_elem i n l : NoDup l.*1 -> (i, n) ∈ l -> find_node i l = Some n.
Proof.
  intros Hnd (l1 & l2 & ->)%list_elem_of_split. apply find_node_mid.
  rewrite fmap_app in Hnd. apply NoDup_app in Hnd as (_ & Hd & _). intros Hi.
  apply (Hd _ Hi). cbn. set_solver.
Qed.

Lemma mid_notin i n l1 l2 : NoDup (l1 ++ (i, n) :: l2).*1 -> i ∉ l1.*1 /\ i ∉ l2.*1.
Proof.
  rewrite fmap_app, fmap_cons. intros (_ & Hd & Hn)%NoDup_app. apply NoDup_cons in Hn as [Hn _].
  split; [|done]. intros Hi. apply (Hd _ Hi). set_solver.
Qed.

(** ** Segments *)
Definition first_off (l : nv_list) : option Z := n_offset ∘ snd <$> head l.
Definition last_end (l : nv_list) : option Z := n_end ∘ snd <$> last l.
Definition last_hole (l : nv_list) : Prop :=
  match last l with Some p => n_type p.2 = NVKM_MM_TYPE_HOLE | None => False end.

Lemma joined_first o l l' : first_off l = first_off l' -> joined o (head l) -> joined o (head l').
Proof.
  unfold first_off, joined. destruct o as [p|]; [|done].
  destruct (head l), (head l'); cbn; try done. intros [= E]. unfold step_ok. by rewrite E.
Qed.

Lemma joined_last l l' o :
  last_end l = last_end l' -> ~ last_hole l -> joined (last l) o -> joined (last l') o.
Proof.
  unfold last_end, last_hole, joined. destruct o as [p|]; [|by destruct (last l')].
  destruct (last l), (last l'); cbn; try done. intros [= E] Hh. unfold step_ok. rewrite <- E.
  intros [H1 H2]. split; [done|]. intros _. by apply H2.
Qed.

Lemma head_app_ne l l' : l <> [] -> head (l ++ l') = head l.
Proof. by destruct l. Qed.

Lemma last_app_ne l l' : l' <> [] -> last (l ++ l') = last l'.
Proof. intros. rewrite last_app. destruct (last l') eqn:E; [done|]. by apply last_None in E. Qed.

Lemma last_app_swap l seg seg' b :
  seg <> [] -> seg' <> [] -> last_end seg = last_end seg' -> ~ last_hole seg ->
  end_ok b (last (l ++ seg)) -> end_ok b (last (l ++ seg')).
Proof.
  intros H1 H2 E Hh. rewrite !last_app_ne by done. unfold last_end, end_ok, last_hole in *.
  destruct (last seg), (last seg'); cbn in *; try done. injection E as ->. intros [?|?]; [done|by right].
Qed.

(** The state after a segment is replaced by one over the same range. *)
Lemma wf_replace m l1 seg seg' l2 fl nid al :
  wf m -> nodes m = l1 ++ seg ++ l2 -> seg <> [] -> seg' <> [] ->
  first_off seg = first_off seg' -> last_end seg = last_end seg' -> ~ last_hole seg ->
  chained seg' -> Forall (fun p => node_ok p.2) seg' ->
  NoDup (l1 ++ seg' ++ l2).*1 -> Forall (fun p => p.1 < nid) (l1 ++ seg' ++ l2) ->
  fl = free_ids (l1 ++ seg' ++ l2) ->
  wf (NvMm (l1 ++ seg' ++ l2) fl (block_size m) (heap_nodes m) nid al).
Proof.
  intros [Hnd Hfr Hfl Hch Hok Hb He] Hn Hs Hs' Ef El Hh Hc' Hok' Hnd' Hfr' ->.
  rewrite Hn in *. apply chained_app in Hch as (C1 & C2 & J1). apply chained_app in C2 as (C2 & C3 & J2).
  apply Forall_app in Hok as [O1 O2]. apply Forall_app in O2 as [_ O2].
  split; cbn; try done.
  - rewrite !chained_app. split; [done|]. split; [split; [done|split; [done|]]|].
    + by apply (joined_last seg).
    + rewrite head_app_ne in J1 |- * by done. by apply (joined_first _ seg).
  - by apply Forall_app; split; [|apply Forall_app].
  - destruct l2 as [|p l2]; [rewrite app_nil_r in *; by apply (last_app_swap l1 seg)|].
    rewrite !app_assoc in *. by rewrite !last_app_ne in * by done.
Qed.

(** Distinct regions do not overlap. *)
Lemma chained_ordered l1 p l2 q l3 :
  Forall (fun p => node_ok p.2) (l1 ++ p :: l2 ++ q :: l3) -> chained (l1 ++ p :: l2 ++ q :: l3) ->
  n_end p.2 <= n_offset q.2.
Proof.
  intros Hok (_ & Hc & _)%chained_app. apply Forall_app in Hok as [_ Hok].
  revert p Hok Hc. induction l2 as [|r l2 IH]; intros p Hok Hc; cbn in *; destruct Hc as [[Hj _] Hc]; [done|].
  apply Forall_cons in Hok as [_ Hok]. specialize (IH r Hok Hc).
  apply Forall_cons in Hok as [(_ & Hr & _) _]. unfold n_end in *. lia.
Qed.

(** ** Splitting a region *)
Definition same_conf m m' : Prop := block_size m' = block_size m /\ heap_nodes m' = heap_nodes m.

Lemma new_node_cases m :
  (exists al, new_node m = (None, NvMm (nodes m) (free m) (block_size m) (heap_nodes m) (next_id m) al)) \/
  (exists al, new_node m = (Some (next_id m),
     NvMm (nodes m) (free m) (block_size m) (heap_nodes m) (next_id m + 1) al)).
Proof. unfold new_node. destruct (allocs m) as [|[] al]; eauto. Qed.

Lemma wf_allocs m al : wf m ->
  wf (NvMm (nodes m) (free m) (block_size m) (heap_nodes m) (next_id m) al).
Proof. by intros []. Qed.

Lemma fresh_notin m : Forall (fun p : Z * nv_node => p.1 < next_id m) (nodes m) -> next_id m ∉ (nodes m).*1.
Proof.
  intros Hf Hi. apply list_elem_of_fmap in Hi as (p & E & Hp).
  rewrite Forall_forall in Hf. apply Hf in Hp. lia.
Qed.

(** The keys and bounds after a fresh node is put next to another. *)
Lemma fresh_two m l1 a an l2 (x y : Z * nv_node) :
  wf m -> nodes m = l1 ++ [(a, an)] ++ l2 ->
  (x.1 = next_id m /\ y.1 = a) \/ (x.1 = a /\ y.1 = next_id m) ->
  NoDup (l1 ++ [x; y] ++ l2).*1 /\ Forall (fun p => p.1 < next_id m + 1) (l1 ++ [x; y] ++ l2).
Proof.
  intros [Hnd Hfr _ _ _ _ _] Hn Hxy. pose proof (fresh_notin m Hfr) as Hni. rewrite Hn in *. split.
  - assert (Hp : (l1 ++ [x; y] ++ l2).*1 ≡ₚ next_id m :: (l1 ++ [(a, an)] ++ l2).*1).
    { rewrite !fmap_app. cbn. destruct Hxy as [[-> ->]|[-> ->]]; [by rewrite Permutation_middle|].
      rewrite (Permutation_swap (next_id m) a). by rewrite Permutation_middle. }
    rewrite Hp. by apply NoDup_cons.
  - apply Forall_app in Hfr as [F1 F2]. apply Forall_app in F2 as [F2 F3].
    apply Forall_cons in F2 as [F2 _]. cbn in F2.
    assert (Hw : forall l : nv_list, Forall (fun p => p.1 < next_id m) l ->
      Forall (fun p => p.1 < next_id m + 1) l).
    { intros l Hl. apply (Forall_impl _ _ _ Hl). cbn. intros ??. lia. }
    apply Forall_app. split; [by apply Hw|]. apply Forall_app. split; [|by apply Hw].
    repeat constructor; lia.
Qed.

Lemma region_head_spec m a an l1 l2 size :
  wf m -> nodes m = l1 ++ (a, an) :: l2 -> is_free (a, an) -> 0 < size <= n_length an ->
  (exists m', region_head m a size = Done (None, m') /\ wf m' /\ nodes m' = nodes m /\ same_conf m m') \/
  (exists m' b l2', region_head m a size = Done (Some b, m') /\ wf m' /\ same_conf m m' /\
     nodes m' = l1 ++ (b, NvNode (n_heap an) NVKM_MM_TYPE_NONE (n_offset an) size) :: l2' /\
     ((size = n_length an /\ b = a /\ l2' = l2) \/
      (size < n_length an /\
       l2' = (a, NvNode (n_heap an) NVKM_MM_TYPE_NONE (n_offset an + size) (n_length an - size)) :: l2))).
Proof.
  intros Hwf Hn Hf Hs. pose proof Hwf as [Hnd Hfr Hfl Hch Hok Hb He].
  assert (Hni : a ∉ l1.*1 /\ a ∉ l2.*1) by (apply mid_notin with an; by rewrite <- Hn).
  destruct Hni as [Hi1 Hi2].
  assert (Ht : n_type an = NVKM_MM_TYPE_NONE) by exact Hf.
  assert (Han : node_ok an).
  { rewrite Hn in Hok. apply Forall_app in Hok as [_ Hok]. by apply Forall_cons in Hok as [? _]. }
  destruct Han as (A1 & A2 & A3). unfold n_end in A3.
  assert (Hfind : find_node a (nodes m) = Some an) by (rewrite Hn; by apply find_node_mid).
  unfold region_head. rewrite Hfind. mred.
  destruct (Z.eqb_spec (n_length an) size) as [E|E].
  { right. exists m, a, l2. split; [done|]. split; [done|]. split; [done|]. split; [|by left].
    rewrite Hn. subst size. rewrite <- Ht. by destruct an. }
  destruct (new_node_cases m) as [[al ->]|[al ->]].
  { left. eexists. split; [done|]. split; [by apply wf_allocs|]. done. }
  right. cbn [n_type]. rewrite Ht. cbn [Z.eqb NVKM_MM_TYPE_NONE].
  set (b := next_id m). cbn [nodes free set_nodes set_free].
  rewrite Hn, upd_node_mid, add_before_mid by done.
  rewrite (u32_small (n_offset an + size)), (u32_small (n_length an - size)) by (unfold is_u32; lia).
  set (bn := NvNode (n_heap an) NVKM_MM_TYPE_NONE (n_offset an) size).
  set (an' := NvNode (n_heap an) NVKM_MM_TYPE_NONE (n_offset an + size) (n_length an - size)).
  assert (Ean : set_range (n_offset an + size) (n_length an - size) an = an').
  { unfold set_range, an'. by rewrite Ht. }
  rewrite Ean. destruct (fresh_two m l1 a an l2 (b, bn) (a, an') Hwf Hn ltac:(by left)) as [Hnd' Hfr'].
  eexists _, b, ((a, an') :: l2). split; [done|]. split; [|by split; [done|split; [done|right; split; [lia|done]]]].
  assert (Efl : list_add_before a b (free m) = free_ids (l1 ++ [(b, bn); (a, an')] ++ l2)).
  { rewrite Hfl, Hn, !free_ids_app. cbn [app]. rewrite !free_ids_cons, !decide_True by done. cbn [fst].
    rewrite list_add_before_mid; [done|]. intros C. by apply Hi1, free_ids_elem. }
  rewrite Efl. apply (wf_replace m l1 [(a, an)] [(b, bn); (a, an')] l2); try done.
  - cbn. unfold n_end. cbn. f_equal. lia.
  - cbn. rewrite Ht. done.
  - apply Forall_cons; split; [|apply Forall_singleton]; unfold node_ok, n_end; cbn; lia.
Qed.

Lemma region_tail_spec m a an l1 l2 size :
  wf m -> nodes m = l1 ++ (a, an) :: l2 -> is_free (a, an) -> 0 < size <= n_length an ->
  (exists m', region_tail m a size = Done (None, m') /\ wf m' /\ nodes m' = nodes m /\ same_conf m m') \/
  (exists m' b l1', region_tail m a size = Done (Some b, m') /\ wf m' /\ same_conf m m' /\
     nodes m' = l1' ++ (b, NvNode (n_heap an) NVKM_MM_TYPE_NONE (n_end an - size) size) :: l2 /\
     ((size = n_length an /\ b = a /\ l1' = l1) \/
      (size < n_length an /\
       l1' = l1 ++ [(a, NvNode (n_heap an) NVKM_MM_TYPE_NONE (n_offset an) (n_length an - size))]))).
Proof.
  intros Hwf Hn Hf Hs. pose proof Hwf as [Hnd Hfr Hfl Hch Hok Hb He].
  assert (Hni : a ∉ l1.*1 /\ a ∉ l2.*1) by (apply mid_notin with an; by rewrite <- Hn).
  destruct Hni as [Hi1 Hi2].
  assert (Ht : n_type an = NVKM_MM_TYPE_NONE) by exact Hf.
  assert (Han : node_ok an).
  { rewrite Hn in Hok. apply Forall_app in Hok as [_ Hok]. by apply Forall_cons in Hok as [? _]. }
  destruct Han as (A1 & A2 & A3). unfold n_end in A3 |- *.
  assert (Hfind : find_node a (nodes m) = Some an) by (rewrite Hn; by apply find_node_mid).
  unfold region_tail. rewrite Hfind. mred.
  destruct (Z.eqb_spec (n_length an) size) as [E|E].
  { right. exists m, a, l1. split; [done|]. split; [done|]. split; [done|]. split; [|by left].
    rewrite Hn. subst size. rewrite <- Ht, Z.add_simpl_r. by destruct an. }
  destruct (new_node_cases m) as [[al ->]|[al ->]].
  { left. eexists. split; [done|]. split; [by apply wf_allocs|]. done. }
  right. cbn [n_type]. rewrite Ht. cbn [Z.eqb NVKM_MM_TYPE_NONE].
  set (b := next_id m). cbn [nodes free set_nodes set_free].
  rewrite Hn, upd_node_mid, add_after_mid by done.
  rewrite (u32_small (n_length an - size)) by (unfold is_u32; lia).
  rewrite (u32_small (n_offset an + (n_length an - size))) by (unfold is_u32; lia).
  replace (n_offset an + (n_length an - size)) with (n_offset an + n_length an - size) by lia.
  set (bn := NvNode (n_heap an) NVKM_MM_TYPE_NONE (n_offset an + n_length an - size) size).
  set (an' := NvNode (n_heap an) NVKM_MM_TYPE_NONE (n_offset an) (n_length an - size)).
  assert (Ean : set_range (n_offset an) (n_length an - size) an = an').
  { unfold set_range, an'. by rewrite Ht. }
  rewrite Ean. destruct (fresh_two m l1 a an l2 (a, an') (b, bn) Hwf Hn ltac:(by right)) as [Hnd' Hfr'].
  eexists _, b, (l1 ++ [(a, an')]). split; [done|]. split; [|split; [done|split;
    [by rewrite <- app_assoc|right; split; [lia|done]]]].
  assert (Efl : list_add_after a b (free m) = free_ids (l1 ++ [(a, an'); (b, bn)] ++ l2)).
  { rewrite Hfl, Hn, !free_ids_app. cbn [app]. rewrite !free_ids_cons, !decide_True by done. cbn [fst].
    rewrite list_add_after_mid; [done|]. intros C. by apply Hi1, free_ids_elem. }
  rewrite Efl. apply (wf_replace m l1 [(a, an)] [(a, an'); (b, bn)] l2); try done.
  - cbn. unfold n_end. cbn. f_equal. lia.
  - cbn. rewrite Ht. done.
  - cbn. unfold step_ok, n_end. cbn. split_and!; try done; lia.
  - apply Forall_cons; split; [|apply Forall_singleton]; unfold node_ok, n_end; cbn; lia.
Qed.

(** ** Taking a region *)
Lemma take_node_spec m type i n l1 l2 :
  wf m -> nodes m = l1 ++ (i, n) :: l2 -> is_free (i, n) -> type <> NVKM_MM_TYPE_NONE ->
  wf (take_node m type i) /\ nodes (take_node m type i) = l1 ++ (i, set_type type n) :: l2 /\
  same_conf m (take_node m type i).
Proof.
  intros Hwf Hn Hf Ht. pose proof Hwf as [Hnd Hfr Hfl Hch Hok Hb He].
  assert (Hni : i ∉ l1.*1 /\ i ∉ l2.*1) by (apply mid_notin with n; by rewrite <- Hn).
  destruct Hni as [Hi1 Hi2].
  assert (Hok' : node_ok n).
  { rewrite Hn in Hok. apply Forall_app in Hok as [_ Hok]. by apply Forall_cons in Hok as [? _]. }
  unfold take_node, set_nodes, set_free. cbn. rewrite Hn, upd_node_mid by done.
  split; [|done]. change (l1 ++ (i, set_type type n) :: l2) with (l1 ++ [(i, set_type type n)] ++ l2).
  rewrite Hn in *. apply (wf_replace m l1 [(i, n)] [(i, set_type type n)] l2); try done.
  - cbn. by rewrite Hf.
  - by apply Forall_singleton.
  - by rewrite !fmap_app in *.
  - apply Forall_app in Hfr as [F1 F2]. apply Forall_cons in F2 as [F2 F3].
    apply Forall_app. split; [done|]. by apply Forall_cons.
  - rewrite Hfl, !free_ids_app. cbn [app]. rewrite !free_ids_cons, decide_True by done.
    rewrite decide_False by done. cbn [fst free_ids filter list_filter fmap list_fmap app].
    rewrite list_del_app, list_del_notin by (intros C; by apply Hi1, free_ids_elem). f_equal.
    unfold list_del. rewrite filter_cons_False by tauto. fold (list_del i (free_ids l2)).
    rewrite list_del_notin; [done|]. intros C; by apply Hi2, free_ids_elem.
Qed.

(** ** Freeing a region *)
Definition allocated m : nv_list := filter (fun p => ~ is_free p) (nodes m).

Lemma allocated_split l1 seg l2 m :
  nodes m = l1 ++ seg ++ l2 ->
  allocated m = filter (fun p => ~ is_free p) l1 ++ filter (fun p => ~ is_free p) seg ++
    filter (fun p => ~ is_free p) l2.
Proof. intros E. unfold allocated. by rewrite E, !filter_app. Qed.

Lemma insert_free_split l off i f1 f2 :
  (forall j, j ∈ f1 -> exists n, find_node j l = Some n /\ n_offset n <= off) ->
  (forall j, head f2 = Some j -> exists n, find_node j l = Some n /\ off < n_offset n) ->
  insert_free l off i (f1 ++ f2) = Done (f1 ++ i :: f2).
Proof.
  intros H1 H2. induction f1 as [|j f1 IH]; cbn.
  - destruct f2 as [|j f2]; [done|]. destruct (H2 j eq_refl) as (n & E & Hn). cbn. rewrite E. mred.
    by destruct (Z.ltb_spec off (n_offset n)); [|lia].
  - destruct (H1 j ltac:(set_solver)) as (n & E & Hn). rewrite E. mred.
    destruct (Z.ltb_spec off (n_offset n)); [lia|]. rewrite IH by set_solver. done.
Qed.

Lemma free_ids_below m l1 i n l2 :
  wf m -> nodes m = l1 ++ (i, n) :: l2 ->
  (forall j, j ∈ free_ids l1 -> exists k, find_node j (nodes m) = Some k /\ n_offset k <= n_offset n) /\
  (forall j, head (free_ids l2) = Some j ->
     exists k, find_node j (nodes m) = Some k /\ n_offset n < n_offset k).
Proof.
  intros Hwf Hn. pose proof (wf_nodup _ Hwf) as Hnd. pose proof (wf_nodes _ Hwf) as Hok.
  pose proof (wf_chain _ Hwf) as Hc. split; intros j Hj.
  - unfold free_ids in Hj. apply list_elem_of_fmap in Hj as ([j' k] & -> & Hk).
    apply list_elem_of_filter in Hk as [_ Hk]. exists k.
    split; [apply find_node_elem; [done|rewrite Hn; set_solver]|].
    apply list_elem_of_split in Hk as (a & b & ->). rewrite Hn, <- app_assoc in Hok, Hc. cbn in Hok, Hc.
    pose proof (chained_ordered _ _ _ _ _ Hok Hc) as Ho. cbn in Ho.
    apply Forall_app in Hok as [_ Hok]. apply Forall_cons in Hok as [(_ & Hl & _) _].
    unfold n_end in Ho. cbn in Hl. lia.
  - assert (Hj' : j ∈ free_ids l2) by (apply head_Some_elem_of; done).
    unfold free_ids in Hj'. apply list_elem_of_fmap in Hj' as ([j' k] & -> & Hk).
    apply list_elem_of_filter in Hk as [_ Hk]. exists k.
    split; [apply find_node_elem; [done|rewrite Hn; set_solver]|].
    apply list_elem_of_split in Hk as (a & b & ->). rewrite Hn in Hok, Hc.
    pose proof (chained_ordered _ _ _ _ _ Hok Hc) as Ho. cbn in Ho.
    apply Forall_app in Hok as [_ Hok]. apply Forall_cons in Hok as [(_ & Hl & _) _].
    unfold n_end in Ho. cbn in Hl. lia.
Qed.

(** What a region's release needs and gives. *)
Definition freed m i m' : Prop :=
  wf m' /\ same_conf m m' /\
  exists n, find_node i (nodes m) = Some n /\ allocated m ≡ₚ (i, n) :: allocated m'.

Lemma mid_chain m l1 i n l2 :
  wf m -> nodes m = l1 ++ (i, n) :: l2 ->
  joined (last l1) (Some (i, n)) /\ joined (Some (i, n)) (head l2) /\ node_ok n /\
  i ∉ l1.*1 /\ i ∉ l2.*1.
Proof.
  intros [Hnd _ _ Hc Hok _ _] Hn. rewrite Hn in *.
  apply chained_app in Hc as (_ & [Hc _] & Hj). apply Forall_app in Hok as [_ Hok].
  apply Forall_cons in Hok as [Hok _]. split; [done|]. split; [done|]. split; [done|].
  by apply mid_notin with n.
Qed.

(** A list over a part of the keys has distinct and old keys. *)
Lemma keys_sub m l ks :
  wf m -> (nodes m).*1 ≡ₚ l.*1 ++ ks -> NoDup l.*1 /\ Forall (fun p => p.1 < next_id m) l.
Proof.
  intros [Hnd Hfr _ _ _ _ _] Hp. rewrite Hp in Hnd. apply NoDup_app in Hnd as (Hnd & _).
  split; [done|]. apply (Forall_fmap fst (fun k => k < next_id m)).
  assert (Hk : Forall (fun k => k < next_id m) (nodes m).*1) by (by apply Forall_fmap).
  rewrite Hp in Hk. by apply Forall_app in Hk as [? _].
Qed.

(** The part of [allocated] that a segment makes up. *)
Definition busy l : nv_list := filter (fun p => ~ is_free p) l.

Lemma busy_free p l : is_free p -> busy (p :: l) = busy l.
Proof. intros Hp. unfold busy. by rewrite filter_cons_False by tauto. Qed.

Lemma busy_not_free p l : ~ is_free p -> busy (p :: l) = p :: busy l.
Proof. intros Hp. unfold busy. by rewrite filter_cons_True by tauto. Qed.

(** A region is merged into the free one before it. *)
Lemma merge_prev_spec m l1 p pn i n l2 :
  wf m -> nodes m = l1 ++ (p, pn) :: (i, n) :: l2 -> is_free (p, pn) -> ~ is_free (i, n) ->
  n_type n <> NVKM_MM_TYPE_HOLE ->
  exists g m', merge_prev m i (Some (p, pn)) = Done (m', p) /\ wf m' /\ same_conf m m' /\
    nodes m' = l1 ++ (p, g) :: l2 /\ is_free (p, g) /\ allocated m ≡ₚ (i, n) :: allocated m'.
Proof.
  intros Hwf Hn Hp Hi Hh. assert (Hn1 : nodes m = (l1 ++ [(p, pn)]) ++ (i, n) :: l2) by (by rewrite <- app_assoc).
  destruct (mid_chain _ _ _ _ _ Hwf Hn) as (_ & [_ J] & Ok1 & Np1 & Np2).
  destruct (mid_chain _ _ _ _ _ Hwf Hn1) as (_ & _ & Ok2 & Ni1 & Ni2).
  assert (Tp : n_type pn = NVKM_MM_TYPE_NONE) by exact Hp. cbn in J. rewrite Tp in J.
  specialize (J ltac:(done)). destruct Ok1 as (?&?&?), Ok2 as (?&?&?). unfold n_end in *.
  set (g := NvNode (n_heap pn) NVKM_MM_TYPE_NONE (n_offset pn) (n_length pn + n_length n)).
  exists g, (NvMm (l1 ++ [(p, g)] ++ l2) (free m) (block_size m) (heap_nodes m) (next_id m) (allocs m)).
  assert (Hfind : find_node i (nodes m) = Some n) by (rewrite Hn1; by apply find_node_mid).
  destruct (keys_sub m (l1 ++ [(p, g)] ++ l2) [i] Hwf) as [K1 K2].
  { rewrite Hn, !fmap_app. cbn. solve_Permutation. }
  split; [|split; [|split; [done|split; [done|split; [done|]]]]].
  - unfold merge_prev. rewrite Tp. cbn [Z.eqb NVKM_MM_TYPE_NONE]. rewrite Hfind. mred.
    rewrite Hn, upd_node_mid by done.
    change (l1 ++ (p, ?k) :: (i, n) :: ?r) with (l1 ++ [(p, k)] ++ (i, n) :: r).
    rewrite app_assoc, del_node_mid by (rewrite ?fmap_app in *; set_solver).
    rewrite <- app_assoc, u32_small by (unfold is_u32; lia). unfold set_range. by rewrite Tp.
  - apply (wf_replace m l1 [(p, pn); (i, n)] [(p, g)] l2); try done.
    + cbn. unfold n_end. cbn. f_equal. lia.
    + apply Forall_singleton. unfold node_ok, n_end. cbn. lia.
    + rewrite (wf_free _ Hwf), Hn, !free_ids_app. cbn [app].
      rewrite !free_ids_cons, (decide_True (P := is_free (p, pn))), (decide_False (P := is_free (i, n))),
        (decide_True (P := is_free (p, g))) by done. done.
  - unfold allocated. cbn [nodes]. rewrite Hn. fold (busy (l1 ++ (p, pn) :: (i, n) :: l2)).
    fold (busy (l1 ++ [(p, g)] ++ l2)). unfold busy. rewrite !filter_app. cbn [app].
    fold (busy ((p, pn) :: (i, n) :: l2)) (busy ((p, g) :: l2)).
    rewrite !busy_free, busy_not_free by done. by rewrite Permutation_middle.
Qed.

(** The free list without a free region. *)
Lemma list_del_free_ids i n l1 l2 :
  i ∉ l1.*1 -> i ∉ l2.*1 -> list_del i (free_ids (l1 ++ (i, n) :: l2)) = free_ids (l1 ++ l2).
Proof.
  intros H1 H2. rewrite !free_ids_app, free_ids_cons, list_del_app.
  assert (E1 : list_del i (free_ids l1) = free_ids l1)
    by (apply list_del_notin; intros C; by apply H1, free_ids_elem).
  assert (E2 : list_del i (free_ids l2) = free_ids l2)
    by (apply list_del_notin; intros C; by apply H2, free_ids_elem).
  rewrite E1. f_equal. case_decide; [|done]. unfold list_del. cbn [fst].
  by rewrite filter_cons_False by tauto.
Qed.

(** A region is merged into the free one behind it. *)
Lemma merge_next_spec m l1 t tn x xn l2 :
  wf m -> nodes m = l1 ++ (t, tn) :: (x, xn) :: l2 -> is_free (x, xn) ->
  n_type tn <> NVKM_MM_TYPE_HOLE ->
  exists m', merge_next m t (Some (x, xn)) = Done (m', None) /\ wf m' /\ same_conf m m' /\
    allocated m ≡ₚ (if decide (is_free (t, tn)) then [] else [(t, tn)]) ++ allocated m'.
Proof.
  intros Hwf Hn Hx Hh. assert (Hn1 : nodes m = (l1 ++ [(t, tn)]) ++ (x, xn) :: l2) by (by rewrite <- app_assoc).
  destruct (mid_chain _ _ _ _ _ Hwf Hn) as (_ & [_ J] & Ok1 & Nt1 & Nt2).
  destruct (mid_chain _ _ _ _ _ Hwf Hn1) as (_ & _ & Ok2 & Nx1 & Nx2).
  specialize (J Hh). cbn in J. destruct Ok1 as (?&?&?), Ok2 as (?&?&?). unfold n_end in *.
  assert (Tx : n_type xn = NVKM_MM_TYPE_NONE) by exact Hx.
  set (g := NvNode (n_heap xn) NVKM_MM_TYPE_NONE (n_offset tn) (n_length xn + n_length tn)).
  set (fl := if n_type tn =? NVKM_MM_TYPE_NONE then list_del t (free m) else free m).
  exists (NvMm (l1 ++ [(x, g)] ++ l2) fl (block_size m) (heap_nodes m) (next_id m) (allocs m)).
  assert (Hfind : find_node t (nodes m) = Some tn) by (rewrite Hn; by apply find_node_mid).
  destruct (keys_sub m (l1 ++ [(x, g)] ++ l2) [t] Hwf) as [K1 K2].
  { rewrite Hn, !fmap_app. cbn. solve_Permutation. }
  split; [|split; [|split; [done|]]].
  - unfold merge_next. rewrite Tx. cbn [Z.eqb NVKM_MM_TYPE_NONE]. rewrite Hfind. mred.
    assert (Eg : del_node t (upd_node x (fun n => set_range (n_offset tn) (u32 (n_length n + n_length tn)) n)
      (nodes m)) = l1 ++ [(x, g)] ++ l2).
    { rewrite Hn1, upd_node_mid, <- app_assoc by done. cbn [app].
      rewrite del_node_mid by (rewrite ?fmap_app in *; cbn in *; set_solver).
      rewrite u32_small by (unfold is_u32; lia). unfold set_range. by rewrite Tx. }
    unfold fl. change 0 with NVKM_MM_TYPE_NONE. destruct (n_type tn =? NVKM_MM_TYPE_NONE); cbn [nodes set_free];
      rewrite Eg; done.
  - apply (wf_replace m l1 [(t, tn); (x, xn)] [(x, g)] l2); try done.
    + cbn. unfold n_end. cbn. f_equal. lia.
    + cbn. by rewrite Tx.
    + apply Forall_singleton. unfold node_ok, n_end. cbn. lia.
    + assert (Efl : fl = free_ids (l1 ++ (x, xn) :: l2)).
      { unfold fl. rewrite (wf_free _ Hwf), Hn. destruct (Z.eqb_spec (n_type tn) NVKM_MM_TYPE_NONE).
        - by apply list_del_free_ids.
        - rewrite !free_ids_app, free_ids_cons. by rewrite decide_False. }
      rewrite Efl, !free_ids_app. cbn [app]. rewrite !free_ids_cons, !decide_True by done. done.
  - unfold allocated. cbn [nodes]. rewrite Hn, !filter_app. cbn [app].
    fold (busy ((t, tn) :: (x, xn) :: l2)) (busy ((x, g) :: l2)). rewrite (busy_free (x, g)) by done.
    case_decide; [by rewrite !busy_free|]. rewrite busy_not_free, busy_free by done.
    cbn [app]. by rewrite Permutation_middle.
Qed.

(** A region without free neighbours goes to the free list. *)
Lemma free_insert_spec m l1 i n l2 :
  wf m -> nodes m = l1 ++ (i, n) :: l2 -> ~ is_free (i, n) -> n_type n <> NVKM_MM_TYPE_HOLE ->
  exists fl, insert_free (nodes m) (n_offset n) i (free m) = Done fl /\
    let m' := set_nodes (upd_node i (set_type NVKM_MM_TYPE_NONE) (nodes m)) (set_free fl m) in
    wf m' /\ same_conf m m' /\ allocated m ≡ₚ (i, n) :: allocated m'.
Proof.
  intros Hwf Hn Hi Hh. destruct (mid_chain _ _ _ _ _ Hwf Hn) as (_ & _ & Ok1 & Ni1 & Ni2).
  destruct (free_ids_below _ _ _ _ _ Hwf Hn) as [B1 B2].
  assert (Efl : free m = free_ids l1 ++ free_ids l2).
  { rewrite (wf_free _ Hwf), Hn, free_ids_app, free_ids_cons. by rewrite decide_False. }
  exists (free_ids l1 ++ i :: free_ids l2). split; [rewrite Efl; by apply insert_free_split|].
  cbv zeta. unfold set_nodes, set_free. cbn. rewrite Hn, upd_node_mid by done.
  set (g := set_type NVKM_MM_TYPE_NONE n).
  destruct (keys_sub m (l1 ++ [(i, g)] ++ l2) [] Hwf) as [K1 K2].
  { rewrite Hn, !fmap_app. cbn. by rewrite app_nil_r. }
  split; [|split; [done|]].
  - change (l1 ++ (i, g) :: l2) with (l1 ++ [(i, g)] ++ l2).
    apply (wf_replace m l1 [(i, n)] [(i, g)] l2); try done.
    + by apply Forall_singleton.
    + rewrite !free_ids_app. cbn [app]. rewrite free_ids_cons. by rewrite decide_True.
  - unfold allocated. cbn [nodes]. rewrite Hn, !filter_app. cbn [app].
    fold (busy ((i, n) :: l2)) (busy ((i, g) :: l2)).
    rewrite busy_not_free, busy_free by done. by rewrite Permutation_middle.
Qed.

Lemma free_rest_spec m l1 t tn l2 :
  wf m -> nodes m = l1 ++ (t, tn) :: l2 -> n_type tn <> NVKM_MM_TYPE_HOLE ->
  exists m', free_rest m t (head l2) = Done m' /\ wf m' /\ same_conf m m' /\
    allocated m ≡ₚ (if decide (is_free (t, tn)) then [] else [(t, tn)]) ++ allocated m'.
Proof.
  intros Hwf Hn Hh. destruct (mid_chain _ _ _ _ _ Hwf Hn) as (_ & _ & _ & Ni1 & Ni2).
  assert (Hfind : find_node t (nodes m) = Some tn) by (rewrite Hn; by apply find_node_mid).
  assert (Hstay : merge_next m t (head l2) = Done (m, Some t) ->
    exists m', free_rest m t (head l2) = Done m' /\ wf m' /\ same_conf m m' /\
      allocated m ≡ₚ (if decide (is_free (t, tn)) then [] else [(t, tn)]) ++ allocated m').
  { intros E. unfold free_rest. rewrite E. mred. rewrite Hfind.
    case_decide as Hf; [unfold is_free in Hf; cbn in Hf; rewrite Hf; by exists m|].
    destruct (Z.eqb_spec (n_type tn) NVKM_MM_TYPE_NONE) as [C|_]; [done|]. cbn [negb].
    destruct (free_insert_spec m l1 t tn l2) as (fl & -> & Hw & Hc & Ha); [done..|]. eauto. }
  destruct l2 as [|[x xn] l2]; [by apply Hstay|].
  destruct (decide (is_free (x, xn))) as [Hx|Hx].
  - destruct (merge_next_spec _ _ _ _ _ _ _ Hwf Hn Hx Hh) as (m' & E & ?). exists m'.
    unfold free_rest. cbn [head]. rewrite E. done.
  - apply Hstay. cbn. destruct (Z.eqb_spec (n_type xn) NVKM_MM_TYPE_NONE); done.
Qed.

Lemma nouveau_mm_free_spec m l1 i n l2 :
  wf m -> nodes m = l1 ++ (i, n) :: l2 -> ~ is_free (i, n) -> n_type n <> NVKM_MM_TYPE_HOLE ->
  exists m', nouveau_mm_free m (Some i) = Done m' /\ wf m' /\ same_conf m m' /\
    allocated m ≡ₚ (i, n) :: allocated m'.
Proof.
  intros Hwf Hn Hi Hh. destruct (mid_chain _ _ _ _ _ Hwf Hn) as (_ & _ & _ & Ni1 & Ni2).
  unfold nouveau_mm_free. assert (Hp : node_prev i (nodes m) = last l1) by (rewrite Hn; by apply node_prev_mid).
  assert (Hx : node_next i (nodes m) = head l2) by (rewrite Hn; by apply node_next_mid).
  rewrite Hp, Hx. destruct (free_rest_spec _ _ _ _ _ Hwf Hn Hh) as (m0 & E0 & W0 & C0 & A0).
  rewrite decide_False in A0 by done.
  destruct (last l1) as [[p pn]|] eqn:El; [|by exists m0].
  destruct (decide (is_free (p, pn))) as [Hf|Hf].
  - apply last_Some in El as [l1' ->]. rewrite <- app_assoc in Hn.
    destruct (merge_prev_spec _ _ _ _ _ _ _ Hwf Hn Hf Hi Hh) as (g & m1 & E1 & W1 & [C1 C2] & N1 & F1 & A1).
    rewrite E1. mred.
    destruct (free_rest_spec _ _ _ _ _ W1 N1) as (m2 & E2 & W2 & [C3 C4] & A2);
      [unfold is_free in F1; cbn in F1; by rewrite F1|].
    rewrite decide_True in A2 by done. exists m2. split; [done|]. split; [done|].
    split; [split; congruence|]. by rewrite A1, A2.
  - exists m0. unfold merge_prev. by destruct (Z.eqb_spec (n_type pn) NVKM_MM_TYPE_NONE).
Qed.
