(* ===== verification/NvMmProps.v ===== *)
(** * nouveau's region allocator: theorems

    The allocator seen as the set of allocated regions: an allocation from the
    head or the tail adds one region of the right type, alignment and size inside
    a free one, a release removes exactly one, and the search fails only when no
    free region has room.  The regions of a reachable manager never overlap. *)

From S2P Require Import Prelude NvMm NvMmSpec.

Implicit Types (l : nv_list) (n : nv_node) (m : nv_mm).

(** ** Rounding *)
Lemma align_down_bits x k :
  0 <= k -> align_down x (2 ^ k) = Z.shiftl (Z.shiftr x k) k.
Proof.
  intros Hk. assert (0 < 2 ^ k) by (apply Z.pow_pos_nonneg; lia). unfold align_down.
  destruct (Z.eqb_spec (2 ^ k) 0); [lia|]. rewrite Z.shiftl_mul_pow2, Z.shiftr_div_pow2 by lia.
  pose proof (Z.div_mod x (2 ^ k)). lia.
Qed.

Lemma land_not_mask x k :
  0 <= k < 32 -> is_u32 x -> Z.land x (not_mask (2 ^ k)) = align_down x (2 ^ k).
Proof.
  intros Hk Hx. assert (0 < 2 ^ k) by (apply Z.pow_pos_nonneg; lia).
  assert (2 ^ k < 2 ^ 32) by (apply Z.pow_lt_mono_r; lia).
  unfold not_mask. rewrite (u32_small (2 ^ k - 1)) by (unfold is_u32; lia).
  rewrite align_down_bits by lia. apply Z.bits_inj'. intros i Hi. unfold u32.
  rewrite Z.land_spec, testbit_wrap, Z.lnot_spec, Z.shiftl_spec by lia.
  replace (2 ^ k - 1) with (Z.ones k) by (rewrite Z.ones_equiv; lia).
  destruct (Z_lt_le_dec i k).
  - rewrite Z.ones_spec_low, (Z.testbit_neg_r _ (i - k)) by lia. case_if; by rewrite ?andb_false_r.
  - rewrite Z.ones_spec_high, Z.shiftr_spec by lia. replace (i - k + k) with i by lia.
    destruct (Z.ltb_spec i 32); [by rewrite andb_true_r|].
    by rewrite (testbit_high x 32 i).
Qed.

Lemma align_up_down x a : 0 < a -> align_down (x + (a - 1)) a = align_up x a.
Proof.
  intros Ha. apply Z.le_antisymm.
  - pose proof (align_up_bounds x a). pose proof (align_down_le (x + (a - 1)) a).
    destruct (Z_lt_le_dec (align_up x a) (align_down (x + (a - 1)) a)) as [Hlt|]; [exfalso|lia].
    destruct (align_up_aligned x a) as [?|[p Hp]]; [lia|].
    destruct (align_down_aligned (x + (a - 1)) a) as [?|[q Hq]]; [lia|].
    assert (p + 1 <= q) by nia. assert ((p + 1) * a <= q * a) by (apply Z.mul_le_mono_nonneg_r; lia). lia.
  - apply align_down_greatest; [lia|apply align_up_aligned|]. pose proof (align_up_bounds x a). lia.
Qed.

Lemma roundup_align x a : 0 <= x -> 0 < a < 2 ^ 32 -> x + a <= 2 ^ 32 -> roundup x a = align_up x a.
Proof.
  intros Hx Ha Hs. unfold roundup. rewrite (u32_small (a - 1)), (u32_small (x + (a - 1)))
    by (unfold is_u32; lia).
  rewrite <- align_up_down by lia. unfold align_down. destruct (Z.eqb_spec a 0); [lia|].
  pose proof (Z.div_mod (x + (a - 1)) a). pose proof (Z.mod_pos_bound (x + (a - 1)) a).
  rewrite u32_small by (unfold is_u32; nia). nia.
Qed.

Lemma rounddown_align x a : is_u32 x -> 0 < a -> rounddown x a = align_down x a.
Proof.
  intros Hx Ha. unfold rounddown, align_down, is_u32 in *. destruct (Z.eqb_spec a 0); [lia|].
  pose proof (Z.mod_pos_bound x a). pose proof (Z.mod_le x a). apply u32_small. unfold is_u32. lia.
Qed.

(** ** The room in a free region *)

(** The borders of the usable part: a neighbour of another type keeps its block
    to itself. *)
Definition lo m (type i : Z) n : Z :=
  if differs type (node_prev i (nodes m)) then align_up (n_offset n) (block_size m) else n_offset n.
Definition hi m (type i : Z) n : Z :=
  if differs type (node_next i (nodes m)) then align_down (n_end n) (block_size m) else n_end n.

(** No computation of the allocator leaves 32 bits. *)
Definition roomy m (align : Z) : Prop :=
  Forall (fun p => n_end p.2 + block_size m + align <= 2 ^ 32) (nodes m).

Definition heap_ok (heap : Z) n : Prop := heap = NVKM_MM_HEAP_ANY \/ n_heap n = heap.

Section window.
Context m (k type i : Z) n (Hwf : wf m) (Hk : 0 <= k < 32) (Hroom : roomy m (2 ^ k)) (Hin : (i, n) ∈ nodes m).

Lemma window_facts :
  0 <= n_offset n /\ 0 < n_length n /\ n_end n + block_size m + 2 ^ k <= 2 ^ 32 /\
  0 < 2 ^ k /\ 0 < block_size m.
Proof.
  destruct Hwf as [_ _ _ _ Hok Hb _]. unfold roomy in Hroom. rewrite Forall_forall in Hok, Hroom.
  destruct (Hok _ Hin) as (?&?&?). specialize (Hroom _ Hin). cbn in *.
  assert (0 < 2 ^ k) by (apply Z.pow_pos_nonneg; lia). lia.
Qed.

Lemma lo_bounds : n_offset n <= lo m type i n < n_end n + block_size m.
Proof.
  destruct window_facts as (?&?&?&?&?). unfold n_end in *. unfold lo. case_if; [|lia].
  pose proof (align_up_bounds (n_offset n) (block_size m)). lia.
Qed.

Lemma hi_bounds : 0 <= hi m type i n <= n_end n.
Proof.
  destruct window_facts as (?&?&?&?&?). unfold n_end in *. unfold hi. case_if; [|unfold n_end; lia].
  unfold n_end. split; [|by apply align_down_le; lia].
  apply align_down_greatest; [lia| |lia]. right. apply Z.divide_0_r.
Qed.

Lemma head_window_eq :
  head_window m type (2 ^ k) i n = (align_up (lo m type i n) (2 ^ k), align_down (hi m type i n) (2 ^ k)).
Proof.
  destruct window_facts as (?&?&?&?&?). pose proof lo_bounds. pose proof hi_bounds.
  unfold head_window. cbv zeta. unfold n_end in *.
  rewrite (u32_small (2 ^ k - 1)), (u32_small (n_offset n + n_length n)) by (unfold is_u32; lia).
  rewrite roundup_align, rounddown_align by (unfold is_u32; lia).
  fold (n_end n). fold (lo m type i n) (hi m type i n).
  rewrite (u32_small (lo m type i n + _)) by (unfold is_u32; lia).
  rewrite !land_not_mask by (try lia; unfold is_u32; lia). by rewrite align_up_down.
Qed.

Lemma tail_window_eq :
  is_free (i, n) ->
  tail_window m type (2 ^ k) i n =
    (align_up (lo m type i n) (2 ^ k), hi m type i n, n_end n - hi m type i n).
Proof.
  intros Hf. destruct window_facts as (?&?&?&?&?). pose proof lo_bounds. pose proof hi_bounds.
  assert (Hnext : forall p, node_next i (nodes m) = Some p -> n_offset p.2 = n_end n).
  { intros p Hp. apply list_elem_of_split in Hin as (l1 & l2 & Hn).
    destruct (mid_chain _ _ _ _ _ Hwf Hn) as (_ & J & _ & N1 & N2).
    rewrite Hn, node_next_mid in Hp by done. rewrite Hp in J. destruct J as [_ J].
    unfold is_free in Hf. cbn in *. symmetry. apply J. by rewrite Hf. }
  unfold tail_window. cbv zeta. unfold n_end in *.
  rewrite (u32_small (2 ^ k - 1)), (u32_small (n_offset n + n_length n)) by (unfold is_u32; lia).
  rewrite roundup_align, rounddown_align by (unfold is_u32; lia). fold (n_end n). fold (lo m type i n).
  rewrite (u32_small (lo m type i n + _)), land_not_mask, align_up_down by (try lia; unfold is_u32; lia).
  unfold hi, differs in *. destruct (node_next i (nodes m)) as [[x xn]|] eqn:Ex.
  - destruct (negb (n_type xn =? type)).
    + specialize (Hnext _ eq_refl). cbn in Hnext. rewrite Hnext, u32_small; [done|].
      unfold n_end in *. unfold is_u32. lia.
    + unfold n_end. do 2 f_equal. lia.
  - unfold n_end. do 2 f_equal. lia.
Qed.

End window.

(** ** Taking a place *)

(** What the end of an allocation does to the set of allocated regions. *)
Definition took m (type s len heap : Z) (r : run (Z * option Z * nv_mm)) : Prop :=
  (exists m', r = Done (- ENOMEM, None, m') /\ wf m' /\ same_conf m m' /\ allocated m' = allocated m) \/
  (exists b m', r = Done (0, Some b, m') /\ wf m' /\ same_conf m m' /\
     allocated m' ≡ₚ (b, NvNode heap type s len) :: allocated m).

Lemma busy_app l1 l2 : busy (l1 ++ l2) = busy l1 ++ busy l2.
Proof. apply filter_app. Qed.

Lemma allocated_app m l1 l2 : nodes m = l1 ++ l2 -> allocated m = busy l1 ++ busy l2.
Proof. intros E. unfold allocated. by rewrite E, filter_app. Qed.

Lemma same_conf_trans m1 m2 m3 : same_conf m1 m2 -> same_conf m2 m3 -> same_conf m1 m3.
Proof. intros [??] [??]. split; congruence. Qed.

Lemma take_after m0 m type l1 b bn l2 :
  wf m -> same_conf m0 m -> nodes m = l1 ++ (b, bn) :: l2 -> is_free (b, bn) ->
  type <> NVKM_MM_TYPE_NONE -> allocated m = allocated m0 ->
  took m0 type (n_offset bn) (n_length bn) (n_heap bn) (Done (0, Some b, take_node m type b)).
Proof.
  intros Hwf Hc Hn Hf Ht Ha. destruct (take_node_spec m type b bn l1 l2) as (W & N & C); [done..|].
  right. exists b, (take_node m type b). split; [done|]. split; [done|]. split; [by eapply same_conf_trans|].
  rewrite (allocated_app _ _ _ N), <- Ha, (allocated_app _ _ _ Hn).
  rewrite (busy_free (b, bn)), busy_not_free by done. unfold set_type. by rewrite Permutation_middle.
Qed.

Lemma head_take_spec m type size_max s e i n l1 l2 :
  wf m -> nodes m = l1 ++ (i, n) :: l2 -> is_free (i, n) -> type <> NVKM_MM_TYPE_NONE ->
  n_offset n <= s < e -> e <= n_end n -> 1 <= size_max ->
  took m type s (Z.min size_max (e - s)) (n_heap n) (head_take m type size_max s e i n).
Proof.
  intros Hwf Hn Hf Ht Hs He Hmax. destruct (mid_chain _ _ _ _ _ Hwf Hn) as (_ & _ & (O1 & O2 & O3) & _ & _).
  unfold n_end in *. unfold head_take.
  rewrite (u32_small (s - n_offset n)), (u32_small (e - s)) by (unfold is_u32; lia).
  (* the second split *)
  assert (Hsecond : forall m1 l1' n', wf m1 -> same_conf m m1 -> nodes m1 = l1' ++ (i, n') :: l2 ->
    is_free (i, n') -> n_heap n' = n_heap n -> n_offset n' = s -> n_end n' = n_end n ->
    allocated m1 = allocated m ->
    took m type s (Z.min size_max (e - s)) (n_heap n)
      ('(r, m) ← region_head m1 i (Z.min size_max (e - s));
       match r with
       | None => Done (- ENOMEM, None, m)
       | Some this => Done (0, Some this, take_node m type this)
       end)).
  { intros m1 l1' n' W1 C1 N1 F1 Eh Eo Ee A1. unfold n_end in Ee.
    destruct (region_head_spec m1 i n' l1' l2 (Z.min size_max (e - s)))
      as [(m' & -> & W & N & C)|(m' & b & l2' & -> & W & C & N & Hc)]; [done..|lia| |]; mred.
    - left. exists m'. split; [done|]. split; [done|]. split; [by eapply same_conf_trans|].
      unfold allocated in *. by rewrite N.
    - rewrite Eh, Eo in N.
      pose proof (take_after m m' type l1' b _ l2' W (same_conf_trans _ _ _ C1 C) N eq_refl Ht) as T.
      apply T. rewrite <- A1, (allocated_app _ _ _ N), (allocated_app _ _ _ N1), !busy_free by done.
      destruct Hc as [(_ & _ & ->)|(_ & ->)]; [done|]. by rewrite busy_free. }
  destruct (Z.eqb_spec (s - n_offset n) 0) as [E|E]; mred.
  { apply (Hsecond m l1 n); try done. lia. }
  destruct (region_head_spec m i n l1 l2 (s - n_offset n))
    as [(m' & -> & W & N & C)|(m' & b & l2' & -> & W & C & N & Hc)]; [done..|lia| |].
  { left. exists m'. split; [done|]. split; [done|]. split; [done|]. unfold allocated. by rewrite N. }
  destruct Hc as [(? & _)|(_ & ->)]; [lia|].
  change (l1 ++ ?x :: ?y :: l2) with (l1 ++ [x] ++ y :: l2) in N. rewrite app_assoc in N.
  eapply (Hsecond m' _ _ W C N); try done; cbn; [lia|unfold n_end; cbn; lia|].
  rewrite (allocated_app _ _ _ N), (allocated_app _ _ _ Hn). by rewrite busy_app, !busy_free, app_nil_r.
Qed.

Lemma tail_take_spec m type size_max k s e i n l1 l2 :
  wf m -> nodes m = l1 ++ (i, n) :: l2 -> is_free (i, n) -> type <> NVKM_MM_TYPE_NONE ->
  0 <= k < 32 -> n_offset n <= s < e -> e <= n_end n -> 1 <= size_max -> aligned s (2 ^ k) ->
  exists s', s <= s' /\ s' + Z.min size_max (e - s) <= e /\ aligned s' (2 ^ k) /\
    took m type s' (Z.min size_max (e - s)) (n_heap n)
      (tail_take m type size_max (2 ^ k) s e (n_end n - e) i).
Proof.
  intros Hwf Hn Hf Ht Hk Hs He Hmax Hal.
  destruct (mid_chain _ _ _ _ _ Hwf Hn) as (_ & _ & (O1 & O2 & O3) & _ & _).
  assert (0 < 2 ^ k) by (apply Z.pow_pos_nonneg; lia).
  unfold tail_take. rewrite (u32_small (e - s)) by (unfold is_u32; lia). rewrite (Z.min_comm (e - s)).
  set (a := Z.min size_max (e - s)).
  rewrite (u32_small (e - a)), land_not_mask by (try lia; unfold is_u32; lia).
  set (s' := align_down (e - a) (2 ^ k)).
  assert (Hs1 : s <= s') by (apply align_down_greatest; [lia|done|unfold a; lia]).
  assert (Hs2 : s' <= e - a) by (apply align_down_le; lia).
  rewrite (u32_small (e - s')) by (unfold is_u32; lia). unfold n_end in *.
  rewrite (u32_small (e - s' - a)) by (unfold is_u32; lia).
  rewrite (u32_small (_ + (e - s' - a))) by (unfold is_u32; lia).
  exists s'. split; [done|]. split; [lia|]. split; [apply align_down_aligned|].
  (* the second split *)
  assert (Hsecond : forall m1 n' l2', wf m1 -> same_conf m m1 -> nodes m1 = l1 ++ (i, n') :: l2' ->
    is_free (i, n') -> n_heap n' = n_heap n -> n_offset n' = n_offset n -> n_end n' = s' + a ->
    allocated m1 = allocated m ->
    took m type s' a (n_heap n)
      ('(r, m) ← region_tail m1 i a;
       match r with
       | None => Done (- ENOMEM, None, m)
       | Some this => Done (0, Some this, take_node m type this)
       end)).
  { intros m1 n' l2' W1 C1 N1 F1 Eh Eo Ee A1. unfold n_end in Ee.
    destruct (region_tail_spec m1 i n' l1 l2' a)
      as [(m' & -> & W & N & C)|(m' & b & l1' & -> & W & C & N & Hc)]; [done..|lia| |]; mred.
    - left. exists m'. split; [done|]. split; [done|]. split; [by eapply same_conf_trans|].
      unfold allocated in *. by rewrite N.
    - unfold n_end in N. rewrite Eh, Ee, Z.add_simpl_r in N.
      pose proof (take_after m m' type l1' b _ l2' W (same_conf_trans _ _ _ C1 C) N eq_refl Ht) as T.
      apply T. rewrite <- A1, (allocated_app _ _ _ N), (allocated_app _ _ _ N1), !busy_free by done.
      destruct Hc as [(_ & _ & ->)|(_ & ->)]; [done|]. by rewrite busy_app, busy_free, app_nil_r. }
  set (c := n_offset n + n_length n - e + (e - s' - a)).
  destruct (Z.eqb_spec c 0) as [E|E]; mred.
  { apply (Hsecond m n l2); try done. unfold n_end. lia. }
  destruct (region_tail_spec m i n l1 l2 c)
    as [(m' & -> & W & N & C)|(m' & b & l1' & -> & W & C & N & Hc)]; [done..|lia| |].
  { left. exists m'. split; [done|]. split; [done|]. split; [done|]. unfold allocated. by rewrite N. }
  destruct Hc as [(? & _)|(_ & ->)]; [lia|]. rewrite <- app_assoc in N. cbn [app] in N.
  eapply (Hsecond m' _ _ W C N); try done; cbn; [unfold n_end; cbn; lia|].
  by rewrite (allocated_app _ _ _ N), (allocated_app _ _ _ Hn), !busy_free.
Qed.

(** ** The abstract allocator *)

(** A place for [size] in a free region. *)
Definition room m (type align size i : Z) n : Prop :=
  exists s, aligned s align /\ lo m type i n <= s /\ s + size <= hi m type i n.

(** What an allocation may answer: no room in the regions [fl]; no memory for a
    structure; or one more allocated region of the wanted type, inside the usable
    part of a free one, aligned and of a size within the limits. *)
Definition alloc_post m (heap type size_max size_min align : Z) (complete : Prop) (fl : list Z)
    (r : run (Z * option Z * nv_mm)) : Prop :=
  (r = Done (- ENOSPC, None, m) /\
     (complete -> forall i n, i ∈ fl -> find_node i (nodes m) = Some n -> heap_ok heap n ->
        ~ room m type align size_min i n)) \/
  (exists m', r = Done (- ENOMEM, None, m') /\ wf m' /\ same_conf m m' /\ allocated m' = allocated m) \/
  (exists i n b new m', r = Done (0, Some b, m') /\ wf m' /\ same_conf m m' /\
     allocated m' ≡ₚ (b, new) :: allocated m /\
     (i, n) ∈ nodes m /\ is_free (i, n) /\ heap_ok heap n /\
     n_type new = type /\ n_heap new = n_heap n /\ aligned (n_offset new) align /\
     lo m type i n <= n_offset new /\ n_end new <= hi m type i n /\
     size_min <= n_length new <= size_max).

Lemma took_post m heap type smax smin align complete fl i n s len r :
  took m type s len (n_heap n) r -> (i, n) ∈ nodes m -> is_free (i, n) -> heap_ok heap n ->
  aligned s align -> lo m type i n <= s -> s + len <= hi m type i n -> smin <= len <= smax ->
  alloc_post m heap type smax smin align complete fl r.
Proof.
  intros [(m' & ?)|(b & m' & E & W & C & A)] Hin Hf Hh Hal Hlo Hhi Hsz; right; [left; by exists m'|right].
  exists i, n, b, (NvNode (n_heap n) type s len), m'. unfold n_end. cbn. done.
Qed.

Lemma post_cons m heap type smax smin align complete i n fl r :
  find_node i (nodes m) = Some n -> (complete -> heap_ok heap n -> ~ room m type align smin i n) ->
  alloc_post m heap type smax smin align complete fl r ->
  alloc_post m heap type smax smin align complete (i :: fl) r.
Proof.
  intros Hf Hno [[E Hc]|Hr]; [|by right]. left. split; [done|]. intros Hcomp j n' Hj Hfj Hh.
  apply elem_of_cons in Hj as [-> |Hj]; [|by apply Hc]. rewrite Hf in Hfj. injection Hfj as <-. auto.
Qed.

Lemma heap_test heap n :
  negb (heap =? NVKM_MM_HEAP_ANY) && negb (n_heap n =? heap) = true <-> ~ heap_ok heap n.
Proof.
  unfold heap_ok. destruct (Z.eqb_spec heap NVKM_MM_HEAP_ANY), (Z.eqb_spec (n_heap n) heap); cbn; split;
    intros; try done; tauto.
Qed.

Section alloc.
Context m (heap type smax smin k : Z) (Hwf : wf m) (Hk : 0 <= k < 32) (Hroom : roomy m (2 ^ k)).
Context (Ht : type <> NVKM_MM_TYPE_NONE) (Hmin : 1 <= smin <= smax).

(** An entry of the free list. *)
Lemma free_entry i : i ∈ free m -> exists n, find_node i (nodes m) = Some n /\ (i, n) ∈ nodes m /\
  is_free (i, n).
Proof.
  rewrite (wf_free _ Hwf). unfold free_ids. intros ([j n] & -> & Hin)%list_elem_of_fmap.
  apply list_elem_of_filter in Hin as [Hf Hin]. exists n. split; [|done].
  apply find_node_elem; [apply Hwf|done].
Qed.

Lemma head_loop_post fl :
  fl ⊆ free m -> alloc_post m heap type smax smin (2 ^ k) (2 ^ k | smin) fl
    (head_loop m heap type smax smin (2 ^ k) fl).
Proof.
  induction fl as [|i fl IH]; intros Hsub; cbn [head_loop].
  { left. split; [done|]. intros _ j n Hj. by apply not_elem_of_nil in Hj. }
  destruct (free_entry i ltac:(set_solver)) as (n & Hfind & Hin & Hf). rewrite Hfind. mred.
  specialize (IH ltac:(set_solver)).
  destruct (negb _ && negb _) eqn:Eh.
  { apply heap_test in Eh. by eapply post_cons. }
  assert (Hh : heap_ok heap n) by (destruct (decide (heap_ok heap n)); [done|]; exfalso;
    apply heap_test in n0; by rewrite n0 in Eh).
  rewrite (head_window_eq m k type i n) by done.
  pose proof (lo_bounds m k type i n Hwf Hk Hroom Hin) as Hlo.
  pose proof (hi_bounds m k type i n Hwf Hk Hroom Hin) as Hhi.
  destruct (window_facts m k i n Hwf Hk Hroom Hin) as (?&?&?&?&?).
  set (s := align_up _ _). set (e := align_down _ _).
  assert (Hs : lo m type i n <= s) by (apply align_up_bounds; lia).
  assert (Hs' : s <= lo m type i n + (2 ^ k - 1)) by (unfold s; pose proof (align_up_bounds (lo m type i n) (2 ^ k)); lia).
  assert (He : e <= hi m type i n) by (apply align_down_le; lia).
  destruct (Z.ltb_spec e s) as [Hes|Hes]; cbn [orb].
  { eapply post_cons; [done| |done]. intros Hd _ (s' & Ha & Hl & Hu).
    assert (s <= s') by (by apply align_up_least; [lia|..]).
    assert (s' + smin <= e); [|lia]. apply align_down_greatest; [lia| |done].
    destruct Ha as [?|Ha]; [lia|]. right. by apply Z.divide_add_r. }
  assert (0 <= e). { apply align_down_greatest; [lia| |lia]. right. apply Z.divide_0_r. }
  unfold n_end in *. rewrite (u32_small (e - s)) by (unfold is_u32; lia).
  destruct (Z.ltb_spec (e - s) smin) as [Hsz|Hsz].
  { eapply post_cons; [done| |done]. intros Hd _ (s' & Ha & Hl & Hu).
    assert (s <= s') by (by apply align_up_least; [lia|..]).
    assert (s' + smin <= e); [|lia]. apply align_down_greatest; [lia| |done].
    destruct Ha as [?|Ha]; [lia|]. right. by apply Z.divide_add_r. }
  pose proof Hin as (l1 & l2 & Hn)%list_elem_of_split.
  eapply (took_post _ _ _ _ _ _ _ _ i n s); [apply (head_take_spec m type smax s e i n l1 l2)|..];
    try done; unfold n_end; try lia. apply align_up_aligned.
Qed.

Lemma tail_loop_post fl :
  fl ⊆ free m -> alloc_post m heap type smax smin (2 ^ k) True fl
    (tail_loop m heap type smax smin (2 ^ k) fl).
Proof.
  induction fl as [|i fl IH]; intros Hsub; cbn [tail_loop].
  { left. split; [done|]. intros _ j n Hj. by apply not_elem_of_nil in Hj. }
  destruct (free_entry i ltac:(set_solver)) as (n & Hfind & Hin & Hf). rewrite Hfind. mred.
  specialize (IH ltac:(set_solver)).
  destruct (negb _ && negb _) eqn:Eh.
  { apply heap_test in Eh. by eapply post_cons. }
  assert (Hh : heap_ok heap n) by (destruct (decide (heap_ok heap n)); [done|]; exfalso;
    apply heap_test in n0; by rewrite n0 in Eh).
  rewrite (tail_window_eq m k type i n) by done.
  pose proof (lo_bounds m k type i n Hwf Hk Hroom Hin) as Hlo.
  pose proof (hi_bounds m k type i n Hwf Hk Hroom Hin) as Hhi.
  destruct (window_facts m k i n Hwf Hk Hroom Hin) as (?&?&?&?&?).
  set (s := align_up _ _). set (e := hi m type i n) in *.
  assert (Hs : lo m type i n <= s) by (apply align_up_bounds; lia).
  assert (Hs' : s <= lo m type i n + (2 ^ k - 1)) by (unfold s; pose proof (align_up_bounds (lo m type i n) (2 ^ k)); lia).
  assert (Hno : e - s < smin -> True -> heap_ok heap n -> ~ room m type (2 ^ k) smin i n).
  { intros Hlt _ _ (s' & Ha & Hl & Hu).
    assert (s <= s') by (by apply align_up_least; [lia|..]). fold e in Hu. lia. }
  destruct (Z.ltb_spec e s) as [Hes|Hes]; cbn [orb].
  { eapply post_cons; [done|by apply Hno; lia|done]. }
  unfold n_end in *. rewrite (u32_small (e - s)) by (unfold is_u32; lia).
  destruct (Z.ltb_spec (e - s) smin) as [Hsz|Hsz].
  { eapply post_cons; [done|by apply Hno|done]. }
  pose proof Hin as (l1 & l2 & Hn)%list_elem_of_split.
  destruct (tail_take_spec m type smax k s e i n l1 l2) as (s' & Hs1 & Hs2 & Ha & Htook);
    try done; unfold n_end; try lia; [apply align_up_aligned|].
  eapply (took_post _ _ _ _ _ _ _ _ i n s'); [exact Htook|..]; try done; lia.
Qed.

End alloc.

(** ** Set up *)
Definition valid_init m (off len block : Z) : Prop :=
  0 < block /\ 0 <= off /\ off + len + block < 2 ^ 32 /\
  align_up off block < align_down (off + len) block /\
  (nouveau_mm_initialised m = true ->
     block = block_size m /\ exists p, last (nodes m) = Some p /\ n_end p.2 <= off).

(** A region of a new heap at the end of the list. *)
Lemma wf_append m i n nid al heaps :
  wf m -> node_ok n -> i ∉ (nodes m).*1 -> i < nid -> next_id m <= nid ->
  joined (last (nodes m)) (Some (i, n)) -> end_ok (block_size m) (Some (i, n)) ->
  wf (NvMm (nodes m ++ [(i, n)]) (free m ++ (if decide (is_free (i, n)) then [i] else []))
    (block_size m) heaps nid al).
Proof.
  intros [Hnd Hfr Hfl Hch Hok Hb He] Hn Hi Hid Hnid Hj Hend.
  split; cbn [nodes free block_size next_id]; try done.
  - rewrite fmap_app. apply NoDup_app. split; [done|]. split; [|cbn; apply NoDup_singleton].
    intros j Hj1 Hj2. cbn in Hj2. set_solver.
  - apply Forall_app. split; [|by apply Forall_singleton].
    apply (Forall_impl _ _ _ Hfr). intros p Hp. cbn in *. lia.
  - rewrite Hfl, free_ids_app, free_ids_cons. by case_decide.
  - rewrite chained_app. split; [done|]. split; [done|]. done.
  - apply Forall_app. split; [done|]. by apply Forall_singleton.
  - by rewrite last_snoc.
Qed.

(** The start of [nouveau_mm_init]: the list now ends where the heap may begin. *)
Definition placed m (off block : Z) m' : Prop :=
  wf m' /\ block_size m' = block /\
  (exists hs, nodes m' = nodes m ++ hs /\ Forall (fun p => n_type p.2 = NVKM_MM_TYPE_HOLE) hs) /\
  joined (last (nodes m')) (Some (next_id m', NvNode 0 0 (align_up off block) 1)).

Lemma init_place_spec m off len block :
  wf m -> valid_init m off len block ->
  (exists m', init_place m off block = Done (None, m') /\ wf m' /\ nodes m' = nodes m) \/
  (exists m', init_place m off block = Done (Some m', m') /\ placed m off block m').
Proof.
  intros Hwf (Hb & Ho & Hsum & Hlt & Hini).
  assert (Hin : nouveau_mm_initialised m = true).
  { unfold nouveau_mm_initialised. destruct (wf_block _ Hwf). by destruct (Z.eqb_spec (block_size m) 0); [lia|]. }
  destruct (Hini Hin) as (Hbl & [q qn] & El & Hlast). unfold init_place. rewrite Hin, El.
  cbn in Hlast. mred.
  assert (Hq : node_ok qn).
  { pose proof (wf_nodes _ Hwf) as Hok. rewrite Forall_forall in Hok. apply (Hok (q, qn)).
    by apply last_Some_elem_of. }
  destruct Hq as (Q1 & Q2 & Q3). unfold n_end in *.
  rewrite (u32_small (n_offset qn + n_length qn)) by (unfold is_u32; lia).
  pose proof (align_up_bounds off block ltac:(lia)) as Hup.
  pose proof (align_down_le (off + len) block ltac:(lia)) as Hdown.
  destruct (Z.eqb_spec (n_offset qn + n_length qn) off) as [E|E]; cbn [negb].
  - right. exists m. rewrite <- Hbl, Z.eqb_refl. cbn. split; [done|]. split; [done|]. split; [done|].
    split; [exists []; by rewrite app_nil_r|]. rewrite El. unfold joined, step_ok, n_end. cbn.
    split; [lia|]. intros Hh. pose proof (wf_end _ Hwf) as He. rewrite El in He. cbn in He.
    destruct He as [?|He]; [done|]. unfold n_end in He. rewrite E, <- Hbl in He. rewrite E.
    apply Z.le_antisymm; [lia|]. apply align_up_least; [lia|by right|lia].
  - destruct (Z.ltb_spec off (n_offset qn + n_length qn)); [lia|]. cbn.
    destruct (new_node_cases m) as [[al ->]|[al ->]].
    { left. eexists. split; [done|]. split; [by apply wf_allocs|done]. }
    right. rewrite u32_small by (unfold is_u32; lia). cbn. rewrite <- Hbl, Z.eqb_refl. cbn.
    eexists. split; [done|]. set (hole := NvNode 0 NVKM_MM_TYPE_HOLE _ _).
    assert (Hw : wf (NvMm (nodes m ++ [(next_id m, hole)]) (free m ++ [])
      (block_size m) (heap_nodes m) (next_id m + 1) al)).
    { apply (wf_append m (next_id m) hole); try done; try lia.
      - unfold node_ok, n_end. cbn. lia.
      - by apply fresh_notin, wf_fresh.
      - rewrite El. unfold joined, step_ok, n_end. cbn. lia.
      - by left. }
    rewrite app_nil_r in Hw. unfold set_nodes. cbn. split; [by rewrite Hbl|]. split; [done|]. split.
    + exists [(next_id m, hole)]. split; [done|]. by apply Forall_singleton.
    + cbn. rewrite last_snoc. unfold joined, step_ok, n_end. cbn. split; [lia|done].
Qed.

(** The region of the new heap. *)
Definition heap_node m (off len : Z) : nv_node :=
  NvNode (u8 (s32 (heap_nodes m + 1))) NVKM_MM_TYPE_NONE (align_up off (block_size m))
    (align_down (off + len) (block_size m) - align_up off (block_size m)).

Definition init_post m (off len block : Z) (r : run (Z * nv_mm)) : Prop :=
  (exists m', r = Done (- ENOMEM, m') /\ wf m' /\
     exists hs, nodes m' = nodes m ++ hs /\ Forall (fun p => n_type p.2 = NVKM_MM_TYPE_HOLE) hs) \/
  (exists m' i n hs, r = Done (0, m') /\ wf m' /\ block_size m' = block /\
     nodes m' = nodes m ++ hs ++ [(i, n)] /\ Forall (fun p => n_type p.2 = NVKM_MM_TYPE_HOLE) hs /\
     n_type n = NVKM_MM_TYPE_NONE /\ n_offset n = align_up off block /\
     n_end n = align_down (off + len) block).

Lemma init_rest m1 m off len block :
  placed m off block m1 -> 0 < block -> 0 <= off -> off + len + block < 2 ^ 32 ->
  align_up off block < align_down (off + len) block ->
  init_post m off len block
    match new_node m1 with
    | (None, m) => Done (- ENOMEM, m)
    | (Some i, m) =>
      let off' := if truth len then roundup off (block_size m) else 0 in
      let len' := if truth len
                  then u32 (rounddown (u32 (off + len)) (block_size m) - off') else 0 in
      let k := s32 (heap_nodes m + 1) in
      let n := NvNode (u8 k) NVKM_MM_TYPE_NONE off' len' in
      Done (0, set_heap_nodes k (set_free (free m ++ [i]) (set_nodes (nodes m ++ [(i, n)]) m)))
    end.
Proof.
  intros (Hwf & Hbl & (hs & Hn & Hhs) & Hj) Hb Ho Hsum Hlt.
  pose proof (align_up_bounds off block ltac:(lia)) as Hup.
  pose proof (align_down_le (off + len) block ltac:(lia)) as Hdown.
  destruct (new_node_cases m1) as [[al ->]|[al ->]].
  { left. eexists. split; [done|]. split; [by apply wf_allocs|]. by exists hs. }
  right. unfold truth. destruct (Z.eqb_spec len 0); [lia|]. cbn [negb]. cbv zeta.
  cbn [block_size heap_nodes free nodes]. rewrite Hbl.
  rewrite (u32_small (off + len)), roundup_align, rounddown_align by (unfold is_u32; lia).
  rewrite u32_small by (unfold is_u32; lia).
  set (n' := NvNode _ _ _ _). unfold set_heap_nodes, set_free, set_nodes. cbn.
  exists (NvMm (nodes m1 ++ [(next_id m1, n')]) (free m1 ++ [next_id m1]) (block_size m1)
    (s32 (heap_nodes m1 + 1)) (next_id m1 + 1) al), (next_id m1), n', hs.
  split; [by rewrite Hbl|]. split; [|split; [done|split; [cbn; by rewrite Hn, <- app_assoc|]]].
  - apply (wf_append m1 (next_id m1) n'); try done; try lia.
    + unfold node_ok, n_end. cbn. lia.
    + by apply fresh_notin, wf_fresh.
    + right. rewrite Hbl. unfold n_end. cbn. replace (_ + _) with (align_down (off + len) block) by lia.
      destruct (align_down_aligned (off + len) block) as [?|?]; [lia|done].
  - split; [done|]. split; [done|]. split; [done|]. unfold n_end. cbn. lia.
Qed.

Lemma nouveau_mm_init_spec m off len block :
  wf m -> valid_init m off len block ->
  init_post m off len block (nouveau_mm_init m off len block).
Proof.
  intros Hwf Hv. pose proof Hv as (Hb & Ho & Hsum & Hlt & _). unfold nouveau_mm_init.
  destruct (init_place_spec _ _ _ _ Hwf Hv) as [(m' & -> & W & N)|(m' & -> & P)]; mred.
  - left. exists m'. split; [done|]. split; [done|]. exists []. by rewrite app_nil_r.
  - by apply (init_rest m').
Qed.

(** The first heap of a manager. *)
Lemma nouveau_mm_init_first m off len block :
  block_size m = 0 -> nodes m = [] -> valid_init m off len block ->
  init_post m off len block (nouveau_mm_init m off len block).
Proof.
  intros Hz Hn (Hb & Ho & Hsum & Hlt & _). unfold nouveau_mm_init, init_place, nouveau_mm_initialised.
  pose proof (align_up_bounds off block ltac:(lia)) as Hup.
  pose proof (align_down_le (off + len) block ltac:(lia)) as Hdown.
  rewrite Hz. cbn [Z.eqb negb]. mred. apply (init_rest _ m); try done.
  split; [|split; [done|split; [|done]]].
  - split; cbn; try done; try constructor; lia.
  - exists []. cbn. by rewrite Hn.
Qed.

(** ** Reachable managers *)
Definition valid_type (type : Z) : Prop :=
  type <> NVKM_MM_TYPE_NONE /\ type <> NVKM_MM_TYPE_HOLE.

Definition valid_alloc m (type smax smin k : Z) : Prop :=
  valid_type type /\ 1 <= smin <= smax /\ 0 <= k < 32 /\ roomy m (2 ^ k).

Inductive nv_reach : nv_mm -> Prop :=
| reach_first m off len block m' :
    block_size m = 0 -> nodes m = [] -> valid_init m off len block ->
    nouveau_mm_init m off len block = Done (0, m') -> nv_reach m'
| reach_init m off len block r m' :
    nv_reach m -> valid_init m off len block ->
    nouveau_mm_init m off len block = Done (r, m') -> nv_reach m'
| reach_head m heap type smax smin k r o m' :
    nv_reach m -> valid_alloc m type smax smin k ->
    nouveau_mm_head m heap type smax smin (2 ^ k) = Done (r, o, m') -> nv_reach m'
| reach_tail m heap type smax smin k r o m' :
    nv_reach m -> valid_alloc m type smax smin k ->
    nouveau_mm_tail m heap type smax smin (2 ^ k) = Done (r, o, m') -> nv_reach m'
| reach_free m i n m' :
    nv_reach m -> (i, n) ∈ nodes m -> valid_type (n_type n) ->
    nouveau_mm_free m (Some i) = Done m' -> nv_reach m'.

Lemma nouveau_mm_head_spec m heap type smax smin k :
  wf m -> valid_alloc m type smax smin k ->
  alloc_post m heap type smax smin (2 ^ k) (2 ^ k | smin) (free m)
    (nouveau_mm_head m heap type smax smin (2 ^ k)).
Proof.
  intros Hwf ([Ht Hh] & Hs & Hk & Hr). unfold nouveau_mm_head, bad_type.
  destruct (Z.eqb_spec type NVKM_MM_TYPE_NONE), (Z.eqb_spec type NVKM_MM_TYPE_HOLE); try done. cbn.
  by apply head_loop_post.
Qed.

Lemma nouveau_mm_tail_spec m heap type smax smin k :
  wf m -> valid_alloc m type smax smin k ->
  alloc_post m heap type smax smin (2 ^ k) True (free m)
    (nouveau_mm_tail m heap type smax smin (2 ^ k)).
Proof.
  intros Hwf ([Ht Hh] & Hs & Hk & Hr). unfold nouveau_mm_tail, bad_type.
  destruct (Z.eqb_spec type NVKM_MM_TYPE_NONE), (Z.eqb_spec type NVKM_MM_TYPE_HOLE); try done. cbn.
  destruct (tail_loop_post m heap type smax smin k Hwf Hk Hr Ht Hs (reverse (free m))) as [[E Hc]|Hp];
    [intros x; by rewrite elem_of_reverse| |by right].
  left. split; [done|]. intros Hcomp i nd Hi. apply Hc; [done|]. by apply elem_of_reverse.
Qed.

Lemma release_spec m i n :
  wf m -> (i, n) ∈ nodes m -> valid_type (n_type n) ->
  exists m', nouveau_mm_free m (Some i) = Done m' /\ wf m' /\ same_conf m m' /\
    allocated m ≡ₚ (i, n) :: allocated m'.
Proof.
  intros Hwf (l1 & l2 & Hn)%list_elem_of_split [Ht Hh]. by apply (nouveau_mm_free_spec m l1 i n l2).
Qed.

Lemma nv_reach_wf m : nv_reach m -> wf m.
Proof.
  induction 1 as [m off len block m' Hz Hn Hv E|m off len block r m' _ IH Hv E
    |m heap type smax smin k r o m' _ IH Hv E|m heap type smax smin k r o m' _ IH Hv E|m i n m' _ IH Hi Ht E].
  - destruct (nouveau_mm_init_first _ _ _ _ Hz Hn Hv) as [(m1 & E' & _)|(m1 & i & n & hs & E' & W & _)];
      rewrite E in E'; [done|]. by injection E' as ->.
  - destruct (nouveau_mm_init_spec _ _ _ _ IH Hv) as [(m1 & E' & W & _)|(m1 & i & n & hs & E' & W & _)];
      rewrite E in E'; by injection E' as -> ->.
  - destruct (nouveau_mm_head_spec _ heap _ _ _ _ IH Hv)
      as [[E' _]|[(m1 & E' & W & _)|(? & ? & ? & ? & m1 & E' & W & _)]];
      rewrite E in E'; by simplify_eq.
  - destruct (nouveau_mm_tail_spec _ heap _ _ _ _ IH Hv)
      as [[E' _]|[(m1 & E' & W & _)|(? & ? & ? & ? & m1 & E' & W & _)]];
      rewrite E in E'; by simplify_eq.
  - destruct (release_spec _ _ _ IH Hi Ht) as (m1 & E' & W & _). rewrite E in E'. by simplify_eq.
Qed.


(** In a reachable manager the regions are pairwise disjoint and within 32 bits,
    and the free list holds exactly the free regions, in address order. *)
Theorem nouveau_mm_disjoint m :
  nv_reach m ->
  (forall p q, p ∈ nodes m -> q ∈ nodes m -> p.1 <> q.1 ->
     n_end p.2 <= n_offset q.2 \/ n_end q.2 <= n_offset p.2) /\
  Forall (fun p => 0 <= n_offset p.2 /\ 0 < n_length p.2 /\ n_end p.2 < 2 ^ 32) (nodes m) /\
  free m = (filter is_free (nodes m)).*1.
Proof.
  intros Hwf%nv_reach_wf. split; [|split; [apply Hwf|apply Hwf]].
  intros p q Hp Hq Hne. pose proof (wf_nodes _ Hwf) as Hok. pose proof (wf_chain _ Hwf) as Hc.
  apply list_elem_of_split in Hp as (l1 & l2 & Hn). rewrite Hn in Hq, Hok, Hc.
  apply elem_of_app in Hq as [Hq|Hq].
  - right. apply list_elem_of_split in Hq as (a & b & ->). rewrite <- app_assoc in Hok, Hc.
    by apply (chained_ordered a q b p l2).
  - left. apply elem_of_cons in Hq as [-> |Hq]; [done|].
    apply list_elem_of_split in Hq as (a & b & ->). by apply (chained_ordered l1 p a q b).
Qed.

(** ** Sample runs *)
Definition nv_zero : nv_mm := NvMm [] [] 0 0 1 [].

(** One heap of 64 units in blocks of 4, and 16 units of type 5 from its head. *)
Definition nv_one : nv_mm :=
  NvMm [(1, NvNode 1 0 0 64)] [1] 4 1 2 [].
Definition nv_two : nv_mm :=
  NvMm [(2, NvNode 1 5 0 16); (1, NvNode 1 0 16 48)] [1] 4 1 3 [].

Lemma nv_one_reach : nv_reach nv_one.
Proof.
  apply (reach_first nv_zero 0 64 4); [done|done| |reflexivity].
  split; [lia|]. split; [lia|]. split; [lia|]. by split.
Qed.

Lemma nv_one_alloc : valid_alloc nv_one 5 16 16 2.
Proof.
  split; [done|]. split; [lia|]. split; [lia|]. by apply Forall_singleton.
Qed.

Lemma nv_two_reach : nv_reach nv_two.
Proof. apply (reach_head nv_one 0 5 16 16 2 0 (Some 2) nv_two nv_one_reach nv_one_alloc). reflexivity. Qed.


Lemma nouveau_mm_disjoint_witness :
  n_end (NvNode 1 5 0 16) <= 16 \/ n_end (NvNode 1 0 16 48) <= 0.
Proof.
  apply (proj1 (nouveau_mm_disjoint nv_two nv_two_reach) (2, NvNode 1 5 0 16) (1, NvNode 1 0 16 48));
    [set_solver|set_solver|done].
Defined.

(** [nouveau_mm_fini] counts regions, not allocations: a manager whose only heap
    is completely allocated as one region is taken down without -EBUSY, and as it
    stays marked as initialised, setting it up again reads through the empty list
    of regions. *)
Theorem nouveau_mm_fini_misses_full_heap :
  exists m m',
    nv_reach m /\ allocated m = [(1, NvNode 1 5 0 64)] /\
    nouveau_mm_fini m = (0, m') /\ nouveau_mm_init m' 0 64 4 = Oops.
Proof.
  exists (NvMm [(1, NvNode 1 5 0 64)] [] 4 1 2 []), (NvMm [] [] 4 0 2 []).
  split; [|done]. apply (reach_head nv_one 0 5 64 64 2 0 (Some 1)); [apply nv_one_reach| |reflexivity].
  split; [done|]. split; [lia|]. split; [lia|]. by apply Forall_singleton.
Qed.
