(* ===== verification/DpHelper.v ===== *)
(** * DisplayPort AUX and link helpers (drm_dp_helper.c)

    Native and I2C-over-AUX transactions with their retries, the link status
    decoders, and probing, powering up and configuring a link.  The driver's
    [transfer] callback and the delays are the operations of a class on a
    hardware state; the constants of include/drm/drm_dp_helper.h, which is not in
    the repository, are another, with what the code relies on as laws.

    Not modelled: the registration of the I2C adapter with the kernel. *)

From S2P Require Import Prelude DpSideband DpPayload.

Definition EPROTO : Z := 71.
Definition EREMOTEIO : Z := 121.

(** ** Constants *)
Class dp_helper_h := {
  DP_AUX_NATIVE_WRITE : Z; DP_AUX_NATIVE_READ : Z;
  DP_AUX_I2C_WRITE : Z; DP_AUX_I2C_READ : Z; DP_AUX_I2C_MOT : Z;
  DP_AUX_NATIVE_REPLY_MASK : Z; DP_AUX_NATIVE_REPLY_ACK : Z;
  DP_AUX_NATIVE_REPLY_NACK : Z; DP_AUX_NATIVE_REPLY_DEFER : Z;
  DP_AUX_I2C_REPLY_MASK : Z; DP_AUX_I2C_REPLY_ACK : Z;
  DP_AUX_I2C_REPLY_NACK : Z; DP_AUX_I2C_REPLY_DEFER : Z;
  I2C_M_RD : Z;
  DP_LANE0_1_STATUS : Z; DP_LANE_ALIGN_STATUS_UPDATED : Z; DP_ADJUST_REQUEST_LANE0_1 : Z;
  DP_LINK_STATUS_SIZE : Z;
  DP_INTERLANE_ALIGN_DONE : Z; DP_CHANNEL_EQ_BITS : Z; DP_LANE_CR_DONE : Z;
  DP_ADJUST_VOLTAGE_SWING_LANE0_SHIFT : Z; DP_ADJUST_VOLTAGE_SWING_LANE1_SHIFT : Z;
  DP_ADJUST_PRE_EMPHASIS_LANE0_SHIFT : Z; DP_ADJUST_PRE_EMPHASIS_LANE1_SHIFT : Z;
  DP_TRAIN_VOLTAGE_SWING_SHIFT : Z; DP_TRAIN_PRE_EMPHASIS_SHIFT : Z;
  DP_TRAINING_AUX_RD_INTERVAL : Z;
  DP_DPCD_REV : Z; DP_MAX_LANE_COUNT_MASK : Z; DP_ENHANCED_FRAME_CAP : Z;
  DP_LINK_CAP_ENHANCED_FRAMING : Z;
  DP_SET_POWER : Z; DP_SET_POWER_MASK : Z; DP_SET_POWER_D0 : Z;
  DP_LINK_BW_SET : Z; DP_LANE_COUNT_ENHANCED_FRAME_EN : Z;
}.

(** ** The hardware *)

(** [transfer address request buffer size] gives the result, the reply and the
    buffer; as the comment of [drm_dp_i2c_do_msg] says, it changes nothing else of
    the message. *)
Class dp_aux_hw (E : Type) := {
  transfer : Z -> Z -> list Z -> Z -> E -> Z * Z * list Z * E;
  usleep_range : Z -> Z -> E -> E;
  aux_udelay : Z -> E -> E;
  aux_mdelay : Z -> E -> E;
}.

(** [struct drm_dp_aux], with the state of the hardware behind it *)
Record drm_dp_aux (E : Type) := MkAux {
  aux_hw : E;
  i2c_nack_count : Z;
  i2c_defer_count : Z;
}.
Arguments MkAux {E}. Arguments aux_hw {E}. Arguments i2c_nack_count {E}.
Arguments i2c_defer_count {E}.

(** [struct drm_dp_link] *)
Record drm_dp_link := MkLink { revision : Z; rate : Z; num_lanes : Z; capabilities : Z }.

Section helper.
Context {E : Type} `{dp_helper_h} `{dp_link_bw} `{!dp_aux_hw E}.

(** ** Link status *)
Definition dp_link_status (link_status : list Z) (r : Z) : run Z :=
  if r - DP_LANE0_1_STATUS <? 0 then Oops
  else deref (link_status !! Z.to_nat (r - DP_LANE0_1_STATUS)).

Definition dp_get_lane_status (link_status : list Z) (lane : Z) : run Z :=
  let i := DP_LANE0_1_STATUS + Z.shiftr lane 1 in
  let s := Z.land lane 1 * 4 in
  l ← dp_link_status link_status i;
  Done (Z.land (Z.shiftr l s) 15).

(** The loop over the lanes from [lane] on; [n] lanes are left. *)
Fixpoint eq_loop (link_status : list Z) (n : nat) (lane : Z) : run bool :=
  match n with
  | O => Done true
  | S n =>
    lane_status ← dp_get_lane_status link_status lane;
    if negb (Z.land lane_status DP_CHANNEL_EQ_BITS =? DP_CHANNEL_EQ_BITS) then Done false
    else eq_loop link_status n (lane + 1)
  end.

Definition drm_dp_channel_eq_ok (link_status : list Z) (lane_count : Z) : run bool :=
  lane_align ← dp_link_status link_status DP_LANE_ALIGN_STATUS_UPDATED;
  if Z.land lane_align DP_INTERLANE_ALIGN_DONE =? 0 then Done false
  else eq_loop link_status (Z.to_nat lane_count) 0.

Fixpoint cr_loop (link_status : list Z) (n : nat) (lane : Z) : run bool :=
  match n with
  | O => Done true
  | S n =>
    lane_status ← dp_get_lane_status link_status lane;
    if Z.land lane_status DP_LANE_CR_DONE =? 0 then Done false
    else cr_loop link_status n (lane + 1)
  end.

Definition drm_dp_clock_recovery_ok (link_status : list Z) (lane_count : Z) : run bool :=
  cr_loop link_status (Z.to_nat lane_count) 0.

Definition drm_dp_get_adjust_request_voltage (link_status : list Z) (lane : Z) : run Z :=
  let i := DP_ADJUST_REQUEST_LANE0_1 + Z.shiftr lane 1 in
  let s := if truth (Z.land lane 1) then DP_ADJUST_VOLTAGE_SWING_LANE1_SHIFT
           else DP_ADJUST_VOLTAGE_SWING_LANE0_SHIFT in
  l ← dp_link_status link_status i;
  Done (u8 (Z.shiftl (Z.land (Z.shiftr l s) 3) DP_TRAIN_VOLTAGE_SWING_SHIFT)).

Definition drm_dp_get_adjust_request_pre_emphasis (link_status : list Z) (lane : Z) : run Z :=
  let i := DP_ADJUST_REQUEST_LANE0_1 + Z.shiftr lane 1 in
  let s := if truth (Z.land lane 1) then DP_ADJUST_PRE_EMPHASIS_LANE1_SHIFT
           else DP_ADJUST_PRE_EMPHASIS_LANE0_SHIFT in
  l ← dp_link_status link_status i;
  Done (u8 (Z.shiftl (Z.land (Z.shiftr l s) 3) DP_TRAIN_PRE_EMPHASIS_SHIFT)).

(** The two training delays, with the interval of the sink or a default. *)
Definition drm_dp_link_train_clock_recovery_delay (dpcd : list Z) (e : E) : run E :=
  v ← deref (dpcd !! Z.to_nat DP_TRAINING_AUX_RD_INTERVAL);
  Done (if v =? 0 then aux_udelay 100 e else aux_mdelay (v * 4) e).

Definition drm_dp_link_train_channel_eq_delay (dpcd : list Z) (e : E) : run E :=
  v ← deref (dpcd !! Z.to_nat DP_TRAINING_AUX_RD_INTERVAL);
  Done (if v =? 0 then aux_udelay 400 e else aux_mdelay (v * 4) e).

Definition drm_dp_link_rate_to_bw_code (link_rate : Z) : Z :=
  match link_rate with
  | 270000 => DP_LINK_BW_2_7
  | 540000 => DP_LINK_BW_5_4
  | _ => DP_LINK_BW_1_62
  end.

Definition drm_dp_bw_code_to_link_rate (link_bw : Z) : Z :=
  if link_bw =? DP_LINK_BW_1_62 then 162000
  else if link_bw =? DP_LINK_BW_2_7 then 270000
  else if link_bw =? DP_LINK_BW_5_4 then 540000
  else 162000.

(** ** Native transactions *)

(** The loop of [drm_dp_dpcd_access]: [retry] attempts are left.  The result is
    the return value, the buffer and the hardware. *)
Fixpoint dpcd_loop (request offset : Z) (size : Z) (retry : nat) (buffer : list Z) (e : E)
    : Z * list Z * E :=
  match retry with
  | O => (- EIO, buffer, e)
  | S retry =>
    let '(err, reply, buffer, e) := transfer offset request buffer size e in
    if err <? 0 then
      if err =? - EBUSY then dpcd_loop request offset size retry buffer e
      else (err, buffer, e)
    else
      let r := Z.land reply DP_AUX_NATIVE_REPLY_MASK in
      if r =? DP_AUX_NATIVE_REPLY_ACK then
        if err <? size then (- EPROTO, buffer, e) else (err, buffer, e)
      else if r =? DP_AUX_NATIVE_REPLY_NACK then (- EIO, buffer, e)
      else if r =? DP_AUX_NATIVE_REPLY_DEFER then
        dpcd_loop request offset size retry buffer (usleep_range 400 500 e)
      else dpcd_loop request offset size retry buffer e
  end.

Definition drm_dp_dpcd_access (request offset : Z) (buffer : list Z) (size : Z) (e : E)
    : Z * list Z * E :=
  dpcd_loop request offset size 32 buffer e.

Definition drm_dp_dpcd_read (offset : Z) (buffer : list Z) (size : Z) (e : E) : Z * list Z * E :=
  drm_dp_dpcd_access DP_AUX_NATIVE_READ offset buffer size e.

Definition drm_dp_dpcd_write (offset : Z) (buffer : list Z) (e : E) : Z * E :=
  let '(ret, _, e) :=
    drm_dp_dpcd_access DP_AUX_NATIVE_WRITE offset buffer (Z.of_nat (length buffer)) e in
  (ret, e).

Definition drm_dp_dpcd_read_link_status (status : list Z) (e : E) : Z * list Z * E :=
  drm_dp_dpcd_read DP_LANE0_1_STATUS status DP_LINK_STATUS_SIZE e.

(** ** Links *)
Definition drm_dp_link_probe (e : E) : run (Z * drm_dp_link * E) :=
  let link := MkLink 0 0 0 0 in
  let '(err, values, e) := drm_dp_dpcd_read DP_DPCD_REV [0; 0; 0] 3 e in
  if err <? 0 then Done (err, link, e)
  else
    v0 ← deref (values !! 0%nat); v1 ← deref (values !! 1%nat); v2 ← deref (values !! 2%nat);
    let caps := if truth (Z.land v2 DP_ENHANCED_FRAME_CAP)
                then Z.lor 0 DP_LINK_CAP_ENHANCED_FRAMING else 0 in
    Done (0, MkLink v0 (drm_dp_bw_code_to_link_rate v1) (Z.land v2 DP_MAX_LANE_COUNT_MASK) caps, e).

(** [readb] and [writeb] are inline functions of the header. *)
Definition drm_dp_link_power_up (readb : Z -> E -> Z * Z * E) (writeb : Z -> Z -> E -> Z * E)
    (link : drm_dp_link) (e : E) : Z * E :=
  if revision link <? 17 then (0, e)
  else
    let '(err, value, e) := readb DP_SET_POWER e in
    if err <? 0 then (err, e)
    else
      let value := Z.land value (u8 (Z.lnot DP_SET_POWER_MASK)) in
      let value := Z.lor value DP_SET_POWER_D0 in
      let '(err, e) := writeb DP_SET_POWER value e in
      if err <? 0 then (err, e) else (0, usleep_range 1000 2000 e).

Definition drm_dp_link_configure (link : drm_dp_link) (e : E) : Z * E :=
  let v0 := drm_dp_link_rate_to_bw_code (rate link) in
  let v1 := u8 (num_lanes link) in
  let v1 := if truth (Z.land (capabilities link) DP_LINK_CAP_ENHANCED_FRAMING)
            then u8 (Z.lor v1 DP_LANE_COUNT_ENHANCED_FRAME_EN) else v1 in
  let '(err, e) := drm_dp_dpcd_write DP_LINK_BW_SET [v0; v1] e in
  if err <? 0 then (err, e) else (0, e).

(** ** I2C over AUX *)

(** The loop of [drm_dp_i2c_do_msg] with [retry] attempts left: result and
    buffer. *)
Fixpoint do_msg_loop (address request size : Z) (retry : nat) (buffer : list Z)
    (a : drm_dp_aux E) : Z * list Z * drm_dp_aux E :=
  match retry with
  | O => (- EREMOTEIO, buffer, a)
  | S retry =>
    let '(err, reply, buffer, e) := transfer address request buffer size (aux_hw a) in
    let a := MkAux e (i2c_nack_count a) (i2c_defer_count a) in
    if err <? 0 then
      if err =? - EBUSY then do_msg_loop address request size retry buffer a
      else (err, buffer, a)
    else
      let r := Z.land reply DP_AUX_NATIVE_REPLY_MASK in
      if r =? DP_AUX_NATIVE_REPLY_ACK then
        let i := Z.land reply DP_AUX_I2C_REPLY_MASK in
        if i =? DP_AUX_I2C_REPLY_ACK then
          if err <? size then (- EPROTO, buffer, a) else (0, buffer, a)
        else if i =? DP_AUX_I2C_REPLY_NACK then
          (- EREMOTEIO, buffer, MkAux e (u32 (i2c_nack_count a + 1)) (i2c_defer_count a))
        else if i =? DP_AUX_I2C_REPLY_DEFER then
          do_msg_loop address request size retry buffer
            (MkAux (usleep_range 400 500 e) (i2c_nack_count a) (u32 (i2c_defer_count a + 1)))
        else (- EREMOTEIO, buffer, a)
      else if r =? DP_AUX_NATIVE_REPLY_NACK then (- EREMOTEIO, buffer, a)
      else if r =? DP_AUX_NATIVE_REPLY_DEFER then
        do_msg_loop address request size retry buffer
          (MkAux (usleep_range 500 600 e) (i2c_nack_count a) (i2c_defer_count a))
      else (- EREMOTEIO, buffer, a)
  end.

Definition drm_dp_i2c_do_msg (address request : Z) (buffer : list Z) (size : Z)
    (a : drm_dp_aux E) : Z * list Z * drm_dp_aux E :=
  do_msg_loop address request size 7 buffer a.

(** [struct i2c_msg]; the length of [i2c_buf] is [len]. *)
Record i2c_msg := MkI2c { i2c_addr : Z; i2c_flags : Z; i2c_buf : list Z }.

(** The loop over the bytes of a message: the bytes still to transfer; the ones
    done are returned. *)
Fixpoint xfer_bytes (address request : Z) (todo : list Z) (a : drm_dp_aux E)
    : Z * list Z * drm_dp_aux E :=
  match todo with
  | [] => (0, [], a)
  | b :: todo =>
    let '(err, buf, a) := drm_dp_i2c_do_msg address request [b] 1 a in
    let b' := default b (head buf) in
    if err <? 0 then (err, b' :: todo, a)
    else
      let '(err, rest, a) := xfer_bytes address request todo a in
      (err, b' :: rest, a)
  end.

Definition i2c_request (flags : Z) : Z :=
  Z.lor (if truth (Z.land flags I2C_M_RD) then DP_AUX_I2C_READ else DP_AUX_I2C_WRITE) DP_AUX_I2C_MOT.

(** The loop over the messages: result, the messages with their buffers, the
    address and request left in [msg]. *)
Fixpoint xfer_msgs (msgs : list i2c_msg) (address request : Z) (a : drm_dp_aux E)
    : Z * list i2c_msg * Z * Z * drm_dp_aux E :=
  match msgs with
  | [] => (0, [], address, request, a)
  | m :: msgs =>
    let address := i2c_addr m in
    let request := i2c_request (i2c_flags m) in
    let '(err, _, a) := drm_dp_i2c_do_msg address request [] 0 a in
    if err <? 0 then (err, m :: msgs, address, request, a)
    else
      let '(err, buf, a) := xfer_bytes address request (i2c_buf m) a in
      let m := MkI2c (i2c_addr m) (i2c_flags m) buf in
      if err <? 0 then (err, m :: msgs, address, request, a)
      else
        let '(err, rest, address, request, a) := xfer_msgs msgs address request a in
        (err, m :: rest, address, request, a)
  end.

Definition drm_dp_i2c_xfer (msgs : list i2c_msg) (a : drm_dp_aux E)
    : Z * list i2c_msg * drm_dp_aux E :=
  let '(err, msgs', address, request, a) := xfer_msgs msgs 0 0 a in
  let err := if 0 <=? err then Z.of_nat (length msgs) else err in
  let request := Z.land request (u8 (Z.lnot DP_AUX_I2C_MOT)) in
  let '(_, _, a) := drm_dp_i2c_do_msg address request [] 0 a in
  (err, msgs', a).

End helper.
