(* ===== verification/DpHelperProps.v ===== *)
(** * DisplayPort AUX and link helpers: theorems

    A native transaction is its first decisive attempt; an I2C transfer over a
    sink that answers within the allowed retries is a transfer on an abstract
    bus; whatever the sink does the bus is released; the link status decoders read
    the lanes' fields; the sideband messages of drm_dp_mst_topology.c written
    through this file reach the sink's mailbox. *)

From S2P Require Import Prelude DpSideband DpMst DpMstSpec DpPayload DpHelper.

(** ** Laws of the constants *)
Class dp_helper_h_ok `{dp_helper_h} : Prop := {
  native_replies : NoDup [DP_AUX_NATIVE_REPLY_ACK; DP_AUX_NATIVE_REPLY_NACK; DP_AUX_NATIVE_REPLY_DEFER];
  i2c_replies : NoDup [DP_AUX_I2C_REPLY_ACK; DP_AUX_I2C_REPLY_NACK; DP_AUX_I2C_REPLY_DEFER];
  mot_u8 : is_u8 DP_AUX_I2C_MOT;
  mot_set : DP_AUX_I2C_MOT <> 0;
  i2c_rd_set : I2C_M_RD <> 0;
  i2c_write : DP_AUX_I2C_WRITE = 0;
  i2c_read : is_u8 DP_AUX_I2C_READ /\ DP_AUX_I2C_READ <> 0 /\ Z.land DP_AUX_I2C_READ DP_AUX_I2C_MOT = 0;
  align_reg : DP_LANE_ALIGN_STATUS_UPDATED = DP_LANE0_1_STATUS + 2;
  adjust_reg : DP_ADJUST_REQUEST_LANE0_1 = DP_LANE0_1_STATUS + 4;
}.

Section native.
Context {E : Type} `{dp_helper_h} `{!dp_helper_h_ok} `{!dp_aux_hw E}.

(** ** One attempt of a native transaction *)

(** A try that is repeated: the hardware was busy, the sink deferred, or the
    reply is none of the three. *)
Inductive native_retry (request offset size : Z) : list Z * E -> list Z * E -> Prop :=
| retry_busy buf e reply buf' e' :
    transfer offset request buf size e = (- EBUSY, reply, buf', e') ->
    native_retry request offset size (buf, e) (buf', e')
| retry_defer buf e err reply buf' e' :
    transfer offset request buf size e = (err, reply, buf', e') -> 0 <= err ->
    Z.land reply DP_AUX_NATIVE_REPLY_MASK = DP_AUX_NATIVE_REPLY_DEFER ->
    native_retry request offset size (buf, e) (buf', usleep_range 400 500 e')
| retry_other buf e err reply buf' e' :
    transfer offset request buf size e = (err, reply, buf', e') -> 0 <= err ->
    Z.land reply DP_AUX_NATIVE_REPLY_MASK ∉
      [DP_AUX_NATIVE_REPLY_ACK; DP_AUX_NATIVE_REPLY_NACK; DP_AUX_NATIVE_REPLY_DEFER] ->
    native_retry request offset size (buf, e) (buf', e').

(** A try that decides the transaction. *)
Inductive native_final (request offset size : Z) : list Z * E -> Z -> list Z * E -> Prop :=
| final_error buf e err reply buf' e' :
    transfer offset request buf size e = (err, reply, buf', e') -> err < 0 -> err <> - EBUSY ->
    native_final request offset size (buf, e) err (buf', e')
| final_ack buf e err reply buf' e' :
    transfer offset request buf size e = (err, reply, buf', e') -> 0 <= err -> size <= err ->
    Z.land reply DP_AUX_NATIVE_REPLY_MASK = DP_AUX_NATIVE_REPLY_ACK ->
    native_final request offset size (buf, e) err (buf', e')
| final_short buf e err reply buf' e' :
    transfer offset request buf size e = (err, reply, buf', e') -> 0 <= err < size ->
    Z.land reply DP_AUX_NATIVE_REPLY_MASK = DP_AUX_NATIVE_REPLY_ACK ->
    native_final request offset size (buf, e) (- EPROTO) (buf', e')
| final_nack buf e err reply buf' e' :
    transfer offset request buf size e = (err, reply, buf', e') -> 0 <= err ->
    Z.land reply DP_AUX_NATIVE_REPLY_MASK = DP_AUX_NATIVE_REPLY_NACK ->
    native_final request offset size (buf, e) (- EIO) (buf', e').

(** [n] repeated tries. *)
Inductive native_retries (request offset size : Z) : nat -> list Z * E -> list Z * E -> Prop :=
| retries_O c : native_retries request offset size 0 c c
| retries_S n c c1 c2 :
    native_retry request offset size c c1 -> native_retries request offset size n c1 c2 ->
    native_retries request offset size (S n) c c2.

(** What a run of the loop with [k] attempts left amounts to. *)
Definition native_result (request offset size : Z) (k : nat) (c : list Z * E) (r : Z * list Z * E) : Prop :=
  (exists n c1 c2, (n < k)%nat /\ native_retries request offset size n c c1 /\
     native_final request offset size c1 r.1.1 c2 /\ c2 = (r.1.2, r.2)) \/
  (exists c1, native_retries request offset size k c c1 /\ r = (- EIO, c1.1, c1.2)).

Lemma native_result_step request offset size k c c1 r :
  native_retry request offset size c c1 -> native_result request offset size k c1 r ->
  native_result request offset size (S k) c r.
Proof.
  intros Hs [(n & c2 & c3 & Hn & Hr & Hf)|(c2 & Hr & ->)].
  - left. exists (S n), c2, c3. split; [lia|]. split; [by econstructor|done].
  - right. exists c2. split; [by econstructor|done].
Qed.

Lemma native_result_final request offset size k c ret buf e :
  native_final request offset size c ret (buf, e) ->
  native_result request offset size (S k) c (ret, buf, e).
Proof. intros Hf. left. exists 0%nat, c, (buf, e). split; [lia|]. split; [constructor|done]. Qed.

Lemma dpcd_loop_spec request offset size k buf e :
  native_result request offset size k (buf, e) (dpcd_loop request offset size k buf e).
Proof.
  revert buf e. induction k as [|k IH]; intros buf e.
  { right. exists (buf, e). split; [constructor|done]. }
  cbn [dpcd_loop]. destruct (transfer offset request buf size e) as [[[err reply] buf'] e'] eqn:Et.
  destruct (Z.ltb_spec err 0).
  { destruct (Z.eqb_spec err (- EBUSY)) as [-> |].
    - eapply native_result_step; [by eapply retry_busy|apply IH].
    - apply native_result_final. by eapply final_error. }
  set (r := Z.land reply _). pose proof native_replies as Hnd.
  destruct (Z.eqb_spec r DP_AUX_NATIVE_REPLY_ACK).
  { destruct (Z.ltb_spec err size); apply native_result_final; [by eapply final_short|by eapply final_ack]. }
  destruct (Z.eqb_spec r DP_AUX_NATIVE_REPLY_NACK).
  { apply native_result_final. by eapply final_nack. }
  destruct (Z.eqb_spec r DP_AUX_NATIVE_REPLY_DEFER).
  { eapply native_result_step; [by eapply retry_defer|apply IH]. }
  eapply native_result_step; [|apply IH]. eapply retry_other; [done|done|]. fold r. set_solver.
Qed.

Lemma dpcd_access_spec request offset buf size e :
  native_result request offset size 32 (buf, e) (drm_dp_dpcd_access request offset buf size e).
Proof. apply dpcd_loop_spec. Qed.

(** A native AUX transaction is decided by its first attempt that is not
    repeated, if there is one among 32: the error of the hardware, the byte count
    of a complete acknowledged transfer, -EPROTO for a short one, -EIO for a NACK;
    after 32 repeated attempts it gives up with -EIO. *)
Theorem dpcd_access_decided request offset buf size e :
  native_result request offset size 32 (buf, e) (drm_dp_dpcd_access request offset buf size e).
Proof. apply dpcd_access_spec. Qed.

(** ** Writing through the helper *)

(** A sink with memory: an acknowledged native write stores the bytes, any other
    attempt changes nothing. *)
Definition sink_stores (mem : E -> Z -> Z) : Prop :=
  (forall a bs e err reply buf e',
     transfer a DP_AUX_NATIVE_WRITE bs (Z.of_nat (length bs)) e = (err, reply, buf, e') ->
     buf = bs /\
     (err = Z.of_nat (length bs) -> Z.land reply DP_AUX_NATIVE_REPLY_MASK = DP_AUX_NATIVE_REPLY_ACK ->
        forall x, mem e' x = if (a <=? x) && (x <? a + Z.of_nat (length bs)) then rd bs (x - a) else mem e x) /\
     ((err < 0 \/ Z.land reply DP_AUX_NATIVE_REPLY_MASK <> DP_AUX_NATIVE_REPLY_ACK) ->
        forall x, mem e' x = mem e x)) /\
  (forall lo hi e x, mem (usleep_range lo hi e) x = mem e x).

Lemma sink_retries mem a bs n c c1 :
  sink_stores mem -> c.1 = bs ->
  native_retries DP_AUX_NATIVE_WRITE a (Z.of_nat (length bs)) n c c1 ->
  c1.1 = bs /\ forall x, mem c1.2 x = mem c.2 x.
Proof.
  intros [Hst Hsl] Hc Hr. induction Hr as [c|n c c1 c2 Hs Hr IH]; [done|].
  assert (Hone : c1.1 = bs /\ forall x, mem c1.2 x = mem c.2 x).
  { pose proof native_replies as Hnd. destruct Hs as [buf e reply buf' e' Ht|buf e err reply buf' e' Ht He Hd
      |buf e err reply buf' e' Ht He Hd]; cbn in *; subst buf; destruct (Hst _ _ _ _ _ _ _ Ht) as (-> & _ & Hn).
    - split; [done|]. apply Hn. left. unfold EBUSY. lia.
    - split; [done|]. intros x. rewrite Hsl. apply Hn. right. rewrite Hd. intros C. rewrite C in Hnd.
      apply NoDup_cons in Hnd as [Hnd _]. set_solver.
    - split; [done|]. apply Hn. right. set_solver. }
  destruct Hone as [H1 H2]. destruct (IH H1) as [H3 H4]. split; [done|]. intros x. by rewrite H4, H2.
Qed.

Lemma dpcd_write_eq a bs e :
  drm_dp_dpcd_write a bs e =
    ((drm_dp_dpcd_access DP_AUX_NATIVE_WRITE a bs (Z.of_nat (length bs)) e).1.1,
     (drm_dp_dpcd_access DP_AUX_NATIVE_WRITE a bs (Z.of_nat (length bs)) e).2).
Proof. unfold drm_dp_dpcd_write. by destruct (drm_dp_dpcd_access _ _ _ _ _) as [[??]?]. Qed.

#[local] Opaque drm_dp_dpcd_access.

Lemma dpcd_write_stores mem : sink_stores mem -> write_stores drm_dp_dpcd_write mem.
Proof.
  intros Hsink a bs e e' Hw x. rewrite dpcd_write_eq in Hw.
  destruct (drm_dp_dpcd_access DP_AUX_NATIVE_WRITE a bs (Z.of_nat (length bs)) e) as [[ret buf] e1] eqn:Ea.
  injection Hw as -> ->. pose proof (dpcd_access_spec DP_AUX_NATIVE_WRITE a bs (Z.of_nat (length bs)) e) as Hr.
  rewrite Ea in Hr. clear Ea.
  destruct Hr as [(n & c1 & c2 & _ & Hr & Hf & Hc)|(c1 & _ & [= Hc _])]; [|unfold EIO in Hc; lia].
  destruct (sink_retries mem a bs n (bs, e) c1 Hsink eq_refl Hr) as [Hb Hm]. cbn [fst snd] in *. subst c2.
  inversion Hf as [b0 e0 err reply b1 e2 Ht He _|b0 e0 err reply b1 e2 Ht He Hsz Hack
    |b0 e0 err reply b1 e2 Ht Hs _|b0 e0 err reply b1 e2 Ht Hs _]; subst; cbn [fst snd] in *; subst.
  - lia.
  - destruct Hsink as [Hst _]. destruct (Hst _ _ _ _ _ _ _ Ht) as (_ & Hs & _).
    rewrite Hs by done. by rewrite Hm.
  - unfold EPROTO in *. lia.
  - unfold EIO in *. lia.
Qed.

End native.

(** A sideband chunk sent through the native transactions of drm_dp_helper.c to
    a sink that stores acknowledged writes ends with 0 or -EIO, and after 0 the
    sink's mailbox holds the chunk. *)
Theorem dp_sideband_over_aux {E : Type} `{dp_helper_h} `{!dp_helper_h_ok} `{!dp_aux_hw E} `{mst_h}
    (mem : E -> Z -> Z) max up msg e :
  1 <= max -> sink_stores mem ->
  exists ret e',
    drm_dp_send_sideband_msg drm_dp_dpcd_write max up msg (Z.of_nat (length msg)) e = Done (ret, e') /\
    (ret = 0 \/ ret = - EIO) /\
    (ret = 0 -> forall i, 0 <= i < Z.of_nat (length msg) ->
       mem e' ((if up then DP_SIDEBAND_MSG_UP_REP_BASE
                else DP_SIDEBAND_MSG_DOWN_REQ_BASE) + i) = rd msg i).
Proof. intros Hmax Hsink. apply send_sideband_msg_spec; [done|]. by apply dpcd_write_stores. Qed.

(** ** I2C over AUX *)
Section i2c.
Context {E S : Type} `{dp_helper_h} `{!dp_helper_h_ok} `{!dp_aux_hw E}.

(** The abstract bus: the effect of an acknowledged message to an address, for a
    direction ([true] to read), with the bus kept for more ([true]) or released
    after it, and with the bytes of a buffer. *)
Context (bus : Z -> bool -> bool -> list Z -> S -> list Z * S).

(** How the DisplayPort standard encodes direction and middle-of-transaction. *)
Definition i2c_dir (request : Z) : bool := Z.ldiff request DP_AUX_I2C_MOT =? DP_AUX_I2C_READ.
Definition i2c_requests : list Z :=
  [DP_AUX_I2C_WRITE; DP_AUX_I2C_READ; Z.lor DP_AUX_I2C_WRITE DP_AUX_I2C_MOT; Z.lor DP_AUX_I2C_READ DP_AUX_I2C_MOT].
Definition i2c_mot (request : Z) : bool := truth (Z.land request DP_AUX_I2C_MOT).
Definition bus_op (address request : Z) : list Z -> S -> list Z * S :=
  bus address (i2c_dir request) (i2c_mot request).

Context (view : E -> S) (patience : E -> nat).

Definition i2c_acked (err reply size : Z) : Prop :=
  err = size /\ Z.land reply DP_AUX_NATIVE_REPLY_MASK = DP_AUX_NATIVE_REPLY_ACK /\
  Z.land reply DP_AUX_I2C_REPLY_MASK = DP_AUX_I2C_REPLY_ACK.

Definition i2c_again (err reply : Z) : Prop :=
  err = - EBUSY \/
  (0 <= err /\ Z.land reply DP_AUX_NATIVE_REPLY_MASK = DP_AUX_NATIVE_REPLY_DEFER) \/
  (0 <= err /\ Z.land reply DP_AUX_NATIVE_REPLY_MASK = DP_AUX_NATIVE_REPLY_ACK /\
   Z.land reply DP_AUX_I2C_REPLY_MASK = DP_AUX_I2C_REPLY_DEFER).

(** A sink that does what the bus does, after at most six answers that ask for
    another try. *)
Definition i2c_sink : Prop :=
  (forall e, (patience e <= 6)%nat) /\
  (forall lo hi e, view (usleep_range lo hi e) = view e /\ patience (usleep_range lo hi e) = patience e) /\
  forall address request buf e err reply buf' e',
    request ∈ i2c_requests ->
    transfer address request buf (Z.of_nat (length buf)) e = (err, reply, buf', e') ->
    (i2c_acked err reply (Z.of_nat (length buf)) /\ (buf', view e') = bus_op address request buf (view e)) \/
    (i2c_again err reply /\ buf' = buf /\ view e' = view e /\ (patience e' < patience e)%nat).

Lemma do_msg_sink address request buf k a :
  i2c_sink -> request ∈ i2c_requests -> (patience (aux_hw a) < k)%nat ->
  exists buf' a', do_msg_loop address request (Z.of_nat (length buf)) k buf a = (0, buf', a') /\
    (buf', view (aux_hw a')) = bus_op address request buf (view (aux_hw a)).
Proof.
  intros (Hp & Hsl & Ht) Hreq. revert a. induction k as [|k IH]; intros a Hk; [lia|]. cbn [do_msg_loop].
  destruct (transfer address request buf _ (aux_hw a)) as [[[err reply] buf'] e'] eqn:E1.
  pose proof native_replies as N1. pose proof i2c_replies as N2.
  destruct (Ht _ _ _ _ _ _ _ _ Hreq E1) as [[(He & Hn & Hi) Hb]|(Hag & -> & Hv & Hpat)].
  - exists buf', (MkAux e' (i2c_nack_count a) (i2c_defer_count a)). rewrite Hn, Hi, !Z.eqb_refl.
    destruct (Z.ltb_spec err 0); [lia|]. destruct (Z.ltb_spec err (Z.of_nat (length buf))); [lia|]. done.
  - assert (Hgo : forall a1, view (aux_hw a1) = view e' -> patience (aux_hw a1) = patience e' ->
      exists buf' a', do_msg_loop address request (Z.of_nat (length buf)) k buf a1 = (0, buf', a') /\
        (buf', view (aux_hw a')) = bus_op address request buf (view (aux_hw a))).
    { intros a1 Ev Ep. destruct (IH a1) as (b & a' & Hl & Hb); [lia|]. exists b, a'. split; [done|].
      by rewrite Hb, Ev, Hv. }
    assert (D1 : DP_AUX_NATIVE_REPLY_DEFER <> DP_AUX_NATIVE_REPLY_ACK)
      by (intros C; apply NoDup_cons in N1 as [N1 _]; set_solver).
    assert (D2 : DP_AUX_NATIVE_REPLY_DEFER <> DP_AUX_NATIVE_REPLY_NACK)
      by (intros C; do 2 apply NoDup_cons in N1 as [? N1]; set_solver).
    assert (D3 : DP_AUX_I2C_REPLY_DEFER <> DP_AUX_I2C_REPLY_ACK)
      by (intros C; apply NoDup_cons in N2 as [N2 _]; set_solver).
    assert (D4 : DP_AUX_I2C_REPLY_DEFER <> DP_AUX_I2C_REPLY_NACK)
      by (intros C; do 2 apply NoDup_cons in N2 as [? N2]; set_solver).
    destruct Hag as [-> |[[He Hn]|(He & Hn & Hi)]].
    + rewrite Z.eqb_refl. destruct (Z.ltb_spec (- EBUSY) 0) as [_|C]; [by apply Hgo|unfold EBUSY in C; lia].
    + destruct (Z.ltb_spec err 0); [lia|]. rewrite Hn, Z.eqb_refl.
      rewrite (proj2 (Z.eqb_neq _ _) D1), (proj2 (Z.eqb_neq _ _) D2). apply Hgo; apply Hsl.
    + destruct (Z.ltb_spec err 0); [lia|]. rewrite Hn, Hi, !Z.eqb_refl.
      rewrite (proj2 (Z.eqb_neq _ _) D3), (proj2 (Z.eqb_neq _ _) D4). apply Hgo; apply Hsl.
Qed.

Lemma i2c_do_msg_sink address request buf size a :
  i2c_sink -> request ∈ i2c_requests -> size = Z.of_nat (length buf) ->
  exists buf' a', drm_dp_i2c_do_msg address request buf size a = (0, buf', a') /\
    (buf', view (aux_hw a')) = bus_op address request buf (view (aux_hw a)).
Proof.
  intros Hs Hr ->. apply do_msg_sink; [done..|]. destruct Hs as [Hp _]. specialize (Hp (aux_hw a)). lia.
Qed.

(** ** The requests of the code, decoded *)
Definition is_read (flags : Z) : bool := truth (Z.land flags I2C_M_RD).
Definition no_mot : Z := u8 (Z.lnot DP_AUX_I2C_MOT).

Lemma i2c_request_decoded flags :
  i2c_dir (i2c_request flags) = is_read flags /\ i2c_mot (i2c_request flags) = true /\
  i2c_dir (Z.land (i2c_request flags) no_mot) = is_read flags /\
  i2c_request flags ∈ i2c_requests /\ Z.land (i2c_request flags) no_mot ∈ i2c_requests.
Proof.
  pose proof mot_set as Hm. destruct i2c_read as (Hr & Hr0 & Hrm). pose proof mot_u8 as Hu.
  unfold i2c_requests, i2c_dir, i2c_mot, i2c_request, is_read. rewrite i2c_write, !Z.ldiff_land.
  assert (Hno : Z.land no_mot (Z.lnot DP_AUX_I2C_MOT) = no_mot).
  { apply Z.bits_inj'. intros n Hn. unfold no_mot, u8. rewrite Z.land_spec, testbit_wrap, Z.lnot_spec by lia.
    by destruct (n <? 8), (Z.testbit DP_AUX_I2C_MOT n). }
  assert (Hrd : Z.land DP_AUX_I2C_READ (Z.lnot DP_AUX_I2C_MOT) = DP_AUX_I2C_READ /\
                Z.land DP_AUX_I2C_READ no_mot = DP_AUX_I2C_READ).
  { split; apply Z.bits_inj'; intros n Hn; apply (f_equal (fun x => Z.testbit x n)) in Hrm;
      rewrite Z.land_spec, Z.bits_0 in Hrm; unfold no_mot, u8; rewrite Z.land_spec, ?testbit_wrap, Z.lnot_spec by lia.
    - revert Hrm. by destruct (Z.testbit DP_AUX_I2C_READ n), (Z.testbit DP_AUX_I2C_MOT n).
    - revert Hrm. rewrite <- (wrap_small 8 DP_AUX_I2C_READ Hr) at 1 2 3. rewrite testbit_wrap by lia.
      by destruct (n <? 8), (Z.testbit DP_AUX_I2C_READ n), (Z.testbit DP_AUX_I2C_MOT n). }
  assert (Hself : Z.land DP_AUX_I2C_MOT (Z.lnot DP_AUX_I2C_MOT) = 0 /\ Z.land DP_AUX_I2C_MOT no_mot = 0).
  { split; apply Z.bits_inj'; intros n Hn; unfold no_mot, u8;
      rewrite Z.land_spec, ?testbit_wrap, Z.lnot_spec, Z.bits_0 by lia;
      by destruct (n <? 8), (Z.testbit DP_AUX_I2C_MOT n). }
  destruct Hself as [Hs1 Hs2], Hrd as [Hd1 Hd2].
  destruct (truth (Z.land flags I2C_M_RD)); rewrite <- Z.land_assoc, Hno, !Z.land_lor_distr_l, ?Z.land_0_l.
  - rewrite Hd1, Hd2, Hs1, Hs2, Hrm, Z.land_diag, !Z.lor_0_r, Z.lor_0_l, Z.eqb_refl. unfold truth.
    rewrite (proj2 (Z.eqb_neq _ _) Hm). repeat split; set_solver.
  - rewrite Hs1, Hs2, Z.land_diag, !Z.lor_0_l. unfold truth.
    rewrite (proj2 (Z.eqb_neq _ _) Hm). rewrite (proj2 (Z.eqb_neq 0 DP_AUX_I2C_READ)) by congruence.
    repeat split; set_solver.
Qed.

Lemma no_mot_released request : i2c_mot (Z.land request no_mot) = false.
Proof.
  pose proof mot_u8 as Hu. unfold i2c_mot. replace (Z.land _ _) with 0; [done|].
  apply Z.bits_inj'. intros n Hn. rewrite Z.bits_0, !Z.land_spec. unfold no_mot, u8.
  rewrite testbit_wrap, Z.lnot_spec by lia. by destruct (n <? 8), (Z.testbit DP_AUX_I2C_MOT n), (Z.testbit request n).
Qed.

(** ** The reference: a transfer on the bus *)
Fixpoint bus_bytes (address : Z) (read : bool) (todo : list Z) (s : S) : list Z * S :=
  match todo with
  | [] => ([], s)
  | b :: todo =>
    let '(buf, s) := bus address read true [b] s in
    let '(rest, s) := bus_bytes address read todo s in
    (default b (head buf) :: rest, s)
  end.

Fixpoint bus_msgs (msgs : list i2c_msg) (address : Z) (read : bool) (s : S) : list i2c_msg * Z * bool * S :=
  match msgs with
  | [] => ([], address, read, s)
  | m :: msgs =>
    let '(_, s) := bus (i2c_addr m) (is_read (i2c_flags m)) true [] s in
    let '(buf, s) := bus_bytes (i2c_addr m) (is_read (i2c_flags m)) (i2c_buf m) s in
    let '(rest, address, read, s) := bus_msgs msgs (i2c_addr m) (is_read (i2c_flags m)) s in
    (MkI2c (i2c_addr m) (i2c_flags m) buf :: rest, address, read, s)
  end.

(** For each message a start and its bytes, the bus kept; at the end the bus is
    released by an empty message to the last address. *)
Definition bus_xfer (msgs : list i2c_msg) (s : S) : list i2c_msg * S :=
  let '(msgs', address, read, s) := bus_msgs msgs 0 false s in
  (msgs', (bus address read false [] s).2).

Lemma xfer_bytes_sink address flags todo a :
  i2c_sink ->
  exists buf a', xfer_bytes address (i2c_request flags) todo a = (0, buf, a') /\
    (buf, view (aux_hw a')) = bus_bytes address (is_read flags) todo (view (aux_hw a)).
Proof.
  intros Hs. destruct (i2c_request_decoded flags) as (D1 & D2 & _ & D4 & _).
  revert a. induction todo as [|b todo IH]; intros a; cbn [xfer_bytes bus_bytes]; [by eauto|].
  destruct (i2c_do_msg_sink address (i2c_request flags) [b] 1 a Hs D4 eq_refl) as (buf & a1 & -> & Hb).
  unfold bus_op in Hb. rewrite D1, D2 in Hb.
  rewrite <- Hb. cbn. destruct (IH a1) as (rest & a2 & -> & Hr). rewrite <- Hr. by eauto.
Qed.

Lemma xfer_msgs_sink msgs address request a :
  i2c_sink -> request = 0 \/ (exists flags, request = i2c_request flags) ->
  exists msgs' address' request' a',
    xfer_msgs msgs address request a = (0, msgs', address', request', a') /\
    Z.land request' no_mot ∈ i2c_requests /\
    (msgs', address', i2c_dir (Z.land request' no_mot), view (aux_hw a')) =
    bus_msgs msgs address (i2c_dir (Z.land request no_mot)) (view (aux_hw a)).
Proof.
  intros Hs. revert address request a.
  induction msgs as [|m msgs IH]; intros address request a Hr; cbn [xfer_msgs bus_msgs].
  { exists [], address, request, a. split; [done|]. split; [|done].
    destruct Hr as [-> |[flags ->]]; [rewrite Z.land_0_l; unfold i2c_requests; rewrite i2c_write; set_solver|].
    apply i2c_request_decoded. }
  destruct (i2c_request_decoded (i2c_flags m)) as (D1 & D2 & D3 & D4 & _).
  destruct (i2c_do_msg_sink (i2c_addr m) (i2c_request (i2c_flags m)) [] 0 a Hs D4 eq_refl) as (b0 & a1 & -> & H1).
  unfold bus_op in H1. rewrite D1, D2 in H1. rewrite <- H1. cbn [Z.ltb Z.compare].
  destruct (xfer_bytes_sink (i2c_addr m) (i2c_flags m) (i2c_buf m) a1 Hs) as (buf & a2 & -> & H2).
  rewrite <- H2. cbn [Z.ltb Z.compare].
  destruct (IH (i2c_addr m) (i2c_request (i2c_flags m)) a2) as (ms & ad & rq & a3 & -> & Hq & H3); [by eauto|].
  rewrite D3 in H3. rewrite <- H3. by eauto 8.
Qed.

(** A transfer over a sink that answers in time. *)
Lemma i2c_xfer_on_bus msgs a :
  i2c_sink ->
  exists msgs' a', drm_dp_i2c_xfer msgs a = (Z.of_nat (length msgs), msgs', a') /\
    (msgs', view (aux_hw a')) = bus_xfer msgs (view (aux_hw a)).
Proof.
  intros Hs. unfold drm_dp_i2c_xfer, bus_xfer. fold no_mot.
  assert (Hz : i2c_dir (Z.land 0 no_mot) = false).
  { unfold i2c_dir. destruct i2c_read as (_ & Hr0 & _). by apply Z.eqb_neq, not_eq_sym. }
  destruct (xfer_msgs_sink msgs 0 0 a Hs) as (ms & ad & rq & a1 & -> & Hq & H1); [by left|].
  rewrite Hz in H1. rewrite <- H1. cbn [Z.leb Z.compare].
  destruct (i2c_do_msg_sink ad (Z.land rq no_mot) [] 0 a1 Hs Hq eq_refl) as (b & a2 & -> & H2).
  exists ms, a2. split; [done|]. unfold bus_op in H2. rewrite no_mot_released in H2. by rewrite <- H2.
Qed.

(** *** What goes over the wire *)

(** A transaction on the bus: address, direction, whether the bus is kept, the bytes. *)
Definition packet : Type := Z * bool * bool * list Z.

(** The transactions of a message: the bare address, then a byte each; and the one that
    ends a transfer, the bare address of the last message with the bus released. *)
Definition packets (m : i2c_msg) : list packet :=
  (i2c_addr m, is_read (i2c_flags m), true, []) ::
  ((fun b => (i2c_addr m, is_read (i2c_flags m), true, [b])) <$> i2c_buf m).
Definition stop (msgs : list i2c_msg) : packet :=
  match last msgs with
  | Some m => (i2c_addr m, is_read (i2c_flags m), false, [])
  | None => (0, false, false, [])
  end.

(** The byte that a transaction leaves in its buffer, if it has one. *)
Definition got (buf buf' : list Z) : list Z :=
  match buf with [] => [] | b :: _ => [default b (head buf')] end.

(** Transactions one after the other, with the bytes they leave. *)
Fixpoint on_bus (ps : list packet) (s : S) : list Z * S :=
  match ps with
  | [] => ([], s)
  | (address, read, keep, buf) :: ps =>
    let '(buf', s) := bus address read keep buf s in
    let '(rest, s) := on_bus ps s in
    (got buf buf' ++ rest, s)
  end.

Lemma on_bus_app ps qs s :
  on_bus (ps ++ qs) s = let '(x, s) := on_bus ps s in let '(y, s) := on_bus qs s in (x ++ y, s).
Proof.
  revert s. induction ps as [|[[[ad rd] kp] buf] ps IH]; intros s; cbn [app on_bus]; [by destruct (on_bus qs s)|].
  destruct (bus ad rd kp buf s) as [buf' s1]. rewrite IH. destruct (on_bus ps s1) as [x s2], (on_bus qs s2) as [y s3].
  by rewrite <- app_assoc.
Qed.

Lemma bus_bytes_on_bus address read todo s :
  bus_bytes address read todo s = on_bus ((fun b => (address, read, true, [b])) <$> todo) s /\
  length (bus_bytes address read todo s).1 = length todo.
Proof.
  revert s. induction todo as [|b todo IH]; intros s; cbn [bus_bytes fmap list_fmap on_bus]; [done|].
  destruct (bus address read true [b] s) as [buf s1]. destruct (IH s1) as [<- Hl].
  destruct (bus_bytes address read todo s1) as [rest s2]. cbn in *. by rewrite Hl.
Qed.

(** A message keeps its address, its flags and the length of its buffer. *)
Definition same_msg (m m' : i2c_msg) : Prop :=
  i2c_addr m' = i2c_addr m /\ i2c_flags m' = i2c_flags m /\ length (i2c_buf m') = length (i2c_buf m).

Lemma bus_msgs_on_bus msgs address read s :
  exists msgs' s', bus_msgs msgs address read s =
      (msgs', (default (address, read, false, []) ((fun m => (i2c_addr m, is_read (i2c_flags m), false, [])) <$> last msgs) : packet).1.1.1,
       (default (address, read, false, []) ((fun m => (i2c_addr m, is_read (i2c_flags m), false, [])) <$> last msgs) : packet).1.1.2, s') /\
    (concat (i2c_buf <$> msgs'), s') = on_bus (concat (packets <$> msgs)) s /\ Forall2 same_msg msgs msgs'.
Proof.
  revert address read s. induction msgs as [|m msgs IH]; intros address read s; cbn [bus_msgs]; [by exists [], s|].
  cbn [fmap list_fmap concat]. rewrite on_bus_app. cbn [packets on_bus].
  destruct (bus (i2c_addr m) (is_read (i2c_flags m)) true [] s) as [x s1].
  destruct (bus_bytes_on_bus (i2c_addr m) (is_read (i2c_flags m)) (i2c_buf m) s1) as [<- Hl].
  destruct (bus_bytes _ _ _ s1) as [buf s2].
  destruct (IH (i2c_addr m) (is_read (i2c_flags m)) s2) as (msgs' & s' & -> & Hb & Hf).
  exists (MkI2c (i2c_addr m) (i2c_flags m) buf :: msgs'), s'. split; [by destruct msgs as [|m' msgs]; [|rewrite last_cons_cons; destruct (last (m' :: msgs)) eqn:El; [|apply last_None in El]]|].
  split; [|constructor; [done|done]]. cbn [fmap list_fmap concat i2c_buf]. rewrite <- Hb. done.
Qed.

Lemma bus_xfer_on_bus msgs s :
  (concat (i2c_buf <$> (bus_xfer msgs s).1), (bus_xfer msgs s).2) = on_bus (concat (packets <$> msgs) ++ [stop msgs]) s /\
  Forall2 same_msg msgs (bus_xfer msgs s).1.
Proof.
  unfold bus_xfer. destruct (bus_msgs_on_bus msgs 0 false s) as (msgs' & s' & -> & Hb & Hf). split; [|done].
  rewrite on_bus_app, <- Hb. unfold stop. cbn [fst snd].
  destruct (last msgs) as [m|]; cbn [fmap option_fmap option_map default fst snd on_bus];
    destruct (bus _ _ false [] s') as [y s2]; cbn; by rewrite app_nil_r.
Qed.

(** C20: over a sink that never fails or refuses a transaction and defers each message
    at most six times ([i2c_sink]: an answer is an acknowledgement of all bytes or a
    deferral that changes nothing) an I2C transfer returns the number of messages.
    What it does to the sink is exactly the transactions of its messages in order, for
    each message the bare address and then its bytes one by one with the bus kept,
    and at the end the bare address of the last message with the bus released; the
    messages keep address, flags and length, and their buffers hold the bytes that
    these transactions left. *)
Theorem i2c_xfer_refines_bus msgs a :
  i2c_sink ->
  exists msgs' a', drm_dp_i2c_xfer msgs a = (Z.of_nat (length msgs), msgs', a') /\
    (concat (i2c_buf <$> msgs'), view (aux_hw a')) =
      on_bus (concat (packets <$> msgs) ++ [stop msgs]) (view (aux_hw a)) /\
    Forall2 same_msg msgs msgs'.
Proof.
  intros Hs. destruct (i2c_xfer_on_bus msgs a Hs) as (msgs' & a' & He & Hb). exists msgs', a'. split; [done|].
  pose proof (bus_xfer_on_bus msgs (view (aux_hw a))) as [H1 H2]. rewrite <- Hb in H1, H2. done.
Qed.

End i2c.

(** ** The trace of a transfer

    The hardware with a log of the address, request and size of every attempt. *)
Definition traced (E : Type) : Type := list (Z * Z * Z) * E.

#[local] Instance traced_hw {E : Type} `{!dp_aux_hw E} : dp_aux_hw (traced E) := {|
  transfer address request buf size t :=
    let '(err, reply, buf', e) := transfer address request buf size t.2 in
    (err, reply, buf', (t.1 ++ [(address, request, size)], e));
  usleep_range lo hi t := (t.1, usleep_range lo hi t.2);
  aux_udelay n t := (t.1, aux_udelay n t.2);
  aux_mdelay n t := (t.1, aux_mdelay n t.2);
|}.

Section trace.
Context {E : Type} `{dp_helper_h} `{!dp_helper_h_ok} `{!dp_aux_hw E}.

Definition log (a : drm_dp_aux (traced E)) : list (Z * Z * Z) := (aux_hw a).1.

(** [a'] was reached from [a] by [n] attempts of one message. *)
Definition attempts (address request size : Z) (k : nat) (a a' : drm_dp_aux (traced E)) : Prop :=
  exists n, (n <= k)%nat /\ log a' = log a ++ replicate n (address, request, size).

Lemma attempts_step address request size k a a1 a' :
  log a1 = log a ++ [(address, request, size)] -> attempts address request size k a1 a' ->
  exists n, (1 <= n <= S k)%nat /\ log a' = log a ++ replicate n (address, request, size).
Proof.
  intros E1 (n & Hn & E2). exists (S n). split; [lia|]. by rewrite E2, E1, <- app_assoc.
Qed.

Lemma do_msg_log address request size k buf (a : drm_dp_aux (traced E)) :
  exists n, (Nat.min 1 k <= n <= k)%nat /\
    log (do_msg_loop address request size k buf a).2 = log a ++ replicate n (address, request, size).
Proof.
  revert buf a. induction k as [|k IH]; intros buf a.
  { exists 0%nat. split; [lia|]. by rewrite app_nil_r. }
  cbn [do_msg_loop]. destruct (transfer address request buf size (aux_hw a)) as [[[err reply] buf'] t] eqn:Et.
  assert (Ht : t.1 = log a ++ [(address, request, size)]).
  { unfold transfer, traced_hw in Et.
    destruct (dp_aux_hw0.(transfer) address request buf size (aux_hw a).2) as [[[??]?]?].
    injection Et as _ _ _ <-. done. }
  assert (Hstop : forall (x : Z) (y : list Z) z w, exists n, (Nat.min 1 (S k) <= n <= S k)%nat /\
    log (x, y, MkAux t z w).2 = log a ++ replicate n (address, request, size)).
  { intros. exists 1%nat. split; [lia|]. done. }
  assert (Hgo : forall a1, log a1 = log a ++ [(address, request, size)] ->
    exists n, (Nat.min 1 (S k) <= n <= S k)%nat /\
      log (do_msg_loop address request size k buf' a1).2 = log a ++ replicate n (address, request, size)).
  { intros a1 E1. destruct (IH buf' a1) as (n & Hn & E2). exists (S n). split; [lia|].
    by rewrite E2, E1, <- app_assoc. }
  repeat case_if; first [by apply Hstop | by apply Hgo].
Qed.

(** The log grew by attempts that hold the bus. *)
Definition holding (a a' : drm_dp_aux (traced E)) : Prop :=
  exists body, log a' = log a ++ body /\
    Forall (fun t => Z.land t.1.2 DP_AUX_I2C_MOT = DP_AUX_I2C_MOT) body.

#[local] Instance holding_preorder : PreOrder holding.
Proof.
  split; [intros a; exists []; by rewrite app_nil_r|].
  intros a b c (l1 & E1 & F1) (l2 & E2 & F2). exists (l1 ++ l2).
  split; [by rewrite E2, E1, app_assoc|by apply Forall_app].
Qed.

Lemma i2c_request_mot flags : Z.land (i2c_request flags) DP_AUX_I2C_MOT = DP_AUX_I2C_MOT.
Proof.
  unfold i2c_request. apply Z.bits_inj'. intros n Hn. rewrite Z.land_spec, Z.lor_spec.
  destruct (Z.testbit DP_AUX_I2C_MOT n); [by rewrite orb_true_r|apply andb_false_r].
Qed.

Lemma do_msg_holding address flags size buf a :
  holding a (drm_dp_i2c_do_msg address (i2c_request flags) buf size a).2.
Proof.
  destruct (do_msg_log address (i2c_request flags) size 7 buf a) as (n & _ & E1).
  exists (replicate n (address, i2c_request flags, size)). split; [exact E1|].
  apply Forall_replicate. apply i2c_request_mot.
Qed.

Lemma xfer_bytes_holding address flags todo a :
  holding a (xfer_bytes address (i2c_request flags) todo a).2.
Proof.
  revert a. induction todo as [|b todo IH]; intros a; cbn [xfer_bytes]; [done|].
  pose proof (do_msg_holding address flags 1 [b] a) as H1.
  destruct (drm_dp_i2c_do_msg _ _ _ _ a) as [[err buf] a1]. cbn in H1. case_if; [done|].
  specialize (IH a1). destruct (xfer_bytes _ _ todo a1) as [[err' rest] a2]. by etrans.
Qed.

Lemma xfer_msgs_holding msgs address request a :
  holding a (xfer_msgs msgs address request a).2.
Proof.
  revert address request a. induction msgs as [|m msgs IH]; intros address request a; cbn [xfer_msgs]; [done|].
  pose proof (do_msg_holding (i2c_addr m) (i2c_flags m) 0 [] a) as H1.
  destruct (drm_dp_i2c_do_msg _ _ _ _ a) as [[err b0] a1]. cbn in H1. case_if; [done|].
  pose proof (xfer_bytes_holding (i2c_addr m) (i2c_flags m) (i2c_buf m) a1) as H2.
  destruct (xfer_bytes _ _ _ a1) as [[err2 buf] a2]. cbn in H2. case_if; [by etrans|].
  specialize (IH (i2c_addr m) (i2c_request (i2c_flags m)) a2).
  destruct (xfer_msgs msgs _ _ a2) as [[[[??]?]?] a3]. cbn in IH. etrans; [exact H1|]. by etrans.
Qed.

(** Whatever the sink answers, an I2C transfer ends by releasing the bus: its
    last attempts, one to seven of them, are an address-only message without the
    MOT bit, and all attempts before them keep the bus. *)
Theorem i2c_xfer_releases_bus msgs (a : drm_dp_aux (traced E)) :
  exists body address request n,
    log (drm_dp_i2c_xfer msgs a).2 = log a ++ body ++ replicate n (address, request, 0) /\
    (1 <= n <= 7)%nat /\ Z.land request DP_AUX_I2C_MOT = 0 /\
    Forall (fun t => Z.land t.1.2 DP_AUX_I2C_MOT = DP_AUX_I2C_MOT) body.
Proof.
  unfold drm_dp_i2c_xfer. pose proof (xfer_msgs_holding msgs 0 0 a) as (body & E1 & F1).
  destruct (xfer_msgs msgs 0 0 a) as [[[[err ms] ad] rq] a1]. cbn in E1.
  set (r := Z.land rq _). destruct (do_msg_log ad r 0 7 [] a1) as (n & Hn & E2).
  unfold drm_dp_i2c_do_msg. destruct (do_msg_loop ad r 0 7 [] a1) as [[??] a2]. cbn in E2.
  exists body, ad, r, n. split; [cbn; by rewrite E2, E1, <- app_assoc|]. split; [lia|]. split; [|done].
  pose proof mot_u8 as Hm. unfold r. apply Z.bits_inj'. intros i Hi.
  rewrite !Z.land_spec, Z.bits_0. unfold u8. rewrite testbit_wrap, Z.lnot_spec by lia.
  destruct (Z.ltb_spec i 8).
  - by destruct (Z.testbit DP_AUX_I2C_MOT i); rewrite ?andb_false_r.
  - by rewrite andb_false_r.
Qed.

End trace.

(** ** Link status *)
Section status.
Context `{dp_helper_h} `{!dp_helper_h_ok}.

(** The status bytes of a sink: two lanes a byte, the low lane in the low
    nibble. *)
Definition lane_bytes (l0 l1 l2 l3 : Z) : list Z := [l0 + 16 * l1; l2 + 16 * l3].

Definition lane_of (l0 l1 l2 l3 lane : Z) : Z :=
  nth (Z.to_nat lane) [l0; l1; l2; l3] 0.

Lemma nibble l0 l1 : 0 <= l0 < 16 -> 0 <= l1 < 16 ->
  Z.land (Z.shiftr (l0 + 16 * l1) 0) 15 = l0 /\ Z.land (Z.shiftr (l0 + 16 * l1) 4) 15 = l1.
Proof.
  intros B0 B1. rewrite !(land_mask _ 4) by done. rewrite Z.shiftr_0_r, Z.shiftr_div_pow2 by done.
  change (2 ^ 4) with 16. rewrite (Z.mul_comm 16), Z.mod_add, Z.div_add by lia.
  rewrite (Z.div_small l0), Z.add_0_l, !Z.mod_small by lia. done.
Qed.

Lemma lane_status_of l0 l1 l2 l3 rest lane :
  Forall (fun x => 0 <= x < 16) [l0; l1; l2; l3] -> 0 <= lane < 4 ->
  dp_get_lane_status (lane_bytes l0 l1 l2 l3 ++ rest) lane = Done (lane_of l0 l1 l2 l3 lane).
Proof.
  intros Hl Hlane. rewrite !Forall_cons in Hl. destruct Hl as (B0 & B1 & B2 & B3 & _).
  assert (Hc : lane = 0 \/ lane = 1 \/ lane = 2 \/ lane = 3) by lia.
  destruct (nibble l0 l1 B0 B1) as [N0 N1]. destruct (nibble l2 l3 B2 B3) as [N2 N3].
  unfold dp_get_lane_status, dp_link_status. rewrite !Z.add_simpl_l.
  destruct Hc as [-> |[-> |[-> | ->]]]; cbn -[Z.shiftr Z.land Z.add Z.mul]; mred;
    f_equal; assumption.
Qed.

Lemma lane_drop l0 l1 l2 l3 lane :
  (lane < 4)%nat ->
  drop lane [l0; l1; l2; l3] = lane_of l0 l1 l2 l3 (Z.of_nat lane) :: drop (S lane) [l0; l1; l2; l3].
Proof.
  intros Hn. unfold lane_of. rewrite Nat2Z.id.
  destruct (nth_lookup_or_length [l0; l1; l2; l3] lane 0) as [E|E]; [by apply drop_S|cbn in E; lia].
Qed.

(** The two loops over lanes. *)
Lemma cr_loop_spec l0 l1 l2 l3 rest n lane :
  Forall (fun x => 0 <= x < 16) [l0; l1; l2; l3] -> (lane + n <= 4)%nat ->
  cr_loop (lane_bytes l0 l1 l2 l3 ++ rest) n (Z.of_nat lane) =
    Done (forallb (fun l => negb (Z.land l DP_LANE_CR_DONE =? 0)) (take n (drop lane [l0; l1; l2; l3]))).
Proof.
  intros Hl. revert lane. induction n as [|n IH]; intros lane Hn; cbn [cr_loop]; [by rewrite take_0|].
  rewrite lane_status_of by (done || lia). mred. rewrite (lane_drop l0 l1 l2 l3 lane) by lia.
  cbn [take forallb]. replace (Z.of_nat lane + 1) with (Z.of_nat (S lane)) by lia.
  rewrite IH by lia. by destruct (Z.land (lane_of l0 l1 l2 l3 (Z.of_nat lane)) DP_LANE_CR_DONE =? 0).
Qed.

Lemma eq_loop_spec l0 l1 l2 l3 rest n lane :
  Forall (fun x => 0 <= x < 16) [l0; l1; l2; l3] -> (lane + n <= 4)%nat ->
  eq_loop (lane_bytes l0 l1 l2 l3 ++ rest) n (Z.of_nat lane) =
    Done (forallb (fun l => Z.land l DP_CHANNEL_EQ_BITS =? DP_CHANNEL_EQ_BITS) (take n (drop lane [l0; l1; l2; l3]))).
Proof.
  intros Hl. revert lane. induction n as [|n IH]; intros lane Hn; cbn [eq_loop]; [by rewrite take_0|].
  rewrite lane_status_of by (done || lia). mred. rewrite (lane_drop l0 l1 l2 l3 lane) by lia.
  cbn [take forallb]. replace (Z.of_nat lane + 1) with (Z.of_nat (S lane)) by lia.
  rewrite IH by lia. by destruct (Z.land (lane_of l0 l1 l2 l3 (Z.of_nat lane)) DP_CHANNEL_EQ_BITS =? DP_CHANNEL_EQ_BITS).
Qed.

(** Clock recovery and channel equalisation are reported exactly when the lanes
    in use report them (and, for the equalisation, the lanes are aligned). *)
Theorem link_status_ok l0 l1 l2 l3 align rest lane_count :
  Forall (fun x => 0 <= x < 16) [l0; l1; l2; l3] -> 0 <= lane_count <= 4 ->
  drm_dp_clock_recovery_ok (lane_bytes l0 l1 l2 l3 ++ align :: rest) lane_count =
    Done (forallb (fun l => negb (Z.land l DP_LANE_CR_DONE =? 0))
            (take (Z.to_nat lane_count) [l0; l1; l2; l3])) /\
  drm_dp_channel_eq_ok (lane_bytes l0 l1 l2 l3 ++ align :: rest) lane_count =
    Done (negb (Z.land align DP_INTERLANE_ALIGN_DONE =? 0) &&
          forallb (fun l => Z.land l DP_CHANNEL_EQ_BITS =? DP_CHANNEL_EQ_BITS)
            (take (Z.to_nat lane_count) [l0; l1; l2; l3])).
Proof.
  intros Hl Hn. split; [apply (cr_loop_spec _ _ _ _ _ _ 0%nat); [done|lia]|].
  assert (Ha : dp_link_status (lane_bytes l0 l1 l2 l3 ++ align :: rest) DP_LANE_ALIGN_STATUS_UPDATED =
    Done align) by (unfold dp_link_status; by rewrite align_reg, Z.add_simpl_l).
  unfold drm_dp_channel_eq_ok. rewrite Ha. mred.
  destruct (Z.land align DP_INTERLANE_ALIGN_DONE =? 0); cbn [negb andb]; [done|].
  apply (eq_loop_spec _ _ _ _ _ _ 0%nat); [done|lia].
Qed.

(** The rates survive a round trip through their codes. *)
Lemma bw_code_roundtrip `{dp_link_bw} r :
  NoDup [DP_LINK_BW_1_62; DP_LINK_BW_2_7; DP_LINK_BW_5_4] -> r ∈ [162000; 270000; 540000] ->
  drm_dp_bw_code_to_link_rate (drm_dp_link_rate_to_bw_code r) = r.
Proof.
  intros Hnd Hr. rewrite !NoDup_cons in Hnd. destruct Hnd as (N1 & N2 & _).
  unfold drm_dp_bw_code_to_link_rate. rewrite !elem_of_cons in Hr.
  destruct Hr as [-> |[-> |[-> |Hr]]]; [..|by apply not_elem_of_nil in Hr]; cbn;
    repeat match goal with |- context [?x =? ?y] => destruct (Z.eqb_spec x y) end; try done; set_solver.
Qed.

End status.

(** ** A sample sink

    Its constants are those of the DisplayPort standard; it has memory for native
    writes and an I2C device with a position that a write sets and a read
    advances; it defers every first attempt. *)
#[local] Instance std_consts : dp_helper_h := {|
  DP_AUX_NATIVE_WRITE := 8; DP_AUX_NATIVE_READ := 9;
  DP_AUX_I2C_WRITE := 0; DP_AUX_I2C_READ := 1; DP_AUX_I2C_MOT := 4;
  DP_AUX_NATIVE_REPLY_MASK := 3; DP_AUX_NATIVE_REPLY_ACK := 0;
  DP_AUX_NATIVE_REPLY_NACK := 1; DP_AUX_NATIVE_REPLY_DEFER := 2;
  DP_AUX_I2C_REPLY_MASK := 12; DP_AUX_I2C_REPLY_ACK := 0;
  DP_AUX_I2C_REPLY_NACK := 4; DP_AUX_I2C_REPLY_DEFER := 8;
  I2C_M_RD := 1;
  DP_LANE0_1_STATUS := 514; DP_LANE_ALIGN_STATUS_UPDATED := 516; DP_ADJUST_REQUEST_LANE0_1 := 518;
  DP_LINK_STATUS_SIZE := 6;
  DP_INTERLANE_ALIGN_DONE := 1; DP_CHANNEL_EQ_BITS := 7; DP_LANE_CR_DONE := 1;
  DP_ADJUST_VOLTAGE_SWING_LANE0_SHIFT := 0; DP_ADJUST_VOLTAGE_SWING_LANE1_SHIFT := 4;
  DP_ADJUST_PRE_EMPHASIS_LANE0_SHIFT := 2; DP_ADJUST_PRE_EMPHASIS_LANE1_SHIFT := 6;
  DP_TRAIN_VOLTAGE_SWING_SHIFT := 0; DP_TRAIN_PRE_EMPHASIS_SHIFT := 3;
  DP_TRAINING_AUX_RD_INTERVAL := 14;
  DP_DPCD_REV := 0; DP_MAX_LANE_COUNT_MASK := 31; DP_ENHANCED_FRAME_CAP := 128;
  DP_LINK_CAP_ENHANCED_FRAMING := 1;
  DP_SET_POWER := 1536; DP_SET_POWER_MASK := 3; DP_SET_POWER_D0 := 1;
  DP_LINK_BW_SET := 256; DP_LANE_COUNT_ENHANCED_FRAME_EN := 128;
|}.

#[local] Instance std_consts_ok : dp_helper_h_ok.
Proof. split; try done; repeat (apply NoDup_cons; split; [set_solver|]); apply NoDup_nil_2. Qed.

Definition sink : Type := (Z -> Z) * Z.

Definition sink_bus (address : Z) (read mot : bool) (buf : list Z) (s : sink) : list Z * sink :=
  match read, buf with
  | false, [b] => (buf, (s.1, b))
  | true, [_] => ([s.1 s.2], (s.1, s.2 + 1))
  | _, _ => (buf, s)
  end.

Definition sink_op (address request : Z) (buf : list Z) (s : sink) : list Z * sink :=
  if request =? 8 then
    (buf, ((fun x => if (address <=? x) && (x <? address + Z.of_nat (length buf))
                     then rd buf (x - address) else s.1 x), s.2))
  else bus_op sink_bus address request buf s.

#[local] Instance sink_hw : dp_aux_hw (sink * bool) := {|
  transfer address request buf size t :=
    if t.2 : bool then (0, 2, buf, (t.1, false))
    else (size, 0, (sink_op address request buf t.1).1, ((sink_op address request buf t.1).2, true));
  usleep_range _ _ t := t; aux_udelay _ t := t; aux_mdelay _ t := t;
|}.

Lemma sink_hw_stores : sink_stores (fun t : sink * bool => t.1.1).
Proof.
  split; [|done]. intros a bs [s fresh] err reply buf e' E1. cbn in E1. destruct fresh; simplify_eq; cbn.
  - split; [done|]. split; [done|]. done.
  - split; [done|]. split; [done|]. intros [C|C]; [lia|done].
Qed.

Lemma sink_hw_i2c : i2c_sink sink_bus fst (fun t : sink * bool => if t.2 then 1%nat else 0%nat).
Proof.
  split; [intros [s []]; cbn; lia|]. split; [done|].
  intros ad rq buf [s fresh] err reply buf' e' Hq E1. cbn in E1. destruct fresh; simplify_eq.
  - right. split; [right; left; done|]. split; [done|]. split; [done|]. cbn. lia.
  - left. split; [done|]. cbn. unfold sink_op. destruct (Z.eqb_spec rq 8) as [-> |].
    + exfalso. revert Hq. cbn. set_solver.
    + by destruct (bus_op sink_bus ad rq buf s).
Qed.

Definition sink0 : sink * bool := ((fun x => x + 1, 0), true).

Lemma dpcd_access_decided_witness :
  native_result 8 100 1 32 ([5], sink0) (drm_dp_dpcd_access 8 100 [5] 1 sink0).
Proof. exact (dpcd_access_decided 8 100 [5] 1 sink0). Defined.

#[local] Instance std_mst : mst_h := {|
  DRM_DP_SIDEBAND_TX_QUEUED := 0; DRM_DP_SIDEBAND_TX_START_SEND := 1; DRM_DP_SIDEBAND_TX_SENT := 2;
  DRM_DP_SIDEBAND_TX_RX := 3; DRM_DP_SIDEBAND_TX_TIMEOUT := 4;
  DP_SIDEBAND_MSG_UP_REP_BASE := 4608; DP_SIDEBAND_MSG_DOWN_REQ_BASE := 4096;
  DP_SIDEBAND_MSG_UP_REQ_BASE := 5632; DP_SIDEBAND_MSG_DOWN_REP_BASE := 5120 |}.

Lemma dp_sideband_over_aux_witness :
  exists ret e',
    drm_dp_send_sideband_msg drm_dp_dpcd_write 16 false [7; 8; 9] 3 sink0 = Done (ret, e') /\
    (ret = 0 \/ ret = - EIO) /\ (ret = 0 -> forall i, 0 <= i < 3 -> e'.1.1 (4096 + i) = rd [7; 8; 9] i).
Proof.
  exact (dp_sideband_over_aux (fun t => t.1.1) 16 false [7; 8; 9] sink0 ltac:(lia) sink_hw_stores).
Defined.

(** Reading two bytes from position 3 after setting it. *)
Definition read_two : list i2c_msg := [MkI2c 80 0 [3]; MkI2c 80 1 [0; 0]].

Lemma i2c_xfer_refines_bus_witness :
  exists msgs' a', drm_dp_i2c_xfer read_two (MkAux sink0 0 0) = (2, msgs', a') /\
    concat (i2c_buf <$> msgs') = [3; 4; 5] /\ Forall2 same_msg read_two msgs'.
Proof.
  destruct (i2c_xfer_refines_bus sink_bus fst _ read_two (MkAux sink0 0 0) sink_hw_i2c)
    as (msgs' & a' & He & Hb & Hf). exists msgs', a'. split; [exact He|]. split; [|exact Hf].
  vm_compute in Hb. by injection Hb.
Defined.

(** What the bus gives. *)
Example read_two_bytes : (bus_xfer sink_bus read_two sink0.1).1 = [MkI2c 80 0 [3]; MkI2c 80 1 [4; 5]].
Proof. reflexivity. Qed.

Lemma i2c_xfer_releases_bus_witness :
  exists body address request n,
    log (drm_dp_i2c_xfer read_two (MkAux ([], sink0) 0 0)).2 =
      [] ++ body ++ replicate n (address, request, 0) /\
    (1 <= n <= 7)%nat /\ Z.land request 4 = 0 /\ Forall (fun t : Z * Z * Z => Z.land t.1.2 4 = 4) body.
Proof. exact (i2c_xfer_releases_bus read_two (MkAux ([], sink0) 0 0)). Defined.

Lemma link_status_ok_witness :
  drm_dp_clock_recovery_ok (lane_bytes 7 7 7 7 ++ [1]) 4 =
    Done (forallb (fun l => negb (Z.land l 1 =? 0)) (take (Z.to_nat 4) [7; 7; 7; 7])) /\
  drm_dp_channel_eq_ok (lane_bytes 7 7 7 7 ++ [1]) 4 =
    Done (negb (Z.land 1 1 =? 0) &&
          forallb (fun l => Z.land l 7 =? 7) (take (Z.to_nat 4) [7; 7; 7; 7])).
Proof.
  refine (link_status_ok (H := std_consts) 7 7 7 7 1 [] 4 _ _); [|lia].
  repeat (apply Forall_cons; split; [lia|]). apply Forall_nil; done.
Defined.
