(* ===== verification/TtmLock.v ===== *)
(** * TTM's reader/writer lock (ttm/ttm_lock.c)

    A lock with readers, a writer, and two locks that keep everybody out while the
    virtual terminal is switched away or the machine sleeps.  Each attempt to take
    it runs under the spin lock and is one atomic step; a thread that waits
    ([wait_event]) repeats its attempt until it succeeds, and an interruptible
    wait may be broken off by a signal after an attempt that failed.  Threads and
    their interleavings are a step relation over the lock and the threads' states.

    The signal that [kill_takers] sends to a thread is the thread's business and
    not modelled; the base object of the VT lock is, as the success of its
    creation and the moment it is removed. *)

From S2P Require Import Prelude.

Definition TTM_WRITE_LOCK_PENDING := 1.
Definition TTM_VT_LOCK_PENDING := 2.
Definition TTM_SUSPEND_LOCK_PENDING := 4.
Definition TTM_VT_LOCK := 8.
Definition TTM_SUSPEND_LOCK := 16.

Record ttm_lock := MkLock { rw : Z; flags : Z; kill_takers : bool }.

Definition set_rw (v : Z) (l : ttm_lock) : ttm_lock := MkLock v (flags l) (kill_takers l).
(** [lock->flags |= f] and [lock->flags &= ~f] *)
Definition raise (f : Z) (l : ttm_lock) : ttm_lock := MkLock (rw l) (Z.lor (flags l) f) (kill_takers l).
Definition lower (f : Z) (l : ttm_lock) : ttm_lock :=
  MkLock (rw l) (Z.land (flags l) (Z.lnot f)) (kill_takers l).

Definition ttm_lock_init : ttm_lock := MkLock 0 0 false.

(** ** The critical sections

    An attempt returns whether the lock was taken. *)
Definition ttm_read_unlock (l : ttm_lock) : ttm_lock := set_rw (s32 (rw l - 1)) l.

Definition __ttm_read_lock (l : ttm_lock) : bool * ttm_lock :=
  if kill_takers l then (false, l)
  else if (0 <=? rw l) && (flags l =? 0) then (true, set_rw (s32 (rw l + 1)) l)
  else (false, l).

(** The result is whether the wait is over, and [*locked]. *)
Definition __ttm_read_trylock (l : ttm_lock) : bool * bool * ttm_lock :=
  if kill_takers l then (false, false, l)
  else if (0 <=? rw l) && (flags l =? 0) then (true, true, set_rw (s32 (rw l + 1)) l)
  else if flags l =? 0 then (true, false, l)
  else (false, false, l).

Definition ttm_write_unlock (l : ttm_lock) : ttm_lock := set_rw 0 l.

Definition __ttm_write_lock (l : ttm_lock) : bool * ttm_lock :=
  if kill_takers l then (false, l)
  else if (rw l =? 0) && (Z.land (flags l) (Z.lnot TTM_WRITE_LOCK_PENDING) =? 0)
  then (true, lower TTM_WRITE_LOCK_PENDING (set_rw (-1) l))
  else (false, raise TTM_WRITE_LOCK_PENDING l).

Definition __ttm_vt_unlock (l : ttm_lock) : Z * ttm_lock :=
  (if Z.land (flags l) TTM_VT_LOCK =? 0 then - EINVAL else 0, lower TTM_VT_LOCK l).

(** The destructor of the lock's base object. *)
Definition ttm_vt_lock_remove (l : ttm_lock) : outcome ttm_lock :=
  let '(ret, l) := __ttm_vt_unlock l in
  _ ← BUG_ON (negb (ret =? 0)); Ok l.

Definition __ttm_vt_lock (l : ttm_lock) : bool * ttm_lock :=
  if rw l =? 0 then (true, raise TTM_VT_LOCK (lower TTM_VT_LOCK_PENDING l))
  else (false, raise TTM_VT_LOCK_PENDING l).

Definition ttm_suspend_unlock (l : ttm_lock) : ttm_lock := lower TTM_SUSPEND_LOCK l.

Definition __ttm_suspend_lock (l : ttm_lock) : bool * ttm_lock :=
  if rw l =? 0 then (true, raise TTM_SUSPEND_LOCK (lower TTM_SUSPEND_LOCK_PENDING l))
  else (false, raise TTM_SUSPEND_LOCK_PENDING l).

(** ** Threads *)
Inductive lock_op := ORead | OTryRead | OWrite | OVt | OSuspend.

#[export] Instance lock_op_eq : EqDecision lock_op.
Proof. solve_decision. Defined.

(** A thread that uses the lock: it waits in one of the [ttm_*_lock] functions
    (interruptibly or not), has left the wait because of a signal, or has got the
    lock. *)
Inductive thread :=
| Waiting (o : lock_op) (interruptible : bool)
| Leaving (o : lock_op)
| Holding (o : lock_op).

#[export] Instance thread_eq : EqDecision thread.
Proof. solve_decision. Defined.

(** The wait of each locking function, one attempt at a time: [None] to wait on, or
    whether the thread holds the lock when it goes on. *)
Definition waits (r : bool * ttm_lock) : option bool * ttm_lock := (if r.1 then Some true else None, r.2).

Definition ttm_read_lock (interruptible : bool) (l : ttm_lock) : option bool * ttm_lock :=
  waits (__ttm_read_lock l).

Definition ttm_read_trylock (interruptible : bool) (l : ttm_lock) : option bool * ttm_lock :=
  let '(over, locked, l) := __ttm_read_trylock l in (if over then Some locked else None, l).

(** As the source has it, without interruption this waits for the read lock. *)
Definition ttm_write_lock (interruptible : bool) (l : ttm_lock) : option bool * ttm_lock :=
  if interruptible then waits (__ttm_write_lock l) else waits (__ttm_read_lock l).

Definition ttm_vt_lock (interruptible : bool) (l : ttm_lock) : option bool * ttm_lock :=
  waits (__ttm_vt_lock l).

Definition ttm_suspend_lock (l : ttm_lock) : option bool * ttm_lock := waits (__ttm_suspend_lock l).

Definition attempt (o : lock_op) (i : bool) (l : ttm_lock) : option bool * ttm_lock :=
  match o with
  | ORead => ttm_read_lock i l
  | OTryRead => ttm_read_trylock i l
  | OWrite => ttm_write_lock i l
  | OVt => ttm_vt_lock i l
  | OSuspend => ttm_suspend_lock l
  end.

(** What an interrupted wait does before it returns the error. *)
Definition interrupted (o : lock_op) (l : ttm_lock) : ttm_lock :=
  match o with
  | OWrite => lower TTM_WRITE_LOCK_PENDING l
  | OVt => lower TTM_VT_LOCK_PENDING l
  | _ => l
  end.

Definition release (o : lock_op) (l : ttm_lock) : outcome ttm_lock :=
  match o with
  | ORead | OTryRead => Ok (ttm_read_unlock l)
  | OWrite => Ok (ttm_write_unlock l)
  | OVt => ttm_vt_lock_remove l
  | OSuspend => Ok (ttm_suspend_unlock l)
  end.

Notation threads := (gmap nat thread).

(** [ttm_suspend_lock] has no interruptible form. *)
Definition callable (o : lock_op) (i : bool) : Prop := o = OSuspend -> i = false.

(** [allowed] restricts which calls the threads make.  An interruptible wait looks
    for a signal after a failed attempt only; the flag is lowered in a second
    critical section. *)
Inductive lock_step (allowed : threads -> lock_op -> bool -> Prop)
    : ttm_lock * threads -> ttm_lock * threads -> Prop :=
| step_call l ts t o i :
    ts !! t = None -> callable o i -> allowed ts o i ->
    lock_step allowed (l, ts) (l, <[t := Waiting o i]> ts)
| step_wait l ts t o i l' :
    ts !! t = Some (Waiting o i) -> attempt o i l = (None, l') ->
    lock_step allowed (l, ts) (l', ts)
| step_take l ts t o i l' :
    ts !! t = Some (Waiting o i) -> attempt o i l = (Some true, l') ->
    lock_step allowed (l, ts) (l', <[t := Holding o]> ts)
| step_busy l ts t o i l' :
    ts !! t = Some (Waiting o i) -> attempt o i l = (Some false, l') ->
    lock_step allowed (l, ts) (l', delete t ts)
| step_signal l ts t o l' :
    ts !! t = Some (Waiting o true) -> attempt o true l = (None, l') ->
    lock_step allowed (l, ts) (l', <[t := Leaving o]> ts)
| step_leave l ts t o :
    ts !! t = Some (Leaving o) ->
    lock_step allowed (l, ts) (interrupted o l, delete t ts)
(* ttm_vt_lock: the base object cannot be created *)
| step_vt_fails l ts t :
    ts !! t = Some (Holding OVt) ->
    lock_step allowed (l, ts) ((__ttm_vt_unlock l).2, delete t ts)
| step_release l ts t o l' :
    ts !! t = Some (Holding o) -> release o l = Ok l' ->
    lock_step allowed (l, ts) (l', delete t ts)
| step_kill l ts b :
    lock_step allowed (l, ts) (MkLock (rw l) (flags l) b, ts).

Definition lock_reach (allowed : threads -> lock_op -> bool -> Prop) : ttm_lock * threads -> Prop :=
  rtc (lock_step allowed) (ttm_lock_init, ∅).
