(* ===== verification/TtmLockProps.v ===== *)
(** * Theorems on TTM's lock

    An invariant of the lock and its threads by induction on the steps: the counter
    [rw] is the number of readers or minus the number of writers, a flag that is
    raised has a thread behind it.  From it: exclusion, no [BUG_ON], and progress.
    Then what the uninterruptible form of [ttm_write_lock] does. *)

From S2P Require Import Prelude Counting TtmLock.

(** ** Classes of threads *)
Definition reading (th : thread) : bool :=
  match th with Holding ORead | Holding OTryRead => true | _ => false end.
Definition op_eqb (o o' : lock_op) : bool :=
  match o, o' with
  | ORead, ORead | OTryRead, OTryRead | OWrite, OWrite | OVt, OVt | OSuspend, OSuspend => true
  | _, _ => false
  end.
Definition holds (o : lock_op) (th : thread) : bool :=
  match th with Holding o' => op_eqb o' o | _ => false end.
Definition wants (o : lock_op) (th : thread) : bool :=
  match th with Waiting o' _ | Leaving o' => op_eqb o' o | _ => false end.
(** Threads that [orderly] callers never create. *)
Definition stray (th : thread) : bool :=
  match th with Waiting OWrite false | Waiting OSuspend true | Leaving OSuspend => true | _ => false end.

(** There is room for one more reader as long as one thread does not read. *)
Lemma reading_le (ts : threads) t th :
  ts !! t = Some th -> count reading ts - b2z (reading th) <= count (fun _ => true) ts - 1.
Proof.
  intros E. pose proof (count_le_all reading (delete t ts)) as H.
  by rewrite !count_delete, E in H.
Qed.

(** ** The flags as five bits *)
Definition fl (w vp sp v s : bool) : Z :=
  b2z w + 2 * b2z vp + 4 * b2z sp + 8 * b2z v + 16 * b2z s.

(** The lock with given bits; a lock whose flags are in range is one. *)
Definition lk (r : Z) (w vp sp v s k : bool) : ttm_lock := MkLock r (fl w vp sp v s) k.

(** What the critical sections do, on the bits. *)
Section bits.
Context (r : Z) (w vp sp v s k : bool).
Notation l := (lk r w vp sp v s k).
Notation free := (negb (w || vp || sp || v || s)).

Lemma read_bits : __ttm_read_lock l =
  if negb k && (0 <=? r) && free then (true, lk (s32 (r + 1)) w vp sp v s k) else (false, l).
Proof. unfold __ttm_read_lock; cbn [lk rw flags kill_takers].
  destruct k, (0 <=? r), w, vp, sp, v, s; reflexivity. Qed.

Lemma tryread_bits : __ttm_read_trylock l =
  if negb k && (0 <=? r) && free then (true, true, lk (s32 (r + 1)) w vp sp v s k)
  else (negb k && free, false, l).
Proof. unfold __ttm_read_trylock; cbn [lk rw flags kill_takers].
  destruct k, (0 <=? r), w, vp, sp, v, s; reflexivity. Qed.

Lemma write_bits : __ttm_write_lock l =
  if k then (false, l)
  else if (r =? 0) && negb (vp || sp || v || s) then (true, lk (-1) false vp sp v s k)
  else (false, lk r true vp sp v s k).
Proof. unfold __ttm_write_lock; cbn [lk rw flags kill_takers].
  destruct k, (r =? 0), w, vp, sp, v, s; reflexivity. Qed.

Lemma vt_bits : __ttm_vt_lock l =
  if r =? 0 then (true, lk r w false sp true s k) else (false, lk r w true sp v s k).
Proof. unfold __ttm_vt_lock; cbn [lk rw flags kill_takers].
  destruct (r =? 0), w, vp, sp, v, s; reflexivity. Qed.

Lemma suspend_bits : __ttm_suspend_lock l =
  if r =? 0 then (true, lk r w vp false v true k) else (false, lk r w vp true v s k).
Proof. unfold __ttm_suspend_lock; cbn [lk rw flags kill_takers].
  destruct (r =? 0), w, vp, sp, v, s; reflexivity. Qed.

Lemma vt_unlock_bits : __ttm_vt_unlock l =
  (if v then 0 else - EINVAL, lk r w vp sp false s k).
Proof. destruct w, vp, sp, v, s; reflexivity. Qed.

Lemma suspend_unlock_bits : ttm_suspend_unlock l = lk r w vp sp v false k.
Proof. destruct w, vp, sp, v, s; reflexivity. Qed.

Lemma write_interrupted_bits : interrupted OWrite l = lk r false vp sp v s k.
Proof. destruct w, vp, sp, v, s; reflexivity. Qed.

Lemma vt_interrupted_bits : interrupted OVt l = lk r w false sp v s k.
Proof. destruct w, vp, sp, v, s; reflexivity. Qed.

End bits.

(** ** The invariant *)

(** Callers that keep to what the lock can bear: writers wait interruptibly, one
    thread at a time switches the terminal and one suspends. *)
Definition orderly (ts : threads) (o : lock_op) (i : bool) : Prop :=
  (o = OWrite -> i = true) /\
  (o = OVt -> count (holds OVt) ts = 0 /\ count (wants OVt) ts = 0) /\
  (o = OSuspend -> count (holds OSuspend) ts = 0 /\ count (wants OSuspend) ts = 0) /\
  count (fun _ => true) ts < 2 ^ 31 - 1.

Record lock_inv (l : ttm_lock) (ts : threads) (w vp sp v s : bool) : Prop := {
  inv_flags : flags l = fl w vp sp v s;
  inv_rw : rw l = count reading ts - count (holds OWrite) ts;
  inv_writer : count (holds OWrite) ts = 0 \/ count (holds OWrite) ts = 1 /\ count reading ts = 0;
  inv_vt : count (holds OVt) ts = b2z v /\ b2z v + count (wants OVt) ts <= 1;
  inv_suspend : count (holds OSuspend) ts = b2z s /\ b2z s + count (wants OSuspend) ts <= 1;
  inv_out : v = true \/ s = true -> count reading ts = 0 /\ count (holds OWrite) ts = 0;
  inv_wp : w = true -> 0 < count (wants OWrite) ts;
  inv_vp : vp = true -> 0 < count (wants OVt) ts;
  inv_sp : sp = true -> 0 < count (wants OSuspend) ts;
  inv_stray : count stray ts = 0;
  inv_size : count (fun _ => true) ts < 2 ^ 31 }.

Lemma lock_inv_lk r f k ts w vp sp v s :
  lock_inv (MkLock r f k) ts w vp sp v s -> MkLock r f k = lk r w vp sp v s k.
Proof. intros H. pose proof (inv_flags _ _ _ _ _ _ _ H). cbn in *. by subst. Qed.

(** The counts of the invariant after the thread [t] of [E : ts !! t = Some _]
    changed state, and the arithmetic that is left. *)
Ltac counts ts t E :=
  pose proof (count_ge reading ts t _ E); pose proof (count_nonneg reading ts);
  pose proof (count_ge (holds OWrite) ts t _ E); pose proof (count_ge (holds OVt) ts t _ E);
  pose proof (count_ge (holds OSuspend) ts t _ E); pose proof (count_ge (wants OWrite) ts t _ E);
  pose proof (count_ge (wants OVt) ts t _ E); pose proof (count_ge (wants OSuspend) ts t _ E);
  pose proof (count_ge stray ts t _ E); pose proof (count_nonneg (wants OVt) ts);
  pose proof (count_nonneg (wants OSuspend) ts); pose proof (count_nonneg (wants OWrite) ts);
  pose proof (count_nonneg (holds OWrite) ts); pose proof (reading_le ts t _ E).

Ltac settle :=
  match goal with H : lock_inv _ ?ts ?w ?vp ?sp ?v ?s, E : ?ts !! ?t = _ |- _ =>
    counts ts t E; destruct H as [Hf Hrw Hw Hv Hs Ho Hwp Hvp Hsp Hst Hsz];
    destruct w, vp, sp, v, s; cbn [orb negb andb b2z] in *; try congruence; b2p; try congruence;
    repeat match goal with
    | H : true = true -> _ |- _ => specialize (H eq_refl)
    | H : false = true -> _ |- _ => clear H
    | H : _ \/ _ -> _ |- _ => first [specialize (H (or_introl eq_refl)) | specialize (H (or_intror eq_refl)) | clear H]
    end;
    split; rewrite ?count_insert, ?count_delete, ?E
  end;
  cbn [rw flags kill_takers set_rw lk weight reading holds wants stray op_eqb b2z] in *;
  try reflexivity; try congruence; try lia; try (intros; lia);
  try (rewrite s32_small by (unfold is_s32; lia); lia);
  try (intros [? | ?]; first [discriminate | lia]).

Section steps.
Context (l : ttm_lock) (ts : threads) (w vp sp v s : bool) (t : nat).
Hypothesis HI : lock_inv l ts w vp sp v s.

Lemma inv_call o i :
  ts !! t = None -> callable o i -> orderly ts o i ->
  lock_inv l (<[t := Waiting o i]> ts) w vp sp v s.
Proof.
  intros E Hc (H1 & H2 & H3 & H4).
  assert (Hs' : stray (Waiting o i) = false)
    by (destruct o, i; try reflexivity; [by specialize (H1 eq_refl) | by specialize (Hc eq_refl)]).
  clear Hc H1. destruct HI as [Hf Hrw Hw Hv Hs Ho Hwp Hvp Hsp Hst Hsz].
  split; rewrite ?count_insert, ?E, ?Hs'; cbn [weight reading holds wants b2z]; try lia;
    try (intros Hx; first [specialize (Ho Hx) | specialize (Hwp Hx) | specialize (Hvp Hx) | specialize (Hsp Hx)]);
    destruct o; cbn [op_eqb b2z]; try lia;
    try (specialize (H2 eq_refl); lia); try (specialize (H3 eq_refl); lia).
Qed.

End steps.

Definition good (l : ttm_lock) (ts : threads) : Prop := exists w vp sp v s, lock_inv l ts w vp sp v s.

Ltac good := match goal with |- good (lk _ ?w ?vp ?sp ?v ?s _) _ => exists w, vp, sp, v, s end.

(** Case analysis on an innermost test. *)
Ltac branch :=
  match goal with |- context [if ?b then _ else _] =>
    lazymatch b with context [if _ then _ else _] => fail | _ => destruct b eqn:? end
  end; cbn [fst snd].

Ltac attempts :=
  unfold attempt, ttm_read_lock, ttm_read_trylock, ttm_write_lock, ttm_vt_lock, ttm_suspend_lock, waits.

Section attempts.
Context (r : Z) (w vp sp v s k : bool) (ts : threads) (t : nat) (i : bool).
Notation l := (lk r w vp sp v s k).
Hypothesis HI : lock_inv l ts w vp sp v s.

(** The state of the threads after an attempt. *)
Definition after (o : lock_op) (res : option bool) : threads :=
  match res with
  | Some true => <[t := Holding o]> ts
  | Some false => delete t ts
  | None => ts
  end.

Lemma inv_read res l' :
  ts !! t = Some (Waiting ORead i) -> attempt ORead i l = (res, l') -> good l' (after ORead res).
Proof.
  intros E. attempts. rewrite read_bits. branch; intros [= <- <-]; cbn [after]; good; settle.
Qed.

Lemma inv_tryread res l' :
  ts !! t = Some (Waiting OTryRead i) -> attempt OTryRead i l = (res, l') -> good l' (after OTryRead res).
Proof.
  intros E. attempts. rewrite tryread_bits. repeat branch; intros [= <- <-]; cbn [after]; good; settle.
Qed.

Lemma inv_write res l' :
  ts !! t = Some (Waiting OWrite i) -> attempt OWrite i l = (res, l') -> good l' (after OWrite res).
Proof.
  intros E. pose proof (inv_stray _ _ _ _ _ _ _ HI). pose proof (count_ge stray ts t _ E).
  destruct i; [|cbn in *; lia]. attempts. rewrite write_bits.
  repeat branch; intros [= <- <-]; cbn [after]; good; settle.
Qed.

Lemma inv_vt_take res l' :
  ts !! t = Some (Waiting OVt i) -> attempt OVt i l = (res, l') -> good l' (after OVt res).
Proof.
  intros E. attempts. rewrite vt_bits. branch; intros [= <- <-]; cbn [after]; good; settle.
Qed.

Lemma inv_suspend_take res l' :
  ts !! t = Some (Waiting OSuspend i) -> attempt OSuspend i l = (res, l') -> good l' (after OSuspend res).
Proof.
  intros E. pose proof (inv_stray _ _ _ _ _ _ _ HI). pose proof (count_ge stray ts t _ E).
  destruct i; [cbn in *; lia|]. attempts. rewrite suspend_bits. branch; intros [= <- <-]; cbn [after]; good; settle.
Qed.

Lemma inv_attempt o res l' :
  ts !! t = Some (Waiting o i) -> attempt o i l = (res, l') -> good l' (after o res).
Proof. destruct o; [apply inv_read | apply inv_tryread | apply inv_write | apply inv_vt_take | apply inv_suspend_take]. Qed.

(** A holder gives the lock back, and hits no [BUG_ON]. *)
Lemma inv_release o :
  ts !! t = Some (Holding o) -> exists l', release o l = Ok l' /\ good l' (delete t ts).
Proof.
  intros E. destruct o; cbn [release]; eexists.
  1-2: split; [reflexivity|]; exists w, vp, sp, v, s; unfold ttm_read_unlock; settle.
  - split; [reflexivity|]. exists w, vp, sp, v, s. unfold ttm_write_unlock. settle.
  - unfold ttm_vt_lock_remove. rewrite vt_unlock_bits. assert (v = true) as ->.
    { destruct HI as [_ _ _ Hv]. pose proof (count_ge (holds OVt) ts t _ E). destruct v; cbn in *; [done|lia]. }
    split; [reflexivity|]. good. settle.
  - split; [by rewrite suspend_unlock_bits|]. good. settle.
Qed.

Lemma inv_vt_fails : ts !! t = Some (Holding OVt) -> good (__ttm_vt_unlock l).2 (delete t ts).
Proof. intros E. rewrite vt_unlock_bits. cbn [snd]. good. settle. Qed.

Lemma inv_signal o l' :
  ts !! t = Some (Waiting o true) -> good l' ts -> good l' (<[t := Leaving o]> ts).
Proof.
  intros E (w' & vp' & sp' & v' & s' & H'). clear HI. exists w', vp', sp', v', s'.
  destruct o; settle.
Qed.

Lemma inv_leave o : ts !! t = Some (Leaving o) -> good (interrupted o l) (delete t ts).
Proof.
  intros E. destruct o; rewrite ?write_interrupted_bits, ?vt_interrupted_bits; cbn [interrupted]; good; settle.
Qed.

End attempts.

Lemma orderly_good l ts : lock_reach orderly (l, ts) -> good l ts.
Proof.
  intros H. change (let '(l, ts) := (l, ts) in good l ts). revert H. generalize (l, ts). clear l ts.
  apply (rtc_ind_r (fun x : ttm_lock * threads => let '(l, ts) := x in good l ts)); [|intros x y _ Hs IH].
  - exists false, false, false, false, false. split; rewrite ?count_0 by done; cbn; lia || done.
  - destruct x as [l ts], y as [l2 ts2]. destruct IH as (w & vp & sp & v & s & HI).
    destruct l as [r f k]. pose proof (lock_inv_lk _ _ _ _ _ _ _ _ _ HI) as El. rewrite El in *. clear El.
    inversion Hs; subst.
    + exists w, vp, sp, v, s. by apply inv_call.
    + by apply (inv_attempt _ _ _ _ _ _ _ _ t i HI o None).
    + by apply (inv_attempt _ _ _ _ _ _ _ _ t i HI o (Some true)).
    + by apply (inv_attempt _ _ _ _ _ _ _ _ t i HI o (Some false)).
    + eapply inv_signal; [done.. |]. by apply (inv_attempt _ _ _ _ _ _ _ _ t true HI o None).
    + by eapply inv_leave.
    + by eapply inv_vt_fails.
    + edestruct inv_release as (l' & E1 & E2); [done..|]. congruence.
    + exists w, vp, sp, v, s. destruct HI. by split.
Qed.


(** ** A counter at -1 without a writer *)
Lemma dead_attempt o i l res l' :
  rw l = -1 -> attempt o i l = (res, l') -> rw l' = -1 /\ res <> Some true.
Proof.
  intros Hr. destruct l as [r f k]. cbn in Hr. subst r.
  destruct o; attempts; cbn; destruct k, i; cbn; try (intros [= <- <-]; cbn; split; done);
    destruct (f =? 0); intros [= <- <-]; cbn; split; done.
Qed.

(** Any call at any time. *)
Definition anyhow (_ : threads) (_ : lock_op) (_ : bool) : Prop := True.

Definition dead (x : ttm_lock * threads) : Prop :=
  rw x.1 = -1 /\ forall t o, x.2 !! t <> Some (Holding o).

Lemma dead_lock_stays l ts :
  rtc (lock_step anyhow) (MkLock (-1) 0 false, ∅) (l, ts) ->
  rw l = -1 /\ forall t o, ts !! t <> Some (Holding o).
Proof.
  intros H. change (dead (l, ts)). revert H. generalize (l, ts). clear l ts.
  apply (rtc_ind_r dead); [split; [done|]; intros t o; cbn; by rewrite lookup_empty|].
  intros [l ts] [l2 ts2] _ Hs [Hr Hh]. cbn in Hr, Hh.
  assert (Hd : forall t, dead (l2, delete t ts) <-> rw l2 = -1).
  { intros t. unfold dead. cbn. split; [tauto|]. split; [done|]. intros t' o [_ E]%lookup_delete_Some. by eapply Hh. }
  assert (Hi : forall t th, (forall o, th <> Holding o) -> rw l2 = -1 -> dead (l2, <[t := th]> ts)).
  { intros t th Hth Hr2. split; [done|]. cbn. intros t' o [[_ E] | [_ E]]%lookup_insert_Some; [by eapply Hth | by eapply Hh]. }
  inversion Hs; subst; try (exfalso; by eapply Hh);
    try match goal with H : attempt _ _ _ = _ |- _ => apply dead_attempt in H as [? ?]; [|done] end;
    rewrite ?Hd; auto; try done; try (by split); destruct o; done.
Qed.

(** ** Theorems *)

(** A run of the lock used below: a reader takes it, a writer waits. *)
Definition one_reader : threads := {[ 1%nat := Holding ORead ]}.
Definition reader_and_waiter : threads := <[2%nat := Waiting OWrite true]> one_reader.

Lemma reader_and_waiter_reached : lock_reach orderly (MkLock 1 1 false, reader_and_waiter).
Proof.
  eapply rtc_l; [apply (step_call _ _ _ 1%nat ORead true); [done..|repeat split; done]|].
  eapply rtc_l; [eapply (step_take _ _ _ 1%nat ORead true); reflexivity|].
  eapply rtc_l; [apply (step_call _ _ _ 2%nat OWrite true); [done..|repeat split; done]|].
  apply rtc_once. eapply (step_wait _ _ _ 2%nat OWrite true); reflexivity.
Qed.

(** C15: in every state that orderly callers reach, a thread with the write lock is
    the only thread with a lock, a thread with the VT or the suspend lock shares it
    with no reader and no writer, [rw] is the number of readers or -1, and giving a
    lock back trips no [BUG_ON]. *)
Theorem ttm_lock_exclusion l ts :
  lock_reach orderly (l, ts) ->
  (forall t t' o, ts !! t = Some (Holding OWrite) -> ts !! t' = Some (Holding o) -> t' = t) /\
  (forall t t' o o', ts !! t = Some (Holding o) -> o = OVt \/ o = OSuspend ->
     ts !! t' = Some (Holding o') -> o' = OVt \/ o' = OSuspend) /\
  rw l = (if bool_decide (count (holds OWrite) ts = 0) then count reading ts else -1) /\
  (forall t o, ts !! t = Some (Holding o) -> exists l', release o l = Ok l').
Proof.
  intros (w & vp & sp & v & s & HI)%orderly_good. destruct l as [r f k].
  pose proof (lock_inv_lk _ _ _ _ _ _ _ _ _ HI) as El. rewrite El in *. clear El.
  split; [|split; [|split]].
  - intros t t' o E E'. destruct (decide (t' = t)) as [|Hne]; [done|exfalso].
    destruct HI as [_ _ Hw [Hv _] [Hs _] Ho _ _ _ _ _].
    pose proof (count_ge2 (holds OWrite) ts _ _ _ _ Hne E' E) as H. pose proof (count_ge (holds OWrite) ts _ _ E) as H0.
    pose proof (count_ge reading ts _ _ E') as H1. pose proof (count_ge (holds OVt) ts _ _ E').
    pose proof (count_ge (holds OSuspend) ts _ _ E').
    destruct o, v, s; cbn in *; try lia; try (specialize (Ho (or_introl eq_refl)); lia); specialize (Ho (or_intror eq_refl)); lia.
  - intros t t' o o' E Hvs E'. destruct HI as [_ _ _ [Hv _] [Hs _] Ho _ _ _ _ _].
    assert (Hb : v = true \/ s = true).
    { pose proof (count_ge (holds OVt) ts _ _ E). pose proof (count_ge (holds OSuspend) ts _ _ E).
      destruct Hvs as [-> | ->], v, s; cbn in *; auto; lia. }
    specialize (Ho Hb). pose proof (count_ge reading ts _ _ E'). pose proof (count_ge (holds OWrite) ts _ _ E').
    destruct o'; cbn in *; auto; lia.
  - destruct HI as [_ Hrw Hw _ _ _ _ _ _ _ _]. case_bool_decide; lia.
  - intros t o E. edestruct inv_release as (l' & El & _); [done..|]. eauto.
Qed.

Lemma ttm_lock_exclusion_witness :
  rw (MkLock 1 1 false) = 1 /\ (exists l', release ORead (MkLock 1 1 false) = Ok l').
Proof.
  destruct (ttm_lock_exclusion (MkLock 1 1 false) reader_and_waiter reader_and_waiter_reached)
    as (_ & _ & H & H').
  split; [exact H | apply (H' 1%nat); reflexivity].
Defined.

Definition idle (th : thread) : bool := match th with Waiting _ _ => true | _ => false end.

(** C38: the lock never blocks everybody: let callers be orderly (writers wait
    interruptibly, one thread at a time switches the terminal, one at a time
    suspends, and there are fewer threads than the counter has values) and
    [kill_takers] not be set; in every state that they reach where threads wait and
    none holds the lock or is on its way out, some waiting thread's next attempt
    takes the lock. *)
Theorem ttm_lock_progress l ts :
  lock_reach orderly (l, ts) -> kill_takers l = false ->
  ts <> ∅ -> (forall t th, ts !! t = Some th -> idle th = true) ->
  exists t o i l', ts !! t = Some (Waiting o i) /\ attempt o i l = (Some true, l').
Proof.
  intros (w & vp & sp & v & s & HI)%orderly_good Hk Hne Hidle. destruct l as [r f k]. cbn in Hk.
  pose proof (lock_inv_lk _ _ _ _ _ _ _ _ _ HI) as El. rewrite El in *. clear El. subst k.
  destruct HI as [_ Hrw _ [Hv _] [Hs _] _ Hwp Hvp Hsp Hst _]. cbn [rw lk] in Hrw.
  assert (Hnot : forall P, (forall o i, P (Waiting o i) = false) -> count P ts = 0).
  { intros P HP. apply count_0. intros t th E. specialize (Hidle _ _ E). by destruct th. }
  rewrite (Hnot reading), (Hnot (holds OWrite)) in Hrw by done.
  rewrite Hnot in Hv, Hs by done. assert (v = false) as -> by (by destruct v).
  assert (s = false) as -> by (by destruct s). assert (r = 0) as -> by lia.
  assert (Hw : forall o, 0 < count (wants o) ts -> exists t i, ts !! t = Some (Waiting o i)).
  { intros o (t & th & E & Hth)%count_ex. specialize (Hidle _ _ E).
    destruct th as [o' i| |]; try done. exists t, i. by destruct o, o'. }
  destruct vp; [destruct (Hw OVt) as (t & i & E); [auto|]; exists t, OVt, i; attempts; rewrite vt_bits; eauto|].
  destruct sp; [destruct (Hw OSuspend) as (t & i & E); [auto|]; exists t, OSuspend, i; attempts; rewrite suspend_bits; eauto|].
  assert (Hst' : forall t o, ts !! t = Some (Waiting o false) -> o <> OWrite).
  { intros t o E ->. pose proof (count_ge stray ts t _ E). cbn in *. lia. }
  destruct w.
  - destruct (Hw OWrite) as (t & i & E); [auto|]. exists t, OWrite, i.
    destruct i; [|by apply Hst' in E]. attempts. rewrite write_bits. eauto.
  - apply map_choose in Hne as (t & th & E). pose proof (Hidle _ _ E). destruct th as [o i| |]; try done.
    exists t, o, i. destruct o; attempts;
      rewrite ?read_bits, ?tryread_bits, ?write_bits, ?vt_bits, ?suspend_bits; cbn; eauto.
    destruct i; [eauto|by apply Hst' in E].
Qed.

Lemma ttm_lock_progress_witness :
  let ts : threads := {[ 2%nat := Waiting OWrite true ]} in
  exists t o i l', ts !! t = Some (Waiting o i) /\ attempt o i (MkLock 0 1 false) = (Some true, l').
Proof.
  apply (ttm_lock_progress (MkLock 0 1 false)); [|reflexivity|done|].
  - eapply rtc_r; [exact reader_and_waiter_reached|].
    refine (step_release _ (MkLock 1 1 false) reader_and_waiter 1%nat ORead _ _ _); reflexivity.
  - intros t th [<- <-]%lookup_singleton_Some. reflexivity.
Defined.

(** [ttm_write_lock] without interruption waits for the read lock: a writer
    and a reader hold the lock together, and when the writer and then the reader
    give it back the counter is left at -1 with nobody holding it; from then on
    no thread gets any lock, whatever is called. *)
Theorem ttm_write_lock_uninterruptible :
  lock_reach anyhow (MkLock 2 0 false, <[2%nat := Holding OWrite]> one_reader) /\
  lock_reach anyhow (MkLock (-1) 0 false, ∅) /\
  forall l ts, rtc (lock_step anyhow) (MkLock (-1) 0 false, ∅) (l, ts) ->
    rw l = -1 /\ forall t o, ts !! t <> Some (Holding o).
Proof.
  assert (H1 : lock_reach anyhow (MkLock 2 0 false, <[2%nat := Holding OWrite]> one_reader)).
  { eapply rtc_l; [apply (step_call _ _ _ 1%nat ORead true); done|].
    eapply rtc_l; [eapply (step_take _ _ _ 1%nat ORead true); reflexivity|].
    rewrite insert_insert_eq. change (<[1%nat := Holding ORead]> ∅) with one_reader.
    eapply rtc_l; [apply (step_call _ _ _ 2%nat OWrite false); done|].
    rewrite <-(insert_insert_eq one_reader 2%nat (Holding OWrite) (Waiting OWrite false)).
    apply rtc_once. eapply (step_take _ _ _ 2%nat OWrite false); reflexivity. }
  split; [done|]. split.
  - unfold lock_reach; etrans; [exact H1|].
    eapply rtc_l; [eapply (step_release _ _ _ 2%nat OWrite); reflexivity|].
    rewrite delete_insert_id by done. change ∅ with (delete 1%nat one_reader).
    apply rtc_once. eapply (step_release _ _ one_reader 1%nat ORead); reflexivity.
  - apply dead_lock_stays.
Qed.
