(* ===== verification/DrmEdid.v ===== *)
(** * Fetching and checking EDIDs (drm_edid.c)

    The validation of EDID blocks (header score and repair, checksum, version), the
    read of one block over DDC, and [drm_do_get_edid], which collects the base
    block and its valid extensions in one buffer.

    Memory is a list of bytes; an access outside it is [Oops].  The constants and
    the layout of [struct edid] come from include/drm/drm_edid.h, which is not in
    the repository: they are a class.  The I2C core's [i2c_transfer] and the block
    reader are parameters.  Debugging output is left out, but not the counters that
    depend on whether it is on. *)

From S2P Require Import Prelude DpHelper.

Definition ENXIO : Z := 6.

(** Offsets of the fields of [struct edid] and its sizes. *)
Class drm_edid_h := {
  EDID_LENGTH : Z; DDC_ADDR : Z;
  edid_version : Z;
  edid_extensions : Z;
}.

(** ** Memory *)

(** [buf[i]] *)
Definition byte (buf : list Z) (i : Z) : run Z :=
  if i <? 0 then Oops else deref (buf !! Z.to_nat i).

(** [buf[i] = v] *)
Definition poke (i v : Z) (buf : list Z) : run (list Z) :=
  if (0 <=? i) && (i <? Z.of_nat (length buf)) then Done (<[Z.to_nat i := v]> buf) else Oops.

(** The [n] bytes from [buf + off], and their replacement. *)
Definition slice (off n : Z) (buf : list Z) : run (list Z) :=
  if (0 <=? off) && (0 <=? n) && (off + n <=? Z.of_nat (length buf))
  then Done (take (Z.to_nat n) (drop (Z.to_nat off) buf)) else Oops.

Definition put (off : Z) (bytes buf : list Z) : run (list Z) :=
  if (0 <=? off) && (off + Z.of_nat (length bytes) <=? Z.of_nat (length buf))
  then Done (take (Z.to_nat off) buf ++ bytes ++ drop (Z.to_nat off + length bytes) buf) else Oops.

Section edid.
Context `{drm_edid_h}.

(** ** Validation *)
Definition edid_header : list Z := [0; 255; 255; 255; 255; 255; 255; 0].

Fixpoint score_loop (raw_edid header : list Z) (i score : Z) : run Z :=
  match header with
  | [] => Done score
  | h :: header =>
    b ← byte raw_edid i;
    score_loop raw_edid header (i + 1) (if b =? h then score + 1 else score)
  end.

Definition drm_edid_header_is_valid (raw_edid : list Z) : run Z := score_loop raw_edid edid_header 0 0.

Fixpoint csum_loop (raw_edid : list Z) (n : nat) (i csum : Z) : run Z :=
  match n with
  | O => Done csum
  | S n => b ← byte raw_edid i; csum_loop raw_edid n (i + 1) (u8 (csum + b))
  end.

Definition drm_edid_block_checksum (raw_edid : list Z) : run Z :=
  csum_loop raw_edid (Z.to_nat EDID_LENGTH) 0 0.

Fixpoint zero_loop (in_edid : list Z) (n : nat) (i : Z) : run bool :=
  match n with
  | O => Done true
  | S n => b ← byte in_edid i; if b =? 0 then zero_loop in_edid n (i + 1) else Done false
  end.

Definition drm_edid_is_zero (in_edid : list Z) (length : Z) : run bool :=
  zero_loop in_edid (Z.to_nat length) 0.

(** The checks after the header: the checksum, which CEA blocks may fail, and the
    version of a base block. *)
Definition block_body_valid (raw_edid : list Z) : run bool :=
  csum ← drm_edid_block_checksum raw_edid;
  tag ← byte raw_edid 0;
  if truth csum && negb (tag =? 2) then Done false
  else if tag =? 0 then
    version ← byte raw_edid edid_version;
    Done (version =? 1)
  else Done true.

(** [edid_fixup] is the module's parameter, taken as 6 when it is out of range. *)
Definition drm_edid_block_valid (edid_fixup : Z) (raw_edid : list Z) (block : Z) : run (bool * list Z) :=
  let edid_fixup := if (8 <? edid_fixup) || (edid_fixup <? 0) then 6 else edid_fixup in
  if block =? 0 then
    score ← drm_edid_header_is_valid raw_edid;
    if score =? 8 then
      ok ← block_body_valid raw_edid; Done (ok, raw_edid)
    else if edid_fixup <=? score then
      raw_edid ← put 0 edid_header raw_edid;
      ok ← block_body_valid raw_edid; Done (ok, raw_edid)
    else Done (false, raw_edid)
  else
    ok ← block_body_valid raw_edid; Done (ok, raw_edid).

(** [drm_edid_block_valid(buf + off, ...)] *)
Definition block_valid_at (edid_fixup : Z) (buf : list Z) (off block : Z) : run (bool * list Z) :=
  blk ← slice off EDID_LENGTH buf;
  '(ok, blk) ← drm_edid_block_valid edid_fixup blk block;
  buf ← put off blk buf;
  Done (ok, buf).

Fixpoint valid_loop (edid_fixup : Z) (n : nat) (i : Z) (raw : list Z) : run (bool * list Z) :=
  match n with
  | O => Done (true, raw)
  | S n =>
    '(ok, raw) ← block_valid_at edid_fixup raw (i * EDID_LENGTH) i;
    if ok : bool then valid_loop edid_fixup n (i + 1) raw else Done (false, raw)
  end.

(** The header repair does not reach [extensions], so the bound of the loop is
    read once. *)
Definition drm_edid_is_valid (edid_fixup : Z) (raw : list Z) : run (bool * list Z) :=
  ext ← byte raw edid_extensions;
  valid_loop edid_fixup (S (Z.to_nat ext)) 0 raw.

(** ** DDC *)
Section ddc.
Context {E : Type} `{dp_helper_h}.
(** [i2c_transfer] of the I2C core: the result and the messages with the bytes
    read. *)
Context (i2c_transfer : list i2c_msg -> E -> Z * list i2c_msg * E).

Definition DDC_SEGMENT_ADDR : Z := 48.

Definition ddc_msgs (segment start : Z) (buf : list Z) : list i2c_msg :=
  [MkI2c DDC_SEGMENT_ADDR 0 [segment]; MkI2c DDC_ADDR 0 [start]; MkI2c DDC_ADDR I2C_M_RD buf].

(** The buffer of the last message after the transfer. *)
Definition last_buf (msgs : list i2c_msg) (buf : list Z) : list Z :=
  match last msgs with Some m => i2c_buf m | None => buf end.

Fixpoint ddc_loop (segment start xfers : Z) (retries : nat) (ret : Z) (buf : list Z) (e : E)
    : Z * list Z * E :=
  match retries with
  | O => (ret, buf, e)
  | S retries =>
    let '(ret, msgs, e) :=
      i2c_transfer (drop (Z.to_nat (3 - xfers)) (ddc_msgs segment start buf)) e in
    let buf := last_buf msgs buf in
    if (ret =? - ENXIO) || (ret =? xfers) then (ret, buf, e)
    else ddc_loop segment start xfers retries ret buf e
  end.

Definition drm_do_probe_ddc_edid (buf : list Z) (block : Z) (e : E) : Z * list Z * E :=
  let start := u8 (block * EDID_LENGTH) in
  let segment := u8 (Z.shiftr block 1) in
  let xfers := if truth segment then 3 else 2 in
  let '(ret, buf, e) := ddc_loop segment start xfers 5 0 buf e in
  (if ret =? xfers then 0 else -1, buf, e).

(** [out] is what the byte on the stack holds. *)
Definition drm_probe_ddc (out : Z) (e : E) : bool * E :=
  let '(ret, _, e) := drm_do_probe_ddc_edid [out] 0 e in (ret =? 0, e).

End ddc.

(** ** Fetching *)

(** The counters of the connector. *)
Record edid_conn := MkConn { null_edid_counter : Z; bad_edid_counter : Z }.

Definition bad_edid (c : edid_conn) : edid_conn :=
  MkConn (null_edid_counter c) (u32 (bad_edid_counter c + 1)).
Definition null_edid (c : edid_conn) : edid_conn :=
  MkConn (s32 (null_edid_counter c + 1)) (bad_edid_counter c).

Section fetch.
Context {E : Type}.
(** The reader of a block: its result and the buffer. *)
Context (get_edid_block : list Z -> Z -> E -> Z * list Z * E).
Context (edid_fixup : Z).
(** What fresh memory holds. *)
Context (garbage : Z -> Z).

Definition fresh (from to : Z) : list Z := garbage <$> seqZ from (to - from).

Inductive base_result := BaseOut | BaseCarp | BaseOk (block : list Z).

(** At most four tries for the base block. *)
Fixpoint base_loop (tries : nat) (i : Z) (block : list Z) (c : edid_conn) (e : E)
    : run (base_result * edid_conn * E) :=
  match tries with
  | O => Done (BaseCarp, c, e)
  | S tries =>
    let '(ret, block, e) := get_edid_block block 0 e in
    if truth ret then Done (BaseOut, c, e)
    else
      '(ok, block) ← drm_edid_block_valid edid_fixup block 0;
      if ok : bool then Done (BaseOk block, c, e)
      else if i =? 0 then
        zero ← drm_edid_is_zero block EDID_LENGTH;
        if zero : bool then Done (BaseCarp, null_edid c, e)
        else base_loop tries (i + 1) block c e
      else base_loop tries (i + 1) block c e
  end.

(** At most four tries for extension [j] at [off]: [None] when the reader fails,
    else whether a try was valid. *)
Fixpoint ext_tries (tries : nat) (off j : Z) (buf : list Z) (e : E) : run (option bool * list Z * E) :=
  match tries with
  | O => Done (Some false, buf, e)
  | S tries =>
    blk ← slice off EDID_LENGTH buf;
    let '(ret, blk, e) := get_edid_block blk j e in
    buf ← put off blk buf;
    if truth ret then Done (None, buf, e)
    else
      '(ok, buf) ← block_valid_at edid_fixup buf off j;
      if ok : bool then Done (Some true, buf, e) else ext_tries tries off j buf e
  end.

Fixpoint ext_loop (n : nat) (j valid_extensions : Z) (print_bad_edid : bool) (buf : list Z)
    (c : edid_conn) (e : E) : run (option (Z * list Z) * edid_conn * E) :=
  match n with
  | O => Done (Some (valid_extensions, buf), c, e)
  | S n =>
    '(res, buf, e) ← ext_tries 4 ((valid_extensions + 1) * EDID_LENGTH) j buf e;
    match res with
    | None => Done (None, c, e)
    | Some true => ext_loop n (j + 1) (valid_extensions + 1) print_bad_edid buf c e
    | Some false =>
      ext_loop n (j + 1) valid_extensions print_bad_edid buf (if print_bad_edid then bad_edid c else c) e
    end
  end.

(** [block[EDID_LENGTH-1] += block[0x7e] - valid_extensions;
    block[0x7e] = valid_extensions;] and the buffer is shortened *)
Definition drop_invalid (valid_extensions : Z) (buf : list Z) : run (list Z) :=
  sum ← byte buf (EDID_LENGTH - 1);
  ext ← byte buf 126;
  buf ← poke (EDID_LENGTH - 1) (u8 (sum + (ext - valid_extensions))) buf;
  buf ← poke 126 (u8 valid_extensions) buf;
  Done (take (Z.to_nat ((valid_extensions + 1) * EDID_LENGTH)) buf).

(** [mem] tells which of the three allocations succeed; [drm_debug] whether mode
    setting is debugged. *)
Definition drm_do_get_edid (drm_debug : bool) (mem : bool * bool * bool) (c : edid_conn) (e : E)
    : run (option (list Z) * edid_conn * E) :=
  let '(mem0, mem1, mem2) := mem in
  let print_bad_edid := (bad_edid_counter c =? 0) || drm_debug in
  if negb mem0 then Done (None, c, e)
  else
    '(res, c, e) ← base_loop 4 0 (fresh 0 EDID_LENGTH) c e;
    match res with
    | BaseOut => Done (None, c, e)
    | BaseCarp => Done (None, bad_edid c, e)
    | BaseOk block =>
      ext ← byte block 126;
      if ext =? 0 then Done (Some block, c, e)
      else if negb mem1 then Done (None, c, e)
      else
        let block := block ++ fresh EDID_LENGTH ((ext + 1) * EDID_LENGTH) in
        '(res, c, e) ← ext_loop (Z.to_nat ext) 1 0 print_bad_edid block c e;
        match res with
        | None => Done (None, c, e)
        | Some (valid_extensions, block) =>
          if valid_extensions =? ext then Done (Some block, c, e)
          else
            block ← drop_invalid valid_extensions block;
            if mem2 : bool then Done (Some block, c, e) else Done (None, c, e)
        end
    end.

End fetch.

Definition drm_edid_duplicate (edid : list Z) (mem : bool) : run (option (list Z)) :=
  ext ← byte edid edid_extensions;
  copy ← slice 0 ((ext + 1) * EDID_LENGTH) edid;
  Done (if mem then Some copy else None).

End edid.
