(* ===== verification/DrmEdidProps.v ===== *)
(** * Fetching EDIDs: theorems

    What the checks accept, that a fetched EDID consists of the accepted blocks
    and is accepted as a whole, and the read of a block over DisplayPort's AUX
    channel. *)

From S2P Require Import Prelude DpSideband DpHelper DpHelperProps DrmEdid.

(** The documented layout. *)
Class drm_edid_h_ok `{drm_edid_h} : Prop := {
  edid_length : EDID_LENGTH = 128;
  version_at : edid_version = 18;
  extensions_at : edid_extensions = 126;
  ddc_address : DDC_ADDR <> DDC_SEGMENT_ADDR;
}.

(** ** Memory *)
Lemma byte_rd buf i : 0 <= i < Z.of_nat (length buf) -> byte buf i = Done (rd buf i).
Proof.
  intros Hi. unfold byte, rd, deref. destruct (Z.ltb_spec i 0); [lia|].
  destruct (lookup_lt_is_Some_2 buf (Z.to_nat i)) as [x ->]; [lia|done].
Qed.

Lemma rd_app_first (a b : list Z) i : 0 <= i < Z.of_nat (length a) -> rd (a ++ b) i = rd a i.
Proof. intros. unfold rd. by rewrite lookup_app_l by lia. Qed.

Lemma slice_mid a b c :
  slice (Z.of_nat (length a)) (Z.of_nat (length b)) (a ++ b ++ c) = Done b.
Proof.
  unfold slice. rewrite !length_app.
  repeat match goal with |- context [?x <=? ?y] => destruct (Z.leb_spec x y); [|lia] end; cbn [andb].
  by rewrite !Nat2Z.id, drop_app_length, take_app_length.
Qed.

Lemma put_mid a b b' c : length b = length b' ->
  put (Z.of_nat (length a)) b' (a ++ b ++ c) = Done (a ++ b' ++ c).
Proof.
  intros Hl. unfold put. rewrite !length_app.
  repeat match goal with |- context [?x <=? ?y] => destruct (Z.leb_spec x y); [|lia] end; cbn [andb].
  assert (Hd : drop (length a + length b') (a ++ b ++ c) = c).
  { rewrite app_assoc. apply drop_app_length'. by rewrite length_app, Hl. }
  by rewrite !Nat2Z.id, take_app_length, Hd.
Qed.

(** ** Checksums *)
Definition zsum (l : list Z) : Z := foldr Z.add 0 l.

Lemma zsum_app a b : zsum (a ++ b) = zsum a + zsum b.
Proof. unfold zsum. induction a as [|x a IH]; cbn [app foldr]; [done|]. rewrite IH. lia. Qed.

Lemma zsum_insert l i v x : l !! i = Some x -> zsum (<[i := v]> l) = zsum l + v - x.
Proof.
  unfold zsum. revert i. induction l as [|y l IH]; intros [|i] E1; cbn in E1; simplify_eq; cbn; [lia|].
  rewrite IH by done. lia.
Qed.

Lemma csum_loop_spec pre rest csum :
  is_u8 csum -> csum_loop (pre ++ rest) (length rest) (Z.of_nat (length pre)) csum =
    Done (u8 (csum + zsum rest)).
Proof.
  revert pre csum. induction rest as [|b rest IH]; intros pre csum Hc; cbn [csum_loop length zsum foldr].
  { by rewrite Z.add_0_r, u8_small. }
  rewrite byte_rd by (rewrite length_app; cbn; lia). mred.
  assert (Er : rd (pre ++ b :: rest) (Z.of_nat (length pre)) = b)
    by (unfold rd; by rewrite Nat2Z.id, list_lookup_middle).
  rewrite Er. specialize (IH (pre ++ [b]) (u8 (csum + b)) (u8_bounds _)).
  rewrite <- app_assoc in IH. cbn [app] in IH.
  replace (Z.of_nat (length pre) + 1) with (Z.of_nat (length (pre ++ [b]))) by (rewrite length_app; cbn; lia).
  rewrite IH. f_equal. unfold u8, wrap. rewrite Zplus_mod_idemp_l. f_equal. unfold zsum. lia.
Qed.

(** The number of leading bytes that agree with a header. *)
Definition agree (l header : list Z) : Z := zsum (zip_with (fun a b => b2z (a =? b)) l header).

Lemma agree_bound l header : 0 <= agree l header <= Z.of_nat (length header).
Proof.
  unfold agree. revert l. induction header as [|h header IH]; intros [|x l]; cbn; try lia.
  specialize (IH l). unfold zsum in IH. destruct (x =? h); cbn [b2z]; lia.
Qed.

Lemma agree_all l header :
  (length header <= length l)%nat ->
  agree l header = Z.of_nat (length header) <-> take (length header) l = header.
Proof.
  unfold agree. revert l. induction header as [|h header IH]; intros [|x l] Hl; cbn in *; [done..|lia|].
  pose proof (agree_bound l header) as Hb. unfold agree in Hb. specialize (IH l ltac:(lia)).
  unfold zsum in *. destruct (Z.eqb_spec x h) as [-> |Hne]; cbn [b2z].
  - rewrite (inj_iff (cons h)), <- IH. lia.
  - split; [lia|]. intros C. congruence.
Qed.

Lemma score_loop_spec pre rest header sc :
  (length header <= length rest)%nat ->
  score_loop (pre ++ rest) header (Z.of_nat (length pre)) sc = Done (sc + agree rest header).
Proof.
  unfold agree. revert pre rest sc. induction header as [|h header IH]; intros pre [|b rest] sc Hl; cbn in Hl |- *; try lia.
  1-2: f_equal; lia.
  rewrite byte_rd by (rewrite length_app; cbn; lia). mred.
  assert (Er : rd (pre ++ b :: rest) (Z.of_nat (length pre)) = b)
    by (unfold rd; by rewrite Nat2Z.id, list_lookup_middle).
  rewrite Er. specialize (IH (pre ++ [b]) rest). rewrite <- app_assoc in IH. cbn [app] in IH.
  replace (Z.of_nat (length pre) + 1) with (Z.of_nat (length (pre ++ [b]))) by (rewrite length_app; cbn; lia).
  rewrite IH by lia. f_equal. unfold zsum. destruct (b =? h); cbn [b2z]; lia.
Qed.

Lemma length_concat_blocks (l : list (list Z)) :
  Forall (fun b => length b = 128%nat) l -> length (concat l) = (128 * length l)%nat.
Proof. induction 1 as [|b l Hb _ IH]; cbn; [done|]. rewrite length_app. lia. Qed.

Section edid.
Context `{drm_edid_h} `{!drm_edid_h_ok} (fixup : Z).

Lemma checksum_spec raw :
  length raw = 128%nat -> drm_edid_block_checksum raw = Done (u8 (zsum raw)).
Proof.
  intros Hl. unfold drm_edid_block_checksum. rewrite edid_length. change (Z.to_nat 128) with 128%nat.
  rewrite <- Hl. apply (csum_loop_spec [] raw 0). unfold is_u8; lia.
Qed.

(** ** What the checks accept *)

(** A block whose bytes add up to 0 (or a CEA block), of version 1 if it is a base
    block. *)
Definition body_ok (raw : list Z) : bool :=
  ((u8 (zsum raw) =? 0) || (rd raw 0 =? 2)) && (negb (rd raw 0 =? 0) || (rd raw 18 =? 1)).

Lemma block_body_valid_spec raw :
  length raw = 128%nat -> block_body_valid raw = Done (body_ok raw).
Proof.
  intros Hl. unfold block_body_valid. rewrite checksum_spec by done. mred.
  rewrite version_at, !byte_rd by lia. mred. unfold body_ok, truth.
  destruct (u8 (zsum raw) =? 0), (rd raw 0 =? 2) eqn:E2, (rd raw 0 =? 0) eqn:E0; cbn; try done; b2p; lia.
Qed.

Definition has_header (raw : list Z) : Prop := take 8 raw = edid_header.

#[export] Instance has_header_dec raw : Decision (has_header raw).
Proof. unfold has_header. apply _. Defined.

Lemma header_score raw :
  length raw = 128%nat -> drm_edid_header_is_valid raw = Done (agree raw edid_header).
Proof. intros Hl. apply (score_loop_spec [] raw edid_header 0). rewrite Hl. cbn. lia. Qed.

Lemma header_perfect raw : length raw = 128%nat -> agree raw edid_header = 8 <-> has_header raw.
Proof. intros Hl. apply (agree_all raw edid_header). rewrite Hl. cbn. lia. Qed.

(** The block after the check: a base block with few wrong header bytes gets the
    right ones. *)
Definition limit : Z := if (8 <? fixup) || (fixup <? 0) then 6 else fixup.
Definition repaired (raw : list Z) (block : Z) : list Z :=
  if (block =? 0) && (limit <=? agree raw edid_header) then edid_header ++ drop 8 raw else raw.
Definition accepted (raw : list Z) (block : Z) : bool :=
  (negb (block =? 0) || (limit <=? agree raw edid_header)) && body_ok (repaired raw block).

Lemma limit_range : 0 <= limit <= 8.
Proof. unfold limit. case_if; b2p; [lia|]. lia. Qed.

Lemma repaired_length raw block : length raw = 128%nat -> length (repaired raw block) = 128%nat.
Proof. intros Hl. unfold repaired. case_if; [|done]. rewrite length_app, length_drop, Hl. done. Qed.

Lemma block_valid_spec raw block :
  length raw = 128%nat ->
  drm_edid_block_valid fixup raw block = Done (accepted raw block, repaired raw block).
Proof.
  intros Hl. unfold drm_edid_block_valid, accepted, repaired. fold limit.
  pose proof limit_range. destruct (Z.eqb_spec block 0) as [-> |]; cbn [negb orb andb].
  2: { rewrite block_body_valid_spec by done. done. }
  rewrite header_score by done. mred.
  assert (Hput : put 0 edid_header raw = Done (edid_header ++ drop 8 raw)).
  { rewrite <- (take_drop 8 raw) at 1. apply (put_mid [] (take 8 raw) edid_header (drop 8 raw)).
    rewrite length_take, Hl. done. }
  assert (Hl' : length (edid_header ++ drop 8 raw) = 128%nat) by (rewrite length_app, length_drop, Hl; done).
  destruct (Z.eqb_spec (agree raw edid_header) 8) as [E8|E8].
  - rewrite E8. destruct (Z.leb_spec limit 8); [|lia]. cbn [andb].
    apply header_perfect in E8; [|done]. unfold has_header in E8.
    rewrite <- E8, take_drop, block_body_valid_spec by done. done.
  - destruct (Z.leb_spec limit (agree raw edid_header)); cbn [andb]; [|done].
    rewrite Hput. mred. rewrite block_body_valid_spec by done. done.
Qed.

(** A block with the right header that passes the other checks stays as it is. *)
Lemma accepted_header blk :
  length blk = 128%nat -> has_header blk -> body_ok blk = true ->
  accepted blk 0 = true /\ repaired blk 0 = blk.
Proof.
  intros Hl Hh Hb. assert (Hr : repaired blk 0 = blk).
  { unfold repaired. cbn [Z.eqb andb]. case_if; [|done]. unfold has_header in Hh. by rewrite <- Hh, take_drop. }
  split; [|done]. unfold accepted. rewrite Hr, Hb. apply header_perfect in Hh as ->; [|done].
  pose proof limit_range. cbn. destruct (Z.leb_spec limit 8); [done|lia].
Qed.

Lemma accepted_repaired b :
  length b = 128%nat -> accepted b 0 = true ->
  has_header (repaired b 0) /\ body_ok (repaired b 0) = true /\ drop 8 (repaired b 0) = drop 8 b.
Proof.
  intros Hl [Ha Hbody]%andb_prop. split; [|split; [done|]].
  all: unfold repaired; cbn in Ha; cbn [Z.eqb andb]; by rewrite Ha.
Qed.

(** ** A block inside a buffer *)
Lemma slice_block pre blk post off :
  length blk = 128%nat -> off = Z.of_nat (length pre) ->
  slice off EDID_LENGTH (pre ++ blk ++ post) = Done blk.
Proof.
  intros Hl ->. rewrite edid_length. change 128 with (Z.of_nat 128). rewrite <- Hl. apply slice_mid.
Qed.

Lemma block_valid_at_spec pre blk post block off :
  length blk = 128%nat -> off = Z.of_nat (length pre) ->
  block_valid_at fixup (pre ++ blk ++ post) off block =
    Done (accepted blk block, pre ++ repaired blk block ++ post).
Proof.
  intros Hl Hoff. unfold block_valid_at. rewrite slice_block by done. mred. rewrite block_valid_spec by done. mred.
  rewrite Hoff, put_mid; [done|]. by rewrite repaired_length.
Qed.

(** An EDID of accepted blocks is valid, and the check leaves it as it is. *)
Lemma valid_loop_spec pre blks :
  Forall (fun b => length b = 128%nat) blks ->
  (forall k b, blks !! k = Some b ->
     accepted b (Z.of_nat (pre + k)) = true /\ repaired b (Z.of_nat (pre + k)) = b) ->
  forall front, length front = (128 * pre)%nat ->
  valid_loop fixup (length blks) (Z.of_nat pre) (front ++ concat blks) = Done (true, front ++ concat blks).
Proof.
  revert pre. induction blks as [|b blks IH]; intros pre Hl Hok front Hf; [done|].
  apply Forall_cons in Hl as [Hb Hl]. cbn [length valid_loop concat].
  rewrite block_valid_at_spec by (rewrite ?edid_length; lia). mred.
  destruct (Hok 0%nat b eq_refl) as [H1 H2]. rewrite Nat.add_0_r in H1, H2. rewrite H1, H2.
  specialize (IH (S pre) Hl) as IH'.
  replace (Z.of_nat pre + 1) with (Z.of_nat (S pre)) by lia. rewrite app_assoc. apply IH; [done| |].
  - intros k b' E1. specialize (Hok (S k) b' E1). by replace (S pre + k)%nat with (pre + S k)%nat by lia.
  - rewrite length_app. lia.
Qed.

(** ** Fetching *)

(** The extensions [js] were read, [vs] of them accepted: each block came from the
    reader ([Q j b]) and was valid, and one that is missing was invalid. *)
Inductive picked (Q : Z -> list Z -> Prop) : list Z -> list (list Z) -> Prop :=
| picked_nil : picked Q [] []
| picked_take j b js vs :
    Q j b -> body_ok b = true -> picked Q js vs -> picked Q (j :: js) (b :: vs)
| picked_skip j b js vs :
    Q j b -> body_ok b = false -> picked Q js vs -> picked Q (j :: js) vs.

(** What the reader owes: it fills the buffer it is given. *)
Definition block_data (Q : Z -> list Z -> Prop) (j : Z) (b : list Z) : Prop :=
  length b = 128%nat /\ Forall is_u8 b /\ Q j b.

Definition reads {E : Type} (I : E -> Prop) (Q : Z -> list Z -> Prop)
    (get : list Z -> Z -> E -> Z * list Z * E) : Prop :=
  forall buf j e ret buf' e', I e -> 0 <= j < 256 -> length buf = 128%nat ->
    get buf j e = (ret, buf', e') ->
    I e' /\ length buf' = 128%nat /\ (ret = 0 -> block_data Q j buf').

Definition never_fails {E : Type} (I : E -> Prop) (get : list Z -> Z -> E -> Z * list Z * E) : Prop :=
  forall buf j e, I e -> 0 <= j < 256 -> length buf = 128%nat -> (get buf j e).1.1 = 0.

Lemma accepted_ext blk j : j <> 0 -> accepted blk j = body_ok blk /\ repaired blk j = blk.
Proof.
  intros Hj. unfold accepted, repaired. by rewrite (proj2 (Z.eqb_neq _ _) Hj).
Qed.

Lemma is_zero_total raw : length raw = 128%nat -> exists z, drm_edid_is_zero raw EDID_LENGTH = Done z.
Proof.
  intros Hl. unfold drm_edid_is_zero. rewrite edid_length.
  assert (Hg : forall n i, 0 <= i -> i + Z.of_nat n <= 128 -> exists z, zero_loop raw n i = Done z).
  { induction n as [|n IH]; intros i Hi Hn; cbn [zero_loop]; [by eauto|].
    rewrite byte_rd by lia. mred. case_if; [apply IH; lia|by eauto]. }
  apply Hg; lia.
Qed.

Lemma picked_length Q js vs :
  picked (block_data Q) js vs ->
  Forall (fun b => length b = 128%nat /\ Forall is_u8 b /\ body_ok b = true) vs /\ (length vs <= length js)%nat.
Proof.
  induction 1 as [|j b js vs (Hl & Hu & HQ) Hok Hp [IH IH']|j b js vs HQ Hok Hp [IH IH']]; cbn; split; auto with lia.
Qed.

Section fetch.
Context {E : Type} (get : list Z -> Z -> E -> Z * list Z * E).
Context (I : E -> Prop) (Q : Z -> list Z -> Prop).
Hypothesis Hget : reads I Q get.

Lemma ext_tries_spec n pre blk post off j e :
  length blk = 128%nat -> off = Z.of_nat (length pre) -> 0 < j < 256 -> I e ->
  (n = 0%nat -> block_data Q j blk /\ body_ok blk = false) ->
  exists r blk' e', ext_tries get fixup n off j (pre ++ blk ++ post) e = Done (r, pre ++ blk' ++ post, e') /\
    I e' /\ length blk' = 128%nat /\ (never_fails I get -> r <> None) /\
    (forall ok, r = Some ok -> block_data Q j blk' /\ body_ok blk' = ok).
Proof.
  intros Hl Hoff Hj. revert blk e Hl. induction n as [|n IH]; intros blk e Hl HI Hn; cbn [ext_tries].
  { destruct (Hn eq_refl) as [H1 H2]. exists (Some false), blk, e. do 4 (split; [done|]). by intros ? [= <-]. }
  rewrite slice_block by done. mred.
  destruct (get blk j e) as [[ret blk1] e1] eqn:Eg.
  assert (Hj' : 0 <= j < 256) by lia. destruct (Hget _ _ _ _ _ _ HI Hj' Hl Eg) as (HI1 & Hl1 & Hd).
  rewrite Hoff, put_mid by congruence. mred. destruct (truth ret) eqn:Et.
  { exists None, blk1, e1. do 3 (split; [done|]). split; [|by intros ? [=]].
    intros Hnf. specialize (Hnf blk j e HI Hj' Hl). rewrite Eg in Hnf. cbn in Hnf. by subst ret. }
  unfold truth in Et. b2p. specialize (Hd Et).
  destruct (accepted_ext blk1 j) as [Ha Hr]; [lia|].
  rewrite block_valid_at_spec by done. mred. rewrite Ha, Hr. destruct (body_ok blk1) eqn:Eok.
  - exists (Some true), blk1, e1. do 4 (split; [done|]). by intros ? [= <-].
  - rewrite <- Hoff. by apply IH.
Qed.

Lemma ext_loop_spec n j base vs rest pb c e :
  0 < j -> j + Z.of_nat n <= 256 -> I e ->
  length base = 128%nat -> Forall (fun b => length b = 128%nat) vs -> (128 * n <= length rest)%nat ->
  exists r c' e', ext_loop get fixup n j (Z.of_nat (length vs)) pb (base ++ concat vs ++ rest) c e = Done (r, c', e') /\
    I e' /\ (never_fails I get -> r <> None) /\
    forall v buf, r = Some (v, buf) -> exists new rest',
      v = Z.of_nat (length (vs ++ new)) /\ buf = base ++ concat (vs ++ new) ++ rest' /\
      (length (concat new) + length rest' = length rest)%nat /\
      picked (block_data Q) (seqZ j (Z.of_nat n)) new.
Proof.
  intros Hj Hjn HI Hb. revert j vs rest c e Hj Hjn HI.
  induction n as [|n IH]; intros j vs rest c e Hj Hjn HI Hvs Hr; cbn [ext_loop].
  { exists (Some (Z.of_nat (length vs), base ++ concat vs ++ rest)), c, e. do 3 (split; [done|]).
    intros v buf [= <- <-]. exists [], rest. rewrite app_nil_r. repeat split. constructor. }
  rewrite <- (take_drop 128 rest), !app_assoc, <- app_assoc.
  edestruct (ext_tries_spec 4 (base ++ concat vs) (take 128 rest) (drop 128 rest)
    ((Z.of_nat (length vs) + 1) * EDID_LENGTH) j e) as (r & blk & e1 & -> & HI1 & Hl1 & Hnf & Hok).
  { rewrite length_take. lia. }
  { rewrite edid_length, length_app, length_concat_blocks by done. lia. }
  { lia. } { done. } { done. }
  mred. destruct r as [[]|].
  - destruct (Hok true eq_refl) as [Hd Hbo].
    edestruct (IH (j + 1) (vs ++ [blk]) (drop 128 rest) c e1) as (r & c' & e' & E1 & HI2 & Hnf2 & Hres).
    { lia. } { lia. } { done. } { by apply Forall_app; split; [|constructor]. } { rewrite length_drop. lia. }
    exists r, c', e'. split.
    { rewrite <- E1, length_app, concat_app. cbn [length concat]. rewrite app_nil_r, <- !app_assoc. f_equal. lia. }
    split; [done|]. split; [done|].
    intros v buf ->. destruct (Hres v buf eq_refl) as (new & rest' & -> & -> & Hlen & Hp).
    exists (blk :: new), rest'. rewrite <- !app_assoc. cbn [app concat]. split; [done|]. split; [done|].
    split; [rewrite !length_app, ?length_drop, ?length_take in *; lia|].
    rewrite Nat2Z.inj_succ, seqZ_cons by lia. apply picked_take; [done..|]. by replace (Z.pred (Z.succ (Z.of_nat n))) with (Z.of_nat n) by lia.
  - destruct (Hok false eq_refl) as [Hd Hbo].
    edestruct (IH (j + 1) vs (blk ++ drop 128 rest) (if pb then bad_edid c else c) e1) as (r & c' & e' & E1 & HI2 & Hnf2 & Hres).
    { lia. } { lia. } { done. } { done. } { rewrite length_app, length_drop. lia. }
    exists r, c', e'. split; [by rewrite <- E1, <- !app_assoc|]. split; [done|]. split; [done|].
    intros v buf ->. destruct (Hres v buf eq_refl) as (new & rest' & -> & -> & Hlen & Hp).
    exists new, rest'. split; [done|]. split; [done|]. rewrite length_app, length_drop in Hlen.
    split; [rewrite ?length_app, ?length_drop, ?length_take; lia|]. rewrite Nat2Z.inj_succ, seqZ_cons by lia. eapply picked_skip; [done..|].
    by replace (Z.pred (Z.succ (Z.of_nat n))) with (Z.of_nat n) by lia.
  - exists None, c, e1. split; [done|]. split; [done|]. split; [|by intros ? ? [=]].
    intros Hn. by destruct (Hnf Hn).
Qed.

Ltac no_block := eexists _, _, _; do 2 (split; [done|]); by intros ? [=].

Lemma base_loop_spec n i block c e :
  length block = 128%nat -> I e ->
  exists r c' e', base_loop get fixup n i block c e = Done (r, c', e') /\ I e' /\
    (never_fails I get -> (forall b, block_data Q 0 b -> accepted b 0 = true) -> (0 < n)%nat -> exists blk, r = BaseOk blk) /\
    forall blk, r = BaseOk blk -> exists b, block_data Q 0 b /\ accepted b 0 = true /\ blk = repaired b 0.
Proof.
  revert i block e. induction n as [|n IH]; intros i block e Hl HI; cbn [base_loop].
  { eexists _, _, _. split; [done|]. split; [done|]. split; [lia|by intros ? [=]]. }
  destruct (get block 0 e) as [[ret b] e1] eqn:Eg.
  assert (Hj' : 0 <= 0 < 256) by lia. destruct (Hget _ _ _ _ _ _ HI Hj' Hl Eg) as (HI1 & Hl1 & Hd).
  destruct (truth ret) eqn:Et.
  { eexists _, _, _. split; [done|]. split; [done|]. split; [|by intros ? [=]].
    intros Hnf. specialize (Hnf block 0 e HI ltac:(lia) Hl). rewrite Eg in Hnf. cbn in Hnf. by subst ret. }
  unfold truth in Et. b2p. specialize (Hd Et).
  rewrite block_valid_spec by done. mred. destruct (accepted b 0) eqn:Ea.
  { eexists _, _, _. split; [done|]. split; [done|]. split; [by eauto|]. intros blk [= <-]. eauto. }
  assert (Hl2 : length (repaired b 0) = 128%nat) by (by apply repaired_length).
  assert (Hno : (forall b, block_data Q 0 b -> accepted b 0 = true) -> False).
  { intros Hall. specialize (Hall b Hd). congruence. }
  assert (Hgo : exists r c' e', base_loop get fixup n (i + 1) (repaired b 0) c e1 = Done (r, c', e') /\ I e' /\
    (never_fails I get -> (forall b, block_data Q 0 b -> accepted b 0 = true) -> (0 < S n)%nat -> exists blk, r = BaseOk blk) /\
    forall blk, r = BaseOk blk -> exists b, block_data Q 0 b /\ accepted b 0 = true /\ blk = repaired b 0).
  { destruct (IH (i + 1) (repaired b 0) e1 Hl2 HI1) as (r & c' & e' & H1 & H2 & _ & H4).
    exists r, c', e'. split; [done|]. split; [done|]. split; [|done]. intros _ Hall. by destruct (Hno Hall). }
  case_if; [|done]. destruct (is_zero_total _ Hl2) as [z ->]. mred.
  destruct z; [|done]. eexists _, _, _. split; [done|]. split; [done|]. split; [|by intros ? [=]].
  intros _ Hall. by destruct (Hno Hall).
Qed.

(** ** The result *)

(** The base block with the number of extensions that were kept. *)
Definition set_extensions (v : Z) (blk : list Z) : list Z :=
  if v =? rd blk 126 then blk
  else <[126%nat := v]> (<[127%nat := u8 (rd blk 127 + (rd blk 126 - v))]> blk).

Lemma set_extensions_spec v blk :
  length blk = 128%nat -> is_u8 v ->
  let blk' := set_extensions v blk in
  length blk' = 128%nat /\ rd blk' 126 = v /\ u8 (zsum blk') = u8 (zsum blk) /\
  (forall i, 0 <= i < 126 -> rd blk' i = rd blk i) /\ take 126 blk' = take 126 blk.
Proof.
  intros Hl Hv blk'. subst blk'. unfold set_extensions. destruct (Z.eqb_spec v (rd blk 126)) as [-> |]; [done|].
  destruct (lookup_lt_is_Some_2 blk 126) as [x Hx]; [lia|]. destruct (lookup_lt_is_Some_2 blk 127) as [y Hy]; [lia|].
  assert (Ex : rd blk 126 = x) by (unfold rd; change (Z.to_nat 126) with 126%nat; by rewrite Hx).
  assert (Ey : rd blk 127 = y) by (unfold rd; change (Z.to_nat 127) with 127%nat; by rewrite Hy).
  rewrite Ex, Ey. split; [by rewrite !length_insert|].
  split. { unfold rd. change (Z.to_nat 126) with 126%nat. by rewrite list_lookup_insert_eq by (rewrite length_insert; lia). }
  split.
  { rewrite (zsum_insert _ _ _ x) by (by rewrite list_lookup_insert_ne).
    rewrite (zsum_insert _ _ _ y) by done. unfold u8, wrap.
    rewrite (Zminus_mod _ x), (Zplus_mod _ v), (Zminus_mod _ y), (Zplus_mod (zsum blk)), Zmod_mod,
      <- (Zplus_mod (zsum blk)), <- (Zminus_mod _ y), <- (Zplus_mod _ v), <- (Zminus_mod _ x).
    f_equal. lia. }
  split; [|by rewrite !take_insert_ge by lia].
  intros i Hi. unfold rd. by rewrite !list_lookup_insert_ne by lia.
Qed.

Lemma rd_u8 l i : Forall is_u8 l -> is_u8 (rd l i).
Proof.
  intros Hu. unfold rd. destruct (l !! Z.to_nat i) as [x|] eqn:El; [|unfold is_u8; cbn; lia].
  by apply (Forall_lookup_1 _ _ _ _ Hu El).
Qed.

Lemma rd_repaired b i :
  length b = 128%nat -> accepted b 0 = true -> 8 <= i -> rd (repaired b 0) i = rd b i.
Proof.
  intros Hl Ha Hi. destruct (accepted_repaired b Hl Ha) as (_ & _ & Hd). unfold rd. f_equal.
  replace (Z.to_nat i) with (8 + (Z.to_nat i - 8))%nat by lia. by rewrite <- !lookup_drop, Hd.
Qed.

(** The assembled EDID. *)
Lemma assembled_valid b vs :
  block_data Q 0 b -> accepted b 0 = true ->
  picked (block_data Q) (seqZ 1 (rd (repaired b 0) 126)) vs ->
  let raw := set_extensions (Z.of_nat (length vs)) (repaired b 0) ++ concat vs in
  Z.of_nat (length raw) = 128 * (1 + rd raw 126) /\ drm_edid_is_valid fixup raw = Done (true, raw).
Proof.
  intros (Hl & Hu & _) Ha Hp. destruct (picked_length _ _ _ Hp) as [Hvs Hle].
  destruct (accepted_repaired b Hl Ha) as (Hh & Hb & _).
  assert (Hl' : length (repaired b 0) = 128%nat) by (by apply repaired_length).
  pose proof (rd_u8 b 126 Hu) as H126. rewrite <- (rd_repaired b 126 Hl Ha) in H126 by lia.
  rewrite length_seqZ in Hle.
  destruct (set_extensions_spec (Z.of_nat (length vs)) (repaired b 0)) as (S1 & S2 & S3 & S4 & S5);
    [done|unfold is_u8 in *; lia|].
  set (base := set_extensions _ _) in *. intros raw.
  assert (Hc : length (concat vs) = (128 * length vs)%nat).
  { apply length_concat_blocks. eapply Forall_impl; [exact Hvs|]. by intros ? [? _]. }
  assert (Hr : rd raw 126 = Z.of_nat (length vs)) by (unfold raw; by rewrite rd_app_first by lia).
  split; [unfold raw at 1; rewrite length_app, Hr; lia|].
  unfold drm_edid_is_valid. rewrite extensions_at, byte_rd by (unfold raw; rewrite length_app; lia). mred.
  rewrite Hr, Nat2Z.id. refine (valid_loop_spec 0 (base :: vs) _ _ [] eq_refl).
  { constructor; [done|]. eapply Forall_impl; [exact Hvs|]. by intros ? [? _]. }
  intros [|k] v Ev; cbn in Ev.
  - simplify_eq. apply accepted_header; [done| |].
    + unfold has_header in *. rewrite <- Hh. change 8%nat with (8 `min` 126)%nat. by rewrite <- !take_take, S5.
    + revert Hb. unfold body_ok. by rewrite S3, !S4 by lia.
  - destruct (Forall_lookup_1 _ _ _ _ Hvs Ev) as (_ & _ & Hok).
    destruct (accepted_ext v (Z.of_nat (0 + S k))) as [-> ->]; [lia|]. done.
Qed.

(** Dropping the invalid extensions. *)
Lemma drop_invalid_spec blk vs rest :
  length blk = 128%nat -> Forall (fun b => length b = 128%nat) vs -> (length vs < 256)%nat ->
  Z.of_nat (length vs) <> rd blk 126 ->
  drop_invalid (Z.of_nat (length vs)) (blk ++ concat vs ++ rest) =
    Done (set_extensions (Z.of_nat (length vs)) blk ++ concat vs).
Proof.
  intros Hl Hvs Hn Hne. unfold drop_invalid, poke, set_extensions. rewrite edid_length.
  rewrite (proj2 (Z.eqb_neq _ _) Hne), !byte_rd by (rewrite length_app; lia). mred.
  rewrite !rd_app_first by lia. change (128 - 1) with 127.
  change ((0 <=? 127)) with true. change ((0 <=? 126)) with true. cbn [andb].
  rewrite !length_app. destruct (Z.ltb_spec 127 (Z.of_nat (length blk + (length (concat vs) + length rest)))); [|lia].
  mred. rewrite length_insert, !length_app. destruct (Z.ltb_spec 126 (Z.of_nat (length blk + (length (concat vs) + length rest)))); [|lia].
  mred. f_equal. change (Z.to_nat 127) with 127%nat. change (Z.to_nat 126) with 126%nat.
  rewrite !insert_app_l by (rewrite ?length_insert; lia). rewrite (u8_small (Z.of_nat (length vs))) by (unfold is_u8; lia).
  rewrite app_assoc. apply take_app_length'. rewrite length_app, !length_insert, Hl.
  rewrite length_concat_blocks by done. lia.
Qed.

(** [drm_do_get_edid] always returns.  When it returns an EDID, the EDID is an
    accepted base block the reader delivered, with its header repaired, followed by
    exactly the valid extension blocks the reader delivered, in order; the count
    and the checksum of the base block agree with that; and
    [drm_edid_is_valid] accepts it unchanged. *)
Lemma edid_fetched garbage debug mem c e :
  I e ->
  exists r c' e', drm_do_get_edid get fixup garbage debug mem c e = Done (r, c', e') /\
    (never_fails I get -> (forall b, block_data Q 0 b -> accepted b 0 = true) ->
     mem = (true, true, true) -> r <> None) /\
    forall raw, r = Some raw -> exists b vs,
      block_data Q 0 b /\ accepted b 0 = true /\
      picked (block_data Q) (seqZ 1 (rd (repaired b 0) 126)) vs /\
      raw = set_extensions (Z.of_nat (length vs)) (repaired b 0) ++ concat vs /\
      Z.of_nat (length raw) = 128 * (1 + rd raw 126) /\
      drm_edid_is_valid fixup raw = Done (true, raw).
Proof.
  intros HI. destruct mem as [[m0 m1] m2]. unfold drm_do_get_edid. destruct m0; cbn [negb]; [|no_block].
  destruct (base_loop_spec 4 0 (fresh garbage 0 EDID_LENGTH) c e) as (r & c1 & e1 & -> & HI1 & Hnf & Hbase).
  { unfold fresh. rewrite length_fmap, length_seqZ, edid_length. done. } { done. }
  mred. destruct r as [| |blk].
  1-2: eexists _, _, _; split; [done|]; split; [|by intros ? [=]];
    intros H1 H2 _; by destruct (Hnf H1 H2 ltac:(lia)) as [? [=]].
  destruct (Hbase blk eq_refl) as (b & Hd & Ha & ->). clear Hbase.
  assert (Hl : length (repaired b 0) = 128%nat) by (apply repaired_length, Hd).
  assert (Hn : is_u8 (rd (repaired b 0) 126)).
  { destruct Hd as (Hl0 & Hu & _). rewrite rd_repaired by (done || lia). by apply rd_u8. }
  rewrite byte_rd by lia. mred. destruct (Z.eqb_spec (rd (repaired b 0) 126) 0) as [E0|E0].
  { eexists _, c1, e1. split; [done|]. split; [done|]. intros raw [= <-]. exists b, [].
    assert (Hp : picked (block_data Q) (seqZ 1 (rd (repaired b 0) 126)) []) by (rewrite E0; constructor).
    pose proof (assembled_valid b [] Hd Ha Hp) as Has. cbv zeta in Has.
    assert (Es : set_extensions (Z.of_nat (@length (list Z) [])) (repaired b 0) ++ concat [] = repaired b 0).
    { unfold set_extensions. cbn. by rewrite E0, app_nil_r. }
    rewrite Es in Has |- *. split; [done|]. split; [done|]. split; [done|]. split; [done|]. exact Has. }
  destruct m1; cbn [negb]; [|no_block].
  destruct (ext_loop_spec (Z.to_nat (rd (repaired b 0) 126)) 1 (repaired b 0) []
    (fresh garbage EDID_LENGTH ((rd (repaired b 0) 126 + 1) * EDID_LENGTH))
    ((bad_edid_counter c =? 0) || debug) c1 e1) as (r & c2 & e2 & Ex & HI2 & Hnf2 & Hext); [lia|unfold is_u8 in Hn; lia|done..| |].
  { unfold fresh. rewrite length_fmap, length_seqZ, edid_length. unfold is_u8 in Hn. lia. }
  cbn [length concat app] in Ex. change (Z.of_nat 0) with 0 in Ex. rewrite Ex. mred. clear Ex.
  destruct r as [[v buf]|].
  2: { eexists _, _, _. split; [done|]. split; [|by intros ? [=]]. intros H1. by destruct (Hnf2 H1). }
  destruct (Hext v buf eq_refl) as (vs & rest & -> & -> & Hlen & Hp). clear Hext. cbn [app] in *.
  rewrite Z2Nat.id in Hp by (unfold is_u8 in Hn; lia).
  pose proof (assembled_valid b vs Hd Ha Hp) as Has. cbv zeta in Has.
  destruct (picked_length _ _ _ Hp) as [Hvs Hle]. rewrite length_seqZ in Hle.
  assert (Hvl : Forall (fun b => length b = 128%nat) vs) by (eapply Forall_impl; [exact Hvs|]; by intros ? [? _]).
  unfold is_u8 in Hn. destruct (Z.eqb_spec (Z.of_nat (length vs)) (rd (repaired b 0) 126)) as [Ev|Ev].
  - assert (rest = []) as ->.
    { apply nil_length_inv. unfold fresh in Hlen. rewrite length_fmap, length_seqZ, edid_length, length_concat_blocks in Hlen by done. lia. }
    rewrite app_nil_r. eexists _, c2, e2. split; [done|]. split; [done|]. intros raw [= <-]. exists b, vs.
    assert (Es : set_extensions (Z.of_nat (length vs)) (repaired b 0) = repaired b 0)
      by (unfold set_extensions; by rewrite Ev, Z.eqb_refl).
    rewrite Es in Has |- *. split; [done|]. split; [done|]. split; [done|]. split; [done|]. exact Has.
  - rewrite drop_invalid_spec by (done || lia). mred. destruct m2; [|no_block].
    eexists _, c2, e2. split; [done|]. split; [done|]. intros raw [= <-]. by exists b, vs.
Qed.

End fetch.

(** C27: [drm_do_get_edid] always returns, for every block reader that fills its
    buffer.  When it returns an EDID, that is an accepted base block the reader
    delivered, with its header repaired, followed by exactly the valid extension
    blocks it delivered, in order; the count and the checksum of the base block
    agree with that; and [drm_edid_is_valid] accepts it unchanged. *)
Theorem edid_fetch_valid {E : Type} (get : list Z -> Z -> E -> Z * list Z * E) Q garbage debug mem c e :
  reads (fun _ => True) Q get ->
  exists r c' e', drm_do_get_edid get fixup garbage debug mem c e = Done (r, c', e') /\
    forall raw, r = Some raw -> exists b vs,
      block_data Q 0 b /\ accepted b 0 = true /\
      picked (block_data Q) (seqZ 1 (rd (repaired b 0) 126)) vs /\
      raw = set_extensions (Z.of_nat (length vs)) (repaired b 0) ++ concat vs /\
      Z.of_nat (length raw) = 128 * (1 + rd raw 126) /\
      drm_edid_is_valid fixup raw = Done (true, raw).
Proof.
  intros Hget. destruct (edid_fetched get _ Q Hget garbage debug mem c e I) as (r & c' & e' & H1 & _ & H2). eauto.
Qed.

End edid.

(** ** A monitor behind DisplayPort

    The DDC device on the bus: a write to the segment address sets the segment, a
    write to the device's address the position in it, and a read gives the byte
    there and moves on; when the bus is released the segment goes back to 0. *)
Section ddc.
Context `{drm_edid_h} `{!drm_edid_h_ok} `{dp_helper_h} `{!dp_helper_h_ok} (rom : Z -> Z).

Definition ddc_device (address : Z) (read mot : bool) (buf : list Z) (s : Z * Z) : list Z * (Z * Z) :=
  let '(buf, s) :=
    match read, buf with
    | false, [b] =>
      if address =? DDC_SEGMENT_ADDR then (buf, (b, s.2))
      else if address =? DDC_ADDR then (buf, (s.1, b)) else (buf, s)
    | true, [_] => if address =? DDC_ADDR then ([rom (s.1 * 256 + s.2)], (s.1, s.2 + 1)) else (buf, s)
    | _, _ => (buf, s)
    end in
  (buf, if mot then s else (0, s.2)).

Lemma ddc_addr_neq : (DDC_ADDR =? DDC_SEGMENT_ADDR) = false.
Proof. apply Z.eqb_neq, ddc_address. Qed.

Lemma ddc_read1 b seg off :
  ddc_device DDC_ADDR true true [b] (seg, off) = ([rom (seg * 256 + off)], (seg, off + 1)).
Proof. unfold ddc_device. by rewrite Z.eqb_refl. Qed.

Lemma ddc_write1 b seg off :
  ddc_device DDC_ADDR false true [b] (seg, off) = ([b], (seg, b)).
Proof. unfold ddc_device. by rewrite ddc_addr_neq, Z.eqb_refl. Qed.

Lemma ddc_segment1 b seg off :
  ddc_device DDC_SEGMENT_ADDR false true [b] (seg, off) = ([b], (b, off)).
Proof. unfold ddc_device. by rewrite Z.eqb_refl. Qed.

Lemma ddc_empty address read mot seg off :
  ddc_device address read mot [] (seg, off) = ([], (if mot then seg else 0, off)).
Proof. by destruct read, mot. Qed.

Lemma ddc_read_bytes buf seg off :
  bus_bytes ddc_device DDC_ADDR true buf (seg, off) =
    (rom <$> seqZ (seg * 256 + off) (Z.of_nat (length buf)), (seg, off + Z.of_nat (length buf))).
Proof.
  revert off. induction buf as [|b buf IH]; intros off; cbn [bus_bytes length].
  { by rewrite Z.add_0_r. }
  rewrite ddc_read1, IH. cbn [default head].
  rewrite Nat2Z.inj_succ, (seqZ_cons (seg * 256 + off)) by lia. cbn [fmap list_fmap].
  replace (Z.pred (Z.succ (Z.of_nat (length buf)))) with (Z.of_nat (length buf)) by lia.
  replace (seg * 256 + (off + 1)) with (Z.succ (seg * 256 + off)) by lia.
  by replace (off + 1 + Z.of_nat (length buf)) with (off + Z.succ (Z.of_nat (length buf))) by lia.
Qed.

(** The messages of one block read, on the bus. *)
Lemma ddc_transfer segment start buf xfers off :
  is_u8 segment -> xfers = (if truth segment then 3 else 2) ->
  bus_xfer ddc_device (drop (Z.to_nat (3 - xfers)) (ddc_msgs segment start buf)) (0, off) =
    (drop (Z.to_nat (3 - xfers)) (ddc_msgs segment start
       (rom <$> seqZ (segment * 256 + start) (Z.of_nat (length buf)))),
     (0, start + Z.of_nat (length buf))).
Proof.
  intros Hs ->. assert (Hr0 : is_read 0 = false) by done.
  assert (Hr1 : is_read I2C_M_RD = true).
  { unfold is_read. rewrite Z.land_diag. unfold truth. by rewrite (proj2 (Z.eqb_neq _ _) i2c_rd_set). }
  destruct (truth segment) eqn:Et;
    [change (Z.to_nat (3 - 3)) with 0%nat | change (Z.to_nat (3 - 2)) with 1%nat];
    unfold bus_xfer, ddc_msgs; cbn [drop bus_msgs i2c_addr i2c_flags i2c_buf bus_bytes];
    rewrite ?Hr0, ?Hr1, ?ddc_empty, ?ddc_segment1, ?ddc_empty, ?ddc_write1, ?ddc_empty, ?ddc_read_bytes, ddc_empty;
    cbn [default head snd].
  - done.
  - unfold truth in Et. b2p. by subst segment.
Qed.

(** ** Over the AUX channel *)
Section dp.
Context {E : Type} `{!dp_aux_hw E} (view : E -> Z * Z) (patience : E -> nat).
Hypothesis Hsink : i2c_sink ddc_device view patience.

(** The bytes of block [j]. *)
Definition rom_block (j : Z) : list Z := rom <$> seqZ (j * 128) 128.

Lemma probe_over_dp buf block (a : drm_dp_aux E) :
  (view (aux_hw a)).1 = 0 -> 0 <= block < 256 ->
  exists a', drm_do_probe_ddc_edid drm_dp_i2c_xfer buf block a =
      (0, rom <$> seqZ (block * 128) (Z.of_nat (length buf)), a') /\
    (view (aux_hw a')).1 = 0.
Proof.
  intros Hv Hb. unfold drm_do_probe_ddc_edid. rewrite edid_length.
  set (seg := u8 (Z.shiftr block 1)). set (start := u8 (block * 128)).
  set (xfers := if truth seg then 3 else 2).
  assert (Hpos : seg * 256 + start = block * 128).
  { subst seg start. unfold u8, wrap. rewrite Z.shiftr_div_pow2 by lia. change (2 ^ 1) with 2. change (2 ^ 8) with 256.
    rewrite (Z.mod_small (block / 2)) by (split; [apply Z.div_pos; lia|apply Z.div_lt_upper_bound; lia]).
    pose proof (Z.div_mod block 2 ltac:(lia)) as Hd. pose proof (Z.mod_pos_bound block 2 ltac:(lia)) as Hm.
    replace (block * 128) with (block mod 2 * 128 + block / 2 * 256) by lia.
    rewrite Z.mod_add, Z.mod_small by lia. lia. }
  cbn [ddc_loop].
  destruct (i2c_xfer_on_bus ddc_device view patience
    (drop (Z.to_nat (3 - xfers)) (ddc_msgs seg start buf)) a Hsink) as (msgs' & a' & -> & Hbus).
  rewrite (surjective_pairing (view (aux_hw a))), Hv, ddc_transfer in Hbus by (done || apply u8_bounds).
  injection Hbus as -> Ha'.
  assert (Hlen : Z.of_nat (length (drop (Z.to_nat (3 - xfers)) (ddc_msgs seg start buf))) = xfers).
  { subst xfers. by destruct (truth seg). }
  assert (Hlast : forall x, last_buf (drop (Z.to_nat (3 - xfers)) (ddc_msgs seg start x)) buf = x).
  { intros x. subst xfers. by destruct (truth seg). }
  rewrite Hlen, Hlast, Z.eqb_refl, orb_true_r, Z.eqb_refl, Hpos. exists a'. by rewrite Ha'.
Qed.

Lemma picked_exact js vs :
  picked (block_data (fun j b => b = rom_block j)) js vs ->
  vs = filter (fun b => body_ok b = true) (rom_block <$> js).
Proof.
  induction 1 as [|j b js vs (_ & _ & ->) Hok _ ->|j b js vs (_ & _ & ->) Hok _ ->]; [done|..]; cbn [fmap list_fmap].
  - by rewrite filter_cons_True.
  - rewrite filter_cons_False; [done|]. by rewrite Hok.
Qed.

(** C21: the whole EDID over DisplayPort.  Let a DDC device with the bytes [rom] answer I2C
    transactions over the AUX channel without failing and within the allowed retries
    ([i2c_sink]), its segment pointer be 0, its base block be one that the check of the
    block accepts after repairing it, and every allocation succeed.  Then
    [drm_do_get_edid] with [drm_do_probe_ddc_edid] on [drm_dp_i2c_xfer] returns exactly
    the base block, repaired and with its count and checksum adapted, and the valid ones
    of its extension blocks, and the result passes [drm_edid_is_valid]. *)
Theorem edid_over_dp fixup garbage debug c (a : drm_dp_aux E) :
  (forall x, is_u8 (rom x)) -> (view (aux_hw a)).1 = 0 -> accepted fixup (rom_block 0) 0 = true ->
  let base := repaired fixup (rom_block 0) 0 in
  let vs := filter (fun b => body_ok b = true) (rom_block <$> seqZ 1 (rd base 126)) in
  let raw := set_extensions (Z.of_nat (length vs)) base ++ concat vs in
  (exists c' a', drm_do_get_edid (drm_do_probe_ddc_edid drm_dp_i2c_xfer) fixup garbage debug
      (true, true, true) c a = Done (Some raw, c', a')) /\
  drm_edid_is_valid fixup raw = Done (true, raw).
Proof.
  intros Hrom Hv Hacc base vs raw.
  set (IV := fun a : drm_dp_aux E => (view (aux_hw a)).1 = 0). set (Q := fun j b => b = rom_block j).
  assert (Hl : forall j, length (rom_block j) = 128%nat) by (intros j; unfold rom_block; by rewrite length_fmap, length_seqZ).
  assert (Hget : reads IV Q (drm_do_probe_ddc_edid drm_dp_i2c_xfer)).
  { intros buf j e ret buf' e' HI Hj Hb Eg. destruct (probe_over_dp buf j e HI Hj) as (a' & Ea & HI').
    rewrite Ea in Eg. injection Eg as <- <- <-. rewrite Hb. split; [done|]. split; [apply (Hl j)|].
    intros _. split; [apply (Hl j)|]. split; [|done]. apply Forall_fmap, Forall_true. intros x. apply Hrom. }
  assert (Hnf : never_fails IV (drm_do_probe_ddc_edid drm_dp_i2c_xfer)).
  { intros buf j e HI Hj Hb. destruct (probe_over_dp buf j e HI Hj) as (a' & -> & _). done. }
  destruct (edid_fetched fixup _ IV Q Hget garbage debug (true, true, true) c a Hv) as (r & c' & a' & Hr & Hsome & Hres).
  destruct r as [raw'|]; [|exfalso; apply Hsome; [done| |done|done]; by intros b (_ & _ & ->)].
  destruct (Hres raw' eq_refl) as (b & vs' & (_ & _ & ->) & _ & Hp & -> & _ & Hvalid).
  apply picked_exact in Hp. fold base vs in Hp. subst vs'. split; [|exact Hvalid]. eauto.
Qed.

End dp.

End ddc.

(** ** A sample monitor

    Two extensions, the second with a wrong checksum; it defers every first
    attempt of an AUX transaction. *)
#[local] Existing Instance std_consts.
#[local] Existing Instance std_consts_ok.

#[local] Instance std_edid : drm_edid_h := {|
  EDID_LENGTH := 128; DDC_ADDR := 80; edid_version := 18; edid_extensions := 126 |}.

#[local] Instance std_edid_ok : drm_edid_h_ok.
Proof. by split. Qed.

Definition sample_rom (x : Z) : Z :=
  if (0 <? x) && (x <? 7) then 255
  else if (x =? 18) || (x =? 256) then 1
  else if (x =? 126) || (x =? 128) then 2
  else if (x =? 127) || (x =? 129) then 3
  else 0.

Lemma sample_rom_u8 x : is_u8 (sample_rom x).
Proof. unfold sample_rom, is_u8. repeat case_if; lia. Qed.

#[local] Instance sample_hw : dp_aux_hw (Z * Z * bool) := {|
  transfer address request buf size t :=
    if t.2 : bool then (0, 2, buf, (t.1, false))
    else let '(buf, s) := bus_op (ddc_device sample_rom) address request buf t.1 in (size, 0, buf, (s, true));
  usleep_range _ _ t := t; aux_udelay _ t := t; aux_mdelay _ t := t;
|}.

Lemma sample_hw_i2c :
  i2c_sink (ddc_device sample_rom) fst (fun t : Z * Z * bool => if t.2 then 1%nat else 0%nat).
Proof.
  split; [intros [s []]; cbn; lia|]. split; [done|].
  intros ad rq buf [s again] err reply buf' e' _ E1. unfold transfer, sample_hw in E1. cbn [fst snd] in *.
  destruct again; [|destruct (bus_op _ ad rq buf s) as [b s']]; simplify_eq.
  - right. split; [right; left; done|]. split; [done|]. split; [done|]. cbn. lia.
  - by left.
Qed.

Lemma edid_over_dp_witness :
  exists raw c' a', length raw = 256%nat /\
    drm_do_get_edid (drm_do_probe_ddc_edid drm_dp_i2c_xfer) 6 (fun _ => 0) false (true, true, true)
      (MkConn 0 0) (MkAux (0, 0, true) 0 0) = Done (Some raw, c', a') /\
    drm_edid_is_valid 6 raw = Done (true, raw).
Proof.
  pose proof (edid_over_dp sample_rom fst _ sample_hw_i2c 6 (fun _ => 0) false (MkConn 0 0)
    (MkAux (0, 0, true) 0 0) sample_rom_u8 eq_refl) as Hw.
  destruct Hw as [(c' & a' & Hr) Hv]; [vm_compute; reflexivity|].
  eexists _, c', a'. split; [|split; [exact Hr|exact Hv]]. vm_compute. reflexivity.
Defined.

Lemma edid_fetch_valid_witness :
  let get := fun (buf : list Z) (j : Z) (e : unit) => (0, rom_block sample_rom j, e) in
  exists r c' e', drm_do_get_edid get 6 (fun _ => 0) false (true, true, true) (MkConn 0 0) tt = Done (r, c', e') /\
    forall raw, r = Some raw -> exists b vs,
      block_data (fun j b => b = rom_block sample_rom j) 0 b /\ accepted 6 b 0 = true /\
      picked (block_data (fun j b => b = rom_block sample_rom j)) (seqZ 1 (rd (repaired 6 b 0) 126)) vs /\
      raw = set_extensions (Z.of_nat (length vs)) (repaired 6 b 0) ++ concat vs /\
      Z.of_nat (length raw) = 128 * (1 + rd raw 126) /\
      drm_edid_is_valid 6 raw = Done (true, raw).
Proof.
  intros get. apply edid_fetch_valid. intros buf j e ret buf' e' _ Hj Hb [= <- <- <-].
  assert (Hl : length (rom_block sample_rom j) = 128%nat) by (unfold rom_block; by rewrite length_fmap, length_seqZ).
  split; [done|]. split; [done|]. intros _. split; [done|]. split; [|done].
  apply Forall_fmap, Forall_true. intros x. apply sample_rom_u8.
Defined.
