(* ===== verification/DrmEdidCea.v ===== *)
(** * Extension blocks of an EDID (drm_edid.c)

    The search for an extension, the iteration over detailed timings and over the
    data blocks of a CEA extension, and what is read from them: audio descriptors,
    speakers, HDMI identification, deep colour, and the ELD for the audio driver.

    The EDID is the list of its bytes and a pointer into it an offset; a read or
    write outside is [Oops].  Loops with a callback are monadic folds.  The
    constants and inline functions of include/drm/drm_edid.h and linux/hdmi.h are a
    class. *)

From S2P Require Import Prelude DrmEdid.

Definition ENOTSUPP : Z := 524.
Definition EPROTO : Z := 71.

Class drm_edid_cea_h := {
  CEA_EXT : Z; VTB_EXT : Z; DISPLAYID_EXT : Z;
  edid_detailed : Z;             (* offsets in struct edid *)
  edid_mfg_id : Z; edid_prod_code : Z;
  detailed_size : Z;             (* struct detailed_timing: its size, the type of *)
  detailed_type : Z; detailed_str : Z;   (* a descriptor and its string *)
  EDID_DETAIL_MONITOR_NAME : Z;
  HDMI_IEEE_OUI : Z;
  DRM_ELD_BASELINE_ELD_LEN : Z;
  drm_eld_calc_baseline_block_size : list Z -> Z;
  MAX_ELD_BYTES : Z;
  DRM_EDID_HDMI_DC_30 : Z; DRM_EDID_HDMI_DC_36 : Z; DRM_EDID_HDMI_DC_48 : Z; DRM_EDID_HDMI_DC_Y444 : Z;
  DRM_COLOR_FORMAT_RGB444 : Z; DRM_COLOR_FORMAT_YCRCB444 : Z;
}.

Definition EDID_DETAILED_TIMINGS : Z := 4.
Definition AUDIO_BLOCK : Z := 1.
Definition VIDEO_BLOCK : Z := 2.
Definition VENDOR_BLOCK : Z := 3.
Definition SPEAKER_BLOCK : Z := 4.
Definition VIDEO_CAPABILITY_BLOCK : Z := 7.
Definition EDID_BASIC_AUDIO : Z := 64.
Definition EDID_CEA_VCDB_QS : Z := 64.

(** ** Loops *)

(** [for (i = ...; n times; i++) a = body(i, a);] *)
Fixpoint for_loop {A} (n : nat) (i : Z) (body : Z -> A -> run A) (a : A) : run A :=
  match n with
  | O => Done a
  | S n => a ← body i a; for_loop n (i + 1) body a
  end.

Section cea.
Context `{drm_edid_h} `{drm_edid_cea_h}.

(** ** Extensions *)
Fixpoint find_loop (edid : list Z) (ext_id : Z) (n : nat) (i : Z) : run (option Z) :=
  match n with
  | O => Done None
  | S n =>
    let ext := EDID_LENGTH * (i + 1) in
    tag ← byte edid ext;
    if tag =? ext_id then Done (Some ext) else find_loop edid ext_id n (i + 1)
  end.

(** The offset of the first extension with a tag. *)
Definition drm_find_edid_extension (edid : list Z) (ext_id : Z) : run (option Z) :=
  ext ← byte edid edid_extensions;
  find_loop edid ext_id (Z.to_nat ext) 0.

Definition drm_find_cea_extension (edid : list Z) : run (option Z) := drm_find_edid_extension edid CEA_EXT.
Definition drm_find_displayid_extension (edid : list Z) : run (option Z) :=
  drm_find_edid_extension edid DISPLAYID_EXT.

(** ** Detailed timings *)
Section detailed.
Context {A : Type} (raw_edid : list Z) (cb : Z -> A -> run A).

Definition cea_for_each_detailed_block (ext : Z) (a : A) : run A :=
  d ← byte raw_edid (ext + 2);
  let n := Z.quot (127 - d) 18 in
  for_loop (Z.to_nat n) 0 (fun i => cb (ext + d + 18 * i)) a.

Definition vtb_for_each_detailed_block (ext : Z) (a : A) : run A :=
  n ← byte raw_edid (ext + 2);
  let n := Z.min n 6 in
  version ← byte raw_edid (ext + 1);
  if negb (version =? 1) then Done a
  else for_loop (Z.to_nat n) 0 (fun i => cb (ext + 5 + 18 * i)) a.

Definition drm_for_each_detailed_block (a : A) : run A :=
  a ← for_loop (Z.to_nat EDID_DETAILED_TIMINGS) 0 (fun i => cb (edid_detailed + detailed_size * i)) a;
  exts ← byte raw_edid 126;
  for_loop (Z.to_nat exts) 1 (fun i a =>
    let ext := i * EDID_LENGTH in
    tag ← byte raw_edid ext;
    if tag =? CEA_EXT then cea_for_each_detailed_block ext a
    else if tag =? VTB_EXT then vtb_for_each_detailed_block ext a
    else Done a) a.

End detailed.

(** ** Data blocks of a CEA extension *)
Definition cea_db_payload_len (edid : list Z) (db : Z) : run Z :=
  b ← byte edid db; Done (Z.land b 31).

Definition cea_db_tag (edid : list Z) (db : Z) : run Z :=
  b ← byte edid db; Done (Z.shiftr b 5).

Definition cea_revision (edid : list Z) (cea : Z) : run Z := byte edid (cea + 1).

(** [None] for [-ERANGE] *)
Definition cea_db_offsets (edid : list Z) (cea : Z) : run (option (Z * Z)) :=
  b ← byte edid (cea + 2);
  let e := if b =? 0 then 127 else b in
  Done (if (e <? 4) || (127 <? e) then None else Some (4, e)).

Definition cea_db_is_hdmi_vsdb (edid : list Z) (db : Z) : run bool :=
  tag ← cea_db_tag edid db;
  if negb (tag =? VENDOR_BLOCK) then Done false
  else
    len ← cea_db_payload_len edid db;
    if len <? 5 then Done false
    else
      b1 ← byte edid (db + 1); b2 ← byte edid (db + 2); b3 ← byte edid (db + 3);
      let hdmi_id := Z.lor b1 (Z.lor (Z.shiftl b2 8) (Z.shiftl b3 16)) in
      Done (hdmi_id =? HDMI_IEEE_OUI).

(** [for_each_cea_db]: the body gets the offset of the block and tells whether to
    leave the loop. *)
Fixpoint for_each_cea_db {A} (fuel : nat) (edid : list Z) (cea i e : Z)
    (body : Z -> A -> run (A * bool)) (a : A) : run A :=
  match fuel with
  | O => Loops
  | S fuel =>
    if e <=? i then Done a
    else
      len ← cea_db_payload_len edid (cea + i);
      if e <=? i + len then Done a
      else
        '(a, stop) ← body (cea + i) a;
        if stop : bool then Done a
        else for_each_cea_db fuel edid cea (i + len + 1) e body a
  end.

(** A block has fewer than 127 bytes, and every round of the loop moves on. *)
Definition cea_fuel : nat := 128.

(** ** HDMI *)
Definition drm_detect_hdmi_monitor (edid : list Z) : run bool :=
  ext ← drm_find_cea_extension edid;
  match ext with
  | None => Done false
  | Some cea =>
    off ← cea_db_offsets edid cea;
    match off with
    | None => Done false
    | Some (start, e) =>
      for_each_cea_db cea_fuel edid cea start e (fun db _ =>
        found ← cea_db_is_hdmi_vsdb edid db; Done (found, found)) false
    end
  end.

(** The formats of an audio block are only printed, after reading them. *)
Definition read_formats (edid : list Z) (db : Z) : run unit :=
  len ← cea_db_payload_len edid db;
  for_loop (Z.to_nat ((len + 2) / 3)) 0 (fun k _ => _ ← byte edid (db + 1 + 3 * k); Done tt) tt.

Definition drm_detect_monitor_audio (edid : list Z) : run bool :=
  ext ← drm_find_cea_extension edid;
  match ext with
  | None => Done false
  | Some cea =>
    b ← byte edid (cea + 3);
    if truth (Z.land b EDID_BASIC_AUDIO) then Done true
    else
      off ← cea_db_offsets edid cea;
      match off with
      | None => Done false
      | Some (start, e) =>
        for_each_cea_db cea_fuel edid cea start e (fun db _ =>
          tag ← cea_db_tag edid db;
          if tag =? AUDIO_BLOCK then _ ← read_formats edid db; Done (true, true)
          else Done (false, false)) false
      end
  end.

Definition drm_rgb_quant_range_selectable (edid : list Z) : run bool :=
  ext ← drm_find_cea_extension edid;
  match ext with
  | None => Done false
  | Some cea =>
    off ← cea_db_offsets edid cea;
    match off with
    | None => Done false
    | Some (start, e) =>
      for_each_cea_db cea_fuel edid cea start e (fun db a =>
        tag ← cea_db_tag edid db;
        len ← cea_db_payload_len edid db;
        if (tag =? VIDEO_CAPABILITY_BLOCK) && (len =? 2) then
          b ← byte edid (db + 2);
          Done (truth (Z.land b EDID_CEA_VCDB_QS), true)
        else Done (a, false)) false
    end
  end.

(** The part of [struct drm_display_info] that deep colour sets. *)
Record deep_color := MkDeep { bpc : Z; edid_hdmi_dc_modes : Z; color_formats : Z }.

(** One HDMI block: the information and whether deep colour is supported; [None]
    for the early return. *)
Definition deep_color_block (edid : list Z) (hdmi : Z) (info : deep_color) : run (option bool * deep_color) :=
  let info := MkDeep 8 (edid_hdmi_dc_modes info) (color_formats info) in
  len ← cea_db_payload_len edid hdmi;
  if len <? 6 then Done (None, info)
  else
    b6 ← byte edid (hdmi + 6);
    let has m := truth (Z.land b6 m) in
    let grade m d '(dc_bpc, modes) := if has m then (d, Z.lor modes m) else (dc_bpc, modes) in
    let '(dc_bpc, modes) :=
      grade DRM_EDID_HDMI_DC_48 16 (grade DRM_EDID_HDMI_DC_36 12
        (grade DRM_EDID_HDMI_DC_30 10 (0, edid_hdmi_dc_modes info))) in
    if 0 <? dc_bpc then
      let formats := if has DRM_EDID_HDMI_DC_Y444
        then Z.lor DRM_COLOR_FORMAT_RGB444 DRM_COLOR_FORMAT_YCRCB444 else DRM_COLOR_FORMAT_RGB444 in
      Done (Some true, MkDeep dc_bpc modes formats)
    else Done (Some false, MkDeep 8 modes (color_formats info)).

Definition drm_assign_hdmi_deep_color_info (edid : list Z) (info : deep_color) : run (bool * deep_color) :=
  ext ← drm_find_cea_extension edid;
  match ext with
  | None => Done (false, info)
  | Some cea =>
    off ← cea_db_offsets edid cea;
    match off with
    | None => Done (false, info)
    | Some (start, e) =>
      for_each_cea_db cea_fuel edid cea start e (fun db '(_, info) =>
        found ← cea_db_is_hdmi_vsdb edid db;
        if found : bool then
          '(res, info) ← deep_color_block edid db info;
          match res with
          | None => Done ((false, info), true)
          | Some true => Done ((true, info), true)
          | Some false => Done ((false, info), false)
          end
        else Done ((false, info), false)) (false, info)
    end
  end.

(** ** Audio *)
Record cea_sad := MkSad { format : Z; channels : Z; freq : Z; byte2 : Z }.

Definition read_sad (edid : list Z) (sad : Z) : run cea_sad :=
  b0 ← byte edid sad; b1 ← byte edid (sad + 1); b2 ← byte edid (sad + 2);
  Done (MkSad (Z.shiftr (Z.land b0 120) 3) (Z.land b0 7) (Z.land b1 127) b2).

(** The descriptors of one audio block. *)
Definition sad_block (edid : list Z) (db : Z) : run (list cea_sad) :=
  dbl ← cea_db_payload_len edid db;
  for_loop (Z.to_nat (dbl / 3)) 0 (fun j sads =>
    s ← read_sad edid (db + 1 + j * 3); Done (sads ++ [s])) [].

(** The count or error, and the descriptors. [mem] tells whether memory can be had. *)
Definition drm_edid_to_sad (mem : bool) (edid : list Z) : run (Z * list cea_sad) :=
  ext ← drm_find_cea_extension edid;
  match ext with
  | None => Done (- ENOENT, [])
  | Some cea =>
    rev ← cea_revision edid cea;
    if rev <? 3 then Done (- ENOTSUPP, [])
    else
      off ← cea_db_offsets edid cea;
      match off with
      | None => Done (- EPROTO, [])
      | Some (start, e) =>
        for_each_cea_db cea_fuel edid cea start e (fun db a =>
          tag ← cea_db_tag edid db;
          if tag =? AUDIO_BLOCK then
            if mem then
              sads ← sad_block edid db;
              Done ((Z.of_nat (length sads), sads), true)
            else Done ((- ENOMEM, []), true)
          else Done (a, false)) (0, [])
      end
  end.

Definition drm_edid_to_speaker_allocation (mem : bool) (edid : list Z) : run (Z * list Z) :=
  ext ← drm_find_cea_extension edid;
  match ext with
  | None => Done (- ENOENT, [])
  | Some cea =>
    rev ← cea_revision edid cea;
    if rev <? 3 then Done (- ENOTSUPP, [])
    else
      off ← cea_db_offsets edid cea;
      match off with
      | None => Done (- EPROTO, [])
      | Some (start, e) =>
        for_each_cea_db cea_fuel edid cea start e (fun db a =>
          tag ← cea_db_tag edid db;
          dbl ← cea_db_payload_len edid db;
          if (tag =? SPEAKER_BLOCK) && (dbl =? 3) then
            if mem then sadb ← slice (db + 1) dbl edid; Done ((dbl, sadb), true)
            else Done ((- ENOMEM, []), true)
          else Done (a, false)) (0, [])
      end
  end.

(** ** The ELD *)

(** The fields of the connector that the ELD and the latencies are kept in. *)
Record av_conn := MkAv {
  eld : list Z;
  dvi_dual : Z;
  max_tmds_clock : Z;
  latency_present : Z * Z;
  video_latency : Z * Z;
  audio_latency : Z * Z;
}.

Definition set_eld (l : list Z) (c : av_conn) : av_conn :=
  MkAv l (dvi_dual c) (max_tmds_clock c) (latency_present c) (video_latency c) (audio_latency c).

(** [eld[i] = v;] and [eld[i] |= v;] *)
Definition eld_put (i v : Z) (c : av_conn) : run av_conn :=
  l ← poke i (u8 v) (eld c); Done (set_eld l c).
Definition eld_or (i v : Z) (c : av_conn) : run av_conn :=
  b ← byte (eld c) i; eld_put i (Z.lor b v) c.

(** Byte [n] of a data block, if the block is that long. *)
Definition vsdb_field (edid : list Z) (db len n : Z) (f : Z -> av_conn -> run av_conn) (c : av_conn)
    : run av_conn :=
  if n <=? len then b ← byte edid (db + n); f b c else Done c.

Definition parse_hdmi_vsdb (edid : list Z) (db : Z) (c : av_conn) : run av_conn :=
  len ← cea_db_payload_len edid db;
  let when := vsdb_field edid db len in
  c ← when 6 (fun b c =>
    c ← eld_or 5 (Z.shiftl (Z.shiftr b 7) 1) c;
    Done (MkAv (eld c) (Z.land b 1) (max_tmds_clock c) (latency_present c) (video_latency c) (audio_latency c))) c;
  c ← when 7 (fun b c =>
    Done (MkAv (eld c) (dvi_dual c) (b * 5) (latency_present c) (video_latency c) (audio_latency c))) c;
  c ← when 8 (fun b c =>
    Done (MkAv (eld c) (dvi_dual c) (max_tmds_clock c) (Z.shiftr b 7, Z.land (Z.shiftr b 6) 1)
            (video_latency c) (audio_latency c))) c;
  c ← when 9 (fun b c =>
    Done (MkAv (eld c) (dvi_dual c) (max_tmds_clock c) (latency_present c) (b, (video_latency c).2) (audio_latency c))) c;
  c ← when 10 (fun b c =>
    Done (MkAv (eld c) (dvi_dual c) (max_tmds_clock c) (latency_present c) (video_latency c) (b, (audio_latency c).2))) c;
  c ← when 11 (fun b c =>
    Done (MkAv (eld c) (dvi_dual c) (max_tmds_clock c) (latency_present c) ((video_latency c).1, b) (audio_latency c))) c;
  when 12 (fun b c =>
    Done (MkAv (eld c) (dvi_dual c) (max_tmds_clock c) (latency_present c) (video_latency c) ((audio_latency c).1, b))) c.

(** The callback that looks for the monitor's name: the offset of the last one. *)
Definition monitor_name (edid : list Z) (t : Z) (name : option Z) : run (option Z) :=
  ty ← byte edid (t + detailed_type);
  Done (if ty =? EDID_DETAIL_MONITOR_NAME then Some (t + detailed_str) else name).

(** Copies the name up to a line feed, at most 13 characters; gives its length. *)
Fixpoint name_loop (edid : list Z) (name : Z) (n : nat) (mnl : Z) (c : av_conn) : run (Z * av_conn) :=
  match n with
  | O => Done (mnl, c)
  | S n =>
    b ← byte edid (name + mnl);
    if b =? 10 then Done (mnl, c)
    else c ← eld_put (20 + mnl) b c; name_loop edid name n (mnl + 1) c
  end.

(** One data block: the number of audio descriptors and the connector. *)
Definition eld_block (edid : list Z) (mnl db : Z) (sad_count : Z) (c : av_conn) : run (Z * av_conn) :=
  tag ← cea_db_tag edid db;
  dbl ← cea_db_payload_len edid db;
  if tag =? AUDIO_BLOCK then
    if 1 <=? dbl then
      sads ← slice (db + 1) dbl edid;
      l ← put (20 + mnl) sads (eld c);
      Done (dbl / 3, set_eld l c)
    else Done (dbl / 3, c)
  else if tag =? SPEAKER_BLOCK then
    if 1 <=? dbl then b ← byte edid (db + 1); c ← eld_put 7 b c; Done (sad_count, c)
    else Done (sad_count, c)
  else if tag =? VENDOR_BLOCK then
    hdmi ← cea_db_is_hdmi_vsdb edid db;
    if hdmi : bool then c ← parse_hdmi_vsdb edid db c; Done (sad_count, c) else Done (sad_count, c)
  else Done (sad_count, c).

Definition eld_blocks (edid : list Z) (cea mnl : Z) (c : av_conn) : run (Z * av_conn) :=
  rev ← cea_revision edid cea;
  if 3 <=? rev then
    off ← cea_db_offsets edid cea;
    let '(start, e) := default (0, 0) off in
    for_each_cea_db cea_fuel edid cea start e (fun db '(sad_count, c) =>
      r ← eld_block edid mnl db sad_count c; Done (r, false)) (0, c)
  else Done (0, c).

Definition drm_edid_to_eld (edid : list Z) (c : av_conn) : run av_conn :=
  let c := set_eld (replicate (Z.to_nat MAX_ELD_BYTES) 0) c in
  ext ← drm_find_cea_extension edid;
  match ext with
  | None => Done c
  | Some cea =>
    name ← drm_for_each_detailed_block edid (monitor_name edid) None;
    '(mnl, c) ← match name with
                | Some name => name_loop edid name 13 0 c
                | None => Done (0, c)
                end;
    rev ← byte edid (cea + 1);
    c ← eld_put 4 (Z.lor (Z.shiftl rev 5) mnl) c;
    c ← eld_put 0 16 c;
    m0 ← byte edid edid_mfg_id; c ← eld_put 16 m0 c;
    m1 ← byte edid (edid_mfg_id + 1); c ← eld_put 17 m1 c;
    p0 ← byte edid edid_prod_code; c ← eld_put 18 p0 c;
    p1 ← byte edid (edid_prod_code + 1); c ← eld_put 19 p1 c;
    '(sad_count, c) ← eld_blocks edid cea mnl c;
    c ← eld_or 5 (Z.shiftl sad_count 4) c;
    eld_put DRM_ELD_BASELINE_ELD_LEN (Z.quot (drm_eld_calc_baseline_block_size (eld c) + 3) 4) c
  end.

(** [interlaced] is the flag of the mode. *)
Definition drm_av_sync_delay (c : av_conn) (interlaced : bool) : Z :=
  let second := interlaced && truth (latency_present c).2 in
  if negb (truth (latency_present c).1) then 0
  else
    let a := if second then (audio_latency c).2 else (audio_latency c).1 in
    let v := if second then (video_latency c).2 else (video_latency c).1 in
    if (a =? 255) || (v =? 255) then 0
    else
      let ms x := if truth x then Z.min (2 * (x - 1)) 500 else x in
      Z.max (ms v - ms a) 0.

End cea.
