(* ===== verification/DrmEdidCeaProps.v ===== *)
(** * Extension blocks of an EDID: theorems

    The queries return on every EDID of the right size, whatever its bytes, without
    leaving it; on a CEA extension made of data blocks they give what the blocks
    say. *)

From S2P Require Import Prelude DpSideband DrmEdid DrmEdidProps DrmEdidCea.

(** The documented layout. *)
Class drm_edid_cea_h_ok `{drm_edid_cea_h} : Prop := {
  detailed_timings : edid_detailed = 54 /\ detailed_size = 18;
  descriptor : detailed_type = 3 /\ detailed_str = 5;
  ids : edid_mfg_id = 8 /\ edid_prod_code = 10;
  eld_layout : DRM_ELD_BASELINE_ELD_LEN = 2 /\ MAX_ELD_BYTES = 128;
}.

(** ** Loops *)
Lemma for_loop_total {A} (P : A -> Prop) (body : Z -> A -> run A) n i a :
  P a ->
  (forall k x, i <= k < i + Z.of_nat n -> P x -> exists y, body k x = Done y /\ P y) ->
  exists y, for_loop n i body a = Done y /\ P y.
Proof.
  revert i a. induction n as [|n IH]; intros i a Ha Hb; cbn [for_loop]; [by eauto|].
  destruct (Hb i a) as (y & -> & Hy); [lia|done|]. mred. apply IH; [done|]. intros k x Hk. apply Hb. lia.
Qed.

Section cea.
Context `{drm_edid_h} `{!drm_edid_h_ok} `{drm_edid_cea_h} `{!drm_edid_cea_h_ok}.

(** An EDID of the size its base block announces, as [drm_do_get_edid] returns. *)
Definition sized (edid : list Z) : Prop :=
  Forall is_u8 edid /\ Z.of_nat (length edid) = 128 * (1 + rd edid 126).

Section total.
Context (edid : list Z) (Hs : sized edid).
Notation len := (Z.of_nat (length edid)).

Lemma byte_ok i : 0 <= i < len -> byte edid i = Done (rd edid i).
Proof. apply byte_rd. Qed.

Lemma rd_ok i : 0 <= rd edid i < 256.
Proof. destruct Hs as [Hu _]. apply (rd_u8 edid i Hu). Qed.

Lemma sized_min : 128 <= len.
Proof. destruct Hs as [_ ->]. pose proof (rd_ok 126). lia. Qed.

(** The offset of an extension of the EDID. *)
Definition ext_at (cea : Z) : Prop := 128 <= cea /\ cea + 128 <= len.

Lemma find_loop_total id n i :
  0 <= i -> i + Z.of_nat n <= rd edid 126 ->
  exists r, find_loop edid id n i = Done r /\
    forall cea, r = Some cea -> ext_at cea /\ rd edid cea = id /\ (exists k, cea = 128 * k).
Proof.
  revert i. induction n as [|n IH]; intros i Hi Hn; cbn [find_loop].
  { eexists. split; [done|]. by intros ? [=]. }
  destruct Hs as [_ Hl]. rewrite edid_length, byte_ok by lia. mred.
  destruct (Z.eqb_spec (rd edid (128 * (i + 1))) id) as [E|E]; [|apply IH; lia].
  eexists. split; [done|]. intros cea [= <-]. unfold ext_at. split; [lia|]. split; [done|]. by eexists.
Qed.

Lemma find_extension_total id :
  exists r, drm_find_edid_extension edid id = Done r /\
    forall cea, r = Some cea -> ext_at cea /\ rd edid cea = id /\ (exists k, cea = 128 * k).
Proof.
  unfold drm_find_edid_extension. rewrite extensions_at. pose proof sized_min. rewrite byte_ok by lia. mred.
  pose proof (rd_ok 126). apply find_loop_total; lia.
Qed.

Lemma offsets_total cea :
  ext_at cea -> exists r, cea_db_offsets edid cea = Done r /\ forall s e, r = Some (s, e) -> s = 4 /\ 4 <= e <= 127.
Proof.
  intros [Hlo Hhi]. unfold cea_db_offsets. rewrite byte_ok by lia. mred. eexists. split; [done|].
  intros s e. case_if; case_if; intros [= <- <-]; b2p; lia.
Qed.

Definition payload (db : Z) : Z := Z.land (rd edid db) 31.

Lemma payload_range db : 0 <= payload db <= 31.
Proof.
  unfold payload. assert (E : Z.land (rd edid db) 31 = rd edid db mod 32) by (apply (Z.land_ones _ 5); lia).
  rewrite E. pose proof (Z.mod_pos_bound (rd edid db) 32 ltac:(lia)). lia.
Qed.

Lemma payload_ok db : 0 <= db < len -> cea_db_payload_len edid db = Done (payload db).
Proof. intros. unfold cea_db_payload_len. by rewrite byte_ok by lia. Qed.

Lemma tag_ok db : 0 <= db < len -> cea_db_tag edid db = Done (Z.shiftr (rd edid db) 5).
Proof. intros. unfold cea_db_tag. by rewrite byte_ok by lia. Qed.

(** Where a data block may be: it ends before the last byte of the EDID. *)
Definition db_at (db : Z) : Prop := 128 <= db /\ db + payload db < len.

Lemma cea_loop_total {A} (P : A -> Prop) (body : Z -> A -> run (A * bool)) cea i e a :
  ext_at cea -> 0 <= i -> e <= 127 -> P a ->
  (forall db x, db_at db -> P x -> exists y stop, body db x = Done (y, stop) /\ P y) ->
  exists y, for_each_cea_db cea_fuel edid cea i e body a = Done y /\ P y.
Proof.
  intros [Hlo Hhi] Hi He Ha Hb. assert (Hf : Z.max 0 (e - i) < Z.of_nat cea_fuel) by (unfold cea_fuel; lia).
  revert i a Hi Ha Hf. generalize cea_fuel. intros n. induction n as [|n IH]; intros i a Hi Ha Hf; [lia|].
  cbn [for_each_cea_db]. destruct (Z.leb_spec e i); [by eauto|].
  rewrite payload_ok by lia. mred. pose proof (payload_range (cea + i)).
  destruct (Z.leb_spec e (i + payload (cea + i))); [by eauto|].
  destruct (Hb (cea + i) a) as (y & stop & -> & Hy); [unfold db_at; lia|done|]. mred.
  destruct stop; [by eauto|]. apply IH; [lia|done|lia].
Qed.

Lemma hdmi_vsdb_total db : db_at db -> exists r, cea_db_is_hdmi_vsdb edid db = Done r.
Proof.
  intros [Hlo Hhi]. pose proof (payload_range db). unfold cea_db_is_hdmi_vsdb.
  rewrite tag_ok by lia. mred. case_if; [by eauto|]. rewrite payload_ok by lia. mred. case_if; [by eauto|]. b2p.
  rewrite !byte_ok by lia. mred. by eauto.
Qed.

(** A query that looks for a CEA extension and walks through its data blocks. *)
Lemma query_total {A} (P : A -> Prop) (none : run A) (rest : Z -> run A) :
  (exists y, none = Done y /\ P y) ->
  (forall cea, ext_at cea -> exists y, rest cea = Done y /\ P y) ->
  exists y, (ext ← drm_find_cea_extension edid; match ext with None => none | Some cea => rest cea end) = Done y /\ P y.
Proof.
  intros Hn Hr. destruct (find_extension_total CEA_EXT) as (r & E & Hc). unfold drm_find_cea_extension.
  rewrite E. mred. destruct r as [cea|]; [|done]. apply Hr, Hc. done.
Qed.

Lemma walk_total {A} (P : A -> Prop) cea (none : run A) body a :
  ext_at cea -> (exists y, none = Done y /\ P y) -> P a ->
  (forall db x, db_at db -> P x -> exists y stop, body db x = Done (y, stop) /\ P y) ->
  exists y, (off ← cea_db_offsets edid cea;
    match off with None => none | Some (start, e) => for_each_cea_db cea_fuel edid cea start e body a end) = Done y /\ P y.
Proof.
  intros He Hn Ha Hb. destruct (offsets_total cea He) as (r & E & Hr). rewrite E. mred.
  destruct r as [[s e]|]; [|done]. destruct (Hr s e eq_refl). apply cea_loop_total; [done|lia|lia|done|done].
Qed.

(** ** The queries *)
Lemma read_formats_total db : db_at db -> exists y, read_formats edid db = Done y.
Proof.
  intros [Hlo Hhi]. pose proof (payload_range db). unfold read_formats. rewrite payload_ok by lia. mred.
  destruct (for_loop_total (fun _ : unit => True) (fun k _ => _ ← byte edid (db + 1 + 3 * k); Done tt)
    (Z.to_nat ((payload db + 2) / 3)) 0 tt I) as (y & E & _); [|by eauto].
  intros k x Hk _. exists tt. split; [|done].
  assert (3 * k < payload db) by (pose proof (Z.div_mod (payload db + 2) 3); pose proof (Z.mod_pos_bound (payload db + 2) 3); lia).
  by rewrite byte_ok by lia.
Qed.

Lemma sad_block_total db : db_at db -> exists l, sad_block edid db = Done l.
Proof.
  intros [Hlo Hhi]. pose proof (payload_range db). unfold sad_block. rewrite payload_ok by lia. mred.
  destruct (for_loop_total (fun _ : list cea_sad => True)
    (fun j sads => s ← read_sad edid (db + 1 + j * 3); Done (sads ++ [s]))
    (Z.to_nat (payload db / 3)) 0 [] I) as (y & E & _); [|by eauto].
  intros k x Hk _. assert (3 * k + 3 <= payload db)
    by (pose proof (Z.div_mod (payload db) 3); pose proof (Z.mod_pos_bound (payload db) 3); lia).
  unfold read_sad. rewrite !byte_ok by lia. mred. by eauto.
Qed.

Lemma slice_total off n : 0 <= off -> 0 <= n -> off + n <= len ->
  exists l, slice off n edid = Done l /\ Z.of_nat (length l) = n.
Proof.
  intros Ho Hn Hl. unfold slice. repeat match goal with |- context [?x <=? ?y] => destruct (Z.leb_spec x y); [|lia] end.
  cbn [andb]. eexists. split; [done|]. rewrite length_take, length_drop. lia.
Qed.

Definition any {A} (_ : A) : Prop := True.

Ltac answer := first [eexists _, _; split; [reflexivity|exact I] | eexists; split; [reflexivity|exact I]].

Lemma detect_hdmi_total : exists y, drm_detect_hdmi_monitor edid = Done y /\ any y.
Proof.
  apply query_total; [answer|]. intros cea Hc. apply walk_total; [done|answer|done|].
  intros db x Hdb _. destruct (hdmi_vsdb_total db Hdb) as [r ->]. mred. answer.
Qed.

Lemma detect_audio_total : exists y, drm_detect_monitor_audio edid = Done y /\ any y.
Proof.
  apply query_total; [answer|]. intros cea Hc. destruct Hc as [Hlo Hhi] eqn:Ec. rewrite byte_ok by lia. mred.
  case_if; [answer|]. apply walk_total; [done|answer|done|].
  intros db x Hdb _. destruct Hdb as [Hdl Hdh] eqn:Ed. pose proof (payload_range db). rewrite tag_ok by lia. mred. case_if; [|answer].
  destruct (read_formats_total db Hdb) as [y ->]. mred. answer.
Qed.

Lemma quant_total : exists y, drm_rgb_quant_range_selectable edid = Done y /\ any y.
Proof.
  apply query_total; [answer|]. intros cea Hc. apply walk_total; [done|answer|done|].
  intros db x [Hlo Hhi] _. pose proof (payload_range db). rewrite tag_ok by lia. mred. rewrite payload_ok by lia. mred.
  case_if; [|answer]. b2p. rewrite byte_ok by lia. mred. answer.
Qed.

Lemma deep_total info : exists y, drm_assign_hdmi_deep_color_info edid info = Done y /\ any y.
Proof.
  apply query_total; [answer|]. intros cea Hc. apply walk_total; [done|answer|done|].
  intros db [f i] Hdb _. destruct (hdmi_vsdb_total db Hdb) as [[] ->]; mred; [|answer].
  destruct Hdb as [Hlo Hhi]. pose proof (payload_range db). unfold deep_color_block. rewrite payload_ok by lia. mred.
  case_if; [answer|]. b2p. rewrite byte_ok by lia. mred. repeat case_if; answer.
Qed.

Lemma sad_total mem : exists y, drm_edid_to_sad mem edid = Done y /\ any y.
Proof.
  apply query_total; [answer|]. intros cea Hc. destruct Hc as [Hlo Hhi] eqn:Ec.
  unfold cea_revision. rewrite byte_ok by lia. mred.
  case_if; [answer|]. apply walk_total; [done|answer|done|].
  intros db x Hdb _. destruct Hdb as [Hdl Hdh] eqn:Ed. pose proof (payload_range db). rewrite tag_ok by lia. mred. case_if; [|answer].
  destruct mem; [|answer]. destruct (sad_block_total db Hdb) as [y ->]. mred. answer.
Qed.

Lemma speaker_total mem : exists y, drm_edid_to_speaker_allocation mem edid = Done y /\ any y.
Proof.
  apply query_total; [answer|]. intros cea Hc. destruct Hc as [Hlo Hhi] eqn:Ec.
  unfold cea_revision. rewrite byte_ok by lia. mred.
  case_if; [answer|]. apply walk_total; [done|answer|done|].
  intros db x [Hdl Hdh] _. pose proof (payload_range db). rewrite tag_ok by lia. mred. rewrite payload_ok by lia. mred.
  case_if; [|answer]. b2p. destruct mem; [|answer].
  destruct (slice_total (db + 1) (payload db)) as (l & -> & _); [lia..|]. mred. answer.
Qed.

(** ** Detailed timings *)

(** The callback is called for timings that are inside the EDID. *)
Definition timing_at (t : Z) : Prop := 0 <= t /\ t + 18 <= len.

Lemma each_detailed_total {A} (P : A -> Prop) (cb : Z -> A -> run A) a :
  P a -> (forall t x, timing_at t -> P x -> exists y, cb t x = Done y /\ P y) ->
  exists y, drm_for_each_detailed_block edid cb a = Done y /\ P y.
Proof.
  intros Ha Hcb. pose proof sized_min. pose proof (rd_ok 126). destruct detailed_timings as (E2 & E3).
  unfold drm_for_each_detailed_block. change EDID_DETAILED_TIMINGS with 4. rewrite E2, E3.
  destruct (for_loop_total P (fun i => cb (54 + 18 * i)) (Z.to_nat 4) 0 a Ha) as (y & -> & Hy).
  { intros k x Hk Hx. apply Hcb; [unfold timing_at; lia|done]. }
  mred. rewrite byte_ok by lia. mred. apply for_loop_total; [done|].
  intros k x Hk Hx. destruct Hs as [_ Hl]. rewrite edid_length, byte_ok by lia. mred.
  pose proof (rd_ok (k * 128 + 2)).
  case_if; [|case_if; [|by eauto]].
  - unfold cea_for_each_detailed_block. rewrite byte_ok by lia. mred. apply for_loop_total; [done|].
    intros j z Hj Hz. apply Hcb; [|done]. unfold timing_at.
    destruct (Z.le_gt_cases (rd edid (k * 128 + 2)) 127) as [Hd|Hd].
    + rewrite Z.quot_div_nonneg in Hj by lia.
      pose proof (Z.div_mod (127 - rd edid (k * 128 + 2)) 18 ltac:(lia)).
      pose proof (Z.mod_pos_bound (127 - rd edid (k * 128 + 2)) 18 ltac:(lia)). lia.
    + pose proof (Z.quot_pos (rd edid (k * 128 + 2) - 127) 18 ltac:(lia) ltac:(lia)) as Hq.
      replace (127 - rd edid (k * 128 + 2)) with (- (rd edid (k * 128 + 2) - 127)) in Hj by lia.
      rewrite Z.quot_opp_l in Hj by lia. lia.
  - unfold vtb_for_each_detailed_block. rewrite !byte_ok by lia. mred.
    case_if; [by eauto|]. apply for_loop_total; [done|].
    intros j z Hj Hz. apply Hcb; [|done]. unfold timing_at. lia.
Qed.

(** ** The ELD *)
Definition eld_ok (c : av_conn) : Prop := length (eld c) = 128%nat.

Lemma eld_put_total i v c : eld_ok c -> 0 <= i < 128 -> exists c', eld_put i v c = Done c' /\ eld_ok c'.
Proof.
  intros Hc Hi. unfold eld_put, poke. unfold eld_ok in *. rewrite Hc.
  destruct (Z.leb_spec 0 i), (Z.ltb_spec i (Z.of_nat 128)); try lia. cbn [andb]. mred.
  eexists. split; [done|]. cbn. by rewrite length_insert.
Qed.

Lemma eld_or_total i v c : eld_ok c -> 0 <= i < 128 -> exists c', eld_or i v c = Done c' /\ eld_ok c'.
Proof.
  intros Hc Hi. unfold eld_or. unfold eld_ok in Hc. rewrite byte_rd by lia. mred. by apply eld_put_total.
Qed.

Lemma vsdb_field_total db n f c :
  db_at db -> eld_ok c -> 0 <= n ->
  (forall b c, eld_ok c -> exists c', f b c = Done c' /\ eld_ok c') ->
  exists c', vsdb_field edid db (payload db) n f c = Done c' /\ eld_ok c'.
Proof.
  intros [Hlo Hhi] Hc Hn Hf. unfold vsdb_field. case_if; [|by eauto]. b2p. rewrite byte_ok by lia. mred. by apply Hf.
Qed.

Lemma parse_vsdb_total db c :
  db_at db -> eld_ok c -> exists c', parse_hdmi_vsdb edid db c = Done c' /\ eld_ok c'.
Proof.
  intros Hdb. destruct Hdb as [Hlo Hhi] eqn:Ed. pose proof (payload_range db). intros Hc.
  unfold parse_hdmi_vsdb. rewrite payload_ok by lia. mred.
  match goal with |- context [vsdb_field edid db (payload db) 6 ?f c] =>
    destruct (vsdb_field_total db 6 f c Hdb Hc) as (c1 & -> & Hc1); [lia| |] end.
  { intros b c0 H0'. destruct (eld_or_total 5 (Z.shiftl (Z.shiftr b 7) 1) c0) as (c1 & -> & Hc1); [done|lia|].
    mred. eexists. split; [done|]. exact Hc1. }
  mred. clear Hc.
  do 5 (match goal with Hc : eld_ok ?c0 |- context [vsdb_field edid db (payload db) ?n ?f ?c0] =>
    destruct (vsdb_field_total db n f c0 Hdb Hc) as (? & -> & ?); [lia|intros ??; by eauto|]; mred; clear Hc end).
  apply vsdb_field_total; [done..|lia|]. intros ??. by eauto.
Qed.

Lemma name_loop_total name n mnl c :
  0 <= name -> name + mnl + Z.of_nat n <= len -> 0 <= mnl -> mnl + Z.of_nat n <= 13 -> eld_ok c ->
  exists m c', name_loop edid name n mnl c = Done (m, c') /\ 0 <= m <= 13 /\ eld_ok c'.
Proof.
  revert mnl c. induction n as [|n IH]; intros mnl c Hn1 Hn2 Hm Hmn Hc; cbn [name_loop].
  { exists mnl, c. split; [done|]. split; [lia|done]. }
  rewrite byte_ok by lia. mred. case_if; [exists mnl, c; split; [done|]; split; [lia|done]|].
  destruct (eld_put_total (20 + mnl) (rd edid (name + mnl)) c) as (c' & -> & Hc'); [done|lia|]. mred.
  apply IH; [lia..|done].
Qed.

Lemma eld_block_total mnl db n c :
  db_at db -> 0 <= mnl <= 13 -> eld_ok c ->
  exists m c', eld_block edid mnl db n c = Done (m, c') /\ eld_ok c'.
Proof.
  intros Hdb Hm Hc. destruct Hdb as [Hlo Hhi] eqn:Ed. pose proof (payload_range db) as Hp.
  unfold eld_block. rewrite tag_ok by lia. mred. rewrite payload_ok by lia. mred.
  case_if; [case_if; [|by eauto]|case_if; [case_if; [|by eauto]|case_if; [|by eauto]]]; b2p.
  - destruct (slice_total (db + 1) (payload db)) as (l & -> & Hl); [lia..|]. mred.
    unfold eld_ok in Hc. assert (Hput : exists l', put (20 + mnl) l (eld c) = Done l' /\ length l' = 128%nat).
    { unfold put. rewrite Hc. destruct (Z.leb_spec 0 (20 + mnl)); [|lia].
      destruct (Z.leb_spec (20 + mnl + Z.of_nat (length l)) (Z.of_nat 128)); [|lia]. cbn [andb].
      eexists. split; [done|]. rewrite !length_app, length_take, length_drop. lia. }
    destruct Hput as (l' & -> & Hl'). mred. by eauto.
  - rewrite byte_ok by lia. mred. destruct (eld_put_total 7 (rd edid (db + 1)) c) as (c' & -> & Hc'); [done|lia|].
    mred. by eauto.
  - destruct (hdmi_vsdb_total db Hdb) as [[] ->]; mred; [|by eauto].
    destruct (parse_vsdb_total db c Hdb Hc) as (c' & -> & Hc'). mred. by eauto.
Qed.

Lemma eld_blocks_total cea mnl c :
  ext_at cea -> 0 <= mnl <= 13 -> eld_ok c ->
  exists m c', eld_blocks edid cea mnl c = Done (m, c') /\ eld_ok c'.
Proof.
  intros Hcea Hm Hc. destruct Hcea as [Hlo Hhi] eqn:Ec. unfold eld_blocks, cea_revision. rewrite byte_ok by lia. mred.
  case_if; [|by eauto]. destruct (offsets_total cea Hcea) as (r & -> & Hr). mred.
  assert (Hrange : exists s e, default (0, 0) r = (s, e) /\ 0 <= s /\ e <= 127).
  { destruct r as [[s e]|]; cbn; [destruct (Hr s e eq_refl)|]; eexists _, _; (split; [done|]); lia. }
  destruct Hrange as (s & e & -> & Hs0 & He).
  edestruct (cea_loop_total (fun x : Z * av_conn => eld_ok x.2)) as ((m & c') & Hl & Hc');
    [exact Hcea|exact Hs0|exact He|exact (Hc : eld_ok (0, c).2)| |rewrite Hl; by eauto].
  intros db [m c'] Hdb Hx. cbn in Hx. destruct (eld_block_total mnl db m c' Hdb Hm Hx) as (m' & c'' & -> & Hc''). mred.
  by eauto.
Qed.

Lemma eld_total c : exists c', drm_edid_to_eld edid c = Done c' /\ eld_ok c'.
Proof.
  pose proof sized_min. destruct eld_layout as [EL EM], ids as [EI EP], descriptor as [ET ES].
  unfold drm_edid_to_eld. rewrite EM, EI, EP, EL.
  assert (Hc : eld_ok (set_eld (replicate (Z.to_nat 128) 0) c)) by (unfold eld_ok; cbn [eld set_eld]; by rewrite length_replicate).
  apply query_total; [by eexists|]. intros cea Hcea. destruct Hcea as [Hlo Hhi] eqn:Ec.
  destruct (each_detailed_total (fun o => forall n, o = Some n -> 0 <= n /\ n + 13 <= len) (monitor_name edid) None)
    as (name & -> & Hname).
  { done. }
  { intros t x [Ht1 Ht2] Hx. unfold monitor_name. rewrite ET, ES, byte_ok by lia. mred. eexists. split; [done|].
    case_if; [|done]. intros n [= <-]. lia. }
  mred.
  assert (Hnl : exists m c1, (match name with Some n => name_loop edid n 13 0 (set_eld (replicate (Z.to_nat 128) 0) c)
                | None => Done (0, set_eld (replicate (Z.to_nat 128) 0) c) end) = Done (m, c1) /\ 0 <= m <= 13 /\ eld_ok c1).
  { destruct name as [n|]; [|eexists _, _; split; [done|]; split; [lia|done]].
    destruct (Hname n eq_refl). apply name_loop_total; [lia..|done]. }
  destruct Hnl as (mnl & c1 & -> & Hm & Hc1). mred. rewrite !byte_ok by lia. mred.
  repeat (match goal with Hc' : eld_ok ?x |- context [eld_put ?i ?v ?x] =>
    destruct (eld_put_total i v x Hc') as (? & -> & ?); [lia|]; mred; clear Hc'; rewrite ?byte_ok by lia; mred end).
  match goal with Hc' : eld_ok ?x |- context [eld_blocks edid cea mnl ?x] =>
    destruct (eld_blocks_total cea mnl x Hcea Hm Hc') as (n & c2 & -> & Hc2); mred end.
  destruct (eld_or_total 5 (Z.shiftl n 4) c2 Hc2) as (c3 & -> & Hc3); [lia|]. mred.
  apply eld_put_total; [done|lia].
Qed.

End total.

(** ** A CEA extension made of data blocks *)

(** A block is its tag and its payload. *)
Definition encode_db (d : Z * list Z) : list Z := (d.1 * 32 + Z.of_nat (length d.2)) :: d.2.
Definition db_wf (d : Z * list Z) : Prop :=
  0 <= d.1 < 8 /\ (length d.2 < 32)%nat /\ Forall is_u8 d.2.

(** The walk over blocks, until [f] says stop. *)
Fixpoint fold_stop {A} (f : Z * list Z -> A -> A * bool) (dbs : list (Z * list Z)) (a : A) : A :=
  match dbs with
  | [] => a
  | d :: dbs => let '(a, stop) := f d a in if stop : bool then a else fold_stop f dbs a
  end.

Lemma byte_mid pre l post k x :
  l !! k = Some x -> byte (pre ++ l ++ post) (Z.of_nat (length pre) + Z.of_nat k) = Done x.
Proof.
  intros Hk. pose proof (lookup_lt_Some _ _ _ Hk). unfold byte.
  destruct (Z.ltb_spec (Z.of_nat (length pre) + Z.of_nat k) 0); [lia|].
  rewrite lookup_app_r by lia. replace (Z.to_nat _ - length pre)%nat with k by lia.
  by rewrite lookup_app_l, Hk by done.
Qed.

Lemma byte_head pre d post :
  byte (pre ++ encode_db d ++ post) (Z.of_nat (length pre)) = Done (d.1 * 32 + Z.of_nat (length d.2)).
Proof.
  replace (Z.of_nat (length pre)) with (Z.of_nat (length pre) + Z.of_nat 0) by lia. by apply byte_mid.
Qed.

Lemma byte_payload pre d post k x :
  d.2 !! k = Some x ->
  byte (pre ++ encode_db d ++ post) (Z.of_nat (length pre) + (Z.of_nat k + 1)) = Done x.
Proof.
  intros Hk. replace (Z.of_nat k + 1) with (Z.of_nat (S k)) by lia. by apply byte_mid.
Qed.

Lemma db_len pre d post :
  db_wf d -> cea_db_payload_len (pre ++ encode_db d ++ post) (Z.of_nat (length pre)) = Done (Z.of_nat (length d.2)).
Proof.
  intros (_ & Hl & _). unfold cea_db_payload_len. rewrite byte_head. mred. f_equal.
  assert (E : forall x, Z.land x 31 = x mod 32) by (intros x; apply (Z.land_ones x 5); lia).
  rewrite E, Z.add_comm, Z.mod_add, Z.mod_small by lia. done.
Qed.

Lemma db_tag pre d post :
  db_wf d -> cea_db_tag (pre ++ encode_db d ++ post) (Z.of_nat (length pre)) = Done d.1.
Proof.
  intros (Ht & Hl & _). unfold cea_db_tag. rewrite byte_head. mred. f_equal.
  rewrite Z.shiftr_div_pow2 by lia. change (2 ^ 5) with 32.
  rewrite Z.add_comm, Z.div_add, Z.div_small by lia. lia.
Qed.

(** The loop visits the blocks in order. *)
Lemma loop_dbs {A} (f : Z * list Z -> A -> A * bool) edid cea body :
  (forall pre d post a, edid = pre ++ encode_db d ++ post -> db_wf d ->
     body (Z.of_nat (length pre)) a = Done (f d a)) ->
  forall dbs pre post i e a fuel,
    Forall db_wf dbs -> edid = pre ++ concat (encode_db <$> dbs) ++ post ->
    Z.of_nat (length pre) = cea + i -> e = i + Z.of_nat (length (concat (encode_db <$> dbs))) ->
    e - i < Z.of_nat fuel ->
    for_each_cea_db fuel edid cea i e body a = Done (fold_stop f dbs a).
Proof.
  intros Hbody dbs. induction dbs as [|d dbs IH]; intros pre post i e a fuel Hwf Hed Hpre He Hf;
    (destruct fuel as [|fuel]; [cbn in *; lia|]); cbn [fmap list_fmap concat fold_stop for_each_cea_db] in *.
  { cbn in He. destruct (Z.leb_spec e i); [done|lia]. }
  apply Forall_cons in Hwf as [Hd Hwf]. rewrite length_app in He. cbn [encode_db length] in He.
  rewrite <- app_assoc in Hed.
  destruct (Z.leb_spec e i); [lia|]. rewrite <- Hpre, Hed, db_len by done. mred.
  destruct (Z.leb_spec e (i + Z.of_nat (length d.2))); [lia|]. rewrite <- Hed.
  rewrite (Hbody pre d (concat (encode_db <$> dbs) ++ post)) by done. mred.
  destruct (f d a) as [a' stop]. destruct stop; [done|].
  apply (IH (pre ++ encode_db d) post); [done| | | |].
  - by rewrite <- app_assoc.
  - rewrite length_app. cbn [encode_db length]. lia.
  - lia.
  - lia.
Qed.

(** The first CEA extension of [edid] is at [cea], of revision 3 or later, and its
    data blocks are [dbs]. *)
Definition carries (edid : list Z) (cea : Z) (dbs : list (Z * list Z)) : Prop :=
  drm_find_cea_extension edid = Done (Some cea) /\ Forall db_wf dbs /\
  Z.of_nat (length (concat (encode_db <$> dbs))) <= 123 /\
  exists pre tag rev flags post, Z.of_nat (length pre) = cea /\ 3 <= rev /\
    edid = pre ++ [tag; rev; 4 + Z.of_nat (length (concat (encode_db <$> dbs))); flags] ++
           concat (encode_db <$> dbs) ++ post.

Section walk.
Context (edid : list Z) (cea : Z) (dbs : list (Z * list Z)) (Hcar : carries edid cea dbs).

Lemma carries_revision : exists rev, cea_revision edid cea = Done rev /\ (rev <? 3) = false.
Proof.
  destruct Hcar as (_ & _ & _ & pre & tag & rev & flags & post & Hpre & Hrev & Hed).
  exists rev. split; [|lia]. unfold cea_revision. rewrite Hed, <- Hpre. by apply (byte_mid pre _ _ 1).
Qed.

Lemma carries_walk {A} (f : Z * list Z -> A -> A * bool) none body a :
  (forall pre d post a, edid = pre ++ encode_db d ++ post -> db_wf d ->
     body (Z.of_nat (length pre)) a = Done (f d a)) ->
  (off ← cea_db_offsets edid cea;
   match off with None => none | Some (start, e) => for_each_cea_db cea_fuel edid cea start e body a end) =
  Done (fold_stop f dbs a).
Proof.
  intros Hb. destruct Hcar as (_ & Hwf & Hlen & pre & tag & rev & flags & post & Hpre & Hrev & Hed).
  set (n := Z.of_nat (length (concat (encode_db <$> dbs)))) in *. assert (0 <= n) by (subst n; lia).
  assert (E2 : byte edid (cea + 2) = Done (4 + n)) by (rewrite Hed, <- Hpre; by apply (byte_mid pre _ _ 2)).
  unfold cea_db_offsets. rewrite E2. mred. destruct (Z.eqb_spec (4 + n) 0); [lia|].
  destruct (Z.ltb_spec (4 + n) 4); [lia|]. destruct (Z.ltb_spec 127 (4 + n)); [lia|]. cbn [orb].
  refine (loop_dbs f edid cea body Hb dbs (pre ++ [tag; rev; 4 + n; flags]) post _ _ _ _ Hwf _ _ _ _).
  - by rewrite Hed, <- app_assoc.
  - rewrite length_app. cbn [length]. lia.
  - subst n. lia.
  - unfold cea_fuel. lia.
Qed.

End walk.

(** What the blocks say. *)
Definition oui (p : list Z) : Z := rd p 0 + rd p 1 * 256 + rd p 2 * 65536.
Definition is_vsdb (d : Z * list Z) : bool :=
  (d.1 =? VENDOR_BLOCK) && (5 <=? Z.of_nat (length d.2)) && (oui d.2 =? HDMI_IEEE_OUI).
Definition is_speaker (d : Z * list Z) : bool := (d.1 =? SPEAKER_BLOCK) && (Z.of_nat (length d.2) =? 3).
Definition is_vcdb (d : Z * list Z) : bool := (d.1 =? VIDEO_CAPABILITY_BLOCK) && (Z.of_nat (length d.2) =? 2).
Definition is_audio (d : Z * list Z) : bool := d.1 =? AUDIO_BLOCK.

(** Short audio descriptors as bytes. *)
Definition encode_sad (s : cea_sad) : list Z := [format s * 8 + channels s; freq s; byte2 s].
Definition sad_wf (s : cea_sad) : Prop :=
  0 <= format s < 16 /\ 0 <= channels s < 8 /\ 0 <= freq s < 128 /\ is_u8 (byte2 s).

Lemma fold_find {A} (P : Z * list Z -> bool) (g : Z * list Z -> A) dbs a :
  fold_stop (fun d a => if P d then (g d, true) else (a, false)) dbs a =
  match List.find P dbs with Some d => g d | None => a end.
Proof. induction dbs as [|d dbs IH]; cbn; [done|]. by destruct (P d). Qed.

Lemma payload_byte pre d post k :
  1 <= k <= Z.of_nat (length d.2) ->
  byte (pre ++ encode_db d ++ post) (Z.of_nat (length pre) + k) = Done (rd d.2 (k - 1)).
Proof.
  intros Hk. destruct (lookup_lt_is_Some_2 d.2 (Z.to_nat (k - 1))) as [x Hx]; [lia|].
  unfold rd. rewrite Hx. replace k with (Z.of_nat (Z.to_nat (k - 1)) + 1) at 1 by lia. by apply byte_payload.
Qed.

Lemma oui_spec a b c : is_u8 a -> is_u8 b -> is_u8 c ->
  Z.lor a (Z.lor (Z.shiftl b 8) (Z.shiftl c 16)) = a + b * 256 + c * 65536.
Proof.
  unfold is_u8. intros Ha Hb Hc.
  replace (Z.shiftl c 16) with (Z.shiftl (Z.shiftl c 8) 8) by (by rewrite Z.shiftl_shiftl).
  rewrite <- Z.shiftl_lor, (Z.lor_comm b), (Z.lor_comm a), !lor_shift by (change (2 ^ 8) with 256; lia). lia.
Qed.

Lemma vsdb_spec pre d post :
  db_wf d -> cea_db_is_hdmi_vsdb (pre ++ encode_db d ++ post) (Z.of_nat (length pre)) = Done (is_vsdb d).
Proof.
  intros Hd. destruct Hd as (Ht & Hl & Hu) eqn:Ed. unfold cea_db_is_hdmi_vsdb, is_vsdb.
  rewrite db_tag by done. mred. destruct (d.1 =? VENDOR_BLOCK); cbn [negb andb]; [|done].
  rewrite db_len by done. mred. destruct (Z.ltb_spec (Z.of_nat (length d.2)) 5), (Z.leb_spec 5 (Z.of_nat (length d.2))); try lia; [done|].
  rewrite !payload_byte by lia. mred.
  rewrite oui_spec by (by apply rd_u8). done.
Qed.

(** The descriptors in a payload. *)
Fixpoint sads_of (p : list Z) : list cea_sad :=
  match p with
  | b0 :: b1 :: b2 :: p => MkSad (Z.shiftr (Z.land b0 120) 3) (Z.land b0 7) (Z.land b1 127) b2 :: sads_of p
  | _ => []
  end.

Lemma sad_decode s :
  sad_wf s -> sads_of (encode_sad s) = [s].
Proof.
  destruct s as [f c q b]. intros (Hf & Hc & Hq & Hb). unfold encode_sad. cbn [format channels freq byte2 sads_of] in *.
  assert (E7 : Z.land (f * 8 + c) 7 = c).
  { transitivity ((f * 8 + c) mod 8); [apply (Z.land_ones _ 3); lia|]. rewrite Z.add_comm, Z.mod_add, Z.mod_small by lia. done. }
  assert (Eq : Z.land q 127 = q) by (transitivity (q mod 128); [apply (Z.land_ones _ 7)|apply Z.mod_small]; lia).
  assert (Ef : Z.shiftr (Z.land (f * 8 + c) 120) 3 = f).
  { rewrite Z.shiftr_land. transitivity (Z.shiftr (f * 8 + c) 3 mod 16); [apply (Z.land_ones _ 4); lia|].
    rewrite Z.shiftr_div_pow2 by lia. change (2 ^ 3) with 8.
    rewrite Z.add_comm, Z.div_add, Z.div_small, Z.add_0_l, Z.mod_small by lia. done. }
  by rewrite E7, Eq, Ef.
Qed.

Lemma sads_roundtrip sads : Forall sad_wf sads -> sads_of (concat (encode_sad <$> sads)) = sads.
Proof.
  induction 1 as [|s sads Hs _ IH]; [done|]. cbn [fmap list_fmap concat].
  apply sad_decode in Hs. unfold encode_sad in *. cbn [app sads_of] in *. injection Hs as ->. by rewrite IH.
Qed.

Lemma sad_loop_spec pre post q :
  forall k l acc, Z.of_nat (length l) = k * 3 ->
  for_loop (length q / 3)%nat k (fun j acc =>
    s ← read_sad (pre ++ (l ++ q) ++ post) (Z.of_nat (length pre) + j * 3); Done (acc ++ [s])) acc =
  Done (acc ++ sads_of q).
Proof.
  induction q as [q IH] using (induction_ltof1 _ (@length Z)). unfold ltof in IH. intros k l acc Hl.
  destruct q as [|b0 [|b1 [|b2 q]]]; [cbn; by rewrite app_nil_r..|].
  replace (length (b0 :: b1 :: b2 :: q) / 3)%nat with (S (length q / 3)).
  2: { cbn [length]. change (S (S (S (length q)))) with (3 + length q)%nat.
       rewrite <- (Nat.mul_1_l 3) at 2. by rewrite Nat.div_add_l. }
  cbn [for_loop sads_of].
  assert (Hr : forall i x, [b0; b1; b2] !! i = Some x ->
    byte (pre ++ (l ++ b0 :: b1 :: b2 :: q) ++ post) (Z.of_nat (length pre) + k * 3 + Z.of_nat i) = Done x).
  { intros i x Hx. rewrite <- Hl, <- Z.add_assoc, <- Nat2Z.inj_add. apply byte_mid.
    rewrite lookup_app_r by lia. replace (length l + i - length l)%nat with i by lia.
    change (([b0; b1; b2] ++ q) !! i = Some x). rewrite lookup_app_l; [done|]. by apply lookup_lt_Some in Hx. }
  assert (Hread : read_sad (pre ++ (l ++ b0 :: b1 :: b2 :: q) ++ post) (Z.of_nat (length pre) + k * 3) =
    Done (MkSad (Z.shiftr (Z.land b0 120) 3) (Z.land b0 7) (Z.land b1 127) b2)).
  { unfold read_sad. pose proof (Hr 0%nat b0 eq_refl) as E0. rewrite Z.add_0_r in E0.
    pose proof (Hr 1%nat b1 eq_refl : byte _ (_ + 1) = _) as E1. pose proof (Hr 2%nat b2 eq_refl : byte _ (_ + 2) = _) as E2.
    rewrite E0. mred. rewrite E1. mred. by rewrite E2. }
  rewrite Hread. mred.
  specialize (IH q ltac:(cbn; lia) (k + 1) (l ++ [b0; b1; b2])).
  replace ((l ++ [b0; b1; b2]) ++ q) with (l ++ b0 :: b1 :: b2 :: q) in IH by (by rewrite <- app_assoc).
  rewrite IH; [by rewrite <- app_assoc|]. rewrite length_app. cbn [length]. lia.
Qed.

Lemma sad_block_spec pre d post :
  db_wf d -> sad_block (pre ++ encode_db d ++ post) (Z.of_nat (length pre)) = Done (sads_of d.2).
Proof.
  intros Hd. unfold sad_block. rewrite db_len by done. mred.
  replace (Z.to_nat (Z.of_nat (length d.2) / 3)) with (length d.2 / 3)%nat
    by (by rewrite <- (Nat2Z.id (length d.2 / 3)), Nat2Z.inj_div).
  pose proof (sad_loop_spec (pre ++ [d.1 * 32 + Z.of_nat (length d.2)]) post d.2 0 [] [] eq_refl) as Hl.
  rewrite length_app, Nat2Z.inj_add, <- app_assoc in Hl. exact Hl.
Qed.

(** A CEA extension is read as the data blocks it is made of: the monitor is
    HDMI exactly when one of them is an HDMI vendor block; the audio descriptors
    are those of the first audio block, as they were encoded; the speakers are the
    bytes of the first speaker block of three; and the RGB range is selectable when
    the first capability block says so. *)
Theorem cea_blocks_roundtrip edid cea dbs :
  carries edid cea dbs ->
  drm_detect_hdmi_monitor edid = Done (existsb is_vsdb dbs) /\
  (forall sads, List.find is_audio dbs = Some (AUDIO_BLOCK, concat (encode_sad <$> sads)) -> Forall sad_wf sads ->
     drm_edid_to_sad true edid = Done (Z.of_nat (length sads), sads)) /\
  (List.find is_audio dbs = None -> drm_edid_to_sad true edid = Done (0, [])) /\
  drm_edid_to_speaker_allocation true edid =
    Done match List.find is_speaker dbs with Some d => (3, d.2) | None => (0, []) end /\
  drm_rgb_quant_range_selectable edid =
    Done match List.find is_vcdb dbs with Some d => truth (Z.land (rd d.2 1) EDID_CEA_VCDB_QS) | None => false end.
Proof.
  intros Hcar. pose proof (proj1 Hcar) as Hfind. destruct (carries_revision edid cea dbs Hcar) as (rev & Hrev & H3).
  assert (Hsad : drm_edid_to_sad true edid = Done match List.find is_audio dbs with
    Some d => (Z.of_nat (length (sads_of d.2)), sads_of d.2) | None => (0, []) end).
  { unfold drm_edid_to_sad. rewrite Hfind. mred. rewrite Hrev. mred. rewrite H3, <- fold_find.
    apply (carries_walk edid cea dbs Hcar). intros pre d post a -> Hd. rewrite db_tag by done. mred.
    unfold is_audio. case_if; [|done]. rewrite sad_block_spec by done. done. }
  split; [|split; [|split; [|split]]].
  - unfold drm_detect_hdmi_monitor. rewrite Hfind. mred.
    etrans; [apply (carries_walk edid cea dbs Hcar (fun d _ => (is_vsdb d, is_vsdb d)))|].
    + intros pre d post a -> Hd. rewrite vsdb_spec by done. done.
    + f_equal. clear -H1. induction dbs as [|d dbs IH]; cbn; [done|]. by destruct (is_vsdb d).
  - intros sads Hf Hs. rewrite Hsad, Hf. cbn [snd]. by rewrite sads_roundtrip.
  - intros Hf. by rewrite Hsad, Hf.
  - unfold drm_edid_to_speaker_allocation. rewrite Hfind. mred. rewrite Hrev. mred. rewrite H3, <- fold_find.
    apply (carries_walk edid cea dbs Hcar). intros pre d post a -> Hd. rewrite db_tag by done. mred.
    rewrite db_len by done. mred. unfold is_speaker. case_if; [|done]. b2p.
    assert (Hsl : slice (Z.of_nat (length pre) + 1) (Z.of_nat (length d.2)) (pre ++ encode_db d ++ post) = Done d.2).
    { pose proof (slice_mid (pre ++ [d.1 * 32 + Z.of_nat (length d.2)]) d.2 post) as Hm.
      rewrite length_app, Nat2Z.inj_add, <- app_assoc in Hm. exact Hm. }
    rewrite Hsl. mred. congruence.
  - unfold drm_rgb_quant_range_selectable. rewrite Hfind. mred. rewrite <- fold_find.
    apply (carries_walk edid cea dbs Hcar). intros pre d post a -> Hd. rewrite db_tag by done. mred.
    rewrite db_len by done. mred. unfold is_vcdb. case_if; [|done]. b2p. rewrite payload_byte by lia. done.
Qed.

(** ** Whatever a monitor sends *)
Lemma picked_u8 Q js vs : picked (block_data Q) js vs -> Forall is_u8 (concat vs).
Proof.
  intros [Hv _]%picked_length. induction Hv as [|v vs (_ & Hu & _) _ IH]; cbn; [done|]. by apply Forall_app.
Qed.

Lemma set_extensions_u8 v blk : is_u8 v -> Forall is_u8 blk -> Forall is_u8 (set_extensions v blk).
Proof.
  intros Hv Hb. unfold set_extensions. case_if; [done|]. by repeat apply Forall_insert; auto with drm.
Qed.

Lemma repaired_u8 fixup b : Forall is_u8 b -> Forall is_u8 (repaired fixup b 0).
Proof.
  intros Hb. unfold repaired. case_if; [|done]. apply Forall_app. split; [|by apply Forall_drop].
  unfold edid_header, is_u8. repeat (apply Forall_cons; split; [lia|]). done.
Qed.

Lemma fetched_sized {E : Type} fixup (get : list Z -> Z -> E -> Z * list Z * E) Q garbage debug mem c e raw c' e' :
  reads (fun _ => True) Q get ->
  drm_do_get_edid get fixup garbage debug mem c e = Done (Some raw, c', e') -> sized raw.
Proof.
  intros Hget Hr. destruct (edid_fetched fixup get _ Q Hget garbage debug mem c e I) as (r & c2 & e2 & Hr2 & _ & Hres).
  rewrite Hr in Hr2. injection Hr2 as <- _ _.
  destruct (Hres raw eq_refl) as (b & vs & (Hl & Hu & _) & Ha & Hp & Hraw & Hlen & _).
  split; [|lia]. rewrite Hraw. apply Forall_app. split; [|by eapply picked_u8].
  apply set_extensions_u8; [|by apply repaired_u8]. destruct (picked_length _ _ _ Hp) as [_ Hle].
  rewrite length_seqZ in Hle. pose proof (rd_u8 _ 126 (repaired_u8 fixup b Hu)). unfold is_u8 in *. lia.
Qed.

(** C30: whatever a monitor sends: on every EDID that [drm_do_get_edid] returns,
    for every block reader, all queries return (they leave neither the EDID nor the
    ELD and their loops end), and the ELD keeps its size. *)
Theorem edid_queries_safe {E : Type} fixup (get : list Z -> Z -> E -> Z * list Z * E) Q garbage debug mem c e raw c' e' :
  reads (fun _ => True) Q get ->
  drm_do_get_edid get fixup garbage debug mem c e = Done (Some raw, c', e') ->
  (exists y, drm_detect_hdmi_monitor raw = Done y) /\
  (exists y, drm_detect_monitor_audio raw = Done y) /\
  (exists y, drm_rgb_quant_range_selectable raw = Done y) /\
  (forall info, exists y, drm_assign_hdmi_deep_color_info raw info = Done y) /\
  (forall m, exists y, drm_edid_to_sad m raw = Done y) /\
  (forall m, exists y, drm_edid_to_speaker_allocation m raw = Done y) /\
  (forall av, exists av', drm_edid_to_eld raw av = Done av' /\ length (eld av') = 128%nat).
Proof.
  intros Hget Hr. pose proof (fetched_sized _ _ _ _ _ _ _ _ _ _ _ Hget Hr) as Hs.
  split; [destruct (detect_hdmi_total raw Hs) as (y & Hy & _); by eauto|].
  split; [destruct (detect_audio_total raw Hs) as (y & Hy & _); by eauto|].
  split; [destruct (quant_total raw Hs) as (y & Hy & _); by eauto|].
  split; [intros info; destruct (deep_total raw Hs info) as (y & Hy & _); by eauto|].
  split; [intros m; destruct (sad_total raw Hs m) as (y & Hy & _); by eauto|].
  split; [intros m; destruct (speaker_total raw Hs m) as (y & Hy & _); by eauto|].
  intros av. exact (eld_total raw Hs av).
Qed.

End cea.

(** ** A sample *)
#[local] Existing Instance std_edid.
#[local] Existing Instance std_edid_ok.

#[local] Instance std_cea : drm_edid_cea_h := {|
  CEA_EXT := 2; VTB_EXT := 16; DISPLAYID_EXT := 112; edid_detailed := 54;
  edid_mfg_id := 8; edid_prod_code := 10; detailed_size := 18; detailed_type := 3; detailed_str := 5;
  EDID_DETAIL_MONITOR_NAME := 252; HDMI_IEEE_OUI := 3075; DRM_ELD_BASELINE_ELD_LEN := 2;
  drm_eld_calc_baseline_block_size l := 16 + Z.land (rd l 4) 31 + Z.shiftr (rd l 5) 4 * 3;
  MAX_ELD_BYTES := 128;
  DRM_EDID_HDMI_DC_30 := 16; DRM_EDID_HDMI_DC_36 := 32; DRM_EDID_HDMI_DC_48 := 64; DRM_EDID_HDMI_DC_Y444 := 8;
  DRM_COLOR_FORMAT_RGB444 := 1; DRM_COLOR_FORMAT_YCRCB444 := 2 |}.

#[local] Instance std_cea_ok : drm_edid_cea_h_ok.
Proof. by split. Qed.

(** A base block and a CEA extension with an audio, a speaker and an HDMI block. *)
Definition sample_sads : list cea_sad := [MkSad 1 1 7 7; MkSad 2 5 127 80].
Definition sample_dbs : list (Z * list Z) :=
  [(1, concat (encode_sad <$> sample_sads)); (4, [79; 0; 0]); (3, [3; 12; 0; 16; 0; 128; 44]); (7, [0; 64])].
Definition sample_edid : list Z :=
  let data := concat (encode_db <$> sample_dbs) in
  (rom_block sample_rom 0) ++ [2; 3; 4 + Z.of_nat (length data); 0] ++ data ++ replicate (252 - length data) 0.

Lemma sample_carries : carries sample_edid 128 sample_dbs.
Proof.
  split; [vm_compute; reflexivity|]. split.
  { repeat (apply Forall_cons; split; [split; [cbn; lia|split; [cbn; lia|]]; repeat (apply Forall_cons; split; [unfold is_u8; cbn; lia|]); done|]). done. }
  split; [vm_compute; discriminate|].
  exists (rom_block sample_rom 0), 2, 3, 0, (replicate (252 - length (concat (encode_db <$> sample_dbs))) 0).
  split; [vm_compute; reflexivity|]. split; [lia|reflexivity].
Qed.

Lemma cea_blocks_roundtrip_witness :
  drm_detect_hdmi_monitor sample_edid = Done true /\ drm_edid_to_sad true sample_edid = Done (2, sample_sads).
Proof.
  destruct (cea_blocks_roundtrip sample_edid 128 sample_dbs sample_carries) as (Hh & Hs & _).
  split; [exact Hh|]. apply (Hs sample_sads); [reflexivity|].
  repeat (apply Forall_cons; split; [repeat split; cbn; lia|]). apply Forall_nil; done.
Defined.

Definition sample_get (buf : list Z) (j : Z) (e : unit) : Z * list Z * unit := (0, rom_block sample_rom j, e).
Definition sample_raw : list Z := set_extensions 1 (rom_block sample_rom 0) ++ rom_block sample_rom 1.

Lemma sample_reads : reads (fun _ : unit => True) (fun j b => b = rom_block sample_rom j) sample_get.
Proof.
  intros buf j e ret buf' e' _ Hj Hb [= <- <- <-].
  assert (Hl : length (rom_block sample_rom j) = 128%nat) by (unfold rom_block; by rewrite length_fmap, length_seqZ).
  split; [done|]. split; [done|]. intros _. split; [done|]. split; [|done].
  apply Forall_fmap, Forall_true. intros x. apply sample_rom_u8.
Qed.

Lemma edid_queries_safe_witness :
  drm_do_get_edid sample_get 6 (fun _ => 0) false (true, true, true) (MkConn 0 0) tt =
    Done (Some sample_raw, MkConn 0 1, tt) /\
  exists y, drm_detect_hdmi_monitor sample_raw = Done y.
Proof.
  assert (Hr : drm_do_get_edid sample_get 6 (fun _ => 0) false (true, true, true) (MkConn 0 0) tt =
    Done (Some sample_raw, MkConn 0 1, tt)) by (vm_compute; reflexivity).
  split; [exact Hr|].
  exact (proj1 (edid_queries_safe 6 sample_get _ (fun _ => 0) false (true, true, true) (MkConn 0 0) tt
    sample_raw (MkConn 0 1) tt sample_reads Hr)).
Defined.

(** A CEA extension without detailed timings (its offset is 0, which
    [cea_db_offsets] reads as no timings) is still searched for them from its
    first byte: its header and its data blocks are passed to the callbacks as
    seven timings, and its flags can make the first one a monitor name. *)
Theorem cea_timings_offset_zero :
  let edid := rom_block sample_rom 0 ++ [2; 3; 0; 252] ++ replicate 124 65 in
  cea_db_offsets edid 128 = Done (Some (4, 127)) /\
  cea_for_each_detailed_block edid (fun t l => Done (l ++ [t])) 128 [] =
    Done [128; 146; 164; 182; 200; 218; 236] /\
  cea_for_each_detailed_block edid (monitor_name edid) 128 None = Done (Some (128 + 5)).
Proof. vm_compute. repeat split. Qed.
