(* ===== verification/DrmEdidTables.v ===== *)
(** * The mode tables of drm_edid.c

    The tables of standard modes, as they are in the source: the DMT modes, the
    established timings, the modes of the established timings III descriptor, the
    sizes tried for inferred modes, the CEA modes by video code and the HDMI modes.
    [DRM_MODE] is the initialiser macro of include/drm/drm_crtc.h. *)

From S2P Require Import Prelude DrmModes.

(** Constants of the headers that this part uses beyond those of drm_modes.c. *)
Class drm_edid_modes_h := {
  DRM_MODE_TYPE_DRIVER : Z;
  HDMI_PICTURE_ASPECT_NONE : Z; HDMI_PICTURE_ASPECT_4_3 : Z; HDMI_PICTURE_ASPECT_16_9 : Z;
  DRM_MODE_FLAG_3D_TOP_AND_BOTTOM : Z; DRM_MODE_FLAG_3D_SIDE_BY_SIDE_HALF : Z;
}.

Section tables.
Context `{drm_modes_h} `{drm_edid_modes_h}.

Definition DRM_MODE (nm : Z * Z * bool) (c hd hss hse ht hsk vd vss vse vt vs f vr : Z) : drm_display_mode :=
  mk_mode 0 (Some nm) 0 DRM_MODE_TYPE_DRIVER (mk_timings c hd hss hse ht hsk vd vss vse vt vs) f zero_crtc vr 0.

#[local] Notation F_PHSYNC := DRM_MODE_FLAG_PHSYNC.
#[local] Notation F_NHSYNC := DRM_MODE_FLAG_NHSYNC.
#[local] Notation F_PVSYNC := DRM_MODE_FLAG_PVSYNC.
#[local] Notation F_NVSYNC := DRM_MODE_FLAG_NVSYNC.
#[local] Notation F_INTERLACE := DRM_MODE_FLAG_INTERLACE.
#[local] Notation F_DBLCLK := DRM_MODE_FLAG_DBLCLK.
#[local] Notation F_DBLSCAN := DRM_MODE_FLAG_DBLSCAN.

(** Autogenerated from the DMT spec. *)
Definition drm_dmt_modes : list drm_display_mode :=
  [ DRM_MODE (640, 350, false) 31500 640 672 736 832 0 350 382 385 445 0 (Z.lor F_PHSYNC F_NVSYNC) 0;
    DRM_MODE (640, 400, false) 31500 640 672 736 832 0 400 401 404 445 0 (Z.lor F_NHSYNC F_PVSYNC) 0;
    DRM_MODE (720, 400, false) 35500 720 756 828 936 0 400 401 404 446 0 (Z.lor F_NHSYNC F_PVSYNC) 0;
    DRM_MODE (640, 480, false) 25175 640 656 752 800 0 480 489 492 525 0 (Z.lor F_NHSYNC F_NVSYNC) 0;
    DRM_MODE (640, 480, false) 31500 640 664 704 832 0 480 489 492 520 0 (Z.lor F_NHSYNC F_NVSYNC) 0;
    DRM_MODE (640, 480, false) 31500 640 656 720 840 0 480 481 484 500 0 (Z.lor F_NHSYNC F_NVSYNC) 0;
    DRM_MODE (640, 480, false) 36000 640 696 752 832 0 480 481 484 509 0 (Z.lor F_NHSYNC F_NVSYNC) 0;
    DRM_MODE (800, 600, false) 36000 800 824 896 1024 0 600 601 603 625 0 (Z.lor F_PHSYNC F_PVSYNC) 0;
    DRM_MODE (800, 600, false) 40000 800 840 968 1056 0 600 601 605 628 0 (Z.lor F_PHSYNC F_PVSYNC) 0;
    DRM_MODE (800, 600, false) 50000 800 856 976 1040 0 600 637 643 666 0 (Z.lor F_PHSYNC F_PVSYNC) 0;
    DRM_MODE (800, 600, false) 49500 800 816 896 1056 0 600 601 604 625 0 (Z.lor F_PHSYNC F_PVSYNC) 0;
    DRM_MODE (800, 600, false) 56250 800 832 896 1048 0 600 601 604 631 0 (Z.lor F_PHSYNC F_PVSYNC) 0;
    DRM_MODE (800, 600, false) 73250 800 848 880 960 0 600 603 607 636 0 (Z.lor F_PHSYNC F_NVSYNC) 0;
    DRM_MODE (848, 480, false) 33750 848 864 976 1088 0 480 486 494 517 0 (Z.lor F_PHSYNC F_PVSYNC) 0;
    DRM_MODE (1024, 768, true) 44900 1024 1032 1208 1264 0 768 768 772 817 0 (Z.lor (Z.lor F_PHSYNC F_PVSYNC) F_INTERLACE) 0;
    DRM_MODE (1024, 768, false) 65000 1024 1048 1184 1344 0 768 771 777 806 0 (Z.lor F_NHSYNC F_NVSYNC) 0;
    DRM_MODE (1024, 768, false) 75000 1024 1048 1184 1328 0 768 771 777 806 0 (Z.lor F_NHSYNC F_NVSYNC) 0;
    DRM_MODE (1024, 768, false) 78750 1024 1040 1136 1312 0 768 769 772 800 0 (Z.lor F_PHSYNC F_PVSYNC) 0;
    DRM_MODE (1024, 768, false) 94500 1024 1072 1168 1376 0 768 769 772 808 0 (Z.lor F_PHSYNC F_PVSYNC) 0;
    DRM_MODE (1024, 768, false) 115500 1024 1072 1104 1184 0 768 771 775 813 0 (Z.lor F_PHSYNC F_NVSYNC) 0;
    DRM_MODE (1152, 864, false) 108000 1152 1216 1344 1600 0 864 865 868 900 0 (Z.lor F_PHSYNC F_PVSYNC) 0;
    DRM_MODE (1280, 768, false) 68250 1280 1328 1360 1440 0 768 771 778 790 0 (Z.lor F_PHSYNC F_NVSYNC) 0;
    DRM_MODE (1280, 768, false) 79500 1280 1344 1472 1664 0 768 771 778 798 0 (Z.lor F_NHSYNC F_PVSYNC) 0;
    DRM_MODE (1280, 768, false) 102250 1280 1360 1488 1696 0 768 771 778 805 0 (Z.lor F_PHSYNC F_NVSYNC) 0;
    DRM_MODE (1280, 768, false) 117500 1280 1360 1496 1712 0 768 771 778 809 0 (Z.lor F_NHSYNC F_PVSYNC) 0;
    DRM_MODE (1280, 768, false) 140250 1280 1328 1360 1440 0 768 771 778 813 0 (Z.lor F_PHSYNC F_NVSYNC) 0;
    DRM_MODE (1280, 800, false) 71000 1280 1328 1360 1440 0 800 803 809 823 0 (Z.lor F_PHSYNC F_NVSYNC) 0;
    DRM_MODE (1280, 800, false) 83500 1280 1352 1480 1680 0 800 803 809 831 0 (Z.lor F_PHSYNC F_NVSYNC) 0;
    DRM_MODE (1280, 800, false) 106500 1280 1360 1488 1696 0 800 803 809 838 0 (Z.lor F_NHSYNC F_PVSYNC) 0;
    DRM_MODE (1280, 800, false) 122500 1280 1360 1496 1712 0 800 803 809 843 0 (Z.lor F_NHSYNC F_PVSYNC) 0;
    DRM_MODE (1280, 800, false) 146250 1280 1328 1360 1440 0 800 803 809 847 0 (Z.lor F_PHSYNC F_NVSYNC) 0;
    DRM_MODE (1280, 960, false) 108000 1280 1376 1488 1800 0 960 961 964 1000 0 (Z.lor F_PHSYNC F_PVSYNC) 0;
    DRM_MODE (1280, 960, false) 148500 1280 1344 1504 1728 0 960 961 964 1011 0 (Z.lor F_PHSYNC F_PVSYNC) 0;
    DRM_MODE (1280, 960, false) 175500 1280 1328 1360 1440 0 960 963 967 1017 0 (Z.lor F_PHSYNC F_NVSYNC) 0;
    DRM_MODE (1280, 1024, false) 108000 1280 1328 1440 1688 0 1024 1025 1028 1066 0 (Z.lor F_PHSYNC F_PVSYNC) 0;
    DRM_MODE (1280, 1024, false) 135000 1280 1296 1440 1688 0 1024 1025 1028 1066 0 (Z.lor F_PHSYNC F_PVSYNC) 0;
    DRM_MODE (1280, 1024, false) 157500 1280 1344 1504 1728 0 1024 1025 1028 1072 0 (Z.lor F_PHSYNC F_PVSYNC) 0;
    DRM_MODE (1280, 1024, false) 187250 1280 1328 1360 1440 0 1024 1027 1034 1084 0 (Z.lor F_PHSYNC F_NVSYNC) 0;
    DRM_MODE (1360, 768, false) 85500 1360 1424 1536 1792 0 768 771 777 795 0 (Z.lor F_PHSYNC F_PVSYNC) 0;
    DRM_MODE (1360, 768, false) 148250 1360 1408 1440 1520 0 768 771 776 813 0 (Z.lor F_PHSYNC F_NVSYNC) 0;
    DRM_MODE (1400, 1050, false) 101000 1400 1448 1480 1560 0 1050 1053 1057 1080 0 (Z.lor F_PHSYNC F_NVSYNC) 0;
    DRM_MODE (1400, 1050, false) 121750 1400 1488 1632 1864 0 1050 1053 1057 1089 0 (Z.lor F_NHSYNC F_PVSYNC) 0;
    DRM_MODE (1400, 1050, false) 156000 1400 1504 1648 1896 0 1050 1053 1057 1099 0 (Z.lor F_NHSYNC F_PVSYNC) 0;
    DRM_MODE (1400, 1050, false) 179500 1400 1504 1656 1912 0 1050 1053 1057 1105 0 (Z.lor F_NHSYNC F_PVSYNC) 0;
    DRM_MODE (1400, 1050, false) 208000 1400 1448 1480 1560 0 1050 1053 1057 1112 0 (Z.lor F_PHSYNC F_NVSYNC) 0;
    DRM_MODE (1440, 900, false) 88750 1440 1488 1520 1600 0 900 903 909 926 0 (Z.lor F_PHSYNC F_NVSYNC) 0;
    DRM_MODE (1440, 900, false) 106500 1440 1520 1672 1904 0 900 903 909 934 0 (Z.lor F_NHSYNC F_PVSYNC) 0;
    DRM_MODE (1440, 900, false) 136750 1440 1536 1688 1936 0 900 903 909 942 0 (Z.lor F_NHSYNC F_PVSYNC) 0;
    DRM_MODE (1440, 900, false) 157000 1440 1544 1696 1952 0 900 903 909 948 0 (Z.lor F_NHSYNC F_PVSYNC) 0;
    DRM_MODE (1440, 900, false) 182750 1440 1488 1520 1600 0 900 903 909 953 0 (Z.lor F_PHSYNC F_NVSYNC) 0;
    DRM_MODE (1600, 1200, false) 162000 1600 1664 1856 2160 0 1200 1201 1204 1250 0 (Z.lor F_PHSYNC F_PVSYNC) 0;
    DRM_MODE (1600, 1200, false) 175500 1600 1664 1856 2160 0 1200 1201 1204 1250 0 (Z.lor F_PHSYNC F_PVSYNC) 0;
    DRM_MODE (1600, 1200, false) 189000 1600 1664 1856 2160 0 1200 1201 1204 1250 0 (Z.lor F_PHSYNC F_PVSYNC) 0;
    DRM_MODE (1600, 1200, false) 202500 1600 1664 1856 2160 0 1200 1201 1204 1250 0 (Z.lor F_PHSYNC F_PVSYNC) 0;
    DRM_MODE (1600, 1200, false) 229500 1600 1664 1856 2160 0 1200 1201 1204 1250 0 (Z.lor F_PHSYNC F_PVSYNC) 0;
    DRM_MODE (1600, 1200, false) 268250 1600 1648 1680 1760 0 1200 1203 1207 1271 0 (Z.lor F_PHSYNC F_NVSYNC) 0;
    DRM_MODE (1680, 1050, false) 119000 1680 1728 1760 1840 0 1050 1053 1059 1080 0 (Z.lor F_PHSYNC F_NVSYNC) 0;
    DRM_MODE (1680, 1050, false) 146250 1680 1784 1960 2240 0 1050 1053 1059 1089 0 (Z.lor F_NHSYNC F_PVSYNC) 0;
    DRM_MODE (1680, 1050, false) 187000 1680 1800 1976 2272 0 1050 1053 1059 1099 0 (Z.lor F_NHSYNC F_PVSYNC) 0;
    DRM_MODE (1680, 1050, false) 214750 1680 1808 1984 2288 0 1050 1053 1059 1105 0 (Z.lor F_NHSYNC F_PVSYNC) 0;
    DRM_MODE (1680, 1050, false) 245500 1680 1728 1760 1840 0 1050 1053 1059 1112 0 (Z.lor F_PHSYNC F_NVSYNC) 0;
    DRM_MODE (1792, 1344, false) 204750 1792 1920 2120 2448 0 1344 1345 1348 1394 0 (Z.lor F_NHSYNC F_PVSYNC) 0;
    DRM_MODE (1792, 1344, false) 261000 1792 1888 2104 2456 0 1344 1345 1348 1417 0 (Z.lor F_NHSYNC F_PVSYNC) 0;
    DRM_MODE (1792, 1344, false) 333250 1792 1840 1872 1952 0 1344 1347 1351 1423 0 (Z.lor F_PHSYNC F_NVSYNC) 0;
    DRM_MODE (1856, 1392, false) 218250 1856 1952 2176 2528 0 1392 1393 1396 1439 0 (Z.lor F_NHSYNC F_PVSYNC) 0;
    DRM_MODE (1856, 1392, false) 288000 1856 1984 2208 2560 0 1392 1395 1399 1500 0 (Z.lor F_NHSYNC F_PVSYNC) 0;
    DRM_MODE (1856, 1392, false) 356500 1856 1904 1936 2016 0 1392 1395 1399 1474 0 (Z.lor F_PHSYNC F_NVSYNC) 0;
    DRM_MODE (1920, 1200, false) 154000 1920 1968 2000 2080 0 1200 1203 1209 1235 0 (Z.lor F_PHSYNC F_NVSYNC) 0;
    DRM_MODE (1920, 1200, false) 193250 1920 2056 2256 2592 0 1200 1203 1209 1245 0 (Z.lor F_NHSYNC F_PVSYNC) 0;
    DRM_MODE (1920, 1200, false) 245250 1920 2056 2264 2608 0 1200 1203 1209 1255 0 (Z.lor F_NHSYNC F_PVSYNC) 0;
    DRM_MODE (1920, 1200, false) 281250 1920 2064 2272 2624 0 1200 1203 1209 1262 0 (Z.lor F_NHSYNC F_PVSYNC) 0;
    DRM_MODE (1920, 1200, false) 317000 1920 1968 2000 2080 0 1200 1203 1209 1271 0 (Z.lor F_PHSYNC F_NVSYNC) 0;
    DRM_MODE (1920, 1440, false) 234000 1920 2048 2256 2600 0 1440 1441 1444 1500 0 (Z.lor F_NHSYNC F_PVSYNC) 0;
    DRM_MODE (1920, 1440, false) 297000 1920 2064 2288 2640 0 1440 1441 1444 1500 0 (Z.lor F_NHSYNC F_PVSYNC) 0;
    DRM_MODE (1920, 1440, false) 380500 1920 1968 2000 2080 0 1440 1443 1447 1525 0 (Z.lor F_PHSYNC F_NVSYNC) 0;
    DRM_MODE (2560, 1600, false) 268500 2560 2608 2640 2720 0 1600 1603 1609 1646 0 (Z.lor F_PHSYNC F_NVSYNC) 0;
    DRM_MODE (2560, 1600, false) 348500 2560 2752 3032 3504 0 1600 1603 1609 1658 0 (Z.lor F_NHSYNC F_PVSYNC) 0;
    DRM_MODE (2560, 1600, false) 443250 2560 2768 3048 3536 0 1600 1603 1609 1672 0 (Z.lor F_NHSYNC F_PVSYNC) 0;
    DRM_MODE (2560, 1600, false) 505250 2560 2768 3048 3536 0 1600 1603 1609 1682 0 (Z.lor F_NHSYNC F_PVSYNC) 0;
    DRM_MODE (2560, 1600, false) 552750 2560 2608 2640 2720 0 1600 1603 1609 1694 0 (Z.lor F_PHSYNC F_NVSYNC) 0 ].

(** The established timings, by bit. *)
Definition edid_est_modes : list drm_display_mode :=
  [ DRM_MODE (800, 600, false) 40000 800 840 968 1056 0 600 601 605 628 0 (Z.lor F_PHSYNC F_PVSYNC) 0;
    DRM_MODE (800, 600, false) 36000 800 824 896 1024 0 600 601 603 625 0 (Z.lor F_PHSYNC F_PVSYNC) 0;
    DRM_MODE (640, 480, false) 31500 640 656 720 840 0 480 481 484 500 0 (Z.lor F_NHSYNC F_NVSYNC) 0;
    DRM_MODE (640, 480, false) 31500 640 664 704 832 0 480 489 491 520 0 (Z.lor F_NHSYNC F_NVSYNC) 0;
    DRM_MODE (640, 480, false) 30240 640 704 768 864 0 480 483 486 525 0 (Z.lor F_NHSYNC F_NVSYNC) 0;
    DRM_MODE (640, 480, false) 25200 640 656 752 800 0 480 490 492 525 0 (Z.lor F_NHSYNC F_NVSYNC) 0;
    DRM_MODE (720, 400, false) 35500 720 738 846 900 0 400 421 423 449 0 (Z.lor F_NHSYNC F_NVSYNC) 0;
    DRM_MODE (720, 400, false) 28320 720 738 846 900 0 400 412 414 449 0 (Z.lor F_NHSYNC F_PVSYNC) 0;
    DRM_MODE (1280, 1024, false) 135000 1280 1296 1440 1688 0 1024 1025 1028 1066 0 (Z.lor F_PHSYNC F_PVSYNC) 0;
    DRM_MODE (1024, 768, false) 78800 1024 1040 1136 1312 0 768 769 772 800 0 (Z.lor F_PHSYNC F_PVSYNC) 0;
    DRM_MODE (1024, 768, false) 75000 1024 1048 1184 1328 0 768 771 777 806 0 (Z.lor F_NHSYNC F_NVSYNC) 0;
    DRM_MODE (1024, 768, false) 65000 1024 1048 1184 1344 0 768 771 777 806 0 (Z.lor F_NHSYNC F_NVSYNC) 0;
    DRM_MODE (1024, 768, true) 44900 1024 1032 1208 1264 0 768 768 776 817 0 (Z.lor (Z.lor F_PHSYNC F_PVSYNC) F_INTERLACE) 0;
    DRM_MODE (832, 624, false) 57284 832 864 928 1152 0 624 625 628 667 0 (Z.lor F_NHSYNC F_NVSYNC) 0;
    DRM_MODE (800, 600, false) 49500 800 816 896 1056 0 600 601 604 625 0 (Z.lor F_PHSYNC F_PVSYNC) 0;
    DRM_MODE (800, 600, false) 50000 800 856 976 1040 0 600 637 643 666 0 (Z.lor F_PHSYNC F_PVSYNC) 0;
    DRM_MODE (1152, 864, false) 108000 1152 1216 1344 1600 0 864 865 868 900 0 (Z.lor F_PHSYNC F_PVSYNC) 0 ].

(** [struct minimode] *)
Record minimode := mk_mini { mini_w : Z; mini_h : Z; mini_r : Z; mini_rb : Z }.

Definition est3_modes : list minimode :=
  [ mk_mini 640 350 85 0;
    mk_mini 640 400 85 0;
    mk_mini 720 400 85 0;
    mk_mini 640 480 85 0;
    mk_mini 848 480 60 0;
    mk_mini 800 600 85 0;
    mk_mini 1024 768 85 0;
    mk_mini 1152 864 75 0;
    mk_mini 1280 768 60 1;
    mk_mini 1280 768 60 0;
    mk_mini 1280 768 75 0;
    mk_mini 1280 768 85 0;
    mk_mini 1280 960 60 0;
    mk_mini 1280 960 85 0;
    mk_mini 1280 1024 60 0;
    mk_mini 1280 1024 85 0;
    mk_mini 1360 768 60 0;
    mk_mini 1440 900 60 1;
    mk_mini 1440 900 60 0;
    mk_mini 1440 900 75 0;
    mk_mini 1440 900 85 0;
    mk_mini 1400 1050 60 1;
    mk_mini 1400 1050 60 0;
    mk_mini 1400 1050 75 0;
    mk_mini 1400 1050 85 0;
    mk_mini 1680 1050 60 1;
    mk_mini 1680 1050 60 0;
    mk_mini 1680 1050 75 0;
    mk_mini 1680 1050 85 0;
    mk_mini 1600 1200 60 0;
    mk_mini 1600 1200 65 0;
    mk_mini 1600 1200 70 0;
    mk_mini 1600 1200 75 0;
    mk_mini 1600 1200 85 0;
    mk_mini 1792 1344 60 0;
    mk_mini 1792 1344 75 0;
    mk_mini 1856 1392 60 0;
    mk_mini 1856 1392 75 0;
    mk_mini 1920 1200 60 1;
    mk_mini 1920 1200 60 0;
    mk_mini 1920 1200 75 0;
    mk_mini 1920 1200 85 0;
    mk_mini 1920 1440 60 0;
    mk_mini 1920 1440 75 0 ].

Definition extra_modes : list minimode :=
  [ mk_mini 1024 576 60 0;
    mk_mini 1366 768 60 0;
    mk_mini 1600 900 60 0;
    mk_mini 1680 945 60 0;
    mk_mini 1920 1080 60 0;
    mk_mini 2048 1152 60 0;
    mk_mini 2048 1536 60 0 ].

(** The probably preferred CEA-861 modes, by video code. *)
Definition edid_cea_modes : list drm_display_mode :=
  [ DRM_MODE (640, 480, false) 25175 640 656 752 800 0 480 490 492 525 0 (Z.lor F_NHSYNC F_NVSYNC) 60;
    DRM_MODE (720, 480, false) 27000 720 736 798 858 0 480 489 495 525 0 (Z.lor F_NHSYNC F_NVSYNC) 60;
    DRM_MODE (720, 480, false) 27000 720 736 798 858 0 480 489 495 525 0 (Z.lor F_NHSYNC F_NVSYNC) 60;
    DRM_MODE (1280, 720, false) 74250 1280 1390 1430 1650 0 720 725 730 750 0 (Z.lor F_PHSYNC F_PVSYNC) 60;
    DRM_MODE (1920, 1080, true) 74250 1920 2008 2052 2200 0 1080 1084 1094 1125 0 (Z.lor (Z.lor F_PHSYNC F_PVSYNC) F_INTERLACE) 60;
    DRM_MODE (720, 480, true) 13500 720 739 801 858 0 480 488 494 525 0 (Z.lor (Z.lor (Z.lor F_NHSYNC F_NVSYNC) F_INTERLACE) F_DBLCLK) 60;
    DRM_MODE (720, 480, true) 13500 720 739 801 858 0 480 488 494 525 0 (Z.lor (Z.lor (Z.lor F_NHSYNC F_NVSYNC) F_INTERLACE) F_DBLCLK) 60;
    DRM_MODE (720, 240, false) 13500 720 739 801 858 0 240 244 247 262 0 (Z.lor (Z.lor F_NHSYNC F_NVSYNC) F_DBLCLK) 60;
    DRM_MODE (720, 240, false) 13500 720 739 801 858 0 240 244 247 262 0 (Z.lor (Z.lor F_NHSYNC F_NVSYNC) F_DBLCLK) 60;
    DRM_MODE (2880, 480, true) 54000 2880 2956 3204 3432 0 480 488 494 525 0 (Z.lor (Z.lor F_NHSYNC F_NVSYNC) F_INTERLACE) 60;
    DRM_MODE (2880, 480, true) 54000 2880 2956 3204 3432 0 480 488 494 525 0 (Z.lor (Z.lor F_NHSYNC F_NVSYNC) F_INTERLACE) 60;
    DRM_MODE (2880, 240, false) 54000 2880 2956 3204 3432 0 240 244 247 262 0 (Z.lor F_NHSYNC F_NVSYNC) 60;
    DRM_MODE (2880, 240, false) 54000 2880 2956 3204 3432 0 240 244 247 262 0 (Z.lor F_NHSYNC F_NVSYNC) 60;
    DRM_MODE (1440, 480, false) 54000 1440 1472 1596 1716 0 480 489 495 525 0 (Z.lor F_NHSYNC F_NVSYNC) 60;
    DRM_MODE (1440, 480, false) 54000 1440 1472 1596 1716 0 480 489 495 525 0 (Z.lor F_NHSYNC F_NVSYNC) 60;
    DRM_MODE (1920, 1080, false) 148500 1920 2008 2052 2200 0 1080 1084 1089 1125 0 (Z.lor F_PHSYNC F_PVSYNC) 60;
    DRM_MODE (720, 576, false) 27000 720 732 796 864 0 576 581 586 625 0 (Z.lor F_NHSYNC F_NVSYNC) 50;
    DRM_MODE (720, 576, false) 27000 720 732 796 864 0 576 581 586 625 0 (Z.lor F_NHSYNC F_NVSYNC) 50;
    DRM_MODE (1280, 720, false) 74250 1280 1720 1760 1980 0 720 725 730 750 0 (Z.lor F_PHSYNC F_PVSYNC) 50;
    DRM_MODE (1920, 1080, true) 74250 1920 2448 2492 2640 0 1080 1084 1094 1125 0 (Z.lor (Z.lor F_PHSYNC F_PVSYNC) F_INTERLACE) 50;
    DRM_MODE (720, 576, true) 13500 720 732 795 864 0 576 580 586 625 0 (Z.lor (Z.lor (Z.lor F_NHSYNC F_NVSYNC) F_INTERLACE) F_DBLCLK) 50;
    DRM_MODE (720, 576, true) 13500 720 732 795 864 0 576 580 586 625 0 (Z.lor (Z.lor (Z.lor F_NHSYNC F_NVSYNC) F_INTERLACE) F_DBLCLK) 50;
    DRM_MODE (720, 288, false) 13500 720 732 795 864 0 288 290 293 312 0 (Z.lor (Z.lor F_NHSYNC F_NVSYNC) F_DBLCLK) 50;
    DRM_MODE (720, 288, false) 13500 720 732 795 864 0 288 290 293 312 0 (Z.lor (Z.lor F_NHSYNC F_NVSYNC) F_DBLCLK) 50;
    DRM_MODE (2880, 576, true) 54000 2880 2928 3180 3456 0 576 580 586 625 0 (Z.lor (Z.lor F_NHSYNC F_NVSYNC) F_INTERLACE) 50;
    DRM_MODE (2880, 576, true) 54000 2880 2928 3180 3456 0 576 580 586 625 0 (Z.lor (Z.lor F_NHSYNC F_NVSYNC) F_INTERLACE) 50;
    DRM_MODE (2880, 288, false) 54000 2880 2928 3180 3456 0 288 290 293 312 0 (Z.lor F_NHSYNC F_NVSYNC) 50;
    DRM_MODE (2880, 288, false) 54000 2880 2928 3180 3456 0 288 290 293 312 0 (Z.lor F_NHSYNC F_NVSYNC) 50;
    DRM_MODE (1440, 576, false) 54000 1440 1464 1592 1728 0 576 581 586 625 0 (Z.lor F_NHSYNC F_NVSYNC) 50;
    DRM_MODE (1440, 576, false) 54000 1440 1464 1592 1728 0 576 581 586 625 0 (Z.lor F_NHSYNC F_NVSYNC) 50;
    DRM_MODE (1920, 1080, false) 148500 1920 2448 2492 2640 0 1080 1084 1089 1125 0 (Z.lor F_PHSYNC F_PVSYNC) 50;
    DRM_MODE (1920, 1080, false) 74250 1920 2558 2602 2750 0 1080 1084 1089 1125 0 (Z.lor F_PHSYNC F_PVSYNC) 24;
    DRM_MODE (1920, 1080, false) 74250 1920 2448 2492 2640 0 1080 1084 1089 1125 0 (Z.lor F_PHSYNC F_PVSYNC) 25;
    DRM_MODE (1920, 1080, false) 74250 1920 2008 2052 2200 0 1080 1084 1089 1125 0 (Z.lor F_PHSYNC F_PVSYNC) 30;
    DRM_MODE (2880, 480, false) 108000 2880 2944 3192 3432 0 480 489 495 525 0 (Z.lor F_NHSYNC F_NVSYNC) 60;
    DRM_MODE (2880, 480, false) 108000 2880 2944 3192 3432 0 480 489 495 525 0 (Z.lor F_NHSYNC F_NVSYNC) 60;
    DRM_MODE (2880, 576, false) 108000 2880 2928 3184 3456 0 576 581 586 625 0 (Z.lor F_NHSYNC F_NVSYNC) 50;
    DRM_MODE (2880, 576, false) 108000 2880 2928 3184 3456 0 576 581 586 625 0 (Z.lor F_NHSYNC F_NVSYNC) 50;
    DRM_MODE (1920, 1080, true) 72000 1920 1952 2120 2304 0 1080 1126 1136 1250 0 (Z.lor (Z.lor F_PHSYNC F_NVSYNC) F_INTERLACE) 50;
    DRM_MODE (1920, 1080, true) 148500 1920 2448 2492 2640 0 1080 1084 1094 1125 0 (Z.lor (Z.lor F_PHSYNC F_PVSYNC) F_INTERLACE) 100;
    DRM_MODE (1280, 720, false) 148500 1280 1720 1760 1980 0 720 725 730 750 0 (Z.lor F_PHSYNC F_PVSYNC) 100;
    DRM_MODE (720, 576, false) 54000 720 732 796 864 0 576 581 586 625 0 (Z.lor F_NHSYNC F_NVSYNC) 100;
    DRM_MODE (720, 576, false) 54000 720 732 796 864 0 576 581 586 625 0 (Z.lor F_NHSYNC F_NVSYNC) 100;
    DRM_MODE (720, 576, true) 27000 720 732 795 864 0 576 580 586 625 0 (Z.lor (Z.lor (Z.lor F_NHSYNC F_NVSYNC) F_INTERLACE) F_DBLCLK) 100;
    DRM_MODE (720, 576, true) 27000 720 732 795 864 0 576 580 586 625 0 (Z.lor (Z.lor (Z.lor F_NHSYNC F_NVSYNC) F_INTERLACE) F_DBLCLK) 100;
    DRM_MODE (1920, 1080, true) 148500 1920 2008 2052 2200 0 1080 1084 1094 1125 0 (Z.lor (Z.lor F_PHSYNC F_PVSYNC) F_INTERLACE) 120;
    DRM_MODE (1280, 720, false) 148500 1280 1390 1430 1650 0 720 725 730 750 0 (Z.lor F_PHSYNC F_PVSYNC) 120;
    DRM_MODE (720, 480, false) 54000 720 736 798 858 0 480 489 495 525 0 (Z.lor F_NHSYNC F_NVSYNC) 120;
    DRM_MODE (720, 480, false) 54000 720 736 798 858 0 480 489 495 525 0 (Z.lor F_NHSYNC F_NVSYNC) 120;
    DRM_MODE (720, 480, true) 27000 720 739 801 858 0 480 488 494 525 0 (Z.lor (Z.lor (Z.lor F_NHSYNC F_NVSYNC) F_INTERLACE) F_DBLCLK) 120;
    DRM_MODE (720, 480, true) 27000 720 739 801 858 0 480 488 494 525 0 (Z.lor (Z.lor (Z.lor F_NHSYNC F_NVSYNC) F_INTERLACE) F_DBLCLK) 120;
    DRM_MODE (720, 576, false) 108000 720 732 796 864 0 576 581 586 625 0 (Z.lor F_NHSYNC F_NVSYNC) 200;
    DRM_MODE (720, 576, false) 108000 720 732 796 864 0 576 581 586 625 0 (Z.lor F_NHSYNC F_NVSYNC) 200;
    DRM_MODE (720, 576, true) 54000 720 732 795 864 0 576 580 586 625 0 (Z.lor (Z.lor (Z.lor F_NHSYNC F_NVSYNC) F_INTERLACE) F_DBLCLK) 200;
    DRM_MODE (720, 576, true) 54000 720 732 795 864 0 576 580 586 625 0 (Z.lor (Z.lor (Z.lor F_NHSYNC F_NVSYNC) F_INTERLACE) F_DBLCLK) 200;
    DRM_MODE (720, 480, false) 108000 720 736 798 858 0 480 489 495 525 0 (Z.lor F_NHSYNC F_NVSYNC) 240;
    DRM_MODE (720, 480, false) 108000 720 736 798 858 0 480 489 495 525 0 (Z.lor F_NHSYNC F_NVSYNC) 240;
    DRM_MODE (720, 480, true) 54000 720 739 801 858 0 480 488 494 525 0 (Z.lor (Z.lor (Z.lor F_NHSYNC F_NVSYNC) F_INTERLACE) F_DBLCLK) 240;
    DRM_MODE (720, 480, true) 54000 720 739 801 858 0 480 488 494 525 0 (Z.lor (Z.lor (Z.lor F_NHSYNC F_NVSYNC) F_INTERLACE) F_DBLCLK) 240;
    DRM_MODE (1280, 720, false) 59400 1280 3040 3080 3300 0 720 725 730 750 0 (Z.lor F_PHSYNC F_PVSYNC) 24;
    DRM_MODE (1280, 720, false) 74250 1280 3700 3740 3960 0 720 725 730 750 0 (Z.lor F_PHSYNC F_PVSYNC) 25;
    DRM_MODE (1280, 720, false) 74250 1280 3040 3080 3300 0 720 725 730 750 0 (Z.lor F_PHSYNC F_PVSYNC) 30;
    DRM_MODE (1920, 1080, false) 297000 1920 2008 2052 2200 0 1080 1084 1089 1125 0 (Z.lor F_PHSYNC F_PVSYNC) 120;
    DRM_MODE (1920, 1080, false) 297000 1920 2448 2492 2640 0 1080 1084 1094 1125 0 (Z.lor F_PHSYNC F_PVSYNC) 100 ].

(** Their picture aspect ratios. *)
Definition edid_cea_aspects : list Z :=
  [ HDMI_PICTURE_ASPECT_4_3;
    HDMI_PICTURE_ASPECT_4_3;
    HDMI_PICTURE_ASPECT_16_9;
    HDMI_PICTURE_ASPECT_16_9;
    HDMI_PICTURE_ASPECT_16_9;
    HDMI_PICTURE_ASPECT_4_3;
    HDMI_PICTURE_ASPECT_16_9;
    HDMI_PICTURE_ASPECT_4_3;
    HDMI_PICTURE_ASPECT_16_9;
    HDMI_PICTURE_ASPECT_4_3;
    HDMI_PICTURE_ASPECT_16_9;
    HDMI_PICTURE_ASPECT_4_3;
    HDMI_PICTURE_ASPECT_16_9;
    HDMI_PICTURE_ASPECT_4_3;
    HDMI_PICTURE_ASPECT_16_9;
    HDMI_PICTURE_ASPECT_16_9;
    HDMI_PICTURE_ASPECT_4_3;
    HDMI_PICTURE_ASPECT_16_9;
    HDMI_PICTURE_ASPECT_16_9;
    HDMI_PICTURE_ASPECT_16_9;
    HDMI_PICTURE_ASPECT_4_3;
    HDMI_PICTURE_ASPECT_16_9;
    HDMI_PICTURE_ASPECT_4_3;
    HDMI_PICTURE_ASPECT_16_9;
    HDMI_PICTURE_ASPECT_4_3;
    HDMI_PICTURE_ASPECT_16_9;
    HDMI_PICTURE_ASPECT_4_3;
    HDMI_PICTURE_ASPECT_16_9;
    HDMI_PICTURE_ASPECT_4_3;
    HDMI_PICTURE_ASPECT_16_9;
    HDMI_PICTURE_ASPECT_16_9;
    HDMI_PICTURE_ASPECT_16_9;
    HDMI_PICTURE_ASPECT_16_9;
    HDMI_PICTURE_ASPECT_16_9;
    HDMI_PICTURE_ASPECT_4_3;
    HDMI_PICTURE_ASPECT_16_9;
    HDMI_PICTURE_ASPECT_4_3;
    HDMI_PICTURE_ASPECT_16_9;
    HDMI_PICTURE_ASPECT_16_9;
    HDMI_PICTURE_ASPECT_16_9;
    HDMI_PICTURE_ASPECT_16_9;
    HDMI_PICTURE_ASPECT_4_3;
    HDMI_PICTURE_ASPECT_16_9;
    HDMI_PICTURE_ASPECT_4_3;
    HDMI_PICTURE_ASPECT_16_9;
    HDMI_PICTURE_ASPECT_16_9;
    HDMI_PICTURE_ASPECT_16_9;
    HDMI_PICTURE_ASPECT_4_3;
    HDMI_PICTURE_ASPECT_16_9;
    HDMI_PICTURE_ASPECT_4_3;
    HDMI_PICTURE_ASPECT_16_9;
    HDMI_PICTURE_ASPECT_4_3;
    HDMI_PICTURE_ASPECT_16_9;
    HDMI_PICTURE_ASPECT_4_3;
    HDMI_PICTURE_ASPECT_16_9;
    HDMI_PICTURE_ASPECT_4_3;
    HDMI_PICTURE_ASPECT_16_9;
    HDMI_PICTURE_ASPECT_4_3;
    HDMI_PICTURE_ASPECT_16_9;
    HDMI_PICTURE_ASPECT_16_9;
    HDMI_PICTURE_ASPECT_16_9;
    HDMI_PICTURE_ASPECT_16_9;
    HDMI_PICTURE_ASPECT_16_9;
    HDMI_PICTURE_ASPECT_16_9 ].

(** HDMI 1.4 4k modes. *)
Definition edid_4k_modes : list drm_display_mode :=
  [ DRM_MODE (3840, 2160, false) 297000 3840 4016 4104 4400 0 2160 2168 2178 2250 0 (Z.lor F_PHSYNC F_PVSYNC) 30;
    DRM_MODE (3840, 2160, false) 297000 3840 4896 4984 5280 0 2160 2168 2178 2250 0 (Z.lor F_PHSYNC F_PVSYNC) 25;
    DRM_MODE (3840, 2160, false) 297000 3840 5116 5204 5500 0 2160 2168 2178 2250 0 (Z.lor F_PHSYNC F_PVSYNC) 24;
    DRM_MODE (4096, 2160, false) 297000 4096 5116 5204 5500 0 2160 2168 2178 2250 0 (Z.lor F_PHSYNC F_PVSYNC) 24 ].

End tables.
