(* ===== verification/DrmEdidModes.v ===== *)
(** * Modes from an EDID (drm_edid.c)

    Detailed timings, standard timings and the modes found by ranges, established
    bits and CVT codes; the probed modes of the connector are a list that the
    functions append to.  A mode is created with an object identifier, which may
    not be had: [alloc] gives the identifier of each attempt.  The physical size of
    a mode, which the record of [DrmModes] leaves out, is kept beside it where it is
    set.  Descriptors are read at their offsets in the EDID, a class of the layout
    that include/drm/drm_edid.h declares. *)

From S2P Require Import Prelude DrmModes DrmEdid DrmEdidCea DrmEdidTables.

Definition EDID_QUIRK_PREFER_LARGE_60 : Z := 1.
Definition EDID_QUIRK_135_CLOCK_TOO_HIGH : Z := 2.
Definition EDID_QUIRK_PREFER_LARGE_75 : Z := 4.
Definition EDID_QUIRK_DETAILED_IN_CM : Z := 8.
Definition EDID_QUIRK_DETAILED_USE_MAXIMUM_SIZE : Z := 16.
Definition EDID_QUIRK_FIRST_DETAILED_PREFERRED : Z := 32.
Definition EDID_QUIRK_DETAILED_SYNC_PP : Z := 64.
Definition EDID_QUIRK_FORCE_REDUCED_BLANKING : Z := 128.
Definition EDID_QUIRK_FORCE_8BPC : Z := 256.
Definition EDID_QUIRK_FORCE_12BPC : Z := 512.

Definition EDID_EST_TIMINGS : Z := 16.
Definition EDID_STD_TIMINGS : Z := 8.

(** Offsets in [struct edid] and [struct detailed_timing], and constants. *)
Class drm_edid_layout := {
  edid_revision : Z; edid_input : Z; edid_width_cm : Z; edid_height_cm : Z; edid_features : Z;
  edid_established : Z; edid_standard : Z;
  t_hactive_lo : Z; t_hblank_lo : Z; t_hactive_hblank_hi : Z;
  t_vactive_lo : Z; t_vblank_lo : Z; t_vactive_vblank_hi : Z;
  t_hsync_offset_lo : Z; t_hsync_pulse_width_lo : Z; t_vsync_offset_pulse_width_lo : Z;
  t_hsync_vsync_offset_pulse_width_hi : Z;
  t_width_mm_lo : Z; t_height_mm_lo : Z; t_width_height_mm_hi : Z; t_misc : Z;
  t_std : Z; t_cvt : Z; t_range_flags : Z;
  DRM_EDID_PT_HSYNC_POSITIVE : Z; DRM_EDID_PT_VSYNC_POSITIVE : Z;
  DRM_EDID_PT_STEREO : Z; DRM_EDID_PT_INTERLACED : Z;
  EDID_DETAIL_MONITOR_RANGE : Z; EDID_DETAIL_STD_MODES : Z;
  EDID_DETAIL_CVT_3BYTE : Z; EDID_DETAIL_EST_TIMINGS : Z;
  DRM_EDID_INPUT_DIGITAL : Z; DRM_EDID_FEATURE_DEFAULT_GTF : Z; DRM_EDID_FEATURE_PREFERRED_TIMING : Z;
  EDID_TIMING_ASPECT_MASK : Z; EDID_TIMING_ASPECT_SHIFT : Z;
  EDID_TIMING_VFREQ_MASK : Z; EDID_TIMING_VFREQ_SHIFT : Z;
}.

(** The probed modes and the number of identifiers asked for. *)
Record probe := MkProbe { probed_modes : list drm_display_mode; asked : nat }.

Section modes.
Context `{drm_modes_h} `{drm_edid_modes_h} `{drm_edid_h} `{drm_edid_cea_h} `{drm_edid_layout}.
Context (alloc : nat -> option Z).

(** A new mode from a generator that takes the outcome of the allocation. *)
Definition with_alloc {A} (p : probe) (f : option Z -> A) : A * probe :=
  (f (alloc (asked p)), MkProbe (probed_modes p) (S (asked p))).

Definition drm_mode_probed_add (m : drm_display_mode) (p : probe) : probe :=
  MkProbe (probed_modes p ++ [m]) (asked p).

(** [mode = ...; if (mode) { drm_mode_probed_add(connector, mode); modes++; }] *)
Definition add_if (m : option drm_display_mode) (x : Z * probe) : Z * probe :=
  match m with
  | Some m => (s32 (x.1 + 1), drm_mode_probed_add m x.2)
  | None => x
  end.

(** ** Detailed timings *)
Definition cea_interlaced : list (Z * Z) :=
  [(1920, 1080); (720, 480); (1440, 480); (2880, 480); (720, 576); (1440, 576); (2880, 576)].

Definition double_height (m : drm_display_mode) : drm_display_mode :=
  let x := t m in
  set_t (mk_timings (clock x) (hdisplay x) (hsync_start x) (hsync_end x) (htotal x) (hskew x)
    (vdisplay x * 2) (vsync_start x * 2) (vsync_end x * 2) (Z.lor (vtotal x * 2) 1) (vscan x)) m.

Definition drm_mode_do_interlace_quirk (misc : Z) (mode : drm_display_mode) : drm_display_mode :=
  if truth (Z.land misc DRM_EDID_PT_INTERLACED) then
    let mode := foldl (fun mode '(w, h) =>
      if (hdisplay (t mode) =? w) && (vdisplay (t mode) =? h / 2) then double_height mode else mode)
      mode cea_interlaced in
    set_flags (Z.lor (flags mode) DRM_MODE_FLAG_INTERLACE) mode
  else mode.

(** The fields of a detailed timing. *)
Record pixel_timing := MkPt {
  pt_hactive : Z; pt_hblank : Z; pt_hsync_offset : Z; pt_hsync_pulse_width : Z;
  pt_vactive : Z; pt_vblank : Z; pt_vsync_offset : Z; pt_vsync_pulse_width : Z;
}.

Definition read_timing (edid : list Z) (tm : Z) : run pixel_timing :=
  ha ← byte edid (tm + t_hactive_lo); hb ← byte edid (tm + t_hblank_lo);
  hh ← byte edid (tm + t_hactive_hblank_hi);
  va ← byte edid (tm + t_vactive_lo); vb ← byte edid (tm + t_vblank_lo);
  vh ← byte edid (tm + t_vactive_vblank_hi);
  ho ← byte edid (tm + t_hsync_offset_lo); hp ← byte edid (tm + t_hsync_pulse_width_lo);
  vo ← byte edid (tm + t_vsync_offset_pulse_width_lo);
  sh ← byte edid (tm + t_hsync_vsync_offset_pulse_width_hi);
  Done (MkPt
    (Z.lor (Z.shiftl (Z.land hh 240) 4) ha) (Z.lor (Z.shiftl (Z.land hh 15) 8) hb)
    (Z.lor (Z.shiftl (Z.land sh 192) 2) ho) (Z.lor (Z.shiftl (Z.land sh 48) 4) hp)
    (Z.lor (Z.shiftl (Z.land vh 240) 4) va) (Z.lor (Z.shiftl (Z.land vh 15) 8) vb)
    (Z.lor (Z.shiftl (Z.land sh 12) 2) (Z.shiftr vo 4))
    (Z.lor (Z.shiftl (Z.land sh 3) 4) (Z.land vo 15))).

(** The timings of the mode, with the totals corrected. *)
Definition detailed_timings_of (pixel_clock : Z) (pt : pixel_timing) : timings :=
  let hd := pt_hactive pt in
  let hss := hd + pt_hsync_offset pt in
  let hse := hss + pt_hsync_pulse_width pt in
  let ht := hd + pt_hblank pt in
  let vd := pt_vactive pt in
  let vss := vd + pt_vsync_offset pt in
  let vse := vss + pt_vsync_pulse_width pt in
  let vt := vd + pt_vblank pt in
  mk_timings (pixel_clock * 10) hd hss hse (if ht <? hse then hse + 1 else ht) 0
    vd vss vse (if vt <? vse then vse + 1 else vt) 0.

(** [set_size:] the physical size in millimetres. *)
Definition detailed_size_of (edid : list Z) (tm quirks : Z) : run (Z * Z) :=
  wl ← byte edid (tm + t_width_mm_lo); hl ← byte edid (tm + t_height_mm_lo);
  hi ← byte edid (tm + t_width_height_mm_hi);
  let w := Z.lor wl (Z.shiftl (Z.land hi 240) 4) in
  let h := Z.lor hl (Z.shiftl (Z.land hi 15) 8) in
  let cm := truth (Z.land quirks EDID_QUIRK_DETAILED_IN_CM) in
  let '(w, h) := if cm then (w * 10, h * 10) else (w, h) in
  if truth (Z.land quirks EDID_QUIRK_DETAILED_USE_MAXIMUM_SIZE) then
    wc ← byte edid edid_width_cm; hc ← byte edid edid_height_cm;
    Done (wc * 10, hc * 10)
  else Done (w, h).

Definition finish_mode (m : drm_display_mode) : drm_display_mode :=
  let m := mk_mode (base_id m) (name m) (status m) DRM_MODE_TYPE_DRIVER (t m) (flags m) (crtc m)
             (vrefresh m) (hsync m) in
  let m := mk_mode (base_id m) (name m) (status m) (type m) (t m) (flags m) (crtc m)
             (drm_mode_vrefresh m) (hsync m) in
  drm_mode_set_name m.

(** The mode with its size, and the EDID, whose bytes quirks change. *)
Definition drm_mode_detailed (edid : list Z) (tm quirks : Z) (p : probe)
    : run (option (drm_display_mode * (Z * Z)) * list Z * probe) :=
  pt ← read_timing edid tm;
  misc ← byte edid (tm + t_misc);
  if (pt_hactive pt <? 64) || (pt_vactive pt <? 64) then Done (None, edid, p)
  else if truth (Z.land misc DRM_EDID_PT_STEREO) then Done (None, edid, p)
  else if (pt_hsync_pulse_width pt =? 0) || (pt_vsync_pulse_width pt =? 0) then Done (None, edid, p)
  else if truth (Z.land quirks EDID_QUIRK_FORCE_REDUCED_BLANKING) then
    let '(m, p) := with_alloc p (fun a => drm_cvt_mode a (pt_hactive pt) (pt_vactive pt) 60 true false false) in
    m ← run_of m;
    match m with
    | None => Done (None, edid, p)
    | Some m => sz ← detailed_size_of edid tm quirks; Done (Some (finish_mode m, sz), edid, p)
    end
  else
    let '(m, p) := with_alloc p drm_mode_create in
    match m with
    | None => Done (None, edid, p)
    | Some m =>
      (* timing->pixel_clock = cpu_to_le16(1088) *)
      edid ← (if truth (Z.land quirks EDID_QUIRK_135_CLOCK_TOO_HIGH)
              then e ← poke tm (u8 1088) edid; poke (tm + 1) (1088 / 256) e else Done edid);
      c0 ← byte edid tm; c1 ← byte edid (tm + 1);
      let m := set_t (detailed_timings_of (c0 + c1 * 256) pt) m in
      let m := drm_mode_do_interlace_quirk misc m in
      let misc := if truth (Z.land quirks EDID_QUIRK_DETAILED_SYNC_PP)
                  then Z.lor misc (Z.lor DRM_EDID_PT_HSYNC_POSITIVE DRM_EDID_PT_VSYNC_POSITIVE) else misc in
      edid ← poke (tm + t_misc) misc edid;
      let hpol := if truth (Z.land misc DRM_EDID_PT_HSYNC_POSITIVE) then DRM_MODE_FLAG_PHSYNC else DRM_MODE_FLAG_NHSYNC in
      let vpol := if truth (Z.land misc DRM_EDID_PT_VSYNC_POSITIVE) then DRM_MODE_FLAG_PVSYNC else DRM_MODE_FLAG_NVSYNC in
      let m := set_flags (Z.lor (Z.lor (flags m) hpol) vpol) m in
      sz ← detailed_size_of edid tm quirks;
      Done (Some (finish_mode m, sz), edid, p)
    end.

(** The closure of the walk over detailed timings. *)
Record closure := MkClosure { preferred : bool; quirk_bits : Z; modes : Z; cl_probe : probe; cl_edid : list Z }.

Definition do_detailed_mode (tm : Z) (c : closure) : run closure :=
  c0 ← byte (cl_edid c) tm; c1 ← byte (cl_edid c) (tm + 1);
  if (c0 =? 0) && (c1 =? 0) then Done c
  else
    '(m, edid, p) ← drm_mode_detailed (cl_edid c) tm (quirk_bits c) (cl_probe c);
    match m with
    | None => Done (MkClosure (preferred c) (quirk_bits c) (modes c) p edid)
    | Some (m, _) =>
      let m := if preferred c then set_type (Z.lor (type m) DRM_MODE_TYPE_PREFERRED) m else m in
      Done (MkClosure false (quirk_bits c) (s32 (modes c + 1)) (drm_mode_probed_add m p) edid)
    end.

Definition version_greater (edid : list Z) (maj min : Z) : run bool :=
  v ← byte edid edid_version; r ← byte edid edid_revision;
  Done ((maj <? v) || ((v =? maj) && (min <? r))).

(** The number of modes, the probed modes and the EDID. *)
Definition add_detailed_modes (edid : list Z) (quirks : Z) (p : probe) : run (Z * probe * list Z) :=
  gt ← version_greater edid 1 3;
  features ← byte edid edid_features;
  let pref := if gt : bool then true else truth (Z.land features DRM_EDID_FEATURE_PREFERRED_TIMING) in
  c ← drm_for_each_detailed_block edid do_detailed_mode (MkClosure pref quirks 0 p edid);
  Done (modes c, cl_probe c, cl_edid c).

(** ** Reduced blanking and the secondary GTF curve *)
Definition mode_is_rb (mode : drm_display_mode) : bool :=
  let x := t mode in
  (htotal x - hdisplay x =? 160) && (hsync_end x - hdisplay x =? 80) &&
  (hsync_end x - hsync_start x =? 32) && (vsync_start x - vdisplay x =? 3).

Definition is_rb (edid : list Z) (tm : Z) (found : bool) : run bool :=
  r3 ← byte edid (tm + 3);
  if r3 =? EDID_DETAIL_MONITOR_RANGE then
    r15 ← byte edid (tm + 15); Done (if truth (Z.land r15 16) then true else found)
  else Done found.

Definition drm_monitor_supports_rb (edid : list Z) : run bool :=
  rev ← byte edid edid_revision;
  if 4 <=? rev then drm_for_each_detailed_block edid (is_rb edid) false
  else input ← byte edid edid_input; Done (truth (Z.land input DRM_EDID_INPUT_DIGITAL)).

Definition find_gtf2 (edid : list Z) (tm : Z) (found : option Z) : run (option Z) :=
  r3 ← byte edid (tm + 3);
  if r3 =? EDID_DETAIL_MONITOR_RANGE then
    r10 ← byte edid (tm + 10); Done (if r10 =? 2 then Some tm else found)
  else Done found.

(** A value of the descriptor of the secondary curve, 0 without one. *)
Definition gtf2_value (edid : list Z) (f : Z -> run Z) : run Z :=
  r ← drm_for_each_detailed_block edid (find_gtf2 edid) None;
  match r with Some tm => f tm | None => Done 0 end.

Definition drm_gtf2_hbreak (edid : list Z) : run Z :=
  gtf2_value edid (fun tm => b ← byte edid (tm + 12); Done (b * 2)).
Definition drm_gtf2_2c (edid : list Z) : run Z := gtf2_value edid (fun tm => byte edid (tm + 13)).
Definition drm_gtf2_m (edid : list Z) : run Z :=
  gtf2_value edid (fun tm => hi ← byte edid (tm + 15); lo ← byte edid (tm + 14); Done (Z.shiftl hi 8 + lo)).
Definition drm_gtf2_k (edid : list Z) : run Z := gtf2_value edid (fun tm => byte edid (tm + 16)).
Definition drm_gtf2_2j (edid : list Z) : run Z := gtf2_value edid (fun tm => byte edid (tm + 17)).

Inductive timing_level := LEVEL_DMT | LEVEL_GTF | LEVEL_GTF2 | LEVEL_CVT.

Definition standard_timing_level (edid : list Z) : run timing_level :=
  rev ← byte edid edid_revision;
  if 2 <=? rev then
    features ← byte edid edid_features;
    if (4 <=? rev) && truth (Z.land features DRM_EDID_FEATURE_DEFAULT_GTF) then Done LEVEL_CVT
    else hbreak ← drm_gtf2_hbreak edid; Done (if truth hbreak then LEVEL_GTF2 else LEVEL_GTF)
  else Done LEVEL_DMT.

(** ** Standard timings *)
Definition find_dmt (hsize vsize fresh : Z) (rb : bool) : option drm_display_mode :=
  List.find (fun ptr =>
    (hsize =? hdisplay (t ptr)) && (vsize =? vdisplay (t ptr)) &&
    (fresh =? drm_mode_vrefresh ptr) && Bool.eqb rb (mode_is_rb ptr)) drm_dmt_modes.

Definition drm_mode_find_dmt (hsize vsize fresh : Z) (rb : bool) (p : probe) : option drm_display_mode * probe :=
  match find_dmt hsize vsize fresh rb with
  | Some ptr => with_alloc p (fun a => drm_mode_duplicate a ptr)
  | None => (None, p)
  end.

Definition bad_std_timing (a b : Z) : bool :=
  ((a =? 0) && (b =? 0)) || ((a =? 1) && (b =? 1)) || ((a =? 32) && (b =? 32)).

(** Width, height and rate of a standard timing. *)
Definition std_size (revision hsize_byte vfreq_aspect : Z) : Z * Z * Z :=
  let aspect_ratio := Z.shiftr (Z.land vfreq_aspect EDID_TIMING_ASPECT_MASK) EDID_TIMING_ASPECT_SHIFT in
  let vfreq := Z.shiftr (Z.land vfreq_aspect EDID_TIMING_VFREQ_MASK) EDID_TIMING_VFREQ_SHIFT in
  let hsize := hsize_byte * 8 + 248 in
  let vrefresh_rate := vfreq + 60 in
  let vsize :=
    if aspect_ratio =? 0 then if revision <? 3 then hsize else Z.quot (hsize * 10) 16
    else if aspect_ratio =? 1 then Z.quot (hsize * 3) 4
    else if aspect_ratio =? 2 then Z.quot (hsize * 4) 5
    else Z.quot (hsize * 9) 16 in
  if (vrefresh_rate =? 60) &&
     (((hsize =? 1360) && (vsize =? 765)) || ((hsize =? 1368) && (vsize =? 769)))
  then (1366, 768, vrefresh_rate) else (hsize, vsize, vrefresh_rate).

(** The generated mode, by the monitor's level. *)
Definition std_generate (edid : list Z) (level : timing_level) (hsize vsize rate : Z) (p : probe)
    : run (option drm_display_mode * probe) :=
  match level with
  | LEVEL_DMT => Done (None, p)
  | LEVEL_GTF =>
    let '(m, p) := with_alloc p (fun a => drm_gtf_mode a hsize vsize rate false 0) in
    m ← run_of m; Done (m, p)
  | LEVEL_GTF2 =>
    let '(m, p) := with_alloc p (fun a => drm_gtf_mode a hsize vsize rate false 0) in
    m ← run_of m;
    match m with
    | None => Done (None, p)
    | Some mode =>
      hs ← run_of (drm_mode_hsync mode);
      hbreak ← drm_gtf2_hbreak edid;
      if hbreak <? hs then
        gm ← drm_gtf2_m edid; gc ← drm_gtf2_2c edid; gk ← drm_gtf2_k edid; gj ← drm_gtf2_2j edid;
        let '(m, p) := with_alloc p (fun a =>
          drm_gtf_mode_complex a hsize vsize rate false 0 gm gc gk gj) in
        m ← run_of m; Done (m, p)
      else Done (Some mode, p)
    end
  | LEVEL_CVT =>
    let '(m, p) := with_alloc p (fun a => drm_cvt_mode a hsize vsize rate false false false) in
    m ← run_of m; Done (m, p)
  end.

(** The standard timing of the two bytes at [tm]. *)
Definition drm_mode_std (edid : list Z) (tm : Z) (p : probe) : run (option drm_display_mode * probe) :=
  hb ← byte edid tm; va ← byte edid (tm + 1);
  level ← standard_timing_level edid;
  rev ← byte edid edid_revision;
  if bad_std_timing hb va then Done (None, p)
  else
    let '(hsize, vsize, rate) := std_size rev hb va in
    if existsb (fun m => (hdisplay (t m) =? hsize) && (vdisplay (t m) =? vsize) &&
                         (drm_mode_vrefresh m =? rate)) (probed_modes p)
    then Done (None, p)
    else if (hsize =? 1366) && (vsize =? 768) && (rate =? 60) then
      let '(m, p) := with_alloc p (fun a => drm_cvt_mode a 1366 768 rate false false false) in
      m ← run_of m;
      m ← deref m;
      let x := t m in
      Done (Some (set_t (mk_timings (clock x) 1366 (hsync_start x - 1) (hsync_end x - 1) (htotal x) (hskew x)
              (vdisplay x) (vsync_start x) (vsync_end x) (vtotal x) (vscan x)) m), p)
    else
      rb ← drm_monitor_supports_rb edid;
      let '(m, p) := if rb : bool then drm_mode_find_dmt hsize vsize rate true p else (None, p) in
      match m with
      | Some m => Done (Some m, p)
      | None =>
        let '(m, p) := drm_mode_find_dmt hsize vsize rate false p in
        match m with
        | Some m => Done (Some m, p)
        | None => std_generate edid level hsize vsize rate p
        end
      end.

(** Adds the standard timings at [tm], [tm + 2], ... *)
Definition std_loop (edid : list Z) (n : nat) (tm : Z) (x : Z * probe) : run (Z * probe) :=
  for_loop n 0 (fun i '(count, p) =>
    '(m, p) ← drm_mode_std edid (tm + 2 * i) p; Done (add_if m (count, p))) x.

Definition do_standard_modes (edid : list Z) (tm : Z) (x : Z * probe) : run (Z * probe) :=
  ty ← byte edid (tm + detailed_type);
  if ty =? EDID_DETAIL_STD_MODES then std_loop edid 6 (tm + t_std) x else Done x.

Definition add_standard_modes (edid : list Z) (p : probe) : run (Z * probe) :=
  x ← std_loop edid (Z.to_nat EDID_STD_TIMINGS) edid_standard (0, p);
  gt ← version_greater edid 1 0;
  if gt : bool then drm_for_each_detailed_block edid (do_standard_modes edid) x else Done x.

(** ** Modes within the ranges of the monitor *)

(** A limit of the range descriptor, 255 higher with a flag of EDID 1.4. *)
Definition range_limit (edid : list Z) (tm i flag : Z) : run Z :=
  b ← byte edid (tm + i); rev ← byte edid edid_revision;
  if 4 <=? rev then f ← byte edid (tm + 4); Done (b + if truth (Z.land f flag) then 255 else 0)
  else Done b.

Definition mode_in_hsync_range (mode : drm_display_mode) (edid : list Z) (tm : Z) : run bool :=
  hmin ← range_limit edid tm 7 4; hmax ← range_limit edid tm 8 8;
  hs ← run_of (drm_mode_hsync mode);
  Done ((hs <=? hmax) && (hmin <=? hs)).

Definition mode_in_vsync_range (mode : drm_display_mode) (edid : list Z) (tm : Z) : run bool :=
  vmin ← range_limit edid tm 5 1; vmax ← range_limit edid tm 6 2;
  let vs := drm_mode_vrefresh mode in
  Done ((vs <=? vmax) && (vmin <=? vs)).

Definition range_pixel_clock (edid : list Z) (tm : Z) : run Z :=
  t9 ← byte edid (tm + 9);
  if (t9 =? 0) || (t9 =? 255) then Done 0
  else
    rev ← byte edid edid_revision; t10 ← byte edid (tm + 10);
    if (4 <=? rev) && (t10 =? 4) then
      t12 ← byte edid (tm + 12); Done (u32 (t9 * 10000 - Z.shiftr t12 2 * 250))
    else Done (t9 * 10000 + 5001).

Definition mode_in_range (mode : drm_display_mode) (edid : list Z) (tm : Z) : run bool :=
  hok ← mode_in_hsync_range mode edid tm;
  if negb hok then Done false
  else
    vok ← mode_in_vsync_range mode edid tm;
    if negb vok then Done false
    else
      max_clock ← range_pixel_clock edid tm;
      if truth max_clock && (max_clock <? u32 (clock (t mode))) then Done false
      else
        rev ← byte edid edid_revision; t10 ← byte edid (tm + 10);
        t13 ← byte edid (tm + 13); t12 ← byte edid (tm + 12);
        if (4 <=? rev) && (t10 =? 4) && truth t13 &&
           (8 * (t13 + 256 * Z.land t12 3) <? hdisplay (t mode)) then Done false
        else if mode_is_rb mode then rb ← drm_monitor_supports_rb edid; Done rb
        else Done true.

(** No probed mode is the same, and one is at least as large. *)
Fixpoint valid_inferred (mode : drm_display_mode) (l : list drm_display_mode) (ok : bool) : bool :=
  match l with
  | [] => ok
  | m :: l =>
    if (hdisplay (t mode) =? hdisplay (t m)) && (vdisplay (t mode) =? vdisplay (t m)) &&
       (drm_mode_vrefresh mode =? drm_mode_vrefresh m) then false
    else valid_inferred mode l
           (if (hdisplay (t mode) <=? hdisplay (t m)) && (vdisplay (t mode) <=? vdisplay (t m)) then true else ok)
  end.

Definition valid_inferred_mode (p : probe) (mode : drm_display_mode) : bool :=
  valid_inferred mode (probed_modes p) false.

Definition dmt_range_step (edid : list Z) (tm : Z) (m : drm_display_mode) (x : Z * probe) : run (Z * probe) :=
  ok ← mode_in_range m edid tm;
  if ok && valid_inferred_mode x.2 m then
    let '(new, p) := with_alloc x.2 (fun a => drm_mode_duplicate a m) in Done (add_if new (x.1, p))
  else Done x.

Fixpoint dmt_range_loop (edid : list Z) (tm : Z) (l : list drm_display_mode) (x : Z * probe) : run (Z * probe) :=
  match l with
  | [] => Done x
  | m :: l => x ← dmt_range_step edid tm m x; dmt_range_loop edid tm l x
  end.

Definition drm_dmt_modes_for_range (edid : list Z) (tm : Z) (x : Z * probe) : run (Z * probe) :=
  dmt_range_loop edid tm drm_dmt_modes x.

Definition fixup_mode_1366x768 (mode : drm_display_mode) : drm_display_mode :=
  let x := t mode in
  if (hdisplay x =? 1368) && (vdisplay x =? 768) then
    drm_mode_set_name (set_t (mk_timings (clock x) 1366 (hsync_start x - 1) (hsync_end x - 1) (htotal x) (hskew x)
      (vdisplay x) (vsync_start x) (vsync_end x) (vtotal x) (vscan x)) mode)
  else mode.

(** The sizes tried with a generator; the loop ends when a mode cannot be had. *)
Fixpoint extra_loop (gen : minimode -> option Z -> outcome (option drm_display_mode)) (edid : list Z) (tm : Z)
    (l : list minimode) (x : Z * probe) : run (Z * probe) :=
  match l with
  | [] => Done x
  | m :: l =>
    let '(new, p) := with_alloc x.2 (gen m) in
    new ← run_of new;
    match new with
    | None => Done (x.1, p)
    | Some new =>
      let new := fixup_mode_1366x768 new in
      ok ← mode_in_range new edid tm;
      if ok && valid_inferred_mode p new then extra_loop gen edid tm l (s32 (x.1 + 1), drm_mode_probed_add new p)
      else extra_loop gen edid tm l (x.1, p)
    end
  end.

Definition drm_gtf_modes_for_range (edid : list Z) (tm : Z) (x : Z * probe) : run (Z * probe) :=
  extra_loop (fun m a => drm_gtf_mode a (mini_w m) (mini_h m) (mini_r m) false 0) edid tm extra_modes x.

Definition drm_cvt_modes_for_range (edid : list Z) (tm : Z) (x : Z * probe) : run (Z * probe) :=
  rb ← drm_monitor_supports_rb edid;
  extra_loop (fun m a => drm_cvt_mode a (mini_w m) (mini_h m) (mini_r m) rb false false) edid tm extra_modes x.

Definition do_inferred_modes (edid : list Z) (tm : Z) (x : Z * probe) : run (Z * probe) :=
  ty ← byte edid (tm + detailed_type);
  if negb (ty =? EDID_DETAIL_MONITOR_RANGE) then Done x
  else
    x ← drm_dmt_modes_for_range edid tm x;
    gt1 ← version_greater edid 1 1;
    if negb gt1 then Done x
    else
      fl ← byte edid (tm + t_range_flags);
      if (fl =? 2) || (fl =? 0) then drm_gtf_modes_for_range edid tm x
      else if fl =? 4 then
        gt3 ← version_greater edid 1 3;
        if gt3 : bool then drm_cvt_modes_for_range edid tm x else Done x
      else Done x.

Definition add_inferred_modes (edid : list Z) (p : probe) : run (Z * probe) :=
  gt ← version_greater edid 1 0;
  if gt : bool then drm_for_each_detailed_block edid (do_inferred_modes edid) (0, p) else Done (0, p).

(** ** Established timings *)

(** The bits of byte [est + i], from bit [j] down. *)
Fixpoint est3_bits (est_byte m : Z) (j : nat) (x : Z * probe) : Z * probe :=
  match est3_modes !! Z.to_nat m with
  | None => x
  | Some mini =>
    let x :=
      if truth (Z.land est_byte (2 ^ Z.of_nat j)) then
        let '(new, p) := drm_mode_find_dmt (mini_w mini) (mini_h mini) (mini_r mini) (truth (mini_rb mini)) x.2 in
        add_if new (x.1, p)
      else x in
    match j with O => x | S j => est3_bits est_byte (m + 1) j x end
  end.

Definition drm_est3_modes (edid : list Z) (tm : Z) (x : Z * probe) : run (Z * probe) :=
  for_loop 6 0 (fun i x => b ← byte edid (tm + 5 + i); Done (est3_bits b (i * 8) 7 x)) x.

Definition do_established_modes (edid : list Z) (tm : Z) (x : Z * probe) : run (Z * probe) :=
  ty ← byte edid (tm + detailed_type);
  if ty =? EDID_DETAIL_EST_TIMINGS then drm_est3_modes edid tm x else Done x.

Definition est_step (est_bits i : Z) (x : Z * probe) : run (Z * probe) :=
  if truth (Z.land est_bits (2 ^ i)) then
    m ← deref (edid_est_modes !! Z.to_nat i);
    let '(new, p) := with_alloc x.2 (fun a => drm_mode_duplicate a m) in
    Done (add_if new (x.1, p))
  else Done x.

Definition add_established_modes (edid : list Z) (p : probe) : run (Z * probe) :=
  t1 ← byte edid edid_established; t2 ← byte edid (edid_established + 1);
  rs ← byte edid (edid_established + 2);
  let est_bits := Z.lor t1 (Z.lor (Z.shiftl t2 8) (Z.shiftl (Z.land rs 128) 9)) in
  x ← for_loop (S (Z.to_nat EDID_EST_TIMINGS)) 0 (est_step est_bits) (0, p);
  gt ← version_greater edid 1 0;
  if gt : bool then drm_for_each_detailed_block edid (do_established_modes edid) x else Done x.

(** ** CVT codes *)
Definition rates : list Z := [60; 85; 75; 60; 50].

(** One three-byte code. *)
Definition cvt_code (c0 c1 c2 : Z) (x : Z * probe) : run (Z * probe) :=
  if (c0 =? 0) && (c1 =? 0) && (c2 =? 0) then Done x
  else
    let height := (c0 + Z.shiftl (Z.land c1 240) 4 + 1) * 2 in
    let a := Z.land c1 12 in
    let width := if a =? 0 then Z.quot (height * 4) 3 else if a =? 4 then Z.quot (height * 16) 9
                 else if a =? 8 then Z.quot (height * 16) 10 else Z.quot (height * 15) 9 in
    for_loop 4 1 (fun j x =>
      if truth (Z.land c2 (2 ^ j)) then
        rate ← deref (rates !! Z.to_nat j);
        let '(new, p) := with_alloc x.2 (fun a => drm_cvt_mode a width height rate (j =? 0) false false) in
        new ← run_of new;
        Done (add_if new (x.1, p))
      else Done x) x.

Definition drm_cvt_modes (edid : list Z) (tm : Z) (x : Z * probe) : run (Z * probe) :=
  for_loop 4 0 (fun i x =>
    c0 ← byte edid (tm + t_cvt + 3 * i); c1 ← byte edid (tm + t_cvt + 3 * i + 1);
    c2 ← byte edid (tm + t_cvt + 3 * i + 2);
    cvt_code c0 c1 c2 x) x.

Definition do_cvt_mode (edid : list Z) (tm : Z) (x : Z * probe) : run (Z * probe) :=
  ty ← byte edid (tm + detailed_type);
  if ty =? EDID_DETAIL_CVT_3BYTE then drm_cvt_modes edid tm x else Done x.

Definition add_cvt_modes (edid : list Z) (p : probe) : run (Z * probe) :=
  gt ← version_greater edid 1 2;
  if gt : bool then drm_for_each_detailed_block edid (do_cvt_mode edid) (0, p) else Done (0, p).

(** ** Without an EDID *)
Definition noedid_step (hdisp vdisp : Z) (x : Z * probe) (ptr : drm_display_mode) : Z * probe :=
  if truth hdisp && truth vdisp && ((hdisp <? hdisplay (t ptr)) || (vdisp <? vdisplay (t ptr))) then x
  else if 61 <? drm_mode_vrefresh ptr then x
  else let '(new, p) := with_alloc x.2 (fun a => drm_mode_duplicate a ptr) in add_if new (x.1, p).

Definition drm_add_modes_noedid (hdisp vdisp : Z) (p : probe) : Z * probe :=
  let hdisp := if hdisp <? 0 then 0 else hdisp in
  let vdisp := if vdisp <? 0 then 0 else vdisp in
  foldl (noedid_step hdisp vdisp) (0, p) drm_dmt_modes.

Definition drm_set_preferred_mode (hpref vpref : Z) (p : probe) : probe :=
  MkProbe ((fun m => if (hdisplay (t m) =? hpref) && (vdisplay (t m) =? vpref)
                     then set_type (Z.lor (type m) DRM_MODE_TYPE_PREFERRED) m else m) <$> probed_modes p) (asked p).

(** [edid_fixup_preferred]: the largest mode, closest to the target rate; the
    position of the preferred mode so far. *)
Definition mode_size (m : drm_display_mode) : Z := s32 (hdisplay (t m) * vdisplay (t m)).
Definition mode_rate (m : drm_display_mode) : Z :=
  if truth (vrefresh m) then vrefresh m else drm_mode_vrefresh m.

Fixpoint fixup_loop (target : Z) (l : list drm_display_mode) (i : nat) (best : nat) (bm : drm_display_mode) : nat :=
  match l with
  | [] => best
  | cur :: l =>
    let '(best, bm) := if mode_size bm <? mode_size cur then (i, cur) else (best, bm) in
    let '(best, bm) :=
      if (mode_size cur =? mode_size bm) && (Z.abs (mode_rate cur - target) <? Z.abs (mode_rate bm - target))
      then (i, cur) else (best, bm) in
    fixup_loop target l (S i) best bm
  end.

Definition edid_fixup_preferred (quirks : Z) (p : probe) : probe :=
  match probed_modes p with
  | [] => p
  | first :: rest =>
    let target := if truth (Z.land quirks EDID_QUIRK_PREFER_LARGE_60) then 60 else 0 in
    let target := if truth (Z.land quirks EDID_QUIRK_PREFER_LARGE_75) then 75 else target in
    let best := fixup_loop target rest 1 0 first in
    let l := (fun m => set_type (Z.land (type m) (Z.lnot DRM_MODE_TYPE_PREFERRED)) m) <$> probed_modes p in
    MkProbe (alter (fun m => set_type (Z.lor (type m) DRM_MODE_TYPE_PREFERRED) m) best l) (asked p)
  end.

End modes.
