(* ===== verification/DrmEdidHdmi.v ===== *)
(** * CEA and HDMI modes of an EDID (drm_edid.c)

    Video codes: matching a mode with the CEA and HDMI tables under both of its
    clocks, modes from the video data block, the HDMI vendor block with its
    stereo modes, and [drm_add_edid_modes], which puts all sources of modes
    together. *)

From S2P Require Import Prelude DrmModes DrmEdid DrmEdidCea DrmEdidTables DrmEdidModes.

(** Further constants of the headers. *)
Class drm_edid_info_h := {
  DRM_EDID_DIGITAL_DEPTH_MASK : Z; DRM_EDID_DIGITAL_DEPTH_6 : Z; DRM_EDID_DIGITAL_DEPTH_8 : Z;
  DRM_EDID_DIGITAL_DEPTH_10 : Z; DRM_EDID_DIGITAL_DEPTH_12 : Z; DRM_EDID_DIGITAL_DEPTH_14 : Z;
  DRM_EDID_DIGITAL_DEPTH_16 : Z;
  DRM_EDID_FEATURE_RGB_YCRCB444 : Z; DRM_EDID_FEATURE_RGB_YCRCB422 : Z; DRM_COLOR_FORMAT_YCRCB422 : Z;
}.

Section hdmi.
Context `{drm_modes_h} `{drm_edid_modes_h} `{drm_edid_h} `{drm_edid_cea_h} `{drm_edid_layout} `{drm_edid_info_h}.
Context (alloc : nat -> option Z).

(** ** Matching *)
Definition cea_mode_alternate_clock (cea_mode : drm_display_mode) : Z :=
  let c := clock (t cea_mode) in
  if truth (Z.rem (vrefresh cea_mode) 6) then c
  else if (vdisplay (t cea_mode) =? 240) || (vdisplay (t cea_mode) =? 480) then u32 (c * 1001) / 1000
  else u32 (u32 (c * 1000) + 1001 - 1) / 1001.

(** The position of the first table entry with one of the clocks and the timings
    of the mode, counted from 1; 0 without one. *)
Fixpoint match_loop (alternate : drm_display_mode -> Z) (to_match : drm_display_mode)
    (table : list drm_display_mode) (mode : Z) : Z :=
  match table with
  | [] => 0
  | entry :: table =>
    let clock1 := clock (t entry) in
    let clock2 := alternate entry in
    if ((KHZ2PICOS (clock (t to_match)) =? KHZ2PICOS clock1) || (KHZ2PICOS (clock (t to_match)) =? KHZ2PICOS clock2)) &&
       drm_mode_equal_no_clocks_no_stereo to_match entry
    then u8 (mode + 1) else match_loop alternate to_match table (mode + 1)
  end.

Definition drm_match_cea_mode (to_match : drm_display_mode) : Z :=
  if clock (t to_match) =? 0 then 0 else match_loop cea_mode_alternate_clock to_match edid_cea_modes 0.

Definition drm_get_cea_aspect_ratio (video_code : Z) : run Z :=
  if video_code - 1 <? 0 then Oops else deref (edid_cea_aspects !! Z.to_nat (video_code - 1)).

(** As the source has it, the exception tests the height for 4096. *)
Definition hdmi_mode_alternate_clock (hdmi_mode : drm_display_mode) : Z :=
  if (vdisplay (t hdmi_mode) =? 4096) && (hdisplay (t hdmi_mode) =? 2160) then clock (t hdmi_mode)
  else cea_mode_alternate_clock hdmi_mode.

Definition drm_match_hdmi_mode (to_match : drm_display_mode) : Z :=
  if clock (t to_match) =? 0 then 0 else match_loop hdmi_mode_alternate_clock to_match edid_4k_modes 0.

(** ** The other clock *)

(** The table entry of a mode and its alternate clock. *)
Definition cea_entry (mode : drm_display_mode) : option (drm_display_mode * Z) :=
  let mode_idx := u8 (drm_match_cea_mode mode - 1) in
  if mode_idx <? Z.of_nat (length edid_cea_modes) then
    (fun m => (m, cea_mode_alternate_clock m)) <$> edid_cea_modes !! Z.to_nat mode_idx
  else
    let mode_idx := u8 (drm_match_hdmi_mode mode - 1) in
    if mode_idx <? Z.of_nat (length edid_4k_modes) then
      (fun m => (m, hdmi_mode_alternate_clock m)) <$> edid_4k_modes !! Z.to_nat mode_idx
    else None.

Definition with_clock (c : Z) (m : drm_display_mode) : drm_display_mode := set_t (set_clock c (t m)) m.

(** The new mode for a probed one, and the number of identifiers asked for. *)
Definition alternate_of (mode : drm_display_mode) (asked : nat) : option drm_display_mode * nat :=
  match cea_entry mode with
  | None => (None, asked)
  | Some (cea_mode, clock2) =>
    let clock1 := clock (t cea_mode) in
    if clock1 =? clock2 then (None, asked)
    else if negb (clock (t mode) =? clock1) && negb (clock (t mode) =? clock2) then (None, asked)
    else
      match drm_mode_duplicate (alloc asked) cea_mode with
      | None => (None, S asked)
      | Some newmode =>
        let newmode := set_flags (Z.lor (flags newmode) (Z.land (flags mode) DRM_MODE_FLAG_3D_MASK)) newmode in
        (Some (with_clock (if negb (clock (t mode) =? clock1) then clock1 else clock2) newmode), S asked)
      end
  end.

Fixpoint alternate_loop (l : list drm_display_mode) (asked : nat) : list drm_display_mode * nat :=
  match l with
  | [] => ([], asked)
  | mode :: l =>
    let '(new, asked) := alternate_of mode asked in
    let '(rest, asked) := alternate_loop l asked in
    (option_list new ++ rest, asked)
  end.

Definition add_alternate_cea_modes (edid : list Z) (p : probe) : run (Z * probe) :=
  ext ← drm_find_cea_extension edid;
  match ext with
  | None => Done (0, p)
  | Some _ =>
    let '(new, n) := alternate_loop (probed_modes p) (asked p) in
    Done (Z.of_nat (length new), MkProbe (probed_modes p ++ new) n)
  end.

(** ** The video data block *)

(** [video_db] is the offset of the first code, if there is a block. *)
Definition drm_display_mode_from_vic_index (edid : list Z) (video_db : option Z) (video_len video_index : Z)
    (p : probe) : run (option drm_display_mode * probe) :=
  match video_db with
  | None => Done (None, p)
  | Some db =>
    if video_len <=? video_index then Done (None, p)
    else
      b ← byte edid (db + video_index);
      let cea_mode := u8 (Z.land b 127 - 1) in
      match edid_cea_modes !! Z.to_nat cea_mode with
      | None => Done (None, p)
      | Some m =>
        let '(new, p) := with_alloc alloc p (fun a => drm_mode_duplicate a m) in
        Done ((fun m => mk_mode (base_id m) (name m) (status m) (type m) (t m) (flags m) (crtc m) 0 (hsync m)) <$> new, p)
      end
  end.

Definition do_cea_modes (edid : list Z) (db len : Z) (x : Z * probe) : run (Z * probe) :=
  for_loop (Z.to_nat len) 0 (fun i '(count, p) =>
    '(m, p) ← drm_display_mode_from_vic_index edid (Some db) len i p; Done (add_if m (count, p))) x.

(** ** Stereo *)
Record stereo_mandatory_mode := MkStereo { st_width : Z; st_height : Z; st_vrefresh : Z; st_flags : Z }.

Definition stereo_mandatory_modes : list stereo_mandatory_mode :=
  [ MkStereo 1920 1080 24 DRM_MODE_FLAG_3D_TOP_AND_BOTTOM;
    MkStereo 1920 1080 24 DRM_MODE_FLAG_3D_FRAME_PACKING;
    MkStereo 1920 1080 50 (Z.lor DRM_MODE_FLAG_INTERLACE DRM_MODE_FLAG_3D_SIDE_BY_SIDE_HALF);
    MkStereo 1920 1080 60 (Z.lor DRM_MODE_FLAG_INTERLACE DRM_MODE_FLAG_3D_SIDE_BY_SIDE_HALF);
    MkStereo 1280 720 50 DRM_MODE_FLAG_3D_TOP_AND_BOTTOM;
    MkStereo 1280 720 50 DRM_MODE_FLAG_3D_FRAME_PACKING;
    MkStereo 1280 720 60 DRM_MODE_FLAG_3D_TOP_AND_BOTTOM;
    MkStereo 1280 720 60 DRM_MODE_FLAG_3D_FRAME_PACKING ].

Definition stereo_match_mandatory (mode : drm_display_mode) (s : stereo_mandatory_mode) : bool :=
  let interlaced := Z.land (flags mode) DRM_MODE_FLAG_INTERLACE in
  (hdisplay (t mode) =? st_width s) && (vdisplay (t mode) =? st_height s) &&
  (interlaced =? Z.land (st_flags s) DRM_MODE_FLAG_INTERLACE) &&
  (drm_mode_vrefresh mode =? st_vrefresh s).

Fixpoint stereo_loop (mode : drm_display_mode) (l : list stereo_mandatory_mode) (asked : nat)
    : list drm_display_mode * nat :=
  match l with
  | [] => ([], asked)
  | s :: l =>
    if stereo_match_mandatory mode s then
      let new := (fun m => set_flags (Z.lor (flags m) (st_flags s)) m) <$> drm_mode_duplicate (alloc asked) mode in
      let '(rest, n) := stereo_loop mode l (S asked) in (option_list new ++ rest, n)
    else stereo_loop mode l asked
  end.

Fixpoint stereo_modes (modes : list drm_display_mode) (asked : nat) : list drm_display_mode * nat :=
  match modes with
  | [] => ([], asked)
  | mode :: modes =>
    let '(new, asked) := stereo_loop mode stereo_mandatory_modes asked in
    let '(rest, asked) := stereo_modes modes asked in (new ++ rest, asked)
  end.

Definition add_hdmi_mandatory_stereo_modes (x : Z * probe) : Z * probe :=
  let '(new, n) := stereo_modes (probed_modes x.2) (asked x.2) in
  (x.1 + Z.of_nat (length new), MkProbe (probed_modes x.2 ++ new) n).

(** ** The HDMI vendor block *)
Definition add_hdmi_mode (vic : Z) (x : Z * probe) : Z * probe :=
  match edid_4k_modes !! Z.to_nat (u8 (vic - 1)) with
  | None => x
  | Some m => let '(new, p) := with_alloc alloc x.2 (fun a => drm_mode_duplicate a m) in add_if new (x.1, p)
  end.

(** Adds the mode of a video code with a stereo flag. *)
Definition add_3d_mode (edid : list Z) (video_db : option Z) (video_len video_index flag : Z) (x : Z * probe)
    : run (Z * probe) :=
  '(m, p) ← drm_display_mode_from_vic_index edid video_db video_len video_index x.2;
  Done (add_if ((fun m => set_flags (Z.lor (flags m) flag) m) <$> m) (x.1, p)).

Definition add_3d_struct_modes (edid : list Z) (structure : Z) (video_db : option Z) (video_len video_index : Z)
    (x : Z * probe) : run (Z * probe) :=
  let one bit flag x :=
    if truth (Z.land structure (2 ^ bit)) then add_3d_mode edid video_db video_len video_index flag x else Done x in
  x ← one 0 DRM_MODE_FLAG_3D_FRAME_PACKING x;
  x ← one 6 DRM_MODE_FLAG_3D_TOP_AND_BOTTOM x;
  one 8 DRM_MODE_FLAG_3D_SIDE_BY_SIDE_HALF x.

(** [for (i = 0; i < vic_len && len >= 9 + offset + i; i++)] *)
Fixpoint vic_loop (edid : list Z) (db len offset : Z) (n : nat) (i : Z) (x : Z * probe) : run (Z * probe) :=
  match n with
  | O => Done x
  | S n =>
    if 9 + offset + i <=? len then
      vic ← byte edid (db + 9 + offset + i);
      vic_loop edid db len offset n (i + 1) (add_hdmi_mode vic x)
    else Done x
  end.

(** The 3D structures after the masks: [n] counts the bytes left. *)
Fixpoint structure_loop (edid : list Z) (db offset last : Z) (video_db : option Z) (video_len : Z) (n : nat) (i : Z)
    (x : Z * probe) : run (Z * probe) :=
  match n with
  | O => Done x
  | S n =>
    b ← byte edid (db + 8 + offset + i);
    let detail_present := 7 <? Z.land b 15 in
    if detail_present && (i + 1 =? last) then Done x
    else
      newflag ← (if Z.land b 15 =? 0 then Done DRM_MODE_FLAG_3D_FRAME_PACKING
                 else if Z.land b 15 =? 6 then Done DRM_MODE_FLAG_3D_TOP_AND_BOTTOM
                 else if Z.land b 15 =? 8 then
                   d ← byte edid (db + 9 + offset + i);
                   Done (if Z.shiftr d 4 =? 1 then DRM_MODE_FLAG_3D_SIDE_BY_SIDE_HALF else 0)
                 else Done 0);
      x ← (if truth newflag then add_3d_mode edid video_db video_len (Z.shiftr b 4) newflag x else Done x);
      if detail_present then structure_loop edid db offset last video_db video_len (Nat.pred n) (i + 2) x
      else structure_loop edid db offset last video_db video_len n (i + 1) x
  end.

(** 3D_Structure_ALL and its mask. *)
Definition multi_modes (edid : list Z) (db offset multi_present : Z) (video_db : option Z) (video_len : Z)
    (x : Z * probe) : run (Z * probe) :=
  if (multi_present =? 1) || (multi_present =? 2) then
    s0 ← byte edid (db + 8 + offset); s1 ← byte edid (db + 9 + offset);
    let structure_all := Z.lor (Z.shiftl s0 8) s1 in
    mask ← (if multi_present =? 2 then
              m0 ← byte edid (db + 10 + offset); m1 ← byte edid (db + 11 + offset);
              Done (Z.lor (Z.shiftl m0 8) m1)
            else Done 65535);
    for_loop 16 0 (fun i x =>
      if truth (Z.land mask (2 ^ i)) then add_3d_struct_modes edid structure_all video_db video_len i x else Done x) x
  else Done x.

(** From the byte that announces 3D and the codes, at [8 + offset]. *)
Definition vsdb_video (edid : list Z) (db len : Z) (video_db : option Z) (video_len offset : Z) (x : Z * probe)
    : run (Z * probe) :=
  let offset := offset + 1 in
  b ← byte edid (db + 8 + offset);
  let present := truth (Z.land b 128) in
  let x := if present then add_hdmi_mandatory_stereo_modes x else x in
  let multi_present := if present then Z.shiftr (Z.land b 96) 5 else 0 in
  let offset := offset + 1 in
  b ← byte edid (db + 8 + offset);
  let vic_len := Z.shiftr b 5 in
  let hdmi_3d_len := Z.land b 31 in
  x ← vic_loop edid db len offset (Z.to_nat vic_len) 0 x;
  let offset := offset + 1 + vic_len in
  let multi_len := if multi_present =? 1 then 2 else if multi_present =? 2 then 4 else 0 in
  if len <? 8 + offset + hdmi_3d_len - 1 then Done x
  else if hdmi_3d_len <? multi_len then Done x
  else
    x ← multi_modes edid db offset multi_present video_db video_len x;
    let offset := offset + multi_len in
    structure_loop edid db offset (hdmi_3d_len - multi_len) video_db video_len
      (Z.to_nat (hdmi_3d_len - multi_len)) 0 x.

Definition do_hdmi_vsdb_modes (edid : list Z) (db len : Z) (video_db : option Z) (video_len : Z) (x : Z * probe)
    : run (Z * probe) :=
  if len <? 8 then Done x
  else
    b8 ← byte edid (db + 8);
    if negb (truth (Z.land b8 32)) then Done x
    else
      let offset := (if truth (Z.land b8 128) then 2 else 0) + (if truth (Z.land b8 64) then 2 else 0) in
      if len <? 8 + offset + 2 then Done x
      else vsdb_video edid db len video_db video_len offset x.

(** ** All sources *)

(** The HDMI block and the video block found so far, with their lengths. *)
Record cea_found := MkFound { f_hdmi : option (Z * Z); f_video : option Z; f_video_len : Z; f_modes : Z * probe }.

Definition cea_modes_block (edid : list Z) (db : Z) (f : cea_found) : run cea_found :=
  dbl ← cea_db_payload_len edid db;
  tag ← cea_db_tag edid db;
  if tag =? VIDEO_BLOCK then
    x ← do_cea_modes edid (db + 1) dbl (f_modes f);
    Done (MkFound (f_hdmi f) (Some (db + 1)) dbl x)
  else
    vsdb ← cea_db_is_hdmi_vsdb edid db;
    Done (if vsdb : bool then MkFound (Some (db, dbl)) (f_video f) (f_video_len f) (f_modes f) else f).

Definition add_cea_modes (edid : list Z) (p : probe) : run (Z * probe) :=
  ext ← drm_find_cea_extension edid;
  match ext with
  | None => Done (0, p)
  | Some cea =>
    rev ← cea_revision edid cea;
    if rev <? 3 then Done (0, p)
    else
      off ← cea_db_offsets edid cea;
      match off with
      | None => Done (0, p)
      | Some (start, e) =>
        f ← for_each_cea_db cea_fuel edid cea start e (fun db f =>
              f ← cea_modes_block edid db f; Done (f, false)) (MkFound None None 0 (0, p));
        match f_hdmi f with
        | None => Done (f_modes f)
        | Some (db, len) => do_hdmi_vsdb_modes edid db len (f_video f) (f_video_len f) (f_modes f)
        end
      end
  end.

(** ** Quirks *)
(** Vendor (its three letters), product and quirks. *)
Definition edid_quirk_list : list ((Z * Z * Z) * Z * Z) :=
  [ ((65, 67, 82), 44358, EDID_QUIRK_PREFER_LARGE_60);
    ((65, 80, 73), 30210, EDID_QUIRK_PREFER_LARGE_60);
    ((65, 67, 82), 2423, EDID_QUIRK_FIRST_DETAILED_PREFERRED);
    ((77, 65, 88), 1516, EDID_QUIRK_PREFER_LARGE_60);
    ((77, 65, 88), 1918, EDID_QUIRK_PREFER_LARGE_60);
    ((69, 80, 73), 59264, EDID_QUIRK_135_CLOCK_TOO_HIGH);
    ((69, 80, 73), 8232, EDID_QUIRK_PREFER_LARGE_60);
    ((70, 67, 77), 13600, Z.lor EDID_QUIRK_PREFER_LARGE_75 EDID_QUIRK_DETAILED_IN_CM);
    ((76, 80, 76), 0, EDID_QUIRK_DETAILED_USE_MAXIMUM_SIZE);
    ((76, 80, 76), 10752, EDID_QUIRK_DETAILED_USE_MAXIMUM_SIZE);
    ((80, 72, 76), 57364, EDID_QUIRK_FIRST_DETAILED_PREFERRED);
    ((80, 84, 83), 765, EDID_QUIRK_FIRST_DETAILED_PREFERRED);
    ((83, 65, 77), 541, EDID_QUIRK_DETAILED_SYNC_PP);
    ((83, 65, 77), 596, EDID_QUIRK_PREFER_LARGE_60);
    ((83, 65, 77), 638, EDID_QUIRK_PREFER_LARGE_60);
    ((83, 78, 89), 9537, EDID_QUIRK_FORCE_12BPC);
    ((86, 83, 67), 5020, EDID_QUIRK_FORCE_REDUCED_BLANKING);
    ((77, 69, 68), 1976, EDID_QUIRK_PREFER_LARGE_75);
    ((83, 69, 67), 53299, EDID_QUIRK_FORCE_8BPC) ].

Definition edid_vendor (edid : list Z) (vendor : Z * Z * Z) : run bool :=
  m0 ← byte edid edid_mfg_id; m1 ← byte edid (edid_mfg_id + 1);
  let a := Z.shiftr (Z.land m0 124) 2 + 64 in
  let b := Z.lor (Z.shiftl (Z.land m0 3) 3) (Z.shiftr (Z.land m1 224) 5) + 64 in
  let c := Z.land m1 31 + 64 in
  let '(va, vb, vc) := vendor in
  Done ((a =? va) && (b =? vb) && (c =? vc)).

Fixpoint quirk_loop (edid : list Z) (l : list ((Z * Z * Z) * Z * Z)) : run Z :=
  match l with
  | [] => Done 0
  | (vendor, product, quirks) :: l =>
    ok ← edid_vendor edid vendor;
    p0 ← byte edid edid_prod_code; p1 ← byte edid (edid_prod_code + 1);
    if ok && (Z.lor p0 (Z.shiftl p1 8) =? product) then Done quirks else quirk_loop edid l
  end.

Definition edid_get_quirks (edid : list Z) : run Z := quirk_loop edid edid_quirk_list.

(** ** The information about the display *)
Definition EDID_CEA_YCRCB444 : Z := 32.
Definition EDID_CEA_YCRCB422 : Z := 16.

Record drm_display_info := MkInfo {
  info_width_mm : Z; info_height_mm : Z; info_cea_rev : Z; info_deep : deep_color }.

Definition add_formats (fs : list (bool * Z)) (formats : Z) : Z :=
  foldl (fun a '(b, f) => if b : bool then Z.lor a f else a) formats fs.

(** The depth an EDID 1.4 gives. *)
Definition digital_depth (input : Z) : Z :=
  let d := Z.land input DRM_EDID_DIGITAL_DEPTH_MASK in
  if d =? DRM_EDID_DIGITAL_DEPTH_6 then 6 else if d =? DRM_EDID_DIGITAL_DEPTH_8 then 8
  else if d =? DRM_EDID_DIGITAL_DEPTH_10 then 10 else if d =? DRM_EDID_DIGITAL_DEPTH_12 then 12
  else if d =? DRM_EDID_DIGITAL_DEPTH_14 then 14 else if d =? DRM_EDID_DIGITAL_DEPTH_16 then 16 else 0.

Definition drm_add_display_info (edid : list Z) (info : drm_display_info) : run drm_display_info :=
  wc ← byte edid edid_width_cm; hc ← byte edid edid_height_cm;
  let w := wc * 10 in let h := hc * 10 in
  let deep := MkDeep 0 (edid_hdmi_dc_modes (info_deep info)) 0 in
  rev ← byte edid edid_revision;
  input ← byte edid edid_input;
  if rev <? 3 then Done (MkInfo w h (info_cea_rev info) deep)
  else if negb (truth (Z.land input DRM_EDID_INPUT_DIGITAL)) then Done (MkInfo w h (info_cea_rev info) deep)
  else
    ext ← drm_find_cea_extension edid;
    '(cea_rev, deep) ←
      match ext with
      | None => Done (info_cea_rev info, deep)
      | Some cea =>
        r ← byte edid (cea + 1); b3 ← byte edid (cea + 3);
        Done (r, MkDeep (bpc deep) (edid_hdmi_dc_modes deep)
          (add_formats [(truth (Z.land b3 EDID_CEA_YCRCB444), DRM_COLOR_FORMAT_YCRCB444);
                        (truth (Z.land b3 EDID_CEA_YCRCB422), DRM_COLOR_FORMAT_YCRCB422)] DRM_COLOR_FORMAT_RGB444))
      end;
    '(_, deep) ← drm_assign_hdmi_deep_color_info edid deep;
    if rev <? 4 then Done (MkInfo w h cea_rev deep)
    else
      features ← byte edid edid_features;
      let formats := add_formats
        [(truth (Z.land features DRM_EDID_FEATURE_RGB_YCRCB444), DRM_COLOR_FORMAT_YCRCB444);
         (truth (Z.land features DRM_EDID_FEATURE_RGB_YCRCB422), DRM_COLOR_FORMAT_YCRCB422)]
        (Z.lor (color_formats deep) DRM_COLOR_FORMAT_RGB444) in
      Done (MkInfo w h cea_rev (MkDeep (digital_depth input) (edid_hdmi_dc_modes deep) formats)).

Definition force_bpc (b : Z) (i : drm_display_info) : drm_display_info :=
  MkInfo (info_width_mm i) (info_height_mm i) (info_cea_rev i)
    (MkDeep b (edid_hdmi_dc_modes (info_deep i)) (color_formats (info_deep i))).

(** ** The modes of an EDID: their number, the probed modes, the EDID and the
    display information *)
Definition drm_add_edid_modes (edid_fixup : Z) (edid : list Z) (p : probe) (info : drm_display_info)
    : run (Z * probe * list Z * drm_display_info) :=
  '(valid, edid) ← drm_edid_is_valid edid_fixup edid;
  if negb valid then Done (0, p, edid, info)
  else
    quirks ← edid_get_quirks edid;
    '(n1, p, edid) ← add_detailed_modes alloc edid quirks p;
    '(n2, p) ← add_cvt_modes alloc edid p;
    '(n3, p) ← add_standard_modes alloc edid p;
    '(n4, p) ← add_established_modes alloc edid p;
    features ← byte edid edid_features;
    '(n5, p) ← (if truth (Z.land features DRM_EDID_FEATURE_DEFAULT_GTF) then add_inferred_modes alloc edid p
                else Done (0, p));
    '(n6, p) ← add_cea_modes edid p;
    '(n7, p) ← add_alternate_cea_modes edid p;
    let p := if truth (Z.land quirks (Z.lor EDID_QUIRK_PREFER_LARGE_60 EDID_QUIRK_PREFER_LARGE_75))
             then edid_fixup_preferred quirks p else p in
    info ← drm_add_display_info edid info;
    let info := if truth (Z.land quirks EDID_QUIRK_FORCE_8BPC) then force_bpc 8 info else info in
    let info := if truth (Z.land quirks EDID_QUIRK_FORCE_12BPC) then force_bpc 12 info else info in
    Done (n1 + n2 + n3 + n4 + n5 + n6 + n7, p, edid, info).

End hdmi.
