(* ===== verification/DrmEdidModesProps.v ===== *)
(** * Modes from an EDID: theorems

    A detailed timing is read back as it was written; what a monitor sends keeps
    the timings of a detailed mode in order; the CEA part adds modes of the tables
    and counts them; and every video code is found again by its mode. *)

From S2P Require Import Prelude DrmModes DrmModesProps DrmCmdlineProps DpSideband DrmEdid DrmEdidProps DrmEdidCea DrmEdidCeaProps DrmEdidTables DrmEdidModes DrmEdidHdmi.

(** The layout of a detailed timing, as VESA and include/drm/drm_edid.h have it. *)
Class drm_edid_layout_ok `{drm_edid_layout} : Prop := {
  h_fields : t_hactive_lo = 2 /\ t_hblank_lo = 3 /\ t_hactive_hblank_hi = 4;
  v_fields : t_vactive_lo = 5 /\ t_vblank_lo = 6 /\ t_vactive_vblank_hi = 7;
  s_fields : t_hsync_offset_lo = 8 /\ t_hsync_pulse_width_lo = 9 /\ t_vsync_offset_pulse_width_lo = 10 /\
             t_hsync_vsync_offset_pulse_width_hi = 11;
  size_fields : t_width_mm_lo = 12 /\ t_height_mm_lo = 13 /\ t_width_height_mm_hi = 14;
  misc_field : t_misc = 17;
  misc_bits : DRM_EDID_PT_HSYNC_POSITIVE = 2 /\ DRM_EDID_PT_VSYNC_POSITIVE = 4;
  base_fields : edid_width_cm = 21 /\ edid_height_cm = 22;
  version_fields : edid_revision = 19 /\ edid_features = 24;
}.

(** ** A detailed timing as bytes *)
Record dtd := MkDtd { d_clock : Z; d_pt : pixel_timing; d_width : Z; d_height : Z; d_misc : Z }.

Definition pt_wf (pt : pixel_timing) : Prop :=
  0 <= pt_hactive pt < 4096 /\ 0 <= pt_hblank pt < 4096 /\
  0 <= pt_hsync_offset pt < 1024 /\ 0 <= pt_hsync_pulse_width pt < 1024 /\
  0 <= pt_vactive pt < 4096 /\ 0 <= pt_vblank pt < 4096 /\
  0 <= pt_vsync_offset pt < 64 /\ 0 <= pt_vsync_pulse_width pt < 64.

Definition dtd_wf (d : dtd) : Prop :=
  0 <= d_clock d < 65536 /\ pt_wf (d_pt d) /\ 0 <= d_width d < 4096 /\ 0 <= d_height d < 4096 /\ is_u8 (d_misc d).

Definition encode_dtd (d : dtd) : list Z :=
  let pt := d_pt d in
  [ d_clock d mod 256; d_clock d / 256;
    pt_hactive pt mod 256; pt_hblank pt mod 256; pt_hactive pt / 256 * 16 + pt_hblank pt / 256;
    pt_vactive pt mod 256; pt_vblank pt mod 256; pt_vactive pt / 256 * 16 + pt_vblank pt / 256;
    pt_hsync_offset pt mod 256; pt_hsync_pulse_width pt mod 256;
    pt_vsync_offset pt mod 16 * 16 + pt_vsync_pulse_width pt mod 16;
    pt_hsync_offset pt / 256 * 64 + pt_hsync_pulse_width pt / 256 * 16 +
      pt_vsync_offset pt / 16 * 4 + pt_vsync_pulse_width pt / 16;
    d_width d mod 256; d_height d mod 256; d_width d / 256 * 16 + d_height d / 256;
    0; 0; d_misc d ].

(** ** Fields of a byte *)
Lemma byte_fields x : is_u8 x ->
  Z.land x 240 = x / 16 * 16 /\ Z.land x 15 = x mod 16 /\ Z.shiftr x 4 = x / 16 /\
  Z.land x 192 = x / 64 * 64 /\ Z.land x 48 = (x / 16) mod 4 * 16 /\
  Z.land x 12 = (x / 4) mod 4 * 4 /\ Z.land x 3 = x mod 4.
Proof.
  intros Hx.
  assert (Hall : forallb (fun x => (Z.land x 240 =? x / 16 * 16) && (Z.land x 15 =? x mod 16) && (Z.shiftr x 4 =? x / 16) &&
    (Z.land x 192 =? x / 64 * 64) && (Z.land x 48 =? (x / 16) mod 4 * 16) && (Z.land x 12 =? (x / 4) mod 4 * 4) &&
    (Z.land x 3 =? x mod 4)) (seqZ 0 256) = true) by (vm_compute; reflexivity).
  rewrite forallb_forall in Hall. specialize (Hall x). rewrite <- list_elem_of_In, elem_of_seqZ in Hall.
  specialize (Hall Hx). b2p. done.
Qed.

(** A masked part of a byte moved up, over a lower part. *)
Lemma join_parts a lo k n w :
  0 <= k -> 0 <= n -> 0 <= lo < 2 ^ (k + n) -> w = a * 2 ^ (k + n) + lo -> Z.lor (Z.shiftl (a * 2 ^ k) n) lo = w.
Proof.
  intros Hk Hn Hlo ->. rewrite <- lor_shift by lia. f_equal.
  rewrite !Z.shiftl_mul_pow2, Z.pow_add_r by lia. ring.
Qed.

(** Arithmetic on the parts of a field. *)
Ltac parts := unfold is_u8; change (2 ^ 8) with 256; Z.div_mod_to_equations; lia.

Section detailed.
Context `{drm_modes_h} `{drm_edid_modes_h} `{drm_edid_h} `{!drm_edid_h_ok} `{drm_edid_cea_h} `{!drm_edid_cea_h_ok} `{drm_edid_layout} `{!drm_edid_layout_ok}.

Ltac layout :=
  destruct h_fields as (?&?&?), v_fields as (?&?&?), s_fields as (?&?&?&?), size_fields as (?&?&?);
  pose proof misc_field;
  repeat match goal with H : _ = ?n |- _ => match n with Z0 => idtac | Zpos _ => idtac end; rewrite H; clear H end.

(** Byte [k] of the timing. *)
Lemma byte_dtd pre d post k x : encode_dtd d !! k = Some x ->
  byte (pre ++ encode_dtd d ++ post) (Z.of_nat (length pre) + Z.of_nat k) = Done x.
Proof. apply byte_mid. Qed.

(** Reads the bytes of [encode_dtd d]. *)
Ltac read_bytes pre d post :=
  repeat match goal with
  | |- context [byte _ (Z.of_nat (length pre) + Zpos ?k)] =>
    rewrite (byte_dtd pre d post (Pos.to_nat k) _ eq_refl : byte _ (_ + Zpos k) = _)
  end; mred.

Lemma read_timing_encode pre d post :
  dtd_wf d -> read_timing (pre ++ encode_dtd d ++ post) (Z.of_nat (length pre)) = Done (d_pt d).
Proof.
  intros (_ & (? & ? & ? & ? & ? & ? & ? & ?) & _). unfold read_timing. layout. read_bytes pre d post.
  destruct d as [c [ha hb ho hp va vb vo vp] w h mi]. cbn [d_pt pt_hactive pt_hblank pt_hsync_offset pt_hsync_pulse_width
    pt_vactive pt_vblank pt_vsync_offset pt_vsync_pulse_width] in *.
  destruct (byte_fields (ha / 256 * 16 + hb / 256)) as (E1 & E2 & _); [parts|].
  destruct (byte_fields (va / 256 * 16 + vb / 256)) as (E3 & E4 & _); [parts|].
  destruct (byte_fields (vo mod 16 * 16 + vp mod 16)) as (_ & E5 & E6 & _); [parts|].
  destruct (byte_fields (ho / 256 * 64 + hp / 256 * 16 + vo / 16 * 4 + vp / 16)) as (_ & _ & _ & E7 & E8 & E9 & E10); [parts|].
  rewrite E1, E2, E3, E4, E5, E6, E7, E8, E9, E10. do 2 f_equal.
  - apply (join_parts _ _ 4 4); parts.
  - rewrite <- (Z.mul_1_r (_ mod 16)). apply (join_parts _ _ 0 8); parts.
  - apply (join_parts _ _ 6 2); parts.
  - apply (join_parts _ _ 4 4); parts.
  - apply (join_parts _ _ 4 4); parts.
  - rewrite <- (Z.mul_1_r (_ mod 16)). apply (join_parts _ _ 0 8); parts.
  - apply (join_parts _ _ 2 2); parts.
  - rewrite <- (Z.mul_1_r (_ mod 4)). apply (join_parts _ _ 0 4); parts.
Qed.

Lemma dtd_length d : length (encode_dtd d) = 18%nat.
Proof. done. Qed.

(** Writing the byte that is there. *)
Lemma poke_same buf i x : byte buf i = Done x -> poke i x buf = Done buf.
Proof.
  unfold byte, poke, deref. destruct (Z.ltb_spec i 0); [done|]. destruct (buf !! Z.to_nat i) as [y|] eqn:Hy; [|done].
  intros [= ->]. pose proof (lookup_lt_Some _ _ _ Hy). destruct (Z.leb_spec 0 i), (Z.ltb_spec i (Z.of_nat (length buf))); try lia.
  cbn [andb]. by rewrite list_insert_id.
Qed.

Lemma size_encode pre d post :
  dtd_wf d -> detailed_size_of (pre ++ encode_dtd d ++ post) (Z.of_nat (length pre)) 0 = Done (d_width d, d_height d).
Proof.
  intros (_ & _ & Hw & Hh & _). unfold detailed_size_of. layout. read_bytes pre d post.
  rewrite !Z.land_0_l. change (truth 0) with false. cbv iota.
  destruct (byte_fields (d_width d / 256 * 16 + d_height d / 256)) as (E1 & E2 & _); [parts|].
  rewrite E1, E2, !(Z.lor_comm (_ mod 256)). do 2 f_equal.
  - apply (join_parts _ _ 4 4); parts.
  - rewrite <- (Z.mul_1_r (_ mod 16)). apply (join_parts _ _ 0 8); parts.
Qed.

(** C36: a detailed timing written as VESA lays it out, with at least 64 pixels and
    lines, syncs within the blanking, and neither stereo nor interlace, is read
    back as the mode it describes: its clock, every position of its lines and
    columns, its size in millimetres and the polarity of its syncs; the EDID and
    the modes found so far stay as they were.  No quirk applies to the monitor, and
    there is memory for the mode. *)
Theorem detailed_timing_roundtrip alloc id pre d post p :
  dtd_wf d -> alloc (asked p) = Some id ->
  let pt := d_pt d in
  64 <= pt_hactive pt -> 64 <= pt_vactive pt ->
  0 < pt_hsync_pulse_width pt -> pt_hsync_offset pt + pt_hsync_pulse_width pt <= pt_hblank pt ->
  0 < pt_vsync_pulse_width pt -> pt_vsync_offset pt + pt_vsync_pulse_width pt <= pt_vblank pt ->
  Z.land (d_misc d) DRM_EDID_PT_STEREO = 0 -> Z.land (d_misc d) DRM_EDID_PT_INTERLACED = 0 ->
  let edid := pre ++ encode_dtd d ++ post in
  exists m, drm_mode_detailed alloc edid (Z.of_nat (length pre)) 0 p =
    Done (Some (m, (d_width d, d_height d)), edid, MkProbe (probed_modes p) (S (asked p))) /\
  base_id m = id /\ type m = DRM_MODE_TYPE_DRIVER /\
  t m = mk_timings (d_clock d * 10)
    (pt_hactive pt) (pt_hactive pt + pt_hsync_offset pt)
    (pt_hactive pt + pt_hsync_offset pt + pt_hsync_pulse_width pt) (pt_hactive pt + pt_hblank pt) 0
    (pt_vactive pt) (pt_vactive pt + pt_vsync_offset pt)
    (pt_vactive pt + pt_vsync_offset pt + pt_vsync_pulse_width pt) (pt_vactive pt + pt_vblank pt) 0 /\
  flags m = Z.lor (if truth (Z.land (d_misc d) DRM_EDID_PT_HSYNC_POSITIVE) then DRM_MODE_FLAG_PHSYNC else DRM_MODE_FLAG_NHSYNC)
                  (if truth (Z.land (d_misc d) DRM_EDID_PT_VSYNC_POSITIVE) then DRM_MODE_FLAG_PVSYNC else DRM_MODE_FLAG_NVSYNC).
Proof.
  intros Hd Ha pt Hh Hv Hhp Hhb Hvp Hvb Hst Hil edid. destruct Hd as (Hc & Hpt & Hwd & Hht & Hm) eqn:Ed.
  assert (Hmisc : byte edid (Z.of_nat (length pre) + 17) = Done (d_misc d)) by apply (byte_dtd pre d post 17 _ eq_refl).
  assert (Hc0 : byte edid (Z.of_nat (length pre)) = Done (d_clock d mod 256)).
  { rewrite <- (Z.add_0_r (Z.of_nat _)). apply (byte_dtd pre d post 0 _ eq_refl). }
  assert (Hc1 : byte edid (Z.of_nat (length pre) + 1) = Done (d_clock d / 256)) by apply (byte_dtd pre d post 1 _ eq_refl).
  assert (Hrt : read_timing edid (Z.of_nat (length pre)) = Done pt) by (by apply read_timing_encode).
  assert (Hsz : detailed_size_of edid (Z.of_nat (length pre)) 0 = Done (d_width d, d_height d)) by (by apply size_encode).
  clearbody edid. unfold drm_mode_detailed. rewrite Hrt. mred. rewrite misc_field, Hmisc.
  fold pt. mred. destruct (Z.ltb_spec (pt_hactive pt) 64), (Z.ltb_spec (pt_vactive pt) 64); try lia. cbn [orb].
  rewrite Hst. destruct (Z.eqb_spec (pt_hsync_pulse_width pt) 0), (Z.eqb_spec (pt_vsync_pulse_width pt) 0); try lia.
  change (truth 0) with false. rewrite !(Z.land_0_l EDID_QUIRK_FORCE_REDUCED_BLANKING).
  rewrite !(Z.land_0_l EDID_QUIRK_135_CLOCK_TOO_HIGH), !(Z.land_0_l EDID_QUIRK_DETAILED_SYNC_PP). change (truth 0) with false.
  unfold with_alloc. rewrite Ha. cbn -[byte poke detailed_size_of detailed_timings_of]. mred.
  rewrite Hc0. mred. rewrite Hc1. mred. rewrite (poke_same _ _ _ Hmisc). mred.
  rewrite Hsz. mred.
  unfold drm_mode_do_interlace_quirk. rewrite Hil. cbn -[detailed_timings_of].
  eexists. split; [reflexivity|]. split; [done|]. split; [done|]. split.
  - unfold finish_mode, detailed_timings_of. cbn. replace (d_clock d mod 256 + d_clock d / 256 * 256) with (d_clock d) by parts.
    fold pt. f_equal; case_if; b2p; lia.
  - unfold finish_mode. cbn. by rewrite Z.lor_0_l.
Qed.

(** ** What a routine adds to the probed modes *)

(** [n] counts, as an [int], the modes that were appended to those of [p]. *)
Definition added (ok : drm_display_mode -> Prop) (p : probe) (n : Z) (p' : probe) : Prop :=
  exists new, probed_modes p' = probed_modes p ++ new /\ u32 n = u32 (Z.of_nat (length new)) /\ Forall ok new.

Lemma added_none ok p k : added ok p 0 (MkProbe (probed_modes p) k).
Proof. exists []. by rewrite app_nil_r. Qed.

Lemma added_asked ok p n p' k : added ok p n p' -> added ok p n (MkProbe (probed_modes p') k).
Proof. done. Qed.

Lemma u32_s32_succ n k : u32 n = u32 k -> u32 (s32 (n + 1)) = u32 (k + 1).
Proof.
  unfold u32, wrap, s32. intros E. rewrite Zminus_mod, Zmod_mod, <- Zminus_mod.
  replace (n + 1 + 2 ^ 31 - 2 ^ 31) with (n + 1) by lia. by rewrite Zplus_mod, E, <- Zplus_mod.
Qed.

Lemma added_one (ok : drm_display_mode -> Prop) p n p' m :
  added ok p n p' -> ok m -> added ok p (s32 (n + 1)) (drm_mode_probed_add m p').
Proof.
  intros (new & Hp & Hn & Hok) Hm. exists (new ++ [m]). cbn [drm_mode_probed_add probed_modes]. rewrite Hp, app_assoc.
  split; [done|]. split; [|by apply Forall_app; split; [|constructor]].
  rewrite length_app, Nat2Z.inj_add. by apply u32_s32_succ.
Qed.

(** ** Detailed modes of any EDID *)
Lemma ordered_detailed c pt :
  0 < pt_hactive pt -> 0 <= pt_hsync_offset pt -> 0 < pt_hsync_pulse_width pt ->
  0 < pt_vactive pt -> 0 <= pt_vsync_offset pt -> 0 < pt_vsync_pulse_width pt ->
  ordered (detailed_timings_of c pt).
Proof.
  intros. unfold ordered, detailed_timings_of. cbn. repeat case_if; b2p; lia.
Qed.

Lemma ordered_double m : ordered (t m) -> ordered (t (double_height m)).
Proof.
  unfold ordered. destruct (t m) as [? ? ? ? ? ? ? ? ? vt ?] eqn:E. unfold double_height. rewrite E. cbn.
  pose proof (lor_shift vt 1 1 ltac:(lia) ltac:(lia)) as Hl. rewrite Z.shiftl_mul_pow2 in Hl by lia.
  change (2 ^ 1) with 2 in Hl. rewrite Hl.
  lia.
Qed.

Lemma ordered_interlace misc m : ordered (t m) -> ordered (t (drm_mode_do_interlace_quirk misc m)).
Proof.
  intros Hm. unfold drm_mode_do_interlace_quirk. case_if; [|done]. cbn [set_flags t].
  revert m Hm. induction cea_interlaced as [|[w h] l IH]; intros m Hm; [done|]. cbn [foldl].
  apply IH. case_if; [by apply ordered_double|done].
Qed.

(** An EDID with the bytes of another one replaced. *)
Definition like (edid e : list Z) : Prop := Forall is_u8 e /\ length e = length edid.

Lemma like_byte edid e i : like edid e -> 0 <= i < Z.of_nat (length edid) -> exists b, byte e i = Done b /\ is_u8 b.
Proof. intros [Hu Hl] Hi. exists (rd e i). split; [apply byte_rd; lia|by apply rd_u8]. Qed.

Lemma like_poke edid e i v : like edid e -> is_u8 v -> 0 <= i < Z.of_nat (length edid) ->
  exists e', poke i v e = Done e' /\ like edid e'.
Proof.
  intros [Hu Hl] Hv Hi. unfold poke. rewrite Hl.
  destruct (Z.leb_spec 0 i), (Z.ltb_spec i (Z.of_nat (length edid))); try lia. cbn [andb].
  eexists. split; [done|]. split; [by apply Forall_insert|by rewrite length_insert].
Qed.

(** Takes the next byte of an EDID like [edid]. *)
Ltac next_byte L :=
  match goal with |- context [byte ?e ?i] =>
    let b := fresh "b" in let Hb := fresh "Hb" in
    destruct (like_byte _ e i L ltac:(lia)) as (b & -> & Hb); mred end.

Lemma lor_nonneg_intro a b : 0 <= a -> 0 <= b -> 0 <= Z.lor a b.
Proof. rewrite Z.lor_nonneg. done. Qed.
Lemma land_nonneg_intro a b : 0 <= b -> 0 <= Z.land a b.
Proof. rewrite Z.land_nonneg. by right. Qed.
Hint Resolve lor_nonneg_intro land_nonneg_intro : nonneg.
Hint Extern 1 (0 <= Z.shiftl _ _) => apply Z.shiftl_nonneg : nonneg.
Hint Extern 1 (0 <= Z.shiftr _ _) => apply Z.shiftr_nonneg : nonneg.
Hint Extern 1 (0 <= _) => lia : nonneg.

Section any_edid.
Context (edid : list Z) (Hs : sized edid).
Notation len := (Z.of_nat (length edid)).

Lemma read_timing_total e tm : like edid e -> timing_at edid tm ->
  exists pt, read_timing e tm = Done pt /\
    0 <= pt_hsync_offset pt /\ 0 <= pt_hsync_pulse_width pt /\ 0 <= pt_vsync_offset pt /\ 0 <= pt_vsync_pulse_width pt.
Proof.
  intros L [Hlo Hhi]. unfold read_timing. layout. do 10 next_byte L. unfold is_u8 in *.
  eexists. split; [done|]. cbn. repeat split; eauto 6 with nonneg.
Qed.

Lemma size_total e tm quirks : like edid e -> timing_at edid tm -> exists sz, detailed_size_of e tm quirks = Done sz.
Proof.
  intros L [Hlo Hhi]. pose proof (sized_min edid Hs). unfold detailed_size_of. destruct base_fields as [Ew Eh]. layout.
  do 5 next_byte L. repeat case_if; by eauto.
Qed.

Ltac nothing L := do 3 eexists; split; [reflexivity|]; split; [exact L|]; split; [reflexivity|by intros ?? [=]].

Lemma detailed_total alloc e tm quirks p :
  like edid e -> timing_at edid tm -> truth (Z.land quirks EDID_QUIRK_FORCE_REDUCED_BLANKING) = false ->
  exists r e' p', drm_mode_detailed alloc e tm quirks p = Done (r, e', p') /\ like edid e' /\
    probed_modes p' = probed_modes p /\ forall m sz, r = Some (m, sz) -> ordered (t m).
Proof.
  intros L Ht Hq. destruct Ht as [Hlo Hhi] eqn:Et. unfold drm_mode_detailed. rewrite misc_field.
  destruct (read_timing_total e tm L Ht) as (pt & -> & Ho1 & Hp1 & Ho2 & Hp2). mred.
  destruct (like_byte _ e (tm + 17) L ltac:(lia)) as (misc & -> & Hm). mred.
  do 3 (case_if; [nothing L|]). rewrite Hq. b2p.
  unfold with_alloc. destruct (alloc (asked p)) as [id|]; cbn [drm_mode_create]; [|nothing L].
  assert (exists e1, (if truth (Z.land quirks EDID_QUIRK_135_CLOCK_TOO_HIGH)
    then e1 ← poke tm (u8 1088) e; poke (tm + 1) (1088 / 256) e1 else Done e) = Done e1 /\ like edid e1) as (e1 & He1 & L1).
  { case_if; [|by eauto]. destruct (like_poke edid e tm (u8 1088) L (u8_bounds _) ltac:(lia)) as (e1 & E1 & L1).
    rewrite E1. mred. apply like_poke; [done|change (1088 / 256) with 4; unfold is_u8; lia|lia]. }
  unfold mbind, run_bind in He1 |- *. rewrite He1. clear He1. do 2 next_byte L1.
  match goal with |- context [poke _ ?v e1] => destruct (like_poke edid e1 (tm + 17) v L1) as (e2 & -> & L2) end; [|lia|].
  { case_if; [|done]. destruct misc_bits as [-> ->]. change (Z.lor 2 4) with 6; apply lor_bounds; unfold is_u8 in *; lia. }
  destruct (size_total e2 tm quirks L2 Ht) as [sz ->].
  do 3 eexists. split; [reflexivity|]. split; [done|]. split; [done|].
  intros m sz' [= <- _]. cbn [finish_mode drm_mode_set_name t set_flags].
  apply ordered_interlace. cbn [set_t t]. apply ordered_detailed; lia.
Qed.

Definition closure_ok (quirks : Z) (p : probe) (c : closure) : Prop :=
  like edid (cl_edid c) /\ quirk_bits c = quirks /\ added (fun m => ordered (t m)) p (modes c) (cl_probe c).

Lemma do_detailed_total alloc quirks p tm c :
  truth (Z.land quirks EDID_QUIRK_FORCE_REDUCED_BLANKING) = false -> timing_at edid tm -> closure_ok quirks p c ->
  exists c', do_detailed_mode alloc tm c = Done c' /\ closure_ok quirks p c'.
Proof.
  intros Hq Ht (L & Eq & Ha). destruct Ht as [Hlo Hhi] eqn:Et. unfold do_detailed_mode. do 2 next_byte L.
  case_if; [by exists c|].
  destruct (detailed_total alloc (cl_edid c) tm (quirk_bits c) (cl_probe c) L Ht) as (r & e' & p' & -> & L' & Hp & Hr); [by rewrite Eq|].
  mred. assert (Ha' : added (fun m => ordered (t m)) p (modes c) p').
  { destruct Ha as (new & Hn & Ha). exists new. by rewrite Hp, Hn. }
  destruct r as [[m sz]|]; eexists; (split; [reflexivity|]); split; cbn; [done| |done|]; split; [done| |done|done].
  apply added_one; [done|]. specialize (Hr m sz eq_refl). by case_if.
Qed.

Lemma version_total maj min : exists b, version_greater edid maj min = Done b.
Proof.
  pose proof (sized_min edid Hs). unfold version_greater. rewrite version_at. destruct version_fields as [-> _].
  rewrite !byte_ok by (done || lia). mred. by eauto.
Qed.

End any_edid.

(** Whatever a monitor sends: on every EDID of the size it announces, with
    every outcome of the allocations (and without the quirk that replaces the
    timings by computed ones), [add_detailed_modes] returns; it appends modes to
    those found so far and counts them, each with the positions of its syncs in
    order between the displayed part and a positive total, and the EDID, which
    quirks patch, keeps its size. *)
Theorem detailed_modes_ordered alloc edid quirks p :
  sized edid -> truth (Z.land quirks EDID_QUIRK_FORCE_REDUCED_BLANKING) = false ->
  exists n p' edid', add_detailed_modes alloc edid quirks p = Done (n, p', edid') /\
    added (fun m => ordered (t m)) p n p' /\ length edid' = length edid /\ Forall is_u8 edid'.
Proof.
  intros Hs Hq. unfold add_detailed_modes. destruct (version_total edid Hs 1 3) as [gt ->]. mred.
  pose proof (sized_min edid Hs). destruct version_fields as [_ ->]. rewrite byte_ok by (done || lia). mred.
  match goal with |- context [drm_for_each_detailed_block _ _ ?c0] =>
    destruct (each_detailed_total edid Hs (closure_ok edid quirks p) (do_detailed_mode alloc) c0)
      as (c & -> & [Hu Hl] & _ & Ha) end.
  - split; [by split; [apply Hs|]|]. split; [done|]. destruct p. apply added_none.
  - intros tm c Ht Hc. by apply (do_detailed_total edid Hs).
  - mred. by do 3 eexists.
Qed.

End detailed.

(** ** Modes of the CEA extension *)
Section hdmi.
Context `{drm_modes_h} `{drm_edid_modes_h} `{drm_edid_h} `{!drm_edid_h_ok} `{drm_edid_cea_h} `{!drm_edid_cea_h_ok}.
Context `{drm_edid_layout} `{drm_edid_info_h}.
Context (alloc : nat -> option Z).

Lemma duplicate_t a e m : drm_mode_duplicate a e = Some m -> t m = t e.
Proof. unfold drm_mode_duplicate. destruct a as [id|]; cbn [drm_mode_create]; [|done]. by intros [= <-]. Qed.

(** A mode with the timings of a table entry or of a mode found before. *)
Definition known (p : probe) (m : drm_display_mode) : Prop :=
  exists e, (e ∈ edid_cea_modes ++ edid_4k_modes \/ e ∈ probed_modes p) /\ t m = t e.

Lemma known_cea p k e m : edid_cea_modes !! k = Some e -> t m = t e -> known p m.
Proof. intros Hk Ht. exists e. split; [left; apply elem_of_app; left; by eapply list_elem_of_lookup_2|done]. Qed.

Lemma known_4k p k e m : edid_4k_modes !! k = Some e -> t m = t e -> known p m.
Proof. intros Hk Ht. exists e. split; [left; apply elem_of_app; right; by eapply list_elem_of_lookup_2|done]. Qed.

Section from.
Context (p : probe).

(** The modes so far and their number, from those of [p]. *)
Notation A x := (added (known p) p x.1 x.2).

Lemma added_probe n p1 p2 : probed_modes p2 = probed_modes p1 -> added (known p) p n p1 -> added (known p) p n p2.
Proof. intros E (new & Hp & Hn). exists new. by rewrite E. Qed.

Lemma add_if_added r n p1 : added (known p) p n p1 -> (forall m, r = Some m -> known p m) -> A (add_if r (n, p1)).
Proof. intros Ha Hr. destruct r as [m|]; [|done]. apply added_one; [done|by apply Hr]. Qed.

Section any_edid.
Context (edid : list Z) (Hs : sized edid).
Notation len := (Z.of_nat (length edid)).

(** The video codes, if there are any, are in the EDID. *)
Definition codes_at (video_db : option Z) (video_len : Z) : Prop :=
  forall db, video_db = Some db -> 0 <= db /\ db + video_len <= len.

Lemma vic_index_total video_db video_len i p1 :
  codes_at video_db video_len -> 0 <= i ->
  exists r p2, drm_display_mode_from_vic_index alloc edid video_db video_len i p1 = Done (r, p2) /\
    probed_modes p2 = probed_modes p1 /\ forall m, r = Some m -> known p m.
Proof.
  intros Hc Hi. unfold drm_display_mode_from_vic_index. destruct video_db as [db|]; [|by do 2 eexists].
  destruct (Hc db eq_refl) as [Hdb Hle]. case_if; [by do 2 eexists|]. b2p. rewrite byte_ok by (done || lia). mred.
  destruct (edid_cea_modes !! _) as [e|] eqn:He; [|by do 2 eexists]. unfold with_alloc.
  do 2 eexists. split; [reflexivity|]. split; [done|]. intros m Hm.
  destruct (drm_mode_duplicate _ e) as [m'|] eqn:Hd; [|done]. injection Hm as <-.
  eapply known_cea; [done|]. cbn. by eapply duplicate_t.
Qed.

Lemma do_cea_total db n x : 0 <= db -> db + n <= len -> A x ->
  exists y, do_cea_modes alloc edid db n x = Done y /\ A y.
Proof.
  intros Hdb Hn Hx. unfold do_cea_modes. apply for_loop_total; [done|]. intros k [c p1] Hk Hp1.
  destruct (vic_index_total (Some db) n k p1) as (r & p2 & -> & Hp2 & Hr); [by intros ? [= <-]|lia|].
  mred. eexists. split; [reflexivity|]. apply add_if_added; [|done]. by eapply added_probe.
Qed.

Lemma add_3d_total video_db video_len i flag x : codes_at video_db video_len -> 0 <= i -> A x ->
  exists y, add_3d_mode alloc edid video_db video_len i flag x = Done y /\ A y.
Proof.
  intros Hc Hi Hx. unfold add_3d_mode.
  destruct (vic_index_total video_db video_len i x.2) as (r & p2 & -> & Hp2 & Hr); [done..|]. mred.
  eexists. split; [reflexivity|]. apply add_if_added; [by eapply added_probe|].
  intros m Hm. destruct r as [m'|]; [|done]. injection Hm as <-. destruct (Hr m' eq_refl) as (e & He & Ht). by exists e.
Qed.

Lemma add_3d_struct_total structure video_db video_len i x : codes_at video_db video_len -> 0 <= i -> A x ->
  exists y, add_3d_struct_modes alloc edid structure video_db video_len i x = Done y /\ A y.
Proof.
  intros Hc Hi Hx. unfold add_3d_struct_modes.
  assert (Hone : forall bit flag x, A x -> exists y, (if truth (Z.land structure (2 ^ bit))
    then add_3d_mode alloc edid video_db video_len i flag x else Done x) = Done y /\ A y).
  { intros bit flag z Hz. case_if; [by apply add_3d_total|by eauto]. }
  destruct (Hone 0 DRM_MODE_FLAG_3D_FRAME_PACKING x Hx) as (y & -> & Hy). mred.
  destruct (Hone 6 DRM_MODE_FLAG_3D_TOP_AND_BOTTOM y Hy) as (z & -> & Hz). mred. by apply Hone.
Qed.

Lemma add_hdmi_added vic x : A x -> A (add_hdmi_mode alloc vic x).
Proof.
  intros Hx. unfold add_hdmi_mode. destruct (edid_4k_modes !! _) as [e|] eqn:He; [|done]. unfold with_alloc.
  apply add_if_added; [by eapply added_probe|]. intros m Hm. eapply known_4k; [done|]. by eapply duplicate_t.
Qed.

Lemma vic_loop_total db n off k i x : 0 <= db -> db + n < len -> 0 <= off + i -> A x ->
  exists y, vic_loop alloc edid db n off k i x = Done y /\ A y.
Proof.
  intros Hdb Hn. revert i x. induction k as [|k IH]; intros i x Hi Hx; cbn [vic_loop]; [by eauto|].
  case_if; [|by eauto]. b2p. rewrite byte_ok by (done || lia). mred. apply IH; [lia|by apply add_hdmi_added].
Qed.

Lemma structure_loop_total db off last video_db video_len k i x :
  codes_at video_db video_len -> 0 <= db + 8 + off + i -> db + 8 + off + last <= len ->
  Z.of_nat k = last - i -> A x ->
  exists y, structure_loop alloc edid db off last video_db video_len k i x = Done y /\ A y.
Proof.
  intros Hc Hi Hl. revert k i x Hi.
  refine (well_founded_induction_type lt_wf _ _). intros k IH i x Hi Hk Hx.
  destruct k as [|k]; cbn [structure_loop]; [by eauto|]. rewrite (byte_rd edid (db + 8 + off + i)) by lia. mred.
  set (b := rd edid _). assert (Hb : 0 <= b) by (pose proof (rd_ok edid Hs (db + 8 + off + i)); lia).
  case_if; [by eauto|]. rename Heqb0 into Hbreak.
  assert (exists fl, (if Z.land b 15 =? 0 then Done DRM_MODE_FLAG_3D_FRAME_PACKING
    else if Z.land b 15 =? 6 then Done DRM_MODE_FLAG_3D_TOP_AND_BOTTOM
    else if Z.land b 15 =? 8 then
      d ← byte edid (db + 9 + off + i); Done (if Z.shiftr d 4 =? 1 then DRM_MODE_FLAG_3D_SIDE_BY_SIDE_HALF else 0)
    else Done 0) = Done fl) as [fl Hfl].
  { repeat (case_if; [by eauto|]). case_if; [|by eauto]. b2p. apply andb_false_iff in Hbreak.
    rewrite byte_rd; [mred; by eauto|]. destruct Hbreak; b2p; lia. }
  unfold mbind, run_bind in Hfl |- *. rewrite Hfl. clear Hfl.
  assert (exists z, (if truth fl then add_3d_mode alloc edid video_db video_len (Z.shiftr b 4) fl x else Done x) = Done z /\ A z)
    as (z & -> & Hz).
  { case_if; [|by eauto]. apply add_3d_total; [done|by apply Z.shiftr_nonneg|done]. }
  case_if; [|apply IH; [lia|lia|lia|done]].
  cbn [andb] in Hbreak. b2p. apply IH; [lia|lia| |done]. destruct k; lia.
Qed.

Lemma multi_total db off multi video_db video_len x :
  codes_at video_db video_len -> 0 <= db + 8 + off ->
  (multi = 1 -> db + 9 + off < len) -> (multi = 2 -> db + 11 + off < len) -> A x ->
  exists y, multi_modes alloc edid db off multi video_db video_len x = Done y /\ A y.
Proof.
  intros Hc Hlo H1' H2' Hx. unfold multi_modes. case_if; [|by eauto].
  apply orb_true_iff in Heqb. rewrite !Z.eqb_eq in Heqb.
  rewrite (byte_rd edid (db + 8 + off)) by lia. mred. rewrite (byte_rd edid (db + 9 + off)) by lia. mred.
  assert (exists mask, (if multi =? 2 then m0 ← byte edid (db + 10 + off); m1 ← byte edid (db + 11 + off);
    Done (Z.lor (Z.shiftl m0 8) m1) else Done 65535) = Done mask) as [mask Hmask].
  { case_if; [|by eauto]. b2p. rewrite !byte_rd by lia. mred. by eauto. }
  unfold mbind, run_bind in Hmask |- *. rewrite Hmask. apply for_loop_total; [done|].
  intros k z Hk Hz. case_if; [|by eauto]. apply add_3d_struct_total; [done|lia|done].
Qed.

End any_edid.

(** Stereo modes are copies of modes found before. *)
Lemma stereo_loop_known mode l k : Forall (fun m => t m = t mode) (stereo_loop alloc mode l k).1.
Proof.
  revert k. induction l as [|s l IH]; intros k; cbn [stereo_loop]; [done|]. case_if; [|done].
  specialize (IH (S k)). destruct (stereo_loop alloc mode l (S k)) as [rest n]. cbn [fst] in *.
  apply Forall_app. split; [|done]. destruct (drm_mode_duplicate (alloc k) mode) as [m|] eqn:Hd; [|done].
  constructor; [|done]. cbn. by eapply duplicate_t.
Qed.

Lemma stereo_modes_known l k : Forall (fun m => exists e, e ∈ l /\ t m = t e) (stereo_modes alloc l k).1.
Proof.
  revert k. induction l as [|mode l IH]; intros k; cbn [stereo_modes]; [done|].
  pose proof (stereo_loop_known mode stereo_mandatory_modes k) as Hl. destruct (stereo_loop _ _ _ k) as [new k'].
  specialize (IH k'). destruct (stereo_modes alloc l k') as [rest n]. cbn [fst] in *. apply Forall_app. split.
  - eapply Forall_impl; [exact Hl|]. intros m Hm. exists mode. split; [by left|done].
  - eapply Forall_impl; [exact IH|]. intros m (e & He & Ht). exists e. split; [by right|done].
Qed.

Lemma added_many n p1 p2 new :
  added (known p) p n p1 -> probed_modes p2 = probed_modes p1 ++ new -> Forall (known p) new ->
  added (known p) p (n + Z.of_nat (length new)) p2.
Proof.
  intros (old & Hp & Hn & Ho) Hp2 Hnew. exists (old ++ new). rewrite Hp2, Hp, app_assoc. split; [done|].
  split; [|by apply Forall_app]. rewrite length_app, Nat2Z.inj_add. unfold u32, wrap in *.
  by rewrite Zplus_mod, Hn, <- Zplus_mod.
Qed.

Lemma stereo_added x : A x -> A (add_hdmi_mandatory_stereo_modes alloc x).
Proof.
  intros Hx. unfold add_hdmi_mandatory_stereo_modes. pose proof (stereo_modes_known (probed_modes x.2) (asked x.2)) as Hk.
  destruct (stereo_modes alloc _ _) as [new n]. cbn [fst snd] in *. eapply added_many; [exact Hx|done|].
  eapply Forall_impl; [exact Hk|]. intros m (e & He & Ht). destruct Hx as (old & Hp & _ & Ho).
  rewrite Hp in He. apply elem_of_app in He as [He|He]; [exists e; by auto|].
  destruct (proj1 (Forall_forall _ _) Ho e He) as (e' & He' & Ht'). exists e'. split; [done|congruence].
Qed.

Section block.
Context (edid : list Z) (Hs : sized edid).
Notation len := (Z.of_nat (length edid)).

Lemma vsdb_video_total db n video_db video_len off x :
  0 <= db -> db + n < len -> 0 <= off -> 8 + off + 2 <= n -> codes_at edid video_db video_len -> A x ->
  exists y, vsdb_video alloc edid db n video_db video_len off x = Done y /\ A y.
Proof.
  intros Hdb Hn Ho Hl Hc Hx. unfold vsdb_video.
  rewrite (byte_rd edid (db + 8 + (off + 1))) by lia. mred. rewrite (byte_rd edid (db + 8 + (off + 1 + 1))) by lia. mred.
  set (b := rd edid (db + 8 + (off + 1))). set (v := rd edid (db + 8 + (off + 1 + 1))).
  set (multi := if truth (Z.land b 128) then Z.shiftr (Z.land b 96) 5 else 0).
  assert (Hv : 0 <= Z.shiftr v 5) by (apply Z.shiftr_nonneg; unfold v; pose proof (rd_ok edid Hs (db + 8 + (off + 1 + 1))); lia).
  assert (Hx' : A (if truth (Z.land b 128) then add_hdmi_mandatory_stereo_modes alloc x else x))
    by (case_if; [by apply stereo_added|done]).
  destruct (vic_loop_total edid db n (off + 1 + 1) (Z.to_nat (Z.shiftr v 5)) 0 _ Hdb Hn ltac:(lia) Hx') as (y & -> & Hy).
  assert (Hm : 0 <= Z.land v 31) by (apply Z.land_nonneg; by right).
  case_if; [by eauto|]. case_if; [by eauto|]. b2p.
  assert (Hml : 0 <= (if multi =? 1 then 2 else if multi =? 2 then 4 else 0)) by (repeat case_if; lia).
  destruct (multi_total edid db (off + 1 + 1 + 1 + Z.shiftr v 5) multi video_db video_len y) as (z & -> & Hz); [done|lia| | |done|].
  { intros E. rewrite E in *. cbn in *. lia. }
  { intros E. rewrite E in *. cbn in *. lia. }
  mred. apply structure_loop_total; [done|done|lia|lia|lia|done].
Qed.

Lemma hdmi_vsdb_modes_total db n video_db video_len x :
  0 <= db -> db + n < len -> codes_at edid video_db video_len -> A x ->
  exists y, do_hdmi_vsdb_modes alloc edid db n video_db video_len x = Done y /\ A y.
Proof.
  intros Hdb Hn Hc Hx. unfold do_hdmi_vsdb_modes. case_if; [by eauto|]. b2p.
  rewrite (byte_rd edid (db + 8)) by lia. mred. case_if; [by eauto|].
  set (off := (if truth (Z.land _ 128) then 2 else 0) + _).
  assert (0 <= off) by (unfold off; repeat case_if; lia).
  case_if; [by eauto|]. b2p. apply vsdb_video_total; [done|done|lia|lia|done|done].
Qed.

(** What the walk over the data blocks has found. *)
Definition found_ok (f : cea_found) : Prop :=
  A (f_modes f) /\ codes_at edid (f_video f) (f_video_len f) /\
  forall db n, f_hdmi f = Some (db, n) -> 0 <= db /\ db + n < len.

Lemma cea_block_total db f : db_at edid db -> found_ok f ->
  exists f', cea_modes_block alloc edid db f = Done f' /\ found_ok f'.
Proof.
  intros Hdb (Hm & Hv & Hh). destruct Hdb as [Hlo Hhi] eqn:Ed. pose proof (payload_range edid db).
  unfold cea_modes_block. rewrite payload_ok by (done || lia). mred. rewrite tag_ok by (done || lia). mred. case_if.
  - destruct (do_cea_total edid (db + 1) (payload edid db) (f_modes f)) as (y & -> & Hy); [lia|lia|done|].
    mred. eexists. split; [reflexivity|]. split; [done|]. split; [|done]. intros ? [= <-]; cbn; lia.
  - destruct (hdmi_vsdb_total edid db Hdb) as [r ->]. mred. eexists. split; [reflexivity|].
    case_if; [|done]. split; [done|]. split; [done|]. intros ?? [= <- <-]. lia.
Qed.

End block.
End from.

(** C29: whatever a monitor sends: on every EDID of the size it announces and with
    every outcome of the allocations, [add_cea_modes] returns (no data block, no
    table of codes and no 3D structure makes it read outside the EDID); it appends
    modes to those found so far and counts them, each with the timings of an entry
    of the CEA or HDMI tables or, for stereo, of a mode that was found before. *)
Theorem cea_modes_from_tables edid p :
  sized edid ->
  exists n p', add_cea_modes alloc edid p = Done (n, p') /\ added (known p) p n p'.
Proof.
  intros Hs. assert (Hp : added (known p) p 0 p) by (destruct p; apply added_none).
  destruct (query_total edid Hs (fun x => added (known p) p x.1 x.2) (Done (0, p)) (fun cea =>
    rev ← cea_revision edid cea; if rev <? 3 then Done (0, p) else
      off ← cea_db_offsets edid cea;
      match off with
      | None => Done (0, p)
      | Some (start, e) =>
        f ← for_each_cea_db cea_fuel edid cea start e (fun db f =>
              f ← cea_modes_block alloc edid db f; Done (f, false)) (MkFound None None 0 (0, p));
        match f_hdmi f with
        | None => Done (f_modes f)
        | Some (db, len) => do_hdmi_vsdb_modes alloc edid db len (f_video f) (f_video_len f) (f_modes f)
        end
      end)) as ([n p'] & Hr & Ha); [by eauto| |by exists n, p'].
  intros cea Hc. destruct Hc as [Hlo Hhi] eqn:Ec. unfold cea_revision. rewrite byte_ok by (done || lia). mred.
  case_if; [by eauto|]. destruct (offsets_total edid cea Hc) as (r & -> & Hr). mred.
  destruct r as [[s e]|]; [|by eauto]. destruct (Hr s e eq_refl) as [-> He].
  destruct (cea_loop_total edid (found_ok p edid) (fun db f => f ← cea_modes_block alloc edid db f; Done (f, false)) cea 4 e
    (MkFound None None 0 (0, p)) Hc) as (f & Hf & Hm & Hv & Hh); [lia|lia|by split|..].
  { intros db f Hdb Hf. destruct (cea_block_total p edid db f Hdb Hf) as (f' & -> & Hf'). mred. by eauto. }
  unfold mbind, run_bind in Hf |- *. rewrite Hf. destruct (f_hdmi f) as [[db n]|]; [|by eauto].
  destruct (Hh db n eq_refl). by apply (hdmi_vsdb_modes_total p edid Hs).
Qed.

(** ** The other clock *)
Definition table_match (alternate : drm_display_mode -> Z) (m e : drm_display_mode) : Prop :=
  (KHZ2PICOS (clock (t m)) = KHZ2PICOS (clock (t e)) \/ KHZ2PICOS (clock (t m)) = KHZ2PICOS (alternate e)) /\
  drm_mode_equal_no_clocks_no_stereo m e = true.

(** The result is 0, or the position of the first entry that matches, from 1. *)
Lemma match_loop_spec alternate m table i :
  match_loop alternate m table i = 0 \/
  exists k e, table !! k = Some e /\ match_loop alternate m table i = u8 (i + Z.of_nat k + 1) /\ table_match alternate m e.
Proof.
  revert i. induction table as [|e table IH]; intros i; cbn [match_loop]; [by left|]. case_if.
  - right. exists 0%nat, e. split; [done|]. split; [f_equal; lia|]. b2p. split; [|done].
    apply orb_true_iff in H7 as [?|?]; b2p; auto.
  - destruct (IH (i + 1)) as [->|(k & e' & Hk & -> & Hm)]; [by left|]. right. exists (S k), e'.
    split; [done|]. split; [f_equal; lia|done].
Qed.

Lemma match_entry alternate m table :
  Z.of_nat (length table) < 255 ->
  forall e, table !! Z.to_nat (u8 (match_loop alternate m table 0 - 1)) = Some e ->
  u8 (match_loop alternate m table 0 - 1) < Z.of_nat (length table) -> table_match alternate m e.
Proof.
  intros Hl e He Hi. destruct (match_loop_spec alternate m table 0) as [E|(k & e' & Hk & E & Hm)]; rewrite E in *.
  - change (u8 (0 - 1)) with 255 in Hi. lia.
  - pose proof (lookup_lt_Some _ _ _ Hk).
    assert (Eu : u8 (u8 (0 + Z.of_nat k + 1) - 1) = Z.of_nat k).
    { unfold u8, wrap. change (2 ^ 8) with 256. rewrite !Z.mod_small; [lia|lia|]. rewrite Z.mod_small; lia. }
    rewrite Eu, Nat2Z.id in He. congruence.
Qed.

(** The entry that a mode is found to be, with its second clock. *)
Definition entry_of (m e : drm_display_mode) (c2 : Z) : Prop :=
  (e ∈ edid_cea_modes /\ c2 = cea_mode_alternate_clock e \/ e ∈ edid_4k_modes /\ c2 = hdmi_mode_alternate_clock e) /\
  drm_mode_equal_no_clocks_no_stereo m e = true.

Lemma cea_entry_spec m e c2 : cea_entry m = Some (e, c2) -> entry_of m e c2.
Proof.
  unfold cea_entry, drm_match_cea_mode, drm_match_hdmi_mode. change (u8 (0 - 1)) with 255.
  change (length edid_cea_modes) with 64%nat. change (length edid_4k_modes) with 4%nat.
  destruct (Z.eqb_spec (clock (t m)) 0); [done|]. case_if; [|case_if; [|done]]; b2p.
  - destruct (edid_cea_modes !! _) as [e'|] eqn:He; [|done]. intros [= <- <-].
    destruct (match_entry cea_mode_alternate_clock m edid_cea_modes ltac:(cbn; lia) e' He Heqb) as [_ Hm].
    split; [|done]. left. split; [by eapply list_elem_of_lookup_2|done].
  - destruct (edid_4k_modes !! _) as [e'|] eqn:He; [|done]. intros [= <- <-].
    destruct (match_entry hdmi_mode_alternate_clock m edid_4k_modes ltac:(cbn; lia) e' He Heqb0) as [_ Hm].
    split; [|done]. right. split; [by eapply list_elem_of_lookup_2|done].
Qed.

(** [m] is [mode] at its other rate. *)
Definition other_rate (mode m : drm_display_mode) : Prop :=
  exists e c2, entry_of mode e c2 /\ t m = set_clock (clock (t m)) (t e) /\
    (clock (t mode) = clock (t e) /\ clock (t m) = c2 \/ clock (t mode) = c2 /\ clock (t m) = clock (t e)) /\
    clock (t mode) <> clock (t m).

Lemma alternate_of_spec mode k m : (alternate_of alloc mode k).1 = Some m -> other_rate mode m.
Proof.
  unfold alternate_of. destruct (cea_entry mode) as [[e c2]|] eqn:He; [|done]. apply cea_entry_spec in He.
  destruct (Z.eqb_spec (clock (t e)) c2) as [|Hne]; [done|].
  destruct (Z.eqb_spec (clock (t mode)) (clock (t e))) as [H1'|H1'], (Z.eqb_spec (clock (t mode)) c2) as [H2'|H2'];
    cbn [negb andb]; try done; try lia;
    (destruct (drm_mode_duplicate _ e) as [m'|] eqn:Hd; [|done]); apply duplicate_t in Hd;
    intros [= <-]; exists e, c2; cbn; rewrite Hd; (split; [done|]); (split; [done|]); split; auto; congruence.
Qed.

Lemma alternate_loop_spec l k : Forall (fun m => exists mode, mode ∈ l /\ other_rate mode m) (alternate_loop alloc l k).1.
Proof.
  revert k. induction l as [|mode l IH]; intros k; cbn [alternate_loop]; [done|].
  pose proof (alternate_of_spec mode k) as Ha. destruct (alternate_of alloc mode k) as [new k'].
  specialize (IH k'). destruct (alternate_loop alloc l k') as [rest n]. cbn [fst] in *. apply Forall_app. split.
  - destruct new as [m|]; [|done]. constructor; [|done]. exists mode. split; [by left|by apply Ha].
  - eapply Forall_impl; [exact IH|]. intros m (e & He & Ht). exists e. split; [by right|done].
Qed.

(** For every EDID of the size it announces, [add_alternate_cea_modes] returns,
    and each mode it appends is one of the probed modes at its other rate: the
    probed mode has the timings of an entry of the CEA or HDMI tables and one of
    the entry's two clocks, and the new mode has these timings with the other
    clock, a different one. *)
Theorem alternate_modes_other_clock edid p :
  sized edid ->
  exists n p', add_alternate_cea_modes alloc edid p = Done (n, p') /\
    added (fun m => exists mode, mode ∈ probed_modes p /\ other_rate mode m) p n p'.
Proof.
  intros Hs. unfold add_alternate_cea_modes, drm_find_cea_extension.
  destruct (find_extension_total edid Hs CEA_EXT) as ([cea|] & -> & _); mred.
  - pose proof (alternate_loop_spec (probed_modes p) (asked p)) as Hl.
    destruct (alternate_loop alloc _ _) as [new k]. do 2 eexists. split; [done|]. by exists new.
  - do 2 eexists. split; [done|]. destruct p. apply added_none.
Qed.

End hdmi.

(** ** With the values of the headers *)
Import Sample.
#[local] Existing Instance std_edid.
#[local] Existing Instance std_edid_ok.
#[local] Existing Instance std_cea.
#[local] Existing Instance std_cea_ok.

#[local] Instance std_modes : drm_edid_modes_h := {|
  DRM_MODE_TYPE_DRIVER := 64;
  HDMI_PICTURE_ASPECT_NONE := 0; HDMI_PICTURE_ASPECT_4_3 := 1; HDMI_PICTURE_ASPECT_16_9 := 2;
  DRM_MODE_FLAG_3D_TOP_AND_BOTTOM := 7 * 2 ^ 14; DRM_MODE_FLAG_3D_SIDE_BY_SIDE_HALF := 8 * 2 ^ 14 |}.

#[local] Instance std_layout : drm_edid_layout := {|
  edid_revision := 19; edid_input := 20; edid_width_cm := 21; edid_height_cm := 22; edid_features := 24;
  edid_established := 35; edid_standard := 38;
  t_hactive_lo := 2; t_hblank_lo := 3; t_hactive_hblank_hi := 4; t_vactive_lo := 5; t_vblank_lo := 6;
  t_vactive_vblank_hi := 7; t_hsync_offset_lo := 8; t_hsync_pulse_width_lo := 9; t_vsync_offset_pulse_width_lo := 10;
  t_hsync_vsync_offset_pulse_width_hi := 11; t_width_mm_lo := 12; t_height_mm_lo := 13; t_width_height_mm_hi := 14;
  t_misc := 17; t_std := 5; t_cvt := 5; t_range_flags := 10;
  DRM_EDID_PT_HSYNC_POSITIVE := 2; DRM_EDID_PT_VSYNC_POSITIVE := 4; DRM_EDID_PT_STEREO := 32; DRM_EDID_PT_INTERLACED := 128;
  EDID_DETAIL_MONITOR_RANGE := 253; EDID_DETAIL_STD_MODES := 250; EDID_DETAIL_CVT_3BYTE := 248; EDID_DETAIL_EST_TIMINGS := 247;
  DRM_EDID_INPUT_DIGITAL := 128; DRM_EDID_FEATURE_DEFAULT_GTF := 1; DRM_EDID_FEATURE_PREFERRED_TIMING := 2;
  EDID_TIMING_ASPECT_MASK := 192; EDID_TIMING_ASPECT_SHIFT := 6; EDID_TIMING_VFREQ_MASK := 63; EDID_TIMING_VFREQ_SHIFT := 0 |}.

#[local] Instance std_layout_ok : drm_edid_layout_ok.
Proof. by split. Qed.

#[local] Instance std_info : drm_edid_info_h := {|
  DRM_EDID_DIGITAL_DEPTH_MASK := 112; DRM_EDID_DIGITAL_DEPTH_6 := 16; DRM_EDID_DIGITAL_DEPTH_8 := 32;
  DRM_EDID_DIGITAL_DEPTH_10 := 48; DRM_EDID_DIGITAL_DEPTH_12 := 64; DRM_EDID_DIGITAL_DEPTH_14 := 80;
  DRM_EDID_DIGITAL_DEPTH_16 := 96;
  DRM_EDID_FEATURE_RGB_YCRCB444 := 8; DRM_EDID_FEATURE_RGB_YCRCB422 := 16; DRM_COLOR_FORMAT_YCRCB422 := 4 |}.

#[local] Instance timings_eq_dec : EqDecision timings.
Proof. solve_decision. Defined.
#[local] Instance ordered_dec x : Decision (ordered x).
Proof. unfold ordered. apply _. Defined.

Definition every_alloc (k : nat) : option Z := Some (Z.of_nat k).
Definition no_modes : probe := MkProbe [] 0.

(** Entry [v] of the CEA table is found as entry [w]: the first one with its
    timings, under both clocks. *)
Definition vic_ok (v w : nat) (m e : drm_display_mode) : bool :=
  (w <=? v)%nat && bool_decide (t e = t m) && (flags e =? flags m) &&
  (Nat.eqb w v || negb (bool_decide (edid_cea_aspects !! w = edid_cea_aspects !! v))) &&
  (drm_match_cea_mode m =? Z.of_nat w + 1) &&
  (drm_match_cea_mode (with_clock (cea_mode_alternate_clock m) m) =? Z.of_nat w + 1) &&
  bool_decide (ordered (t m)).

Definition vic_found (v : nat) : bool :=
  match edid_cea_modes !! v with
  | Some m => let w := Z.to_nat (drm_match_cea_mode m - 1) in
              match edid_cea_modes !! w with Some e => vic_ok v w m e | None => false end
  | None => false
  end.

Lemma vics_found : forallb vic_found (seq 0 64) = true.
Proof. vm_compute. reflexivity. Qed.

(** Every video code is found again by its mode: the mode of CEA code [v + 1],
    and the same mode with its alternate clock, match the first code with the same
    timings and polarities, which is the code itself or one that differs in the
    picture aspect; and the timings of every code are in order. *)
Theorem cea_vic_roundtrip v m :
  edid_cea_modes !! v = Some m ->
  exists w e, (w <= v)%nat /\ edid_cea_modes !! w = Some e /\ t e = t m /\ flags e = flags m /\
    (w = v \/ edid_cea_aspects !! w <> edid_cea_aspects !! v) /\
    drm_match_cea_mode m = Z.of_nat w + 1 /\
    drm_match_cea_mode (with_clock (cea_mode_alternate_clock m) m) = Z.of_nat w + 1 /\
    ordered (t m).
Proof.
  intros Hm. pose proof (lookup_lt_Some _ _ _ Hm) as Hv. change (length edid_cea_modes) with 64%nat in Hv.
  pose proof (proj1 (forallb_forall _ _) vics_found v ltac:(apply in_seq; lia)) as Hf.
  unfold vic_found in Hf. rewrite Hm in Hf. set (w := Z.to_nat (drm_match_cea_mode m - 1)) in *.
  destruct (edid_cea_modes !! w) as [e|] eqn:He; [|done]. unfold vic_ok in Hf. clearbody w. b2p.
  repeat match goal with H : bool_decide _ = true |- _ => apply bool_decide_eq_true in H end.
  match goal with H : orb _ _ = true |- _ => apply orb_true_iff in H; rename H into Hasp end.
  exists w, e. apply Nat.leb_le in H. do 4 (split; [done|]). split; [|done].
  destruct Hasp as [E|E]; [left; by apply Nat.eqb_eq|right]. b2p. by apply bool_decide_eq_false in E.
Qed.

(** ** Findings *)

(** The exception for 4096x2160 compares the height with 4096, so that mode gets a
    second clock all the same. *)
Lemma hdmi_4096_alternate_clock :
  exists m, edid_4k_modes !! 3%nat = Some m /\ hdisplay (t m) = 4096 /\ vdisplay (t m) = 2160 /\
    clock (t m) = 297000 /\ hdmi_mode_alternate_clock m = 296704 /\
    drm_match_hdmi_mode (with_clock 296704 m) = 4.
Proof. eexists. split; [reflexivity|]. vm_compute. repeat split. Qed.

(** An EDID 1.3 with one standard timing, 1024x768 at 65 Hz, and a secondary GTF
    curve with [K = 0] and [2 J = 200]. *)
Definition gtf2_edid : list Z :=
  [0; 255; 255; 255; 255; 255; 255; 0; 16; 172; 0; 0; 0; 0; 0; 0; 0; 0; 1; 3; 0; 0; 0; 0; 0] ++
  replicate 13 0 ++ [97; 69] ++ replicate 14 1 ++
  [0; 0; 0; 253; 0; 0; 0; 0; 0; 0; 2; 0; 1; 80; 0; 0; 0; 200] ++ replicate 54 0 ++ [0; 122].

Definition no_info : drm_display_info := MkInfo 0 0 0 (MkDeep 0 0 0).

(** An EDID that the checks accept can divide the kernel by zero: with a
    secondary GTF curve of [K = 0] and [2 J = 200] the ideal duty cycle is 100
    percent, and [drm_gtf_mode_complex] divides by what is left of the line, when a
    standard timing is not in the table of modes.  The default curve gives the same
    timing without trouble. *)
Theorem gtf2_curve_divides_by_zero :
  drm_edid_is_valid 6 gtf2_edid = Done (true, gtf2_edid) /\
  (exists m, drm_gtf_mode (Some 0) 1024 768 65 false 0 = Ok (Some m)) /\
  (forall id, drm_gtf_mode_complex (Some id) 1024 768 65 false 0 0 80 0 200 = Bug) /\
  add_standard_modes every_alloc gtf2_edid no_modes = Oops /\
  drm_add_edid_modes every_alloc 6 gtf2_edid no_modes no_info = Oops.
Proof.
  split; [vm_compute; reflexivity|]. split; [eexists; vm_compute; reflexivity|].
  split; [intros id; vm_compute; reflexivity|]. split; vm_compute; reflexivity.
Qed.

(** ** Samples *)
Definition dtd_1080p : dtd := MkDtd 14850 (MkPt 1920 280 88 44 1080 45 4 5) 510 287 30.

(** A base block with the timing, and a CEA extension with video codes and an HDMI
    block that announces two 4K codes and 3D structures. *)
Definition sample_cea : list (Z * list Z) :=
  [(2, [144; 31; 4; 19; 3]); (3, [3; 12; 0; 16; 0; 0; 0; 32; 192; 71; 1; 4; 0; 65; 0; 3; 16; 24; 16])].
Definition sample_modes_edid : list Z :=
  let data := concat (encode_db <$> sample_cea) in
  replicate 18 0 ++ [1; 3] ++ replicate 34 0 ++ encode_dtd dtd_1080p ++ replicate 54 0 ++ [1; 0] ++
  [2; 3; 4 + Z.of_nat (length data); 0] ++ data ++ replicate (124 - length data) 0.

Lemma sample_modes_sized : sized sample_modes_edid.
Proof.
  split; [|vm_compute; reflexivity].
  assert (Hb : forallb (fun x => (0 <=? x) && (x <? 256)) sample_modes_edid = true) by (vm_compute; reflexivity).
  rewrite forallb_forall in Hb. apply Forall_forall. intros x Hx. specialize (Hb x (proj1 (list_elem_of_In _ _) Hx)).
  b2p. split; [done|]. change (2 ^ 8) with 256. done.
Qed.

Lemma detailed_timing_roundtrip_witness :
  exists m, drm_mode_detailed every_alloc (replicate 54 0 ++ encode_dtd dtd_1080p ++ replicate 56 0) 54 0 no_modes =
    Done (Some (m, (510, 287)), replicate 54 0 ++ encode_dtd dtd_1080p ++ replicate 56 0, MkProbe [] 1) /\
    t m = mk_timings 148500 1920 2008 2052 2200 0 1080 1084 1089 1125 0.
Proof.
  assert (Hd : dtd_wf dtd_1080p) by (repeat split; cbn; lia).
  assert (Hst : Z.land (d_misc dtd_1080p) DRM_EDID_PT_STEREO = 0) by (vm_compute; reflexivity).
  assert (Hil : Z.land (d_misc dtd_1080p) DRM_EDID_PT_INTERLACED = 0) by (vm_compute; reflexivity).
  destruct (detailed_timing_roundtrip every_alloc 0 (replicate 54 0) dtd_1080p (replicate 56 0) no_modes Hd eq_refl
    ltac:(cbn; lia) ltac:(cbn; lia) ltac:(cbn; lia) ltac:(cbn; lia) ltac:(cbn; lia) ltac:(cbn; lia) Hst Hil)
    as (m & Hm & _ & _ & Ht & _).
  exists m. split; [exact Hm|exact Ht].
Defined.

Lemma detailed_modes_ordered_witness :
  exists n p' edid', add_detailed_modes every_alloc sample_modes_edid 0 no_modes = Done (n, p', edid') /\
    added (fun m => ordered (t m)) no_modes n p'.
Proof.
  destruct (detailed_modes_ordered every_alloc sample_modes_edid 0 no_modes sample_modes_sized eq_refl)
    as (n & p' & e' & Hr & Ha & _).
  exists n, p', e'. split; [exact Hr|exact Ha].
Defined.

Lemma cea_modes_from_tables_witness :
  exists n p', add_cea_modes every_alloc sample_modes_edid no_modes = Done (n, p') /\ added (known no_modes) no_modes n p'.
Proof. exact (cea_modes_from_tables every_alloc sample_modes_edid no_modes sample_modes_sized). Defined.

(** The sample adds five video codes, four mandatory stereo modes, two 4K codes
    and six modes of 3D structures. *)
Example sample_modes_counts :
  (fun x => x.1) <$> match add_cea_modes every_alloc sample_modes_edid no_modes with Done x => Some x | _ => None end = Some 17.
Proof. vm_compute. reflexivity. Qed.

Lemma alternate_modes_other_clock_witness :
  exists n p', add_alternate_cea_modes every_alloc sample_modes_edid (MkProbe (take 1 edid_cea_modes) 0) = Done (n, p') /\
    added (fun m => exists mode, mode ∈ take 1 edid_cea_modes /\ other_rate mode m) (MkProbe (take 1 edid_cea_modes) 0) n p'.
Proof. exact (alternate_modes_other_clock every_alloc sample_modes_edid (MkProbe (take 1 edid_cea_modes) 0) sample_modes_sized). Defined.

Lemma cea_vic_roundtrip_witness :
  exists w e, edid_cea_modes !! w = Some e /\ forall m, edid_cea_modes !! 2%nat = Some m -> drm_match_cea_mode m = Z.of_nat w + 1.
Proof.
  destruct (edid_cea_modes !! 2%nat) as [m|] eqn:Hm; [|discriminate Hm].
  destruct (cea_vic_roundtrip 2 m Hm) as (w & e & _ & He & _ & _ & _ & Hv & _).
  exists w, e. split; [exact He|]. intros m' Hm'. congruence.
Defined.
