(* ===== verification/DrmDisplayId.v ===== *)
(** * DisplayID, tile groups and infoframes (drm_edid.c, drm_crtc.c)

    A DisplayID extension tells that a connector drives a tile of a larger screen;
    connectors of one screen share a reference-counted tile group, which the device
    finds by its topology identifier.  Tile groups are objects in a heap; a pointer
    to one is null, an error pointer or the number of an object.  Also what fetches
    an EDID with its DisplayID ([drm_get_edid]), and the infoframes of a mode. *)

From S2P Require Import Prelude DpHelper DrmModes DrmEdid DrmEdidCea DrmEdidTables DrmEdidModes DrmEdidHdmi Idr.

(** The layout of include/drm/drm_displayid.h. *)
Class drm_displayid_h := {
  hdr_bytes_at : Z;                         (* struct displayid_hdr: bytes *)
  block_tag : Z;                            (* struct displayid_block: tag *)
  DATA_BLOCK_TILED_DISPLAY : Z;
  tile_cap : Z; tile_topo : Z; tile_size : Z; tile_topology_id : Z;   (* struct displayid_tiled_block *)
}.

Record drm_tile_group := MkTg { tg_refcount : Z; tg_id : Z; group_data : list Z }.

Inductive tg_ptr := TgNull | TgErr (err : Z) | Tg (p : Z).

#[export] Instance tg_ptr_eq_dec : EqDecision tg_ptr.
Proof. solve_decision. Defined.

(** The part of a connector that describes its tile. *)
Record tile_conn := MkTile {
  has_tile : bool; tile_is_single_monitor : bool;
  num_h_tile : Z; num_v_tile : Z; tile_h_loc : Z; tile_v_loc : Z; tile_h_size : Z; tile_v_size : Z;
  tile_group : tg_ptr;
}.

Definition set_has_tile (b : bool) (c : tile_conn) : tile_conn :=
  MkTile b (tile_is_single_monitor c) (num_h_tile c) (num_v_tile c) (tile_h_loc c) (tile_v_loc c)
    (tile_h_size c) (tile_v_size c) (tile_group c).
Definition set_tile_group (g : tg_ptr) (c : tile_conn) : tile_conn :=
  MkTile (has_tile c) (tile_is_single_monitor c) (num_h_tile c) (num_v_tile c) (tile_h_loc c) (tile_v_loc c)
    (tile_h_size c) (tile_v_size c) g.

Section tiles.
Context `{idr_ops}.

(** The tile groups of the device: the objects and the map of identifiers. *)
Record tile_dev := MkTdev { groups : gmap Z drm_tile_group; tile_idr : idr }.

Definition drm_tile_group_free (p : Z) (d : tile_dev) : run tile_dev :=
  tg ← deref (groups d !! p);
  Done (MkTdev (delete p (groups d)) (idr_remove (tg_id tg) (tile_idr d))).

Definition set_refcount (v : Z) (tg : drm_tile_group) : drm_tile_group := MkTg v (tg_id tg) (group_data tg).

(** [kref_put]; the pointer is followed, so it must be one of an object. *)
Definition drm_mode_put_tile_group (g : tg_ptr) (d : tile_dev) : run tile_dev :=
  match g with
  | Tg p =>
    tg ← deref (groups d !! p);
    let r := s32 (tg_refcount tg - 1) in
    let d := MkTdev (<[p := set_refcount r tg]> (groups d)) (tile_idr d) in
    if r =? 0 then drm_tile_group_free p d else Done d
  | _ => Oops
  end.

Fixpoint get_loop (entries : list (Z * Z)) (topology : list Z) (d : tile_dev) : run (tg_ptr * tile_dev) :=
  match entries with
  | [] => Done (TgNull, d)
  | (_, p) :: entries =>
    tg ← deref (groups d !! p);
    if decide (group_data tg = topology) then
      if tg_refcount tg =? 0 then Done (TgNull, d)
      else Done (Tg p, MkTdev (<[p := set_refcount (s32 (tg_refcount tg + 1)) tg]> (groups d)) (tile_idr d))
    else get_loop entries topology d
  end.

Definition drm_mode_get_tile_group (topology : list Z) (d : tile_dev) : run (tg_ptr * tile_dev) :=
  get_loop (idr_entries (tile_idr d)) topology d.

(** [mem] is the new object, if memory is to be had, and [imem] whether the map of
    identifiers can grow. *)
Definition drm_mode_create_tile_group (mem : option Z) (imem : bool) (topology : list Z) (d : tile_dev)
    : tg_ptr * tile_dev :=
  match mem with
  | None => (TgErr (- ENOMEM), d)
  | Some p =>
    let '(ret, m) := idr_alloc imem p 1 (tile_idr d) in
    if 0 <=? ret then (Tg p, MkTdev (<[p := MkTg 1 ret topology]> (groups d)) m)
    else (TgErr ret, MkTdev (groups d) m)
  end.

(** ** DisplayID *)
Context `{drm_edid_h} `{drm_edid_cea_h} `{drm_displayid_h}.

Fixpoint did_csum_loop (edid : list Z) (off i : Z) (n : nat) (csum : Z) : run Z :=
  match n with
  | O => Done csum
  | S n => b ← byte edid (off + i); did_csum_loop edid off (i + 1) n (u8 (csum + b))
  end.

(** What the tiled display block at [t] says: the tile and the topology
    identifier. *)
Definition read_tile (edid : list Z) (t : Z) (c : tile_conn) : run (tile_conn * list Z) :=
  s0 ← byte edid (t + tile_size); s1 ← byte edid (t + tile_size + 1);
  s2 ← byte edid (t + tile_size + 2); s3 ← byte edid (t + tile_size + 3);
  o0 ← byte edid (t + tile_topo); o1 ← byte edid (t + tile_topo + 1); o2 ← byte edid (t + tile_topo + 2);
  cap ← byte edid (t + tile_cap);
  let w := Z.lor s0 (Z.shiftl s1 8) in
  let h := Z.lor s2 (Z.shiftl s3 8) in
  let num_v := Z.lor (Z.land o0 15) (Z.land o2 48) in
  let num_h := Z.lor (Z.shiftr o0 4) (Z.land (Z.shiftr o2 2) 48) in
  let v_loc := Z.lor (Z.land o1 15) (Z.shiftl (Z.land o2 3) 4) in
  let h_loc := Z.lor (Z.shiftr o1 4) (Z.shiftl (Z.land (Z.shiftr o2 2) 3) 4) in
  topology ← slice (t + tile_topology_id) 8 edid;
  Done (MkTile true (if truth (Z.land cap 128) then true else tile_is_single_monitor c)
          (u8 (num_h + 1)) (u8 (num_v + 1)) h_loc v_loc (u16 (w + 1)) (u16 (h + 1)) (tile_group c), topology).

(** The connector joins the group of the topology. *)
Definition join_group (mem : option Z) (imem : bool) (topology : list Z) (c : tile_conn) (d : tile_dev)
    : run (Z * tile_conn * tile_dev) :=
  '(tg, d) ← drm_mode_get_tile_group topology d;
  let '(tg, d) := match tg with TgNull => drm_mode_create_tile_group mem imem topology d | _ => (tg, d) end in
  match tg with
  | TgNull => Done (- ENOMEM, c, d)
  | _ =>
    if decide (tile_group c = tg) then d ← drm_mode_put_tile_group tg d; Done (0, c, d)
    else
      d ← (if decide (tile_group c = TgNull) then Done d else drm_mode_put_tile_group (tile_group c) d);
      Done (0, set_tile_group tg c, d)
  end.

Definition drm_parse_display_id (mem : option Z) (imem : bool) (edid : list Z) (off length : Z) (is_edid_extension : bool)
    (c : tile_conn) (d : tile_dev) : run (Z * tile_conn * tile_dev) :=
  let idx := if is_edid_extension then 1 else 0 in
  bytes ← byte edid (off + idx + hdr_bytes_at);
  if length - idx <? bytes + 5 then Done (- EINVAL, c, d)
  else
    csum ← did_csum_loop edid off idx (Z.to_nat (bytes + 5 - idx + 1)) 0;
    if truth csum then Done (- EINVAL, c, d)
    else
      let block := off + idx + 4 in
      tag ← byte edid (block + block_tag);
      if tag =? DATA_BLOCK_TILED_DISPLAY then
        '(c, topology) ← read_tile edid block c;
        join_group mem imem topology c d
      else Done (0, c, d).

Definition drop_group (c : tile_conn) (d : tile_dev) : run (tile_conn * tile_dev) :=
  if decide (tile_group c = TgNull) then Done (c, d)
  else d ← drm_mode_put_tile_group (tile_group c) d; Done (set_tile_group TgNull c, d).

Definition drm_get_displayid (mem : option Z) (imem : bool) (edid : list Z) (c : tile_conn) (d : tile_dev)
    : run (tile_conn * tile_dev) :=
  let c := set_has_tile false c in
  displayid ← drm_find_displayid_extension edid;
  match displayid with
  | None => drop_group c d
  | Some off =>
    '(ret, c, d) ← drm_parse_display_id mem imem edid off EDID_LENGTH true c d;
    if ret <? 0 then drop_group c d
    else if negb (has_tile c) then drop_group c d
    else Done (c, d)
  end.

(** ** Fetching an EDID over DDC *)
Definition drm_get_edid {E : Type} `{dp_helper_h} (i2c_transfer : list i2c_msg -> E -> Z * list i2c_msg * E)
    (edid_fixup : Z) (garbage : Z -> Z) (out : Z) (drm_debug : bool) (mems : bool * bool * bool)
    (mem : option Z) (imem : bool) (conn : edid_conn) (c : tile_conn) (d : tile_dev) (e : E)
    : run (option (list Z) * edid_conn * tile_conn * tile_dev * E) :=
  let '(found, e) := drm_probe_ddc i2c_transfer out e in
  if negb found then Done (None, conn, c, d, e)
  else
    '(edid, conn, e) ← drm_do_get_edid (drm_do_probe_ddc_edid i2c_transfer) edid_fixup garbage drm_debug mems conn e;
    match edid with
    | None => Done (None, conn, c, d, e)
    | Some edid =>
      '(c, d) ← drm_get_displayid mem imem edid c d;
      Done (Some edid, conn, c, d, e)
    end.

End tiles.

(** ** Infoframes *)

(** The members of the frames that are set. *)
Record hdmi_avi_infoframe := MkAvi {
  pixel_repeat : Z; video_code : Z; picture_aspect : Z; active_aspect : Z; scan_mode : Z }.
Record hdmi_vendor_infoframe := MkVendor { vic : Z; s3d_struct : Z }.

(** Enumerations and initialisers of linux/hdmi.h: the error and the frame. *)
Class hdmi_h := {
  hdmi_avi_infoframe_init : hdmi_avi_infoframe -> Z * hdmi_avi_infoframe;
  hdmi_vendor_infoframe_init : hdmi_vendor_infoframe -> Z * hdmi_vendor_infoframe;
  HDMI_ACTIVE_ASPECT_PICTURE : Z; HDMI_SCAN_MODE_UNDERSCAN : Z;
  DRM_MODE_FLAG_3D_FIELD_ALTERNATIVE : Z; DRM_MODE_FLAG_3D_LINE_ALTERNATIVE : Z;
  DRM_MODE_FLAG_3D_SIDE_BY_SIDE_FULL : Z; DRM_MODE_FLAG_3D_L_DEPTH : Z;
  DRM_MODE_FLAG_3D_L_DEPTH_GFX_GFX_DEPTH : Z;
  HDMI_3D_STRUCTURE_INVALID : Z; HDMI_3D_STRUCTURE_FRAME_PACKING : Z; HDMI_3D_STRUCTURE_FIELD_ALTERNATIVE : Z;
  HDMI_3D_STRUCTURE_LINE_ALTERNATIVE : Z; HDMI_3D_STRUCTURE_SIDE_BY_SIDE_FULL : Z; HDMI_3D_STRUCTURE_L_DEPTH : Z;
  HDMI_3D_STRUCTURE_L_DEPTH_GFX_GFX_DEPTH : Z; HDMI_3D_STRUCTURE_TOP_AND_BOTTOM : Z;
  HDMI_3D_STRUCTURE_SIDE_BY_SIDE_HALF : Z;
}.

Section infoframes.
Context `{drm_modes_h} `{drm_edid_modes_h} `{hdmi_h}.

(** The aspect that the user asked for is not part of the mode's record.  A frame
    or a mode that is [None] is a null pointer. *)
Definition drm_hdmi_avi_infoframe_from_display_mode (frame : option hdmi_avi_infoframe)
    (mode : option drm_display_mode) (picture_aspect_ratio : Z) : run (Z * option hdmi_avi_infoframe) :=
  match frame, mode with
  | Some frame, Some mode =>
    let '(err, frame) := hdmi_avi_infoframe_init frame in
    if err <? 0 then Done (err, Some frame)
    else
      let repeat := if truth (Z.land (flags mode) DRM_MODE_FLAG_DBLCLK) then 1 else pixel_repeat frame in
      let code := drm_match_cea_mode mode in
      aspect ← (if (picture_aspect_ratio =? HDMI_PICTURE_ASPECT_4_3) || (picture_aspect_ratio =? HDMI_PICTURE_ASPECT_16_9)
                then Done picture_aspect_ratio
                else if 0 <? code then drm_get_cea_aspect_ratio code
                else Done HDMI_PICTURE_ASPECT_NONE);
      Done (0, Some (MkAvi repeat code aspect HDMI_ACTIVE_ASPECT_PICTURE HDMI_SCAN_MODE_UNDERSCAN))
  | _, _ => Done (- EINVAL, frame)
  end.

Definition s3d_structure_from_display_mode (mode : drm_display_mode) : Z :=
  let layout := Z.land (flags mode) DRM_MODE_FLAG_3D_MASK in
  if layout =? DRM_MODE_FLAG_3D_FRAME_PACKING then HDMI_3D_STRUCTURE_FRAME_PACKING
  else if layout =? DRM_MODE_FLAG_3D_FIELD_ALTERNATIVE then HDMI_3D_STRUCTURE_FIELD_ALTERNATIVE
  else if layout =? DRM_MODE_FLAG_3D_LINE_ALTERNATIVE then HDMI_3D_STRUCTURE_LINE_ALTERNATIVE
  else if layout =? DRM_MODE_FLAG_3D_SIDE_BY_SIDE_FULL then HDMI_3D_STRUCTURE_SIDE_BY_SIDE_FULL
  else if layout =? DRM_MODE_FLAG_3D_L_DEPTH then HDMI_3D_STRUCTURE_L_DEPTH
  else if layout =? DRM_MODE_FLAG_3D_L_DEPTH_GFX_GFX_DEPTH then HDMI_3D_STRUCTURE_L_DEPTH_GFX_GFX_DEPTH
  else if layout =? DRM_MODE_FLAG_3D_TOP_AND_BOTTOM then HDMI_3D_STRUCTURE_TOP_AND_BOTTOM
  else if layout =? DRM_MODE_FLAG_3D_SIDE_BY_SIDE_HALF then HDMI_3D_STRUCTURE_SIDE_BY_SIDE_HALF
  else HDMI_3D_STRUCTURE_INVALID.

Definition drm_hdmi_vendor_infoframe_from_display_mode (frame : option hdmi_vendor_infoframe)
    (mode : option drm_display_mode) : Z * option hdmi_vendor_infoframe :=
  match frame, mode with
  | Some frame, Some mode =>
    let code := drm_match_hdmi_mode mode in
    let s3d_flags := Z.land (flags mode) DRM_MODE_FLAG_3D_MASK in
    if negb (truth code) && negb (truth s3d_flags) then (- EINVAL, Some frame)
    else if truth code && truth s3d_flags then (- EINVAL, Some frame)
    else
      let '(err, frame) := hdmi_vendor_infoframe_init frame in
      if err <? 0 then (err, Some frame)
      else (0, Some (if truth code then MkVendor code (s3d_struct frame)
                     else MkVendor (vic frame) (s3d_structure_from_display_mode mode)))
  | _, _ => (- EINVAL, frame)
  end.

End infoframes.

(** The first connector of the encoder with an ELD. *)
Definition drm_select_eld (encoder : Z) (connectors : list (Z * av_conn)) : option (Z * av_conn) :=
  List.find (fun '(e, c) => (e =? encoder) && truth (default 0 (eld c !! 0%nat))) connectors.
