(* ===== verification/DrmDisplayIdProps.v ===== *)
(** * Tile groups: theorems

    The reference count of a tile group is the number of connectors that point to
    it, after any sequence of probes with any EDIDs, as long as new groups can be
    created; and what happens when one cannot. *)

From S2P Require Import Prelude Counting Idr DpSideband DrmEdid DrmEdidProps DrmEdidCea DrmEdidCeaProps DrmDisplayId.

Class drm_displayid_h_ok `{drm_displayid_h} : Prop := {
  displayid_hdr : hdr_bytes_at = 1 /\ block_tag = 0;
  displayid_tile : tile_cap = 3 /\ tile_topo = 4 /\ tile_size = 7 /\ tile_topology_id = 16;
}.

Section tiles.
Context `{idr_ops} `{!idr_laws}.

(** The references that a pointer holds. *)
Definition own (g : tg_ptr) (q : Z) : Z := match g with Tg p => b2z (q =? p) | _ => 0 end.

(** The groups of the device when [cnt q] references to group [q] are held. *)
Record tiles_ok (d : tile_dev) (cnt : Z -> Z) : Prop := {
  ok_count p tg : groups d !! p = Some tg -> tg_refcount tg = cnt p /\ 0 < cnt p;
  ok_id p tg : groups d !! p = Some tg -> idr_find (tile_idr d) (tg_id tg) = Some p;
  ok_idr id p : idr_find (tile_idr d) id = Some p -> exists tg, groups d !! p = Some tg /\ tg_id tg = id;
  ok_dead p : groups d !! p = None -> cnt p = 0;
  ok_data p q tp tq : groups d !! p = Some tp -> groups d !! q = Some tq -> group_data tp = group_data tq -> p = q;
}.

Lemma tiles_ok_ext d cnt cnt' : tiles_ok d cnt -> (forall q, cnt q = cnt' q) -> tiles_ok d cnt'.
Proof.
  intros [O1 O2 O3 O4 O5] E. split; [|done|done| |done].
  - intros p tg Hp. rewrite <- E. by apply O1.
  - intros p Hp. rewrite <- E. by apply O4.
Qed.

Lemma own_same p : own (Tg p) p = 1.
Proof. cbn. by rewrite Z.eqb_refl. Qed.

Lemma own_other p q : q <> p -> own (Tg p) q = 0.
Proof. intros Hne. cbn. by destruct (Z.eqb_spec q p). Qed.

(** A group with another count. *)
Lemma recount_ok d cnt p tg r :
  tiles_ok d cnt -> groups d !! p = Some tg -> 0 < r ->
  tiles_ok (MkTdev (<[p := set_refcount r tg]> (groups d)) (tile_idr d)) (fun q => if q =? p then r else cnt q).
Proof.
  intros [O1 O2 O3 O4 O5] Hp Hr.
  assert (Hl : forall q t, <[p := set_refcount r tg]> (groups d) !! q = Some t ->
    exists t0, groups d !! q = Some t0 /\ tg_id t = tg_id t0 /\ group_data t = group_data t0).
  { intros q t Hq. destruct (decide (q = p)) as [->|Hne].
    - rewrite lookup_insert_eq in Hq. injection Hq as <-. by exists tg.
    - rewrite lookup_insert_ne in Hq by done. by exists t. }
  split; cbn [groups tile_idr].
  - intros q t Hq. destruct (Z.eqb_spec q p) as [->|Hne].
    + rewrite lookup_insert_eq in Hq. by injection Hq as <-.
    + rewrite lookup_insert_ne in Hq by done. by apply O1.
  - intros q t Hq. destruct (Hl q t Hq) as (t0 & Ht0 & -> & _). by apply O2.
  - intros id q Hid. destruct (O3 id q Hid) as (t & Ht & E). destruct (decide (q = p)) as [->|Hne].
    + rewrite lookup_insert_eq. eexists. split; [done|]. cbn. congruence.
    + rewrite lookup_insert_ne by done. by exists t.
  - intros q Hq. destruct (Z.eqb_spec q p) as [->|Hne]; [by rewrite lookup_insert_eq in Hq|].
    rewrite lookup_insert_ne in Hq by done. by apply O4.
  - intros q q' t t' Hq Hq' Ed. destruct (Hl q t Hq) as (t0 & Ht0 & _ & D0), (Hl q' t' Hq') as (t1 & Ht1 & _ & D1).
    apply (O5 q q' t0 t1); [done|done|congruence].
Qed.

Lemma put_group_ok d cnt p :
  tiles_ok d cnt -> 0 < cnt p < 2 ^ 31 ->
  exists d', drm_mode_put_tile_group (Tg p) d = Done d' /\ tiles_ok d' (fun q => cnt q - own (Tg p) q).
Proof.
  intros Hok Hc. destruct (groups d !! p) as [tg|] eqn:Hp; [|pose proof (ok_dead _ _ Hok p Hp); lia].
  destruct (ok_count _ _ Hok p tg Hp) as [Er _]. cbn [drm_mode_put_tile_group]. rewrite Hp. mred.
  rewrite Er, s32_small by (unfold is_s32; lia).
  destruct (Z.eqb_spec (cnt p - 1) 0) as [E1|E1].
  - unfold drm_tile_group_free. cbn [groups tile_idr]. rewrite lookup_insert_eq. mred. eexists. split; [done|].
    cbn [groups tile_idr set_refcount tg_id]. rewrite delete_insert_eq.
    destruct Hok as [O1 O2 O3 O4 O5]. pose proof (O2 p tg Hp) as Hid. split; cbn [groups tile_idr].
    + intros q t Hq. assert (q <> p) by (intros ->; by rewrite lookup_delete_eq in Hq).
      rewrite lookup_delete_ne in Hq by done. rewrite own_other by done. destruct (O1 q t Hq). lia.
    + intros q t Hq. assert (Hne : q <> p) by (intros ->; by rewrite lookup_delete_eq in Hq).
      rewrite lookup_delete_ne in Hq by done. rewrite find_remove. pose proof (O2 q t Hq).
      destruct (Z.eqb_spec (tg_id t) (tg_id tg)); congruence.
    + intros id q. rewrite find_remove. destruct (Z.eqb_spec id (tg_id tg)) as [|Hne]; [done|].
      intros Hf. destruct (O3 id q Hf) as (t & Ht & E). exists t. split; [|done].
      rewrite lookup_delete_ne; [done|]. intros ->. congruence.
    + intros q Hq. destruct (decide (q = p)) as [->|Hne]; [rewrite own_same; lia|].
      rewrite lookup_delete_ne in Hq by done. rewrite own_other, (O4 q Hq) by done. lia.
    + intros q q' t t' Hq Hq'. apply lookup_delete_Some in Hq as [_ Hq], Hq' as [_ Hq']. by apply O5.
  - eexists. split; [done|]. eapply tiles_ok_ext; [apply (recount_ok d cnt p tg (cnt p - 1)); [done|done|lia]|].
    intros q. cbn. destruct (Z.eqb_spec q p) as [->|]; cbn; lia.
Qed.

(** Looking for a topology gives a reference to its group. *)
Lemma get_group_ok d cnt topology :
  tiles_ok d cnt -> (forall q, cnt q < 2 ^ 31 - 1) ->
  exists g d', drm_mode_get_tile_group topology d = Done (g, d') /\ tiles_ok d' (fun q => cnt q + own g q) /\
    ((exists p tg, g = Tg p /\ groups d' !! p = Some tg /\ group_data tg = topology) \/
     (g = TgNull /\ d' = d /\ forall p tg, groups d !! p = Some tg -> group_data tg <> topology)).
Proof.
  intros Hok Hb. unfold drm_mode_get_tile_group.
  assert (Hloop : forall l, (forall id p, (id, p) ∈ l -> idr_find (tile_idr d) id = Some p) ->
    exists g d', get_loop l topology d = Done (g, d') /\ tiles_ok d' (fun q => cnt q + own g q) /\
    ((exists p tg, g = Tg p /\ groups d' !! p = Some tg /\ group_data tg = topology) \/
     (g = TgNull /\ d' = d /\ forall id p tg, (id, p) ∈ l -> groups d !! p = Some tg -> group_data tg <> topology))).
  { induction l as [|[id p] l IH]; intros Hl; cbn [get_loop].
    - exists TgNull, d. split; [done|]. split; [eapply tiles_ok_ext; [done|]; cbn; intros; lia|]. right.
      split; [done|]. split; [done|]. by intros ??? ?%not_elem_of_nil.
    - destruct (ok_idr _ _ Hok id p) as (tg & Hp & _); [apply Hl; by left|]. rewrite Hp. mred.
      destruct (ok_count _ _ Hok p tg Hp) as [Er Hpos]. specialize (Hb p). destruct (decide _) as [Ed|Ed].
      + destruct (Z.eqb_spec (tg_refcount tg) 0); [lia|]. rewrite s32_small by (unfold is_s32; lia).
        do 2 eexists. split; [done|]. split.
        * eapply tiles_ok_ext; [apply (recount_ok d cnt p tg (tg_refcount tg + 1)); [done|done|lia]|].
          intros q. cbn. destruct (Z.eqb_spec q p) as [->|]; cbn; lia.
        * left. exists p. eexists. split; [done|]. cbn [groups]. by rewrite lookup_insert_eq.
      + destruct IH as (g & d' & Hr & Hok' & Hc); [intros; apply Hl; by right|]. exists g, d'.
        split; [done|]. split; [done|]. destruct Hc as [Hc|(-> & -> & Hno)]; [by left|right].
        split; [done|]. split; [done|]. intros id' p' tg' [[= -> ->]|Hin]%elem_of_cons Hp'; [congruence|by eapply Hno]. }
  destruct (Hloop (idr_entries (tile_idr d))) as (g & d' & Hr & Hok' & Hc); [intros id p; by rewrite entries_find|].
  exists g, d'. split; [done|]. split; [done|]. destruct Hc as [Hc|(-> & -> & Hno)]; [by left|right].
  split; [done|]. split; [done|]. intros p tg Hp. apply (Hno (tg_id tg) p); [|done].
  apply entries_find. by apply (ok_id _ _ Hok).
Qed.

(** A new group is found by its identifier. *)
Lemma create_ok d cnt p imem topology :
  tiles_ok d cnt -> groups d !! p = None -> 0 <= (idr_alloc imem p 1 (tile_idr d)).1 ->
  (forall q tg, groups d !! q = Some tg -> group_data tg <> topology) ->
  exists d', drm_mode_create_tile_group (Some p) imem topology d = (Tg p, d') /\
    tiles_ok d' (fun q => cnt q + own (Tg p) q) /\ exists tg, groups d' !! p = Some tg /\ group_data tg = topology.
Proof.
  intros Hok Hp Ha Hno. unfold drm_mode_create_tile_group. destruct (idr_alloc _ _ _ _) as [r m] eqn:Er. cbn in Ha.
  destruct (Z.leb_spec 0 r); [|lia]. eexists. split; [done|].
  pose proof (fun k => alloc_find _ _ _ _ _ _ k Er Ha) as Hf. destruct (alloc_fresh _ _ _ _ _ _ Er Ha) as [_ Hfr].
  destruct Hok as [O1 O2 O3 O4 O5]. split; [|eexists; cbn [groups]; by rewrite lookup_insert_eq].
  assert (Hl : forall q t, <[p := MkTg 1 r topology]> (groups d) !! q = Some t ->
    (q = p /\ t = MkTg 1 r topology) \/ (q <> p /\ groups d !! q = Some t)).
  { intros q t Hq. destruct (decide (q = p)) as [->|Hne].
    - rewrite lookup_insert_eq in Hq. injection Hq as <-. by left.
    - rewrite lookup_insert_ne in Hq by done. by right. }
  split; cbn [groups tile_idr].
  - intros q t [[-> ->]|[Hne Hq]]%Hl; [rewrite own_same, (O4 p Hp); cbn; lia|]. rewrite own_other by done.
    destruct (O1 q t Hq). lia.
  - intros q t [[-> ->]|[Hne Hq]]%Hl; rewrite Hf; cbn; [by rewrite Z.eqb_refl|].
    pose proof (O2 q t Hq). destruct (Z.eqb_spec (tg_id t) r); congruence.
  - intros id q. rewrite Hf. destruct (Z.eqb_spec id r) as [->|Hne].
    + intros [= <-]. rewrite lookup_insert_eq. by eexists.
    + intros (t & Ht & E)%O3. exists t. split; [|done]. rewrite lookup_insert_ne; [done|]. congruence.
  - intros q Hq. destruct (decide (q = p)) as [->|Hne]; [by rewrite lookup_insert_eq in Hq|].
    rewrite lookup_insert_ne in Hq by done. rewrite own_other, (O4 q Hq) by done. done.
  - intros q q' t t' [[-> ->]|[Hne Hq]]%Hl [[-> ->]|[Hne' Hq']]%Hl; cbn; [done| | |by apply O5].
    + intros E. by destruct (Hno q' t' Hq').
    + intros E. by destruct (Hno q t Hq).
Qed.

(** ** Connectors *)

(** The pointer of a connector is null or one of the references that are held. *)
Definition held (c : tile_conn) (cnt : Z -> Z) : Prop :=
  tile_group c = TgNull \/ exists p, tile_group c = Tg p /\ 0 < cnt p.

(** The counts when the connector's pointer changes. *)
Definition moved (cnt : Z -> Z) (c c' : tile_conn) (q : Z) : Z :=
  cnt q - own (tile_group c) q + own (tile_group c') q.

Lemma own_range g q : 0 <= own g q <= 1.
Proof. destruct g; cbn; try lia. destruct (q =? p); cbn; lia. Qed.

(** New groups can be made: memory for a new object and for its identifier. *)
Definition can_create (mem : option Z) (imem : bool) (d : tile_dev) : Prop :=
  exists p, mem = Some p /\ groups d !! p = None /\ 0 <= (idr_alloc imem p 1 (tile_idr d)).1.

Section steps.
Context (d : tile_dev) (cnt : Z -> Z) (Hok : tiles_ok d cnt) (Hb : forall q, cnt q < 2 ^ 31 - 1).

Lemma drop_ok c : held c cnt ->
  exists d', drop_group c d = Done (set_tile_group TgNull c, d') /\ tiles_ok d' (moved cnt c (set_tile_group TgNull c)).
Proof.
  intros Hh. unfold drop_group. destruct (decide (tile_group c = TgNull)) as [E|E].
  - exists d. split; [destruct c; cbn in *; by subst|]. eapply tiles_ok_ext; [done|]. intros q. unfold moved. rewrite E. cbn. lia.
  - destruct Hh as [|(p & Ep & Hp)]; [done|]. rewrite Ep.
    destruct (put_group_ok d cnt p Hok) as (d' & -> & Hok'); [specialize (Hb p); lia|]. mred. exists d'.
    split; [done|]. eapply tiles_ok_ext; [done|]. intros q. unfold moved. rewrite Ep. cbn. lia.
Qed.

Lemma join_ok mem imem topology c :
  can_create mem imem d -> held c cnt ->
  exists c' d', join_group mem imem topology c d = Done (0, c', d') /\ tiles_ok d' (moved cnt c c') /\
    (exists p tg, c' = set_tile_group (Tg p) c /\ groups d' !! p = Some tg /\ group_data tg = topology).
Proof.
  intros (pn & -> & Hfresh & Ha) Hh. unfold join_group.
  destruct (get_group_ok d cnt topology Hok Hb) as (g & d1 & -> & Hok1 & Hg). mred.
  assert (exists p tg d2, (match g with TgNull => drm_mode_create_tile_group (Some pn) imem topology d1 | _ => (g, d1) end) = (Tg p, d2) /\
    tiles_ok d2 (fun q => cnt q + own (Tg p) q) /\ groups d2 !! p = Some tg /\ group_data tg = topology)
    as (p & tg & d2 & -> & Hok2 & Htg & Hdata).
  { destruct Hg as [(p & tg & -> & Hp & Hd)|(-> & -> & Hno)]; [by exists p, tg, d1|].
    destruct (create_ok d cnt pn imem topology Hok Hfresh Ha Hno) as (d2 & -> & Hok2 & tg & Ht & Hd). by exists pn, tg, d2. }
  clear Hg Hok1 d1. destruct (decide (tile_group c = Tg p)) as [E|E].
  - assert (Hp : 0 < cnt p) by (destruct Hh as [|(p' & Ep & Hp')]; [congruence|]; by assert (p' = p) as -> by congruence).
    destruct (put_group_ok d2 _ p Hok2) as (d3 & Hr & Hok3); [rewrite own_same; specialize (Hb p); lia|].
    rewrite Hr. mred. exists c, d3. split; [done|].
    assert (Hc : set_tile_group (Tg p) c = c) by (destruct c; cbn in *; by subst).
    split; [eapply tiles_ok_ext; [done|]; intros q; unfold moved; rewrite E; cbn; lia|].
    exists p. destruct (groups d3 !! p) as [t3|] eqn:E3.
    + exists t3. split; [done|]. split; [done|]. revert Hr. cbn [drm_mode_put_tile_group]. rewrite Htg. mred.
      rewrite (proj1 (ok_count _ _ Hok2 p tg Htg)), own_same. rewrite s32_small by (unfold is_s32; specialize (Hb p); lia).
      destruct (Z.eqb_spec (cnt p + 1 - 1) 0); [lia|]. intros [= <-]. cbn [groups] in E3. rewrite lookup_insert_eq in E3.
      by injection E3 as <-.
    + pose proof (ok_dead _ _ Hok3 p E3) as Hz. cbv beta in Hz. rewrite own_same in Hz. lia.
  - assert (exists d3, (if decide (tile_group c = TgNull) then Done d2 else drm_mode_put_tile_group (tile_group c) d2) = Done d3 /\
      tiles_ok d3 (fun q => cnt q + own (Tg p) q - own (tile_group c) q) /\ groups d3 !! p = Some tg) as (d3 & Hr & Hok3 & Ht3).
    { destruct (decide (tile_group c = TgNull)) as [En|En].
      - exists d2. split; [done|]. split; [|done]. eapply tiles_ok_ext; [done|]. intros q. rewrite En. cbn. lia.
      - destruct Hh as [|(p' & Ep & Hp')]; [done|]. rewrite Ep in *. assert (Hne : p' <> p) by congruence.
        destruct (put_group_ok d2 _ p' Hok2) as (d3 & Hr & Hok3); [rewrite own_other by done; specialize (Hb p'); lia|].
        exists d3. split; [done|]. split; [done|]. revert Hr. cbn [drm_mode_put_tile_group].
        destruct (groups d2 !! p') as [t'|]; [|done]. mred. case_if.
        + unfold drm_tile_group_free. cbn [groups]. rewrite lookup_insert_eq. mred. intros [= <-]. cbn [groups].
          by rewrite lookup_delete_ne, lookup_insert_ne.
        + intros [= <-]. cbn [groups]. by rewrite lookup_insert_ne. }
    unfold mbind, run_bind. rewrite Hr. do 2 eexists. split; [done|]. split; [|by exists p, tg].
    eapply tiles_ok_ext; [done|]. intros q. unfold moved. cbn. lia.
Qed.

End steps.

(** ** Probing *)
Context `{drm_edid_h} `{!drm_edid_h_ok} `{drm_edid_cea_h} `{!drm_edid_cea_h_ok} `{drm_displayid_h} `{!drm_displayid_h_ok}.

Lemma did_csum_total edid off i n csum :
  0 <= off + i -> off + i + Z.of_nat n <= Z.of_nat (length edid) -> exists c, did_csum_loop edid off i n csum = Done c.
Proof.
  revert i csum. induction n as [|n IH]; intros i csum Hlo Hhi; cbn [did_csum_loop]; [by eauto|].
  rewrite byte_rd by lia. mred. apply IH; lia.
Qed.

Lemma read_tile_total edid t c : 0 <= t -> t + 24 <= Z.of_nat (length edid) ->
  exists c' topology, read_tile edid t c = Done (c', topology) /\ has_tile c' = true /\ tile_group c' = tile_group c.
Proof.
  intros Ht Hl. unfold read_tile. destruct displayid_tile as (-> & -> & -> & ->).
  rewrite !byte_rd by lia. mred. destruct (slice_total edid (t + 16) 8) as (l & -> & _); [lia..|]. mred. by do 2 eexists.
Qed.

(** A connector with a tile has a group and one without a tile has none. *)
Definition tile_agrees (c : tile_conn) : Prop :=
  if has_tile c then exists p, tile_group c = Tg p else tile_group c = TgNull.

Lemma get_displayid_ok edid mem imem c d cnt :
  sized edid -> tiles_ok d cnt -> (forall q, cnt q < 2 ^ 31 - 1) -> can_create mem imem d -> held c cnt ->
  exists c' d', drm_get_displayid mem imem edid c d = Done (c', d') /\ tiles_ok d' (moved cnt c c') /\ tile_agrees c'.
Proof.
  intros Hs Hok Hb Hc Hh. unfold drm_get_displayid, drm_find_displayid_extension.
  set (c0 := set_has_tile false c). assert (Hh0 : held c0 cnt) by exact Hh.
  assert (Hdrop : forall c1, held c1 cnt -> tile_group c1 = tile_group c -> has_tile c1 = false ->
    exists c' d', drop_group c1 d = Done (c', d') /\ tiles_ok d' (moved cnt c c') /\ tile_agrees c').
  { intros c1 Hh1 E1 Ef. destruct (drop_ok d cnt Hok Hb c1 Hh1) as (d' & Hr & Hok'). do 2 eexists. split; [exact Hr|].
    split; [eapply tiles_ok_ext; [done|]; intros q; unfold moved; by rewrite E1|]. unfold tile_agrees. cbn. by rewrite Ef. }
  destruct (find_extension_total edid Hs DISPLAYID_EXT) as ([off|] & -> & Hf); mred; [|by apply Hdrop].
  destruct (Hf off eq_refl) as ([Hlo Hhi] & _ & _). unfold drm_parse_display_id. rewrite edid_length.
  destruct displayid_hdr as [-> ->]. rewrite (byte_rd edid (off + 1 + 1)) by lia. mred.
  pose proof (rd_ok edid Hs (off + 1 + 1)). case_if; [cbn; by apply Hdrop|]. b2p.
  destruct (did_csum_total edid off 1 (Z.to_nat (rd edid (off + 1 + 1) + 5 - 1 + 1)) 0) as [csum ->]; [lia..|]. mred.
  case_if; [cbn; by apply Hdrop|]. rewrite (byte_rd edid (off + 1 + 4 + 0)) by lia. mred. case_if; [|cbn; by apply Hdrop].
  destruct (read_tile_total edid (off + 1 + 4) c0) as (c1 & topology & -> & Ht1 & Eg1); [lia..|]. mred.
  assert (Hh1 : held c1 cnt) by (unfold held; rewrite Eg1; exact Hh).
  destruct (join_ok d cnt Hok Hb mem imem topology c1 Hc Hh1) as (c2 & d2 & -> & Hok2 & p & tg & -> & _ & _).
  cbn -[own moved]. rewrite Ht1. cbn [negb]. do 2 eexists. split; [done|].
  split; [eapply tiles_ok_ext; [done|]; intros q; unfold moved; by rewrite Eg1|].
  unfold tile_agrees. cbn. rewrite Ht1. by eexists.
Qed.

(** ** Sequences of probes *)
Definition points (q : Z) (c : tile_conn) : bool := own (tile_group c) q =? 1.
Definition new_conn : tile_conn := MkTile false false 0 0 0 0 0 0 TgNull.

(** Connectors appear, are probed with an EDID, and go away
    ([drm_connector_cleanup]). *)
Inductive tile_step : gmap Z tile_conn * tile_dev -> gmap Z tile_conn * tile_dev -> Prop :=
| TsNew conns d k :
    conns !! k = None -> count (fun _ => true) conns < 2 ^ 31 - 2 -> tile_step (conns, d) (<[k := new_conn]> conns, d)
| TsProbe conns d k c edid mem imem c' d' :
    conns !! k = Some c -> sized edid -> can_create mem imem d ->
    drm_get_displayid mem imem edid c d = Done (c', d') -> tile_step (conns, d) (<[k := c']> conns, d')
| TsCleanup conns d k c c' d' :
    conns !! k = Some c -> drop_group c d = Done (c', d') -> tile_step (conns, d) (delete k conns, d').

Definition tile_start : gmap Z tile_conn * tile_dev := (∅, MkTdev ∅ idr_init).

(** The invariant of the device and its connectors. *)
Definition tile_inv (s : gmap Z tile_conn * tile_dev) : Prop :=
  tiles_ok s.2 (fun q => count (points q) s.1) /\
  (forall k c, s.1 !! k = Some c -> tile_agrees c) /\ count (fun _ => true) s.1 < 2 ^ 31 - 1.

Lemma points_own q c : b2z (points q c) = own (tile_group c) q.
Proof. unfold points. destruct (tile_group c); cbn; try done. by destruct (q =? p). Qed.

Lemma agrees_held (conns : gmap Z tile_conn) k c : tile_agrees c -> conns !! k = Some c -> held c (fun q => count (points q) conns).
Proof.
  intros Ha Hk. unfold held, tile_agrees in *. case_if; [|by left]. destruct Ha as [p Ep]. right. exists p. split; [done|].
  pose proof (count_ge (points p) conns k c Hk) as Hg. rewrite points_own, Ep, own_same in Hg. lia.
Qed.

Lemma inv_bound s : tile_inv s -> forall q, count (points q) s.1 < 2 ^ 31 - 1.
Proof. intros (_ & _ & Hb) q. pose proof (count_le_all (points q) s.1). lia. Qed.

Lemma tile_step_inv s s' : tile_inv s -> tile_step s s' -> tile_inv s'.
Proof.
  intros Hi Hst. pose proof (inv_bound s Hi) as Hb. destruct Hst as
    [conns d k Hk Hn|conns d k c edid mem imem c' d' Hk Hs Hc Hr|conns d k c c' d' Hk Hr]; destruct Hi as (Hok & Ha & Hsz); cbn in *.
  - split; [eapply tiles_ok_ext; [exact Hok|]; intros q; cbn; rewrite count_insert, Hk, points_own; cbn; lia|].
    split; [|cbn; rewrite count_insert, Hk; cbn; lia].
    intros j c. destruct (decide (j = k)) as [->|Hne]; cbn; [rewrite lookup_insert_eq|rewrite lookup_insert_ne by done; by apply Ha].
    by intros [= <-].
  - destruct (get_displayid_ok edid mem imem c d _ Hs Hok Hb Hc (agrees_held _ _ _ (Ha k c Hk) Hk)) as (c2 & d2 & Hr2 & Hok2 & Ha2).
    rewrite Hr in Hr2. injection Hr2 as <- <-. split; [|split].
    + eapply tiles_ok_ext; [exact Hok2|]. intros q. unfold moved. cbn. rewrite count_insert, Hk. cbn. rewrite !points_own. lia.
    + intros j cj. destruct (decide (j = k)) as [->|Hne]; cbn; [rewrite lookup_insert_eq|rewrite lookup_insert_ne by done; by apply Ha].
      by intros [= <-].
    + cbn. rewrite count_insert, Hk. cbn. lia.
  - destruct (drop_ok d _ Hok Hb c (agrees_held _ _ _ (Ha k c Hk) Hk)) as (d2 & Hr2 & Hok2).
    rewrite Hr in Hr2. injection Hr2 as -> ->. split; [|split].
    + eapply tiles_ok_ext; [exact Hok2|]. intros q. unfold moved. cbn. rewrite count_delete, Hk. cbn. rewrite points_own. lia.
    + intros j cj Hj. cbn in Hj. apply lookup_delete_Some in Hj as [_ Hj]. by apply (Ha j).
    + cbn. rewrite count_delete, Hk. cbn. lia.
Qed.

Lemma tile_start_inv : tile_inv tile_start.
Proof.
  split; [|split; [by intros k c|vm_compute; reflexivity]]. split; cbn; try done. intros id p. by rewrite find_init.
Qed.

Lemma tile_reach_inv s : rtc tile_step tile_start s -> tile_inv s.
Proof.
  intros Hr. assert (Hg : forall a b, rtc tile_step a b -> tile_inv a -> tile_inv b).
  { induction 1; [done|]. intros. apply IHrtc. by eapply tile_step_inv. }
  by apply (Hg _ _ Hr), tile_start_inv.
Qed.

(** C14: after any sequence of connectors that appear, are probed with any EDIDs and
    go away, in which at each probe there is memory for a new group and its identifier
    ([can_create]; without it an error pointer is stored and followed later,
    [tile_group_error_pointer]): the count of every tile group is the
    number of connectors that point to it and is not zero, connectors with a tile
    point to a group that exists and those without to none, no two groups have the
    same topology, and the next probe or cleanup of any connector returns. *)
Theorem tile_groups_counted conns d :
  rtc tile_step tile_start (conns, d) ->
  (forall p tg, groups d !! p = Some tg -> tg_refcount tg = count (points p) conns /\ 0 < tg_refcount tg) /\
  (forall k c, conns !! k = Some c ->
     if has_tile c then exists p tg, tile_group c = Tg p /\ groups d !! p = Some tg else tile_group c = TgNull) /\
  (forall p q tp tq, groups d !! p = Some tp -> groups d !! q = Some tq -> group_data tp = group_data tq -> p = q) /\
  (forall k c edid mem imem, conns !! k = Some c -> sized edid -> can_create mem imem d ->
     exists c' d', drm_get_displayid mem imem edid c d = Done (c', d')) /\
  (forall k c, conns !! k = Some c -> exists c' d', drop_group c d = Done (c', d')).
Proof.
  intros Hi%tile_reach_inv. pose proof (inv_bound _ Hi) as Hb. destruct Hi as (Hok & Ha & Hsz). cbn in *.
  split; [|split; [|split; [|split]]].
  - intros p tg Hp. destruct (ok_count _ _ Hok p tg Hp) as [-> Hc]. done.
  - intros k c Hk. pose proof (agrees_held _ _ _ (Ha k c Hk) Hk) as Hh. specialize (Ha k c Hk). unfold tile_agrees in Ha. case_if; [|done].
    destruct Ha as [p Ep]. destruct Hh as [|(p' & Ep' & Hp)]; [congruence|]. exists p'.
    destruct (groups d !! p') as [tg|] eqn:Eg; [by exists tg|]. pose proof (ok_dead _ _ Hok p' Eg) as Hz. cbv beta in Hz, Hp. lia.
  - exact (ok_data _ _ Hok).
  - intros k c edid mem imem Hk Hs Hc.
    destruct (get_displayid_ok edid mem imem c d _ Hs Hok Hb Hc (agrees_held _ _ _ (Ha k c Hk) Hk)) as (c' & d' & Hr & _). by eauto.
  - intros k c Hk. destruct (drop_ok d _ Hok Hb c (agrees_held _ _ _ (Ha k c Hk) Hk)) as (d' & Hr & _). by eauto.
Qed.

End tiles.

(** ** A sample *)
#[local] Existing Instances std_edid std_edid_ok std_cea std_cea_ok.
Import SampleIdr.

#[local] Instance std_displayid : drm_displayid_h := {|
  hdr_bytes_at := 1; block_tag := 0; DATA_BLOCK_TILED_DISPLAY := 18;
  tile_cap := 3; tile_topo := 4; tile_size := 7; tile_topology_id := 16 |}.
#[local] Instance std_displayid_ok : drm_displayid_h_ok.
Proof. by split. Qed.

(** An EDID with a DisplayID extension: tile (1, 0) of 2x1 tiles of 1920x2160. *)
Definition tile_bytes : list Z :=
  [18; 0; 21; 130; 16; 16; 0; 127; 7; 111; 8; 0; 0; 0; 0; 0; 68; 69; 76; 1; 2; 3; 4; 5].
Definition displayid_body : list Z := [18; 24; 0; 0] ++ tile_bytes.
Definition tiled_edid : list Z :=
  replicate 126 0 ++ [1; 0] ++
  [112] ++ displayid_body ++ [u8 (- foldr Z.add 0 displayid_body)] ++ replicate 98 0.
Definition plain_edid : list Z := replicate 128 0.

Lemma bytes_sized e : forallb (fun x => (0 <=? x) && (x <? 256)) e = true ->
  Z.of_nat (length e) = 128 * (1 + rd e 126) -> sized e.
Proof.
  intros Hb Hl. split; [|done]. rewrite forallb_forall in Hb. apply Forall_forall. intros x Hx.
  specialize (Hb x (proj1 (list_elem_of_In _ _) Hx)). b2p. split; [done|]. change (2 ^ 8) with 256. done.
Qed.

Lemma tiled_sized : sized tiled_edid.
Proof. apply bytes_sized; vm_compute; reflexivity. Qed.
Lemma plain_sized : sized plain_edid.
Proof. apply bytes_sized; vm_compute; reflexivity. Qed.

Definition no_groups : tile_dev := MkTdev ∅ idr_init.

(** Two connectors join one group; then one of them is probed without a tile. *)
Example two_tiles :
  (r1 ← drm_get_displayid (Some 7) true tiled_edid new_conn no_groups;
   r2 ← drm_get_displayid (Some 8) true tiled_edid new_conn r1.2;
   r3 ← drm_get_displayid (Some 9) true plain_edid r1.1 r2.2;
   Done (tile_h_loc r2.1, num_h_tile r2.1, tile_h_size r2.1, tile_v_size r2.1,
         tg_refcount <$> groups r2.2 !! 7, tg_refcount <$> groups r3.2 !! 7))
  = Done (1, 2, 1920, 2160, Some 2, Some 1).
Proof. vm_compute. reflexivity. Qed.

Lemma tile_groups_counted_witness :
  exists c d, drm_get_displayid (Some 7) true tiled_edid new_conn no_groups = Done (c, d) /\
    (forall p tg, groups d !! p = Some tg -> tg_refcount tg = count (points p) {[1 := c]} /\ 0 < tg_refcount tg).
Proof.
  assert (Hcan : can_create (Some 7) true no_groups).
  { exists 7. split; [reflexivity|]. split; [reflexivity|]. vm_compute. discriminate. }
  assert (Hok : tiles_ok no_groups (fun _ => 0)) by (split; cbn; try done; intros id p; by rewrite lookup_empty).
  destruct (get_displayid_ok tiled_edid (Some 7) true new_conn no_groups _ tiled_sized Hok ltac:(cbn; lia) Hcan (or_introl eq_refl))
    as (c & d & E & _).
  exists c, d. split; [exact E|].
  assert (Hr : rtc tile_step tile_start ({[1 := c]}, d)).
  { eapply rtc_l; [apply (TsNew ∅ no_groups 1); [reflexivity|vm_compute; reflexivity]|].
    eapply rtc_l; [|apply rtc_refl]. assert (Ei : {[1 := c]} = <[1 := c]> (<[1 := new_conn]> ∅ : gmap Z tile_conn))
      by (by rewrite insert_insert_eq). rewrite Ei.
    apply (TsProbe _ no_groups 1 new_conn tiled_edid (Some 7) true c d); [reflexivity|exact tiled_sized|exact Hcan|exact E]. }
  exact (proj1 (tile_groups_counted _ _ Hr)).
Defined.

(** When a tile group cannot be created, the connector keeps the error pointer
    as its group (the caller tests for null, [drm_mode_create_tile_group] returns an
    error pointer), and the next probe follows it. *)
Theorem tile_group_error_pointer d c :
  (forall topology, drm_mode_get_tile_group topology d = Done (TgNull, d)) -> tile_group c = TgNull ->
  exists c', drm_get_displayid None true tiled_edid c d = Done (c', d) /\
    tile_group c' = TgErr (- ENOMEM) /\ has_tile c' = true /\
    drm_get_displayid None true plain_edid c' d = Oops.
Proof.
  intros Hg Hc. destruct c as [b1 b2 z1 z2 z3 z4 z5 z6 g]. cbn in Hc. subst g.
  eexists. split; [|split; [|split]].
  - unfold drm_get_displayid. replace (drm_find_displayid_extension tiled_edid) with (Done (Some 128)) by (vm_compute; reflexivity).
    mred. unfold drm_parse_display_id. replace (byte tiled_edid (128 + 1 + hdr_bytes_at)) with (Done 24) by (vm_compute; reflexivity).
    mred. change (EDID_LENGTH - 1 <? 24 + 5) with false. cbv iota.
    replace (did_csum_loop tiled_edid 128 1 (Z.to_nat (24 + 5 - 1 + 1)) 0) with (Done 0) by (vm_compute; reflexivity).
    mred. change (truth 0) with false. cbv iota.
    replace (byte tiled_edid (128 + 1 + 4 + block_tag)) with (Done 18) by (vm_compute; reflexivity). mred.
    change (18 =? DATA_BLOCK_TILED_DISPLAY) with true. cbv iota.
    match goal with |- context [read_tile tiled_edid ?t ?c] => destruct (read_tile tiled_edid t c) as [[c1 topo]| |] eqn:E end;
      [|by vm_compute in E|by vm_compute in E].
    mred. unfold join_group. rewrite Hg. mred. unfold drm_mode_create_tile_group. vm_compute in E. injection E as <- <-.
    cbn. reflexivity.
  - reflexivity.
  - reflexivity.
  - unfold drm_get_displayid.
    by replace (drm_find_displayid_extension plain_edid) with (@Done (option Z) None) by (vm_compute; reflexivity).
Qed.

Lemma tile_group_error_pointer_witness :
  exists c', drm_get_displayid None true tiled_edid new_conn no_groups = Done (c', no_groups) /\
    drm_get_displayid None true plain_edid c' no_groups = Oops.
Proof.
  destruct (tile_group_error_pointer no_groups new_conn (fun _ => eq_refl) eq_refl) as (c' & Hr & _ & _ & Ho).
  exists c'. split; [exact Hr|exact Ho].
Defined.
