(* ===== verification/DrmGem.v ===== *)
(** * Buffer objects: GEM (drm_gem.c, drm_gem_cma_helper.c) and PRIME's file lists

    An object is reachable through handles of open files, global names, dma-bufs
    and mappings.  It has two counts: the handles ([handle_count]), whose last
    removal takes the name and the exported dma-buf away, and all references
    ([refcount]), whose last removal frees it.

    Objects, dma-bufs, files, file descriptors and mappings live in finite maps; a
    pointer to something that is gone is followed to [Oops].  An operation is a
    program ([prog]) of critical sections, each of which is atomic, and of the
    mutexes it takes and drops, so that programs of several threads can be
    interleaved.  A section is what the code does under a spin lock, under the
    innermost mutex it holds, or in one atomic instruction.

    The memory of an object is that of the CMA helpers.  The kernel's dma-buf is
    modelled as documented: a count, file descriptors that own a reference, and a
    release callback that runs at some time after the last put, which may be in
    another thread. *)

From S2P Require Import Prelude Idr DrmMm DrmVma.

(** ** Programs *)
Inductive mutex := object_name_lock | prime_lock (file : Z).

#[export] Instance mutex_eq_dec : EqDecision mutex.
Proof. solve_decision. Defined.

#[export] Instance mutex_countable : Countable mutex.
Proof.
  apply (inj_countable' (fun m => match m with object_name_lock => None | prime_lock f => Some f end)
    (fun o => match o with None => object_name_lock | Some f => prime_lock f end)).
  by intros [].
Defined.

Inductive prog (G : Type) (A : Type) : Type :=
| Ret (a : A)
| Sec (R : Set) (f : G -> run (R * G)) (k : R -> prog G A)
| Lock (m : mutex) (k : prog G A)
| Unlock (m : mutex) (k : prog G A).
Arguments Ret {G A} a.
Arguments Sec {G A R} f k.
Arguments Lock {G A} m k.
Arguments Unlock {G A} m k.

Fixpoint prog_then {G A B} (k : A -> prog G B) (p : prog G A) : prog G B :=
  match p with
  | Ret a => k a
  | Sec f k' => Sec f (fun r => prog_then k (k' r))
  | Lock m p => Lock m (prog_then k p)
  | Unlock m p => Unlock m (prog_then k p)
  end.

#[export] Instance prog_bind {G} : MBind (prog G) := fun A B => prog_then.

Section programs.
Context {G : Type}.

Definition sec {R : Set} (f : G -> run (R * G)) : prog G R := Sec f Ret.
(** A section without a result. *)
Definition sec_ (f : G -> run G) : prog G unit := Sec (fun g => g ← f g; Done (tt, g)) Ret.
Definition mutex_lock (m : mutex) : prog G unit := Lock m (Ret tt).
Definition mutex_unlock (m : mutex) : prog G unit := Unlock m (Ret tt).

(** A program that runs alone.  The mutexes are those held: to lock one of them
    again is to wait for ever, and to unlock another one is an error. *)
Fixpoint exec {A} (p : prog G A) (held : list mutex) (g : G) : run (A * list mutex * G) :=
  match p with
  | Ret a => Done (a, held, g)
  | Sec f k => '(r, g) ← f g; exec (k r) held g
  | Lock m p => if decide (m ∈ held) then Loops else exec p (m :: held) g
  | Unlock m p => if decide (m ∈ held) then exec p (list_del m held) g else Oops
  end.
End programs.

(** A list without the first [o]. *)
Fixpoint take_one (o : Z) (l : list Z) : option (list Z) :=
  match l with
  | [] => None
  | a :: l => if a =? o then Some l else cons a <$> take_one o l
  end.

(** ** The state *)

(** [struct drm_gem_object] with the CMA helpers' part; [obj_name] is 0 without a
    name, [vm_files] the open files of the offset node. *)
Record drm_gem_object := MkObj {
  refcount : Z; handle_count : Z; obj_name : Z; obj_size : Z;
  dma_buf : option Z; import_attach : option Z; vaddr : bool; vm_files : tree (Z * Z);
}.

(** A dma-buf: [b_priv] is the object it exports, [None] when another driver made
    it. *)
Record dmabuf := MkBuf { b_count : Z; b_priv : option Z; b_size : Z }.

Definition set_refcount (v : Z) (x : drm_gem_object) : drm_gem_object :=
  MkObj v (handle_count x) (obj_name x) (obj_size x) (dma_buf x) (import_attach x) (vaddr x) (vm_files x).
Definition set_handle_count (v : Z) (x : drm_gem_object) : drm_gem_object :=
  MkObj (refcount x) v (obj_name x) (obj_size x) (dma_buf x) (import_attach x) (vaddr x) (vm_files x).
Definition set_obj_name (v : Z) (x : drm_gem_object) : drm_gem_object :=
  MkObj (refcount x) (handle_count x) v (obj_size x) (dma_buf x) (import_attach x) (vaddr x) (vm_files x).
Definition set_dma_buf (v : option Z) (x : drm_gem_object) : drm_gem_object :=
  MkObj (refcount x) (handle_count x) (obj_name x) (obj_size x) v (import_attach x) (vaddr x) (vm_files x).
Definition set_import (v : option Z) (x : drm_gem_object) : drm_gem_object :=
  MkObj (refcount x) (handle_count x) (obj_name x) (obj_size x) (dma_buf x) v (vaddr x) (vm_files x).
Definition set_vaddr (v : bool) (x : drm_gem_object) : drm_gem_object :=
  MkObj (refcount x) (handle_count x) (obj_name x) (obj_size x) (dma_buf x) (import_attach x) v (vm_files x).
Definition set_vm_files (v : tree (Z * Z)) (x : drm_gem_object) : drm_gem_object :=
  MkObj (refcount x) (handle_count x) (obj_name x) (obj_size x) (dma_buf x) (import_attach x) (vaddr x) v.
Definition set_b_count (v : Z) (y : dmabuf) : dmabuf := MkBuf v (b_priv y) (b_size y).

(** Of include/drm/drm_vma_manager.h and the page size. *)
Class gem_h (S : Type) := {
  PAGE_SHIFT : Z;
  drm_vma_offset_exact_lookup : drm_vma_offset_manager S -> Z -> Z -> option node_id;
  drm_vma_node_size : drm_vma_offset_manager S -> node_id -> Z;
  drm_vma_node_offset_addr : drm_vma_offset_manager S -> node_id -> Z;
  DRM_FILE_PAGE_OFFSET_START : Z;
  DRM_FILE_PAGE_OFFSET_SIZE : Z;
}.

Section gem.
Context {S : Type} {RA : range_alloc S} {RB : rbtree} `{idr_ops} {GH : gem_h S}.

Definition PAGE_SIZE : Z := 2 ^ PAGE_SHIFT.

(** [struct drm_file] with its handles and the dma-bufs it knows, each with a
    handle, the newest first.  [f_users] counts the calls under way on the file and
    [f_open] tells whether its last descriptor is not closed yet: the release of a
    file starts when there are no users. *)
Record drm_file := MkFile { object_idr : idr; prime : list (Z * Z); f_users : Z; f_open : bool }.

(** [released] are the objects of dma-bufs whose last reference is gone and whose
    release has not run yet. *)
Record gem := MkGem {
  objs : gmap Z drm_gem_object; bufs : gmap Z dmabuf; files : gmap Z drm_file;
  object_name_idr : idr; fds : gmap Z Z; vmas : gmap Z Z;
  vma_offset_manager : drm_vma_offset_manager S; released : list Z;
}.

Definition set_objs (v : gmap Z drm_gem_object) (g : gem) : gem :=
  MkGem v (bufs g) (files g) (object_name_idr g) (fds g) (vmas g) (vma_offset_manager g) (released g).
Definition set_bufs (v : gmap Z dmabuf) (g : gem) : gem :=
  MkGem (objs g) v (files g) (object_name_idr g) (fds g) (vmas g) (vma_offset_manager g) (released g).
Definition set_files (v : gmap Z drm_file) (g : gem) : gem :=
  MkGem (objs g) (bufs g) v (object_name_idr g) (fds g) (vmas g) (vma_offset_manager g) (released g).
Definition set_names (v : idr) (g : gem) : gem :=
  MkGem (objs g) (bufs g) (files g) v (fds g) (vmas g) (vma_offset_manager g) (released g).
Definition set_fds (v : gmap Z Z) (g : gem) : gem :=
  MkGem (objs g) (bufs g) (files g) (object_name_idr g) v (vmas g) (vma_offset_manager g) (released g).
Definition set_vmas (v : gmap Z Z) (g : gem) : gem :=
  MkGem (objs g) (bufs g) (files g) (object_name_idr g) (fds g) v (vma_offset_manager g) (released g).
Definition set_mgr (v : drm_vma_offset_manager S) (g : gem) : gem :=
  MkGem (objs g) (bufs g) (files g) (object_name_idr g) (fds g) (vmas g) v (released g).
Definition set_released (v : list Z) (g : gem) : gem :=
  MkGem (objs g) (bufs g) (files g) (object_name_idr g) (fds g) (vmas g) (vma_offset_manager g) v.

Definition store_obj (o : Z) (x : drm_gem_object) (g : gem) : gem := set_objs (<[o := x]> (objs g)) g.
Definition store_buf (b : Z) (y : dmabuf) (g : gem) : gem := set_bufs (<[b := y]> (bufs g)) g.
Definition store_file (f : Z) (fl : drm_file) (g : gem) : gem := set_files (<[f := fl]> (files g)) g.

Definition set_idr (v : idr) (fl : drm_file) : drm_file := MkFile v (prime fl) (f_users fl) (f_open fl).
Definition set_prime (v : list (Z * Z)) (fl : drm_file) : drm_file :=
  MkFile (object_idr fl) v (f_users fl) (f_open fl).

(** The offset node of an object. *)
Definition node_of (o : Z) : node_id := Z.to_nat o.

Definition drm_gem_init : gem :=
  MkGem ∅ ∅ ∅ idr_init ∅ ∅ (drm_vma_offset_manager_init DRM_FILE_PAGE_OFFSET_START DRM_FILE_PAGE_OFFSET_SIZE) [].

(** A free address for a new structure, [a] when it is free. *)
Definition new_addr {A} (a : Z) (m : gmap Z A) : Z :=
  if bool_decide (m !! a = None) && (0 <? a) then a
  else foldr (fun e k => Z.max (e.1 + 1) k) 1 (map_to_list m).

(** ** Reference counts *)
Definition drm_gem_object_reference (o : Z) (g : gem) : run gem :=
  x ← deref (objs g !! o); Done (store_obj o (set_refcount (refcount x + 1) x) g).

Definition get_dma_buf (b : Z) (g : gem) : run gem :=
  y ← deref (bufs g !! b); Done (store_buf b (set_b_count (b_count y + 1) y) g).

Definition drm_gem_free_mmap_offset (o : Z) (g : gem) : run gem :=
  mgr ← run_of (drm_vma_offset_remove (vma_offset_manager g) (node_of o)); Done (set_mgr mgr g).

(** The warning for an object with a dma-buf has no effect on the state. *)
Definition drm_gem_object_release (o : Z) (g : gem) : run gem := drm_gem_free_mmap_offset o g.

(** The last put removes the dma-buf; the kernel calls its release later. *)
Definition dma_buf_put (b : Z) (g : gem) : run gem :=
  y ← deref (bufs g !! b);
  let c := b_count y - 1 in
  if c =? 0 then
    Done (set_released (option_list (b_priv y) ++ released g) (set_bufs (delete b (bufs g)) g))
  else Done (store_buf b (set_b_count c y) g).

Definition drm_prime_gem_destroy (o : Z) (g : gem) : run gem :=
  x ← deref (objs g !! o); b ← deref (import_attach x); dma_buf_put b g.

Definition drm_gem_cma_free_object (o : Z) (g : gem) : run gem :=
  x ← deref (objs g !! o);
  g ← (if vaddr x then Done g
       else match import_attach x with Some _ => drm_prime_gem_destroy o g | None => Done g end);
  g ← drm_gem_object_release o g;
  Done (set_objs (delete o (objs g)) g).

(** [driver->gem_free_object] is that of the CMA helpers; the callers hold
    [struct_mutex]. *)
Definition drm_gem_object_free (o : Z) (g : gem) : run gem := drm_gem_cma_free_object o g.

(** [kref_put] with [drm_gem_object_free]. *)
Definition drm_gem_object_unreference (o : Z) (g : gem) : run gem :=
  x ← deref (objs g !! o);
  let r := refcount x - 1 in
  let g := store_obj o (set_refcount r x) g in
  if r =? 0 then drm_gem_object_free o g else Done g.

(** It takes [struct_mutex] for the last reference. *)
Definition drm_gem_object_unreference_unlocked (o : Z) : prog gem unit := sec_ (drm_gem_object_unreference o).

(** The release of a dma-buf that exports [o]. *)
Definition drm_gem_dmabuf_release (o : Z) : prog gem unit := drm_gem_object_unreference_unlocked o.

(** ** The dma-bufs of a file (drm_prime.c) *)
Definition drm_prime_add_buf_handle (mem : bool) (f b handle : Z) (g : gem) : run (Z * gem) :=
  if negb mem then Done (- ENOMEM, g)
  else
    g ← get_dma_buf b g;
    fl ← deref (files g !! f);
    Done (0, store_file f (set_prime ((b, handle) :: prime fl) fl) g).

Definition drm_prime_lookup_buf_by_handle (l : list (Z * Z)) (handle : Z) : option Z :=
  fst <$> List.find (fun m => m.2 =? handle) l.

Definition drm_prime_lookup_buf_handle (l : list (Z * Z)) (b : Z) : option Z :=
  snd <$> List.find (fun m => m.1 =? b) l.

(** The walk over [l], the rest of the list, after [kept]. *)
Fixpoint remove_walk (f b : Z) (kept l : list (Z * Z)) (g : gem) : run gem :=
  match l with
  | [] => Done g
  | m :: l =>
    if m.1 =? b then
      g ← dma_buf_put b g;
      fl ← deref (files g !! f);
      remove_walk f b kept l (store_file f (set_prime (kept ++ l) fl) g)
    else remove_walk f b (kept ++ [m]) l g
  end.

Definition drm_prime_remove_buf_handle_locked (f b : Z) (g : gem) : run gem :=
  fl ← deref (files g !! f); remove_walk f b [] (prime fl) g.

(** ** Handles *)
Definition drm_gem_remove_prime_handles (o f : Z) : prog gem unit :=
  _ ← mutex_lock (prime_lock f);
  _ ← sec_ (fun g =>
    x ← deref (objs g !! o);
    match dma_buf x with
    | Some b => drm_prime_remove_buf_handle_locked f b g
    | None => Done g
    end);
  mutex_unlock (prime_lock f).

Definition drm_gem_object_handle_free (o : Z) (g : gem) : run gem :=
  x ← deref (objs g !! o);
  if truth (obj_name x) then
    Done (store_obj o (set_obj_name 0 x) (set_names (idr_remove (obj_name x) (object_name_idr g)) g))
  else Done g.

Definition drm_gem_object_exported_dma_buf_free (o : Z) (g : gem) : run gem :=
  x ← deref (objs g !! o);
  match dma_buf x with
  | Some b =>
    g ← dma_buf_put b g;
    x ← deref (objs g !! o);
    Done (store_obj o (set_dma_buf None x) g)
  | None => Done g
  end.

Definition handle_uncount (o : Z) (g : gem) : run gem :=
  x ← deref (objs g !! o);
  let c := handle_count x - 1 in
  let g := store_obj o (set_handle_count c x) g in
  if c =? 0 then
    g ← drm_gem_object_handle_free o g;
    drm_gem_object_exported_dma_buf_free o g
  else Done g.

Definition drm_gem_object_handle_unreference_unlocked (o : Z) : prog gem unit :=
  none ← sec (fun g => x ← deref (objs g !! o); Done (handle_count x =? 0, g));
  if none : bool then Ret tt
  else
    _ ← mutex_lock object_name_lock;
    _ ← sec_ (handle_uncount o);
    _ ← mutex_unlock object_name_lock;
    drm_gem_object_unreference_unlocked o.

Definition drm_vma_revoke (o f : Z) (g : gem) : run gem :=
  x ← deref (objs g !! o);
  Done (store_obj o (set_vm_files (drm_vma_node_revoke (vm_files x) f) x) g).

Definition handle_remove (f handle : Z) (g : gem) : run (option Z * gem) :=
  fl ← deref (files g !! f);
  match idr_find (object_idr fl) handle with
  | None => Done (None, g)
  | Some o =>
    _ ← deref (objs g !! o);                                 (* dev = obj->dev *)
    Done (Some o, store_file f (set_idr (idr_remove handle (object_idr fl)) fl) g)
  end.

(** The driver has the feature [DRIVER_PRIME] and no [gem_close_object]. *)
Definition drm_gem_handle_delete (f handle : Z) : prog gem Z :=
  obj ← sec (handle_remove f handle);
  match obj with
  | None => Ret (- EINVAL)
  | Some o =>
    _ ← drm_gem_remove_prime_handles o f;
    _ ← sec_ (drm_vma_revoke o f);
    _ ← drm_gem_object_handle_unreference_unlocked o;
    Ret 0
  end.

Definition drm_gem_dumb_destroy (f handle : Z) : prog gem Z := drm_gem_handle_delete f handle.

Definition drm_gem_close_ioctl (f handle : Z) : prog gem Z := drm_gem_handle_delete f handle.

(** What the kernel and the driver answer while a handle is created: whether the
    maps can grow, and the result of [gem_open_object] (0 without one). *)
Record henv := MkHenv { e_idr : bool; e_allow : bool; e_open : Z }.

Definition handle_add (e : henv) (f o : Z) (g : gem) : run (Z * gem) :=
  fl ← deref (files g !! f);
  let '(ret, m) := idr_alloc (e_idr e) o 1 (object_idr fl) in
  g ← drm_gem_object_reference o (store_file f (set_idr m fl) g);
  x ← deref (objs g !! o);
  Done (ret, store_obj o (set_handle_count (handle_count x + 1) x) g).

Definition drm_vma_allow (mem : bool) (o f : Z) (g : gem) : run (Z * gem) :=
  x ← deref (objs g !! o);
  let '(ret, t) := drm_vma_node_allow mem (vm_files x) f in
  Done (ret, store_obj o (set_vm_files t x) g).

(** The caller holds [object_name_lock].  The result is the error and the handle. *)
Definition drm_gem_handle_create_tail (e : henv) (f o : Z) : prog gem (Z * Z) :=
  ret ← sec (handle_add e f o);
  _ ← mutex_unlock object_name_lock;
  if ret <? 0 then
    _ ← drm_gem_object_handle_unreference_unlocked o; Ret (ret, 0)
  else
    let handle := ret in
    ret ← sec (drm_vma_allow (e_allow e) o f);
    if truth ret then _ ← drm_gem_handle_delete f handle; Ret (ret, handle)
    else if truth (e_open e) then _ ← drm_gem_handle_delete f handle; Ret (e_open e, handle)
    else Ret (0, handle).

Definition drm_gem_handle_create (e : henv) (f o : Z) : prog gem (Z * Z) :=
  _ ← mutex_lock object_name_lock;
  drm_gem_handle_create_tail e f o.

Definition handle_lookup (f handle : Z) (g : gem) : run (option Z * gem) :=
  fl ← deref (files g !! f);
  match idr_find (object_idr fl) handle with
  | None => Done (None, g)
  | Some o => g ← drm_gem_object_reference o g; Done (Some o, g)
  end.

Definition drm_gem_object_lookup (f handle : Z) : prog gem (option Z) := sec (handle_lookup f handle).

(** ** Names *)
Definition name_object (mem : bool) (o : Z) (g : gem) : run (Z * Z * gem) :=
  x ← deref (objs g !! o);
  if handle_count x =? 0 then Done (- ENOENT, 0, g)
  else if negb (truth (obj_name x)) then
    let '(ret, m) := idr_alloc mem o 1 (object_name_idr g) in
    if ret <? 0 then Done (ret, 0, set_names m g)
    else Done (0, ret, store_obj o (set_obj_name ret x) (set_names m g))
  else Done (0, obj_name x, g).

(** The result is the error and the name. *)
Definition drm_gem_flink_ioctl (mem : bool) (f handle : Z) : prog gem (Z * Z) :=
  obj ← drm_gem_object_lookup f handle;
  match obj with
  | None => Ret (- ENOENT, 0)
  | Some o =>
    _ ← mutex_lock object_name_lock;
    r ← sec (name_object mem o);
    _ ← mutex_unlock object_name_lock;
    _ ← drm_gem_object_unreference_unlocked o;
    Ret r
  end.

Definition name_lookup (name : Z) (g : gem) : run (option Z * gem) :=
  match idr_find (object_name_idr g) name with
  | None => Done (None, g)
  | Some o => g ← drm_gem_object_reference o g; Done (Some o, g)
  end.

(** The result is the error, the handle and the size. *)
Definition drm_gem_open_ioctl (e : henv) (f name : Z) : prog gem (Z * Z * Z) :=
  _ ← mutex_lock object_name_lock;
  obj ← sec (name_lookup (s32 name));
  match obj with
  | None => _ ← mutex_unlock object_name_lock; Ret (- ENOENT, 0, 0)
  | Some o =>
    r ← drm_gem_handle_create_tail e f o;
    _ ← drm_gem_object_unreference_unlocked o;
    if truth r.1 then Ret (r.1, 0, 0)
    else
      size ← sec (fun g => x ← deref (objs g !! o); Done (obj_size x, g));
      Ret (0, r.2, size)
  end.

(** ** Files *)

(** The file is new, as are its lists ([drm_prime_init_file_private]). *)
Definition drm_gem_open (f : Z) (g : gem) : gem := store_file f (MkFile idr_init [] 0 true) g.

Definition drm_gem_object_release_handle (f : Z) (o : Z) : prog gem unit :=
  _ ← drm_gem_remove_prime_handles o f;
  _ ← sec_ (drm_vma_revoke o f);
  drm_gem_object_handle_unreference_unlocked o.

Fixpoint release_each (f : Z) (l : list Z) : prog gem unit :=
  match l with
  | [] => Ret tt
  | o :: l => _ ← drm_gem_object_release_handle f o; release_each f l
  end.

(** Nobody else uses the file, so the map does not change while it is walked. *)
Definition drm_gem_release (f : Z) : prog gem unit :=
  l ← sec (fun g => fl ← deref (files g !! f); Done ((idr_entries (object_idr fl)).*2, g));
  _ ← release_each f l;
  sec_ (fun g => fl ← deref (files g !! f); Done (store_file f (set_idr idr_init fl) g)).

(** Returns whether it warns that dma-bufs are left. *)
Definition drm_prime_destroy_file_private (f : Z) : prog gem bool :=
  sec (fun g => fl ← deref (files g !! f); Done (negb (bool_decide (prime fl = [])), g)).

(** ** Objects of the CMA helpers *)
Definition drm_gem_private_object_init (size : Z) : run drm_gem_object :=
  if truth (Z.land size (PAGE_SIZE - 1)) then Oops
  else Done (MkObj 1 0 0 size None None false Leaf).

Definition drm_gem_create_mmap_offset_size (o size : Z) (g : gem) : run (Z * gem) :=
  '(ret, mgr) ← run_of (drm_vma_offset_add (vma_offset_manager g) (node_of o) (size / PAGE_SIZE));
  Done (ret, set_mgr mgr g).

Definition drm_gem_create_mmap_offset (o : Z) (g : gem) : run (Z * gem) :=
  x ← deref (objs g !! o); drm_gem_create_mmap_offset_size o (obj_size x) g.

(** What the kernel answers while an object is created: the memory of the
    structure with its address, [shmem_file_setup]'s error and the DMA memory. *)
Record cenv := MkCenv { e_kzalloc : bool; e_addr : Z; e_shmem : Z; e_dma : bool }.


(** The result is an error or the object, which nobody else can reach yet. *)
Definition __drm_gem_cma_create (e : cenv) (size : Z) (g : gem) : run ((Z + Z) * gem) :=
  if negb (e_kzalloc e) then Done (inl (- ENOMEM), g)
  else
    let o := new_addr (e_addr e) (objs g) in
    x ← drm_gem_private_object_init size;
    if e_shmem e <? 0 then Done (inl (e_shmem e), g)
    else
      '(ret, g) ← drm_gem_create_mmap_offset o (store_obj o x g);
      if truth ret then
        g ← drm_gem_object_release o g; Done (inl ret, set_objs (delete o (objs g)) g)
      else Done (inr o, g).

Definition round_up_page (size : Z) : Z := ul (Z.lor (ul (size - 1)) (PAGE_SIZE - 1) + 1).

Definition drm_gem_cma_create (e : cenv) (size : Z) (g : gem) : run ((Z + Z) * gem) :=
  let size := round_up_page size in
  '(r, g) ← __drm_gem_cma_create e size g;
  match r with
  | inl err => Done (inl err, g)
  | inr o =>
    if negb (e_dma e) then g ← drm_gem_cma_free_object o g; Done (inl (- ENOMEM), g)
    else x ← deref (objs g !! o); Done (inr o, store_obj o (set_vaddr true x) g)
  end.

(** The result is the error and the handle. *)
Definition drm_gem_cma_create_with_handle (c : cenv) (e : henv) (f size : Z) : prog gem (Z * Z) :=
  r ← sec (drm_gem_cma_create c size);
  match r with
  | inl err => Ret (err, 0)
  | inr o =>
    r ← drm_gem_handle_create e f o;
    if truth r.1 then _ ← sec_ (drm_gem_cma_free_object o); Ret (r.1, 0)
    else _ ← drm_gem_object_unreference_unlocked o; Ret (0, r.2)
  end.

(** [DIV_ROUND_UP] of [unsigned int]s. *)
Definition div_round_up32 (n d : Z) : Z := u32 (n + d - 1) / d.

(** [struct drm_mode_create_dumb]. *)
Record dumb := MkDumb { d_width : Z; d_height : Z; d_bpp : Z; d_pitch : Z; d_size : Z; d_handle : Z }.

Definition drm_gem_cma_dumb_create (c : cenv) (e : henv) (f : Z) (args : dumb) : prog gem (Z * dumb) :=
  let pitch := div_round_up32 (u32 (d_width args * d_bpp args)) 8 in
  let size := u32 (pitch * d_height args) in
  r ← drm_gem_cma_create_with_handle c e f size;
  Ret (r.1, MkDumb (d_width args) (d_height args) (d_bpp args) pitch size r.2).

Definition drm_gem_cma_dumb_create_internal (c : cenv) (e : henv) (f : Z) (args : dumb) : prog gem (Z * dumb) :=
  let min_pitch := div_round_up32 (u32 (d_width args * d_bpp args)) 8 in
  let pitch := if d_pitch args <? min_pitch then min_pitch else d_pitch args in
  let bytes := u32 (pitch * d_height args) in
  let size := if d_size args <? bytes then bytes else d_size args in
  r ← drm_gem_cma_create_with_handle c e f size;
  Ret (r.1, MkDumb (d_width args) (d_height args) (d_bpp args) pitch size r.2).

(** The checks of the ioctl (drm_crtc.c): the error or the cleared arguments.
    [PAGE_ALIGN] of an [u32]. *)
Definition dumb_checks (args : dumb) : Z + dumb :=
  let cpp := div_round_up32 (d_bpp args) 8 in
  if negb (truth (d_width args)) || negb (truth (d_height args)) || negb (truth (d_bpp args)) then inl (- EINVAL)
  else if negb (truth cpp) || (4294967295 / d_width args <? cpp) then inl (- EINVAL)
  else
    let stride := u32 (cpp * d_width args) in
    if 4294967295 / stride <? d_height args then inl (- EINVAL)
    else
      let size := u32 (d_height args * stride) in
      if Z.land (u32 (size + (PAGE_SIZE - 1))) (Z.lnot (PAGE_SIZE - 1)) =? 0 then inl (- EINVAL)
      else inr (MkDumb (d_width args) (d_height args) (d_bpp args) 0 0 0).

Definition drm_mode_create_dumb_ioctl (c : cenv) (e : henv) (f : Z) (args : dumb) : prog gem (Z * dumb) :=
  match dumb_checks args with
  | inl err => Ret (err, args)
  | inr args => drm_gem_cma_dumb_create c e f args
  end.

(** The result is the error and the offset. *)
Definition drm_gem_cma_dumb_map_offset (f handle : Z) : prog gem (Z * Z) :=
  obj ← drm_gem_object_lookup f handle;
  match obj with
  | None => Ret (- EINVAL, 0)
  | Some o =>
    offset ← sec (fun g => _ ← deref (objs g !! o);
                           Done (drm_vma_node_offset_addr (vma_offset_manager g) (node_of o), g));
    _ ← sec_ (drm_gem_object_unreference o);
    Ret (0, offset)
  end.

(** ** Mappings *)

(** The address range of a mapping, from [vm_pgoff]; the driver has [gem_vm_ops]. *)
Record vm_area := MkVma { v_addr : Z; vm_start : Z; vm_end : Z; vm_pgoff : Z }.

Definition drm_gem_mmap_obj (o obj_size : Z) (vma : vm_area) (g : gem) : run (Z * gem) :=
  if obj_size <? ul (vm_end vma - vm_start vma) then Done (- EINVAL, g)
  else
    g ← drm_gem_object_reference o g;
    Done (0, set_vmas (<[new_addr (v_addr vma) (vmas g) := o]> (vmas g)) g).

(** The offset node belongs to the object of the same number. *)
Definition gem_mmap (f : Z) (vma : vm_area) (g : gem) : run (Z * gem) :=
  match drm_vma_offset_exact_lookup (vma_offset_manager g) (vm_pgoff vma)
          (Z.shiftr (ul (vm_end vma - vm_start vma)) PAGE_SHIFT) with
  | None => Done (- EINVAL, g)
  | Some node =>
    let o := Z.of_nat node in
    x ← deref (objs g !! o);
    if negb (drm_vma_node_is_allowed (vm_files x) f) then Done (- EACCES, g)
    else drm_gem_mmap_obj o (ul (Z.shiftl (drm_vma_node_size (vma_offset_manager g) node) PAGE_SHIFT)) vma g
  end.

(** All under [struct_mutex], which freeing takes as well. *)
Definition drm_gem_mmap (unplugged : bool) (f : Z) (vma : vm_area) : prog gem Z :=
  if unplugged then Ret (- ENODEV) else sec (gem_mmap f vma).

(** The mapping [v] is copied. *)
Definition drm_gem_vm_open (v v' : Z) : prog gem unit :=
  sec_ (fun g =>
    match vmas g !! v with
    | None => Done g
    | Some o => g ← drm_gem_object_reference o g; Done (set_vmas (<[new_addr v' (vmas g) := o]> (vmas g)) g)
    end).

Definition drm_gem_vm_close (v : Z) : prog gem unit :=
  sec_ (fun g =>
    match vmas g !! v with
    | None => Done g
    | Some o => drm_gem_object_unreference o (set_vmas (delete v (vmas g)) g)
    end).

End gem.
Arguments gem S {_}.
Arguments drm_file {_}.
