(* ===== verification/DrmPrime.v ===== *)
(** * Sharing buffer objects: PRIME (drm_prime.c)

    Export of a handle as the file descriptor of a dma-buf and import of a
    descriptor as a handle, on the state and the programs of [DrmGem], with the
    lists that make a file get the same handle back; and the attachments of a
    dma-buf. *)

From S2P Require Import Prelude Idr DrmMm DrmVma DrmGem.

Section prime.
Context {S : Type} {RA : range_alloc S} {RB : rbtree} `{idr_ops} {GH : gem_h S}.
Local Notation gem := (gem S).

(** ** Export *)

(** What the kernel answers while a handle is exported: [dma_buf_export]'s error or
    the address of the dma-buf, the memory of the list's member, and
    [dma_buf_fd]'s error or the descriptor. *)
Record xenv := MkXenv { e_export : Z; e_buf : Z; e_member : bool; e_fd : Z }.

Definition drm_gem_prime_export (e : xenv) (o : Z) (g : gem) : run ((Z + Z) * gem) :=
  x ← deref (objs g !! o);
  if e_export e <? 0 then Done (inl (e_export e), g)
  else
    let b := new_addr (e_buf e) (bufs g) in
    Done (inr b, store_buf b (MkBuf 1 (Some o) (obj_size x)) g).

Definition export_and_register_object (e : xenv) (o : Z) (g : gem) : run ((Z + Z) * gem) :=
  x ← deref (objs g !! o);
  if handle_count x =? 0 then Done (inl (- ENOENT), g)
  else
    '(r, g) ← drm_gem_prime_export e o g;
    match r with
    | inl err => Done (inl err, g)
    | inr b =>
      x ← deref (objs g !! o);
      g ← get_dma_buf b (store_obj o (set_dma_buf (Some b) x) g);
      g ← drm_gem_object_reference o g;
      Done (inr b, g)
    end.

(** The dma-buf of the object, with a reference for the caller. *)
Definition obtain_dma_buf (e : xenv) (o : Z) (g : gem) : run ((Z + Z) * gem) :=
  x ← deref (objs g !! o);
  match import_attach x with
  | Some b => g ← get_dma_buf b g; Done (inr b, g)
  | None =>
    match dma_buf x with
    | Some b => g ← get_dma_buf b g; Done (inr b, g)
    | None => export_and_register_object e o g
    end
  end.

(** What happens under [object_name_lock]: the error, or the dma-buf and the error
    of its registration in the file's list. *)
Definition export_object (e : xenv) (f handle o : Z) (g : gem) : run ((Z + Z * Z) * gem) :=
  '(r, g) ← obtain_dma_buf e o g;
  match r with
  | inl err => Done (inl err, g)
  | inr b => '(ret, g) ← drm_prime_add_buf_handle (e_member e) f b handle g; Done (inr (b, ret), g)
  end.

(** The descriptor takes over the reference. *)
Definition dma_buf_fd (e : xenv) (b : Z) (g : gem) : run (Z * gem) :=
  if e_fd e <? 0 then Done (e_fd e, g)
  else
    _ ← deref (bufs g !! b);
    let fd := new_addr (e_fd e) (fds g) in
    Done (fd, set_fds (<[fd := b]> (fds g)) g).

Definition find_exported (f handle : Z) (g : gem) : run (option Z * gem) :=
  fl ← deref (files g !! f);
  match drm_prime_lookup_buf_by_handle (prime fl) handle with
  | Some b => g ← get_dma_buf b g; Done (Some b, g)
  | None => Done (None, g)
  end.

(** The labels of the source: [out], [fail_put_dmabuf] and [out_have_handle]. *)
Definition export_out (f o : Z) (ret fd : Z) : prog gem (Z * Z) :=
  _ ← drm_gem_object_unreference_unlocked o;
  _ ← mutex_unlock (prime_lock f);
  Ret (ret, fd).

Definition export_fail_put (f o b ret : Z) : prog gem (Z * Z) :=
  _ ← sec_ (dma_buf_put b); export_out f o ret 0.

Definition export_have_handle (e : xenv) (f o b : Z) : prog gem (Z * Z) :=
  ret ← sec (dma_buf_fd e b);
  if ret <? 0 then export_fail_put f o b ret else export_out f o 0 ret.

(** The result is the error and the descriptor. *)
Definition drm_gem_prime_handle_to_fd (e : xenv) (f handle : Z) : prog gem (Z * Z) :=
  _ ← mutex_lock (prime_lock f);
  obj ← drm_gem_object_lookup f handle;
  match obj with
  | None => _ ← mutex_unlock (prime_lock f); Ret (- ENOENT, 0)
  | Some o =>
    known ← sec (find_exported f handle);
    match known with
    | Some b => export_have_handle e f o b
    | None =>
      _ ← mutex_lock object_name_lock;
      r ← sec (export_object e f handle o);
      _ ← mutex_unlock object_name_lock;
      match r with
      | inl err => export_out f o err 0
      | inr (b, ret) => if truth ret then export_fail_put f o b ret else export_have_handle e f o b
      end
    end
  end.

(** ** Import *)

(** What the kernel answers while a dma-buf of another driver is attached: the
    errors of [dma_buf_attach] and [dma_buf_map_attachment], the number of
    entries of the table, and the answers for the new object. *)
Record ienv := MkIenv { e_attach : Z; e_map : Z; e_nents : Z; e_create : cenv }.

Definition drm_gem_cma_prime_import_sg_table (e : ienv) (b : Z) (g : gem) : run ((Z + Z) * gem) :=
  if negb (e_nents e =? 1) then Done (inl (- EINVAL), g)
  else y ← deref (bufs g !! b); __drm_gem_cma_create (e_create e) (b_size y) g.

Definition drm_gem_prime_import (e : ienv) (b : Z) (g : gem) : run ((Z + Z) * gem) :=
  y ← deref (bufs g !! b);
  match b_priv y with
  | Some o => g ← drm_gem_object_reference o g; Done (inr o, g)
  | None =>
    if e_attach e <? 0 then Done (inl (e_attach e), g)
    else
      g ← get_dma_buf b g;
      if e_map e <? 0 then g ← dma_buf_put b g; Done (inl (e_map e), g)
      else
        '(r, g) ← drm_gem_cma_prime_import_sg_table e b g;
        match r with
        | inl err => g ← dma_buf_put b g; Done (inl err, g)
        | inr o => x ← deref (objs g !! o); Done (inr o, store_obj o (set_import (Some b) x) g)
        end
  end.

(** The import and the cache of the object's dma-buf, under [object_name_lock];
    the warning about another dma-buf has no effect on the state. *)
Definition import_object (e : ienv) (b : Z) (g : gem) : run ((Z + Z) * gem) :=
  '(r, g) ← drm_gem_prime_import e b g;
  match r with
  | inl err => Done (inl err, g)
  | inr o =>
    x ← deref (objs g !! o);
    match dma_buf x with
    | Some _ => Done (inr o, g)
    | None => g ← get_dma_buf b (store_obj o (set_dma_buf (Some b) x) g); Done (inr o, g)
    end
  end.

Definition dma_buf_get (fd : Z) (g : gem) : run (option Z * gem) :=
  match fds g !! fd with
  | None => Done (None, g)
  | Some b => g ← get_dma_buf b g; Done (Some b, g)
  end.

Definition find_imported (f b : Z) (g : gem) : run (option Z * gem) :=
  fl ← deref (files g !! f); Done (drm_prime_lookup_buf_handle (prime fl) b, g).

(** The label [out_put]. *)
Definition import_out_put (f b ret handle : Z) : prog gem (Z * Z) :=
  _ ← sec_ (dma_buf_put b);
  _ ← mutex_unlock (prime_lock f);
  Ret (ret, handle).

(** The result is the error and the handle. *)
Definition drm_gem_prime_fd_to_handle (i : ienv) (h : henv) (mem : bool) (f fd : Z) : prog gem (Z * Z) :=
  buf ← sec (dma_buf_get fd);
  match buf with
  | None => Ret (- EBADF, 0)
  | Some b =>
    _ ← mutex_lock (prime_lock f);
    known ← sec (find_imported f b);
    match known with
    | Some handle => import_out_put f b 0 handle
    | None =>
      _ ← mutex_lock object_name_lock;
      r ← sec (import_object i b);
      match r with
      | inl err => _ ← mutex_unlock object_name_lock; import_out_put f b err 0
      | inr o =>
        t ← drm_gem_handle_create_tail h f o;
        _ ← drm_gem_object_unreference_unlocked o;
        if truth t.1 then import_out_put f b t.1 t.2
        else
          ret ← sec (drm_prime_add_buf_handle mem f b t.2);
          if truth ret then
            (* fail, which goes on with out_unlock *)
            _ ← drm_gem_handle_delete f t.2;
            _ ← mutex_unlock object_name_lock;
            import_out_put f b ret t.2
          else
            _ ← mutex_unlock (prime_lock f);
            _ ← sec_ (dma_buf_put b);
            Ret (0, t.2)
      end
    end
  end.

(** ** The ioctls *)
Definition drm_prime_handle_to_fd_ioctl (DRM_CLOEXEC : Z) (e : xenv) (f handle flags : Z) : prog gem (Z * Z) :=
  if truth (Z.land flags (Z.lnot DRM_CLOEXEC)) then Ret (- EINVAL, 0)
  else drm_gem_prime_handle_to_fd e f handle.

Definition drm_prime_fd_to_handle_ioctl (i : ienv) (h : henv) (mem : bool) (f fd : Z) : prog gem (Z * Z) :=
  drm_gem_prime_fd_to_handle i h mem f fd.

(** ** Descriptors

    A descriptor is closed, or another driver makes a dma-buf and hands out its
    descriptor. *)
Definition close_fd (fd : Z) : prog gem unit :=
  buf ← sec (fun g => match fds g !! fd with
                      | None => Done (None, g)
                      | Some b => Done (Some b, set_fds (delete fd (fds g)) g)
                      end);
  match buf with None => Ret tt | Some b => sec_ (dma_buf_put b) end.

Definition foreign_fd (b fd size : Z) : prog gem unit :=
  sec_ (fun g =>
    let b := new_addr b (bufs g) in
    Done (set_fds (<[new_addr fd (fds g) := b]> (fds g)) (store_buf b (MkBuf 1 None size) g))).
End prime.

(** ** Attachments of an exported dma-buf *)

(** A scatter/gather table, an error pointer or null. *)
Inductive sg_ptr := SgNull | SgErr (err : Z) | Sg (table : Z).

Record drm_prime_attachment := MkAttach { sgt : option Z; dir : Z }.

Section attachments.
Context (DMA_NONE : Z).

(** [pin] is the result of the driver's [gem_prime_pin], 0 without one. *)
Definition drm_gem_map_attach (kzalloc : bool) (pin : Z) : Z * option drm_prime_attachment :=
  if negb kzalloc then (- ENOMEM, None) else (pin, Some (MkAttach None DMA_NONE)).

(** [sgtable] is the memory of the table and the error of [dma_get_sgtable]. *)
Definition drm_gem_cma_prime_get_sg_table (kzalloc : bool) (ret table : Z) : sg_ptr :=
  if negb kzalloc then SgNull else if ret <? 0 then SgNull else Sg table.

(** [get] is what [gem_prime_get_sg_table] returns and [mapped] what [dma_map_sg]
    does. *)
Definition drm_gem_map_dma_buf (get : sg_ptr) (mapped : bool) (direction : Z) (a : option drm_prime_attachment)
    : run (sg_ptr * option drm_prime_attachment) :=
  match a with
  | None => Done (SgErr (- EINVAL), a)
  | Some at_ =>
    if direction =? DMA_NONE then Done (SgErr (- EINVAL), a)
    else if dir at_ =? direction then
      Done (match sgt at_ with Some t => Sg t | None => SgNull end, a)
    else if negb (dir at_ =? DMA_NONE) then Done (SgErr (- EBUSY), a)
    else
      match get with
      | SgErr err => Done (SgErr err, a)
      | SgNull => Oops                                       (* sgt->sgl *)
      | Sg t => if mapped then Done (Sg t, Some (MkAttach (Some t) direction)) else Done (SgErr (- ENOMEM), a)
      end
  end.

(** The tables that are unmapped and freed. *)
Definition drm_gem_map_detach (a : option drm_prime_attachment) : list Z * list Z * option drm_prime_attachment :=
  match a with
  | None => ([], [], None)
  | Some at_ =>
    match sgt at_ with
    | Some t => (if dir at_ =? DMA_NONE then [] else [t], [t], None)
    | None => ([], [], None)
    end
  end.
End attachments.
