(* ===== verification/DrmGemInv.v ===== *)
(** * GEM and PRIME: the invariant

    Every reference of an object or a dma-buf is held by somebody: by a handle, a
    dma-buf, a mapping, a descriptor, the list of a file, or by a thread in the
    middle of an operation.  What threads hold is a list of tokens; the invariant
    says that each count is the number of its holders, and how names, caches and
    lists agree with the handles.  Each step of an operation is a move of tokens
    that keeps the invariant; the moves are the lemmas of this file. *)

From S2P Require Import Prelude Counting Idr DrmMm DrmVma DrmVmaProps DrmGem DrmPrime.

#[global] Arguments occ : simpl never.

(** ** Tokens *)

(** What a thread holds: a reference; the reference of an object nobody else knows;
    a handle's references; those of a handle removed from the table of a file in use
    while the file's list may still know it; a reference of a dma-buf; the use of a file;
    the handles of a file that is released, as they were in its table when it has
    not been read yet; a file's [prime.lock], with the object seen in the file and
    perhaps its dma-buf; [object_name_lock], with a referenced object that has or
    will get a handle, and perhaps its dma-buf. *)
Inductive tok :=
| TRef (o : Z)
| TNew (o : Z)
| THnd (o : Z)
| TPend (f o : Z)
| TBuf (b : Z)
| TUse (f : Z)
| TOwn (f : Z) (unread : bool) (l : list Z)
| TPrime (f : Z) (s : option (Z * option Z))
| TName (s : option (Z * option Z)).

#[export] Instance tok_eq_dec : EqDecision tok.
Proof. solve_decision. Defined.

(** Settles the weight [b2z (a =? b)] when it is known whether [a] is [b]. *)
Ltac weigh :=
  repeat match goal with
  | |- context [b2z (?a =? ?a)] => rewrite (b2z_eqb_refl a)
  | Hn : ?a <> ?b |- context [b2z (?a =? ?b)] => rewrite (b2z_eqb_ne a b Hn)
  end.

(** What a token contributes to the handles and the other references of an object,
    the references of a dma-buf and the users of a file. *)
Definition tokH (o : Z) (t : tok) : Z :=
  match t with
  | THnd o' | TPend _ o' => b2z (o =? o')
  | TOwn _ _ l => occ o l
  | _ => 0
  end.
Definition tokR (o : Z) (t : tok) : Z :=
  match t with TRef o' | TNew o' | TName (Some (o', _)) => b2z (o =? o') | _ => 0 end.
Definition tokB (b : Z) (t : tok) : Z := match t with TBuf b' => b2z (b =? b') | _ => 0 end.
Definition tokU (f : Z) (t : tok) : Z := match t with TUse f' | TPend f' _ => b2z (f =? f') | _ => 0 end.

Lemma tokH_nonneg o t : 0 <= tokH o t.
Proof. destruct t; cbn; try lia; try apply b2z_nonneg. apply occ_nonneg. Qed.
Lemma tokR_nonneg o t : 0 <= tokR o t.
Proof. destruct t as [| | | | | | | |[[]|]]; cbn; try lia; apply b2z_nonneg. Qed.
Lemma tokB_nonneg o t : 0 <= tokB o t.
Proof. destruct t; cbn; try lia; apply b2z_nonneg. Qed.
Lemma tokU_nonneg o t : 0 <= tokU o t.
Proof. destruct t; cbn; try lia; apply b2z_nonneg. Qed.

(** Tokens that are more than references. *)
Definition auxb (t : tok) : bool := match t with TRef _ | THnd _ | TBuf _ | TUse _ => false | _ => true end.
Definition aux (L : list tok) : list tok := filter (fun t => auxb t = true) L.

Lemma aux_elem t L : auxb t = true -> t ∈ aux L <-> t ∈ L.
Proof. intros Ht. unfold aux. rewrite list_elem_of_filter. tauto. Qed.

Definition is_prime (f : Z) (t : tok) : bool := match t with TPrime f' _ => f =? f' | _ => false end.
Definition is_name (t : tok) : bool := match t with TName _ => true | _ => false end.
Definition is_new (o : Z) (t : tok) : bool := match t with TNew o' => o =? o' | _ => false end.
Definition is_own (f : Z) (t : tok) : bool := match t with TOwn f' _ _ => f =? f' | _ => false end.

(** At most one token of a kind. *)
Definition atmost1 (P : tok -> bool) (L : list tok) : Prop := lsum (fun t => b2z (P t)) L <= 1.

Lemma atmost1_aux P L : (forall t, P t = true -> auxb t = true) -> atmost1 P (aux L) <-> atmost1 P L.
Proof.
  intros HP. unfold atmost1. enough (lsum (fun t => b2z (P t)) (aux L) = lsum (fun t => b2z (P t)) L) as -> by done.
  unfold aux. induction L as [|t L IH]; [done|]. rewrite filter_cons. case_decide as Ht; cbn; rewrite IH; [done|].
  destruct (P t) eqn:E; [by apply HP in E|done].
Qed.

Lemma atmost1_head P t L : atmost1 P (t :: L) -> P t = true -> forall t', t' ∈ L -> P t' = false.
Proof.
  unfold atmost1. cbn. intros Hs Ht t' Hin. destruct (P t') eqn:E; [|done]. rewrite Ht in Hs. cbn in Hs.
  pose proof (lsum_ge (fun t => b2z (P t)) L t' (fun _ => b2z_nonneg _) Hin) as Hge. cbn in Hge. rewrite E in Hge. cbn in Hge. lia.
Qed.

(** ** The invariant *)
Class gem_h_ok {S : Type} {RA : range_alloc S} (GH : gem_h S) : Prop := {
  page_shift_ok : 0 <= PAGE_SHIFT < 32;
  exact_lookup_law mgr start pages n :
    drm_vma_offset_exact_lookup mgr start pages = Some n -> drm_vma_offset_lookup mgr start pages = Some n;
  file_offsets : 0 <= DRM_FILE_PAGE_OFFSET_START /\ 0 < DRM_FILE_PAGE_OFFSET_SIZE /\
    DRM_FILE_PAGE_OFFSET_START + DRM_FILE_PAGE_OFFSET_SIZE + 2 ^ 32 <= 2 ^ 64;
}.

Section inv.
Context {S : Type} {RA : range_alloc S} {RAok : range_alloc_ok S RA} {RB : rbtree} {RBok : rbtree_ok RB}.
Context `{idr_ops} `{!idr_laws} {GH : gem_h S} {GHok : gem_h_ok GH}.
Local Notation gem := (gem S).
Implicit Types (g : gem) (L : list tok) (o b f : Z).

Definition obuf b (v : option Z) : Z := match v with Some b' => b2z (b =? b') | None => 0 end.

(** The handles of a file, while it is open. *)
Definition file_handles o (fl : drm_file) : Z := if f_open fl then occ o (idr_entries (object_idr fl)).*2 else 0.

(** The holders of handles, of other references and of a dma-buf. *)
Definition handles g L o : Z := msum (file_handles o) (files g) + lsum (tokH o) L.
Definition refs g L o : Z :=
  msum (fun y => obuf o (b_priv y)) (bufs g) + occ o (released g) +
  msum (fun o' => b2z (o =? o')) (vmas g) + lsum (tokR o) L.
Definition buf_refs g L b : Z :=
  msum (fun x => obuf b (dma_buf x) + obuf b (import_attach x)) (objs g) +
  msum (fun fl => occ b (prime fl).*1) (files g) + msum (fun b' => b2z (b =? b')) (fds g) + lsum (tokB b) L.

Definition hc g o : Z := osum handle_count (objs g !! o).
Definition rc g o : Z := osum refcount (objs g !! o).
Definition bc g b : Z := osum b_count (bufs g !! b).
Definition uc g f : Z := osum f_users (files g !! f).

Record counts g L : Prop := {
  c_hc o : hc g o = handles g L o;
  c_rc o : rc g o = handles g L o + refs g L o;
  c_live o x : objs g !! o = Some x -> 0 < refcount x;
  c_bc b : bc g b = buf_refs g L b;
  c_blive b y : bufs g !! b = Some y -> 0 < b_count y;
  c_uc f : uc g f = lsum (tokU f) L;
  c_closed f fl : files g !! f = Some fl -> f_open fl = false -> f_users fl = 0;
}.

(** The object has a handle or is about to get one. *)
Definition hot g L o : Prop := 0 < hc g o \/ exists v, TName (Some (o, v)) ∈ L.

(** The file has a handle of the object, or is still to be told of its removal. *)
Definition present g L f o : Prop :=
  (exists fl h, files g !! f = Some fl /\ f_open fl = true /\ idr_find (object_idr fl) h = Some o) \/
  TPend f o ∈ L \/ (exists u l, TOwn f u l ∈ L /\ o ∈ l).

(** The manager knows only live objects. *)
Definition offsets_ok (m : drm_vma_offset_manager S) (live : Z -> Prop) : Prop :=
  mgr_ok DRM_FILE_PAGE_OFFSET_START (DRM_FILE_PAGE_OFFSET_START + DRM_FILE_PAGE_OFFSET_SIZE) m /\
  forall n, is_Some (vma_abs m !! n) -> live (Z.of_nat n).

Definition size_ok (z : Z) : Prop := 0 < z < 2 ^ 64 /\ z mod PAGE_SIZE = 0.

Record links g L : Prop := {
  l_pos o x : objs g !! o = Some x -> 0 < o;
  l_name n o : idr_find (object_name_idr g) n = Some o <-> n <> 0 /\ exists x, objs g !! o = Some x /\ obj_name x = n;
  l_named o x : objs g !! o = Some x -> obj_name x <> 0 -> hot g L o;
  l_cache o x b : objs g !! o = Some x -> dma_buf x = Some b -> hot g L o;
  l_import o x b : objs g !! o = Some x -> import_attach x = Some b ->
    vaddr x = false /\ (exists y, bufs g !! b = Some y /\ b_priv y = None) /\ (hot g L o -> dma_buf x = Some b);
  l_priv b y o : bufs g !! b = Some y -> b_priv y = Some o -> hot g L o ->
    exists x, objs g !! o = Some x /\ dma_buf x = Some b;
  l_priv1 b y c z o : bufs g !! b = Some y -> bufs g !! c = Some z -> b_priv y = Some o -> b_priv z = Some o -> b = c;
  l_export b y o x : bufs g !! b = Some y -> b_priv y = Some o -> objs g !! o = Some x -> import_attach x = None;
  l_foreign b y : bufs g !! b = Some y -> b_priv y = None -> size_ok (b_size y);
  l_member f fl b h : files g !! f = Some fl -> (b, h) ∈ prime fl ->
    exists o x, objs g !! o = Some x /\ dma_buf x = Some b /\ present g L f o;
  l_new o : TNew o ∈ L -> exists x, objs g !! o = Some x /\ ~ hot g L o /\ import_attach x = None /\
    forall b y, bufs g !! b = Some y -> b_priv y <> Some o;
  l_new1 o : atmost1 (is_new o) L;
  l_own f u l : TOwn f u l ∈ L -> exists fl, files g !! f = Some fl /\ f_open fl = false /\
    (u = true -> l = (idr_entries (object_idr fl)).*2);
  l_own1 f : atmost1 (is_own f) L;
  l_prime f o v : TPrime f (Some (o, v)) ∈ L -> exists x, objs g !! o = Some x /\ present g L f o /\
    (forall b, v = Some b -> dma_buf x = Some b);
  l_prime1 f : atmost1 (is_prime f) L;
  l_naming o v : TName (Some (o, v)) ∈ L -> exists x, objs g !! o = Some x /\ (forall b, v = Some b -> dma_buf x = Some b);
  l_name1 : atmost1 is_name L;
  l_offsets : offsets_ok (vma_offset_manager g) (fun o => is_Some (objs g !! o));
}.

Definition inv g L : Prop := counts g L /\ links g L.

(** ** Order of tokens *)
Lemma aux_perm L L' : L ≡ₚ L' -> aux L ≡ₚ aux L'.
Proof. intros Hp. unfold aux. by rewrite Hp. Qed.

Lemma counts_perm g L L' : L ≡ₚ L' -> counts g L -> counts g L'.
Proof.
  intros Hp [C1 C2 C3 C4 C5 C6 C7].
  assert (forall o, handles g L' o = handles g L o) as EH by (intros o; unfold handles; by rewrite (lsum_perm _ _ _ Hp)).
  assert (forall o, refs g L' o = refs g L o) as ER by (intros o; unfold refs; by rewrite (lsum_perm _ _ _ Hp)).
  split; [by intros; rewrite EH|by intros; rewrite EH, ER|done| |done| |done].
  - intros b. unfold buf_refs. rewrite <- (lsum_perm _ _ _ Hp). apply C4.
  - intros f. rewrite <- (lsum_perm _ _ _ Hp). apply C6.
Qed.

(** ** What links depend on *)

(** The parts of objects, dma-bufs and files that the links mention. *)
Definition skel (x : drm_gem_object) :=
  (obj_name x, dma_buf x, import_attach x, match import_attach x with Some _ => vaddr x | None => false end).
Definition bskel (y : dmabuf) := (b_priv y, b_size y).
Definition fskel (fl : drm_file) := (object_idr fl, prime fl, f_open fl).

Lemma skel_lookup {A B} (k : A -> B) (m m' : option A) a' : k <$> m' = k <$> m -> m' = Some a' ->
  exists a, m = Some a /\ k a = k a'.
Proof. intros E ->. destruct m as [a|]; cbn in E; [|done]. exists a. split; [done|]. congruence. Qed.

(** A step after which objects and dma-bufs look as before. *)
Record relink g g' L L' : Prop := {
  r_objs o : skel <$> objs g' !! o = skel <$> objs g !! o;
  r_bufs b : bskel <$> bufs g' !! b = bskel <$> bufs g !! b;
  r_names : object_name_idr g' = object_name_idr g;
  r_mgr : vma_offset_manager g' = vma_offset_manager g;
  r_hot o : hot g L o -> hot g' L' o;
  r_cold o : hot g' L' o -> hot g L o \/
    (TNew o ∉ L' /\ (forall x, objs g' !! o = Some x -> import_attach x = None) /\
     (forall b y, bufs g' !! b = Some y -> b_priv y <> Some o));
  r_present f o : present g L f o -> present g' L' f o;
  r_member f fl' b h : files g' !! f = Some fl' -> (b, h) ∈ prime fl' ->
    (exists fl, files g !! f = Some fl /\ (b, h) ∈ prime fl) \/
    (exists o x, objs g' !! o = Some x /\ dma_buf x = Some b /\ present g' L' f o);
  r_new o : TNew o ∈ L' -> TNew o ∈ L;
  r_new1 o : atmost1 (is_new o) L';
  r_own f u l : TOwn f u l ∈ L' -> exists fl, files g' !! f = Some fl /\ f_open fl = false /\
    (u = true -> l = (idr_entries (object_idr fl)).*2);
  r_own1 f : atmost1 (is_own f) L';
  r_prime f o v : TPrime f (Some (o, v)) ∈ L' -> TPrime f (Some (o, v)) ∈ L \/
    exists x, objs g' !! o = Some x /\ present g' L' f o /\ (forall b, v = Some b -> dma_buf x = Some b);
  r_prime1 f : atmost1 (is_prime f) L';
  r_naming o v : TName (Some (o, v)) ∈ L' -> TName (Some (o, v)) ∈ L \/
    exists x, objs g' !! o = Some x /\ (forall b, v = Some b -> dma_buf x = Some b);
  r_name1 : atmost1 is_name L';
}.

Lemma links_relink g g' L L' : relink g g' L L' -> links g L -> links g' L'.
Proof.
  intros R K.
  assert (forall o x', objs g' !! o = Some x' -> exists x, objs g !! o = Some x /\ skel x = skel x') as O1
    by (intros o x'; apply skel_lookup, (r_objs _ _ _ _ R)).
  assert (forall o x, objs g !! o = Some x -> exists x', objs g' !! o = Some x' /\ skel x' = skel x) as O2
    by (intros o x; apply skel_lookup; symmetry; apply (r_objs _ _ _ _ R)).
  assert (forall o y', bufs g' !! o = Some y' -> exists y, bufs g !! o = Some y /\ bskel y = bskel y') as B1
    by (intros o x'; apply skel_lookup, (r_bufs _ _ _ _ R)).
  assert (forall o y, bufs g !! o = Some y -> exists y', bufs g' !! o = Some y' /\ bskel y' = bskel y) as B2
    by (intros o x; apply skel_lookup; symmetry; apply (r_bufs _ _ _ _ R)).
  pose proof (r_hot _ _ _ _ R) as Hh. pose proof (r_cold _ _ _ _ R) as Hc. split.
  - intros o x (x0 & E & _)%O1. by apply (l_pos _ _ K o x0).
  - intros n o. rewrite (r_names _ _ _ _ R), (l_name _ _ K). split; intros (Hn & x & E & En); (split; [done|]).
    + destruct (O2 _ _ E) as (x' & E' & Ex). injection Ex as E1 _ _ _. exists x'. split; [done|congruence].
    + destruct (O1 _ _ E) as (x' & E' & Ex). injection Ex as E1 _ _ _. exists x'. split; [done|congruence].
  - intros o x (x0 & E & Ex)%O1 Hn. injection Ex as E1 E2 E3 E4. apply Hh, (l_named _ _ K o x0 E). congruence.
  - intros o x b (x0 & E & Ex)%O1 Hb. injection Ex as E1 E2 E3 E4. apply Hh, (l_cache _ _ K o x0 b E). congruence.
  - intros o x b (x0 & E & Ex)%O1 Hb. injection Ex as E1 E2 E3 E4. rewrite <- E3 in Hb.
    destruct (l_import _ _ K o x0 b E Hb) as (Hv & (y & Ey & Hy) & Hhh).
    destruct (B2 _ _ Ey) as (y' & Ey' & Eb). injection Eb as F1 F2.
    rewrite <- E3, Hb in E4. split_and!; [congruence|exists y'; split; [done|congruence]|]. intros [Ho|(_ & Ho & _)]%Hc.
    + rewrite <- E2. by apply Hhh.
    + destruct (O2 _ _ E) as (x1 & E1' & Ex1). specialize (Ho x1 E1'). injection Ex1 as ? ? ? ?. congruence.
  - intros b y o Ey' Hy Ho%Hc. destruct Ho as [Ho|(_ & _ & Ho)]; [|by destruct (Ho b y)].
    destruct (B1 _ _ Ey') as (y0 & Ey & Eb). injection Eb as F1 F2. rewrite <- F1 in Hy. destruct (l_priv _ _ K b y0 o Ey Hy Ho) as (x & Ex & Hx).
    destruct (O2 _ _ Ex) as (x' & E' & E). injection E as G1 G2 G3 G4. exists x'. split; congruence.
  - intros b y c z o (y0 & Ey & Eb)%B1 (z0 & Ez & Ec)%B1 Hy Hz. injection Eb as F1 F2. injection Ec as G1 G2.
    apply (l_priv1 _ _ K b y0 c z0 o); congruence.
  - intros b y o x (y0 & Ey & Eb)%B1 Hy (x0 & E & Ex)%O1. injection Eb as F1 F2. injection Ex as E1 E2 E3 E4.
    rewrite <- E3. apply (l_export _ _ K b y0 o x0); congruence.
  - intros b y (y0 & Ey & Eb)%B1 Hy. injection Eb as F1 F2. rewrite <- F2. apply (l_foreign _ _ K b y0 Ey). congruence.
  - intros f fl b h Ef Hin. destruct (r_member _ _ _ _ R f fl b h Ef Hin) as [(fl0 & Ef0 & Hin0)|]; [|done].
    destruct (l_member _ _ K f fl0 b h Ef0 Hin0) as (o & x & Ex & Hx & Hp).
    destruct (O2 _ _ Ex) as (x' & E' & E). injection E as G1 G2 G3 G4.
    exists o, x'. split_and!; [done|congruence|]. by apply (r_present _ _ _ _ R).
  - intros o Ht'. pose proof (r_new _ _ _ _ R o Ht') as Ht. destruct (l_new _ _ K o Ht) as (x & Ex & Hn & Hi & Hb).
    destruct (O2 _ _ Ex) as (x' & E' & E). injection E as G1 G2 G3 G4.
    exists x'. split_and!; [done|intros [?|(? & _)]%Hc; done|congruence|].
    intros b y (y0 & Ey & Eb)%B1. injection Eb as F1 F2. rewrite <- F1. eauto.
  - apply (r_new1 _ _ _ _ R).
  - apply (r_own _ _ _ _ R).
  - apply (r_own1 _ _ _ _ R).
  - intros f o v [Ht|]%(r_prime _ _ _ _ R); [|done]. destruct (l_prime _ _ K f o v Ht) as (x & Ex & Hp & Hv).
    destruct (O2 _ _ Ex) as (x' & E' & E). injection E as G1 G2 G3 G4.
    exists x'. split_and!; [done|by apply (r_present _ _ _ _ R)|]. rewrite G2. done.
  - apply (r_prime1 _ _ _ _ R).
  - intros o v [Ht|]%(r_naming _ _ _ _ R); [|done]. destruct (l_naming _ _ K o v Ht) as (x & Ex & Hv).
    destruct (O2 _ _ Ex) as (x' & E' & E). injection E as G1 G2 G3 G4. exists x'. split; [done|]. rewrite G2. done.
  - apply (r_name1 _ _ _ _ R).
  - destruct (l_offsets _ _ K) as [Hm Hn]. rewrite (r_mgr _ _ _ _ R). split; [done|].
    intros n [x Ex]%Hn. destruct (O2 _ _ Ex) as (x' & E' & _). by exists x'.
Qed.

(** Files and the tokens that are more than references are as before. *)
Record same_links g g' L L' : Prop := {
  s_objs o : skel <$> objs g' !! o = skel <$> objs g !! o;
  s_bufs b : bskel <$> bufs g' !! b = bskel <$> bufs g !! b;
  s_files f : fskel <$> files g' !! f = fskel <$> files g !! f;
  s_names : object_name_idr g' = object_name_idr g;
  s_mgr : vma_offset_manager g' = vma_offset_manager g;
  s_hot o : 0 < hc g' o <-> 0 < hc g o;
  s_aux : aux L' ≡ₚ aux L;
}.

Lemma same_tok L L' t : aux L' ≡ₚ aux L -> auxb t = true -> t ∈ L' <-> t ∈ L.
Proof. intros Ha Ht. rewrite <- (aux_elem t L) by done. rewrite <- (aux_elem t L') by done. by rewrite Ha. Qed.

Lemma same_one P L L' : aux L' ≡ₚ aux L -> (forall t, P t = true -> auxb t = true) -> atmost1 P L -> atmost1 P L'.
Proof.
  intros Ha HP Hl. apply (atmost1_aux P L' HP). apply (atmost1_aux P L HP) in Hl. unfold atmost1 in *.
  by rewrite (lsum_perm _ _ _ Ha).
Qed.

Lemma links_ext g g' L L' : same_links g g' L L' -> links g L -> links g' L'.
Proof.
  intros [S1 S2 S3 S4 S5 S6 Ha] K. pose proof (fun t => same_tok L L' t Ha) as Ht.
  assert (forall f fl', files g' !! f = Some fl' -> exists fl, files g !! f = Some fl /\ fskel fl = fskel fl') as F1
    by (intros f fl'; apply skel_lookup, S3).
  assert (forall f fl, files g !! f = Some fl -> exists fl', files g' !! f = Some fl' /\ fskel fl' = fskel fl) as F2
    by (intros f fl; apply skel_lookup; symmetry; apply S3).
  apply (links_relink g g' L L'); [|done]. split; try done.
  - intros o [Hc|[v Hn]]; [left; by apply S6|right; exists v; by apply Ht].
  - intros o [Hc|[v Hn]]; left; [left; by apply S6|right; exists v; by apply Ht].
  - intros f o [(fl & h & Ef & Ho & Ei)|[Hp|(u & l & Hp & Hl)]].
    + left. destruct (F2 f fl Ef) as (fl' & Ef' & E). injection E as E1 E2 E3. exists fl', h. by rewrite E1, E3.
    + right. left. by apply Ht.
    + right. right. exists u, l. split; [|done]. by apply Ht.
  - intros f fl b h (fl0 & Ef & E)%F1 Hin. injection E as E1 E2 E3. left. exists fl0. by rewrite E2.
  - intros o Hn%Ht; done.
  - intros o. apply (same_one _ L); [done|by intros []|]. apply (l_new1 _ _ K).
  - intros f u l Hp%Ht; [|done]. destruct (l_own _ _ K f u l Hp) as (fl & Ef & Ho & Hu).
    destruct (F2 f fl Ef) as (fl' & Ef' & E). injection E as E1 E2 E3. exists fl'. by rewrite E1, E3.
  - intros f. apply (same_one _ L); [done|by intros []|]. apply (l_own1 _ _ K).
  - intros f o v Hp%Ht; [|done]. by left.
  - intros f. apply (same_one _ L); [done|by intros []|]. apply (l_prime1 _ _ K).
  - intros o v Hp%Ht; [|done]. by left.
  - apply (same_one _ L); [done|by intros []|]. apply (l_name1 _ _ K).
Qed.

Lemma inv_perm g L L' : L ≡ₚ L' -> inv g L -> inv g L'.
Proof.
  intros Hp [C K]. split; [by apply (counts_perm g L)|]. apply (links_ext g g L L'); [|done]. split; try done.
  by apply aux_perm.
Qed.

#[global] Instance inv_proper g : Proper ((≡ₚ) ==> iff) (inv g).
Proof. intros L L' Hp. split; apply inv_perm; done. Qed.

(** ** Facts *)
Lemma obuf_nonneg b v : 0 <= obuf b v.
Proof. destruct v; cbn; [apply b2z_nonneg|lia]. Qed.

Lemma obuf_same b : obuf b (Some b) = 1.
Proof. cbn. by rewrite Z.eqb_refl. Qed.

Lemma file_handles_nonneg o fl : 0 <= file_handles o fl.
Proof. unfold file_handles. destruct (f_open fl); [apply occ_nonneg|lia]. Qed.

Lemma handles_tok g L o : lsum (tokH o) L <= handles g L o.
Proof. unfold handles. pose proof (msum_nonneg (file_handles o) (files g) (file_handles_nonneg o)). lia. Qed.

Lemma refs_tok g L o : lsum (tokR o) L <= refs g L o.
Proof.
  unfold refs. pose proof (msum_nonneg (fun y => obuf o (b_priv y)) (bufs g) (fun _ => obuf_nonneg _ _)).
  pose proof (msum_nonneg (fun o' => b2z (o =? o')) (vmas g) (fun _ => b2z_nonneg _)). pose proof (occ_nonneg o (released g)). lia.
Qed.

Lemma lsumH_nonneg o L : 0 <= lsum (tokH o) L.
Proof. apply lsum_nonneg, tokH_nonneg. Qed.
Lemma lsumR_nonneg o L : 0 <= lsum (tokR o) L.
Proof. apply lsum_nonneg, tokR_nonneg. Qed.
Lemma lsumB_nonneg o L : 0 <= lsum (tokB o) L.
Proof. apply lsum_nonneg, tokB_nonneg. Qed.
Lemma lsumU_nonneg o L : 0 <= lsum (tokU o) L.
Proof. apply lsum_nonneg, tokU_nonneg. Qed.

Lemma obufs_nonneg b x : 0 <= obuf b (dma_buf x) + obuf b (import_attach x).
Proof. pose proof (obuf_nonneg b (dma_buf x)). pose proof (obuf_nonneg b (import_attach x)). lia. Qed.

Lemma buf_refs_parts g L b :
  0 <= msum (fun x => obuf b (dma_buf x) + obuf b (import_attach x)) (objs g) /\
  0 <= msum (fun fl => occ b (prime fl).*1) (files g) /\ 0 <= msum (fun b' => b2z (b =? b')) (fds g) /\ 0 <= lsum (tokB b) L.
Proof.
  split_and!; [apply msum_nonneg; intros; apply obufs_nonneg|apply msum_nonneg; intros; apply occ_nonneg|
    apply msum_nonneg; intros; apply b2z_nonneg|apply lsumB_nonneg].
Qed.

Lemma buf_refs_tok g L b : lsum (tokB b) L <= buf_refs g L b.
Proof. unfold buf_refs. pose proof (buf_refs_parts g L b). lia. Qed.

Lemma handles_nonneg g L o : 0 <= handles g L o.
Proof. pose proof (handles_tok g L o). pose proof (lsumH_nonneg o L). lia. Qed.

Lemma refs_nonneg g L o : 0 <= refs g L o.
Proof. pose proof (refs_tok g L o). pose proof (lsumR_nonneg o L). lia. Qed.

Lemma present_handles g L f o : present g L f o -> 0 < handles g L o.
Proof.
  assert (forall t, t ∈ L -> 0 < tokH o t -> 0 < handles g L o) as Htok.
  { intros t Ht Hw. pose proof (lsum_ge (tokH o) L t (tokH_nonneg o) Ht). pose proof (handles_tok g L o). lia. }
  intros [(fl & h & Ef & Ho & Hf)|[Ht|(u & l & Ht & Hl)]].
  - pose proof (msum_ge (file_handles o) (files g) f fl (file_handles_nonneg o) Ef) as Hw.
    unfold file_handles in Hw at 1. rewrite Ho in Hw.
    assert (0 < occ o (idr_entries (object_idr fl)).*2).
    { apply occ_pos, list_elem_of_fmap. exists (h, o). split; [done|]. by apply entries_find. }
    pose proof (lsumH_nonneg o L). unfold handles. lia.
  - apply (Htok _ Ht). cbn. rewrite b2z_eqb_refl. lia.
  - apply (Htok _ Ht). cbn. by apply occ_pos.
Qed.

Section facts.
Context (g : gem) (L : list tok) (C : counts g L).

Lemma live_obj o : 0 < handles g L o + refs g L o -> exists x, objs g !! o = Some x.
Proof.
  intros Hp. pose proof (c_rc _ _ C o) as E. unfold rc in E. destruct (objs g !! o) as [x|]; [by exists x|]. cbn in E. lia.
Qed.

Lemma live_buf b : 0 < buf_refs g L b -> exists y, bufs g !! b = Some y.
Proof.
  intros Hp. pose proof (c_bc _ _ C b) as E. unfold bc in E. destruct (bufs g !! b) as [y|]; [by exists y|]. cbn in E. lia.
Qed.

Lemma obj_counts o x : objs g !! o = Some x -> handle_count x = handles g L o /\ refcount x = handles g L o + refs g L o.
Proof.
  intros E. pose proof (c_hc _ _ C o) as E1. pose proof (c_rc _ _ C o) as E2. unfold hc, rc in *. by rewrite E in E1, E2.
Qed.

Lemma buf_count b y : bufs g !! b = Some y -> b_count y = buf_refs g L b.
Proof. intros E. pose proof (c_bc _ _ C b) as E1. unfold bc in *. by rewrite E in E1. Qed.

Lemma live_tokR o t : t ∈ L -> 0 < tokR o t -> exists x, objs g !! o = Some x.
Proof.
  intros Ht Hw. apply live_obj. pose proof (lsum_ge (tokR o) L t (tokR_nonneg o) Ht). pose proof (refs_tok g L o).
  pose proof (handles_nonneg g L o). lia.
Qed.

Lemma live_tokH o t : t ∈ L -> 0 < tokH o t -> exists x, objs g !! o = Some x /\ 0 < handle_count x.
Proof.
  intros Ht Hw. pose proof (lsum_ge (tokH o) L t (tokH_nonneg o) Ht). pose proof (handles_tok g L o).
  pose proof (refs_nonneg g L o). destruct (live_obj o) as [x E]; [lia|]. exists x. split; [done|].
  destruct (obj_counts o x E) as [-> _]. lia.
Qed.

Lemma live_TRef o : TRef o ∈ L -> exists x, objs g !! o = Some x.
Proof. intros Ht. apply (live_tokR o _ Ht). cbn. rewrite Z.eqb_refl. cbn. lia. Qed.

Lemma live_TBuf b : TBuf b ∈ L -> exists y, bufs g !! b = Some y.
Proof.
  intros Ht. apply live_buf. pose proof (lsum_ge (tokB b) L _ (tokB_nonneg b) Ht) as Hw. cbn in Hw.
  rewrite Z.eqb_refl in Hw. cbn in Hw. pose proof (buf_refs_tok g L b). lia.
Qed.

Lemma live_priv b y o : bufs g !! b = Some y -> b_priv y = Some o -> exists x, objs g !! o = Some x.
Proof.
  intros E Hy. apply live_obj. pose proof (msum_ge (fun y => obuf o (b_priv y)) (bufs g) b y (fun _ => obuf_nonneg _ _) E) as Hw.
  cbn beta in Hw. rewrite Hy, obuf_same in Hw. pose proof (handles_nonneg g L o). pose proof (occ_nonneg o (released g)). unfold refs.
  pose proof (msum_nonneg (fun o' => b2z (o =? o')) (vmas g) (fun _ => b2z_nonneg _)). pose proof (lsumR_nonneg o L). lia.
Qed.

Lemma live_vma v o : vmas g !! v = Some o -> exists x, objs g !! o = Some x.
Proof.
  intros E. apply live_obj. pose proof (msum_ge (fun o' => b2z (o =? o')) (vmas g) v o (fun _ => b2z_nonneg _) E) as Hw.
  cbn beta in Hw. rewrite b2z_eqb_refl in Hw. pose proof (handles_nonneg g L o). pose proof (occ_nonneg o (released g)). unfold refs.
  pose proof (msum_nonneg (fun y => obuf o (b_priv y)) (bufs g) (fun _ => obuf_nonneg _ _)). pose proof (lsumR_nonneg o L). lia.
Qed.

Lemma present_live f o : present g L f o -> exists x, objs g !! o = Some x /\ 0 < handle_count x.
Proof.
  intros Hp%present_handles. pose proof (refs_nonneg g L o). destruct (live_obj o) as [x E]; [lia|].
  exists x. split; [done|]. destruct (obj_counts o x E) as [-> _]. lia.
Qed.

Lemma present_hot f o : present g L f o -> hot g L o.
Proof. intros (x & E & Hx)%present_live. left. unfold hc. by rewrite E. Qed.

(** A file in use is open. *)
Lemma use_open f t : t ∈ L -> 0 < tokU f t -> exists fl, files g !! f = Some fl /\ f_open fl = true.
Proof.
  intros Ht Hu. pose proof (lsum_ge (tokU f) L _ (tokU_nonneg f) Ht) as Hw.
  pose proof (c_uc _ _ C f) as E. unfold uc in E. destruct (files g !! f) as [fl|] eqn:Ef; cbn in E; [|lia].
  exists fl. split; [done|]. destruct (f_open fl) eqn:Ho; [done|]. pose proof (c_closed _ _ C f fl Ef Ho). lia.
Qed.
End facts.
End inv.
