(* ===== verification/DrmGemMoves.v ===== *)
(** * GEM and PRIME: moves of references

    The steps of the operations as moves of tokens that keep the invariant of
    [DrmGemInv]: references and handles taken and dropped, an object or a dma-buf
    freed with its last reference, handles entered in and removed from a table,
    caches and lists filled and emptied. *)

From S2P Require Import Prelude Counting Idr DrmMm DrmVma DrmVmaProps DrmGem DrmPrime DrmGemInv.

Section moves.
Context {S : Type} {RA : range_alloc S} {RAok : range_alloc_ok S RA} {RB : rbtree} {RBok : rbtree_ok RB}.
Context `{idr_ops} `{!idr_laws} {GH : gem_h S} {GHok : gem_h_ok GH}.
Local Notation gem := (gem S).
Implicit Types (g : gem) (L : list tok) (o b f q : Z).

(** Weighs both cases of [q] being [o]. *)
Ltac tally q o := destruct (decide (q = o)) as [->|?]; cbn; weigh; lia.

(** ** Moves that keep all links *)

(** The counts of an object change with the tokens. *)
Lemma counts_obj g L L' o x x' :
  counts g L -> objs g !! o = Some x -> skel x' = skel x ->
  (forall q, lsum (tokH q) L' = lsum (tokH q) L + b2z (q =? o) * (handle_count x' - handle_count x)) ->
  (forall q, lsum (tokH q) L' + lsum (tokR q) L' =
             lsum (tokH q) L + lsum (tokR q) L + b2z (q =? o) * (refcount x' - refcount x)) ->
  (forall q, lsum (tokB q) L' = lsum (tokB q) L) -> (forall q, lsum (tokU q) L' = lsum (tokU q) L) ->
  0 < refcount x' -> counts (store_obj o x' g) L'.
Proof.
  intros C E Es HH HR HB HU Hx. injection Es as S1 S2 S3 S4. split.
  - intros q. pose proof (c_hc _ _ C q) as Eq. unfold hc, handles in *. cbn. rewrite HH.
    destruct (decide (q = o)) as [->|Hq].
    + rewrite lookup_insert_eq. rewrite E in Eq. cbn in *. weigh. lia.
    + rewrite lookup_insert_ne by done. weigh. lia.
  - intros q. pose proof (c_rc _ _ C q) as Eq. pose proof (HR q) as Rq. unfold rc, handles, refs in *. cbn.
    destruct (decide (q = o)) as [->|Hq].
    + rewrite lookup_insert_eq. rewrite E in Eq. cbn in *. rewrite b2z_eqb_refl in Rq. lia.
    + rewrite lookup_insert_ne by done. rewrite b2z_eqb_ne in Rq by done. lia.
  - intros q y. cbn. intros [[<- <-]|[Hq Ey]]%lookup_insert_Some; [done|]. by apply (c_live _ _ C q).
  - intros q. pose proof (c_bc _ _ C q) as Eq. unfold bc, buf_refs in *. cbn. rewrite HB, msum_insert, E. cbn.
    rewrite S2, S3. lia.
  - apply (c_blive _ _ C).
  - intros q. rewrite HU. apply (c_uc _ _ C).
  - apply (c_closed _ _ C).
Qed.

Lemma skel_insert g o x x' q : objs g !! o = Some x -> skel x' = skel x ->
  skel <$> <[o := x']> (objs g) !! q = skel <$> objs g !! q.
Proof.
  intros E Es. destruct (decide (q = o)) as [->|Hq]; [|by rewrite lookup_insert_ne].
  rewrite lookup_insert_eq, E. cbn. congruence.
Qed.

Lemma move_obj g L L' o x x' :
  inv g L -> objs g !! o = Some x -> skel x' = skel x -> (0 < handle_count x' <-> 0 < handle_count x) ->
  (forall q, lsum (tokH q) L' = lsum (tokH q) L + b2z (q =? o) * (handle_count x' - handle_count x)) ->
  (forall q, lsum (tokH q) L' + lsum (tokR q) L' =
             lsum (tokH q) L + lsum (tokR q) L + b2z (q =? o) * (refcount x' - refcount x)) ->
  (forall q, lsum (tokB q) L' = lsum (tokB q) L) -> (forall q, lsum (tokU q) L' = lsum (tokU q) L) ->
  0 < refcount x' -> aux L' ≡ₚ aux L -> inv (store_obj o x' g) L'.
Proof.
  intros [C K] E Es Hh HH HR HB HU Hx Ha. split; [by apply (counts_obj g L L' o x)|].
  apply (links_ext g _ L L'); [|done]. split; try done; cbn.
  - intros q. by apply (skel_insert g o x).
  - intros q. unfold hc. cbn. destruct (decide (q = o)) as [->|Hq]; [|by rewrite lookup_insert_ne].
    by rewrite lookup_insert_eq, E.
Qed.

Lemma ref_move g L o x : inv g L -> objs g !! o = Some x ->
  inv (store_obj o (set_refcount (refcount x + 1) x) g) (TRef o :: L).
Proof.
  intros Hi E. pose proof (c_live _ _ (proj1 Hi) o x E).
  apply (move_obj g L _ o x); try done; cbn; [intros; lia|intros q; tally q o|lia].
Qed.

Lemma reference_ok g L o x : inv g L -> objs g !! o = Some x ->
  exists g', drm_gem_object_reference o g = Done g' /\ inv g' (TRef o :: L).
Proof. intros Hi E. eexists. split; [unfold drm_gem_object_reference; by rewrite E|]. by apply ref_move. Qed.

Lemma unref_move g L o x : inv g (TRef o :: L) -> objs g !! o = Some x -> refcount x <> 1 ->
  inv (store_obj o (set_refcount (refcount x - 1) x) g) L.
Proof.
  intros Hi E Hn. pose proof (c_live _ _ (proj1 Hi) o x E).
  apply (move_obj g (TRef o :: L) _ o x); try done; cbn; [intros; lia|intros q; tally q o|lia].
Qed.

(** Fields that the invariant does not mention. *)
Lemma field_move g L o x x' : inv g L -> objs g !! o = Some x -> skel x' = skel x ->
  handle_count x' = handle_count x -> refcount x' = refcount x -> inv (store_obj o x' g) L.
Proof.
  intros Hi E Es Eh Er. pose proof (c_live _ _ (proj1 Hi) o x E).
  apply (move_obj g L _ o x); try done; [by rewrite Eh|intros; lia..].
Qed.

(** The count of a dma-buf changes with the tokens. *)
Lemma move_buf g L L' b y c :
  inv g L -> bufs g !! b = Some y ->
  (forall q, lsum (tokB q) L' = lsum (tokB q) L + b2z (q =? b) * (c - b_count y)) ->
  (forall q, lsum (tokH q) L' = lsum (tokH q) L) -> (forall q, lsum (tokR q) L' = lsum (tokR q) L) ->
  (forall q, lsum (tokU q) L' = lsum (tokU q) L) -> 0 < c -> aux L' ≡ₚ aux L ->
  inv (store_buf b (set_b_count c y) g) L'.
Proof.
  intros [C K] E HB HH HR HU Hc Ha. split.
  - split.
    + intros q. pose proof (c_hc _ _ C q). unfold hc, handles in *. cbn. by rewrite HH.
    + intros q. pose proof (c_rc _ _ C q) as Eq. unfold rc, handles, refs in *. cbn. rewrite HH, HR, msum_insert, E. cbn. lia.
    + apply (c_live _ _ C).
    + intros q. pose proof (c_bc _ _ C q) as Eq. unfold bc, buf_refs in *. cbn. rewrite HB.
      destruct (decide (q = b)) as [->|Hq].
      * rewrite lookup_insert_eq. rewrite E in Eq. cbn in *. weigh. lia.
      * rewrite lookup_insert_ne by done. weigh. lia.
    + intros q z. cbn. intros [[<- <-]|[Hq Ey]]%lookup_insert_Some; [done|]. by apply (c_blive _ _ C q).
    + intros q. rewrite HU. apply (c_uc _ _ C).
    + apply (c_closed _ _ C).
  - apply (links_ext g _ L L'); [|done]. split; try done; cbn. intros q.
    destruct (decide (q = b)) as [->|Hq]; [|by rewrite lookup_insert_ne]. by rewrite lookup_insert_eq, E.
Qed.

Lemma get_ok g L b y : inv g L -> bufs g !! b = Some y ->
  exists g', get_dma_buf b g = Done g' /\ inv g' (TBuf b :: L).
Proof.
  intros Hi E. pose proof (c_blive _ _ (proj1 Hi) b y E). eexists. split; [unfold get_dma_buf; by rewrite E|].
  apply (move_buf g L); try done; [intros q; tally q b|lia].
Qed.

Lemma put_move g L b y : inv g (TBuf b :: L) -> bufs g !! b = Some y -> b_count y <> 1 ->
  inv (store_buf b (set_b_count (b_count y - 1) y) g) L.
Proof.
  intros Hi E Hn. pose proof (c_blive _ _ (proj1 Hi) b y E). apply (move_buf g (TBuf b :: L)); try done; [intros q; tally q b|lia].
Qed.

(** ** The last reference *)
Definition import_tok (x : drm_gem_object) : list tok :=
  match import_attach x with Some b => [TBuf b] | None => [] end.

Lemma last_ref g L o x : inv g (TRef o :: L) -> objs g !! o = Some x -> refcount x = 1 ->
  handles g L o = 0 /\ refs g L o = 0 /\ ~ hot g (TRef o :: L) o /\ obj_name x = 0 /\ dma_buf x = None.
Proof.
  intros [C K] E Hr. destruct (obj_counts _ _ C o x E) as [Eh Er]. unfold handles, refs in Eh, Er. cbn in Eh, Er.
  rewrite b2z_eqb_refl in Er. pose proof (handles_nonneg g L o) as H1. pose proof (refs_nonneg g L o) as H2.
  unfold handles, refs in H1, H2. assert (handles g L o = 0 /\ refs g L o = 0) as [Z1 Z2] by (unfold handles, refs; lia).
  assert (~ hot g (TRef o :: L) o) as Hn.
  { intros [Hc|Ht].
    - unfold hc in Hc. rewrite E in Hc. cbn in Hc. unfold handles in Z1. lia.
    - destruct Ht as [v Ht]. apply elem_of_cons in Ht as [|Ht]; [done|]. pose proof (lsum_ge (tokR o) L _ (tokR_nonneg o) Ht) as Hw.
      cbn in Hw. rewrite b2z_eqb_refl in Hw. pose proof (refs_tok g L o). lia. }
  split_and!; [done..| |].
  - destruct (decide (obj_name x = 0)) as [|Hx]; [done|]. by destruct Hn; apply (l_named _ _ K o x).
  - destruct (dma_buf x) as [b|] eqn:Eb; [|done]. by destruct Hn; apply (l_cache _ _ K o x b).
Qed.

Lemma node_of_of n o : Z.of_nat n = o -> n = node_of o.
Proof. unfold node_of. lia. Qed.

Lemma del_obj_counts g L o x m : inv g (TRef o :: L) -> objs g !! o = Some x -> refcount x = 1 ->
  counts (set_mgr m (set_objs (delete o (objs g)) g)) (import_tok x ++ L).
Proof.
  intros Hi E Hr. destruct (last_ref g L o x Hi E Hr) as (Zh & Zr & _ & _ & Ed). destruct Hi as [C K].
  assert (forall q, lsum (tokH q) (import_tok x ++ L) = lsum (tokH q) L /\ lsum (tokR q) (import_tok x ++ L) = lsum (tokR q) L /\
    lsum (tokU q) (import_tok x ++ L) = lsum (tokU q) L /\
    lsum (tokB q) (import_tok x ++ L) = obuf q (import_attach x) + lsum (tokB q) L) as HL.
  { intros q. unfold import_tok. destruct (import_attach x); cbn; split_and!; lia. }
  split; cbn.
  - intros q. destruct (HL q) as (E1 & _). pose proof (c_hc _ _ C q) as Eq. unfold hc, handles in *. cbn in *. rewrite E1.
    destruct (decide (q = o)) as [->|Hq]; [rewrite lookup_delete_eq; cbn; lia|]. by rewrite lookup_delete_ne.
  - intros q. destruct (HL q) as (E1 & E2 & _). pose proof (c_rc _ _ C q) as Eq. unfold rc, handles, refs in *. cbn in *.
    rewrite E1, E2. destruct (decide (q = o)) as [->|Hq]; [rewrite lookup_delete_eq; cbn; lia|].
    rewrite lookup_delete_ne by done. rewrite b2z_eqb_ne in Eq by done. lia.
  - intros q y [_ Ey]%lookup_delete_Some. by apply (c_live _ _ C q).
  - intros q. destruct (HL q) as (_ & _ & _ & E4). pose proof (c_bc _ _ C q) as Eq. unfold bc, buf_refs in *. cbn in *.
    rewrite E4, msum_delete, E. cbn. rewrite Ed. cbn. lia.
  - apply (c_blive _ _ C).
  - intros q. destruct (HL q) as (_ & _ & -> & _). apply (c_uc _ _ C).
  - apply (c_closed _ _ C).
Qed.

Lemma del_obj_move g L o x m : inv g (TRef o :: L) -> objs g !! o = Some x -> refcount x = 1 ->
  mgr_ok DRM_FILE_PAGE_OFFSET_START (DRM_FILE_PAGE_OFFSET_START + DRM_FILE_PAGE_OFFSET_SIZE) m ->
  vma_abs m = delete (node_of o) (vma_abs (vma_offset_manager g)) ->
  inv (set_mgr m (set_objs (delete o (objs g)) g)) (import_tok x ++ L).
Proof.
  intros Hi E Hr Hm Hv. split; [by apply del_obj_counts|].
  destruct (last_ref g L o x Hi E Hr) as (Zh & Zr & Hnh & En & Ed). destruct Hi as [C K].
  apply (links_ext (set_mgr m (set_objs (delete o (objs g)) g)) _ L).
  { split; try done. unfold import_tok. by destruct (import_attach x). }
  assert (links g L) as K0 by (by apply (links_ext g g (TRef o :: L))).
  assert (~ hot g L o) as Hn by (intros [?|[v ?]]; apply Hnh; [by left|right; exists v; apply elem_of_cons; by right]).
  set (g' := set_mgr m (set_objs (delete o (objs g)) g)) in *.
  assert (forall q, hot g' L q <-> hot g L q) as Hh.
  { intros q. unfold hot, hc. cbn. destruct (decide (q = o)) as [->|Hq]; [|by rewrite lookup_delete_ne].
    rewrite lookup_delete_eq. cbn. split; [intros [?|?]; [lia|by right]|by intros ?%Hn]. }
  assert (forall q y, objs g' !! q = Some y <-> q <> o /\ objs g !! q = Some y) as Ho.
  { intros q y. cbn. rewrite lookup_delete_Some. naive_solver. }
  split.
  - intros q y [_ Ey]%Ho. by apply (l_pos _ _ K0 q y).
  - intros n q. change (object_name_idr g') with (object_name_idr g). rewrite (l_name _ _ K0). setoid_rewrite Ho. split; [|naive_solver].
    intros (Hn0 & y & Ey & Hy). split; [done|]. exists y. split_and!; [|done..]. intros ->. naive_solver congruence.
  - intros q y [_ Ey]%Ho Hy. apply Hh. by apply (l_named _ _ K0 q y).
  - intros q y b [_ Ey]%Ho Hy. apply Hh. by apply (l_cache _ _ K0 q y b).
  - intros q y b [_ Ey]%Ho Hy. rewrite Hh. by apply (l_import _ _ K0 q y b).
  - intros b y q Ey Hy Hq%Hh. destruct (l_priv _ _ K0 b y q Ey Hy Hq) as (z & Ez & Hz). exists z. split; [|done].
    apply Ho. split; [|done]. by intros ->.
  - apply (l_priv1 _ _ K0).
  - intros b y q z Ey Hy [_ Ez]%Ho. by apply (l_export _ _ K0 b y q).
  - apply (l_foreign _ _ K0).
  - intros f fl b h Ef Hin. destruct (l_member _ _ K0 f fl b h Ef Hin) as (q & y & Ey & Hy & Hp).
    exists q, y. split_and!; [|done..]. apply Ho. split; [|done]. intros ->. naive_solver congruence.
  - intros q Ht. destruct (l_new _ _ K0 q Ht) as (y & Ey & Hq & Hy & Hb). exists y.
    split_and!; [|by rewrite Hh|done..]. apply Ho. split; [|done]. intros ->.
    pose proof (lsum_ge (tokR o) L _ (tokR_nonneg o) Ht) as Hw. cbn in Hw. rewrite b2z_eqb_refl in Hw.
    pose proof (refs_tok g L o). lia.
  - apply (l_new1 _ _ K0).
  - apply (l_own _ _ K0).
  - apply (l_own1 _ _ K0).
  - intros f q v Ht. destruct (l_prime _ _ K0 f q v Ht) as (y & Ey & Hp & Hy). exists y. split_and!; [|done..].
    apply Ho. split; [|done]. intros ->. apply Hnh. destruct Hp as [Hp|[Hp|(u & l & Hp & Hl)]];
      apply (present_hot _ _ C f); [by left|right; left; apply elem_of_cons; by right|].
    right. right. exists u, l. split; [apply elem_of_cons; by right|done].
  - apply (l_prime1 _ _ K0).
  - intros q v Ht. destruct (l_naming _ _ K0 q v Ht) as (y & Ey & Hy). exists y. split; [|done]. apply Ho. split; [|done].
    intros ->. apply Hn. right. by exists v.
  - apply (l_name1 _ _ K0).
  - destruct (l_offsets _ _ K0) as [_ Hl]. split; [done|]. change (vma_offset_manager g') with m. rewrite Hv.
    intros n [r [Hne Er]%lookup_delete_Some]. destruct (Hl n) as [y Ey]; [by exists r|]. exists y. apply Ho.
    split; [|done]. intros Heq%node_of_of. done.
Qed.

Lemma last_buf_ref g L b y : inv g (TBuf b :: L) -> bufs g !! b = Some y -> b_count y = 1 -> buf_refs g L b = 0.
Proof.
  intros [C _] E Hr. pose proof (buf_count _ _ C b y E) as Eb. unfold buf_refs in *. cbn in Eb.
  rewrite b2z_eqb_refl in Eb. lia.
Qed.

Lemma occ_option q (v : option Z) l : occ q (option_list v ++ l) = obuf q v + occ q l.
Proof. by destruct v. Qed.

(** The state after the last put of a dma-buf. *)
Definition unbuf b (y : dmabuf) g : gem :=
  set_released (option_list (b_priv y) ++ released g) (set_bufs (delete b (bufs g)) g).

Lemma del_buf_move g L b y : inv g (TBuf b :: L) -> bufs g !! b = Some y -> b_count y = 1 -> inv (unbuf b y g) L.
Proof.
  intros Hi E Hr. pose proof (last_buf_ref g L b y Hi E Hr) as Zb. destruct Hi as [C K].
  split; [split; cbn|].
  - apply (c_hc _ _ C).
  - intros q. pose proof (c_rc _ _ C q) as Eq. unfold rc, handles, refs in *. cbn [objs files bufs vmas released unbuf set_released set_bufs].
    rewrite occ_option, msum_delete, E. cbn in *. lia.
  - apply (c_live _ _ C).
  - intros q. pose proof (c_bc _ _ C q) as Eq. unfold bc, buf_refs in *. cbn in *.
    destruct (decide (q = b)) as [->|Hq]; [rewrite lookup_delete_eq; cbn; lia|].
    rewrite lookup_delete_ne by done. rewrite b2z_eqb_ne in Eq by done. lia.
  - intros q z [_ Ez]%lookup_delete_Some. by apply (c_blive _ _ C q).
  - apply (c_uc _ _ C).
  - apply (c_closed _ _ C).
  - assert (links g L) as K0 by (by apply (links_ext g g (TBuf b :: L))).
    split; try (by destruct K0); cbn.
    + intros o x c Ex Hx. destruct (l_import _ _ K0 o x c Ex Hx) as (Hv & (z & Ez & Hz) & Hh). split_and!; [done| |done].
      exists z. split; [|done]. rewrite lookup_delete_ne; [done|]. intros ->.
      pose proof (msum_ge (fun x => obuf c (dma_buf x) + obuf c (import_attach x)) (objs g) o x) as Hw. cbn beta in Hw.
      rewrite Hx, obuf_same in Hw. unfold buf_refs in Zb. pose proof (obuf_nonneg c (dma_buf x)).
      pose proof (buf_refs_parts g L c). specialize (Hw (obufs_nonneg c) Ex). lia.
    + intros c z o [_ Ez]%lookup_delete_Some. by apply (l_priv _ _ K0 c z).
    + intros c z d w o [_ Ez]%lookup_delete_Some [_ Ew]%lookup_delete_Some. by apply (l_priv1 _ _ K0 c z d w).
    + intros c z o x [_ Ez]%lookup_delete_Some. by apply (l_export _ _ K0 c z).
    + intros c z [_ Ez]%lookup_delete_Some. by apply (l_foreign _ _ K0 c z).
    + intros o Ht. destruct (l_new _ _ K0 o Ht) as (x & Ex & Hh & Hx & Hb). exists x. split_and!; [done..|].
      intros c z [_ Ez]%lookup_delete_Some. by apply (Hb c).
Qed.

(** A put changes the dma-bufs and the releases that are due. *)
Lemma put_step g L b : inv g (TBuf b :: L) ->
  exists m l, (forall g0, bufs g0 = bufs g -> released g0 = released g -> dma_buf_put b g0 = Done (set_released l (set_bufs m g0))) /\
    inv (set_released l (set_bufs m g)) L.
Proof.
  intros Hi. destruct (live_TBuf _ _ (proj1 Hi) b) as [y E]; [apply elem_of_cons; by left|].
  destruct (Z.eqb_spec (b_count y - 1) 0) as [Hc|Hc].
  - exists (delete b (bufs g)), (option_list (b_priv y) ++ released g). split; [|apply (del_buf_move g L b y Hi E); lia].
    intros g0 E0 R0. unfold dma_buf_put. rewrite E0, E, R0. mred. by rewrite (proj2 (Z.eqb_eq _ _) Hc).
  - exists (<[b := set_b_count (b_count y - 1) y]> (bufs g)), (released g). split.
    + intros g0 E0 R0. unfold dma_buf_put. rewrite E0, E. mred. rewrite (proj2 (Z.eqb_neq _ _) Hc). unfold store_buf.
      rewrite <- R0, E0. by destruct g0.
    + pose proof (put_move g L b y Hi E ltac:(lia)) as Hm. by destruct g.
Qed.

Lemma put_ok g L b : inv g (TBuf b :: L) -> exists g', dma_buf_put b g = Done g' /\ inv g' L.
Proof. intros (m & l & Hput & Hi)%put_step. eexists. split; [by apply Hput|done]. Qed.

Lemma unref_ok g L o : inv g (TRef o :: L) -> exists g', drm_gem_object_unreference o g = Done g' /\ inv g' L.
Proof.
  intros Hi. destruct (live_TRef _ _ (proj1 Hi) o) as [x E]; [apply elem_of_cons; by left|].
  unfold drm_gem_object_unreference. rewrite E. mred. destruct (Z.eqb_spec (refcount x - 1) 0) as [Hr|Hr].
  2:{ eexists. split; [done|]. apply (unref_move g L o x); [done..|lia]. }
  pose proof (l_pos _ _ (proj2 Hi) o x E) as Hpos. destruct (l_offsets _ _ (proj2 Hi)) as [Hm _].
  destruct (vma_remove_ok _ _ _ (node_of o) Hm) as (m & Em & Hm' & Hv); [unfold node_of, HEAD; lia|].
  pose proof (del_obj_move g L o x m Hi E ltac:(lia) Hm' Hv) as Hd. unfold import_tok in Hd.
  unfold drm_gem_object_free, drm_gem_cma_free_object, drm_gem_object_release, drm_gem_free_mmap_offset.
  cbn [objs store_obj set_objs]. rewrite lookup_insert_eq. mred. cbn [vaddr set_refcount import_attach].
  destruct (import_attach x) as [b|] eqn:Eb.
  - destruct (l_import _ _ (proj2 Hi) o x b E Eb) as (-> & _). destruct (put_step _ L b Hd) as (m' & l & Hput & Hi').
    unfold drm_prime_gem_destroy. cbn [objs store_obj set_objs]. rewrite lookup_insert_eq. mred. cbn [import_attach set_refcount].
    rewrite Eb, Hput by done. cbn [vma_offset_manager set_released set_bufs store_obj set_objs]. rewrite Em.
    eexists. split; [done|]. cbn [objs set_objs store_obj set_bufs set_mgr set_released app] in *. by rewrite delete_insert_eq.
  - replace (if vaddr x then _ else _) with (Done (store_obj o (set_refcount (refcount x - 1) x) g)) by (by destruct (vaddr x)).
    cbn [vma_offset_manager store_obj set_objs]. rewrite Em.
    eexists. split; [done|]. cbn [objs set_objs store_obj set_bufs set_mgr app] in *. by rewrite delete_insert_eq.
Qed.

(** The release of a dma-buf starts. *)
Lemma take_one_occ o q l l' : take_one o l = Some l' -> occ q l = b2z (q =? o) + occ q l'.
Proof.
  revert l'. induction l as [|a l IH]; intros l'; [done|]. cbn [take_one]. destruct (Z.eqb_spec a o) as [->|Hn]; [intros [= <-]; apply occ_cons|].
  destruct (take_one o l) as [l1|]; [|done]. intros [= <-]. rewrite !occ_cons, (IH l1) by done. lia.
Qed.

Lemma release_start_move g L o l : inv g L -> take_one o (released g) = Some l -> inv (set_released l g) (TRef o :: L).
Proof.
  intros [C K] Hl. split.
  - destruct C as [C1 C2 C3 C4 C5 C6 C7]. split; try done. intros q. specialize (C2 q). unfold rc, handles, refs in *. cbn.
    pose proof (take_one_occ o q _ _ Hl). lia.
  - by apply (links_ext g _ L).
Qed.

End moves.
