(* ===== verification/DrmGemHandles.v ===== *)
(** * GEM and PRIME: moves of handles, names and locks

    The steps that change which handles, names and locks there are, as moves of
    tokens that keep the invariant of [DrmGemInv]. *)

From S2P Require Import Prelude Counting Idr DrmMm DrmVma DrmVmaProps DrmGem DrmPrime DrmGemInv DrmGemMoves.

(** Whether a token is in a list of known and unknown tokens. *)
Ltac toks :=
  intros; repeat setoid_rewrite elem_of_cons;
  repeat match goal with Ht : context [_ ∈ _ :: _] |- _ => setoid_rewrite elem_of_cons in Ht end; naive_solver.

(** Weighs tokens of both cases of [q] being [o]. *)
Ltac tally q o := destruct (decide (q = o)) as [->|?]; cbn; weigh; lia.

(** At most one token of a kind, from the same fact before the step. *)
Ltac one Hl :=
  let Ho := fresh "Hone" in pose proof Hl as Ho; unfold atmost1 in Ho |- *; cbn in Ho |- *;
  try match type of Ho with context [b2z ?b + _] => pose proof (b2z_nonneg b) end; lia.
Ltac ones K :=
  try (intros ?; match goal with
  | |- atmost1 (is_new ?o) _ => one (l_new1 _ _ K o)
  | |- atmost1 (is_own ?f) _ => one (l_own1 _ _ K f)
  | |- atmost1 (is_prime ?f) _ => one (l_prime1 _ _ K f)
  end);
  try (match goal with |- atmost1 is_name _ => one (l_name1 _ _ K) end).

Section handles.
Context {S : Type} {RA : range_alloc S} {RAok : range_alloc_ok S RA} {RB : rbtree} {RBok : rbtree_ok RB}.
Context `{idr_ops} `{!idr_laws} {GH : gem_h S} {GHok : gem_h_ok GH}.
Local Notation gem := (gem S).
Implicit Types (g : gem) (L : list tok) (o b f q : Z).

(** Only tokens change. *)
Lemma counts_ext_toks g L L' :
  counts g L -> (forall q, lsum (tokH q) L' = lsum (tokH q) L) -> (forall q, lsum (tokR q) L' = lsum (tokR q) L) ->
  (forall q, lsum (tokB q) L' = lsum (tokB q) L) -> (forall q, lsum (tokU q) L' = lsum (tokU q) L) -> counts g L'.
Proof.
  intros [C1 C2 C3 C4 C5 C6 C7] EH ER EB EU. split; try done; unfold handles, refs, buf_refs in *.
  - intros q. by rewrite EH.
  - intros q. by rewrite EH, ER.
  - intros q. by rewrite EB.
  - intros q. by rewrite EU.
Qed.

(** The files do not change. *)
Lemma relink_toks g g' L L' :
  links g L ->
  (forall o, skel <$> objs g' !! o = skel <$> objs g !! o) ->
  (forall b, bskel <$> bufs g' !! b = bskel <$> bufs g !! b) -> files g' = files g ->
  object_name_idr g' = object_name_idr g -> vma_offset_manager g' = vma_offset_manager g ->
  (forall o, hot g L o -> hot g' L' o) ->
  (forall o, hot g' L' o -> hot g L o \/
    (TNew o ∉ L' /\ (forall x, objs g' !! o = Some x -> import_attach x = None) /\
     (forall b y, bufs g' !! b = Some y -> b_priv y <> Some o))) ->
  (forall f o, TPend f o ∈ L' <-> TPend f o ∈ L) -> (forall f u l, TOwn f u l ∈ L' <-> TOwn f u l ∈ L) ->
  (forall o, TNew o ∈ L' -> TNew o ∈ L) ->
  (forall f o v, TPrime f (Some (o, v)) ∈ L' -> TPrime f (Some (o, v)) ∈ L \/
    exists x, objs g' !! o = Some x /\ present g L f o /\ (forall b, v = Some b -> dma_buf x = Some b)) ->
  (forall o v, TName (Some (o, v)) ∈ L' -> TName (Some (o, v)) ∈ L \/
    exists x, objs g' !! o = Some x /\ (forall b, v = Some b -> dma_buf x = Some b)) ->
  (forall o, atmost1 (is_new o) L') -> (forall f, atmost1 (is_own f) L') -> (forall f, atmost1 (is_prime f) L') ->
  atmost1 is_name L' -> links g' L'.
Proof.
  intros K So Sb Ef En Em Hh Hc Tp To Tn Tm Tw N1 N2 N3 N4. apply (links_relink g g' L L'); [|done].
  assert (forall f o, present g L f o -> present g' L' f o) as Hp.
  { intros f o. unfold present. rewrite Ef, Tp. setoid_rewrite To. done. }
  split; try done.
  - intros f fl b h. rewrite Ef. left. by exists fl.
  - intros f u l Ht%To. rewrite Ef. by apply (l_own _ _ K f u l).
  - intros f o v Ht%Tm. naive_solver.
Qed.

(** ** Locks *)
Lemma name_lock_move g L : inv g L -> (forall s, TName s ∉ L) -> inv g (TName None :: L).
Proof.
  intros [C K] Hn. split; [by destruct C|].
  assert (lsum (fun t => b2z (is_name t)) L = 0) as Z by (apply lsum_zero; intros [] Ht; try done; by destruct (Hn s)).
  apply (relink_toks g g L); try done; unfold hot; try (by toks); ones K.
Qed.

Lemma name_unlock_move g L : inv g (TName None :: L) -> inv g L.
Proof.
  intros [C K]. split; [by destruct C|].
  apply (relink_toks g g (TName None :: L)); try done; unfold hot; try (by toks); ones K.
Qed.

Lemma prime_lock_move g L f : inv g L -> (forall s, TPrime f s ∉ L) -> inv g (TPrime f None :: L).
Proof.
  intros [C K] Hn. split; [by destruct C|].
  assert (lsum (fun t => b2z (is_prime f t)) L = 0) as Z.
  { apply lsum_zero. intros [] Ht; try done. cbn. destruct (Z.eqb_spec f f0) as [<-|]; [by destruct (Hn s)|done]. }
  apply (relink_toks g g L); try done; unfold hot; try (by toks); ones K.
  intros q. pose proof (l_prime1 _ _ K q) as Hq. unfold atmost1 in *. tally q f.
Qed.

Lemma prime_unlock_move g L f s : inv g (TPrime f s :: L) -> inv g L.
Proof.
  intros [C K]. split; [by destruct C|].
  apply (relink_toks g g (TPrime f s :: L)); try done; unfold hot; try (by toks); ones K.
Qed.

(** An object that the file has is remembered with the lock. *)
Lemma prime_see_move g L f s o x v : inv g (TPrime f s :: L) -> objs g !! o = Some x -> present g (TPrime f s :: L) f o ->
  (forall b, v = Some b -> dma_buf x = Some b) -> inv g (TPrime f (Some (o, v)) :: L).
Proof.
  intros [C K] E Hp Hv. split; [by destruct C|].
  apply (relink_toks g g (TPrime f s :: L)); try done; unfold hot; try (by toks); ones K.
Qed.

(** ** Handles *)

(** [object_name_lock] is held for an object that has a handle, or that is new. *)
Lemma name_hot_move g L o x v : inv g (TName None :: TRef o :: L) -> objs g !! o = Some x ->
  hot g (TName None :: TRef o :: L) o -> (forall b, v = Some b -> dma_buf x = Some b) -> inv g (TName (Some (o, v)) :: L).
Proof.
  intros [C K] E Ho Hv. unfold hot in Ho. split; [by destruct C|].
  apply (relink_toks g g (TName None :: TRef o :: L)); try done; unfold hot; try (by toks); ones K.
Qed.

Lemma name_new_move g L o : inv g (TName None :: TNew o :: L) -> inv g (TName (Some (o, None)) :: L).
Proof.
  intros [C K]. destruct (l_new _ _ K o) as (x & E & Hc & Hi & Hb); [toks|]. split; [by destruct C|].
  apply (relink_toks g g (TName None :: TNew o :: L)); try done; unfold hot; try (by toks); ones K.
  intros q Hq. destruct (decide (q = o)) as [->|Hne]; [|left; toks]. right. split_and!; [|congruence|done].
  pose proof (l_new1 _ _ K o) as H1. unfold atmost1 in H1. cbn in H1. rewrite b2z_eqb_refl in H1. intros Ht.
  apply elem_of_cons in Ht as [|Ht]; [done|].
  pose proof (lsum_ge (fun t => b2z (is_new o t)) L _ (fun _ => b2z_nonneg _) Ht) as H2. cbn in H2.
  rewrite b2z_eqb_refl in H2. lia.
Qed.

(** The handle is counted. *)
Lemma hnd_move g L o x v : inv g (TName (Some (o, v)) :: L) -> objs g !! o = Some x ->
  inv (store_obj o (set_handle_count (handle_count x + 1) (set_refcount (refcount x + 1) x)) g) (TName None :: TRef o :: THnd o :: L).
Proof.
  intros [C K] E. pose proof (c_live _ _ C o x E) as Hr. destruct (obj_counts _ _ C o x E) as [Eh _].
  pose proof (handles_nonneg g (TName (Some (o, v)) :: L) o) as Hn. split.
  - apply (counts_obj g (TName (Some (o, v)) :: L) _ o x); try done; cbn; [intros q; tally q o|intros q; tally q o|lia].
  - apply (relink_toks g _ (TName (Some (o, v)) :: L)); try done; unfold hot, hc; cbn; try (by toks); ones K.
    + intros q. by apply (skel_insert g o x).
    + intros q Hq. destruct (decide (q = o)) as [->|Hne]; [left; rewrite lookup_insert_eq; cbn; lia|].
      rewrite lookup_insert_ne by done. toks.
    + intros q Hq. left. destruct (decide (q = o)) as [->|Hne]; [right; toks|].
      rewrite lookup_insert_ne in Hq by done. toks.
Qed.

(** ** Tables of handles *)

(** The counts of a file change with the tokens. *)
Lemma counts_file g L L' f fl fl' :
  counts g L -> files g !! f = Some fl ->
  (forall q, file_handles q fl' + lsum (tokH q) L' = file_handles q fl + lsum (tokH q) L) ->
  (forall q, occ q (prime fl').*1 + lsum (tokB q) L' = occ q (prime fl).*1 + lsum (tokB q) L) ->
  (forall q, lsum (tokR q) L' = lsum (tokR q) L) ->
  (forall q, lsum (tokU q) L' = lsum (tokU q) L + b2z (q =? f) * (f_users fl' - f_users fl)) ->
  (f_open fl' = false -> f_users fl' = 0) -> counts (store_file f fl' g) L'.
Proof.
  intros C E HH HB HR HU Hc.
  assert (forall q, handles (store_file f fl' g) L' q = handles g L q) as Eh.
  { intros q. unfold handles. cbn. rewrite msum_insert, E. cbn. specialize (HH q). lia. }
  split.
  - intros q. rewrite Eh. apply (c_hc _ _ C q).
  - intros q. rewrite Eh. unfold refs. cbn. rewrite HR. apply (c_rc _ _ C q).
  - apply (c_live _ _ C).
  - intros q. pose proof (c_bc _ _ C q) as Eq. unfold bc, buf_refs in *. cbn. rewrite msum_insert, E. cbn. specialize (HB q). lia.
  - apply (c_blive _ _ C).
  - intros q. rewrite HU. pose proof (c_uc _ _ C q) as Eq. unfold uc in *. cbn. destruct (decide (q = f)) as [->|Hq].
    + rewrite lookup_insert_eq. rewrite E in Eq. cbn in *. weigh. lia.
    + rewrite lookup_insert_ne by done. weigh. lia.
  - intros q fq. cbn. intros [[<- <-]|[Hq Ey]]%lookup_insert_Some; [done|]. by apply (c_closed _ _ C q).
Qed.

(** A file changes that stays open; the objects, dma-bufs, locks and new objects do
    not. *)
Lemma relink_file g L L' f fl fl' :
  links g L -> files g !! f = Some fl -> f_open fl = true -> f_open fl' = true ->
  (forall q, present g L f q -> present (store_file f fl' g) L' f q) ->
  (forall b h, (b, h) ∈ prime fl' -> (b, h) ∈ prime fl \/
    exists o x, objs g !! o = Some x /\ dma_buf x = Some b /\ present (store_file f fl' g) L' f o) ->
  (forall q o, q <> f -> TPend q o ∈ L' <-> TPend q o ∈ L) -> (forall q u l, TOwn q u l ∈ L' <-> TOwn q u l ∈ L) ->
  (forall s, TName s ∈ L' <-> TName s ∈ L) -> (forall q s, TPrime q s ∈ L' -> TPrime q s ∈ L) ->
  (forall q, TNew q ∈ L' -> TNew q ∈ L) ->
  (forall o, atmost1 (is_new o) L') -> (forall f, atmost1 (is_own f) L') -> (forall f, atmost1 (is_prime f) L') ->
  atmost1 is_name L' -> links (store_file f fl' g) L'.
Proof.
  intros K E Ho Ho' Hp Hm Tp To Tn Tm Tw N1 N2 N3 N4. apply (links_relink g _ L L'); [|done].
  assert (forall q, hot (store_file f fl' g) L' q <-> hot g L q) as Hh.
  { intros q. unfold hot. by setoid_rewrite Tn. }
  assert (forall q u l, TOwn q u l ∈ L' -> q <> f) as Hof.
  { intros q u l Ht%To ->. destruct (l_own _ _ K f u l Ht) as (fl0 & E0 & H1 & _). congruence. }
  split; try done.
  - intros q. apply Hh.
  - intros q Hq. left. by apply Hh.
  - intros q o Hq. destruct (decide (q = f)) as [->|Hne]; [by apply Hp|]. unfold present in *. cbn.
    rewrite lookup_insert_ne by done. rewrite Tp by done. setoid_rewrite To. done.
  - intros q flq b h. cbn. intros [[<- <-]|[Hne Eq]]%lookup_insert_Some Hin.
    + destruct (Hm b h Hin) as [|]; [left; by exists fl|by right].
    + left. by exists flq.
  - intros q u l Ht. pose proof (Hof q u l Ht). cbn. rewrite lookup_insert_ne by done. apply To in Ht. by apply (l_own _ _ K q u l).
  - intros q o v Ht%Tm. by left.
  - intros q v Ht%Tn. by left.
Qed.

Lemma waiting_mono L L' f q : (TPend f q ∈ L -> TPend f q ∈ L') -> (forall u l, TOwn f u l ∈ L -> TOwn f u l ∈ L') ->
  TPend f q ∈ L \/ (exists u l, TOwn f u l ∈ L /\ q ∈ l) -> TPend f q ∈ L' \/ (exists u l, TOwn f u l ∈ L' /\ q ∈ l).
Proof. naive_solver. Qed.

Lemma idr_in_move g L f fl o mem r m : inv g (THnd o :: L) -> files g !! f = Some fl -> f_open fl = true ->
  idr_alloc mem o 1 (object_idr fl) = (r, m) -> 0 <= r -> inv (store_file f (set_idr m fl) g) L.
Proof.
  intros [C K] E Ho Ha Hr. pose proof (entries_alloc _ _ _ _ _ _ Ha Hr) as Hp. destruct (alloc_fresh _ _ _ _ _ _ Ha Hr) as [_ Hf]. split.
  - apply (counts_file g (THnd o :: L) _ f fl); try done; [|intros q; cbn; lia|by apply (c_closed _ _ C f fl E)].
    intros q. unfold file_handles. cbn. rewrite Ho. unfold occ at 1. rewrite (lsum_perm _ _ _ (fmap_Permutation snd _ _ Hp)).
    cbn. unfold occ. lia.
  - apply (relink_file g (THnd o :: L) _ f fl); try done; try (by toks); ones K.
    intros q [(fl0 & h & E0 & H1 & Hh)|Hq]; [|right; revert Hq; apply waiting_mono; toks]. left. cbn. rewrite lookup_insert_eq.
      rewrite E in E0. injection E0 as <-. eexists _, h. split; [done|]. split; [done|]. cbn.
      rewrite (alloc_find _ _ _ _ _ _ h Ha Hr). destruct (Z.eqb_spec h r) as [->|]; [congruence|done].
Qed.

Lemma idr_out_move g L f fl h o : inv g (TUse f :: L) -> files g !! f = Some fl -> f_open fl = true ->
  idr_find (object_idr fl) h = Some o ->
  inv (store_file f (set_idr (idr_remove h (object_idr fl)) fl) g) (TPend f o :: L).
Proof.
  intros [C K] E Ho Hf. pose proof (entries_remove _ _ _ Hf) as Hp. split.
  - apply (counts_file g (TUse f :: L) _ f fl); try done; [|intros q; cbn; lia|by apply (c_closed _ _ C f fl E)].
    intros q. unfold file_handles. cbn. rewrite Ho. unfold occ at 2. rewrite (lsum_perm _ _ _ (fmap_Permutation snd _ _ Hp)).
    cbn. unfold occ. lia.
  - apply (relink_file g (TUse f :: L) _ f fl); try done; try (by toks); ones K.
    intros q [(fl0 & k & E0 & H1 & Hk)|Hq]; [|right; revert Hq; apply waiting_mono; toks].
      rewrite E in E0. injection E0 as <-. destruct (decide (k = h)) as [->|Hne].
      * right. left. rewrite Hf in Hk. injection Hk as ->. toks.
      * left. cbn. rewrite lookup_insert_eq. eexists _, k. split; [done|]. split; [done|]. cbn.
        rewrite find_remove. by destruct (Z.eqb_spec k h).
Qed.

(** ** Handles on their way out *)

(** The file's list does not know the object. *)
Definition unlisted g f o : Prop :=
  forall fl b h x, files g !! f = Some fl -> (b, h) ∈ prime fl -> objs g !! o = Some x -> dma_buf x <> Some b.

(** The file has been told of the removal, so the handle is anybody's. *)
Lemma told_links g f o L L' :
  links g L -> unlisted g f o -> (forall s, TPrime f (Some s) ∉ L) ->
  (forall s, TName s ∈ L' <-> TName s ∈ L) ->
  (forall q p, present g L q p -> present g L' q p \/ (q = f /\ p = o)) ->
  (forall q u l, TOwn q u l ∈ L' -> exists u' l', TOwn q u' l' ∈ L /\ (u = true -> u' = true /\ l' = l)) ->
  (forall q s, TPrime q s ∈ L' -> TPrime q s ∈ L) -> (forall q, TNew q ∈ L' -> TNew q ∈ L) ->
  (forall o, atmost1 (is_new o) L') -> (forall f, atmost1 (is_own f) L') -> (forall f, atmost1 (is_prime f) L') ->
  atmost1 is_name L' -> links g L'.
Proof.
  intros K Hu Hnp Tn Hp To Tm Tw N1 N2 N3 N4.
  assert (forall q, hot g L' q <-> hot g L q) as Hh by (intros q; unfold hot; by setoid_rewrite Tn).
  destruct K. split; try done.
  - intros q x E Hx. apply Hh. by apply (l_named q x).
  - intros q x b E Hx. apply Hh. by apply (l_cache q x b).
  - intros q x b E Hx. rewrite Hh. by apply (l_import q x b).
  - intros b y q E Hy Hq%Hh. by apply (l_priv b y q).
  - intros q fl b h E Hin. destruct (l_member q fl b h E Hin) as (p & x & Ex & Hx & Hpr). exists p, x. split_and!; [done..|].
    destruct (Hp q p Hpr) as [|[-> ->]]; [done|]. by destruct (Hu fl b h x).
  - intros q Ht%Tw. destruct (l_new q Ht) as (x & Ex & Hq & Hr). exists x. by rewrite Hh.
  - intros q u l Ht. destruct (To q u l Ht) as (u' & l' & Ht' & Hul). destruct (l_own q u' l' Ht') as (fl & E & Hc & Hl).
    exists fl. split_and!; [done..|]. intros Hu'. destruct (Hul Hu') as [-> <-]. by apply Hl.
  - intros q p v Ht%Tm. destruct (l_prime q p v Ht) as (x & Ex & Hpr & Hv). exists x. split_and!; [done| |done].
    destruct (Hp q p Hpr) as [|[-> ->]]; [done|]. by destruct (Hnp (o, v)).
  - intros q v Ht%Tn. by apply (l_naming q v).
Qed.

Lemma no_other_prime g f s L : links g (TPrime f s :: L) -> forall s', TPrime f s' ∉ L.
Proof.
  intros K s' Ht. pose proof (l_prime1 _ _ K f) as H1. apply (atmost1_head _ _ _ H1) in Ht; cbn in *; [|apply Z.eqb_refl].
  by rewrite Z.eqb_refl in Ht.
Qed.

Lemma no_other_name g s L : links g (TName s :: L) -> forall s', TName s' ∉ L.
Proof. intros K s' Ht. pose proof (l_name1 _ _ K) as H1. by apply (atmost1_head _ _ _ H1) in Ht. Qed.

Lemma pend_move g L f o : inv g (TPrime f None :: TPend f o :: L) -> unlisted g f o ->
  inv g (TPrime f None :: THnd o :: TUse f :: L).
Proof.
  intros [C K] Hu. pose proof (no_other_prime _ _ _ _ K) as Hn. split.
  { apply (counts_ext_toks g (TPrime f None :: TPend f o :: L)); try done. }
  apply (told_links g f o (TPrime f None :: TPend f o :: L)); try done; try (by toks); ones K.
  intros q p [Hq|Hq]; [left; by left|]. destruct (decide (q = f /\ p = o)) as [|Hne]; [by right|]. left. right.
  revert Hq. apply waiting_mono; toks.
Qed.

Lemma own_move g L f u o l : inv g (TPrime f None :: TOwn f u (o :: l) :: L) -> unlisted g f o ->
  inv g (TPrime f None :: THnd o :: TOwn f false l :: L).
Proof.
  intros [C K] Hu. pose proof (no_other_prime _ _ _ _ K) as Hn. split.
  - apply (counts_ext_toks g (TPrime f None :: TOwn f u (o :: l) :: L)); try done. intros q. cbn. unfold occ. cbn. lia.
  - apply (told_links g f o (TPrime f None :: TOwn f u (o :: l) :: L)); try done; try (by toks); ones K.
    intros q p [Hq|[Hq|(u' & l' & Hq & Hl)]]; [left; by left|left; right; left; toks|].
      destruct (decide (q = f /\ p = o)) as [|Hne]; [by right|]. left. right. right.
      rewrite !elem_of_cons in Hq. destruct Hq as [|[[= -> -> ->]|Hq]]; [done| |].
      * exists false, l. split; [toks|]. rewrite elem_of_cons in Hl. naive_solver.
      * exists u', l'. split; [toks|done].
Qed.

Lemma own_read_move g L f l : inv g (TOwn f true l :: L) -> inv g (TOwn f false l :: L).
Proof.
  intros [C K]. split; [by destruct C|].
  apply (links_relink g g (TOwn f true l :: L)); [|done]. split; try done; ones K.
  - intros q Hq. unfold hot in *. toks.
  - intros q Hq. left. unfold hot in *. toks.
  - intros q p [Hq|[Hq|(u & l' & Hq & Hl)]]; [by left|right; left; toks|]. right. right.
    rewrite elem_of_cons in Hq. destruct Hq as [[= -> -> ->]|Hq]; [exists false, l|exists u, l']; toks.
  - intros q fl b h E Hin. left. by exists fl.
  - toks.
  - intros q u l' Hq. rewrite elem_of_cons in Hq. destruct Hq as [[= -> -> ->]|Hq].
    + destruct (l_own _ _ K f true l) as (fl & E & Ho & _); [toks|]. by exists fl.
    + apply (l_own _ _ K q u l'). toks.
  - intros q p v Hq. left. toks.
  - intros q v Hq. left. toks.
Qed.

Lemma own_drop_move g L f u : inv g (TOwn f u [] :: L) -> inv g L.
Proof.
  intros [C K]. split; [by destruct C|].
  apply (links_relink g g (TOwn f u [] :: L)); [|done]. split; try done; ones K.
  - intros q Hq. unfold hot in *. toks.
  - intros q Hq. left. unfold hot in *. toks.
  - intros q p [Hq|[Hq|(u' & l' & Hq & Hl)]]; [by left|right; left; toks|]. right. right.
    rewrite elem_of_cons in Hq. destruct Hq as [[= -> -> ->]|Hq]; [by apply not_elem_of_nil in Hl|]. by exists u', l'.
  - intros q fl b h E Hin. left. by exists fl.
  - toks.
  - intros q u' l' Hq. apply (l_own _ _ K q u' l'). toks.
  - intros q p v Hq. left. toks.
  - intros q v Hq. left. toks.
Qed.

(** ** The last handle *)
Definition cache_tok (x : drm_gem_object) : list tok := match dma_buf x with Some b => [TBuf b] | None => [] end.

(** The object without handle, name and cache. *)
Definition cold (x : drm_gem_object) : drm_gem_object := set_dma_buf None (set_obj_name 0 (set_handle_count 0 x)).

Definition unname (n : Z) (m : idr) : idr := if truth n then idr_remove n m else m.

Lemma uncount_counts g L o x m : inv g (TName None :: THnd o :: L) -> objs g !! o = Some x -> handle_count x = 1 ->
  counts (store_obj o (cold x) (set_names m g)) (TName None :: TRef o :: cache_tok x ++ L).
Proof.
  intros [C K] E Hx. pose proof (c_live _ _ C o x E) as Hr.
  assert (forall q, lsum (tokH q) (cache_tok x ++ L) = lsum (tokH q) L /\ lsum (tokR q) (cache_tok x ++ L) = lsum (tokR q) L /\
    lsum (tokU q) (cache_tok x ++ L) = lsum (tokU q) L /\
    lsum (tokB q) (cache_tok x ++ L) = obuf q (dma_buf x) + lsum (tokB q) L) as HL.
  { intros q. unfold cache_tok. destruct (dma_buf x); cbn; split_and!; lia. }
  split; unfold hc, rc, bc, uc, handles, refs, buf_refs; cbn.
  - intros q. destruct (HL q) as (-> & _). pose proof (c_hc _ _ C q) as Eq. unfold hc, handles in Eq. cbn in Eq.
    destruct (decide (q = o)) as [->|Hq]; [rewrite lookup_insert_eq; rewrite E in Eq; cbn in *; rewrite b2z_eqb_refl in Eq; lia|].
    rewrite lookup_insert_ne by done. rewrite b2z_eqb_ne in Eq by done. lia.
  - intros q. destruct (HL q) as (-> & -> & _). pose proof (c_rc _ _ C q) as Eq. unfold rc, handles, refs in Eq. cbn in Eq.
    destruct (decide (q = o)) as [->|Hq]; [rewrite lookup_insert_eq; rewrite E in Eq; cbn in *; lia|].
    rewrite lookup_insert_ne by done. lia.
  - intros q y [[<- <-]|[Hq Ey]]%lookup_insert_Some; [done|]. by apply (c_live _ _ C q).
  - intros q. destruct (HL q) as (_ & _ & _ & ->). pose proof (c_bc _ _ C q) as Eq. unfold bc, buf_refs in Eq. cbn in Eq.
    rewrite msum_insert, E. cbn. lia.
  - apply (c_blive _ _ C).
  - intros q. destruct (HL q) as (_ & _ & -> & _). apply (c_uc _ _ C).
  - apply (c_closed _ _ C).
Qed.

Lemma uncount_move g L o x : inv g (TName None :: THnd o :: L) -> objs g !! o = Some x -> handle_count x = 1 ->
  inv (store_obj o (cold x) (set_names (unname (obj_name x) (object_name_idr g)) g)) (TName None :: TRef o :: cache_tok x ++ L).
Proof.
  intros Hi E Hx. split; [by apply uncount_counts|]. destruct Hi as [C K].
  set (g' := store_obj o (cold x) (set_names (unname (obj_name x) (object_name_idr g)) g)).
  apply (links_ext g' _ (TName None :: L)).
  { split; try done. unfold cache_tok. by destruct (dma_buf x). }
  pose proof (no_other_name _ _ _ K) as Hnn.
  assert (handles g L o = 0) as Z0.
  { destruct (obj_counts _ _ C o x E) as [Eh _]. unfold handles in *. cbn in Eh. rewrite b2z_eqb_refl in Eh. lia. }
  assert (forall f q, present g (TName None :: THnd o :: L) f q <-> present g' (TName None :: L) f q) as Hpr.
  { intros f q. unfold present. cbn. rewrite !elem_of_cons. setoid_rewrite elem_of_cons. setoid_rewrite elem_of_cons. naive_solver. }
  assert (forall f q, present g' (TName None :: L) f q -> q <> o) as Hpo.
  { intros f q Hp ->. apply present_handles in Hp. unfold handles in *. cbn in Hp. lia. }
  assert (forall q, hot g' (TName None :: L) q <-> q <> o /\ hot g (TName None :: THnd o :: L) q) as Hh.
  { intros q. unfold hot, hc. cbn. destruct (decide (q = o)) as [->|Hq].
    - rewrite lookup_insert_eq. cbn. split; [|by intros []]. intros [?|[v Ht]]; [lia|].
      apply elem_of_cons in Ht as [|Ht]; [done|]. destruct (Hnn (Some (o, v))). toks.
    - rewrite lookup_insert_ne by done. toks. }
  assert (forall q y, objs g' !! q = Some y -> (q = o /\ y = cold x) \/ (q <> o /\ objs g !! q = Some y)) as Ho.
  { intros q y. cbn. intros [[<- <-]|[? ?]]%lookup_insert_Some; [by left|by right]. }
  assert (forall q y, q <> o -> objs g !! q = Some y -> objs g' !! q = Some y) as Ho'.
  { intros q y Hq Eq. cbn. by rewrite lookup_insert_ne. }
  split.
  - intros q y [[-> _]|[_ Eq]]%Ho; [by apply (l_pos _ _ K o x)|by apply (l_pos _ _ K q y)].
  - intros n q. cbn. unfold unname, truth.
    assert (idr_find (if negb (obj_name x =? 0) then idr_remove (obj_name x) (object_name_idr g) else object_name_idr g) n = Some q <->
      n <> obj_name x /\ idr_find (object_name_idr g) n = Some q) as ->.
    { destruct (Z.eqb_spec (obj_name x) 0) as [E0|]; cbn.
      - rewrite E0. split; [|naive_solver]. intros Hf. split; [|done]. by apply (l_name _ _ K) in Hf as [? _].
      - rewrite find_remove. destruct (Z.eqb_spec n (obj_name x)); naive_solver. }
    rewrite (l_name _ _ K). split.
    + intros (Hn & H0' & y & Ey & Hy). split; [done|]. exists y. split; [|done]. rewrite lookup_insert_ne; [done|]. intros ->. congruence.
    + intros (Hn & y & [[<- <-]|[Hq Ey]]%lookup_insert_Some & Hy); [done|]. split; [|naive_solver]. intros ->.
      assert (idr_find (object_name_idr g) (obj_name x) = Some q) as F1 by (apply (l_name _ _ K); naive_solver).
      assert (idr_find (object_name_idr g) (obj_name x) = Some o) as F2 by (apply (l_name _ _ K); naive_solver). congruence.
  - intros q y [[-> ->]|[Hq Eq]]%Ho Hy; [done|]. apply Hh. split; [done|]. by apply (l_named _ _ K q y).
  - intros q y b [[-> ->]|[Hq Eq]]%Ho Hy; [done|]. apply Hh. split; [done|]. by apply (l_cache _ _ K q y b).
  - intros q y b [[-> ->]|[Hq Eq]]%Ho Hy.
    + destruct (l_import _ _ K o x b E Hy) as (Hv & Hb & _). split_and!; [done..|]. intros Hc%Hh. naive_solver.
    + destruct (l_import _ _ K q y b Eq Hy) as (Hv & Hb & Hc). split_and!; [done..|]. intros [_ Hc']%Hh. by apply Hc.
  - intros b y q Ey Hy [Hq Hc]%Hh. destruct (l_priv _ _ K b y q Ey Hy Hc) as (z & Ez & Hz). exists z. split; [|done]. by apply Ho'.
  - apply (l_priv1 _ _ K).
  - intros b y q z Ey Hy [[-> ->]|[Hq Eq]]%Ho; [by apply (l_export _ _ K b y o x)|by apply (l_export _ _ K b y q z)].
  - apply (l_foreign _ _ K).
  - intros f fl b h Ef Hin. destruct (l_member _ _ K f fl b h Ef Hin) as (q & y & Ey & Hy & Hp%Hpr). pose proof (Hpo f q Hp).
    exists q, y. split_and!; [by apply Ho'|done..].
  - intros q Ht. destruct (l_new _ _ K q) as (y & Ey & Hc & Hy & Hb); [toks|].
    assert (q <> o) as Hq. { intros ->. apply Hc. left. unfold hc. rewrite E. cbn. lia. }
    exists y. split_and!; [by apply Ho'| |done..]. intros [_ Hc']%Hh. done.
  - intros q. pose proof (l_new1 _ _ K q) as Hone. unfold atmost1 in *. cbn in *. lia.
  - intros f u l Ht. apply (l_own _ _ K f u l). toks.
  - intros q. pose proof (l_own1 _ _ K q) as Hone. unfold atmost1 in *. cbn in *. lia.
  - intros f q v Ht. destruct (l_prime _ _ K f q v) as (y & Ey & Hp%Hpr & Hv); [toks|]. pose proof (Hpo f q Hp).
    exists y. split_and!; [by apply Ho'|done..].
  - intros q. pose proof (l_prime1 _ _ K q) as Hone. unfold atmost1 in *. cbn in *. lia.
  - intros q v Ht. apply elem_of_cons in Ht as [|Ht]; [done|]. destruct (Hnn (Some (q, v))). toks.
  - pose proof (l_name1 _ _ K) as Hone. unfold atmost1 in *. cbn in *. lia.
  - destruct (l_offsets _ _ K) as [Hm Hl]. split; [done|]. intros n Hn. cbn. destruct (decide (Z.of_nat n = o)) as [->|Hq].
    + rewrite lookup_insert_eq. by eexists.
    + rewrite lookup_insert_ne by done. by apply Hl.
Qed.

End handles.
