(* ===== verification/DrmGemShare.v ===== *)
(** * GEM and PRIME: moves of names, dma-bufs, mappings and files

    The remaining steps as moves of tokens that keep the invariant of [DrmGemInv]:
    objects get names and dma-bufs, lists, descriptors and mappings take references
    over, objects and files are created and files are closed. *)

From S2P Require Import Prelude Counting Idr DrmMm DrmVma DrmVmaProps DrmGem DrmPrime DrmGemInv DrmGemMoves DrmGemHandles.

Section share.
Context {S : Type} {RA : range_alloc S} {RAok : range_alloc_ok S RA} {RB : rbtree} {RBok : rbtree_ok RB}.
Context `{idr_ops} `{!idr_laws} {GH : gem_h S} {GHok : gem_h_ok GH}.
Local Notation gem := (gem S).
Implicit Types (g : gem) (L : list tok) (o b f q : Z).

(** ** Names *)
Lemma name_move g L o x mem r m : inv g L -> objs g !! o = Some x -> 0 < handle_count x -> obj_name x = 0 ->
  idr_alloc mem o 1 (object_name_idr g) = (r, m) -> 0 <= r ->
  inv (store_obj o (set_obj_name r x) (set_names m g)) L.
Proof.
  intros [C K] E Hx En Ha Hr. destruct (alloc_fresh _ _ _ _ _ _ Ha Hr) as [Hr1 Hf].
  pose proof (fun k => alloc_find _ _ _ _ _ _ k Ha Hr) as Hfind.
  set (g' := store_obj o (set_obj_name r x) (set_names m g)).
  assert (forall q, hot g' L q <-> hot g L q) as Hh.
  { intros q. unfold hot, hc. cbn. destruct (decide (q = o)) as [->|Hq]; [by rewrite lookup_insert_eq, E|by rewrite lookup_insert_ne]. }
  assert (forall q y, objs g' !! q = Some y -> exists y', objs g !! q = Some y' /\ dma_buf y' = dma_buf y /\
    import_attach y' = import_attach y /\ vaddr y' = vaddr y /\ (q <> o -> y' = y)) as Ho.
  { intros q y. cbn. intros [[<- <-]|[? ?]]%lookup_insert_Some; [by exists x|by exists y]. }
  assert (forall q y, objs g !! q = Some y -> exists y', objs g' !! q = Some y' /\ dma_buf y' = dma_buf y /\
    import_attach y' = import_attach y) as Ho'.
  { intros q y Eq. cbn. destruct (decide (q = o)) as [->|Hq]; [|rewrite lookup_insert_ne by done; by exists y].
    rewrite lookup_insert_eq. eexists. split; [done|]. cbn. naive_solver congruence. }
  split.
  - destruct C as [C1 C2 C3 C4 C5 C6 C7]. split; try done.
    + intros q. specialize (C1 q). unfold hc in *. cbn. destruct (decide (q = o)) as [->|Hq];
        [rewrite lookup_insert_eq; by rewrite E in C1|by rewrite lookup_insert_ne].
    + intros q. specialize (C2 q). unfold rc in *. cbn. destruct (decide (q = o)) as [->|Hq];
        [rewrite lookup_insert_eq; by rewrite E in C2|by rewrite lookup_insert_ne].
    + intros q y. cbn. intros [[<- <-]|[? ?]]%lookup_insert_Some; [by apply (C3 o x)|by apply (C3 q y)].
    + intros q. specialize (C4 q). unfold bc, buf_refs in *. cbn. rewrite msum_insert, E. cbn. lia.
  - split.
    + intros q y (y' & E' & _)%Ho. by apply (l_pos _ _ K q y').
    + intros n q. cbn. rewrite Hfind. destruct (Z.eqb_spec n r) as [->|Hn].
      * split; [intros [= <-]; split; [lia|]; rewrite lookup_insert_eq; by eexists|].
        intros (_ & y & [[<- <-]|[Hq Ey]]%lookup_insert_Some & Hy); [done|]. exfalso.
        assert (idr_find (object_name_idr g) r = Some q) by (apply (l_name _ _ K); split; [lia|by exists y]). congruence.
      * rewrite (l_name _ _ K). split; intros (Hn0 & y & Ey & Hy); (split; [done|]).
        -- destruct (decide (q = o)) as [->|Hq]; [naive_solver congruence|]. exists y. by rewrite lookup_insert_ne.
        -- apply lookup_insert_Some in Ey as [[<- <-]|[Hq Ey]]; [naive_solver|by exists y].
    + intros q y (y' & E' & _ & _ & _ & Hy)%Ho Hn. apply Hh. destruct (decide (q = o)) as [->|Hq].
      * left. unfold hc. rewrite E. done.
      * rewrite <- Hy in Hn by done. by apply (l_named _ _ K q y').
    + intros q y b (y' & E' & E1 & _)%Ho Hb. apply Hh. apply (l_cache _ _ K q y' b E'). congruence.
    + intros q y b (y' & E' & E1 & E2 & E3 & _)%Ho Hb. rewrite <- E2 in Hb. rewrite Hh, <- E1, <- E3. by apply (l_import _ _ K q y' b).
    + intros b y q Ey Hy Hq%Hh. destruct (l_priv _ _ K b y q Ey Hy Hq) as (z & Ez & Hz).
      destruct (Ho' q z Ez) as (z' & Ez' & E1 & _). exists z'. split; [done|congruence].
    + apply (l_priv1 _ _ K).
    + intros b y q z Ey Hy (z' & Ez & _ & E2 & _)%Ho. rewrite <- E2. by apply (l_export _ _ K b y q z').
    + apply (l_foreign _ _ K).
    + intros f fl b h Ef Hin. destruct (l_member _ _ K f fl b h Ef Hin) as (q & y & Ey & Hy & Hp).
      destruct (Ho' q y Ey) as (y' & Ey' & E1 & _). exists q, y'. split_and!; [done|congruence|done].
    + intros q Ht. destruct (l_new _ _ K q Ht) as (y & Ey & Hc & Hi & Hb). destruct (Ho' q y Ey) as (y' & Ey' & _ & E2).
      exists y'. rewrite Hh. split_and!; [done..|congruence|done].
    + apply (l_new1 _ _ K).
    + apply (l_own _ _ K).
    + apply (l_own1 _ _ K).
    + intros f q v Ht. destruct (l_prime _ _ K f q v Ht) as (y & Ey & Hp & Hv). destruct (Ho' q y Ey) as (y' & Ey' & E1 & _).
      exists y'. split_and!; [done..|]. rewrite E1. done.
    + apply (l_prime1 _ _ K).
    + intros q v Ht. destruct (l_naming _ _ K q v Ht) as (y & Ey & Hv). destruct (Ho' q y Ey) as (y' & Ey' & E1 & _).
      exists y'. split; [done|]. rewrite E1. done.
    + apply (l_name1 _ _ K).
    + destruct (l_offsets _ _ K) as [Hm Hl]. split; [done|]. intros n [y Ey]%Hl. destruct (Ho' _ _ Ey) as (y' & Ey' & _). by exists y'.
Qed.

(** ** The dma-buf of an object *)

(** The object [o] gets the dma-buf [b], which is new or looks as before, and has or
    will get a handle. *)
Lemma cache_links g g' L L' o x x' b yb :
  links g L -> objs g !! o = Some x -> dma_buf x = None ->
  objs g' = <[o := x']> (objs g) -> dma_buf x' = Some b -> obj_name x' = obj_name x ->
  files g' = files g -> object_name_idr g' = object_name_idr g -> vma_offset_manager g' = vma_offset_manager g ->
  (forall c, c <> b -> bskel <$> bufs g' !! c = bskel <$> bufs g !! c) -> bufs g' !! b = Some yb ->
  (forall y, bufs g !! b = Some y -> bskel y = bskel yb) ->
  (bufs g !! b = None -> b_priv yb <> None) ->
  (forall q, b_priv yb = Some q -> q = o /\ import_attach x' = None) ->
  (forall c y, bufs g' !! c = Some y -> b_priv y = Some o -> c = b) ->
  (forall c, import_attach x' = Some c -> c = b /\ vaddr x' = false /\ b_priv yb = None) ->
  hot g' L' o -> (forall q, q <> o -> hot g' L' q <-> hot g L q) ->
  (forall f q, TPend f q ∈ L' <-> TPend f q ∈ L) -> (forall f u l, TOwn f u l ∈ L' <-> TOwn f u l ∈ L) ->
  (forall q, TNew q ∈ L' -> TNew q ∈ L /\ q <> o) -> (forall f s, TPrime f s ∈ L' -> TPrime f s ∈ L) ->
  (forall q v, TName (Some (q, v)) ∈ L' -> TName (Some (q, v)) ∈ L \/ (q = o /\ (forall c, v = Some c -> c = b))) ->
  (forall o, atmost1 (is_new o) L') -> (forall f, atmost1 (is_own f) L') -> (forall f, atmost1 (is_prime f) L') ->
  atmost1 is_name L' -> links g' L'.
Proof.
  intros K E Ed Eo Ed' En Ef Enm Em Eb Ebb Hb1 Hb2 Hb3 Hb4 Him Ho Hh Tp To Tn Tm Tw N1 N2 N3 N4.
  assert (forall q y, objs g' !! q = Some y -> (q = o /\ y = x') \/ (q <> o /\ objs g !! q = Some y)) as O1.
  { intros q y. rewrite Eo. intros [[<- <-]|[? ?]]%lookup_insert_Some; [by left|by right]. }
  assert (forall q y, q <> o -> objs g !! q = Some y -> objs g' !! q = Some y) as O2.
  { intros q y Hq Eq. rewrite Eo. by rewrite lookup_insert_ne. }
  assert (forall c y, bufs g' !! c = Some y -> (c = b /\ y = yb) \/ (c <> b /\ exists y0, bufs g !! c = Some y0 /\ bskel y0 = bskel y)) as B1.
  { intros c y Ec. destruct (decide (c = b)) as [->|Hc]; [left; split; congruence|right]. split; [done|].
    by apply (skel_lookup bskel _ (bufs g' !! c)); [apply Eb|]. }
  assert (forall f q, present g L f q <-> present g' L' f q) as Hp.
  { intros f q. unfold present. rewrite Ef, Tp. setoid_rewrite To. done. }
  assert (forall c y q, c <> b -> bufs g' !! c = Some y -> b_priv y = Some q -> exists y0, bufs g !! c = Some y0 /\ b_priv y0 = Some q) as B2.
  { intros c y q Hc Ec Hy. destruct (B1 c y Ec) as [[? _]|(_ & y0 & E0 & Es)]; [done|]. injection Es as F1 F2. exists y0. split; [done|congruence]. }
  split.
  - intros q y [[-> ->]|[_ Eq]]%O1; [by apply (l_pos _ _ K o x)|by apply (l_pos _ _ K q y)].
  - intros n q. rewrite Enm, (l_name _ _ K). split; intros (Hn & y & Ey & Hy); (split; [done|]).
    + destruct (decide (q = o)) as [->|Hq]; [|exists y; split; [by apply O2|done]]. exists x'. rewrite Eo, lookup_insert_eq. naive_solver congruence.
    + destruct (O1 q y Ey) as [[-> ->]|[_ Eq]]; [exists x; split; [done|congruence]|by exists y].
  - intros q y [[-> ->]|[Hq Eq]]%O1 Hy; [done|]. apply Hh; [done|]. by apply (l_named _ _ K q y).
  - intros q y c [[-> ->]|[Hq Eq]]%O1 Hy; [done|]. apply Hh; [done|]. by apply (l_cache _ _ K q y c).
  - intros q y c [[-> ->]|[Hq Eq]]%O1 Hy.
    + destruct (Him c Hy) as (-> & Hv & Hpb). split_and!; [done|by exists yb|done].
    + destruct (l_import _ _ K q y c Eq Hy) as (Hv & (z & Ez & Hz) & Hc). rewrite (Hh q Hq). split_and!; [done| |done].
      destruct (decide (c = b)) as [->|Hcb].
      * exists yb. split; [done|]. specialize (Hb1 z Ez). injection Hb1 as F1 F2. congruence.
      * pose proof (Eb c Hcb) as Es. rewrite Ez in Es. destruct (bufs g' !! c) as [z'|]; [|done]. exists z'. split; [done|].
        cbn in Es. injection Es as F1 F2. congruence.
  - intros c y q Ey Hy Hq. destruct (decide (q = o)) as [->|Hne].
    + exists x'. rewrite Eo, lookup_insert_eq. split; [done|]. by rewrite (Hb4 c y Ey Hy).
    + destruct (decide (c = b)) as [->|Hcb]; [rewrite Ebb in Ey; injection Ey as <-; by destruct (Hb3 q Hy)|].
      destruct (B2 c y q Hcb Ey Hy) as (y0 & E0 & Hy0). apply Hh in Hq; [|done].
      destruct (l_priv _ _ K c y0 q E0 Hy0 Hq) as (z & Ez & Hz). exists z. split; [by apply O2|done].
  - intros c y d z q Ey Ez Hy Hz. destruct (decide (q = o)) as [->|Hne].
    + by rewrite (Hb4 c y Ey Hy), (Hb4 d z Ez Hz).
    + assert (c <> b /\ d <> b) as [Hcb Hdb].
      { split; intros ->; [rewrite Ebb in Ey; injection Ey as <-; by destruct (Hb3 q Hy)|
          rewrite Ebb in Ez; injection Ez as <-; by destruct (Hb3 q Hz)]. }
      destruct (B2 c y q Hcb Ey Hy) as (y0 & Ey0 & Hy0). destruct (B2 d z q Hdb Ez Hz) as (z0 & Ez0 & Hz0).
      by apply (l_priv1 _ _ K c y0 d z0 q).
  - intros c y q z Ey Hy [[-> ->]|[Hq Eq]]%O1.
    + pose proof (Hb4 c y Ey Hy) as ->. rewrite Ebb in Ey. injection Ey as <-. by apply (Hb3 o).
    + destruct (decide (c = b)) as [->|Hcb]; [rewrite Ebb in Ey; injection Ey as <-; by destruct (Hb3 q Hy)|].
      destruct (B2 c y q Hcb Ey Hy) as (y0 & E0 & Hy0). by apply (l_export _ _ K c y0 q z).
  - intros c y [[-> ->]|(Hcb & y0 & E0 & Es)]%B1 Hy.
    + destruct (bufs g !! b) as [y0|] eqn:E0; [|by destruct (Hb2 eq_refl)]. specialize (Hb1 y0 eq_refl). injection Hb1 as F1 F2.
      rewrite <- F2. apply (l_foreign _ _ K b y0 E0). congruence.
    + injection Es as F1 F2. rewrite <- F2. apply (l_foreign _ _ K c y0 E0). congruence.
  - intros f fl c h. rewrite Ef. intros Efl Hin. destruct (l_member _ _ K f fl c h Efl Hin) as (q & y & Ey & Hy & Hpr%Hp).
    exists q, y. split_and!; [|done..]. apply O2; [|done]. intros ->. naive_solver congruence.
  - intros q [Ht Hq]%Tn. destruct (l_new _ _ K q Ht) as (y & Ey & Hc & Hi & Hb). exists y. rewrite Hh by done.
    split_and!; [by apply O2|done..|]. intros c z Ez Hz. destruct (decide (c = b)) as [->|Hcb].
    + rewrite Ebb in Ez. injection Ez as <-. by destruct (Hb3 q Hz).
    + destruct (B2 c z q Hcb Ez Hz) as (z0 & Ez0 & Hz0). by apply (Hb c z0).
  - done.
  - intros f u l Ht%To. rewrite Ef. by apply (l_own _ _ K f u l).
  - done.
  - intros f q v Ht%Tm. destruct (l_prime _ _ K f q v Ht) as (y & Ey & Hpr%Hp & Hv). destruct (decide (q = o)) as [->|Hq].
    + exists x'. rewrite Eo, lookup_insert_eq. split_and!; [done..|]. intros c Hc. rewrite E in Ey. injection Ey as <-.
      specialize (Hv c Hc). congruence.
    + exists y. split_and!; [by apply O2|done..].
  - done.
  - intros q v Ht. destruct (Tw q v Ht) as [Ht'|[-> Hv]].
    + destruct (l_naming _ _ K q v Ht') as (y & Ey & Hv). destruct (decide (q = o)) as [->|Hq].
      * exists x'. rewrite Eo, lookup_insert_eq. split; [done|]. intros c Hc. rewrite E in Ey. injection Ey as <-.
        specialize (Hv c Hc). congruence.
      * exists y. split; [by apply O2|done].
    + exists x'. rewrite Eo, lookup_insert_eq. split; [done|]. intros c Hc. by rewrite (Hv c Hc).
  - done.
  - destruct (l_offsets _ _ K) as [Hm Hl]. rewrite Em. split; [done|]. intros n Hn. rewrite Eo.
    destruct (decide (Z.of_nat n = o)) as [->|Hq]; [rewrite lookup_insert_eq; by eexists|]. rewrite lookup_insert_ne by done. by apply Hl.
Qed.

Definition cached o x' b yb g : gem := store_buf b yb (store_obj o x' g).

Lemma cached_counts g L L' o x x' b yb :
  counts g L -> objs g !! o = Some x -> handle_count x' = handle_count x ->
  (forall q, lsum (tokH q) L' = lsum (tokH q) L) -> (forall q, lsum (tokU q) L' = lsum (tokU q) L) ->
  (forall q, obuf q (b_priv yb) + lsum (tokR q) L' =
     osum (fun y => obuf q (b_priv y)) (bufs g !! b) + lsum (tokR q) L + b2z (q =? o) * (refcount x' - refcount x)) ->
  (forall q, obuf q (dma_buf x') + obuf q (import_attach x') + lsum (tokB q) L' =
     obuf q (dma_buf x) + obuf q (import_attach x) + lsum (tokB q) L + b2z (q =? b) * (b_count yb - osum b_count (bufs g !! b))) ->
  0 < refcount x' -> 0 < b_count yb -> counts (cached o x' b yb g) L'.
Proof.
  intros C E Eh HH HU HR HB Hr Hb. split.
  - intros q. pose proof (c_hc _ _ C q) as Eq. unfold hc, handles in *. cbn. rewrite HH.
    destruct (decide (q = o)) as [->|Hq]; [rewrite lookup_insert_eq; rewrite E in Eq; cbn in *; lia|by rewrite lookup_insert_ne].
  - intros q. pose proof (c_rc _ _ C q) as Eq. unfold rc, handles, refs in *. cbn. rewrite HH, msum_insert. specialize (HR q).
    destruct (decide (q = o)) as [->|Hq].
    + rewrite lookup_insert_eq. rewrite E in Eq. cbn in *. rewrite b2z_eqb_refl in HR. lia.
    + rewrite lookup_insert_ne by done. rewrite b2z_eqb_ne in HR by done. lia.
  - intros q y. cbn. intros [[<- <-]|[Hq Ey]]%lookup_insert_Some; [done|]. by apply (c_live _ _ C q).
  - intros q. pose proof (c_bc _ _ C q) as Eq. unfold bc, buf_refs in *. cbn. rewrite msum_insert, E. cbn. specialize (HB q).
    destruct (decide (q = b)) as [->|Hq].
    + rewrite lookup_insert_eq. cbn. rewrite b2z_eqb_refl in HB. lia.
    + rewrite lookup_insert_ne by done. rewrite b2z_eqb_ne in HB by done. lia.
  - intros q y. cbn. intros [[<- <-]|[Hq Ey]]%lookup_insert_Some; [done|]. by apply (c_blive _ _ C q).
  - intros q. rewrite HU. apply (c_uc _ _ C).
  - apply (c_closed _ _ C).
Qed.

Lemma hot_store g L L' o x x' m q : objs g !! o = Some x -> handle_count x' = handle_count x ->
  (forall v, TName (Some (q, v)) ∈ L' <-> TName (Some (q, v)) ∈ L) -> hot (set_bufs m (store_obj o x' g)) L' q <-> hot g L q.
Proof.
  intros E Eh Ht. unfold hot, hc. cbn. setoid_rewrite Ht. destruct (decide (q = o)) as [->|Hq]; [|by rewrite lookup_insert_ne].
  rewrite lookup_insert_eq, E. cbn. by rewrite Eh.
Qed.

Lemma hot_store_ne g L L' o x' m q : q <> o ->
  (forall v, TName (Some (q, v)) ∈ L' <-> TName (Some (q, v)) ∈ L) -> hot (set_bufs m (store_obj o x' g)) L' q <-> hot g L q.
Proof. intros Hq Ht. unfold hot, hc. cbn. setoid_rewrite Ht. by rewrite lookup_insert_ne. Qed.

(** A new dma-buf exports an object that has a handle. *)
Lemma export_move g L o x b : inv g L -> objs g !! o = Some x -> 0 < handle_count x -> dma_buf x = None ->
  import_attach x = None -> bufs g !! b = None ->
  inv (cached o (set_refcount (refcount x + 1) (set_dma_buf (Some b) x)) b (MkBuf 2 (Some o) (obj_size x)) g) (TBuf b :: L).
Proof.
  intros [C K] E Hx Ed Ei Eb. assert (hot g L o) as Ho by (left; unfold hc; by rewrite E).
  pose proof (c_live _ _ C o x E) as Hr. split.
  - apply (cached_counts g L _ o x); try done; cbn; try lia; rewrite ?Eb; cbn; [intros q; lia|].
    intros q. rewrite Ed, Ei. cbn. lia.
  - apply (cache_links g _ L _ o x (set_refcount (refcount x + 1) (set_dma_buf (Some b) x)) b (MkBuf 2 (Some o) (obj_size x))); try done; cbn; try (by toks); ones K.
    + intros c Hc. by rewrite lookup_insert_ne.
    + by rewrite lookup_insert_eq.
    + intros c y [[<- <-]|[Hc Ey]]%lookup_insert_Some Hy; [done|].
      destruct (l_priv _ _ K c y o Ey Hy Ho) as (z & Ez & Hz). congruence.
    + apply (hot_store g L _ o x); [done..|by toks|done].
    + intros q _. apply (hot_store g L _ o x); [done..|by toks].
    + intros q Ht. rewrite elem_of_cons in Ht. destruct Ht as [|Ht]; [done|]. split; [done|]. intros ->.
      by destruct (l_new _ _ K o Ht) as (y & _ & Hc & _).
Qed.

(** The dma-buf of an object without handles is imported again. *)
Lemma reimport_move g L o x b y : inv g (TName None :: TRef o :: L) -> objs g !! o = Some x -> dma_buf x = None ->
  bufs g !! b = Some y -> b_priv y = Some o ->
  inv (cached o (set_dma_buf (Some b) x) b (set_b_count (b_count y + 1) y) g) (TName (Some (o, Some b)) :: L).
Proof.
  intros [C K] E Ed Eb Hy. pose proof (c_live _ _ C o x E) as Hr. pose proof (c_blive _ _ C b y Eb) as Hb.
  pose proof (no_other_name _ _ _ K) as Hnn. pose proof (l_export _ _ K b y o x Eb Hy E) as Ei. split.
  - apply (cached_counts g (TName None :: TRef o :: L) _ o x); try done; cbn; try lia; rewrite ?Eb; cbn; [intros q; lia|].
    intros q. rewrite Ed, Ei. cbn. lia.
  - apply (cache_links g _ (TName None :: TRef o :: L) _ o x (set_dma_buf (Some b) x) b (set_b_count (b_count y + 1) y)); try done; cbn; try (by toks); ones K.
    + intros c Hc. by rewrite lookup_insert_ne.
    + by rewrite lookup_insert_eq.
    + intros c z [[<- <-]|[Hc Ez]]%lookup_insert_Some Hz; [done|]. by apply (l_priv1 _ _ K c z b y o).
    + right. exists (Some b). toks.
    + intros q Hq. apply hot_store_ne; [done|]. toks.
    + intros q Ht. rewrite !elem_of_cons in Ht. destruct Ht as [|Ht]; [done|]. split; [toks|]. intros ->.
      destruct (l_new _ _ K o) as (z & _ & _ & _ & Hn); [toks|]. by apply (Hn b y).
Qed.

(** A new object imports the dma-buf of another driver. *)
Lemma import_move g L o x b y : inv g (TName None :: TNew o :: TBuf b :: L) -> objs g !! o = Some x -> dma_buf x = None ->
  vaddr x = false -> bufs g !! b = Some y -> b_priv y = None ->
  inv (cached o (set_dma_buf (Some b) (set_import (Some b) x)) b (set_b_count (b_count y + 1) y) g) (TName (Some (o, Some b)) :: L).
Proof.
  intros [C K] E Ed Ev Eb Hy. pose proof (c_live _ _ C o x E) as Hr. pose proof (c_blive _ _ C b y Eb) as Hb.
  destruct (l_new _ _ K o) as (x0 & E0 & Hc & Ei & Hn); [toks|]. rewrite E in E0. injection E0 as <-. split.
  - apply (cached_counts g (TName None :: TNew o :: TBuf b :: L) _ o x); try done; cbn; try lia; rewrite ?Eb; cbn; [intros q; lia|].
    intros q. rewrite Ed, Ei. cbn. lia.
  - apply (cache_links g _ (TName None :: TNew o :: TBuf b :: L) _ o x (set_dma_buf (Some b) (set_import (Some b) x)) b
      (set_b_count (b_count y + 1) y)); try done; cbn; try (by toks); ones K.
    + intros c Hcb. by rewrite lookup_insert_ne.
    + by rewrite lookup_insert_eq.
    + intros c z [[<- <-]|[Hcb Ez]]%lookup_insert_Some Hz; [done|]. by destruct (Hn c z).
    + right. exists (Some b). toks.
    + intros q Hq. apply hot_store_ne; [done|]. toks.
    + intros q Ht. rewrite elem_of_cons in Ht. destruct Ht as [|Ht]; [done|]. split; [toks|]. intros ->.
      pose proof (l_new1 _ _ K o) as H1. unfold atmost1 in H1. cbn in H1. rewrite b2z_eqb_refl in H1.
      pose proof (lsum_ge (fun t => b2z (is_new o t)) L _ (fun _ => b2z_nonneg _) Ht) as H2. cbn in H2.
      rewrite b2z_eqb_refl in H2. lia.
Qed.

(** ** The dma-bufs that a file knows *)
Lemma prime_links g L L' f fl p : links g L -> files g !! f = Some fl -> aux L' ≡ₚ aux L ->
  (forall b h, (b, h) ∈ p -> (b, h) ∈ prime fl \/ exists o x, objs g !! o = Some x /\ dma_buf x = Some b /\ present g L f o) ->
  links (store_file f (set_prime p fl) g) L'.
Proof.
  intros K E Ha Hm. pose proof (fun t => same_tok L L' t Ha) as Ht.
  assert (forall q o, present g L q o -> present (store_file f (set_prime p fl) g) L' q o) as Hp.
  { intros q o [(fl0 & h & E0 & H1 & Hh)|Hq]; [|right; revert Hq; apply waiting_mono; intros; by apply Ht]. left. cbn.
    destruct (decide (q = f)) as [->|Hne]; [rewrite lookup_insert_eq|rewrite lookup_insert_ne by done; by eexists _, _].
    rewrite E in E0. injection E0 as <-. by eexists _, h. }
  assert (forall q, hot (store_file f (set_prime p fl) g) L' q <-> hot g L q) as Hh.
  { intros q. unfold hot. split; (intros [?|[v Hv]]; [by left|right; exists v; by apply Ht]). }
  apply (links_relink g _ L L'); [|done]. split; try done.
  - intros q. apply Hh.
  - intros q Hq. left. by apply Hh.
  - intros q flq b h. cbn. intros [[<- <-]|[Hne Eq]]%lookup_insert_Some Hin; [|left; by exists flq].
    destruct (Hm b h Hin) as [|(o & x & Ex & Hx & Hpr)]; [left; by exists fl|right]. exists o, x. naive_solver.
  - intros q Hq. by apply Ht.
  - intros q. apply (same_one _ L); [done|by intros []|]. apply (l_new1 _ _ K).
  - intros q u l Hq%Ht; [|done]. destruct (l_own _ _ K q u l Hq) as (fl0 & E0 & Ho). cbn.
    destruct (decide (q = f)) as [->|Hne]; [rewrite lookup_insert_eq|rewrite lookup_insert_ne by done; by exists fl0].
    rewrite E in E0. injection E0 as <-. by eexists.
  - intros q. apply (same_one _ L); [done|by intros []|]. apply (l_own1 _ _ K).
  - intros q o v Hq%Ht; [|done]. by left.
  - intros q. apply (same_one _ L); [done|by intros []|]. apply (l_prime1 _ _ K).
  - intros q v Hq%Ht; [|done]. by left.
  - apply (same_one _ L); [done|by intros []|]. apply (l_name1 _ _ K).
Qed.

Lemma member_add_move g L f fl b h o x : inv g (TBuf b :: L) -> files g !! f = Some fl ->
  objs g !! o = Some x -> dma_buf x = Some b -> present g (TBuf b :: L) f o ->
  inv (store_file f (set_prime ((b, h) :: prime fl) fl) g) L.
Proof.
  intros [C K] E Ex Hx Hp. split.
  - apply (counts_file g (TBuf b :: L) _ f fl); try done; cbn.
    + intros q. unfold occ. cbn. lia.
    + intros q. lia.
    + apply (c_closed _ _ C f fl E).
  - apply (prime_links g (TBuf b :: L)); [done..|]. intros c k Hin. rewrite elem_of_cons in Hin.
    destruct Hin as [[= -> ->]|Hin]; [right; by exists o, x|by left].
Qed.

Lemma member_del_move g L f fl k b h l : inv g L -> files g !! f = Some fl -> prime fl = k ++ (b, h) :: l ->
  inv (store_file f (set_prime (k ++ l) fl) g) (TBuf b :: L).
Proof.
  intros [C K] E Ep. split.
  - apply (counts_file g L _ f fl); try done; cbn.
    + intros q. rewrite Ep, !fmap_app. unfold occ. rewrite !lsum_app. cbn. lia.
    + intros q. lia.
    + apply (c_closed _ _ C f fl E).
  - apply (prime_links g L); [done..|]. intros c j Hin. left. rewrite Ep. rewrite elem_of_app in *. rewrite elem_of_cons. tauto.
Qed.

(** ** Descriptors and mappings *)
Lemma fd_move g L b fd : inv g (TBuf b :: L) -> fds g !! fd = None -> inv (set_fds (<[fd := b]> (fds g)) g) L.
Proof.
  intros [C K] E. split.
  - destruct C as [C1 C2 C3 C4 C5 C6 C7]. split; try done. intros q. specialize (C4 q). unfold bc, buf_refs in *. cbn in *.
    rewrite msum_insert, E. cbn. lia.
  - by apply (links_ext g _ (TBuf b :: L)).
Qed.

Lemma fd_close_move g L b fd : inv g L -> fds g !! fd = Some b -> inv (set_fds (delete fd (fds g)) g) (TBuf b :: L).
Proof.
  intros [C K] E. split.
  - destruct C as [C1 C2 C3 C4 C5 C6 C7]. split; try done. intros q. specialize (C4 q). unfold bc, buf_refs in *. cbn in *.
    rewrite msum_delete, E. cbn. lia.
  - by apply (links_ext g _ L).
Qed.

Lemma vma_move g L o v : inv g (TRef o :: L) -> vmas g !! v = None -> inv (set_vmas (<[v := o]> (vmas g)) g) L.
Proof.
  intros [C K] E. split.
  - destruct C as [C1 C2 C3 C4 C5 C6 C7]. split; try done. intros q. specialize (C2 q). unfold rc, handles, refs in *. cbn in *.
    rewrite msum_insert, E. cbn. lia.
  - by apply (links_ext g _ (TRef o :: L)).
Qed.

Lemma vma_close_move g L o v : inv g L -> vmas g !! v = Some o -> inv (set_vmas (delete v (vmas g)) g) (TRef o :: L).
Proof.
  intros [C K] E. split.
  - destruct C as [C1 C2 C3 C4 C5 C6 C7]. split; try done. intros q. specialize (C2 q). unfold rc, handles, refs in *. cbn in *.
    rewrite msum_delete, E. cbn. lia.
  - by apply (links_ext g _ L).
Qed.

Lemma fd_buf g L fd b : counts g L -> fds g !! fd = Some b -> exists y, bufs g !! b = Some y.
Proof.
  intros C E. apply (live_buf _ _ C). unfold buf_refs. pose proof (buf_refs_parts g L b).
  pose proof (msum_ge (fun b' => b2z (b =? b')) (fds g) fd b (fun _ => b2z_nonneg _) E) as Hw. cbn beta in Hw.
  rewrite b2z_eqb_refl in Hw. lia.
Qed.

Lemma member_buf g L f fl b h : counts g L -> files g !! f = Some fl -> (b, h) ∈ prime fl -> exists y, bufs g !! b = Some y.
Proof.
  intros C E Hin. apply (live_buf _ _ C). unfold buf_refs. pose proof (buf_refs_parts g L b).
  pose proof (msum_ge (fun fl => occ b (prime fl).*1) (files g) f fl (fun _ => occ_nonneg _ _) E) as Hw. cbn beta in Hw.
  assert (0 < occ b (prime fl).*1) by (apply occ_pos, list_elem_of_fmap; by exists (b, h)). lia.
Qed.

Lemma obj_buf g L o x b : counts g L -> objs g !! o = Some x -> dma_buf x = Some b \/ import_attach x = Some b ->
  exists y, bufs g !! b = Some y.
Proof.
  intros C E Hx. apply (live_buf _ _ C). unfold buf_refs. pose proof (buf_refs_parts g L b).
  pose proof (msum_ge (fun x => obuf b (dma_buf x) + obuf b (import_attach x)) (objs g) o x (obufs_nonneg b) E) as Hw. cbn beta in Hw.
  pose proof (obuf_nonneg b (dma_buf x)). pose proof (obuf_nonneg b (import_attach x)).
  destruct Hx as [Hx|Hx]; rewrite Hx, obuf_same in *; lia.
Qed.

End share.
