(* ===== verification/DrmGemCreate.v ===== *)
(** * GEM and PRIME: moves that create objects and open and close files *)

From S2P Require Import Prelude Counting Idr DrmMm DrmVma DrmVmaProps DrmGem DrmPrime DrmGemInv DrmGemMoves DrmGemHandles DrmGemShare.

Lemma new_addr_fresh {A} a (m : gmap Z A) : m !! new_addr a m = None /\ 0 < new_addr a m.
Proof.
  unfold new_addr. destruct (_ && _) eqn:E.
  - apply andb_prop in E as [E1%bool_decide_eq_true E2%Z.ltb_lt]. done.
  - set (F := foldr (fun e k => Z.max (e.1 + 1) k) 1). split.
    + destruct (m !! F (map_to_list m)) as [x|] eqn:Ex; [|done]. exfalso.
      assert (forall l k (y : A), (k, y) ∈ l -> k < F l) as Hlt.
      { induction l as [|e l IH]; intros k y Hk; [by apply not_elem_of_nil in Hk|]. apply elem_of_cons in Hk as [<-|Hk]; cbn; [lia|].
        specialize (IH k y Hk). lia. }
      specialize (Hlt (map_to_list m) _ x (proj2 (elem_of_map_to_list m _ x) Ex)). lia.
    + induction (map_to_list m) as [|e l IH]; cbn; lia.
Qed.

Lemma lor_ones_round a n : 0 <= n -> Z.lor a (Z.ones n) + 1 = (a / 2 ^ n + 1) * 2 ^ n.
Proof.
  intros Hn. assert (Z.lor a (Z.ones n) = Z.lor (Z.shiftl (Z.shiftr a n) n) (Z.ones n)) as ->.
  { apply Z.bits_inj_iff'. intros i Hi. rewrite !Z.lor_spec, Z.testbit_ones_nonneg, Z.shiftl_spec by lia.
    destruct (Z.ltb_spec i n); [by rewrite !orb_true_r|]. rewrite Z.shiftr_spec by lia. by replace (i - n + n) with i by lia. }
  rewrite <- Z.add_nocarry_lor.
  - rewrite Z.shiftl_mul_pow2, Z.shiftr_div_pow2, Z.ones_equiv by lia. lia.
  - apply Z.bits_inj_iff'. intros i Hi. rewrite Z.land_spec, Z.testbit_ones_nonneg, Z.shiftl_spec, Z.bits_0 by lia.
    destruct (Z.ltb_spec i n); [|by rewrite andb_false_r]. by rewrite Z.testbit_neg_r by lia.
Qed.

Section create.
Context {S : Type} {RA : range_alloc S} {RAok : range_alloc_ok S RA} {RB : rbtree} {RBok : rbtree_ok RB}.
Context `{idr_ops} `{!idr_laws} {GH : gem_h S} {GHok : gem_h_ok GH}.
Local Notation gem := (gem S).
Implicit Types (g : gem) (L : list tok) (o b f q : Z).

(** ** Objects *)
Section new_object.
Context (g : gem) (L : list tok) (o : Z) (x : drm_gem_object) (m : drm_vma_offset_manager S).
Context (Hi : inv g L) (E : objs g !! o = None) (Hpos : 0 < o).
Context (Hx : refcount x = 1 /\ handle_count x = 0 /\ obj_name x = 0 /\ dma_buf x = None /\ import_attach x = None).
Context (Hm : mgr_ok DRM_FILE_PAGE_OFFSET_START (DRM_FILE_PAGE_OFFSET_START + DRM_FILE_PAGE_OFFSET_SIZE) m).
Context (Hv : forall n, is_Some (vma_abs m !! n) -> n = node_of o \/ is_Some (vma_abs (vma_offset_manager g) !! n)).

Lemma dead_counts : handles g L o = 0 /\ refs g L o = 0.
Proof.
  destruct Hi as [C _]. pose proof (c_rc _ _ C o) as Er. unfold rc in Er. rewrite E in Er. cbn in Er.
  pose proof (handles_nonneg g L o). pose proof (refs_nonneg g L o). lia.
Qed.

Lemma dead_tokR t : t ∈ L -> tokR o t = 0.
Proof.
  intros Ht. destruct dead_counts as [_ Zr]. pose proof (refs_tok g L o). pose proof (lsum_ge (tokR o) L t (tokR_nonneg o) Ht).
  pose proof (tokR_nonneg o t). lia.
Qed.

Lemma new_object_move : inv (set_mgr m (store_obj o x g)) (TNew o :: L).
Proof.
  destruct dead_counts as [Zh Zr]. destruct Hx as (X1 & X2 & X3 & X4 & X5). destruct Hi as [C K].
  assert (forall v, TName (Some (o, v)) ∉ L) as Hnn by (intros v Ht; apply dead_tokR in Ht; cbn in Ht; rewrite b2z_eqb_refl in Ht; lia).
  assert (TNew o ∉ L) as Hnw by (intros Ht; apply dead_tokR in Ht; cbn in Ht; rewrite b2z_eqb_refl in Ht; lia).
  assert (forall b y, bufs g !! b = Some y -> b_priv y <> Some o) as Hnp
    by (intros b y Eb Hy; destruct (live_priv _ _ C b y o Eb Hy); congruence).
  set (g' := set_mgr m (store_obj o x g)).
  assert (forall q, hot g' (TNew o :: L) q <-> hot g L q) as Hh.
  { intros q. unfold hot, hc. cbn. setoid_rewrite elem_of_cons. destruct (decide (q = o)) as [->|Hq]; [|rewrite lookup_insert_ne by done; naive_solver].
    rewrite lookup_insert_eq, E. cbn. naive_solver lia. }
  assert (forall q, ~ (hot g L q /\ q = o)) as Hc by (intros q [[Hc|[v Ht]] ->]; [unfold hc in Hc; rewrite E in Hc; cbn in Hc; lia|by apply Hnn in Ht]).
  assert (forall q y, objs g' !! q = Some y -> (q = o /\ y = x) \/ (q <> o /\ objs g !! q = Some y)) as O1.
  { intros q y. cbn. intros [[<- <-]|[? ?]]%lookup_insert_Some; [by left|by right]. }
  assert (forall q y, objs g !! q = Some y -> objs g' !! q = Some y) as O2.
  { intros q y Eq. cbn. rewrite lookup_insert_ne; [done|]. congruence. }
  assert (forall f q, present g L f q -> present g' (TNew o :: L) f q) as Hp.
  { intros f q [Hq|Hq]; [by left|right]. revert Hq. apply waiting_mono; toks. }
  split; [split|split].
  - intros q. pose proof (c_hc _ _ C q) as Eq. unfold hc, handles in *. cbn. destruct (decide (q = o)) as [->|Hq];
      [rewrite lookup_insert_eq; cbn; lia|by rewrite lookup_insert_ne].
  - intros q. pose proof (c_rc _ _ C q) as Eq. unfold rc, handles, refs in *. cbn. destruct (decide (q = o)) as [->|Hq];
      [rewrite lookup_insert_eq; cbn; weigh; lia|rewrite lookup_insert_ne by done; weigh; lia].
  - intros q y [[-> ->]|[_ Eq]]%O1; [lia|by apply (c_live _ _ C q y)].
  - intros q. pose proof (c_bc _ _ C q) as Eq. unfold bc, buf_refs in *. cbn. rewrite msum_insert, E. cbn. rewrite X4, X5. cbn. lia.
  - apply (c_blive _ _ C).
  - apply (c_uc _ _ C).
  - apply (c_closed _ _ C).
  - intros q y [[-> ->]|[_ Eq]]%O1; [done|by apply (l_pos _ _ K q y)].
  - intros n q. change (object_name_idr g') with (object_name_idr g). rewrite (l_name _ _ K).
    split; intros (Hn & y & Ey & Hy); (split; [done|]); exists y; (split; [|done]).
    + by apply O2.
    + destruct (O1 q y Ey) as [[-> ->]|[_ Eq]]; [congruence|done].
  - intros q y [[-> ->]|[_ Eq]]%O1 Hy; [done|]. apply Hh. by apply (l_named _ _ K q y).
  - intros q y b [[-> ->]|[_ Eq]]%O1 Hy; [congruence|]. apply Hh. by apply (l_cache _ _ K q y b).
  - intros q y b [[-> ->]|[_ Eq]]%O1 Hy; [congruence|]. rewrite Hh. by apply (l_import _ _ K q y b).
  - intros b y q Ey Hy Hq%Hh. destruct (l_priv _ _ K b y q Ey Hy Hq) as (z & Ez & Hz). exists z. split; [by apply O2|done].
  - apply (l_priv1 _ _ K).
  - intros b y q z Ey Hy [[-> ->]|[_ Eq]]%O1; [done|by apply (l_export _ _ K b y q z)].
  - apply (l_foreign _ _ K).
  - intros f fl b h Ef Hin. destruct (l_member _ _ K f fl b h Ef Hin) as (q & y & Ey & Hy & Hpr).
    exists q, y. split_and!; [by apply O2|done|by apply Hp].
  - intros q Ht. rewrite elem_of_cons in Ht. destruct Ht as [[= ->]|Ht].
    + exists x. split_and!; [by apply lookup_insert_eq| |done..]. rewrite Hh. intros Hq. by apply (Hc o).
    + destruct (l_new _ _ K q Ht) as (y & Ey & Hq & Hy & Hb). exists y. rewrite Hh. split_and!; [by apply O2|done..].
  - intros q. pose proof (l_new1 _ _ K q) as Hone. unfold atmost1 in *. cbn. destruct (Z.eqb_spec q o) as [->|]; [|by cbn; lia].
    rewrite lsum_zero; [cbn; lia|]. intros [] Ht; try done. cbn. by destruct (Z.eqb_spec o o0) as [<-|].
  - intros f u l Ht. apply (l_own _ _ K f u l). toks.
  - intros f. apply (l_own1 _ _ K f).
  - intros f q v Ht. destruct (l_prime _ _ K f q v) as (y & Ey & Hpr & Hy); [toks|]. exists y. split_and!; [by apply O2|by apply Hp|done].
  - intros f. apply (l_prime1 _ _ K f).
  - intros q v Ht. destruct (l_naming _ _ K q v) as (y & Ey & Hy); [toks|]. exists y. split; [by apply O2|done].
  - apply (l_name1 _ _ K).
  - destruct (l_offsets _ _ K) as [_ Hl]. split; [done|]. intros n [->|Hn]%Hv.
    + exists x. unfold node_of. rewrite Z2Nat.id by lia. apply lookup_insert_eq.
    + destruct (Hl n Hn) as [y Ey]. exists y. by apply O2.
Qed.
End new_object.

Lemma mgr_move g L m : inv g L ->
  mgr_ok DRM_FILE_PAGE_OFFSET_START (DRM_FILE_PAGE_OFFSET_START + DRM_FILE_PAGE_OFFSET_SIZE) m ->
  (forall n, is_Some (vma_abs m !! n) -> is_Some (vma_abs (vma_offset_manager g) !! n)) -> inv (set_mgr m g) L.
Proof.
  intros [C K] Hm Hv. split; [by destruct C|]. destruct K. split; try done.
  destruct l_offsets as [_ Hl]. split; [done|]. intros n Hn. by apply Hl, Hv.
Qed.

(** The creator's reference is one like any other. *)
Lemma new_ref_move g L o : inv g (TNew o :: L) -> inv g (TRef o :: L).
Proof.
  intros [C K]. split; [by destruct C|].
  apply (relink_toks g g (TNew o :: L)); try done; unfold hot; try (by toks); ones K.
Qed.

Lemma page_mask size : size_ok size -> Z.land size (PAGE_SIZE - 1) = 0 /\ 0 < size / PAGE_SIZE.
Proof.
  intros [Hs Hz]. pose proof page_shift_ok as Hp. unfold PAGE_SIZE in *.
  replace (2 ^ PAGE_SHIFT - 1) with (Z.ones PAGE_SHIFT) by (rewrite Z.ones_equiv; lia).
  rewrite Z.land_ones by lia. split; [done|]. apply Z.div_str_pos. split; [lia|].
  apply Z.mod_divide in Hz; [|lia]. apply Z.divide_pos_le; [lia|done].
Qed.

Definition blank (x : drm_gem_object) : Prop :=
  refcount x = 1 /\ handle_count x = 0 /\ obj_name x = 0 /\ dma_buf x = None /\ import_attach x = None.

Lemma cma_create_object_ok e size g L : inv g L -> size_ok size ->
  exists r g', __drm_gem_cma_create e size g = Done (r, g') /\
    match r with
    | inl _ => inv g' L
    | inr o => inv g' (TNew o :: L) /\ bufs g' = bufs g /\ exists x, objs g' !! o = Some x /\ blank x /\ vaddr x = false
    end.
Proof.
  intros Hi Hs. unfold __drm_gem_cma_create. destruct (e_kzalloc e); cbn; [|by eexists _, _].
  destruct (page_mask size Hs) as [Hz Hp]. unfold drm_gem_private_object_init. rewrite Hz. cbn. mred.
  case_if; [by eexists _, _|]. destruct (new_addr_fresh (e_addr e) (objs g)) as [Ef Hpos].
  set (o := new_addr (e_addr e) (objs g)) in *. set (x := MkObj 1 0 0 size None None false Leaf).
  unfold drm_gem_create_mmap_offset. cbn [objs store_obj set_objs]. rewrite lookup_insert_eq. mred.
  unfold drm_gem_create_mmap_offset_size. cbn [vma_offset_manager store_obj set_objs obj_size x].
  destruct (l_offsets _ _ (proj2 Hi)) as [Hm Hl].
  assert (vma_abs (vma_offset_manager g) !! node_of o = None) as Hn.
  { destruct (vma_abs (vma_offset_manager g) !! node_of o) eqn:En; [|done]. destruct (Hl (node_of o)) as [y Ey]; [by eexists|].
    unfold node_of in Ey. rewrite Z2Nat.id in Ey by lia. congruence. }
  assert (node_of o <> HEAD) as Hh by (unfold node_of, HEAD; lia).
  destruct (vma_add_ok _ _ _ (node_of o) (size / PAGE_SIZE) Hm Hh Hp Hn) as [[-> _]|(m & st & -> & Hm' & _ & Ev)].
  - cbn. mred. unfold drm_gem_object_release, drm_gem_free_mmap_offset. cbn [vma_offset_manager store_obj set_objs set_mgr].
    destruct (vma_remove_ok _ _ _ (node_of o) Hm Hh) as (m & -> & Hm' & Ev). mred. eexists _, _. split; [done|]. cbn.
    rewrite delete_insert_id by done. apply (mgr_move g L m); [done..|]. intros n. rewrite Ev. intros [r [_ Er]%lookup_delete_Some]. by exists r.
  - cbn. mred. eexists _, _. split; [done|]. split; [|split; [done|]].
    + apply (new_object_move g L o x m); try done. intros n. rewrite Ev. intros [r [[<- _]|[_ Er]]%lookup_insert_Some]; [by left|right; by exists r].
    + exists x. cbn. rewrite lookup_insert_eq. done.
Qed.

(** An object that nobody else knows is freed. *)
Lemma free_new_ok g L o x : inv g (TNew o :: L) -> objs g !! o = Some x -> blank x ->
  exists g', drm_gem_cma_free_object o g = Done g' /\ inv g' L.
Proof.
  intros Hi E (X1 & X2 & X3 & X4 & X5). unfold drm_gem_cma_free_object. rewrite E. mred. rewrite X5.
  replace (if vaddr x then Done g else Done g) with (Done g) by (by destruct (vaddr x)).
  pose proof (l_pos _ _ (proj2 Hi) o x E). destruct (l_offsets _ _ (proj2 Hi)) as [Hm _].
  destruct (vma_remove_ok _ _ _ (node_of o) Hm) as (m & Em & Hm' & Hv); [unfold node_of, HEAD; lia|].
  unfold drm_gem_object_release, drm_gem_free_mmap_offset. rewrite Em. mred. eexists. split; [done|].
  pose proof (del_obj_move g L o x m (new_ref_move _ _ _ Hi) E X1 Hm' Hv) as Hd. unfold import_tok in Hd. by rewrite X5 in Hd.
Qed.

Lemma round_up_ok size : 0 < size <= 2 ^ 63 -> size_ok (round_up_page size).
Proof.
  intros Hs. pose proof page_shift_ok as Hp. unfold round_up_page, size_ok, PAGE_SIZE in *.
  rewrite (ul_small (size - 1)) by (unfold is_ul; lia).
  replace (2 ^ PAGE_SHIFT - 1) with (Z.ones PAGE_SHIFT) by (rewrite Z.ones_equiv; lia). rewrite lor_ones_round by lia.
  assert (0 < 2 ^ PAGE_SHIFT <= 2 ^ 32) as Hw by (split; [lia|apply Z.pow_le_mono_r; lia]).
  pose proof (Z.mul_div_le (size - 1) (2 ^ PAGE_SHIFT)) as H1. pose proof (Z.div_pos (size - 1) (2 ^ PAGE_SHIFT)) as H2.
  rewrite ul_small by (unfold is_ul; nia). split; [nia|]. apply Z.mod_mul. lia.
Qed.

Lemma cma_create_ok e size g L : inv g L -> 0 < size <= 2 ^ 63 ->
  exists r g', drm_gem_cma_create e size g = Done (r, g') /\
    match r with
    | inl _ => inv g' L
    | inr o => inv g' (TNew o :: L) /\ exists x, objs g' !! o = Some x /\ blank x
    end.
Proof.
  intros Hi Hs. unfold drm_gem_cma_create.
  destruct (cma_create_object_ok e (round_up_page size) g L Hi (round_up_ok size Hs)) as (r & g1 & -> & Hr). mred.
  destruct r as [err|o]; [by eexists _, _|]. destruct Hr as (Hi1 & _ & x & E & Hb & Hv). destruct (e_dma e); cbn.
  - rewrite E. eexists _, _. split; [done|]. split; [|exists (set_vaddr true x); cbn; by rewrite lookup_insert_eq].
    apply (field_move g1 (TNew o :: L) o x); try done. destruct Hb as (_ & _ & _ & _ & Ei). unfold skel. cbn. by rewrite Ei.
  - destruct (free_new_ok g1 L o x Hi1 E Hb) as (g2 & -> & Hi2). by eexists _, _.
Qed.

(** ** Files *)
Definition set_users (v : Z) (fl : drm_file) : drm_file := MkFile (object_idr fl) (prime fl) v (f_open fl).

Lemma use_start_move g L f fl : inv g L -> files g !! f = Some fl -> f_open fl = true ->
  inv (store_file f (set_users (f_users fl + 1) fl) g) (TUse f :: L).
Proof.
  intros [C K] E Ho. split.
  - apply (counts_file g L _ f fl); try done; cbn; [intros q; tally q f|congruence].
  - apply (links_ext g _ L); [|done]. split; try done. intros q. cbn.
    destruct (decide (q = f)) as [->|Hq]; [by rewrite lookup_insert_eq, E|by rewrite lookup_insert_ne].
Qed.

Lemma use_stop_move g L f : inv g (TUse f :: L) ->
  exists fl, files g !! f = Some fl /\ inv (store_file f (set_users (f_users fl - 1) fl) g) L.
Proof.
  intros [C K]. destruct (use_open _ _ C f (TUse f)) as (fl & E & Ho); [toks|cbn; rewrite b2z_eqb_refl; lia|].
  exists fl. split; [done|]. split.
  - apply (counts_file g (TUse f :: L) _ f fl); try done; cbn; [intros q; tally q f|congruence].
  - apply (links_ext g _ (TUse f :: L)); [|done]. split; try done. intros q. cbn.
    destruct (decide (q = f)) as [->|Hq]; [by rewrite lookup_insert_eq, E|by rewrite lookup_insert_ne].
Qed.

Lemma no_own_open g L f fl u l : links g L -> files g !! f = Some fl -> f_open fl = true -> TOwn f u l ∉ L.
Proof. intros K E Ho Ht. destruct (l_own _ _ K f u l Ht) as (fl0 & E0 & H1 & _). congruence. Qed.

Definition set_open (v : bool) (fl : drm_file) : drm_file := MkFile (object_idr fl) (prime fl) (f_users fl) v.

(** The last descriptor of a file that nobody uses is closed: its handles belong to
    who releases it. *)
Lemma own_start_move g L f fl : inv g L -> files g !! f = Some fl -> f_open fl = true -> f_users fl = 0 ->
  inv (store_file f (set_open false fl) g) (TOwn f true (idr_entries (object_idr fl)).*2 :: L).
Proof.
  intros [C K] E Ho Hu. split.
  - apply (counts_file g L _ f fl); try done; cbn; [|intros q; lia].
    intros q. unfold file_handles. cbn. rewrite Ho. lia.
  - pose proof (fun u l => no_own_open g L f fl u l K E Ho) as Hno.
    apply (links_relink g _ L); [|done]. split; try done; ones K.
    + intros q Hq. unfold hot in *. toks.
    + intros q Hq. left. unfold hot in *. toks.
    + intros q o [(fl0 & h & E0 & H1 & Hh)|Hq]; [|right; revert Hq; apply waiting_mono; toks].
      destruct (decide (q = f)) as [->|Hne].
      * right. right. rewrite E in E0. injection E0 as <-. eexists _, _. split; [by apply elem_of_cons; left|].
        apply list_elem_of_fmap. exists (h, o). split; [done|]. by apply entries_find.
      * left. cbn. rewrite lookup_insert_ne by done. by eexists _, _.
    + intros q flq b h. cbn. intros [[<- <-]|[Hne Eq]]%lookup_insert_Some Hin; left; [by exists fl|by exists flq].
    + toks.
    + intros q u l Ht. cbn. rewrite elem_of_cons in Ht. destruct Ht as [[= -> -> ->]|Ht].
      * rewrite lookup_insert_eq. by eexists.
      * destruct (decide (q = f)) as [->|Hne]; [by destruct (Hno u l)|]. rewrite lookup_insert_ne by done. by apply (l_own _ _ K q u l).
    + intros q. pose proof (l_own1 _ _ K q) as Hone. unfold atmost1 in *. cbn. destruct (Z.eqb_spec q f) as [->|]; [|by cbn; lia].
      rewrite lsum_zero; [cbn; lia|]. intros [] Ht; try done. cbn. destruct (Z.eqb_spec f f0) as [<-|]; [by destruct (Hno unread l)|done].
    + intros q o v Ht. left. toks.
    + intros q v Ht. left. toks.
Qed.

Lemma file_open_move g L f : inv g L -> files g !! f = None -> inv (drm_gem_open f g) L.
Proof.
  intros [C K] E. split.
  - pose proof (c_uc _ _ C f) as Eu. unfold uc in Eu. rewrite E in Eu. cbn in Eu.
    destruct C as [C1 C2 C3 C4 C5 C6 C7].
    assert (forall q, handles (drm_gem_open f g) L q = handles g L q) as Eh.
    { intros q. unfold handles. cbn [files drm_gem_open store_file set_files]. rewrite msum_insert, E. cbn [osum].
      assert (file_handles q (MkFile idr_init [] 0 true) = 0) as -> by (unfold file_handles; cbn; by rewrite entries_init). lia. }
    split; try done.
    + intros q. rewrite Eh. apply C1.
    + intros q. rewrite Eh. apply C2.
    + intros q. specialize (C4 q). unfold bc, buf_refs in *. cbn. rewrite msum_insert, E. cbn. change (occ q []) with 0. lia.
    + intros q. specialize (C6 q). unfold uc in *. cbn. destruct (decide (q = f)) as [->|Hq]; [by rewrite lookup_insert_eq|by rewrite lookup_insert_ne].
    + intros q fl. cbn. intros [[<- <-]|[Hq Eq]]%lookup_insert_Some; [done|]. by apply (C7 q).
  - assert (forall u l, TOwn f u l ∉ L) as Hno.
    { intros u l Ht. destruct (l_own _ _ K f u l Ht) as (fl & E0 & _). congruence. }
    apply (links_relink g _ L); [|done]. split; try done; try (by destruct K).
    + intros q Hq. by left.
    + intros q o [(fl0 & h & E0 & H1 & Hh)|Hq]; [|by right]. left. cbn. rewrite lookup_insert_ne by congruence. by eexists _, _.
    + intros q flq b h. cbn. intros [[<- <-]|[Hne Eq]]%lookup_insert_Some Hin; [by apply not_elem_of_nil in Hin|left; by exists flq].
    + intros q u l Ht. cbn. rewrite lookup_insert_ne; [by apply (l_own _ _ K q u l)|]. intros ->. by destruct (Hno u l).
    + intros q o v Ht. by left.
    + intros q v Ht. by left.
Qed.

(** A dma-buf of another driver appears with a descriptor. *)
Lemma foreign_move g L b fd size : inv g L -> bufs g !! b = None -> fds g !! fd = None -> size_ok size ->
  inv (set_fds (<[fd := b]> (fds g)) (store_buf b (MkBuf 1 None size) g)) L.
Proof.
  intros [C K] E Ed Hs. split.
  - pose proof (c_bc _ _ C b) as Eb. unfold bc, buf_refs in Eb. rewrite E in Eb. cbn in Eb.
    destruct C as [C1 C2 C3 C4 C5 C6 C7]. split; try done.
    + intros q. specialize (C2 q). unfold rc, handles, refs in *. cbn. rewrite msum_insert, E. cbn. lia.
    + intros q. specialize (C4 q). unfold bc, buf_refs in *. cbn. rewrite msum_insert, Ed. cbn.
      destruct (decide (q = b)) as [->|Hq]; [rewrite lookup_insert_eq; cbn; weigh; lia|rewrite lookup_insert_ne by done; weigh; lia].
    + intros q y. cbn. intros [[<- <-]|[Hq Ey]]%lookup_insert_Some; [done|]. by apply (C5 q y).
  - destruct K. split; try done; cbn.
    + intros o x c Ex Hx. destruct (l_import o x c Ex Hx) as (Hv & (y & Ey & Hy) & Hc). split_and!; [done| |done].
      exists y. rewrite lookup_insert_ne by congruence. done.
    + intros c y o [[<- <-]|[Hc Ey]]%lookup_insert_Some Hy; [done|]. by apply (l_priv c y).
    + intros c y d z o [[<- <-]|[Hc Ey]]%lookup_insert_Some [[<- <-]|[Hd Ez]]%lookup_insert_Some Hy Hz; try done. by apply (l_priv1 c y d z o).
    + intros c y o x [[<- <-]|[Hc Ey]]%lookup_insert_Some Hy; [done|]. by apply (l_export c y o x).
    + intros c y [[<- <-]|[Hc Ey]]%lookup_insert_Some Hy; [done|]. by apply (l_foreign c y).
    + intros o Ht. destruct (l_new o Ht) as (x & Ex & Hc & Hx & Hb). exists x. split_and!; [done..|].
      intros c y [[<- <-]|[Hd Ey]]%lookup_insert_Some; [done|]. by apply (Hb c y).
Qed.

Lemma init_inv : inv drm_gem_init [].
Proof.
  split; split; try done; cbn.
  - intros n o. rewrite find_init. split; [done|]. intros (_ & x & E & _). by rewrite lookup_empty in E.
  - intros o Ht. by apply not_elem_of_nil in Ht.
  - intros f u l Ht. by apply not_elem_of_nil in Ht.
  - intros f o v Ht. by apply not_elem_of_nil in Ht.
  - intros o v Ht. by apply not_elem_of_nil in Ht.
  - destruct file_offsets as (F1 & F2 & F3).
    pose proof (vma_reachable_ok _ _ _ F1 F2 F3 (vma_reach_init _ _)) as Hm. split; [done|].
    intros n. unfold vma_abs. cbn. rewrite (proj2 (ra_init_law _ _ F1 F2 F3)). intros [r Er]. by rewrite lookup_empty in Er.
Qed.

End create.
