(* ===== verification/DrmGemWp.v ===== *)
(** * GEM and PRIME: programs that keep the invariant

    A weakest precondition for programs of critical sections: a thread that holds
    some tokens runs a section on any state in which the invariant holds for its
    tokens and those of all other threads, and then holds other tokens.  Mutexes are
    taken in the order of their ranks.  The lemmas are the specifications of the
    operations of drm_gem.c and drm_prime.c. *)

From S2P Require Import Prelude Counting Idr DrmMm DrmVma DrmVmaProps DrmGem DrmPrime DrmGemInv DrmGemMoves DrmGemHandles DrmGemShare DrmGemCreate.

(** The mutex that a token stands for. *)
Definition lock_of (t : tok) : option mutex :=
  match t with TName _ => Some object_name_lock | TPrime f _ => Some (prime_lock f) | _ => None end.
Definition held (T : list tok) : list mutex := omap lock_of T.

Definition lock_tok (m : mutex) : tok :=
  match m with object_name_lock => TName None | prime_lock f => TPrime f None end.

(** A token that can be given up with the mutex. *)
Definition unlocks (m : mutex) (t : tok) : Prop :=
  match m with object_name_lock => t = TName None | prime_lock f => exists s, t = TPrime f s end.

Definition rank (m : mutex) : Z := match m with prime_lock _ => 0 | object_name_lock => 1 end.

Lemma held_perm T T' : T ≡ₚ T' -> held T ≡ₚ held T'.
Proof. intros Hp. unfold held. by rewrite Hp. Qed.

Section wp.
Context {S : Type} {RA : range_alloc S} {RAok : range_alloc_ok S RA} {RB : rbtree} {RBok : rbtree_ok RB}.
Context `{idr_ops} `{!idr_laws} {GH : gem_h S} {GHok : gem_h_ok GH}.
Local Notation gem := (gem S).
Implicit Types (g : gem) (T F : list tok) (o b f : Z).

(** With [lax], a thread that holds nothing but the use of a file may follow a bad
    pointer. *)
Definition idle (T : list tok) : Prop := exists f, T ≡ₚ [TUse f].

(** The tables of handles are not full. *)
Definition roomy g : Prop :=
  forall f fl o, files g !! f = Some fl -> 0 <= (idr_alloc true o 1 (object_idr fl)).1.

Fixpoint wp {A} (lax : bool) (p : prog gem A) (T : list tok) (Q : A -> list tok -> Prop) : Prop :=
  match p with
  | Ret a => exists T', T ≡ₚ T' /\ Q a T'
  | Sec f k => forall g F, roomy g -> inv g (T ++ F) ->
      match f g with
      | Done (r, g') => exists T', inv g' (T' ++ F) /\ held T' ≡ₚ held T /\ wp lax (k r) T' Q
      | Oops => lax = true /\ idle T
      | Loops => False
      end
  | Lock m p => Forall (fun m' => rank m' < rank m) (held T) /\ wp lax p (lock_tok m :: T) Q
  | Unlock m p => exists t T', T ≡ₚ t :: T' /\ unlocks m t /\ wp lax p T' Q
  end.

Lemma wp_perm {A} lax (p : prog gem A) T T' Q : T ≡ₚ T' -> wp lax p T Q -> wp lax p T' Q.
Proof.
  revert T T'. induction p as [a|R f k IH|m p IH|m p IH]; intros T T' Hp; cbn.
  - intros (T0 & H1 & HQ). exists T0. split; [by rewrite <- Hp|done].
  - intros Hw g F Hr Hi. specialize (Hw g F Hr). rewrite Hp in Hw. specialize (Hw Hi). destruct (f g) as [[r g']| |]; [|destruct Hw as [? [f0 ?]]; split; [done|exists f0; by rewrite <- Hp]|done].
    destruct Hw as (T0 & Hi' & Hh & Hk). exists T0. split_and!; [done| |done]. by rewrite Hh, (held_perm _ _ Hp).
  - intros [Hf Hw]. split; [by rewrite <- (held_perm _ _ Hp)|]. apply (IH (lock_tok m :: T)); [by rewrite Hp|done].
  - intros (t & T0 & H1 & Hu & Hw). exists t, T0. by rewrite <- Hp.
Qed.

Lemma wp_mono {A} lax (p : prog gem A) T (Q Q' : A -> list tok -> Prop) :
  (forall a T, Q a T -> Q' a T) -> wp lax p T Q -> wp lax p T Q'.
Proof.
  intros HQ. revert T. induction p as [a|R f k IH|m p IH|m p IH]; intros T; cbn.
  - intros (T0 & H1 & H2). exists T0. auto.
  - intros Hw g F Hr Hi. specialize (Hw g F Hr Hi). destruct (f g) as [[r g']| |]; [|done|done].
    destruct Hw as (T0 & Hi' & Hh & Hk). exists T0. auto.
  - intros [Hf Hw]. auto.
  - intros (t & T0 & H1 & Hu & Hw). exists t, T0. auto.
Qed.

Lemma wp_bind {A B} lax (p : prog gem A) (k : A -> prog gem B) T Q :
  wp lax p T (fun a T' => wp lax (k a) T' Q) -> wp lax (p ≫= k) T Q.
Proof.
  revert T. induction p as [a|R f k' IH|m p IH|m p IH]; intros T; cbn.
  - intros (T0 & H1 & H2). by apply (wp_perm _ _ T0).
  - intros Hw g F Hr Hi. specialize (Hw g F Hr Hi). destruct (f g) as [[r g']| |]; [|done|done].
    destruct Hw as (T0 & Hi' & Hh & Hk). exists T0. split_and!; [done..|]. by apply IH.
  - intros [Hf Hw]. split; [done|]. by apply IH.
  - intros (t & T0 & H1 & Hu & Hw). exists t, T0. split_and!; [done..|]. by apply IH.
Qed.

Lemma wp_lax {A} (p : prog gem A) lax T Q : wp false p T Q -> wp lax p T Q.
Proof.
  revert T. induction p as [a|R f k IH|m p IH|m p IH]; intros T; cbn.
  - done.
  - intros Hw g F Hr Hi. specialize (Hw g F Hr Hi). destruct (f g) as [[r g']| |]; [|by destruct Hw|done].
    destruct Hw as (T0 & Hi' & Hh & Hk). exists T0. auto.
  - intros [Hf Hw]. auto.
  - intros (t & T0 & H1 & Hu & Hw). exists t, T0. auto.
Qed.

Lemma wp_ret {A} lax (a : A) T (Q : A -> list tok -> Prop) : Q a T -> wp lax (Ret a) T Q.
Proof. intros HQ. by exists T. Qed.

(** The tokens may change without a step. *)
Lemma wp_conv {A} lax T T' (p : prog gem A) Q : held T' = held T -> (forall g F, inv g (T ++ F) -> inv g (T' ++ F)) ->
  match p with Sec _ _ => True | _ => False end -> wp lax p T' Q -> ~ idle T' -> wp lax p T Q.
Proof.
  intros Hh Hc Hs Hw Hn. destruct p as [|R f k| |]; [done| |done|done]. intros g F Hr Hi. specialize (Hw g F Hr (Hc g F Hi)).
  destruct (f g) as [[r g']| |]; [|by destruct Hw|done]. by rewrite <- Hh.
Qed.

Lemma wp_sec {R : Set} lax (f : gem -> run (R * gem)) T (Q : R -> list tok -> Prop) :
  (forall g F, inv g (T ++ F) -> exists r g' T', f g = Done (r, g') /\ inv g' (T' ++ F) /\ held T' ≡ₚ held T /\ Q r T') ->
  wp lax (sec f) T Q.
Proof.
  intros Hf g F _ Hi. destruct (Hf g F Hi) as (r & g' & T' & -> & Hi' & Hh & HQ). exists T'. split_and!; [done..|]. by exists T'.
Qed.

Lemma wp_sec_room {R : Set} lax (f : gem -> run (R * gem)) T (Q : R -> list tok -> Prop) :
  (forall g F, roomy g -> inv g (T ++ F) ->
     exists r g' T', f g = Done (r, g') /\ inv g' (T' ++ F) /\ held T' ≡ₚ held T /\ Q r T') ->
  wp lax (sec f) T Q.
Proof.
  intros Hf g F Hr Hi. destruct (Hf g F Hr Hi) as (r & g' & T' & -> & Hi' & Hh & HQ). exists T'. split_and!; [done..|]. by exists T'.
Qed.

Lemma wp_sec_ lax (f : gem -> run gem) T (Q : unit -> list tok -> Prop) :
  (forall g F, inv g (T ++ F) -> exists g' T', f g = Done g' /\ inv g' (T' ++ F) /\ held T' ≡ₚ held T /\ Q tt T') ->
  wp lax (sec_ f) T Q.
Proof.
  intros Hf g F _ Hi. destruct (Hf g F Hi) as (g' & T' & -> & Hi' & Hh & HQ). mred. exists T'. split_and!; [done..|]. by exists T'.
Qed.

Lemma wp_lock lax m T (Q : unit -> list tok -> Prop) :
  Forall (fun m' => rank m' < rank m) (held T) -> Q tt (lock_tok m :: T) -> wp lax (mutex_lock m) T Q.
Proof. intros Hf HQ. split; [done|]. by exists (lock_tok m :: T). Qed.

Lemma wp_unlock lax m t T (Q : unit -> list tok -> Prop) : unlocks m t -> Q tt T -> wp lax (mutex_unlock m) (t :: T) Q.
Proof. intros Hu HQ. exists t, T. split_and!; [done..|]. by exists T. Qed.

(** ** Sections and their effect on tokens *)

(** The invariant with the tokens in another order. *)
Lemma reorder g L L' : inv g L -> L ≡ₚ L' -> inv g L'.
Proof. intros Hi Hp. by apply (inv_perm g L). Qed.

Lemma wp_unref lax o T (Q : unit -> list tok -> Prop) : Q tt T ->
  wp lax (drm_gem_object_unreference_unlocked o) (TRef o :: T) Q.
Proof.
  intros HQ. apply wp_sec_. intros g F Hi. destruct (unref_ok g (T ++ F) o Hi) as (g' & Eg & Hi'). by exists g', T.
Qed.

Lemma wp_put lax b T (Q : unit -> list tok -> Prop) : Q tt T -> wp lax (sec_ (dma_buf_put b)) (TBuf b :: T) Q.
Proof.
  intros HQ. apply wp_sec_. intros g F Hi. destruct (put_ok g (T ++ F) b Hi) as (g' & Eg & Hi'). by exists g', T.
Qed.

(** Nothing happens to an object that is held, except to its open files. *)
Lemma wp_revoke lax o f T (Q : unit -> list tok -> Prop) : Q tt (THnd o :: T) ->
  wp lax (sec_ (drm_vma_revoke o f)) (THnd o :: T) Q.
Proof.
  intros HQ. apply wp_sec_. intros g F Hi. destruct (live_tokH _ _ (proj1 Hi) o (THnd o)) as (x & E & _);
    [cbn; toks|cbn; rewrite b2z_eqb_refl; lia|].
  unfold drm_vma_revoke. rewrite E. mred. eexists _, (THnd o :: T). split_and!; [done| |done..].
  by apply (field_move g _ o x).
Qed.

Lemma wp_allow lax mem o f T (Q : Z -> list tok -> Prop) : (forall ret, Q ret (TRef o :: T)) ->
  wp lax (sec (drm_vma_allow mem o f)) (TRef o :: T) Q.
Proof.
  intros HQ. apply wp_sec. intros g F Hi. destruct (live_TRef _ _ (proj1 Hi) o) as (x & E); [cbn; toks|].
  unfold drm_vma_allow. rewrite E. mred. destruct (drm_vma_node_allow _ _ _) as [ret t].
  eexists ret, _, (TRef o :: T). split_and!; [done| |done|done]. by apply (field_move g _ o x).
Qed.

Definition uncache o g : gem := set_objs (alter (set_dma_buf None) o (objs g)) g.

(** A put does not change which dma-buf an object has. *)
Definition keeps g g' : Prop := forall o x', objs g' !! o = Some x' -> exists x, objs g !! o = Some x /\ dma_buf x' = dma_buf x.

(** ** The last handle *)
Lemma uncount_ok g L o : inv g (TName None :: THnd o :: L) ->
  exists g', handle_uncount o g = Done g' /\ inv g' (TName None :: TRef o :: L).
Proof.
  intros Hi. destruct (live_tokH _ _ (proj1 Hi) o (THnd o)) as (x & E & Hx); [toks|cbn; rewrite b2z_eqb_refl; lia|].
  unfold handle_uncount. rewrite E. mred. destruct (Z.eqb_spec (handle_count x - 1) 0) as [Hc|Hc].
  2:{ eexists. split; [done|]. pose proof (c_live _ _ (proj1 Hi) o x E).
      apply (move_obj g (TName None :: THnd o :: L) _ o x); try done; cbn; [lia|intros q; tally q o|intros q; lia]. }
  pose proof (uncount_move g L o x Hi E ltac:(lia)) as Hu. set (gc := store_obj o (cold x) _) in Hu.
  set (g1 := store_obj o (set_handle_count (handle_count x - 1) x) g).
  assert (exists g2, drm_gem_object_handle_free o g1 = Done g2 /\ uncache o g2 = gc /\
    exists x2, objs g2 !! o = Some x2 /\ dma_buf x2 = dma_buf x) as (g2 & -> & Eg & x2 & E2 & Hb2).
  { unfold drm_gem_object_handle_free. cbn [objs g1 store_obj set_objs]. rewrite lookup_insert_eq. mred. cbn [obj_name set_handle_count].
    unfold gc, unname, uncache, store_obj, set_objs, cold. destruct (truth (obj_name x)) eqn:En; eexists; (split; [done|]); cbn;
      rewrite ?insert_insert_eq, alter_insert_eq, lookup_insert_eq; (split; [|by eexists]); [by rewrite Hc|].
    unfold truth in En. b2p. unfold set_names. cbn. rewrite Hc. by destruct x; cbn in *; subst. }
  mred. unfold drm_gem_object_exported_dma_buf_free. rewrite E2. mred. rewrite Hb2. unfold cache_tok in Hu.
  destruct (dma_buf x) as [b|] eqn:Eb; cbn [app] in Hu.
  - destruct (put_step gc (TName None :: TRef o :: L) b) as (m & l & Hput & Hi3).
    { apply (reorder _ _ _ Hu). cbn. rewrite (Permutation_swap (TBuf b)). by rewrite (Permutation_swap (TBuf b) (TName None)). }
    rewrite (Hput g2) by (by rewrite <- Eg). cbn [objs set_released set_bufs]. mred. rewrite E2. eexists. split; [done|].
    enough (store_obj o (set_dma_buf None x2) (set_released l (set_bufs m g2)) = set_released l (set_bufs m gc)) as -> by done.
    rewrite <- Eg. unfold uncache, store_obj, set_objs, set_released, set_bufs. cbn. f_equal. apply map_eq. intros q.
    destruct (decide (q = o)) as [->|Hq]; [by rewrite lookup_insert_eq, lookup_alter_eq, E2|].
    by rewrite lookup_insert_ne, lookup_alter_ne by done.
  - exists g2. split; [done|]. replace g2 with gc; [done|]. rewrite <- Eg. unfold uncache, set_objs. destruct g2; cbn in *. f_equal.
    apply map_eq. intros q. destruct (decide (q = o)) as [->|Hq]; [|by rewrite lookup_alter_ne].
    rewrite lookup_alter_eq, E2. cbn. by destruct x2; cbn in *; subst.
Qed.

Lemma wp_handle_unref lax o T (Q : unit -> list tok -> Prop) : Forall (fun m => rank m < 1) (held T) -> Q tt T ->
  wp lax (drm_gem_object_handle_unreference_unlocked o) (THnd o :: T) Q.
Proof.
  intros Hl HQ. unfold drm_gem_object_handle_unreference_unlocked. apply wp_bind, wp_sec. intros g F Hi.
  destruct (live_tokH _ _ (proj1 Hi) o (THnd o)) as (x & E & Hx); [cbn; toks|cbn; rewrite b2z_eqb_refl; lia|].
  rewrite E. mred. eexists _, _, (THnd o :: T). split_and!; [done..|]. destruct (Z.eqb_spec (handle_count x) 0); [lia|].
  apply wp_bind, wp_lock; [done|]. apply wp_bind, wp_sec_. clear g F Hi x E Hx n. intros g F Hi.
  destruct (uncount_ok g (T ++ F) o Hi) as (g' & Eg & Hi'). exists g', (TName None :: TRef o :: T). split_and!; [done..|].
  apply wp_bind, wp_unlock; [done|]. by apply wp_unref.
Qed.

(** ** The list of a file *)
Lemma remove_walk_ok f b kept l g L fl : inv g L -> files g !! f = Some fl -> prime fl = kept ++ l ->
  (forall h, (b, h) ∉ kept) ->
  exists g' fl', remove_walk f b kept l g = Done g' /\ inv g' L /\ keeps g g' /\ files g' !! f = Some fl' /\
    forall h, (b, h) ∉ prime fl'.
Proof.
  revert kept g fl. induction l as [|[c h] l IH]; intros kept g fl Hi E Ep Hk.
  { exists g, fl. split_and!; [done..|by intros o x; exists x|done|]. by rewrite Ep, app_nil_r. }
  cbn [remove_walk fst]. destruct (Z.eqb_spec c b) as [->|Hne].
  - pose proof (member_del_move g L f fl kept b h l Hi E Ep) as Hd. destruct (put_step _ _ _ Hd) as (m & r & Hput & Hi1).
    rewrite (Hput g) by done. mred. cbn [files set_released set_bufs]. rewrite E. set (g2 := set_released r (set_bufs m g)) in *.
    destruct (IH kept (store_file f (set_prime (kept ++ l) fl) g2) (set_prime (kept ++ l) fl))
      as (g' & fl' & Er & Hi' & Hkp & Ef' & Hn); [done|by apply lookup_insert_eq|done|done|].
    by exists g', fl'.
  - destruct (IH (kept ++ [(c, h)]) g fl) as (g' & fl' & Er & Hr); [done|done|by rewrite <- app_assoc| |by exists g', fl'].
    intros k. rewrite elem_of_app, elem_of_cons. pose proof (Hk k). pose proof (not_elem_of_nil (b, k)). naive_solver.
Qed.

(** The section of [drm_gem_remove_prime_handles]. *)
Lemma remove_prime_ok g L f o x fl : inv g L -> objs g !! o = Some x -> files g !! f = Some fl ->
  exists g', match dma_buf x with Some b => drm_prime_remove_buf_handle_locked f b g | None => Done g end = Done g' /\
    inv g' L /\ unlisted g' f o.
Proof.
  intros Hi E Ef. destruct (dma_buf x) as [b|] eqn:Eb.
  - unfold drm_prime_remove_buf_handle_locked. rewrite Ef. mred.
    destruct (remove_walk_ok f b [] (prime fl) g L fl Hi Ef eq_refl) as (g' & fl' & -> & Hi' & Hk & Ef' & Hn); [intros h; apply not_elem_of_nil|].
    exists g'. split_and!; [done..|]. intros fl0 c h x' E0 Hin Ex' Hc. destruct (Hk o x' Ex') as (x0 & Ex0 & Hx0).
    assert (c = b /\ fl0 = fl') as [-> ->] by (split; congruence). by destruct (Hn h).
  - exists g. split_and!; [done..|]. intros fl0 c h x' E0 Hin Ex' Hc. congruence.
Qed.

(** What is needed of tokens that tell of an object and its file. *)
Lemma wp_remove_prime lax o f T1 T2 (Q : unit -> list tok -> Prop) : held T1 = [] -> held T2 = [] ->
  (forall g F, inv g (TPrime f None :: T1 ++ F) -> exists x fl, objs g !! o = Some x /\ files g !! f = Some fl) ->
  (forall g F, inv g (TPrime f None :: T1 ++ F) -> unlisted g f o -> inv g (TPrime f None :: T2 ++ F)) ->
  Q tt T2 -> wp lax (drm_gem_remove_prime_handles o f) T1 Q.
Proof.
  intros Hh1 Hh2 Hlive Hmove HQ. unfold drm_gem_remove_prime_handles. apply wp_bind, wp_lock; [by rewrite Hh1|].
  apply wp_bind, wp_sec_. intros g F Hi. destruct (Hlive g F Hi) as (x & fl & E & Ef).
  destruct (remove_prime_ok g _ f o x fl Hi E Ef) as (g' & Eg & Hi' & Hu). rewrite E. mred. rewrite Eg.
  exists g', (TPrime f None :: T2). split_and!; [done|by apply Hmove|unfold held in *; cbn; by rewrite Hh1, Hh2|].
  apply wp_unlock; [by exists None|done].
Qed.

Lemma wp_remove_prime_pend lax o f T (Q : unit -> list tok -> Prop) : held T = [] -> Q tt (THnd o :: TUse f :: T) ->
  wp lax (drm_gem_remove_prime_handles o f) (TPend f o :: T) Q.
Proof.
  intros Hh HQ. apply (wp_remove_prime lax o f _ (THnd o :: TUse f :: T)); [done|done| | |done].
  - intros g F Hi. destruct (live_tokH _ _ (proj1 Hi) o (TPend f o)) as (x & E & _); [cbn; toks|cbn; rewrite b2z_eqb_refl; lia|].
    destruct (use_open _ _ (proj1 Hi) f (TPend f o)) as (fl & Ef & _); [cbn; toks|cbn; rewrite b2z_eqb_refl; lia|]. by exists x, fl.
  - intros g F Hi Hu. by apply pend_move.
Qed.

Lemma wp_remove_prime_own lax o f u l T (Q : unit -> list tok -> Prop) : held T = [] -> Q tt (THnd o :: TOwn f false l :: T) ->
  wp lax (drm_gem_remove_prime_handles o f) (TOwn f u (o :: l) :: T) Q.
Proof.
  intros Hh HQ. apply (wp_remove_prime lax o f _ (THnd o :: TOwn f false l :: T)); [done|done| | |done].
  - intros g F Hi. destruct (live_tokH _ _ (proj1 Hi) o (TOwn f u (o :: l))) as (x & E & _);
      [cbn; toks|cbn; unfold occ; cbn; rewrite b2z_eqb_refl; pose proof (occ_nonneg o l); unfold occ in *; lia|].
    destruct (l_own _ _ (proj2 Hi) f u (o :: l)) as (fl & Ef & _); [cbn; toks|]. by exists x, fl.
  - intros g F Hi Hu. by apply (own_move _ _ _ u).
Qed.

(** ** Handles *)
Lemma wp_handle_delete lax f h T (Q : Z -> list tok -> Prop) : held T = [] -> (forall r, Q r (TUse f :: T)) ->
  wp lax (drm_gem_handle_delete f h) (TUse f :: T) Q.
Proof.
  intros Hh HQ. unfold drm_gem_handle_delete. apply wp_bind, wp_sec. intros g F Hi.
  destruct (use_open _ _ (proj1 Hi) f (TUse f)) as (fl & Ef & Ho); [cbn; toks|cbn; rewrite b2z_eqb_refl; lia|].
  unfold handle_remove. rewrite Ef. mred. destruct (idr_find (object_idr fl) h) as [o|] eqn:Eh.
  2:{ eexists None, g, (TUse f :: T). split_and!; [done..|]. by apply wp_ret. }
  destruct (present_live _ _ (proj1 Hi) f o) as (x & E & _); [left; by exists fl, h|]. rewrite E.
  eexists (Some o), _, (TPend f o :: T). split_and!; [done|by apply idr_out_move|done|].
  apply wp_bind, wp_remove_prime_pend; [done|]. apply wp_bind, wp_revoke. apply wp_bind, wp_handle_unref; [unfold held in *; cbn; by rewrite Hh|].
  by apply wp_ret.
Qed.

Lemma set_idr_id (fl : drm_file) : set_idr (object_idr fl) fl = fl.
Proof. by destruct fl. Qed.

Lemma handle_add_ok e g L f o v : inv g (TName (Some (o, v)) :: TUse f :: L) ->
  exists ret g', handle_add e f o g = Done (ret, g') /\
    (exists x, objs g' !! o = Some x /\ forall b, v = Some b -> dma_buf x = Some b) /\
    if ret <? 0 then inv g' (TName None :: TRef o :: THnd o :: TUse f :: L)
    else inv g' (TName None :: TRef o :: TUse f :: L) /\ exists fl, files g' !! f = Some fl /\ f_open fl = true /\ idr_find (object_idr fl) ret = Some o.
Proof.
  intros Hi. destruct (l_naming _ _ (proj2 Hi) o v) as (x & E & Hv); [toks|].
  destruct (use_open _ _ (proj1 Hi) f (TUse f)) as (fl & Ef & Ho); [toks|cbn; rewrite b2z_eqb_refl; lia|].
  pose proof (hnd_move g _ o x v Hi E) as Hm. unfold handle_add. rewrite Ef. mred.
  destruct (idr_alloc (e_idr e) o 1 (object_idr fl)) as [ret m] eqn:Ea. unfold drm_gem_object_reference.
  cbn [objs store_file set_files]. rewrite E. mred. cbn [objs store_obj set_objs]. rewrite lookup_insert_eq. mred.
  set (x' := set_handle_count (handle_count x + 1) (set_refcount (refcount x + 1) x)) in *.
  assert (forall m', store_obj o (set_handle_count (handle_count (set_refcount (refcount x + 1) x) + 1) (set_refcount (refcount x + 1) x))
    (store_obj o (set_refcount (refcount x + 1) x) (store_file f m' g)) = store_file f m' (store_obj o x' g)) as Eg.
  { intros m'. unfold store_obj, store_file, set_objs, set_files. cbn. by rewrite insert_insert_eq. }
  rewrite Eg. exists ret. eexists. split; [done|]. split; [exists x'; cbn; by rewrite lookup_insert_eq|].
  destruct (Z.ltb_spec ret 0) as [Hr|Hr].
  - rewrite (alloc_fails _ _ _ _ _ _ Ea Hr). replace (store_file f (set_idr (object_idr fl) fl) (store_obj o x' g)) with (store_obj o x' g); [done|].
    unfold store_file, set_files. cbn. rewrite set_idr_id, (insert_id (files g) f fl Ef). by destruct g.
  - split.
    + apply (idr_in_move (store_obj o x' g) _ f fl o (e_idr e) ret m); try done. apply (reorder _ _ _ Hm). solve_Permutation.
    + exists (set_idr m fl). cbn. rewrite lookup_insert_eq. split_and!; [done..|]. rewrite (alloc_find _ _ _ _ _ _ _ Ea Hr). by rewrite Z.eqb_refl.
Qed.

Lemma wp_create_tail lax e f o v T (Q : Z * Z -> list tok -> Prop) : held T = [] ->
  (forall r, Q r (TRef o :: TUse f :: T)) -> wp lax (drm_gem_handle_create_tail e f o) (TName (Some (o, v)) :: TUse f :: T) Q.
Proof.
  intros Hh HQ. unfold drm_gem_handle_create_tail. apply wp_bind, wp_sec. intros g F Hi.
  destruct (handle_add_ok e g (T ++ F) f o v Hi) as (ret & g' & Eg & _ & Hr).
  exists ret, g'. destruct (ret <? 0) eqn:Er.
  - exists (TName None :: TRef o :: THnd o :: TUse f :: T). split_and!; [done..|].
    apply wp_bind, wp_unlock; [done|]. apply wp_bind, (wp_perm _ _ (THnd o :: TRef o :: TUse f :: T)); [solve_Permutation|].
    apply wp_handle_unref; [unfold held in *; cbn; by rewrite Hh|]. by apply wp_ret.
  - exists (TName None :: TRef o :: TUse f :: T). split_and!; [done|apply Hr|done|].
    apply wp_bind, wp_unlock; [done|]. apply wp_bind, wp_allow. intros ret'.
    assert (forall r, wp lax (_ ← drm_gem_handle_delete f ret; Ret (r, ret)) (TRef o :: TUse f :: T) Q) as Hd.
    { intros r. apply wp_bind, (wp_perm _ _ (TUse f :: TRef o :: T)); [solve_Permutation|]. apply wp_handle_delete; [done|].
      intros r'. apply (wp_perm _ _ (TRef o :: TUse f :: T)); [solve_Permutation|]. by apply wp_ret. }
    destruct (truth ret'); [apply Hd|]. destruct (truth (e_open e)); [apply Hd|]. by apply wp_ret.
Qed.

Lemma allow_ok t f : (drm_vma_node_allow true t f).1 = 0.
Proof. unfold drm_vma_node_allow. by destruct (allow_walk f t) as [[] ?]. Qed.

(** With the lock of the file's list held, nothing may go wrong after the handle is
    in the table. *)
Lemma wp_create_tail_prime lax e f o v T (Q : Z * Z -> list tok -> Prop) : held T = [] -> e_allow e = true -> e_open e = 0 ->
  (forall ret, ret < 0 -> Q (ret, 0) (TRef o :: TPrime f None :: TUse f :: T)) ->
  (forall h, Q (0, h) (TRef o :: TPrime f (Some (o, v)) :: TUse f :: T)) ->
  wp lax (drm_gem_handle_create_tail e f o) (TName (Some (o, v)) :: TPrime f None :: TUse f :: T) Q.
Proof.
  intros Hh Ha Ho HQ1 HQ2. unfold drm_gem_handle_create_tail. apply wp_bind, wp_sec. intros g F Hi.
  destruct (handle_add_ok e g (TPrime f None :: T ++ F) f o v) as (ret & g' & Eg & (x & Ex & Hx) & Hr).
  { apply (reorder _ _ _ Hi). solve_Permutation. }
  exists ret, g'. destruct (ret <? 0) eqn:Er; b2p.
  - exists (TName None :: TRef o :: THnd o :: TPrime f None :: TUse f :: T). split_and!; [done| |done|].
    { apply (reorder _ _ _ Hr). solve_Permutation. }
    apply wp_bind, wp_unlock; [done|]. apply wp_bind, (wp_perm _ _ (THnd o :: TRef o :: TPrime f None :: TUse f :: T)); [solve_Permutation|].
    apply wp_handle_unref; [unfold held in *; cbn; rewrite Hh; by repeat constructor|]. apply wp_ret. by apply HQ1.
  - destruct Hr as (Hr & fl & Ef & Hop & Hf).
    exists (TName None :: TRef o :: TPrime f (Some (o, v)) :: TUse f :: T). split_and!; [done| |done|].
    { apply (reorder g' (TPrime f (Some (o, v)) :: TName None :: TRef o :: TUse f :: T ++ F)); [|solve_Permutation].
      apply (prime_see_move _ _ _ None o x); try done; [apply (reorder _ _ _ Hr); solve_Permutation|]. left. by exists fl, ret. }
    apply wp_bind, wp_unlock; [done|]. apply wp_bind, wp_sec. clear g g' F Hi Eg x Ex Hx Hr fl Ef Hop Hf. intros g F Hi.
    destruct (live_TRef _ _ (proj1 Hi) o) as (x & E); [cbn; toks|]. unfold drm_vma_allow. rewrite E, Ha. mred.
    pose proof (allow_ok (vm_files x) f) as Hz. destruct (drm_vma_node_allow true (vm_files x) f) as [r t]. cbn in Hz. subst r.
    eexists 0, _, (TRef o :: TPrime f (Some (o, v)) :: TUse f :: T). split_and!; [done|by apply (field_move g _ o x)|done|].
    rewrite Ho. apply wp_ret, HQ2.
Qed.

(** A handle is created when nothing fails. *)
Definition henv_ok (e : henv) : Prop := e_idr e = true /\ e_allow e = true /\ e_open e = 0.

Lemma wp_create_tail_ok lax e f o v T (Q : Z * Z -> list tok -> Prop) : henv_ok e ->
  (forall h, Q (0, h) (TRef o :: TUse f :: T)) -> wp lax (drm_gem_handle_create_tail e f o) (TName (Some (o, v)) :: TUse f :: T) Q.
Proof.
  intros (Hid & Ha & Ho) HQ. unfold drm_gem_handle_create_tail. apply wp_bind, wp_sec_room. intros g F Hroom Hi.
  destruct (handle_add_ok e g (T ++ F) f o v Hi) as (ret & g' & Eg & _ & Hr).
  assert (0 <= ret) as Hp.
  { unfold handle_add in Eg. destruct (files g !! f) as [fl|] eqn:Ef; [|done]. revert Eg. mred. pose proof (Hroom f fl o Ef) as Hp.
    rewrite Hid. destruct (idr_alloc true o 1 (object_idr fl)) as [r m]. cbn in Hp.
    destruct (drm_gem_object_reference o _) as [g1| |]; [|done|done]. destruct (objs g1 !! o); [|done]. by intros [= <- _]. }
  destruct (Z.ltb_spec ret 0); [lia|]. exists ret, g', (TName None :: TRef o :: TUse f :: T). split_and!; [done|apply Hr|done|].
  destruct (Z.ltb_spec ret 0); [lia|]. apply wp_bind, wp_unlock; [done|].
  apply wp_bind, wp_sec. clear g g' F Hi Eg Hr Hroom. intros g F Hi.
  destruct (live_TRef _ _ (proj1 Hi) o) as (x & E); [cbn; toks|]. unfold drm_vma_allow. rewrite E, Ha. mred.
  pose proof (allow_ok (vm_files x) f) as Hz. destruct (drm_vma_node_allow true (vm_files x) f) as [r t]. cbn in Hz. subst r.
  eexists 0, _, (TRef o :: TUse f :: T). split_and!; [done|by apply (field_move g _ o x)|done|].
  rewrite Ho. apply wp_ret, HQ.
Qed.

Lemma wp_handle_create_new lax e f o T (Q : Z * Z -> list tok -> Prop) : held T = [] -> henv_ok e ->
  (forall h, Q (0, h) (TRef o :: TUse f :: T)) -> wp lax (drm_gem_handle_create e f o) (TNew o :: TUse f :: T) Q.
Proof.
  intros Hh He HQ. unfold drm_gem_handle_create. apply wp_bind, wp_lock; [unfold held in *; cbn; by rewrite Hh|].
  apply (wp_conv _ _ (TName (Some (o, None)) :: TUse f :: T)); [done| |done|by apply wp_create_tail_ok|].
  - intros g F Hi. by apply name_new_move.
  - intros [f0 Hp%Permutation_length]. done.
Qed.

(** ** Lookups *)
Lemma lookup_ok g L f h : inv g (TUse f :: L) ->
  exists r g', handle_lookup f h g = Done (r, g') /\
    match r with
    | None => inv g' (TUse f :: L)
    | Some o => inv g' (TRef o :: TUse f :: L) /\ exists x, objs g' !! o = Some x /\ present g' (TRef o :: TUse f :: L) f o
    end.
Proof.
  intros Hi. destruct (use_open _ _ (proj1 Hi) f (TUse f)) as (fl & Ef & Ho); [toks|cbn; rewrite b2z_eqb_refl; lia|].
  unfold handle_lookup. rewrite Ef. mred. destruct (idr_find (object_idr fl) h) as [o|] eqn:Eh; [|by exists None, g].
  destruct (present_live _ _ (proj1 Hi) f o) as (x & E & _); [left; by exists fl, h|].
  unfold drm_gem_object_reference. rewrite E. mred. eexists (Some o), _. split; [done|]. split; [by apply ref_move|].
  exists (set_refcount (refcount x + 1) x). cbn. rewrite lookup_insert_eq. split; [done|]. left. by exists fl, h.
Qed.

Lemma wp_lookup lax f h T (Q : option Z -> list tok -> Prop) :
  Q None (TUse f :: T) -> (forall o, Q (Some o) (TRef o :: TUse f :: T)) -> wp lax (drm_gem_object_lookup f h) (TUse f :: T) Q.
Proof.
  intros HN HS. apply wp_sec. intros g F Hi. destruct (lookup_ok g (T ++ F) f h Hi) as (r & g' & Eg & Hr).
  destruct r as [o|]; [exists (Some o), g', (TRef o :: TUse f :: T)|exists None, g', (TUse f :: T)]; naive_solver.
Qed.

(** ** Names *)
Lemma wp_flink lax mem f h T (Q : Z * Z -> list tok -> Prop) : held T = [] -> (forall r, Q r (TUse f :: T)) ->
  wp lax (drm_gem_flink_ioctl mem f h) (TUse f :: T) Q.
Proof.
  intros Hh HQ. unfold drm_gem_flink_ioctl. apply wp_bind, wp_lookup; [by apply wp_ret|]. intros o.
  apply wp_bind, wp_lock; [unfold held in *; cbn; by rewrite Hh|]. apply wp_bind, wp_sec. intros g F Hi.
  destruct (live_TRef _ _ (proj1 Hi) o) as (x & E); [cbn; toks|]. unfold name_object. rewrite E. mred.
  assert (forall r g', inv g' (TName None :: TRef o :: TUse f :: T ++ F) ->
    exists r' g'' T', Done (r, g') = Done (r', g'') /\ inv g'' (T' ++ F) /\ held T' ≡ₚ held (TName None :: TRef o :: TUse f :: T) /\
      wp lax (_ ← mutex_unlock object_name_lock; _ ← drm_gem_object_unreference_unlocked o; Ret r') T' Q) as Hend.
  { intros r g' Hi'. exists r, g', (TName None :: TRef o :: TUse f :: T). split_and!; [done..|].
    apply wp_bind, wp_unlock; [done|]. apply wp_bind, wp_unref. by apply wp_ret. }
  destruct (Z.eqb_spec (handle_count x) 0) as [Hz|Hz]; [by apply Hend|].
  destruct (truth (obj_name x)) eqn:En; cbn; [by apply Hend|].
  destruct (idr_alloc mem o 1 (object_name_idr g)) as [ret m] eqn:Ea. destruct (Z.ltb_spec ret 0) as [Hr|Hr].
  - apply Hend. rewrite (alloc_fails _ _ _ _ _ _ Ea Hr). by destruct g.
  - apply Hend. unfold truth in En. b2p. apply (name_move g _ o x mem ret m); try done.
    destruct (obj_counts _ _ (proj1 Hi) o x E) as [Eh _]. assert (0 <= handle_count x) by (rewrite Eh; apply handles_nonneg). lia.
Qed.

End wp.
