(* ===== verification/DrmGemCalls.v ===== *)
(** * GEM and PRIME: the system calls keep the invariant

    The specifications of the calls that user space makes, in terms of the weakest
    precondition of [DrmGemWp]: each starts with the use of its file and ends with
    it. *)

From S2P Require Import Prelude Counting Idr DrmMm DrmVma DrmVmaProps DrmGem DrmPrime DrmGemInv DrmGemMoves DrmGemHandles DrmGemShare DrmGemCreate DrmGemWp.

Section calls.
Context {S : Type} {RA : range_alloc S} {RAok : range_alloc_ok S RA} {RB : rbtree} {RBok : rbtree_ok RB}.
Context `{idr_ops} `{!idr_laws} {GH : gem_h S} {GHok : gem_h_ok GH}.
Local Notation gem := (gem S).
Implicit Types (g : gem) (T F : list tok) (o b f : Z).

(** ** Names *)

(** After the reference is dropped, the size is read through a pointer that may be
    dangling. *)
Lemma wp_open e f name (Q : Z * Z * Z -> list tok -> Prop) : (forall r, Q r [TUse f]) ->
  wp true (drm_gem_open_ioctl e f name) [TUse f] Q.
Proof.
  intros HQ. unfold drm_gem_open_ioctl. apply wp_bind, wp_lock; [done|]. apply wp_bind, wp_sec. intros g F Hi. unfold name_lookup.
  destruct (idr_find (object_name_idr g) (s32 name)) as [o|] eqn:En.
  2:{ exists None, g, [TName None; TUse f]. split_and!; [done..|]. apply wp_bind, wp_unlock; [done|]. by apply wp_ret. }
  apply (l_name _ _ (proj2 Hi)) in En as (Hn & x & E & Hx).
  pose proof (l_named _ _ (proj2 Hi) o x E ltac:(congruence)) as Hhot.
  unfold drm_gem_object_reference. rewrite E. mred.
  eexists (Some o), _, [TName (Some (o, None)); TUse f]. split_and!; [done| |done|].
  - pose proof (ref_move g _ o x Hi E) as Hr. cbn [app lock_tok] in Hr.
    apply (name_hot_move _ (TUse f :: F) o (set_refcount (refcount x + 1) x)).
    + apply (reorder _ _ _ Hr). solve_Permutation.
    + cbn. by rewrite lookup_insert_eq.
    + destruct Hhot as [Hc|[v Ht]]; [left|right; exists v; cbn in Ht |- *; toks].
      unfold hc in *. cbn. rewrite lookup_insert_eq. rewrite E in Hc. done.
    + done.
  - apply wp_bind, wp_create_tail; [done|]. intros r. apply wp_bind, wp_unref.
    destruct (truth r.1); [by apply wp_ret|]. apply wp_bind. clear g F Hi x E Hn Hx Hhot. intros g F _ Hi.
    destruct (objs g !! o) as [x|]; [|split; [done|by exists f]]. cbn. exists [TUse f]. split_and!; [done..|].
    exists [TUse f]. split; [done|]. by exists [TUse f].
Qed.

(** ** Files *)
Lemma wp_release_each lax f l T (Q : unit -> list tok -> Prop) : held T = [] -> Q tt (TOwn f false [] :: T) ->
  wp lax (release_each f l) (TOwn f false l :: T) Q.
Proof.
  intros Hh HQ. induction l as [|o l IH]; [by apply wp_ret|]. cbn [release_each]. apply wp_bind. unfold drm_gem_object_release_handle.
  apply wp_bind, wp_remove_prime_own; [done|]. apply wp_bind, wp_revoke. apply wp_handle_unref; [unfold held in *; cbn; by rewrite Hh|]. done.
Qed.

Lemma closed_idr_move g L f m fl u : inv g (TOwn f u [] :: L) -> u = false -> files g !! f = Some fl ->
  inv (store_file f (set_idr m fl) g) (TOwn f u [] :: L).
Proof.
  intros [C K] -> E. destruct (l_own _ _ K f false []) as (fl0 & E0 & Ho & _); [toks|]. rewrite E in E0. injection E0 as <-. split.
  - apply (counts_file g (TOwn f false [] :: L) _ f fl); try done.
    + intros q. unfold file_handles. cbn. by rewrite Ho.
    + intros q. cbn. lia.
    + by apply (c_closed _ _ C f fl E).
  - apply (links_relink g _ (TOwn f false [] :: L)); [|done]. split; try done; try (by destruct K).
    + intros q Hq. by left.
    + intros q o [(fl0 & h & E0 & H1 & Hf)|Hq]; [|by right]. left. cbn. rewrite lookup_insert_ne by congruence. by exists fl0, h.
    + intros q flq b h. cbn. intros [[<- <-]|[Hne Eq]]%lookup_insert_Some Hin; left; [by exists fl|by exists flq].
    + intros q u l Ht. destruct (decide (q = f)) as [->|Hne].
      * cbn. rewrite lookup_insert_eq. eexists. split_and!; [done..|]. intros ->.
        pose proof (atmost1_head _ _ _ (l_own1 _ _ K f)) as H1. cbn in H1. specialize (H1 (Z.eqb_refl f)).
        rewrite elem_of_cons in Ht. destruct Ht as [|Ht]; [done|]. apply H1 in Ht. cbn in Ht. by rewrite Z.eqb_refl in Ht.
      * cbn. rewrite lookup_insert_ne by done. by apply (l_own _ _ K q u l).
    + intros q o v Ht. by left.
    + intros q v Ht. by left.
Qed.

(** The list of a file without handles is empty. *)
Lemma released_list g L f u fl : inv g (TOwn f u [] :: L) -> files g !! f = Some fl -> prime fl = [].
Proof.
  intros [C K] E. destruct (prime fl) as [|[b h] p] eqn:Ep; [done|]. exfalso.
  destruct (l_own _ _ K f u []) as (fl0 & E0 & Ho & _); [toks|]. rewrite E in E0. injection E0 as <-.
  destruct (l_member _ _ K f fl b h E) as (o & x & _ & _ & Hp); [rewrite Ep; apply elem_of_cons; by left|].
  destruct Hp as [(fl0 & k & E0 & H1 & _)|[Ht|(v & l & Ht & Hl)]].
  - congruence.
  - destruct (use_open _ _ C f _ Ht) as (fl0 & E0 & H1); [cbn; rewrite b2z_eqb_refl; lia|]. congruence.
  - pose proof (atmost1_head _ _ _ (l_own1 _ _ K f)) as H1. cbn in H1. specialize (H1 (Z.eqb_refl f)).
    rewrite elem_of_cons in Ht. destruct Ht as [[= -> ->]|Ht]; [by apply not_elem_of_nil in Hl|].
    apply H1 in Ht. cbn in Ht. by rewrite Z.eqb_refl in Ht.
Qed.

Definition file_release f : prog gem bool := _ ← drm_gem_release f; drm_prime_destroy_file_private f.

Lemma wp_file_release lax f l (Q : bool -> list tok -> Prop) : Q false [TOwn f false []] ->
  wp lax (file_release f) [TOwn f true l] Q.
Proof.
  intros HQ. unfold file_release, drm_gem_release. apply wp_bind, wp_bind, wp_sec. intros g F Hi.
  destruct (l_own _ _ (proj2 Hi) f true l) as (fl & E & Ho & Hl); [cbn; toks|]. rewrite E. mred. rewrite <- (Hl eq_refl).
  exists l, g, [TOwn f false l]. split_and!; [done|by apply own_read_move|done|].
  apply wp_bind, wp_release_each; [done|]. apply wp_sec_. clear g F Hi fl E Ho Hl. intros g F Hi.
  destruct (l_own _ _ (proj2 Hi) f false []) as (fl & E & Ho & _); [cbn; toks|]. rewrite E. mred.
  eexists _, [TOwn f false []]. split_and!; [done|by apply closed_idr_move|done|].
  apply wp_sec. clear g F Hi fl E Ho. intros g F Hi.
  destruct (l_own _ _ (proj2 Hi) f false []) as (fl & E & Ho & _); [cbn; toks|]. rewrite E. mred.
  rewrite (released_list _ _ _ _ _ Hi E). by eexists false, g, [TOwn f false []].
Qed.

(** ** Objects *)
Lemma wp_create lax c e f size (Q : Z * Z -> list tok -> Prop) : henv_ok e -> 0 < size <= 2 ^ 63 -> (forall r, Q r [TUse f]) ->
  wp lax (drm_gem_cma_create_with_handle c e f size) [TUse f] Q.
Proof.
  intros He Hs HQ. unfold drm_gem_cma_create_with_handle. apply wp_bind, wp_sec. intros g F Hi.
  destruct (cma_create_ok c size g _ Hi Hs) as (r & g' & Eg & Hr). destruct r as [err|o].
  - exists (inl err), g', [TUse f]. split_and!; [done..|]. by apply wp_ret.
  - destruct Hr as (Hi' & _). exists (inr o), g', [TNew o; TUse f]. split_and!; [done..|].
    apply wp_bind, wp_handle_create_new; [done..|]. intros h. cbn [fst snd]. change (truth 0) with false. apply wp_bind, wp_unref. by apply wp_ret.
Qed.

Lemma wp_map_offset lax f h T (Q : Z * Z -> list tok -> Prop) : (forall r, Q r (TUse f :: T)) ->
  wp lax (drm_gem_cma_dumb_map_offset f h) (TUse f :: T) Q.
Proof.
  intros HQ. unfold drm_gem_cma_dumb_map_offset. apply wp_bind, wp_lookup; [by apply wp_ret|]. intros o.
  apply wp_bind, wp_sec. intros g F Hi. destruct (live_TRef _ _ (proj1 Hi) o) as (x & E); [cbn; toks|]. rewrite E. mred.
  eexists _, g, (TRef o :: TUse f :: T). split_and!; [done..|].
  apply wp_bind, wp_unref. by apply wp_ret.
Qed.

(** ** Mappings *)
Lemma lookup_live g L start pages n : inv g L -> drm_vma_offset_exact_lookup (vma_offset_manager g) start pages = Some n ->
  exists x, objs g !! Z.of_nat n = Some x.
Proof.
  intros [_ K] Hn%exact_lookup_law. destruct (l_offsets _ _ K) as [[Hi Hs He Hh] Hl]. apply Hl.
  unfold drm_vma_offset_lookup, drm_vma_offset_lookup_locked in Hn.
  pose proof (lookup_walk_spec (vm_addr_space_mm (vma_offset_manager g)) start (vm_addr_space_rb (vma_offset_manager g)) None Hs) as Hw.
  destruct (lookup_walk _ _ _ _) as [best|]; [|done]. destruct (_ <? _); [done|]. injection Hn as <-.
  destruct Hw as [(Hin & _)|[? _]]; [|done]. by apply He.
Qed.

Lemma wp_mmap lax unplugged f vma T (Q : Z -> list tok -> Prop) : (forall r, Q r T) -> wp lax (drm_gem_mmap unplugged f vma) T Q.
Proof.
  intros HQ. unfold drm_gem_mmap. destruct unplugged; [by apply wp_ret|]. apply wp_sec. intros g F Hi. unfold gem_mmap.
  destruct (drm_vma_offset_exact_lookup _ _ _) as [n|] eqn:En; [|by eexists _, g, T].
  destruct (lookup_live _ _ _ _ _ Hi En) as [x E]. rewrite E. mred. destruct (negb _); [by eexists _, g, T|].
  unfold drm_gem_mmap_obj. destruct (_ <? _); [by eexists _, g, T|].
  destruct (reference_ok g _ _ x Hi E) as (g' & Eg & Hi'). rewrite Eg. mred. eexists _, _, T. split_and!; [done| |done|done].
  apply vma_move; [done|]. apply new_addr_fresh.
Qed.

Lemma wp_vm_open lax v v' T (Q : unit -> list tok -> Prop) : Q tt T -> wp lax (drm_gem_vm_open v v') T Q.
Proof.
  intros HQ. apply wp_sec_. intros g F Hi. destruct (vmas g !! v) as [o|] eqn:Ev; [|by exists g, T].
  destruct (live_vma _ _ (proj1 Hi) v o Ev) as [x E]. destruct (reference_ok g _ _ x Hi E) as (g' & -> & Hi'). mred.
  eexists _, T. split_and!; [done| |done|done]. apply vma_move; [done|]. apply new_addr_fresh.
Qed.

Lemma wp_vm_close lax v T (Q : unit -> list tok -> Prop) : Q tt T -> wp lax (drm_gem_vm_close v) T Q.
Proof.
  intros HQ. apply wp_sec_. intros g F Hi. destruct (vmas g !! v) as [o|] eqn:Ev; [|by exists g, T].
  pose proof (vma_close_move g _ o v Hi Ev) as Hc. destruct (unref_ok _ _ _ Hc) as (g' & Eg & Hi'). by exists g', T.
Qed.

(** ** Export *)
Lemma export_out_ok lax f o s r fd (Q : Z * Z -> list tok -> Prop) : Q (r, fd) [TUse f] ->
  wp lax (export_out f o r fd) [TRef o; TPrime f s; TUse f] Q.
Proof.
  intros HQ. unfold export_out. apply wp_bind, wp_unref, wp_bind, wp_unlock; [by exists s|]. by apply wp_ret.
Qed.

Lemma export_fail_ok lax f o b s r (Q : Z * Z -> list tok -> Prop) : Q (r, 0) [TUse f] ->
  wp lax (export_fail_put f o b r) [TBuf b; TRef o; TPrime f s; TUse f] Q.
Proof. intros HQ. apply wp_bind, wp_put. by apply export_out_ok. Qed.

Lemma export_have_ok lax e f o b s (Q : Z * Z -> list tok -> Prop) : (forall r, Q r [TUse f]) ->
  wp lax (export_have_handle e f o b) [TBuf b; TRef o; TPrime f s; TUse f] Q.
Proof.
  intros HQ. apply wp_bind, wp_sec. intros g F Hi. unfold dma_buf_fd. destruct (Z.ltb_spec (e_fd e) 0) as [He|He].
  - eexists _, g, [TBuf b; TRef o; TPrime f s; TUse f]. split_and!; [done..|].
    destruct (Z.ltb_spec (e_fd e) 0); [|lia]. by apply export_fail_ok.
  - destruct (live_TBuf _ _ (proj1 Hi) b) as [y E]; [cbn; toks|]. rewrite E. mred.
    destruct (new_addr_fresh (e_fd e) (fds g)) as [Hn Hp].
    eexists _, _, [TRef o; TPrime f s; TUse f]. split_and!; [done|by apply fd_move|done|].
    destruct (Z.ltb_spec (new_addr (e_fd e) (fds g)) 0); [lia|]. by apply export_out_ok.
Qed.

Lemma get_keeps g L b y : inv g L -> bufs g !! b = Some y ->
  exists g', get_dma_buf b g = Done g' /\ inv g' (TBuf b :: L) /\ objs g' = objs g /\ files g' = files g.
Proof.
  intros Hi E. destruct (get_ok g L b y Hi E) as (g' & Eg & Hi'). exists g'. split_and!; [done..| |];
    revert Eg; unfold get_dma_buf; rewrite E; mred; by intros [= <-].
Qed.

(** The dma-buf is the one that is cached in the object. *)
Lemma obtain_ok e g L f o v : inv g L -> TPrime f (Some (o, v)) ∈ L ->
  exists r g', obtain_dma_buf e o g = Done (r, g') /\
    match r with
    | inl _ => inv g' L
    | inr b => inv g' (TBuf b :: L) /\ files g' = files g /\ exists x, objs g' !! o = Some x /\ dma_buf x = Some b
    end.
Proof.
  intros Hi Ht. destruct (l_prime _ _ (proj2 Hi) f o v Ht) as (x & E & Hp & _).
  destruct (present_live _ _ (proj1 Hi) f o Hp) as (x0 & E0 & Hx0). rewrite E in E0. injection E0 as <-.
  assert (forall b, dma_buf x = Some b -> exists g', get_dma_buf b g = Done g' /\
    inv g' (TBuf b :: L) /\ files g' = files g /\ exists x, objs g' !! o = Some x /\ dma_buf x = Some b) as Hget.
  { intros b Hb. destruct (obj_buf _ _ o x b (proj1 Hi) E (or_introl Hb)) as [y Ey].
    destruct (get_keeps g L b y Hi Ey) as (g' & Eg & Hi' & Eo & Ef). exists g'. rewrite Eo. split_and!; [done..|by exists x]. }
  unfold obtain_dma_buf. rewrite E. mred. destruct (import_attach x) as [b|] eqn:Ei.
  - destruct (l_import _ _ (proj2 Hi) o x b E Ei) as (_ & _ & Hh).
    destruct (Hget b) as (g' & -> & Hr); [by apply Hh, (present_hot _ _ (proj1 Hi) f)|]. mred. by exists (inr b), g'.
  - destruct (dma_buf x) as [b|] eqn:Eb; [destruct (Hget b eq_refl) as (g' & -> & Hr); mred; by exists (inr b), g'|].
    unfold export_and_register_object. rewrite E. mred. destruct (Z.eqb_spec (handle_count x) 0); [lia|].
    unfold drm_gem_prime_export. rewrite E. mred. destruct (e_export e <? 0); [by eexists (inl _), g|].
    destruct (new_addr_fresh (e_buf e) (bufs g)) as [Hn _]. set (b := new_addr _ _) in *. cbn. rewrite E. mred.
    unfold get_dma_buf, drm_gem_object_reference. cbn. rewrite lookup_insert_eq. mred. cbn. rewrite lookup_insert_eq. mred.
    pose proof (export_move g L o x b Hi E Hx0 Eb Ei Hn) as Hm. eexists (inr b), _. split; [done|]. split_and!; [|done|].
    + unfold cached, store_obj, store_buf, set_objs, set_bufs in *. cbn in *. by rewrite !insert_insert_eq.
    + cbn. rewrite lookup_insert_eq. by eexists.
Qed.

Lemma export_object_ok e g L f h o v : inv g L -> TPrime f (Some (o, v)) ∈ L -> TUse f ∈ L ->
  exists r g', export_object e f h o g = Done (r, g') /\ inv g' (match r with inl _ => L | inr (b, _) => TBuf b :: L end).
Proof.
  intros Hi Hp Hu. unfold export_object. destruct (obtain_ok e g L f o v Hi Hp) as (r & g1 & -> & Hr). mred.
  destruct r as [err|b]; [by exists (inl err), g1|]. destruct Hr as (Hi1 & Ef & x & E & Hx).
  unfold drm_prime_add_buf_handle. destruct (e_member e); cbn; [|by eexists (inr (b, _)), g1].
  destruct (obj_buf _ _ o x b (proj1 Hi1) E (or_introl Hx)) as [y Ey].
  destruct (get_keeps g1 _ b y Hi1 Ey) as (g2 & -> & Hi2 & Eo & Ef2). mred.
  destruct (use_open _ _ (proj1 Hi2) f (TUse f)) as (fl & Efl & _); [toks|cbn; rewrite b2z_eqb_refl; lia|]. rewrite Efl. mred.
  eexists (inr (b, 0)), _. split; [done|]. destruct (l_prime _ _ (proj2 Hi2) f o v) as (x2 & E2 & Hp2 & _); [toks|].
  apply (member_add_move g2 (TBuf b :: L) f fl b h o x2); try done. rewrite Eo in E2. congruence.
Qed.

Lemma wp_handle_to_fd lax e f h (Q : Z * Z -> list tok -> Prop) : (forall r, Q r [TUse f]) ->
  wp lax (drm_gem_prime_handle_to_fd e f h) [TUse f] Q.
Proof.
  intros HQ. unfold drm_gem_prime_handle_to_fd. apply wp_bind, wp_lock; [done|]. cbn [lock_tok].
  apply wp_bind, wp_sec. intros g F Hi.
  destruct (lookup_ok g (TPrime f None :: F) f h) as (r & g' & Eg & Hr); [apply (reorder _ _ _ Hi); solve_Permutation|].
  destruct r as [o|].
  2:{ exists None, g', [TPrime f None; TUse f]. split_and!; [done|apply (reorder _ _ _ Hr); solve_Permutation|done|].
      apply wp_bind, wp_unlock; [by exists None|]. by apply wp_ret. }
  destruct Hr as (Hi1 & x & E & Hp). exists (Some o), g', [TRef o; TPrime f (Some (o, None)); TUse f]. split_and!; [done| |done|].
  { apply (reorder g' (TPrime f (Some (o, None)) :: TRef o :: TUse f :: F)); [|solve_Permutation].
    apply (prime_see_move g' _ f None o x); [apply (reorder _ _ _ Hi1); solve_Permutation|done| |done].
    destruct Hp as [Hp|[Hp|(u & l & Hp & Hl)]]; [by left|right; left|right; right; exists u, l; split; [|done]]; toks. }
  clear g g' F Hi Eg Hi1 x E Hp. apply wp_bind, wp_sec. intros g F Hi. unfold find_exported.
  destruct (use_open _ _ (proj1 Hi) f (TUse f)) as (fl & Ef & Ho); [cbn; toks|cbn; rewrite b2z_eqb_refl; lia|]. rewrite Ef. mred.
  unfold drm_prime_lookup_buf_by_handle. destruct (List.find _ _) as [[b k]|] eqn:Efind; cbn [fmap option_fmap option_map fst].
  - apply find_some in Efind as [Hin%list_elem_of_In _]. destruct (member_buf _ _ f fl b k (proj1 Hi) Ef Hin) as [y Ey].
    destruct (get_ok g _ b y Hi Ey) as (g' & -> & Hi'). mred.
    exists (Some b), g', [TBuf b; TRef o; TPrime f (Some (o, None)); TUse f]. split_and!; [done..|]. by apply export_have_ok.
  - exists None, g, [TRef o; TPrime f (Some (o, None)); TUse f]. split_and!; [done..|].
    apply wp_bind, wp_lock; [by repeat constructor|]. apply wp_bind, wp_sec. clear g F Hi fl Ef Ho Efind. intros g F Hi.
    destruct (export_object_ok e g _ f h o None Hi) as (r & g' & Eg & Hi'); [cbn; toks|cbn; toks|].
    exists r, g', (TName None :: (if r is inr (b, _) then [TBuf b] else []) ++ [TRef o; TPrime f (Some (o, None)); TUse f]).
    split_and!; [done|destruct r as [|[b ?]]; [done|apply (reorder _ _ _ Hi'); cbn; solve_Permutation]|by destruct r as [|[b ?]]|].
    apply wp_bind, wp_unlock; [done|]. destruct r as [err|[b ret]]; [by apply export_out_ok|]. cbn [app].
    destruct (truth ret); [by apply export_fail_ok|by apply export_have_ok].
Qed.

(** ** Import *)
Lemma import_out_ok lax f b s r h (Q : Z * Z -> list tok -> Prop) : Q (r, h) [TUse f] ->
  wp lax (import_out_put f b r h) [TBuf b; TPrime f s; TUse f] Q.
Proof. intros HQ. apply wp_bind, wp_put, wp_bind, wp_unlock; [by exists s|]. by apply wp_ret. Qed.

(** A dma-buf of our own is imported as the object it exports. *)
Lemma import_own_ok i g L b y o : inv g (TName None :: L) -> bufs g !! b = Some y -> b_priv y = Some o ->
  exists g', import_object i b g = Done (inr o, g') /\ inv g' (TName (Some (o, Some b)) :: L).
Proof.
  intros Hi E Hy. unfold import_object, drm_gem_prime_import. rewrite E. mred. rewrite Hy.
  destruct (live_priv _ _ (proj1 Hi) b y o E Hy) as [x Ex]. unfold drm_gem_object_reference. rewrite Ex. mred.
  cbn [objs store_obj set_objs]. rewrite lookup_insert_eq. mred.
  pose proof (ref_move g _ o x Hi Ex) as Hr. set (x' := set_refcount (refcount x + 1) x) in *.
  assert (inv (store_obj o x' g) (TName None :: TRef o :: L)) as Hi' by (apply (reorder _ _ _ Hr); solve_Permutation).
  change (dma_buf x') with (dma_buf x). destruct (dma_buf x) as [c|] eqn:Ec.
  - eexists. split; [done|]. assert (objs (store_obj o x' g) !! o = Some x') as E' by (cbn; by rewrite lookup_insert_eq).
    assert (hot (store_obj o x' g) (TName None :: TRef o :: L) o) as Hh by (by apply (l_cache _ _ (proj2 Hi') o x' c)).
    apply (name_hot_move _ L o x'); try done. intros b' [= <-].
    destruct (l_priv _ _ (proj2 Hi') b y o E Hy Hh) as (x1 & E1 & H1). congruence.
  - unfold get_dma_buf. cbn [bufs store_obj set_objs]. rewrite E. mred. eexists. split; [done|].
    apply (reimport_move _ L o x' b y Hi'); [cbn; by rewrite lookup_insert_eq|done..].
Qed.

(** A dma-buf of another driver is attached to a new object. *)
Lemma import_foreign_ok i g L b y : inv g (TName None :: L) -> bufs g !! b = Some y -> b_priv y = None ->
  exists r g', import_object i b g = Done (r, g') /\
    inv g' (match r with inl _ => TName None :: L | inr o => TName (Some (o, Some b)) :: L end).
Proof.
  intros Hi E Hy. unfold import_object, drm_gem_prime_import. rewrite E. mred. rewrite Hy.
  destruct (e_attach i <? 0); [by eexists (inl _), g|].
  unfold get_dma_buf at 1. rewrite E. mred. destruct (get_ok g _ b y Hi E) as (g1 & Eg1 & Hi1).
  unfold get_dma_buf in Eg1. rewrite E in Eg1. revert Eg1. mred. intros [= Eg1]. rewrite Eg1.
  assert (bufs g1 !! b = Some (set_b_count (b_count y + 1) y)) as E1 by (subst g1; cbn; by rewrite lookup_insert_eq).
  destruct (e_map i <? 0).
  { destruct (put_ok g1 _ b Hi1) as (g' & -> & H'). mred. by eexists (inl _), g'. }
  unfold drm_gem_cma_prime_import_sg_table. destruct (negb _); mred.
  { destruct (put_ok g1 _ b Hi1) as (g' & -> & H'). mred. by eexists (inl _), g'. }
  rewrite E1. mred. change (b_size (set_b_count (b_count y + 1) y)) with (b_size y).
  destruct (cma_create_object_ok (e_create i) (b_size y) g1 _ Hi1) as (r & g2 & -> & Hr); [by apply (l_foreign _ _ (proj2 Hi) b y)|]. mred.
  destruct r as [err|o].
  { destruct (put_ok g2 _ b Hr) as (g' & -> & H'). mred. by eexists (inl _), g'. }
  destruct Hr as (H2 & Eb & x & Ex & Hbl & Hv). rewrite Ex. mred. cbn [objs store_obj set_objs]. rewrite lookup_insert_eq. mred.
  assert (dma_buf x = None) as Ed by apply Hbl. change (dma_buf (set_import (Some b) x)) with (dma_buf x). rewrite Ed.
  unfold get_dma_buf. cbn [bufs store_obj set_objs]. rewrite Eb, E1. mred. eexists (inr o), _. split; [done|].
  assert (inv g2 (TName None :: TNew o :: TBuf b :: L)) as H2' by (apply (reorder _ _ _ H2); solve_Permutation).
  pose proof (import_move g2 L o x b _ H2' Ex Ed Hv ltac:(by rewrite Eb) Hy) as Hm.
  unfold cached, store_obj, store_buf, set_objs, set_bufs in *. cbn in *. by rewrite insert_insert_eq.
Qed.

Lemma import_object_ok i g L b : inv g (TName None :: L) -> TBuf b ∈ L ->
  exists r g', import_object i b g = Done (r, g') /\
    inv g' (match r with inl _ => TName None :: L | inr o => TName (Some (o, Some b)) :: L end).
Proof.
  intros Hi Hb. destruct (live_TBuf _ _ (proj1 Hi) b) as [y E]; [toks|]. destruct (b_priv y) as [o|] eqn:Ey.
  - destruct (import_own_ok i g L b y o Hi E Ey) as (g' & Eg & Hi'). by exists (inr o), g'.
  - by apply (import_foreign_ok i g L b y).
Qed.

(** The errors after the handle exists are excluded, see
    [drm_gem_prime_fd_to_handle]'s label [fail]. *)
Lemma wp_fd_to_handle lax i e f fd (Q : Z * Z -> list tok -> Prop) : e_allow e = true -> e_open e = 0 -> (forall r, Q r [TUse f]) ->
  wp lax (drm_gem_prime_fd_to_handle i e true f fd) [TUse f] Q.
Proof.
  intros Ha Ho HQ. unfold drm_gem_prime_fd_to_handle. apply wp_bind, wp_sec. intros g F Hi. unfold dma_buf_get.
  destruct (fds g !! fd) as [b|] eqn:Efd; [|exists None, g, [TUse f]; split_and!; [done..|by apply wp_ret]].
  destruct (fd_buf _ _ fd b (proj1 Hi) Efd) as [y E]. destruct (get_ok g _ b y Hi E) as (g' & -> & Hi'). mred.
  exists (Some b), g', [TBuf b; TUse f]. split_and!; [done..|]. clear g g' F Hi Efd y E Hi'.
  apply wp_bind, wp_lock; [done|]. cbn [lock_tok]. apply wp_bind, wp_sec. intros g F Hi. unfold find_imported.
  destruct (use_open _ _ (proj1 Hi) f (TUse f)) as (fl & Ef & _); [cbn; toks|cbn; rewrite b2z_eqb_refl; lia|]. rewrite Ef. mred.
  eexists _, g, [TBuf b; TPrime f None; TUse f]. split_and!; [done|apply (reorder _ _ _ Hi); cbn; solve_Permutation|done|].
  destruct (drm_prime_lookup_buf_handle _ _) as [h|]; [by apply import_out_ok|]. clear g F Hi fl Ef.
  apply wp_bind, wp_lock; [by repeat constructor|]. cbn [lock_tok]. apply wp_bind, wp_sec. intros g F Hi.
  destruct (import_object_ok i g ([TBuf b; TPrime f None; TUse f] ++ F) b Hi) as (r & g' & Eg & Hi'); [cbn; toks|].
  destruct r as [err|o].
  { exists (inl err), g', [TName None; TBuf b; TPrime f None; TUse f]. split_and!; [done..|].
    apply wp_bind, wp_unlock; [done|]. by apply import_out_ok. }
  exists (inr o), g', [TName (Some (o, Some b)); TPrime f None; TUse f; TBuf b].
  split_and!; [done|apply (reorder _ _ _ Hi'); cbn; solve_Permutation|done|]. clear g g' F Hi Eg Hi'.
  apply wp_bind, wp_create_tail_prime; [done..| |].
  - intros ret Hr. apply wp_bind, wp_unref. cbn [fst snd]. destruct (truth ret) eqn:Er; [|unfold truth in Er; b2p; lia].
    apply (wp_perm _ _ [TBuf b; TPrime f None; TUse f]); [solve_Permutation|]. by apply import_out_ok.
  - intros h. apply wp_bind, wp_unref. cbn [fst snd]. change (truth 0) with false. apply wp_bind, wp_sec. intros g F Hi.
    unfold drm_prime_add_buf_handle. cbn [negb]. destruct (live_TBuf _ _ (proj1 Hi) b) as [y E]; [cbn; toks|].
    destruct (get_keeps g _ b y Hi E) as (g' & -> & Hi' & Eo & Ef). mred.
    destruct (use_open _ _ (proj1 Hi') f (TUse f)) as (fl & Efl & _); [cbn; toks|cbn; rewrite b2z_eqb_refl; lia|]. rewrite Efl. mred.
    eexists 0, _, [TPrime f (Some (o, Some b)); TUse f; TBuf b]. split_and!; [done| |done|].
    + destruct (l_prime _ _ (proj2 Hi') f o (Some b)) as (x & Ex & Hp & Hx); [cbn; toks|].
      apply (member_add_move g' _ f fl b h o x); try done. by apply Hx.
    + change (truth 0) with false. apply wp_bind, wp_unlock; [by exists (Some (o, Some b))|].
      apply (wp_perm _ _ [TBuf b; TUse f]); [solve_Permutation|]. apply wp_bind, wp_put. by apply wp_ret.
Qed.

(** ** Descriptors *)
Lemma wp_close_fd lax fd T (Q : unit -> list tok -> Prop) : Q tt T -> wp lax (close_fd fd) T Q.
Proof.
  intros HQ. apply wp_bind, wp_sec. intros g F Hi. destruct (fds g !! fd) as [b|] eqn:Efd.
  - eexists (Some b), _, (TBuf b :: T). split_and!; [done|by apply fd_close_move|done|by apply wp_put].
  - exists None, g, T. split_and!; [done..|by apply wp_ret].
Qed.

Lemma wp_foreign_fd lax b fd size T (Q : unit -> list tok -> Prop) : size_ok size -> Q tt T -> wp lax (foreign_fd b fd size) T Q.
Proof.
  intros Hs HQ. apply wp_sec_. intros g F Hi. eexists _, T. split_and!; [done| |done|done].
  apply foreign_move; [done|apply new_addr_fresh..|done].
Qed.

End calls.
