(* ===== verification/DrmGemSys.v ===== *)
(** * GEM and PRIME: threads that share a device

    Any number of threads run system calls on a device, one critical section or
    mutex operation at a time, in any order.  The step relation, an executable
    scheduler for it, and the invariant of the whole: each thread holds tokens with
    which the rest of its program is safe, and the invariant of [DrmGemInv] holds
    for the tokens of all threads together. *)

From S2P Require Import Prelude Counting Idr DrmMm DrmVma DrmVmaProps DrmGem DrmPrime DrmGemInv DrmGemMoves DrmGemHandles DrmGemShare DrmGemCreate DrmGemWp DrmGemCalls.

(** ** Calls *)

(** The calls of user space, a dma-buf of another driver that is made
    ([CForeign]), and the release of a dma-buf that exports [o], which the kernel
    runs after the last put ([CBufRelease]). *)
Inductive call :=
| CDumb (c : cenv) (e : henv) (f : Z) (args : dumb)
| CMapOffset (f handle : Z)
| CMmap (unplugged : bool) (f : Z) (vma : vm_area)
| CVmOpen (v v' : Z)
| CVmClose (v : Z)
| CClose (f handle : Z)
| CFlink (mem : bool) (f handle : Z)
| COpen (e : henv) (f name : Z)
| CExport (e : xenv) (f handle : Z)
| CImport (i : ienv) (e : henv) (mem : bool) (f fd : Z)
| CCloseFd (fd : Z)
| CForeign (b fd size : Z)
| CBufRelease (o : Z)
| CRelease (f : Z).

(** The file on which a call is made. *)
Definition file_of (c : call) : option Z :=
  match c with
  | CDumb _ _ f _ | CMapOffset f _ | CMmap _ f _ | CClose f _ | CFlink _ f _ | COpen _ f _ | CExport _ f _ | CImport _ _ _ f _ => Some f
  | CVmOpen _ _ | CVmClose _ | CCloseFd _ | CForeign _ _ _ | CBufRelease _ | CRelease _ => None
  end.

Definition names_open (c : call) : bool := match c with COpen _ _ _ => true | _ => false end.

Section system.
Context {S : Type} {RA : range_alloc S} {RB : rbtree} `{idr_ops} {GH : gem_h S}.
Local Notation gem := (gem S).

(** The memory of what a call needs once its handle is in the table is available,
    and the sizes do not overflow. *)
Definition call_ok (c : call) : Prop :=
  match c with
  | CDumb _ e _ args => henv_ok e /\ 0 <= d_width args < 2 ^ 32 /\ 0 <= d_height args < 2 ^ 32 /\ 0 <= d_bpp args < 2 ^ 32 /\
      d_width args * d_bpp args + 7 < 2 ^ 32
  | CImport _ e mem _ _ => e_allow e = true /\ e_open e = 0 /\ mem = true
  | CForeign _ _ size => size_ok size
  | _ => True
  end.

Definition call_prog (c : call) : prog gem Z :=
  match c with
  | CDumb c e f args => r ← drm_mode_create_dumb_ioctl c e f args; Ret r.1
  | CMapOffset f h => r ← drm_gem_cma_dumb_map_offset f h; Ret r.1
  | CMmap unplugged f vma => drm_gem_mmap unplugged f vma
  | CVmOpen v v' => _ ← drm_gem_vm_open v v'; Ret 0
  | CVmClose v => _ ← drm_gem_vm_close v; Ret 0
  | CClose f h => drm_gem_close_ioctl f h
  | CFlink mem f h => r ← drm_gem_flink_ioctl mem f h; Ret r.1
  | COpen e f name => r ← drm_gem_open_ioctl e f name; Ret r.1.1
  | CExport e f h => r ← drm_gem_prime_handle_to_fd e f h; Ret r.1
  | CImport i e mem f fd => r ← drm_gem_prime_fd_to_handle i e mem f fd; Ret r.1
  | CCloseFd fd => _ ← close_fd fd; Ret 0
  | CForeign b fd size => _ ← foreign_fd b fd size; Ret 0
  | CBufRelease o => _ ← drm_gem_dmabuf_release o; Ret 0
  | CRelease f => warn ← file_release f; Ret (b2z warn)
  end.

(** A call on a file keeps it from being released, as the kernel's reference of the
    [struct file] does; a release starts when nobody uses the file.  The release of
    a dma-buf starts at some time after its last put. *)
Definition enter (c : call) (g : gem) : option gem :=
  match c with
  | CRelease f =>
    fl ← files g !! f;
    if f_open fl && (f_users fl =? 0) then Some (store_file f (set_open false fl) g) else None
  | CBufRelease o => l ← take_one o (released g); Some (set_released l g)
  | _ =>
    match file_of c with
    | Some f => fl ← files g !! f; if f_open fl then Some (store_file f (set_users (f_users fl + 1) fl) g) else None
    | None => Some g
    end
  end.

Definition leave (c : call) (g : gem) : gem :=
  match file_of c with
  | Some f => match files g !! f with Some fl => store_file f (set_users (f_users fl - 1) fl) g | None => g end
  | None => g
  end.

(** ** Threads *)
Inductive thread := Run (c : call) (p : prog gem Z) | Crashed (c : call).

(** [log] is what calls returned, the last one first. *)
Record sys := MkSys { state : gem; threads : gmap Z thread; locks : gmap mutex Z; log : list (call * Z) }.

Definition boot : sys := MkSys drm_gem_init ∅ ∅ [].

Definition put_thread (t : Z) (th : thread) (g : gem) (s : sys) : sys :=
  MkSys g (<[t := th]> (threads s)) (locks s) (log s).

(** What the next step of a thread makes of it, [None] when it has to wait.  The
    result of a section in a loop that does not end is the same state. *)
Definition thread_step (t : Z) (s : sys) : option sys :=
  match threads s !! t with
  | Some (Run c p) =>
    match p with
    | Ret r => Some (MkSys (leave c (state s)) (delete t (threads s)) (locks s) ((c, r) :: log s))
    | Sec f k =>
      match f (state s) with
      | Done (r, g) => Some (put_thread t (Run c (k r)) g s)
      | Oops => Some (put_thread t (Crashed c) (state s) s)
      | Loops => None
      end
    | Lock m p =>
      match locks s !! m with
      | None => Some (MkSys (state s) (<[t := Run c p]> (threads s)) (<[m := t]> (locks s)) (log s))
      | Some _ => None
      end
    | Unlock m p =>
      if decide (locks s !! m = Some t) then
        Some (MkSys (state s) (<[t := Run c p]> (threads s)) (delete m (locks s)) (log s))
      else Some (put_thread t (Crashed c) (state s) s)
    end
  | _ => None
  end.

(** A step of a thread, while the tables of handles are not full. *)
Definition work (s s' : sys) : Prop := roomy (state s) /\ exists t, thread_step t s = Some s'.

Inductive step : sys -> sys -> Prop :=
| step_open s f : files (state s) !! f = None ->
    step s (MkSys (drm_gem_open f (state s)) (threads s) (locks s) (log s))
| step_call s t c g : threads s !! t = None -> call_ok c -> enter c (state s) = Some g ->
    step s (put_thread t (Run c (call_prog c)) g s)
| step_work s s' : work s s' -> step s s'.

Inductive reachable : sys -> Prop :=
| reach_boot : reachable boot
| reach_step s s' : reachable s -> step s s' -> reachable s'.

(** ** Schedules *)
Inductive action := AOpen (f : Z) | ACall (t : Z) (c : call) | AStep (t : Z).

Definition act (a : action) (s : sys) : option sys :=
  match a with
  | AOpen f =>
    match files (state s) !! f with
    | None => Some (MkSys (drm_gem_open f (state s)) (threads s) (locks s) (log s))
    | Some _ => None
    end
  | ACall t c =>
    match threads s !! t with
    | None => g ← enter c (state s); Some (put_thread t (Run c (call_prog c)) g s)
    | Some _ => None
    end
  | AStep t => thread_step t s
  end.

(** A run that stops with [None] when [ok] does not hold. *)
Fixpoint schedule (ok : gem -> bool) (l : list action) (s : sys) : option sys :=
  match l with
  | [] => Some s
  | a :: l => if ok (state s) then s ← act a s; schedule ok l s else None
  end.

Definition action_ok (a : action) : Prop := match a with ACall _ c => call_ok c | _ => True end.

Lemma schedule_reachable ok l s s' : (forall g, ok g = true -> roomy g) -> Forall action_ok l -> reachable s ->
  schedule ok l s = Some s' -> reachable s'.
Proof.
  intros Hok. revert s. induction l as [|a l IH]; intros s Hl Hs; cbn; [by intros [= <-]|].
  inversion_clear Hl as [|? ? Ha Hl']. destruct (ok (state s)) eqn:Eok; [|done]. destruct (act a s) as [s1|] eqn:Ea; [|done]. cbn.
  apply IH; [done|]. apply (reach_step s); [done|]. destruct a as [f|t c|t]; cbn in Ea.
  - destruct (files (state s) !! f) eqn:Ef; [done|]. injection Ea as <-. by apply step_open.
  - destruct (threads s !! t) eqn:Et; [done|]. destruct (enter c (state s)) as [g|] eqn:Ee; [|done]. injection Ea as <-. by apply step_call.
  - apply step_work. split; [by apply Hok|by exists t].
Qed.
End system.

Arguments thread S {_}.
Arguments sys S {_}.

(** ** The invariant of the system *)
Section soundness.
Context {S : Type} {RA : range_alloc S} {RAok : range_alloc_ok S RA} {RB : rbtree} {RBok : rbtree_ok RB}.
Context `{idr_ops} `{!idr_laws} {GH : gem_h S} {GHok : gem_h_ok GH}.
Local Notation gem := (gem S).
Local Notation sys := (sys S).

(** What a call holds when it starts and when it is done. *)
Definition pre (c : call) (T : list tok) : Prop :=
  match c with
  | CRelease f => exists l, T = [TOwn f true l]
  | CBufRelease o => T = [TRef o]
  | _ => T = match file_of c with Some f => [TUse f] | None => [] end
  end.
Definition post (c : call) (r : Z) (T : list tok) : Prop :=
  match c with
  | CRelease f => r = 0 /\ T = [TOwn f false []]
  | _ => T = match file_of c with Some f => [TUse f] | None => [] end
  end.

Lemma dumb_size_pos args args' : 0 <= d_width args < 2 ^ 32 -> 0 <= d_height args < 2 ^ 32 -> 0 <= d_bpp args < 2 ^ 32 ->
  d_width args * d_bpp args + 7 < 2 ^ 32 -> dumb_checks args = inr args' ->
  let size := u32 (div_round_up32 (u32 (d_width args' * d_bpp args')) 8 * d_height args') in 0 < size <= 2 ^ 63.
Proof.
  intros Hw Hh Hb Hwb. unfold dumb_checks. cbv zeta.
  destruct (negb _ || _ || _) eqn:E1; [done|]. apply orb_false_iff in E1 as [[E1a E1b]%orb_false_iff E1c].
  destruct (_ || _) eqn:E2; [done|]. apply orb_false_iff in E2 as [E2a E2b].
  destruct (_ <? d_height args) eqn:E3; [done|]. destruct (Z.land _ _ =? 0); [done|]. intros [= <-]. cbn. unfold truth in *. b2p.
  set (w := d_width args) in *. set (h := d_height args) in *. set (bpp := d_bpp args) in *.
  assert (1 <= w /\ 1 <= h /\ 1 <= bpp) as (Hw1 & Hh1 & Hb1) by lia.
  assert (bpp <= w * bpp) as Hbw by nia. rewrite (u32_small (w * bpp)) by (unfold is_u32; nia).
  unfold div_round_up32 in *. rewrite (u32_small (bpp + 8 - 1)) in * by (unfold is_u32; lia).
  rewrite (u32_small (w * bpp + 8 - 1)) by (unfold is_u32; nia).
  set (cpp := (bpp + 8 - 1) / 8) in *. assert (bpp <= 8 * cpp) as Hc by (pose proof (Z.div_mod (bpp + 8 - 1) 8 ltac:(lia)); pose proof (Z.mod_pos_bound (bpp + 8 - 1) 8 ltac:(lia)); lia).
  clearbody cpp.
  assert (cpp * w < 2 ^ 32) as Hcw.
  { assert (cpp <= 4294967295 / w) by lia. assert (w * (4294967295 / w) <= 4294967295) by (apply Z.mul_div_le; lia). nia. }
  assert (1 <= cpp) by lia. rewrite (u32_small (cpp * w)) in * by (unfold is_u32; nia).
  assert (h * (cpp * w) <= 4294967295).
  { assert (cpp * w * (4294967295 / (cpp * w)) <= 4294967295) by (apply Z.mul_div_le; nia). nia. }
  assert (1 <= (w * bpp + 8 - 1) / 8 <= cpp * w) as Hp.
  { split; [apply Z.div_le_lower_bound; nia|]. apply Z.lt_succ_r, Z.div_lt_upper_bound; nia. }
  set (pitch := (w * bpp + 8 - 1) / 8) in *. rewrite u32_small by (unfold is_u32; nia). nia.
Qed.

Lemma wp_dumb lax c e f args (Q : Z * dumb -> list tok -> Prop) : call_ok (CDumb c e f args) -> (forall r, Q r [TUse f]) ->
  wp lax (drm_mode_create_dumb_ioctl c e f args) [TUse f] Q.
Proof.
  intros (He & Hw & Hh & Hb & Hwb) HQ. unfold drm_mode_create_dumb_ioctl. destruct (dumb_checks args) as [err|args'] eqn:Ec; [by apply wp_ret|].
  unfold drm_gem_cma_dumb_create. apply wp_bind, wp_create; [done|by apply (dumb_size_pos args args')|]. intros r. by apply wp_ret.
Qed.

(** Every call is safe; only [drm_gem_open_ioctl] may follow a bad pointer. *)
Lemma call_safe c T : call_ok c -> pre c T -> wp (names_open c) (call_prog c) T (post c).
Proof.
  intros Hc HT. destruct c; cbn [pre file_of] in HT; try subst T; cbn [call_prog names_open].
  - apply wp_bind, wp_dumb; [done|]. intros r. by apply wp_ret.
  - apply wp_bind, wp_map_offset. intros r. by apply wp_ret.
  - by apply wp_mmap.
  - apply wp_bind, wp_vm_open. by apply wp_ret.
  - apply wp_bind, wp_vm_close. by apply wp_ret.
  - by apply wp_handle_delete.
  - apply wp_bind, wp_flink; [done|]. intros r. by apply wp_ret.
  - apply wp_bind, wp_open. intros r. by apply wp_ret.
  - apply wp_bind, wp_handle_to_fd. intros r. by apply wp_ret.
  - destruct Hc as (Ha & Ho & ->). apply wp_bind, wp_fd_to_handle; [done..|]. intros r. by apply wp_ret.
  - apply wp_bind, wp_close_fd. by apply wp_ret.
  - apply wp_bind, wp_foreign_fd; [done|]. by apply wp_ret.
  - apply wp_bind, wp_unref. by apply wp_ret.
  - destruct HT as [l ->]. apply wp_bind, wp_file_release. by apply wp_ret.
Qed.

(** The tokens of all threads. *)
Definition all_toks (M : gmap Z (list tok)) : list tok := mjoin (map_to_list M).*2.

Lemma all_toks_lookup M t T : M !! t = Some T -> all_toks M ≡ₚ T ++ all_toks (delete t M).
Proof. intros E. unfold all_toks. by rewrite <- (map_to_list_delete M t T E). Qed.

Lemma all_toks_insert M t T : all_toks (<[t := T]> M) ≡ₚ T ++ all_toks (delete t M).
Proof. rewrite (all_toks_lookup _ t T) by apply lookup_insert_eq. by rewrite delete_insert_eq. Qed.

Lemma all_toks_elem M u : u ∈ all_toks M -> exists t T, M !! t = Some T /\ u ∈ T.
Proof.
  unfold all_toks. intros (T & Hu & Hin)%list_elem_of_join. apply list_elem_of_fmap in Hin as ([t T'] & -> & Hin%elem_of_map_to_list).
  by exists t, T'.
Qed.

(** A thread is safe with its tokens. *)
Definition thread_ok (th : thread S) (T : list tok) : Prop :=
  match th with
  | Run c p => wp (names_open c) p T (post c)
  | Crashed c => names_open c = true /\ held T = []
  end.

Record sys_inv (s : sys) (M : gmap Z (list tok)) : Prop := {
  s_inv : inv (state s) (all_toks M);
  s_toks t : is_Some (threads s !! t) <-> is_Some (M !! t);
  s_thread t th T : threads s !! t = Some th -> M !! t = Some T -> thread_ok th T;
  s_locks t T m : M !! t = Some T -> m ∈ held T <-> locks s !! m = Some t;
  s_holder m t : locks s !! m = Some t -> is_Some (M !! t);
  s_log f r : (CRelease f, r) ∈ log s -> r = 0;
}.
Lemma elem_of_held m T : m ∈ held T <-> exists u, u ∈ T /\ lock_of u = Some m.
Proof. unfold held. apply list_elem_of_omap. Qed.

(** ** Tokens of mutexes *)
Lemma lock_move g L m : inv g L -> (forall u, u ∈ L -> lock_of u <> Some m) -> inv g (lock_tok m :: L).
Proof.
  intros Hi Hm. destruct m as [|f]; [apply name_lock_move|apply prime_lock_move]; try done; intros s Hs; by apply (Hm _ Hs).
Qed.

Lemma unlock_move g L m u : inv g (u :: L) -> unlocks m u -> inv g L /\ lock_of u = Some m /\ forall v, v ∈ L -> lock_of v <> Some m.
Proof.
  intros Hi Hu. destruct m as [|f]; cbn in Hu.
  - subst u. split_and!; [by apply name_unlock_move|done|]. intros v Hv Hl.
    destruct v; try done. by apply (no_other_name _ _ _ (proj2 Hi) s).
  - destruct Hu as [s ->]. split_and!; [by apply (prime_unlock_move _ _ f s)|done|]. intros v Hv Hl.
    destruct v as [| | | | | | |f' s'|]; try done. cbn in Hl. injection Hl as ->. by apply (no_other_prime _ _ _ _ (proj2 Hi) s').
Qed.

(** ** Calls begin and end *)
Lemma enter_ok c g g' L : inv g L -> enter c g = Some g' -> exists T, pre c T /\ held T = [] /\ inv g' (T ++ L).
Proof.
  intros Hi. assert (forall f, (fl ← files g !! f; if f_open fl then Some (store_file f (set_users (f_users fl + 1) fl) g) else None) = Some g' ->
    inv g' ([TUse f] ++ L)) as Huse.
  { intros f. destruct (files g !! f) as [fl|] eqn:E; [|done]. cbn. destruct (f_open fl) eqn:Eo; [|done]. intros [= <-].
    by apply use_start_move. }
  destruct c; cbn [enter file_of]; intros Ee; cbn [pre file_of]; try (eexists; split_and!; [done|done|by apply Huse]);
    try (injection Ee as <-; by exists []).
  { destruct (take_one o (released g)) as [l|] eqn:El; [|done]. injection Ee as <-. exists [TRef o]. split_and!; [done..|].
    by apply release_start_move. }
  destruct (files g !! f) as [fl|] eqn:E; [|done]. cbn in Ee. destruct (f_open fl && (f_users fl =? 0)) eqn:Eo; [|done].
  injection Ee as <-. apply andb_prop in Eo as [Eo Eu%Z.eqb_eq]. eexists [_]. split_and!; [by eexists|done|]. by apply own_start_move.
Qed.

Lemma leave_ok c g r T L : inv g (T ++ L) -> post c r T -> inv (leave c g) L /\ held T = [].
Proof.
  intros Hi HT. assert (forall f, inv g ([TUse f] ++ L) ->
    inv (match files g !! f with Some fl => store_file f (set_users (f_users fl - 1) fl) g | None => g end) L) as Huse.
  { intros f Hf. destruct (use_stop_move g L f Hf) as (fl & -> & Hr). done. }
  destruct c; cbn [post file_of] in HT; try subst T; unfold leave; cbn [file_of]; try (split; [by apply Huse|done]); try done.
  destruct HT as [_ ->]. split; [by apply (own_drop_move _ _ f false)|done].
Qed.

(** ** Steps *)
Lemma thread_update s M t th T g lk : sys_inv s M -> inv g (T ++ all_toks (delete t M)) -> thread_ok th T ->
  (forall m, m ∈ held T <-> lk !! m = Some t) -> (forall m u, u <> t -> lk !! m = Some u <-> locks s !! m = Some u) ->
  sys_inv (MkSys g (<[t := th]> (threads s)) lk (log s)) (<[t := T]> M).
Proof.
  intros [I K Th Lk Ho Lg] Hi Hth Hh Hlk. split; cbn; [by rewrite all_toks_insert| | | | |done].
  - intros u. destruct (decide (u = t)) as [->|Hu]; [by rewrite !lookup_insert_eq|by rewrite !lookup_insert_ne by done].
  - intros u th' T'. destruct (decide (u = t)) as [->|Hu]; [rewrite !lookup_insert_eq; congruence|rewrite !lookup_insert_ne by done; apply Th].
  - intros u T' m. destruct (decide (u = t)) as [->|Hu]; [rewrite lookup_insert_eq; by intros [= <-]|].
    rewrite lookup_insert_ne by done. rewrite (Hlk m u Hu). apply Lk.
  - intros m u Hm. destruct (decide (u = t)) as [->|Hu]; [by rewrite lookup_insert_eq|].
    rewrite lookup_insert_ne by done. by apply (Ho m), Hlk.
Qed.

Lemma thread_end s M t g lg : sys_inv s M -> inv g (all_toks (delete t M)) -> (forall m, locks s !! m <> Some t) ->
  (forall f r, (CRelease f, r) ∈ lg -> r = 0) -> sys_inv (MkSys g (delete t (threads s)) (locks s) lg) (delete t M).
Proof.
  intros [I K Th Lk Ho Lg] Hi Hn Hlg. split; cbn; [done| | | | |done].
  - intros u. destruct (decide (u = t)) as [->|Hu]; [by rewrite !lookup_delete_eq|by rewrite !lookup_delete_ne by done].
  - intros u th' T'. rewrite !lookup_delete_Some. intros [_ H1] [_ H2]. by apply (Th u).
  - intros u T' m. rewrite lookup_delete_Some. intros [_ H2]. by apply Lk.
  - intros m u Hm. rewrite lookup_delete_ne; [by apply (Ho m)|]. intros ->. by apply (Hn m).
Qed.

(** What a thread that runs gives: its tokens, and those of the others. *)
Lemma running s M t th : sys_inv s M -> threads s !! t = Some th -> exists T, M !! t = Some T /\
  inv (state s) (T ++ all_toks (delete t M)) /\ thread_ok th T /\ forall m, m ∈ held T <-> locks s !! m = Some t.
Proof.
  intros [I K Th Lk Ho Lg] Et. destruct (proj1 (K t)) as [T ET]; [by exists th|]. exists T. split_and!; [done| |by apply (Th t)|intros m; by apply Lk].
  by apply (inv_perm _ _ _ (all_toks_lookup M t T ET)).
Qed.

Lemma ret_step s M t c r : sys_inv s M -> threads s !! t = Some (Run c (Ret r)) ->
  sys_inv (MkSys (leave c (state s)) (delete t (threads s)) (locks s) ((c, r) :: log s)) (delete t M).
Proof.
  intros Hs Et. destruct (running _ _ _ _ Hs Et) as (T & ET & Hi & (T' & Hp & HQ) & Hh). rewrite Hp in Hi.
  destruct (leave_ok c (state s) r T' _ Hi HQ) as [Hi' Hl]. apply thread_end; try done.
  - intros m Hm%Hh. rewrite (held_perm _ _ Hp), Hl in Hm. by apply not_elem_of_nil in Hm.
  - intros f r'. rewrite elem_of_cons. intros [[= <- <-]|Hin]; [by destruct HQ|by apply (s_log _ _ Hs f)].
Qed.

Lemma sec_step s M t c (R : Set) (f : gem -> run (R * gem)) k s' : sys_inv s M -> roomy (state s) ->
  threads s !! t = Some (Run c (Sec f k)) -> thread_step t s = Some s' -> exists M', sys_inv s' M'.
Proof.
  intros Hs Hr Et. destruct (running _ _ _ _ Hs Et) as (T & ET & Hi & Hw & Hh). unfold thread_step. rewrite Et.
  cbn in Hw. specialize (Hw _ _ Hr Hi). destruct (f (state s)) as [[r g]| |]; [| |done]; intros [= <-].
  - destruct Hw as (T' & Hi' & Hh' & Hw). exists (<[t := T']> M). apply thread_update; try done. intros m. by rewrite Hh'.
  - destruct Hw as [Hl [f0 Hp]]. exists (<[t := T]> M). apply thread_update; try done. split; [done|].
    apply Permutation_nil. by rewrite (held_perm _ _ Hp).
Qed.

Lemma lock_step s M t c m p s' : sys_inv s M -> threads s !! t = Some (Run c (Lock m p)) -> thread_step t s = Some s' ->
  exists M', sys_inv s' M'.
Proof.
  intros Hs Et. destruct (running _ _ _ _ Hs Et) as (T & ET & Hi & [_ Hw] & Hh). unfold thread_step. rewrite Et.
  destruct (locks s !! m) as [u|] eqn:Em; [done|]. intros [= <-]. exists (<[t := lock_tok m :: T]> M). apply thread_update; try done.
  - apply lock_move; [done|]. intros u Hu Hl. assert (u ∈ all_toks M) as Hu' by (by rewrite (all_toks_lookup M t T ET)).
    apply all_toks_elem in Hu' as (t' & T' & Et' & Hin). assert (m ∈ held T') as Hm by (apply elem_of_held; by exists u).
    apply (s_locks _ _ Hs t' T' m Et') in Hm. congruence.
  - intros m'. cbn. assert (lock_of (lock_tok m) = Some m) as -> by (by destruct m). rewrite elem_of_cons, Hh.
    destruct (decide (m' = m)) as [->|Hne]; [rewrite lookup_insert_eq; tauto|]. rewrite lookup_insert_ne by done. tauto.
  - intros m' u Hu. destruct (decide (m' = m)) as [->|Hne]; [rewrite lookup_insert_eq; naive_solver congruence|].
    by rewrite lookup_insert_ne by done.
Qed.

Lemma unlock_step s M t c m p s' : sys_inv s M -> threads s !! t = Some (Run c (Unlock m p)) -> thread_step t s = Some s' ->
  exists M', sys_inv s' M'.
Proof.
  intros Hs Et. destruct (running _ _ _ _ Hs Et) as (T & ET & Hi & (u & T' & Hp & Hu & Hw) & Hh). rewrite Hp in Hi.
  destruct (unlock_move _ _ m u Hi Hu) as (Hi' & Hl & Hno).
  assert (forall m', m' ∈ held T <-> m' = m \/ m' ∈ held T') as Hheld.
  { intros m'. rewrite (held_perm _ _ Hp). cbn. rewrite Hl, elem_of_cons. tauto. }
  assert (locks s !! m = Some t) as Em by (apply Hh, Hheld; by left).
  unfold thread_step. rewrite Et. rewrite decide_True by done. intros [= <-]. exists (<[t := T']> M). apply thread_update; try done.
  - intros m'. destruct (decide (m' = m)) as [->|Hne].
    + rewrite lookup_delete_eq. split; [|done]. intros (v & Hv & Hlv)%elem_of_held. destruct (Hno v); [|done]. apply elem_of_app. by left.
    + rewrite lookup_delete_ne by done. rewrite <- Hh, Hheld. tauto.
  - intros m' v Hv. destruct (decide (m' = m)) as [->|Hne]; [rewrite lookup_delete_eq; split; congruence|by rewrite lookup_delete_ne by done].
Qed.

Lemma step_inv s s' M : step s s' -> sys_inv s M -> exists M', sys_inv s' M'.
Proof.
  intros Hst Hs. destruct Hst as [s f Ef|s t c g Et Hc Ee|s s' [Hr [t Et]]].
  - exists M. destruct Hs as [I K Th Lk Ho Lg]. split; try done. by apply file_open_move.
  - destruct (enter_ok c _ _ _ (s_inv _ _ Hs) Ee) as (T & HT & Hh & Hi). assert (M !! t = None) as EM.
    { destruct (M !! t) eqn:EM; [|done]. destruct (proj2 (s_toks _ _ Hs t)) as [th Hth]; [by rewrite EM|congruence]. }
    exists (<[t := T]> M). apply thread_update; try done.
    + by rewrite delete_id.
    + by apply call_safe.
    + intros m. rewrite Hh. split; [by intros ?%not_elem_of_nil|]. intros Hm%(s_holder _ _ Hs). rewrite EM in Hm. by destruct Hm.
  - destruct (threads s !! t) as [[c p|c]|] eqn:Eth; [|by unfold thread_step in Et; rewrite Eth in Et..].
    destruct p as [r|R f k|m p|m p]; [|by apply (sec_step s M t c R f k)|by apply (lock_step s M t c m p)|by apply (unlock_step s M t c m p)].
    unfold thread_step in Et. rewrite Eth in Et. injection Et as <-. exists (delete t M). by apply ret_step.
Qed.

Lemma reachable_inv s : reachable s -> exists M, sys_inv s M.
Proof.
  induction 1 as [|s s' _ [M IH] Hs]; [|by apply (step_inv s s' M)]. exists ∅. split; cbn; try done.
  - by apply init_inv.
  - intros t. by rewrite !lookup_empty.
  - intros f r Hin. by apply not_elem_of_nil in Hin.
Qed.

End soundness.
