(* ===== verification/DrmGemProps.v ===== *)
(** * GEM and PRIME: the properties

    Safety of every interleaving of system calls, exact counts and no leaks when
    nothing runs, termination without deadlock, and the runs on which the code
    fails. *)

From S2P Require Import Prelude Counting Idr DrmMm DrmVma DrmVmaProps DrmGem DrmPrime DrmGemInv DrmGemMoves DrmGemHandles DrmGemShare DrmGemCreate DrmGemWp DrmGemCalls DrmGemSys.

(** ** Termination *)
Section termination.
Context {S : Type} {RA : range_alloc S} {RB : rbtree} `{idr_ops} {GH : gem_h S}.
Local Notation gem := (gem S).

(** The rest of a program after a step. *)
Definition rest (q p : prog gem Z) : Prop :=
  match p with
  | Ret _ => False
  | Sec f k => exists r, q = k r
  | Lock _ p | Unlock _ p => q = p
  end.

Lemma rest_acc p : Acc rest p.
Proof. induction p as [a|R f k IH|m p IH|m p IH]; constructor; intros q Hq; [done|destruct Hq as [r ->]; apply IH|cbn in Hq; by subst q..]. Qed.

(** The threads after a step. *)
Inductive shrink : gmap Z (thread S) -> gmap Z (thread S) -> Prop :=
| shrink_run m t c p q : m !! t = Some (Run c p) -> rest q p -> shrink (<[t := Run c q]> m) m
| shrink_crash m t c p : m !! t = Some (Run c p) -> shrink (<[t := Crashed c]> m) m
| shrink_end m t c p : m !! t = Some (Run c p) -> shrink (delete t m) m.

(** A step of another thread. *)
Lemma shrink_other m m' t th : shrink m' (<[t := th]> m) -> m !! t = None ->
  (exists m1, shrink m1 m /\ m1 !! t = None /\ m' = <[t := th]> m1) \/
  (exists c p, th = Run c p /\ ((exists q, rest q p /\ m' = <[t := Run c q]> m) \/ m' = <[t := Crashed c]> m \/ m' = m)).
Proof.
  intros Hs Hn. inversion Hs as [m0 u c p q Hu Hq|m0 u c p Hu|m0 u c p Hu]; subst; destruct (decide (u = t)) as [->|Hne].
  all: try (rewrite lookup_insert_eq in Hu; injection Hu as ->; right; exists c, p; split; [done|]).
  all: try (rewrite lookup_insert_ne in Hu by done; left).
  - left. exists q. split; [done|]. by rewrite insert_insert_eq.
  - exists (<[u := Run c q]> m). split_and!; [by apply (shrink_run _ _ _ p)|by rewrite lookup_insert_ne|by apply insert_insert_ne].
  - right. left. by rewrite insert_insert_eq.
  - exists (<[u := Crashed c]> m). split_and!; [by apply (shrink_crash _ _ _ p)|by rewrite lookup_insert_ne|by apply insert_insert_ne].
  - right. right. rewrite delete_insert_eq. by apply delete_id.
  - exists (delete u m). split_and!; [by apply (shrink_end _ _ c p)|by rewrite lookup_delete_ne|by apply delete_insert_ne].
Qed.

Lemma shrink_insert m t : Acc shrink m -> m !! t = None -> forall th, Acc shrink (<[t := th]> m).
Proof.
  intros Ha. induction Ha as [m Hm IH]. intros Hn.
  assert (forall c, Acc shrink (<[t := Crashed c]> m)) as Hcr.
  { intros c. constructor. intros m' [(m1 & H1 & H2 & ->)|(c' & p & [=] & _)]%shrink_other; [by apply IH|done]. }
  intros [c p|c]; [|apply Hcr]. induction (rest_acc p) as [p _ IHp]. constructor.
  intros m' [(m1 & H1 & H2 & ->)|(c' & p' & [= <- <-] & [(q & Hq & ->)|[->| ->]])]%shrink_other; [by apply IH|by apply IHp|apply Hcr| |done].
  by constructor.
Qed.

Lemma shrink_acc m : Acc shrink m.
Proof.
  induction m as [|t th m Hn IH] using map_ind; [|by apply shrink_insert].
  constructor. intros m' Hs. inversion Hs; by rewrite lookup_empty in *.
Qed.

Lemma work_shrinks s s' : work s s' -> shrink (threads s') (threads s).
Proof.
  intros [_ [t Et]]. unfold thread_step in Et. destruct (threads s !! t) as [[c p|]|] eqn:Eth; [|done|done].
  destruct p as [r|R f k|m p|m p].
  - injection Et as <-. by apply (shrink_end _ _ c (Ret r)).
  - destruct (f (state s)) as [[r g]| |]; [| |done]; injection Et as <-; [|by apply (shrink_crash _ _ _ (Sec f k))].
    apply (shrink_run _ _ _ (Sec f k)); [done|by exists r].
  - destruct (locks s !! m); [done|]. injection Et as <-. apply (shrink_run _ _ _ (Lock m p)); done.
  - destruct (decide _); injection Et as <-; [|by apply (shrink_crash _ _ _ (Unlock m p))].
    apply (shrink_run _ _ _ (Unlock m p)); done.
Qed.

Lemma work_acc (s : sys S) : Acc (fun s' s => work s s') s.
Proof.
  remember (threads s) as m eqn:Em. revert s Em. induction (shrink_acc m) as [m _ IH]. intros s ->. constructor. intros s' Hw.
  by apply (IH (threads s')); [apply work_shrinks|].
Qed.
End termination.

Section theorems.
Context {S : Type} {RA : range_alloc S} {RAok : range_alloc_ok S RA} {RB : rbtree} {RBok : rbtree_ok RB}.
Context `{idr_ops} `{!idr_laws} {GH : gem_h S} {GHok : gem_h_ok GH}.
Local Notation gem := (gem S).
Local Notation sys := (sys S).
Implicit Types (s : sys) (g : gem).

(** ** Progress *)

(** A thread can go on, or waits for a mutex of a higher rank than it holds. *)
Lemma steps_or_waits s M t c p : sys_inv s M -> roomy (state s) -> threads s !! t = Some (Run c p) ->
  (exists s', work s s') \/
  (exists m u, locks s !! m = Some u /\ forall m', locks s !! m' = Some t -> rank m' < rank m).
Proof.
  intros Hs Hr Et. destruct (running _ _ _ _ Hs Et) as (T & ET & Hi & Hw & Hh).
  assert (forall s', thread_step t s = Some s' -> exists s', work s s') as Hgo by (intros s' Hs'; exists s'; split; [done|by exists t]).
  unfold thread_step in Hgo. rewrite Et in Hgo. destruct p as [r|R f k|m p|m p].
  - left. by eapply Hgo.
  - left. cbn in Hw. specialize (Hw _ _ Hr Hi). destruct (f (state s)) as [[r g]| |]; [by eapply Hgo..|done].
  - destruct (locks s !! m) as [u|] eqn:Em; [|left; by eapply Hgo]. right. exists m, u. split; [done|].
    intros m' Hm'%Hh. destruct Hw as [Hf _]. rewrite Forall_forall in Hf. by apply Hf.
  - left. destruct (decide (locks s !! m = Some t)); by eapply Hgo.
Qed.

Lemma holder_steps s M n t m : sys_inv s M -> roomy (state s) -> locks s !! m = Some t -> 1 - rank m < Z.of_nat n ->
  exists s', work s s'.
Proof.
  intros Hs Hr. revert t m. induction n as [|n IH]; intros t m Hm Hn; [destruct m; cbn in Hn; lia|].
  destruct (s_holder _ _ Hs m t Hm) as [T ET]. apply (s_locks _ _ Hs t T m ET) in Hm as Hh.
  destruct (proj2 (s_toks _ _ Hs t)) as [[c p|c] Et]; [by rewrite ET| |].
  - destruct (steps_or_waits s M t c p Hs Hr Et) as [Hw|(m' & u & Hu & Hlt)]; [done|].
    apply (IH u m' Hu). specialize (Hlt m Hm). lia.
  - destruct (s_thread _ _ Hs t _ T Et ET) as [_ Hno]. rewrite Hno in Hh. by apply not_elem_of_nil in Hh.
Qed.

Lemma progress s M t c p : sys_inv s M -> roomy (state s) -> threads s !! t = Some (Run c p) -> exists s', work s s'.
Proof.
  intros Hs Hr Et. destruct (steps_or_waits s M t c p Hs Hr Et) as [Hw|(m & u & Hu & _)]; [done|].
  apply (holder_steps s M 2 u m Hs Hr Hu). destruct m; cbn; lia.
Qed.

(** ** When nothing runs *)
Lemma quiet_inv s : reachable s -> threads s = ∅ -> inv (state s) [].
Proof.
  intros (M & Hs)%reachable_inv Et. assert (M = ∅) as ->.
  { apply map_eq. intros t. rewrite lookup_empty. destruct (M !! t) eqn:EM; [|done].
    destruct (proj2 (s_toks _ _ Hs t)) as [th Hth]; [by rewrite EM|]. by rewrite Et, lookup_empty in Hth. }
  apply (s_inv _ _ Hs).
Qed.

(** Nothing has a handle when no file is open. *)
Lemma closed_handles g o : (forall f fl, files g !! f = Some fl -> f_open fl = false) -> handles g [] o = 0.
Proof.
  intros Hf. unfold handles. cbn. rewrite Z.add_0_r. apply msum_0. intros f fl E. unfold file_handles. by rewrite (Hf f fl E).
Qed.

Lemma closed_empty g : inv g [] -> (forall f fl, files g !! f = Some fl -> f_open fl = false) -> fds g = ∅ -> vmas g = ∅ ->
  released g = [] -> objs g = ∅ /\ bufs g = ∅.
Proof.
  intros [C K] Hf Efd Ev Erel.
  assert (forall o, ~ hot g [] o) as Hcold.
  { intros o [Hh|(v & Hv)]; [|by apply not_elem_of_nil in Hv]. rewrite (c_hc _ _ C), closed_handles in Hh by done. lia. }
  assert (forall f fl, files g !! f = Some fl -> prime fl = []) as Hprime.
  { intros f fl E. destruct (prime fl) as [|[b h] l] eqn:Ep; [done|].
    destruct (l_member _ _ K f fl b h E) as (o & x & _ & _ & Hp); [rewrite Ep; by left|].
    by destruct (Hcold o (present_hot _ _ C f o Hp)). }
  (* a dma-buf is held by an object that imports it *)
  assert (forall b y, bufs g !! b = Some y -> exists o x, objs g !! o = Some x /\ import_attach x = Some b) as Hbuf.
  { intros b y E. pose proof (c_blive _ _ C b y E) as Hp. rewrite (buf_count _ _ C b y E) in Hp. unfold buf_refs in Hp.
    rewrite Efd, msum_empty in Hp. cbn in Hp. rewrite (msum_0 (fun fl => occ b (prime fl).*1)) in Hp.
    2:{ intros f fl Ef. by rewrite (Hprime f fl Ef). }
    assert (0 < msum (fun x => obuf b (dma_buf x) + obuf b (import_attach x)) (objs g)) as (o & x & Ex & Hx)%msum_pos by lia. exists o, x. split; [done|].
    destruct (dma_buf x) as [c|] eqn:Ed; [by destruct (Hcold o (l_cache _ _ K o x c Ex Ed))|].
    destruct (import_attach x) as [c|]; [|cbn in Hx; lia]. cbn in Hx. destruct (Z.eqb_spec b c) as [->|]; [done|cbn in Hx; lia]. }
  assert (objs g = ∅) as Eo.
  { apply map_eq. intros o. rewrite lookup_empty. destruct (objs g !! o) as [x|] eqn:Ex; [|done].
    pose proof (c_live _ _ C o x Ex) as Hp. destruct (obj_counts _ _ C o x Ex) as [_ Er]. rewrite Er, closed_handles in Hp by done.
    unfold refs in Hp. rewrite Ev, Erel, msum_empty in Hp. change (occ o []) with 0 in Hp. cbn in Hp.
    assert (0 < msum (fun y => obuf o (b_priv y)) (bufs g)) as (b & y & Ey & Hy)%msum_pos by lia. destruct (Hbuf b y Ey) as (q & xq & Eq & Hq).
    destruct (l_import _ _ K q xq b Eq Hq) as (_ & (y' & Ey' & Hn) & _). rewrite Ey in Ey'. injection Ey' as <-.
    rewrite Hn in Hy. cbn in Hy. lia. }
  split; [done|]. apply map_eq. intros b. rewrite lookup_empty. destruct (bufs g !! b) as [y|] eqn:Ey; [|done].
  destruct (Hbuf b y Ey) as (o & x & Ex & _). by rewrite Eo, lookup_empty in Ex.
Qed.
End theorems.

(** ** Programs that run alone *)
Section alone.
Context {S : Type} {RA : range_alloc S} {RAok : range_alloc_ok S RA} {RB : rbtree} {RBok : rbtree_ok RB}.
Context `{idr_ops} `{!idr_laws} {GH : gem_h S} {GHok : gem_h_ok GH}.
Local Notation gem := (gem S).
Implicit Types (g : gem).

Lemma exec_bind {A B} (p : prog gem A) (k : A -> prog gem B) l g :
  exec (p ≫= k) l g = ('(a, l, g) ← exec p l g; exec (k a) l g).
Proof.
  revert l g. induction p as [a|R f k' IH|m p IH|m p IH]; intros l g; cbn.
  - done.
  - destruct (f g) as [[r g']| |]; cbn; [apply IH|done|done].
  - destruct (decide (m ∈ l)); [done|apply IH].
  - destruct (decide (m ∈ l)); [apply IH|done].
Qed.

Lemma exec_sec {R : Set} {A} (f : gem -> run (R * gem)) (k : R -> prog gem A) l g r g' :
  f g = Done (r, g') -> exec (sec f ≫= k) l g = exec (k r) l g'.
Proof. intros E. cbn. by rewrite E. Qed.

Lemma exec_sec_ {A} (f : gem -> run gem) (k : unit -> prog gem A) l g g' :
  f g = Done g' -> exec (sec_ f ≫= k) l g = exec (k tt) l g'.
Proof. intros E. cbn. by rewrite E. Qed.

Lemma exec_lock {A} m (k : unit -> prog gem A) l g : m ∉ l -> exec (mutex_lock m ≫= k) l g = exec (k tt) (m :: l) g.
Proof. intros Hm. cbn. by rewrite decide_False. Qed.

Lemma exec_relock {A} m (k : unit -> prog gem A) l g : m ∈ l -> exec (mutex_lock m ≫= k) l g = Loops.
Proof. intros Hm. cbn. by rewrite decide_True. Qed.

Lemma exec_unlock {A} m (k : unit -> prog gem A) l g : m ∉ l -> exec (mutex_unlock m ≫= k) (m :: l) g = exec (k tt) l g.
Proof.
  intros Hm. cbn. rewrite decide_True by (by left). rewrite decide_False by (intros Hn; by destruct Hn).
  match goal with |- exec _ ?l' _ = _ => enough (l' = l) as -> by done end. induction l as [|m' l IH]; [done|].
  rewrite not_elem_of_cons in Hm. cbn. rewrite decide_True by naive_solver. f_equal. apply IH. naive_solver.
Qed.

(** A handle is created when there is memory. *)
Lemma handle_add_alone e f o g x fl r m : files g !! f = Some fl -> objs g !! o = Some x -> e_idr e = true ->
  idr_alloc true o 1 (object_idr fl) = (r, m) -> handle_add e f o g = Done (r,
    store_file f (set_idr m fl) (store_obj o (set_handle_count (handle_count x + 1) (set_refcount (refcount x + 1) x)) g)).
Proof.
  intros Ef Ex He Ea. unfold handle_add. rewrite Ef. mred. rewrite He, Ea. unfold drm_gem_object_reference.
  cbn [objs store_file set_files]. rewrite Ex. mred. cbn [objs store_obj set_objs]. rewrite lookup_insert_eq. mred.
  unfold store_obj, store_file, set_objs, set_files. cbn. by rewrite insert_insert_eq.
Qed.

(** [drm_gem_handle_delete] waits for ever when its caller holds the lock of the
    file's list. *)
Lemma delete_relocks f h o g x fl l : files g !! f = Some fl -> idr_find (object_idr fl) h = Some o -> objs g !! o = Some x ->
  prime_lock f ∈ l -> exec (drm_gem_handle_delete f h) l g = Loops.
Proof.
  intros Ef Eh Ex Hl. unfold drm_gem_handle_delete. rewrite (exec_sec _ _ _ _ (Some o) (store_file f (set_idr (idr_remove h (object_idr fl)) fl) g)).
  2:{ unfold handle_remove. rewrite Ef. mred. rewrite Eh. by rewrite Ex. }
  rewrite exec_bind. unfold drm_gem_remove_prime_handles. by rewrite exec_relock.
Qed.

(** The import of a dma-buf of our own as its object. *)
Lemma import_alone i b y o x g : bufs g !! b = Some y -> b_priv y = Some o -> objs g !! o = Some x ->
  exists y' v, import_object i b g = Done (inr o, cached o (set_dma_buf (Some v) (set_refcount (refcount x + 1) x)) b y' g) /\
    b_priv y' = Some o /\ b_count y <= b_count y'.
Proof.
  intros Eb Hy Ex. unfold import_object, drm_gem_prime_import. rewrite Eb. mred. rewrite Hy. unfold drm_gem_object_reference. rewrite Ex. mred.
  cbn [objs store_obj set_objs]. rewrite lookup_insert_eq. mred. cbn [dma_buf set_refcount]. destruct (dma_buf x) as [v|] eqn:Ed.
  - exists y, v. split_and!; [|done|done]. unfold cached, store_obj, store_buf, set_objs, set_bufs. cbn. rewrite (insert_id (bufs g)) by done.
    do 6 f_equal. unfold set_dma_buf, set_refcount. cbn. by rewrite Ed.
  - unfold get_dma_buf. cbn [bufs store_obj set_objs]. rewrite Eb. mred. exists (set_b_count (b_count y + 1) y), b. split_and!; [|done|cbn; lia].
    unfold cached, store_obj, store_buf, set_objs, set_bufs. cbn. by rewrite insert_insert_eq.
Qed.
Lemma unref_alone o g x : objs g !! o = Some x -> refcount x <> 1 ->
  drm_gem_object_unreference o g = Done (store_obj o (set_refcount (refcount x - 1) x) g).
Proof. intros Ex Hr. unfold drm_gem_object_unreference. rewrite Ex. mred. destruct (Z.eqb_spec (refcount x - 1) 0); [lia|done]. Qed.

Lemma allow_alone o f g x : objs g !! o = Some x ->
  exists t, drm_vma_allow true o f g = Done (0, store_obj o (set_vm_files t x) g).
Proof.
  intros Ex. unfold drm_vma_allow. rewrite Ex. mred. pose proof (allow_ok (vm_files x) f) as Hz.
  destruct (drm_vma_node_allow true (vm_files x) f) as [r t]. cbn in Hz. subst r. by exists t.
Qed.

(** The handle of an object under [object_name_lock], with memory: the state after
    it, and what the driver's [gem_open_object] decides. *)
Lemma create_tail_alone e f o g x fl r m l : files g !! f = Some fl -> objs g !! o = Some x -> e_idr e = true -> e_allow e = true ->
  idr_alloc true o 1 (object_idr fl) = (r, m) -> 0 <= r -> object_name_lock ∉ l ->
  exists t, let x' := set_vm_files t (set_handle_count (handle_count x + 1) (set_refcount (refcount x + 1) x)) in
    let g' := store_file f (set_idr m fl) (store_obj o x' g) in
    exec (drm_gem_handle_create_tail e f o) (object_name_lock :: l) g =
      if truth (e_open e) then exec (_ ← drm_gem_handle_delete f r; Ret (e_open e, r)) l g' else Done (0, r, l, g').
Proof.
  intros Ef Ex He Ha Ea Hr Hl. unfold drm_gem_handle_create_tail.
  rewrite (exec_sec _ _ _ _ _ _ (handle_add_alone e f o g x fl r m Ef Ex He Ea)), (exec_unlock _ _ _ _ Hl).
  destruct (Z.ltb_spec r 0); [lia|]. rewrite Ha.
  set (x1 := set_handle_count (handle_count x + 1) (set_refcount (refcount x + 1) x)).
  destruct (allow_alone o f (store_file f (set_idr m fl) (store_obj o x1 g)) x1) as [t Et]; [cbn; by rewrite lookup_insert_eq|].
  exists t. cbn zeta. rewrite (exec_sec _ _ _ _ _ _ Et). change (truth 0) with false.
  replace (store_obj o (set_vm_files t x1) (store_file f (set_idr m fl) (store_obj o x1 g)))
    with (store_file f (set_idr m fl) (store_obj o (set_vm_files t x1) g)).
  2:{ unfold store_file, store_obj, set_files, set_objs. cbn. by rewrite insert_insert_eq. }
  by destruct (truth (e_open e)).
Qed.

Section import.
Context (i : ienv) (e : henv) (mem : bool) (f fd b o r : Z) (g : gem) (y : dmabuf) (x : drm_gem_object) (fl : drm_file) (m : idr).
Context (Efd : fds g !! fd = Some b) (Eb : bufs g !! b = Some y) (Hy : b_priv y = Some o) (Ex : objs g !! o = Some x).
Context (Ef : files g !! f = Some fl) (Hl : drm_prime_lookup_buf_handle (prime fl) b = None).
Context (Hid : e_idr e = true) (Ha : e_allow e = true) (Ea : idr_alloc true o 1 (object_idr fl) = (r, m)) (Hr : 0 <= r).
Context (Hx : 0 < refcount x).

(** The rest of the import once the object has its handle. *)
Definition import_rest (mem : bool) (t : Z * Z) : prog gem (Z * Z) :=
  ret ← sec (drm_prime_add_buf_handle mem f b t.2);
  if truth ret then _ ← drm_gem_handle_delete f t.2; _ ← mutex_unlock object_name_lock; import_out_put f b ret t.2
  else _ ← mutex_unlock (prime_lock f); _ ← sec_ (dma_buf_put b); Ret (0, t.2).

Lemma import_until_handle : exists g' x' y', files g' = <[f := set_idr m fl]> (files g) /\
  objs g' = <[o := x']> (objs g) /\ bufs g' = <[b := y']> (bufs g) /\ b_count y < b_count y' /\ fds g' = fds g /\
  exec (drm_gem_prime_fd_to_handle i e mem f fd) [] g =
    if truth (e_open e) then Loops else exec (import_rest mem (0, r)) [prime_lock f] g'.
Proof.
  unfold drm_gem_prime_fd_to_handle.
  set (g1 := store_buf b (set_b_count (b_count y + 1) y) g).
  rewrite (exec_sec _ _ _ _ (Some b) g1) by (unfold dma_buf_get, get_dma_buf; rewrite Efd, Eb; done).
  rewrite exec_lock by apply not_elem_of_nil.
  rewrite (exec_sec _ _ _ _ None g1) by (unfold find_imported; cbn; rewrite Ef; mred; by rewrite Hl).
  rewrite exec_lock by (rewrite list_elem_of_singleton; done).
  destruct (import_alone i b (set_b_count (b_count y + 1) y) o x g1) as (y' & v & Ei & _ & Hy'); [cbn; by rewrite lookup_insert_eq|done|done|].
  rewrite (exec_sec _ _ _ _ _ _ Ei). set (x1 := set_dma_buf (Some v) (set_refcount (refcount x + 1) x)) in *.
  set (g2 := cached o x1 b y' g1).
  destruct (create_tail_alone e f o g2 x1 fl r m [prime_lock f]) as [t Et]; [done|cbn; by rewrite lookup_insert_eq|done..| |].
  { rewrite list_elem_of_singleton. done. }
  cbn zeta in Et. rewrite exec_bind, Et. clear Et.
  set (x2 := set_vm_files t (set_handle_count (handle_count x1 + 1) (set_refcount (refcount x1 + 1) x1))).
  set (g3 := store_file f (set_idr m fl) (store_obj o x2 g2)).
  assert (objs g3 !! o = Some x2) as E3 by (cbn; by rewrite lookup_insert_eq).
  exists (store_obj o (set_refcount (refcount x2 - 1) x2) g3), (set_refcount (refcount x2 - 1) x2), y'.
  split_and!; [done|cbn; by rewrite !insert_insert_eq|cbn; by rewrite !insert_insert_eq|cbn in Hy'; lia|done|].
  destruct (truth (e_open e)).
  - rewrite exec_bind, (delete_relocks f r o g3 x2 (set_idr m fl) [prime_lock f]); [done|cbn; by rewrite lookup_insert_eq| |done|by left].
    cbn. by rewrite (alloc_find _ _ _ _ _ _ _ Ea Hr), Z.eqb_refl.
  - exact (exec_sec_ (drm_gem_object_unreference o) _ _ _ _ (unref_alone o g3 x2 E3 ltac:(cbn; lia))).
Qed.

Lemma import_other_file : mem = true -> e_open e = 0 -> 0 < b_count y ->
  exists g' fl', exec (drm_gem_prime_fd_to_handle i e mem f fd) [] g = Done (0, r, [], g') /\
    files g' !! f = Some fl' /\ idr_find (object_idr fl') r = Some o /\ (b, r) ∈ prime fl' /\ dom (objs g') = dom (objs g).
Proof.
  intros Hmem Ho Hc. destruct import_until_handle as (g1 & x1 & y1 & Ef1 & Eo1 & Eb1 & Hy1 & _ & ->). rewrite Ho, Hmem.
  assert (bufs g1 !! b = Some y1) as E1 by (rewrite Eb1; by rewrite lookup_insert_eq).
  set (fl1 := set_prime ((b, r) :: prime fl) (set_idr m fl)).
  set (g2 := store_file f fl1 (store_buf b (set_b_count (b_count y1 + 1) y1) g1)).
  exists (store_buf b (set_b_count (b_count y1 + 1 - 1) (set_b_count (b_count y1 + 1) y1)) g2), fl1. split_and!.
  - change (truth 0) with false. unfold import_rest. rewrite (exec_sec _ _ _ _ 0 g2).
    2:{ unfold drm_prime_add_buf_handle. cbn [negb]. unfold get_dma_buf. rewrite E1. mred. cbn [files store_buf set_bufs]. rewrite Ef1, lookup_insert_eq. done. }
    change (truth 0) with false. cbv iota. rewrite exec_unlock by apply not_elem_of_nil.
    rewrite (exec_sec_ _ _ _ _ (store_buf b (set_b_count (b_count y1 + 1 - 1) (set_b_count (b_count y1 + 1) y1)) g2)); [done|].
    unfold dma_buf_put. cbn [bufs g2 store_file set_files store_buf set_bufs]. rewrite lookup_insert_eq. mred.
    cbn [b_count set_b_count]. destruct (Z.eqb_spec (b_count y1 + 1 - 1) 0); [lia|done].
  - cbn. by rewrite lookup_insert_eq.
  - cbn. by rewrite (alloc_find _ _ _ _ _ _ _ Ea Hr), Z.eqb_refl.
  - cbn. by left.
  - cbn. rewrite Eo1. apply dom_insert_lookup_L. by exists x.
Qed.

Lemma import_fails : mem = false \/ e_open e <> 0 -> exec (drm_gem_prime_fd_to_handle i e mem f fd) [] g = Loops.
Proof.
  intros Hf. destruct import_until_handle as (g1 & x1 & y1 & Ef1 & Eo1 & Eb1 & Hy1 & _ & ->).
  destruct (truth (e_open e)) eqn:Eo; [done|]. unfold truth in Eo. b2p. destruct Hf as [Hf|]; [|done]. rewrite Hf.
  unfold import_rest. cbn [snd]. rewrite (exec_sec _ _ _ _ (- ENOMEM) g1) by done. change (truth (- ENOMEM)) with true. cbv iota.
  rewrite exec_bind, (delete_relocks f r o g1 x1 (set_idr m fl) [prime_lock f]); [done| | | |by left].
  - by rewrite Ef1, lookup_insert_eq.
  - cbn. by rewrite (alloc_find _ _ _ _ _ _ _ Ea Hr), Z.eqb_refl.
  - by rewrite Eo1, lookup_insert_eq.
Qed.
End import.

Section export.
Context (e : xenv) (f h o : Z) (g : gem) (x : drm_gem_object) (fl : drm_file).
Context (He : 0 <= e_export e) (Hm : e_member e = true) (Hfd : 0 <= e_fd e).
Context (Ef : files g !! f = Some fl) (Eh : idr_find (object_idr fl) h = Some o) (Ex : objs g !! o = Some x).
Context (Hh : 0 < handle_count x) (Hr : 0 < refcount x) (Hd : dma_buf x = None) (Hi : import_attach x = None).
Context (Hl : drm_prime_lookup_buf_by_handle (prime fl) h = None).

Let b := new_addr (e_buf e) (bufs g).
Let fd := new_addr (e_fd e) (fds g).

(** The state after an object that was not shared is exported: the dma-buf is held
    by the cache, the file's list and the descriptor. *)
Definition exported : gem :=
  set_fds (<[fd := b]> (fds g)) (store_file f (set_prime ((b, h) :: prime fl) fl)
    (cached o (set_refcount (refcount x + 1) (set_dma_buf (Some b) x)) b (MkBuf 3 (Some o) (obj_size x)) g)).

Lemma export_alone : exec (drm_gem_prime_handle_to_fd e f h) [] g = Done (0, fd, [], exported).
Proof.
  unfold drm_gem_prime_handle_to_fd. rewrite exec_lock by apply not_elem_of_nil.
  set (x1 := set_refcount (refcount x + 1) x). unfold drm_gem_object_lookup.
  rewrite (exec_sec _ _ _ _ (Some o) (store_obj o x1 g))
    by (unfold handle_lookup, drm_gem_object_reference; rewrite Ef; mred; rewrite Eh, Ex; done).
  rewrite (exec_sec _ _ _ _ None (store_obj o x1 g)) by (unfold find_exported; cbn [files store_obj set_objs]; rewrite Ef; mred; by rewrite Hl).
  rewrite exec_lock by (rewrite list_elem_of_singleton; done).
  set (x2 := set_refcount (refcount x1 + 1) (set_dma_buf (Some b) x1)).
  set (g2 := store_file f (set_prime ((b, h) :: prime fl) fl) (cached o x2 b (MkBuf 3 (Some o) (obj_size x)) g)).
  rewrite (exec_sec _ _ _ _ (inr (b, 0)) g2).
  2:{ unfold export_object, obtain_dma_buf. cbn [objs store_obj set_objs]. rewrite lookup_insert_eq. mred.
      cbn [import_attach dma_buf x1 set_refcount]. rewrite Hi, Hd. unfold export_and_register_object. cbn [objs store_obj set_objs].
      rewrite lookup_insert_eq. mred. cbn [handle_count x1 set_refcount]. destruct (Z.eqb_spec (handle_count x) 0); [lia|].
      unfold drm_gem_prime_export. cbn [objs store_obj set_objs]. rewrite lookup_insert_eq. mred. destruct (Z.ltb_spec (e_export e) 0); [lia|].
      cbn [bufs store_obj set_objs]. fold b. cbn [objs store_buf set_bufs store_obj set_objs]. rewrite lookup_insert_eq. mred.
      unfold get_dma_buf, drm_gem_object_reference. cbn. rewrite lookup_insert_eq. mred. cbn. rewrite lookup_insert_eq. mred.
      unfold drm_prime_add_buf_handle. rewrite Hm. unfold get_dma_buf. cbn. rewrite lookup_insert_eq. mred. cbn. rewrite Ef. mred.
      do 3 f_equal. unfold g2, cached, store_obj, store_buf, store_file, set_objs, set_bufs, set_files. cbn. by rewrite !insert_insert_eq. }
  rewrite exec_unlock by (rewrite list_elem_of_singleton; done). change (truth 0) with false. cbv iota.
  unfold export_have_handle. rewrite (exec_sec _ _ _ _ fd (set_fds (<[fd := b]> (fds g)) g2)).
  2:{ unfold dma_buf_fd. destruct (Z.ltb_spec (e_fd e) 0); [lia|]. unfold g2, cached. cbn. by rewrite lookup_insert_eq. }
  destruct (new_addr_fresh (e_fd e) (fds g)) as [_ Hp]. fold fd in Hp. destruct (Z.ltb_spec fd 0); [lia|].
  unfold export_out, drm_gem_object_unreference_unlocked.
  rewrite (exec_sec_ _ _ _ _ exported); [by rewrite exec_unlock by apply not_elem_of_nil|].
  rewrite (unref_alone o _ x2); [|cbn; by rewrite lookup_insert_eq|cbn; lia]. f_equal.
  unfold exported, g2, cached, store_obj, store_buf, store_file, set_objs, set_bufs, set_files, set_fds. cbn. rewrite insert_insert_eq.
  do 2 f_equal. unfold x2, x1, set_refcount, set_dma_buf. cbn. f_equal. lia.
Qed.

(** The file that exported it gets its handle back. *)
Lemma reimport_alone i e' mem : exec (drm_gem_prime_fd_to_handle i e' mem f fd) [] exported = Done (0, h, [], exported).
Proof.
  unfold drm_gem_prime_fd_to_handle. set (g1 := store_buf b (MkBuf 4 (Some o) (obj_size x)) exported).
  rewrite (exec_sec _ _ _ _ (Some b) g1).
  2:{ unfold dma_buf_get, exported. cbn. rewrite lookup_insert_eq. unfold get_dma_buf. cbn. by rewrite lookup_insert_eq. }
  rewrite exec_lock by apply not_elem_of_nil. rewrite (exec_sec _ _ _ _ (Some h) g1).
  2:{ unfold find_imported, g1, exported. cbn. rewrite lookup_insert_eq. mred. unfold drm_prime_lookup_buf_handle. cbn. by rewrite Z.eqb_refl. }
  unfold import_out_put. rewrite (exec_sec_ _ _ _ _ exported); [by rewrite exec_unlock by apply not_elem_of_nil|].
  unfold dma_buf_put, g1. cbn. rewrite lookup_insert_eq. cbn. f_equal.
  unfold store_buf, set_bufs, exported, set_fds, store_file, set_files, cached, store_obj, set_objs. cbn. by rewrite !insert_insert_eq.
Qed.
End export.
End alone.

(** ** A device for sample runs *)
Module GemSample.
Export SampleIdr.

#[export] Instance gem_ra : range_alloc drm_mm := ra_sample.
#[export] Instance gem_ra_ok : range_alloc_ok drm_mm gem_ra := ra_sample_ok.
#[export] Instance gem_rb : rbtree := rbtree_sample.
#[export] Instance gem_rb_ok : rbtree_ok gem_rb := rbtree_sample_ok.

#[export] Instance gem_h_sample : gem_h drm_mm := {|
  PAGE_SHIFT := 12;
  drm_vma_offset_exact_lookup mgr start pages :=
    match drm_vma_offset_lookup mgr start pages with
    | Some n => if ra_start (vm_addr_space_mm mgr) n =? start then Some n else None
    | None => None
    end;
  drm_vma_node_size mgr n := ra_size (vm_addr_space_mm mgr) n;
  drm_vma_node_offset_addr mgr n := Z.shiftl (ra_start (vm_addr_space_mm mgr) n) 12;
  DRM_FILE_PAGE_OFFSET_START := 1048576;
  DRM_FILE_PAGE_OFFSET_SIZE := 16777200 |}.

#[export] Instance gem_h_sample_ok : gem_h_ok gem_h_sample.
Proof.
  split; [cbn; lia| |cbn; lia]. intros mgr start pages n. cbn. destruct (drm_vma_offset_lookup mgr start pages) as [n'|]; [|done].
  destruct (_ =? _); [|done]. by intros [= <-].
Qed.

Definition roomyb (g : gem drm_mm) : bool :=
  forallb (fun e => next_id 1 (object_idr e.2) <? 2 ^ 31) (map_to_list (files g)).

Lemma roomyb_ok g : roomyb g = true -> roomy g.
Proof.
  intros Hr f fl o E. unfold roomyb in Hr. rewrite forallb_forall in Hr.
  specialize (Hr (f, fl)). cbn -[next_id Z.pow] in *. rewrite Hr; [|by apply list_elem_of_In, elem_of_map_to_list].
  cbn. pose proof (next_id_ge 1 (object_idr fl)). lia.
Qed.

(** Everything the calls ask of the kernel is there. *)
Definition all_mem : henv := MkHenv true true 0.
Definition page (addr : Z) : cenv := MkCenv true addr 0 true.
Definition frame : dumb := MkDumb 32 32 32 0 0 0.
Definition exporting (b fd : Z) : xenv := MkXenv 0 b true fd.

Definition call_steps (t : Z) (c : call) (n : nat) : list action := ACall t c :: repeat (AStep t) n.
Definition go (l : list action) : option (sys drm_mm) := schedule roomyb l boot.
End GemSample.

Section claims.
Context {S : Type} {RA : range_alloc S} {RAok : range_alloc_ok S RA} {RB : rbtree} {RBok : rbtree_ok RB}.
Context `{idr_ops} `{!idr_laws} {GH : gem_h S} {GHok : gem_h_ok GH}.
Local Notation gem := (gem S).
Local Notation sys := (sys S).
Implicit Types (s : sys).

(** C1: in every interleaving of system calls that are [call_ok], in which the tables
    of handles are never full, no thread follows a pointer to a freed object, dma-buf
    or file or unlocks a mutex that it does not hold, except in [drm_gem_open_ioctl],
    nor does the release of a dma-buf, whenever it runs; and a file that is released
    has no dma-bufs left in its list.  A call is [call_ok] when it is no creation of a
    dumb buffer and no import of a dma-buf whose handle fails (there is memory for a
    new buffer's handle, for the import's list member and to admit the file to the mmap
    offset, and [gem_open_object] returns 0), the width times the depth of a dumb
    buffer does not overflow, and the size of a foreign dma-buf is a positive number
    of pages. *)
Theorem gem_interleavings_safe s : reachable s ->
  (forall t c, threads s !! t = Some (Crashed c) -> exists e f name, c = COpen e f name) /\
  (forall f r, (CRelease f, r) ∈ log s -> r = 0).
Proof.
  intros (M & Hs)%reachable_inv. split; [|apply (s_log _ _ Hs)]. intros t c Et.
  destruct (running _ _ _ _ Hs Et) as (T & _ & _ & [Hc _] & _). destruct c; try done. by eexists _, _, _.
Qed.

(** C8: after any interleaving of calls that are [call_ok] (see above), with room in the tables
    of handles, when no call is under way, an object's handle count is the number of
    its handles in open files and its reference count adds the dma-bufs that export
    it, their releases that have not run yet and its mappings; a dma-buf's count is
    that of the objects that cache or import it, the lists of files and the
    descriptors; a name or a cached dma-buf belongs to an object with a handle, and
    the name table is the inverse of the objects' names. *)
Theorem gem_counts_exact s : reachable s -> threads s = ∅ ->
  (forall o x, objs (state s) !! o = Some x ->
     handle_count x = msum (file_handles o) (files (state s)) /\
     refcount x = handle_count x + msum (fun y => obuf o (b_priv y)) (bufs (state s)) +
                  occ o (released (state s)) + msum (fun o' => b2z (o =? o')) (vmas (state s)) /\
     0 < refcount x /\ (obj_name x <> 0 \/ is_Some (dma_buf x) -> 0 < handle_count x)) /\
  (forall b y, bufs (state s) !! b = Some y -> 0 < b_count y /\
     b_count y = msum (fun x => obuf b (dma_buf x) + obuf b (import_attach x)) (objs (state s)) +
                 msum (fun fl => occ b (prime fl).*1) (files (state s)) + msum (fun b' => b2z (b =? b')) (fds (state s))) /\
  (forall n o, idr_find (object_name_idr (state s)) n = Some o <->
     n <> 0 /\ exists x, objs (state s) !! o = Some x /\ obj_name x = n).
Proof.
  intros Hr Et. destruct (quiet_inv s Hr Et) as [C K]. split_and!.
  - intros o x E. destruct (obj_counts _ _ C o x E) as [Eh Er]. unfold handles, refs in *. cbn in Eh, Er. split_and!; [lia|lia|by apply (c_live _ _ C o)|].
    intros Hs. assert (hot (state s) [] o) as [Hh|[v Hv]]; [|unfold hc in Hh; by rewrite E in Hh|by apply not_elem_of_nil in Hv].
    destruct Hs as [Hn|[b Hb]]; [by apply (l_named _ _ K o x)|by apply (l_cache _ _ K o x b)].
  - intros b y E. split; [by apply (c_blive _ _ C b)|]. rewrite (buf_count _ _ C b y E). unfold buf_refs. cbn. lia.
  - apply (l_name _ _ K).
Qed.

(** C16: nothing leaks: after any interleaving of calls that are [call_ok] (see above), with room
    in the tables of handles, when no call is under way, every file is released, every
    descriptor and mapping is closed and every release of a dma-buf has run, no object,
    dma-buf, name or mmap offset is left. *)
Theorem gem_no_leak s : reachable s -> threads s = ∅ ->
  (forall f fl, files (state s) !! f = Some fl -> f_open fl = false) ->
  fds (state s) = ∅ -> vmas (state s) = ∅ -> released (state s) = [] ->
  objs (state s) = ∅ /\ bufs (state s) = ∅ /\ (forall n, idr_find (object_name_idr (state s)) n = None) /\
  vma_abs (vma_offset_manager (state s)) = ∅.
Proof.
  intros Hr Et Hf Efd Ev Erel. pose proof (quiet_inv s Hr Et) as Hi. destruct (closed_empty (state s) Hi Hf Efd Ev Erel) as [Eo Eb].
  split_and!; [done|done| |].
  - intros n. destruct (idr_find _ n) as [o|] eqn:En; [|done]. apply (l_name _ _ (proj2 Hi)) in En as (_ & x & Ex & _).
    by rewrite Eo, lookup_empty in Ex.
  - apply map_eq. intros n. rewrite lookup_empty. destruct (vma_abs _ !! n) eqn:En; [|done].
    destruct (proj2 (l_offsets _ _ (proj2 Hi)) n) as [x Ex]; [by eexists|]. by rewrite Eo, lookup_empty in Ex.
Qed.

(** C10: the calls under way, each [call_ok] (see above), come to an end in every interleaving:
    there is no infinite run of their steps, and as long as the tables of handles have
    room some thread can make a step unless every call has returned or crashed, so that
    there is no deadlock.  (An import that fails after its handle is in the table, which
    [call_ok] excludes, waits for its own mutex: [prime_import_failure_deadlocks].) *)
Theorem gem_calls_complete s : reachable s ->
  Acc (fun s' s => work s s') s /\
  (roomy (state s) -> (forall s', ~ work s s') -> forall t th, threads s !! t = Some th -> exists c, th = Crashed c).
Proof.
  intros (M & Hs)%reachable_inv. split; [apply work_acc|]. intros Hr Hno t [c p|c] Et; [|by exists c].
  destruct (progress s M t c p Hs Hr Et) as [s' Hw]. by destruct (Hno s').
Qed.

(** C18: on a device on which no call is under way, an object of our own that is not
    shared yet (it has no cached dma-buf, and the file's list has no entry of the
    handle) is exported by an open file that has a handle of it, with memory and a
    descriptor available.  The same file that then imports the descriptor gets the same
    handle back and the state does not change; another file that does, with memory and
    a driver that accepts, gets a new handle of the same object. *)
Theorem prime_roundtrip s e i f h o fl x : reachable s -> threads s = ∅ ->
  files (state s) !! f = Some fl -> f_open fl = true -> idr_find (object_idr fl) h = Some o ->
  objs (state s) !! o = Some x -> dma_buf x = None -> import_attach x = None ->
  drm_prime_lookup_buf_by_handle (prime fl) h = None -> 0 <= e_export e -> e_member e = true -> 0 <= e_fd e ->
  exists fd g1, exec (drm_gem_prime_handle_to_fd e f h) [] (state s) = Done (0, fd, [], g1) /\
    (forall e' mem, exec (drm_gem_prime_fd_to_handle i e' mem f fd) [] g1 = Done (0, h, [], g1)) /\
    (forall e' f2 fl2 r m, f2 <> f -> files (state s) !! f2 = Some fl2 -> henv_ok e' ->
       idr_alloc true o 1 (object_idr fl2) = (r, m) -> 0 <= r ->
       exists g2 fl2', exec (drm_gem_prime_fd_to_handle i e' true f2 fd) [] g1 = Done (0, r, [], g2) /\
         files g2 !! f2 = Some fl2' /\ idr_find (object_idr fl2') r = Some o /\ dom (objs g2) = dom (objs (state s))).
Proof.
  intros Hr Et Ef Ho Eh Ex Hd Hi Hl He Hm Hfd. destruct (quiet_inv s Hr Et) as [C K].
  destruct (present_live _ _ C f o) as (x0 & E0 & Hx0); [left; by exists fl, h|]. rewrite Ex in E0. injection E0 as <-.
  pose proof (c_live _ _ C o x Ex) as Hrc. destruct (new_addr_fresh (e_buf e) (bufs (state s))) as [Hb _].
  eexists _, _. split_and!; [by apply export_alone|intros e' mem; by apply reimport_alone|].
  intros e' f2 fl2 r m Hne Ef2 (Hid & Ha & Hop) Ea Hp.
  set (b := new_addr (e_buf e) (bufs (state s))) in *.
  set (g1 := exported e f h o (state s) x fl).
  assert (files g1 !! f2 = Some fl2) as Ef2' by (cbn; by rewrite lookup_insert_ne).
  assert (drm_prime_lookup_buf_handle (prime fl2) b = None) as Hl2.
  { unfold drm_prime_lookup_buf_handle. destruct (List.find _ _) as [[b' h']|] eqn:Efind; [|done]. exfalso.
    apply find_some in Efind as [Hin%list_elem_of_In Heq%Z.eqb_eq]. cbn in Heq. subst b'.
    destruct (member_buf _ _ f2 fl2 b h' C Ef2 Hin) as [y Ey]. congruence. }
  destruct (import_other_file i e' true f2 (new_addr (e_fd e) (fds (state s))) b o r g1 (MkBuf 3 (Some o) (obj_size x))
    (set_refcount (refcount x + 1) (set_dma_buf (Some b) x)) fl2 m) as (g2 & fl2' & Eg & Ef2'' & Eh2 & _ & Ed); try done.
  - cbn. by rewrite lookup_insert_eq.
  - cbn. by rewrite lookup_insert_eq.
  - cbn. by rewrite lookup_insert_eq.
  - cbn. lia.
  - exists g2, fl2'. split_and!; [done..|]. rewrite Ed. cbn. apply dom_insert_lookup_L. by exists x.
Qed.

(** When a dma-buf of our own is imported by a file for the first time and either
    the list's member cannot be allocated or the driver refuses the handle,
    [drm_gem_prime_fd_to_handle] deletes the new handle while it holds the file's
    [prime.lock], which the deletion takes: the call never returns. *)
Theorem prime_import_failure_deadlocks i e mem f fd b o r g y x fl m :
  fds g !! fd = Some b -> bufs g !! b = Some y -> b_priv y = Some o -> objs g !! o = Some x -> 0 < refcount x ->
  files g !! f = Some fl -> drm_prime_lookup_buf_handle (prime fl) b = None -> e_idr e = true -> e_allow e = true ->
  idr_alloc true o 1 (object_idr fl) = (r, m) -> 0 <= r -> mem = false \/ e_open e <> 0 ->
  exec (drm_gem_prime_fd_to_handle i e mem f fd) [] g = Loops.
Proof. intros. by eapply import_fails. Qed.
End claims.

(** ** Sample runs *)
Import GemSample.

Definition reached (l : list action) : sys drm_mm := default boot (go l).

Lemma reached_reachable l : Forall action_ok l -> reachable (reached l).
Proof.
  intros Hl. unfold reached, go. destruct (schedule roomyb l boot) as [s|] eqn:E; [|constructor].
  apply (schedule_reachable roomyb l boot s); [apply roomyb_ok|done|constructor|done].
Qed.

(** The actions of a concrete schedule are in order. *)
Ltac actions := cbn -[Z.pow]; repeat first [apply Forall_cons; split|apply Forall_nil]; cbn -[Z.pow]; try done; split_and!; try done; lia.

(** What is read off a state: whether it is [idle], and the call in which the next
    step of a thread crashes. *)
Definition calls_left (s : sys drm_mm) : nat := size (threads s).
Definition crash_next (t : Z) (s : sys drm_mm) : option call :=
  match thread_step t s with
  | Some s' => match threads s' !! t with Some (Crashed c) => Some c | _ => None end
  | None => None
  end.

Lemma crash_next_ok t s c : crash_next t s = Some c -> roomyb (state s) = true ->
  exists s', work s s' /\ threads s' !! t = Some (Crashed c).
Proof.
  unfold crash_next. intros Hc Hr. destruct (thread_step t s) as [s'|] eqn:E; [|done]. exists s'.
  split; [split; [by apply roomyb_ok|by exists t]|]. destruct (threads s' !! t) as [[|]|]; [done| |done]. by injection Hc as ->.
Qed.

Lemma scheduled l s : (if schedule roomyb l s is Some _ then true else false) = true ->
  schedule roomyb l s = Some (default boot (schedule roomyb l s)).
Proof. by destruct (schedule roomyb l s). Qed.

(** A file creates an object with the handle 1 at the address 1. *)
Definition created : list action := AOpen 1 :: call_steps 1 (CDumb (page 1) all_mem 1 frame) 7.

(** A second file opens the object by its name, and stops before the size is read;
    both handles are closed then. *)
Definition named : list action := created ++ call_steps 1 (CFlink true 1 1) 6 ++ AOpen 2 :: call_steps 2 (COpen all_mem 2 1) 6.
Definition closed_behind : list action := named ++ call_steps 3 (CClose 2 1) 11 ++ call_steps 1 (CClose 1 1) 11.

(** [drm_gem_open_ioctl] reads the size of an object after it has dropped its
    reference: when another thread of the same file closes the new handle and the
    owner closes its own, the object is freed before. *)
Theorem gem_open_reads_freed : exists s s', reachable s /\ (forall o, objs (state s) !! o = None) /\
  work s s' /\ threads s' !! 2 = Some (Crashed (COpen all_mem 2 1)).
Proof.
  exists (reached closed_behind).
  destruct (crash_next_ok 2 (reached closed_behind) (COpen all_mem 2 1)) as (s' & Hw & Hc); [by vm_compute..|].
  exists s'. split_and!; [apply reached_reachable; actions| |done|done].
  intros o. rewrite (map_size_empty_inv (objs (state (reached closed_behind)))); [by rewrite lookup_empty|by vm_compute].
Qed.

(** A thread that closes the handle 1 of an exported object has taken it out of the
    table, where it now stands for the object 2, and the file's list is still to be
    told. *)
Definition reused : list action :=
  created ++ call_steps 1 (CExport (exporting 10 5) 1 1) 10 ++ call_steps 1 (CClose 1 1) 1 ++
  call_steps 2 (CDumb (page 2) all_mem 1 frame) 7.

Definition handle_of (f h : Z) (s : sys drm_mm) : option Z :=
  match files (state s) !! f with Some fl => idr_find (object_idr fl) h | None => None end.
Definition fd_exports (fd : Z) (s : sys drm_mm) : option Z :=
  match fds (state s) !! fd with
  | Some b => match bufs (state s) !! b with Some y => b_priv y | None => None end
  | None => None
  end.

(** A handle is free for other objects before the file's list forgets it, so that
    an export can hand out the wrong buffer: here the handle 1 stands for the object
    2 during the whole call, which returns a descriptor of the object 1. *)
Theorem prime_export_stale_handle : exists s s', reachable s /\
  schedule roomyb (call_steps 2 (CExport (exporting 11 6) 1 1) 7) s = Some s' /\
  handle_of 1 1 s = Some 2 /\ handle_of 1 1 s' = Some 2 /\
  hd_error (log s') = Some (CExport (exporting 11 6) 1 1, 0) /\ fd_exports 6 s = None /\ fd_exports 6 s' = Some 1.
Proof.
  set (l := call_steps 2 (CExport (exporting 11 6) 1 1) 7).
  exists (reached reused), (default boot (schedule roomyb l (reached reused))).
  split_and!; [apply reached_reachable; actions|apply scheduled; by vm_compute|by vm_compute..].
Qed.

(** Why [call_ok] asks for memory: when the handle of a new object cannot be allowed
    to map it, [drm_gem_cma_create_with_handle] frees the object although another
    thread has looked the handle up. *)
Definition no_mem : henv := MkHenv true false 0.
Definition freed_early : list action :=
  AOpen 1 :: call_steps 1 (CDumb (page 1) no_mem 1 frame) 4 ++ call_steps 2 (CFlink true 1 1) 1 ++
  repeat (AStep 1) 12 ++ [AStep 2].

Lemma create_failure_frees : crash_next 2 (reached freed_early) = Some (CFlink true 1 1).
Proof. by vm_compute. Qed.

(** ** Witnesses *)
Lemma some_default {A} (d : A) (o : option A) : (if o is Some _ then true else false) = true -> o = Some (default d o).
Proof. by destruct o. Qed.

Lemma no_calls s : calls_left s = 0%nat -> threads s = ∅.
Proof. apply map_size_empty_inv. Qed.

Definition no_file : drm_file := MkFile (idr_init : idr) [] 0 false.
Definition no_object : drm_gem_object := MkObj 0 0 0 0 None None false Leaf.
Definition no_buf : dmabuf := MkBuf 0 None 0.
Definition file_at (f : Z) (s : sys drm_mm) : drm_file := default no_file (files (state s) !! f).
Definition object_at (o : Z) (s : sys drm_mm) : drm_gem_object := default no_object (objs (state s) !! o).
Definition buf_at (b : Z) (s : sys drm_mm) : dmabuf := default no_buf (bufs (state s) !! b).
Definition importing : ienv := MkIenv 0 0 1 (page 3).

(** An object in two files, by name; one that is exported; one that is shared with a
    second file; and everything closed again. *)
Definition opened : list action := named ++ [AStep 2; AStep 2].
Definition two_files : list action := AOpen 2 :: created.
Definition shared : list action := two_files ++ call_steps 1 (CExport (exporting 10 5) 1 1) 10.
Definition both : list action := shared ++ call_steps 2 (CImport importing all_mem true 2 5) 13.
Definition all_closed : list action :=
  both ++ call_steps 1 (CRelease 1) 13 ++ call_steps 3 (CCloseFd 5) 3 ++ call_steps 2 (CRelease 2) 13 ++
  call_steps 1 (CBufRelease 1) 2.
Definition failed : list action := closed_behind ++ [AStep 2].

Lemma failed_reachable : reachable (reached failed).
Proof. apply reached_reachable. actions. Qed.
Lemma named_reachable : reachable (reached named).
Proof. apply reached_reachable. actions. Qed.
Lemma all_closed_reachable : reachable (reached all_closed).
Proof. apply reached_reachable. actions. Qed.

Lemma gem_interleavings_safe_witness : exists c, threads (reached failed) !! 2 = Some (Crashed c) /\ exists e f name, c = COpen e f name.
Proof.
  set (th := default (Crashed (CRelease 0)) (threads (reached failed) !! 2)).
  set (c := match th with Run c _ | Crashed c => c end). exists c.
  assert (threads (reached failed) !! 2 = Some (Crashed c)) as Et.
  { rewrite (some_default (Crashed (CRelease 0)) (threads (reached failed) !! 2)) by (by vm_compute). fold th. unfold c.
    assert ((if th is Crashed _ then true else false) = true) as Hth by (by vm_compute). by destruct th. }
  split; [exact Et|]. exact (proj1 (gem_interleavings_safe (reached failed) failed_reachable) 2 c Et).
Defined.

Lemma gem_counts_exact_witness : handle_count (object_at 1 (reached opened)) = msum (file_handles 1) (files (state (reached opened))) /\
  handle_count (object_at 1 (reached opened)) = 2 /\ obj_name (object_at 1 (reached opened)) = 1.
Proof.
  split; [|by vm_compute]. refine (proj1 (proj1 (gem_counts_exact (reached opened) _ _) 1 (object_at 1 (reached opened)) _)).
  - apply reached_reachable. actions.
  - apply no_calls. by vm_compute.
  - apply some_default. by vm_compute.
Defined.

Lemma gem_no_leak_witness : objs (state (reached all_closed)) = ∅ /\ length (log (reached all_closed)) = 7%nat.
Proof.
  split; [|by vm_compute]. refine (proj1 (gem_no_leak (reached all_closed) all_closed_reachable _ _ _ _ _)).
  - apply no_calls. by vm_compute.
  - intros f fl E%elem_of_map_to_list. assert (forallb (fun e => negb (f_open e.2)) (map_to_list (files (state (reached all_closed)))) = true) as Hf
      by (by vm_compute).
    rewrite forallb_forall in Hf. apply list_elem_of_In in E. specialize (Hf _ E). by apply negb_true_iff in Hf.
  - apply map_size_empty_inv. by vm_compute.
  - apply map_size_empty_inv. by vm_compute.
  - by vm_compute.
Defined.

Lemma gem_calls_complete_witness : calls_left (reached named) = 1%nat /\ ~ (forall s', ~ work (reached named) s').
Proof.
  split; [by vm_compute|]. intros Hno.
  set (th := default (Crashed (CRelease 0)) (threads (reached named) !! 2)).
  assert (threads (reached named) !! 2 = Some th) as Et by (apply some_default; by vm_compute).
  assert ((if th is Run _ _ then true else false) = true) as Hth by (by vm_compute).
  assert (roomy (state (reached named))) as Hroom by (apply roomyb_ok; by vm_compute).
  destruct (proj2 (gem_calls_complete (reached named) named_reachable) Hroom Hno 2 th Et) as [c Hc]. rewrite Hc in Hth. discriminate Hth.
Defined.

Lemma prime_roundtrip_witness : exists fd g1,
  exec (drm_gem_prime_handle_to_fd (exporting 10 5) 1 1) [] (state (reached two_files)) = Done (0, fd, [], g1) /\
  exec (drm_gem_prime_fd_to_handle importing all_mem true 1 fd) [] g1 = Done (0, 1, [], g1).
Proof.
  destruct (prime_roundtrip (reached two_files) (exporting 10 5) importing 1 1 1 (file_at 1 (reached two_files)) (object_at 1 (reached two_files)))
    as (fd & g1 & E1 & E2 & _).
  - apply reached_reachable. actions.
  - apply no_calls. by vm_compute.
  - apply some_default. by vm_compute.
  - by vm_compute.
  - by vm_compute.
  - apply some_default. by vm_compute.
  - by vm_compute.
  - by vm_compute.
  - by vm_compute.
  - cbn. lia.
  - done.
  - cbn. lia.
  - exists fd, g1. split; [exact E1|apply E2].
Defined.

Lemma prime_import_failure_deadlocks_witness :
  exec (drm_gem_prime_fd_to_handle importing all_mem false 2 5) [] (state (reached shared)) = Loops.
Proof.
  set (fl := file_at 2 (reached shared)).
  apply (prime_import_failure_deadlocks importing all_mem false 2 5 10 1 (idr_alloc true 1 1 (object_idr fl)).1 (state (reached shared))
    (buf_at 10 (reached shared)) (object_at 1 (reached shared)) fl (idr_alloc true 1 1 (object_idr fl)).2).
  - by vm_compute.
  - apply some_default. by vm_compute.
  - by vm_compute.
  - apply some_default. by vm_compute.
  - by vm_compute.
  - apply some_default. by vm_compute.
  - by vm_compute.
  - done.
  - done.
  - apply surjective_pairing.
  - by vm_compute.
  - by left.
Defined.
