(* ===== verification/I915Reg.v ===== *)
(** * Commands and registers of the Intel GPUs (i915/i915_reg.h)

    The constants of the header that the command parser uses, in the order of the
    header. *)

From S2P Require Import Prelude.

Definition INSTR_CLIENT_SHIFT : Z := 29.
Definition INSTR_CLIENT_MASK : Z := 0xE0000000.
Definition INSTR_MI_CLIENT : Z := 0x0.
Definition INSTR_BC_CLIENT : Z := 0x2.
Definition INSTR_RC_CLIENT : Z := 0x3.
Definition INSTR_SUBCLIENT_SHIFT : Z := 27.
Definition INSTR_SUBCLIENT_MASK : Z := 0x18000000.
Definition INSTR_MEDIA_SUBCLIENT : Z := 0x2.
Definition MI_GLOBAL_GTT : Z := Z.shiftl 1 22.
Definition MI_INSTR (opcode flags : Z) : Z := Z.lor (Z.shiftl opcode 23) flags.
Definition MI_NOOP : Z := MI_INSTR 0 0.
Definition MI_USER_INTERRUPT : Z := MI_INSTR 0x02 0.
Definition MI_WAIT_FOR_EVENT : Z := MI_INSTR 0x03 0.
Definition MI_FLUSH : Z := MI_INSTR 0x04 0.
Definition MI_REPORT_HEAD : Z := MI_INSTR 0x07 0.
Definition MI_ARB_ON_OFF : Z := MI_INSTR 0x08 0.
Definition MI_BATCH_BUFFER_END : Z := MI_INSTR 0x0a 0.
Definition MI_SUSPEND_FLUSH : Z := MI_INSTR 0x0b 0.
Definition MI_LOAD_SCAN_LINES_INCL : Z := MI_INSTR 0x12 0.
Definition MI_DISPLAY_FLIP : Z := MI_INSTR 0x14 2.
Definition MI_SEMAPHORE_MBOX : Z := MI_INSTR 0x16 1.
Definition MI_SET_CONTEXT : Z := MI_INSTR 0x18 0.
Definition MI_STORE_DWORD_IMM : Z := MI_INSTR 0x20 1.
Definition MI_STORE_DWORD_INDEX : Z := MI_INSTR 0x21 1.
Definition MI_LOAD_REGISTER_IMM (x : Z) : Z := MI_INSTR 0x22 ((2 * x) - 1).
Definition MI_STORE_REGISTER_MEM (x : Z) : Z := MI_INSTR 0x24 ((2 * x) - 1).
Definition MI_FLUSH_DW : Z := MI_INSTR 0x26 1.
Definition MI_FLUSH_DW_STORE_INDEX : Z := Z.shiftl 1 21.
Definition MI_FLUSH_DW_OP_MASK : Z := Z.shiftl 3 14.
Definition MI_FLUSH_DW_NOTIFY : Z := Z.shiftl 1 8.
Definition MI_FLUSH_DW_USE_GTT : Z := Z.shiftl 1 2.
Definition MI_BATCH_BUFFER_START : Z := MI_INSTR 0x31 0.
Definition MI_PREDICATE_SRC0 : Z := 0x2400.
Definition MI_PREDICATE_SRC1 : Z := 0x2408.
Definition GFX_OP_PIPE_CONTROL (len : Z) : Z := Z.lor (Z.lor (Z.lor (Z.shiftl 0x3 29) (Z.shiftl 0x3 27)) (Z.shiftl 0x2 24)) (len - 2).
Definition PIPE_CONTROL_GLOBAL_GTT_IVB : Z := Z.shiftl 1 24.
Definition PIPE_CONTROL_MMIO_WRITE : Z := Z.shiftl 1 23.
Definition PIPE_CONTROL_STORE_DATA_INDEX : Z := Z.shiftl 1 21.
Definition PIPE_CONTROL_POST_SYNC_OP_MASK : Z := Z.shiftl 3 14.
Definition PIPE_CONTROL_NOTIFY : Z := Z.shiftl 1 8.
Definition MI_SET_PREDICATE : Z := MI_INSTR 0x01 0.
Definition MI_ARB_CHECK : Z := MI_INSTR 0x05 0.
Definition MI_RS_CONTROL : Z := MI_INSTR 0x06 0.
Definition MI_URB_ATOMIC_ALLOC : Z := MI_INSTR 0x09 0.
Definition MI_PREDICATE : Z := MI_INSTR 0x0C 0.
Definition MI_RS_CONTEXT : Z := MI_INSTR 0x0F 0.
Definition MI_TOPOLOGY_FILTER : Z := MI_INSTR 0x0D 0.
Definition MI_LOAD_SCAN_LINES_EXCL : Z := MI_INSTR 0x13 0.
Definition MI_URB_CLEAR : Z := MI_INSTR 0x19 0.
Definition MI_UPDATE_GTT : Z := MI_INSTR 0x23 0.
Definition MI_CLFLUSH : Z := MI_INSTR 0x27 0.
Definition MI_REPORT_PERF_COUNT : Z := MI_INSTR 0x28 0.
Definition MI_REPORT_PERF_COUNT_GGTT : Z := Z.shiftl 1 0.
Definition MI_LOAD_REGISTER_MEM : Z := MI_INSTR 0x29 0.
Definition MI_LOAD_REGISTER_REG : Z := MI_INSTR 0x2A 0.
Definition MI_RS_STORE_DATA_IMM : Z := MI_INSTR 0x2B 0.
Definition MI_LOAD_URB_MEM : Z := MI_INSTR 0x2C 0.
Definition MI_STORE_URB_MEM : Z := MI_INSTR 0x2D 0.
Definition MI_CONDITIONAL_BATCH_BUFFER_END : Z := MI_INSTR 0x36 0.
Definition PIPELINE_SELECT : Z := Z.lor (Z.lor (Z.lor (Z.shiftl 0x3 29) (Z.shiftl 0x1 27)) (Z.shiftl 0x1 24)) (Z.shiftl 0x4 16).
Definition GFX_OP_3DSTATE_VF_STATISTICS : Z := Z.lor (Z.lor (Z.lor (Z.shiftl 0x3 29) (Z.shiftl 0x1 27)) (Z.shiftl 0x0 24)) (Z.shiftl 0xB 16).
Definition MEDIA_VFE_STATE : Z := Z.lor (Z.lor (Z.lor (Z.shiftl 0x3 29) (Z.shiftl 0x2 27)) (Z.shiftl 0x0 24)) (Z.shiftl 0x0 16).
Definition MEDIA_VFE_STATE_MMIO_ACCESS_MASK : Z := 0x18.
Definition GPGPU_OBJECT : Z := Z.lor (Z.lor (Z.lor (Z.shiftl 0x3 29) (Z.shiftl 0x2 27)) (Z.shiftl 0x1 24)) (Z.shiftl 0x4 16).
Definition GPGPU_WALKER : Z := Z.lor (Z.lor (Z.lor (Z.shiftl 0x3 29) (Z.shiftl 0x2 27)) (Z.shiftl 0x1 24)) (Z.shiftl 0x5 16).
Definition GFX_OP_3DSTATE_DX9_CONSTANTF_VS : Z := Z.lor (Z.lor (Z.lor (Z.shiftl 0x3 29) (Z.shiftl 0x3 27)) (Z.shiftl 0x0 24)) (Z.shiftl 0x39 16).
Definition GFX_OP_3DSTATE_DX9_CONSTANTF_PS : Z := Z.lor (Z.lor (Z.lor (Z.shiftl 0x3 29) (Z.shiftl 0x3 27)) (Z.shiftl 0x0 24)) (Z.shiftl 0x3A 16).
Definition GFX_OP_3DSTATE_SO_DECL_LIST : Z := Z.lor (Z.lor (Z.lor (Z.shiftl 0x3 29) (Z.shiftl 0x3 27)) (Z.shiftl 0x1 24)) (Z.shiftl 0x17 16).
Definition GFX_OP_3DSTATE_BINDING_TABLE_EDIT_VS : Z := Z.lor (Z.lor (Z.lor (Z.shiftl 0x3 29) (Z.shiftl 0x3 27)) (Z.shiftl 0x0 24)) (Z.shiftl 0x43 16).
Definition GFX_OP_3DSTATE_BINDING_TABLE_EDIT_GS : Z := Z.lor (Z.lor (Z.lor (Z.shiftl 0x3 29) (Z.shiftl 0x3 27)) (Z.shiftl 0x0 24)) (Z.shiftl 0x44 16).
Definition GFX_OP_3DSTATE_BINDING_TABLE_EDIT_HS : Z := Z.lor (Z.lor (Z.lor (Z.shiftl 0x3 29) (Z.shiftl 0x3 27)) (Z.shiftl 0x0 24)) (Z.shiftl 0x45 16).
Definition GFX_OP_3DSTATE_BINDING_TABLE_EDIT_DS : Z := Z.lor (Z.lor (Z.lor (Z.shiftl 0x3 29) (Z.shiftl 0x3 27)) (Z.shiftl 0x0 24)) (Z.shiftl 0x46 16).
Definition GFX_OP_3DSTATE_BINDING_TABLE_EDIT_PS : Z := Z.lor (Z.lor (Z.lor (Z.shiftl 0x3 29) (Z.shiftl 0x3 27)) (Z.shiftl 0x0 24)) (Z.shiftl 0x47 16).
Definition MFX_WAIT : Z := Z.lor (Z.lor (Z.shiftl 0x3 29) (Z.shiftl 0x1 27)) (Z.shiftl 0x0 16).
Definition COLOR_BLT : Z := Z.lor (Z.shiftl 0x2 29) (Z.shiftl 0x40 22).
Definition SRC_COPY_BLT : Z := Z.lor (Z.shiftl 0x2 29) (Z.shiftl 0x43 22).
Definition BCS_SWCTRL : Z := 0x22200.
Definition HS_INVOCATION_COUNT : Z := 0x2300.
Definition DS_INVOCATION_COUNT : Z := 0x2308.
Definition IA_VERTICES_COUNT : Z := 0x2310.
Definition IA_PRIMITIVES_COUNT : Z := 0x2318.
Definition VS_INVOCATION_COUNT : Z := 0x2320.
Definition GS_INVOCATION_COUNT : Z := 0x2328.
Definition GS_PRIMITIVES_COUNT : Z := 0x2330.
Definition CL_INVOCATION_COUNT : Z := 0x2338.
Definition CL_PRIMITIVES_COUNT : Z := 0x2340.
Definition PS_INVOCATION_COUNT : Z := 0x2348.
Definition PS_DEPTH_COUNT : Z := 0x2350.
Definition GEN7_SO_NUM_PRIMS_WRITTEN (n : Z) : Z := 0x5200 + (n * 8).
Definition GEN7_SO_PRIM_STORAGE_NEEDED (n : Z) : Z := 0x5240 + (n * 8).
Definition GEN7_3DPRIM_END_OFFSET : Z := 0x2420.
Definition GEN7_3DPRIM_START_VERTEX : Z := 0x2430.
Definition GEN7_3DPRIM_VERTEX_COUNT : Z := 0x2434.
Definition GEN7_3DPRIM_INSTANCE_COUNT : Z := 0x2438.
Definition GEN7_3DPRIM_START_INSTANCE : Z := 0x243C.
Definition GEN7_3DPRIM_BASE_VERTEX : Z := 0x2440.
Definition OACONTROL : Z := 0x2360.
Definition PIPE (pipe a b : Z) : Z := a + (pipe * (b - a)).
Definition GEN7_PIPEA_DE_LOAD_SL : Z := 0x70068.
Definition GEN7_PIPEB_DE_LOAD_SL : Z := 0x71068.
Definition GEN7_PIPE_DE_LOAD_SL (pipe : Z) : Z := PIPE pipe GEN7_PIPEA_DE_LOAD_SL GEN7_PIPEB_DE_LOAD_SL.
Definition DERRMR : Z := 0x44050.
Definition GEN7_L3SQCREG1 : Z := 0xB010.
Definition GEN7_L3CNTLREG2 : Z := 0xB020.
Definition GEN7_L3CNTLREG3 : Z := 0xB024.
Definition FORCEWAKE_MT : Z := 0xa188.
Definition GEN7_SO_WRITE_OFFSET (n : Z) : Z := 0x5280 + (n * 4).
