(* ===== verification/I915Cmd.v ===== *)
(** * The command parser of i915 (i915/i915_cmd_parser.c)

    Batch buffers that user space submits to a generation 7 ring are scanned before
    they run: tables of descriptors say which commands are rejected, reserved to the
    DRM master, checked against a whitelist of registers or for bits that reach
    privileged memory, and how long a command is.

    A batch is the list of its 32-bit words as they are mapped; a read outside of
    the mapping is [Oops].  The kernel's hash function and the answers of the memory
    allocator are parameters. *)

From S2P Require Import Prelude I915Reg.

(** ** Descriptors *)
Definition STD_MI_OPCODE_MASK : Z := 0xFF800000.
Definition STD_3D_OPCODE_MASK : Z := 0xFFFF0000.
Definition STD_2D_OPCODE_MASK : Z := 0xFFC00000.
Definition STD_MFX_OPCODE_MASK : Z := 0xFFFF0000.

Definition CMD_DESC_FIXED : Z := Z.shiftl 1 0.
Definition CMD_DESC_SKIP : Z := Z.shiftl 1 1.
Definition CMD_DESC_REJECT : Z := Z.shiftl 1 2.
Definition CMD_DESC_REGISTER : Z := Z.shiftl 1 3.
Definition CMD_DESC_BITMASK : Z := Z.shiftl 1 4.
Definition CMD_DESC_MASTER : Z := Z.shiftl 1 5.

Definition MAX_CMD_DESC_BITMASKS : nat := 3.

(** A dword of a command, under a condition on another one. *)
Record cmd_bits := MkBits { b_offset : Z; b_mask : Z; b_expected : Z; b_condition_offset : Z; b_condition_mask : Z }.

(** [length] is the union of the fixed length and the mask of the length field;
    entries of [bits] that are not there are zero. *)
Record drm_i915_cmd_descriptor := MkDesc {
  flags : Z; cmd_value : Z; cmd_mask : Z; d_length : Z; reg_offset : Z; reg_mask : Z; bits : list cmd_bits;
}.

Definition CMD (op opm : Z) (f : bool) (lm fl : Z) : drm_i915_cmd_descriptor :=
  MkDesc (Z.lor fl (if f then CMD_DESC_FIXED else 0)) op opm lm 0 0 [].
Definition with_reg (offset mask : Z) (d : drm_i915_cmd_descriptor) : drm_i915_cmd_descriptor :=
  MkDesc (flags d) (cmd_value d) (cmd_mask d) (d_length d) offset mask (bits d).
Definition with_bits (l : list cmd_bits) (d : drm_i915_cmd_descriptor) : drm_i915_cmd_descriptor :=
  MkDesc (flags d) (cmd_value d) (cmd_mask d) (d_length d) (reg_offset d) (reg_mask d) l.

(** ** Tables *)
Definition common_cmds : list drm_i915_cmd_descriptor := [
  CMD MI_NOOP STD_MI_OPCODE_MASK true 1 CMD_DESC_SKIP;
  CMD MI_USER_INTERRUPT STD_MI_OPCODE_MASK true 1 CMD_DESC_REJECT;
  CMD MI_WAIT_FOR_EVENT STD_MI_OPCODE_MASK true 1 CMD_DESC_MASTER;
  CMD MI_ARB_CHECK STD_MI_OPCODE_MASK true 1 CMD_DESC_SKIP;
  CMD MI_REPORT_HEAD STD_MI_OPCODE_MASK true 1 CMD_DESC_SKIP;
  CMD MI_SUSPEND_FLUSH STD_MI_OPCODE_MASK true 1 CMD_DESC_SKIP;
  CMD MI_SEMAPHORE_MBOX STD_MI_OPCODE_MASK false 0xFF CMD_DESC_REJECT;
  CMD MI_STORE_DWORD_INDEX STD_MI_OPCODE_MASK false 0xFF CMD_DESC_REJECT;
  with_reg 1 0x007FFFFC (CMD (MI_LOAD_REGISTER_IMM 1) STD_MI_OPCODE_MASK false 0xFF CMD_DESC_REGISTER);
  with_bits [MkBits 0 MI_GLOBAL_GTT 0 0 0] (with_reg 1 0x007FFFFC (CMD (MI_STORE_REGISTER_MEM 1) STD_MI_OPCODE_MASK false 0xFF (Z.lor CMD_DESC_REGISTER CMD_DESC_BITMASK)));
  with_bits [MkBits 0 MI_GLOBAL_GTT 0 0 0] (with_reg 1 0x007FFFFC (CMD MI_LOAD_REGISTER_MEM STD_MI_OPCODE_MASK false 0xFF (Z.lor CMD_DESC_REGISTER CMD_DESC_BITMASK)));
  CMD MI_BATCH_BUFFER_START STD_MI_OPCODE_MASK false 0xFF CMD_DESC_SKIP].

Definition render_cmds : list drm_i915_cmd_descriptor := [
  CMD MI_FLUSH STD_MI_OPCODE_MASK true 1 CMD_DESC_SKIP;
  CMD MI_ARB_ON_OFF STD_MI_OPCODE_MASK true 1 CMD_DESC_REJECT;
  CMD MI_PREDICATE STD_MI_OPCODE_MASK true 1 CMD_DESC_SKIP;
  CMD MI_TOPOLOGY_FILTER STD_MI_OPCODE_MASK true 1 CMD_DESC_SKIP;
  CMD MI_DISPLAY_FLIP STD_MI_OPCODE_MASK false 0xFF CMD_DESC_REJECT;
  CMD MI_SET_CONTEXT STD_MI_OPCODE_MASK false 0xFF CMD_DESC_REJECT;
  CMD MI_URB_CLEAR STD_MI_OPCODE_MASK false 0xFF CMD_DESC_SKIP;
  with_bits [MkBits 0 MI_GLOBAL_GTT 0 0 0] (CMD MI_STORE_DWORD_IMM STD_MI_OPCODE_MASK false 0x3F CMD_DESC_BITMASK);
  CMD MI_UPDATE_GTT STD_MI_OPCODE_MASK false 0xFF CMD_DESC_REJECT;
  with_bits [MkBits 0 MI_GLOBAL_GTT 0 0 0] (CMD MI_CLFLUSH STD_MI_OPCODE_MASK false 0x3FF CMD_DESC_BITMASK);
  with_bits [MkBits 1 MI_REPORT_PERF_COUNT_GGTT 0 0 0] (CMD MI_REPORT_PERF_COUNT STD_MI_OPCODE_MASK false 0x3F CMD_DESC_BITMASK);
  with_bits [MkBits 0 MI_GLOBAL_GTT 0 0 0] (CMD MI_CONDITIONAL_BATCH_BUFFER_END STD_MI_OPCODE_MASK false 0xFF CMD_DESC_BITMASK);
  CMD GFX_OP_3DSTATE_VF_STATISTICS STD_3D_OPCODE_MASK true 1 CMD_DESC_SKIP;
  CMD PIPELINE_SELECT STD_3D_OPCODE_MASK true 1 CMD_DESC_SKIP;
  with_bits [MkBits 2 MEDIA_VFE_STATE_MMIO_ACCESS_MASK 0 0 0] (CMD MEDIA_VFE_STATE STD_3D_OPCODE_MASK false 0xFFFF CMD_DESC_BITMASK);
  CMD GPGPU_OBJECT STD_3D_OPCODE_MASK false 0xFF CMD_DESC_SKIP;
  CMD GPGPU_WALKER STD_3D_OPCODE_MASK false 0xFF CMD_DESC_SKIP;
  CMD GFX_OP_3DSTATE_SO_DECL_LIST STD_3D_OPCODE_MASK false 0x1FF CMD_DESC_SKIP;
  with_bits [MkBits 1 (Z.lor PIPE_CONTROL_MMIO_WRITE PIPE_CONTROL_NOTIFY) 0 0 0; MkBits 1 (Z.lor PIPE_CONTROL_GLOBAL_GTT_IVB PIPE_CONTROL_STORE_DATA_INDEX) 0 1 PIPE_CONTROL_POST_SYNC_OP_MASK] (CMD (GFX_OP_PIPE_CONTROL 5) STD_3D_OPCODE_MASK false 0xFF CMD_DESC_BITMASK)].

Definition hsw_render_cmds : list drm_i915_cmd_descriptor := [
  CMD MI_SET_PREDICATE STD_MI_OPCODE_MASK true 1 CMD_DESC_SKIP;
  CMD MI_RS_CONTROL STD_MI_OPCODE_MASK true 1 CMD_DESC_SKIP;
  CMD MI_URB_ATOMIC_ALLOC STD_MI_OPCODE_MASK true 1 CMD_DESC_SKIP;
  CMD MI_RS_CONTEXT STD_MI_OPCODE_MASK true 1 CMD_DESC_SKIP;
  CMD MI_LOAD_SCAN_LINES_INCL STD_MI_OPCODE_MASK false 0x3F CMD_DESC_MASTER;
  CMD MI_LOAD_SCAN_LINES_EXCL STD_MI_OPCODE_MASK false 0x3F CMD_DESC_REJECT;
  CMD MI_LOAD_REGISTER_REG STD_MI_OPCODE_MASK false 0xFF CMD_DESC_REJECT;
  CMD MI_RS_STORE_DATA_IMM STD_MI_OPCODE_MASK false 0xFF CMD_DESC_SKIP;
  CMD MI_LOAD_URB_MEM STD_MI_OPCODE_MASK false 0xFF CMD_DESC_SKIP;
  CMD MI_STORE_URB_MEM STD_MI_OPCODE_MASK false 0xFF CMD_DESC_SKIP;
  CMD GFX_OP_3DSTATE_DX9_CONSTANTF_VS STD_3D_OPCODE_MASK false 0x7FF CMD_DESC_SKIP;
  CMD GFX_OP_3DSTATE_DX9_CONSTANTF_PS STD_3D_OPCODE_MASK false 0x7FF CMD_DESC_SKIP;
  CMD GFX_OP_3DSTATE_BINDING_TABLE_EDIT_VS STD_3D_OPCODE_MASK false 0x1FF CMD_DESC_SKIP;
  CMD GFX_OP_3DSTATE_BINDING_TABLE_EDIT_GS STD_3D_OPCODE_MASK false 0x1FF CMD_DESC_SKIP;
  CMD GFX_OP_3DSTATE_BINDING_TABLE_EDIT_HS STD_3D_OPCODE_MASK false 0x1FF CMD_DESC_SKIP;
  CMD GFX_OP_3DSTATE_BINDING_TABLE_EDIT_DS STD_3D_OPCODE_MASK false 0x1FF CMD_DESC_SKIP;
  CMD GFX_OP_3DSTATE_BINDING_TABLE_EDIT_PS STD_3D_OPCODE_MASK false 0x1FF CMD_DESC_SKIP].

Definition video_cmds : list drm_i915_cmd_descriptor := [
  CMD MI_ARB_ON_OFF STD_MI_OPCODE_MASK true 1 CMD_DESC_REJECT;
  with_bits [MkBits 0 MI_GLOBAL_GTT 0 0 0] (CMD MI_STORE_DWORD_IMM STD_MI_OPCODE_MASK false 0xFF CMD_DESC_BITMASK);
  CMD MI_UPDATE_GTT STD_MI_OPCODE_MASK false 0x3F CMD_DESC_REJECT;
  with_bits [MkBits 0 MI_FLUSH_DW_NOTIFY 0 0 0; MkBits 1 MI_FLUSH_DW_USE_GTT 0 0 MI_FLUSH_DW_OP_MASK; MkBits 0 MI_FLUSH_DW_STORE_INDEX 0 0 MI_FLUSH_DW_OP_MASK] (CMD MI_FLUSH_DW STD_MI_OPCODE_MASK false 0x3F CMD_DESC_BITMASK);
  with_bits [MkBits 0 MI_GLOBAL_GTT 0 0 0] (CMD MI_CONDITIONAL_BATCH_BUFFER_END STD_MI_OPCODE_MASK false 0xFF CMD_DESC_BITMASK);
  CMD MFX_WAIT STD_MFX_OPCODE_MASK true 1 CMD_DESC_SKIP].

Definition vecs_cmds : list drm_i915_cmd_descriptor := [
  CMD MI_ARB_ON_OFF STD_MI_OPCODE_MASK true 1 CMD_DESC_REJECT;
  with_bits [MkBits 0 MI_GLOBAL_GTT 0 0 0] (CMD MI_STORE_DWORD_IMM STD_MI_OPCODE_MASK false 0xFF CMD_DESC_BITMASK);
  CMD MI_UPDATE_GTT STD_MI_OPCODE_MASK false 0x3F CMD_DESC_REJECT;
  with_bits [MkBits 0 MI_FLUSH_DW_NOTIFY 0 0 0; MkBits 1 MI_FLUSH_DW_USE_GTT 0 0 MI_FLUSH_DW_OP_MASK; MkBits 0 MI_FLUSH_DW_STORE_INDEX 0 0 MI_FLUSH_DW_OP_MASK] (CMD MI_FLUSH_DW STD_MI_OPCODE_MASK false 0x3F CMD_DESC_BITMASK);
  with_bits [MkBits 0 MI_GLOBAL_GTT 0 0 0] (CMD MI_CONDITIONAL_BATCH_BUFFER_END STD_MI_OPCODE_MASK false 0xFF CMD_DESC_BITMASK)].

Definition blt_cmds : list drm_i915_cmd_descriptor := [
  CMD MI_DISPLAY_FLIP STD_MI_OPCODE_MASK false 0xFF CMD_DESC_REJECT;
  with_bits [MkBits 0 MI_GLOBAL_GTT 0 0 0] (CMD MI_STORE_DWORD_IMM STD_MI_OPCODE_MASK false 0x3FF CMD_DESC_BITMASK);
  CMD MI_UPDATE_GTT STD_MI_OPCODE_MASK false 0x3F CMD_DESC_REJECT;
  with_bits [MkBits 0 MI_FLUSH_DW_NOTIFY 0 0 0; MkBits 1 MI_FLUSH_DW_USE_GTT 0 0 MI_FLUSH_DW_OP_MASK; MkBits 0 MI_FLUSH_DW_STORE_INDEX 0 0 MI_FLUSH_DW_OP_MASK] (CMD MI_FLUSH_DW STD_MI_OPCODE_MASK false 0x3F CMD_DESC_BITMASK);
  CMD COLOR_BLT STD_2D_OPCODE_MASK false 0x3F CMD_DESC_SKIP;
  CMD SRC_COPY_BLT STD_2D_OPCODE_MASK false 0x3F CMD_DESC_SKIP].

Definition hsw_blt_cmds : list drm_i915_cmd_descriptor := [
  CMD MI_LOAD_SCAN_LINES_INCL STD_MI_OPCODE_MASK false 0x3F CMD_DESC_MASTER;
  CMD MI_LOAD_SCAN_LINES_EXCL STD_MI_OPCODE_MASK false 0x3F CMD_DESC_REJECT].

Definition gen7_render_cmds : list (list drm_i915_cmd_descriptor) := [common_cmds; render_cmds].

Definition hsw_render_ring_cmds : list (list drm_i915_cmd_descriptor) := [common_cmds; render_cmds; hsw_render_cmds].

Definition gen7_video_cmds : list (list drm_i915_cmd_descriptor) := [common_cmds; video_cmds].

Definition hsw_vebox_cmds : list (list drm_i915_cmd_descriptor) := [common_cmds; vecs_cmds].

Definition gen7_blt_cmds : list (list drm_i915_cmd_descriptor) := [common_cmds; blt_cmds].

Definition hsw_blt_ring_cmds : list (list drm_i915_cmd_descriptor) := [common_cmds; blt_cmds; hsw_blt_cmds].

(** Both halves of a 64-bit register. *)
Definition REG64 (addr : Z) : list Z := [addr; addr + 4].

(** [enum pipe]. *)
Definition PIPE_A : Z := 0.
Definition PIPE_B : Z := 1.
Definition PIPE_C : Z := 2.

Definition gen7_render_regs : list Z :=
  REG64 HS_INVOCATION_COUNT ++
  REG64 DS_INVOCATION_COUNT ++
  REG64 IA_VERTICES_COUNT ++
  REG64 IA_PRIMITIVES_COUNT ++
  REG64 VS_INVOCATION_COUNT ++
  REG64 GS_INVOCATION_COUNT ++
  REG64 GS_PRIMITIVES_COUNT ++
  REG64 CL_INVOCATION_COUNT ++
  REG64 CL_PRIMITIVES_COUNT ++
  REG64 PS_INVOCATION_COUNT ++
  REG64 PS_DEPTH_COUNT ++
  [OACONTROL] ++
  REG64 MI_PREDICATE_SRC0 ++
  REG64 MI_PREDICATE_SRC1 ++
  [GEN7_3DPRIM_END_OFFSET] ++
  [GEN7_3DPRIM_START_VERTEX] ++
  [GEN7_3DPRIM_VERTEX_COUNT] ++
  [GEN7_3DPRIM_INSTANCE_COUNT] ++
  [GEN7_3DPRIM_START_INSTANCE] ++
  [GEN7_3DPRIM_BASE_VERTEX] ++
  REG64 (GEN7_SO_NUM_PRIMS_WRITTEN 0) ++
  REG64 (GEN7_SO_NUM_PRIMS_WRITTEN 1) ++
  REG64 (GEN7_SO_NUM_PRIMS_WRITTEN 2) ++
  REG64 (GEN7_SO_NUM_PRIMS_WRITTEN 3) ++
  REG64 (GEN7_SO_PRIM_STORAGE_NEEDED 0) ++
  REG64 (GEN7_SO_PRIM_STORAGE_NEEDED 1) ++
  REG64 (GEN7_SO_PRIM_STORAGE_NEEDED 2) ++
  REG64 (GEN7_SO_PRIM_STORAGE_NEEDED 3) ++
  [(GEN7_SO_WRITE_OFFSET 0)] ++
  [(GEN7_SO_WRITE_OFFSET 1)] ++
  [(GEN7_SO_WRITE_OFFSET 2)] ++
  [(GEN7_SO_WRITE_OFFSET 3)] ++
  [GEN7_L3SQCREG1] ++
  [GEN7_L3CNTLREG2] ++
  [GEN7_L3CNTLREG3].

Definition gen7_blt_regs : list Z :=
  [BCS_SWCTRL].

Definition ivb_master_regs : list Z :=
  [FORCEWAKE_MT] ++
  [DERRMR] ++
  [(GEN7_PIPE_DE_LOAD_SL PIPE_A)] ++
  [(GEN7_PIPE_DE_LOAD_SL PIPE_B)] ++
  [(GEN7_PIPE_DE_LOAD_SL PIPE_C)].

Definition hsw_master_regs : list Z :=
  [FORCEWAKE_MT] ++
  [DERRMR].

(** ** Length fields *)
Definition instr_client (h : Z) : Z := Z.shiftr (Z.land h INSTR_CLIENT_MASK) INSTR_CLIENT_SHIFT.
Definition instr_subclient (h : Z) : Z := Z.shiftr (Z.land h INSTR_SUBCLIENT_MASK) INSTR_SUBCLIENT_SHIFT.

Definition gen7_render_get_cmd_length_mask (cmd_header : Z) : Z :=
  if instr_client cmd_header =? INSTR_MI_CLIENT then 0x3F
  else if instr_client cmd_header =? INSTR_RC_CLIENT then
    if instr_subclient cmd_header =? INSTR_MEDIA_SUBCLIENT then 0xFFFF else 0xFF
  else 0.

Definition gen7_bsd_get_cmd_length_mask (cmd_header : Z) : Z :=
  if instr_client cmd_header =? INSTR_MI_CLIENT then 0x3F
  else if instr_client cmd_header =? INSTR_RC_CLIENT then
    if instr_subclient cmd_header =? INSTR_MEDIA_SUBCLIENT then 0xFFF else 0xFF
  else 0.

Definition gen7_blt_get_cmd_length_mask (cmd_header : Z) : Z :=
  if instr_client cmd_header =? INSTR_MI_CLIENT then 0x3F
  else if instr_client cmd_header =? INSTR_BC_CLIENT then 0xFF
  else 0.

(** ** Order of the tables *)

(** The loop over the [count] entries of the [i]th table. *)
Fixpoint sorted_entries (table : list drm_i915_cmd_descriptor) (i : nat) (count : nat) (previous : Z) (ret : bool) : run bool :=
  match count with
  | O => Done ret
  | S count =>
    desc ← deref (table !! i);
    let curr := Z.land (cmd_value desc) (cmd_mask desc) in
    sorted_entries table i count curr (if curr <? previous then false else ret)
  end.

Fixpoint sorted_tables (i : nat) (tables : list (list drm_i915_cmd_descriptor)) (ret : bool) : run bool :=
  match tables with
  | [] => Done ret
  | table :: tables => ret ← sorted_entries table i (length table) 0 ret; sorted_tables (S i) tables ret
  end.

Definition validate_cmds_sorted (tables : list (list drm_i915_cmd_descriptor)) : run bool := sorted_tables 0 tables true.

Fixpoint check_sorted_from (regs : list Z) (previous : Z) (ret : bool) : bool :=
  match regs with
  | [] => ret
  | curr :: regs => check_sorted_from regs curr (if curr <? previous then false else ret)
  end.

Definition check_sorted (reg_table : list Z) : bool := check_sorted_from reg_table 0 true.

(** ** Rings *)
Inductive intel_ring_id := RCS | VCS | BCS | VECS | VCS2.

(** The part of [struct intel_engine_cs] of the parser; a null table is empty. *)
Record intel_engine_cs := MkRing {
  ring_id : intel_ring_id; needs_cmd_parser : bool; cmd_hash : gmap Z (list drm_i915_cmd_descriptor);
  reg_table : list Z; master_reg_table : list Z; get_cmd_length_mask : Z -> Z;
}.

Definition set_hash (ht : gmap Z (list drm_i915_cmd_descriptor)) (r : intel_engine_cs) : intel_engine_cs :=
  MkRing (ring_id r) (needs_cmd_parser r) ht (reg_table r) (master_reg_table r) (get_cmd_length_mask r).
Definition set_needs (v : bool) (r : intel_engine_cs) : intel_engine_cs :=
  MkRing (ring_id r) v (cmd_hash r) (reg_table r) (master_reg_table r) (get_cmd_length_mask r).
Definition set_tables (regs master : list Z) (len : Z -> Z) (r : intel_engine_cs) : intel_engine_cs :=
  MkRing (ring_id r) (needs_cmd_parser r) (cmd_hash r) regs master len.

Definition validate_regs_sorted (r : intel_engine_cs) : bool :=
  check_sorted (reg_table r) && check_sorted (master_reg_table r).

Definition CMD_HASH_MASK : Z := STD_MI_OPCODE_MASK.

Section parser.
(** The bucket of a key ([hash_min] of the kernel's hash tables). *)
Context (hash_min : Z -> Z).

Definition hash_add (d : drm_i915_cmd_descriptor) (key : Z) (ht : gmap Z (list drm_i915_cmd_descriptor)) : gmap Z (list drm_i915_cmd_descriptor) :=
  <[hash_min key := d :: default [] (ht !! hash_min key)]> ht.

(** [kmalloc n] tells whether the [n]th allocation succeeds. *)
Fixpoint init_entries (kmalloc : nat -> bool) (n : nat) (table : list drm_i915_cmd_descriptor)
    (ht : gmap Z (list drm_i915_cmd_descriptor)) : Z * nat * gmap Z (list drm_i915_cmd_descriptor) :=
  match table with
  | [] => (0, n, ht)
  | desc :: table =>
    if kmalloc n then init_entries kmalloc (S n) table (hash_add desc (Z.land (cmd_value desc) CMD_HASH_MASK) ht)
    else (- ENOMEM, n, ht)
  end.

Fixpoint init_tables (kmalloc : nat -> bool) (n : nat) (tables : list (list drm_i915_cmd_descriptor))
    (ht : gmap Z (list drm_i915_cmd_descriptor)) : Z * gmap Z (list drm_i915_cmd_descriptor) :=
  match tables with
  | [] => (0, ht)
  | table :: tables =>
    let '(ret, n, ht) := init_entries kmalloc n table ht in
    if truth ret then (ret, ht) else init_tables kmalloc n tables ht
  end.

Definition init_hash_table (kmalloc : nat -> bool) (tables : list (list drm_i915_cmd_descriptor)) (r : intel_engine_cs)
    : Z * intel_engine_cs :=
  let '(ret, ht) := init_tables kmalloc 0 tables ∅ in (ret, set_hash ht r).

Definition fini_hash_table (r : intel_engine_cs) : intel_engine_cs := set_hash ∅ r.

Definition hash_empty (ht : gmap Z (list drm_i915_cmd_descriptor)) : bool :=
  forallb (fun e => match e.2 with [] => true | _ => false end) (map_to_list ht).

(** The tables of a ring, [None] for one that has none. *)
Definition ring_tables (haswell : bool) (r : intel_engine_cs) : option (list (list drm_i915_cmd_descriptor) * intel_engine_cs) :=
  let master := if haswell then hsw_master_regs else ivb_master_regs in
  match ring_id r with
  | RCS => Some (if haswell then hsw_render_ring_cmds else gen7_render_cmds,
                 set_tables gen7_render_regs master gen7_render_get_cmd_length_mask r)
  | VCS => Some (gen7_video_cmds, set_tables (reg_table r) (master_reg_table r) gen7_bsd_get_cmd_length_mask r)
  | BCS => Some (if haswell then hsw_blt_ring_cmds else gen7_blt_cmds,
                 set_tables gen7_blt_regs master gen7_blt_get_cmd_length_mask r)
  | VECS => Some (hsw_vebox_cmds, set_tables (reg_table r) (master_reg_table r) gen7_bsd_get_cmd_length_mask r)
  | VCS2 => None
  end.

Definition i915_cmd_parser_init_ring (gen7 haswell : bool) (kmalloc : nat -> bool) (r : intel_engine_cs) : run (Z * intel_engine_cs) :=
  if negb gen7 then Done (0, r)
  else
    '(tables, r) ← deref (ring_tables haswell r);
    sorted ← validate_cmds_sorted tables;
    _ ← run_of (BUG_ON (negb sorted));
    _ ← run_of (BUG_ON (negb (validate_regs_sorted r)));
    if hash_empty (cmd_hash r) then
      let '(ret, r) := init_hash_table kmalloc tables r in
      if truth ret then Done (ret, fini_hash_table r) else Done (0, set_needs true r)
    else Done (0, set_needs true r).

Definition i915_cmd_parser_fini_ring (r : intel_engine_cs) : intel_engine_cs :=
  if negb (needs_cmd_parser r) then r else fini_hash_table r.

(** ** Lookup *)
Definition find_cmd_in_table (r : intel_engine_cs) (cmd_header : Z) : option drm_i915_cmd_descriptor :=
  List.find (fun desc => Z.land (cmd_mask desc) cmd_header =? Z.land (cmd_value desc) (cmd_mask desc))
    (default [] (cmd_hash r !! hash_min (Z.land cmd_header CMD_HASH_MASK))).

(** The descriptor on the stack of the caller, which starts with zeros. *)
Definition default_desc (mask : Z) : drm_i915_cmd_descriptor := MkDesc CMD_DESC_SKIP 0 0 mask 0 0 [].

Definition find_cmd (r : intel_engine_cs) (cmd_header : Z) : option drm_i915_cmd_descriptor :=
  match find_cmd_in_table r cmd_header with
  | Some desc => Some desc
  | None =>
    let mask := get_cmd_length_mask r cmd_header in
    if negb (truth mask) then None else Some (default_desc mask)
  end.

Definition valid_reg (table : list Z) (addr : Z) : bool := existsb (fun reg => reg =? addr) table.

(** ** Checks *)

(** [mem] is what is mapped and [cmd] the place of the command in it. *)
Definition dword (mem : list Z) (cmd offset : Z) : run Z := deref (mem !! Z.to_nat (cmd + offset)).

Definition no_bits : cmd_bits := MkBits 0 0 0 0 0.

(** The loop over [bits] from the [i]th on, [n] entries before its end. *)
Fixpoint check_bits (n i : nat) (desc : drm_i915_cmd_descriptor) (mem : list Z) (cmd : Z) : run bool :=
  match n with
  | O => Done true
  | S n =>
    let b := nth i (bits desc) no_bits in
    if b_mask b =? 0 then Done true
    else
      skip ← (if truth (b_condition_mask b) then
                w ← dword mem cmd (b_condition_offset b); Done (Z.land w (b_condition_mask b) =? 0)
              else Done false);
      if skip : bool then check_bits n (S i) desc mem cmd
      else
        w ← dword mem cmd (b_offset b);
        if negb (Z.land w (b_mask b) =? b_expected b) then Done false else check_bits n (S i) desc mem cmd
  end.

(** The check of the register: the result and the flag of OACONTROL. *)
Definition check_register (r : intel_engine_cs) (desc : drm_i915_cmd_descriptor) (mem : list Z) (cmd : Z) (is_master oacontrol_set : bool)
    : run (bool * bool) :=
  w ← dword mem cmd (reg_offset desc);
  let reg_addr := Z.land w (reg_mask desc) in
  if (reg_addr =? OACONTROL) && (cmd_value desc =? MI_LOAD_REGISTER_MEM) then Done (false, oacontrol_set)
  else
    oacontrol_set ← (if (reg_addr =? OACONTROL) && (cmd_value desc =? MI_LOAD_REGISTER_IMM 1) then
                       v ← dword mem cmd 2; Done (negb (v =? 0))
                     else Done oacontrol_set);
    if negb (valid_reg (reg_table r) reg_addr) && (negb is_master || negb (valid_reg (master_reg_table r) reg_addr))
    then Done (false, oacontrol_set)
    else Done (true, oacontrol_set).

Definition check_cmd (r : intel_engine_cs) (desc : drm_i915_cmd_descriptor) (mem : list Z) (cmd : Z) (is_master oacontrol_set : bool)
    : run (bool * bool) :=
  if truth (Z.land (flags desc) CMD_DESC_REJECT) then Done (false, oacontrol_set)
  else if truth (Z.land (flags desc) CMD_DESC_MASTER) && negb is_master then Done (false, oacontrol_set)
  else
    '(ok, oacontrol_set) ← (if truth (Z.land (flags desc) CMD_DESC_REGISTER)
                            then check_register r desc mem cmd is_master oacontrol_set
                            else Done (true, oacontrol_set));
    if negb ok then Done (false, oacontrol_set)
    else if truth (Z.land (flags desc) CMD_DESC_BITMASK) then
      ok ← check_bits MAX_CMD_DESC_BITMASKS 0 desc mem cmd; Done (ok, oacontrol_set)
    else Done (true, oacontrol_set).

Definition LENGTH_BIAS : Z := 2.

Definition cmd_length (desc : drm_i915_cmd_descriptor) (header : Z) : Z :=
  if truth (Z.land (flags desc) CMD_DESC_FIXED) then d_length desc
  else u32 (Z.land header (d_length desc) + LENGTH_BIAS).

(** The loop over the commands: the error, where it stopped and the flag. *)
Fixpoint parse_loop (fuel : nat) (r : intel_engine_cs) (mem : list Z) (batch_end : Z) (is_master : bool) (cmd : Z) (oacontrol_set : bool)
    : run (Z * Z * bool) :=
  match fuel with
  | O => Loops
  | S fuel =>
    if negb (cmd <? batch_end) then Done (0, cmd, oacontrol_set)
    else
      header ← dword mem cmd 0;
      if header =? MI_BATCH_BUFFER_END then Done (0, cmd, oacontrol_set)
      else
        match find_cmd r header with
        | None => Done (- EINVAL, cmd, oacontrol_set)
        | Some desc =>
          if cmd_value desc =? MI_BATCH_BUFFER_START then Done (- EACCES, cmd, oacontrol_set)
          else if batch_end - cmd <? cmd_length desc header then Done (- EINVAL, cmd, oacontrol_set)
          else
            '(ok, oacontrol_set) ← check_cmd r desc mem cmd is_master oacontrol_set;
            if negb ok then Done (- EINVAL, cmd, oacontrol_set)
            else parse_loop fuel r mem batch_end is_master (cmd + cmd_length desc header) oacontrol_set
        end
  end.

(** [prepare] is the result of [i915_gem_obj_prepare_shmem_read] and [vmap] tells
    whether the pages can be mapped; [size] is that of the object in bytes. *)
Definition i915_parse_cmds (prepare : Z) (vmap : bool) (r : intel_engine_cs) (mem : list Z) (size batch_start_offset : Z)
    (is_master : bool) : run Z :=
  if truth prepare then Done prepare
  else if negb vmap then Done (- ENOMEM)
  else
    let cmd := batch_start_offset / 4 in
    let batch_end := cmd + size / 4 in
    '(ret, cmd, oacontrol_set) ← parse_loop (S (Z.to_nat (size / 4))) r mem batch_end is_master cmd false;
    let ret := if oacontrol_set : bool then - EINVAL else ret in
    Done (if batch_end <=? cmd then - EINVAL else ret).

Definition i915_needs_cmd_parser (r : intel_engine_cs) (uses_ppgtt : bool) (enable_cmd_parser : Z) : bool :=
  if negb (needs_cmd_parser r) then false
  else if negb uses_ppgtt then false
  else enable_cmd_parser =? 1.

Definition i915_cmd_parser_get_version : Z := 2.

(** What the submission of a batch does with the result (i915_gem_execbuffer.c): the
    error with which it ends, 0 when it goes on. *)
Definition execbuffer_parse (needs : bool) (parse : run Z) : run Z :=
  if needs then ret ← parse; Done (if truth ret && negb (ret =? - EACCES) then ret else 0) else Done 0.
End parser.
