(* ===== verification/I915CmdProps.v ===== *)
(** * The command parser of i915: properties

    Accepted batches as a grammar, written without hash tables, pointers and loops,
    and the theorem that the parser accepts exactly these; what the parser reads;
    the initialisation of the rings; what accepted batches do to registers. *)

From S2P Require Import Prelude I915Reg I915Cmd.

#[export] Instance cmd_bits_eq_dec : EqDecision cmd_bits.
Proof. solve_decision. Defined.
#[export] Instance desc_eq_dec : EqDecision drm_i915_cmd_descriptor.
Proof. solve_decision. Defined.

(** ** The grammar of batches *)
Definition matches (d : drm_i915_cmd_descriptor) (h : Z) : Prop := Z.land (cmd_mask d) h = Z.land (cmd_value d) (cmd_mask d).

Definition has (d : drm_i915_cmd_descriptor) (flag : Z) : bool := truth (Z.land (flags d) flag).

(** The words [w] of a command and what follows it pass a check of bits. *)
Definition bit_ok (b : cmd_bits) (w : list Z) : Prop :=
  let expected := exists v, w !! Z.to_nat (b_offset b) = Some v /\ Z.land v (b_mask b) = b_expected b in
  if b_condition_mask b =? 0 then expected
  else exists c, w !! Z.to_nat (b_condition_offset b) = Some c /\ (Z.land c (b_condition_mask b) = 0 \/ expected).

(** The checks of a descriptor: those before the first empty one. *)
Fixpoint active (n : nat) (l : list cmd_bits) : list cmd_bits :=
  match n, l with
  | S n, b :: l => if b_mask b =? 0 then [] else b :: active n l
  | _, _ => []
  end.

Section grammar.
Context (tables : list (list drm_i915_cmd_descriptor)) (len : Z -> Z) (regs master_regs : list Z) (is_master : bool).

(** The descriptor of a command: one of the tables, or that of its length field. *)
Inductive describes (h : Z) : drm_i915_cmd_descriptor -> Prop :=
| describes_known d : d ∈ concat tables -> matches d h -> describes h d
| describes_other : (forall d, d ∈ concat tables -> ~ matches d h) -> len h <> 0 -> describes h (default_desc (len h)).

Definition allowed_reg (a : Z) : Prop := a ∈ regs \/ (is_master = true /\ a ∈ master_regs).

(** The register that a command names. *)
Definition register (d : drm_i915_cmd_descriptor) (w : list Z) : option Z :=
  (fun a => Z.land a (reg_mask d)) <$> w !! Z.to_nat (reg_offset d).

(** Whether OACONTROL is left on: an immediate load of it decides. *)
Definition oa_load (d : drm_i915_cmd_descriptor) (a : Z) (w : list Z) (oa oa' : bool) : Prop :=
  if (cmd_value d =? MI_LOAD_REGISTER_IMM 1) && (a =? OACONTROL) then exists v, w !! 2%nat = Some v /\ oa' = negb (v =? 0) else oa' = oa.

Definition oa_after (d : drm_i915_cmd_descriptor) (w : list Z) (oa oa' : bool) : Prop :=
  if has d CMD_DESC_REGISTER then exists a, register d w = Some a /\ oa_load d a w oa oa' else oa' = oa.

Record permitted (d : drm_i915_cmd_descriptor) (w : list Z) : Prop := {
  p_reject : has d CMD_DESC_REJECT = false;
  p_master : has d CMD_DESC_MASTER = true -> is_master = true;
  p_register : has d CMD_DESC_REGISTER = true -> exists a, register d w = Some a /\ allowed_reg a /\
    (a = OACONTROL -> cmd_value d <> MI_LOAD_REGISTER_MEM);
  p_bits : has d CMD_DESC_BITMASK = true -> Forall (fun b => bit_ok b w) (active MAX_CMD_DESC_BITMASKS (bits d));
}.

(** [batch oa cs w oa']: [w] starts with the commands [cs] and the end of the batch,
    all permitted; [oa] and [oa'] tell whether OACONTROL is on before and after. *)
Inductive batch : bool -> list (list Z) -> list Z -> bool -> Prop :=
| batch_end oa k : batch oa [] (MI_BATCH_BUFFER_END :: k) oa
| batch_cmd oa oa1 oa' h c cs k d :
    h <> MI_BATCH_BUFFER_END -> describes h d -> cmd_value d <> MI_BATCH_BUFFER_START ->
    Z.of_nat (length (h :: c)) = cmd_length d h ->
    permitted d (h :: c ++ k) -> oa_after d (h :: c ++ k) oa oa1 ->
    batch oa1 cs k oa' -> batch oa ((h :: c) :: cs) (h :: c ++ k) oa'.
End grammar.

(** ** Checks *)
Lemma dword_drop mem cmd off w : 0 <= cmd -> 0 <= off -> dword mem cmd off = Done w <-> drop (Z.to_nat cmd) mem !! Z.to_nat off = Some w.
Proof.
  intros Hc Ho. unfold dword. rewrite lookup_drop, <- Z2Nat.inj_add by done.
  destruct (mem !! Z.to_nat (cmd + off)); cbn; split; congruence.
Qed.

(** The offsets of a descriptor lie in the first three words, and its length is that
    of a command. *)
Definition bits_fit (b : cmd_bits) : bool :=
  (0 <=? b_offset b) && (b_offset b <=? 2) && (0 <=? b_condition_offset b) && (b_condition_offset b <=? 2).
Definition desc_fits (d : drm_i915_cmd_descriptor) : bool :=
  (0 <=? reg_offset d) && (reg_offset d <=? 2) && forallb bits_fit (bits d) &&
  (if has d CMD_DESC_FIXED then d_length d =? 1 else (0 <=? d_length d) && (d_length d <? 2 ^ 16)).

Lemma land_nonneg_le a m : 0 <= m -> 0 <= Z.land a m <= m.
Proof.
  intros Hm. split; [apply Z.land_nonneg; by right|]. destruct (Z.eq_dec m 0) as [->|Hne]; [by rewrite Z.land_0_r|].
  apply Z.ldiff_le; [done|]. apply Z.bits_inj'. intros n Hn. rewrite Z.ldiff_spec, Z.land_spec, Z.bits_0.
  by destruct (Z.testbit a n), (Z.testbit m n).
Qed.

Lemma length_pos d h : desc_fits d = true -> 1 <= cmd_length d h.
Proof.
  unfold desc_fits. intros Hf. apply andb_prop in Hf as [_ Hl]. unfold cmd_length, has in *.
  destruct (truth (Z.land (flags d) CMD_DESC_FIXED)); b2p; [lia|].
  pose proof (land_nonneg_le h (d_length d) ltac:(lia)). rewrite u32_small by (unfold is_u32, LENGTH_BIAS; lia). unfold LENGTH_BIAS. lia.
Qed.

Lemma dword_ok mem cmd off : 0 <= cmd -> 0 <= off -> cmd + off < Z.of_nat (length mem) ->
  exists w, dword mem cmd off = Done w.
Proof.
  intros Hc Ho Hl. unfold dword. destruct (lookup_lt_is_Some_2 mem (Z.to_nat (cmd + off))) as [w ->]; [lia|]. by exists w.
Qed.

Section checks.
Context (r : intel_engine_cs) (is_master : bool) (mem : list Z) (cmd : Z) (Hcmd : 0 <= cmd).
Implicit Types (d : drm_i915_cmd_descriptor) (b : cmd_bits).
Let w := drop (Z.to_nat cmd) mem.

Lemma nth_drop_bits i (l : list cmd_bits) : nth i l no_bits = match drop i l with b :: _ => b | [] => no_bits end.
Proof. revert l. induction i as [|i IH]; intros [|b l]; try done. cbn. apply IH. Qed.

Lemma active_drop n i l : active (S n) (drop i l) =
  if b_mask (nth i l no_bits) =? 0 then [] else nth i l no_bits :: active n (drop (S i) l).
Proof.
  rewrite nth_drop_bits. destruct (drop i l) as [|b k] eqn:E; [done|]. cbn. destruct (b_mask b =? 0); [done|].
  replace (drop (S i) l) with k; [done|]. by rewrite <- Nat.add_1_r, <- drop_drop, E.
Qed.

Lemma fits_offsets d i : desc_fits d = true ->
  0 <= b_offset (nth i (bits d) no_bits) <= 2 /\ 0 <= b_condition_offset (nth i (bits d) no_bits) <= 2.
Proof.
  unfold desc_fits. intros Hf. apply andb_prop in Hf as [Hf _]. apply andb_prop in Hf as [_ Hf]. rewrite forallb_forall in Hf.
  destruct (nth_in_or_default i (bits d) no_bits) as [Hin| ->]; [|cbn; lia]. apply Hf in Hin. unfold bits_fit in Hin. b2p. lia.
Qed.

Lemma check_bits_ok n i d : desc_fits d = true ->
  check_bits n i d mem cmd = Done true <-> Forall (fun b => bit_ok b w) (active n (drop i (bits d))).
Proof.
  intros Hf. revert i. induction n as [|n IH]; intros i; [split; [by destruct (drop i (bits d))|done]|].
  rewrite active_drop. cbn [check_bits]. destruct (fits_offsets d i Hf) as [Ho Hc]. set (b := nth i (bits d) no_bits) in *.
  destruct (b_mask b =? 0); [split; done|]. rewrite Forall_cons, <- IH. clear IH.
  assert ((exists v, dword mem cmd (b_offset b) = Done v /\ Z.land v (b_mask b) = b_expected b) <->
          (exists v, w !! Z.to_nat (b_offset b) = Some v /\ Z.land v (b_mask b) = b_expected b)) as He.
  { split; intros (v & Hv & Hm); exists v; (split; [|done]); by apply (dword_drop mem cmd (b_offset b) v Hcmd ltac:(lia)). }
  assert (forall k : run bool, ((v ← dword mem cmd (b_offset b); if negb (Z.land v (b_mask b) =? b_expected b) then Done false else k) = Done true) <->
    (exists v, dword mem cmd (b_offset b) = Done v /\ Z.land v (b_mask b) = b_expected b) /\ k = Done true) as Hmain.
  { intros k. destruct (dword mem cmd (b_offset b)) as [v| |]; cbn; [|split; [done|by intros [(? & ? & _) _]]..].
    destruct (Z.eqb_spec (Z.land v (b_mask b)) (b_expected b)) as [E|E]; cbn; split; try done.
    - intros Hk. split; [by exists v|done].
    - by intros [_ Hk].
    - by intros [(v' & [= <-] & E') _]. }
  unfold bit_ok, truth. destruct (Z.eqb_spec (b_condition_mask b) 0) as [Ez|Ez]; cbn [negb]; [mred; by rewrite Hmain, He|].
  destruct (dword mem cmd (b_condition_offset b)) as [c| |] eqn:Ec.
  - assert (w !! Z.to_nat (b_condition_offset b) = Some c) as Ew by (by apply (dword_drop mem cmd (b_condition_offset b) c Hcmd ltac:(lia))). mred.
    destruct (Z.eqb_spec (Z.land c (b_condition_mask b)) 0) as [E0|E0].
    + split; [intros Hk; split; [|done]; exists c; auto|by intros [_ Hk]].
    + rewrite Hmain, He. split; intros [H1 H2]; (split; [|done]); [exists c; auto|]. destruct H1 as (c' & Hc' & [|]); [congruence|done].
  - mred. split; [done|]. intros [(c & Hw & _) _]. apply (dword_drop mem cmd (b_condition_offset b) c Hcmd ltac:(lia)) in Hw. congruence.
  - mred. split; [done|]. intros [(c & Hw & _) _]. apply (dword_drop mem cmd (b_condition_offset b) c Hcmd ltac:(lia)) in Hw. congruence.
Qed.

Local Notation allowed := (allowed_reg (reg_table r) (master_reg_table r) is_master).

Lemma valid_reg_spec t a : valid_reg t a = true <-> a ∈ t.
Proof.
  unfold valid_reg. rewrite existsb_exists. split.
  - intros (x & Hin & ->%Z.eqb_eq). by apply list_elem_of_In.
  - intros Hin. exists a. split; [by apply list_elem_of_In|apply Z.eqb_refl].
Qed.

Lemma allowed_spec a : negb (valid_reg (reg_table r) a) && (negb is_master || negb (valid_reg (master_reg_table r) a)) = false <-> allowed a.
Proof.
  unfold allowed_reg. rewrite <- !valid_reg_spec. destruct (valid_reg (reg_table r) a), (valid_reg (master_reg_table r) a), is_master; cbn; naive_solver.
Qed.

Lemma check_register_ok d oa oa' : desc_fits d = true ->
  check_register r d mem cmd is_master oa = Done (true, oa') <->
  exists a, register d w = Some a /\ allowed a /\ (a = OACONTROL -> cmd_value d <> MI_LOAD_REGISTER_MEM) /\ oa_load d a w oa oa'.
Proof.
  intros Hf. assert (0 <= reg_offset d <= 2) as Ho by (unfold desc_fits in Hf; b2p; lia).
  unfold check_register, register, oa_load. destruct (dword mem cmd (reg_offset d)) as [x| |] eqn:Ex; mred.
  2,3: split; [done|]; intros (a & Ha & _); destruct (w !! Z.to_nat (reg_offset d)) as [x|] eqn:Ew; [|done];
    apply (dword_drop mem cmd (reg_offset d) x Hcmd ltac:(lia)) in Ew; congruence.
  apply (dword_drop mem cmd (reg_offset d) x Hcmd ltac:(lia)) in Ex. fold w in Ex. rewrite Ex. cbn [fmap option_fmap option_map].
  set (a := Z.land x (reg_mask d)). destruct (Z.eqb_spec a OACONTROL) as [Ea|Ea]; cbn [andb].
  2:{ mred. destruct (_ && _) eqn:Ev; [split; [done|]; intros (a' & [= <-] & Ha & _); apply allowed_spec in Ha; congruence|].
      apply allowed_spec in Ev. split; [intros [= <-]; exists a; rewrite andb_comm; destruct (Z.eqb_spec a OACONTROL); [done|]; by split_and!|].
      intros (a' & [= <-] & _ & _ & H4). rewrite andb_comm in H4. destruct (Z.eqb_spec a OACONTROL); [done|]. cbn in H4. by subst oa'. }
  destruct (Z.eqb_spec (cmd_value d) MI_LOAD_REGISTER_MEM) as [Em|Em].
  { split; [done|]. intros (a' & [= <-] & _ & Hn & _). by destruct (Hn Ea). }
  assert (forall a', Some a = Some a' -> (a' =? OACONTROL) = true) as Heq by (intros a' [= <-]; by apply Z.eqb_eq).
  destruct (Z.eqb_spec (cmd_value d) (MI_LOAD_REGISTER_IMM 1)) as [Ei|Ei]; cbn [andb].
  - destruct (dword mem cmd 2) as [v| |] eqn:E2; mred.
    2,3: split; [done|]; intros (a' & Ha' & _ & _ & H4); rewrite (Heq a' Ha') in H4; destruct H4 as (v & Hv & _);
      apply (dword_drop mem cmd 2 v Hcmd ltac:(lia)) in Hv; congruence.
    apply (dword_drop mem cmd 2 v Hcmd ltac:(lia)) in E2. fold w in E2. change (Z.to_nat 2) with 2%nat in E2. rewrite E2.
    destruct (_ && _) eqn:Ev.
    + split; [done|]. intros (a' & [= <-] & Ha & _). apply allowed_spec in Ha. congruence.
    + apply allowed_spec in Ev. split.
      * intros [= <-]. exists a. rewrite (Heq a eq_refl). split_and!; [done..|]. by exists v.
      * intros (a' & [= <-] & _ & _ & H4). rewrite (Heq a eq_refl) in H4. destruct H4 as (v' & [= <-] & ->). done.
  - mred. destruct (_ && _) eqn:Ev.
    + split; [done|]. intros (a' & [= <-] & Ha & _). apply allowed_spec in Ha. congruence.
    + apply allowed_spec in Ev. split; [intros [= <-]; by exists a|]. by intros (a' & [= <-] & _ & _ & ->).
Qed.

Lemma check_cmd_ok d oa oa' : desc_fits d = true ->
  check_cmd r d mem cmd is_master oa = Done (true, oa') <->
  permitted (reg_table r) (master_reg_table r) is_master d w /\ oa_after d w oa oa'.
Proof.
  intros Hf. unfold check_cmd. pose proof (check_bits_ok MAX_CMD_DESC_BITMASKS 0 d Hf) as Hb. rewrite drop_0 in Hb.
  pose proof (check_register_ok d oa oa' Hf) as Hr. unfold oa_after.
  change (truth (Z.land (flags d) CMD_DESC_REJECT)) with (has d CMD_DESC_REJECT).
  change (truth (Z.land (flags d) CMD_DESC_MASTER)) with (has d CMD_DESC_MASTER).
  change (truth (Z.land (flags d) CMD_DESC_REGISTER)) with (has d CMD_DESC_REGISTER).
  change (truth (Z.land (flags d) CMD_DESC_BITMASK)) with (has d CMD_DESC_BITMASK).
  destruct (has d CMD_DESC_REJECT) eqn:E1; [split; [done|]; intros [P _]; pose proof (p_reject _ _ _ _ _ P); congruence|].
  destruct (has d CMD_DESC_MASTER && negb is_master) eqn:E2.
  { split; [done|]. intros [P _]. apply andb_prop in E2 as [E2 En]. by rewrite (p_master _ _ _ _ _ P E2) in En. }
  assert (has d CMD_DESC_MASTER = true -> is_master = true) as Hm.
  { intros E. rewrite E in E2. by apply negb_false_iff in E2. }
  assert (forall oa1, (if has d CMD_DESC_BITMASK then ok ← check_bits MAX_CMD_DESC_BITMASKS 0 d mem cmd; Done (ok, oa1)
    else Done (true, oa1)) = Done (true, oa') <-> (has d CMD_DESC_BITMASK = true ->
      Forall (fun b => bit_ok b w) (active MAX_CMD_DESC_BITMASKS (bits d))) /\ oa' = oa1) as Hbits.
  { intros oa1. destruct (has d CMD_DESC_BITMASK); [|split; [by intros [= <-]|by intros [_ ->]]].
    rewrite <- Hb. destruct (check_bits _ _ _ _ _) as [ok| |]; mred; naive_solver. }
  destruct (has d CMD_DESC_REGISTER) eqn:E3.
  - assert (permitted (reg_table r) (master_reg_table r) is_master d w /\ (exists a, register d w = Some a /\ oa_load d a w oa oa') ->
      check_register r d mem cmd is_master oa = Done (true, oa')) as Hback.
    { intros [P (a & Ha & Hl)]. apply Hr. destruct (p_register _ _ _ _ _ P E3) as (a' & Ha' & H1 & H2).
      rewrite Ha in Ha'. injection Ha' as <-. by exists a. }
    destruct (check_register r d mem cmd is_master oa) as [[ok oa1]| |]; mred; [|split; [done|intros HP; by apply Hback in HP]..].
    destruct ok; cbn [negb]; [|split; [done|intros HP; by apply Hback in HP]]. rewrite Hbits. split.
    + intros [Hbm ->]. destruct (proj1 Hr eq_refl) as (a & Ha & H1 & H2 & H4). split; [|by exists a].
      split; [done|done|by exists a|done].
    + intros HP. split; [apply (p_bits _ _ _ _ _ (proj1 HP))|]. apply Hback in HP. congruence.
  - mred. cbn [negb]. rewrite Hbits. split.
    + intros [Hbm ->]. split; [|done]. split; [done|done|congruence|done].
    + intros [P ->]. split; [apply (p_bits _ _ _ _ _ P)|done].
Qed.

(** With two words behind the command, all reads are inside. *)
Lemma check_bits_total n i d : desc_fits d = true -> cmd + 2 < Z.of_nat (length mem) -> exists ok, check_bits n i d mem cmd = Done ok.
Proof.
  intros Hf Hl. revert i. induction n as [|n IH]; intros i; [by exists true|]. cbn [check_bits].
  destruct (fits_offsets d i Hf) as [Ho Hc]. destruct (_ =? 0); [by exists true|].
  destruct (dword_ok mem cmd (b_condition_offset (nth i (bits d) no_bits))) as [c Ec]; [lia..|].
  destruct (dword_ok mem cmd (b_offset (nth i (bits d) no_bits))) as [v Ev]; [lia..|]. rewrite Ec, Ev.
  destruct (truth _); mred; [destruct (_ =? 0); [apply IH|]|]; (destruct (negb _); [by exists false|apply IH]).
Qed.

Lemma check_cmd_total d oa : desc_fits d = true -> cmd + 2 < Z.of_nat (length mem) ->
  exists ok oa', check_cmd r d mem cmd is_master oa = Done (ok, oa').
Proof.
  intros Hf Hl. assert (0 <= reg_offset d <= 2) as Ho by (unfold desc_fits in Hf; b2p; lia).
  assert (exists ok oa', check_register r d mem cmd is_master oa = Done (ok, oa')) as (ok & oa' & Er).
  { unfold check_register. destruct (dword_ok mem cmd (reg_offset d)) as [x ->]; [lia..|]. mred.
    destruct (_ && _); [by eexists _, _|]. destruct (dword_ok mem cmd 2) as [v ->]; [lia..|]. destruct (_ && _); mred; destruct (_ && _); by eexists _, _. }
  destruct (check_bits_total MAX_CMD_DESC_BITMASKS 0 d Hf Hl) as [ok' Eb].
  unfold check_cmd. destruct (truth _); [by eexists _, _|]. destruct (_ && _); [by eexists _, _|]. rewrite Er, Eb.
  destruct (truth (Z.land (flags d) CMD_DESC_BITMASK)), (truth (Z.land (flags d) CMD_DESC_REGISTER)); mred; destruct ok; by eexists _, _.
Qed.
End checks.

(** ** The loop *)

(** The ring looks commands up as the tables say. *)
Record ring_ok (hash_min : Z -> Z) (r : intel_engine_cs) (tables : list (list drm_i915_cmd_descriptor)) : Prop := {
  r_find h d : find_cmd hash_min r h = Some d <-> describes tables (get_cmd_length_mask r) h d;
  r_fits h d : find_cmd hash_min r h = Some d -> desc_fits d = true;
}.

Section loop.
Context (hash_min : Z -> Z) (r : intel_engine_cs) (tables : list (list drm_i915_cmd_descriptor)) (R : ring_ok hash_min r tables).
Context (mem : list Z) (is_master : bool).
Local Notation grammar := (batch tables (get_cmd_length_mask r) (reg_table r) (master_reg_table r) is_master).

Lemma drop_cons cmd h w : 0 <= cmd -> drop (Z.to_nat cmd) mem = h :: w <-> mem !! Z.to_nat cmd = Some h /\ w = drop (S (Z.to_nat cmd)) mem.
Proof.
  intros Hc. split.
  - intros E. split; [by rewrite <- (Nat.add_0_r (Z.to_nat cmd)), <- lookup_drop, E|]. by rewrite <- Nat.add_1_r, <- drop_drop, E.
  - intros [E ->]. by apply drop_S.
Qed.

Lemma parse_loop_sound fuel batch_end cmd oa cmd' oa' : 0 <= cmd -> cmd' < batch_end ->
  parse_loop hash_min fuel r mem batch_end is_master cmd oa = Done (0, cmd', oa') ->
  exists cs, grammar oa cs (drop (Z.to_nat cmd) mem) oa' /\ cmd + Z.of_nat (length (concat cs)) = cmd'.
Proof.
  intros Hc Hend. revert cmd oa Hc. induction fuel as [|fuel IH]; intros cmd oa Hc; [done|]. cbn [parse_loop].
  destruct (Z.ltb_spec cmd batch_end) as [Hlt|Hlt]; cbn [negb]; [|intros [= <- <-]; lia].
  unfold dword at 1. rewrite Z.add_0_r. destruct (mem !! Z.to_nat cmd) as [h|] eqn:Eh; [|done]. mred.
  assert (drop (Z.to_nat cmd) mem = h :: drop (S (Z.to_nat cmd)) mem) as Ed by (by apply drop_cons).
  destruct (Z.eqb_spec h MI_BATCH_BUFFER_END) as [->|Hne].
  { intros [= <- <-]. exists []. rewrite Ed. split; [constructor|cbn; lia]. }
  destruct (find_cmd hash_min r h) as [d|] eqn:Ef; [|done]. destruct (Z.eqb_spec (cmd_value d) MI_BATCH_BUFFER_START) as [|Hbs]; [done|].
  destruct (Z.ltb_spec (batch_end - cmd) (cmd_length d h)) as [|Hlen]; [done|].
  pose proof (r_fits _ _ _ R h d Ef) as Hf. pose proof (length_pos d h Hf) as Hp.
  destruct (check_cmd r d mem cmd is_master oa) as [[ok oa1]| |] eqn:Ec; [|done|done]. destruct ok; cbn [negb]; [|done].
  intros (cs & Hb & Hl)%IH; [|lia]. apply check_cmd_ok in Ec as [P Ho]; [|done|done].
  set (n := (Z.to_nat (cmd_length d h) - 1)%nat). set (t := drop (S (Z.to_nat cmd)) mem) in *.
  (* the words of the command are there: the batch goes on behind it *)
  assert (drop (Z.to_nat (cmd + cmd_length d h)) mem = drop n t) as Ek.
  { unfold t, n. rewrite drop_drop. f_equal. lia. }
  assert (length (take n t) = n) as Hn.
  { rewrite length_take. apply Nat.min_l. destruct (drop n t) as [|x y] eqn:E.
    - rewrite Ek in Hb. inversion Hb.
    - assert (length (drop n t) <> 0)%nat as Hd by (by rewrite E). rewrite length_drop in Hd. lia. }
  exists ((h :: take n t) :: cs). rewrite Ed. split.
  - replace (h :: t) with (h :: take n t ++ drop n t) by (by rewrite take_drop). apply (batch_cmd _ _ _ _ _ oa oa1 oa' h (take n t) cs (drop n t) d); try done.
    + by apply (r_find _ _ _ R).
    + cbn [length]. rewrite Hn. unfold n. lia.
    + by rewrite take_drop, <- Ed.
    + by rewrite take_drop, <- Ed.
    + by rewrite <- Ek.
  - cbn. rewrite length_app, Hn. unfold n. lia.
Qed.

Lemma parse_loop_complete fuel batch_end cmd oa cs oa' : 0 <= cmd -> grammar oa cs (drop (Z.to_nat cmd) mem) oa' ->
  cmd + Z.of_nat (length (concat cs)) < batch_end -> (length cs < fuel)%nat ->
  parse_loop hash_min fuel r mem batch_end is_master cmd oa = Done (0, cmd + Z.of_nat (length (concat cs)), oa').
Proof.
  intros Hc Hb. remember (drop (Z.to_nat cmd) mem) as w eqn:Ew. revert fuel cmd Hc Ew.
  induction Hb as [oa k|oa oa1 oa' h c cs k d Hne Hd Hbs Hlen P Ho Hb IH]; intros fuel cmd Hc Ew Hend Hfu; (destruct fuel as [|fuel]; [cbn in Hfu; lia|]); cbn [parse_loop].
  - cbn in Hend. destruct (Z.ltb_spec cmd batch_end); [|lia]. cbn [negb]. symmetry in Ew. apply drop_cons in Ew as [Eh _]; [|done].
    unfold dword. rewrite Z.add_0_r, Eh. mred. rewrite Z.eqb_refl. cbn. by rewrite Z.add_0_r.
  - destruct (Z.ltb_spec cmd batch_end); [|lia]. cbn [negb]. symmetry in Ew. pose proof Ew as Ew'. apply drop_cons in Ew as [Eh Ek]; [|done].
    unfold dword at 1. rewrite Z.add_0_r, Eh. mred. destruct (Z.eqb_spec h MI_BATCH_BUFFER_END); [done|].
    apply (r_find _ _ _ R) in Hd as Ef. rewrite Ef. destruct (Z.eqb_spec (cmd_value d) MI_BATCH_BUFFER_START); [done|].
    cbn in Hend. rewrite length_app in Hend. cbn [length] in Hlen. destruct (Z.ltb_spec (batch_end - cmd) (cmd_length d h)); [lia|].
    assert (check_cmd r d mem cmd is_master oa = Done (true, oa1)) as ->.
    { apply check_cmd_ok; [done|by apply (r_fits _ _ _ R h)|]. rewrite Ew'. done. }
    cbn [negb]. rewrite (IH fuel (cmd + cmd_length d h)); [|lia| |lia|cbn in Hfu; lia].
    + do 3 f_equal. cbn. rewrite length_app. lia.
    + rewrite <- Hlen. replace (Z.to_nat (cmd + Z.of_nat (S (length c)))) with (S (Z.to_nat cmd) + length c)%nat by lia.
      rewrite <- drop_drop, <- Ek. by rewrite drop_app_length.
Qed.

(** The loop ends, whatever the words are. *)
Lemma parse_loop_total fuel batch_end cmd oa : 0 <= cmd <= batch_end -> batch_end + 2 <= Z.of_nat (length mem) ->
  batch_end - cmd < Z.of_nat fuel ->
  exists ret cmd' oa', parse_loop hash_min fuel r mem batch_end is_master cmd oa = Done (ret, cmd', oa') /\
    (ret = 0 \/ ret = - EINVAL \/ ret = - EACCES).
Proof.
  intros Hc Hm. revert cmd oa Hc. induction fuel as [|fuel IH]; intros cmd oa Hc Hfu; [lia|]. cbn [parse_loop].
  destruct (Z.ltb_spec cmd batch_end); cbn [negb]; [|by eexists 0, _, _; auto].
  destruct (dword_ok mem cmd 0) as [h ->]; [lia..|]. mred. destruct (h =? MI_BATCH_BUFFER_END); [by eexists 0, _, _; auto|].
  destruct (find_cmd hash_min r h) as [d|] eqn:Ef; [|by eexists _, _, _; auto].
  destruct (_ =? _); [by eexists _, _, _; auto|]. destruct (Z.ltb_spec (batch_end - cmd) (cmd_length d h)); [by eexists _, _, _; auto|].
  pose proof (r_fits _ _ _ R h d Ef) as Hf. pose proof (length_pos d h Hf) as Hp.
  destruct (check_cmd_total r is_master mem cmd ltac:(lia) d oa Hf ltac:(lia)) as (ok & oa1 & ->).
  destruct ok; cbn [negb]; [apply IH; lia|by eexists _, _, _; auto].
Qed.
End loop.

(** ** Tables and rings *)

(** The bits of the hash are part of the opcode, and no command has two
    descriptors. *)
Definition hashes (d : drm_i915_cmd_descriptor) : bool := Z.land (cmd_mask d) CMD_HASH_MASK =? CMD_HASH_MASK.
Definition apart (d d' : drm_i915_cmd_descriptor) : bool :=
  bool_decide (d = d') || negb (Z.land (Z.land (cmd_value d) (cmd_mask d)) (cmd_mask d') =? Z.land (Z.land (cmd_value d') (cmd_mask d')) (cmd_mask d)).
Definition tables_fit (tables : list (list drm_i915_cmd_descriptor)) : bool :=
  let l := concat tables in forallb desc_fits l && forallb hashes l && forallb (fun d => forallb (apart d) l) l.

Lemma matches_unique tables d d' h : tables_fit tables = true -> d ∈ concat tables -> d' ∈ concat tables ->
  matches d h -> matches d' h -> d = d'.
Proof.
  unfold tables_fit. intros [[_ _]%andb_prop Hf]%andb_prop Hd Hd' Hm Hm'. rewrite forallb_forall in Hf.
  apply list_elem_of_In in Hd, Hd'. specialize (Hf d Hd). rewrite forallb_forall in Hf. specialize (Hf d' Hd'). unfold apart in Hf.
  apply orb_prop in Hf as [Hf|Hf]; [by apply bool_decide_eq_true in Hf|]. b2p. destruct Hf. unfold matches in *.
  rewrite <- Hm, <- Hm'. rewrite <- !Z.land_assoc, (Z.land_comm h (cmd_mask d')), (Z.land_comm h (cmd_mask d)), !Z.land_assoc.
  by rewrite (Z.land_comm (cmd_mask d) (cmd_mask d')).
Qed.

Lemma matches_key d h : hashes d = true -> matches d h -> Z.land h CMD_HASH_MASK = Z.land (cmd_value d) CMD_HASH_MASK.
Proof.
  unfold hashes, matches. intros Hh%Z.eqb_eq Hm. rewrite <- Hh at 1. rewrite Z.land_assoc, (Z.land_comm h), Hm.
  by rewrite <- Z.land_assoc, Hh.
Qed.

Section init.
Context (hash_min : Z -> Z).
Implicit Types (ht : gmap Z (list drm_i915_cmd_descriptor)).

(** The descriptors of a bucket. *)
Definition bucket ht (b : Z) (d : drm_i915_cmd_descriptor) : Prop := d ∈ default [] (ht !! b).

Lemma bucket_add ht d key b d' : bucket (hash_add hash_min d key ht) b d' <-> bucket ht b d' \/ (d' = d /\ b = hash_min key).
Proof.
  unfold bucket, hash_add. destruct (decide (b = hash_min key)) as [->|Hb].
  - rewrite lookup_insert_eq. cbn. rewrite elem_of_cons. naive_solver.
  - rewrite lookup_insert_ne by done. naive_solver.
Qed.

Definition key_of (d : drm_i915_cmd_descriptor) : Z := hash_min (Z.land (cmd_value d) CMD_HASH_MASK).

Lemma init_entries_ok kmalloc n table ht ret n' ht' : init_entries hash_min kmalloc n table ht = (ret, n', ht') ->
  if truth ret then ret = - ENOMEM else forall b d, bucket ht' b d <-> bucket ht b d \/ (d ∈ table /\ b = key_of d).
Proof.
  revert n ht. induction table as [|d table IH]; intros n ht; cbn.
  - intros [= <- <- <-]. cbn. intros b d. split; [auto|]. intros [|[Hin _]]; [done|by apply not_elem_of_nil in Hin].
  - destruct (kmalloc n); [|by intros [= <- <- <-]]. intros He%IH. destruct (truth ret); [done|].
    intros b d'. rewrite He, bucket_add, elem_of_cons. fold (key_of d). naive_solver.
Qed.

Lemma init_tables_ok kmalloc n tables ht ret ht' : init_tables hash_min kmalloc n tables ht = (ret, ht') ->
  if truth ret then ret = - ENOMEM else forall b d, bucket ht' b d <-> bucket ht b d \/ (d ∈ concat tables /\ b = key_of d).
Proof.
  revert n ht. induction tables as [|table tables IH]; intros n ht; cbn.
  - intros [= <- <-]. cbn. intros b d. split; [auto|]. intros [|[Hin _]]; [done|by apply not_elem_of_nil in Hin].
  - destruct (init_entries hash_min kmalloc n table ht) as [[ret1 n1] ht1] eqn:E1. apply init_entries_ok in E1.
    destruct (truth ret1) eqn:Er; [intros [= <- <-]; by rewrite Er|]. intros He%IH. destruct (truth ret); [done|].
    intros b d. rewrite He, E1, elem_of_app. naive_solver.
Qed.

(** [-ENOMEM] when an allocation fails, 0 otherwise. *)
Lemma init_entries_total kmalloc n table ht : (forall k, kmalloc k = true) -> (init_entries hash_min kmalloc n table ht).1.1 = 0.
Proof. intros Hk. revert n ht. induction table as [|d table IH]; intros n ht; cbn; [done|]. rewrite Hk. apply IH. Qed.

Lemma init_tables_total kmalloc n tables ht : (forall k, kmalloc k = true) -> (init_tables hash_min kmalloc n tables ht).1 = 0.
Proof.
  intros Hk. revert n ht. induction tables as [|table tables IH]; intros n ht; cbn; [done|].
  pose proof (init_entries_total kmalloc n table ht Hk) as H0. destruct (init_entries _ _ _ _ _) as [[ret n1] ht1]. cbn in H0. subst ret. apply IH.
Qed.

(** A ring whose hash table holds fitting tables looks commands up in them. *)
Lemma loaded_ring_ok r tables : tables_fit tables = true ->
  (forall h, 0 <= get_cmd_length_mask r h < 2 ^ 16) ->
  (forall b d, bucket (cmd_hash r) b d <-> d ∈ concat tables /\ b = key_of d) -> ring_ok hash_min r tables.
Proof.
  intros Ht Hlen Hb.
  assert (forall d, d ∈ concat tables -> desc_fits d = true /\ hashes d = true) as Hin.
  { unfold tables_fit in Ht. apply andb_prop in Ht as [[H1 H2]%andb_prop _]. rewrite forallb_forall in H1, H2.
    intros d Hd%list_elem_of_In. auto. }
  assert (forall h d, find_cmd_in_table hash_min r h = Some d <-> d ∈ concat tables /\ matches d h) as Hfind.
  { intros h d. unfold find_cmd_in_table. split.
    - intros [Hd Hm]%find_some. apply list_elem_of_In, Hb in Hd as [Hd _]. split; [done|by apply Z.eqb_eq].
    - intros [Hd Hm]. destruct (List.find _ _) as [d'|] eqn:Ef.
      + apply find_some in Ef as [Hd' Hm'%Z.eqb_eq]. apply list_elem_of_In, Hb in Hd' as [Hd' _]. f_equal. by apply (matches_unique tables d' d h).
      + exfalso. enough (In d (default [] (cmd_hash r !! hash_min (Z.land h CMD_HASH_MASK)))) as Hx%(find_none _ _ Ef) by (by rewrite Hm, Z.eqb_refl in Hx).
        apply list_elem_of_In, Hb. split; [done|].
        unfold key_of. by rewrite (matches_key d h (proj2 (Hin d Hd)) Hm). }
  split.
  - intros h d. unfold find_cmd. destruct (find_cmd_in_table hash_min r h) as [d'|] eqn:Ef.
    + apply Hfind in Ef as [Hd Hm]. split; [intros [= <-]; by apply describes_known|]. intros [d0 H0 Hm0|Hno _]; [|by destruct (Hno d')].
      f_equal. by apply (matches_unique tables d' d0 h).
    + assert (forall d, d ∈ concat tables -> ~ matches d h) as Hno by (intros d0 H0 Hm; by rewrite (proj2 (Hfind h d0) (conj H0 Hm)) in Ef).
      unfold truth. destruct (Z.eqb_spec (get_cmd_length_mask r h) 0) as [Ez|Ez]; cbn; split.
      * done.
      * intros [d0 H0 Hm|_ Hz]; [by destruct (Hno d0)|done].
      * intros [= <-]. by apply describes_other.
      * intros [d0 H0 Hm|_ _]; [by destruct (Hno d0)|done].
  - intros h d. unfold find_cmd. destruct (find_cmd_in_table hash_min r h) as [d'|] eqn:Ef.
    + intros [= <-]. apply Hfind in Ef as [Hd _]. by apply Hin.
    + destruct (negb _); [done|]. intros [= <-]. unfold desc_fits, default_desc. cbn. specialize (Hlen h). change (65536) with (2 ^ 16).
      destruct (Z.leb_spec 0 (get_cmd_length_mask r h)), (Z.ltb_spec (get_cmd_length_mask r h) (2 ^ 16)); try done; lia.
Qed.
End init.

(** ** Set-up of a ring *)
Lemma render_mask_bounds h : 0 <= gen7_render_get_cmd_length_mask h < 2 ^ 16.
Proof. unfold gen7_render_get_cmd_length_mask. repeat case_if; lia. Qed.
Lemma bsd_mask_bounds h : 0 <= gen7_bsd_get_cmd_length_mask h < 2 ^ 16.
Proof. unfold gen7_bsd_get_cmd_length_mask. repeat case_if; lia. Qed.
Lemma blt_mask_bounds h : 0 <= gen7_blt_get_cmd_length_mask h < 2 ^ 16.
Proof. unfold gen7_blt_get_cmd_length_mask. repeat case_if; lia. Qed.

Lemma ring_tables_fit haswell r tables r' : ring_tables haswell r = Some (tables, r') ->
  tables_fit tables = true /\ (forall h, 0 <= get_cmd_length_mask r' h < 2 ^ 16) /\ cmd_hash r' = cmd_hash r /\ needs_cmd_parser r' = needs_cmd_parser r.
Proof.
  unfold ring_tables. destruct (ring_id r), haswell; intros [= <- <-];
    (split_and!; [by vm_compute|first [exact render_mask_bounds|exact bsd_mask_bounds|exact blt_mask_bounds]|done|done]).
Qed.

Section setup.
Context (hash_min : Z -> Z) (haswell : bool) (kmalloc : nat -> bool) (r0 : intel_engine_cs).
Context (Hempty : cmd_hash r0 = ∅).

Lemma init_ring_ok r : i915_cmd_parser_init_ring hash_min true haswell kmalloc r0 = Done (0, r) ->
  exists tables r1, ring_tables haswell r0 = Some (tables, r1) /\ ring_ok hash_min r tables /\ needs_cmd_parser r = true /\
    reg_table r = reg_table r1 /\ master_reg_table r = master_reg_table r1 /\ get_cmd_length_mask r = get_cmd_length_mask r1.
Proof.
  unfold i915_cmd_parser_init_ring. cbn [negb]. destruct (ring_tables haswell r0) as [[tables r1]|] eqn:Et; [|done]. mred.
  destruct (ring_tables_fit haswell r0 tables r1 Et) as (Hf & Hl & Hh & _).
  destruct (validate_cmds_sorted tables) as [sorted| |]; [|done|done]. destruct (BUG_ON (negb sorted)); [|done].
  destruct (BUG_ON (negb (validate_regs_sorted r1))); [|done].
  rewrite Hh, Hempty. cbn [hash_empty map_to_list]. unfold hash_empty. rewrite map_to_list_empty. cbn [forallb]. unfold init_hash_table.
  destruct (init_tables hash_min kmalloc 0 tables ∅) as [ret ht] eqn:Ei. apply init_tables_ok in Ei.
  destruct (truth ret) eqn:Er; [intros [= -> <-]; by cbn in Er|]. intros [= <-]. exists tables, r1. split_and!; try done.
  apply loaded_ring_ok; [done|done|]. intros b d. cbn. rewrite Ei. unfold bucket. rewrite lookup_empty. cbn.
  split; [intros [Hn|]; [by apply not_elem_of_nil in Hn|done]|by right].
Qed.
End setup.

(** ** What a batch does to registers *)

(** MI_LOAD_REGISTER_IMM loads as many registers as it has pairs of an address and a
    value (the comment on it in i915_reg.h), MI_LOAD_REGISTER_MEM one register with a value
    from memory, which is not in the batch. *)
Definition is_lri (h : Z) : bool := Z.land STD_MI_OPCODE_MASK h =? Z.land (MI_LOAD_REGISTER_IMM 1) STD_MI_OPCODE_MASK.
Definition is_lrm (h : Z) : bool := Z.land STD_MI_OPCODE_MASK h =? Z.land MI_LOAD_REGISTER_MEM STD_MI_OPCODE_MASK.
Fixpoint pairs (l : list Z) : list (Z * option Z) :=
  match l with a :: v :: l => (Z.land a 0x007FFFFC, Some v) :: pairs l | _ => [] end.
Definition loads (c : list Z) : list (Z * option Z) :=
  match c with
  | h :: l => if is_lri h then pairs l else if is_lrm h then (fun a => (Z.land a 0x007FFFFC, None)) <$> take 1 l else []
  | [] => []
  end.

(** Whether OACONTROL may be on after the loads, [on] without one of it: an immediate
    load decides, after one from memory it may be. *)
Definition oa_loaded (l : list (Z * option Z)) (on : bool) : bool :=
  foldl (fun on p => if p.1 =? OACONTROL then match p.2 with Some v => negb (v =? 0) | None => true end else on) on l.

Definition lri_desc : drm_i915_cmd_descriptor :=
  with_reg 1 0x007FFFFC (CMD (MI_LOAD_REGISTER_IMM 1) STD_MI_OPCODE_MASK false 0xFF CMD_DESC_REGISTER).
Definition lrm_desc : drm_i915_cmd_descriptor :=
  with_bits [MkBits 0 MI_GLOBAL_GTT 0 0 0] (with_reg 1 0x007FFFFC (CMD MI_LOAD_REGISTER_MEM STD_MI_OPCODE_MASK false 0xFF (Z.lor CMD_DESC_REGISTER CMD_DESC_BITMASK))).

(** The tables have them, and no other entry for the immediate load. *)
Definition lri_known (tables : list (list drm_i915_cmd_descriptor)) : bool :=
  bool_decide (lri_desc ∈ concat tables) && forallb (fun d => bool_decide (d = lri_desc) || negb (cmd_value d =? MI_LOAD_REGISTER_IMM 1)) (concat tables).
Definition lrm_known (tables : list (list drm_i915_cmd_descriptor)) : bool := bool_decide (lrm_desc ∈ concat tables).

Lemma ring_tables_lri haswell r tables r' : ring_tables haswell r = Some (tables, r') -> lri_known tables = true /\ lrm_known tables = true.
Proof. unfold ring_tables. destruct (ring_id r), haswell; intros [= <- <-]; split; by vm_compute. Qed.

Section registers.
Context (tables : list (list drm_i915_cmd_descriptor)) (len : Z -> Z) (regs master_regs : list Z) (is_master : bool).
Context (Hfit : tables_fit tables = true) (Hlri : lri_known tables = true) (Hlrm : lrm_known tables = true).

Lemma lri_describes h d : describes tables len h d -> is_lri h = true -> d = lri_desc.
Proof.
  apply andb_prop in Hlri as [Hin%bool_decide_eq_true _]. intros Hd Hh%Z.eqb_eq. assert (matches lri_desc h) as Hm by done.
  destruct Hd as [d Hd Hmd|Hno _]; [|by destruct (Hno lri_desc)]. by apply (matches_unique tables d lri_desc h).
Qed.

Lemma lrm_describes h d : describes tables len h d -> is_lrm h = true -> d = lrm_desc.
Proof.
  apply bool_decide_eq_true in Hlrm. intros Hd Hh%Z.eqb_eq. assert (matches lrm_desc h) as Hm by done.
  destruct Hd as [d Hd Hmd|Hno _]; [|by destruct (Hno lrm_desc)]. by apply (matches_unique tables d lrm_desc h).
Qed.

Lemma lri_described h d : describes tables len h d -> cmd_value d = MI_LOAD_REGISTER_IMM 1 -> is_lri h = true.
Proof.
  apply andb_prop in Hlri as [_ Hall]. rewrite forallb_forall in Hall. intros [d0 Hd Hm|_ _] Hv; [|done].
  apply list_elem_of_In, Hall in Hd. rewrite Hv, Z.eqb_refl, orb_false_r in Hd. apply bool_decide_eq_true in Hd as ->. by apply Z.eqb_eq.
Qed.

(** A command as long as its descriptor says, which does not end the batch. *)
Definition framed (c : list Z) : Prop :=
  exists d, describes tables len (hd 0 c) d /\ Z.of_nat (length c) = cmd_length d (hd 0 c) /\
    hd 0 c <> MI_BATCH_BUFFER_END /\ cmd_value d <> MI_BATCH_BUFFER_START.

Lemma framed_lri c : framed c -> is_lri (hd 0 c) = true -> Z.of_nat (length c) = Z.land (hd 0 c) 0xFF + 2.
Proof.
  intros (d & Hd & Hl & _) Hi. rewrite (lri_describes _ d Hd Hi) in Hl. rewrite Hl. unfold cmd_length.
  change (truth (Z.land (flags lri_desc) CMD_DESC_FIXED)) with false. cbv iota. change (d_length lri_desc) with 0xFF.
  pose proof (land_nonneg_le (hd 0 c) 0xFF ltac:(lia)). by rewrite u32_small by (unfold is_u32, LENGTH_BIAS; lia).
Qed.

Lemma batch_framed oa cs w oa' : batch tables len regs master_regs is_master oa cs w oa' -> Forall framed cs.
Proof. induction 1 as [|oa oa1 oa' h c cs k d Hne Hd Hbs Hlen P Ho Hb IH]; constructor; [by exists d|done]. Qed.

Lemma batch_registers oa cs w oa' : batch tables len regs master_regs is_master oa cs w oa' ->
  (exists k, w = concat cs ++ MI_BATCH_BUFFER_END :: k) /\
  ((forall c, c ∈ cs -> is_lri (hd 0 c) = true -> length c = 3%nat) ->
   (forall c a v, c ∈ cs -> (a, v) ∈ loads c -> allowed_reg regs master_regs is_master a /\ (a = OACONTROL -> v <> None)) /\
   oa' = oa_loaded (concat (loads <$> cs)) oa).
Proof.
  induction 1 as [oa k|oa oa1 oa' h c cs k d Hne Hd Hbs Hlen P Ho Hb [[k' ->] IH]].
  { split; [by exists k|]. intros _. split; [intros c a v Hc; by apply not_elem_of_nil in Hc|done]. }
  split; [exists k'; cbn; by rewrite <- app_assoc|]. intros H3.
  destruct IH as [IH1 IH2]; [intros c' Hc'; apply H3; by right|]. specialize (H3 (h :: c) ltac:(by left)). cbn [hd length] in H3.
  destruct (is_lri h) eqn:El.
  - pose proof (lri_describes h d Hd El) as ->. specialize (H3 eq_refl). destruct c as [|a [|v [|? ?]]]; try (cbn in H3; lia).
    destruct (p_register _ _ _ _ _ P eq_refl) as (a' & Ha & Hal & _). cbn in Ha. injection Ha as <-.
    unfold oa_after in Ho. change (has lri_desc CMD_DESC_REGISTER) with true in Ho. destruct Ho as (a' & Ha & Hl). cbn in Ha. injection Ha as <-.
    assert (loads [h; a; v] = [(Z.land a 0x007FFFFC, Some v)]) as El' by (cbn [loads]; by rewrite El). split.
    + intros c' a' v' [->|Hc']%elem_of_cons; [rewrite El'; intros [[= -> ->]|Hn]%elem_of_cons; [by split|by apply not_elem_of_nil in Hn]|by apply IH1].
    + rewrite IH2. rewrite fmap_cons, El'. unfold oa_loaded. cbn [concat app foldl]. f_equal. unfold oa_load in Hl.
      change (cmd_value lri_desc =? MI_LOAD_REGISTER_IMM 1) with true in Hl. cbn [andb fst snd] in *.
      destruct (Z.land a 8388604 =? OACONTROL) in Hl |- *; [|done]. destruct Hl as (v' & Hv' & ->). cbn in Hv'. by injection Hv' as <-.
  - assert (oa1 = oa) as ->.
    { unfold oa_after, oa_load in Ho. destruct (has d CMD_DESC_REGISTER); [|done].
      destruct Ho as (a & _ & Hl). destruct (Z.eqb_spec (cmd_value d) (MI_LOAD_REGISTER_IMM 1)) as [Ev|]; [|done].
      rewrite (lri_described h d Hd Ev) in El. done. }
    assert (forall a v, (a, v) ∈ loads (h :: c) -> allowed_reg regs master_regs is_master a /\ a <> OACONTROL) as Hlm.
    { intros a v. cbn [loads]. rewrite El. destruct (is_lrm h) eqn:Em; [|intros Hn; by apply not_elem_of_nil in Hn].
      pose proof (lrm_describes h d Hd Em) as ->. destruct (p_register _ _ _ _ _ P eq_refl) as (a' & Ha & Hal & Hoa).
      destruct c as [|w c]; [intros Hn; by apply not_elem_of_nil in Hn|]. cbn in Ha. injection Ha as <-.
      intros [[= -> _]|Hn]%elem_of_cons; [|by apply not_elem_of_nil in Hn]. split; [done|]. intros Eo. by apply (Hoa Eo). }
    split.
    + intros c' a' v' [->|Hc']%elem_of_cons; [intros Hin; by destruct (Hlm a' v' Hin)|by apply IH1].
    + rewrite IH2. rewrite fmap_cons. unfold oa_loaded. cbn [concat]. rewrite foldl_app. f_equal. symmetry. revert Hlm. generalize (loads (h :: c)) as l. intros l.
      induction l as [|[a v] l IHl]; intros Hlm; [done|]. cbn [foldl fst snd].
      destruct (Z.eqb_spec a OACONTROL) as [E|_]; [by destruct (Hlm a v ltac:(by left))|]. apply IHl. intros a' v' Hin. apply (Hlm a' v'). by right.
Qed.
End registers.

Section claims.
Context (hash_min : Z -> Z).

(** A ring is set up for every ring of generation 7 that has tables, apart from the
    blitter of Haswell: with memory the parser is enabled, and looks up each command
    header as the tables describe it, with at most one descriptor per header; when
    an allocation fails the call returns -ENOMEM with an empty table and the parser
    as it was. *)
Theorem cmd_parser_init_exact haswell kmalloc r0 : cmd_hash r0 = ∅ -> reg_table r0 = [] -> master_reg_table r0 = [] ->
  ring_id r0 <> VCS2 -> (ring_id r0 = BCS -> haswell = false) ->
  exists ret r tables r1, i915_cmd_parser_init_ring hash_min true haswell kmalloc r0 = Done (ret, r) /\
    ring_tables haswell r0 = Some (tables, r1) /\ ((forall n, kmalloc n = true) -> ret = 0) /\
    (ret = 0 /\ needs_cmd_parser r = true /\
       (forall h d, find_cmd hash_min r h = Some d <-> describes tables (get_cmd_length_mask r1) h d) \/
     ret = - ENOMEM /\ needs_cmd_parser r = needs_cmd_parser r0 /\ cmd_hash r = ∅).
Proof.
  intros Hh Hr Hm Hid Hb. destruct (ring_tables haswell r0) as [[tables r1]|] eqn:Et; [|by unfold ring_tables in Et; destruct (ring_id r0), haswell].
  assert (validate_cmds_sorted tables = Done true) as Hv.
  { unfold ring_tables in Et. destruct (ring_id r0), haswell; try (by specialize (Hb eq_refl)); try discriminate Et; injection Et as <- <-; by vm_compute. }
  assert (validate_regs_sorted r1 = true) as Hs.
  { unfold ring_tables in Et. destruct (ring_id r0), haswell; try (by specialize (Hb eq_refl)); try discriminate Et; injection Et as <- <-;
      unfold validate_regs_sorted; cbn [reg_table master_reg_table set_tables]; rewrite ?Hr, ?Hm; by vm_compute. }
  destruct (ring_tables_fit haswell r0 tables r1 Et) as (_ & _ & Hh1 & Hn1).
  destruct (i915_cmd_parser_init_ring hash_min true haswell kmalloc r0) as [[ret r]| |] eqn:Ei.
  - exists ret, r, tables, r1. split_and!; [done|done| |].
    + intros Hk. unfold i915_cmd_parser_init_ring in Ei. cbn [negb] in Ei. rewrite Et in Ei. revert Ei. mred. rewrite Hv, Hs, Hh1, Hh.
      unfold hash_empty. rewrite map_to_list_empty. cbn [forallb negb BUG_ON]. unfold init_hash_table.
      pose proof (init_tables_total hash_min kmalloc 0 tables ∅ Hk) as H0. destruct (init_tables _ _ _ _ _) as [ret' ht]. cbn in H0. subst ret'. by intros [= <- _].
    + destruct (decide (ret = 0)) as [->|Hret].
      * left. destruct (init_ring_ok hash_min haswell kmalloc r0 Hh r Ei) as (tables' & r1' & Et' & R & Hn & _ & _ & El).
        rewrite Et in Et'. injection Et' as <- <-. split_and!; [done|done|]. intros h d. rewrite <- El. apply (r_find _ _ _ R).
      * right. unfold i915_cmd_parser_init_ring in Ei. cbn [negb] in Ei. rewrite Et in Ei. revert Ei. mred. rewrite Hv, Hs, Hh1, Hh.
        unfold hash_empty. rewrite map_to_list_empty. cbn [forallb negb BUG_ON]. unfold init_hash_table.
        destruct (init_tables hash_min kmalloc 0 tables ∅) as [ret' ht] eqn:E1. apply init_tables_ok in E1.
        destruct (truth ret'); [|by intros [= <- _]]. intros [= <- <-]. by split_and!.
  - exfalso. revert Ei. unfold i915_cmd_parser_init_ring. cbn [negb]. rewrite Et. mred. rewrite Hv, Hs. cbn. destruct (hash_empty _); [|done].
    destruct (init_hash_table _ _ _ _) as [ret' r']. by destruct (truth ret').
  - exfalso. revert Ei. unfold i915_cmd_parser_init_ring. cbn [negb]. rewrite Et. mred. rewrite Hv, Hs. cbn. destruct (hash_empty _); [|done].
    destruct (init_hash_table _ _ _ _) as [ret' r']. by destruct (truth ret').
Qed.

Lemma parse_exact haswell kmalloc r0 r tables r1 mem size start is_master :
  cmd_hash r0 = ∅ -> i915_cmd_parser_init_ring hash_min true haswell kmalloc r0 = Done (0, r) ->
  ring_tables haswell r0 = Some (tables, r1) -> 0 <= size -> 0 <= start ->
  i915_parse_cmds hash_min 0 true r mem size start is_master = Done 0 <->
  exists cs, batch tables (get_cmd_length_mask r1) (reg_table r1) (master_reg_table r1) is_master false cs (drop (Z.to_nat (start / 4)) mem) false /\
    Z.of_nat (length (concat cs)) < size / 4.
Proof.
  intros Hh Hi Ht Hs Ho. destruct (init_ring_ok hash_min haswell kmalloc r0 Hh r Hi) as (tables' & r1' & Et & R & _ & E1 & E2 & E3).
  rewrite Ht in Et. injection Et as <- <-. rewrite <- E1, <- E2, <- E3. unfold i915_parse_cmds. cbn [truth negb Z.eqb].
  assert (0 <= start / 4) as Hc by (apply Z.div_pos; lia). assert (0 <= size / 4) as Hz by (apply Z.div_pos; lia). split.
  - destruct (parse_loop _ _ _ _ _ _ _ _) as [[[ret cmd] oa]| |] eqn:El; [|done|done]. mred.
    destruct (Z.leb_spec (start / 4 + size / 4) cmd) as [|Hlt]; [done|]. destruct oa; [done|]. intros [= ->].
    destruct (parse_loop_sound hash_min r tables R mem is_master _ _ _ _ _ _ Hc Hlt El) as (cs & Hb & Hl). exists cs. split; [done|lia].
  - intros (cs & Hb & Hl). assert (length cs <= length (concat cs))%nat as Hn.
    { clear -Hb. induction Hb; cbn; [lia|]. rewrite length_app. lia. }
    rewrite (parse_loop_complete hash_min r tables R mem is_master _ (start / 4 + size / 4) (start / 4) false cs false Hc Hb); [|lia|lia]. mred.
    destruct (Z.leb_spec (start / 4 + size / 4) (start / 4 + Z.of_nat (length (concat cs)))); [lia|done].
Qed.

(** C6: the parser accepts exactly the batches of the grammar: from the start offset
    on, permitted commands one after the other, followed by MI_BATCH_BUFFER_END within
    the size of the object, with OACONTROL off at the end. *)
Theorem parse_accepts_grammar haswell kmalloc r0 r tables r1 mem size start is_master :
  cmd_hash r0 = ∅ -> i915_cmd_parser_init_ring hash_min true haswell kmalloc r0 = Done (0, r) ->
  ring_tables haswell r0 = Some (tables, r1) -> 0 <= size -> 0 <= start ->
  i915_parse_cmds hash_min 0 true r mem size start is_master = Done 0 <->
  exists cs, batch tables (get_cmd_length_mask r1) (reg_table r1) (master_reg_table r1) is_master false cs (drop (Z.to_nat (start / 4)) mem) false /\
    Z.of_nat (length (concat cs)) < size / 4.
Proof. apply parse_exact. Qed.

(** C28: on every batch the parser ends and returns 0, -EINVAL or -EACCES, and it reads
    nothing beyond two words behind the size of the object from the start offset. *)
Theorem parse_reads_bounded haswell kmalloc r0 r mem size start is_master :
  cmd_hash r0 = ∅ -> i915_cmd_parser_init_ring hash_min true haswell kmalloc r0 = Done (0, r) -> 0 <= size -> 0 <= start ->
  start / 4 + size / 4 + 2 <= Z.of_nat (length mem) ->
  exists ret, i915_parse_cmds hash_min 0 true r mem size start is_master = Done ret /\ (ret = 0 \/ ret = - EINVAL \/ ret = - EACCES).
Proof.
  intros Hh Hi Hs Ho Hm. destruct (init_ring_ok hash_min haswell kmalloc r0 Hh r Hi) as (tables & r1 & _ & R & _).
  assert (0 <= start / 4) as Hc by (apply Z.div_pos; lia). assert (0 <= size / 4) as Hz by (apply Z.div_pos; lia).
  unfold i915_parse_cmds. cbn [truth negb Z.eqb].
  destruct (parse_loop_total hash_min r tables R mem is_master (S (Z.to_nat (size / 4))) (start / 4 + size / 4) (start / 4) false) as (ret & cmd & oa & -> & Hr); [lia..|].
  mred. eexists. split; [done|]. destruct (_ <=? cmd); [auto|]. destruct oa; auto.
Qed.

(** C7: an accepted batch is a sequence of commands of the tables' lengths up to
    MI_BATCH_BUFFER_END; when its immediate loads (MI_LOAD_REGISTER_IMM) name one register
    each, its immediate loads and its loads from memory (MI_LOAD_REGISTER_MEM) load only
    registers of the ring's whitelist, or of the master's for a master, no load from memory
    is one of OACONTROL, and the immediate ones leave it off. *)
Theorem accepted_batch_registers haswell kmalloc r0 r tables r1 mem size start is_master :
  cmd_hash r0 = ∅ -> i915_cmd_parser_init_ring hash_min true haswell kmalloc r0 = Done (0, r) ->
  ring_tables haswell r0 = Some (tables, r1) -> 0 <= size -> 0 <= start ->
  i915_parse_cmds hash_min 0 true r mem size start is_master = Done 0 ->
  exists cs k, drop (Z.to_nat (start / 4)) mem = concat cs ++ MI_BATCH_BUFFER_END :: k /\
    Forall (framed tables (get_cmd_length_mask r1)) cs /\
    ((forall c, c ∈ cs -> is_lri (hd 0 c) = true -> length c = 3%nat) ->
     (forall c a v, c ∈ cs -> (a, v) ∈ loads c -> a ∈ reg_table r1 \/ (is_master = true /\ a ∈ master_reg_table r1)) /\
     (forall c v, c ∈ cs -> (OACONTROL, v) ∈ loads c -> v <> None) /\
     oa_loaded (concat (loads <$> cs)) false = false).
Proof.
  intros Hh Hi Ht Hs Ho Hp. apply (parse_exact haswell kmalloc r0 r tables r1) in Hp as (cs & Hb & _); try done.
  destruct (ring_tables_fit haswell r0 tables r1 Ht) as (Hf & _).
  destruct (ring_tables_lri haswell r0 tables r1 Ht) as [Hi1 Hm1].
  destruct (batch_registers tables _ _ _ _ Hf Hi1 Hm1 _ _ _ _ Hb) as [[k Ek] Hr].
  exists cs, k. split_and!; [done|by eapply batch_framed|]. intros H3. destruct (Hr H3) as [H1 H2]. split_and!; [|intros c v Hc Hv; by apply (H1 c OACONTROL v)|done].
  intros c a v Hc Hv. by apply (H1 c a v).
Qed.

(** ** Limits *)

(** A load of two registers, on the render ring. *)
Definition load_two (a v : Z) : list Z := [MI_LOAD_REGISTER_IMM 2; OACONTROL; 0; a; v; MI_BATCH_BUFFER_END].

Lemma load_two_batch tables len regs master is_master a v : lri_known tables = true -> OACONTROL ∈ regs ->
  batch tables len regs master is_master false [[MI_LOAD_REGISTER_IMM 2; OACONTROL; 0; a; v]] (load_two a v) false.
Proof.
  intros Hl%andb_prop Hoa. destruct Hl as [Hin%bool_decide_eq_true _].
  eapply (batch_cmd _ _ _ _ _ _ false _ _ [OACONTROL; 0; a; v] [] [MI_BATCH_BUFFER_END] lri_desc); try done.
  - by apply describes_known.
  - split; try done. intros _. exists OACONTROL. split_and!; [done|by left|done].
  - exists OACONTROL. split; [done|]. by exists 0.
  - constructor.
Qed.

(** Of an immediate load of several registers only the first is checked: on the
    render ring a load of OACONTROL with 0 and of any register with any value is
    accepted, whoever submits it. *)
Theorem second_register_unchecked haswell kmalloc r0 r a v is_master :
  cmd_hash r0 = ∅ -> ring_id r0 = RCS -> i915_cmd_parser_init_ring hash_min true haswell kmalloc r0 = Done (0, r) ->
  loads (load_two a v) = [(OACONTROL, Some 0); (Z.land a 0x007FFFFC, Some v)] /\ i915_parse_cmds hash_min 0 true r (load_two a v) 24 0 is_master = Done 0.
Proof.
  intros Hh Hid Hi. split; [done|]. destruct (init_ring_ok hash_min haswell kmalloc r0 Hh r Hi) as (tables & r1 & Et & _).
  apply (parse_exact haswell kmalloc r0 r tables r1); try done. eexists. split.
  - apply load_two_batch; [by eapply (proj1 (ring_tables_lri _ _ _ _ Et))|]. unfold ring_tables in Et. rewrite Hid in Et. injection Et as <- <-.
    cbn. by apply list_elem_of_In; repeat (try (left; reflexivity); right).
  - done.
Qed.

Definition noop_desc : drm_i915_cmd_descriptor := CMD MI_NOOP STD_MI_OPCODE_MASK true 1 CMD_DESC_SKIP.

Lemma ring_tables_noop haswell r tables r' : ring_tables haswell r = Some (tables, r') -> noop_desc ∈ concat tables.
Proof. unfold ring_tables. destruct (ring_id r), haswell; intros [= <- <-]; cbn; by left. Qed.

Lemma noops_parse r mem is_master oa n fuel batch_end cmd : find_cmd hash_min r MI_NOOP = Some noop_desc -> 0 <= cmd ->
  (forall i, (i < n)%nat -> mem !! (Z.to_nat cmd + i)%nat = Some MI_NOOP) -> cmd + Z.of_nat n <= batch_end ->
  parse_loop hash_min (n + fuel) r mem batch_end is_master cmd oa =
  parse_loop hash_min fuel r mem batch_end is_master (cmd + Z.of_nat n) oa.
Proof.
  intros Hf. revert cmd. induction n as [|n IH]; intros cmd Hc Hm Hb; [by rewrite Z.add_0_r|].
  cbn [Nat.add parse_loop]. destruct (Z.ltb_spec cmd batch_end); [|lia]. cbn [negb]. unfold dword. rewrite Z.add_0_r.
  pose proof (Hm 0%nat ltac:(lia)) as H0. rewrite Nat.add_0_r in H0. rewrite H0. cbn [deref]. mred.
  change (MI_NOOP =? MI_BATCH_BUFFER_END) with false. cbn iota. rewrite Hf. change (cmd_value noop_desc =? MI_BATCH_BUFFER_START) with false. cbn iota.
  change (cmd_length noop_desc MI_NOOP) with 1. destruct (Z.ltb_spec (batch_end - cmd) 1); [lia|].
  change (check_cmd r noop_desc mem cmd is_master oa) with (Done (true, oa)). mred. cbn [negb].
  rewrite IH; [f_equal; lia|lia| |lia]. intros i Hi. rewrite <- (Hm (S i)) by lia. f_equal. lia.
Qed.

Lemma noop_found haswell kmalloc r0 r : cmd_hash r0 = ∅ -> i915_cmd_parser_init_ring hash_min true haswell kmalloc r0 = Done (0, r) ->
  find_cmd hash_min r MI_NOOP = Some noop_desc.
Proof.
  intros Hh Hi. destruct (init_ring_ok hash_min haswell kmalloc r0 Hh r Hi) as (tables & r1 & Et & R & _).
  apply (r_find _ _ _ R). apply describes_known; [by eapply ring_tables_noop|done].
Qed.

Lemma lookup_replicate_head {A} (x : A) n l i : (i < n)%nat -> (replicate n x ++ l) !! i = Some x.
Proof. intros Hi. rewrite lookup_app_l by (rewrite length_replicate; lia). by apply lookup_replicate. Qed.

(** The parser reads words outside the mapping of the batch. The end is computed
    from the start offset instead of from the base, so that a batch of MI_NOOP with
    an offset is read past the object's end; and the register check of a command does
    not look at the command's length, so that a load of OACONTROL of two words at the
    end of the object is too. *)
Theorem parse_reads_beyond haswell kmalloc r0 r n start is_master :
  cmd_hash r0 = ∅ -> i915_cmd_parser_init_ring hash_min true haswell kmalloc r0 = Done (0, r) ->
  (4 <= start /\ start / 4 <= Z.of_nat n ->
   i915_parse_cmds hash_min 0 true r (replicate n MI_NOOP) (4 * Z.of_nat n) start is_master = Oops) /\
  i915_parse_cmds hash_min 0 true r (replicate n MI_NOOP ++ [MI_INSTR 0x22 0; OACONTROL]) (4 * Z.of_nat (n + 2)) 0 is_master = Oops.
Proof.
  intros Hh Hi. pose proof (noop_found haswell kmalloc r0 r Hh Hi) as Hf.
  destruct (init_ring_ok hash_min haswell kmalloc r0 Hh r Hi) as (tables & r1 & Et & R & _).
  unfold i915_parse_cmds. cbn [truth negb Z.eqb]. rewrite !(Z.mul_comm 4), !Z.div_mul by done. split.
  - intros [Hs Hn]. assert (1 <= start / 4) as H1 by (apply Z.div_le_lower_bound; lia).
    replace (S (Z.to_nat (Z.of_nat n))) with ((n - Z.to_nat (start / 4)) + S (Z.to_nat (start / 4)))%nat by lia.
    rewrite noops_parse; [|done|lia| |lia].
    2: { intros i Hlt. rewrite <- (app_nil_r (replicate _ _)). apply lookup_replicate_head. lia. }
    cbn [parse_loop]. destruct (Z.ltb_spec (start / 4 + Z.of_nat (n - Z.to_nat (start / 4))) (start / 4 + Z.of_nat n)); [|lia]. cbn [negb].
    unfold dword. rewrite lookup_ge_None_2; [done|]. rewrite length_replicate. lia.
  - change (0 / 4) with 0. replace (S (Z.to_nat (Z.of_nat (n + 2)))) with (n + 3)%nat by lia. rewrite noops_parse; [|done|lia| |lia].
    2: { intros i Hlt. by apply lookup_replicate_head. }
    cbn [parse_loop]. destruct (Z.ltb_spec (0 + Z.of_nat n) (0 + Z.of_nat (n + 2))); [|lia]. cbn [negb].
    assert (forall o z, z = Z.of_nat o -> dword (replicate n MI_NOOP ++ [MI_INSTR 0x22 0; OACONTROL]) (0 + Z.of_nat n) z = deref ([MI_INSTR 0x22 0; OACONTROL] !! o)) as Hw.
    { intros o z ->. unfold dword. rewrite lookup_app_r by (rewrite length_replicate; lia). do 2 f_equal. rewrite length_replicate. lia. }
    rewrite (Hw 0%nat 0 eq_refl). cbn [lookup list_lookup deref]. mred. change (MI_INSTR 0x22 0 =? MI_BATCH_BUFFER_END) with false. cbn iota.
    rewrite (proj2 (r_find _ _ _ R (MI_INSTR 0x22 0) lri_desc)).
    2: { apply describes_known; [|done]. pose proof (proj1 (ring_tables_lri haswell r0 tables r1 Et)) as Hk. by apply andb_prop in Hk as [Hk%bool_decide_eq_true _]. }
    change (cmd_value lri_desc =? MI_BATCH_BUFFER_START) with false. cbn iota. change (cmd_length lri_desc (MI_INSTR 0x22 0)) with 2.
    destruct (Z.ltb_spec (0 + Z.of_nat (n + 2) - (0 + Z.of_nat n)) 2); [lia|]. unfold check_cmd.
    change (truth (Z.land (flags lri_desc) CMD_DESC_REJECT)) with false. change (truth (Z.land (flags lri_desc) CMD_DESC_MASTER)) with false.
    change (truth (Z.land (flags lri_desc) CMD_DESC_REGISTER)) with true. cbn [andb]. unfold check_register.
    change (reg_offset lri_desc) with 1. rewrite (Hw 1%nat 1 eq_refl). cbn [lookup list_lookup deref]. mred.
    change (Z.land OACONTROL (reg_mask lri_desc) =? OACONTROL) with true. change (cmd_value lri_desc =? MI_LOAD_REGISTER_MEM) with false.
    change (cmd_value lri_desc =? MI_LOAD_REGISTER_IMM 1) with true. cbn [andb]. by rewrite (Hw 2%nat 2 eq_refl).
Qed.

(** The check of the tables' order reads the entry with the number of the table
    instead of the entry of the loop: it accepts a first table in any order, and for
    the blitter of Haswell it reads beyond the two entries of the third table. *)
Theorem sorted_check_wrong_index kmalloc r0 d l : ring_id r0 = BCS -> 0 <= Z.land (cmd_value d) (cmd_mask d) ->
  validate_cmds_sorted [d :: l] = Done true /\ i915_cmd_parser_init_ring hash_min true true kmalloc r0 = Oops.
Proof.
  intros Hid Hd. split.
  - unfold validate_cmds_sorted. cbn [sorted_tables]. set (v := Z.land (cmd_value d) (cmd_mask d)) in *.
    assert (forall n previous, previous <= v -> sorted_entries (d :: l) 0 n previous true = Done true) as Hn; [|by rewrite Hn].
    induction n as [|n IH]; intros previous Hp; [done|]. cbn. fold v. destruct (Z.ltb_spec v previous); [lia|]. apply IH. lia.
  - unfold i915_cmd_parser_init_ring. cbn [negb]. unfold ring_tables. rewrite Hid. reflexivity.
Qed.
End claims.

(** ** Witnesses *)
Module CmdSample.
Definition bucket_of (k : Z) : Z := k mod 512.
Definition rcs0 : intel_engine_cs := MkRing RCS false ∅ [] [] (fun _ => 0).
Definition bcs0 : intel_engine_cs := MkRing BCS false ∅ [] [] (fun _ => 0).
Definition rcs : intel_engine_cs :=
  match i915_cmd_parser_init_ring bucket_of true false (fun _ => true) rcs0 with Done (_, r) => r | _ => rcs0 end.
Definition tables : list (list drm_i915_cmd_descriptor) := gen7_render_cmds.
Definition rcs1 : intel_engine_cs := set_tables gen7_render_regs ivb_master_regs gen7_render_get_cmd_length_mask rcs0.

(** A switch of OACONTROL on and off, and two words behind the batch. *)
Definition batch_words : list Z :=
  [MI_NOOP; MI_LOAD_REGISTER_IMM 1; OACONTROL; 1; MI_LOAD_REGISTER_IMM 1; OACONTROL; 0; MI_BATCH_BUFFER_END; 0; 0].

(** A load of a counter from memory. *)
Definition load_words : list Z :=
  [MI_LOAD_REGISTER_IMM 1; OACONTROL; 0; MI_LOAD_REGISTER_MEM + 1; HS_INVOCATION_COUNT; 0x1000; MI_BATCH_BUFFER_END; 0; 0].

Lemma rcs_ready : i915_cmd_parser_init_ring bucket_of true false (fun _ => true) rcs0 = Done (0, rcs).
Proof.
  unfold rcs. assert (match i915_cmd_parser_init_ring bucket_of true false (fun _ => true) rcs0 with Done (ret, _) => ret =? 0 | _ => false end = true) as H
    by (vm_compute; reflexivity).
  destruct (i915_cmd_parser_init_ring _ _ _ _ _) as [[ret r]| |]; [|discriminate H|discriminate H]. by apply Z.eqb_eq in H as ->.
Qed.
Lemma rcs_tables : ring_tables false rcs0 = Some (tables, rcs1).
Proof. done. Qed.
Lemma batch_accepted : i915_parse_cmds bucket_of 0 true rcs batch_words 32 0 false = Done 0.
Proof. vm_compute. reflexivity. Qed.
Lemma loads_accepted : i915_parse_cmds bucket_of 0 true rcs load_words 28 0 false = Done 0.
Proof. vm_compute. reflexivity. Qed.

(** The immediate loads of the second batch load one register each. *)
Lemma load_words_single cs k c : load_words = concat cs ++ k -> Forall (framed tables (get_cmd_length_mask rcs1)) cs -> c ∈ cs ->
  is_lri (hd 0 c) = true -> length c = 3%nat.
Proof.
  intros E F Hc Hi. rewrite Forall_forall in F. specialize (F c Hc).
  destruct (ring_tables_lri false rcs0 tables rcs1 rcs_tables) as [Hl _]. destruct (ring_tables_fit false rcs0 tables rcs1 rcs_tables) as (Hf & _).
  pose proof (framed_lri tables _ Hf Hl c F Hi) as Hlen.
  assert (hd 0 c ∈ load_words) as Hin.
  { rewrite E. apply elem_of_app. left. apply list_elem_of_In, in_concat. exists c. split; [by apply list_elem_of_In|].
    destruct c as [|h c]; [|by left]. cbn in Hi. vm_compute in Hi. discriminate. }
  assert (forall h, h ∈ load_words -> is_lri h = true -> Z.land h 0xFF = 1) as Hall.
  { intros h Hh. unfold load_words in Hh. repeat (apply elem_of_cons in Hh as [->|Hh]; [vm_compute; congruence|]). by apply not_elem_of_nil in Hh. }
  rewrite (Hall _ Hin Hi) in Hlen. lia.
Qed.
End CmdSample.
Import CmdSample.

Lemma cmd_parser_init_exact_witness : exists ret r, i915_cmd_parser_init_ring bucket_of true false (fun _ => true) rcs0 = Done (ret, r) /\ ret = 0.
Proof.
  destruct (cmd_parser_init_exact bucket_of false (fun _ => true) rcs0) as (ret & r & tables & r1 & H & _ & H0 & _); [done..|].
  exists ret, r. split; [exact H|by apply H0].
Defined.

Lemma parse_accepts_grammar_witness : exists cs,
  batch tables (get_cmd_length_mask rcs1) (reg_table rcs1) (master_reg_table rcs1) false false cs (drop 0 batch_words) false /\ Z.of_nat (length (concat cs)) < 8.
Proof.
  apply (parse_accepts_grammar bucket_of false (fun _ => true) rcs0 rcs tables rcs1 batch_words 32 0 false); [done|exact rcs_ready|exact rcs_tables|lia|lia|exact batch_accepted].
Defined.

Lemma parse_reads_bounded_witness : exists ret, i915_parse_cmds bucket_of 0 true rcs (replicate 10 0xFFFFFFFF) 32 0 true = Done ret /\ (ret = 0 \/ ret = - EINVAL \/ ret = - EACCES).
Proof.
  apply (parse_reads_bounded bucket_of false (fun _ => true) rcs0); [done|exact rcs_ready|lia|lia|]. vm_compute. discriminate.
Defined.

Lemma accepted_batch_registers_witness : exists cs k, load_words = concat cs ++ MI_BATCH_BUFFER_END :: k /\
  (forall c a v, c ∈ cs -> (a, v) ∈ loads c -> a ∈ gen7_render_regs) /\ oa_loaded (concat (loads <$> cs)) false = false.
Proof.
  destruct (accepted_batch_registers bucket_of false (fun _ => true) rcs0 rcs tables rcs1 load_words 28 0 false) as (cs & k & H & F & G);
    [done|exact rcs_ready|exact rcs_tables|lia|lia|exact loads_accepted|].
  destruct G as (G1 & _ & G2); [intros c Hc Hi; by apply (load_words_single cs _ c H F)|].
  exists cs, k. split_and!; [exact H| |exact G2]. intros c a v Hc Hv. destruct (G1 c a v Hc Hv) as [Ha|[Hm _]]; [exact Ha|discriminate Hm].
Defined.

(** The second load leaves OACONTROL on. *)
Lemma second_register_unchecked_witness : oa_loaded (loads (load_two OACONTROL 1)) false = true /\
  i915_parse_cmds bucket_of 0 true rcs (load_two OACONTROL 1) 24 0 false = Done 0.
Proof.
  destruct (second_register_unchecked bucket_of false (fun _ => true) rcs0 rcs OACONTROL 1 false) as [-> H]; [done|done|exact rcs_ready|].
  split; [reflexivity|exact H].
Defined.

Lemma parse_reads_beyond_witness : i915_parse_cmds bucket_of 0 true rcs (replicate 1024 MI_NOOP) 4096 8 true = Oops.
Proof.
  destruct (parse_reads_beyond bucket_of false (fun _ => true) rcs0 rcs 1024 8 true) as [H _]; [done|exact rcs_ready|].
  apply H. split; [lia|vm_compute; discriminate].
Defined.

Lemma sorted_check_wrong_index_witness :
  validate_cmds_sorted [hsw_blt_cmds] = Done true /\ i915_cmd_parser_init_ring bucket_of true true (fun _ => true) bcs0 = Oops.
Proof. apply (sorted_check_wrong_index bucket_of (fun _ => true) bcs0); [done|]. vm_compute. discriminate. Defined.
