(* ===== verification/DrmIrq.v ===== *)
(** * Vertical blanking and its events (drm_irq.c, drm_fops.c)

    Each CRTC has a counter of vertical blanks with a ring of timestamps, a count of
    the users that need its interrupt, and a timer that switches the interrupt off
    when there are none.  User space waits for a value of the counter or asks for an
    event, which is queued at the device until the interrupt handler sends it to the
    event list of its file, from where it is read.

    The driver's callbacks, the clocks of the kernel and the constants of the headers
    are parameters ([vblank_env]); [hw] is the state of the hardware and of time, which
    every callback may move on.  A CRTC's structure is the one of its index; an access
    outside the array, or to the freed array, is [Oops].  A loop that repeats until the
    hardware gives the same answer twice gets [fuel] rounds. *)

From S2P Require Import Prelude.

Definition s64 (x : Z) : Z := (x + 2 ^ 63) mod 2 ^ 64 - 2 ^ 63.

Record timeval := MkTv { tv_sec : Z; tv_usec : Z }.

Class vblank_env := {
  hw : Type;
  (** [struct drm_driver]; the timestamp query takes the CRTC, the allowed error and
      flags and returns its status, the error and the time. *)
  get_vblank_counter : Z -> hw -> Z * hw;
  get_vblank_timestamp : option (Z -> Z -> Z -> hw -> Z * Z * timeval * hw);
  enable_vblank : Z -> hw -> Z * hw;
  disable_vblank : Z -> hw -> hw;
  (** Status, line, pixel, and the times before and after the query. *)
  get_scanout_position : option (Z -> Z -> hw -> Z * Z * Z * Z * Z * hw);
  vgaarb_irq : option (bool -> hw -> hw);
  irq_preinstall : option (hw -> hw);
  irq_postinstall : option (hw -> Z * hw);
  irq_uninstall : option (hw -> hw);
  (** The kernel. *)
  request_irq : Z -> bool -> hw -> Z * hw;
  free_irq : Z -> hw -> hw;
  vga_client_register : bool -> hw -> hw;
  ktime_get : hw -> Z * hw;
  ktime_get_real : hw -> Z * hw;
  ktime_mono_to_real : Z -> hw -> Z * hw;
  ktime_to_timeval : Z -> timeval;
  timeval_to_ns : timeval -> Z;
  (** Parameters of the module. *)
  drm_timestamp_precision : Z;
  drm_timestamp_monotonic : bool;
  drm_vblank_offdelay : Z;
  (** Headers. *)
  DRM_VBLANKTIME_RBSIZE : Z;
  DRM_CALLED_FROM_VBLIRQ : Z;
  DRM_SCANOUTPOS_VALID : Z;
  DRM_SCANOUTPOS_IN_VBLANK : Z;
  DRM_VBLANKTIME_SCANOUTPOS_METHOD : Z;
  DRM_VBLANKTIME_IN_VBLANK : Z;
  DRM_MODE_FLAG_INTERLACE : Z;
  _DRM_VBLANK_TYPES_MASK : Z;
  _DRM_VBLANK_ABSOLUTE : Z;
  _DRM_VBLANK_RELATIVE : Z;
  _DRM_VBLANK_HIGH_CRTC_MASK : Z;
  _DRM_VBLANK_HIGH_CRTC_SHIFT : Z;
  _DRM_VBLANK_EVENT : Z;
  _DRM_VBLANK_NEXTONMISS : Z;
  _DRM_VBLANK_SECONDARY : Z;
  _DRM_VBLANK_SIGNAL : Z;
  _DRM_VBLANK_FLAGS_MASK : Z;
  DRM_EVENT_VBLANK : Z;
  DRM_EVENT_FLIP_COMPLETE : Z;
  _DRM_PRE_MODESET : Z;
  _DRM_POST_MODESET : Z;
  DRM_INST_HANDLER : Z;
  DRM_UNINST_HANDLER : Z;
  sizeof_event : Z;
  EINTR : Z;
  EFAULT : Z;
  fuel : nat;
}.

Definition DRM_TIMESTAMP_MAXRETRIES : nat := 3.
Definition DRM_REDUNDANT_VBLIRQ_THRESH_NS : Z := 1000000.

(** ** State *)

(** [struct drm_vblank_crtc]; [timer] tells whether the timer is armed. *)
Record drm_vblank_crtc := MkVblank {
  time : list timeval; count : Z; refcount : Z; last : Z; last_wait : Z; inmodeset : Z; enabled : bool; timer : bool;
}.

(** An event with its [struct drm_event_vblank]. *)
Record drm_pending_vblank_event := MkEvent {
  pipe : Z; file_priv : Z; e_type : Z; user_data : Z; sequence : Z; e_sec : Z; e_usec : Z;
}.

Record drm_file := MkFile { event_space : Z; event_list : list drm_pending_vblank_event }.

Record drm_device := MkDev {
  num_crtcs : Z; vblank : list drm_vblank_crtc; vblank_disable_allowed : bool; irq_enabled : bool; irq : Z;
  vblank_event_list : list drm_pending_vblank_event; files : gmap Z drm_file;
  vblank_disable_immediate : bool; max_vblank_count : Z;
  have_irq : bool; irq_shared : bool; driver_modeset : bool; dev_private : bool; pdev_irq : option Z; if_version_old : bool;
}.

Definition with_time (l : list timeval) (v : drm_vblank_crtc) : drm_vblank_crtc :=
  MkVblank l (count v) (refcount v) (last v) (last_wait v) (inmodeset v) (enabled v) (timer v).
Definition with_count (x : Z) (v : drm_vblank_crtc) : drm_vblank_crtc :=
  MkVblank (time v) x (refcount v) (last v) (last_wait v) (inmodeset v) (enabled v) (timer v).
Definition with_refcount (x : Z) (v : drm_vblank_crtc) : drm_vblank_crtc :=
  MkVblank (time v) (count v) x (last v) (last_wait v) (inmodeset v) (enabled v) (timer v).
Definition with_last (x : Z) (v : drm_vblank_crtc) : drm_vblank_crtc :=
  MkVblank (time v) (count v) (refcount v) x (last_wait v) (inmodeset v) (enabled v) (timer v).
Definition with_last_wait (x : Z) (v : drm_vblank_crtc) : drm_vblank_crtc :=
  MkVblank (time v) (count v) (refcount v) (last v) x (inmodeset v) (enabled v) (timer v).
Definition with_inmodeset (x : Z) (v : drm_vblank_crtc) : drm_vblank_crtc :=
  MkVblank (time v) (count v) (refcount v) (last v) (last_wait v) x (enabled v) (timer v).
Definition with_enabled (b : bool) (v : drm_vblank_crtc) : drm_vblank_crtc :=
  MkVblank (time v) (count v) (refcount v) (last v) (last_wait v) (inmodeset v) b (timer v).
Definition with_timer (b : bool) (v : drm_vblank_crtc) : drm_vblank_crtc :=
  MkVblank (time v) (count v) (refcount v) (last v) (last_wait v) (inmodeset v) (enabled v) b.

Definition set_array (n : Z) (l : list drm_vblank_crtc) (d : drm_device) : drm_device :=
  MkDev n l (vblank_disable_allowed d) (irq_enabled d) (irq d) (vblank_event_list d) (files d) (vblank_disable_immediate d) (max_vblank_count d)
    (have_irq d) (irq_shared d) (driver_modeset d) (dev_private d) (pdev_irq d) (if_version_old d).
Definition set_allowed (b : bool) (d : drm_device) : drm_device :=
  MkDev (num_crtcs d) (vblank d) b (irq_enabled d) (irq d) (vblank_event_list d) (files d) (vblank_disable_immediate d) (max_vblank_count d)
    (have_irq d) (irq_shared d) (driver_modeset d) (dev_private d) (pdev_irq d) (if_version_old d).
Definition set_irq (b : bool) (n : Z) (d : drm_device) : drm_device :=
  MkDev (num_crtcs d) (vblank d) (vblank_disable_allowed d) b n (vblank_event_list d) (files d) (vblank_disable_immediate d) (max_vblank_count d)
    (have_irq d) (irq_shared d) (driver_modeset d) (dev_private d) (pdev_irq d) (if_version_old d).
Definition set_events (l : list drm_pending_vblank_event) (d : drm_device) : drm_device :=
  MkDev (num_crtcs d) (vblank d) (vblank_disable_allowed d) (irq_enabled d) (irq d) l (files d) (vblank_disable_immediate d) (max_vblank_count d)
    (have_irq d) (irq_shared d) (driver_modeset d) (dev_private d) (pdev_irq d) (if_version_old d).
Definition set_files (m : gmap Z drm_file) (d : drm_device) : drm_device :=
  MkDev (num_crtcs d) (vblank d) (vblank_disable_allowed d) (irq_enabled d) (irq d) (vblank_event_list d) m (vblank_disable_immediate d) (max_vblank_count d)
    (have_irq d) (irq_shared d) (driver_modeset d) (dev_private d) (pdev_irq d) (if_version_old d).

(** ** The monad of the routines: the device, the hardware, and failure *)
Section irq.
Context {Env : vblank_env}.

Definition st : Type := drm_device * hw.
Definition io (A : Type) : Type := st -> run (A * st).

#[export] Instance io_ret : MRet io := fun A a s => Done (a, s).
#[export] Instance io_bind : MBind io := fun A B k c s =>
  match c s with Done (a, s) => k a s | Oops => Oops | Loops => Loops end.

Definition call {A} (f : hw -> A * hw) : io A := fun s => Done ((f s.2).1, (s.1, (f s.2).2)).
Definition call_ (f : hw -> hw) : io unit := fun s => Done (tt, (s.1, f s.2)).
Definition dev : io drm_device := fun s => Done (s.1, s).
Definition mod_dev (f : drm_device -> drm_device) : io unit := fun s => Done (tt, (f s.1, s.2)).

(** [dev->vblank[crtc]]. *)
Definition vb_lookup (d : drm_device) (crtc : Z) : option drm_vblank_crtc :=
  if crtc <? 0 then None else vblank d !! Z.to_nat crtc.
Definition vb (crtc : Z) : io drm_vblank_crtc := fun s =>
  match vb_lookup s.1 crtc with Some v => Done (v, s) | None => Oops end.
Definition set_vb (crtc : Z) (v : drm_vblank_crtc) (d : drm_device) : drm_device :=
  set_array (num_crtcs d) (<[Z.to_nat crtc := v]> (vblank d)) d.
Definition mod_vb (crtc : Z) (f : drm_vblank_crtc -> drm_vblank_crtc) : io unit :=
  v ← vb crtc; mod_dev (set_vb crtc (f v)).

Definition file (f : Z) : io drm_file := fun s =>
  match files s.1 !! f with Some x => Done (x, s) | None => Oops end.
Definition set_file (f : Z) (x : drm_file) : io unit := mod_dev (fun d => set_files (<[f := x]> (files d)) d).

(** ** Timestamps *)
Definition slot (n : Z) : nat := Z.to_nat (u32 n mod DRM_VBLANKTIME_RBSIZE).
Definition zero_time : timeval := MkTv 0 0.
Definition vblanktimestamp (v : drm_vblank_crtc) (n : Z) : timeval := nth (slot n) (time v) zero_time.
Definition set_vblanktimestamp (n : Z) (t : timeval) (v : drm_vblank_crtc) : drm_vblank_crtc := with_time (<[slot n := t]> (time v)) v.

Definition get_drm_timestamp : io timeval :=
  now ← call (if drm_timestamp_monotonic then ktime_get else ktime_get_real); mret (ktime_to_timeval now).

Definition drm_get_last_vbltimestamp (crtc flags : Z) : io (bool * timeval) :=
  let max_error := s32 (s32 drm_timestamp_precision * 1000) in
  r ← match get_vblank_timestamp with
    | Some query =>
      if 0 <? max_error then
        '(ret, _, t) ← call (query crtc max_error flags); mret (if 0 <? ret then Some t else None)
      else mret None
    | None => mret None
    end;
  match r with
  | Some t => mret (true, t)
  | None => t ← get_drm_timestamp; mret (false, t)
  end.

(** ** The counter *)

(** The [do] loop of [drm_update_vblank_count]. *)
Fixpoint read_counter (n : nat) (crtc : Z) : io (Z * bool * timeval) :=
  match n with
  | O => fun _ => Loops
  | S n =>
    cur_vblank ← call (get_vblank_counter crtc);
    '(rc, t_vblank) ← drm_get_last_vbltimestamp crtc 0;
    again ← call (get_vblank_counter crtc);
    if cur_vblank =? again then mret (cur_vblank, rc, t_vblank) else read_counter n crtc
  end.

Definition drm_update_vblank_count (crtc : Z) : io unit :=
  '(cur_vblank, rc, t_vblank) ← read_counter fuel crtc;
  d ← dev;
  v ← vb crtc;
  let diff := u32 (cur_vblank - last v) in
  let diff := if cur_vblank <? last v then u32 (diff + max_vblank_count d) else diff in
  if diff =? 0 then mret tt
  else
    (if rc : bool then mod_vb crtc (set_vblanktimestamp (u32 (count v + diff)) t_vblank) else mret tt);;
    mod_vb crtc (fun v => with_count (u32 (count v + diff)) v).

(** The [do] loop of [vblank_disable_and_save]: what is left of [count], and the time. *)
Fixpoint save_counter (count : nat) (crtc : Z) : io (nat * bool * timeval) :=
  match count with
  | O => fun _ => Loops
  | S n =>
    l ← call (get_vblank_counter crtc);
    mod_vb crtc (with_last l);;
    '(vblrc, tvblank) ← drm_get_last_vbltimestamp crtc 0;
    again ← call (get_vblank_counter crtc);
    if l =? again then mret (count, vblrc, tvblank)
    else match n with
         | O => mret (O, vblrc, tvblank)
         | S _ => if vblrc : bool then save_counter n crtc else mret (n, vblrc, tvblank)
         end
  end.

(** The vblank of [tvblank] is a new one: count it. *)
Definition count_vblank (crtc : Z) (tvblank : timeval) : io unit :=
  v ← vb crtc;
  mod_vb crtc (set_vblanktimestamp (count v + 1) tvblank);;
  mod_vb crtc (fun v => with_count (u32 (count v + 1)) v).

Definition new_vblank (v : drm_vblank_crtc) (tvblank : timeval) : bool :=
  DRM_REDUNDANT_VBLIRQ_THRESH_NS <? Z.abs (s64 (timeval_to_ns tvblank - timeval_to_ns (vblanktimestamp v (count v)))).

Definition vblank_disable_and_save (crtc : Z) : io unit :=
  v ← vb crtc;
  early ← (if negb (enabled v) then '(precise, _) ← drm_get_last_vbltimestamp crtc 0; mret precise else mret false);
  if early : bool then drm_update_vblank_count crtc
  else
    call_ (disable_vblank crtc);;
    mod_vb crtc (with_enabled false);;
    '(n, vblrc, tvblank) ← save_counter DRM_TIMESTAMP_MAXRETRIES crtc;
    let vblrc := match n with O => false | S _ => vblrc end in
    v ← vb crtc;
    if vblrc && new_vblank v tvblank then count_vblank crtc tvblank else mret tt.

Definition vblank_disable_fn (crtc : Z) : io unit :=
  d ← dev;
  if negb (vblank_disable_allowed d) then mret tt
  else
    v ← vb crtc;
    if (refcount v =? 0) && enabled v then vblank_disable_and_save crtc else mret tt.

Definition drm_vblank_count (crtc : Z) : io Z :=
  d ← dev;
  if num_crtcs d <=? crtc then mret 0 else v ← vb crtc; mret (count v).

Definition drm_vblank_count_and_time (crtc : Z) : io (Z * timeval) :=
  d ← dev;
  if num_crtcs d <=? crtc then mret (0, zero_time)
  else v ← vb crtc; mret (count v, vblanktimestamp v (count v)).

(** ** References *)
Definition drm_vblank_enable (crtc : Z) : io Z :=
  v ← vb crtc;
  if negb (enabled v) then
    ret ← call (enable_vblank crtc);
    (if truth ret then mod_vb crtc (fun v => with_refcount (s32 (refcount v - 1)) v)
     else mod_vb crtc (with_enabled true);; drm_update_vblank_count crtc);;
    mret ret
  else mret 0.

Definition drm_vblank_get (crtc : Z) : io Z :=
  d ← dev;
  if num_crtcs d <=? crtc then mret (- EINVAL)
  else
    mod_vb crtc (fun v => with_refcount (s32 (refcount v + 1)) v);;
    v ← vb crtc;
    if refcount v =? 1 then drm_vblank_enable crtc
    else if negb (enabled v) then mod_vb crtc (fun v => with_refcount (s32 (refcount v - 1)) v);; mret (- EINVAL)
    else mret 0.

Definition drm_vblank_put (crtc : Z) : io unit :=
  v ← vb crtc;
  d ← dev;
  if refcount v =? 0 then mret tt
  else if num_crtcs d <=? crtc then mret tt
  else
    mod_vb crtc (fun v => with_refcount (s32 (refcount v - 1)) v);;
    v ← vb crtc;
    if refcount v =? 0 then
      if drm_vblank_offdelay =? 0 then mret tt
      else if vblank_disable_immediate d || (drm_vblank_offdelay <? 0) then vblank_disable_fn crtc
      else mod_vb crtc (with_timer true)
    else mret tt.

(** ** Events *)
Definition send_vblank_event (e : drm_pending_vblank_event) (seq : Z) (now : timeval) : io unit :=
  let e := MkEvent (pipe e) (file_priv e) (e_type e) (user_data e) (u32 seq) (u32 (tv_sec now)) (u32 (tv_usec now)) in
  f ← file (file_priv e);
  set_file (file_priv e) (MkFile (event_space f) (event_list f ++ [e])).

Definition with_pipe (p : Z) (e : drm_pending_vblank_event) : drm_pending_vblank_event :=
  MkEvent p (file_priv e) (e_type e) (user_data e) (sequence e) (e_sec e) (e_usec e).

Definition drm_send_vblank_event (crtc : Z) (e : drm_pending_vblank_event) : io unit :=
  '(seq, now) ← (if 0 <=? crtc then drm_vblank_count_and_time crtc else now ← get_drm_timestamp; mret (0, now));
  send_vblank_event (with_pipe crtc e) seq now.

(** Takes the events that [due] selects off the device's list, one after the other,
    gives up their references and sends them. *)
Fixpoint send_events (due : drm_pending_vblank_event -> bool) (seq : Z) (now : timeval) (before l : list drm_pending_vblank_event) : io unit :=
  match l with
  | [] => mret tt
  | e :: l =>
    if due e then
      mod_dev (set_events (before ++ l));;
      drm_vblank_put (pipe e);;
      send_vblank_event e seq now;;
      send_events due seq now before l
    else send_events due seq now (before ++ [e]) l
  end.

(** The counter [seq] has reached [target]. *)
Definition passed (seq target : Z) : bool := u32 (seq - target) <=? Z.shiftl 1 23.

Definition drm_handle_vblank_events (crtc : Z) : io unit :=
  '(seq, now) ← drm_vblank_count_and_time crtc;
  d ← dev;
  send_events (fun e => (pipe e =? crtc) && passed seq (sequence e)) seq now [] (vblank_event_list d).

Definition drm_handle_vblank (crtc : Z) : io bool :=
  d ← dev;
  if num_crtcs d =? 0 then mret false
  else if num_crtcs d <=? crtc then mret false
  else
    v ← vb crtc;
    if negb (enabled v) then mret false
    else
      '(_, tvblank) ← drm_get_last_vbltimestamp crtc DRM_CALLED_FROM_VBLIRQ;
      (if new_vblank v tvblank then count_vblank crtc tvblank else mret tt);;
      drm_handle_vblank_events crtc;;
      mret true.

(** ** Mode setting *)
Definition drm_vblank_off (crtc : Z) : io unit :=
  d ← dev;
  if num_crtcs d <=? crtc then mret tt
  else
    vblank_disable_and_save crtc;;
    v ← vb crtc;
    (if inmodeset v =? 0 then mod_vb crtc (fun v => with_inmodeset 1 (with_refcount (s32 (refcount v + 1)) v)) else mret tt);;
    '(seq, now) ← drm_vblank_count_and_time crtc;
    d ← dev;
    send_events (fun e => pipe e =? crtc) seq now [] (vblank_event_list d).

Definition drm_vblank_on (crtc : Z) : io unit :=
  d ← dev;
  if num_crtcs d <=? crtc then mret tt
  else
    v ← vb crtc;
    (if negb (inmodeset v =? 0) then mod_vb crtc (fun v => with_inmodeset 0 (with_refcount (s32 (refcount v - 1)) v)) else mret tt);;
    c ← call (get_vblank_counter crtc);
    mod_vb crtc (with_last (Z.land (u32 (c - 1)) (max_vblank_count d)));;
    v ← vb crtc;
    if negb (refcount v =? 0) || (negb (vblank_disable_immediate d) && (drm_vblank_offdelay =? 0))
    then drm_vblank_enable crtc;; mret tt
    else mret tt.

Definition drm_vblank_pre_modeset (crtc : Z) : io unit :=
  d ← dev;
  if num_crtcs d =? 0 then mret tt
  else if num_crtcs d <=? crtc then mret tt
  else
    v ← vb crtc;
    if inmodeset v =? 0 then
      mod_vb crtc (with_inmodeset 1);;
      ret ← drm_vblank_get crtc;
      if ret =? 0 then mod_vb crtc (fun v => with_inmodeset (Z.lor (inmodeset v) 2) v) else mret tt
    else mret tt.

Definition drm_vblank_post_modeset (crtc : Z) : io unit :=
  d ← dev;
  if num_crtcs d =? 0 then mret tt
  else
    v ← vb crtc;
    if negb (inmodeset v =? 0) then
      mod_dev (set_allowed true);;
      (if truth (Z.land (inmodeset v) 2) then drm_vblank_put crtc else mret tt);;
      mod_vb crtc (with_inmodeset 0)
    else mret tt.

Definition drm_modeset_ctl (crtc cmd : Z) : io Z :=
  d ← dev;
  if num_crtcs d =? 0 then mret 0
  else if driver_modeset d then mret 0
  else if num_crtcs d <=? crtc then mret (- EINVAL)
  else if cmd =? _DRM_PRE_MODESET then drm_vblank_pre_modeset crtc;; mret 0
  else if cmd =? _DRM_POST_MODESET then drm_vblank_post_modeset crtc;; mret 0
  else mret (- EINVAL).

(** ** The ioctl *)

(** [union drm_wait_vblank]: request and reply share the type and the sequence, and
    the user's data is the place of the seconds. *)
Record vblwait := MkWait { w_type : Z; w_sequence : Z; w_signal : Z; w_usec : Z }.
Definition w_set_sequence (x : Z) (w : vblwait) : vblwait := MkWait (w_type w) x (w_signal w) (w_usec w).

(** [kzalloc] tells whether there is memory. *)
Definition drm_queue_vblank_event (kzalloc : bool) (crtc : Z) (w : vblwait) (f : Z) : io (Z * vblwait) :=
  if negb kzalloc then drm_vblank_put crtc;; mret (- ENOMEM, w)
  else
    let e := MkEvent crtc f DRM_EVENT_VBLANK (w_signal w) 0 0 0 in
    v ← vb crtc;
    if negb (enabled v) then drm_vblank_put crtc;; mret (- EINVAL, w)
    else
      x ← file f;
      if ul (event_space x) <? sizeof_event then drm_vblank_put crtc;; mret (- EBUSY, w)
      else
        set_file f (MkFile (s32 (event_space x - sizeof_event)) (event_list x));;
        '(seq, now) ← drm_vblank_count_and_time crtc;
        let w := if truth (Z.land (w_type w) _DRM_VBLANK_NEXTONMISS) && passed seq (w_sequence w)
                 then w_set_sequence (u32 (seq + 1)) w else w in
        let e := MkEvent crtc f DRM_EVENT_VBLANK (w_signal w) (w_sequence w) 0 0 in
        if passed seq (w_sequence w) then
          drm_vblank_put crtc;;
          send_vblank_event e seq now;;
          mret (0, w_set_sequence seq w)
        else
          mod_dev (fun d => set_events (vblank_event_list d ++ [e]) d);;
          mret (0, w).

(** Up to the wait: a result, or the CRTC, the flags and the counter. *)
Definition wait_begin (w : vblwait) : io (Z + Z * Z * Z * vblwait) :=
  d ← dev;
  if negb (irq_enabled d) then mret (inl (- EINVAL))
  else if truth (Z.land (w_type w) _DRM_VBLANK_SIGNAL) then mret (inl (- EINVAL))
  else if truth (Z.land (w_type w) (Z.lnot (Z.lor (Z.lor _DRM_VBLANK_TYPES_MASK _DRM_VBLANK_FLAGS_MASK) _DRM_VBLANK_HIGH_CRTC_MASK)))
  then mret (inl (- EINVAL))
  else
    let flags := Z.land (w_type w) _DRM_VBLANK_FLAGS_MASK in
    let high_crtc := Z.land (w_type w) _DRM_VBLANK_HIGH_CRTC_MASK in
    let crtc := if truth high_crtc then Z.shiftr high_crtc _DRM_VBLANK_HIGH_CRTC_SHIFT
                else if truth (Z.land flags _DRM_VBLANK_SECONDARY) then 1 else 0 in
    if num_crtcs d <=? crtc then mret (inl (- EINVAL))
    else
      ret ← drm_vblank_get crtc;
      if truth ret then mret (inl ret)
      else
        seq ← drm_vblank_count crtc;
        let type := Z.land (w_type w) _DRM_VBLANK_TYPES_MASK in
        if type =? _DRM_VBLANK_RELATIVE then
          mret (inr (crtc, flags, seq, MkWait (Z.land (w_type w) (Z.lnot _DRM_VBLANK_RELATIVE)) (u32 (w_sequence w + seq)) (w_signal w) (w_usec w)))
        else if type =? _DRM_VBLANK_ABSOLUTE then mret (inr (crtc, flags, seq, w))
        else drm_vblank_put crtc;; mret (inl (- EINVAL)).

(** The wait of a process that asked for no event, before and after [DRM_WAIT_ON]. *)
Definition wait_target (flags seq : Z) (w : vblwait) : vblwait :=
  if truth (Z.land flags _DRM_VBLANK_NEXTONMISS) && passed seq (w_sequence w) then w_set_sequence (u32 (seq + 1)) w else w.

(** The condition it waits for. *)
Definition wait_over (d : drm_device) (crtc : Z) (w : vblwait) : bool :=
  match vb_lookup d crtc with
  | Some v => passed (count v) (w_sequence w) || negb (enabled v) || negb (irq_enabled d)
  | None => true
  end.

Definition wait_end (crtc ret : Z) (w : vblwait) : io (Z * vblwait) :=
  w ← (if negb (ret =? - EINTR) then
       '(seq, now) ← drm_vblank_count_and_time crtc;
       mret (MkWait (w_type w) seq (tv_sec now) (tv_usec now))
     else mret w);
  drm_vblank_put crtc;;
  mret (ret, w).

(** [sleep] is [DRM_WAIT_ON]: everything that happens until the condition holds, the
    time is over or a signal comes, and its result. *)
Definition drm_wait_vblank (sleep : Z -> vblwait -> io Z) (kzalloc : bool) (w : vblwait) (f : Z) : io (Z * vblwait) :=
  r ← wait_begin w;
  match r with
  | inl ret => mret (ret, w)
  | inr (crtc, flags, seq, w) =>
    if truth (Z.land flags _DRM_VBLANK_EVENT) then drm_queue_vblank_event kzalloc crtc w f
    else
      let w := wait_target flags seq w in
      mod_vb crtc (with_last_wait (w_sequence w));;
      ret ← sleep crtc w;
      wait_end crtc ret w
  end.

(** [sleep] returns whether the counter moved in time. *)
Definition drm_wait_one_vblank (sleep : Z -> Z -> io bool) (crtc : Z) : io unit :=
  ret ← drm_vblank_get crtc;
  if truth ret then mret tt
  else
    l ← drm_vblank_count crtc;
    _ ← sleep crtc l;
    drm_vblank_put crtc.

(** ** Files (drm_fops.c) *)
Definition drm_dequeue_event (f total max : Z) : io (option drm_pending_vblank_event) :=
  x ← file f;
  match event_list x with
  | [] => mret None
  | e :: l =>
    if max <? sizeof_event + total then mret None
    else set_file f (MkFile (s32 (event_space x + sizeof_event)) l);; mret (Some e)
  end.

(** The loop of [drm_read]: [copy] tells whether the copy of an event succeeds. The
    events that were copied, and the result. *)
Fixpoint read_loop (n : nat) (copy : drm_pending_vblank_event -> bool) (f total max : Z) : io (list drm_pending_vblank_event * Z) :=
  match n with
  | O => fun _ => Loops
  | S n =>
    r ← drm_dequeue_event f total max;
    match r with
    | None => mret ([], total)
    | Some e =>
      if negb (copy e) then mret ([], - EFAULT)
      else '(l, ret) ← read_loop n copy f (total + sizeof_event) max; mret (e :: l, ret)
    end
  end.

(** [wait] is the result of waiting for an event when the file is blocking. *)
Definition drm_read (nonblock : bool) (wait : Z) (copy : drm_pending_vblank_event -> bool) (f max : Z) : io (list drm_pending_vblank_event * Z) :=
  if negb nonblock && (wait <? 0) then mret ([], wait)
  else
    x ← file f;
    '(l, total) ← read_loop (S (length (event_list x))) copy f 0 max;
    mret (l, if truth total then total else - EAGAIN).

Definition drm_poll (f : Z) : io bool :=
  x ← file f; mret (match event_list x with [] => false | _ => true end).

(** The device's events of the file, one after the other. *)
Fixpoint drop_events (f : Z) (before l : list drm_pending_vblank_event) : io unit :=
  match l with
  | [] => mret tt
  | e :: l =>
    if file_priv e =? f then mod_dev (set_events (before ++ l));; drm_vblank_put (pipe e);; drop_events f before l
    else drop_events f (before ++ [e]) l
  end.

Definition drm_events_release (f : Z) : io unit :=
  d ← dev;
  drop_events f [] (vblank_event_list d);;
  x ← file f;
  set_file f (MkFile (event_space x) []).

(** The event of a page flip (drm_crtc.c): reserved before the driver is asked, and
    given back when it refuses. *)
Definition flip_event (kzalloc : bool) (data f : Z) : io (Z + drm_pending_vblank_event) :=
  x ← file f;
  if ul (event_space x) <? sizeof_event then mret (inl (- ENOMEM))
  else
    set_file f (MkFile (s32 (event_space x - sizeof_event)) (event_list x));;
    if negb kzalloc then
      x ← file f;
      set_file f (MkFile (s32 (event_space x + sizeof_event)) (event_list x));; mret (inl (- ENOMEM))
    else mret (inr (MkEvent 0 f DRM_EVENT_FLIP_COMPLETE data 0 0 0)).

Definition flip_refused (f : Z) : io unit :=
  x ← file f; set_file f (MkFile (s32 (event_space x + sizeof_event)) (event_list x)).

(** ** Set-up *)
Definition new_vblank_crtc : drm_vblank_crtc :=
  MkVblank (replicate (Z.to_nat DRM_VBLANKTIME_RBSIZE) zero_time) 0 0 0 0 0 false false.

(** [kcalloc] tells whether there is memory. *)
Definition drm_vblank_init (kcalloc : bool) (n : Z) : io Z :=
  if negb kcalloc then mod_dev (set_array 0 []);; mret (- ENOMEM)
  else
    mod_dev (set_array n (replicate (Z.to_nat n) new_vblank_crtc));;
    mod_dev (set_allowed false);;
    mret 0.

Fixpoint cleanup_loop (n : nat) (crtc : Z) : io unit :=
  match n with
  | O => mret tt
  | S n => mod_vb crtc (with_timer false);; vblank_disable_and_save crtc;; cleanup_loop n (crtc + 1)
  end.

Definition drm_vblank_cleanup : io unit :=
  d ← dev;
  if num_crtcs d =? 0 then mret tt
  else cleanup_loop (Z.to_nat (num_crtcs d)) 0;; mod_dev (set_array 0 []).

Definition drm_irq_vgaarb_nokms (state : bool) : io unit :=
  match vgaarb_irq with
  | Some f => call_ (f state)
  | None =>
    d ← dev;
    if negb (irq_enabled d) then mret tt
    else if state then match irq_uninstall with Some f => call_ f | None => mret tt end
    else
      match irq_preinstall with Some f => call_ f | None => mret tt end;;
      match irq_postinstall with Some f => _ ← call f; mret tt | None => mret tt end
  end.

Definition drm_irq_install (n : Z) : io Z :=
  d ← dev;
  if negb (have_irq d) then mret (- EINVAL)
  else if n =? 0 then mret (- EINVAL)
  else if negb (dev_private d) then mret (- EINVAL)
  else if irq_enabled d then mret (- EBUSY)
  else
    mod_dev (fun d => set_irq true (irq d) d);;
    match irq_preinstall with Some f => call_ f | None => mret tt end;;
    ret ← call (request_irq n (irq_shared d));
    if ret <? 0 then mod_dev (fun d => set_irq false (irq d) d);; mret ret
    else
      (if negb (driver_modeset d) then call_ (vga_client_register true) else mret tt);;
      ret ← match irq_postinstall with Some f => call f | None => mret ret end;
      if ret <? 0 then
        mod_dev (fun d => set_irq false (irq d) d);;
        (if negb (driver_modeset d) then call_ (vga_client_register false) else mret tt);;
        call_ (free_irq n);;
        mret ret
      else mod_dev (fun d => set_irq (irq_enabled d) n d);; mret ret.

(** The CRTCs lose their interrupts. *)
Fixpoint uninstall_loop (n : nat) (crtc : Z) : io unit :=
  match n with
  | O => mret tt
  | S n =>
    mod_vb crtc (with_enabled false);;
    c ← call (get_vblank_counter crtc);
    mod_vb crtc (with_last c);;
    uninstall_loop n (crtc + 1)
  end.

Definition drm_irq_uninstall : io Z :=
  d ← dev;
  if negb (have_irq d) then mret (- EINVAL)
  else
    mod_dev (fun d => set_irq false (irq d) d);;
    uninstall_loop (Z.to_nat (num_crtcs d)) 0;;
    if negb (irq_enabled d) then mret (- EINVAL)
    else
      (if negb (driver_modeset d) then call_ (vga_client_register false) else mret tt);;
      match irq_uninstall with Some f => call_ f | None => mret tt end;;
      call_ (free_irq (irq d));;
      mret 0.

Definition drm_control (func n : Z) : io Z :=
  d ← dev;
  if negb (have_irq d) then mret 0
  else if driver_modeset d then mret 0
  else match pdev_irq d with
  | None => mret (- EINVAL)
  | Some p =>
    if func =? DRM_INST_HANDLER then
      if if_version_old d && negb (n =? p) then mret (- EINVAL) else drm_irq_install p
    else if func =? DRM_UNINST_HANDLER then drm_irq_uninstall
    else mret (- EINVAL)
  end.

(** ** Timestamps from the scanout position *)

(** The timings of a mode that the computation uses. *)
Record crtc_mode := MkMode { crtc_clock : Z; crtc_htotal : Z; crtc_vtotal : Z; mode_flags : Z }.

(** Durations of a pixel, a line and a frame. *)
Definition drm_calc_timestamping_constants (mode : crtc_mode) : Z * Z * Z :=
  if 0 <? crtc_clock mode then
    let frame_size := s32 (crtc_htotal mode * crtc_vtotal mode) in
    let framedur_ns := s32 (ul (ul frame_size * 1000000) / crtc_clock mode) in
    (1000000 / crtc_clock mode, s32 (ul (ul (crtc_htotal mode) * 1000000) / crtc_clock mode),
     if truth (Z.land (mode_flags mode) DRM_MODE_FLAG_INTERLACE) then Z.quot framedur_ns 2 else framedur_ns)
  else (0, 0, 0).

(** The loop over the queries of the position: an error, or status, position, duration
    and the time after the query. *)
Fixpoint scanout_loop (n : nat) (query : Z -> Z -> hw -> Z * Z * Z * Z * Z * hw) (crtc flags max_error : Z)
    : io (Z + Z * Z * Z * Z * Z) :=
  match n with
  | O => fun _ => Loops
  | S n =>
    '(vbl_status, vpos, hpos, stime, etime) ← call (query crtc flags);
    if negb (truth (Z.land vbl_status DRM_SCANOUTPOS_VALID)) then mret (inl (- EIO))
    else
      let duration_ns := s32 (etime - stime) in
      if duration_ns <=? max_error then mret (inr (vbl_status, vpos, hpos, duration_ns, etime))
      else match n with
           | O => mret (inr (vbl_status, vpos, hpos, duration_ns, etime))
           | S _ => scanout_loop n query crtc flags max_error
           end
  end.

Definition drm_calc_vbltimestamp_from_scanoutpos (crtc max_error flags : Z) (refcrtc : Z * Z * Z) : io (Z * Z * option timeval) :=
  d ← dev;
  let '(pixeldur_ns, linedur_ns, framedur_ns) := refcrtc in
  if (crtc <? 0) || (num_crtcs d <=? crtc) then mret (- EINVAL, max_error, None)
  else match get_scanout_position with
  | None => mret (- EIO, max_error, None)
  | Some query =>
    if framedur_ns =? 0 then mret (- EAGAIN, max_error, None)
    else
      r ← scanout_loop DRM_TIMESTAMP_MAXRETRIES query crtc flags max_error;
      match r with
      | inl ret => mret (ret, max_error, None)
      | inr (vbl_status, vpos, hpos, duration_ns, etime) =>
        let delta_ns := s32 (s32 (vpos * linedur_ns) + s32 (hpos * pixeldur_ns)) in
        etime ← (if negb drm_timestamp_monotonic then call (ktime_mono_to_real etime) else mret etime);
        let etime := if delta_ns <? 0 then etime + - delta_ns else etime - delta_ns in
        mret (Z.lor DRM_VBLANKTIME_SCANOUTPOS_METHOD (if truth (Z.land vbl_status DRM_SCANOUTPOS_IN_VBLANK) then DRM_VBLANKTIME_IN_VBLANK else 0),
              duration_ns, Some (ktime_to_timeval etime))
      end
  end.

(** ** The functions that take a CRTC's object

    [crtcs] are the CRTCs of the device in the order of its list. *)
Fixpoint drm_crtc_index (crtcs : list Z) (crtc : Z) (index : Z) : io Z :=
  match crtcs with
  | [] => fun _ => Oops
  | tmp :: crtcs => if tmp =? crtc then mret index else drm_crtc_index crtcs crtc (index + 1)
  end.

Definition drm_crtc_vblank_count (crtcs : list Z) (crtc : Z) : io Z := i ← drm_crtc_index crtcs crtc 0; drm_vblank_count i.
Definition drm_crtc_send_vblank_event (crtcs : list Z) (crtc : Z) (e : drm_pending_vblank_event) : io unit :=
  i ← drm_crtc_index crtcs crtc 0; drm_send_vblank_event i e.
Definition drm_crtc_vblank_get (crtcs : list Z) (crtc : Z) : io Z := i ← drm_crtc_index crtcs crtc 0; drm_vblank_get i.
Definition drm_crtc_vblank_put (crtcs : list Z) (crtc : Z) : io unit := i ← drm_crtc_index crtcs crtc 0; drm_vblank_put i.
Definition drm_crtc_wait_one_vblank (sleep : Z -> Z -> io bool) (crtcs : list Z) (crtc : Z) : io unit :=
  i ← drm_crtc_index crtcs crtc 0; drm_wait_one_vblank sleep i.
Definition drm_crtc_vblank_off (crtcs : list Z) (crtc : Z) : io unit := i ← drm_crtc_index crtcs crtc 0; drm_vblank_off i.
Definition drm_crtc_vblank_on (crtcs : list Z) (crtc : Z) : io unit := i ← drm_crtc_index crtcs crtc 0; drm_vblank_on i.
Definition drm_crtc_handle_vblank (crtcs : list Z) (crtc : Z) : io bool := i ← drm_crtc_index crtcs crtc 0; drm_handle_vblank i.
End irq.
