(* ===== verification/DrmIrqSpec.v ===== *)
(** * Vertical blanking: what each routine does to its CRTC

    A weakest precondition for the routines that touch one CRTC's structure only, its
    rules, and the effect of each routine on the counts, whatever the hardware does. *)

From S2P Require Import Prelude Counting DrmIrq.

Lemma set_vb_twice {E : vblank_env} i v v' d : set_vb i v' (set_vb i v d) = set_vb i v' d.
Proof. unfold set_vb, set_array. cbn. by rewrite list_insert_insert_eq. Qed.

Section wp.
Context {Env : vblank_env}.
(** [L] tells whether the run may loop; [d] is the device and [i] the CRTC. *)
Context (L : Prop) (i : Z) (d : drm_device) (Hi : 0 <= i /\ (Z.to_nat i < length (vblank d))%nat).

Definition wp {A} (c : io A) (v : drm_vblank_crtc) (h : hw) (Q : A -> drm_vblank_crtc -> hw -> Prop) : Prop :=
  match c (set_vb i v d, h) with
  | Done (a, s) => exists v' h', s = (set_vb i v' d, h') /\ Q a v' h'
  | Oops => False
  | Loops => L
  end.

Lemma vwp_mono {A} (c : io A) v h Q Q' : wp c v h Q -> (forall a v' h', Q a v' h' -> Q' a v' h') -> wp c v h Q'.
Proof. unfold wp. intros H HQ. destruct (c _) as [[a s]| |]; [|done|done]. destruct H as (v' & h' & E & H). exists v', h'. auto. Qed.

Lemma vwp_ret {A} (a : A) v h Q : Q a v h -> wp (mret a) v h Q.
Proof. intros H. by exists v, h. Qed.

Lemma vwp_bind {A B} (c : io A) (k : A -> io B) v h Q : wp c v h (fun a v' h' => wp (k a) v' h' Q) -> wp (c ≫= k) v h Q.
Proof.
  unfold wp. cbn. unfold mbind, io_bind. destruct (c _) as [[a s]| |]; [|done|done]. by intros (v' & h' & -> & H).
Qed.

Lemma wp_call {A} (f : hw -> A * hw) v h Q : (forall a h', f h = (a, h') -> Q a v h') -> wp (call f) v h Q.
Proof. intros H. unfold wp, call. cbn. destruct (f h) as [a h'] eqn:E. exists v, h'. split; [done|]. by apply H. Qed.

Lemma wp_call_ f v h (Q : unit -> drm_vblank_crtc -> hw -> Prop) : Q tt v (f h) -> wp (call_ f) v h Q.
Proof. intros H. by exists v, (f h). Qed.

Lemma wp_dev v h Q : Q (set_vb i v d) v h -> wp dev v h Q.
Proof. intros H. by exists v, h. Qed.

Lemma lookup_set v : vb_lookup (set_vb i v d) i = Some v.
Proof.
  unfold vb_lookup, set_vb. destruct (Z.ltb_spec i 0); [lia|]. cbn. apply list_lookup_insert_eq, Hi.
Qed.

Lemma wp_vb v h (Q : drm_vblank_crtc -> drm_vblank_crtc -> hw -> Prop) : Q v v h -> wp (vb i) v h Q.
Proof. intros H. unfold wp, vb. cbn [fst]. rewrite lookup_set. by exists v, h. Qed.

Lemma wp_mod f v h (Q : unit -> drm_vblank_crtc -> hw -> Prop) : Q tt (f v) h -> wp (mod_vb i f) v h Q.
Proof.
  intros H. unfold mod_vb. apply vwp_bind, wp_vb. unfold wp, mod_dev. cbn. rewrite set_vb_twice. by exists (f v), h.
Qed.
End wp.

(** Runs a routine up to the next branch. *)
Ltac wp_step :=
  match goal with
  | |- wp _ _ _ (mbind _ _) _ _ _ => apply vwp_bind
  | |- wp _ _ _ (mret _) _ _ _ => apply vwp_ret
  | |- wp _ _ _ (call_ _) _ _ _ => apply wp_call_
  | |- wp _ _ _ (call _) _ _ _ => apply wp_call; let r := fresh "r" in let g := fresh "g" in let E := fresh "Ecall" in intros r g E
  | |- wp _ _ _ dev _ _ _ => apply wp_dev
  | |- wp _ _ _ (vb _) _ _ _ => apply wp_vb; [assumption|]
  | |- wp _ _ _ (mod_vb _ _) _ _ _ => apply wp_mod; [assumption|]
  end.
Ltac wp_run := repeat (wp_step; cbn beta match).

Lemma s32_plus1 r : is_s32 r -> s32 (r + 1) = 1 -> r = 0.
Proof. unfold is_s32, s32. intros. Z.div_mod_to_equations. lia. Qed.

Lemma ref_back v : is_s32 (refcount v) -> with_refcount (s32 (s32 (refcount v + 1) - 1)) (with_refcount (s32 (refcount v + 1)) v) = v.
Proof.
  destruct v as [t c r l lw im en tm]. unfold with_refcount. cbn. intros Hr. f_equal. unfold is_s32, s32 in *. Z.div_mod_to_equations. lia.
Qed.

Section effects.
Context {Env : vblank_env}.
Context (i : Z) (d : drm_device) (Hi : 0 <= i /\ (Z.to_nat i < length (vblank d))%nat).
Notation wpt := (wp True i d).

(** The counter and its timestamps may move on, the rest stays. *)
Record ticked (v v' : drm_vblank_crtc) : Prop := {
  t_refcount : refcount v' = refcount v;
  t_inmodeset : inmodeset v' = inmodeset v;
  t_timer : timer v' = timer v;
  t_time : length (time v') = length (time v);
}.

Lemma ticked_refl v : ticked v v.
Proof. done. Qed.
Lemma ticked_trans v1 v2 v3 : ticked v1 v2 -> ticked v2 v3 -> ticked v1 v3.
Proof. intros [] []. split; congruence. Qed.

Lemma ticked_stamp n t v : ticked v (set_vblanktimestamp n t v).
Proof. split; try done. cbn. apply length_insert. Qed.

Lemma timestamp_ok L flags v h (Q : bool * timeval -> drm_vblank_crtc -> hw -> Prop) :
  (forall r h', Q r v h') -> wp L i d (drm_get_last_vbltimestamp i flags) v h Q.
Proof.
  intros H. unfold drm_get_last_vbltimestamp. apply vwp_bind.
  assert (forall v h (Q : option timeval -> drm_vblank_crtc -> hw -> Prop), (forall r h', Q r v h') -> wp L i d (match get_vblank_timestamp with
    | Some query => if 0 <? s32 (s32 drm_timestamp_precision * 1000) then
        '(ret, _, t) ← call (query i (s32 (s32 drm_timestamp_precision * 1000)) flags); mret (if 0 <? ret then Some t else None) else mret None
    | None => mret None end) v h Q) as Hq.
  { intros v1 h1 Q1 H1. destruct get_vblank_timestamp as [query|]; [|wp_run; apply H1]. destruct (0 <? _); wp_run; [|apply H1].
    destruct r as [[ret e] t]. wp_run. apply H1. }
  apply Hq. intros [t|] h'; [wp_run; apply H|]. unfold get_drm_timestamp. wp_run. apply H.
Qed.

Lemma read_counter_ok n v h (Q : Z * bool * timeval -> drm_vblank_crtc -> hw -> Prop) :
  (forall r h', Q r v h') -> wpt (read_counter n i) v h Q.
Proof.
  revert h. induction n as [|n IH]; intros h HQ; [done|]. cbn [read_counter]. wp_run.
  apply timestamp_ok. intros [rc t] h'. wp_run. destruct (_ =? _); [wp_run; apply HQ|by apply IH].
Qed.

Lemma update_ok v h : wpt (drm_update_vblank_count i) v h (fun _ v' _ => ticked v v' /\ enabled v' = enabled v /\ last v' = last v).
Proof.
  unfold drm_update_vblank_count. apply vwp_bind, read_counter_ok. intros [[cur rc] t] h'. wp_run.
  destruct (_ =? 0); [wp_run; done|]. wp_run. destruct rc; wp_run; [|done].
  split; [|done]. apply (ticked_trans _ (set_vblanktimestamp (u32 (count v + (if cur <? last v then u32 (u32 (cur - last v) + max_vblank_count (set_vb i v d)) else u32 (cur - last v)))) t v)); [apply ticked_stamp|done].
Qed.

Lemma save_counter_ok n v h : wpt (save_counter n i) v h (fun _ v' _ => exists l, v' = with_last l v).
Proof.
  revert v h. induction n as [|n IH]; intros v h; [done|]. cbn [save_counter]. wp_run. apply timestamp_ok. intros [rc t] h'. wp_run.
  destruct (_ =? _); [wp_run; by eexists|]. destruct n; [wp_run; by eexists|]. destruct rc; [|wp_run; by eexists].
  eapply vwp_mono; [apply IH|]. intros ? v' ? [l ->]. by exists l.
Qed.

Lemma count_vblank_ok t v h : wpt (count_vblank i t) v h (fun _ v' _ => v' = with_count (u32 (count v + 1)) (set_vblanktimestamp (count v + 1) t v)).
Proof. unfold count_vblank. wp_run. done. Qed.

Lemma disable_save_ok v h : wpt (vblank_disable_and_save i) v h (fun _ v' _ => ticked v v' /\ enabled v' = false).
Proof.
  unfold vblank_disable_and_save. wp_run. destruct (enabled v) eqn:Ee; cbn [negb].
  2: { wp_run. apply timestamp_ok. intros [precise t] h1. wp_run. destruct precise.
       - eapply vwp_mono; [apply update_ok|]. intros ? v' ? (T & E & _). by rewrite E.
       - wp_run. eapply vwp_mono; [apply save_counter_ok|]. intros [[n rc] t'] v' h' [l ->]. wp_run.
         destruct (_ && _); [|wp_run; done]. eapply vwp_mono; [apply count_vblank_ok|]. intros ? ? ? ->. split; [|done]. split; try done. cbn. apply length_insert. }
  wp_run. eapply vwp_mono; [apply save_counter_ok|]. intros [[n rc] t'] v' h' [l ->]. wp_run.
  destruct (_ && _); [|wp_run; done]. eapply vwp_mono; [apply count_vblank_ok|]. intros ? ? ? ->. split; [|done]. split; try done. cbn. apply length_insert.
Qed.

Lemma disable_fn_ok v h : wpt (vblank_disable_fn i) v h (fun _ v' _ => v' = v \/ refcount v = 0 /\ ticked v v' /\ enabled v' = false).
Proof.
  unfold vblank_disable_fn. wp_run. destruct (negb _); [wp_run; by left|]. wp_run.
  destruct (refcount v =? 0) eqn:Er; cbn [andb]; [|wp_run; by left]. destruct (enabled v); cbn [andb]; [|wp_run; by left].
  eapply vwp_mono; [apply disable_save_ok|]. intros ? v' ? [T E]. right. b2p. done.
Qed.

Lemma enable_ok v h : wpt (drm_vblank_enable i) v h (fun ret v' _ =>
  (enabled v = true /\ ret = 0 /\ v' = v) \/ (enabled v = false /\ ret = 0 /\ ticked v v' /\ enabled v' = true) \/
  (enabled v = false /\ ret <> 0 /\ (exists g, ret = (enable_vblank i g).1) /\ v' = with_refcount (s32 (refcount v - 1)) v)).
Proof.
  unfold drm_vblank_enable. wp_run. destruct (enabled v) eqn:Ee; cbn [negb]; [wp_run; by left|]. wp_run.
  unfold truth. destruct (Z.eqb_spec r 0) as [->|Ha]; cbn [negb].
  - wp_run. eapply vwp_mono; [apply update_ok|]. intros ? v' ? (T & E & _). wp_run. right. left. by destruct T.
  - wp_run. right; right. split_and!; [done|done|exists h; by rewrite Ecall|done].
Qed.

Lemma get_ref_ok v h : is_s32 (refcount v) -> i < num_crtcs d -> wpt (drm_vblank_get i) v h (fun ret v' _ =>
  (ret <> 0 /\ v' = v /\ (refcount v <> 0 -> enabled v = false)) \/
  (ret = 0 /\ refcount v' = s32 (refcount v + 1) /\ inmodeset v' = inmodeset v /\ enabled v' = true /\ length (time v') = length (time v) /\
   (enabled v = true -> count v' = count v) /\ (refcount v <> 0 -> enabled v = true))).
Proof.
  intros Hr Hn. unfold drm_vblank_get. wp_run. destruct (Z.leb_spec (num_crtcs (set_vb i v d)) i) as [H|_]; [cbn in H; lia|]. wp_run. cbn [refcount with_refcount].
  destruct (Z.eqb_spec (s32 (refcount v + 1)) 1) as [E1|E1].
  - apply s32_plus1 in E1; [|done]. eapply vwp_mono; [apply enable_ok|]. intros ret v' h' [(Ee & -> & ->)|[(Ee & -> & T & E)|(Ee & Hret & _ & ->)]]; cbn in Ee.
    + right. by split_and!.
    + right. destruct T. cbn in *. split_and!; try done; congruence.
    + left. split_and!; [done|by apply ref_back|done].
  - destruct (enabled v) eqn:Ee; cbn [negb enabled with_refcount].
    + rewrite Ee. cbn [negb]. wp_run. right. by split_and!.
    + rewrite Ee. cbn [negb]. wp_run. left. split_and!; [done|by apply ref_back|done].
Qed.

Lemma put_ref_ok v h : 0 < refcount v < 2 ^ 31 -> i < num_crtcs d -> wpt (drm_vblank_put i) v h (fun _ v' _ =>
  refcount v' = refcount v - 1 /\ inmodeset v' = inmodeset v /\ length (time v') = length (time v) /\
  (refcount v' <> 0 -> count v' = count v /\ enabled v' = enabled v) /\ (enabled v' = true -> enabled v = true)).
Proof.
  intros Hr Hn. unfold drm_vblank_put. wp_run. destruct (Z.eqb_spec (refcount v) 0); [lia|].
  destruct (Z.leb_spec (num_crtcs (set_vb i v d)) i) as [H|_]; [cbn in H; lia|]. wp_run. cbn [refcount with_refcount].
  rewrite (s32_small (refcount v - 1)) by (unfold is_s32; lia). destruct (Z.eqb_spec (refcount v - 1) 0) as [E|E].
  - destruct (_ =? 0); [wp_run; done|]. destruct (_ || _); [|wp_run; done].
    eapply vwp_mono; [apply disable_fn_ok|]. intros ? v' ? [->|(_ & [] & E')]; [done|]. cbn in *. split_and!; try done; try congruence.
  - wp_run. done.
Qed.

Lemma on_ok v h : (forall g, (enable_vblank i g).1 = 0) -> 0 <= refcount v - b2z (negb (inmodeset v =? 0)) < 2 ^ 31 -> i < num_crtcs d ->
  wpt (drm_vblank_on i) v h (fun _ v' _ => inmodeset v' = 0 /\ refcount v' = refcount v - b2z (negb (inmodeset v =? 0)) /\
    (refcount v' <> 0 -> enabled v' = true) /\ (enabled v = true -> count v' = count v)).
Proof.
  intros Hen Hr Hn. unfold drm_vblank_on. wp_run. destruct (Z.leb_spec (num_crtcs (set_vb i v d)) i) as [H|_]; [cbn in H; lia|]. wp_run.
  set (v1 := if negb (inmodeset v =? 0) then with_inmodeset 0 (with_refcount (s32 (refcount v - 1)) v) else v).
  assert (inmodeset v1 = 0 /\ refcount v1 = refcount v - b2z (negb (inmodeset v =? 0)) /\ enabled v1 = enabled v /\ count v1 = count v) as (E1 & E2 & E3 & E4).
  { unfold v1. destruct (Z.eqb_spec (inmodeset v) 0); cbn in *; [split_and!; [done|lia|done|done]|]. rewrite s32_small by (unfold is_s32; lia). done. }
  assert (forall Q, Q tt v1 h -> wpt (if negb (inmodeset v =? 0) then mod_vb i (fun v => with_inmodeset 0 (with_refcount (s32 (refcount v - 1)) v)) else mret tt) v h Q) as Hstep.
  { intros Q HQ. unfold v1 in HQ. destruct (inmodeset v =? 0); cbn [negb] in *; by wp_run. }
  apply Hstep. wp_run. cbn [refcount with_last]. destruct (_ || _) eqn:Eb.
  - wp_run. eapply vwp_mono; [apply enable_ok|]. intros ret v' h' [(Ee & _ & ->)|[(Ee & _ & T & E)|(_ & Hret & [g0 ->] & _)]]; [| |by rewrite Hen in Hret]; wp_run; cbn in Ee.
    + split_and!; [exact E1|exact E2|done|done].
    + destruct T. cbn in *. split_and!; [congruence|congruence|done|congruence].
  - wp_run. cbn. split_and!; [done|done| |done]. intros Hne. apply orb_false_elim in Eb as [Eb _]. apply negb_false_iff, Z.eqb_eq in Eb. done.
Qed.

Lemma pre_ok v h : is_s32 (refcount v) -> i < num_crtcs d -> num_crtcs d <> 0 ->
  wpt (drm_vblank_pre_modeset i) v h (fun _ v' _ => v' = v \/ (inmodeset v = 0 /\ v' = with_inmodeset 1 v) \/
    (inmodeset v = 0 /\ refcount v' = s32 (refcount v + 1) /\ inmodeset v' = 3 /\ enabled v' = true /\ (enabled v = true -> count v' = count v))).
Proof.
  intros Hr Hn H0. unfold drm_vblank_pre_modeset. wp_run. destruct (Z.eqb_spec (num_crtcs (set_vb i v d)) 0); [done|].
  destruct (Z.leb_spec (num_crtcs (set_vb i v d)) i) as [H|_]; [cbn in H; lia|]. wp_run.
  destruct (Z.eqb_spec (inmodeset v) 0) as [E|E]; [|wp_run; by left]. wp_run.
  eapply vwp_mono; [by apply get_ref_ok|]. intros ret v' h' [(Hret & -> & _)|(-> & Er & Ei & Een & _ & Hc & _)].
  - destruct (Z.eqb_spec ret 0); [done|]. wp_run. right. by left.
  - cbn [Z.eqb]. wp_run. right. right. cbn in *. rewrite Ei. by split_and!.
Qed.

Lemma post_ok v h : (truth (Z.land (inmodeset v) 2) = true -> 0 < refcount v < 2 ^ 31) -> i < num_crtcs d ->
  wpt ((if truth (Z.land (inmodeset v) 2) then drm_vblank_put i else mret tt);; mod_vb i (with_inmodeset 0)) v h (fun _ v' _ =>
    refcount v' = refcount v - b2z (truth (Z.land (inmodeset v) 2)) /\ inmodeset v' = 0 /\ (refcount v' <> 0 -> count v' = count v /\ enabled v' = enabled v)).
Proof.
  intros Hr Hn. wp_run. destruct (truth (Z.land (inmodeset v) 2)).
  - eapply vwp_mono; [apply put_ref_ok; [by apply Hr|done]|]. intros ? v' ? (Er & Ei & _ & Hc & _). wp_run. cbn. split_and!; [done|done|exact Hc].
  - wp_run. cbn. split_and!; [lia|done|done].
Qed.

Lemma timer_ok v h : wpt (mod_vb i (with_timer false);; vblank_disable_fn i) v h (fun _ v' _ =>
  refcount v' = refcount v /\ inmodeset v' = inmodeset v /\ (refcount v <> 0 -> count v' = count v /\ enabled v' = enabled v) /\ (enabled v' = true -> enabled v = true)).
Proof.
  wp_run. eapply vwp_mono; [apply disable_fn_ok|]. intros ? v' ? [->|(E0 & [] & Ee)]; [done|]. cbn in *. split_and!; try done; try congruence.
Qed.
End effects.
