(* ===== verification/DrmIrqInv.v ===== *)
(** * Vertical blanking: the invariant

    Who holds a reference to a CRTC's interrupt, where the events of a file are, and
    that no queued event is overdue.  [holders] are the CRTCs of the references that
    clients and processes in the wait ioctl hold, [flips] the events of page flips that
    a driver has not sent yet. *)

From S2P Require Import Prelude Counting DrmIrq DrmIrqSpec.

#[export] Instance event_eq_dec : EqDecision drm_pending_vblank_event.
Proof. solve_decision. Defined.

(** The law of the headers that the space of a file needs. *)
Class vblank_sizes `{vblank_env} : Prop := sizeof_pos : 0 < sizeof_event <= 4096.

Section inv.
Context {Env : vblank_env}.
(** Whether the driver brackets mode setting with [drm_vblank_off] and [drm_vblank_on],
    or with the older pair of functions. *)
Context (modern : bool).

Definition at_pipe (i : Z) (l : list drm_pending_vblank_event) : Z := lsum (fun e => b2z (pipe e =? i)) l.
Definition of_file (f : Z) (l : list drm_pending_vblank_event) : Z := lsum (fun e => b2z (file_priv e =? f)) l.
Definition held (i : Z) (holders : list Z) : Z := lsum (fun c => b2z (c =? i)) holders.

(** The reference of a mode setting under way. *)
Definition modeset_ref (v : drm_vblank_crtc) : Z :=
  if modern then b2z (negb (inmodeset v =? 0)) else b2z (truth (Z.land (inmodeset v) 2)).

Record crtc_ok (holders : list Z) (events : list drm_pending_vblank_event) (i : Z) (v : drm_vblank_crtc) : Prop := {
  c_refs : refcount v = held i holders + at_pipe i events + modeset_ref v;
  c_enabled : refcount v <> 0 -> enabled v = true \/ (modern = true /\ inmodeset v <> 0);
  c_off : modern = true -> inmodeset v <> 0 -> enabled v = false;
}.

Record file_ok (events flips : list drm_pending_vblank_event) (f : Z) (x : drm_file) : Prop := {
  f_space : event_space x + sizeof_event * (of_file f events + Z.of_nat (length (event_list x)) + of_file f flips) = 4096;
  f_pos : 0 <= event_space x;
}.

Record core (holders : list Z) (flips : list drm_pending_vblank_event) (d : drm_device) : Prop := {
  k_len : Z.of_nat (length (vblank d)) = num_crtcs d;
  k_crtc i v : vb_lookup d i = Some v -> crtc_ok holders (vblank_event_list d) i v;
  k_held c : c ∈ holders -> 0 <= c < num_crtcs d;
  k_pipe e : e ∈ vblank_event_list d -> 0 <= pipe e < num_crtcs d;
  k_bound : Z.of_nat (length holders + length (vblank_event_list d)) + 2 < 2 ^ 31;
  k_file f x : files d !! f = Some x -> file_ok (vblank_event_list d) flips f x;
  k_open e : e ∈ vblank_event_list d ++ flips -> is_Some (files d !! file_priv e);
}.

(** No event waits for a value that the counter has reached, or on a CRTC that is off. *)
Record punctual (d : drm_device) : Prop := {
  p_future e v : e ∈ vblank_event_list d -> vb_lookup d (pipe e) = Some v -> passed (count v) (sequence e) = false;
  p_on i v : vb_lookup d i = Some v -> modern = true -> inmodeset v <> 0 -> at_pipe i (vblank_event_list d) = 0;
}.

(** ** Counting *)
Lemma b2z_pos b : 0 <= b2z b <= 1.
Proof. destruct b; cbn; lia. Qed.

Lemma lsum_b2z_bounds {A} (p : A -> bool) l : 0 <= lsum (fun a => b2z (p a)) l <= Z.of_nat (length l).
Proof. induction l as [|a l IH]; cbn; [lia|]. pose proof (b2z_pos (p a)). lia. Qed.

Lemma held_bounds i l : 0 <= held i l <= Z.of_nat (length l).
Proof. apply (lsum_b2z_bounds (fun c => c =? i)). Qed.
Lemma at_pipe_bounds i l : 0 <= at_pipe i l <= Z.of_nat (length l).
Proof. apply (lsum_b2z_bounds (fun e => pipe e =? i)). Qed.
Lemma of_file_bounds f l : 0 <= of_file f l <= Z.of_nat (length l).
Proof. apply (lsum_b2z_bounds (fun e => file_priv e =? f)). Qed.

Lemma at_pipe_elem e l : e ∈ l -> 0 < at_pipe (pipe e) l.
Proof.
  intros He. pose proof (lsum_ge (fun x => b2z (pipe x =? pipe e)) l e (fun a => proj1 (b2z_pos _)) He) as H.
  cbn beta in H. rewrite Z.eqb_refl in H. cbn in H. unfold at_pipe. lia.
Qed.

Lemma held_elem c l : c ∈ l -> 0 < held c l.
Proof.
  intros He. pose proof (lsum_ge (fun x => b2z (x =? c)) l c (fun a => proj1 (b2z_pos _)) He) as H.
  cbn beta in H. rewrite Z.eqb_refl in H. cbn in H. unfold held. lia.
Qed.

Lemma modeset_ref_bounds v : 0 <= modeset_ref v <= 1.
Proof. unfold modeset_ref. destruct modern; apply b2z_pos. Qed.

Lemma held_cons i c l : held i (c :: l) = b2z (c =? i) + held i l.
Proof. done. Qed.
Lemma at_pipe_app i l1 l2 : at_pipe i (l1 ++ l2) = at_pipe i l1 + at_pipe i l2.
Proof. apply lsum_app. Qed.
Lemma at_pipe_cons i e l : at_pipe i (e :: l) = b2z (pipe e =? i) + at_pipe i l.
Proof. done. Qed.
Lemma of_file_app f l1 l2 : of_file f (l1 ++ l2) = of_file f l1 + of_file f l2.
Proof. apply lsum_app. Qed.
Lemma of_file_cons f e l : of_file f (e :: l) = b2z (file_priv e =? f) + of_file f l.
Proof. done. Qed.

Lemma core_refcount H F d i v : core H F d -> vb_lookup d i = Some v ->
  0 <= held i H /\ 0 <= at_pipe i (vblank_event_list d) /\ 0 <= refcount v < 2 ^ 31 - 1.
Proof.
  intros K Hv. destruct (k_crtc _ _ _ K i v Hv) as [-> _ _]. pose proof (k_bound _ _ _ K).
  pose proof (held_bounds i H). pose proof (at_pipe_bounds i (vblank_event_list d)). pose proof (modeset_ref_bounds v). lia.
Qed.

(** ** Look-ups *)
Lemma lookup_range d i v : vb_lookup d i = Some v -> 0 <= i /\ (Z.to_nat i < length (vblank d))%nat.
Proof. unfold vb_lookup. destruct (Z.ltb_spec i 0); [done|]. intros Hl%lookup_lt_Some. lia. Qed.

Lemma lookup_some H F d i : core H F d -> 0 <= i < num_crtcs d -> exists v, vb_lookup d i = Some v.
Proof.
  intros K Hi. unfold vb_lookup. destruct (Z.ltb_spec i 0); [lia|]. pose proof (k_len _ _ _ K).
  destruct (lookup_lt_is_Some_2 (vblank d) (Z.to_nat i)) as [v ->]; [lia|]. by exists v.
Qed.

Lemma lookup_crtc H F d i v : core H F d -> vb_lookup d i = Some v -> 0 <= i < num_crtcs d.
Proof. intros K Hv. pose proof (lookup_range d i v Hv). pose proof (k_len _ _ _ K). lia. Qed.

Lemma set_same d i v : vb_lookup d i = Some v -> set_vb i v d = d.
Proof.
  unfold vb_lookup. destruct (_ <? 0); [done|]. intros Hl. unfold set_vb, set_array. rewrite list_insert_id by done. by destruct d.
Qed.

Lemma lookup_set_other d i v j : 0 <= i -> j <> i -> vb_lookup (set_vb i v d) j = vb_lookup d j.
Proof. intros Hi Hj. unfold vb_lookup. destruct (Z.ltb_spec j 0); [done|]. cbn. apply list_lookup_insert_ne. lia. Qed.

(** ** Changes of one CRTC *)
Lemma core_vb H H' F d i v v' : core H F d -> vb_lookup d i = Some v -> (forall j, j <> i -> held j H' = held j H) ->
  crtc_ok H' (vblank_event_list d) i v' -> (forall c, c ∈ H' -> 0 <= c < num_crtcs d) ->
  Z.of_nat (length H' + length (vblank_event_list d)) + 2 < 2 ^ 31 -> core H' F (set_vb i v' d).
Proof.
  intros K Hv Hj Hok Hr Hb. pose proof (lookup_range d i v Hv) as [Hi0 Hil]. split; try apply K; try done.
  - cbn. rewrite length_insert. apply K.
  - intros j w. destruct (decide (j = i)) as [->|Hne].
    + rewrite (lookup_set i d (conj Hi0 Hil)). by intros [= <-].
    + rewrite lookup_set_other by done. intros Hw. destruct (k_crtc _ _ _ K j w Hw). cbn. split; try done. by rewrite Hj.
Qed.

(** [d'] comes from [d] by a change of CRTC [i] that does not move the counter under
    queued events. *)
Record calm (d d' : drm_device) : Prop := {
  q_events : vblank_event_list d' = vblank_event_list d;
  q_files : files d' = files d;
  q_num : num_crtcs d' = num_crtcs d;
  q_crtc j v' : vb_lookup d' j = Some v' -> exists v, vb_lookup d j = Some v /\
    (at_pipe j (vblank_event_list d) <> 0 -> count v' = count v /\ (modern = true -> inmodeset v' <> 0 -> inmodeset v <> 0));
}.

Lemma calm_refl d : calm d d.
Proof. split; try done. intros j v' Hv. by exists v'. Qed.

Lemma calm_trans d1 d2 d3 : calm d1 d2 -> calm d2 d3 -> calm d1 d3.
Proof.
  intros [E1 F1 N1 C1] [E2 F2 N2 C2]. split; try congruence. intros j v3 Hv3. destruct (C2 j v3 Hv3) as (v2 & Hv2 & H2).
  destruct (C1 j v2 Hv2) as (v1 & Hv1 & H1). exists v1. split; [done|]. intros Hp. rewrite E1 in H2.
  destruct (H1 Hp) as [? ?], (H2 Hp) as [? ?]. split; [congruence|auto].
Qed.

Lemma calm_punctual d d' : calm d d' -> punctual d -> punctual d'.
Proof.
  intros [E F N C] [Pf Po]. split; rewrite E.
  - intros e v' He Hv'. destruct (C _ _ Hv') as (v & Hv & Hc). pose proof (at_pipe_elem e _ He). destruct Hc as [-> _]; [lia|]. by apply Pf.
  - intros i v' Hv' Hm Hin. destruct (C _ _ Hv') as (v & Hv & Hc). destruct (decide (at_pipe i (vblank_event_list d) = 0)) as [|Hp]; [done|].
    destruct (Hc Hp) as [_ H]. by apply (Po i v Hv Hm), H.
Qed.

Lemma calm_vb d i v v' : vb_lookup d i = Some v ->
  (at_pipe i (vblank_event_list d) <> 0 -> count v' = count v /\ (modern = true -> inmodeset v' <> 0 -> inmodeset v <> 0)) -> calm d (set_vb i v' d).
Proof.
  intros Hv Hc. pose proof (lookup_range d i v Hv) as [Hi0 Hil]. split; try done. intros j w. destruct (decide (j = i)) as [->|Hne].
  - rewrite (lookup_set i d (conj Hi0 Hil)). intros [= <-]. by exists v.
  - rewrite lookup_set_other by done. intros Hw. by exists w.
Qed.

(** ** Triples of routines *)
Definition triple {A} (c : io A) (s : st) (Q : A -> st -> Prop) : Prop :=
  match c s with Done (a, s') => Q a s' | Oops => False | Loops => True end.

Lemma triple_mono {A} (c : io A) s (Q Q' : A -> st -> Prop) : triple c s Q -> (forall a s', Q a s' -> Q' a s') -> triple c s Q'.
Proof. unfold triple. destruct (c s) as [[a s']| |]; auto. Qed.

Lemma triple_ret {A} (a : A) s (Q : A -> st -> Prop) : Q a s -> triple (mret a) s Q.
Proof. done. Qed.

Lemma triple_bind {A B} (c : io A) (k : A -> io B) s Q : triple c s (fun a s' => triple (k a) s' Q) -> triple (c ≫= k) s Q.
Proof. unfold triple, mbind, io_bind. by destruct (c s) as [[a s']| |]. Qed.

Lemma triple_wp {A} (c : io A) i d v h Q : vb_lookup d i = Some v -> wp True i d c v h Q ->
  triple c (d, h) (fun a s' => exists v' h', s' = (set_vb i v' d, h') /\ Q a v' h').
Proof. intros Hv. unfold wp, triple. by rewrite (set_same d i v Hv). Qed.

Lemma triple_file f d h x Q : files d !! f = Some x -> Q x (d, h) -> triple (file f) (d, h) Q.
Proof. intros Hf HQ. unfold triple, file. cbn. by rewrite Hf. Qed.
End inv.

Ltac triple_step :=
  match goal with
  | |- triple (mbind _ _) _ _ => apply triple_bind
  | |- triple (mret _) _ _ => apply triple_ret
  | |- triple dev _ _ => unfold triple at 1, dev at 1; cbn [fst snd]
  | |- triple (mod_dev _) _ _ => unfold triple at 1, mod_dev at 1; cbn [fst snd]
  | |- triple (set_file _ _) _ _ => unfold triple at 1, set_file at 1, mod_dev at 1; cbn [fst snd]
  end.
Ltac triple_run := repeat (triple_step; cbn beta match).
