(* ===== verification/DrmIrqOps.v ===== *)
(** * Vertical blanking: the operations keep the invariant *)

From S2P Require Import Prelude Counting DrmIrq DrmIrqSpec DrmIrqInv.

Section ops.
Context {Env : vblank_env} (modern : bool).
Notation core := (core modern).
Notation crtc_ok := (crtc_ok modern).
Notation calm := (calm modern).
Notation punctual := (punctual modern).
Notation modeset_ref := (modeset_ref modern).
Implicit Types (H : list Z) (F : list drm_pending_vblank_event).

(** A routine that ends with the core, with events and files untouched and no counter
    moved under a queued event. *)
Definition calmly {A} (c : io A) (d : drm_device) (h : hw) (H' : A -> list Z) F : Prop :=
  triple c (d, h) (fun a s' => core (H' a) F s'.1 /\ calm d s'.1).

Lemma held_other i j H : j <> i -> held j (i :: H) = held j H.
Proof. intros Hj. rewrite held_cons. destruct (Z.eqb_spec i j); [congruence|done]. Qed.

Lemma held_same i H : held i (i :: H) = 1 + held i H.
Proof. rewrite held_cons, Z.eqb_refl. done. Qed.

Lemma modeset_ref_eq v v' : inmodeset v' = inmodeset v -> modeset_ref v' = modeset_ref v.
Proof. intros E. unfold DrmIrqInv.modeset_ref. by rewrite E. Qed.

(** The counters after events have left the queue. *)
Definition settled (d d' : drm_device) : Prop :=
  forall j v', vb_lookup d' j = Some v' -> exists v, vb_lookup d j = Some v /\ inmodeset v' = inmodeset v /\
    (at_pipe j (vblank_event_list d') <> 0 -> count v' = count v).

Lemma settled_vb d i v v' : vb_lookup d i = Some v -> inmodeset v' = inmodeset v ->
  (at_pipe i (vblank_event_list d) <> 0 -> count v' = count v) -> settled d (set_vb i v' d).
Proof.
  intros Hv Hin Hc. pose proof (lookup_range d i v Hv) as [Hi0 Hil]. intros j w. destruct (decide (j = i)) as [->|Hne].
  - rewrite (lookup_set i d (conj Hi0 Hil)). intros [= <-]. by exists v.
  - rewrite lookup_set_other by done. intros Hw. by exists w.
Qed.

Lemma settled_trans d1 d2 d3 : settled d1 d2 -> settled d2 d3 ->
  (forall j, at_pipe j (vblank_event_list d3) <= at_pipe j (vblank_event_list d2)) -> settled d1 d3.
Proof.
  intros S1 S2 Hle j v3 Hv3. destruct (S2 j v3 Hv3) as (v2 & Hv2 & E2 & C2). destruct (S1 j v2 Hv2) as (v1 & Hv1 & E1 & C1).
  exists v1. split_and!; [done|congruence|]. intros Hp. rewrite C2, C1; [done| |done]. specialize (Hle j).
  pose proof (at_pipe_bounds j (vblank_event_list d3)). lia.
Qed.

Lemma settled_same d d' : vblank d' = vblank d -> settled d d'.
Proof. intros E j v Hv. exists v. unfold vb_lookup in *. by rewrite <- E. Qed.

(** ** References *)
Lemma put_core i H F d h : core (i :: H) F d ->
  triple (drm_vblank_put i) (d, h) (fun _ s' => core H F s'.1 /\ calm d s'.1 /\ settled d s'.1).
Proof.
  intros K. pose proof (k_held _ _ _ _ K i ltac:(by left)) as Hi. destruct (lookup_some modern _ _ d i K Hi) as [v Hv].
  destruct (core_refcount modern _ _ d i v K Hv) as (_ & Hp & Hr). destruct (k_crtc _ _ _ _ K i v Hv) as [Hc He Ho]. rewrite held_same in Hc.
  pose proof (held_bounds i H) as Hb. pose proof (modeset_ref_bounds modern v) as Hm.
  eapply triple_mono; [eapply triple_wp; [exact Hv|apply put_ref_ok; [by eapply lookup_range|lia|lia]]|].
  intros [] s' (v' & h' & -> & Er & Ei & _ & Hcnt & Hen). split_and!; cbn [fst].
  - eapply core_vb; [exact K|exact Hv|intros j Hj; by rewrite held_other| | |].
    + split.
      * rewrite (modeset_ref_eq v v' Ei). lia.
      * intros Hr'. destruct (Hcnt Hr') as [_ ->]. rewrite Ei. apply He. lia.
      * rewrite Ei. intros Hmo Hin. destruct (enabled v') eqn:E; [|done]. rewrite (Ho Hmo Hin) in Hen. by discriminate Hen.
    + intros c Hcc. apply (k_held _ _ _ _ K). by right.
    + pose proof (k_bound _ _ _ _ K). cbn in *. lia.
  - apply (calm_vb modern d i v v' Hv). intros Hp'. rewrite Ei. split; [|done]. apply Hcnt. lia.
  - apply (settled_vb d i v v' Hv Ei). intros Hp'. apply Hcnt. lia.
Qed.

(** Pending events keep the interrupt on. *)
Lemma pending_enabled H F d i v : core H F d -> punctual d -> vb_lookup d i = Some v -> at_pipe i (vblank_event_list d) <> 0 ->
  enabled v = true /\ (modern = true -> inmodeset v = 0).
Proof.
  intros K P Hv Hp. destruct (core_refcount modern _ _ d i v K Hv) as (Hh & Hp' & Hr). destruct (k_crtc _ _ _ _ K i v Hv) as [Hc He Ho].
  pose proof (modeset_ref_bounds modern v). assert (modern = true -> inmodeset v = 0) as Hin.
  { intros Hm. destruct (decide (inmodeset v = 0)) as [|Hne]; [done|]. destruct Hp. by apply (p_on _ _ P i v). }
  split; [|done]. destruct He as [|[Hm Hne]]; [lia|done|]. by rewrite (Hin Hm) in Hne.
Qed.

Lemma get_calm i H F d h : core H F d -> punctual d -> 0 <= i < num_crtcs d ->
  Z.of_nat (length (i :: H) + length (vblank_event_list d)) + 2 < 2 ^ 31 ->
  calmly (drm_vblank_get i) d h (fun ret => if ret =? 0 then i :: H else H) F.
Proof.
  intros K P Hi Hb. destruct (lookup_some modern _ _ d i K Hi) as [v Hv].
  destruct (core_refcount modern _ _ d i v K Hv) as (Hh & Hp & Hr). pose proof (k_crtc _ _ _ _ K i v Hv) as [Hc He Ho].
  eapply triple_mono; [eapply triple_wp; [exact Hv|apply get_ref_ok; [by eapply lookup_range|unfold is_s32; lia|lia]]|].
  intros ret s' (v' & h' & -> & [(Hret & -> & _)|(-> & Er & Ei & Een & _ & Hcnt & Hen)]); cbn [fst].
  - rewrite (set_same d i v Hv). destruct (Z.eqb_spec ret 0); [done|]. split; [done|apply calm_refl].
  - cbn [Z.eqb]. rewrite s32_small in Er by (unfold is_s32; lia). split.
    + eapply core_vb; [exact K|exact Hv|intros j Hj; by rewrite held_other| | |done].
      * split.
        -- rewrite held_same, (modeset_ref_eq v v' Ei). lia.
        -- by left.
        -- rewrite Ei. intros Hm Hin. rewrite (Hen ltac:(pose proof (modeset_ref_bounds modern v); unfold DrmIrqInv.modeset_ref in *; rewrite Hm in *; destruct (Z.eqb_spec (inmodeset v) 0); [done|cbn in *; lia])) in Ho. by specialize (Ho Hm Hin).
      * intros c [->|Hcc]%elem_of_cons; [done|]. by apply (k_held _ _ _ _ K).
    + apply (calm_vb modern d i v v' Hv). intros Hp'. rewrite Ei. split; [|done]. apply Hcnt. by apply (pending_enabled H F d i v).
Qed.

(** ** Events on their way *)
Lemma core_perm H H' F F' d : H ≡ₚ H' -> F ≡ₚ F' -> core H F d -> core H' F' d.
Proof.
  intros EH EF K. split; try apply K.
  - intros i v Hv. destruct (k_crtc _ _ _ _ K i v Hv) as [Hc ? ?]. split; [|done..]. rewrite Hc. unfold held. by rewrite (lsum_perm _ _ _ EH).
  - intros c Hc. apply (k_held _ _ _ _ K). by rewrite EH.
  - rewrite <- (Permutation_length EH). apply K.
  - intros f x Hx. destruct (k_file _ _ _ _ K f x Hx) as [Hs Hp]. split; [|done]. rewrite <- Hs. unfold of_file. by rewrite (lsum_perm _ _ _ EF).
  - intros e He. apply (k_open _ _ _ _ K). rewrite elem_of_app in *. by rewrite EF.
Qed.

(** An event leaves the queue: its reference is held, its space in flight. *)
Lemma core_unqueue H F d before e l : core H F d -> vblank_event_list d = before ++ e :: l ->
  core (pipe e :: H) (e :: F) (set_events (before ++ l) d).
Proof.
  intros K E. split; cbn; try apply K.
  - intros i v Hv. destruct (k_crtc _ _ _ _ K i v Hv) as [Hc ? ?]. split; [|done..].
    rewrite Hc, E, held_cons, !at_pipe_app, at_pipe_cons. lia.
  - intros c [->|Hc]%elem_of_cons; [|by apply (k_held _ _ _ _ K)]. apply (k_pipe _ _ _ _ K). rewrite E. apply elem_of_app. right. by left.
  - intros x Hx. apply (k_pipe _ _ _ _ K). rewrite E. apply elem_of_app in Hx as [|]; apply elem_of_app; [by left|]. right. by right.
  - pose proof (k_bound _ _ _ _ K) as Hb. rewrite E, length_app in Hb. rewrite length_app. cbn in *. lia.
  - intros f x Hx. destruct (k_file _ _ _ _ K f x Hx) as [Hs Hp]. split; [|done]. rewrite <- Hs, E, of_file_cons, !of_file_app, of_file_cons. lia.
  - intros x Hx. apply (k_open _ _ _ _ K). rewrite E. set_solver.
Qed.

Lemma core_queue H F d e v : core (pipe e :: H) (e :: F) d -> vb_lookup d (pipe e) = Some v ->
  core H F (set_events (vblank_event_list d ++ [e]) d).
Proof.
  intros K Hv. split; cbn; try apply K.
  - intros i w Hw. destruct (k_crtc _ _ _ _ K i w Hw) as [Hc ? ?]. split; [|done..].
    rewrite Hc, held_cons, at_pipe_app, at_pipe_cons. cbn. lia.
  - intros c Hc. apply (k_held _ _ _ _ K). by right.
  - intros x Hx. apply elem_of_app in Hx as [|Hx]; [by apply (k_pipe _ _ _ _ K)|]. apply list_elem_of_singleton in Hx as ->.
    apply (k_held _ _ _ _ K). by left.
  - pose proof (k_bound _ _ _ _ K) as Hb. rewrite length_app. cbn in *. lia.
  - intros f x Hx. destruct (k_file _ _ _ _ K f x Hx) as [Hs Hp]. split; [|done]. rewrite <- Hs, of_file_cons, of_file_app, of_file_cons. cbn. lia.
  - intros x Hx. apply (k_open _ _ _ _ K). set_solver.
Qed.

(** A file's data change. *)
Lemma core_file H F F' d f x' : core H F d -> is_Some (files d !! f) -> file_ok (vblank_event_list d) F' f x' ->
  (forall g, g <> f -> of_file g F' = of_file g F) -> (forall e, e ∈ F' -> is_Some (files d !! file_priv e)) ->
  core H F' (set_files (<[f := x']> (files d)) d).
Proof.
  intros K Hf Hx Hg Ho. split; cbn; try apply K.
  - intros g y. destruct (decide (g = f)) as [->|Hne].
    + rewrite lookup_insert_eq. by intros [= <-].
    + rewrite lookup_insert_ne by done. intros Hy. destruct (k_file _ _ _ _ K g y Hy) as [Hs Hp]. split; [|done]. by rewrite Hg.
  - intros e He. destruct (decide (file_priv e = f)) as [->|Hne]; [by rewrite lookup_insert_eq|]. rewrite lookup_insert_ne by done.
    apply elem_of_app in He as [He|He]; [apply (k_open _ _ _ _ K), elem_of_app; by left|by apply Ho].
Qed.

(** The event as it is sent. *)
Definition stamp (seq : Z) (now : timeval) (e : drm_pending_vblank_event) : drm_pending_vblank_event :=
  MkEvent (pipe e) (file_priv e) (e_type e) (user_data e) (u32 seq) (u32 (tv_sec now)) (u32 (tv_usec now)).

(** The files after the events [l] have been sent. *)
Definition delivered (l : list drm_pending_vblank_event) (m m' : gmap Z drm_file) : Prop :=
  forall f, m' !! f = (fun x => MkFile (event_space x) (event_list x ++ List.filter (fun e => file_priv e =? f) l)) <$> m !! f.

Lemma delivered_nil m : delivered [] m m.
Proof. intros f. destruct (m !! f) as [x|]; cbn; [|done]. rewrite app_nil_r. by destruct x. Qed.

Lemma delivered_app l1 l2 m1 m2 m3 : delivered l1 m1 m2 -> delivered l2 m2 m3 -> delivered (l1 ++ l2) m1 m3.
Proof. intros D1 D2 f. rewrite D2, D1. destruct (m1 !! f); cbn; [|done]. by rewrite List.filter_app, app_assoc. Qed.

Lemma send_core e e' H F d h seq now : core H (e :: F) d -> file_priv e' = file_priv e ->
  triple (send_vblank_event e' seq now) (d, h) (fun _ s' => core H F s'.1 /\ vblank_event_list s'.1 = vblank_event_list d /\
    vblank s'.1 = vblank d /\ num_crtcs s'.1 = num_crtcs d /\ delivered [stamp seq now e'] (files d) (files s'.1)).
Proof.
  intros K E. destruct (k_open _ _ _ _ K e) as [x Hx]; [apply elem_of_app; right; by left|].
  unfold send_vblank_event. cbn [file_priv]. rewrite E. triple_run. eapply triple_file; [exact Hx|]. triple_run. split_and!; try done.
  - eapply core_file; [exact K|by exists x| | |].
    + destruct (k_file _ _ _ _ K (file_priv e) x Hx) as [Hs Hp]. split; [|done]. cbn. rewrite <- Hs, of_file_cons, Z.eqb_refl, length_app. cbn. lia.
    + intros g Hg. rewrite of_file_cons. destruct (Z.eqb_spec (file_priv e) g); [congruence|done].
    + intros e0 He0. apply (k_open _ _ _ _ K), elem_of_app. right. by right.
  - intros f. cbn. destruct (decide (f = file_priv e)) as [->|Hne].
    + rewrite lookup_insert_eq, Hx. unfold stamp. cbn. by rewrite E, Z.eqb_refl.
    + rewrite lookup_insert_ne by done. destruct (files d !! f) as [y|]; cbn; [|done]. rewrite E. destruct (Z.eqb_spec (file_priv e) f); [congruence|].
      rewrite app_nil_r. by destruct y.
Qed.

(** ** The loops over the queue *)

Definition kept (due : drm_pending_vblank_event -> bool) (l : list drm_pending_vblank_event) : list drm_pending_vblank_event :=
  List.filter (fun e => negb (due e)) l.

Lemma at_pipe_kept due i l : at_pipe i (kept due l) <= at_pipe i l.
Proof. unfold kept. induction l as [|e l IH]; cbn; [lia|]. pose proof (b2z_pos (pipe e =? i)). destruct (negb (due e)); cbn; unfold at_pipe in *; lia. Qed.

Lemma kept_cons due e l : kept due (e :: l) = if due e then kept due l else e :: kept due l.
Proof. unfold kept. cbn. by destruct (due e). Qed.

Lemma send_events_ok due seq now l : forall before H F d h, core H F d -> vblank_event_list d = before ++ l ->
  triple (send_events due seq now before l) (d, h) (fun _ s' => core H F s'.1 /\ vblank_event_list s'.1 = before ++ kept due l /\
    num_crtcs s'.1 = num_crtcs d /\ settled d s'.1 /\ delivered (stamp seq now <$> List.filter due l) (files d) (files s'.1)).
Proof.
  induction l as [|e l IH]; intros before H F d h K E; cbn [send_events].
  { triple_run. split_and!; try done; [by apply settled_same|apply delivered_nil]. }
  rewrite kept_cons. cbn [List.filter]. destruct (due e).
  2: { eapply triple_mono; [apply (IH (before ++ [e]) H F); [done|by rewrite <- app_assoc]|]. intros [] s'. by rewrite <- app_assoc. }
  triple_run. eapply triple_mono; [apply put_core, (core_unqueue H F d before e l K E)|].
  intros [] [d2 h2] (K2 & C2 & S2). triple_run. cbn [fst] in *. eapply triple_mono; [by apply (send_core e e H F d2 h2 seq now)|].
  intros [] [d3 h3] (K3 & E3 & V3 & N3 & D3). cbn [fst] in *. assert (vblank_event_list d3 = before ++ l) as E3' by (rewrite E3; apply (q_events _ _ _ C2)).
  eapply triple_mono; [by apply (IH before H F d3 h3)|]. intros [] [d4 h4] (K4 & E4 & N4 & S4 & D4). cbn [fst] in *. split_and!; [done|done| | |].
  - rewrite N4, N3. apply (q_num _ _ _ C2).
  - apply (settled_trans d d3); [|done|intros j; rewrite E3', E4, !at_pipe_app; pose proof (at_pipe_kept due j l); lia].
    apply (settled_trans d d2); [|by apply settled_same|intros j; by rewrite E3]. apply (settled_trans d (set_events (before ++ l) d)); [by apply settled_same|done|].
    intros j. rewrite (q_events _ _ _ C2). done.
  - rewrite (q_files _ _ _ C2) in D3. cbn [fmap list_fmap]. by apply (delivered_app [_] _ _ (files d3)).
Qed.

Lemma drop_events_ok f l : forall before H F d h, core H F d -> vblank_event_list d = before ++ l ->
  triple (drop_events f before l) (d, h) (fun _ s' => exists es, core H (es ++ F) s'.1 /\ (forall e, e ∈ es -> file_priv e = f) /\
    vblank_event_list s'.1 = before ++ kept (fun e => file_priv e =? f) l /\ num_crtcs s'.1 = num_crtcs d /\ settled d s'.1 /\ files s'.1 = files d).
Proof.
  induction l as [|e l IH]; intros before H F d h K E; cbn [drop_events].
  { triple_run. exists []. split_and!; try done; [set_solver|by apply settled_same]. }
  rewrite kept_cons. destruct (Z.eqb_spec (file_priv e) f) as [Ef|Ef].
  2: { eapply triple_mono; [apply (IH (before ++ [e]) H F); [done|by rewrite <- app_assoc]|]. intros [] s'. by rewrite <- app_assoc. }
  triple_run. eapply triple_mono; [apply put_core, (core_unqueue H F d before e l K E)|].
  intros [] [d2 h2] (K2 & C2 & S2). triple_run. cbn [fst] in *. assert (vblank_event_list d2 = before ++ l) as E2 by apply (q_events _ _ _ C2).
  eapply triple_mono; [by apply (IH before H (e :: F) d2 h2)|]. intros [] [d4 h4] (es & K4 & Hes & E4 & N4 & S4 & F4). cbn [fst] in *.
  exists (e :: es). split_and!; [| |done| | |].
  - eapply core_perm; [reflexivity| |exact K4]. cbn. by rewrite Permutation_middle.
  - intros x [->|Hx]%elem_of_cons; [done|by apply Hes].
  - rewrite N4. apply (q_num _ _ _ C2).
  - apply (settled_trans d d2); [|done|intros j; rewrite E2, E4, !at_pipe_app; pose proof (at_pipe_kept (fun e => file_priv e =? f) j l); lia].
    apply (settled_trans d (set_events (before ++ l) d)); [by apply settled_same|done|]. intros j. by rewrite E2.
  - rewrite F4. apply (q_files _ _ _ C2).
Qed.
End ops.
