(* ===== verification/DrmIrqSys.v ===== *)
(** * Vertical blanking: the calls of a device and their sequences

    What clients, processes, the interrupt and the timer may do at any time, as the
    sections that run under the device's locks, and the theorem that each keeps the
    invariant and follows no bad pointer. *)

From S2P Require Import Prelude Counting DrmIrq DrmIrqSpec DrmIrqInv DrmIrqOps.

Section sys.
Context {Env : vblank_env} {Sizes : vblank_sizes} (modern : bool).
Notation core := (core modern).
Notation crtc_ok := (crtc_ok modern).
Notation calm := (calm modern).
Notation punctual := (punctual modern).
Notation modeset_ref := (modeset_ref modern).
Implicit Types (H : list Z) (F : list drm_pending_vblank_event).

(** ** Counter and events *)
Lemma core_tick H F d i v v' : core H F d -> vb_lookup d i = Some v -> refcount v' = refcount v -> inmodeset v' = inmodeset v ->
  (refcount v <> 0 -> enabled v' = true \/ (modern = true /\ inmodeset v' <> 0)) -> (modern = true -> inmodeset v' <> 0 -> enabled v' = false) ->
  core H F (set_vb i v' d).
Proof.
  intros K Hv Er Ei He Ho. destruct (k_crtc _ _ _ _ K i v Hv) as [Hc _ _].
  eapply core_vb; [exact K|exact Hv|done| |apply K|apply K]. split; [by rewrite Er, (modeset_ref_eq modern v v' Ei)|by rewrite Er|done].
Qed.

Lemma settled_punctual d d' : settled d d' ->
  (forall e v, e ∈ vblank_event_list d' -> vb_lookup d (pipe e) = Some v -> passed (count v) (sequence e) = false) ->
  (forall j v, vb_lookup d j = Some v -> modern = true -> inmodeset v <> 0 -> at_pipe j (vblank_event_list d') = 0) -> punctual d'.
Proof.
  intros S Hf Ho. split.
  - intros e v' He Hv'. destruct (S _ _ Hv') as (v & Hv & _ & Hc). rewrite Hc by (pose proof (at_pipe_elem e _ He); lia). by apply Hf.
  - intros j v' Hv' Hm Hin. destruct (S _ _ Hv') as (v & Hv & Ei & _). apply (Ho j v Hv Hm). by rewrite <- Ei.
Qed.

Lemma kept_elem due e l : e ∈ kept due l <-> e ∈ l /\ due e = false.
Proof. unfold kept. by rewrite !list_elem_of_In, List.filter_In, negb_true_iff. Qed.

Lemma count_time_triple i d h v Q : vb_lookup d i = Some v -> i < num_crtcs d -> Q (count v, vblanktimestamp v (count v)) (d, h) ->
  triple (drm_vblank_count_and_time i) (d, h) Q.
Proof.
  intros Hv Hn HQ. unfold drm_vblank_count_and_time. triple_run. destruct (Z.leb_spec (num_crtcs d) i); [lia|].
  apply triple_bind. unfold triple, vb. cbn [fst]. rewrite Hv. done.
Qed.

(** What the interrupt handler does to the counter. *)
Definition counted (v v1 : drm_vblank_crtc) : Prop :=
  v1 = v \/ exists t, new_vblank v t = true /\ v1 = with_count (u32 (count v + 1)) (set_vblanktimestamp (count v + 1) t v).

Definition reached (i : Z) (v : drm_vblank_crtc) (e : drm_pending_vblank_event) : bool := (pipe e =? i) && passed (count v) (sequence e).

Lemma handle_ok i H F d h : core H F d -> punctual d -> 0 <= i ->
  triple (drm_handle_vblank i) (d, h) (fun b s' => core H F s'.1 /\ punctual s'.1 /\
    (forall v, vb_lookup d i = Some v -> b = enabled v) /\
    (b = true -> exists v v1, vb_lookup d i = Some v /\ counted v v1 /\
       vblank_event_list s'.1 = kept (reached i v1) (vblank_event_list d) /\
       delivered (stamp (count v1) (vblanktimestamp v1 (count v1)) <$> List.filter (reached i v1) (vblank_event_list d)) (files d) (files s'.1))).
Proof.
  intros K P Hi. unfold drm_handle_vblank. triple_run. destruct (Z.eqb_spec (num_crtcs d) 0) as [E0|E0].
  { triple_run. split_and!; try done. intros v Hv. pose proof (lookup_crtc modern _ _ d i v K Hv). lia. }
  destruct (Z.leb_spec (num_crtcs d) i) as [Hn|Hn].
  { triple_run. split_and!; try done. intros v Hv. pose proof (lookup_crtc modern _ _ d i v K Hv). lia. }
  destruct (lookup_some modern _ _ d i K ltac:(lia)) as [v Hv]. pose proof (lookup_range d i v Hv) as Hr.
  triple_run. unfold triple at 1, vb at 1. cbn [fst]. rewrite Hv. cbn iota. destruct (enabled v) eqn:Ee; cbn [negb].
  2: { triple_run. split_and!; try done. intros v' Hv'. congruence. }
  apply triple_bind. eapply triple_mono; [eapply triple_wp; [exact Hv|apply timestamp_ok with (Q := fun _ v' _ => v' = v); done]|].
  intros [rc t] s1 (v0 & h1 & -> & ->). rewrite (set_same d i v Hv). cbn beta match.
  apply triple_bind. assert (triple (if new_vblank v t then count_vblank i t else mret tt) (d, h1)
    (fun _ s' => exists v1 h2, s' = (set_vb i v1 d, h2) /\ counted v v1 /\ ticked v v1 /\ enabled v1 = enabled v)) as Hcount.
  { destruct (new_vblank v t) eqn:En.
    - eapply triple_mono; [eapply triple_wp; [exact Hv|by apply count_vblank_ok]|]. intros [] s' (v1 & h2 & -> & ->). eexists _, h2. split_and!; [done| | |done].
      + right. by exists t.
      + split; try done. cbn. apply length_insert.
    - triple_run. exists v, h1. rewrite (set_same d i v Hv). split_and!; [done|by left|done|done]. }
  eapply triple_mono; [exact Hcount|]. intros [] s2 (v1 & h2 & -> & Hcnt & T & Ee1). clear Hcount.
  destruct T as [Tr Ti _ _]. destruct (k_crtc _ _ _ _ K i v Hv) as [_ Hce Hco].
  assert (core H F (set_vb i v1 d)) as K1 by (apply (core_tick H F d i v v1); [done..|rewrite Ee1, Ti; auto|rewrite Ee1, Ti; auto]).
  pose proof (lookup_set i d Hr v1) as Hv1. apply triple_bind. unfold drm_handle_vblank_events. apply triple_bind.
  eapply (count_time_triple i _ h2 v1); [done|done|]. triple_run.
  eapply triple_mono; [by apply (send_events_ok modern _ _ _ _ [] H F)|]. intros [] [d' h'] (K' & E' & N' & S' & D'). cbn [fst app] in *. triple_run.
  cbn [fst]. split_and!; [done| |intros v' Hv'; congruence|].
  - apply (settled_punctual (set_vb i v1 d) d' S'); rewrite E'.
    + intros e w [He Hdue]%kept_elem. destruct (decide (pipe e = i)) as [Hp|Hp].
      * rewrite Hp, Hv1, Z.eqb_refl in *. cbn [andb] in Hdue. by intros [= <-].
      * rewrite (lookup_set_other d i v1 (pipe e)) by lia. by apply (p_future _ _ P).
    + intros j w Hw Hm Hin. assert (at_pipe j (vblank_event_list d) = 0) as Hz.
      { destruct (decide (j = i)) as [->|Hne].
        - rewrite Hv1 in Hw. injection Hw as <-. rewrite Ti in Hin. by apply (p_on _ _ P i v).
        - rewrite lookup_set_other in Hw by lia. by apply (p_on _ _ P j w). }
      match goal with |- at_pipe j (kept ?due _) = _ => pose proof (at_pipe_kept due j (vblank_event_list d)) end.
      pose proof (at_pipe_bounds j (kept (fun e => (pipe e =? i) && passed (count v1) (sequence e)) (vblank_event_list d))). cbn [set_vb set_array vblank_event_list] in *. lia.
  - intros _. by exists v, v1.
Qed.

(** ** Mode setting and the timer *)
Definition inv (H : list Z) (F : list drm_pending_vblank_event) (d : drm_device) : Prop := core H F d /\ punctual d.

Lemma inv_vb H F d i v v' : inv H F d -> vb_lookup d i = Some v -> crtc_ok H (vblank_event_list d) i v' ->
  (at_pipe i (vblank_event_list d) <> 0 -> count v' = count v /\ (modern = true -> inmodeset v' <> 0 -> inmodeset v <> 0)) -> inv H F (set_vb i v' d).
Proof.
  intros [K P] Hv Hc Hq. split; [eapply core_vb; [exact K|exact Hv|done|done|apply K|apply K]|]. eapply calm_punctual; [|exact P]. by eapply calm_vb.
Qed.

Lemma off_ok i H F d h : inv H F d -> modern = true -> 0 <= i -> triple (drm_vblank_off i) (d, h) (fun _ s' => inv H F s'.1).
Proof.
  intros [K P] Hm Hi. unfold drm_vblank_off. triple_run. destruct (Z.leb_spec (num_crtcs d) i) as [Hn|Hn]; [triple_run; done|].
  destruct (lookup_some modern _ _ d i K ltac:(lia)) as [v Hv]. pose proof (lookup_range d i v Hv) as Hr.
  destruct (k_crtc _ _ _ _ K i v Hv) as [Hc He Ho]. destruct (core_refcount modern _ _ d i v K Hv) as (_ & _ & Hrc).
  apply triple_bind. eapply triple_mono; [eapply triple_wp; [exact Hv|by apply disable_save_ok]|]. intros [] s1 (v1 & h1 & -> & [Tr Ti _ _] & Ee).
  set (v2 := if inmodeset v1 =? 0 then with_inmodeset 1 (with_refcount (s32 (refcount v1 + 1)) v1) else v1).
  assert (core H F (set_vb i v2 d) /\ inmodeset v2 <> 0) as [K2 Hin2].
  { assert (inmodeset v2 <> 0 /\ enabled v2 = false /\ refcount v2 = held i H + at_pipe i (vblank_event_list d) + 1) as (E1 & E2 & E3).
    { unfold v2. unfold DrmIrqInv.modeset_ref in Hc. rewrite Hm in Hc. rewrite <- Ti in Hc. destruct (Z.eqb_spec (inmodeset v1) 0); cbn in *.
      - rewrite s32_small by (unfold is_s32; lia). split_and!; [done|done|lia].
      - split_and!; [done|done|lia]. }
    split; [|done]. eapply core_vb; [exact K|exact Hv|done| |apply K|apply K]. split; [|by right|done].
    rewrite E3. unfold DrmIrqInv.modeset_ref. rewrite Hm. destruct (Z.eqb_spec (inmodeset v2) 0); [done|]. done. }
  triple_run. unfold triple at 1, vb at 1. cbn [fst]. rewrite (lookup_set i d Hr v1). cbn iota. apply triple_bind.
  assert (forall (Q : unit -> st -> Prop), Q tt (set_vb i v2 d, h1) -> triple (if inmodeset v1 =? 0 then mod_vb i (fun v => with_inmodeset 1 (with_refcount (s32 (refcount v + 1)) v)) else mret tt) (set_vb i v1 d, h1) Q) as Hstep.
  { intros Q HQ. unfold v2 in HQ. destruct (inmodeset v1 =? 0); [|done].
    unfold mod_vb. apply triple_bind. unfold triple at 1, vb at 1. cbn [fst]. rewrite (lookup_set i d Hr v1). cbn iota. triple_run. by rewrite set_vb_twice. }
  apply Hstep. apply triple_bind. eapply (count_time_triple i _ h1 v2); [apply lookup_set; done|done|]. triple_run.
  eapply triple_mono; [by apply (send_events_ok modern _ _ _ _ [] H F)|]. intros [] [d' h'] (K' & E' & N' & S' & D'). cbn [fst app] in *. split; [done|].
  apply (settled_punctual (set_vb i v2 d) d' S'); rewrite E'.
  - intros e w [Hel Hdue]%kept_elem Hw. apply Z.eqb_neq in Hdue. rewrite lookup_set_other in Hw by (done || lia). by apply (p_future _ _ P e w).
  - intros j w Hw _ Hin. destruct (decide (j = i)) as [->|Hne].
    + apply lsum_zero. intros e [_ Hdue]%kept_elem. by rewrite Hdue.
    + rewrite lookup_set_other in Hw by (done || lia). pose proof (p_on _ _ P j w Hw Hm Hin).
      pose proof (at_pipe_kept (fun e => pipe e =? i) j (vblank_event_list d)). pose proof (at_pipe_bounds j (kept (fun e => pipe e =? i) (vblank_event_list d))).
      cbn [set_vb set_array vblank_event_list] in *. lia.
Qed.

Lemma on_inv i H F d h : inv H F d -> modern = true -> 0 <= i -> (forall g, (enable_vblank i g).1 = 0) -> triple (drm_vblank_on i) (d, h) (fun _ s' => inv H F s'.1).
Proof.
  intros I Hm Hi Hen. destruct I as [K P]. destruct (decide (i < num_crtcs d)) as [Hn|Hn].
  2: { unfold drm_vblank_on. triple_run. destruct (Z.leb_spec (num_crtcs d) i); [triple_run; done|lia]. }
  destruct (lookup_some modern _ _ d i K ltac:(lia)) as [v Hv]. pose proof (lookup_range d i v Hv) as Hr.
  destruct (k_crtc _ _ _ _ K i v Hv) as [Hc He Ho]. destruct (core_refcount modern _ _ d i v K Hv) as (Hh & Hp & Hrc).
  unfold DrmIrqInv.modeset_ref in Hc. rewrite Hm in Hc. pose proof (b2z_pos (negb (inmodeset v =? 0))).
  eapply triple_mono; [eapply triple_wp; [exact Hv|apply on_ok; [done|done|lia|done]]|]. intros [] s' (v' & h' & -> & Ei & Er & Ee & Ec). cbn [fst].
  apply (inv_vb H F d i v v'); [done|done| |].
  - split; [|by left; apply Ee|by rewrite Ei]. unfold DrmIrqInv.modeset_ref. rewrite Hm, Ei. cbn. lia.
  - intros Hpe. destruct (pending_enabled modern H F d i v K P Hv Hpe) as [Een _]. split; [by apply Ec|by rewrite Ei].
Qed.

Lemma pre_inv i H F d h : inv H F d -> modern = false -> 0 <= i < num_crtcs d -> triple (drm_vblank_pre_modeset i) (d, h) (fun _ s' => inv H F s'.1).
Proof.
  intros I Hm Hi. destruct I as [K P]. destruct (lookup_some modern _ _ d i K ltac:(lia)) as [v Hv]. pose proof (lookup_range d i v Hv) as Hr.
  destruct (k_crtc _ _ _ _ K i v Hv) as [Hc He Ho]. destruct (core_refcount modern _ _ d i v K Hv) as (Hh & Hp & Hrc).
  unfold DrmIrqInv.modeset_ref in Hc. rewrite Hm in Hc, He.
  eapply triple_mono; [eapply triple_wp; [exact Hv|apply pre_ok; [done|unfold is_s32; lia|lia|lia]]|].
  intros [] s' (v' & h' & -> & [->|[(E0 & ->)|(E0 & Er & Ei & Ee & Ec)]]); cbn [fst]; [by rewrite (set_same d i v Hv)|..].
  - apply (inv_vb H F d i v); [done|done| |by rewrite Hm]. rewrite E0 in Hc. split; [|intros Hne; left; by destruct (He Hne) as [|[? _]]|by rewrite Hm]. unfold DrmIrqInv.modeset_ref. rewrite Hm. exact Hc.
  - rewrite s32_small in Er by (unfold is_s32; lia). apply (inv_vb H F d i v); [done|done| |].
    + split; [|by left|by rewrite Hm]. unfold DrmIrqInv.modeset_ref. rewrite Hm, Ei, Er, Hc, E0. change (b2z (truth (Z.land 0 2))) with 0. change (b2z (truth (Z.land 3 2))) with 1. lia.
    + intros Hpe. destruct (pending_enabled modern H F d i v K P Hv Hpe) as [Een _]. split; [by apply Ec|by rewrite Hm].
Qed.

Lemma inv_allowed H F d b : inv H F d -> inv H F (set_allowed b d).
Proof. intros [K P]. split; split; cbn; try apply K; apply P. Qed.

Lemma post_inv i H F d h : inv H F d -> modern = false -> 0 <= i < num_crtcs d -> triple (drm_vblank_post_modeset i) (d, h) (fun _ s' => inv H F s'.1).
Proof.
  intros I Hm Hi. unfold drm_vblank_post_modeset. triple_run. destruct (Z.eqb_spec (num_crtcs d) 0); [lia|].
  destruct (lookup_some modern _ _ d i (proj1 I) ltac:(lia)) as [v Hv]. triple_run. unfold triple at 1, vb at 1. cbn [fst]. rewrite Hv. cbn iota.
  destruct (negb (inmodeset v =? 0)); [|triple_run; done]. apply triple_bind. triple_step. apply (inv_allowed H F d true) in I. destruct I as [K P].
  assert (vb_lookup (set_allowed true d) i = Some v) as Hv1 by done. pose proof (lookup_range _ i v Hv1) as Hr.
  destruct (k_crtc _ _ _ _ K i v Hv1) as [Hc He Ho]. destruct (core_refcount modern _ _ _ i v K Hv1) as (Hh & Hp & Hrc).
  unfold DrmIrqInv.modeset_ref in Hc. rewrite Hm in Hc, He.
  eapply triple_mono; [eapply triple_wp; [exact Hv1|apply post_ok; [done| |cbn; lia]]|].
  { intros E. rewrite E in Hc. cbn [b2z] in Hc. lia. }
  intros [] s' (v' & h' & -> & Er & Ei & Ec). cbn [fst]. apply (inv_vb H F _ i v v'); [done|done| |].
  - split; [|intros Hne; rewrite Hm; left; destruct (Ec Hne) as [_ ->]; destruct He as [|[? _]]; [rewrite Er in Hne; destruct (truth _); cbn in *; lia|done|done]|by rewrite Hm].
    unfold DrmIrqInv.modeset_ref. rewrite Hm, Ei. change (b2z (truth (Z.land 0 2))) with 0. lia.
  - intros Hpe. split; [|by rewrite Hm]. apply Ec. rewrite Er, Hc. destruct (truth _); cbn [b2z]; lia.
Qed.

Lemma timer_inv i H F d h v : inv H F d -> vb_lookup d i = Some v -> triple (mod_vb i (with_timer false);; vblank_disable_fn i) (d, h) (fun _ s' => inv H F s'.1).
Proof.
  intros [K P] Hv. pose proof (lookup_range d i v Hv) as Hr. destruct (k_crtc _ _ _ _ K i v Hv) as [Hc He Ho].
  destruct (core_refcount modern _ _ d i v K Hv) as (Hh & Hp & Hrc). pose proof (modeset_ref_bounds modern v).
  eapply triple_mono; [eapply triple_wp; [exact Hv|by apply timer_ok]|]. intros [] s' (v' & h' & -> & Er & Ei & Ec & Ee). cbn [fst].
  apply (inv_vb H F d i v v'); [done|done| |].
  - split; [by rewrite Er, (modeset_ref_eq modern v v' Ei)|rewrite Er; intros Hne; destruct (Ec Hne) as [_ ->]; rewrite Ei; by apply He|].
    rewrite Ei. intros Hm Hin. destruct (enabled v') eqn:E; [|done]. rewrite (Ho Hm Hin) in Ee. by discriminate Ee.
  - intros Hpe. rewrite Ei. split; [|done]. apply Ec. lia.
Qed.

(** ** Files *)
Lemma punctual_ext d d' : vblank_event_list d' = vblank_event_list d -> vblank d' = vblank d -> punctual d -> punctual d'.
Proof. intros E V [Pf Po]. split; unfold vb_lookup in *; rewrite E, V; [apply Pf|apply Po]. Qed.

Lemma file_space H F d f x : core H F d -> files d !! f = Some x -> 0 <= event_space x <= 4096 /\ sizeof_event * Z.of_nat (length (event_list x)) <= 4096 - event_space x.
Proof.
  intros K Hx. destruct (k_file _ _ _ _ K f x Hx) as [Hs Hp]. pose proof (of_file_bounds f (vblank_event_list d)). pose proof (of_file_bounds f F). pose proof sizeof_pos. nia.
Qed.

Lemma of_file_other f g e F : file_priv e = f -> g <> f -> of_file g (e :: F) = of_file g F.
Proof. intros E Hg. rewrite of_file_cons. destruct (Z.eqb_spec (file_priv e) g); [congruence|done]. Qed.

Lemma reserve_event_core H F d f x e : core H F d -> files d !! f = Some x -> sizeof_event <= event_space x -> file_priv e = f ->
  core H (e :: F) (set_files (<[f := MkFile (s32 (event_space x - sizeof_event)) (event_list x)]> (files d)) d).
Proof.
  intros K Hx Hsp E. pose proof (file_space H F d f x K Hx) as [Hb _]. pose proof sizeof_pos. destruct (k_file _ _ _ _ K f x Hx) as [Hs Hp].
  eapply core_file; [exact K|by exists x| |intros g Hg; by apply (of_file_other f)|].
  - rewrite s32_small by (unfold is_s32; lia). split; cbn [event_space event_list]; [|lia]. rewrite of_file_cons, E, Z.eqb_refl. cbn [b2z]. lia.
  - intros e0 [->|He]%elem_of_cons; [rewrite E; by exists x|]. apply (k_open _ _ _ _ K), elem_of_app. by right.
Qed.

Lemma release_core H F d x e : core H (e :: F) d -> files d !! file_priv e = Some x ->
  core H F (set_files (<[file_priv e := MkFile (s32 (event_space x + sizeof_event)) (event_list x)]> (files d)) d).
Proof.
  intros K Hx. pose proof (file_space _ _ d _ x K Hx) as [Hb _]. pose proof sizeof_pos. destruct (k_file _ _ _ _ K _ x Hx) as [Hs Hp].
  rewrite of_file_cons, Z.eqb_refl in Hs. cbn [b2z] in Hs. eapply core_file; [exact K|by exists x| |intros g Hg; symmetry; by apply (of_file_other (file_priv e))|].
  - pose proof (of_file_bounds (file_priv e) F). pose proof (of_file_bounds (file_priv e) (vblank_event_list d)).
    rewrite s32_small by (unfold is_s32; lia). split; cbn [event_space event_list]; [lia|lia].
  - intros e0 He. apply (k_open _ _ _ _ K), elem_of_app. right. by right.
Qed.

Lemma put_inv i H F d h : inv (i :: H) F d -> triple (drm_vblank_put i) (d, h) (fun _ s' => inv H F s'.1).
Proof.
  intros [K P]. eapply triple_mono; [by apply (put_core modern i H F)|]. intros [] s' (K' & C & _). split; [done|]. by eapply calm_punctual.
Qed.

Lemma get_inv i H F d h : inv H F d -> 0 <= i < num_crtcs d -> Z.of_nat (length (i :: H) + length (vblank_event_list d)) + 2 < 2 ^ 31 ->
  triple (drm_vblank_get i) (d, h) (fun ret s' => inv (if ret =? 0 then i :: H else H) F s'.1 /\ num_crtcs s'.1 = num_crtcs d).
Proof.
  intros [K P] Hi Hb. eapply triple_mono; [by apply (get_calm modern i H F)|]. intros ret s' (K' & C). split; [|apply (q_num _ _ _ C)].
  split; [done|]. by eapply calm_punctual.
Qed.

Lemma send_inv e e' H F d h seq now : inv H (e :: F) d -> file_priv e' = file_priv e -> triple (send_vblank_event e' seq now) (d, h) (fun _ s' => inv H F s'.1).
Proof.
  intros [K P] E. eapply triple_mono; [by apply (send_core modern e e' H F)|]. intros [] s' (K' & E' & V' & _). split; [done|]. by eapply punctual_ext.
Qed.

Lemma queue_inv kzalloc i w f H F d h : inv (i :: H) F d -> is_Some (files d !! f) ->
  triple (drm_queue_vblank_event kzalloc i w f) (d, h) (fun _ s' => inv H F s'.1).
Proof.
  intros I [x Hx]. assert (forall a : Z * vblwait, triple (drm_vblank_put i;; mret a) (d, h) (fun _ s' => inv H F s'.1)) as Hput.
  { intros a. apply triple_bind. eapply triple_mono; [by apply put_inv|]. done. }
  unfold drm_queue_vblank_event. destruct kzalloc; cbn [negb]; [|apply Hput]. destruct I as [K P].
  pose proof (k_held _ _ _ _ K i ltac:(by left)) as Hi. destruct (lookup_some modern _ _ d i K Hi) as [v Hv].
  apply triple_bind. unfold triple at 1, vb at 1. cbn [fst]. rewrite Hv. cbn iota. destruct (enabled v) eqn:Ee; cbn [negb]; [|apply Hput].
  apply triple_bind. eapply triple_file; [exact Hx|]. pose proof (file_space _ _ d f x K Hx) as [Hsp _].
  rewrite ul_small by (unfold is_ul; lia). destruct (Z.ltb_spec (event_space x) sizeof_event) as [|Hle]; [apply Hput|]. triple_run.
  set (d1 := set_files _ _). eapply (count_time_triple i d1 h v); [done|exact (proj2 Hi)|]. cbn beta match.
  set (w' := if _ && _ then _ else w). set (e := MkEvent i f DRM_EVENT_VBLANK (w_signal w') (w_sequence w') 0 0).
  assert (inv (i :: H) (e :: F) d1) as I1 by (split; [by apply reserve_event_core|by apply (punctual_ext d)]). clear Hput.
  destruct (passed (count v) (w_sequence w')) eqn:Ep.
  - apply triple_bind. eapply triple_mono; [by apply put_inv|]. intros [] [d2 h2] I2. apply triple_bind.
    eapply triple_mono; [by apply (send_inv e e H F)|]. intros [] s3 I3. done.
  - triple_run. destruct I1 as [K1 P1]. split; [by apply (core_queue modern H F d1 e v)|]. cbn [fst]. split; cbn [vblank_event_list set_events]; change (vblank_event_list d1) with (vblank_event_list d).
    + intros e0 v0 He0. change (vb_lookup (set_events (vblank_event_list d ++ [e]) d1)) with (vb_lookup d). apply elem_of_app in He0 as [He0|He0]; [by apply (p_future _ _ P)|].
      apply list_elem_of_singleton in He0 as ->. intros Hv0. cbn in Hv0. rewrite Hv in Hv0. by injection Hv0 as <-.
    + intros j v0. change (vb_lookup (set_events (vblank_event_list d ++ [e]) d1)) with (vb_lookup d). intros Hv0 Hm Hin. rewrite at_pipe_app, at_pipe_cons.
      rewrite (p_on _ _ P j v0 Hv0 Hm Hin). cbn. destruct (Z.eqb_spec i j) as [<-|]; [|done]. rewrite Hv in Hv0. injection Hv0 as <-.
      by rewrite (c_off _ _ _ _ _ (k_crtc _ _ _ _ K i v Hv) Hm Hin) in Ee.
Qed.

Lemma begin_inv w H F d h : inv H F d -> 0 <= w_type w -> Z.of_nat (S (length H) + length (vblank_event_list d)) + 2 < 2 ^ 31 ->
  triple (wait_begin w) (d, h) (fun r s' => inv (match r with inl _ => H | inr (c, _, _, _) => c :: H end) F s'.1).
Proof.
  intros I Hw Hb. unfold wait_begin. triple_run. destruct (irq_enabled d); cbn [negb]; [|triple_run; done]. destruct (truth _); [triple_run; done|]. destruct (truth _); [triple_run; done|].
  set (crtc := if truth (Z.land (w_type w) _DRM_VBLANK_HIGH_CRTC_MASK) then _ else _). assert (0 <= crtc) as Hc.
  { unfold crtc. destruct (truth _); [|by destruct (truth _)]. apply Z.shiftr_nonneg, Z.land_nonneg. by left. }
  destruct (Z.leb_spec (num_crtcs d) crtc) as [|Hn]; [triple_run; done|]. apply triple_bind. eapply triple_mono; [by apply (get_inv crtc H F)|].
  intros ret [d1 h1] [I1 N1]. unfold truth. destruct (Z.eqb_spec ret 0) as [->|Hret]; cbn [negb]; [|triple_run; done]. cbn [fst] in *.
  pose proof (k_held _ _ _ _ (proj1 I1) crtc ltac:(by left)) as Hc1. destruct (lookup_some modern _ _ d1 crtc (proj1 I1) Hc1) as [v Hv].
  apply triple_bind. unfold drm_vblank_count. triple_run. destruct (Z.leb_spec (num_crtcs d1) crtc); [lia|]. triple_run. unfold triple at 1, vb at 1. cbn [fst]. rewrite Hv. cbn iota.
  triple_run. destruct (_ =? _); [triple_run; done|]. destruct (_ =? _); [triple_run; done|]. triple_run.
  eapply triple_mono; [by apply put_inv|]. done.
Qed.

Lemma end_inv i ret w H F d h : inv (i :: H) F d -> triple (wait_end i ret w) (d, h) (fun _ s' => inv H F s'.1).
Proof.
  intros I. unfold wait_end. apply triple_bind. pose proof (k_held _ _ _ _ (proj1 I) i ltac:(by left)) as Hi.
  destruct (lookup_some modern _ _ d i (proj1 I) Hi) as [v Hv]. destruct (negb _).
  - apply triple_bind. eapply (count_time_triple i d h v); [done|lia|]. triple_run. eapply triple_mono; [by apply put_inv|]. done.
  - triple_run. eapply triple_mono; [by apply put_inv|]. done.
Qed.

Lemma dequeue_inv f total max H F d h : inv H F d -> is_Some (files d !! f) -> triple (drm_dequeue_event f total max) (d, h) (fun _ s' => inv H F s'.1).
Proof.
  intros [K P] [x Hx]. unfold drm_dequeue_event. apply triple_bind. eapply triple_file; [exact Hx|].
  destruct (event_list x) as [|e l] eqn:El; [triple_run; done|]. destruct (_ <? _); [triple_run; done|]. triple_run.
  split; [|by apply (punctual_ext d)]. pose proof (file_space H F d f x K Hx) as [Hb Hl]. pose proof sizeof_pos. destruct (k_file _ _ _ _ K f x Hx) as [Hs Hp].
  eapply core_file; [exact K|by exists x| |done|intros e0 He; apply (k_open _ _ _ _ K), elem_of_app; by right]. rewrite El in Hs, Hl. cbn [length] in *.
  rewrite s32_small by (unfold is_s32; nia). split; cbn [event_space event_list]; [lia|lia].
Qed.

Lemma flip_inv kzalloc data f H F d h : inv H F d -> is_Some (files d !! f) ->
  triple (flip_event kzalloc data f) (d, h) (fun r s' => inv H (match r with inl _ => F | inr e => e :: F end) s'.1).
Proof.
  intros [K P] [x Hx]. unfold flip_event. apply triple_bind. eapply triple_file; [exact Hx|]. pose proof (file_space _ _ d f x K Hx) as [Hsp _].
  rewrite ul_small by (unfold is_ul; lia). destruct (Z.ltb_spec (event_space x) sizeof_event) as [|Hle]; [triple_run; done|]. triple_run.
  set (d1 := set_files _ _). pose (e := MkEvent 0 f DRM_EVENT_FLIP_COMPLETE data 0 0 0).
  assert (inv H (e :: F) d1) as [K1 P1] by (split; [by apply reserve_event_core|by apply (punctual_ext d)]).
  destruct kzalloc; cbn [negb]; [triple_run; done|]. triple_run. eapply triple_file; [apply lookup_insert_eq|]. triple_run.
  split; [|by apply (punctual_ext d1)]. apply (release_core H F d1 _ e K1). apply lookup_insert_eq.
Qed.

Lemma refuse_inv e H F d h : inv H (e :: F) d -> triple (flip_refused (file_priv e)) (d, h) (fun _ s' => inv H F s'.1).
Proof.
  intros [K P]. destruct (k_open _ _ _ _ K e) as [x Hx]; [apply elem_of_app; right; by left|]. unfold flip_refused. apply triple_bind.
  eapply triple_file; [exact Hx|]. triple_run. split; [by apply release_core|by apply (punctual_ext d)].
Qed.

Lemma flip_send_inv crtc e H F d h : inv H (e :: F) d -> triple (drm_send_vblank_event crtc e) (d, h) (fun _ s' => inv H F s'.1).
Proof.
  intros I. unfold drm_send_vblank_event. apply triple_bind. destruct (Z.leb_spec 0 crtc) as [H0|H0].
  - destruct (decide (crtc < num_crtcs d)) as [Hn|Hn].
    + destruct (lookup_some modern _ _ d crtc (proj1 I) ltac:(lia)) as [v Hv]. eapply (count_time_triple crtc d h v); [done|done|]. cbn beta match. by apply (send_inv e).
    + unfold drm_vblank_count_and_time. triple_run. destruct (Z.leb_spec (num_crtcs d) crtc); [|lia]. triple_run. by apply (send_inv e).
  - unfold get_drm_timestamp, triple at 1, mbind, io_bind, call. cbn. by apply (send_inv e).
Qed.

Lemma open_inv f H F d : inv H F d -> files d !! f = None -> inv H F (set_files (<[f := MkFile 4096 []]> (files d)) d).
Proof.
  intros [K P] Hf. split; [|by apply (punctual_ext d)]. assert (forall e, e ∈ vblank_event_list d ++ F -> (file_priv e =? f) = false) as Hno.
  { intros e He. apply Z.eqb_neq. intros <-. destruct (k_open _ _ _ _ K e He) as [x Hx]. congruence. }
  split; cbn; try apply K.
  - intros g x. destruct (decide (g = f)) as [->|Hne]; [|rewrite lookup_insert_ne by done; apply K]. rewrite lookup_insert_eq. intros [= <-]. split; cbn; [|lia].
    unfold of_file. rewrite !lsum_zero; [lia|..]; intros e He; (rewrite Hno; [done|apply elem_of_app; auto]).
  - intros e He. destruct (decide (file_priv e = f)) as [->|Hne]; [by rewrite lookup_insert_eq|]. rewrite lookup_insert_ne by done. by apply (k_open _ _ _ _ K).
Qed.

Lemma close_inv f H F d h : inv H F d -> is_Some (files d !! f) -> (forall e, e ∈ F -> file_priv e <> f) ->
  triple (drm_events_release f;; mod_dev (fun d => set_files (delete f (files d)) d)) (d, h) (fun _ s' => inv H F s'.1).
Proof.
  intros [K P] [x Hx] HF. unfold drm_events_release. apply triple_bind. triple_run. eapply triple_mono; [by apply (drop_events_ok modern f _ [] H F)|].
  intros [] [d1 h1] (es & K1 & Hes & E1 & N1 & S1 & F1). cbn [fst app] in *. triple_run. eapply (triple_file f d1 h1 x); [by rewrite F1|]. triple_run. cbn [files set_files].
  rewrite delete_insert_eq. assert (forall e, e ∈ vblank_event_list d1 -> file_priv e <> f) as Hev.
  { intros e He. rewrite E1 in He. apply kept_elem in He as [_ He]. by apply Z.eqb_neq. }
  split.
  - split; cbn; try apply K1.
    + intros g y. destruct (decide (g = f)) as [->|Hne]; [by rewrite lookup_delete_eq|]. rewrite lookup_delete_ne by done. intros Hy.
      destruct (k_file _ _ _ _ K1 g y Hy) as [Hs Hp]. split; [|done]. rewrite <- Hs, of_file_app. unfold of_file at 4. rewrite (lsum_zero _ es); [lia|].
      intros e He. rewrite (Hes e He). destruct (Z.eqb_spec f g); [congruence|done].
    + intros e He. assert (file_priv e <> f) as Hne by (apply elem_of_app in He as [He|He]; auto). rewrite lookup_delete_ne by done.
      apply (k_open _ _ _ _ K1). rewrite !elem_of_app in *. destruct He; auto.
  - apply (punctual_ext d1); [done|done|]. apply (settled_punctual d d1 S1); rewrite E1.
    + intros e v [He _]%kept_elem. by apply (p_future _ _ P).
    + intros j v Hv Hm Hin. pose proof (p_on _ _ P j v Hv Hm Hin). pose proof (at_pipe_kept (fun e => file_priv e =? f) j (vblank_event_list d)).
      pose proof (at_pipe_bounds j (kept (fun e => file_priv e =? f) (vblank_event_list d))). lia.
Qed.

(** ** Sequences of calls *)

(** A device with what its clients hold. *)
Record sys := MkSys { state : st; holders : list Z; flips : list drm_pending_vblank_event }.
Definition sdev (s : sys) : drm_device := (state s).1.

(** The sections of the calls: references of clients, the interrupt, the timer, mode
    setting, the wait ioctl before and after its sleep and its queueing of an event,
    reading, opening and closing a file, and page flips, from the reservation of their
    event to its completion or refusal. *)
Inductive request :=
| RGet (i : Z) | RPut (i : Z) | RIrq (i : Z) | RTimer (i : Z) | ROff (i : Z) | ROn (i : Z) | RPre (i : Z) | RPost (i : Z) | RAllow
| RBegin (w : vblwait) | RQueue (kzalloc : bool) (i : Z) (w : vblwait) (f : Z) | REnd (i ret : Z) (w : vblwait)
| RRead (f total max : Z) | ROpen (f : Z) | RClose (f : Z)
| RFlip (kzalloc : bool) (data f : Z) | RRefuse (e : drm_pending_vblank_event) | RSend (crtc : Z) (e : drm_pending_vblank_event).

Fixpoint remove_one {A} `{EqDecision A} (x : A) (l : list A) : list A :=
  match l with [] => [] | a :: l => if decide (a = x) then l else a :: remove_one x l end.

Definition lift {A} (c : io A) (s : sys) (hs : A -> list Z) (fs : A -> list drm_pending_vblank_event) : run sys :=
  match c (state s) with Done (a, s') => Done (MkSys s' (hs a) (fs a)) | Oops => Oops | Loops => Loops end.

Definition exec (r : request) (s : sys) : run sys :=
  let H := holders s in
  let F := flips s in
  match r with
  | RGet i => lift (drm_vblank_get i) s (fun ret => if ret =? 0 then i :: H else H) (fun _ => F)
  | RPut i => lift (drm_vblank_put i) s (fun _ => remove_one i H) (fun _ => F)
  | RIrq i => lift (drm_handle_vblank i) s (fun _ => H) (fun _ => F)
  | RTimer i => lift (mod_vb i (with_timer false);; vblank_disable_fn i) s (fun _ => H) (fun _ => F)
  | ROff i => lift (drm_vblank_off i) s (fun _ => H) (fun _ => F)
  | ROn i => lift (drm_vblank_on i) s (fun _ => H) (fun _ => F)
  | RPre i => lift (drm_vblank_pre_modeset i) s (fun _ => H) (fun _ => F)
  | RPost i => lift (drm_vblank_post_modeset i) s (fun _ => H) (fun _ => F)
  | RAllow => lift (mod_dev (set_allowed true)) s (fun _ => H) (fun _ => F)
  | RBegin w => lift (wait_begin w) s (fun r => match r with inl _ => H | inr (c, _, _, _) => c :: H end) (fun _ => F)
  | RQueue kzalloc i w f => lift (drm_queue_vblank_event kzalloc i w f) s (fun _ => remove_one i H) (fun _ => F)
  | REnd i ret w => lift (wait_end i ret w) s (fun _ => remove_one i H) (fun _ => F)
  | RRead f total max => lift (drm_dequeue_event f total max) s (fun _ => H) (fun _ => F)
  | ROpen f => lift (mod_dev (fun d => set_files (<[f := MkFile 4096 []]> (files d)) d)) s (fun _ => H) (fun _ => F)
  | RClose f => lift (drm_events_release f;; mod_dev (fun d => set_files (delete f (files d)) d)) s (fun _ => H) (fun _ => F)
  | RFlip kzalloc data f => lift (flip_event kzalloc data f) s (fun _ => H) (fun r => match r with inl _ => F | inr e => e :: F end)
  | RRefuse e => lift (flip_refused (file_priv e)) s (fun _ => H) (fun _ => remove_one e F)
  | RSend crtc e => lift (drm_send_vblank_event crtc e) s (fun _ => H) (fun _ => remove_one e F)
  end.

(** Fewer references than the counter has values. *)
Definition room (s : sys) : Prop := Z.of_nat (S (length (holders s)) + length (vblank_event_list (sdev s))) + 2 < 2 ^ 31.

(** Clients give up only what they hold and use files that are open; a driver that
    switches a CRTC on can enable its interrupt, and has no flip left when a file is
    closed. *)
Definition allowed (s : sys) (r : request) : Prop :=
  let open f := is_Some (files (sdev s) !! f) in
  let valid i := 0 <= i < num_crtcs (sdev s) in
  match r with
  | RGet i => 0 <= i /\ room s
  | RPut i | REnd i _ _ => i ∈ holders s
  | RIrq i => 0 <= i
  | RTimer i => exists v, vb_lookup (sdev s) i = Some v /\ timer v = true
  | ROff i => modern = true /\ 0 <= i
  | ROn i => modern = true /\ 0 <= i /\ (forall g, (enable_vblank i g).1 = 0)
  | RPre i | RPost i => modern = false /\ valid i
  | RAllow => True
  | RBegin w => 0 <= w_type w /\ room s
  | RQueue _ i _ f => i ∈ holders s /\ open f
  | RRead f _ _ | RFlip _ _ f => open f
  | ROpen f => files (sdev s) !! f = None
  | RClose f => open f /\ (forall e, e ∈ flips s -> file_priv e <> f)
  | RRefuse e | RSend _ e => e ∈ flips s
  end.

Definition step (s s' : sys) : Prop := exists r, allowed s r /\ exec r s = Done s'.

(** A device after [drm_vblank_init], with no file open. *)
Definition fresh (n : Z) (s : sys) : Prop :=
  exists d h, 0 <= n /\ vblank_event_list d = [] /\ files d = ∅ /\ drm_vblank_init true n (d, h) = Done (0, state s) /\ holders s = [] /\ flips s = [].

Definition reachable (s : sys) : Prop := exists n s0, fresh n s0 /\ rtc step s0 s.

Definition inv_sys (s : sys) : Prop := inv (holders s) (flips s) (sdev s).

Lemma remove_one_perm {A} `{EqDecision A} (x : A) l : x ∈ l -> x :: remove_one x l ≡ₚ l.
Proof.
  induction l as [|a l IH]; [by intros ?%not_elem_of_nil|]. cbn. destruct (decide (a = x)) as [->|Hne]; [done|].
  intros [->|Hx]%elem_of_cons; [done|]. by rewrite perm_swap, IH.
Qed.

Lemma inv_shuffle H H' F F' d : H ≡ₚ H' -> F ≡ₚ F' -> inv H F d -> inv H' F' d.
Proof. intros EH EF [K P]. split; [by eapply core_perm|done]. Qed.

Definition safe (r : run sys) : Prop := match r with Done s' => inv_sys s' | Oops => False | Loops => True end.

Lemma lift_safe {A} (c : io A) s hs fs : triple c (state s) (fun a s' => inv (hs a) (fs a) s'.1) -> safe (lift c s hs fs).
Proof. unfold triple, lift, safe, inv_sys, sdev. by destruct (c (state s)) as [[a s']| |]. Qed.

Lemma exec_safe r s : inv_sys s -> allowed s r -> safe (exec r s).
Proof.
  destruct s as [[d h] H F]. unfold inv_sys, sdev. cbn [state holders flips fst]. intros I.
  assert (forall i, i ∈ H -> inv (i :: remove_one i H) F d) as Ih by (intros i Hi; eapply inv_shuffle; [symmetry; by apply remove_one_perm|reflexivity|done]).
  assert (forall e, e ∈ F -> inv H (e :: remove_one e F) d) as If by (intros e He; eapply inv_shuffle; [reflexivity|symmetry; by apply remove_one_perm|done]).
  destruct r; unfold allowed, exec, room, sdev; cbn [state holders flips fst]; intros Ha; apply lift_safe; cbn [state].
  - destruct Ha as [Hv Hr]. destruct (decide (i < num_crtcs d)) as [Hn|Hn]; [eapply triple_mono; [by apply get_inv|]; by intros ret s' [? _]|].
    unfold drm_vblank_get. triple_run. destruct (Z.leb_spec (num_crtcs d) i); [|lia]. triple_run. done.
  - apply put_inv, Ih, Ha.
  - eapply triple_mono; [by apply handle_ok; [apply I|apply I|]|]. intros b s' (K & P & _). by split.
  - destruct Ha as (v & Hv & _). by eapply timer_inv.
  - destruct Ha. by apply off_ok.
  - destruct Ha as (? & ? & ?). by apply on_inv.
  - destruct Ha. by apply pre_inv.
  - destruct Ha. by apply post_inv.
  - triple_run. by apply inv_allowed.
  - destruct Ha. by apply begin_inv.
  - destruct Ha as [Hi Ho]. apply queue_inv; [by apply Ih|done].
  - by apply end_inv, Ih.
  - by apply dequeue_inv.
  - triple_run. by apply open_inv.
  - destruct Ha. by apply close_inv.
  - by apply flip_inv.
  - by apply refuse_inv, If.
  - by apply flip_send_inv, If.
Qed.

Lemma fresh_inv n s : fresh n s -> inv_sys s.
Proof.
  intros (d & h & Hn & Ee & Ef & Ei & EH & EF). unfold inv_sys, sdev. rewrite EH, EF. unfold drm_vblank_init in Ei. cbn in Ei. injection Ei as <-. cbn.
  assert (forall i v, vb_lookup (set_allowed false (set_array n (replicate (Z.to_nat n) new_vblank_crtc) d)) i = Some v -> v = new_vblank_crtc) as Hnew.
  { intros i v. unfold vb_lookup. destruct (i <? 0); [done|]. cbn. by intros [-> _]%lookup_replicate. }
  split.
  - split; cbn; rewrite ?Ee, ?Ef.
    + rewrite length_replicate. lia.
    + intros i v ->%Hnew. split; cbn; [|done|done]. unfold DrmIrqInv.modeset_ref. by destruct modern.
    + intros c Hc. by apply not_elem_of_nil in Hc.
    + intros e He. by apply not_elem_of_nil in He.
    + done.
    + intros f x. by rewrite lookup_empty.
    + intros e He. by apply not_elem_of_nil in He.
  - split; cbn; rewrite Ee; [intros e v He; by apply not_elem_of_nil in He|done].
Qed.

Lemma reached_inv s : reachable s -> inv_sys s.
Proof.
  intros (n & s0 & Hf%fresh_inv & Hr). induction Hr as [|s1 s2 s3 (r & Ha & He) _ IH]; [done|]. apply IH.
  pose proof (exec_safe r s1 Hf Ha) as Hs. by rewrite He in Hs.
Qed.
End sys.
