(* ===== verification/DrmIrqCount.v ===== *)
(** * Vertical blanking: the counter and the frames of the hardware

    A display that counts its frames, tells the time of the last vertical blank
    precisely, and is slow compared with the routines.  The software counter then
    follows the frames through interrupts, redundant interrupts, switching off and on:
    it is the number of a frame plus a constant, and its timestamp is that frame's. *)

From S2P Require Import Prelude Counting DrmIrq DrmIrqSpec DrmIrqInv DrmIrqOps DrmIrqSys.

(** [frame] is the number of frames so far, [at_time] when each began, [tick] one
    callback; the hardware's counter has the values 0 to [M]. *)
Class frame_laws `{vblank_env} (i M : Z) (frame : hw -> Z) (at_time : Z -> timeval) (tick : hw -> hw -> Prop) : Prop := {
  fr_counter h x h' : get_vblank_counter i h = (x, h') -> tick h h' /\ x = frame h' mod (M + 1);
  fr_time : exists q, get_vblank_timestamp = Some q /\
    forall e fl h ret e' t h', q i e fl h = (ret, e', t, h') -> tick h h' /\ 0 < ret /\ t = at_time (frame h');
  fr_enable h x h' : enable_vblank i h = (x, h') -> tick h h';
  fr_disable h : tick h (disable_vblank i h);
  fr_mono h h' : tick h h' -> frame h <= frame h';
  fr_slow h h' : bsteps tick 10 h h' -> frame h' <= frame h + 1;
  fr_precise : 0 < s32 (s32 drm_timestamp_precision * 1000);
  fr_apart n : 1000000 < timeval_to_ns (at_time (n + 1)) - timeval_to_ns (at_time n) < 2 ^ 63;
  fr_width : 1 <= M < 2 ^ 32;
  fr_slots : 0 < DRM_VBLANKTIME_RBSIZE;
  fr_fuel : (2 <= fuel)%nat;
}.

Section frames.
Context {Env : vblank_env} (i M : Z) (frame : hw -> Z) (at_time : Z -> timeval) (tick : hw -> hw -> Prop) {FL : frame_laws i M frame at_time tick}.

Lemma frames_mono n h h' : bsteps tick n h h' -> frame h <= frame h'.
Proof. induction 1 as [|n h h1 h' H _ IH]; [lia|]. apply fr_mono in H. lia. Qed.

(** Counters read within a few callbacks are equal only in the same frame. *)
Lemma same_frame f f' : f <= f' <= f + 1 -> f mod (M + 1) = f' mod (M + 1) -> f' = f.
Proof.
  intros Hf E. pose proof fr_width. destruct (Z.eq_dec f' f) as [|Hne]; [done|]. assert (f' = f + 1) as -> by lia. exfalso.
  rewrite Z.add_mod in E by lia. rewrite (Z.mod_small 1) in E by lia. pose proof (Z.mod_pos_bound f (M + 1)).
  destruct (Z.eq_dec (f mod (M + 1)) M) as [Em|Em].
  - rewrite Em, Z.mod_same in E by lia. lia.
  - rewrite (Z.mod_small (f mod (M + 1) + 1)) in E by lia. lia.
Qed.

Section crtc.
Context (d : drm_device) (Hi : 0 <= i /\ (Z.to_nat i < length (vblank d))%nat).
Notation wpf := (wp False i d).

Lemma timestamp_frames flags v h (Q : bool * timeval -> drm_vblank_crtc -> hw -> Prop) :
  (forall h', tick h h' -> Q (true, at_time (frame h')) v h') -> wpf (drm_get_last_vbltimestamp i flags) v h Q.
Proof.
  intros H. destruct fr_time as (q & Eq & Hq). unfold drm_get_last_vbltimestamp. rewrite Eq. apply vwp_bind.
  destruct (Z.ltb_spec 0 (s32 (s32 drm_timestamp_precision * 1000))) as [_|Hp]; [|pose proof fr_precise; lia]. wp_run.
  destruct r as [[ret e'] t]. destruct (Hq _ _ _ _ _ _ _ Ecall) as (Ht & Hr & ->). destruct (Z.ltb_spec 0 ret); [|lia]. wp_run. by apply H.
Qed.

(** One round of reading counter, time and counter. *)
Lemma round_steps h h1 h2 h3 n h4 : tick h h1 -> tick h1 h2 -> tick h2 h3 -> bsteps tick n h3 h4 -> bsteps tick (3 + n) h h4.
Proof. clear Hi d. intros. by do 3 (eapply bsteps_l; [eassumption|]). Qed.

Lemma read_counter_frames n v h : (2 <= n)%nat -> wpf (read_counter n i) v h (fun r v' h' =>
  v' = v /\ r = (frame h' mod (M + 1), true, at_time (frame h')) /\ frame h <= frame h' /\ bsteps tick 6 h h').
Proof.
  intros Hn. destruct n as [|[|n]]; [lia|lia|]. cbn [read_counter].
  apply vwp_bind, wp_call. intros x h1 [T1 ->]%fr_counter. apply vwp_bind, timestamp_frames. intros h2 T2. cbn beta match. apply vwp_bind, wp_call. intros y h3 [T3 ->]%fr_counter.
  pose proof (fr_mono _ _ T1). pose proof (fr_mono _ _ T2). pose proof (fr_mono _ _ T3).
  pose proof (round_steps h h1 h2 h3 0 h3 T1 T2 T3 (bsteps_refl _ _ _)) as B3. pose proof (fr_slow h h3 (bsteps_weaken 3 10 h h3 ltac:(lia) B3)).
  destruct (Z.eqb_spec (frame h1 mod (M + 1)) (frame h3 mod (M + 1))) as [E|E].
  { apply same_frame in E; [|lia]. apply vwp_ret. assert (frame h2 = frame h3) as -> by lia. rewrite E. split_and!; [done|done|lia|]. by eapply bsteps_weaken; [|exact B3]; lia. }
  apply vwp_bind, wp_call. intros x4 h4 [T4 ->]%fr_counter. apply vwp_bind, timestamp_frames. intros h5 T5. cbn beta match. apply vwp_bind, wp_call. intros y6 h6 [T6 ->]%fr_counter.
  pose proof (fr_mono _ _ T4). pose proof (fr_mono _ _ T5). pose proof (fr_mono _ _ T6).
  pose proof (round_steps h h1 h2 h3 3 h6 T1 T2 T3 (round_steps h3 h4 h5 h6 0 h6 T4 T5 T6 (bsteps_refl _ _ _))) as B6.
  pose proof (fr_slow h h6 (bsteps_weaken 6 10 h h6 ltac:(lia) B6)).
  assert (frame h1 <> frame h3) by congruence. assert (frame h4 = frame h6 /\ frame h5 = frame h6) as [-> ->] by lia. rewrite Z.eqb_refl. apply vwp_ret. split_and!; [done|done|lia|done].
Qed.

Lemma save_counter_frames v h : wpf (save_counter DRM_TIMESTAMP_MAXRETRIES i) v h (fun r v' h' =>
  v' = with_last (frame h' mod (M + 1)) v /\ (exists n, r = (S n, true, at_time (frame h'))) /\ frame h <= frame h' /\ bsteps tick 6 h h').
Proof.
  unfold DRM_TIMESTAMP_MAXRETRIES. cbn [save_counter].
  apply vwp_bind, wp_call. intros x h1 [T1 ->]%fr_counter. apply vwp_bind, wp_mod; [done|]. apply vwp_bind, timestamp_frames. intros h2 T2. cbn beta match.
  apply vwp_bind, wp_call. intros y h3 [T3 ->]%fr_counter.
  pose proof (fr_mono _ _ T1). pose proof (fr_mono _ _ T2). pose proof (fr_mono _ _ T3).
  pose proof (round_steps h h1 h2 h3 0 h3 T1 T2 T3 (bsteps_refl _ _ _)) as B3. pose proof (fr_slow h h3 (bsteps_weaken 3 10 h h3 ltac:(lia) B3)).
  destruct (Z.eqb_spec (frame h1 mod (M + 1)) (frame h3 mod (M + 1))) as [E|E].
  { apply same_frame in E; [|lia]. apply vwp_ret. assert (frame h2 = frame h3) as -> by lia. rewrite E. split_and!; [done|by eexists|lia|]. by eapply bsteps_weaken; [|exact B3]; lia. }
  apply vwp_bind, wp_call. intros x4 h4 [T4 ->]%fr_counter. apply vwp_bind, wp_mod; [done|]. apply vwp_bind, timestamp_frames. intros h5 T5. cbn beta match.
  apply vwp_bind, wp_call. intros y6 h6 [T6 ->]%fr_counter.
  pose proof (fr_mono _ _ T4). pose proof (fr_mono _ _ T5). pose proof (fr_mono _ _ T6).
  pose proof (round_steps h h1 h2 h3 3 h6 T1 T2 T3 (round_steps h3 h4 h5 h6 0 h6 T4 T5 T6 (bsteps_refl _ _ _))) as B6.
  pose proof (fr_slow h h6 (bsteps_weaken 6 10 h h6 ltac:(lia) B6)).
  assert (frame h1 <> frame h3) by congruence. assert (frame h4 = frame h6 /\ frame h5 = frame h6) as [-> ->] by lia. rewrite Z.eqb_refl. apply vwp_ret. split_and!; [done|by eexists|lia|done].
Qed.

Lemma wp_and {A} (c : io A) v h Q1 Q2 : wp False i d c v h Q1 -> wp True i d c v h Q2 -> wp False i d c v h (fun a v' h' => Q1 a v' h' /\ Q2 a v' h').
Proof.
  unfold wp. destruct (c _) as [[a s]| |]; [|done|done]. intros (v1 & h1 & -> & H1) (v2 & h2 & [= E1 <-] & H2). exists v1, h1.
  assert (v2 = v1) as ->; [|done]. assert (vb_lookup (set_vb i v1 d) i = vb_lookup (set_vb i v2 d) i) as E by (unfold vb_lookup, set_vb; cbn; by rewrite E1).
  rewrite !lookup_set in E by done. congruence.
Qed.

(** ** What the counter stands for *)

(** The counter of [v] stands for frame [a]. *)
Record tracks (off : Z) (v : drm_vblank_crtc) (h : hw) (a : Z) : Prop := {
  tr_count : count v = u32 (off + a);
  tr_time : vblanktimestamp v (count v) = at_time a;
  tr_past : a <= frame h;
  tr_on : enabled v = true -> frame h <= a + 1;
  tr_off : enabled v = false -> last v = a mod (M + 1);
  tr_slots : Z.of_nat (length (time v)) = DRM_VBLANKTIME_RBSIZE;
}.

Lemma slot_u32 n : slot (u32 n) = slot n.
Proof. clear Hi d. unfold slot. rewrite (u32_small (u32 n)); [done|]. apply u32_bounds. Qed.

Lemma slot_lt v n : Z.of_nat (length (time v)) = DRM_VBLANKTIME_RBSIZE -> (slot n < length (time v))%nat.
Proof. clear Hi d. intros E. unfold slot. pose proof fr_slots. pose proof (Z.mod_pos_bound (u32 n) DRM_VBLANKTIME_RBSIZE). lia. Qed.

Lemma stamp_read n t c v : Z.of_nat (length (time v)) = DRM_VBLANKTIME_RBSIZE -> slot c = slot n ->
  vblanktimestamp (with_count c (set_vblanktimestamp n t v)) c = t.
Proof. clear Hi d.
  intros E Es. unfold vblanktimestamp, set_vblanktimestamp. cbn. rewrite Es. apply nth_lookup_Some. by apply list_lookup_insert_eq, slot_lt.
Qed.

Lemma u32_add_l x y : u32 (u32 x + y) = u32 (x + y).
Proof. clear Hi d. unfold u32, wrap. by rewrite Z.add_mod_idemp_l by done. Qed.

(** A timestamp is new exactly for the next frame. *)
Lemma new_vblank_frames off v h a f : tracks off v h a -> a <= f <= a + 1 -> new_vblank v (at_time f) = (f =? a + 1).
Proof. clear Hi d.
  intros T Hf. unfold new_vblank. rewrite (tr_time _ _ _ _ T). unfold DRM_REDUNDANT_VBLIRQ_THRESH_NS. pose proof (fr_apart a) as Ha.
  destruct (Z.eqb_spec f (a + 1)) as [->|Hne].
  - unfold s64. rewrite Z.mod_small by lia. apply Z.ltb_lt. lia.
  - assert (f = a) as -> by lia. rewrite Z.sub_diag. done.
Qed.

Lemma update_frames v h : wpf (drm_update_vblank_count i) v h (fun _ v' h' => frame h <= frame h' /\
  forall off a, count v = u32 (off + a) -> vblanktimestamp v (count v) = at_time a -> a <= frame h -> last v = a mod (M + 1) ->
    Z.of_nat (length (time v)) = DRM_VBLANKTIME_RBSIZE -> frame h' / (M + 1) = a / (M + 1) ->
    count v' = u32 (off + frame h') /\ vblanktimestamp v' (count v') = at_time (frame h') /\ a <= frame h').
Proof.
  unfold drm_update_vblank_count. apply vwp_bind. eapply vwp_mono; [apply read_counter_frames, fr_fuel; done|].
  intros r v' h' (-> & -> & Hm & B). cbn beta match. apply vwp_bind, wp_dev. apply vwp_bind, wp_vb; [done|]. cbn beta. pose proof fr_width as Hw.
  set (diff := if _ <? _ then _ else _).
  assert (forall a, last v = a mod (M + 1) -> a <= frame h' -> frame h' / (M + 1) = a / (M + 1) -> diff = frame h' - a) as Hdiff.
  { intros a Hl Ha Ed. pose proof (Z.div_mod (frame h') (M + 1) ltac:(lia)). pose proof (Z.div_mod a (M + 1) ltac:(lia)).
    pose proof (Z.mod_pos_bound (frame h') (M + 1)). pose proof (Z.mod_pos_bound a (M + 1)).
    unfold diff. rewrite Hl. destruct (Z.ltb_spec (frame h' mod (M + 1)) (a mod (M + 1))); [nia|]. rewrite u32_small by (unfold is_u32; nia). nia. }
  destruct (Z.eqb_spec diff 0) as [E0|E0].
  - apply vwp_ret. split; [done|]. intros off a Hc Ht Ha Hl Hs Ed. pose proof (Hdiff a Hl ltac:(lia) Ed). assert (frame h' = a) as -> by lia. by split_and!.
  - apply vwp_bind, wp_mod; [done|]. apply wp_mod; [done|]. split; [done|]. intros off a Hc Ht Ha Hl Hs Ed.
    cbn [count with_count set_vblanktimestamp with_time]. rewrite (Hdiff a Hl ltac:(lia) Ed), Hc, u32_add_l. replace (off + a + (frame h' - a)) with (off + frame h') by lia.
    split_and!; [done| |lia]. apply stamp_read; [done|]. by rewrite slot_u32.
Qed.

Lemma disable_frames v h : enabled v = true ->
  wpf (vblank_disable_and_save i) v h (fun _ v' h' => frame h <= frame h' /\ enabled v' = false /\
    forall off a, tracks off v h a -> frame h' <= a + 1 -> exists a', a <= a' /\ tracks off v' h' a').
Proof.
  intros He. unfold vblank_disable_and_save. apply vwp_bind, wp_vb; [done|]. rewrite He. cbn [negb]. apply vwp_bind, vwp_ret. cbn match.
  apply vwp_bind, wp_call_. apply vwp_bind, wp_mod; [done|]. apply vwp_bind. pose proof (fr_mono _ _ (fr_disable h)) as Hd.
  eapply vwp_mono; [apply save_counter_frames; done|]. intros r v' h' (-> & [n ->] & Hm & _). cbn beta match. apply vwp_bind, wp_vb; [done|]. cbn [andb].
  set (v1 := with_last _ _). change (new_vblank v1) with (new_vblank v). destruct (new_vblank v (at_time (frame h'))) eqn:En.
  - unfold count_vblank. apply vwp_bind, wp_vb; [done|]. apply vwp_bind, wp_mod; [done|]. apply wp_mod; [done|]. split_and!; [lia|done|]. intros off a T Hf.
    pose proof (tr_past _ _ _ _ T). rewrite (new_vblank_frames off v h a _ T) in En by lia. apply Z.eqb_eq in En. exists (a + 1). split; [lia|]. rewrite En. split; cbn.
    + rewrite (tr_count _ _ _ _ T), u32_add_l. f_equal. lia.
    + apply stamp_read; [apply T|apply slot_u32].
    + lia.
    + done.
    + by rewrite En.
    + rewrite length_insert. apply T.
  - apply vwp_ret. split_and!; [lia|done|]. intros off a T Hf. pose proof (tr_past _ _ _ _ T). rewrite (new_vblank_frames off v h a _ T) in En by lia.
    apply Z.eqb_neq in En. assert (frame h' = a) as Efa by lia. exists a. split; [lia|]. destruct T. split; cbn; try done; try lia. intros _. by rewrite Efa.
Qed.

(** A routine that does not switch the interrupt on keeps what the counter stands for,
    as long as it ends before the second frame after the one counted. *)
Definition follows (v : drm_vblank_crtc) (h : hw) (v' : drm_vblank_crtc) (h' : hw) : Prop :=
  frame h <= frame h' /\ (enabled v' = true -> enabled v = true) /\
  forall off a, tracks off v h a -> (enabled v = true -> frame h' <= a + 1) -> exists a', a <= a' /\ tracks off v' h' a'.

Lemma follows_same v h v' : count v' = count v -> time v' = time v -> last v' = last v -> enabled v' = enabled v -> follows v h v' h.
Proof. clear Hi d.
  intros Ec Et El Ee. split; [lia|]. rewrite Ee. split; [done|]. intros off a [] _. exists a. split; [lia|].
  split; unfold vblanktimestamp in *; rewrite ?Ec, ?Et, ?El, ?Ee; done.
Qed.

Lemma follows_trans v h v1 h1 v2 h2 : follows v h v1 h1 -> follows v1 h1 v2 h2 -> follows v h v2 h2.
Proof. clear Hi d.
  intros (M1 & E1 & F1) (M2 & E2 & F2). split; [lia|]. split; [auto|]. intros off a T Hg.
  destruct (F1 off a T) as (a1 & Ha1 & T1); [intros He; specialize (Hg He); lia|].
  destruct (F2 off a1 T1) as (a2 & Ha2 & T2); [intros He; specialize (Hg (E1 He)); lia|]. exists a2. split; [lia|done].
Qed.

Lemma disable_fn_follows v h : wpf (vblank_disable_fn i) v h (fun _ v' h' => follows v h v' h').
Proof.
  unfold vblank_disable_fn. apply vwp_bind, wp_dev. destruct (negb _); [apply vwp_ret; by apply follows_same|]. apply vwp_bind, wp_vb; [done|].
  destruct (refcount v =? 0); cbn [andb]; [|apply vwp_ret; by apply follows_same]. destruct (enabled v) eqn:Ee; [|apply vwp_ret; by apply follows_same].
  eapply vwp_mono; [by apply disable_frames|]. intros [] v' h' (Hm & Ee' & Hf). split; [done|]. rewrite Ee'. split; [done|]. intros off a T Hg. apply (Hf off a T), Hg, Ee.
Qed.

Lemma put_follows v h : wpf (drm_vblank_put i) v h (fun _ v' h' => follows v h v' h').
Proof.
  unfold drm_vblank_put. apply vwp_bind, wp_vb; [done|]. apply vwp_bind, wp_dev. destruct (_ =? 0); [apply vwp_ret; by apply follows_same|].
  destruct (_ <=? i); [apply vwp_ret; by apply follows_same|]. apply vwp_bind, wp_mod; [done|]. apply vwp_bind, wp_vb; [done|].
  destruct (_ =? 0); [|apply vwp_ret; by apply follows_same]. destruct (_ =? 0); [apply vwp_ret; by apply follows_same|]. destruct (_ || _).
  - eapply vwp_mono; [apply disable_fn_follows|]. intros [] v' h' Hf. eapply follows_trans; [|exact Hf]. by apply follows_same.
  - apply wp_mod; [done|]. by apply follows_same.
Qed.

Lemma timer_follows v h : wpf (mod_vb i (with_timer false);; vblank_disable_fn i) v h (fun _ v' h' => follows v h v' h').
Proof.
  apply vwp_bind, wp_mod; [done|]. eapply vwp_mono; [apply disable_fn_follows|]. intros [] v' h' Hf. eapply follows_trans; [|exact Hf]. by apply follows_same.
Qed.

(** Switching the interrupt on counts the frames that have passed, when the hardware's
    counter has not wrapped around. *)
Lemma get_frames v h : wpf (drm_vblank_get i) v h (fun _ v' h' => frame h <= frame h' /\
  forall off a, tracks off v h a -> (enabled v = true -> frame h' <= a + 1) -> (enabled v = false -> frame h' / (M + 1) = a / (M + 1)) ->
    exists a', a <= a' /\ tracks off v' h' a').
Proof.
  assert (forall v h v', count v' = count v -> time v' = time v -> last v' = last v -> enabled v' = enabled v -> frame h <= frame h /\
    forall off a, tracks off v h a -> (enabled v = true -> frame h <= a + 1) -> (enabled v = false -> frame h / (M + 1) = a / (M + 1)) ->
    exists a', a <= a' /\ tracks off v' h a') as Hsame.
  { intros v1 h1 v2 E1 E2 E3 E4. destruct (follows_same v1 h1 v2 E1 E2 E3 E4) as (Hm & _ & Hf). split; [done|]. intros off a T Hg _. by apply Hf. }
  unfold drm_vblank_get. apply vwp_bind, wp_dev. destruct (_ <=? i); [apply vwp_ret; by apply Hsame|].
  apply vwp_bind, wp_mod; [done|]. apply vwp_bind, wp_vb; [done|]. destruct (_ =? 1).
  2: { destruct (negb _); [|apply vwp_ret; by apply Hsame]. apply vwp_bind, wp_mod; [done|]. apply vwp_ret. by apply Hsame. }
  set (v1 := with_refcount _ v). unfold drm_vblank_enable. apply vwp_bind, wp_vb; [done|]. destruct (enabled v1) eqn:Ee; cbn [negb]; [apply vwp_ret; by apply Hsame|].
  apply vwp_bind, wp_call. intros ret h1 Ht%fr_enable. apply vwp_bind. pose proof (fr_mono _ _ Ht) as Hm1. destruct (truth ret).
  - apply wp_mod; [done|]. apply vwp_ret. split; [done|]. intros off a T _ _. exists a. split; [lia|]. destruct T. split; try done; cbn; try lia. intros He. change (enabled v1) with (enabled v) in Ee. congruence.
  - apply vwp_bind, wp_mod; [done|]. eapply vwp_mono; [apply wp_and; [apply update_frames|apply update_ok; done]|]. intros [] v' h' ((Hm & Hf) & Htk & Ee' & El'). apply vwp_ret.
    split; [lia|]. intros off a [Hc Hst Hp Hon Hoff Hs] _ Hw. change (enabled v1) with (enabled v) in Ee.
    destruct (Hf off a) as (E1 & E2 & E3); [done|done|lia|by apply Hoff|done|by apply Hw|].
    exists (frame h'). split; [done|]. split; [done|done|lia|lia| |].
    + rewrite Ee'. done.
    + rewrite (t_time _ _ Htk). done.
Qed.
End crtc.

(** ** The interrupt *)

(** The run ends, and with [Q], unless it follows a bad pointer. *)
Definition ends {A} (c : io A) (s : st) (Q : A -> st -> Prop) : Prop :=
  match c s with Done (a, s') => Q a s' | Oops => True | Loops => False end.

Lemma ends_mono {A} (c : io A) s (Q Q' : A -> st -> Prop) : ends c s Q -> (forall a s', Q a s' -> Q' a s') -> ends c s Q'.
Proof. unfold ends. destruct (c s) as [[a s']| |]; auto. Qed.

Lemma ends_bind {A B} (c : io A) (k : A -> io B) s Q : ends c s (fun a s' => ends (k a) s' Q) -> ends (c ≫= k) s Q.
Proof. unfold ends, mbind, io_bind. by destruct (c s) as [[a s']| |]. Qed.

Lemma ends_wp {A} (c : io A) d v h Q : vb_lookup d i = Some v -> wp False i d c v h Q ->
  ends c (d, h) (fun a s' => exists v' h', s' = (set_vb i v' d, h') /\ Q a v' h').
Proof. intros Hv. unfold wp, ends. rewrite (set_same d i v Hv). by destruct (c (d, h)) as [[a s']| |]. Qed.

Definition followed (v : drm_vblank_crtc) (h : hw) (s' : st) : Prop := exists v', vb_lookup s'.1 i = Some v' /\ follows v h v' s'.2.

Lemma followed_trans v h v1 h1 s2 : follows v h v1 h1 -> followed v1 h1 s2 -> followed v h s2.
Proof. intros F1 (v2 & Hv2 & F2). exists v2. split; [done|]. by eapply follows_trans. Qed.

Lemma send_event_quiet e seq now d h : ends (send_vblank_event e seq now) (d, h) (fun _ s' => vblank s'.1 = vblank d /\ s'.2 = h).
Proof. unfold send_vblank_event, ends, mbind, io_bind, file, set_file, mod_dev. cbn. by destruct (files d !! file_priv e). Qed.

Lemma send_events_follows due seq now l : (forall e, due e = true -> pipe e = i) -> forall before d h v, vb_lookup d i = Some v ->
  ends (send_events due seq now before l) (d, h) (fun _ s' => followed v h s').
Proof.
  intros Hdue. induction l as [|e l IH]; intros before d h v Hv; cbn [send_events].
  { exists v. split; [done|]. by apply follows_same. }
  destruct (due e) eqn:Ed; [|by apply IH]. apply ends_bind. unfold ends at 1, mod_dev at 1. cbn [fst snd]. apply ends_bind. rewrite (Hdue e Ed).
  pose proof (lookup_range d i v Hv) as Hr. eapply ends_mono; [eapply (ends_wp _ (set_events (before ++ l) d)); [exact Hv|by apply put_follows]|].
  intros [] s1 (v1 & h1 & -> & F1). apply ends_bind. eapply ends_mono; [apply send_event_quiet|]. intros [] [d2 h2] [V2 E2]. cbn [fst snd] in *. subst h2.
  eapply ends_mono; [apply (IH before d2 h1 v1)|intros [] s3 F3; by eapply followed_trans]. unfold vb_lookup. rewrite V2.
  exact (lookup_set i (set_events (before ++ l) d) Hr v1).
Qed.

Lemma handle_follows d h v : vb_lookup d i = Some v -> ends (drm_handle_vblank i) (d, h) (fun _ s' => followed v h s').
Proof.
  intros Hv. pose proof (lookup_range d i v Hv) as Hr. assert (followed v h (d, h)) as H0 by (exists v; split; [done|by apply follows_same]).
  unfold drm_handle_vblank. apply ends_bind. unfold ends at 1, dev at 1. cbn [fst]. destruct (_ =? 0); [done|]. destruct (_ <=? i) eqn:En; [done|].
  apply ends_bind. unfold ends at 1, vb at 1. cbn [fst]. rewrite Hv. cbn iota. destruct (enabled v) eqn:Ee; cbn [negb]; [|done]. apply ends_bind.
  eapply ends_mono; [eapply ends_wp; [exact Hv|apply timestamp_frames with (Q := fun r v' h' => v' = v /\ tick h h' /\ r = (true, at_time (frame h'))); done]|].
  intros r s1 (v0 & h1 & -> & -> & Ht & ->). rewrite (set_same d i v Hv). cbn beta match. apply ends_bind. pose proof (fr_mono _ _ Ht) as Hm.
  assert (ends (if new_vblank v (at_time (frame h1)) then count_vblank i (at_time (frame h1)) else mret tt) (d, h1)
    (fun _ s' => exists v1, s' = (set_vb i v1 d, h1) /\ follows v h v1 h1)) as Hcount.
  { destruct (new_vblank v (at_time (frame h1))) eqn:Ew.
    - eapply ends_mono.
      { eapply ends_wp; [exact Hv|]. unfold count_vblank. apply vwp_bind, wp_vb; [done|]. apply vwp_bind, wp_mod; [done|].
        apply wp_mod with (Q := fun _ v' h' => h' = h1 /\ v' = with_count (u32 (count v + 1)) (set_vblanktimestamp (count v + 1) (at_time (frame h1)) v)); done. }
      intros [] s' (v1 & h2 & -> & -> & ->). eexists. split; [done|]. split; [done|]. split; [done|]. intros off a T Hg. specialize (Hg Ee). pose proof (tr_past _ _ _ _ T).
      rewrite (new_vblank_frames off v h a _ T) in Ew by lia. apply Z.eqb_eq in Ew. exists (a + 1). split; [lia|]. rewrite Ew. split; cbn.
      + rewrite (tr_count _ _ _ _ T), u32_add_l. f_equal. lia.
      + apply stamp_read; [apply T|apply slot_u32].
      + lia.
      + lia.
      + congruence.
      + rewrite length_insert. apply T.
    - exists v. rewrite (set_same d i v Hv). split; [done|]. split; [done|]. split; [done|]. intros off a T Hg. specialize (Hg Ee). exists a. split; [lia|].
      pose proof (tr_past _ _ _ _ T). destruct T. split; try done; lia. }
  eapply ends_mono; [exact Hcount|]. intros [] s2 (v1 & -> & F1). apply ends_bind. unfold drm_handle_vblank_events, drm_vblank_count_and_time.
  apply ends_bind, ends_bind. unfold ends at 1, dev at 1. cbn [fst]. change (num_crtcs (set_vb i v1 d)) with (num_crtcs d). rewrite En. apply ends_bind.
  unfold ends at 1, vb at 1. cbn [fst]. rewrite (lookup_set i d Hr v1). cbn iota. unfold ends at 1. cbn. apply ends_bind. unfold ends at 1, dev at 1. cbn [fst].
  eapply ends_mono; [apply send_events_follows; [|apply (lookup_set i d Hr v1)]|].
  - intros e [He _]%andb_prop. by apply Z.eqb_eq.
  - intros [] s3 F3. unfold ends. cbn. by eapply followed_trans.
Qed.
End frames.
