(* ===== verification/DrmIrqProps.v ===== *)
(** * Vertical blanking: theorems *)

From S2P Require Import Prelude Counting DrmIrq DrmIrqSpec DrmIrqInv DrmIrqOps DrmIrqSys DrmIrqCount.

(** ** References and events, for every hardware *)
Section calls.
Context {Env : vblank_env} {Sizes : vblank_sizes} (modern : bool).

(** C5: let the interrupt handler stay installed, the driver be able to enable the
    interrupt whenever it calls [drm_vblank_on] (otherwise that call takes a client's
    reference, [on_failure_drops_reference]), and clients keep to [allowed]: a driver
    uses either [drm_vblank_off] and [drm_vblank_on] or the older pair of mode setting
    calls; clients drop only references that they hold, of which there are fewer than
    2^31, and use open files and no negative numbers of CRTCs; a timer fires when it is
    set, and a file is closed when none of its flips is pending.  Then after any
    sequence of calls, interrupts and timers a CRTC's reference count is exactly the
    number of clients and waiting processes that hold a reference, of the events queued
    for it, and one for a mode setting under way; while it is not zero the interrupt is
    enabled, unless the CRTC is switched off. *)
Theorem vblank_refs_exact s : reachable modern s -> forall i v, vb_lookup (sdev s) i = Some v ->
  refcount v = held i (holders s) + at_pipe i (vblank_event_list (sdev s)) + modeset_ref modern v /\
  (refcount v <> 0 -> enabled v = true \/ (modern = true /\ inmodeset v <> 0)).
Proof. intros [K _]%reached_inv i v Hv. destruct (k_crtc _ _ _ _ K i v Hv). done. Qed.

(** C22: in every state that calls within [allowed] reach, no such call, interrupt or timer
    accesses a CRTC outside the array or a file that is closed.  [allowed] asks of the
    callers that they use one of the two pairs of mode setting calls, name existing CRTCs
    to the older one and no negative numbers elsewhere, hold fewer than 2^31 references
    and drop only those that they hold, name open files, close a file only when no flip
    of it is pending, and that the driver can enable the interrupt in [drm_vblank_on];
    the number of an interrupt's CRTC, and of the one in [drm_vblank_get],
    [drm_vblank_off], [drm_vblank_on] and the wait ioctl, may be too large.  The
    interrupt handler stays installed. *)
Theorem vblank_calls_safe s r : reachable modern s -> allowed modern s r -> exec r s <> Oops.
Proof. intros I%reached_inv Ha E. pose proof (exec_safe modern r s I Ha) as H. by rewrite E in H. Qed.

(** C13: the space of a file and its events, queued, sent or about to be sent by a page
    flip, always make up the 4096 bytes it was opened with. *)
Theorem event_space_exact s f x : reachable modern s -> files (sdev s) !! f = Some x ->
  0 <= event_space x /\
  event_space x + sizeof_event * (of_file f (vblank_event_list (sdev s)) + Z.of_nat (length (event_list x)) + of_file f (flips s)) = 4096.
Proof. intros [K _]%reached_inv Hx. by destruct (k_file _ _ _ _ K f x Hx). Qed.

(** C12: under the same conditions (the handler stays installed, [drm_vblank_on] can enable
    the interrupt, callers keep to [allowed]), in every state that is reached: no event
    stays queued when the counter has reached its number, and the CRTC of a queued event
    has its interrupt enabled and is not switched off. *)
Theorem vblank_events_punctual s e v : reachable modern s -> e ∈ vblank_event_list (sdev s) -> vb_lookup (sdev s) (pipe e) = Some v ->
  passed (count v) (sequence e) = false /\ enabled v = true /\ (modern = true -> inmodeset v = 0).
Proof.
  intros [K P]%reached_inv He Hv. split; [by apply (p_future _ _ P)|]. apply (pending_enabled modern _ _ _ (pipe e) v K P Hv).
  pose proof (at_pipe_elem e _ He). lia.
Qed.

End calls.

(** ** The counter, for a display that counts its frames *)
Section counter.
Context {Env : vblank_env} {Sizes : vblank_sizes} (modern : bool).
Context (i M : Z) (frame : hw -> Z) (at_time : Z -> timeval) (tick : hw -> hw -> Prop) {FL : frame_laws i M frame at_time tick}.













(** When the hardware's counter wraps around while the interrupt is off, one
    vertical blank is lost: the counter ends one behind the frame. *)
Theorem vblank_wrap_loses_one d h v off a s' : vb_lookup d i = Some v -> max_vblank_count d = M -> enabled v = false -> tracks M frame at_time off v h a ->
  drm_update_vblank_count i (d, h) = Done (tt, s') -> frame s'.2 / (M + 1) = a / (M + 1) + 1 -> frame s'.2 mod (M + 1) < a mod (M + 1) ->
  exists v', vb_lookup s'.1 i = Some v' /\ count v' = u32 (off + frame s'.2 - 1).
Proof.
  intros Hv Hmax He T Hrun Hwrap Hlt. pose proof (lookup_range d i v Hv) as Hr. pose proof (fr_width (i := i) (M := M)) as Hw.
  assert (wp False i d (drm_update_vblank_count i) v h (fun _ v' h' => frame h' / (M + 1) = a / (M + 1) + 1 -> frame h' mod (M + 1) < a mod (M + 1) -> count v' = u32 (off + frame h' - 1))) as Hwp.
  { unfold drm_update_vblank_count. apply vwp_bind. eapply vwp_mono; [apply read_counter_frames, fr_fuel; done|].
    intros r v' h' (-> & -> & _ & _). cbn beta match. apply vwp_bind, wp_dev. apply vwp_bind, wp_vb; [done|]. cbn beta. rewrite (tr_off _ _ _ _ _ _ _ T He).
    change (max_vblank_count (set_vb i v d)) with (max_vblank_count d). rewrite Hmax. set (diff := if _ <? _ then _ else _).
    assert (frame h' / (M + 1) = a / (M + 1) + 1 -> frame h' mod (M + 1) < a mod (M + 1) -> diff = frame h' - a - 1) as Hdiff.
    { intros Ed El. pose proof (Z.div_mod (frame h') (M + 1) ltac:(lia)). pose proof (Z.div_mod a (M + 1) ltac:(lia)).
      pose proof (Z.mod_pos_bound (frame h') (M + 1)). pose proof (Z.mod_pos_bound a (M + 1)). unfold diff. destruct (Z.ltb_spec (frame h' mod (M + 1)) (a mod (M + 1))); [|lia].
      rewrite u32_add_l, u32_small by (unfold is_u32; nia). nia. }
    destruct (Z.eqb_spec diff 0) as [E0|E0].
    - apply vwp_ret. intros Ed El. rewrite (tr_count _ _ _ _ _ _ _ T). f_equal. specialize (Hdiff Ed El). lia.
    - apply vwp_bind, wp_mod; [done|]. apply wp_mod; [done|]. intros Ed El. cbn [count with_count set_vblanktimestamp with_time].
      rewrite (Hdiff Ed El), (tr_count _ _ _ _ _ _ _ T), u32_add_l. f_equal. lia. }
  eapply ends_wp in Hwp; [|exact Hv]. unfold ends in Hwp. rewrite Hrun in Hwp. destruct Hwp as (v' & h' & -> & Hc). exists v'. split; [by apply lookup_set|]. by apply Hc.
Qed.
End counter.

(** ** Calls return, when every CRTC has such a display *)
Section ending.
Context {Env : vblank_env} {Sizes : vblank_sizes} (modern : bool).
Context (M : Z -> Z) (frame : Z -> hw -> Z) (at_time : Z -> Z -> timeval) (tick : hw -> hw -> Prop).
Context {FL : forall i, frame_laws i (M i) (frame i) (at_time i) tick}.

(** The routine does not run out of rounds. *)
Definition ending {A} (c : io A) : Prop := forall s, c s <> Loops.

Lemma ending_bind {A B} (c : io A) (k : A -> io B) : ending c -> (forall a, ending (k a)) -> ending (mbind k c).
Proof. intros Hc Hk s. unfold mbind, io_bind. specialize (Hc s). destruct (c s) as [[a s']| |]; [apply Hk|done|done]. Qed.
Lemma ending_ret {A} (a : A) : ending (mret a).
Proof. done. Qed.
Lemma ending_dev : ending dev.
Proof. done. Qed.
Lemma ending_call {A} (f : hw -> A * hw) : ending (call f).
Proof. done. Qed.
Lemma ending_call_ (f : hw -> hw) : ending (call_ f).
Proof. done. Qed.
Lemma ending_mod_dev f : ending (mod_dev f).
Proof. done. Qed.
Lemma ending_vb i : ending (vb i).
Proof. intros s. unfold vb. by destruct (vb_lookup s.1 i). Qed.
Lemma ending_file f : ending (file f).
Proof. intros s. unfold file. by destruct (files s.1 !! f). Qed.
Lemma ending_set_file f x : ending (set_file f x).
Proof. done. Qed.

#[local] Hint Resolve ending_ret ending_dev ending_call ending_call_ ending_mod_dev ending_vb ending_file ending_set_file : ending.
Local Ltac ends := repeat first
  [ progress intros
  | match goal with
    | |- ending (mbind _ _) => apply ending_bind
    | |- ending (match ?x with _ => _ end) => destruct x
    end
  | solve [auto with ending] ].

Lemma ending_mod_vb i f : ending (mod_vb i f).
Proof. unfold mod_vb. ends. Qed.
#[local] Hint Resolve ending_mod_vb : ending.

Lemma ending_timestamp i flags : ending (drm_get_last_vbltimestamp i flags).
Proof. unfold drm_get_last_vbltimestamp, get_drm_timestamp. ends. Qed.
#[local] Hint Resolve ending_timestamp : ending.

(** The time of the last vertical blank comes from the driver, after one callback. *)
Lemma timestamp_tick i flags d h : exists t h', drm_get_last_vbltimestamp i flags (d, h) = Done ((true, t), (d, h')) /\ tick h h'.
Proof.
  destruct (fr_time (i := i)) as (q & Eq & Hq). unfold drm_get_last_vbltimestamp. rewrite Eq.
  destruct (Z.ltb_spec 0 (s32 (s32 drm_timestamp_precision * 1000))) as [_|Hp]; [|pose proof (fr_precise (i := i)); lia].
  unfold mbind, io_bind, call. cbn [fst snd]. destruct (q i _ flags h) as [[[ret e'] t] h'] eqn:E. destruct (Hq _ _ _ _ _ _ _ E) as (Ht & Hr & _).
  cbn [fst snd]. destruct (Z.ltb_spec 0 ret); [|lia]. by exists t, h'.
Qed.

(** A round of reads: three callbacks; it is the last one when no frame began. *)
Lemma read_round i n d h : exists h1 h3, bsteps tick 3 h h3 /\ frame i h <= frame i h1 /\ frame i h1 <= frame i h3 /\
  (frame i h1 = frame i h3 -> read_counter (S n) i (d, h) <> Loops) /\
  (read_counter n i (d, h3) <> Loops -> read_counter (S n) i (d, h) <> Loops).
Proof.
  destruct (get_vblank_counter i h) as [x h1] eqn:E1. destruct (timestamp_tick i 0 d h1) as (t & h2 & E2 & T2).
  destruct (get_vblank_counter i h2) as [y h3] eqn:E3. pose proof (fr_counter _ _ _ E1) as [T1 Ex]. pose proof (fr_counter _ _ _ E3) as [T3 Ey].
  pose proof (fr_mono (i := i) _ _ T1). pose proof (fr_mono (i := i) _ _ T2). pose proof (fr_mono (i := i) _ _ T3).
  exists h1, h3. split; [by do 3 (eapply bsteps_l; [eassumption|]); apply bsteps_refl|]. split; [lia|]. split; [lia|].
  cbn [read_counter]. unfold mbind, io_bind, call. cbn [fst snd]. rewrite E1. cbn [fst snd]. rewrite E2. cbn [fst snd]. rewrite E3. cbn [fst snd].
  subst x y. destruct (Z.eqb_spec (frame i h1 mod (M i + 1)) (frame i h3 mod (M i + 1))) as [|Hne]; [done|]. split; [congruence|done].
Qed.

Lemma ending_read_counter i : ending (read_counter fuel i).
Proof.
  intros [d h]. pose proof (fr_fuel (i := i)) as Hf. destruct fuel as [|[|n]]; [lia|lia|].
  destruct (read_round i (S n) d h) as (h1 & h3 & B3 & H1 & H3 & Hd & Hr). destruct (Z.eq_dec (frame i h1) (frame i h3)) as [E|E]; [by apply Hd|].
  apply Hr. destruct (read_round i n d h3) as (h4 & h6 & B6 & H4 & H6 & Hd' & _). apply Hd'.
  pose proof (fr_slow (i := i) h h6 (bsteps_weaken 6 10 h h6 ltac:(lia) (bsteps_trans 3 3 _ _ _ B3 B6))). lia.
Qed.
#[local] Hint Resolve ending_read_counter : ending.

Lemma ending_save_counter i : ending (save_counter DRM_TIMESTAMP_MAXRETRIES i).
Proof. unfold DRM_TIMESTAMP_MAXRETRIES. cbn [save_counter]. ends. Qed.

Lemma ending_update i : ending (drm_update_vblank_count i).
Proof. unfold drm_update_vblank_count. ends. Qed.
#[local] Hint Resolve ending_save_counter ending_update : ending.

Lemma ending_disable i : ending (vblank_disable_and_save i).
Proof. unfold vblank_disable_and_save, count_vblank. ends. Qed.
#[local] Hint Resolve ending_disable : ending.

Lemma ending_disable_fn i : ending (vblank_disable_fn i).
Proof. unfold vblank_disable_fn. ends. Qed.
Lemma ending_count_time i : ending (drm_vblank_count_and_time i).
Proof. unfold drm_vblank_count_and_time. ends. Qed.
Lemma ending_enable i : ending (drm_vblank_enable i).
Proof. unfold drm_vblank_enable. ends. Qed.
#[local] Hint Resolve ending_disable_fn ending_count_time ending_enable : ending.

Lemma ending_get i : ending (drm_vblank_get i).
Proof. unfold drm_vblank_get. ends. Qed.
Lemma ending_put i : ending (drm_vblank_put i).
Proof. unfold drm_vblank_put. ends. Qed.
Lemma ending_send e seq now : ending (send_vblank_event e seq now).
Proof. unfold send_vblank_event. ends. Qed.
#[local] Hint Resolve ending_get ending_put ending_send : ending.

Lemma ending_send_events due seq now l : forall before, ending (send_events due seq now before l).
Proof. induction l as [|e l IH]; intros before; cbn [send_events]; ends. Qed.
Lemma ending_drop_events f l : forall before, ending (drop_events f before l).
Proof. induction l as [|e l IH]; intros before; cbn [drop_events]; ends. Qed.
#[local] Hint Resolve ending_send_events ending_drop_events : ending.

Lemma ending_handle i : ending (drm_handle_vblank i).
Proof. unfold drm_handle_vblank, drm_handle_vblank_events, count_vblank. ends. Qed.
Lemma ending_off i : ending (drm_vblank_off i).
Proof. unfold drm_vblank_off. ends. Qed.
Lemma ending_on i : ending (drm_vblank_on i).
Proof. unfold drm_vblank_on. ends. Qed.
Lemma ending_pre i : ending (drm_vblank_pre_modeset i).
Proof. unfold drm_vblank_pre_modeset. ends. Qed.
Lemma ending_post i : ending (drm_vblank_post_modeset i).
Proof. unfold drm_vblank_post_modeset. ends. Qed.
Lemma ending_begin w : ending (wait_begin w).
Proof. unfold wait_begin, drm_vblank_count. ends. Qed.
Lemma ending_queue kzalloc i w f : ending (drm_queue_vblank_event kzalloc i w f).
Proof. unfold drm_queue_vblank_event. ends. Qed.
Lemma ending_end i ret w : ending (wait_end i ret w).
Proof. unfold wait_end. ends. Qed.
#[local] Hint Resolve ending_handle ending_off ending_on ending_pre ending_post ending_begin ending_queue ending_end : ending.

Lemma ending_lift {A} (c : io A) s hs fs : ending c -> lift c s hs fs <> Loops.
Proof. intros Hc. unfold lift. specialize (Hc (state s)). by destruct (c (state s)) as [[a s']| |]. Qed.

(** C26: on a device whose CRTCs all count their frames, with frames that last longer
    than ten callbacks of the driver, every call that clients may make ([allowed]: on any
    CRTC, get, put, switching off and on, mode setting, each part of the wait ioctl,
    flips, reading, opening and closing a file), every interrupt and every timer returns
    in every state that such calls reach: the loops that repeat their reads of the
    hardware's counter end. *)
Theorem vblank_calls_end s r : reachable modern s -> allowed modern s r -> exists s', exec r s = Done s'.
Proof.
  intros I%reached_inv Ha. pose proof (exec_safe modern r s I Ha) as Hsafe.
  assert (exec r s <> Loops) as Hl; [|by destruct (exec r s) as [s'| |]; [exists s'|done|done]].
  destruct r; cbn [exec]; apply ending_lift;
    unfold drm_events_release, drm_dequeue_event, flip_event, flip_refused, drm_send_vblank_event, get_drm_timestamp; ends.
Qed.
End ending.

(** ** Further properties of single routines *)
Section routines.
Context {Env : vblank_env} {Sizes : vblank_sizes} (modern : bool).

Lemma dequeue_eq f total max d h x : files d !! f = Some x -> drm_dequeue_event f total max (d, h) =
  Done (match event_list x with
        | [] => (None, (d, h))
        | e :: l => if max <? sizeof_event + total then (None, (d, h))
                    else (Some e, (set_files (<[f := MkFile (s32 (event_space x + sizeof_event)) l]> (files d)) d, h))
        end).
Proof.
  intros Hx. unfold drm_dequeue_event, mbind, io_bind, file. cbn [fst]. rewrite Hx. destruct (event_list x) as [|e l]; [done|]. by destruct (_ <? _).
Qed.

Lemma read_loop_eq n copy f total max s : read_loop (S n) copy f total max s =
  match drm_dequeue_event f total max s with
  | Done (None, s) => Done (([], total), s)
  | Done (Some e, s) =>
    if negb (copy e) then Done (([], - EFAULT), s)
    else match read_loop n copy f (total + sizeof_event) max s with Done ((l, ret), s) => Done ((e :: l, ret), s) | Oops => Oops | Loops => Loops end
  | Oops => Oops
  | Loops => Loops
  end.
Proof.
  cbn [read_loop]. unfold mbind, io_bind. destruct (drm_dequeue_event f total max s) as [[[e|] s']| |]; try done.
  destruct (negb (copy e)); [done|]. by destruct (read_loop n copy f (total + sizeof_event) max s') as [[[l ret] s2]| |].
Qed.

(** A read returns the longest prefix of the file's events that fits into the buffer and
    gives their space back. *)
Lemma read_loop_prefix f max h : forall l d x total n, files d !! f = Some x -> event_list x = l -> (length l < n)%nat -> 0 <= total <= max ->
  0 <= event_space x /\ event_space x + sizeof_event * Z.of_nat (length l) <= 4096 ->
  let k := Nat.min (length l) (Z.to_nat ((max - total) / sizeof_event)) in
  read_loop n (fun _ => true) f total max (d, h) =
  Done ((take k l, total + sizeof_event * Z.of_nat k), (set_files (<[f := MkFile (event_space x + sizeof_event * Z.of_nat k) (drop k l)]> (files d)) d, h)).
Proof.
  pose proof sizeof_pos as Hs. assert (forall d x, files d !! f = Some x -> set_files (<[f := MkFile (event_space x) (event_list x)]> (files d)) d = d) as Hid.
  { intros d x Hx. rewrite insert_id; [by destruct d|]. rewrite Hx. by destruct x. }
  induction l as [|e l IH]; intros d x total n Hx El Hn Ht Hb k; (destruct n as [|n]; [cbn in Hn; lia|]); rewrite read_loop_eq, (dequeue_eq _ _ _ _ _ x Hx), El.
  - unfold k. cbn [length Nat.min take drop Z.of_nat]. rewrite Z.mul_0_r, !Z.add_0_r, <- El, (Hid d x Hx). done.
  - destruct (Z.ltb_spec max (sizeof_event + total)) as [Hm|Hm].
    + unfold k. rewrite Z.div_small by lia. rewrite Nat.min_0_r. cbn [take drop Z.of_nat]. rewrite Z.mul_0_r, !Z.add_0_r, <- El, (Hid d x Hx). done.
    + cbn [length] in *. rewrite s32_small by (unfold is_s32; lia). cbn [negb].
      rewrite (IH _ (MkFile (event_space x + sizeof_event) l) (total + sizeof_event) n); [|apply lookup_insert_eq|done|lia|lia|cbn [event_space event_list]; lia].
      assert (k = S (Nat.min (length l) (Z.to_nat ((max - (total + sizeof_event)) / sizeof_event)))) as ->.
      { unfold k. replace (max - total) with (max - (total + sizeof_event) + 1 * sizeof_event) by lia. rewrite Z.div_add by lia.
        assert (0 <= (max - (total + sizeof_event)) / sizeof_event) by (apply Z.div_pos; lia). lia. }
      cbn [event_space event_list take drop]. set (k' := Nat.min _ _). unfold set_files. cbn [files num_crtcs]. rewrite insert_insert_eq.
      replace (total + sizeof_event + sizeof_event * Z.of_nat k') with (total + sizeof_event * Z.of_nat (S k')) by lia.
      replace (event_space x + sizeof_event + sizeof_event * Z.of_nat k') with (event_space x + sizeof_event * Z.of_nat (S k')) by lia. done.
Qed.

(** A failure to enable the interrupt in [drm_vblank_on] takes a reference from a client. *)
Lemma on_failure_drops_reference i d h v : vb_lookup d i = Some v -> i < num_crtcs d -> inmodeset v <> 0 -> enabled v = false -> 2 <= refcount v < 2 ^ 31 ->
  (forall g, (enable_vblank i g).1 <> 0) -> exists v' h', drm_vblank_on i (d, h) = Done (tt, (set_vb i v' d, h')) /\ refcount v' = refcount v - 2.
Proof.
  intros Hv Hn Hin He Hr Hen. pose proof (lookup_range d i v Hv) as Hrange.
  assert (wp False i d (drm_vblank_on i) v h (fun _ v' _ => refcount v' = refcount v - 2)) as Hwp.
  { unfold drm_vblank_on. wp_run. destruct (Z.leb_spec (num_crtcs (set_vb i v d)) i) as [H|_]; [cbn in H; lia|]. wp_run.
    destruct (Z.eqb_spec (inmodeset v) 0); [done|]. cbn [negb]. wp_run. cbn [refcount with_last with_inmodeset with_refcount]. rewrite s32_small by (unfold is_s32; lia).
    destruct (Z.eqb_spec (refcount v - 1) 0); [lia|]. cbn [negb orb]. wp_run. unfold drm_vblank_enable. wp_run. cbn [enabled with_last with_inmodeset with_refcount]. rewrite He. cbn [negb]. wp_run.
    specialize (Hen g). rewrite Ecall0 in Hen. cbn in Hen. unfold truth. destruct (Z.eqb_spec r0 0); [done|]. cbn [negb]. wp_run. cbn. rewrite s32_small; [lia|unfold is_s32; lia]. }
  unfold wp in Hwp. rewrite (set_same d i v Hv) in Hwp. destruct (drm_vblank_on i (d, h)) as [[[] s']| |]; [|done|done]. destruct Hwp as (v' & h' & -> & E). by exists v', h'.
Qed.

(** What [drm_read] gives on a device in use. *)
Lemma drm_read_prefix s f x max : reachable modern s -> files (sdev s) !! f = Some x -> 0 <= max ->
  let k := Nat.min (length (event_list x)) (Z.to_nat (max / sizeof_event)) in
  drm_read true 0 (fun _ => true) f max (state s) =
  Done ((take k (event_list x), if Nat.eqb k 0 then - EAGAIN else sizeof_event * Z.of_nat k),
        (set_files (<[f := MkFile (event_space x + sizeof_event * Z.of_nat k) (drop k (event_list x))]> (files (sdev s))) (sdev s), (state s).2)).
Proof.
  intros [K _]%reached_inv Hx Hm k. destruct s as [[d h] H F]. unfold sdev in *. cbn [state fst snd holders flips] in *. pose proof sizeof_pos as Hs.
  pose proof (file_space modern H F d f x K Hx) as [Hb Hl]. unfold drm_read. cbn [negb andb]. unfold mbind at 1, io_bind at 1, file. cbn [fst]. rewrite Hx.
  unfold mbind, io_bind. rewrite (read_loop_prefix f max h (event_list x) d x 0 _ Hx eq_refl) by lia. rewrite Z.sub_0_r. fold k. rewrite Z.add_0_l.
  unfold mret, io_ret, truth. do 3 f_equal. destruct k as [|k]; [by rewrite Z.mul_0_r|]. cbn [Nat.eqb]. destruct (Z.eqb_spec (sizeof_event * Z.of_nat (S k)) 0); [lia|done].
Qed.

(** When the scanout position is exact, the timestamp lies within the reported error
    after the start of the scanout. *)
Lemma scanout_loop_ok n query i flags max_error d h (good : Z -> Z -> Z -> Z -> Prop) :
  (forall h status vpos hpos stime etime h', query i flags h = (status, vpos, hpos, stime, etime, h') -> good vpos hpos stime etime) ->
  match scanout_loop n query i flags max_error (d, h) with
  | Done (inl ret, _) => ret = - EIO
  | Done (inr (_, vpos, hpos, duration, etime), s') => s'.1 = d /\ exists stime, good vpos hpos stime etime /\ duration = s32 (etime - stime)
  | Oops => False
  | Loops => n = O
  end.
Proof.
  intros Hq. revert h. induction n as [|n IH]; intros h; [done|]. cbn [scanout_loop]. unfold mbind, io_bind, call. cbn [fst snd].
  destruct (query i flags h) as [[[[[status vpos] hpos] stime] etime] h'] eqn:E. cbn [fst snd]. apply Hq in E. destruct (negb _); [done|]. destruct (_ <=? _); [by split; [|exists stime]|].
  destruct n as [|n]; [by split; [|exists stime]|]. specialize (IH h'). by destruct (scanout_loop (S n) query i flags max_error (d, h')) as [[[ret|[[[[? ?] ?] ?] ?]] s']| |].
Qed.

Lemma scanout_within_error i d h query start pixeldur linedur framedur flags max_error : drm_timestamp_monotonic = true -> get_scanout_position = Some query ->
  0 <= i < num_crtcs d -> framedur <> 0 ->
  (forall h status vpos hpos stime etime h', query i flags h = (status, vpos, hpos, stime, etime, h') ->
    stime <= start + vpos * linedur + hpos * pixeldur <= etime /\ is_s32 (vpos * linedur) /\ is_s32 (hpos * pixeldur) /\ is_s32 (vpos * linedur + hpos * pixeldur) /\ etime - stime < 2 ^ 31) ->
  match drm_calc_vbltimestamp_from_scanoutpos i max_error flags (pixeldur, linedur, framedur) (d, h) with
  | Done ((ret, error, None), _) => ret = - EIO
  | Done ((ret, error, Some t), _) => exists ns, t = ktime_to_timeval ns /\ start <= ns <= start + error
  | _ => False
  end.
Proof.
  intros Hmono Hq Hi Hf Hgood. unfold drm_calc_vbltimestamp_from_scanoutpos. unfold mbind at 1, io_bind at 1, dev. cbn [fst].
  destruct (Z.ltb_spec i 0); [lia|]. destruct (Z.leb_spec (num_crtcs d) i); [lia|]. cbn [orb]. rewrite Hq. destruct (Z.eqb_spec framedur 0); [done|].
  pose proof (scanout_loop_ok DRM_TIMESTAMP_MAXRETRIES query i flags max_error d h _ Hgood) as Hl. unfold mbind at 1, io_bind at 1.
  destruct (scanout_loop _ _ _ _ _ _) as [[[ret|[[[[status vpos] hpos] dur] etime]] [d' h']]| |]; [done| |done|done].
  destruct Hl as (_ & stime & (Ht & H1 & H2 & H3 & H4) & ->). rewrite Hmono. cbn [negb]. unfold mbind, io_bind. cbn.
  rewrite (s32_small (vpos * linedur)), (s32_small (hpos * pixeldur)), (s32_small (vpos * linedur + hpos * pixeldur)) by done. rewrite s32_small by (unfold is_s32; lia).
  eexists. split; [reflexivity|]. destruct (_ <? 0); lia.
Qed.
End routines.

(** ** A sample display: a frame every 16 callbacks, a second apart *)
Module IrqSample.
Definition frame (h : Z) : Z := h / 16.
Definition at_time (n : Z) : timeval := MkTv n 0.
Definition tick (h h' : Z) : Prop := h' = h + 1.

#[export] Instance env : vblank_env := {|
  hw := Z;
  get_vblank_counter _ h := (frame (h + 1) mod 2 ^ 24, h + 1);
  get_vblank_timestamp := Some (fun _ e _ h => (1, e, at_time (frame (h + 1)), h + 1));
  enable_vblank _ h := (0, h + 1);
  disable_vblank _ h := h + 1;
  get_scanout_position := None; vgaarb_irq := None; irq_preinstall := None; irq_postinstall := None; irq_uninstall := None;
  request_irq _ _ h := (0, h); free_irq _ h := h; vga_client_register _ h := h;
  ktime_get h := (frame h * 10 ^ 9, h); ktime_get_real h := (frame h * 10 ^ 9, h); ktime_mono_to_real t h := (t, h);
  ktime_to_timeval t := MkTv (t / 10 ^ 9) (t mod 10 ^ 9 / 1000); timeval_to_ns t := tv_sec t * 10 ^ 9 + tv_usec t * 1000;
  drm_timestamp_precision := 20; drm_timestamp_monotonic := true; drm_vblank_offdelay := 5000;
  DRM_VBLANKTIME_RBSIZE := 2; DRM_CALLED_FROM_VBLIRQ := 1; DRM_SCANOUTPOS_VALID := 1; DRM_SCANOUTPOS_IN_VBLANK := 2;
  DRM_VBLANKTIME_SCANOUTPOS_METHOD := 1; DRM_VBLANKTIME_IN_VBLANK := 2; DRM_MODE_FLAG_INTERLACE := 16;
  _DRM_VBLANK_TYPES_MASK := 1; _DRM_VBLANK_ABSOLUTE := 0; _DRM_VBLANK_RELATIVE := 1; _DRM_VBLANK_HIGH_CRTC_MASK := 0x3e; _DRM_VBLANK_HIGH_CRTC_SHIFT := 1;
  _DRM_VBLANK_EVENT := 0x4000000; _DRM_VBLANK_NEXTONMISS := 0x10000000; _DRM_VBLANK_SECONDARY := 0x20000000; _DRM_VBLANK_SIGNAL := 0x40000000;
  _DRM_VBLANK_FLAGS_MASK := 0x74000000; DRM_EVENT_VBLANK := 1; DRM_EVENT_FLIP_COMPLETE := 2; _DRM_PRE_MODESET := 1; _DRM_POST_MODESET := 2;
  DRM_INST_HANDLER := 2; DRM_UNINST_HANDLER := 3; sizeof_event := 32; EINTR := 4; EFAULT := 14; fuel := 2;
|}.

#[export] Instance sizes : vblank_sizes.
Proof. unfold vblank_sizes. cbn. lia. Qed.

Lemma ticks n (h h' : Z) : bsteps tick n h h' -> h <= h' <= h + Z.of_nat n.
Proof. induction 1 as [|n h h1 h' H _ IH]; [lia|]. unfold tick in H. lia. Qed.

#[export] Instance laws i : frame_laws i (2 ^ 24 - 1) frame at_time tick.
Proof.
  split; unfold tick.
  - by intros h x h' [= <- <-].
  - eexists. split; [reflexivity|]. by intros e fl h ret e' t h' [= <- <- <- <-].
  - by intros h x h' [= <- <-].
  - done.
  - intros h h' ->. apply Z.div_le_mono; lia.
  - intros h h' Hs%ticks. unfold frame. transitivity ((h + 1 * 16) / 16); [apply Z.div_le_mono; lia|rewrite Z.div_add; lia].
  - done.
  - intros n. cbn. lia.
  - lia.
  - cbn. lia.
  - cbn. lia.
Qed.

Definition d0 : drm_device := MkDev 0 [] false true 0 [] ∅ false (2 ^ 24 - 1) true false true true None false.
Definition start : sys := MkSys (match drm_vblank_init true 1 (d0, 11) with Done (_, s) => s | _ => (d0, 11) end) [] [].
Definition after (r : request) (s : sys) : sys := match exec r s with Done s' => s' | _ => s end.

(** A file asks for an event at the first vertical blank. *)
Definition opened : sys := after (RGet 0) (after (ROpen 1) start).
Definition queued : sys := after (RQueue true 0 (MkWait 0 1 7 0) 1) opened.

Lemma start_fresh : fresh 1 start.
Proof. exists d0, 11. split_and!; [lia|done|done|vm_compute; reflexivity|done|done]. Qed.

Definition returns (r : request) (s : sys) : bool := match exec r s with Done _ => true | _ => false end.

Lemma after_done r s : returns r s = true -> exec r s = Done (after r s).
Proof. unfold returns, after. by destruct (exec r s). Qed.

Lemma after_step r s : allowed true s r -> returns r s = true -> step true s (after r s).
Proof. intros Ha He. exists r. split; [done|by apply after_done]. Qed.

Lemma opened_reachable : reachable true opened.
Proof.
  exists 1, start. split; [apply start_fresh|]. apply (rtc_l _ _ (after (ROpen 1) start)); [|apply rtc_once]; apply after_step.
  - done.
  - vm_compute. reflexivity.
  - split; [by vm_compute|by vm_compute].
  - vm_compute. reflexivity.
Qed.

Lemma queued_reachable : reachable true queued.
Proof.
  destruct opened_reachable as (n & s0 & Hf & Hr). exists n, s0. split; [done|]. eapply rtc_r; [exact Hr|]. apply after_step.
  - split; [vm_compute; by left|vm_compute; by eexists].
  - vm_compute. reflexivity.
Qed.

End IrqSample.
Import IrqSample.

Definition sample_crtc (s : sys) : drm_vblank_crtc := default new_vblank_crtc (vb_lookup (sdev s) 0).
Definition sample_file (s : sys) : drm_file := default (MkFile 0 []) (files (sdev s) !! 1).
Definition sample_event : drm_pending_vblank_event := MkEvent 0 1 1 7 1 0 0.

Lemma vblank_refs_exact_witness : refcount (sample_crtc queued) = 1 /\ enabled (sample_crtc queued) = true.
Proof.
  destruct (vblank_refs_exact true queued queued_reachable 0 (sample_crtc queued)) as [E H]; [vm_compute; reflexivity|].
  split; [rewrite E; vm_compute; reflexivity|]. destruct H as [H|[_ H]]; [rewrite E; vm_compute; discriminate|exact H|]. exfalso. apply H. vm_compute. reflexivity.
Defined.

Lemma vblank_calls_safe_witness : exec (RIrq 0) queued <> Oops.
Proof. apply (vblank_calls_safe true queued (RIrq 0) queued_reachable). cbn. lia. Defined.

Lemma event_space_exact_witness : event_space (sample_file queued) + 32 * (1 + 0 + 0) = 4096.
Proof. apply (event_space_exact true queued 1 (sample_file queued) queued_reachable). vm_compute. reflexivity. Defined.

Lemma vblank_events_punctual_witness : passed (count (sample_crtc queued)) 1 = false.
Proof.
  apply (vblank_events_punctual true queued sample_event (sample_crtc queued) queued_reachable); [vm_compute; by left|vm_compute; reflexivity].
Defined.




Lemma vblank_calls_end_witness : exists s', exec (ROff 0) queued = Done s'.
Proof.
  apply (vblank_calls_end (Env := env) true (fun _ => 2 ^ 24 - 1) (fun _ => frame) (fun _ => at_time) tick queued (ROff 0) queued_reachable). by split.
Defined.
