(* ===== verification/DrmFormats.v ===== *)
(** * Pixel formats and the geometry of framebuffers (drm_crtc.c, drm_fb_cma_helper.c)

    The tables of the pixel formats, the check of a request for a framebuffer
    ([framebuffer_check]) and the check of a driver on contiguous memory against the
    sizes of its buffers ([drm_fb_cma_create]).

    The codes of the formats are constants of drm_fourcc.h, so they are a parameter: a
    format is a constructor, [DRM_FORMAT] its code, and a [switch] over a 32-bit code
    selects the format that has it. *)

From S2P Require Import Prelude.

(** In the order in which [format_check] lists them. *)
Inductive pixel_format : Set :=
| C8 | RGB332 | BGR233
| XRGB4444 | XBGR4444 | RGBX4444 | BGRX4444 | ARGB4444 | ABGR4444 | RGBA4444 | BGRA4444
| XRGB1555 | XBGR1555 | RGBX5551 | BGRX5551 | ARGB1555 | ABGR1555 | RGBA5551 | BGRA5551
| RGB565 | BGR565 | RGB888 | BGR888
| XRGB8888 | XBGR8888 | RGBX8888 | BGRX8888 | ARGB8888 | ABGR8888 | RGBA8888 | BGRA8888
| XRGB2101010 | XBGR2101010 | RGBX1010102 | BGRX1010102
| ARGB2101010 | ABGR2101010 | RGBA1010102 | BGRA1010102
| YUYV | YVYU | UYVY | VYUY | AYUV
| NV12 | NV21 | NV16 | NV61 | NV24 | NV42
| YUV410 | YVU410 | YUV411 | YVU411 | YUV420 | YVU420 | YUV422 | YVU422 | YUV444 | YVU444.

Definition formats : list pixel_format :=
  [C8; RGB332; BGR233;
   XRGB4444; XBGR4444; RGBX4444; BGRX4444; ARGB4444; ABGR4444; RGBA4444; BGRA4444;
   XRGB1555; XBGR1555; RGBX5551; BGRX5551; ARGB1555; ABGR1555; RGBA5551; BGRA5551;
   RGB565; BGR565; RGB888; BGR888;
   XRGB8888; XBGR8888; RGBX8888; BGRX8888; ARGB8888; ABGR8888; RGBA8888; BGRA8888;
   XRGB2101010; XBGR2101010; RGBX1010102; BGRX1010102;
   ARGB2101010; ABGR2101010; RGBA1010102; BGRA1010102;
   YUYV; YVYU; UYVY; VYUY; AYUV;
   NV12; NV21; NV16; NV61; NV24; NV42;
   YUV410; YVU410; YUV411; YVU411; YUV420; YVU420; YUV422; YVU422; YUV444; YVU444].

(** ** The header *)
Class fourcc_h := {
  DRM_FORMAT : pixel_format -> Z;
  DRM_FORMAT_BIG_ENDIAN : Z;
  DRM_MODE_FB_INTERLACED : Z;
}.

(** Distinct codes of four 7-bit characters; the top bit marks the byte order. *)
Class fourcc_h_ok `{fourcc_h} : Prop := {
  fourcc_inj f g : DRM_FORMAT f = DRM_FORMAT g -> f = g;
  fourcc_range f : 0 <= DRM_FORMAT f < 2 ^ 31;
  big_endian_ok : DRM_FORMAT_BIG_ENDIAN = 2 ^ 31;
}.

(** [struct drm_mode_fb_cmd2]; its arrays have four entries. *)
Record drm_mode_fb_cmd2 := MkFbCmd2 {
  r_width : Z; r_height : Z; r_pixel_format : Z; r_flags : Z;
  r_handles : list Z; r_pitches : list Z; r_offsets : list Z;
}.

Definition entry (l : list Z) (i : nat) : Z := default 0 (l !! i).

Definition ENXIO : Z := 6.
Definition UINT_MAX : Z := 2 ^ 32 - 1.

Section formats.
Context `{fourcc_h}.

(** The case that a [switch] over a code takes. *)
Definition format_of (code : Z) : option pixel_format := find (fun f => DRM_FORMAT f =? code) formats.

(** ** Tables *)

(** Depth and bits per pixel. *)
Definition drm_fb_get_bpp_depth (format : Z) : Z * Z :=
  match format_of format with
  | Some (C8 | RGB332 | BGR233) => (8, 8)
  | Some (XRGB1555 | XBGR1555 | RGBX5551 | BGRX5551 | ARGB1555 | ABGR1555 | RGBA5551 | BGRA5551) => (15, 16)
  | Some (RGB565 | BGR565) => (16, 16)
  | Some (RGB888 | BGR888) => (24, 24)
  | Some (XRGB8888 | XBGR8888 | RGBX8888 | BGRX8888) => (24, 32)
  | Some (XRGB2101010 | XBGR2101010 | RGBX1010102 | BGRX1010102
         | ARGB2101010 | ABGR2101010 | RGBA1010102 | BGRA1010102) => (30, 32)
  | Some (ARGB8888 | ABGR8888 | RGBA8888 | BGRA8888) => (32, 32)
  | _ => (0, 0)
  end.

Definition drm_format_num_planes (format : Z) : nat :=
  match format_of format with
  | Some (YUV410 | YVU410 | YUV411 | YVU411 | YUV420 | YVU420 | YUV422 | YVU422 | YUV444 | YVU444) => 3
  | Some (NV12 | NV21 | NV16 | NV61 | NV24 | NV42) => 2
  | _ => 1
  end.

Definition drm_format_plane_cpp (format : Z) (plane : nat) : Z :=
  if (drm_format_num_planes format <=? plane)%nat then 0
  else match format_of format with
  | Some (YUYV | YVYU | UYVY | VYUY) => 2
  | Some (NV12 | NV21 | NV16 | NV61 | NV24 | NV42) => if (plane =? 0)%nat then 1 else 2
  | Some (YUV410 | YVU410 | YUV411 | YVU411 | YUV420 | YVU420 | YUV422 | YVU422 | YUV444 | YVU444) => 1
  | _ => Z.shiftr (drm_fb_get_bpp_depth format).2 3
  end.

Definition drm_format_horz_chroma_subsampling (format : Z) : Z :=
  match format_of format with
  | Some (YUV411 | YVU411 | YUV410 | YVU410) => 4
  | Some (YUYV | YVYU | UYVY | VYUY | NV12 | NV21 | NV16 | NV61 | YUV422 | YVU422 | YUV420 | YVU420) => 2
  | _ => 1
  end.

Definition drm_format_vert_chroma_subsampling (format : Z) : Z :=
  match format_of format with
  | Some (YUV410 | YVU410) => 4
  | Some (YUV420 | YVU420 | NV12 | NV21) => 2
  | _ => 1
  end.

Definition drm_mode_legacy_fb_format (bpp depth : Z) : Z :=
  if bpp =? 8 then DRM_FORMAT C8
  else if bpp =? 16 then if depth =? 15 then DRM_FORMAT XRGB1555 else DRM_FORMAT RGB565
  else if bpp =? 24 then DRM_FORMAT RGB888
  else if bpp =? 32 then
    if depth =? 24 then DRM_FORMAT XRGB8888
    else if depth =? 30 then DRM_FORMAT XRGB2101010
    else DRM_FORMAT ARGB8888
  else DRM_FORMAT XRGB8888.

(** ** The check of a request *)

(** [r->pixel_format & ~DRM_FORMAT_BIG_ENDIAN] must be one of the cases. *)
Definition format_check (r : drm_mode_fb_cmd2) : Z :=
  let format := Z.land (r_pixel_format r) (u32 (Z.lnot DRM_FORMAT_BIG_ENDIAN)) in
  match format_of format with
  | Some _ => 0
  | None => - EINVAL
  end.

(** The size of plane [i]: [width / (i != 0 ? hsub : 1)]. *)
Definition plane_size (size sub : Z) (i : nat) : Z := size / (if (i =? 0)%nat then 1 else sub).

(** One round of the loop over the planes. *)
Definition plane_check (r : drm_mode_fb_cmd2) (hsub vsub : Z) (i : nat) : Z :=
  let width := plane_size (r_width r) hsub i in
  let height := plane_size (r_height r) vsub i in
  let cpp := drm_format_plane_cpp (r_pixel_format r) i in
  if entry (r_handles r) i =? 0 then - EINVAL
  else if UINT_MAX <? ul (width * cpp) then - ERANGE
  else if UINT_MAX <? ul (ul (height * entry (r_pitches r) i) + entry (r_offsets r) i) then - ERANGE
  else if entry (r_pitches r) i <? u32 (width * cpp) then - EINVAL
  else 0.

Fixpoint planes_check (r : drm_mode_fb_cmd2) (hsub vsub : Z) (l : list nat) : Z :=
  match l with
  | [] => 0
  | i :: l => let ret := plane_check r hsub vsub i in if truth ret then ret else planes_check r hsub vsub l
  end.

Definition framebuffer_check (r : drm_mode_fb_cmd2) : Z :=
  let ret := format_check r in
  if truth ret then ret else
  let hsub := drm_format_horz_chroma_subsampling (r_pixel_format r) in
  let vsub := drm_format_vert_chroma_subsampling (r_pixel_format r) in
  let num_planes := drm_format_num_planes (r_pixel_format r) in
  if (r_width r =? 0) || truth (r_width r mod hsub) then - EINVAL
  else if (r_height r =? 0) || truth (r_height r mod vsub) then - EINVAL
  else planes_check r hsub vsub (seq 0 num_planes).

(** What [drm_helper_mode_fill_fb_struct] fills in: the fields of a framebuffer that
    never change. *)
Record fb_layout := MkLayout {
  fb_width : Z; fb_height : Z; fb_pitches : list Z; fb_offsets : list Z;
  fb_depth : Z; fb_bits_per_pixel : Z; fb_pixel_format : Z; fb_flags : Z;
}.

Definition drm_helper_mode_fill_fb_struct (mode_cmd : drm_mode_fb_cmd2) : fb_layout :=
  let '(depth, bpp) := drm_fb_get_bpp_depth (r_pixel_format mode_cmd) in
  {| fb_width := r_width mode_cmd; fb_height := r_height mode_cmd;
     fb_pitches := entry (r_pitches mode_cmd) <$> seq 0 4;
     fb_offsets := entry (r_offsets mode_cmd) <$> seq 0 4;
     fb_depth := depth; fb_bits_per_pixel := bpp;
     fb_pixel_format := r_pixel_format mode_cmd; fb_flags := r_flags mode_cmd |}.

(** ** A driver on contiguous memory

    [lookup] finds the object of a handle with its size; the call takes a reference to
    it.  References are counted per object. *)

Section cma.
Context (lookup : Z -> option (Z * Z)).

Definition gem_ref (d obj : Z) (count : Z -> Z) : Z -> Z := fun o => if o =? obj then count o + d else count o.

(** [min_size] of plane [i], an [unsigned int]. *)
Definition cma_min_size (r : drm_mode_fb_cmd2) (hsub vsub : Z) (i : nat) : Z :=
  let width := plane_size (r_width r) hsub i in
  let height := plane_size (r_height r) vsub i in
  u32 (u32 (u32 (height - 1) * entry (r_pitches r) i)
       + u32 (width * drm_format_plane_cpp (r_pixel_format r) i) + entry (r_offsets r) i).

(** The loop over the planes: its error (0 if none) and the objects found, the last one
    first. *)
Fixpoint cma_objects (r : drm_mode_fb_cmd2) (hsub vsub : Z) (l : list nat) (objs : list Z) (count : Z -> Z)
    : Z * list Z * (Z -> Z) :=
  match l with
  | [] => (0, objs, count)
  | i :: l =>
      match lookup (entry (r_handles r) i) with
      | None => (- ENXIO, objs, count)
      | Some (obj, size) =>
          let count := gem_ref 1 obj count in
          if size <? cma_min_size r hsub vsub i then (- EINVAL, objs, gem_ref (- 1) obj count)
          else cma_objects r hsub vsub l (obj :: objs) count
      end
  end.

(** [for (i--; i >= 0; i--)]: the reference of every object found is dropped. *)
Definition gem_unreference_all (objs : list Z) (count : Z -> Z) : Z -> Z :=
  foldl (fun count obj => gem_ref (- 1) obj count) count objs.

(** [drm_fb_cma_create] up to the allocation of the structure: an error, or the objects
    of the planes in order. *)
Definition cma_check (r : drm_mode_fb_cmd2) (count : Z -> Z) : (Z + list Z) * (Z -> Z) :=
  let hsub := drm_format_horz_chroma_subsampling (r_pixel_format r) in
  let vsub := drm_format_vert_chroma_subsampling (r_pixel_format r) in
  let '(ret, objs, count) :=
    cma_objects r hsub vsub (seq 0 (drm_format_num_planes (r_pixel_format r))) [] count in
  if truth ret then (inl ret, gem_unreference_all objs count) else (inr (rev objs), count).

End cma.
End formats.
