(* ===== verification/DrmFormatsProps.v ===== *)
(** * Theorems on pixel formats and framebuffer requests

    A request that passes [framebuffer_check] and the check of a driver on contiguous
    memory describes pixels inside the buffers, each at an address of its own; the
    formats for which the check is void; the codes of the first ioctl. *)

From S2P Require Import Prelude Counting DrmFormats.

(** ** What the formats mean

    The planes of a format as drm_fourcc.h describes it: how many pixels share a sample in
    either direction, and the bytes of a sample.  This does not depend on the tables of
    drm_crtc.c. *)
Definition fourcc_planes (f : pixel_format) : list (Z * Z * Z) :=
  match f with
  | C8 | RGB332 | BGR233 => [(1, 1, 1)]
  | XRGB4444 | XBGR4444 | RGBX4444 | BGRX4444 | ARGB4444 | ABGR4444 | RGBA4444 | BGRA4444
  | XRGB1555 | XBGR1555 | RGBX5551 | BGRX5551 | ARGB1555 | ABGR1555 | RGBA5551 | BGRA5551
  | RGB565 | BGR565 => [(1, 1, 2)]
  | RGB888 | BGR888 => [(1, 1, 3)]
  | XRGB8888 | XBGR8888 | RGBX8888 | BGRX8888 | ARGB8888 | ABGR8888 | RGBA8888 | BGRA8888
  | XRGB2101010 | XBGR2101010 | RGBX1010102 | BGRX1010102
  | ARGB2101010 | ABGR2101010 | RGBA1010102 | BGRA1010102 | AYUV => [(1, 1, 4)]
  | YUYV | YVYU | UYVY | VYUY => [(1, 1, 2)]
  | NV12 | NV21 => [(1, 1, 1); (2, 2, 2)]
  | NV16 | NV61 => [(1, 1, 1); (2, 1, 2)]
  | NV24 | NV42 => [(1, 1, 1); (1, 1, 2)]
  | YUV410 | YVU410 => [(1, 1, 1); (4, 4, 1); (4, 4, 1)]
  | YUV411 | YVU411 => [(1, 1, 1); (4, 1, 1); (4, 1, 1)]
  | YUV420 | YVU420 => [(1, 1, 1); (2, 2, 1); (2, 2, 1)]
  | YUV422 | YVU422 => [(1, 1, 1); (2, 1, 1); (2, 1, 1)]
  | YUV444 | YVU444 => [(1, 1, 1); (1, 1, 1); (1, 1, 1)]
  end.

(** The formats without a size of their pixels in [drm_fb_get_bpp_depth]. *)
Definition unsized_formats : list pixel_format :=
  [XRGB4444; XBGR4444; RGBX4444; BGRX4444; ARGB4444; ABGR4444; RGBA4444; BGRA4444; AYUV].

(** A request as it arrives: all fields are 32 bits wide. *)
Definition fb_cmd_fits (r : drm_mode_fb_cmd2) : Prop :=
  is_u32 (r_width r) /\ is_u32 (r_height r) /\ is_u32 (r_pixel_format r) /\
  Forall is_u32 (r_pitches r) /\ Forall is_u32 (r_offsets r).

Section formats_props.
Context `{fourcc_h_ok}.

(** Codes of such formats, and those with the mark of the byte order. *)
Definition unsized (code : Z) : Prop := 2 ^ 31 <= code \/ exists f, code = DRM_FORMAT f /\ f ∈ unsized_formats.

(** ** Lemmas *)

Lemma in_formats f : f ∈ formats.
Proof. destruct f; unfold formats; repeat first [apply list_elem_of_here | apply list_elem_of_further]. Qed.

Lemma find_code f l : f ∈ l -> find (fun g => DRM_FORMAT g =? DRM_FORMAT f) l = Some f.
Proof.
  induction l as [|g l IH]; intros Hf; [by apply not_elem_of_nil in Hf|]. cbn.
  destruct (Z.eqb_spec (DRM_FORMAT g) (DRM_FORMAT f)) as [E|E]; [by rewrite (fourcc_inj _ _ E)|].
  apply IH. apply elem_of_cons in Hf as [->|Hf]; [done|by apply Hf].
Qed.

Lemma format_of_code f : format_of (DRM_FORMAT f) = Some f.
Proof. apply find_code, in_formats. Qed.

Lemma format_of_some code f : format_of code = Some f -> code = DRM_FORMAT f.
Proof. intros [_ E]%find_some. by apply Z.eqb_eq in E. Qed.

Lemma format_of_big code : 2 ^ 31 <= code -> format_of code = None.
Proof.
  intros Hc. destruct (format_of code) as [f|] eqn:E; [|done]. apply format_of_some in E. pose proof (fourcc_range f). lia.
Qed.

Lemma clear_top code : is_u32 code ->
  Z.land code (u32 (Z.lnot (2 ^ 31))) = if 2 ^ 31 <=? code then code - 2 ^ 31 else code.
Proof.
  intros Hc. change (u32 (Z.lnot (2 ^ 31))) with (Z.ones 31). rewrite Z.land_ones by lia. unfold is_u32 in Hc.
  case_if; b2p.
  - replace code with (code - 2 ^ 31 + 1 * 2 ^ 31) at 1 by lia. rewrite Z.mod_add, Z.mod_small; lia.
  - apply Z.mod_small. lia.
Qed.

Lemma num_planes_range code : (1 <= drm_format_num_planes code <= 3)%nat.
Proof. unfold drm_format_num_planes. destruct (format_of code) as [[]|]; cbn; lia. Qed.

Lemma cpp_range code i : 0 <= drm_format_plane_cpp code i <= 4.
Proof.
  unfold drm_format_plane_cpp, drm_fb_get_bpp_depth. case_if; [lia|].
  destruct (format_of code) as [[]|], i; vm_compute; split; discriminate.
Qed.

Lemma hsub_range code : 1 <= drm_format_horz_chroma_subsampling code <= 4.
Proof. unfold drm_format_horz_chroma_subsampling. destruct (format_of code) as [[]|]; cbn; lia. Qed.

Lemma vsub_range code : 1 <= drm_format_vert_chroma_subsampling code <= 4.
Proof. unfold drm_format_vert_chroma_subsampling. destruct (format_of code) as [[]|]; cbn; lia. Qed.

Lemma entry_fits l i : Forall is_u32 l -> is_u32 (entry l i).
Proof.
  intros Hl. unfold entry. destruct (l !! i) as [x|] eqn:E; cbn; [|unfold is_u32; lia].
  by apply (Forall_lookup_1 _ _ _ _ Hl E).
Qed.

Lemma plane_size_range size sub i : is_u32 size -> 1 <= sub -> is_u32 (plane_size size sub i).
Proof.
  unfold plane_size, is_u32. intros Hs Hsub. destruct i; cbn.
  - rewrite Z.div_1_r. lia.
  - split; [apply Z.div_pos; lia|]. apply Z.div_lt_upper_bound; nia.
Qed.

(** No plane is empty: the subsampling divides the size. *)
Lemma plane_size_pos size sub i : 0 < size -> 1 <= sub -> size mod sub = 0 -> 0 < plane_size size sub i.
Proof.
  unfold plane_size. intros Hs Hsub Hm. destruct i; cbn; [rewrite Z.div_1_r; lia|].
  pose proof (Z.div_mod size sub). nia.
Qed.

Lemma planes_check_in r hsub vsub l i :
  planes_check r hsub vsub l = 0 -> i ∈ l -> plane_check r hsub vsub i = 0.
Proof.
  induction l as [|j l IH]; intros Hp Hi; [by apply not_elem_of_nil in Hi|]. cbn in Hp. unfold truth in Hp.
  destruct (Z.eqb_spec (plane_check r hsub vsub j) 0) as [E|E]; cbn in Hp; [|done].
  apply elem_of_cons in Hi as [->|Hi]; [done|by apply IH].
Qed.

(** What the check of one plane says. *)
Record plane_fits (r : drm_mode_fb_cmd2) (width height : Z) (i : nat) : Prop := {
  pf_row : width * drm_format_plane_cpp (r_pixel_format r) i <= entry (r_pitches r) i;
  pf_end : height * entry (r_pitches r) i + entry (r_offsets r) i < 2 ^ 32;
}.

Lemma plane_check_fits r hsub vsub i :
  fb_cmd_fits r -> 1 <= hsub -> 1 <= vsub -> plane_check r hsub vsub i = 0 ->
  plane_fits r (plane_size (r_width r) hsub i) (plane_size (r_height r) vsub i) i.
Proof.
  intros (Hw & Hh & _ & Hp & Ho) H1 H2. unfold plane_check.
  pose proof (plane_size_range _ _ i Hw H1) as Hw'. pose proof (plane_size_range _ _ i Hh H2) as Hh'.
  pose proof (entry_fits _ i Hp) as Hp'. pose proof (entry_fits _ i Ho) as Ho'.
  pose proof (cpp_range (r_pixel_format r) i) as Hc.
  set (w := plane_size (r_width r) hsub i) in *. set (h := plane_size (r_height r) vsub i) in *.
  set (c := drm_format_plane_cpp _ _) in *. set (p := entry (r_pitches r) i) in *. set (o := entry (r_offsets r) i) in *.
  unfold is_u32 in *. unfold UINT_MAX, EINVAL, ERANGE.
  rewrite (ul_small (w * c)), (ul_small (h * p)) by (unfold is_ul; nia). rewrite ul_small by (unfold is_ul; nia).
  repeat case_if; b2p; try lia. rewrite u32_small in * by (unfold is_u32; nia). intros _. split; fold w h c p o; lia.
Qed.

Lemma framebuffer_check_inv r i :
  fb_cmd_fits r -> framebuffer_check r = 0 -> (i < drm_format_num_planes (r_pixel_format r))%nat ->
  let hsub := drm_format_horz_chroma_subsampling (r_pixel_format r) in
  let vsub := drm_format_vert_chroma_subsampling (r_pixel_format r) in
  plane_fits r (plane_size (r_width r) hsub i) (plane_size (r_height r) vsub i) i /\
  0 < plane_size (r_width r) hsub i /\ 0 < plane_size (r_height r) vsub i.
Proof.
  intros Hf. unfold framebuffer_check. pose proof (hsub_range (r_pixel_format r)). pose proof (vsub_range (r_pixel_format r)).
  set (hsub := drm_format_horz_chroma_subsampling _) in *. set (vsub := drm_format_vert_chroma_subsampling _) in *.
  destruct (truth (format_check r)) eqn:E; [intros C; rewrite C in E; done|].
  destruct (_ || _) eqn:Ew; [done|]. destruct (_ || _) eqn:Eh in |- *; [done|].
  intros Hp Hi. destruct Hf as (Hw & Hh & Hf). unfold truth in *. b2p. unfold is_u32 in *. split_and!.
  - apply plane_check_fits; [done|lia|lia|]. eapply planes_check_in; [done|]. apply elem_of_seq. lia.
  - apply plane_size_pos; lia.
  - apply plane_size_pos; lia.
Qed.

(** ** The driver on contiguous memory *)

Section cma.
Context (lookup : Z -> option (Z * Z)).

Lemma gem_ref_pair obj count o : gem_ref (- 1) obj (gem_ref 1 obj count) o = count o.
Proof. unfold gem_ref. case_if; lia. Qed.

Lemma gem_ref_occ d obj count o : gem_ref d obj count o = count o + d * b2z (o =? obj).
Proof. unfold gem_ref. case_if; cbn; lia. Qed.

Lemma unreference_all_occ objs count o : gem_unreference_all objs count o = count o - occ o objs.
Proof.
  unfold gem_unreference_all. revert count.
  induction objs as [|a objs IH]; intros count; cbn -[gem_ref occ]; [unfold occ; cbn; lia|].
  rewrite IH, gem_ref_occ, occ_cons. lia.
Qed.

(** The loop holds one reference per object that it found. *)
Lemma cma_objects_refs r hsub vsub l objs count ret objs' count' :
  cma_objects lookup r hsub vsub l objs count = (ret, objs', count') ->
  forall o, count' o - occ o objs' = count o - occ o objs.
Proof.
  revert objs count. induction l as [|i l IH]; intros objs count; cbn [cma_objects].
  - intros [= <- <- <-] o. done.
  - destruct (lookup _) as [[obj size]|]; [|intros [= <- <- <-] o; done]. case_if.
    + intros [= <- <- <-] o. by rewrite gem_ref_pair.
    + intros Hl o. rewrite (IH _ _ Hl o), gem_ref_occ, occ_cons. lia.
Qed.

Lemma cma_objects_found r hsub vsub l objs count objs' count' :
  cma_objects lookup r hsub vsub l objs count = (0, objs', count') ->
  exists found, objs' = rev found ++ objs /\
    Forall2 (fun i obj => exists size, lookup (entry (r_handles r) i) = Some (obj, size) /\
                                       cma_min_size r hsub vsub i <= size) l found.
Proof.
  revert objs count. induction l as [|i l IH]; intros objs count; cbn [cma_objects].
  - intros [= <- <-]. exists []. split; [done|constructor].
  - destruct (lookup _) as [[obj size]|] eqn:E; [|done]. case_if; [done|]. intros Hl. b2p.
    destruct (IH _ _ Hl) as (found & -> & Hf). exists (obj :: found). split; [cbn; by rewrite <- app_assoc|].
    constructor; [|done]. by exists size.
Qed.

Lemma cma_check_found r count objs count' :
  cma_check lookup r count = (inr objs, count') ->
  forall i, (i < drm_format_num_planes (r_pixel_format r))%nat ->
  exists obj size, objs !! i = Some obj /\ lookup (entry (r_handles r) i) = Some (obj, size) /\
    cma_min_size r (drm_format_horz_chroma_subsampling (r_pixel_format r))
                   (drm_format_vert_chroma_subsampling (r_pixel_format r)) i <= size.
Proof.
  unfold cma_check. destruct (cma_objects _ _ _ _ _ _ _) as [[ret objs'] c] eqn:E.
  unfold truth. destruct (Z.eqb_spec ret 0) as [->|]; cbn; [|done]. intros [= <- <-] i Hi.
  apply cma_objects_found in E as (found & -> & Hf). rewrite app_nil_r, rev_involutive.
  eapply Forall2_lookup_l in Hf as (obj & Hobj & size & Hl & Hs); [by exists obj, size|].
  rewrite lookup_seq. split; [|done]. reflexivity.
Qed.

(** The [unsigned int] size that the driver asks for does not wrap, so it is the end of
    the last row. *)
Lemma cma_min_size_fits r hsub vsub i :
  fb_cmd_fits r -> 1 <= hsub -> 1 <= vsub ->
  let width := plane_size (r_width r) hsub i in
  let height := plane_size (r_height r) vsub i in
  plane_fits r width height i -> 0 < height ->
  cma_min_size r hsub vsub i =
    (height - 1) * entry (r_pitches r) i + width * drm_format_plane_cpp (r_pixel_format r) i + entry (r_offsets r) i.
Proof.
  intros (Hw & Hh & _ & Hp & Ho) H1 H2 w h [Hrow Hend] Hpos. unfold cma_min_size. fold w h.
  pose proof (plane_size_range _ _ i Hw H1) as Hw'. pose proof (plane_size_range _ _ i Hh H2) as Hh'. fold w in Hw'. fold h in Hh'.
  pose proof (entry_fits _ i Hp) as Hp'. pose proof (entry_fits _ i Ho) as Ho'.
  pose proof (cpp_range (r_pixel_format r) i) as Hc. unfold is_u32 in *.
  assert (h * entry (r_pitches r) i = (h - 1) * entry (r_pitches r) i + entry (r_pitches r) i) by ring.
  assert (0 <= (h - 1) * entry (r_pitches r) i) by nia.
  assert (0 <= w * drm_format_plane_cpp (r_pixel_format r) i) by nia.
  rewrite (u32_small (h - 1)) by (unfold is_u32; lia). rewrite !u32_small by (unfold is_u32; rewrite ?u32_small; unfold is_u32; lia). lia.
Qed.

End cma.

(** The tables of the code agree with the meaning of a format whose pixels they know. *)
Lemma planes_known f i hs vs bytes : f ∉ unsized_formats -> fourcc_planes f !! i = Some (hs, vs, bytes) ->
  (i < drm_format_num_planes (DRM_FORMAT f))%nat /\ drm_format_plane_cpp (DRM_FORMAT f) i = bytes /\
  forall size, plane_size size (drm_format_horz_chroma_subsampling (DRM_FORMAT f)) i = size / hs /\
               plane_size size (drm_format_vert_chroma_subsampling (DRM_FORMAT f)) i = size / vs.
Proof.
  intros Hf Hi. unfold drm_format_plane_cpp, drm_format_num_planes, drm_format_horz_chroma_subsampling,
    drm_format_vert_chroma_subsampling, drm_fb_get_bpp_depth, plane_size. rewrite format_of_code.
  destruct f; try (exfalso; apply Hf; unfold unsized_formats; repeat first [apply list_elem_of_here | apply list_elem_of_further]; fail);
    destruct i as [|[|[|i]]]; try discriminate Hi; cbn in Hi; injection Hi as <- <- <-;
    (split_and!; [cbn; lia|reflexivity|intros size; by split]).
Qed.

(** The address of byte [k] of sample ([x], [y]) of plane [i], whose samples have [bytes]. *)
Definition sample_address (r : drm_mode_fb_cmd2) (i : nat) (bytes x y k : Z) : Z :=
  entry (r_offsets r) i + y * entry (r_pitches r) i + x * bytes + k.

(** The bytes of a plane that holds a sample for [hs] times [vs] pixels. *)
Definition sample_byte (r : drm_mode_fb_cmd2) (hs vs bytes x y k : Z) : Prop :=
  0 <= x < r_width r / hs /\ 0 <= y < r_height r / vs /\ 0 <= k < bytes.

Lemma row_unique a b w p x y : 0 <= a < w -> 0 <= b < w -> w <= p -> y * p + a = x * p + b -> y = x /\ a = b.
Proof. intros. assert (y = x) by nia. subst. lia. Qed.

(** C11: a framebuffer of a format whose pixel size the code knows (every format of the
    header but those of four bits per colour, AYUV and those marked as big endian), which
    [framebuffer_check] and a driver on contiguous memory accept, lies in its buffers: each
    byte of each sample of each plane of the format has an address below the size of the
    plane's object, no address wraps around 32 bits, and two bytes of a plane never share
    one. *)
Theorem fb_pixels_inside lookup f r count objs count' :
  fb_cmd_fits r -> r_pixel_format r = DRM_FORMAT f -> f ∉ unsized_formats ->
  framebuffer_check r = 0 -> cma_check lookup r count = (inr objs, count') ->
  forall i hs vs bytes, fourcc_planes f !! i = Some (hs, vs, bytes) ->
  exists obj size, objs !! i = Some obj /\ lookup (entry (r_handles r) i) = Some (obj, size) /\
    (forall x y k, sample_byte r hs vs bytes x y k -> 0 <= sample_address r i bytes x y k < Z.min size (2 ^ 32)) /\
    (forall x y k x' y' k', sample_byte r hs vs bytes x y k -> sample_byte r hs vs bytes x' y' k' ->
       sample_address r i bytes x y k = sample_address r i bytes x' y' k' -> x = x' /\ y = y' /\ k = k').
Proof.
  intros Hf Ef Hs Hc Hcma i hs vs bytes Hp. destruct (planes_known f i hs vs bytes Hs Hp) as (Hi & Hb & Hsz). rewrite <- Ef in *.
  destruct (cma_check_found lookup r count objs count' Hcma i Hi) as (obj & size & Ho & Hl & Hle).
  destruct (framebuffer_check_inv r i Hf Hc Hi) as (Hpf & Hw & Hh). pose proof (hsub_range (r_pixel_format r)). pose proof (vsub_range (r_pixel_format r)).
  rewrite (cma_min_size_fits _ _ _ _ Hf) in Hle by (done || lia). destruct Hpf as [Hrow Hend].
  rewrite !(proj1 (Hsz _)), !(proj2 (Hsz _)), ?Hb in *. destruct Hf as (_ & _ & _ & Hpi & Hof).
  pose proof (entry_fits _ i Hpi) as Hpt. pose proof (entry_fits _ i Hof) as Hoff. unfold is_u32 in *.
  exists obj, size. split_and!; [done|done|..]; unfold sample_address, sample_byte.
  - intros x y k (Hx & Hy & Hk). split; [nia|]. apply Z.min_glb_lt; nia.
  - intros x y k x' y' k' (Hx & Hy & Hk) (Hx' & Hy' & Hk') E. set (p := entry (r_pitches r) i) in *. set (w := r_width r / hs) in *.
    destruct (row_unique (x * bytes + k) (x' * bytes + k') (w * bytes) p y' y) as [-> E']; [nia|nia|lia|lia|].
    destruct (row_unique k k' bytes bytes x' x) as [-> ->]; lia.
Qed.

(** A failed check drops every reference that it took; a successful one keeps one for
    each plane. *)
Lemma cma_check_refs lookup r count res count' o :
  cma_check lookup r count = (res, count') ->
  count' o = count o + match res with inl _ => 0 | inr objs => occ o objs end.
Proof.
  unfold cma_check. destruct (cma_objects _ _ _ _ _ _ _) as [[ret objs] c] eqn:E.
  pose proof (cma_objects_refs _ _ _ _ _ _ _ _ _ _ E o) as Ho. unfold occ in Ho at 2. cbn in Ho.
  case_if; intros [= <- <-].
  - rewrite unreference_all_occ. lia.
  - unfold occ in *. rewrite (lsum_perm _ (rev objs) objs) by (symmetry; apply Permutation_rev). lia.
Qed.

(** The codes of the first ioctl: the table gives the depth and size of a pixel back. *)
Lemma legacy_format_roundtrip bpp depth :
  (depth, bpp) ∈ [(8, 8); (15, 16); (16, 16); (24, 24); (24, 32); (30, 32); (32, 32)] ->
  drm_fb_get_bpp_depth (drm_mode_legacy_fb_format bpp depth) = (depth, bpp).
Proof.
  intros Hin. repeat (apply elem_of_cons in Hin as [[= -> ->]|Hin];
    [unfold drm_mode_legacy_fb_format, drm_fb_get_bpp_depth; cbn -[format_of]; by rewrite format_of_code|]).
  by apply not_elem_of_nil in Hin.
Qed.

Lemma format_check_cases r : is_u32 (r_pixel_format r) ->
  format_check r = 0 <->
  exists f, r_pixel_format r = DRM_FORMAT f \/ r_pixel_format r = DRM_FORMAT f + 2 ^ 31.
Proof.
  intros Hr. unfold format_check. rewrite big_endian_ok, clear_top by done. split.
  - destruct (format_of _) as [f|] eqn:E; [|done]. intros _. exists f. apply format_of_some in E. case_if; lia.
  - intros [f [E|E]]; rewrite E; pose proof (fourcc_range f) as Hf.
    + rewrite (proj2 (Z.leb_gt _ _)) by lia. by rewrite format_of_code.
    + rewrite (proj2 (Z.leb_le _ _)) by lia. replace (DRM_FORMAT f + 2 ^ 31 - 2 ^ 31) with (DRM_FORMAT f) by lia.
      by rewrite format_of_code.
Qed.

(** The pixels of a known format have a size unless the format is one of 16 bits with
    four bits per colour, or AYUV. *)
Lemma cpp_zero_code f : drm_format_plane_cpp (DRM_FORMAT f) 0 = 0 <->
  f ∈ unsized_formats.
Proof.
  unfold drm_format_plane_cpp, drm_format_num_planes, drm_fb_get_bpp_depth. rewrite format_of_code.
  split; [destruct f; try discriminate; intros _; set_solver|].
  intros Hin. by repeat (apply elem_of_cons in Hin as [->|Hin]; [reflexivity|]); apply not_elem_of_nil in Hin.
Qed.

Lemma big_format code : 2 ^ 31 <= code ->
  drm_format_num_planes code = 1%nat /\ (forall i, drm_format_plane_cpp code i = 0) /\
  drm_format_horz_chroma_subsampling code = 1 /\ drm_format_vert_chroma_subsampling code = 1.
Proof.
  intros Hc. unfold drm_format_plane_cpp, drm_format_num_planes, drm_format_horz_chroma_subsampling,
    drm_format_vert_chroma_subsampling, drm_fb_get_bpp_depth. rewrite format_of_big by done.
  split_and!; try done. intros i. by case_if.
Qed.

Lemma unsized_format code : unsized code ->
  drm_format_num_planes code = 1%nat /\ (forall i, drm_format_plane_cpp code i = 0) /\
  drm_format_horz_chroma_subsampling code = 1 /\ drm_format_vert_chroma_subsampling code = 1.
Proof.
  intros [Hb|(f & -> & Hin)]; [by apply big_format|]. unfold drm_format_plane_cpp, drm_format_num_planes,
    drm_format_horz_chroma_subsampling, drm_format_vert_chroma_subsampling, drm_fb_get_bpp_depth. rewrite format_of_code.
  repeat (apply elem_of_cons in Hin as [->|Hin]; [split_and!; try done; intros i; by case_if|]).
  by apply not_elem_of_nil in Hin.
Qed.

(** C39: [framebuffer_check] accepts formats whose pixels have no size in its tables, exactly
    those of four bits per colour, AYUV and every format marked as big endian; these
    pass with one handle and any pitch, 0 included, whatever their width and number of
    planes. *)
Theorem unsized_formats_pass r :
  fb_cmd_fits r -> format_check r = 0 ->
  (drm_format_plane_cpp (r_pixel_format r) 0 = 0 <-> unsized (r_pixel_format r)) /\
  (unsized (r_pixel_format r) -> r_width r <> 0 -> r_height r <> 0 -> entry (r_handles r) 0 <> 0 ->
   r_height r * entry (r_pitches r) 0 + entry (r_offsets r) 0 < 2 ^ 32 -> framebuffer_check r = 0).
Proof.
  intros Hf Hc. pose proof Hf as (Hw & Hh & Hp & Hpi & Ho). split.
  - unfold unsized. apply format_check_cases in Hc as [f [E|E]]; [| |done]; rewrite E; pose proof (fourcc_range f).
    + rewrite cpp_zero_code. split; [intros; right; by exists f|].
      intros [C|(g & ->%fourcc_inj & Hg)]; [lia|done].
    + destruct (big_format (DRM_FORMAT f + 2 ^ 31)) as (_ & Hz & _); [lia|]. rewrite Hz. split; [left; lia|done].
  - intros Hb Hw0 Hh0 Hha Hend. unfold framebuffer_check. cbv zeta. rewrite Hc.
    destruct (unsized_format (r_pixel_format r) Hb) as (-> & Hz & -> & ->). unfold truth. rewrite !Z.mod_1_r.
    rewrite (proj2 (Z.eqb_neq (r_width r) _)), (proj2 (Z.eqb_neq (r_height r) _)) by done.
    unfold planes_check, plane_check. cbn [seq orb negb Z.eqb].
    pose proof (entry_fits _ 0 Hpi) as Hp'. pose proof (entry_fits _ 0 Ho) as Ho'. unfold is_u32 in *.
    rewrite Hz, Z.mul_0_r. unfold plane_size. cbn [Nat.eqb]. rewrite Z.div_1_r.
    rewrite (ul_small (r_height r * _)), (ul_small (_ + _)) by (unfold is_ul; nia).
    rewrite (proj2 (Z.eqb_neq _ _)) by done. change (ul 0) with 0. change (u32 0) with 0. unfold UINT_MAX.
    repeat case_if; b2p; try done; lia.
Qed.

End formats_props.

(** ** Samples *)
Module FormatSample.

#[export] Instance pixel_format_dec : EqDecision pixel_format.
Proof. solve_decision. Defined.

Definition index_in (f : pixel_format) : Z :=
  match list_find (fun g => g = f) formats with Some (n, _) => Z.of_nat n | None => 0 end.

#[export] Instance header : fourcc_h := {|
  DRM_FORMAT := index_in; DRM_FORMAT_BIG_ENDIAN := 2 ^ 31; DRM_MODE_FB_INTERLACED := 1 |}.

Lemma index_nth f : nth_error formats (Z.to_nat (index_in f)) = Some f.
Proof. by destruct f. Qed.

#[export] Instance header_ok : fourcc_h_ok.
Proof.
  split.
  - intros f g E. cbn in E. pose proof (index_nth f) as Hf. rewrite E, index_nth in Hf. congruence.
  - intros f. split; [|]; by destruct f.
  - done.
Qed.

(** 640x480 in 32 bits, in an object of 1.2 MB; NV12 at 64x32 in two objects. *)
Definition rgb : drm_mode_fb_cmd2 := MkFbCmd2 640 480 (DRM_FORMAT XRGB8888) 0 [1; 0; 0; 0] [2560; 0; 0; 0] [0; 0; 0; 0].
Definition nv12 : drm_mode_fb_cmd2 := MkFbCmd2 64 32 (DRM_FORMAT NV12) 0 [1; 2; 0; 0] [64; 64; 0; 0] [0; 16; 0; 0].
(** The same, marked as big endian, with one handle and a pitch of 0. *)
Definition nv12_be : drm_mode_fb_cmd2 :=
  MkFbCmd2 64 32 (DRM_FORMAT NV12 + 2 ^ 31) 0 [1; 0; 0; 0] [0; 0; 0; 0] [0; 0; 0; 0].

Definition sizes (handle : Z) : option (Z * Z) :=
  if handle =? 1 then Some (10, 1228800) else if handle =? 2 then Some (20, 1040) else None.

End FormatSample.

Import FormatSample.

Ltac cmd_fits := unfold fb_cmd_fits, is_u32; split_and!;
  repeat (constructor; [vm_compute; split; [discriminate|reflexivity]|]); try constructor; vm_compute; first [discriminate|reflexivity].

Lemma nv12_fits : fb_cmd_fits nv12.
Proof. cmd_fits. Qed.

Lemma nv12_be_fits : fb_cmd_fits nv12_be.
Proof. cmd_fits. Qed.

(** The last byte of the chroma plane is the last one of its object. *)
Lemma fb_pixels_inside_witness :
  framebuffer_check nv12 = 0 /\ exists obj size, sizes (entry (r_handles nv12) 1) = Some (obj, size) /\
    0 <= sample_address nv12 1 2 31 15 1 < Z.min size (2 ^ 32).
Proof.
  split; [vm_compute; reflexivity|].
  destruct (fb_pixels_inside sizes NV12 nv12 (fun _ => 0) [10; 20] (cma_check sizes nv12 (fun _ => 0)).2 nv12_fits eq_refl)
    with (i := 1%nat) (hs := 2) (vs := 2) (bytes := 2) as (obj & size & _ & Hl & Ha & _).
  - by apply (bool_decide_unpack _).
  - vm_compute. reflexivity.
  - vm_compute. reflexivity.
  - reflexivity.
  - exists obj, size. split; [exact Hl|]. apply Ha. split_and!; vm_compute; (discriminate || reflexivity).
Defined.

Lemma unsized_formats_pass_witness : unsized (r_pixel_format nv12_be) /\ framebuffer_check nv12_be = 0.
Proof.
  assert (unsized (r_pixel_format nv12_be)) as Hu by (left; vm_compute; discriminate). split; [exact Hu|].
  apply (unsized_formats_pass nv12_be nv12_be_fits); [vm_compute; reflexivity|exact Hu|..]; vm_compute; (discriminate || reflexivity).
Defined.
