(* ===== verification/DrmPlane.v ===== *)
(** * Plane updates and viewports (drm_plane_helper.c, drm_crtc.c)

    The checks of a request to show a framebuffer on a plane: the source rectangle
    against the framebuffer ([__setplane_internal]), scaling, clipping and coverage
    ([drm_plane_helper_check_update]), the update of a primary plane through the mode
    setting call of its CRTC ([drm_primary_helper_update]), and the viewport of a CRTC in
    a framebuffer.

    Inline functions and constants of the headers are parameters; the callbacks of a
    driver act on its state, of any type. *)

From S2P Require Import Prelude DrmRect DrmModes DrmFormats.

Class drm_plane_h := {
  drm_rect_equals : drm_rect -> drm_rect -> bool;
  DRM_PLANE_HELPER_NO_SCALING : Z;
  DRM_MODE_FLAG_3D_MAX : Z;
  drm_mode_is_stereo : drm_display_mode -> bool;
}.

Class drm_plane_h_ok `{drm_plane_h} : Prop := {
  rect_equals_ok r1 r2 : drm_rect_equals r1 r2 = true <-> r1 = r2;
  no_scaling_ok : DRM_PLANE_HELPER_NO_SCALING = 2 ^ 16;
}.

(** A connector with the CRTC of its encoder, if it has an encoder. *)
Record drm_connector := MkConnector { con_ptr : Z; con_encoder : option (option Z) }.

(** [struct drm_mode_set] *)
Record drm_mode_set := MkSet {
  set_crtc_ptr : Z; set_fb : option Z; set_mode : option drm_display_mode;
  set_x : Z; set_y : Z; set_connectors : list Z;
}.

(** What the checks read of a CRTC. *)
Record crtc_config := MkCrtcConfig {
  cc_enabled : bool; cc_mode : drm_display_mode; cc_invert_dimensions : bool;
}.

Section plane.
Context `{drm_rect_h, drm_plane_h, drm_modes_h}.

(** ** Checks *)

(** The bounds of the source rectangle in [__setplane_internal], with the size of the
    framebuffer in 16.16 fixed point. *)
Definition src_inside (width height src_x src_y src_w src_h : Z) : bool :=
  let fb_width := u32 (Z.shiftl width 16) in
  let fb_height := u32 (Z.shiftl height 16) in
  negb ((fb_width <? src_w) || (u32 (fb_width - src_w) <? src_x) ||
        (fb_height <? src_h) || (u32 (fb_height - src_h) <? src_y)).

(** The guard against overflows in [drm_mode_setplane]: [crtc_x], [crtc_y] are signed. *)
Definition crtc_coords_ok (crtc_x crtc_y crtc_w crtc_h : Z) : bool :=
  negb ((INT_MAX <? crtc_w) || (s32 (INT_MAX - s32 crtc_w) <? crtc_x) ||
        (INT_MAX <? crtc_h) || (s32 (INT_MAX - s32 crtc_h) <? crtc_y)).

(** Returns the status, [src] and [dest] after clipping, and [*visible] if it is set. *)
Definition drm_plane_helper_check_update (enabled : bool) (has_fb : bool) (src dest clip : drm_rect)
    (min_scale max_scale : Z) (can_position can_update_disabled : bool)
    : Z * drm_rect * drm_rect * option bool :=
  if negb enabled && negb can_update_disabled then (- EINVAL, src, dest, None) else
  let hscale := drm_rect_calc_hscale src dest min_scale max_scale in
  let vscale := drm_rect_calc_vscale src dest min_scale max_scale in
  if (hscale <? 0) || (vscale <? 0) then (- ERANGE, src, dest, None) else
  if negb has_fb then (0, src, dest, Some false) else
  let '(visible, src, dest) := drm_rect_clip_scaled src dest clip hscale vscale in
  if negb visible then (0, src, dest, Some visible) else
  if negb can_position && negb (drm_rect_equals dest clip) then (- EINVAL, src, dest, Some visible)
  else (0, src, dest, Some visible).

(** ** The primary plane *)

(** The connectors of a CRTC: their number and, if a list is given, at most
    [num_connectors] of them. *)
Fixpoint connectors_loop (connectors : list drm_connector) (crtc : Z) (fill : bool) (num_connectors count : Z)
    : Z * list Z :=
  match connectors with
  | [] => (count, [])
  | connector :: connectors =>
      if match con_encoder connector with Some (Some c) => c =? crtc | _ => false end then
        let '(n, l) := connectors_loop connectors crtc fill num_connectors (s32 (count + 1)) in
        (n, if fill && (count <? num_connectors) then con_ptr connector :: l else l)
      else connectors_loop connectors crtc fill num_connectors count
  end.

Definition get_connectors_for_crtc (connectors : list drm_connector) (crtc : Z) (fill : bool) (num_connectors : Z)
    : Z * list Z :=
  connectors_loop connectors crtc fill num_connectors 0.

Section primary.
Context {D : Type} (disable_plane : D -> Z * D) (set_config : drm_mode_set -> D -> Z * D).

(** [mem] tells whether the allocation of the list of connectors succeeds. *)
Definition drm_primary_helper_update (mem : bool) (connectors : list drm_connector) (crtc : Z) (cc : crtc_config)
    (fb : Z) (crtc_x crtc_y crtc_w crtc_h src_x src_y src_w src_h : Z) (d : D) : outcome (Z * D) :=
  let src := {| x1 := s32 src_x; y1 := s32 src_y; x2 := s32 (src_x + src_w); y2 := s32 (src_y + src_h) |} in
  let dest := {| x1 := crtc_x; y1 := crtc_y; x2 := s32 (crtc_x + crtc_w); y2 := s32 (crtc_y + crtc_h) |} in
  let clip := {| x1 := 0; y1 := 0; x2 := hdisplay (t (cc_mode cc)); y2 := vdisplay (t (cc_mode cc)) |} in
  let '(ret, _, _, visible) :=
    drm_plane_helper_check_update (cc_enabled cc) true src dest clip
      DRM_PLANE_HELPER_NO_SCALING DRM_PLANE_HELPER_NO_SCALING false false in
  if truth ret then Ok (ret, d) else
  if negb (default false visible) then Ok (disable_plane d) else
  let '(num_connectors, _) := get_connectors_for_crtc connectors crtc false 0 in
  _ ← BUG_ON (num_connectors =? 0);
  if negb mem then Ok (- ENOMEM, d) else
  let '(_, connector_list) := get_connectors_for_crtc connectors crtc true num_connectors in
  Ok (set_config {| set_crtc_ptr := crtc; set_fb := Some fb; set_mode := Some (cc_mode cc);
                    set_x := Z.shiftr src_x 16; set_y := Z.shiftr src_y 16;
                    set_connectors := connector_list |} d).

Definition drm_primary_helper_disable : Z := - EINVAL.

End primary.

(** ** The viewport of a CRTC *)

(** Comparisons of an [int] with the [unsigned] size of a framebuffer are unsigned. *)
Definition drm_crtc_check_viewport (cc : crtc_config) (x y : Z) (mode : drm_display_mode) (fb : fb_layout) : Z :=
  let hdisplay' := hdisplay (t mode) in
  let vdisplay' := vdisplay (t mode) in
  let '(hdisplay', vdisplay') :=
    if drm_mode_is_stereo mode then
      let adjusted := drm_mode_set_crtcinfo mode CRTC_STEREO_DOUBLE in
      (crtc_hdisplay (crtc adjusted), crtc_vdisplay (crtc adjusted))
    else (hdisplay', vdisplay') in
  let '(hdisplay', vdisplay') := if cc_invert_dimensions cc then (vdisplay', hdisplay') else (hdisplay', vdisplay') in
  if (fb_width fb <? u32 hdisplay') || (fb_height fb <? u32 vdisplay') ||
     (u32 (fb_width fb - hdisplay') <? u32 x) || (u32 (fb_height fb - vdisplay') <? u32 y)
  then - ENOSPC else 0.

(** The timings of a [struct drm_mode_modeinfo] of user space; its name, a text that the
    kernel only prints, is left out. *)
Record drm_mode_modeinfo := MkModeinfo { i_timings : timings; i_vrefresh : Z; i_flags : Z; i_type : Z }.

(** [out] is a new mode; the status and the mode. *)
Definition drm_crtc_convert_umode (out : drm_display_mode) (i : drm_mode_modeinfo) : Z * drm_display_mode :=
  if (INT_MAX <? clock (i_timings i)) || (INT_MAX <? i_vrefresh i) then (- ERANGE, out)
  else if DRM_MODE_FLAG_3D_MAX <? Z.land (i_flags i) DRM_MODE_FLAG_3D_MASK then (- EINVAL, out)
  else (0, mk_mode (base_id out) (name out) (status out) (i_type i) (i_timings i) (i_flags i) (crtc out)
             (i_vrefresh i) (hsync out)).

End plane.
