(* ===== verification/DrmPlaneProps.v ===== *)
(** * Theorems on plane updates

    Which requests the primary plane accepts, and that what is then scanned out lies in
    the framebuffer; what the check of a viewport guarantees. *)

From S2P Require Import Prelude DrmRect DrmRectProps DrmModes DrmFormats DrmPlane.

Section plane_props.
Context `{RO : drm_rect_h_ok, PO : drm_plane_h_ok, MH : drm_modes_h}.

(** One side of a request as [drm_mode_setplane] lets it through. *)
Definition side_ok (crtc_x crtc_w src_x src_w : Z) : Prop :=
  is_s32 crtc_x /\ 0 <= crtc_w <= INT_MAX /\ crtc_x + crtc_w <= INT_MAX /\ is_u32 src_x /\ is_u32 src_w.

(** Unscaled, and covering the CRTC from 0 to [size]. *)
Definition covers (size crtc_x crtc_w src_w : Z) : bool :=
  (0 <? size) && (crtc_x <=? 0) && (size <=? crtc_x + crtc_w) && (src_w <? 2 ^ 31) && (src_w / crtc_w =? 2 ^ 16).

(** ** Lemmas *)

Lemma coords_ok_side crtc_x crtc_y crtc_w crtc_h :
  is_u32 crtc_w -> is_u32 crtc_h ->
  crtc_coords_ok crtc_x crtc_y crtc_w crtc_h = true <->
  (crtc_w <= INT_MAX /\ crtc_x + crtc_w <= INT_MAX) /\ crtc_h <= INT_MAX /\ crtc_y + crtc_h <= INT_MAX.
Proof.
  intros Hw Hh. unfold crtc_coords_ok. rewrite negb_true_iff, !orb_false_iff, !Z.ltb_ge.
  unfold is_u32, INT_MAX in *. split.
  - intros [[[H1 H2] H3] H4]. rewrite (s32_small crtc_w), s32_small in H2 by (unfold is_s32; lia).
    rewrite (s32_small crtc_h), s32_small in H4 by (unfold is_s32; lia). lia.
  - intros [[H1 H2] [H3 H4]]. rewrite (s32_small crtc_w), (s32_small crtc_h), !s32_small by (unfold is_s32; lia). lia.
Qed.

(** The difference of two wrapped coordinates is the size between them. *)
Lemma s32_span x w : s32 (s32 (x + w) - s32 x) = s32 w.
Proof.
  unfold s32. set (a := (x + w + 2 ^ 31) mod 2 ^ 32). set (b := (x + 2 ^ 31) mod 2 ^ 32).
  replace (a - 2 ^ 31 - (b - 2 ^ 31) + 2 ^ 31) with ((a - b) + 2 ^ 31) by ring.
  rewrite <- Zplus_mod_idemp_l. unfold a, b. rewrite <- Zminus_mod. rewrite Zplus_mod_idemp_l. f_equal. f_equal. lia.
Qed.

(** The factor of one side. *)
Definition side_scale (src_w dst_w : Z) : Z :=
  if src_w <? 2 ^ 31 then
    if dst_w =? 0 then 0 else if src_w / dst_w =? 2 ^ 16 then 2 ^ 16 else - ERANGE
  else - EINVAL.

Lemma side_scale_neg src_w dst_w :
  (side_scale src_w dst_w <? 0) = negb ((src_w <? 2 ^ 31) && ((dst_w =? 0) || (src_w / dst_w =? 2 ^ 16))).
Proof. unfold side_scale. by repeat case_if. Qed.

Lemma empty_side size crtc_x crtc_w :
  (crtc_w =? 0) = true -> (0 <? size) && (crtc_x <=? 0) && (size <=? crtc_x + crtc_w) = false.
Proof. intros ->%Z.eqb_eq. apply not_true_iff_false. rewrite !andb_true_iff, !Z.leb_le, Z.ltb_lt. lia. Qed.

(** The factor of one side without scaling: negative unless the source is as long as
    the destination, or the destination is empty. *)
Lemma calc_scale_exact src_w dst_w (r := drm_calc_scale (s32 src_w) dst_w) :
  is_u32 src_w -> 0 <= dst_w ->
  (if (r <? 0) || (dst_w =? 0) then r else if (r <? 2 ^ 16) || (2 ^ 16 <? r) then - ERANGE else r) =
  side_scale src_w dst_w.
Proof.
  intros Hs Hd. unfold r, drm_calc_scale, side_scale. unfold is_u32, EINVAL, ERANGE in *. destruct (Z.ltb_spec src_w (2 ^ 31)) as [Hl|Hl].
  - rewrite s32_small by (unfold is_s32; lia). rewrite (proj2 (Z.ltb_ge src_w 0)), (proj2 (Z.ltb_ge dst_w 0)) by lia. cbn [orb].
    destruct (Z.eqb_spec dst_w 0) as [->|Hn]; [done|]. rewrite Z.quot_div_nonneg by lia.
    pose proof (Z.div_pos src_w dst_w). rewrite (proj2 (Z.ltb_ge (src_w / dst_w) 0)) by lia. cbn [orb].
    repeat case_if; b2p; lia.
  - replace (s32 src_w) with (src_w - 2 ^ 32).
    + rewrite (proj2 (Z.ltb_lt (src_w - 2 ^ 32) 0)) by lia. done.
    + unfold s32. replace (src_w + 2 ^ 31) with (src_w - 2 ^ 31 + 1 * 2 ^ 32) by lia. rewrite Z.mod_add, Z.mod_small; lia.
Qed.

Lemma hscale_exact src_x src_w crtc_x crtc_w y1' y2' y3 y4 :
  side_ok crtc_x crtc_w src_x src_w ->
  drm_rect_calc_hscale (mk_rect (s32 src_x) y1' (s32 (src_x + src_w)) y2')
    (mk_rect crtc_x y3 (s32 (crtc_x + crtc_w)) y4) DRM_PLANE_HELPER_NO_SCALING DRM_PLANE_HELPER_NO_SCALING =
  side_scale src_w crtc_w.
Proof.
  intros (Hx & Hw & Hs & Hsx & Hsw). unfold drm_rect_calc_hscale. rewrite !rect_width_ok. cbn [x1 x2].
  rewrite s32_span, no_scaling_ok. unfold is_s32, INT_MAX in *.
  rewrite (s32_small (crtc_x + crtc_w)) by (unfold is_s32; lia).
  replace (crtc_x + crtc_w - crtc_x) with crtc_w by lia. rewrite (s32_small crtc_w) by (unfold is_s32; lia).
  apply calc_scale_exact; [done|lia].
Qed.

Lemma vscale_exact src_y src_h crtc_y crtc_h x1' x2' x3 x4 :
  side_ok crtc_y crtc_h src_y src_h ->
  drm_rect_calc_vscale (mk_rect x1' (s32 src_y) x2' (s32 (src_y + src_h)))
    (mk_rect x3 crtc_y x4 (s32 (crtc_y + crtc_h))) DRM_PLANE_HELPER_NO_SCALING DRM_PLANE_HELPER_NO_SCALING =
  side_scale src_h crtc_h.
Proof.
  intros (Hx & Hw & Hs & Hsx & Hsw). unfold drm_rect_calc_vscale. rewrite !rect_height_ok. cbn [y1 y2].
  rewrite s32_span, no_scaling_ok. unfold is_s32, INT_MAX in *.
  rewrite (s32_small (crtc_y + crtc_h)) by (unfold is_s32; lia).
  replace (crtc_y + crtc_h - crtc_y) with crtc_h by lia. rewrite (s32_small crtc_h) by (unfold is_s32; lia).
  apply calc_scale_exact; [done|lia].
Qed.

Lemma clip_scaled_dst src dst clip hscale vscale :
  let '(visible, _, dst') := drm_rect_clip_scaled src dst clip hscale vscale in
  (visible, dst') = drm_rect_intersect dst clip.
Proof. unfold drm_rect_clip_scaled. by destruct (drm_rect_intersect dst clip). Qed.

(** The connectors of a CRTC. *)
Definition on_crtc (crtc : Z) (c : drm_connector) : bool :=
  match con_encoder c with Some (Some k) => k =? crtc | _ => false end.
Definition crtc_connectors (connectors : list drm_connector) (crtc : Z) : list Z :=
  con_ptr <$> List.filter (on_crtc crtc) connectors.

Lemma connectors_loop_spec connectors crtc fill num count :
  0 <= count -> count + Z.of_nat (length connectors) < 2 ^ 31 ->
  (fill = true -> count + Z.of_nat (length (crtc_connectors connectors crtc)) <= num) ->
  connectors_loop connectors crtc fill num count =
    (count + Z.of_nat (length (crtc_connectors connectors crtc)), if fill then crtc_connectors connectors crtc else []).
Proof.
  unfold crtc_connectors. revert count. induction connectors as [|c l IH]; intros count Hc Hl Hn; cbn [connectors_loop length] in *.
  - cbn. rewrite Z.add_0_r. by destruct fill.
  - cbn [List.filter] in *. fold (on_crtc crtc c). destruct (on_crtc crtc c) eqn:E; cbn in *.
    + rewrite s32_small by (unfold is_s32; lia). rewrite IH; [|lia|lia|intros Hf; specialize (Hn Hf); lia].
      f_equal; [lia|]. destruct fill; cbn; [|done]. specialize (Hn eq_refl). rewrite (proj2 (Z.ltb_lt _ _)) by lia. done.
    + rewrite IH; [done|lia|lia|]. intros Hf. specialize (Hn Hf). lia.
Qed.

(** Visibility and coverage of the clipped destination. *)
Lemma dest_covers hd vd crtc_x crtc_y crtc_w crtc_h :
  0 <= hd < 2 ^ 31 -> 0 <= vd < 2 ^ 31 -> is_s32 crtc_x -> is_s32 crtc_y ->
  0 <= crtc_w -> 0 <= crtc_h -> crtc_x + crtc_w <= INT_MAX -> crtc_y + crtc_h <= INT_MAX ->
  let clip := mk_rect 0 0 hd vd in
  let '(visible, dst) :=
    drm_rect_intersect (mk_rect crtc_x crtc_y (s32 (crtc_x + crtc_w)) (s32 (crtc_y + crtc_h))) clip in
  visible && drm_rect_equals dst clip =
    (0 <? hd) && (crtc_x <=? 0) && (hd <=? crtc_x + crtc_w) && ((0 <? vd) && (crtc_y <=? 0) && (vd <=? crtc_y + crtc_h)).
Proof.
  intros Hhd Hvd Hx Hy Hw Hh Hx2 Hy2 clip. unfold drm_rect_intersect, clip, is_s32, INT_MAX in *. cbn [x1 x2 y1 y2].
  rewrite !s32_small by (unfold is_s32; lia). rewrite rect_visible_ok, rect_width_ok, rect_height_ok. cbn [x1 x2 y1 y2].
  apply eq_true_iff_eq. rewrite !andb_true_iff, rect_equals_ok, !Z.leb_le, !Z.ltb_lt. split.
  - intros [[Hv1 Hv2] [= E1 E2 E3 E4]]. rewrite E1, E3, Z.sub_0_r, s32_small in Hv1 by (unfold is_s32; lia).
    rewrite E2, E4, Z.sub_0_r, s32_small in Hv2 by (unfold is_s32; lia). lia.
  - intros [[[Ha Hb] Hc] [[Hd He] Hf]].
    assert (mk_rect (crtc_x `max` 0) (crtc_y `max` 0) ((crtc_x + crtc_w) `min` hd) ((crtc_y + crtc_h) `min` vd)
            = mk_rect 0 0 hd vd) as E by (f_equal; lia).
    split; [|done]. injection E as E1 E2 E3 E4. rewrite E1, E2, E3, E4, !Z.sub_0_r, !s32_small by (unfold is_s32; lia). lia.
Qed.

Section primary.
Context {D : Type} (disable_plane : D -> Z * D) (set_config : drm_mode_set -> D -> Z * D).

(** What the mode setting call is asked for. *)
Definition primary_set (connectors : list drm_connector) (crtc fb : Z) (cc : crtc_config) (src_x src_y : Z) : drm_mode_set :=
  {| set_crtc_ptr := crtc; set_fb := Some fb; set_mode := Some (cc_mode cc);
     set_x := Z.shiftr src_x 16; set_y := Z.shiftr src_y 16; set_connectors := crtc_connectors connectors crtc |}.

Definition primary_accepts (cc : crtc_config) (crtc_x crtc_y crtc_w crtc_h src_w src_h : Z) : bool :=
  cc_enabled cc && covers (hdisplay (t (cc_mode cc))) crtc_x crtc_w src_w
                && covers (vdisplay (t (cc_mode cc))) crtc_y crtc_h src_h.

Lemma check_update_accepts cc crtc_x crtc_y crtc_w crtc_h src_x src_y src_w src_h :
  side_ok crtc_x crtc_w src_x src_w -> side_ok crtc_y crtc_h src_y src_h ->
  0 <= hdisplay (t (cc_mode cc)) < 2 ^ 31 -> 0 <= vdisplay (t (cc_mode cc)) < 2 ^ 31 ->
  let '(ret, _, _, visible) :=
    drm_plane_helper_check_update (cc_enabled cc) true
      (mk_rect (s32 src_x) (s32 src_y) (s32 (src_x + src_w)) (s32 (src_y + src_h)))
      (mk_rect crtc_x crtc_y (s32 (crtc_x + crtc_w)) (s32 (crtc_y + crtc_h)))
      (mk_rect 0 0 (hdisplay (t (cc_mode cc))) (vdisplay (t (cc_mode cc))))
      DRM_PLANE_HELPER_NO_SCALING DRM_PLANE_HELPER_NO_SCALING false false in
  ret <= 0 /\
  (ret =? 0) && default false visible = primary_accepts cc crtc_x crtc_y crtc_w crtc_h src_w src_h.
Proof.
  intros Hs1 Hs2 Hhd Hvd. unfold drm_plane_helper_check_update, primary_accepts.
  destruct (cc_enabled cc); cbn [negb andb]; [|done].
  rewrite hscale_exact, vscale_exact by done.
  pose proof Hs1 as (Hx & Hw & Hxw & _ & Hsw). pose proof Hs2 as (Hy & Hh & Hyh & _ & Hsh).
  pose proof (dest_covers (hdisplay (t (cc_mode cc))) (vdisplay (t (cc_mode cc))) crtc_x crtc_y crtc_w crtc_h
    Hhd Hvd Hx Hy (proj1 Hw) (proj1 Hh) Hxw Hyh) as Hcov. cbv zeta in Hcov.
  set (clip := mk_rect 0 0 _ _) in *. set (dest := mk_rect crtc_x _ _ _) in *. set (src := mk_rect (s32 src_x) _ _ _) in *.
  set (hscale := side_scale src_w crtc_w). set (vscale := side_scale src_h crtc_h).
  pose proof (clip_scaled_dst src dest clip hscale vscale) as Hclip.
  destruct (drm_rect_clip_scaled src dest clip hscale vscale) as [[visible src'] dest'] eqn:Ec.
  destruct (drm_rect_intersect dest clip) as [v d]. injection Hclip as -> ->.
  subst hscale vscale. rewrite !side_scale_neg. unfold covers.
  pose proof (empty_side (hdisplay (t (cc_mode cc))) crtc_x crtc_w) as He1.
  pose proof (empty_side (vdisplay (t (cc_mode cc))) crtc_y crtc_h) as He2.
  set (p1 := (0 <? hdisplay _) && _ && _) in *. set (p2 := (0 <? vdisplay _) && _ && _) in *.
  destruct (src_w <? 2 ^ 31), (src_h <? 2 ^ 31), (crtc_w =? 0), (crtc_h =? 0), (src_w / crtc_w =? 2 ^ 16),
    (src_h / crtc_h =? 2 ^ 16), v, (drm_rect_equals d clip), p1, p2; cbn in *;
    first [done | by specialize (He1 eq_refl) | by specialize (He2 eq_refl)].
Qed.

(** [src_inside] compares with the size of the framebuffer in 16.16 fixed point, which
    wraps for a framebuffer of 2^16 pixels or more: the source is inside in any case. *)
Lemma src_inside_bounds width height src_x src_y src_w src_h :
  0 <= width -> 0 <= height -> is_u32 src_x -> is_u32 src_y -> is_u32 src_w -> is_u32 src_h ->
  src_inside width height src_x src_y src_w src_h = true ->
  src_x + src_w <= width * 2 ^ 16 /\ src_y + src_h <= height * 2 ^ 16.
Proof.
  intros Hw Hh Hx Hy Hsw Hsh. unfold src_inside. rewrite negb_true_iff, !orb_false_iff, !Z.ltb_ge.
  rewrite !Z.shiftl_mul_pow2 by lia.
  assert (forall a, 0 <= a -> 0 <= u32 a <= a) as Hu by (intros; unfold u32, wrap; pose proof (Z.mod_le a (2 ^ 32)); pose proof (Z.mod_pos_bound a (2 ^ 32)); lia).
  pose proof (Hu (width * 2 ^ 16) ltac:(lia)). pose proof (Hu (height * 2 ^ 16) ltac:(lia)).
  intros [[[? ?] ?] ?]. unfold is_u32 in *.
  pose proof (Hu (u32 (width * 2 ^ 16) - src_w) ltac:(lia)). pose proof (Hu (u32 (height * 2 ^ 16) - src_h) ltac:(lia)). lia.
Qed.

(** One side of what is scanned out. *)
Lemma covers_inside size crtc_x crtc_w src_x src_w width :
  covers size crtc_x crtc_w src_w = true -> 0 <= crtc_w -> 0 <= src_x -> src_x + src_w <= width * 2 ^ 16 ->
  0 <= Z.shiftr src_x 16 /\ Z.shiftr src_x 16 + size <= width.
Proof.
  intros Hc Hw Hx Hs. unfold covers in Hc. b2p. rewrite Z.shiftr_div_pow2 by lia.
  assert (crtc_w <> 0) by (intros ->; lia).
  assert (crtc_w * 2 ^ 16 <= src_w) by (pose proof (Z.mul_div_le src_w crtc_w); lia).
  pose proof (Z.div_mod src_x (2 ^ 16)). pose proof (Z.mod_pos_bound src_x (2 ^ 16)). nia.
Qed.

(** C24: A request to show a framebuffer on a primary plane reaches the mode setting call
    exactly when the CRTC is on, the request is not scaled and its destination covers
    the screen; the call then gets the CRTC's mode and connectors, and the area that it
    scans out lies in the framebuffer.  Any other request is refused or left to
    [disable_plane]. *)
Theorem primary_update_exact connectors crtc cc fb (layout : fb_layout)
    crtc_x crtc_y crtc_w crtc_h src_x src_y src_w src_h d :
  is_s32 crtc_x -> is_s32 crtc_y -> is_u32 crtc_w -> is_u32 crtc_h ->
  is_u32 src_x -> is_u32 src_y -> is_u32 src_w -> is_u32 src_h -> 0 <= fb_width layout -> 0 <= fb_height layout ->
  0 <= hdisplay (t (cc_mode cc)) < 2 ^ 31 -> 0 <= vdisplay (t (cc_mode cc)) < 2 ^ 31 ->
  Z.of_nat (length connectors) < 2 ^ 31 -> crtc_connectors connectors crtc <> [] ->
  crtc_coords_ok crtc_x crtc_y crtc_w crtc_h = true ->
  src_inside (fb_width layout) (fb_height layout) src_x src_y src_w src_h = true ->
  let set := primary_set connectors crtc fb cc src_x src_y in
  let update := drm_primary_helper_update disable_plane set_config true connectors crtc cc fb
                  crtc_x crtc_y crtc_w crtc_h src_x src_y src_w src_h d in
  if primary_accepts cc crtc_x crtc_y crtc_w crtc_h src_w src_h then
    update = Ok (set_config set d) /\
    0 <= set_x set /\ set_x set + hdisplay (t (cc_mode cc)) <= fb_width layout /\
    0 <= set_y set /\ set_y set + vdisplay (t (cc_mode cc)) <= fb_height layout
  else update = Ok (disable_plane d) \/ exists err, err < 0 /\ update = Ok (err, d).
Proof.
  intros Hx Hy Hw Hh Hsx Hsy Hsw Hsh Hfw Hfh Hhd Hvd Hlen Hcon Hco Hin set update.
  apply coords_ok_side in Hco as ((Hw2 & Hxw) & Hh2 & Hyh); [|done|done].
  apply src_inside_bounds in Hin as [Hin1 Hin2]; try done. unfold is_u32 in *.
  pose proof (check_update_accepts cc crtc_x crtc_y crtc_w crtc_h src_x src_y src_w src_h
    ltac:(repeat split; unfold is_s32 in *; lia) ltac:(repeat split; unfold is_s32 in *; lia) Hhd Hvd) as Hcheck.
  unfold update, drm_primary_helper_update. cbv zeta. unfold truth.
  destruct (drm_plane_helper_check_update _ _ _ _ _ _ _ _ _) as [[[ret src'] dest'] visible].
  destruct Hcheck as [Hret Hacc]. rewrite <- Hacc. destruct (Z.eqb_spec ret 0) as [->|Hne]; cbn [negb andb].
  2: { right. exists ret. split; [lia|done]. }
  destruct (default false visible) eqn:Ev; cbn [negb]; [|by left].
  unfold get_connectors_for_crtc. rewrite connectors_loop_spec by done. cbn [negb].
  rewrite Z.add_0_l, connectors_loop_spec by (done || lia).
  destruct (crtc_connectors connectors crtc) as [|c l] eqn:El; [done|]. unfold BUG_ON.
  rewrite (proj2 (Z.eqb_neq _ 0)) by (cbn [length]; lia). cbn in Hacc. symmetry in Hacc. unfold primary_accepts in Hacc.
  apply andb_prop in Hacc as [[_ Hc1]%andb_prop Hc2]. split; [unfold set, primary_set; by rewrite El|].
  destruct (covers_inside _ _ _ _ _ _ Hc1 (proj1 Hw) (proj1 Hsx) Hin1).
  destruct (covers_inside _ _ _ _ _ _ Hc2 (proj1 Hh) (proj1 Hsy) Hin2). done.
Qed.

End primary.

(** The check of a viewport: of a mode that is not stereo, exactly that the displayed
    area lies in the framebuffer. *)
Lemma viewport_exact cc x y mode fb :
  drm_mode_is_stereo mode = false -> 0 <= x < 2 ^ 31 -> 0 <= y < 2 ^ 31 ->
  is_u32 (fb_width fb) -> is_u32 (fb_height fb) ->
  0 <= hdisplay (t mode) < 2 ^ 31 -> 0 <= vdisplay (t mode) < 2 ^ 31 ->
  let w := if cc_invert_dimensions cc then vdisplay (t mode) else hdisplay (t mode) in
  let h := if cc_invert_dimensions cc then hdisplay (t mode) else vdisplay (t mode) in
  drm_crtc_check_viewport cc x y mode fb = 0 <-> x + w <= fb_width fb /\ y + h <= fb_height fb.
Proof.
  intros Hs Hx Hy Hw Hh Hhd Hvd w h. unfold drm_crtc_check_viewport. rewrite Hs.
  replace (if cc_invert_dimensions cc then _ else _) with (w, h) by (unfold w, h; by destruct (cc_invert_dimensions cc)).
  assert (0 <= w < 2 ^ 31 /\ 0 <= h < 2 ^ 31) as [Hw' Hh'] by (unfold w, h; destruct (cc_invert_dimensions cc); lia).
  clearbody w h. unfold is_u32 in *. rewrite (u32_small w), (u32_small h), (u32_small x), (u32_small y) by (unfold is_u32; lia).
  destruct (Z.ltb_spec (fb_width fb) w); cbn [orb]; [split; [done|lia]|].
  destruct (Z.ltb_spec (fb_height fb) h); cbn [orb]; [split; [done|lia]|].
  rewrite !u32_small by (unfold is_u32; lia).
  destruct (Z.ltb_spec (fb_width fb - w) x), (Z.ltb_spec (fb_height fb - h) y); cbn [orb]; split; (done || lia).
Qed.

End plane_props.

(** ** Samples *)
Module PlaneSample.
Export DrmRectProps.Sample.

Definition rect_eqb (r1 r2 : drm_rect) : bool :=
  (x1 r1 =? x1 r2) && (y1 r1 =? y1 r2) && (x2 r1 =? x2 r2) && (y2 r1 =? y2 r2).

#[export] Instance plane_h : drm_plane_h := {|
  drm_rect_equals := rect_eqb; DRM_PLANE_HELPER_NO_SCALING := 2 ^ 16; DRM_MODE_FLAG_3D_MAX := 0;
  drm_mode_is_stereo _ := false |}.

#[export] Instance plane_h_ok : drm_plane_h_ok.
Proof.
  split; [|done]. intros [a b c d] [a' b' c' d']. cbn. unfold rect_eqb. cbn.
  rewrite !andb_true_iff, !Z.eqb_eq. split; [intros [[[-> ->] ->] ->]; done|intros [= -> -> -> ->]; done].
Qed.

Definition vga : drm_display_mode :=
  mk_mode 0 None 0 0 (mk_timings 25200 640 656 752 800 0 480 490 492 525 0) 0 zero_crtc 60 31.
Definition screen : crtc_config := MkCrtcConfig true vga false.
(** Connector 7 is on CRTC 1, connector 8 on CRTC 2, connector 9 has no encoder. *)
Definition outputs : list drm_connector := [MkConnector 7 (Some (Some 1)); MkConnector 8 (Some (Some 2)); MkConnector 9 None].
Definition layout : fb_layout := MkLayout 1280 480 [5120] [0] 24 32 0 0.

(** A driver that keeps a log of the calls. *)
Definition log_set (s : drm_mode_set) (d : list drm_mode_set) : Z * list drm_mode_set := (0, s :: d).
Definition log_disable (d : list drm_mode_set) : Z * list drm_mode_set := (- EINVAL, d).

End PlaneSample.

Import PlaneSample.

(** A destination that begins left of the screen is accepted, but the offset of the
    scanout is that of the source as it was before clipping: column 0 of the framebuffer
    is shown where column 100 belongs. *)
Lemma primary_update_ignores_clip :
  (exists set, drm_primary_helper_update log_disable log_set true outputs 1 screen 5
      (- 100) 0 740 480 0 0 (740 * 2 ^ 16) (480 * 2 ^ 16) [] = Ok (0, [set]) /\ set_x set = 0) /\
  (exists src dest,
    drm_plane_helper_check_update true true (mk_rect 0 0 (740 * 2 ^ 16) (480 * 2 ^ 16)) (mk_rect (- 100) 0 640 480)
      (mk_rect 0 0 640 480) (2 ^ 16) (2 ^ 16) false false = (0, src, dest, Some true) /\ x1 src = 100 * 2 ^ 16).
Proof. split; [eexists|do 2 eexists]; split; reflexivity. Qed.

(** The right half of a framebuffer of 1280 columns. *)
Lemma primary_update_exact_witness :
  primary_accepts screen 0 0 640 480 (640 * 2 ^ 16) (480 * 2 ^ 16) = true /\
  drm_primary_helper_update log_disable log_set true outputs 1 screen 5 0 0 640 480 (640 * 2 ^ 16) 0 (640 * 2 ^ 16) (480 * 2 ^ 16) []
    = Ok (log_set (primary_set outputs 1 5 screen (640 * 2 ^ 16) 0) []).
Proof.
  split; [reflexivity|].
  apply (primary_update_exact log_disable log_set outputs 1 screen 5 layout 0 0 640 480 (640 * 2 ^ 16) 0 (640 * 2 ^ 16) (480 * 2 ^ 16) []);
    unfold is_s32, is_u32; cbn; try lia; try reflexivity; discriminate.
Defined.
