(* ===== verification/DrmFb.v ===== *)
(** * Framebuffers and the planes that show them (drm_crtc.c, drm_fb_helper.c)

    A framebuffer is counted: each file that created it, each plane that shows it and
    each call that works with it holds a reference.  User space names it by an
    identifier, which holds none.  The operations are those of the ioctls: creation and
    removal, planes, CRTCs, cursors, page flips, the release of a file, and the return to
    the kernel's console.

    Modes, CRTCs, planes and framebuffers are at addresses of one heap; an access to a
    freed framebuffer, a [BUG] and the removal of an entry from a list on which it is
    not are [Oops].  The callbacks of a driver are parameters ([mode_env]) and act on a
    state of the hardware [hw]; they may reject a call, and [set_config] tells for each
    CRTC whether it left its primary plane alone, cleared it or set it to the new
    framebuffer, as [drm_crtc_helper_set_config] does.  The device supports mode setting:
    without it every ioctl here returns [-EINVAL] at once.  A count is the kernel's kref: the
    number of references.  When it drops to 0 the framebuffer is [dying]: the release
    that the last put calls runs in steps of its own ([reap]), so that other calls can
    come between. *)

From S2P Require Import Prelude Idr DrmRect DrmModes DrmFormats DrmPlane.

Inductive fb_change := Keep | Clear | Show.

(** The rectangles of [struct drm_mode_set_plane]. *)
Record plane_rects := MkRects {
  q_crtc_x : Z; q_crtc_y : Z; q_crtc_w : Z; q_crtc_h : Z;
  q_src_x : Z; q_src_y : Z; q_src_w : Z; q_src_h : Z;
}.

Class mode_env := {
  mode_hw : Type;
  (** Mode, enable bit and viewport of a CRTC, which its driver sets. *)
  crtc_view : Z -> mode_hw -> crtc_config * Z * Z;
  set_config : drm_mode_set -> mode_hw -> Z * mode_hw * (Z -> fb_change);
  (** A driver may lack it; the last component tells whether it set [crtc->primary->fb]. *)
  page_flip : option (Z -> Z -> Z -> mode_hw -> Z * mode_hw * bool);
  update_plane : Z -> Z -> Z -> plane_rects -> mode_hw -> Z * mode_hw;
  disable_plane : Z -> mode_hw -> Z * mode_hw;
  cursor_set : option (Z -> Z -> mode_hw -> Z * mode_hw);
  cursor_set2 : option (Z -> Z -> mode_hw -> Z * mode_hw);
  cursor_move : option (Z -> Z -> Z -> mode_hw -> Z * mode_hw);
  (** The rotation property of a plane is set to 0 degrees, if the device has it. *)
  reset_rotation : option (Z -> mode_hw -> mode_hw);
  (** The part of a driver's [fb_create] before [drm_framebuffer_init]. *)
  fb_create : Z -> drm_mode_fb_cmd2 -> mode_hw -> Z * mode_hw;
  (** The part of its [destroy] that frees the buffers. *)
  fb_destroy : Z -> mode_hw -> mode_hw;
  fb_dirty : option (Z -> Z -> mode_hw -> Z * mode_hw);
  (** Status and handle. *)
  fb_create_handle : option (Z -> mode_hw -> (Z * Z) * mode_hw);
  DRM_MODE_CURSOR_BO : Z;
  DRM_MODE_CURSOR_MOVE : Z;
  DRM_MODE_CURSOR_FLAGS : Z;
  DRM_MODE_PAGE_FLIP_FLAGS : Z;
  DRM_MODE_PAGE_FLIP_ASYNC : Z;
  DRM_MODE_PAGE_FLIP_EVENT : Z;
  DRM_MODE_FB_DIRTY_FLAGS : Z;
  DRM_MODE_FB_DIRTY_ANNOTATE_COPY : Z;
  DRM_MODE_FB_DIRTY_MAX_CLIPS : Z;
}.

Definition EFAULT : Z := 14.
Definition ENOSYS : Z := 38.

(** ** State *)

Record drm_framebuffer := MkFb { refcount : Z; fb_id : Z; layout : fb_layout }.

Inductive plane_type := DRM_PLANE_TYPE_OVERLAY | DRM_PLANE_TYPE_PRIMARY | DRM_PLANE_TYPE_CURSOR.
#[export] Instance plane_type_dec : EqDecision plane_type.
Proof. solve_decision. Defined.

Record drm_plane := MkPlane {
  p_id : Z; p_type : plane_type; possible_crtcs : Z; format_types : list Z;
  p_crtc : option Z; p_fb : option Z; p_old_fb : option Z;
}.

Record drm_crtc := MkCrtc { c_id : Z; primary : Z; cursor : option Z; cursor_x : Z; cursor_y : Z }.

(** The types of mode objects without state here. *)
Inductive object_type := ObjFb | ObjCrtc | ObjPlane | ObjConnector | ObjMode.
#[export] Instance object_type_dec : EqDecision object_type.
Proof. solve_decision. Defined.

Section fb.
Context `{fourcc_h, drm_rect_h, drm_plane_h, drm_modes_h, idr_ops, mode_env}.

(** [others] are connectors and modes, with their identifiers; [filp_fbs] the framebuffers
    of the files, the newest first; [next] an address above those in use; [dying] the
    framebuffers whose count has dropped to 0 and whose release is under way. *)
Record device := MkDevice {
  fbs : gmap Z drm_framebuffer; planes : gmap Z drm_plane; crtcs : gmap Z drm_crtc; others : gmap Z (object_type * Z);
  crtc_idr : idr; fb_list : list Z; num_fb : Z; plane_list : list Z; crtc_list : list Z;
  filp_fbs : gmap Z (list Z); next : Z; dhw : mode_hw; dying : gset Z;
}.

Definition with_fbs (x : gmap Z drm_framebuffer) (d : device) : device :=
  MkDevice x (planes d) (crtcs d) (others d) (crtc_idr d) (fb_list d) (num_fb d) (plane_list d) (crtc_list d) (filp_fbs d) (next d) (dhw d) (dying d).
Definition with_planes (x : gmap Z drm_plane) (d : device) : device :=
  MkDevice (fbs d) x (crtcs d) (others d) (crtc_idr d) (fb_list d) (num_fb d) (plane_list d) (crtc_list d) (filp_fbs d) (next d) (dhw d) (dying d).
Definition with_crtcs (x : gmap Z drm_crtc) (d : device) : device :=
  MkDevice (fbs d) (planes d) x (others d) (crtc_idr d) (fb_list d) (num_fb d) (plane_list d) (crtc_list d) (filp_fbs d) (next d) (dhw d) (dying d).
Definition with_others (x : gmap Z (object_type * Z)) (d : device) : device :=
  MkDevice (fbs d) (planes d) (crtcs d) x (crtc_idr d) (fb_list d) (num_fb d) (plane_list d) (crtc_list d) (filp_fbs d) (next d) (dhw d) (dying d).
Definition with_idr (x : idr) (d : device) : device :=
  MkDevice (fbs d) (planes d) (crtcs d) (others d) x (fb_list d) (num_fb d) (plane_list d) (crtc_list d) (filp_fbs d) (next d) (dhw d) (dying d).
Definition with_list (x : list Z) (n : Z) (d : device) : device :=
  MkDevice (fbs d) (planes d) (crtcs d) (others d) (crtc_idr d) x n (plane_list d) (crtc_list d) (filp_fbs d) (next d) (dhw d) (dying d).
Definition with_files (x : gmap Z (list Z)) (d : device) : device :=
  MkDevice (fbs d) (planes d) (crtcs d) (others d) (crtc_idr d) (fb_list d) (num_fb d) (plane_list d) (crtc_list d) x (next d) (dhw d) (dying d).
Definition with_next (x : Z) (d : device) : device :=
  MkDevice (fbs d) (planes d) (crtcs d) (others d) (crtc_idr d) (fb_list d) (num_fb d) (plane_list d) (crtc_list d) (filp_fbs d) x (dhw d) (dying d).
Definition with_hw (x : mode_hw) (d : device) : device :=
  MkDevice (fbs d) (planes d) (crtcs d) (others d) (crtc_idr d) (fb_list d) (num_fb d) (plane_list d) (crtc_list d) (filp_fbs d) (next d) x (dying d).
Definition with_dying (x : gset Z) (d : device) : device :=
  MkDevice (fbs d) (planes d) (crtcs d) (others d) (crtc_idr d) (fb_list d) (num_fb d) (plane_list d) (crtc_list d) (filp_fbs d) (next d) (dhw d) x.

Definition with_refcount (x : Z) (fb : drm_framebuffer) : drm_framebuffer := MkFb x (fb_id fb) (layout fb).
Definition with_id (x : Z) (fb : drm_framebuffer) : drm_framebuffer := MkFb (refcount fb) x (layout fb).
Definition with_fb (x : option Z) (p : drm_plane) : drm_plane :=
  MkPlane (p_id p) (p_type p) (possible_crtcs p) (format_types p) (p_crtc p) x (p_old_fb p).
Definition with_old_fb (x : option Z) (p : drm_plane) : drm_plane :=
  MkPlane (p_id p) (p_type p) (possible_crtcs p) (format_types p) (p_crtc p) (p_fb p) x.
Definition with_crtc (x : option Z) (p : drm_plane) : drm_plane :=
  MkPlane (p_id p) (p_type p) (possible_crtcs p) (format_types p) x (p_fb p) (p_old_fb p).
Definition with_cursor (x y : Z) (c : drm_crtc) : drm_crtc := MkCrtc (c_id c) (primary c) (cursor c) x y.

(** ** Effects *)

Definition md (A : Type) : Type := device -> run (A * device).
#[export] Instance md_ret : MRet md := fun _ a d => Done (a, d).
#[export] Instance md_bind : MBind md := fun _ _ k c d =>
  match c d with Done (a, d) => k a d | Oops => Oops | Loops => Loops end.

Definition crash {A} : md A := fun _ => Oops.
Definition reads {A} (f : device -> A) : md A := fun d => Done (f d, d).
Definition modify (f : device -> device) : md unit := fun d => Done (tt, f d).
(** A callback of the driver. *)
Definition call_hw {A} (f : mode_hw -> A * mode_hw) : md A := fun d => let '(a, h) := f (dhw d) in Done (a, with_hw h d).

Definition the_fb (a : Z) : md drm_framebuffer := fun d => match fbs d !! a with Some fb => Done (fb, d) | None => Oops end.
Definition the_plane (p : Z) : md drm_plane := fun d => match planes d !! p with Some x => Done (x, d) | None => Oops end.
Definition the_crtc (c : Z) : md drm_crtc := fun d => match crtcs d !! c with Some x => Done (x, d) | None => Oops end.
Definition set_the_fb (a : Z) (fb : drm_framebuffer) : md unit := modify (fun d => with_fbs (<[a := fb]> (fbs d)) d).
Definition on_plane (p : Z) (f : drm_plane -> drm_plane) : md unit :=
  x ← the_plane p; modify (fun d => with_planes (<[p := f x]> (planes d)) d).

Fixpoint each (f : Z -> md unit) (l : list Z) : md unit :=
  match l with [] => mret tt | x :: l => _ ← f x; each f l end.

(** ** Identifiers *)

(** Type and identifier of the object at an address. *)
Definition object_at (p : Z) : md (object_type * Z) := fun d =>
  match fbs d !! p, crtcs d !! p, planes d !! p, others d !! p with
  | Some fb, _, _, _ => Done ((ObjFb, fb_id fb), d)
  | _, Some c, _, _ => Done ((ObjCrtc, c_id c), d)
  | _, _, Some x, _ => Done ((ObjPlane, p_id x), d)
  | _, _, _, Some o => Done (o, d)
  | _, _, _, _ => Oops
  end.

(** [drm_mode_object_get] for the object at address [p]: the status and the
    identifier. *)
Definition drm_mode_object_get (mem : bool) (p : Z) : md (Z * Z) := fun d =>
  let '(ret, m) := idr_alloc mem p 1 (crtc_idr d) in
  let d := with_idr m d in
  if 0 <=? ret then Done ((0, ret), d) else Done ((ret, 0), d).

Definition drm_mode_object_put (id : Z) : md unit := modify (fun d => with_idr (idr_remove id (crtc_idr d)) d).

Definition drm_mode_object_find (id : Z) (type : object_type) : md (option Z) :=
  obj ← reads (fun d => idr_find (crtc_idr d) id);
  match obj with
  | None => mret None
  | Some p =>
      '(ty, i) ← object_at p;
      if bool_decide (ty = type) && (i =? id) && negb (bool_decide (ty = ObjFb)) then mret (Some p) else mret None
  end.

Definition __drm_framebuffer_lookup (id : Z) : md (option Z) :=
  obj ← reads (fun d => idr_find (crtc_idr d) id);
  match obj with
  | None => mret None
  | Some p =>
      '(ty, i) ← object_at p;
      if negb (bool_decide (ty = ObjFb)) || negb (i =? id) then mret None else mret (Some p)
  end.

(** ** Framebuffers *)

(** The new structure at address [a]; [mem] for the identifier.  The status of
    [drm_mode_object_get] is dropped. *)
Definition drm_framebuffer_init (mem : bool) (a : Z) (l : fb_layout) : md Z :=
  _ ← set_the_fb a (MkFb 1 0 l);
  '(ret, id) ← drm_mode_object_get mem a;
  _ ← (if truth ret then mret tt else
         _ ← set_the_fb a (MkFb 1 id l);
         modify (fun d => with_list (a :: fb_list d) (num_fb d + 1) d));
  mret 0.

Definition __drm_framebuffer_unregister (a : Z) : md unit :=
  fb ← the_fb a;
  _ ← drm_mode_object_put (fb_id fb);
  set_the_fb a (with_id 0 fb).

(** Called from the driver's [destroy]. *)
Definition drm_framebuffer_cleanup (a : Z) : md unit :=
  l ← reads fb_list;
  if bool_decide (a ∈ l) then modify (fun d => with_list (list_del a (fb_list d)) (num_fb d - 1) d) else crash.

(** The release: the section under the lock of the identifiers, and the driver's
    [destroy], which frees the structure. *)
Definition free_unregister (a : Z) : md unit :=
  fb ← the_fb a;
  if truth (fb_id fb) then __drm_framebuffer_unregister a else mret tt.

Definition free_destroy (a : Z) : md unit :=
  _ ← call_hw (fun h => (tt, fb_destroy a h));
  _ ← drm_framebuffer_cleanup a;
  modify (fun d => with_dying (dying d ∖ {[a]}) (with_fbs (delete a (fbs d)) d)).

Definition drm_framebuffer_free (a : Z) : md unit :=
  _ ← free_unregister a;
  free_destroy a.

(** The next step of a release that is under way: as long as the framebuffer has an
    identifier, the first section has not run. *)
Definition reap (a : Z) : md unit :=
  fb ← the_fb a;
  if truth (fb_id fb) then free_unregister a else free_destroy a.

Definition drm_framebuffer_reference (a : Z) : md unit :=
  fb ← the_fb a; set_the_fb a (with_refcount (refcount fb + 1) fb).

(** [kref_put]: with the last reference the release is due. *)
Definition drm_framebuffer_unreference (a : Z) : md unit :=
  fb ← the_fb a;
  _ ← set_the_fb a (with_refcount (refcount fb - 1) fb);
  if refcount fb - 1 =? 0 then modify (fun d => with_dying ({[a]} ∪ dying d) d) else mret tt.

(** The count must not drop to 0: [drm_framebuffer_free_bug]. *)
Definition __drm_framebuffer_unreference (a : Z) : md unit :=
  fb ← the_fb a;
  if refcount fb - 1 =? 0 then crash else set_the_fb a (with_refcount (refcount fb - 1) fb).

Definition unreference_opt (a : option Z) : md unit :=
  match a with Some a => drm_framebuffer_unreference a | None => mret tt end.

(** [kref_get_unless_zero] under the lock of the identifiers. *)
Definition drm_framebuffer_lookup (id : Z) : md (option Z) :=
  fb ← __drm_framebuffer_lookup id;
  match fb with
  | None => mret None
  | Some a =>
      fb ← the_fb a;
      if refcount fb =? 0 then mret None
      else _ ← set_the_fb a (with_refcount (refcount fb + 1) fb); mret (Some a)
  end.
(** ** Planes *)

Definition drm_plane_force_disable (p : Z) : md unit :=
  plane ← the_plane p;
  match p_fb plane with
  | None => mret tt
  | Some fb =>
      _ ← on_plane p (with_old_fb (Some fb));
      ret ← call_hw (disable_plane p);
      if truth ret then on_plane p (with_old_fb None)
      else
        _ ← __drm_framebuffer_unreference fb;
        on_plane p (fun x => with_crtc None (with_fb None (with_old_fb None x)))
  end.

(** [drm_crtc_mask]: the bit of the CRTC's place in the list. *)
Fixpoint crtc_index (l : list Z) (crtc : Z) : option nat :=
  match l with
  | [] => None
  | tmp :: l => if tmp =? crtc then Some 0%nat else S <$> crtc_index l crtc
  end.

Definition drm_crtc_mask (crtc : Z) : md Z :=
  l ← reads crtc_list;
  match crtc_index l crtc with Some n => mret (u32 (Z.shiftl 1 (Z.of_nat n))) | None => crash end.

(** The guards of [__setplane_internal] for a framebuffer: 0 or an error. *)
Definition setplane_checks (plane : drm_plane) (mask : Z) (l : fb_layout) (q : plane_rects) : Z :=
  if negb (truth (Z.land (possible_crtcs plane) mask)) then - EINVAL
  else if negb (bool_decide (fb_pixel_format l ∈ format_types plane)) then - EINVAL
  else if negb (src_inside (fb_width l) (fb_height l) (q_src_x q) (q_src_y q) (q_src_w q) (q_src_h q)) then - ENOSPC
  else 0.

(** The end of [__setplane_internal]: [fb] is the caller's reference if the plane did
    not take it. *)
Definition setplane_out (p : Z) (fb : option Z) : md unit :=
  _ ← unreference_opt fb;
  plane ← the_plane p;
  _ ← unreference_opt (p_old_fb plane);
  on_plane p (with_old_fb None).

(** A framebuffer comes with a CRTC. *)
Definition __setplane_internal (p : Z) (crtc fb : option Z) (q : plane_rects) : md Z :=
  plane ← the_plane p;
  match fb with
  | None =>
      _ ← on_plane p (with_old_fb (p_fb plane));
      ret ← call_hw (disable_plane p);
      _ ← (if truth ret then on_plane p (with_old_fb None)
           else on_plane p (fun x => with_fb None (with_crtc None x)));
      _ ← setplane_out p None;
      mret ret
  | Some a =>
      match crtc with
      | None => crash
      | Some c =>
          mask ← drm_crtc_mask c;
          x ← the_fb a;
          let ret := setplane_checks plane mask (layout x) q in
          if truth ret then _ ← setplane_out p (Some a); mret ret
          else
            _ ← on_plane p (with_old_fb (p_fb plane));
            ret ← call_hw (update_plane p c a q);
            if truth ret then
              _ ← on_plane p (with_old_fb None); _ ← setplane_out p (Some a); mret ret
            else
              _ ← on_plane p (fun x => with_fb (Some a) (with_crtc (Some c) x));
              _ ← setplane_out p None; mret 0
      end
  end.

(** [drm_mode_setplane] before [setplane_internal]: the status and the plane, CRTC and
    framebuffer that it found. *)
Definition setplane_find (plane_id fb_id crtc_id : Z) (q : plane_rects) : md (Z * Z * option Z * option Z) :=
  if negb (crtc_coords_ok (q_crtc_x q) (q_crtc_y q) (q_crtc_w q) (q_crtc_h q)) then mret (- ERANGE, 0, None, None) else
  plane ← drm_mode_object_find plane_id ObjPlane;
  match plane with
  | None => mret (- ENOENT, 0, None, None)
  | Some p =>
      if truth fb_id then
        fb ← drm_framebuffer_lookup fb_id;
        match fb with
        | None => mret (- ENOENT, p, None, None)
        | Some a =>
            crtc ← drm_mode_object_find crtc_id ObjCrtc;
            match crtc with
            | None => mret (- ENOENT, p, None, Some a)
            | Some c => mret (0, p, Some c, Some a)
            end
        end
      else mret (0, p, None, None)
  end.

Definition drm_mode_setplane (plane_id fb_id crtc_id : Z) (q : plane_rects) : md Z :=
  '(ret, p, crtc, fb) ← setplane_find plane_id fb_id crtc_id q;
  if truth ret then mret ret else __setplane_internal p crtc fb q.

(** ** CRTCs *)

Definition primary_plane (crtc : Z) : md drm_plane := c ← the_crtc crtc; the_plane (primary c).
Definition on_primary (crtc : Z) (f : drm_plane -> drm_plane) : md unit := c ← the_crtc crtc; on_plane (primary c) f.

(** What [set_config] did to the primary plane of a CRTC. *)
Definition apply_change (set : drm_mode_set) (change : Z -> fb_change) (crtc : Z) : md unit :=
  match change crtc with
  | Keep => mret tt
  | Clear => on_primary crtc (with_fb None)
  | Show => on_primary crtc (with_fb (set_fb set))
  end.

Definition drm_mode_set_config_internal (set : drm_mode_set) : md Z :=
  l ← reads crtc_list;
  _ ← each (fun tmp => on_primary tmp (fun x => with_old_fb (p_fb x) x)) l;
  '(ret, change) ← call_hw (fun h => let '(ret, h, change) := set_config set h in ((ret, change), h));
  _ ← each (apply_change set change) l;
  _ ← (if truth ret then mret tt
       else on_primary (set_crtc_ptr set) (fun x => with_fb (set_fb set) (with_crtc (Some (set_crtc_ptr set)) x)));
  _ ← each (fun tmp =>
        x ← primary_plane tmp;
        _ ← match p_fb x with Some a => drm_framebuffer_reference a | None => mret tt end;
        _ ← unreference_opt (p_old_fb x);
        on_primary tmp (with_old_fb None)) l;
  mret ret.

(** [drm_framebuffer_remove]: the part under the locks of mode setting. *)
Definition remove_locked (a : Z) : md unit :=
  crtcs ← reads crtc_list;
  _ ← each (fun crtc =>
        x ← primary_plane crtc;
        if bool_decide (p_fb x = Some a)
        then _ ← drm_mode_set_config_internal (MkSet crtc None None 0 0 []); mret tt
        else mret tt) crtcs;
  planes ← reads plane_list;
  each (fun p => x ← the_plane p; if bool_decide (p_fb x = Some a) then drm_plane_force_disable p else mret tt) planes.

Definition drm_framebuffer_remove (a : Z) : md unit :=
  fb ← the_fb a;
  _ ← (if 1 <? refcount fb then remove_locked a else mret tt);
  drm_framebuffer_unreference a.

(** The connectors of the request in order; [None] is an address that faults. *)
Fixpoint find_connectors (ids : list (option Z)) : md (Z * list Z) :=
  match ids with
  | [] => mret (0, [])
  | None :: _ => mret (- EFAULT, [])
  | Some id :: ids =>
      connector ← drm_mode_object_find id ObjConnector;
      match connector with
      | None => mret (- ENOENT, [])
      | Some c => '(ret, l) ← find_connectors ids; mret (ret, c :: l)
      end
  end.

(** [struct drm_mode_crtc]; [mode_valid] and the mode in one. *)
Record drm_mode_crtc := MkModeCrtc {
  cr_crtc_id : Z; cr_fb_id : Z; cr_x : Z; cr_y : Z; cr_mode : option drm_mode_modeinfo; cr_connectors : list (option Z);
}.

(** A mode with an identifier of its own, at address [next]. *)
Definition mode_create (mem mem_id : bool) : md (option (Z * Z)) :=
  if negb mem then mret None else
  p ← reads next;
  '(ret, id) ← drm_mode_object_get mem_id p;
  if truth ret then mret None
  else _ ← modify (fun d => with_next (p + 1) (with_others (<[p := (ObjMode, id)]> (others d)) d)); mret (Some (p, id)).

Definition drm_mode_destroy (mode : option (Z * Z)) : md unit :=
  match mode with
  | None => mret tt
  | Some (p, id) => _ ← drm_mode_object_put id; modify (fun d => with_others (delete p (others d)) d)
  end.

(** The framebuffer of the request: -1 is the one the CRTC shows. *)
Definition setcrtc_fb (crtc : Z) (id : Z) : md (Z * option Z) :=
  if id =? UINT_MAX then
    x ← primary_plane crtc;
    match p_fb x with
    | None => mret (- EINVAL, None)
    | Some a => _ ← drm_framebuffer_reference a; mret (0, Some a)
    end
  else
    fb ← drm_framebuffer_lookup id;
    match fb with None => mret (- ENOENT, None) | Some a => mret (0, Some a) end.

(** A valid mode with the object it was made in, or an error. *)
Definition setcrtc_mode (mem mem_id : bool) (crtc a : Z) (r : drm_mode_crtc) (i : drm_mode_modeinfo)
    : md (Z * option (Z * Z) * option drm_display_mode) :=
  mode ← mode_create mem mem_id;
  match mode with
  | None => mret (- ENOMEM, None, None)
  | Some (p, id) =>
      let '(ret, m) := drm_crtc_convert_umode
        (mk_mode id None 0 0 (mk_timings 0 0 0 0 0 0 0 0 0 0 0) 0 zero_crtc 0 0) i in
      if truth ret then mret (ret, mode, None) else
      let m := drm_mode_set_crtcinfo m CRTC_INTERLACE_HALVE_V in
      fb ← the_fb a;
      '(cc, _, _) ← reads (fun d => crtc_view crtc (dhw d));
      mret (drm_crtc_check_viewport cc (cr_x r) (cr_y r) m (layout fb), mode, Some m)
  end.

(** The part with the connectors, for a mode and a framebuffer that are given together. *)
Definition setcrtc_set (mem : bool) (num_connector : Z) (crtc : Z) (r : drm_mode_crtc)
    (mode : option drm_display_mode) (fb : option Z) : md Z :=
  let count := Z.of_nat (length (cr_connectors r)) in
  if (count =? 0) && bool_decide (is_Some mode) then mret (- EINVAL)
  else if (0 <? count) && (negb (bool_decide (is_Some mode)) || negb (bool_decide (is_Some fb))) then mret (- EINVAL)
  else if num_connector <? count then mret (- EINVAL)
  else if (0 <? count) && negb mem then mret (- ENOMEM)
  else
    '(ret, connectors) ← find_connectors (cr_connectors r);
    if truth ret then mret ret
    else drm_mode_set_config_internal (MkSet crtc fb mode (cr_x r) (cr_y r) connectors).

(** [mem], [mem_id], [mem_set]: memory for the mode, its identifier and the array. *)
Definition drm_mode_setcrtc (mem mem_id mem_set : bool) (num_connector : Z) (r : drm_mode_crtc) : md Z :=
  if (INT_MAX <? cr_x r) || (INT_MAX <? cr_y r) then mret (- ERANGE) else
  crtc ← drm_mode_object_find (cr_crtc_id r) ObjCrtc;
  match crtc with
  | None => mret (- ENOENT)
  | Some c =>
      match cr_mode r with
      | None => setcrtc_set mem_set num_connector c r None None
      | Some i =>
          '(ret, fb) ← setcrtc_fb c (cr_fb_id r);
          match fb with
          | None => mret ret
          | Some a =>
              '(ret, obj, mode) ← setcrtc_mode mem mem_id c a r i;
              ret ← (if truth ret then mret ret else setcrtc_set mem_set num_connector c r mode (Some a));
              _ ← drm_framebuffer_unreference a;
              _ ← drm_mode_destroy obj;
              mret ret
          end
      end
  end.

(** ** Creation and removal *)

(** The limits of the device. *)
Record fb_limits := MkLimits { min_width : Z; max_width : Z; min_height : Z; max_height : Z }.

(** A driver's [fb_create]: its own checks, then the structure at a new address with
    [drm_helper_mode_fill_fb_struct] and [drm_framebuffer_init], as in
    [drm_fb_cma_alloc]. *)
Definition create_fb (mem : bool) (file : Z) (r : drm_mode_fb_cmd2) : md (Z + Z) :=
  ret ← call_hw (fb_create file r);
  if truth ret then mret (inl ret) else
  a ← reads next;
  _ ← modify (with_next (a + 1));
  ret ← drm_framebuffer_init mem a (drm_helper_mode_fill_fb_struct r);
  if truth ret then _ ← modify (fun d => with_fbs (delete a (fbs d)) d); mret (inl ret) else mret (inr a).

(** The checks of [add_framebuffer_internal] and the driver's [fb_create]. *)
Definition add_create (limits : fb_limits) (mem : bool) (file : Z) (r : drm_mode_fb_cmd2) : md (Z + Z) :=
  if truth (Z.land (r_flags r) (u32 (Z.lnot DRM_MODE_FB_INTERLACED))) then mret (inl (- EINVAL))
  else if (r_width r <? min_width limits) || (max_width limits <? r_width r) then mret (inl (- EINVAL))
  else if (r_height r <? min_height limits) || (max_height limits <? r_height r) then mret (inl (- EINVAL))
  else let ret := framebuffer_check r in
  if truth ret then mret (inl ret) else create_fb mem file r.

(** Its section under the lock of the file's list: the identifier, and the entry. *)
Definition add_file (file a : Z) : md Z :=
  fb ← the_fb a;
  _ ← modify (fun d => with_files (<[file := a :: default [] (filp_fbs d !! file)]> (filp_fbs d)) d);
  mret (fb_id fb).

(** The error, or the framebuffer with the identifier for user space. *)
Definition add_framebuffer_internal (limits : fb_limits) (mem : bool) (file : Z) (r : drm_mode_fb_cmd2) : md (Z + Z * Z) :=
  fb ← add_create limits mem file r;
  match fb with
  | inl ret => mret (inl ret)
  | inr a => id ← add_file file a; mret (inr (a, id))
  end.

(** Status and identifier. *)
Definition drm_mode_addfb2 (limits : fb_limits) (mem : bool) (file : Z) (r : drm_mode_fb_cmd2) : md (Z * Z) :=
  fb ← add_framebuffer_internal limits mem file r;
  mret match fb with inl ret => (ret, 0) | inr (_, id) => (0, id) end.

(** [struct drm_mode_fb_cmd] *)
Record drm_mode_fb_cmd := MkFbCmd { or_width : Z; or_height : Z; or_pitch : Z; or_bpp : Z; or_depth : Z; or_handle : Z }.

Definition addfb_request (or : drm_mode_fb_cmd) : drm_mode_fb_cmd2 :=
  MkFbCmd2 (or_width or) (or_height or) (drm_mode_legacy_fb_format (or_bpp or) (or_depth or)) 0
    [or_handle or; 0; 0; 0] [or_pitch or; 0; 0; 0] [0; 0; 0; 0].

Definition drm_mode_addfb (limits : fb_limits) (mem : bool) (file : Z) (or : drm_mode_fb_cmd) : md (Z * Z) :=
  drm_mode_addfb2 limits mem file (addfb_request or).

(** Takes the framebuffer from the file's list and its identifier away. *)
Definition rmfb_find (file id : Z) : md (option Z) :=
  fb ← __drm_framebuffer_lookup id;
  match fb with
  | None => mret None
  | Some a =>
      l ← reads (fun d => default [] (filp_fbs d !! file));
      if negb (bool_decide (a ∈ l)) then mret None
      else
        _ ← __drm_framebuffer_unregister a;
        _ ← modify (fun d => with_files (<[file := list_del a l]> (filp_fbs d)) d);
        mret (Some a)
  end.

Definition drm_mode_rmfb (file id : Z) : md Z :=
  fb ← rmfb_find file id;
  match fb with None => mret (- ENOENT) | Some a => _ ← drm_framebuffer_remove a; mret 0 end.

(** One round of [drm_fb_release] before [drm_framebuffer_remove]. *)
Definition release_find (file : Z) : md (option Z) :=
  l ← reads (fun d => default [] (filp_fbs d !! file));
  match l with
  | [] => mret None
  | a :: _ =>
      _ ← __drm_framebuffer_unregister a;
      _ ← modify (fun d => with_files (<[file := list_del a l]> (filp_fbs d)) d);
      mret (Some a)
  end.

Fixpoint release_loop (rounds : nat) (file : Z) : md unit :=
  match rounds with
  | O => mret tt
  | S rounds =>
      fb ← release_find file;
      match fb with None => mret tt | Some a => _ ← drm_framebuffer_remove a; release_loop rounds file end
  end.

(** As many rounds as the list is long. *)
Definition drm_fb_release (file : Z) : md unit :=
  l ← reads (fun d => default [] (filp_fbs d !! file));
  release_loop (length l) file.

(** ** Other users of a framebuffer *)

(** [privileged] tells whether the caller may have the buffer's handle; status, handle
    and the framebuffer's fields. *)
Definition getfb_answer (privileged : bool) (a : Z) : md (Z * Z * fb_layout) :=
  fb ← the_fb a;
  match fb_create_handle with
  | None => mret (- ENODEV, 0, layout fb)
  | Some create => if privileged then '(ret, h) ← call_hw (create a); mret (ret, h, layout fb) else mret (0, 0, layout fb)
  end.

Definition drm_mode_getfb (privileged : bool) (id : Z) : md (Z * option (Z * fb_layout)) :=
  fb ← drm_framebuffer_lookup id;
  match fb with
  | None => mret (- ENOENT, None)
  | Some a =>
      '(ret, handle, l) ← getfb_answer privileged a;
      _ ← drm_framebuffer_unreference a;
      mret (ret, Some (handle, l))
  end.

(** The checks of the clips and the driver's callback: [num_clips] is an [int],
    [clips] whether their address is not null and [readable] whether they can be read. *)
Definition dirtyfb_answer (mem readable clips : bool) (a flags num_clips : Z) : md Z :=
  if negb (Bool.eqb (truth num_clips) clips) then mret (- EINVAL) else
  let flags := Z.land DRM_MODE_FB_DIRTY_FLAGS flags in
  if truth (Z.land flags DRM_MODE_FB_DIRTY_ANNOTATE_COPY) && truth (Z.rem num_clips 2) then mret (- EINVAL) else
  let ret :=
    if truth num_clips && clips then
      if (num_clips <? 0) || (DRM_MODE_FB_DIRTY_MAX_CLIPS <? num_clips) then - EINVAL
      else if negb mem then - ENOMEM
      else if negb readable then - EFAULT
      else 0
    else 0 in
  if truth ret then mret ret else
  match fb_dirty with
  | Some dirty => call_hw (dirty a flags)
  | None => mret (- ENOSYS)
  end.

Definition drm_mode_dirtyfb_ioctl (mem readable clips : bool) (id flags num_clips : Z) : md Z :=
  fb ← drm_framebuffer_lookup id;
  match fb with
  | None => mret (- ENOENT)
  | Some a =>
      ret ← dirtyfb_answer mem readable clips a flags num_clips;
      _ ← drm_framebuffer_unreference a;
      mret ret
  end.

(** [event] is the status of the part that reserves the event ([DrmIrq.flip_event]). *)
Definition drm_mode_page_flip_ioctl (async : bool) (event : Z) (crtc_id fb_id flags reserved : Z) : md Z :=
  if truth (Z.land flags (u32 (Z.lnot DRM_MODE_PAGE_FLIP_FLAGS))) || truth reserved then mret (- EINVAL)
  else if truth (Z.land flags DRM_MODE_PAGE_FLIP_ASYNC) && negb async then mret (- EINVAL) else
  crtc ← drm_mode_object_find crtc_id ObjCrtc;
  match crtc with
  | None => mret (- ENOENT)
  | Some c =>
      x ← primary_plane c;
      match p_fb x, page_flip with
      | None, _ => mret (- EBUSY)
      | Some _, None => mret (- EINVAL)
      | Some old, Some flip =>
          fb ← drm_framebuffer_lookup fb_id;
          match fb with
          | None => mret (- ENOENT)
          | Some a =>
              fb ← the_fb a;
              '(cc, vx, vy) ← reads (fun d => crtc_view c (dhw d));
              let ret := drm_crtc_check_viewport cc vx vy (cc_mode cc) (layout fb) in
              if truth ret then _ ← drm_framebuffer_unreference a; mret ret else
              old_fb ← the_fb old;
              if negb (fb_pixel_format (layout old_fb) =? fb_pixel_format (layout fb))
              then _ ← drm_framebuffer_unreference a; mret (- EINVAL)
              else if truth (Z.land flags DRM_MODE_PAGE_FLIP_EVENT) && truth event
              then _ ← drm_framebuffer_unreference a; mret event
              else
                _ ← on_primary c (with_old_fb (Some old));
                '(ret, changed) ← call_hw (fun h => let '(ret, h, changed) := flip c a flags h in ((ret, changed), h));
                _ ← (if changed : bool then on_primary c (with_fb (Some a)) else mret tt);
                _ ← (if truth ret then
                       _ ← on_primary c (with_old_fb None); drm_framebuffer_unreference a
                     else mret tt);
                x ← primary_plane c;
                _ ← unreference_opt (p_old_fb x);
                _ ← on_primary c (with_old_fb None);
                mret ret
          end
      end
  end.

(** ** Cursors *)

(** [struct drm_mode_cursor2] *)
Record drm_mode_cursor2 := MkCursor {
  cu_flags : Z; cu_crtc_id : Z; cu_x : Z; cu_y : Z; cu_width : Z; cu_height : Z; cu_handle : Z;
}.

(** [fbreq] of [drm_mode_cursor_universal]. *)
Definition cursor_request (req : drm_mode_cursor2) : drm_mode_fb_cmd2 :=
  MkFbCmd2 (cu_width req) (cu_height req) (DRM_FORMAT ARGB8888) 0
    [cu_handle req; 0; 0; 0] [u32 (cu_width req * 4); 0; 0; 0] [0; 0; 0; 0].

(** The request brings a buffer that needs a framebuffer. *)
Definition cursor_new (req : drm_mode_cursor2) : bool :=
  truth (Z.land (cu_flags req) DRM_MODE_CURSOR_BO) && truth (cu_handle req).

(** The framebuffer of a request that brings no buffer: none, or the one shown. *)
Definition cursor_old (p : Z) (req : drm_mode_cursor2) : md (option Z) :=
  if truth (Z.land (cu_flags req) DRM_MODE_CURSOR_BO) then mret None
  else
    x ← the_plane p;
    _ ← match p_fb x with Some a => drm_framebuffer_reference a | None => mret tt end;
    mret (p_fb x).

(** The rest, with the reference of the framebuffer. *)
Definition cursor_update (crtc p : Z) (fb : option Z) (req : drm_mode_cursor2) : md Z :=
  c ← the_crtc crtc;
  let '(crtc_x, crtc_y) :=
    if truth (Z.land (cu_flags req) DRM_MODE_CURSOR_MOVE) then (cu_x req, cu_y req) else (cursor_x c, cursor_y c) in
  '(w, h) ← match fb with
            | Some a => x ← the_fb a; mret (fb_width (layout x), fb_height (layout x))
            | None => mret (0, 0)
            end;
  ret ← __setplane_internal p (Some crtc) fb
          (MkRects crtc_x crtc_y w h 0 0 (u32 (Z.shiftl w 16)) (u32 (Z.shiftl h 16)));
  _ ← (if (ret =? 0) && truth (Z.land (cu_flags req) DRM_MODE_CURSOR_MOVE)
       then c ← the_crtc crtc; modify (fun d => with_crtcs (<[crtc := with_cursor (cu_x req) (cu_y req) c]> (crtcs d)) d)
       else mret tt);
  mret ret.

(** Between the section that puts a new framebuffer on the file's list and the
    reference the framebuffer belongs to the file alone. *)
Definition drm_mode_cursor_universal (limits : fb_limits) (mem : bool) (file crtc p : Z) (req : drm_mode_cursor2) : md Z :=
  if cursor_new req then
    fb ← add_framebuffer_internal limits mem file (cursor_request req);
    match fb with
    | inl ret => mret ret
    | inr (a, _) => _ ← drm_framebuffer_reference a; cursor_update crtc p (Some a) req
    end
  else fb ← cursor_old p req; cursor_update crtc p fb req.

(** A CRTC without a cursor plane. *)
Definition cursor_legacy (k : Z) (req : drm_mode_cursor2) : md Z :=
  '(go, ret) ←
    (if truth (Z.land (cu_flags req) DRM_MODE_CURSOR_BO) then
       match cursor_set2, cursor_set with
       | None, None => mret (false, - ENXIO)
       | Some set, _ | None, Some set => ret ← call_hw (set k (cu_handle req)); mret (true, ret)
       end
     else mret (true, 0));
  if go && truth (Z.land (cu_flags req) DRM_MODE_CURSOR_MOVE) then
    match cursor_move with
    | Some move => call_hw (move k (cu_x req) (cu_y req))
    | None => mret (- EFAULT)
    end
  else mret ret.

(** The checks and the CRTC with its cursor plane, or an error. *)
Definition cursor_find (req : drm_mode_cursor2) : md (Z + Z * option Z) :=
  if negb (truth (cu_flags req)) || truth (Z.land (u32 (Z.lnot DRM_MODE_CURSOR_FLAGS)) (cu_flags req)) then mret (inl (- EINVAL)) else
  crtc ← drm_mode_object_find (cu_crtc_id req) ObjCrtc;
  match crtc with
  | None => mret (inl (- ENOENT))
  | Some k => c ← the_crtc k; mret (inr (k, cursor c))
  end.

Definition drm_mode_cursor_common (limits : fb_limits) (mem : bool) (file : Z) (req : drm_mode_cursor2) : md Z :=
  crtc ← cursor_find req;
  match crtc with
  | inl ret => mret ret
  | inr (k, Some p) => drm_mode_cursor_universal limits mem file k p req
  | inr (k, None) => cursor_legacy k req
  end.

(** ** The console of the kernel *)

Fixpoint restore_crtcs (sets : list drm_mode_set) : md bool :=
  match sets with
  | [] => mret false
  | set :: sets =>
      ret1 ← match cursor_set with Some f => call_hw (f (set_crtc_ptr set) 0) | None => mret 0 end;
      ret2 ← drm_mode_set_config_internal set;
      error ← restore_crtcs sets;
      mret (truth ret1 || truth ret2 || error)
  end.

(** One plane: it is switched off unless it is a primary one. *)
Definition restore_plane (p : Z) : md unit :=
  x ← the_plane p;
  _ ← (if bool_decide (p_type x = DRM_PLANE_TYPE_PRIMARY) then mret tt else drm_plane_force_disable p);
  match reset_rotation with Some f => call_hw (fun h => (tt, f p h)) | None => mret tt end.

(** [sets] are the configurations of the console. *)
Definition restore_fbdev_mode (sets : list drm_mode_set) : md bool :=
  planes ← reads plane_list;
  _ ← each restore_plane planes;
  restore_crtcs sets.

End fb.
