(* ===== verification/DrmFbInv.v ===== *)
(** * The invariant of framebuffers

    Who holds a reference to a framebuffer: the planes, given by a map [H] from planes to
    what they hold (during an update this is not yet what they show), the lists of the
    files, and a list [e] of references in the hands of calls.  [Books H e d] says that
    the counts are exact and that identifiers and lists are in order; rules for [wp] say
    what each operation does to it.  A run that ends in [Oops] or does not end satisfies
    no postcondition. *)

From S2P Require Import Prelude Counting Idr DrmRect DrmModes DrmFormats DrmPlane DrmFb.

Section fb_inv.
Context {FO : fourcc_h} {RH : drm_rect_h} {PH : drm_plane_h} {MH : drm_modes_h} {IO : idr_ops} {IL : idr_laws} {ME : mode_env}.
Implicit Types (d : device) (H : gmap Z (option Z)) (e : list Z) (a p : Z).

(** ** Runs *)

Definition wp {A} (c : md A) (Q : A -> device -> Prop) (d : device) : Prop :=
  match c d with Done (r, d') => Q r d' | _ => False end.

Lemma fwp_bind {A B} (c : md A) (k : A -> md B) Q d :
  wp c (fun r d' => wp (k r) Q d') d -> wp (mbind k c) Q d.
Proof. unfold wp, mbind, md_bind. by destruct (c d) as [[r d']| |]. Qed.

Lemma fwp_mono {A} (c : md A) (P Q : A -> device -> Prop) d :
  wp c P d -> (forall r d', P r d' -> Q r d') -> wp c Q d.
Proof. unfold wp. destruct (c d) as [[r d']| |]; auto. Qed.

Lemma fwp_ret {A} (r : A) (Q : A -> device -> Prop) d : Q r d -> wp (mret r) Q d.
Proof. done. Qed.

Lemma wp_hw {A} (f : mode_hw -> A * mode_hw) Q d : (forall r h, Q r (with_hw h d)) -> wp (call_hw f) Q d.
Proof. intros HQ. unfold wp, call_hw. by destruct (f (dhw d)). Qed.

Lemma wp_plane p x Q d : planes d !! p = Some x -> Q x d -> wp (the_plane p) Q d.
Proof. intros E. unfold wp, the_plane. by rewrite E. Qed.

Lemma wp_on_plane p f x Q d :
  planes d !! p = Some x -> Q tt (with_planes (<[p := f x]> (planes d)) d) -> wp (on_plane p f) Q d.
Proof. intros E HQ. apply fwp_bind, (wp_plane p x); [done|]. exact HQ. Qed.

Lemma wp_crtc c k Q d : crtcs d !! c = Some k -> Q k d -> wp (the_crtc c) Q d.
Proof. intros E. unfold wp, the_crtc. by rewrite E. Qed.

Lemma wp_fb a fb Q d : fbs d !! a = Some fb -> Q fb d -> wp (the_fb a) Q d.
Proof. intros E. unfold wp, the_fb. by rewrite E. Qed.

(** A loop over a list keeps an invariant indexed by what is left. *)
Lemma wp_each (f : Z -> md unit) (J : list Z -> device -> Prop) l d :
  J l d -> (forall x l d, J (x :: l) d -> wp (f x) (fun _ d' => J l d') d) -> wp (each f l) (fun _ d' => J [] d') d.
Proof.
  intros HJ Hf. revert d HJ. induction l as [|x l IH]; intros d HJ; [done|]. cbn [each].
  apply fwp_bind. eapply fwp_mono; [by apply Hf|]. intros [] d' HJ'. by apply IH.
Qed.

(** ** The books *)

Definition shows (a : Z) (o : option Z) : bool := match o with Some b => a =? b | None => false end.

Definition refs H e (files : gmap Z (list Z)) a : Z := count (shows a) H + msum (occ a) files + occ a e.

Record Static (d : device) : Prop := {
  st_crtc c k : crtcs d !! c = Some k -> c ∈ crtc_list d /\ is_Some (planes d !! primary k) /\
    (forall p, cursor k = Some p -> is_Some (planes d !! p));
  st_list c : c ∈ crtc_list d -> is_Some (crtcs d !! c);
  st_nodup : NoDup (crtc_list d);
  st_primary c1 c2 k1 k2 : crtcs d !! c1 = Some k1 -> crtcs d !! c2 = Some k2 -> primary k1 = primary k2 -> c1 = c2;
  st_planes p : p ∈ plane_list d <-> is_Some (planes d !! p);
}.

(** Identifier of the object at an address. *)
Definition obj_id (d : device) (p : Z) : option Z :=
  match fbs d !! p, crtcs d !! p, planes d !! p, others d !! p with
  | Some fb, _, _, _ => Some (fb_id fb)
  | _, Some c, _, _ => Some (c_id c)
  | _, _, Some x, _ => Some (p_id x)
  | _, _, _, Some (_, i) => Some i
  | _, _, _, _ => None
  end.

Record Ids (d : device) : Prop := {
  id_pos k p : idr_find (crtc_idr d) k = Some p -> 1 <= k;
  id_obj k p : idr_find (crtc_idr d) k = Some p -> obj_id d p = Some k;
  id_fb a fb : fbs d !! a = Some fb -> fb_id fb <> 0 -> idr_find (crtc_idr d) (fb_id fb) = Some a;
  id_next p : next d <= p -> fbs d !! p = None /\ crtcs d !! p = None /\ planes d !! p = None /\ others d !! p = None;
  id_others p ty i : others d !! p = Some (ty, i) -> ty = ObjConnector \/ ty = ObjMode;
  id_mode p i : others d !! p = Some (ObjMode, i) -> idr_find (crtc_idr d) i = Some p;
  id_disj a fb : fbs d !! a = Some fb -> others d !! a = None;
}.

Record Listed (d : device) : Prop := {
  li_nodup : NoDup (fb_list d);
  li_fbs a : a ∈ fb_list d <-> is_Some (fbs d !! a);
  li_num : num_fb d = Z.of_nat (length (fb_list d));
  li_files f l : filp_fbs d !! f = Some l -> NoDup l;
}.

(** A count is 0 while the release is under way. *)
Definition exact_at (n : Z) (dead : gset Z) (a : Z) (o : option drm_framebuffer) : Prop :=
  match o with
  | Some fb => refcount fb = n /\ (n = 0 <-> a ∈ dead)
  | None => n = 0 /\ a ∉ dead
  end.

Definition Exact H e (d : device) : Prop :=
  forall a, exact_at (refs H e (filp_fbs d) a) (dying d) a (fbs d !! a).

Record Books H e (d : device) : Prop := {
  bk_static : Static d;
  bk_ids : Ids d;
  bk_listed : Listed d;
  bk_exact : Exact H e d;
}.

(** ** Counting *)

Lemma fb_refs_nonneg H e files a : 0 <= refs H e files a.
Proof.
  unfold refs. pose proof (count_nonneg (shows a) H). pose proof (occ_nonneg a e).
  pose proof (msum_nonneg (occ a) files (occ_nonneg a)). lia.
Qed.

Lemma live_of_refs H e d a : Exact H e d -> 0 < refs H e (filp_fbs d) a -> exists fb, fbs d !! a = Some fb.
Proof. intros Hx Hr. specialize (Hx a). destruct (fbs d !! a) as [fb|]; [by exists fb|]. cbn in Hx. lia. Qed.

Lemma shows_refl a : shows a (Some a) = true.
Proof. cbn. lia. Qed.

Lemma refs_held H e files a : a ∈ e -> 0 < refs H e files a.
Proof.
  intros Ha. unfold refs. apply occ_pos in Ha.
  pose proof (count_nonneg (shows a) H). pose proof (msum_nonneg (occ a) files (occ_nonneg a)). lia.
Qed.

Lemma refs_shown H e files a p : H !! p = Some (Some a) -> 0 < refs H e files a.
Proof.
  intros Hp. unfold refs. pose proof (count_ge (shows a) H p (Some a) Hp) as Hc. rewrite shows_refl in Hc. cbn in Hc.
  pose proof (occ_nonneg a e). pose proof (msum_nonneg (occ a) files (occ_nonneg a)). lia.
Qed.

Lemma refs_filed H e (files : gmap Z (list Z)) a f l : files !! f = Some l -> a ∈ l -> 0 < refs H e files a.
Proof.
  intros Hf Ha. unfold refs. apply occ_pos in Ha.
  pose proof (msum_ge (occ a) files f l (occ_nonneg a) Hf). pose proof (count_nonneg (shows a) H). pose proof (occ_nonneg a e). lia.
Qed.

Lemma live_held H e d a : Exact H e d -> a ∈ e -> exists fb, fbs d !! a = Some fb.
Proof. intros Hx Ha. eapply live_of_refs; [done|]. by apply refs_held. Qed.

Lemma live_shown H e d a p : Exact H e d -> H !! p = Some (Some a) -> exists fb, fbs d !! a = Some fb.
Proof. intros Hx Hp. eapply live_of_refs; [done|]. by eapply refs_shown. Qed.

Lemma live_filed H e d a f l : Exact H e d -> filp_fbs d !! f = Some l -> a ∈ l -> exists fb, fbs d !! a = Some fb.
Proof. intros Hx Hf Ha. eapply live_of_refs; [done|]. by eapply refs_filed. Qed.

(** The holders may change hands. *)
Lemma Exact_move H e H' e' d :
  Exact H e d -> (forall a, count (shows a) H + occ a e = count (shows a) H' + occ a e') -> Exact H' e' d.
Proof.
  intros Hx Hm a. specialize (Hx a). specialize (Hm a). unfold refs in *.
  by replace (count (shows a) H' + _ + occ a e') with (count (shows a) H + msum (occ a) (filp_fbs d) + occ a e) by lia.
Qed.

Lemma Books_move H e H' e' d :
  Books H e d -> (forall a, count (shows a) H + occ a e = count (shows a) H' + occ a e') -> Books H' e' d.
Proof. intros [] Hm. split; try done. by eapply Exact_move. Qed.

Lemma occ_perm a e e' : e ≡ₚ e' -> occ a e = occ a e'.
Proof. apply lsum_perm. Qed.

Lemma Books_perm H e e' d : e ≡ₚ e' -> Books H e d -> Books H e' d.
Proof. intros Hp Hb. eapply Books_move; [done|]. intros a. by rewrite (occ_perm a e e' Hp). Qed.

Definition held (o : option Z) : list Z := match o with Some a => [a] | None => [] end.

Lemma occ_held a o : occ a (held o) = b2z (shows a o).
Proof. destruct o; unfold occ; cbn; lia. Qed.

(** A plane takes over a reference and hands out the one that it had. *)
Lemma Books_give H e d p o n :
  H !! p = Some o -> Books H (held n ++ e) d -> Books (<[p := n]> H) (held o ++ e) d.
Proof.
  intros Hp Hb. eapply Books_move; [done|]. intros a. rewrite count_insert, Hp. cbn [weight].
  unfold occ. rewrite !lsum_app. fold (occ a (held n)) (occ a (held o)). rewrite !occ_held. lia.
Qed.

(** ** Framebuffers *)

(** What an operation on counts leaves alone. *)
Definition Frame (d d' : device) : Prop :=
  planes d' = planes d /\ crtcs d' = crtcs d /\ others d' = others d /\ plane_list d' = plane_list d /\
  crtc_list d' = crtc_list d /\ filp_fbs d' = filp_fbs d /\ next d' = next d.

Lemma Frame_refl d : Frame d d.
Proof. done. Qed.

Lemma Frame_trans d1 d2 d3 : Frame d1 d2 -> Frame d2 d3 -> Frame d1 d3.
Proof. unfold Frame. intuition congruence. Qed.

(** [Static] depends on the domains of the planes only. *)
Lemma Static_same d d' :
  (forall p, is_Some (planes d !! p) <-> is_Some (planes d' !! p)) -> crtcs d' = crtcs d ->
  plane_list d' = plane_list d -> crtc_list d' = crtc_list d -> Static d -> Static d'.
Proof.
  intros Hp Hc Hpl Hcl [S1 S2 S3 S4 S5]. split; rewrite ?Hc, ?Hpl, ?Hcl; auto.
  - intros c k E. destruct (S1 c k E) as (E1 & E2 & E3). split; [done|]. split; [by apply Hp|]. intros p Hcu. by apply Hp, E3.
  - intros p. by rewrite S5.
Qed.

Lemma Static_frame d d' : Frame d d' -> Static d -> Static d'.
Proof. intros (Hp & Hc & _ & Hpl & Hcl & _). apply Static_same; [by rewrite Hp|done..]. Qed.

(** The planes may change what they show, and the hardware its state. *)
Lemma Books_planes H e d d' :
  (forall p, planes d' !! p = None <-> planes d !! p = None) ->
  (forall p x x', planes d !! p = Some x -> planes d' !! p = Some x' -> p_id x' = p_id x) ->
  fbs d' = fbs d -> crtcs d' = crtcs d -> others d' = others d -> crtc_idr d' = crtc_idr d -> fb_list d' = fb_list d ->
  num_fb d' = num_fb d -> plane_list d' = plane_list d -> crtc_list d' = crtc_list d -> filp_fbs d' = filp_fbs d ->
  next d' = next d -> dying d' = dying d -> Books H e d -> Books H e d'.
Proof.
  intros Hn Hid E1 E2 E3 E4 E5 E6 E7 E8 E9 E10 E11 [Bs [I1 I2 I3 I4 I5 I6 I7] [L1 L2 L3 L4] Bx].
  assert (forall q, obj_id d' q = obj_id d q) as Ho.
  { intros q. unfold obj_id. rewrite E1, E2, E3. destruct (fbs d !! q), (crtcs d !! q); try done. specialize (Hn q).
    destruct (planes d !! q) as [x|] eqn:Ex, (planes d' !! q) as [x'|] eqn:Ex'.
    - by rewrite (Hid q x x').
    - pose proof (proj1 Hn eq_refl). congruence.
    - pose proof (proj2 Hn eq_refl). congruence.
    - done. }
  split.
  - apply (Static_same d); [|done..]. intros q. specialize (Hn q). rewrite <- !not_eq_None_Some. tauto.
  - split; rewrite ?E4, ?E1, ?E2, ?E3, ?E10; auto; [intros; rewrite Ho; auto|].
    intros q Hq. destruct (I4 q Hq) as (? & ? & Hp & ?). by rewrite Hn.
  - split; rewrite ?E5, ?E1, ?E6, ?E9; auto.
  - intros a. specialize (Bx a). by rewrite E1, E9, E11.
Qed.

Lemma Books_hw H e d h : Books H e (with_hw h d) <-> Books H e d.
Proof. split; apply Books_planes; try done; intros; cbn in *; congruence. Qed.

Lemma Books_plane H e d p x f :
  planes d !! p = Some x -> p_id (f x) = p_id x -> Books H e d -> Books H e (with_planes (<[p := f x]> (planes d)) d).
Proof.
  intros E Hf. apply Books_planes; try done; cbn; intros q.
  - destruct (decide (p = q)) as [<-|]; [by rewrite lookup_insert_eq, E|by rewrite lookup_insert_ne].
  - intros y y' Ey. destruct (decide (p = q)) as [<-|]; [|rewrite lookup_insert_ne by done; congruence].
    rewrite lookup_insert_eq. congruence.
Qed.

(** Only the count of a framebuffer changes. *)
Lemma Ids_count d a fb n : fbs d !! a = Some fb -> Ids d -> Ids (with_fbs (<[a := with_refcount n fb]> (fbs d)) d).
Proof.
  intros E [I1 I2 I3 I4 I5 I6 I7]. split; cbn.
  - apply I1.
  - intros k p Hk. apply I2 in Hk as Ho. unfold obj_id in *. cbn.
    destruct (decide (a = p)) as [<-|]; [by rewrite lookup_insert_eq, E in *|by rewrite lookup_insert_ne].
  - intros b fb'. destruct (decide (a = b)) as [<-|]; [|rewrite lookup_insert_ne by done; apply I3].
    rewrite lookup_insert_eq. intros [= <-]. cbn. by apply I3.
  - intros p Hp. destruct (I4 p Hp) as (Hf & ?). rewrite lookup_insert_ne; [done|]. intros ->. congruence.
  - apply I5.
  - apply I6.
  - intros b fb'. destruct (decide (a = b)) as [<-|]; [by intros _; apply (I7 a fb)|rewrite lookup_insert_ne by done; apply I7].
Qed.

Lemma Listed_count d a fb n : fbs d !! a = Some fb -> Listed d -> Listed (with_fbs (<[a := with_refcount n fb]> (fbs d)) d).
Proof.
  intros E [L1 L2 L3 L4]. split; cbn; try done. intros b. rewrite L2.
  destruct (decide (a = b)) as [<-|]; [rewrite lookup_insert_eq, E; naive_solver|by rewrite lookup_insert_ne].
Qed.

Lemma Books_count H e d a fb n dead :
  fbs d !! a = Some fb -> Static d -> Ids d -> Listed d ->
  (forall b, exact_at (refs H e (filp_fbs d) b) dead b (<[a := with_refcount n fb]> (fbs d) !! b)) ->
  Books H e (with_dying dead (with_fbs (<[a := with_refcount n fb]> (fbs d)) d)).
Proof.
  intros E Hs Hi Hl Hx. destruct (Ids_count d a fb n E Hi), (Listed_count d a fb n E Hl).
  split; [eapply Static_frame; [|done]; done|by split..|done].
Qed.

Lemma with_dying_id d : with_dying (dying d) d = d.
Proof. by destruct d. Qed.

Lemma refs_cons H a e files b : refs H (a :: e) files b = refs H e files b + b2z (b =? a).
Proof. unfold refs. rewrite occ_cons. lia. Qed.

Lemma wp_reference H e d a :
  Books H e d -> 0 < refs H e (filp_fbs d) a ->
  wp (drm_framebuffer_reference a) (fun _ d' => Books H (a :: e) d' /\ Frame d d') d.
Proof.
  intros [Bs Bi Bl Bx] Hr. destruct (live_of_refs _ _ _ _ Bx Hr) as [fb E].
  unfold drm_framebuffer_reference. apply fwp_bind, (wp_fb a fb); [done|].
  pose proof (Bx a) as Ha. rewrite E in Ha. destruct Ha as [Hn Hd]. split; [|done].
  enough (Books H (a :: e) (with_dying (dying d) (with_fbs (<[a := with_refcount (refcount fb + 1) fb]> (fbs d)) d))) as Hb by exact Hb.
  apply Books_count; [done..|]. intros b. rewrite refs_cons. destruct (Z.eqb_spec b a) as [->|Hb].
  - rewrite lookup_insert_eq. cbn. split; [lia|]. split; [lia|]. intros Hin%Hd. lia.
  - rewrite lookup_insert_ne by done. cbn. rewrite Z.add_0_r. apply Bx.
Qed.

(** The identifier of a framebuffer that is going away is dropped. *)
Lemma Ids_unregister d a fb :
  fbs d !! a = Some fb -> Ids d ->
  Ids (with_fbs (<[a := with_id 0 fb]> (fbs d)) (with_idr (idr_remove (fb_id fb) (crtc_idr d)) d)).
Proof.
  intros E [I1 I2 I3 I4 I5 I6 I7]. split; cbn.
  - intros k p. rewrite find_remove. case_if; [done|]. apply I1.
  - intros k p. rewrite find_remove. destruct (Z.eqb_spec k (fb_id fb)) as [->|Hk]; [done|]. intros Hf. apply I2 in Hf as Ho.
    unfold obj_id in *. cbn. destruct (decide (a = p)) as [<-|]; [|by rewrite lookup_insert_ne].
    rewrite E in Ho. congruence.
  - pose proof I3 as I3'. intros b fb'. destruct (decide (a = b)) as [<-|Hb]; [rewrite lookup_insert_eq; by intros [= <-]|].
    rewrite lookup_insert_ne by done. intros Eb Hb0. rewrite find_remove. specialize (I3 b fb' Eb Hb0).
    destruct (Z.eqb_spec (fb_id fb') (fb_id fb)) as [Heq|]; [|done]. rewrite Heq in I3.
    destruct (decide (fb_id fb = 0)) as [Z0|Hne]; [congruence|]. rewrite (I3' a fb E Hne) in I3. congruence.
  - intros p Hp. destruct (I4 p Hp) as (Hf & ?). rewrite lookup_insert_ne; [done|]. intros ->. congruence.
  - apply I5.
  - intros p i Hp. rewrite find_remove. specialize (I6 p i Hp). destruct (Z.eqb_spec i (fb_id fb)) as [->|]; [|done].
    assert (fb_id fb <> 0) as Hne by (apply I1 in I6; lia). rewrite (I3 a fb E Hne) in I6. injection I6 as ->.
    rewrite (I7 p fb E) in Hp. done.
  - intros b fb'. destruct (decide (a = b)) as [<-|]; [by intros _; apply (I7 a fb)|rewrite lookup_insert_ne by done; apply I7].
Qed.

Lemma Listed_fb d a fb fb' m :
  fbs d !! a = Some fb -> Listed d -> Listed (with_fbs (<[a := fb']> (fbs d)) (with_idr m d)).
Proof.
  intros E [L1 L2 L3 L4]. split; cbn; try done. intros b. rewrite L2.
  destruct (decide (a = b)) as [<-|]; [rewrite lookup_insert_eq, E; naive_solver|by rewrite lookup_insert_ne].
Qed.

Lemma wp_unregister H e d a :
  Books H e d -> is_Some (fbs d !! a) ->
  wp (__drm_framebuffer_unregister a) (fun _ d' => Books H e d' /\ Frame d d') d.
Proof.
  intros [Bs Bi Bl Bx] [fb E]. unfold __drm_framebuffer_unregister. apply fwp_bind, (wp_fb a fb); [done|].
  apply fwp_bind. split; [|done]. split; [|exact (Ids_unregister d a fb E Bi)|exact (Listed_fb d a fb _ _ E Bl)|].
  - eapply Static_frame; [|done]. done.
  - intros b. specialize (Bx b). cbn. destruct (decide (a = b)) as [<-|Hb].
    + rewrite lookup_insert_eq. by rewrite E in Bx.
    + by rewrite lookup_insert_ne.
Qed.

(** Without its identifier, a framebuffer can leave the heap. *)
Lemma Ids_delete d a fb l n h :
  fbs d !! a = Some fb -> fb_id fb = 0 -> Ids d ->
  forall dead, Ids (with_dying dead (with_fbs (delete a (fbs d)) (with_list l n (with_hw h d)))).
Proof.
  intros E E0 [I1 I2 I3 I4 I5 I6 I7] dead. split; cbn.
  - apply I1.
  - intros k p Hk. apply I2 in Hk as Ho. apply I1 in Hk. unfold obj_id in *. cbn.
    destruct (decide (a = p)) as [<-|]; [|by rewrite lookup_delete_ne]. rewrite E in Ho. injection Ho as Ho. lia.
  - intros b fb'. destruct (decide (a = b)) as [<-|]; [by rewrite lookup_delete_eq|rewrite lookup_delete_ne by done; apply I3].
  - intros p Hp. destruct (I4 p Hp) as (Hf & ?). split; [|done].
    destruct (decide (a = p)) as [<-|]; [apply lookup_delete_eq|by rewrite lookup_delete_ne].
  - apply I5.
  - apply I6.
  - intros b fb'. destruct (decide (a = b)) as [<-|]; [by rewrite lookup_delete_eq|rewrite lookup_delete_ne by done; apply I7].
Qed.

Lemma Listed_delete d a h :
  Listed d -> a ∈ fb_list d ->
  forall dead,
  Listed (with_dying dead (with_fbs (delete a (fbs d)) (with_list (list_del a (fb_list d)) (num_fb d - 1) (with_hw h d)))).
Proof.
  intros [L1 L2 L3 L4] Ha dead. split; cbn; try done.
  - by apply NoDup_list_del.
  - intros b. rewrite list_del_elem, L2. destruct (decide (a = b)) as [<-|].
    + rewrite lookup_delete_eq. split; [by intros [_ ?]|by intros [? ?]].
    + rewrite lookup_delete_ne by done. naive_solver.
  - pose proof (list_del_perm a (fb_list d) L1 Ha) as Hp. apply Permutation_length in Hp. cbn in Hp. lia.
Qed.

(** A step of the release of a framebuffer that nobody holds. *)
Lemma wp_destroy H e d a fb :
  Books H e d -> fbs d !! a = Some fb -> fb_id fb = 0 -> refs H e (filp_fbs d) a = 0 ->
  wp (free_destroy a) (fun _ d' => Books H e d' /\ Frame d d' /\ fbs d' = delete a (fbs d)) d.
Proof.
  intros [Bs Bi Bl Bx] E E0 Hr. unfold free_destroy. apply fwp_bind, wp_hw. intros [] h. apply fwp_bind.
  unfold drm_framebuffer_cleanup. apply fwp_bind. assert (a ∈ fb_list d) as Hin by (apply (li_fbs d Bl); by rewrite E).
  unfold wp at 1, reads. cbn [fb_list with_hw]. rewrite bool_decide_eq_true_2 by done. split; [|done]. split.
  - eapply Static_frame; [|exact Bs]. done.
  - exact (Ids_delete d a fb _ _ h E E0 Bi _).
  - exact (Listed_delete d a h Bl Hin _).
  - intros b. specialize (Bx b). cbn. destruct (decide (a = b)) as [<-|Hb].
    + rewrite lookup_delete_eq. split; [done|set_solver].
    + rewrite lookup_delete_ne by done. destruct (fbs d !! b); cbn in *; set_solver.
Qed.

Lemma wp_reap H e d a :
  Books H e d -> a ∈ dying d -> wp (reap a) (fun _ d' => Books H e d' /\ Frame d d') d.
Proof.
  intros Hb Hd. pose proof (bk_exact _ _ _ Hb a) as Hx. destruct (fbs d !! a) as [fb|] eqn:E; [|by destruct Hx].
  destruct Hx as [_ Hx]. apply fwp_bind, (wp_fb a fb); [done|]. unfold truth. destruct (Z.eqb_spec (fb_id fb) 0) as [E0|E0]; cbn [negb].
  - eapply fwp_mono; [apply (wp_destroy H e d a fb); [done..|by apply Hx]|]. intros [] d' (? & ? & _). done.
  - apply fwp_bind, (wp_fb a fb); [done|]. unfold truth. rewrite (proj2 (Z.eqb_neq _ _) E0). apply wp_unregister; [done|by exists fb].
Qed.

(** The whole release, alone. *)
Lemma wp_free H e d a :
  Books H e d -> a ∈ dying d ->
  wp (drm_framebuffer_free a) (fun _ d' => Books H e d' /\ Frame d d' /\ fbs d' !! a = None) d.
Proof.
  intros Hb Hd. pose proof (bk_exact _ _ _ Hb a) as Hx. destruct (fbs d !! a) as [fb|] eqn:E; [|by destruct Hx].
  destruct Hx as [_ Hx]. unfold drm_framebuffer_free. apply fwp_bind.
  apply fwp_mono with (fun _ d' => Books H e d' /\ Frame d d' /\ exists fb', fbs d' !! a = Some fb' /\ fb_id fb' = 0).
  { unfold free_unregister. apply fwp_bind, (wp_fb a fb); [done|]. unfold truth.
    destruct (Z.eqb_spec (fb_id fb) 0) as [E0|E0]; cbn [negb]; [apply fwp_ret; split_and!; [done|done|by exists fb]|].
    pose proof (wp_unregister H e d a Hb ltac:(by exists fb)) as Hu. unfold __drm_framebuffer_unregister in *.
    unfold wp, mbind, md_bind, the_fb in *. rewrite E in *. destruct Hu as [Hb' F]. split_and!; [done|done|].
    eexists. cbn. by rewrite lookup_insert_eq. }
  intros [] d1 (Hb1 & F1 & fb1 & E1 & E0). eapply fwp_mono; [apply (wp_destroy H e d1 a fb1); [done..|]|].
  - destruct F1 as (_ & _ & _ & _ & _ & -> & _). by apply Hx.
  - intros [] d2 (Hb2 & F2 & Ef). split_and!; [done|by eapply Frame_trans|by rewrite Ef, lookup_delete_eq].
Qed.

Lemma wp_unreference H e d a :
  Books H (a :: e) d ->
  wp (drm_framebuffer_unreference a) (fun _ d' => Books H e d' /\ Frame d d') d.
Proof.
  intros [Bs Bi Bl Bx]. destruct (live_held _ _ d a Bx) as [fb E]; [apply elem_of_cons; by left|].
  unfold drm_framebuffer_unreference. apply fwp_bind, (wp_fb a fb); [done|]. apply fwp_bind.
  pose proof (Bx a) as Ha. rewrite E, refs_cons, Z.eqb_refl in Ha. cbn in Ha. destruct Ha as [Hn Hd].
  pose proof (fb_refs_nonneg H e (filp_fbs d) a) as H0.
  assert (forall b, b <> a -> exact_at (refs H e (filp_fbs d) b) (dying d) b (fbs d !! b)) as Hb.
  { intros b Hb. specialize (Bx b). rewrite refs_cons, (proj2 (Z.eqb_neq b a)) in Bx by done. cbn in Bx. by rewrite Z.add_0_r in Bx. }
  destruct (Z.eqb_spec (refcount fb - 1) 0) as [Ez|Ez].
  - split; [|done]. apply (Books_count H e d a fb); [done..|]. intros b. destruct (decide (a = b)) as [<-|Hne].
    + rewrite lookup_insert_eq. cbn. split; [lia|]. split; [set_solver|lia].
    + rewrite lookup_insert_ne by done. specialize (Hb b ltac:(done)). destruct (fbs d !! b); cbn in *; set_solver.
  - split; [|done]. apply (Books_count H e d a fb _ (dying d)); [done..|]. intros b. destruct (decide (a = b)) as [<-|Hne].
    + rewrite lookup_insert_eq. cbn. split; [lia|]. split; [lia|]. intros Hin%Hd. lia.
    + rewrite lookup_insert_ne by done. by apply Hb.
Qed.

(** The caller keeps a reference of its own, so the count does not drop to 0. *)
Lemma wp_unreference_kept H e d a :
  Books H (a :: e) d -> 0 < refs H e (filp_fbs d) a ->
  wp (__drm_framebuffer_unreference a) (fun _ d' => Books H e d' /\ Frame d d') d.
Proof.
  intros [Bs Bi Bl Bx] Hpos. destruct (live_held _ _ d a Bx) as [fb E]; [apply elem_of_cons; by left|].
  unfold __drm_framebuffer_unreference. apply fwp_bind, (wp_fb a fb); [done|].
  pose proof (Bx a) as Ha. rewrite E, refs_cons, Z.eqb_refl in Ha. cbn in Ha. destruct Ha as [Hn Hd].
  rewrite (proj2 (Z.eqb_neq _ 0)) by lia. split; [|done]. apply (Books_count H e d a fb _ (dying d)); [done..|]. intros b.
  specialize (Bx b). rewrite refs_cons in Bx. destruct (decide (a = b)) as [<-|Hne].
  - rewrite lookup_insert_eq. cbn. split; [lia|]. split; [lia|]. intros Hin%Hd. lia.
  - rewrite lookup_insert_ne by done. rewrite (proj2 (Z.eqb_neq b a)) in Bx by done. cbn in Bx. by rewrite Z.add_0_r in Bx.
Qed.

Lemma wp_unreference_opt H e d o :
  Books H (held o ++ e) d -> wp (unreference_opt o) (fun _ d' => Books H e d' /\ Frame d d') d.
Proof. destruct o as [a|]; cbn; [apply wp_unreference|]. intros Hb. split; done. Qed.

(** ** Lookups *)

Lemma wp_object_at d p i (Q : object_type * Z -> device -> Prop) :
  Ids d -> obj_id d p = Some i ->
  (forall ty, (ty = ObjFb <-> is_Some (fbs d !! p)) -> (ty = ObjCrtc -> is_Some (crtcs d !! p)) ->
     (ty = ObjPlane -> is_Some (planes d !! p)) -> Q (ty, i) d) ->
  wp (object_at p) Q d.
Proof.
  intros Hi. unfold obj_id, wp, object_at. intros Ho HQ.
  destruct (fbs d !! p) as [fb|] eqn:E1; [injection Ho as <-; apply HQ; [split; eauto|done|done]|].
  destruct (crtcs d !! p) as [c|] eqn:E2; [injection Ho as <-; apply HQ; [by split; [|intros [? ?]]|eauto|done]|].
  destruct (planes d !! p) as [x|] eqn:E3; [injection Ho as <-; apply HQ; [by split; [|intros [? ?]]|done|eauto]|].
  destruct (others d !! p) as [[ty k]|] eqn:E4; [|done]. injection Ho as <-.
  destruct (id_others d Hi p ty k E4) as [->| ->]; (apply HQ; [by split; [|intros [? ?]]|done|done]).
Qed.

(** An object that is found is of the type asked for; nothing changes. *)
Lemma wp_object_find d id type (Q : option Z -> device -> Prop) :
  Ids d -> Q None d ->
  (forall p, (type = ObjCrtc -> is_Some (crtcs d !! p)) -> (type = ObjPlane -> is_Some (planes d !! p)) -> Q (Some p) d) ->
  wp (drm_mode_object_find id type) Q d.
Proof.
  intros Hi HN HS. unfold drm_mode_object_find. apply fwp_bind. unfold wp at 1, reads.
  destruct (idr_find (crtc_idr d) id) as [p|] eqn:E; [|done]. apply (id_obj d Hi) in E.
  apply fwp_bind, (wp_object_at d p id); [done|done|]. intros ty H1 H2 H3.
  destruct (bool_decide (ty = type)) eqn:Et; cbn [andb]; [|done]. apply bool_decide_eq_true in Et as ->.
  rewrite Z.eqb_refl. cbn [andb]. case_if; [|done]. apply fwp_ret, HS; done.
Qed.

Lemma wp_fb_find d id (Q : option Z -> device -> Prop) :
  Ids d -> ((forall a, idr_find (crtc_idr d) id = Some a -> fbs d !! a = None) -> Q None d) ->
  (forall a, idr_find (crtc_idr d) id = Some a -> is_Some (fbs d !! a) -> Q (Some a) d) ->
  wp (__drm_framebuffer_lookup id) Q d.
Proof.
  intros Hi HN HS. unfold __drm_framebuffer_lookup. apply fwp_bind. unfold wp at 1, reads.
  destruct (idr_find (crtc_idr d) id) as [p|] eqn:E; [|by apply HN]. apply (id_obj d Hi) in E as Eo.
  apply fwp_bind, (wp_object_at d p id); [done|done|]. intros ty H1 _ _. rewrite Z.eqb_refl, orb_false_r.
  destruct (bool_decide (ty = ObjFb)) eqn:Et; [apply bool_decide_eq_true in Et; apply HS; [done|by apply H1]|].
  apply bool_decide_eq_false in Et. apply HN. intros a [= <-]. apply eq_None_not_Some. by rewrite <- H1.
Qed.

(** A framebuffer that is looked up by its identifier comes with a reference. *)
Lemma fwp_lookup H e d id :
  Books H e d ->
  wp (drm_framebuffer_lookup id) (fun r d' => Books H (held r ++ e) d' /\ Frame d d') d.
Proof.
  intros Hb. unfold drm_framebuffer_lookup. apply fwp_bind, wp_fb_find; [apply Hb|intros _; by apply fwp_ret|].
  intros a _ [fb E]. apply fwp_bind, (wp_fb a fb); [done|].
  pose proof (bk_exact _ _ _ Hb a) as Ha. rewrite E in Ha. destruct (Z.eqb_spec (refcount fb) 0) as [|Hn]; [by apply fwp_ret|].
  pose proof (fb_refs_nonneg H e (filp_fbs d) a).
  apply fwp_bind. pose proof (wp_reference H e d a Hb ltac:(destruct Ha; lia)) as Hr.
  unfold drm_framebuffer_reference in Hr. unfold wp, mbind, md_bind, the_fb in Hr. rewrite E in Hr. exact Hr.
Qed.

End fb_inv.
