(* ===== verification/DrmFbOps.v ===== *)
(** * What the operations on framebuffers and planes do to the books

    Between calls a plane holds what it shows ([Inv]).  Each operation keeps the books,
    and returns the references that it was given or took, whatever the driver answers. *)

From S2P Require Import Prelude Counting Idr DrmRect DrmModes DrmFormats DrmPlane DrmFb DrmFbInv.

(** What the kernel asks of a driver's [page_flip]: it shows the new framebuffer exactly
    when it succeeds. *)
Class mode_laws `{mode_env} : Prop := {
  page_flip_shows flip c a flags h ret h' changed :
    page_flip = Some flip -> flip c a flags h = (ret, h', changed) -> changed = (ret =? 0);
}.

Section fb_ops.
Context {FO : fourcc_h} {RH : drm_rect_h} {PH : drm_plane_h} {MH : drm_modes_h} {IO : idr_ops} {IL : idr_laws}
  {ME : mode_env} {ML : mode_laws}.
Implicit Types (d : device) (H : gmap Z (option Z)) (e : list Z) (a p : Z).

(** [T]: the planes that hold what they showed before. *)
Record Agree (T : list Z) H d : Prop := {
  ag_dom p : planes d !! p = None -> H !! p = None;
  ag_new p x : planes d !! p = Some x -> p ∉ T -> H !! p = Some (p_fb x) /\ p_old_fb x = None;
  ag_old p x : planes d !! p = Some x -> p ∈ T -> H !! p = Some (p_old_fb x);
}.

Definition Inv e d : Prop := exists H, Books H e d /\ Agree [] H d.

Lemma Inv_frame H e d d' : Agree [] H d -> Frame d d' -> Books H e d' -> Inv e d'.
Proof.
  intros [A1 A2 A3] (Hp & _) Hb. exists H. split; [done|]. split; rewrite Hp; auto.
Qed.

Lemma Agree_frame T H d d' : Agree T H d -> planes d' = planes d -> Agree T H d'.
Proof. intros [A1 A2 A3] Hp. split; rewrite Hp; auto. Qed.

Lemma Inv_perm e e' d : e ≡ₚ e' -> Inv e d -> Inv e' d.
Proof. intros Hp (H & Hb & Ha). exists H. split; [by eapply Books_perm|done]. Qed.

Lemma Inv_shown e d p x : Inv e d -> planes d !! p = Some x -> p_old_fb x = None.
Proof. intros (H & _ & Ha) E. apply (ag_new _ _ _ Ha p x E). apply not_elem_of_nil. Qed.

(** ** Planes *)

(** One plane changes; it holds [p_fb] or, if it is in [T], [p_old_fb]. *)
Lemma Agree_plane T T' H d p x y n :
  Agree T H d -> planes d !! p = Some x -> (forall q, q <> p -> q ∈ T' <-> q ∈ T) ->
  (p ∈ T' -> n = p_old_fb y) -> (p ∉ T' -> n = p_fb y /\ p_old_fb y = None) ->
  Agree T' (<[p := n]> H) (with_planes (<[p := y]> (planes d)) d).
Proof.
  intros [A1 A2 A3] E HT Hin Hout. split; cbn; intros q.
  - destruct (decide (p = q)) as [<-|Hq]; [by rewrite lookup_insert_eq|]. rewrite !lookup_insert_ne by done. apply A1.
  - intros z. destruct (decide (p = q)) as [<-|Hq].
    + rewrite !lookup_insert_eq. intros [= <-] Hn. destruct (Hout Hn) as [-> ?]. done.
    + rewrite !lookup_insert_ne by done. intros Ez Hn. apply (A2 q z Ez). by rewrite <- (HT q).
  - intros z. destruct (decide (p = q)) as [<-|Hq].
    + rewrite !lookup_insert_eq. intros [= <-] Hn. by rewrite (Hin Hn).
    + rewrite !lookup_insert_ne by done. intros Ez Hn. apply (A3 q z Ez). by rewrite <- (HT q).
Qed.

Lemma Agree_keep T T' H d p x y :
  Agree T H d -> planes d !! p = Some x -> (forall q, q <> p -> q ∈ T' <-> q ∈ T) ->
  (p ∈ T' -> H !! p = Some (p_old_fb y)) -> (p ∉ T' -> H !! p = Some (p_fb y) /\ p_old_fb y = None) ->
  Agree T' H (with_planes (<[p := y]> (planes d)) d).
Proof.
  intros Ha E HT Hin Hout. destruct (H !! p) as [n|] eqn:En.
  - rewrite <- (insert_id H p n) by done.
    apply (Agree_plane T T' H d p x y n); try done; [intros Hi; specialize (Hin Hi); congruence|].
    intros Hi. destruct (Hout Hi). split; congruence.
  - exfalso. destruct (decide (p ∈ T')) as [Hi|Hi]; [by specialize (Hin Hi)|by destruct (Hout Hi)].
Qed.

Lemma not_in_nil (q : Z) : q ∉ [].
Proof. apply not_elem_of_nil. Qed.

Lemma in_single (p q : Z) : q ∈ [p] <-> q = p.
Proof. apply list_elem_of_singleton. Qed.

(** What no operation changes; and what only the operations on the files' lists do. *)
Definition Kept d d' : Prop := crtc_list d' = crtc_list d /\ plane_list d' = plane_list d /\ others d' = others d.
Definition Same d d' : Prop :=
  crtc_list d' = crtc_list d /\ plane_list d' = plane_list d /\ others d' = others d /\ filp_fbs d' = filp_fbs d.

Lemma Same_kept d d' : Same d d' -> Kept d d'.
Proof. unfold Same, Kept. tauto. Qed.

Lemma Same_trans d1 d2 d3 : Same d1 d2 -> Same d2 d3 -> Same d1 d3.
Proof. unfold Same. intuition congruence. Qed.

Lemma Frame_same d d' : Frame d d' -> Same d d'.
Proof. unfold Frame, Same. tauto. Qed.

Lemma refs_give H e files p a : H !! p = Some (Some a) -> refs (<[p := None]> H) e files a = refs H e files a - 1.
Proof. intros E. unfold refs. rewrite count_insert, E. cbn. rewrite Z.eqb_refl. cbn. lia. Qed.

(** Planes stop to show something, the files keep what they have. *)
Definition Loses d d' : Prop :=
  filp_fbs d' = filp_fbs d /\
  forall p x', planes d' !! p = Some x' ->
    exists x, planes d !! p = Some x /\ p_type x' = p_type x /\ (p_fb x' = p_fb x \/ p_fb x' = None).

Lemma Loses_refl d : Loses d d.
Proof. split; [done|]. intros p x E. exists x. auto. Qed.

Lemma Loses_plane d d' p x y :
  planes d !! p = Some x -> planes d' = <[p := y]> (planes d) -> filp_fbs d' = filp_fbs d ->
  p_type y = p_type x -> p_fb y = p_fb x \/ p_fb y = None -> Loses d d'.
Proof.
  intros Ex Ep Ef Et Efb. split; [done|]. intros q x'. rewrite Ep.
  destruct (decide (p = q)) as [<-|]; [rewrite lookup_insert_eq; intros [= <-]; by exists x|].
  rewrite lookup_insert_ne by done. intros E. exists x'. auto.
Qed.

(** A plane is switched off although its framebuffer goes on: the caller, or somebody
    else, holds it too. *)
Lemma wp_force_disable e d p x :
  Inv e d -> planes d !! p = Some x ->
  (forall H a, Books H e d -> Agree [] H d -> p_fb x = Some a -> 1 < refs H e (filp_fbs d) a) ->
  wp (drm_plane_force_disable p) (fun _ d' => Inv e d' /\ Same d d' /\ Loses d d') d.
Proof.
  intros (H & Hb & Ha) E Hkept. specialize (Hkept H). destruct (ag_new _ _ _ Ha p x E (not_in_nil p)) as [Hp Ho].
  unfold drm_plane_force_disable. apply fwp_bind, (wp_plane p x); [done|].
  destruct (p_fb x) as [a|] eqn:Ea; [|split; [by exists H|split; [done|apply Loses_refl]]].
  apply fwp_bind, (wp_on_plane p _ x); [done|]. set (d1 := with_planes _ d).
  assert (Books H e d1) as Hb1 by (by apply (Books_plane _ _ _ _ _ (with_old_fb (Some a)))).
  apply fwp_bind, wp_hw. intros ret h. set (d2 := with_hw h d1).
  assert (Books H e d2) as Hb2 by (by apply Books_hw).
  assert (planes d2 !! p = Some (with_old_fb (Some a) x)) as E2 by apply lookup_insert_eq.
  assert (Agree [p] H d2) as Ha2.
  { apply (Agree_frame [p] H d1); [|done]. apply (Agree_keep [] [p] H d p x); [done|done|set_solver|cbn; by intros _|set_solver]. }
  destruct (truth ret).
  - apply (wp_on_plane p _ (with_old_fb (Some a) x)); [done|].
    split; [|split; [done|apply (Loses_plane d _ p x (with_old_fb None x)); [done|cbn; by rewrite insert_insert_eq|done|done|by left]]]. exists H.
    split; [by apply (Books_plane _ _ _ _ _ (with_old_fb None))|].
    apply (Agree_keep [p] [] H d2 p _ _ Ha2 E2); [set_solver|set_solver|]. intros _. cbn. by rewrite Ea.
  - apply fwp_bind. eapply fwp_mono; [apply (wp_unreference_kept (<[p := None]> H) e d2 a)|].
    + by apply (Books_give H e d2 p (Some a) None).
    + rewrite refs_give by done. specialize (Hkept a Hb Ha eq_refl). cbn. lia.
    + intros [] d3 [Hb3 F3]. pose proof F3 as (Hpl & _).
      apply (wp_on_plane p _ (with_old_fb (Some a) x)); [by rewrite Hpl|].
      split; [|split; [by apply Frame_same in F3|]].
      2: { apply (Loses_plane d _ p x (with_crtc None (with_fb None (with_old_fb None x)))); [done|cbn; rewrite Hpl; cbn; by rewrite insert_insert_eq| |done|by right].
           by destruct F3 as (_ & _ & _ & _ & _ & F6 & _). }
      exists (<[p := None]> H). split; [by apply (Books_plane _ _ _ _ _ (fun x => with_crtc None (with_fb None (with_old_fb None x)))); rewrite ?Hpl|].
      rewrite Hpl. apply (Agree_frame _ _ (with_planes (<[p := with_crtc None (with_fb None (with_old_fb None (with_old_fb (Some a) x)))]> (planes d2)) d2)); [|done].
      apply (Agree_plane [p] [] H d2 p _ _ None Ha2 E2); set_solver.
Qed.

(** The end of an update: the plane [p] already holds what it shows. *)
Lemma wp_setplane_out H e d p x fb :
  Books H (held fb ++ held (p_old_fb x) ++ e) d -> planes d !! p = Some x ->
  H !! p = Some (p_fb x) -> (forall q, planes d !! q = None -> H !! q = None) ->
  (forall q y, q <> p -> planes d !! q = Some y -> H !! q = Some (p_fb y) /\ p_old_fb y = None) ->
  wp (setplane_out p fb) (fun _ d' => Inv e d' /\ Same d d') d.
Proof.
  intros Hb E Hp Hd Hq. unfold setplane_out. apply fwp_bind. eapply fwp_mono; [by apply wp_unreference_opt|].
  intros [] d1 [Hb1 F1]. pose proof F1 as (P1 & _). apply fwp_bind, (wp_plane p x); [by rewrite P1|].
  apply fwp_bind. eapply fwp_mono; [by apply wp_unreference_opt|]. intros [] d2 [Hb2 F2]. pose proof F2 as (P2 & _).
  rewrite P1 in P2. apply (wp_on_plane p _ x); [by rewrite P2|].
  split; [|apply Frame_same in F1, F2; by eapply Same_trans].
  exists H. split; [apply (Books_plane _ _ _ _ x); rewrite ?P2; done|]. rewrite P2.
  split; cbn; intros q.
  - destruct (decide (p = q)) as [<-|Hn]; [by rewrite lookup_insert_eq|]. rewrite lookup_insert_ne by done. apply Hd.
  - intros y. destruct (decide (p = q)) as [<-|Hn].
    + rewrite lookup_insert_eq. by intros [= <-] _.
    + rewrite lookup_insert_ne by done. intros Ey _. by apply Hq.
  - intros y _ Hi. by apply not_elem_of_nil in Hi.
Qed.

(** The same after one plane of a device that was in order has become [y]. *)
Lemma wp_setplane_end H e d0 d p x y fb :
  Agree [] H d0 -> planes d0 !! p = Some x -> planes d = <[p := y]> (planes d0) ->
  Books (<[p := p_fb y]> H) (held fb ++ held (p_old_fb y) ++ e) d ->
  wp (setplane_out p fb) (fun _ d' => Inv e d' /\ Same d d') d.
Proof.
  intros [A1 A2 _] E Hpl Hb. apply (wp_setplane_out (<[p := p_fb y]> H) e d p y fb); [done|..]; rewrite ?Hpl.
  - apply lookup_insert_eq.
  - apply lookup_insert_eq.
  - intros q. destruct (decide (p = q)) as [<-|]; [by rewrite lookup_insert_eq|]. rewrite !lookup_insert_ne by done. apply A1.
  - intros q z Hq. rewrite !lookup_insert_ne by done. intros Ez. apply (A2 q z Ez (not_in_nil q)).
Qed.

Lemma crtc_index_in l c : c ∈ l -> is_Some (crtc_index l c).
Proof.
  induction l as [|k l IH]; intros Hc; [by apply not_elem_of_nil in Hc|]. cbn.
  destruct (Z.eqb_spec k c) as [|Hk]; [by eexists|]. apply elem_of_cons in Hc as [->|Hc]; [done|].
  destruct (IH Hc) as [n ->]. by eexists.
Qed.

(** The reference that the caller passes goes to the plane or is dropped, and so is the
    one that the plane had. *)
Lemma wp_setplane e d p crtc fb q :
  Inv (held fb ++ e) d -> is_Some (planes d !! p) ->
  (forall a, fb = Some a -> exists c, crtc = Some c /\ is_Some (crtcs d !! c)) ->
  wp (__setplane_internal p crtc fb q) (fun _ d' => Inv e d' /\ Same d d') d.
Proof.
  intros (H & Hb & Ha) [x E] Hc. destruct (ag_new _ _ _ Ha p x E (not_in_nil p)) as [Hp Ho].
  assert (forall y f d1 k, (forall r d', Inv e d' /\ Same d1 d' -> k r d') -> planes d1 = <[p := y]> (planes d) ->
    Books (<[p := p_fb y]> H) (held f ++ held (p_old_fb y) ++ e) d1 -> wp (setplane_out p f) k d1) as Hend.
  { intros y f d1 k Hk Hpl Hb1. eapply fwp_mono; [by eapply wp_setplane_end|]. intros [] d' HI. by apply Hk. }
  assert (forall y (f : drm_plane -> drm_plane) (g : drm_plane -> drm_plane), y = g (f x) -> p_id y = p_id x -> forall H' e' h,
    Books H' e' d -> Books H' e' (with_planes (<[p := y]> (planes d)) (with_hw h d))) as Hbooks.
  { intros y f g -> Hid H' e' h Hb'. apply (Books_plane H' e' (with_hw h d) p x (fun x => g (f x))); [done|done|by apply Books_hw]. }
  assert (<[p := p_fb x]> H = H) as HH by (by apply insert_id).
  unfold __setplane_internal. apply fwp_bind, (wp_plane p x); [done|]. destruct fb as [a|].
  - destruct (Hc a eq_refl) as (c & -> & k & Ek). destruct (st_crtc d (bk_static _ _ _ Hb) c k Ek) as [Hin _].
    apply fwp_bind. unfold drm_crtc_mask. apply fwp_bind. unfold wp at 1, reads.
    destruct (crtc_index_in _ _ Hin) as [n ->]. apply fwp_ret.
    destruct (live_held _ _ d a (bk_exact _ _ _ Hb)) as [y Ey]; [apply elem_of_cons; by left|].
    apply fwp_bind, (wp_fb a y); [done|]. destruct (truth (setplane_checks _ _ _ _)).
    { apply fwp_bind, (Hend x (Some a)); [intros [] d' HI; by apply fwp_ret|by rewrite insert_id|]. by rewrite HH, Ho. }
    apply fwp_bind, (wp_on_plane p _ x); [done|]. apply fwp_bind, wp_hw. intros ret h. destruct (truth ret).
    + apply fwp_bind, (wp_on_plane p _ (with_old_fb (p_fb x) x)); [apply lookup_insert_eq|].
      apply fwp_bind, (Hend (with_old_fb None x) (Some a)); [intros [] d' HI; by apply fwp_ret|cbn; by rewrite insert_insert_eq|].
      cbn. rewrite insert_insert_eq, HH. apply (Hbooks (with_old_fb None x) (with_old_fb (p_fb x)) (with_old_fb None)); done.
    + apply fwp_bind, (wp_on_plane p _ (with_old_fb (p_fb x) x)); [apply lookup_insert_eq|].
      apply fwp_bind, (Hend (with_fb (Some a) (with_crtc (Some c) (with_old_fb (p_fb x) x))) None);
        [intros [] d' HI; by apply fwp_ret|cbn; by rewrite insert_insert_eq|].
      cbn [p_fb p_old_fb with_fb with_crtc with_old_fb held app planes with_hw with_planes]. rewrite insert_insert_eq.
      apply (Hbooks _ (with_old_fb (p_fb x)) (fun x => with_fb (Some a) (with_crtc (Some c) x))); [done|done|].
      by apply Books_give.
  - apply fwp_bind, (wp_on_plane p _ x); [done|]. apply fwp_bind, wp_hw. intros ret h. apply fwp_bind. destruct (truth ret).
    + apply (wp_on_plane p _ (with_old_fb (p_fb x) x)); [apply lookup_insert_eq|].
      apply fwp_bind, (Hend (with_old_fb None x) None); [intros [] d' HI; by apply fwp_ret|cbn; by rewrite insert_insert_eq|].
      cbn. rewrite insert_insert_eq, HH. apply (Hbooks (with_old_fb None x) (with_old_fb (p_fb x)) (with_old_fb None)); done.
    + apply (wp_on_plane p _ (with_old_fb (p_fb x) x)); [apply lookup_insert_eq|].
      apply fwp_bind, (Hend (with_fb None (with_crtc None (with_old_fb (p_fb x) x))) None);
        [intros [] d' HI; by apply fwp_ret|cbn; by rewrite insert_insert_eq|].
      cbn [p_fb p_old_fb with_fb with_crtc with_old_fb held app planes with_hw with_planes]. rewrite insert_insert_eq.
      apply (Hbooks _ (with_old_fb (p_fb x)) (fun x => with_fb None (with_crtc None x))); [done|done|].
      by apply (Books_give H e d p (p_fb x) None).
Qed.

(** ** Mode setting *)

Lemma wp_on_primary c k x f Q d :
  crtcs d !! c = Some k -> planes d !! primary k = Some x ->
  Q tt (with_planes (<[primary k := f x]> (planes d)) d) -> wp (on_primary c f) Q d.
Proof. intros Ek Ex HQ. apply fwp_bind, (wp_crtc c k); [done|]. by apply (wp_on_plane _ _ x). Qed.

Lemma wp_primary_plane c k x (Q : drm_plane -> device -> Prop) d :
  crtcs d !! c = Some k -> planes d !! primary k = Some x -> Q x d -> wp (primary_plane c) Q d.
Proof. intros Ek Ex HQ. apply fwp_bind, (wp_crtc c k); [done|]. by apply (wp_plane _ x). Qed.

(** The primary planes of CRTCs. *)
Definition prims (C : gmap Z drm_crtc) (l : list Z) : list Z := omap (fun c => primary <$> C !! c) l.

Lemma prims_cons C c k l : C !! c = Some k -> prims C (c :: l) = primary k :: prims C l.
Proof. intros E. unfold prims. cbn. by rewrite E. Qed.

Lemma prims_app C l1 l2 : prims C (l1 ++ l2) = prims C l1 ++ prims C l2.
Proof. apply omap_app. Qed.

Lemma prims_in C l p : p ∈ prims C l <-> exists c k, c ∈ l /\ C !! c = Some k /\ primary k = p.
Proof.
  unfold prims. rewrite list_elem_of_omap. split.
  - intros (c & Hc & E). destruct (C !! c) as [k|] eqn:Ek; [|done]. injection E as <-. by exists c, k.
  - intros (c & k & Hc & Ek & <-). exists c. by rewrite Ek.
Qed.

(** A device during the call: the planes in [T] show something else than they hold. *)
Record During (C : gmap Z drm_crtc) (n : option Z) (T : list Z) H e (d0 d : device) : Prop := {
  du_books : Books H e d;
  du_agree : Agree T H d;
  du_new p x : planes d !! p = Some x -> p ∈ T -> p_fb x = p_old_fb x \/ p_fb x = None \/ p_fb x = n;
  du_crtcs : crtcs d = C;
  du_same : Same d0 d;
}.

Lemma du_live C n T H e d0 d p c k :
  During C n T H e d0 d -> c ∈ crtc_list d0 -> C !! c = Some k -> exists x, planes d !! primary k = Some x.
Proof.
  intros [Db _ _ Dc [Ds _]] Hc Ek. destruct (st_crtc d (bk_static _ _ _ Db) c k) as (_ & [x Hx] & _); [by rewrite Dc|].
  by exists x.
Qed.

(** A plane in [T] is given something to show, or joins [T]. *)
Lemma During_plane C n T T' H e d0 d p x f :
  During C n T H e d0 d -> planes d !! p = Some x -> p_id (f x) = p_id x -> (forall q, q <> p -> q ∈ T' <-> q ∈ T) -> p ∈ T' ->
  H !! p = Some (p_old_fb (f x)) -> p_fb (f x) = p_old_fb (f x) \/ p_fb (f x) = None \/ p_fb (f x) = n ->
  During C n T' H e d0 (with_planes (<[p := f x]> (planes d)) d).
Proof.
  intros [Db Da Dn Dc Ds] E Hid HT Hp Hold Hnew. split; try done.
  - by apply Books_plane.
  - by apply (Agree_keep T T' H d p x).
  - cbn. intros q y. destruct (decide (p = q)) as [<-|Hq]; [rewrite lookup_insert_eq; by intros [= <-]|].
    rewrite lookup_insert_ne by done. intros Ey Hy. apply (Dn q y Ey). by apply HT.
Qed.

Lemma wp_save C H e d n l :
  crtc_list d = l -> NoDup (prims C l) -> (forall c, c ∈ l -> is_Some (C !! c)) -> During C n [] H e d d ->
  wp (each (fun tmp => on_primary tmp (fun x => with_old_fb (p_fb x) x)) l)
    (fun _ d' => During C n (prims C l) H e d d') d.
Proof.
  intros Hl Hnd Hc D0.
  apply fwp_mono with (fun _ d' => exists l', l = l' ++ [] /\ During C n (prims C l') H e d d').
  2: { intros _ d' (l' & -> & D). by rewrite app_nil_r. }
  apply (wp_each _ (fun rest d' => exists l', l = l' ++ rest /\ During C n (prims C l') H e d d')); [by exists []|].
  intros c rest d1 (l' & El & D1). destruct (Hc c) as [k Ek]; [rewrite El; set_solver|].
  destruct (du_live _ _ _ _ _ _ _ 0 c k D1) as [x Ex]; [rewrite Hl, El; set_solver|done|].
  apply (wp_on_primary c k x); [by rewrite (du_crtcs _ _ _ _ _ _ _ D1)|done|].
  exists (l' ++ [c]). split; [by rewrite <- app_assoc|].
  rewrite prims_app, (prims_cons C c k [] Ek). cbn [prims omap list_omap].
  rewrite El, prims_app, (prims_cons C c k rest Ek) in Hnd.
  assert (primary k ∉ prims C l') as Hni by (apply NoDup_app in Hnd; set_solver).
  apply (During_plane C n (prims C l')); [done|done|done|set_solver|set_solver| |by left].
  apply (ag_new _ _ _ (du_agree _ _ _ _ _ _ _ D1) _ x Ex Hni).
Qed.

Lemma wp_changes C H e d0 d set change l T :
  (forall c, c ∈ l -> c ∈ crtc_list d0 /\ is_Some (C !! c)) -> (forall c, c ∈ l -> forall k, C !! c = Some k -> primary k ∈ T) ->
  During C (set_fb set) T H e d0 d ->
  wp (each (apply_change set change) l) (fun _ d' => During C (set_fb set) T H e d0 d') d.
Proof.
  intros Hc HT D0.
  eapply fwp_mono; [apply (wp_each _ (fun rest d' => (forall c, c ∈ rest -> c ∈ l) /\ During C (set_fb set) T H e d0 d'))|];
    [done| |by intros _ d' [_ ?]].
  intros c rest d1 [Hr D1]. assert (c ∈ l) as Hcl by (apply Hr; set_solver). destruct (Hc c Hcl) as [Hcl0 [k Ek]].
  destruct (du_live _ _ _ _ _ _ _ 0 c k D1 Hcl0 Ek) as [x Ex]. specialize (HT c Hcl k Ek).
  pose proof (ag_old _ _ _ (du_agree _ _ _ _ _ _ _ D1) _ x Ex HT) as Hold.
  unfold apply_change. destruct (change c).
  - apply fwp_ret. split; [set_solver|done].
  - apply (wp_on_primary c k x); [by rewrite (du_crtcs _ _ _ _ _ _ _ D1)|done|]. split; [set_solver|].
    apply (During_plane C _ T T _ _ _ _ _ x); try done. right. by left.
  - apply (wp_on_primary c k x); [by rewrite (du_crtcs _ _ _ _ _ _ _ D1)|done|]. split; [set_solver|].
    apply (During_plane C _ T T _ _ _ _ _ x (with_fb (set_fb set))); try done. right. by right.
Qed.

(** Each plane takes a reference to what it shows now and drops the one to what it
    showed before. *)
Lemma wp_settle C n e d0 d l :
  (forall c, c ∈ l -> c ∈ crtc_list d0 /\ is_Some (C !! c)) -> NoDup (prims C l) -> (forall a, n = Some a -> a ∈ e) ->
  (exists H, During C n (prims C l) H e d0 d) ->
  wp (each (fun tmp =>
        x ← primary_plane tmp;
        _ ← match p_fb x with Some a => drm_framebuffer_reference a | None => mret tt end;
        _ ← unreference_opt (p_old_fb x);
        on_primary tmp (with_old_fb None)) l)
    (fun _ d' => exists H, During C n [] H e d0 d') d.
Proof.
  intros Hc Hnd Hn D0.
  eapply fwp_mono; [apply (wp_each _ (fun rest d' => (forall c, c ∈ rest -> c ∈ l) /\ NoDup (prims C rest) /\
    exists H, During C n (prims C rest) H e d0 d'))|]; [done| |by intros _ d' (_ & _ & ?)].
  clear D0 Hnd. intros c rest d1 (Hr & Hnd & H & [Db Da Dn Dc Ds]).
  destruct (Hc c) as [Hc0 [k Ek]]; [apply Hr; set_solver|]. rewrite (prims_cons C c k rest Ek) in *.
  apply NoDup_cons in Hnd as [Hni Hnd].
  destruct (st_crtc d1 (bk_static _ _ _ Db) c k) as (_ & [x Ex] & _); [by rewrite Dc|].
  assert (primary k ∈ primary k :: prims C rest) as Hin by set_solver.
  pose proof (ag_old _ _ _ Da _ x Ex Hin) as Hold. pose proof (Dn _ x Ex Hin) as Dx.
  apply fwp_bind, (wp_primary_plane c k x); [by rewrite Dc|done|].
  assert (wp match p_fb x with Some a => drm_framebuffer_reference a | None => mret tt end
    (fun _ d' => Books H (held (p_fb x) ++ e) d' /\ Frame d1 d') d1) as Href.
  { destruct (p_fb x) as [a|] eqn:Ea; [|split; done]. apply wp_reference; [done|].
    destruct Dx as [E|[E|E]]; [|done|].
    - rewrite <- E in Hold. by eapply refs_shown.
    - by apply refs_held, Hn. }
  apply fwp_bind. eapply fwp_mono; [exact Href|]. intros [] d2 [Hb2 F2].
  apply fwp_bind. eapply fwp_mono; [apply wp_unreference_opt, (Books_give H e d2 (primary k) (p_old_fb x) (p_fb x) Hold Hb2)|].
  intros [] d3 [Hb3 F3]. pose proof (Frame_trans _ _ _ F2 F3) as F. pose proof F as (P3 & C3 & _).
  apply (wp_on_primary c k x); [by rewrite C3, Dc|by rewrite P3|].
  split; [set_solver|]. split; [done|]. exists (<[primary k := p_fb x]> H). split.
  - apply (Books_plane _ _ _ _ x); [by rewrite P3|done|done].
  - rewrite P3. apply (Agree_frame _ _ (with_planes (<[primary k := with_old_fb None x]> (planes d1)) d1)); [|done].
    apply (Agree_plane (primary k :: prims C rest)  (prims C rest) H d1 _ x); [done|done|set_solver|done|done].
  - cbn. rewrite P3. intros q y. destruct (decide (primary k = q)) as [<-|Hq]; [done|].
    rewrite lookup_insert_ne by done. intros Ey Hy. apply (Dn q y Ey). set_solver.
  - cbn. by rewrite C3.
  - eapply Same_trans; [exact Ds|]. by apply Frame_same in F.
Qed.

Lemma prims_nodup C l :
  NoDup l -> (forall c, c ∈ l -> is_Some (C !! c)) ->
  (forall c1 c2 k1 k2, C !! c1 = Some k1 -> C !! c2 = Some k2 -> primary k1 = primary k2 -> c1 = c2) -> NoDup (prims C l).
Proof.
  intros Hnd Hl Hinj. induction l as [|c l IH]; [constructor|]. apply NoDup_cons in Hnd as [Hc Hnd].
  destruct (Hl c) as [k Ek]; [set_solver|]. rewrite (prims_cons _ c k l Ek). constructor.
  - intros (c' & k' & Hc' & Ek' & Hp)%prims_in. by rewrite (Hinj c' c k' k Ek' Ek Hp) in Hc'.
  - apply IH; [done|set_solver].
Qed.

(** The caller keeps its reference to the new framebuffer; those of the planes are
    exact again, whatever [set_config] did to them. *)
Lemma wp_set_config e d set :
  Inv e d -> (forall a, set_fb set = Some a -> a ∈ e) -> set_crtc_ptr set ∈ crtc_list d ->
  wp (drm_mode_set_config_internal set) (fun _ d' => Inv e d' /\ Same d d') d.
Proof.
  intros (H & Hb & Ha) Hfb Hset. pose proof (bk_static _ _ _ Hb) as [S1 S2 S3 S4 S5].
  pose proof (prims_nodup (crtcs d) (crtc_list d) S3 S2 S4) as Hnd.
  unfold drm_mode_set_config_internal. apply fwp_bind. unfold wp at 1, reads.
  apply fwp_bind. eapply fwp_mono; [apply (wp_save (crtcs d) H e d (set_fb set)); [done|done|done|]|].
  { split; try done. intros p x _ Hp. by apply not_elem_of_nil in Hp. }
  intros [] d1 D1. apply fwp_bind. unfold call_hw. unfold wp at 1. destruct (set_config set (dhw d1)) as [[ret h] change].
  assert (During (crtcs d) (set_fb set) (prims (crtcs d) (crtc_list d)) H e d (with_hw h d1)) as D2.
  { destruct D1 as [Db Da Dn Dc Ds]. split; try done; [by apply Books_hw|]. by eapply Agree_frame. }
  assert (forall c, c ∈ crtc_list d -> forall k, crtcs d !! c = Some k -> primary k ∈ prims (crtcs d) (crtc_list d)) as Hin.
  { intros c Hc k Ek. apply prims_in. by exists c, k. }
  apply fwp_bind. eapply fwp_mono; [apply (wp_changes (crtcs d) H e d); [auto|exact Hin|exact D2]|]. intros [] d3 D3.
  apply fwp_bind. apply fwp_mono with (fun _ d' => During (crtcs d) (set_fb set) (prims (crtcs d) (crtc_list d)) H e d d').
  { destruct (truth ret); [done|]. destruct (S2 _ Hset) as [k Ek].
    destruct (du_live _ _ _ _ _ _ _ 0 _ k D3 Hset Ek) as [x Ex].
    apply (wp_on_primary _ k x); [by rewrite (du_crtcs _ _ _ _ _ _ _ D3)|done|].
    apply (During_plane _ _ _ _ _ _ _ _ _ x (fun x => with_fb (set_fb set) (with_crtc (Some (set_crtc_ptr set)) x)) D3);
      [done|done|done|by apply (Hin _ Hset)| |right; by right].
    apply (ag_old _ _ _ (du_agree _ _ _ _ _ _ _ D3) _ x Ex), (Hin _ Hset k Ek). }
  intros [] d4 D4. apply fwp_bind. eapply fwp_mono; [apply (wp_settle (crtcs d) (set_fb set) e d); [auto|done|done|by exists H]|].
  intros [] d5 (H5 & [D5b D5a _ _ D5s]). apply fwp_ret. split; [by exists H5|done].
Qed.

(** ** Removal *)

Lemma refs_two H e d p a : H !! p = Some (Some a) -> a ∈ e -> 1 < refs H e (filp_fbs d) a.
Proof.
  intros Hp Ha. unfold refs. apply occ_pos in Ha. pose proof (count_ge (shows a) H p (Some a) Hp) as Hc.
  rewrite shows_refl in Hc. cbn in Hc. pose proof (msum_nonneg (occ a) (filp_fbs d) (occ_nonneg a)). lia.
Qed.

(** No plane shows [a]. *)
Definition dark a d : Prop := forall p x, planes d !! p = Some x -> p_fb x <> Some a.

(** The driver can switch every plane off. *)
Definition can_disable : Prop := forall p h, (disable_plane p h).1 = 0.

Lemma force_disable_clears d p d' x' :
  can_disable -> drm_plane_force_disable p d = Done (tt, d') -> planes d' !! p = Some x' -> p_fb x' = None.
Proof.
  intros Hdis. unfold drm_plane_force_disable, mbind, md_bind, the_plane, call_hw, on_plane.
  destruct (planes d !! p) as [x|] eqn:E; [|done]. destruct (p_fb x) as [a|] eqn:Ea; [|by intros [= <-]; rewrite E; intros [= <-]].
  unfold mbind, md_bind, the_plane. rewrite E. cbn [modify with_planes planes dhw].
  pose proof (Hdis p (dhw d)) as Hd. destruct (disable_plane p (dhw d)) as [ret h]. cbn in Hd. subst ret. cbn [truth Z.eqb negb].
  unfold __drm_framebuffer_unreference, mbind, md_bind, the_fb. cbn [fbs with_hw with_planes].
  destruct (fbs d !! a) as [fb|]; [|done]. case_if; [done|]. cbn. rewrite lookup_insert_eq. intros [= <-]. cbn.
  rewrite lookup_insert_eq. by intros [= <-].
Qed.

Lemma wp_planes_off e d a :
  Inv e d -> a ∈ e ->
  wp (each (fun p => x ← the_plane p; if bool_decide (p_fb x = Some a) then drm_plane_force_disable p else mret tt) (plane_list d))
    (fun _ d' => Inv e d' /\ Same d d' /\ (can_disable -> dark a d')) d.
Proof.
  intros HI He. eapply fwp_mono; [apply (wp_each _ (fun rest d' =>
    (forall p, p ∈ rest -> p ∈ plane_list d) /\ Inv e d' /\ Same d d' /\
    (can_disable -> forall p x, planes d' !! p = Some x -> p ∉ rest -> p_fb x <> Some a)))|].
  { split_and!; try done. intros _ p x Ex Hp. destruct Hp. destruct HI as (H & Hb & _). apply (st_planes d (bk_static _ _ _ Hb)). by exists x. }
  { intros p rest d2 (Hr & HI2 & Hs & Hdark). assert (p ∈ plane_list d2) as Hp by (destruct Hs as [_ [-> _]]; apply Hr; set_solver).
    pose proof HI2 as (H2 & Hb2 & _). destruct (proj1 (st_planes d2 (bk_static _ _ _ Hb2) p) Hp) as [x Ex].
    apply fwp_bind, (wp_plane p x); [done|]. case_if; [apply bool_decide_eq_true in Heqb as Ea|apply bool_decide_eq_false in Heqb].
    2: { apply fwp_ret. split_and!; [set_solver|done|done|]. intros Hdis q y Ey Hq. destruct (decide (q = p)) as [->|]; [congruence|].
         apply (Hdark Hdis q y Ey). set_solver. }
    assert (wp (drm_plane_force_disable p) (fun _ d' => Inv e d' /\ Same d2 d' /\ Loses d2 d') d2) as Hoff.
    { apply (wp_force_disable e d2 p x); [done|done|]. intros H' b Hb' Ha' Eb. assert (b = a) as -> by congruence.
      destruct (ag_new _ _ _ Ha' p x Ex (not_in_nil p)) as [Hp' _]. apply (refs_two H' e d2 p); [congruence|done]. }
    unfold wp in *. destruct (drm_plane_force_disable p d2) as [[[] d3]| |] eqn:E; [|done|done].
    destruct Hoff as (HI3 & Hs3 & _ & Hl). split_and!; [set_solver|done|by eapply Same_trans|].
    intros Hdis q y Ey Hq. destruct (decide (q = p)) as [->|Hqp]; [rewrite (force_disable_clears d2 p d3 y Hdis E Ey); done|].
    destruct (Hl q y Ey) as (y0 & Ey0 & _ & [->| ->]); [|done]. apply (Hdark Hdis q y0 Ey0). set_solver. }
  intros [] d2 (_ & HI2 & Hs2 & Hd). split_and!; try done. intros Hdis p x Ex. apply (Hd Hdis p x Ex), not_in_nil.
Qed.

Lemma wp_remove_locked e d a :
  Inv e d -> a ∈ e -> wp (remove_locked a) (fun _ d' => Inv e d' /\ Same d d' /\ (can_disable -> dark a d')) d.
Proof.
  intros HI He. unfold remove_locked. apply fwp_bind. unfold wp at 1, reads. apply fwp_bind.
  eapply fwp_mono; [apply (wp_each _ (fun rest d' => (forall c, c ∈ rest -> c ∈ crtc_list d) /\ Inv e d' /\ Same d d'))|].
  { split; [done|]. by split. }
  { intros c rest d1 (Hr & HI1 & Hs). assert (c ∈ crtc_list d1) as Hc by (destruct Hs as [-> _]; apply Hr; set_solver).
    pose proof HI1 as (H1 & Hb1 & _). destruct (st_list d1 (bk_static _ _ _ Hb1) c Hc) as [k Ek].
    destruct (st_crtc d1 (bk_static _ _ _ Hb1) c k Ek) as (_ & [x Ex] & _).
    apply fwp_bind, (wp_primary_plane c k x); [done|done|]. case_if; [|apply fwp_ret; split; [set_solver|done]].
    apply fwp_bind. eapply fwp_mono; [apply (wp_set_config e d1); [done|done|done]|]. intros r d2 [HI2 Hs2].
    apply fwp_ret. split; [set_solver|]. split; [done|]. by eapply Same_trans. }
  intros [] d1 (_ & HI1 & Hs1). apply fwp_bind. unfold wp at 1, reads.
  eapply fwp_mono; [by apply (wp_planes_off e d1 a)|]. intros [] d2 (HI2 & Hs2 & Hd). split; [done|]. split; [by eapply Same_trans|done].
Qed.

Lemma wp_unref_inv e d a : Inv (a :: e) d -> wp (drm_framebuffer_unreference a) (fun _ d' => Inv e d' /\ Same d d') d.
Proof.
  intros (H & Hb & Ha). eapply fwp_mono; [by apply (wp_unreference H e)|]. intros [] d' [Hb' F].
  split; [by eapply Inv_frame|]. by apply Frame_same.
Qed.

Lemma wp_ref_inv e d a : Inv e d -> (forall H, Books H e d -> Agree [] H d -> 0 < refs H e (filp_fbs d) a) ->
  wp (drm_framebuffer_reference a) (fun _ d' => Inv (a :: e) d' /\ Same d d') d.
Proof.
  intros (H & Hb & Ha) Hl. eapply fwp_mono; [apply (wp_reference H e); auto|]. intros [] d' [Hb' F].
  split; [by eapply Inv_frame|]. by apply Frame_same.
Qed.

Lemma Inv_live e d a : Inv e d -> a ∈ e -> exists fb, fbs d !! a = Some fb.
Proof. intros (H & Hb & _) Ha. apply (live_held _ _ d a (bk_exact _ _ _ Hb) Ha). Qed.

Lemma Inv_shown_live e d p x a : Inv e d -> planes d !! p = Some x -> p_fb x = Some a -> exists fb, fbs d !! a = Some fb.
Proof.
  intros (H & Hb & Ha) E Ea. destruct (ag_new _ _ _ Ha p x E (not_in_nil p)) as [Hp _]. rewrite Ea in Hp.
  apply (live_shown _ _ d a p (bk_exact _ _ _ Hb) Hp).
Qed.

Lemma alone_dark e d a fb : Inv (a :: e) d -> fbs d !! a = Some fb -> refcount fb <= 1 -> dark a d.
Proof.
  intros (H & Hb & Ha) E Hr p x Ex Ea. destruct (ag_new _ _ _ Ha p x Ex (not_in_nil p)) as [Hp _]. rewrite Ea in Hp.
  pose proof (bk_exact _ _ _ Hb a) as Hx. rewrite E in Hx. pose proof (refs_two H (a :: e) d p a Hp). set_unfold. naive_solver lia.
Qed.

(** The caller's reference is gone and, if the driver can switch planes off, no plane
    shows the framebuffer any more. *)
Lemma wp_remove e d a :
  Inv (a :: e) d -> wp (drm_framebuffer_remove a) (fun _ d' => Inv e d' /\ Same d d' /\ (can_disable -> dark a d')) d.
Proof.
  intros HI. destruct (Inv_live _ d a HI) as [fb E]; [set_solver|]. unfold drm_framebuffer_remove.
  apply fwp_bind, (wp_fb a fb); [done|]. apply fwp_bind.
  apply fwp_mono with (fun _ d' => Inv (a :: e) d' /\ Same d d' /\ (can_disable -> dark a d')).
  { case_if; [apply wp_remove_locked; [done|set_solver]|]. apply fwp_ret. split_and!; try done. intros _. b2p.
    by apply (alone_dark e d a fb). }
  intros [] d1 ((H & Hb & Ha) & Hs1 & Hd). eapply fwp_mono; [by apply (wp_unreference H e)|]. intros [] d2 [Hb2 F2].
  split_and!; [by eapply Inv_frame|eapply Same_trans; [done|by apply Frame_same]|].
  intros Hdis p x. destruct F2 as (-> & _). by apply Hd.
Qed.

End fb_ops.
