(* ===== verification/DrmFbCalls.v ===== *)
(** * The ioctls keep the books of framebuffers

    Lookups, creation and removal, CRTCs, page flips, cursors and the console, each from
    any state in which the counts are exact, for any references [e] that other calls
    hold at the time. *)

From S2P Require Import Prelude Counting Idr DrmRect DrmModes DrmFormats DrmPlane DrmFb DrmFbInv DrmFbOps.

Section fb_calls.
Context {FO : fourcc_h} {RH : drm_rect_h} {PH : drm_plane_h} {MH : drm_modes_h} {IO : idr_ops} {IL : idr_laws}
  {ME : mode_env} {ML : mode_laws}.
Implicit Types (d : device) (H : gmap Z (option Z)) (e : list Z) (a p : Z).

(** The postcondition of most calls. *)
Definition keeps e d {A} (_ : A) d' : Prop := Inv e d' /\ Same d d'.

Lemma keeps_refl {A} e d (r : A) : Inv e d -> keeps e d r d.
Proof. by split. Qed.

(** Sequencing: what follows a call starts from where it ended. *)
Lemma wp_then {A B} e1 e2 d (c : md A) (k : A -> md B) :
  wp c (keeps e1 d) d -> (forall r d', Inv e1 d' -> Same d d' -> wp (k r) (keeps e2 d') d') -> wp (mbind k c) (keeps e2 d) d.
Proof.
  intros Hc Hk. apply fwp_bind. eapply fwp_mono; [exact Hc|]. intros r d' [HI Hs].
  eapply fwp_mono; [by apply Hk|]. intros r' d'' [HI2 Hs2]. split; [done|]. by eapply Same_trans.
Qed.

Lemma keeps_from {A} e d d1 (c : md A) : Same d d1 -> wp c (keeps e d1) d1 -> wp c (keeps e d) d1.
Proof. intros Hs Hc. eapply fwp_mono; [exact Hc|]. intros r d' [HI Hs']. split; [done|]. by eapply Same_trans. Qed.

Lemma Inv_hw e d h : Inv e d -> Inv e (with_hw h d).
Proof. intros (H & Hb & Ha). exists H. split; [by apply Books_hw|]. by eapply Agree_frame. Qed.

Lemma wp_hw_keeps {A} (f : mode_hw -> A * mode_hw) e d : Inv e d -> wp (call_hw f) (keeps e d) d.
Proof. intros HI. apply wp_hw. intros r h. split; [by apply Inv_hw|done]. Qed.

Lemma Inv_ids e d : Inv e d -> Ids d.
Proof. intros (H & Hb & _). apply Hb. Qed.

Lemma Inv_static e d : Inv e d -> Static d.
Proof. intros (H & Hb & _). apply Hb. Qed.

(** ** Lookups *)

Lemma wp_lookup_inv e d id :
  Inv e d -> wp (drm_framebuffer_lookup id) (fun r d' => Inv (held r ++ e) d' /\ Same d d' /\ crtcs d' = crtcs d /\ planes d' = planes d) d.
Proof.
  intros (H & Hb & Ha). eapply fwp_mono; [by apply (fwp_lookup H e)|]. intros r d' [Hb' F].
  split; [by eapply Inv_frame|]. split; [by apply Frame_same|]. by destruct F as (? & ? & _).
Qed.

(** [drm_mode_setplane] holds the reference of the framebuffer that it found, also when
    it then returns an error. *)
Lemma wp_setplane_find e d plane_id fb_id crtc_id q :
  Inv e d ->
  wp (setplane_find plane_id fb_id crtc_id q) (fun r d' =>
    let '(ret, p, crtc, fb) := r in
    Inv (held fb ++ e) d' /\ Same d d' /\
    (ret = 0 -> is_Some (planes d' !! p) /\ (forall a, fb = Some a -> exists c, crtc = Some c /\ is_Some (crtcs d' !! c)))) d.
Proof.
  intros HI. unfold setplane_find. case_if; [by apply fwp_ret|].
  apply fwp_bind, wp_object_find; [by eapply Inv_ids|by apply fwp_ret|]. intros p _ Hp. specialize (Hp eq_refl).
  case_if; [|by apply fwp_ret]. apply fwp_bind. eapply fwp_mono; [by apply wp_lookup_inv|].
  intros [a|] d1 (HI1 & Hs1 & Ec & Ep); [|by apply fwp_ret].
  apply fwp_bind, wp_object_find; [by eapply Inv_ids|by apply fwp_ret|]. intros c Hc _. specialize (Hc eq_refl).
  apply fwp_ret. split; [done|]. split; [done|]. intros _. rewrite Ep. split; [done|]. intros b _. by exists c.
Qed.

(** ** Creation *)

(** There is an identifier left for a new framebuffer. *)
Definition ids_left (mem : bool) d : Prop := 0 <= (idr_alloc mem (next d) 1 (crtc_idr d)).1.

(** A new framebuffer at address [next d], with a reference for its creator. *)
Lemma Books_new H e d d' mem id m l :
  idr_alloc mem (next d) 1 (crtc_idr d) = (id, m) -> 0 <= id ->
  fbs d' = <[next d := MkFb 1 id l]> (fbs d) -> crtc_idr d' = m -> fb_list d' = next d :: fb_list d ->
  num_fb d' = num_fb d + 1 -> next d' = next d + 1 -> planes d' = planes d -> crtcs d' = crtcs d -> others d' = others d ->
  plane_list d' = plane_list d -> crtc_list d' = crtc_list d -> filp_fbs d' = filp_fbs d -> dying d' = dying d ->
  Books H e d -> Books H (next d :: e) d'.
Proof.
  intros Hal Hid Ef Em El En Ex Ep Ec Eo Epl Ecl Efi Edy [Bs [I1 I2 I3 I4 I5 I6 I7] [L1 L2 L3 L4] Bx].
  destruct (alloc_fresh _ _ _ _ _ _ Hal Hid) as [Hr Hfresh]. destruct (I4 (next d) ltac:(lia)) as (F1 & F2 & F3 & F4).
  set (a := next d) in *.
  split.
  - apply (Static_same d); [intros p; by rewrite Ep|done..].
  - split; rewrite ?Em, ?Ef, ?Eo, ?Ex.
    + intros k p. rewrite (alloc_find _ _ _ _ _ _ k Hal Hid). destruct (Z.eqb_spec k id); [lia|]. apply I1.
    + intros k p. rewrite (alloc_find _ _ _ _ _ _ k Hal Hid). unfold obj_id. rewrite Ef, Ec, Ep, Eo.
      destruct (Z.eqb_spec k id) as [->|Hk]; [intros [= <-]; by rewrite lookup_insert_eq|].
      intros Hf. apply I2 in Hf. unfold obj_id in Hf. destruct (decide (a = p)) as [<-|]; [by rewrite F1, F2, F3, F4 in Hf|].
      by rewrite lookup_insert_ne.
    + intros b fb. rewrite (alloc_find _ _ _ _ _ _ _ Hal Hid). destruct (decide (a = b)) as [<-|Hb].
      * rewrite lookup_insert_eq. intros [= <-]. cbn. by rewrite Z.eqb_refl.
      * rewrite lookup_insert_ne by done. intros Hf Hn. specialize (I3 b fb Hf Hn).
        destruct (Z.eqb_spec (fb_id fb) id) as [Heq|]; [rewrite Heq in I3; congruence|done].
    + intros p Hp. rewrite Ec, Ep, lookup_insert_ne by lia. apply I4. lia.
    + done.
    + intros p i Hp. specialize (I6 p i Hp). rewrite (alloc_find _ _ _ _ _ _ _ Hal Hid).
      destruct (Z.eqb_spec i id) as [->|]; [congruence|done].
    + intros b fb. destruct (decide (a = b)) as [<-|]; [done|]. rewrite lookup_insert_ne by done. apply I7.
  - split; rewrite ?El, ?Ef, ?En, ?Efi; try done.
    + constructor; [|done]. rewrite L2, F1. by intros [? ?].
    + intros b. rewrite elem_of_cons, L2. destruct (decide (a = b)) as [<-|].
      * rewrite lookup_insert_eq. split; [by eexists|by left].
      * rewrite lookup_insert_ne by done. naive_solver.
    + cbn [length]. lia.
  - intros b. specialize (Bx b). rewrite Ef, Efi, Edy, refs_cons. destruct (Z.eqb_spec b a) as [->|Hb].
    + rewrite F1 in Bx. destruct Bx as [B0 Bd]. rewrite lookup_insert_eq. cbn. split; [lia|]. split; [lia|done].
    + rewrite lookup_insert_ne by done. cbn. by rewrite Z.add_0_r.
Qed.

Lemma wp_create_fb e d mem file r :
  Inv e d -> ids_left mem d ->
  wp (create_fb mem file r) (fun res d' =>
    Same d d' /\ match res with inl _ => Inv e d' | inr a => Inv (a :: e) d' /\ fbs d !! a = None end) d.
Proof.
  intros HI Hleft. pose proof HI as (H & Hb & Ha). unfold create_fb. apply fwp_bind, wp_hw. intros ret h. case_if.
  { apply fwp_ret. split_and!; try done. by apply Inv_hw. }
  unfold ids_left in Hleft. destruct (idr_alloc mem (next d) 1 (crtc_idr d)) as [id m] eqn:Eal. cbn in Hleft.
  apply fwp_bind. unfold wp at 1, reads. cbn [next with_hw]. apply fwp_bind. unfold wp at 1, modify. apply fwp_bind.
  unfold drm_framebuffer_init. apply fwp_bind. unfold wp at 1, set_the_fb, modify. apply fwp_bind.
  unfold wp at 1, drm_mode_object_get. cbn [crtc_idr with_fbs with_next with_hw]. rewrite Eal.
  rewrite (proj2 (Z.leb_le 0 id)) by lia. apply fwp_bind. cbn [truth Z.eqb negb].
  apply fwp_bind. unfold wp at 1, set_the_fb, modify. unfold wp at 1, modify. apply fwp_ret. cbn [truth Z.eqb negb].
  apply fwp_ret. set (d' := with_list _ _ _).
  assert (fbs d' = <[next d := MkFb 1 id (drm_helper_mode_fill_fb_struct r)]> (fbs d)) as Ef.
  { cbn. by rewrite insert_insert_eq. }
  assert (Books H (next d :: e) d') as Hb' by (by eapply (Books_new H e d d' mem id m)).
  split_and!; try done.
  - exists H. split; [done|]. by eapply Agree_frame.
  - by destruct (id_next d (bk_ids _ _ _ Hb) (next d)) as (? & _); [lia|].
Qed.

(** ** The lists of the files *)

(** A list changes together with the references in hand. *)
Lemma Inv_file e e' d file l :
  Inv e d -> NoDup l ->
  (forall a, occ a e + occ a (default [] (filp_fbs d !! file)) = occ a e' + occ a l) ->
  Inv e' (with_files (<[file := l]> (filp_fbs d)) d).
Proof.
  intros (H & [Bs [I1 I2 I3 I4 I5 I6 I7] [L1 L2 L3 L4] Bx] & [A1 A2 A3]) Hl Ho. exists H. split; [|by split].
  split; [destruct Bs; by split|by split| |].
  - split; try done. cbn. intros f l'. destruct (decide (file = f)) as [<-|]; [rewrite lookup_insert_eq; by intros [= <-]|].
    rewrite lookup_insert_ne by done. apply L4.
  - intros a. specialize (Bx a). specialize (Ho a). cbn. unfold refs in *. rewrite msum_insert.
    assert (osum (occ a) (filp_fbs d !! file) = occ a (default [] (filp_fbs d !! file))) as -> by (by destruct (filp_fbs d !! file)).
    by replace (count (shows a) H + _ + occ a e') with (count (shows a) H + msum (occ a) (filp_fbs d) + occ a e) by lia.
Qed.

Lemma Inv_listed e d : Inv e d -> Listed d.
Proof. intros (H & Hb & _). apply Hb. Qed.

Lemma file_nodup e d file : Inv e d -> NoDup (default [] (filp_fbs d !! file)).
Proof.
  intros HI. destruct (filp_fbs d !! file) as [l|] eqn:E; cbn; [|constructor]. by apply (li_files d (Inv_listed e d HI) file).
Qed.

Lemma wp_add_create e d limits mem file r :
  Inv e d -> ids_left mem d ->
  wp (add_create limits mem file r) (fun res d' =>
    Same d d' /\ match res with inl _ => Inv e d' | inr a => Inv (a :: e) d' /\ fbs d !! a = None end) d.
Proof.
  intros HI Hl. unfold add_create. repeat case_if; try by apply fwp_ret.
  eapply fwp_mono; [by apply (wp_create_fb e)|]. by intros [ret|a] d1 (Hs & HI1).
Qed.

(** A framebuffer that is on no list of a file is put on one. *)
Lemma wp_add_file e d file a :
  Inv (a :: e) d -> msum (occ a) (filp_fbs d) = 0 ->
  wp (add_file file a) (fun _ d' => Inv e d' /\ Kept d d' /\
    filp_fbs d' = <[file := a :: default [] (filp_fbs d !! file)]> (filp_fbs d)) d.
Proof.
  intros HI Ha. destruct (Inv_live _ d a HI) as [fb E]; [set_solver|]. apply fwp_bind, (wp_fb a fb); [done|].
  apply fwp_bind. unfold wp at 1, modify. apply fwp_ret. split_and!; try done. apply (Inv_file (a :: e)); [done| |].
  - constructor; [|by eapply file_nodup]. intros Hin. destruct (filp_fbs d !! file) as [l|] eqn:El; cbn in Hin; [|by apply not_elem_of_nil in Hin].
    pose proof (msum_ge (occ a) (filp_fbs d) file l (occ_nonneg a) El). apply occ_pos in Hin. lia.
  - intros b. rewrite !occ_cons. lia.
Qed.

Lemma Inv_frame_of e H d d' : Agree [] H d -> Frame d d' -> Books H e d' -> Inv e d' /\ Same d d'.
Proof. intros Ha F Hb. split; [by eapply Inv_frame|by apply Frame_same]. Qed.

Lemma occ_list_del a l b : NoDup l -> a ∈ l -> occ b l = b2z (b =? a) + occ b (list_del a l).
Proof. intros Hn Ha. rewrite (occ_perm b l _ (list_del_perm a l Hn Ha)). apply occ_cons. Qed.

(** A framebuffer leaves its file: the call now holds the file's reference. *)
Lemma wp_take e d file a l :
  Inv e d -> default [] (filp_fbs d !! file) = l -> a ∈ l ->
  wp (_ ← __drm_framebuffer_unregister a;
      _ ← modify (fun d => with_files (<[file := list_del a l]> (filp_fbs d)) d);
      mret (Some a)) (fun r d' => r = Some a /\ Inv (a :: e) d' /\ Kept d d' /\
        filp_fbs d' = <[file := list_del a l]> (filp_fbs d)) d.
Proof.
  intros HI El Hin. pose proof HI as (H & Hb & Ha). pose proof (file_nodup e d file HI) as Hnd. rewrite El in Hnd.
  destruct (filp_fbs d !! file) as [l'|] eqn:E; cbn in El; subst; [|by apply not_elem_of_nil in Hin].
  destruct (live_filed _ _ d a file l (bk_exact _ _ _ Hb) E Hin) as [fb Efb].
  apply fwp_bind. eapply fwp_mono; [by apply (wp_unregister H e); [|exists fb]|]. intros [] d1 [Hb1 F1].
  apply fwp_bind. unfold wp at 1, modify. apply fwp_ret. pose proof F1 as (_ & _ & _ & _ & _ & Ff & _).
  split; [done|]. split; [|split; [by apply Frame_same, Same_kept in F1|cbn; by rewrite Ff]]. apply (Inv_file e); [by eapply Inv_frame|by apply NoDup_list_del|].
  intros b. rewrite Ff, E. change (default [] (Some l)) with l. cbn [held app]. rewrite occ_cons, (occ_list_del a l b) by done. lia.
Qed.

(** The framebuffer with this identifier is on the file's list. *)
Definition named_by d (file id : Z) (a : Z) : Prop :=
  idr_find (crtc_idr d) id = Some a /\ a ∈ default [] (filp_fbs d !! file).

Lemma wp_rmfb_find e d file id :
  Inv e d -> wp (rmfb_find file id) (fun r d' =>
    match r with
    | None => d' = d /\ forall a, ~ named_by d file id a
    | Some a => Inv (a :: e) d' /\ Kept d d' /\ named_by d file id a /\
        filp_fbs d' = <[file := list_del a (default [] (filp_fbs d !! file))]> (filp_fbs d)
    end) d.
Proof.
  intros HI. unfold rmfb_find. apply fwp_bind, wp_fb_find; [by eapply Inv_ids| |].
  - intros Hno. apply fwp_ret. split; [done|]. intros a [Ha Hin]. pose proof HI as (H & Hb & _).
    destruct (filp_fbs d !! file) as [l|] eqn:El; cbn in Hin; [|by apply not_elem_of_nil in Hin].
    destruct (live_filed _ _ d a file l (bk_exact _ _ _ Hb) El Hin) as [fb E]. rewrite (Hno a Ha) in E. done.
  - intros a Hid Ha. apply fwp_bind. unfold wp at 1, reads. case_if.
    { apply negb_true_iff, bool_decide_eq_false in Heqb. apply fwp_ret. split; [done|]. intros b [Hb Hin]. congruence. }
    apply negb_false_iff, bool_decide_eq_true in Heqb.
    eapply fwp_mono; [by apply (wp_take e d file a _ HI eq_refl)|]. intros r d' (-> & ? & ? & ?). by split_and!.
Qed.

Lemma wp_release_find e d file :
  Inv e d -> wp (release_find file) (fun r d' =>
    match r with
    | None => d' = d
    | Some a => Inv (a :: e) d' /\ Kept d d' /\ a ∈ default [] (filp_fbs d !! file) /\
        filp_fbs d' = <[file := list_del a (default [] (filp_fbs d !! file))]> (filp_fbs d)
    end) d.
Proof.
  intros HI. unfold release_find. apply fwp_bind. unfold wp at 1, reads.
  destruct (default [] (filp_fbs d !! file)) as [|a l] eqn:E; [by apply fwp_ret|].
  eapply fwp_mono; [apply (wp_take e d file a _ HI E); set_solver|]. intros r d' (-> & ? & ? & ?). split_and!; [done..|set_solver|done].
Qed.

(** ** CRTCs *)

Lemma wp_find_connectors e d ids : Inv e d -> wp (find_connectors ids) (fun _ d' => d' = d) d.
Proof.
  intros HI. induction ids as [|[id|] ids IH]; cbn [find_connectors]; [done| |done].
  apply fwp_bind, wp_object_find; [by eapply Inv_ids|done|]. intros c _ _. apply fwp_bind.
  eapply fwp_mono; [exact IH|]. by intros [ret l] d' ->.
Qed.

Lemma wp_setcrtc_set e d mem num crtc r mode fb :
  Inv e d -> (forall a, fb = Some a -> a ∈ e) -> crtc ∈ crtc_list d ->
  wp (setcrtc_set mem num crtc r mode fb) (keeps e d) d.
Proof.
  intros HI Hfb Hc. unfold setcrtc_set. repeat case_if; try by apply fwp_ret.
  apply fwp_bind. eapply fwp_mono; [by apply (wp_find_connectors e)|]. intros [ret l] d' ->.
  case_if; [by apply fwp_ret|]. by apply wp_set_config.
Qed.

(** The identifier of a mode in use. *)
Definition has_mode (d0 d : device) (mode : option (Z * Z)) : Prop :=
  crtc_list d = crtc_list d0 /\ plane_list d = plane_list d0 /\ filp_fbs d = filp_fbs d0 /\
  match mode with
  | None => others d = others d0
  | Some (p, id) => others d = <[p := (ObjMode, id)]> (others d0) /\ others d0 !! p = None
  end.

Lemma Ids_mode d mem id m :
  idr_alloc mem (next d) 1 (crtc_idr d) = (id, m) -> 0 <= id -> Ids d ->
  Ids (with_next (next d + 1) (with_others (<[next d := (ObjMode, id)]> (others d)) (with_idr m d))).
Proof.
  intros Hal Hid [I1 I2 I3 I4 I5 I6 I7]. destruct (alloc_fresh _ _ _ _ _ _ Hal Hid) as [Hr Hfresh].
  destruct (I4 (next d) ltac:(lia)) as (F1 & F2 & F3 & F4). set (a := next d) in *. split; cbn.
  - intros k p. rewrite (alloc_find _ _ _ _ _ _ k Hal Hid). destruct (Z.eqb_spec k id); [lia|]. apply I1.
  - intros k p. rewrite (alloc_find _ _ _ _ _ _ k Hal Hid). unfold obj_id. cbn.
    destruct (Z.eqb_spec k id) as [->|Hk]; [intros [= <-]; by rewrite F1, F2, F3, lookup_insert_eq|].
    intros Hf. apply I2 in Hf. unfold obj_id in Hf. destruct (decide (a = p)) as [<-|]; [by rewrite F1, F2, F3, F4 in Hf|].
    by rewrite lookup_insert_ne.
  - intros b fb Hb Hn. rewrite (alloc_find _ _ _ _ _ _ _ Hal Hid). specialize (I3 b fb Hb Hn).
    destruct (Z.eqb_spec (fb_id fb) id) as [Heq|]; [rewrite Heq in I3; congruence|done].
  - intros p Hp. rewrite lookup_insert_ne by lia. apply I4. lia.
  - intros p ty i. destruct (decide (a = p)) as [<-|]; [rewrite lookup_insert_eq; intros [= <- <-]; by right|].
    rewrite lookup_insert_ne by done. apply I5.
  - intros p i. rewrite (alloc_find _ _ _ _ _ _ _ Hal Hid). destruct (decide (a = p)) as [<-|].
    + rewrite lookup_insert_eq. intros [= <-]. by rewrite Z.eqb_refl.
    + rewrite lookup_insert_ne by done. intros Hp. specialize (I6 p i Hp). destruct (Z.eqb_spec i id) as [->|]; [congruence|done].
  - intros b fb Hb. rewrite lookup_insert_ne; [by eapply I7|]. intros ->. congruence.
Qed.

Lemma Ids_unmode d p id :
  others d !! p = Some (ObjMode, id) -> Ids d ->
  Ids (with_others (delete p (others d)) (with_idr (idr_remove id (crtc_idr d)) d)).
Proof.
  intros Ep [I1 I2 I3 I4 I5 I6 I7]. pose proof (I6 p id Ep) as Hid. split; cbn.
  - intros k q. rewrite find_remove. case_if; [done|]. apply I1.
  - intros k q. rewrite find_remove. destruct (Z.eqb_spec k id) as [->|Hk]; [done|]. intros Hf. apply I2 in Hf as Ho.
    unfold obj_id in *. cbn. destruct (decide (p = q)) as [<-|]; [|by rewrite lookup_delete_ne].
    rewrite Ep in Ho. destruct (fbs d !! p), (crtcs d !! p), (planes d !! p); try done. congruence.
  - intros b fb Hb Hn. rewrite find_remove. specialize (I3 b fb Hb Hn).
    destruct (Z.eqb_spec (fb_id fb) id) as [Heq|]; [|done]. rewrite Heq, Hid in I3. injection I3 as ->. rewrite (I7 b fb Hb) in Ep. done.
  - intros q Hq. destruct (I4 q Hq) as (? & ? & ? & Ho). split_and!; try done.
    destruct (decide (p = q)) as [<-|]; [apply lookup_delete_eq|by rewrite lookup_delete_ne].
  - intros q ty i. destruct (decide (p = q)) as [<-|]; [by rewrite lookup_delete_eq|rewrite lookup_delete_ne by done; apply I5].
  - intros q i. destruct (decide (p = q)) as [<-|Hq]; [by rewrite lookup_delete_eq|]. rewrite lookup_delete_ne by done.
    intros Hi. specialize (I6 q i Hi). rewrite find_remove. destruct (Z.eqb_spec i id) as [->|]; [congruence|done].
  - intros b fb Hb. destruct (decide (p = b)) as [<-|]; [apply lookup_delete_eq|rewrite lookup_delete_ne by done; by eapply I7].
Qed.

(** Identifiers and modes are no matter of the other books. *)
Lemma Inv_ids_only e d d' :
  fbs d' = fbs d -> planes d' = planes d -> crtcs d' = crtcs d -> fb_list d' = fb_list d -> num_fb d' = num_fb d ->
  plane_list d' = plane_list d -> crtc_list d' = crtc_list d -> filp_fbs d' = filp_fbs d -> dying d' = dying d -> Ids d' ->
  Inv e d -> Inv e d'.
Proof.
  intros E1 E2 E3 E4 E5 E6 E7 E8 E9 Hi (H & [Bs Bi [L1 L2 L3 L4] Bx] & Ha). exists H. split; [|by eapply Agree_frame].
  split; [|done| |].
  - apply (Static_same d); [intros p; by rewrite E2|done..].
  - split; rewrite ?E1, ?E4, ?E5, ?E8; done.
  - intros a. specialize (Bx a). by rewrite E1, E8, E9.
Qed.

Lemma wp_mode_create e d mem mem_id :
  Inv e d -> wp (mode_create mem mem_id) (fun r d' => Inv e d' /\ has_mode d d' r /\ crtcs d' = crtcs d) d.
Proof.
  intros HI. unfold mode_create. case_if; [by apply fwp_ret|]. apply fwp_bind. unfold wp at 1, reads.
  apply fwp_bind. unfold wp at 1, drm_mode_object_get. destruct (idr_alloc mem_id (next d) 1 (crtc_idr d)) as [id m] eqn:Eal.
  destruct (Z.leb_spec 0 id) as [Hid|Hid].
  - cbn [truth Z.eqb negb]. apply fwp_bind. unfold wp at 1, modify. apply fwp_ret. split; [|split; [|done]].
    + apply (Inv_ids_only e d); try done. apply (Ids_mode d mem_id); [done|lia|by eapply Inv_ids].
    + destruct (id_next d (Inv_ids e d HI) (next d)) as (_ & _ & _ & Ho); [lia|]. by split_and!.
  - unfold truth. rewrite (proj2 (Z.eqb_neq id 0)) by lia. cbn [negb]. apply fwp_ret. split; [|done].
    rewrite (alloc_fails _ _ _ _ _ _ Eal Hid). apply (Inv_ids_only e d); try done. destruct (Inv_ids e d HI). by split.
Qed.

Lemma wp_mode_destroy e d0 d mode :
  Inv e d -> has_mode d0 d mode -> wp (drm_mode_destroy mode) (keeps e d0) d.
Proof.
  intros HI (Hc & Hp & Hf & Hm). destruct mode as [[p id]|]; [|by apply fwp_ret]. destruct Hm as [Eo En].
  unfold drm_mode_destroy. apply fwp_bind. unfold wp, modify. cbn. split.
  - apply (Inv_ids_only e d); try done. apply Ids_unmode; [by rewrite Eo, lookup_insert_eq|by eapply Inv_ids].
  - split_and!; try done. cbn. by rewrite Eo, delete_insert_id.
Qed.

Lemma has_mode_same d0 d1 d2 mode : has_mode d0 d1 mode -> Same d1 d2 -> has_mode d0 d2 mode.
Proof. intros (H1 & H2 & H3 & H4) (S1 & S2 & S3 & S4). unfold has_mode. rewrite S1, S2, S3, S4. done. Qed.

Lemma wp_setcrtc_fb e d crtc id :
  Inv e d -> is_Some (crtcs d !! crtc) ->
  wp (setcrtc_fb crtc id) (fun r d' => Inv (held r.2 ++ e) d' /\ Same d d') d.
Proof.
  intros HI [k Ek]. destruct (st_crtc d (Inv_static e d HI) crtc k Ek) as (_ & [x Ex] & _). unfold setcrtc_fb. case_if.
  - apply fwp_bind, (wp_primary_plane crtc k x); [done|done|]. destruct (p_fb x) as [a|] eqn:Ea; [|by apply fwp_ret].
    apply fwp_bind. eapply fwp_mono; [apply (wp_ref_inv e d a HI)|].
    + intros H _ Ha. destruct (ag_new _ _ _ Ha _ x Ex (not_in_nil _)) as [Hp _]. rewrite Ea in Hp. by eapply refs_shown.
    + intros [] d1 [HI1 Hs1]. by apply fwp_ret.
  - apply fwp_bind. eapply fwp_mono; [by apply (wp_lookup_inv e)|]. intros [a|] d1 (HI1 & Hs1 & _); by apply fwp_ret.
Qed.

Lemma wp_setcrtc_mode e d mem mem_id crtc a r i :
  Inv e d -> a ∈ e ->
  wp (setcrtc_mode mem mem_id crtc a r i) (fun res d' => Inv e d' /\ has_mode d d' res.1.2) d.
Proof.
  intros HI Ha. unfold setcrtc_mode. apply fwp_bind. eapply fwp_mono; [by apply (wp_mode_create e)|].
  intros [[p id]|] d1 (HI1 & Hm & Hc); [|by apply fwp_ret]. destruct (drm_crtc_convert_umode _ i) as [ret m].
  case_if; [by apply fwp_ret|]. destruct (Inv_live e d1 a HI1 Ha) as [fb E]. apply fwp_bind, (wp_fb a fb); [done|].
  apply fwp_bind. unfold wp at 1, reads. destruct (crtc_view crtc (dhw d1)) as [[cc vx] vy]. by apply fwp_ret.
Qed.

Lemma wp_setcrtc e d mem mem_id mem_set num r : Inv e d -> wp (drm_mode_setcrtc mem mem_id mem_set num r) (keeps e d) d.
Proof.
  intros HI. unfold drm_mode_setcrtc. case_if; [by apply fwp_ret|].
  apply fwp_bind, wp_object_find; [by eapply Inv_ids|by apply fwp_ret|]. intros c Hc _. specialize (Hc eq_refl).
  assert (c ∈ crtc_list d) as Hcl by (destruct Hc as [k Ek]; by apply (st_crtc d (Inv_static e d HI) c k)).
  destruct (cr_mode r) as [i|]; [|by apply wp_setcrtc_set].
  apply fwp_bind. eapply fwp_mono; [by apply (wp_setcrtc_fb e)|]. intros [ret [a|]] d1 [HI1 Hs1]; [|by apply fwp_ret].
  apply fwp_bind. eapply fwp_mono; [apply (wp_setcrtc_mode (a :: e)); [done|set_solver]|]. intros [[ret2 obj] mode] d2 [HI2 Hm2].
  cbn [fst snd] in Hm2. assert (has_mode d d2 obj) as Hm.
  { destruct Hm2 as (M1 & M2 & M3 & M4), Hs1 as (S1 & S2 & S3 & S4). unfold has_mode. rewrite <- S1, <- S2, <- S3, <- S4. done. }
  apply fwp_bind. eapply fwp_mono with (P := keeps (a :: e) d2).
  { case_if; [by apply fwp_ret|]. apply wp_setcrtc_set; [done|intros b [= <-]; set_solver|]. destruct Hm as [-> _]. done. }
  intros ret3 d3 [HI3 Hs3]. apply fwp_bind. eapply fwp_mono; [by apply wp_unref_inv|]. intros [] d4 [HI4 Hs4].
  apply fwp_bind. eapply fwp_mono; [apply (wp_mode_destroy e d d4 obj); [done|]|].
  { eapply has_mode_same; [|exact Hs4]. by eapply has_mode_same. }
  intros [] d5 Hk. by apply fwp_ret.
Qed.

(** ** Page flips *)

(** The end of a flip that the driver was asked for. *)
Lemma wp_flip_end e d c k x old a ret :
  Inv (a :: e) d -> crtcs d !! c = Some k -> planes d !! primary k = Some x -> p_fb x = Some old ->
  forall h,
  let d1 := with_hw h (with_planes (<[primary k := with_old_fb (Some old) x]> (planes d)) d) in
  wp (_ ← (if ret =? 0 then on_primary c (with_fb (Some a)) else mret tt);
      _ ← (if truth ret then _ ← on_primary c (with_old_fb None); drm_framebuffer_unreference a else mret tt);
      x ← primary_plane c;
      _ ← unreference_opt (p_old_fb x);
      _ ← on_primary c (with_old_fb None);
      mret ret) (keeps e d) d1.
Proof.
  intros (H & Hb & Ha) Ek Ex Eo h d1. set (p := primary k) in *.
  destruct (ag_new _ _ _ Ha p x Ex (not_in_nil p)) as [Hp Ho].
  assert (forall y d2, planes d2 = <[p := y]> (planes d) -> crtcs d2 = crtcs d -> Same d d2 -> p_id y = p_id x ->
    Books (<[p := p_fb y]> H) (held (p_old_fb y) ++ e) d2 ->
    wp (x ← primary_plane c; _ ← unreference_opt (p_old_fb x); _ ← on_primary c (with_old_fb None); mret ret) (keeps e d) d2) as Hend.
  { intros y d2 P2 C2 S2 Hid Hb2. apply fwp_bind, (wp_primary_plane c k y); [by rewrite C2|by rewrite P2, lookup_insert_eq|].
    apply fwp_bind. eapply fwp_mono; [by apply wp_unreference_opt|]. intros [] d3 [Hb3 F3]. pose proof F3 as (P3 & C3 & _).
    apply fwp_bind, (wp_on_primary c k y); [by rewrite C3, C2|by rewrite P3, P2, lookup_insert_eq|].
    apply fwp_ret. split; [|eapply Same_trans; [exact S2|]; by apply Frame_same in F3].
    exists (<[p := p_fb y]> H). split; [by apply (Books_plane _ _ _ _ y); [rewrite P3, P2, lookup_insert_eq|..]|].
    rewrite P3, P2, insert_insert_eq.
    apply (Agree_frame _ _ (with_planes (<[p := with_old_fb None y]> (planes d)) d)); [|done].
    apply (Agree_plane [] [] H d p x); [done|done|done|set_solver|done]. }
  assert (Books H (a :: e) d1) as Hb1.
  { apply Books_hw. by apply (Books_plane _ _ _ _ _ (with_old_fb (Some old))). }
  assert (planes d1 !! p = Some (with_old_fb (Some old) x)) as E1 by apply lookup_insert_eq.
  unfold truth. destruct (Z.eqb_spec ret 0) as [->|Hr]; cbn [negb].
  - apply fwp_bind, (wp_on_primary c k (with_old_fb (Some old) x)); [done|done|]. apply fwp_bind. apply (Hend (with_fb (Some a) (with_old_fb (Some old) x)));
      [cbn; by rewrite insert_insert_eq|done|done|done|].
    apply (Books_plane _ _ _ _ _ (with_fb (Some a))); [done|done|].
    rewrite Eo in Hp. by apply (Books_give H e d1 p (Some old) (Some a)).
  - apply fwp_bind, fwp_bind, fwp_bind, (wp_on_primary c k (with_old_fb (Some old) x)); [done|done|]. set (d2 := with_planes _ d1).
    assert (Books H (a :: e) d2) as Hb2 by (by apply (Books_plane _ _ _ _ _ (with_old_fb None))).
    eapply fwp_mono; [by apply (wp_unreference H e d2 a)|]. intros [] d3 [Hb3 F3]. pose proof F3 as (P3 & C3 & _).
    apply (Hend (with_old_fb None x)); [rewrite P3; cbn; by rewrite insert_insert_eq|by rewrite C3| |done|].
    + eapply Same_trans; [|by apply Frame_same in F3]. done.
    + cbn. rewrite insert_id; [done|]. by rewrite Hp.
Qed.

Lemma wp_page_flip e d async event crtc_id fb_id flags reserved :
  Inv e d -> wp (drm_mode_page_flip_ioctl async event crtc_id fb_id flags reserved) (keeps e d) d.
Proof.
  intros HI. unfold drm_mode_page_flip_ioctl. repeat (case_if; [by apply fwp_ret|]).
  apply fwp_bind, wp_object_find; [by eapply Inv_ids|by apply fwp_ret|]. intros c Hc _. destruct (Hc eq_refl) as [k Ek].
  destruct (st_crtc d (Inv_static e d HI) c k Ek) as (_ & [x Ex] & _).
  apply fwp_bind, (wp_primary_plane c k x); [done|done|]. destruct (p_fb x) as [old|] eqn:Eo; [|by apply fwp_ret].
  destruct page_flip as [flip|] eqn:Ef; [|by apply fwp_ret].
  apply fwp_bind. eapply fwp_mono; [by apply (wp_lookup_inv e)|]. intros [a|] d1 (HI1 & Hs1 & C1 & P1); [|by apply fwp_ret].
  cbn [held app] in HI1. destruct (Inv_live _ d1 a HI1) as [fb E]; [set_solver|]. apply fwp_bind, (wp_fb a fb); [done|].
  apply fwp_bind. unfold wp at 1, reads. destruct (crtc_view c (dhw d1)) as [[cc vx] vy].
  assert (forall r : Z, wp (_ ← drm_framebuffer_unreference a; mret r) (keeps e d) d1) as Hout.
  { intros r. apply keeps_from with (d := d); [done|]. eapply (wp_then e e); [by apply wp_unref_inv|]. intros [] d2 HI2 Hs2. by apply fwp_ret. }
  case_if; [apply Hout|]. rewrite <- P1 in Ex. rewrite <- C1 in Ek.
  destruct (Inv_shown_live _ d1 _ x old HI1 Ex Eo) as [ofb Eof]. apply fwp_bind, (wp_fb old ofb); [done|].
  case_if; [apply Hout|]. case_if; [apply Hout|].
  apply fwp_bind, (wp_on_primary c k x); [done|done|]. apply fwp_bind. unfold wp at 1, call_hw.
  destruct (flip c a flags _) as [[ret h] changed] eqn:Eflip. rewrite (page_flip_shows flip _ _ _ _ _ _ _ Ef Eflip).
  apply keeps_from with (d := d); [done|]. by apply (wp_flip_end e d1 c k x old a ret).
Qed.

(** ** Cursors *)

Lemma wp_cursor_find e d req :
  Inv e d -> wp (cursor_find req) (fun r d' => d' = d /\
    match r with
    | inl _ => True
    | inr (k, p) => k ∈ crtc_list d /\ forall q, p = Some q -> q ∈ plane_list d
    end) d.
Proof.
  intros HI. unfold cursor_find. case_if; [by apply fwp_ret|].
  apply fwp_bind, wp_object_find; [by eapply Inv_ids|by apply fwp_ret|]. intros c Hc _. destruct (Hc eq_refl) as [k Ek].
  apply fwp_bind, (wp_crtc c k); [done|]. apply fwp_ret. destruct (st_crtc d (Inv_static e d HI) c k Ek) as (Hin & _ & Hcp).
  split_and!; [done|done|]. intros q Hq. by apply (st_planes d (Inv_static e d HI)), Hcp.
Qed.

Lemma wp_cursor_old e d p req :
  Inv e d -> is_Some (planes d !! p) -> wp (cursor_old p req) (fun fb d' => Inv (held fb ++ e) d' /\ Same d d') d.
Proof.
  intros HI [x Ex]. unfold cursor_old. case_if; [by apply fwp_ret|].
  apply fwp_bind, (wp_plane p x); [done|]. apply fwp_bind. destruct (p_fb x) as [a|] eqn:Ea; [|by apply fwp_ret].
  eapply fwp_mono; [apply (wp_ref_inv e d a HI)|]; [|intros [] d1 ?; by apply fwp_ret].
  intros H _ Hag. destruct (ag_new _ _ _ Hag p x Ex (not_in_nil p)) as [Hp _]. rewrite Ea in Hp. by eapply refs_shown.
Qed.

(** The position of a cursor is no matter of the books. *)
Lemma Inv_cursor e d c k x y :
  Inv e d -> crtcs d !! c = Some k -> Inv e (with_crtcs (<[c := with_cursor x y k]> (crtcs d)) d).
Proof.
  intros (H & [[S1 S2 S3 S4 S5] [I1 I2 I3 I4 I5 I6 I7] [L1 L2 L3 L4] Bx] & Ha) Ek. exists H. split; [|by eapply Agree_frame].
  assert (forall c' k', (<[c := with_cursor x y k]> (crtcs d)) !! c' = Some k' ->
    exists k0, crtcs d !! c' = Some k0 /\ primary k' = primary k0 /\ cursor k' = cursor k0) as Hk.
  { intros c' k'. destruct (decide (c = c')) as [<-|]; [rewrite lookup_insert_eq; intros [= <-]; by exists k|].
    rewrite lookup_insert_ne by done. intros; by exists k'. }
  split; [| |by split|done].
  - split; cbn; try done.
    + intros c' k' (k0 & E0 & Hp & Hcu)%Hk. rewrite Hp, Hcu. by apply S1.
    + intros c' [k' Hk']%S2. destruct (decide (c = c')) as [<-|]; [by rewrite lookup_insert_eq|by rewrite lookup_insert_ne, Hk'].
    + intros c1 c2 k1 k2 (k3 & E3 & -> & _)%Hk (k4 & E4 & -> & _)%Hk. by apply S4.
  - split; cbn; try done.
    + intros i p Hf. apply I2 in Hf. unfold obj_id in *. cbn. destruct (fbs d !! p); [done|].
      destruct (decide (c = p)) as [<-|]; [by rewrite lookup_insert_eq, Ek in *|by rewrite lookup_insert_ne].
    + intros p Hp. destruct (I4 p Hp) as (? & Hc & ? & ?). split_and!; try done. rewrite lookup_insert_ne; [done|]. congruence.
Qed.

Lemma wp_cursor_update e d c p fb req :
  Inv (held fb ++ e) d -> c ∈ crtc_list d -> p ∈ plane_list d -> wp (cursor_update c p fb req) (keeps e d) d.
Proof.
  intros HI Hc Hp. destruct (st_list d (Inv_static _ d HI) c Hc) as [k Ek]. unfold cursor_update.
  apply fwp_bind, (wp_crtc c k); [done|]. destruct (if truth _ then _ else _) as [cx cy].
  apply fwp_bind. apply fwp_mono with (fun _ d' => d' = d).
  { destruct fb as [a|]; [|by apply fwp_ret]. destruct (Inv_live _ d a HI) as [fb E]; [set_solver|].
    apply fwp_bind, (wp_fb a fb); [done|]. by apply fwp_ret. }
  intros [w h] d2 ->. apply fwp_bind. eapply fwp_mono; [apply (wp_setplane e d p (Some c) fb _ HI)|].
  { by apply (st_planes d (Inv_static _ d HI)). }
  { intros a _. exists c. split; [done|]. by rewrite Ek. }
  intros ret d3 [HI3 Hs3]. destruct (st_list d3 (Inv_static e d3 HI3) c) as [k3 Ek3]; [by rewrite (proj1 Hs3)|].
  apply fwp_bind. case_if; [|by apply fwp_ret]. apply fwp_bind, (wp_crtc c k3); [done|]. apply fwp_ret.
  split; [by apply Inv_cursor|done].
Qed.

Lemma wp_cursor_legacy e d k req : Inv e d -> wp (cursor_legacy k req) (keeps e d) d.
Proof.
  intros HI. unfold cursor_legacy. apply fwp_bind. apply fwp_mono with (keeps e d).
  { case_if; [|by apply fwp_ret]. destruct cursor_set2 as [f|]; [|destruct cursor_set as [f|]; [|by apply fwp_ret]].
    all: eapply (wp_then e e); [by apply wp_hw_keeps|]; intros r d' HI' Hs'; by apply fwp_ret. }
  intros [go ret] d1 [HI1 Hs1]. case_if; [|by apply fwp_ret]. destruct cursor_move; [|by apply fwp_ret].
  apply keeps_from with (d := d); [done|]. by apply wp_hw_keeps.
Qed.

(** ** Readers of a framebuffer *)

Lemma wp_getfb_answer e d privileged a : Inv e d -> a ∈ e -> wp (getfb_answer privileged a) (keeps e d) d.
Proof.
  intros HI Ha. destruct (Inv_live e d a HI Ha) as [fb E]. apply fwp_bind, (wp_fb a fb); [done|].
  destruct fb_create_handle; [|by apply fwp_ret]. case_if; [|by apply fwp_ret].
  eapply (wp_then e e); [by apply wp_hw_keeps|]. intros [ret h] d' HI' Hs'. by apply fwp_ret.
Qed.

Lemma wp_dirtyfb_answer e d mem readable clips a flags num :
  Inv e d -> wp (dirtyfb_answer mem readable clips a flags num) (keeps e d) d.
Proof.
  intros HI. unfold dirtyfb_answer. case_if; [by apply fwp_ret|]. case_if; [by apply fwp_ret|].
  case_if; [by apply fwp_ret|]. destruct fb_dirty; [|by apply fwp_ret]. by apply wp_hw_keeps.
Qed.

(** ** The console *)

(** The configurations of the console: its framebuffers are held, its CRTCs exist. *)
Definition sets_ok (sets : list drm_mode_set) e d : Prop :=
  Forall (fun set => (forall a, set_fb set = Some a -> a ∈ e) /\ set_crtc_ptr set ∈ crtc_list d) sets.

(** What a plane other than the primary ones shows is also held by a file or a call. *)
Definition owned e d : Prop :=
  forall p x a, planes d !! p = Some x -> p_type x <> DRM_PLANE_TYPE_PRIMARY -> p_fb x = Some a ->
    a ∈ e \/ exists f l, filp_fbs d !! f = Some l /\ a ∈ l.

Lemma owned_refs H e d p x a :
  Agree [] H d -> owned e d -> planes d !! p = Some x -> p_type x <> DRM_PLANE_TYPE_PRIMARY -> p_fb x = Some a ->
  1 < refs H e (filp_fbs d) a.
Proof.
  intros Ha Ho Ex Ht Ea. destruct (ag_new _ _ _ Ha p x Ex (not_in_nil p)) as [Hp _]. rewrite Ea in Hp.
  destruct (Ho p x a Ex Ht Ea) as [He|(f & l & El & Hl)]; [by apply (refs_two H e d p)|].
  unfold refs. pose proof (count_ge (shows a) H p (Some a) Hp) as Hc. rewrite shows_refl in Hc. cbn in Hc.
  pose proof (msum_ge (occ a) (filp_fbs d) f l (occ_nonneg a) El). apply occ_pos in Hl. pose proof (occ_nonneg a e). lia.
Qed.

Lemma owned_loses e d d' : owned e d -> Loses d d' -> owned e d'.
Proof.
  intros Ho [Hf Hl] p x' a Ex Ht Ea. destruct (Hl p x' Ex) as (x & Ex0 & Et & Efb). rewrite Hf.
  apply (Ho p x a Ex0); [congruence|]. destruct Efb; congruence.
Qed.

Lemma wp_restore_crtcs e d sets : Inv e d -> sets_ok sets e d -> wp (restore_crtcs sets) (keeps e d) d.
Proof.
  revert d. induction sets as [|set sets IH]; intros d HI Hok; cbn [restore_crtcs]; [by apply fwp_ret|].
  apply Forall_cons in Hok as [[Hfb Hc] Hok].
  eapply (wp_then e e). { destruct cursor_set; [by apply wp_hw_keeps|by apply fwp_ret]. }
  intros ret1 d1 HI1 Hs1. eapply (wp_then e e). { apply wp_set_config; [done|done|by rewrite (proj1 Hs1)]. }
  intros ret2 d2 HI2 Hs2. eapply (wp_then e e).
  { apply IH; [done|]. unfold sets_ok. destruct Hs1 as [E1 _], Hs2 as [E2 _]. by rewrite E2, E1. }
  intros err d3 HI3 Hs3. by apply fwp_ret.
Qed.

Lemma wp_restore e d sets :
  Inv e d -> owned e d -> sets_ok sets e d -> wp (restore_fbdev_mode sets) (keeps e d) d.
Proof.
  intros HI Ho Hok. unfold restore_fbdev_mode. apply fwp_bind. unfold wp at 1, reads. apply fwp_bind.
  eapply fwp_mono; [apply (wp_each _ (fun rest d' => (forall p, p ∈ rest -> p ∈ plane_list d) /\ Inv e d' /\ Same d d' /\ owned e d'))|].
  { by split_and!. }
  { intros p rest d1 (Hr & HI1 & Hs1 & Ho1).
    destruct (proj1 (st_planes d1 (Inv_static e d1 HI1) p)) as [x Ex]; [rewrite (proj1 (proj2 Hs1)); apply Hr; set_solver|].
    unfold restore_plane. apply fwp_bind, (wp_plane p x); [done|]. apply fwp_bind. apply fwp_mono with (fun _ d' => Inv e d' /\ Same d1 d' /\ Loses d1 d').
    - case_if; [apply fwp_ret; split_and!; try done; apply Loses_refl|]. apply bool_decide_eq_false in Heqb.
      apply (wp_force_disable e d1 p x); [done|done|]. intros H a _ Ha Ea. by apply (owned_refs H e d1 p x a).
    - intros [] d2 (HI2 & Hs2 & Hl2). assert (Same d d2) by (by eapply Same_trans). pose proof (owned_loses e d1 d2 Ho1 Hl2).
      destruct reset_rotation as [f|]; [|apply fwp_ret; split; [set_solver|done]].
      apply wp_hw. intros [] h. split; [set_solver|]. split; [by apply Inv_hw|done]. }
  intros [] d1 (_ & HI1 & Hs1 & _). apply keeps_from with (d := d); [done|]. apply wp_restore_crtcs; [done|].
  unfold sets_ok. by rewrite (proj1 Hs1).
Qed.

End fb_calls.
