(* ===== verification/DrmFbSys.v ===== *)
(** * Threads that work with framebuffers

    A call is a sequence of parts, each under the locks of mode setting, of the
    identifiers or of a file's list, and the parts of the calls of several threads
    interleave.  A part yields the parts that follow it.  The release of a framebuffer
    whose count dropped to 0 is made of steps of its own ([Reap]), which may come at any
    time after the part that dropped it.  [lost] records the references that
    [drm_mode_setplane] took and did not return; [private] those of the kernel's own
    framebuffers. *)

From S2P Require Import Prelude Counting Idr DrmRect DrmModes DrmFormats DrmPlane DrmFb DrmFbInv DrmFbOps DrmFbCalls.

Section fb_sys.
Context {FO : fourcc_h} {RH : drm_rect_h} {PH : drm_plane_h} {MH : drm_modes_h} {IO : idr_ops} {ME : mode_env}.

Inductive part :=
| Internal (p : Z) (crtc fb : option Z) (q : plane_rects)
| Remove (a : Z)
| RemoveLocked (a : Z)
| Unref (a : Z)
| Release (file : Z)
| FileFb (file a : Z) (cursor : option (Z * Z * drm_mode_cursor2))
| CursorCreate (limits : fb_limits) (mem : bool) (file k p : Z) (req : drm_mode_cursor2)
| CursorRef (file k p a : Z) (req : drm_mode_cursor2)
| CursorUpdate (k p a : Z) (req : drm_mode_cursor2)
| CursorOld (k p : Z) (req : drm_mode_cursor2)
| CursorLegacy (k : Z) (req : drm_mode_cursor2)
| Answer (privileged : bool) (a : Z)
| Dirty (mem readable clips : bool) (a flags num_clips : Z).

Definition run_part (c : part) : md (list part) :=
  match c with
  | Internal p crtc fb q => _ ← __setplane_internal p crtc fb q; mret []
  | Remove a => fb ← the_fb a; mret (if 1 <? refcount fb then [RemoveLocked a] else [Unref a])
  | RemoveLocked a => _ ← remove_locked a; mret [Unref a]
  | Unref a => _ ← drm_framebuffer_unreference a; mret []
  | Release file =>
      fb ← release_find file;
      mret match fb with None => [] | Some a => [Remove a; Release file] end
  | FileFb file a cursor =>
      _ ← add_file file a;
      mret match cursor with None => [] | Some (k, p, req) => [CursorRef file k p a req] end
  | CursorCreate limits mem file k p req =>
      fb ← add_create limits mem file (cursor_request req);
      mret match fb with inl _ => [] | inr a => [FileFb file a (Some (k, p, req))] end
  | CursorRef file k p a req => _ ← drm_framebuffer_reference a; mret [CursorUpdate k p a req]
  | CursorUpdate k p a req => _ ← cursor_update k p (Some a) req; mret []
  | CursorOld k p req => fb ← cursor_old p req; _ ← cursor_update k p fb req; mret []
  | CursorLegacy k req => _ ← cursor_legacy k req; mret []
  | Answer privileged a => _ ← getfb_answer privileged a; mret [Unref a]
  | Dirty mem readable clips a flags n => _ ← dirtyfb_answer mem readable clips a flags n; mret [Unref a]
  end.

(** The calls of user space and of the kernel. *)
Inductive call :=
| Addfb (limits : fb_limits) (mem : bool) (file : Z) (or : drm_mode_fb_cmd)
| Addfb2 (limits : fb_limits) (mem : bool) (file : Z) (r : drm_mode_fb_cmd2)
| Rmfb (file id : Z)
| Setplane (plane_id fb_id crtc_id : Z) (q : plane_rects)
| Setcrtc (mem mem_id mem_set : bool) (num_connector : Z) (r : drm_mode_crtc)
| PageFlip (async : bool) (event crtc_id fb_id flags reserved : Z)
| Cursor (limits : fb_limits) (mem : bool) (file : Z) (req : drm_mode_cursor2)
| Getfb (privileged : bool) (id : Z)
| Dirtyfb (mem readable clips : bool) (id flags num_clips : Z)
| Close (file : Z)
| Restore (sets : list drm_mode_set)
| Private (mem : bool) (l : fb_layout).

(** The first part of a call: what follows, the references that it loses, and the
    framebuffer it makes for the kernel. *)
Definition start (c : call) : md (list part * list Z * list Z) :=
  match c with
  | Addfb limits mem file or =>
      fb ← add_create limits mem file (addfb_request or);
      mret (match fb with inl _ => [] | inr a => [FileFb file a None] end, [], [])
  | Addfb2 limits mem file r =>
      fb ← add_create limits mem file r;
      mret (match fb with inl _ => [] | inr a => [FileFb file a None] end, [], [])
  | Rmfb file id => fb ← rmfb_find file id; mret (match fb with None => [] | Some a => [Remove a] end, [], [])
  | Setplane plane_id fb_id crtc_id q =>
      '(ret, p, crtc, fb) ← setplane_find plane_id fb_id crtc_id q;
      mret (if truth ret then ([], match fb with None => [] | Some a => [a] end, []) else ([Internal p crtc fb q], [], []))
  | Setcrtc mem mem_id mem_set n r => _ ← drm_mode_setcrtc mem mem_id mem_set n r; mret ([], [], [])
  | PageFlip async event crtc_id fb_id flags reserved =>
      _ ← drm_mode_page_flip_ioctl async event crtc_id fb_id flags reserved; mret ([], [], [])
  | Cursor limits mem file req =>
      crtc ← cursor_find req;
      mret (match crtc with
            | inl _ => []
            | inr (k, None) => [CursorLegacy k req]
            | inr (k, Some p) => if cursor_new req then [CursorCreate limits mem file k p req] else [CursorOld k p req]
            end, [], [])
  | Getfb privileged id =>
      fb ← drm_framebuffer_lookup id; mret (match fb with None => [] | Some a => [Answer privileged a] end, [], [])
  | Dirtyfb mem readable clips id flags n =>
      fb ← drm_framebuffer_lookup id;
      mret (match fb with None => [] | Some a => [Dirty mem readable clips a flags n] end, [], [])
  | Close file => mret ([Release file], [], [])
  | Restore sets => _ ← restore_fbdev_mode sets; mret ([], [], [])
  | Private mem l =>
      a ← reads next;
      _ ← modify (with_next (a + 1));
      _ ← drm_framebuffer_init mem a l;
      mret ([], [], [a])
  end.

Record sys := MkSys { dev : device; threads : list (list part); lost : list Z; private : list Z }.

(** A call starts, a thread runs its next part, or the release of a framebuffer makes
    its next step. *)
Inductive event := Start (c : call) | Run (i : nat) | Reap (a : Z).

Definition exec (s : sys) (ev : event) : run sys :=
  match ev with
  | Start c =>
      match start c (dev s) with
      | Done (parts, l, new, d) => Done (MkSys d (parts :: threads s) (l ++ lost s) (new ++ private s))
      | Oops => Oops | Loops => Loops
      end
  | Run i =>
      match threads s !! i with
      | Some (c :: rest) =>
          match run_part c (dev s) with
          | Done (parts, d) => Done (MkSys d (<[i := parts ++ rest]> (threads s)) (lost s) (private s))
          | Oops => Oops | Loops => Loops
          end
      | _ => Done s
      end
  | Reap a =>
      if bool_decide (a ∈ dying (dev s)) then
        match reap a (dev s) with
        | Done (_, d) => Done (MkSys d (threads s) (lost s) (private s))
        | Oops => Oops | Loops => Loops
        end
      else Done s
  end.

(** ** References in the hands of threads *)

Definition part_refs (c : part) : list Z :=
  match c with
  | Internal _ _ fb _ => held fb
  | Remove a | RemoveLocked a | Unref a | FileFb _ a _ | CursorUpdate _ _ a _ | Answer _ a | Dirty _ _ _ a _ _ => [a]
  | _ => []
  end.

Definition thread_refs (l : list part) : list Z := mjoin (part_refs <$> l).
Definition hands (s : sys) : list Z := mjoin (thread_refs <$> threads s) ++ lost s ++ private s.

(** What a part of a plane's update relies on. *)
Definition part_ok (d : device) (c : part) : Prop :=
  match c with
  | Internal p crtc fb _ => p ∈ plane_list d /\ (forall a, fb = Some a -> exists c, crtc = Some c /\ c ∈ crtc_list d)
  | FileFb _ _ (Some (k, p, _)) | CursorCreate _ _ _ k p _ | CursorRef _ k p _ _ | CursorUpdate k p _ _ | CursorOld k p _ =>
      k ∈ crtc_list d /\ p ∈ plane_list d
  | _ => True
  end.

(** The framebuffers that are about to be put on the list of a file. *)
Definition to_file (c : part) : list Z := match c with FileFb _ a _ => [a] | _ => [] end.
Definition thread_files (l : list part) : list Z := mjoin (to_file <$> l).
Definition filing (s : sys) : list Z := mjoin (thread_files <$> threads s).

(** ** Which steps may be made

    An identifier is left when a framebuffer is created; the framebuffer that the cursor
    call has just put on the file's list is still there when the call takes its
    reference; and the console is restored only while everything that an overlay or a
    cursor shows has another holder, with framebuffers of the kernel's own.  On the other
    paths the code is wrong ([fb_init_failure_crashes], [cursor_race_uses_freed],
    [restore_hits_bug]). *)
Definition part_allowed (d : device) (c : part) : Prop :=
  match c with
  | CursorCreate _ mem _ _ _ _ => ids_left mem d
  | CursorRef file _ _ a _ => a ∈ default [] (filp_fbs d !! file)
  | _ => True
  end.

Definition event_ok (s : sys) (ev : event) : Prop :=
  match ev with
  | Start (Addfb _ mem _ _) | Start (Addfb2 _ mem _ _) | Start (Private mem _) => ids_left mem (dev s)
  | Start (Restore sets) =>
      owned (hands s) (dev s) /\
      Forall (fun set => (forall a, set_fb set = Some a -> a ∈ private s) /\ set_crtc_ptr set ∈ crtc_list (dev s)) sets
  | Run i => match threads s !! i with Some (c :: _) => part_allowed (dev s) c | _ => True end
  | _ => True
  end.

(** A device that was just set up: no framebuffers, and nothing is shown. *)
Record booted (d : device) : Prop := {
  bo_static : Static d;
  bo_ids : Ids d;
  bo_fbs : fbs d = ∅;
  bo_list : fb_list d = [] /\ num_fb d = 0;
  bo_files : filp_fbs d = ∅;
  bo_dying : dying d = ∅;
  bo_dark p x : planes d !! p = Some x -> p_fb x = None /\ p_old_fb x = None;
}.

Inductive reachable : sys -> Prop :=
| reach_boot d : booted d -> reachable (MkSys d [] [] [])
| reach_step s ev s' : reachable s -> event_ok s ev -> exec s ev = Done s' -> reachable s'.

End fb_sys.
