(* ===== verification/DrmFbProps.v ===== *)
(** * Theorems on framebuffers

    Over all interleavings of calls: every count is the number of holders, no freed
    framebuffer is used and no [BUG] is hit; removal; the runs on which references are
    lost, the kernel's [BUG] is hit, or a list is corrupted. *)

From S2P Require Import Prelude Counting Idr DrmRect DrmRectProps DrmModes DrmFormats DrmFormatsProps DrmPlane DrmPlaneProps DrmFb DrmFbInv DrmFbOps DrmFbCalls DrmFbSys.

Section fb_props.
Context {FO : fourcc_h} {RH : drm_rect_h} {PH : drm_plane_h} {MH : drm_modes_h} {IO : idr_ops} {IL : idr_laws}
  {ME : mode_env} {ML : mode_laws}.

(** ** Lemmas *)

Lemma occ_app a l1 l2 : occ a (l1 ++ l2) = occ a l1 + occ a l2.
Proof. apply lsum_app. Qed.

Lemma Inv_occ e e' d : (forall a, occ a e = occ a e') -> Inv e d -> Inv e' d.
Proof. intros Ho (H & Hb & Ha). exists H. split; [|done]. eapply Books_move; [done|]. intros a. by rewrite Ho. Qed.

Lemma occ_mjoin {A} (f : A -> list Z) a l : occ a (mjoin (f <$> l)) = lsum (fun t => occ a (f t)) l.
Proof. induction l as [|t l IH]; [done|]. change (mjoin (f <$> t :: l)) with (f t ++ mjoin (f <$> l)). rewrite occ_app, IH. done. Qed.

Lemma lsum_insert {A} (w : A -> Z) l i t t' : l !! i = Some t -> lsum w (<[i := t']> l) = lsum w l - w t + w t'.
Proof.
  revert i. induction l as [|x l IH]; intros [|i] E; try done.
  - injection E as ->. cbn. lia.
  - change (<[S i := t']> (x :: l)) with (x :: <[i := t']> l). cbn [lsum]. rewrite (IH i E). lia.
Qed.

Lemma occ_hands a s : occ a (hands s) = lsum (fun t => occ a (thread_refs t)) (threads s) + occ a (lost s) + occ a (private s).
Proof. unfold hands. rewrite !occ_app, occ_mjoin. lia. Qed.

Lemma thread_refs_cons c l : thread_refs (c :: l) = part_refs c ++ thread_refs l.
Proof. done. Qed.

Lemma thread_refs_app l1 l2 a : occ a (thread_refs (l1 ++ l2)) = occ a (thread_refs l1) + occ a (thread_refs l2).
Proof. induction l1 as [|c l IH]; [done|]. cbn [app]. rewrite !thread_refs_cons, !occ_app. lia. Qed.

Lemma part_ok_kept d d' c : Kept d d' -> part_ok d c -> part_ok d' c.
Proof. intros (S1 & S2 & _). destruct c as [| | | | |? ? [[[? ?] ?]|]| | | | | | |]; cbn; rewrite ?S1, ?S2; done. Qed.

(** ** The lists of the files *)

(** How often a framebuffer is on a list of a file or about to be put there. *)
Definition files_of (l : list part) (a : Z) (d : device) : Z := occ a (thread_files l) + msum (occ a) (filp_fbs d).

Lemma thread_files_app l1 l2 a : occ a (thread_files (l1 ++ l2)) = occ a (thread_files l1) + occ a (thread_files l2).
Proof. unfold thread_files. rewrite fmap_app, join_app. apply occ_app. Qed.

Lemma msum_list (m : gmap Z (list Z)) f l a :
  msum (occ a) (<[f := l]> m) = msum (occ a) m - occ a (default [] (m !! f)) + occ a l.
Proof. rewrite msum_insert. by destruct (m !! f). Qed.

Lemma occ_list_del_le a b l : occ b (list_del a l) <= occ b l.
Proof.
  unfold list_del. induction l as [|x l IH]; [done|]. rewrite filter_cons. case_decide; rewrite ?occ_cons; pose proof (b2z_nonneg (b =? x)); lia.
Qed.

Lemma msum_taken d (m : gmap Z (list Z)) f x a :
  filp_fbs d = <[f := list_del x (default [] (m !! f))]> m -> msum (occ a) (filp_fbs d) <= msum (occ a) m.
Proof. intros ->. rewrite msum_list. pose proof (occ_list_del_le x a (default [] (m !! f))). lia. Qed.

(** Only a framebuffer that is new gets closer to a list. *)
Definition refiled (l l' : list part) d d' : Prop :=
  forall a, files_of l' a d' <= files_of l a d + b2z (bool_decide (fbs d !! a = None)).

Lemma refiled_same l l' d d' : Same d d' -> thread_files l' = [] -> refiled l l' d d'.
Proof.
  intros (_ & _ & _ & Ef) Hl a. unfold files_of. rewrite Ef, Hl. pose proof (occ_nonneg a (thread_files l)).
  pose proof (b2z_nonneg (bool_decide (fbs d !! a = None))). change (occ a []) with 0. lia.
Qed.

Lemma refiled_new l x d d' file cur : Same d d' -> fbs d !! x = None -> thread_files l = [] -> refiled l [FileFb file x cur] d d'.
Proof.
  intros (_ & _ & _ & Ef) Hx Hl a. unfold files_of. rewrite Ef, Hl. change (thread_files [FileFb file x cur]) with [x]. rewrite occ_cons.
  destruct (Z.eqb_spec a x) as [->|]; [rewrite bool_decide_eq_true_2 by done; cbn; lia|].
  pose proof (b2z_nonneg (bool_decide (fbs d !! a = None))). cbn. lia.
Qed.

Lemma refiled_taken l l' x d d' file :
  filp_fbs d' = <[file := list_del x (default [] (filp_fbs d !! file))]> (filp_fbs d) -> thread_files l' = [] -> refiled l l' d d'.
Proof.
  intros Ef Hl a. unfold files_of. rewrite Hl. pose proof (msum_taken d' (filp_fbs d) file x a Ef). pose proof (occ_nonneg a (thread_files l)).
  pose proof (b2z_nonneg (bool_decide (fbs d !! a = None))). change (occ a []) with 0. lia.
Qed.

Lemma refiled_filed x d d' file cur l' :
  filp_fbs d' = <[file := x :: default [] (filp_fbs d !! file)]> (filp_fbs d) -> thread_files l' = [] -> refiled [FileFb file x cur] l' d d'.
Proof.
  intros Ef Hl a. unfold files_of. rewrite Ef, Hl, msum_list. change (thread_files [FileFb file x cur]) with [x]. rewrite !occ_cons.
  pose proof (b2z_nonneg (bool_decide (fbs d !! a = None))). change (occ a []) with 0. lia.
Qed.

(** ** Parts *)

Definition part_post e d c (parts : list part) d' : Prop :=
  Inv (thread_refs parts ++ e) d' /\ Kept d d' /\ Forall (part_ok d') parts /\ refiled [c] parts d d'.

(** A part after which the lists of the files are as before. *)
Lemma part_same e d c parts d' :
  Inv (thread_refs parts ++ e) d' -> Same d d' -> Forall (part_ok d') parts -> thread_files parts = [] -> part_post e d c parts d'.
Proof. intros HI Hs Hp Hf. split_and!; [done|by apply Same_kept|done|by apply refiled_same]. Qed.

Lemma part_keeps {A} e d c (m : md A) : wp m (keeps e d) d -> wp (_ ← m; mret []) (part_post e d c) d.
Proof. intros Hm. apply fwp_bind. eapply fwp_mono; [exact Hm|]. intros r d' [HI Hs]. apply fwp_ret. by apply part_same. Qed.

Lemma part_unref {A} e d c a (m : md A) : wp m (keeps (a :: e) d) d -> wp (_ ← m; mret [Unref a]) (part_post e d c) d.
Proof.
  intros Hm. apply fwp_bind. eapply fwp_mono; [exact Hm|]. intros r d' [HI Hs]. apply fwp_ret.
  apply part_same; [done|done|by repeat constructor|done].
Qed.

Lemma part_file e d file a cur :
  Inv (a :: e) d -> part_ok d (FileFb file a cur) -> files_of [FileFb file a cur] a d <= 1 ->
  wp (run_part (FileFb file a cur)) (part_post e d (FileFb file a cur)) d.
Proof.
  intros HI Hok Hf. unfold files_of in Hf. change (thread_files [FileFb file a cur]) with [a] in Hf.
  rewrite occ_cons, Z.eqb_refl in Hf. change (occ a []) with 0 in Hf. cbn [b2z] in Hf.
  pose proof (msum_nonneg (occ a) (filp_fbs d) (occ_nonneg a)).
  cbn [run_part]. apply fwp_bind. eapply fwp_mono; [apply (wp_add_file e d file a HI); lia|].
  intros id d' (HI' & Hk & Ef). apply fwp_ret. pose proof Hk as (E1 & E2 & _).
  destruct cur as [[[k p] req]|]; (split_and!; [done|done| |by eapply refiled_filed]); [|constructor].
  apply Forall_singleton. cbn. by rewrite E1, E2.
Qed.

Lemma filed_counts e d a file : Inv e d -> a ∈ default [] (filp_fbs d !! file) -> forall H, 0 < refs H e (filp_fbs d) a.
Proof.
  intros HI Hin H. destruct (filp_fbs d !! file) as [l|] eqn:El; cbn in Hin; [|by apply not_elem_of_nil in Hin].
  by eapply refs_filed.
Qed.

Lemma wp_part e d c :
  Inv (part_refs c ++ e) d -> part_ok d c -> part_allowed d c -> (forall a, files_of [c] a d <= 1) ->
  wp (run_part c) (part_post e d c) d.
Proof.
  intros HI Hok Hal Hf. destruct c as [p crtc fb q|a|a|a|file|file a cur|limits mem file k p req|file k p a req|k p a req|k p req|k req|privileged a|mem readable clips a flags n];
    cbn [run_part part_refs app] in *.
  - destruct Hok as [Hp Hc]. apply part_keeps. apply wp_setplane; [done|by apply (st_planes d (Inv_static _ d HI))|].
    intros a Ea. destruct (Hc a Ea) as (c & -> & Hcl). exists c. split; [done|]. by apply (st_list d (Inv_static _ d HI)).
  - destruct (Inv_live _ d a HI) as [fb E]; [set_solver|]. apply fwp_bind, (wp_fb a fb); [done|]. apply fwp_ret.
    by case_if; apply part_same; try done; repeat constructor.
  - apply part_unref. eapply fwp_mono; [apply (wp_remove_locked (a :: e)); [done|set_solver]|]. by intros [] d' (HI' & Hs & _).
  - apply part_keeps. by apply wp_unref_inv.
  - apply fwp_bind. eapply fwp_mono; [by apply (wp_release_find e)|].
    intros [a|] d'; [|intros ->; apply fwp_ret; by apply part_same].
    intros (HI' & Hk & _ & Ef). apply fwp_ret. split_and!; [done|done|by repeat constructor|by eapply refiled_taken].
  - by apply part_file.
  - apply fwp_bind. eapply fwp_mono; [by apply (wp_add_create e)|]. intros [ret|a] d' (Hs & HI').
    + apply fwp_ret. by apply part_same.
    + destruct HI' as [HI' Ha]. apply fwp_ret. split_and!; [done|by apply Same_kept| |by apply refiled_new].
      apply Forall_singleton. cbn. by destruct Hs as (-> & -> & _).
  - apply fwp_bind. eapply fwp_mono; [apply (wp_ref_inv e d a HI); intros H _ _; by eapply filed_counts|].
    intros [] d' [HI' Hs]. apply fwp_ret. apply part_same; [done|done| |done].
    apply Forall_singleton. cbn. by destruct Hs as (-> & -> & _).
  - apply part_keeps. by apply wp_cursor_update; destruct Hok.
  - destruct Hok as [Hk Hp]. apply fwp_bind. eapply fwp_mono; [apply (wp_cursor_old e d p req HI); by apply (st_planes d (Inv_static _ d HI))|].
    intros fb d1 [HI1 Hs1]. pose proof Hs1 as (E1 & E2 & _). rewrite <- E1 in Hk. rewrite <- E2 in Hp.
    apply fwp_bind. eapply fwp_mono; [by apply (wp_cursor_update e d1 k p fb req HI1)|].
    intros ret d2 [HI2 Hs2]. apply fwp_ret. apply part_same; [done|by eapply Same_trans|done|done].
  - apply part_keeps. by apply wp_cursor_legacy.
  - apply part_unref. apply (wp_getfb_answer (a :: e)); [done|set_solver].
  - apply part_unref. by apply (wp_dirtyfb_answer (a :: e)).
Qed.

(** ** Calls *)

Definition call_post e d (r : list part * list Z * list Z) d' : Prop :=
  let '(parts, l, new) := r in
  Inv (thread_refs parts ++ l ++ new ++ e) d' /\ Kept d d' /\ Forall (part_ok d') parts /\ refiled [] parts d d'.

Lemma call_same e d parts l new d' :
  Inv (thread_refs parts ++ l ++ new ++ e) d' -> Same d d' -> Forall (part_ok d') parts -> thread_files parts = [] ->
  call_post e d (parts, l, new) d'.
Proof. intros HI Hs Hp Hf. split_and!; [done|by apply Same_kept|done|by apply refiled_same]. Qed.

Lemma call_keeps {A} e d (c : md A) :
  wp c (keeps e d) d -> wp (_ ← c; mret ([], [], [])) (call_post e d) d.
Proof. intros Hc. apply fwp_bind. eapply fwp_mono; [exact Hc|]. intros r d' [HI Hs]. apply fwp_ret. by apply call_same. Qed.

Lemma call_lookup e d id (f : Z -> part) :
  Inv e d -> (forall a, part_refs (f a) = [a] /\ to_file (f a) = [] /\ forall d', part_ok d' (f a)) ->
  wp (fb ← drm_framebuffer_lookup id; mret (match fb with None => [] | Some a => [f a] end, [], [])) (call_post e d) d.
Proof.
  intros HI Hf. apply fwp_bind. eapply fwp_mono; [by apply wp_lookup_inv|]. intros [a|] d' (HI' & Hs & _); apply fwp_ret; [|by apply call_same].
  destruct (Hf a) as (Hr & Ht & Hp). apply call_same; [|done|repeat constructor; apply Hp|].
  - unfold thread_refs. cbn. by rewrite Hr.
  - unfold thread_files. cbn. by rewrite Ht.
Qed.

Lemma call_create e d limits mem file r :
  Inv e d -> ids_left mem d ->
  wp (fb ← add_create limits mem file r; mret (match fb with inl _ => [] | inr a => [FileFb file a None] end, [], []))
    (call_post e d) d.
Proof.
  intros HI Hl. apply fwp_bind. eapply fwp_mono; [by apply (wp_add_create e)|]. intros [ret|a] d' (Hs & HI').
  - apply fwp_ret. by apply call_same.
  - destruct HI' as [HI' Ha]. apply fwp_ret. split_and!; [done|by apply Same_kept|by repeat constructor|by apply refiled_new].
Qed.

Lemma wp_private e d mem l :
  Inv e d -> ids_left mem d -> wp (start (Private mem l)) (call_post e d) d.
Proof.
  intros HI Hleft. pose proof HI as (H & Hb & Ha).
  unfold ids_left in Hleft. destruct (idr_alloc mem (next d) 1 (crtc_idr d)) as [id m] eqn:Eal. cbn in Hleft.
  cbn [start]. apply fwp_bind. unfold wp at 1, reads. apply fwp_bind. unfold wp at 1, modify. apply fwp_bind.
  unfold drm_framebuffer_init. apply fwp_bind. unfold wp at 1, set_the_fb, modify. apply fwp_bind.
  unfold wp at 1, drm_mode_object_get. cbn [crtc_idr with_fbs with_next with_hw]. rewrite Eal.
  rewrite (proj2 (Z.leb_le 0 id)) by lia. apply fwp_bind. cbn [truth Z.eqb negb].
  apply fwp_bind. unfold wp at 1, set_the_fb, modify. unfold wp at 1, modify. apply fwp_ret, fwp_ret. set (d' := with_list _ _ _).
  assert (fbs d' = <[next d := MkFb 1 id l]> (fbs d)) as Ef by (cbn; by rewrite insert_insert_eq).
  apply call_same; [|done|constructor|done]. exists H. split; [by eapply (Books_new H e d d' mem id m)|by eapply Agree_frame].
Qed.

Lemma wp_start s c : Inv (hands s) (dev s) -> event_ok s (Start c) -> wp (start c) (call_post (hands s) (dev s)) (dev s).
Proof.
  intros HI Hok. destruct c; cbn [start event_ok] in *.
  - by apply call_create.
  - by apply call_create.
  - apply fwp_bind. eapply fwp_mono; [by apply (wp_rmfb_find (hands s))|]. intros [a|] d'.
    + intros (HI' & Hk & _ & Ef). apply fwp_ret. split_and!; [done|done|by repeat constructor|by eapply refiled_taken].
    + intros [-> _]. apply fwp_ret. by apply call_same.
  - apply fwp_bind. eapply fwp_mono; [by apply wp_setplane_find|]. intros [[[ret p] crtc] fb] d' (HI' & Hs & Hret). apply fwp_ret.
    unfold truth. destruct (Z.eqb_spec ret 0) as [->|Hr]; cbn [negb].
    + destruct (Hret eq_refl) as [Hp Hc]. apply call_same; [by destruct fb|done| |done]. repeat constructor.
      * by apply (st_planes d' (Inv_static _ d' HI')).
      * intros a Ea. destruct (Hc a Ea) as (c & -> & k & Ek). exists c. split; [done|].
        by apply (st_crtc d' (Inv_static _ d' HI') c k).
    + apply call_same; [|done|constructor|done]. by destruct fb.
  - apply call_keeps. by apply wp_setcrtc.
  - apply call_keeps. by apply wp_page_flip.
  - apply fwp_bind. eapply fwp_mono; [by apply (wp_cursor_find (hands s))|]. intros r d' [-> Hr]. apply fwp_ret.
    destruct r as [ret|[k [p|]]]; [by apply call_same| |apply call_same; by repeat constructor]. destruct Hr as [Hk Hp].
    case_if; (apply call_same; [done|done| |done]); repeat constructor; auto.
  - by apply call_lookup.
  - by apply call_lookup.
  - apply fwp_ret. apply call_same; by repeat constructor.
  - apply call_keeps. destruct Hok as [Ho Hsets]. apply wp_restore; [done|done|].
    eapply Forall_impl; [exact Hsets|]. intros set [Hfb Hc]. split; [|done]. intros a Ea. unfold hands. apply elem_of_app. right.
    apply elem_of_app. right. by apply Hfb.
  - by apply wp_private.
Qed.

(** ** Interleavings *)

(** A framebuffer is on at most one list of a file, or about to be put there. *)
Definition Filed (s : sys) : Prop := forall a, occ a (filing s) + msum (occ a) (filp_fbs (dev s)) <= 1.

Definition SysInv (s : sys) : Prop := Inv (hands s) (dev s) /\ Forall (Forall (part_ok (dev s))) (threads s) /\ Filed s.

Lemma ok_kept d d' l : Kept d d' -> Forall (Forall (part_ok d)) l -> Forall (Forall (part_ok d')) l.
Proof. intros Hs Hl. eapply Forall_impl; [exact Hl|]. intros t Ht. eapply Forall_impl; [exact Ht|]. intros c. by apply part_ok_kept. Qed.

Lemma occ_filing a s : occ a (filing s) = lsum (fun t => occ a (thread_files t)) (threads s).
Proof. unfold filing. by rewrite occ_mjoin. Qed.

(** What is to be put on a list is held. *)
Lemma filing_held a s : occ a (filing s) <= occ a (hands s).
Proof.
  rewrite occ_filing, occ_hands. pose proof (occ_nonneg a (lost s)). pose proof (occ_nonneg a (private s)).
  enough (lsum (fun t => occ a (thread_files t)) (threads s) <= lsum (fun t => occ a (thread_refs t)) (threads s)) by lia.
  induction (threads s) as [|t ts IHs]; [done|]. cbn [lsum]. enough (occ a (thread_files t) <= occ a (thread_refs t)) by lia.
  clear IHs ts. induction t as [|c t IH]; [done|]. change (thread_files (c :: t)) with (to_file c ++ thread_files t). rewrite thread_refs_cons, !occ_app.
  enough (occ a (to_file c) <= occ a (part_refs c)) by lia. destruct c; cbn [to_file part_refs]; first [apply Z.le_refl|apply occ_nonneg].
Qed.

(** Nobody is about to file a framebuffer that does not exist. *)
Lemma filed_new s a : Inv (hands s) (dev s) -> fbs (dev s) !! a = None -> occ a (filing s) + msum (occ a) (filp_fbs (dev s)) = 0.
Proof.
  intros (H & Hb & _) E. pose proof (bk_exact _ _ _ Hb a) as Hx. rewrite E in Hx. destruct Hx as [Hx _]. unfold refs in Hx.
  pose proof (filing_held a s). pose proof (occ_nonneg a (filing s)). pose proof (count_nonneg (shows a) H).
  pose proof (msum_nonneg (occ a) (filp_fbs (dev s)) (occ_nonneg a)). lia.
Qed.

Lemma exec_inv s ev : SysInv s -> event_ok s ev -> exists s', exec s ev = Done s' /\ SysInv s'.
Proof.
  intros (HI & Hok & Hfd) Hev. destruct ev as [c|i|a]; cbn [exec].
  - pose proof (wp_start s c HI Hev) as Hs. unfold wp in Hs. destruct (start c (dev s)) as [[[[parts l] new] d']| |]; [|done|done].
    destruct Hs as (HI' & Hs & Hp & Hre). eexists. split; [done|]. split_and!; cbn [dev threads].
    + eapply Inv_occ; [|exact HI']. intros a. rewrite occ_hands. cbn [threads lost private lsum]. rewrite !occ_app, occ_hands. lia.
    + constructor; [done|]. by eapply ok_kept.
    + intros a. specialize (Hfd a). specialize (Hre a). rewrite occ_filing in *. unfold files_of in Hre. cbn [threads dev lsum] in *.
      change (occ a (thread_files [])) with 0 in Hre.
      case_bool_decide as Hn; [pose proof (filed_new s a HI Hn) as Hz; rewrite occ_filing in Hz|]; cbn [b2z] in Hre; lia.
  - destruct (threads s !! i) as [[|c rest]|] eqn:E; [by exists s| |by exists s].
    pose proof (Forall_lookup_1 _ _ _ _ Hok E) as Ht. apply Forall_cons in Ht as [Hc Hrest].
    set (e := mjoin (thread_refs <$> <[i := rest]> (threads s)) ++ lost s ++ private s).
    assert (forall a, occ a (hands s) = occ a (part_refs c ++ e)) as Ho.
    { intros a. unfold e. rewrite occ_hands, !occ_app, occ_mjoin, (lsum_insert _ _ _ _ _ E), thread_refs_cons, occ_app. lia. }
    assert (forall a, occ a (thread_files (c :: rest)) = occ a (thread_files [c]) + occ a (thread_files rest)) as Hcr
      by (intros a; apply (thread_files_app [c])).
    assert (forall a, files_of [c] a (dev s) <= 1) as Hf1.
    { intros a. specialize (Hfd a). unfold files_of. rewrite occ_filing in Hfd.
      pose proof (lsum_insert (fun t => occ a (thread_files t)) _ _ _ rest E) as Hl. cbn beta in Hl.
      pose proof (lsum_nonneg (fun t => occ a (thread_files t)) (<[i := rest]> (threads s)) (fun t => occ_nonneg a _)).
      rewrite Hcr in Hl. lia. }
    cbn [event_ok] in Hev. rewrite E in Hev.
    pose proof (wp_part e (dev s) c (Inv_occ _ _ _ Ho HI) Hc Hev Hf1) as Hp. unfold wp in Hp.
    destruct (run_part c (dev s)) as [[parts d']| |]; [|done|done]. destruct Hp as (HI' & Hs & Hps & Hre). eexists. split; [done|].
    split_and!; cbn [dev threads].
    + eapply Inv_occ; [|exact HI']. intros a. rewrite occ_hands. cbn [threads lost private]. unfold e.
      rewrite (lsum_insert _ _ _ _ _ E), !occ_app, occ_mjoin, (lsum_insert _ _ _ _ _ E), thread_refs_app. lia.
    + apply Forall_insert; [by eapply ok_kept|]. apply Forall_app. split; [done|].
      eapply Forall_impl; [exact Hrest|]. intros c'. by apply part_ok_kept.
    + intros a. specialize (Hfd a). specialize (Hre a). rewrite occ_filing in *. unfold files_of in Hre. cbn [threads dev].
      rewrite (lsum_insert _ _ _ _ _ E), thread_files_app, Hcr.
      case_bool_decide as Hn; [pose proof (filed_new s a HI Hn) as Hz; rewrite occ_filing in Hz|]; cbn [b2z] in Hre; lia.
  - case_bool_decide as Hd; [|by exists s]. destruct HI as (H & Hb & Ha). pose proof (wp_reap H (hands s) (dev s) a Hb Hd) as Hr.
    unfold wp in Hr. destruct (reap a (dev s)) as [[[] d']| |]; [|done|done]. destruct Hr as [Hb' F]. eexists. split; [done|].
    pose proof (Frame_same _ _ F) as Hs. split_and!; cbn [dev threads].
    + by eapply Inv_frame.
    + eapply ok_kept; [|exact Hok]. by apply Same_kept.
    + intros b. specialize (Hfd b). destruct Hs as (_ & _ & _ & Ef). cbn [dev]. by rewrite Ef.
Qed.

Lemma booted_inv d : booted d -> SysInv (MkSys d [] [] []).
Proof.
  intros [Bs Bi Bf [Bl Bn] Bfi By Bd]. split_and!; [|constructor|intros a; cbn; by rewrite Bfi, msum_empty]. exists (p_fb <$> planes d). split; [split; try done|].
  - split; cbn [dev]; rewrite ?Bl, ?Bf, ?Bfi, ?Bn; [constructor| |done|done]. intros a. rewrite lookup_empty. split; [intros Ha; by apply not_elem_of_nil in Ha|by intros [? ?]].
  - intros a. cbn [dev]. rewrite Bf, By, lookup_empty. split; [|set_solver]. unfold refs. rewrite Bfi, msum_empty. unfold occ. cbn.
    rewrite count_0; [done|]. intros p o. rewrite lookup_fmap. destruct (planes d !! p) as [x|] eqn:E; [|done]. cbn. intros [= <-].
    by rewrite (proj1 (Bd p x E)).
  - cbn [dev]. split.
    + intros p E. by rewrite lookup_fmap, E.
    + intros p x E _. rewrite lookup_fmap, E. cbn. split; [done|]. by apply (Bd p x E).
    + intros p x _ Hp. by apply not_elem_of_nil in Hp.
Qed.

Lemma fb_reachable_inv s : reachable s -> SysInv s.
Proof.
  induction 1 as [d Hd|s ev s' _ IH Hev He]; [by apply booted_inv|].
  destruct (exec_inv s ev IH Hev) as (s2 & E2 & HI2). congruence.
Qed.

(** ** Theorems *)

(** The holders of a framebuffer: planes that show it, files that list it, parts of
    calls that work with it, the kernel, and calls that lost a reference. *)
Definition holders (s : sys) (a : Z) : Z :=
  count (shows a) (p_fb <$> planes (dev s)) + msum (occ a) (filp_fbs (dev s))
  + lsum (fun t => occ a (thread_refs t)) (threads s) + occ a (private s) + occ a (lost s).

Lemma shown_map H d : Agree [] H d -> H = p_fb <$> planes d.
Proof.
  intros [A1 A2 _]. apply map_eq. intros p. rewrite lookup_fmap. destruct (planes d !! p) as [x|] eqn:E; [|by apply A1].
  by apply (A2 p x E), not_in_nil.
Qed.

Lemma inv_holders s : Inv (hands s) (dev s) -> forall a,
  exact_at (holders s a) (dying (dev s)) a (fbs (dev s) !! a).
Proof.
  intros (H & Hb & Ha) a. rewrite (shown_map H _ Ha) in Hb. pose proof (bk_exact _ _ _ Hb a) as Hx.
  unfold refs in Hx. rewrite occ_hands in Hx. unfold holders.
  by match goal with |- exact_at ?n _ _ _ => match type of Hx with exact_at ?m _ _ _ => replace n with m by lia end end.
Qed.

(** C2: Whatever calls threads make and however their parts and the releases of
    framebuffers interleave, in steps that are all [event_ok], the count of each
    framebuffer is the number of its holders, it is 0 exactly while the framebuffer's
    release is under way, one that is gone has no holder, its identifier finds it and no
    other object, and the device's list and number of framebuffers agree with those in
    memory.  A step is [event_ok] when an identifier is left for a framebuffer that is
    created; when the framebuffer of a cursor call is still on the file's list as the
    call takes its reference; and when, as the console is restored, everything that an
    overlay or a cursor shows is also held by a file or a call, the console's own
    framebuffers are the kernel's and its CRTCs are the device's.  A part of a call under
    the locks of mode setting is one step. *)
Theorem fb_refs_exact s :
  reachable s ->
  (forall a, match fbs (dev s) !! a with
             | Some fb => refcount fb = holders s a /\ (holders s a = 0 <-> a ∈ dying (dev s))
             | None => holders s a = 0 /\ a ∉ dying (dev s) end) /\
  (forall id a, idr_find (crtc_idr (dev s)) id = Some a -> obj_id (dev s) a = Some id) /\
  (forall a fb, fbs (dev s) !! a = Some fb -> fb_id fb <> 0 -> idr_find (crtc_idr (dev s)) (fb_id fb) = Some a) /\
  (forall a, a ∈ fb_list (dev s) <-> is_Some (fbs (dev s) !! a)) /\
  num_fb (dev s) = Z.of_nat (size (fbs (dev s))).
Proof.
  intros [HI _]%fb_reachable_inv. pose proof (Inv_listed _ _ HI) as [L1 L2 L3 _]. pose proof (Inv_ids _ _ HI) as [_ I2 I3 _ _ _ _].
  split_and!; [by apply inv_holders|done|done|done|]. rewrite L3. f_equal. rewrite <- size_dom.
  rewrite <- (size_list_to_set (C := gset Z) (fb_list (dev s)) L1). apply set_size_proper. intros a.
  by rewrite elem_of_list_to_set, elem_of_dom, L2.
Qed.

(** C9: In every state that steps which are [event_ok] (see above) reach, every further step that
    is [event_ok] runs without using a framebuffer that was freed, hitting the [BUG] of a
    count that drops to 0 or taking an entry from a list on which it is not. *)
Theorem fb_interleavings_safe s ev :
  reachable s -> event_ok s ev -> exists s', exec s ev = Done s'.
Proof. intros HI%fb_reachable_inv Hev. destruct (exec_inv s ev HI Hev) as (s' & E & _). by exists s'. Qed.

(** ** Removal *)

Lemma remove_live a d d' : drm_framebuffer_remove a d = Done (tt, d') -> is_Some (fbs d' !! a).
Proof.
  unfold drm_framebuffer_remove, mbind, md_bind. destruct (the_fb a d) as [[fb d1]| |]; [|done|done].
  destruct ((if 1 <? refcount fb then remove_locked a else mret tt) d1) as [[[] d2]| |]; [|done|done].
  unfold drm_framebuffer_unreference, mbind, md_bind, the_fb. destruct (fbs d2 !! a) as [fb2|]; [|done]. cbn.
  case_if; intros [= <-]; cbn; by rewrite lookup_insert_eq.
Qed.

(** A framebuffer that leaves the list of a file is on none. *)
Lemma taken_nowhere s file a d :
  Filed s -> a ∈ default [] (filp_fbs (dev s) !! file) ->
  filp_fbs d = <[file := list_del a (default [] (filp_fbs (dev s) !! file))]> (filp_fbs (dev s)) -> msum (occ a) (filp_fbs d) = 0.
Proof.
  intros Hf Hin ->. specialize (Hf a). rewrite msum_list. set (l := default [] _) in *. apply occ_pos in Hin.
  assert (occ a (list_del a l) = 0) as ->.
  { apply lsum_zero. intros b [_ Hb]%list_del_elem. by apply b2z_eqb_ne. }
  pose proof (occ_nonneg a (filing s)). pose proof (msum_nonneg (occ a) (filp_fbs (dev s)) (occ_nonneg a)).
  pose proof (msum_ge (occ a) (filp_fbs (dev s)) file l (occ_nonneg a)) as Hg.
  destruct (filp_fbs (dev s) !! file) as [l'|]; cbn in l; subst l; [specialize (Hg eq_refl); lia|]. change (occ a []) with 0 in Hin. lia.
Qed.

Lemma dark_count a d : dark a d -> count (shows a) (p_fb <$> planes d) = 0.
Proof.
  intros Hdark. apply count_0. intros p o. rewrite lookup_fmap. destruct (planes d !! p) as [x|] eqn:E; [|done].
  intros [= <-]. specialize (Hdark p x E). destruct (p_fb x) as [b|]; [|done]. cbn. apply Z.eqb_neq. congruence.
Qed.

(** C25: On a driver that can switch every plane off, [drm_mode_rmfb] that runs alone from
    any state that allowed steps reach returns: -ENOENT without any change exactly when the identifier is not
    that of a framebuffer on the file's list, and otherwise 0; then no plane shows the
    framebuffer and no file lists it, and if no other call and not the kernel holds it,
    its release is due and frees it. *)
Theorem rmfb_removes s file id :
  reachable s -> can_disable ->
  exists ret d', drm_mode_rmfb file id (dev s) = Done (ret, d') /\
    (ret = - ENOENT /\ d' = dev s /\ (forall a, ~ named_by (dev s) file id a) \/
     ret = 0 /\ exists a, named_by (dev s) file id a /\ dark a d' /\ (forall f l, filp_fbs d' !! f = Some l -> a ∉ l) /\
       (a ∉ hands s -> a ∈ dying d' /\ exists d'', drm_framebuffer_free a d' = Done (tt, d'') /\ fbs d'' !! a = None)).
Proof.
  intros (HI & _ & Hfd)%fb_reachable_inv Hdis. pose proof (wp_rmfb_find (hands s) (dev s) file id HI) as Hf.
  unfold drm_mode_rmfb, mbind, md_bind. unfold wp in Hf. destruct (rmfb_find file id (dev s)) as [[[a|] d1]| |]; try done.
  2: { destruct Hf as [-> Hno]. do 2 eexists. split; [done|]. by left. }
  destruct Hf as (HI1 & _ & Hn & Ef1). pose proof (wp_remove (hands s) d1 a HI1) as Hr. unfold wp in Hr.
  destruct (drm_framebuffer_remove a d1) as [[[] d2]| |] eqn:Erm; try done. destruct Hr as (HI2 & Hs2 & Hdark). specialize (Hdark Hdis).
  assert (msum (occ a) (filp_fbs d2) = 0) as Hm.
  { destruct Hs2 as (_ & _ & _ & ->). by apply (taken_nowhere s file a d1 Hfd (proj2 Hn)). }
  do 2 eexists. split; [done|]. right. split; [done|]. exists a. split_and!; [done|done| |].
  { intros f l El Hl. pose proof (msum_ge (occ a) (filp_fbs d2) f l (occ_nonneg a) El). apply occ_pos in Hl. lia. }
  intros Ho. destruct HI2 as (H & Hb & Ha). pose proof (bk_exact _ _ _ Hb a) as Hx. destruct (remove_live a d1 d2 Erm) as [fb E].
  rewrite E in Hx. destruct Hx as [_ Hx]. rewrite (shown_map H _ Ha) in Hx. unfold refs in Hx.
  assert (occ a (hands s) = 0) as Hz by (pose proof (occ_nonneg a (hands s)); pose proof (proj1 (occ_pos a (hands s))); destruct (decide (occ a (hands s) = 0)); [done|destruct Ho; auto with lia]).
  rewrite (dark_count a d2 Hdark), Hm, Hz in Hx. assert (a ∈ dying d2) as Hd by (by apply Hx). split; [done|].
  pose proof (wp_free H (hands s) d2 a Hb Hd) as Hfree. unfold wp in Hfree.
  destruct (drm_framebuffer_free a d2) as [[[] d3]| |]; try done. exists d3. by destruct Hfree as (_ & _ & ?).
Qed.

(** ** The console *)

(** Plane [p] alone holds [a], which is not to be freed. *)
Definition only_shown (p : Z) (x : drm_plane) (a : Z) (fb : drm_framebuffer) (d : device) : Prop :=
  planes d !! p = Some x /\ fbs d !! a = Some fb /\ forall q y, q <> p -> planes d !! q = Some y -> p_fb y <> Some a.

(** Switching another plane off does not change this. *)
Lemma force_disable_other p x a fb q d :
  only_shown p x a fb d -> q <> p -> p_fb x = Some a ->
  match drm_plane_force_disable q d with Done (_, d') => only_shown p x a fb d' | Oops => True | Loops => False end.
Proof.
  intros (Ep & Ea & Ho) Hq Hx. unfold drm_plane_force_disable, mbind, md_bind, the_plane, call_hw, on_plane.
  destruct (planes d !! q) as [y|] eqn:Eq; [|done]. destruct (p_fb y) as [b|] eqn:Eb; [|done].
  assert (b <> a) as Hb by (intros ->; by apply (Ho q y)).
  assert (forall d1 z, planes d1 = <[q := z]> (planes d) -> fbs d1 !! a = Some fb -> p_fb z = Some b \/ p_fb z = None -> only_shown p x a fb d1) as Hd.
  { intros d1 z E1 E2 Hz. split_and!; [by rewrite E1, lookup_insert_ne|done|]. intros r w Hr. rewrite E1.
    destruct (decide (q = r)) as [<-|]; [rewrite lookup_insert_eq; intros [= <-]; destruct Hz; congruence|].
    rewrite lookup_insert_ne by done. by apply Ho. }
  unfold mbind, md_bind, the_plane. rewrite Eq. cbn [modify with_planes planes dhw].
  destruct (disable_plane q (dhw d)) as [ret h]. destruct (truth ret).
  - cbn. rewrite lookup_insert_eq. cbn. apply (Hd _ (with_old_fb None (with_old_fb (Some b) y))); [cbn; by rewrite insert_insert_eq|done|by left].
  - unfold __drm_framebuffer_unreference, mbind, md_bind, the_fb. cbn [fbs with_hw with_planes]. destruct (fbs d !! b) as [fb'|]; [|done].
    case_if; [done|]. cbn. rewrite lookup_insert_eq. cbn.
    apply (Hd _ (with_crtc None (with_fb None (with_old_fb None (with_old_fb (Some b) y))))); [cbn; by rewrite insert_insert_eq| |by right].
    cbn. by rewrite lookup_insert_ne.
Qed.

Lemma force_disable_dom q d d' r :
  drm_plane_force_disable q d = Done (tt, d') -> is_Some (planes d !! r) -> is_Some (planes d' !! r).
Proof.
  unfold drm_plane_force_disable, mbind, md_bind, the_plane, call_hw, on_plane. destruct (planes d !! q) as [y|] eqn:Eq; [|done].
  assert (forall (m : gmap Z drm_plane) z, m = <[q := z]> (planes d) -> is_Some (planes d !! r) -> is_Some (m !! r)) as Hi.
  { intros m z -> Hr. destruct (decide (q = r)) as [<-|]; [by rewrite lookup_insert_eq|by rewrite lookup_insert_ne]. }
  destruct (p_fb y) as [b|]; [|by intros [= <-]]. unfold mbind, md_bind, the_plane. rewrite Eq. cbn [modify with_planes planes dhw].
  destruct (disable_plane q (dhw d)) as [ret h]. destruct (truth ret).
  - cbn. rewrite lookup_insert_eq. cbn. intros [= <-]. eapply Hi. cbn. by rewrite insert_insert_eq.
  - unfold __drm_framebuffer_unreference, mbind, md_bind, the_fb. cbn [fbs with_hw with_planes]. destruct (fbs d !! b); [|done].
    case_if; [done|]. cbn. rewrite lookup_insert_eq. cbn. intros [= <-]. eapply Hi. cbn. by rewrite insert_insert_eq.
Qed.

(** Switching this plane off drops the last reference. *)
Lemma force_disable_last p x a fb d :
  can_disable -> only_shown p x a fb d -> p_fb x = Some a -> refcount fb = 1 -> drm_plane_force_disable p d = Oops.
Proof.
  intros Hdis (Ep & Ea & _) Hx H1. unfold drm_plane_force_disable, mbind, md_bind, the_plane, call_hw, on_plane.
  rewrite Ep, Hx. unfold mbind, md_bind, the_plane. rewrite Ep. cbn [modify with_planes planes dhw].
  pose proof (Hdis p (dhw d)) as Hd. destruct (disable_plane p (dhw d)) as [ret h]. cbn in Hd. subst ret. cbn [truth Z.eqb negb].
  unfold __drm_framebuffer_unreference, mbind, md_bind, the_fb. cbn [fbs with_hw with_planes]. by rewrite Ea, H1.
Qed.

Lemma restore_planes_oops p x a fb l d :
  can_disable -> only_shown p x a fb d -> p_fb x = Some a -> p_type x <> DRM_PLANE_TYPE_PRIMARY -> refcount fb = 1 -> p ∈ l ->
  (forall q, q ∈ l -> is_Some (planes d !! q)) -> each restore_plane l d = Oops.
Proof.
  intros Hdis Ho Hx Ht H1. revert d Ho. induction l as [|q l IH]; intros d Ho Hin Hl; [by apply not_elem_of_nil in Hin|].
  cbn [each]. unfold mbind, md_bind. destruct (Hl q ltac:(set_solver)) as [y Ey].
  unfold restore_plane at 1, mbind, md_bind, the_plane. rewrite Ey. destruct (decide (q = p)) as [->|Hq].
  - destruct Ho as (Ep & Hrest). rewrite Ep in Ey. injection Ey as <-. rewrite bool_decide_eq_false_2 by done.
    by rewrite (force_disable_last p x a fb d Hdis (conj Ep Hrest) Hx H1).
  - assert (match (if bool_decide (p_type y = DRM_PLANE_TYPE_PRIMARY) then mret tt else drm_plane_force_disable q) d with
      | Done (_, d') => only_shown p x a fb d' /\ forall r, is_Some (planes d !! r) -> is_Some (planes d' !! r) | Oops => True | Loops => False end) as Hs.
    { case_bool_decide; [done|]. pose proof (force_disable_other p x a fb q d Ho Hq Hx) as Hd.
      destruct (drm_plane_force_disable q d) as [[[] d']| |] eqn:Ed; [|done|done]. split; [done|]. intros r. by apply (force_disable_dom q d). }
    destruct ((if bool_decide (p_type y = DRM_PLANE_TYPE_PRIMARY) then mret tt else drm_plane_force_disable q) d) as [[[] d']| |]; [|done|done]. destruct Hs as [Hs Hdom].
    destruct reset_rotation as [f|]; cbn; (apply IH; [done|set_solver|]); cbn; intros r Hr; apply Hdom, Hl; set_solver.
Qed.

(** C40: In a state that allowed steps reach, in which an overlay or a cursor is the only holder of the
    framebuffer that it shows, on a driver that can switch every plane off, restoring the
    console hits the [BUG] of [drm_framebuffer_free_bug], whatever its configurations
    are: [drm_plane_force_disable] drops the last reference.  (The witness reaches such a
    state: one thread removes a framebuffer while another is about to show it.) *)
Theorem restore_hits_bug s p x a fb sets :
  reachable s -> can_disable -> planes (dev s) !! p = Some x -> p_type x <> DRM_PLANE_TYPE_PRIMARY -> p_fb x = Some a ->
  fbs (dev s) !! a = Some fb -> refcount fb = 1 -> restore_fbdev_mode sets (dev s) = Oops.
Proof.
  intros (HI & _)%fb_reachable_inv Hdis Ep Ht Hx Ea H1. pose proof (inv_holders s HI a) as Hh. rewrite Ea in Hh. destruct Hh as [Hh _].
  unfold holders in Hh. pose proof (msum_nonneg (occ a) (filp_fbs (dev s)) (occ_nonneg a)). pose proof (occ_nonneg a (private s)).
  pose proof (occ_nonneg a (lost s)). pose proof (lsum_nonneg (fun t => occ a (thread_refs t)) (threads s) (fun t => occ_nonneg a _)).
  unfold restore_fbdev_mode, mbind, md_bind, reads. rewrite (restore_planes_oops p x a fb); try done.
  - split_and!; [done|done|]. intros q y Hq Ey Hy.
    pose proof (count_insert (shows a) (p_fb <$> planes (dev s)) p None) as Hc. rewrite lookup_fmap, Ep in Hc. cbn in Hc.
    rewrite Hx in Hc. cbn in Hc. rewrite Z.eqb_refl in Hc. cbn in Hc.
    pose proof (count_ge (shows a) (<[p := None]> (p_fb <$> planes (dev s))) q (Some a)) as Hg.
    rewrite lookup_insert_ne, lookup_fmap, Ey in Hg by done. cbn in Hg. rewrite Hy, Z.eqb_refl in Hg. specialize (Hg eq_refl). cbn in Hg. lia.
  - apply (st_planes _ (Inv_static _ _ HI)). by exists x.
  - intros q. apply (st_planes _ (Inv_static _ _ HI)).
Qed.

End fb_props.

(** ** Samples *)
Module FbSample.
Export FormatSample PlaneSample.
#[local] Existing Instance SampleIdr.ops.
#[local] Existing Instance SampleIdr.laws.

#[export] Instance sample_modes_h : drm_modes_h := {|
  DRM_MODE_FLAG_PHSYNC := 1; DRM_MODE_FLAG_NHSYNC := 2; DRM_MODE_FLAG_PVSYNC := 4; DRM_MODE_FLAG_NVSYNC := 8;
  DRM_MODE_FLAG_INTERLACE := 16; DRM_MODE_FLAG_DBLSCAN := 32; DRM_MODE_FLAG_DBLCLK := 4096;
  DRM_MODE_FLAG_3D_MASK := 0; DRM_MODE_FLAG_3D_FRAME_PACKING := 1;
  DRM_MODE_TYPE_BUILTIN := 1; DRM_MODE_TYPE_CRTC_C := 6; DRM_MODE_TYPE_PREFERRED := 8; DRM_MODE_TYPE_USERDEF := 32;
  CRTC_INTERLACE_HALVE_V := 1; CRTC_STEREO_DOUBLE := 2; MODE_OK := 0; MODE_VIRTUAL_X := 1; MODE_VIRTUAL_Y := 2;
  DISPLAY_FLAGS_HSYNC_LOW := 1; DISPLAY_FLAGS_HSYNC_HIGH := 2; DISPLAY_FLAGS_VSYNC_LOW := 4; DISPLAY_FLAGS_VSYNC_HIGH := 8;
  DISPLAY_FLAGS_INTERLACED := 256; DISPLAY_FLAGS_DOUBLESCAN := 512; DISPLAY_FLAGS_DOUBLECLK := 1024;
  KHZ2PICOS x := 1000000000 / x; DRM_MODE_CONNECTOR_DVII := 2; DRM_MODE_CONNECTOR_HDMIB := 12 |}.

(** A driver that accepts everything. *)
#[export] Instance driver : mode_env := {|
  mode_hw := unit; crtc_view _ _ := (screen, 0, 0); set_config _ h := (0, h, fun _ => Keep);
  page_flip := Some (fun _ _ _ h => (0, h, true)); update_plane _ _ _ _ h := (0, h); disable_plane _ h := (0, h);
  cursor_set := None; cursor_set2 := None; cursor_move := None; reset_rotation := None; fb_create _ _ h := (0, h);
  fb_destroy _ h := h; fb_dirty := None; fb_create_handle := None;
  DRM_MODE_CURSOR_BO := 1; DRM_MODE_CURSOR_MOVE := 2; DRM_MODE_CURSOR_FLAGS := 3;
  DRM_MODE_PAGE_FLIP_FLAGS := 3; DRM_MODE_PAGE_FLIP_ASYNC := 2; DRM_MODE_PAGE_FLIP_EVENT := 1;
  DRM_MODE_FB_DIRTY_FLAGS := 3; DRM_MODE_FB_DIRTY_ANNOTATE_COPY := 1; DRM_MODE_FB_DIRTY_MAX_CLIPS := 256 |}.

#[export] Instance driver_laws : mode_laws.
Proof. split. intros flip c a fl h ret h' changed [= <-]. by intros [= <- <- <-]. Qed.

(** CRTC 1 with the primary plane 2 and the cursor plane 4, and the overlay 3; their
    identifiers are the addresses. *)
Definition boot : device :=
  MkDevice ∅
    {[2 := MkPlane 2 DRM_PLANE_TYPE_PRIMARY 1 [DRM_FORMAT XRGB8888] None None None;
      3 := MkPlane 3 DRM_PLANE_TYPE_OVERLAY 1 [DRM_FORMAT XRGB8888] None None None;
      4 := MkPlane 4 DRM_PLANE_TYPE_CURSOR 1 [DRM_FORMAT ARGB8888] None None None]}
    {[1 := MkCrtc 1 2 (Some 4) 0 0]} ∅ ({[1 := 1; 2 := 2; 3 := 3; 4 := 4]} : gmap Z Z) [] 0 [2; 3; 4] [1] ∅ 5 tt ∅.

Lemma boot_booted : booted boot.
Proof.
  split.
  - split.
    + intros c k Hc. assert (c = 1 /\ k = MkCrtc 1 2 (Some 4) 0 0) as [-> ->].
      { unfold boot in Hc. cbn in Hc. apply lookup_singleton_Some in Hc as [<- <-]. done. }
      split; [set_solver|]. split; [by eexists|]. intros p [= <-]. by eexists.
    + intros c Hc. apply list_elem_of_singleton in Hc as ->. by eexists.
    + apply (bool_decide_unpack _). by vm_compute.
    + intros c1 c2 k1 k2 E1 E2 _. cbn in E1, E2. apply lookup_singleton_Some in E1 as [<- _], E2 as [<- _]. done.
    + intros p. split.
      * intros Hp. repeat (apply elem_of_cons in Hp as [->|Hp]; [by eexists|]). by apply not_elem_of_nil in Hp.
      * intros [x Hx]. unfold boot in Hx. cbn [planes] in Hx.
        do 2 (apply lookup_insert_Some in Hx as [[<- _]|[_ Hx]]; [set_solver|]). apply lookup_singleton_Some in Hx as [<- _]. set_solver.
  - split.
    + intros k p Hk. refine (map_Forall_lookup_1 (fun k _ => 1 <= k) _ k p _ Hk). apply (bool_decide_unpack _). by vm_compute.
    + intros k p Hk. refine (map_Forall_lookup_1 (fun k p => obj_id boot p = Some k) _ k p _ Hk). apply (bool_decide_unpack _). by vm_compute.
    + intros a fb Ha. done.
    + intros p Hp. change (5 <= p) in Hp. unfold boot. cbn [fbs crtcs planes others].
      rewrite !lookup_insert_ne, !lookup_singleton_ne by lia. done.
    + done.
    + done.
    + done.
  - done.
  - done.
  - done.
  - done.
  - intros p x Hp. refine (map_Forall_lookup_1 (fun _ x => p_fb x = None /\ p_old_fb x = None) (planes boot) p x _ Hp).
    intros q y. unfold boot. cbn [planes]. rewrite !lookup_insert_Some, lookup_singleton_Some. naive_solver.
Qed.

(** The conditions of [event_ok] that can be computed. *)
Definition okb (s : sys) (ev : event) : bool :=
  match ev with
  | Start (Addfb _ mem _ _) | Start (Addfb2 _ mem _ _) | Start (Private mem _) =>
      0 <=? (idr_alloc mem (next (dev s)) 1 (crtc_idr (dev s))).1
  | Start (Restore _) => false
  | Run i =>
      match threads s !! i with
      | Some (CursorCreate _ mem _ _ _ _ :: _) => 0 <=? (idr_alloc mem (next (dev s)) 1 (crtc_idr (dev s))).1
      | Some (CursorRef file _ _ a _ :: _) => bool_decide (a ∈ default [] (filp_fbs (dev s) !! file))
      | _ => true
      end
  | _ => true
  end.

Lemma okb_ok s ev : okb s ev = true -> event_ok s ev.
Proof.
  destruct ev as [[]|i|]; cbn; try done; try (by intros ?%Z.leb_le). destruct (threads s !! i) as [[|[] ?]|]; cbn; try done.
  - by intros ?%Z.leb_le.
  - by intros ?%bool_decide_eq_true.
Qed.

Fixpoint go (s : sys) (evs : list event) : option sys :=
  match evs with
  | [] => Some s
  | ev :: evs => if okb s ev then match exec s ev with Done s' => go s' evs | _ => None end else None
  end.

Lemma go_reachable s evs s' : reachable s -> go s evs = Some s' -> reachable s'.
Proof.
  revert s. induction evs as [|ev evs IH]; cbn; intros s Hs; [by intros [= <-]|].
  destruct (okb s ev) eqn:Eo; [|done]. destruct (exec s ev) as [s1| |] eqn:E; [|done|done]. apply IH.
  apply (reach_step s ev); [done|by apply okb_ok|done].
Qed.

Definition s0 : sys := MkSys boot [] [] [].

Lemma s0_reachable : reachable s0.
Proof. apply reach_boot, boot_booted. Qed.

Definition limits : fb_limits := MkLimits 1 4096 1 4096.
Definition rects : plane_rects := MkRects 0 0 640 480 0 0 (640 * 2 ^ 16) (480 * 2 ^ 16).
(** File 5 creates a framebuffer at address 5 with identifier 5. *)
Definition add : list event := [Start (Addfb2 limits true 5 rgb); Run 0].

(** One thread has looked the framebuffer up to show it on the overlay when another
    removes it; the update comes last. *)
Definition race : list event := add ++ [Start (Setplane 3 5 1 rects); Start (Rmfb 5 5); Run 0; Run 0; Run 0; Run 1].
(** An update for an unknown CRTC, then the file is closed. *)
Definition leak : list event := add ++ [Start (Setplane 3 5 77 rects); Start (Close 5); Run 0; Run 0; Run 0; Run 0; Run 0].
(** A new cursor image: its framebuffer is on the file's list, and another thread of the
    file removes it. *)
Definition pointer : drm_mode_cursor2 := MkCursor 1 1 0 0 64 64 7.
Definition cursor_race : list event :=
  [Start (Cursor limits true 5 pointer); Run 0; Run 0; Start (Rmfb 5 5); Run 0; Run 0; Reap 5].

Definition after (evs : list event) : sys := default s0 (go s0 evs).

Lemma after_reachable evs : is_Some (go s0 evs) -> reachable (after evs).
Proof. intros [s E]. unfold after. rewrite E. exact (go_reachable s0 evs s s0_reachable E). Qed.

End FbSample.

Import FbSample.
#[local] Existing Instance SampleIdr.ops.
#[local] Existing Instance SampleIdr.laws.

(** Tests that evaluate to a boolean. *)
Definition ends (evs : list event) : bool := match go s0 evs with Some _ => true | None => false end.
Definition fails {A} (r : run A) : bool := match r with Oops => true | _ => false end.
Definition idle (s : sys) : bool := forallb (fun t => match t with [] => true | _ => false end) (threads s).

Lemma ends_reachable evs : ends evs = true -> reachable (after evs).
Proof. unfold ends. destruct (go s0 evs) eqn:E; [|done]. intros _. apply after_reachable. by rewrite E. Qed.

Lemma fails_oops {A} (r : run A) : fails r = true -> r = Oops.
Proof. by destruct r. Qed.

Lemma idle_all s : idle s = true -> Forall (fun t => t = []) (threads s).
Proof.
  unfold idle. induction (threads s) as [|t l IH]; cbn; [constructor|]. intros [Ht Hl]%andb_prop. constructor; [by destruct t|by apply IH].
Qed.

(** The thread is about to take its reference of [a]. *)
Definition refers (s : sys) (i : nat) (a : Z) : bool :=
  match threads s !! i with Some (CursorRef _ _ _ b _ :: _) => a =? b | _ => false end.

(** [drm_mode_cursor_universal] takes its reference of a new framebuffer after it has put
    it on the file's list: when another thread of the file removes it in between, the
    framebuffer is freed, and the call uses it. *)
Theorem cursor_race_uses_freed :
  exists s, reachable s /\ refers s 1 5 = true /\ fbs (dev s) !! 5 = None /\ exec s (Run 1) = Oops.
Proof.
  exists (after cursor_race). split_and!; [|vm_compute; reflexivity|vm_compute; reflexivity|].
  - apply ends_reachable. vm_compute. reflexivity.
  - apply fails_oops. vm_compute. reflexivity.
Qed.

(** The lost reference is the only one. *)
Definition only_lost (s : sys) (a : Z) : bool :=
  match fbs (dev s) !! a with Some fb => (refcount fb =? 1) && (0 <? occ a (lost s)) | None => false end.

Lemma only_lost_facts s a :
  reachable s -> only_lost s a = true ->
  dark a (dev s) /\ (forall f l, filp_fbs (dev s) !! f = Some l -> a ∉ l) /\ a ∉ private s /\
  exists fb, fbs (dev s) !! a = Some fb /\ refcount fb = 1.
Proof.
  intros [HI _]%fb_reachable_inv Ho. pose proof (inv_holders s HI a) as Hx. unfold only_lost in Ho.
  destruct (fbs (dev s) !! a) as [fb|]; [|done]. b2p. destruct Hx as [Hx _]. unfold holders in Hx.
  pose proof (count_nonneg (shows a) (p_fb <$> planes (dev s))). pose proof (msum_nonneg (occ a) (filp_fbs (dev s)) (occ_nonneg a)).
  pose proof (lsum_nonneg (fun t => occ a (thread_refs t)) (threads s) (fun t => occ_nonneg a _)). pose proof (occ_nonneg a (private s)).
  split_and!.
  - intros p x Ex Ea. pose proof (count_ge (shows a) (p_fb <$> planes (dev s)) p (Some a)) as Hc.
    rewrite lookup_fmap, Ex, <- Ea in Hc. specialize (Hc eq_refl). rewrite Ea, shows_refl in Hc. cbn in Hc. lia.
  - intros f l El Hl. pose proof (msum_ge (occ a) (filp_fbs (dev s)) f l (occ_nonneg a) El). apply occ_pos in Hl. lia.
  - intros Hp. apply occ_pos in Hp. lia.
  - by exists fb.
Qed.

(** [drm_mode_setplane] with an unknown CRTC keeps the reference of the framebuffer
    that it looked up: after the file is closed and every call has returned, no plane,
    file or thread holds the framebuffer, and it is still there. *)
Theorem setplane_leaks_framebuffer :
  exists s a fb, reachable s /\ Forall (fun t => t = []) (threads s) /\ dark a (dev s) /\
    (forall f l, filp_fbs (dev s) !! f = Some l -> a ∉ l) /\ a ∉ private s /\
    fbs (dev s) !! a = Some fb /\ refcount fb = 1.
Proof.
  assert (reachable (after leak)) as Hr by (apply ends_reachable; vm_compute; reflexivity).
  destruct (only_lost_facts (after leak) 5 Hr) as (Hd & Hf & Hp & fb & E & E1); [vm_compute; reflexivity|].
  assert (Forall (fun t => t = []) (threads (after leak))) as Hi by (apply idle_all; vm_compute; reflexivity).
  exists (after leak), 5, fb. exact (conj Hr (conj Hi (conj Hd (conj Hf (conj Hp (conj E E1)))))).
Qed.

(** Runs of events as they come. *)
Fixpoint plain (s : sys) (evs : list event) : run sys :=
  match evs with [] => Done s | ev :: evs => s' ← exec s ev; plain s' evs end.

(** The ioctl's status and identifier, and whether the framebuffer is on the list. *)
Definition add_result (r : run ((Z * Z) * device)) : option (Z * Z * list Z) :=
  match r with Done (ret, id, d) => Some (ret, id, fb_list d) | _ => None end.

(** When no identifier is left, [drm_framebuffer_init] reports success: the ioctl
    returns 0 and the identifier 0 for a framebuffer that is on no list of the device,
    and closing the file removes it from the list on which it is not. *)
Theorem fb_init_failure_crashes :
  let closing := [Start (Addfb2 limits false 5 rgb); Run 0; Start (Close 5); Run 0; Run 0; Run 0] in
  add_result (drm_mode_addfb2 limits false 5 rgb boot) = Some (0, 0, []) /\
  fails (plain s0 closing) = false /\ plain s0 (closing ++ [Reap 5]) = Oops.
Proof.
  split; [vm_compute; reflexivity|]. split; [vm_compute; reflexivity|]. apply fails_oops. vm_compute. reflexivity.
Qed.

(** ** Witnesses *)

(** The framebuffer of file 5 is shown on the overlay. *)
Definition shown : list event := add ++ [Start (Setplane 3 5 1 rects); Run 0].

Lemma shown_reachable : reachable (after shown).
Proof. apply ends_reachable. vm_compute. reflexivity. Qed.

Lemma fb_refs_exact_witness : refcount (default (MkFb 0 0 PlaneSample.layout) (fbs (dev (after shown)) !! 5)) = 2 /\
  num_fb (dev (after shown)) = Z.of_nat (size (fbs (dev (after shown)))).
Proof.
  destruct (fb_refs_exact (after shown) shown_reachable) as (_ & _ & _ & _ & Hn).
  split; [vm_compute; reflexivity|exact Hn].
Defined.

Lemma fb_interleavings_safe_witness : exists s', exec (after shown) (Start (Rmfb 5 5)) = Done s'.
Proof. apply (fb_interleavings_safe (after shown) (Start (Rmfb 5 5)) shown_reachable). exact I. Defined.

(** The identifier is that of a framebuffer of the file. *)
Definition named_fb (file id : Z) (s : sys) : option Z :=
  match idr_find (crtc_idr (dev s)) id with
  | Some a => if bool_decide (a ∈ default [] (filp_fbs (dev s) !! file)) then Some a else None
  | None => None
  end.

Lemma rmfb_removes_witness : named_fb 5 5 (after shown) = Some 5 /\
  exists d', drm_mode_rmfb 5 5 (dev (after shown)) = Done (0, d') /\ dark 5 d'.
Proof.
  split; [vm_compute; reflexivity|].
  destruct (rmfb_removes (after shown) 5 5 shown_reachable) as (ret & d' & E & Hr); [intros p h; reflexivity|].
  assert (named_by (dev (after shown)) 5 5 5) as Hn.
  { split; [vm_compute; reflexivity|]. apply (bool_decide_unpack _). vm_compute. reflexivity. }
  destruct Hr as [(_ & _ & Hno)|(-> & a & [Ha _] & Hd & _)]; [by destruct (Hno 5)|]. exists d'. split; [exact E|].
  destruct Hn as [Hn _]. rewrite Hn in Ha. injection Ha as <-. exact Hd.
Defined.

Definition no_plane : drm_plane := MkPlane 0 DRM_PLANE_TYPE_PRIMARY 0 [] None None None.

Lemma restore_hits_bug_witness : reachable (after race) /\ Forall (fun t => t = []) (threads (after race)) /\
  restore_fbdev_mode [] (dev (after race)) = Oops.
Proof.
  assert (reachable (after race)) as Hr by (apply ends_reachable; vm_compute; reflexivity).
  split; [exact Hr|]. split; [apply idle_all; vm_compute; reflexivity|].
  set (x := default no_plane (planes (dev (after race)) !! 3)).
  set (fb := default (MkFb 0 0 PlaneSample.layout) (fbs (dev (after race)) !! 5)).
  refine (restore_hits_bug (after race) 3 x 5 fb [] Hr _ _ _ _ _ _).
  - intros p h. reflexivity.
  - vm_compute. reflexivity.
  - vm_compute. discriminate.
  - vm_compute. reflexivity.
  - vm_compute. reflexivity.
  - vm_compute. reflexivity.
Defined.
